(* ===== verification/_CoqProject ===== *)
-Q . S2P
Prelude.v
Rows.v
Bigint.v
Block.v
Encode.v
AlphaCode.v
MapValues.v
Amounts.v
Chain.v
ZkHash.v
Merkle.v
Objects.v
Pow.v
Serials.v
Txs.v
Validate.v
Ledger.v
ProcessQ.v
ValidObjs.v
Announce.v
RelayTable.v
TxQueue.v
UniFloat.v
WireFloat.v
TxAmount.v
TxWire.v
TxTrip.v
Xmatch.v
XtxWire.v
MatchTables.v
ProcessTx.v
ForeignBtc.v
Mining.v
Settle.v
Settlement.v
XreqTable.v
Matching.v
XreqFlow.v
Rounds.v
RoundEnd.v
Exchange.v
Indexing.v
