(* ===== verification/Prelude.v ===== *)
(** * CredaCash network node: a verification library (root file)

    The CredaCash node keeps a blockchain whose transactions hide amounts and parties, with
    an exchange of its currency for foreign ones built into the chain.  This library
    models the parts of the node that decide what is valid, what becomes permanent, who
    is paid how much, and what goes on the wire, and proves what makes them correct.
    Definitions follow the C++ of [src/source/] function for function, with the names
    of the code; the last sections below say what is left out and why.

    ** Conventions

    A machine integer is a [Z] with the wrap-around written out ([u8], [u64], [i32], ...);
    a byte is a [Z] below 256; a struct is a [Record], an enum an [Inductive] or the
    constants of the code, an [unordered_map] or a table keyed by its primary key a
    [gmap].  Shared objects live in a heap where aliasing matters (Block.v).  A function that may throw
    gives an [outcome]; one that returns error codes early is a computation of the monad
    of TxWire.v, in which an access out of bounds is the result [BadAccess]; a function
    on a database takes what the database engine answers as an argument, so that every
    error path is covered.  Threads are step relations: what runs under one mutex is
    one step.  Logging, tracing and statistics are dropped.

    ** Parts of the program and the files that model them

    Arithmetic and codecs (cclib, cccommon):
    - Bigint.v: limb arithmetic of CCbigint.cpp, which is arithmetic modulo 2^256.
    - Amounts.v: amounts.cpp, checked and packed amounts.
    - Encode.v, AlphaCode.v: encodings.c and encode.cpp, the codecs of text and the
      range coder of foreign addresses.
    - MapValues.v: map_values.cpp, one-byte codes of times.
    - UniFloat.v, WireFloat.v: unifloat.cpp, floating point with the same result on every
      machine, and its 32-bit code.
    - TxAmount.v: amounts of transactions as mantissa and exponent (transaction.cpp).
    - ZkHash.v: the knapsack hash of zkhash.hpp.

    Data on the network (cccommon, cclib):
    - Objects.v: headers of messages and objects (CCobjects.cpp).
    - Pow.v: the proof of work of a message (transaction.cpp).
    - TxWire.v, TxTrip.v: the binary form of a transaction (transaction.cpp, CCutil.cpp).
    - XtxWire.v: the binary form of exchange messages (xtransaction*.cpp).

    The chain (ccnode):
    - Block.v: blocks, scores and the rule of witness order (block.cpp).
    - Rows.v, Serials.v: spent serial numbers (dbconn-tempserials.cpp, blockchain.cpp).
    - Txs.v: what validation and indexing use of a transaction.
    - Validate.v: validation of a block (processblock.cpp).
    - Chain.v: confirmation, donations and the commit (blockchain.cpp).
    - Merkle.v: the commitment tree (commitments.cpp) and the paths served from it.
    - Ledger.v: all of these over time.
    - ProcessTx.v: validation of a transaction (processtx.cpp, foreign-query.cpp).
    - ForeignBtc.v: queries of Bitcoin nodes (foreign-query-btc.cpp, foreign-rpc.cpp).
    - Indexing.v: what a block that becomes permanent does with its transactions
      ([IndexTxs] of blockchain.cpp), with the steps of the files below.

    Queues between threads and peers (ccnode):
    - ProcessQ.v: objects that wait for validation (dbconn-processq.cpp).
    - ValidObjs.v, Announce.v: validated objects and their announcement
      (dbconn-validobjs.cpp, seqnum.cpp, relay.cpp).
    - RelayTable.v: what peers have announced, and which of them is asked for an object
      (dbconn-relay.cpp).
    - TxQueue.v: the queue of transactions, the threads that validate them, and the wait
      for the transactions of a block (processtx.cpp).

    The exchange (ccnode, cclib):
    - Xmatch.v: requests and matches (xmatch.cpp, xtransaction-xreq.cpp).
    - XreqTable.v: the table of open requests in memory, with the order and the condition
      of each of its statements (dbconn-xreqs.cpp).
    - Matching.v, Rounds.v, RoundEnd.v: the matching engine over that table (process-xreq.cpp): the best
      partner of each request, the pairs that are each other's best, the passes.
    - XreqFlow.v: requests that are listed, expire or are pruned, and matches that become
      permanent (process-xreq.cpp, [AddXreq] of blockchain.cpp).
    - Exchange.v: the numbers of requests and matches, the table of requests made again by
      a node that starts, and one round of matching in an epoch (exchange.cpp,
      [SynchronizeMatching] of process-xreq.cpp).
    - MatchTables.v: the tables of matches (dbconn-persistent.cpp).
    - Mining.v: what the network mines for buyers (exchange_mining.cpp).
    - Settle.v, Settlement.v: payments, deadlines and what they pay out (blockchain.cpp).

    ** How the parts interact

    An object that a peer announced is asked for (RelayTable.v); when it is received, its work is
    checked (Pow.v), and it enters a queue of ProcessQ.v.  A transaction is taken from it by a
    thread of TxQueue.v, read by TxWire.v and XtxWire.v, and checked by ProcessTx.v,
    which asks a foreign node (ForeignBtc.v) when it claims a payment.  A block is checked by
    Validate.v, which has TxQueue.v check its transactions and Serials.v their
    serial numbers along the chain.  Valid objects are stored and announced
    (ValidObjs.v).  Chain.v makes a block permanent once enough witnesses built on it:
    Indexing.v spends its serial numbers, hands its outputs to the tree (Merkle.v), its
    requests to XreqFlow.v and its payments to Settle.v and Mining.v.  The first block of an
    epoch ends a round of matching (Exchange.v): what Matching.v found becomes matches in
    the tables of MatchTables.v, requests expire, and the next round starts.

    ** Interfaces

    What is not under [src/], and what one component promises another, is a class; a
    theorem that needs a law has the class of the laws as a hypothesis and its witness gives
    an instance that satisfies it.
    - [BigOps] (Bigint.v), [Libm] (UniFloat.v), [AmtFloat] (Xmatch.v): wide integers, the
      exponent of a double, decimal floating point of boost.
    - [CommitDb], [TreeHash] (Merkle.v); [ChainDb], [DonationTable] (Chain.v); [BlockDb],
      [Signatures] (Validate.v); [TxCodec], [Hashes] (Txs.v); [TxOutputDb],
      [OutputHashes], [ChainParams] (Settle.v): tables, hashes and parameters.
    - [ForeignServer] (ProcessTx.v): what validation asks of a foreign blockchain;
      ForeignBtc.v is an instance, over [JsonLib], [DecFloat] and [Rpc].

    ** What the theorems show

    - Ledger: no serial number is spent twice along the chain of indelible blocks
      ([no_double_spend]); a checked serial number is in no block of the chain.
    - Forks: two valid blocks of one level, or two chains of indelible blocks, need a witness
      that signs twice ([fork_needs_equivocation], [indelible_fork_needs_equivocation]).
    - Validation: what a valid block and a valid transaction satisfy, on
      every path of the code ([BlockValidate_sound], [TxValidate_sound],
      [TxValidate_in_block]), and when an unanswered query of a foreign node is enough
      instead of a payment; validation ends; malformed input that crashes or is
      misread ([malformed_xreq_null_access], [exchange_message_overruns],
      [payment_claim_overruns], [claim_runs_any_call]).
    - Money: settling a match, creating outputs, mining and donations create
      nothing beyond what was held ([SettleMatch_conserves], [CreateTxOutputs_conserves],
      [mining_conserved], [donations_credited]); a payment is added to its match once, or
      settles it ([ProcessXpayment_once]); the loop over deadlines ends.
    - Matching: two requests that the engine pairs agree on amount, rate and time, and each
      remembers the other exactly if it is better than what it had ([CheckMatch_sound]); which partner is best does not depend on the order of the rows
      ([best_match_order_independent]); a round ends and only computes ([MatchReqs_ends_and_keeps]),
      and a match that becomes permanent takes what it locks, but for roundings that are
      bounded ([MakeMatch_conserves]); requests that expire or are pruned are paid back what they
      hold, once ([ExpireXreqs_pays_back], [PruneXreqs_limits]); blocks of one epoch start
      one round and make the matches of the one before permanent
      ([SynchronizeMatching_epoch]).  Two flaws: rounding can stop the engine on requests that
      are valid ([rounding_halts_matching]), and a restarted node links the open buyer of a
      miner's pair to whatever request comes next ([restart_links_stranger]).
    - Restarts: numbers are given once over any run with restarts, open requests are listed again with the times of
      their blocks ([numbers_survive_restart], [Restore_lists_open],
      [GetXreqBlockTime_block]).
    - Indexing: an indexed block spends its serial numbers once ([IndexTxs_spends]); its one
      error that is not fatal leaves a block indexed up to a message that cannot be read
      ([IndexTxs_abandoned]).
    - Commitments: the incremental update of the tree gives the tree of all outputs
      ([UpdateCommitTree_correct]), and served paths verify.
    - Queues: work and references are conserved, nothing waits for ever, readers miss
      nothing ([work_never_lost], [queue_references], [readers_miss_nothing], ...); the
      wait for the transactions of a block may end early ([block_wait_ends_early]).
    - Relay: a peer is asked for what it announced, with the right message
      ([FindDownloads_asks]); an object is asked for once, from one peer, so that nothing
      is downloaded twice but nothing is asked for again either ([asked_once]).
    - Work: nonces that were found pass the check of others ([work_verifies]); for a message
      without a body the check leaves the message ([short_body_overruns]).
    - Codecs: round trips of transactions, announcements, amounts, rates, text and rows of
      tables; rounding is in the direction that the code relies on.

    ** Fuel and bounds

    Loops of the code are structural recursions where they can be, and have fuel where not;
    each has a theorem that its fuel is enough, or is run with fuel that bounds it: the
    length of the chain for scans of blocks, the number of rows for pages of a table and
    for loops over deadlines and requests, twice that for pruning, the number of objects
    asked for at once for downloads, 64 for the bisection of levels, the number of bits for
    the tree, the length of the buffer for readers of wire formats and of blocks, the
    number of attempts for queries and for nonces.
    The loops of the engine over pairs of requests have the number of rows as fuel, which
    RoundEnd.v shows to be enough.  Buffers have their
    sizes of the code; numbers of rows are below 2^63.

    ** Not modelled

    - Zero-knowledge proofs (CCproof.cpp): templates over a library of elliptic curves
      that the sources only call.  Validation takes the result of the proof as an argument.
    - Connections, services, block synchronisation, directory server: asynchronous I/O of
      boost; what they hand to the queues is any object.
    - The wallet (ccwallet), JSON input and output: clients of what is modelled here.
    - The database engine: statements are modelled by their effect on tables, and its failures
      are arguments.  Of the other tables only what a modelled function reads is kept.
    - The witness, start-up, buffers and vendored code.
    - Of the exchange: the columns that a witness computes ahead of the chain, the queries
      of rates for wallets, and requests that arrive while a round runs, which a
      round does not look at.

    ** Plan

    What would come next: the hashes of a transaction, the blocks that a witness builds, and
    an instance of [ChainDb] made of Indexing.v and Exchange.v, so that the theorems of
    Chain.v speak of the same tables. *)
From Stdlib Require Export ZArith Lia.
From stdpp Require Export base tactics option numbers list.

(** ** Conventions

    Machine integers are [Z] values kept in range by an explicit wrap; bytes are
    [Z] values in [0, 256); a C++ [throw] is the [Throw] case of [outcome]. *)

Local Open Scope Z_scope.

(** *** Machine words *)

Definition wrap (w x : Z) : Z := x mod 2 ^ w.
Definition u8 (x : Z) : Z := wrap 8 x.
Definition u16 (x : Z) : Z := wrap 16 x.
Definition u32 (x : Z) : Z := wrap 32 x.
Definition u64 (x : Z) : Z := wrap 64 x.
Definition u128 (x : Z) : Z := wrap 128 x.
Definition u256 (x : Z) : Z := wrap 256 x.

(** Two's complement reading of the low [w] bits of [x]. *)
Definition sint (w x : Z) : Z :=
  let y := wrap w x in if y <? 2 ^ (w - 1) then y else y - 2 ^ w.
Definition i8 (x : Z) : Z := sint 8 x.
Definition i16 (x : Z) : Z := sint 16 x.
Definition i32 (x : Z) : Z := sint 32 x.
Definition i64 (x : Z) : Z := sint 64 x.

Definition in_word (w x : Z) : Prop := 0 <= x < 2 ^ w.
Definition UINT32_MAX : Z := 2 ^ 32 - 1.
Definition UINT64_MAX : Z := 2 ^ 64 - 1.

Lemma pow2_pos w : 0 <= w -> 0 < 2 ^ w.
Proof. intros. apply Z.pow_pos_nonneg; lia. Qed.

Lemma wrap_range w x : 0 <= w -> in_word w (wrap w x).
Proof. intros. unfold in_word, wrap. apply Z.mod_pos_bound, pow2_pos; lia. Qed.

Lemma wrap_small w x : in_word w x -> wrap w x = x.
Proof. intros. unfold wrap. apply Z.mod_small; auto. Qed.

Lemma pow2_in_word w s : 0 <= s < w -> in_word w (2 ^ s).
Proof.
  intros. unfold in_word. pose proof (pow2_pos s ltac:(lia)).
  pose proof (Z.pow_lt_mono_r 2 s w). lia.
Qed.

Lemma wrap_wrap w x : wrap w (wrap w x) = wrap w x.
Proof. unfold wrap. apply Z.mod_mod_divide, Z.divide_refl. Qed.

Lemma wrap_land w x : 0 <= w -> wrap w x = Z.land x (Z.ones w).
Proof. intros. unfold wrap. now rewrite Z.land_ones. Qed.

Lemma wrap_testbit w x i :
  0 <= w -> Z.testbit (wrap w x) i = (i <? w) && Z.testbit x i.
Proof.
  intros. destruct (Z.neg_nonneg_cases i) as [?|?].
  - rewrite !Z.testbit_neg_r by lia. now rewrite andb_false_r.
  - rewrite wrap_land, Z.land_spec by lia. rewrite Z.testbit_ones_nonneg by lia.
    now rewrite andb_comm.
Qed.

Lemma in_word_testbit_high w x i : in_word w x -> w <= i -> Z.testbit x i = false.
Proof.
  intros Hx Hi. destruct (Z.neg_nonneg_cases w).
  - unfold in_word in Hx. rewrite Z.pow_neg_r in Hx by lia. lia.
  - rewrite <- (wrap_small w x Hx). rewrite wrap_testbit by lia.
    by destruct (Z.ltb_spec i w); [lia|].
Qed.

Lemma sint_range w x : 0 < w -> - 2 ^ (w - 1) <= sint w x < 2 ^ (w - 1).
Proof.
  intros. unfold sint. pose proof (wrap_range w x ltac:(lia)) as [? ?].
  assert (2 ^ w = 2 * 2 ^ (w - 1)).
  { rewrite <- Z.pow_succ_r by lia. f_equal. lia. }
  destruct (Z.ltb_spec (wrap w x) (2 ^ (w - 1))); lia.
Qed.

Lemma sint_id w x : 0 < w -> - 2 ^ (w - 1) <= x < 2 ^ (w - 1) -> sint w x = x.
Proof.
  intros Hw Hx. unfold sint, wrap.
  assert (E : 2 ^ w = 2 * 2 ^ (w - 1)).
  { rewrite <- Z.pow_succ_r by lia. f_equal. lia. }
  destruct (Z.neg_nonneg_cases x).
  - replace (x mod 2 ^ w) with (x + 2 ^ w).
    + destruct (Z.ltb_spec (x + 2 ^ w) (2 ^ (w - 1))); lia.
    + apply Z.mod_unique_pos with (-1); lia.
  - rewrite Z.mod_small by lia.
    destruct (Z.ltb_spec x (2 ^ (w - 1))); lia.
Qed.

Lemma sint_cong w x y : wrap w x = wrap w y -> sint w x = sint w y.
Proof. unfold sint. by intros ->. Qed.

Lemma wrap_sint w x : 0 < w -> wrap w (sint w x) = wrap w x.
Proof.
  intros. unfold sint. destruct (_ <? _); [apply wrap_wrap|].
  unfold wrap. rewrite Zminus_mod, Z_mod_same_full, Z.sub_0_r.
  rewrite !Z.mod_mod_divide by apply Z.divide_refl. reflexivity.
Qed.

Lemma u64_small x : 0 <= x < 2 ^ 64 -> u64 x = x.
Proof. intros H. apply (wrap_small 64 x). exact H. Qed.

Lemma i16_small x : - 2 ^ 15 <= x < 2 ^ 15 -> i16 x = x.
Proof. intros H. apply (sint_id 16 x); [lia | exact H]. Qed.

Lemma i64_small x : - 2 ^ 63 <= x < 2 ^ 63 -> i64 x = x.
Proof. intros H. apply (sint_id 64 x); [lia | exact H]. Qed.

(** Equality of integers bit by bit, the style every codec proof uses. *)
Ltac bitwise := let i := fresh "i" in let Hi := fresh "Hi" in apply Z.bits_inj'; intros i Hi.

(** The shift-and-mask idioms as arithmetic. *)
Lemma lor_shiftl_add w x y : 0 <= w -> in_word w y -> Z.lor (Z.shiftl x w) y = x * 2 ^ w + y.
Proof.
  intros Hw Hy. bitwise. rewrite Z.lor_spec, Z.shiftl_spec by lia.
  pose proof (pow2_pos w Hw). unfold in_word in Hy.
  destruct (Z.lt_ge_cases i w).
  - rewrite (Z.testbit_neg_r x) by lia. cbn [orb].
    rewrite <- (Z.mod_pow2_bits_low (x * 2 ^ w + y) w) by lia.
    rewrite Z.add_comm, Z.mod_add, Z.mod_small by lia. done.
  - rewrite (in_word_testbit_high w y) by (unfold in_word; lia). rewrite orb_false_r.
    replace i with (i - w + w) at 2 by lia. rewrite <- Z.div_pow2_bits by lia.
    rewrite Z.add_comm, Z.div_add, Z.div_small by lia. done.
Qed.

Lemma land_mask x n : 0 <= n -> Z.land x (2 ^ n - 1) = x mod 2 ^ n.
Proof. intros. rewrite <- Z.land_ones by lia. by rewrite Z.ones_equiv, <- Z.sub_1_r. Qed.

(** *** Positional notation

    A multi-word value (four 64-bit limbs, or a little-endian byte string) is the
    list of its digits in base [2 ^ b], least significant first. *)

Section digits.
Context (b : Z) (Hb : 0 <= b).

Fixpoint digits_val (l : list Z) : Z :=
  match l with
  | [] => 0
  | d :: t => d + 2 ^ b * digits_val t
  end.

Fixpoint digits_of (n : nat) (z : Z) : list Z :=
  match n with
  | O => []
  | S m => wrap b z :: digits_of m (z / 2 ^ b)
  end.

Definition digits_ok (l : list Z) : Prop := Forall (in_word b) l.

Lemma length_digits_of n z : length (digits_of n z) = n.
Proof. revert z; induction n; intros; simpl; auto. Qed.

Lemma digits_of_ok n z : digits_ok (digits_of n z).
Proof.
  revert z; induction n; intros; simpl; constructor; auto using wrap_range.
  apply IHn.
Qed.

Lemma digits_val_of n z : digits_val (digits_of n z) = z mod 2 ^ (b * Z.of_nat n).
Proof.
  revert z; induction n; intros z.
  - cbn -[Z.mul]. rewrite Z.mul_0_r, Z.pow_0_r, Z.mod_1_r. reflexivity.
  - cbn [digits_of digits_val]. rewrite IHn.
    replace (b * Z.of_nat (S n)) with (b + b * Z.of_nat n) by lia.
    pose proof (pow2_pos b Hb). pose proof (pow2_pos (b * Z.of_nat n) ltac:(lia)).
    rewrite Z.pow_add_r by lia. unfold wrap.
    rewrite Z.rem_mul_r by lia. lia.
Qed.

Lemma digits_val_range l :
  digits_ok l -> 0 <= digits_val l < 2 ^ (b * Z.of_nat (length l)).
Proof.
  induction 1 as [|d l Hd Hl IH]; cbn [digits_val length]; [cbn; rewrite Z.mul_0_r; lia|].
  replace (b * Z.of_nat (S (length l))) with (b + b * Z.of_nat (length l)) by lia.
  rewrite Z.pow_add_r by lia. unfold in_word in Hd. nia.
Qed.

Lemma digits_of_val l : digits_ok l -> digits_of (length l) (digits_val l) = l.
Proof.
  induction 1 as [|d l Hd Hl IH]; cbn [digits_val length digits_of]; [done|].
  unfold in_word in Hd. f_equal.
  - unfold wrap. symmetry. apply Z.mod_unique_pos with (digits_val l); lia.
  - replace ((d + 2 ^ b * digits_val l) / 2 ^ b) with (digits_val l); [exact IH|].
    apply Z.div_unique_pos with d; lia.
Qed.

Lemma digits_val_inj l1 l2 :
  digits_ok l1 -> digits_ok l2 -> length l1 = length l2 ->
  digits_val l1 = digits_val l2 -> l1 = l2.
Proof.
  intros H1 H2 Hl Hv. rewrite <- (digits_of_val l1), <- (digits_of_val l2) by done.
  by rewrite Hl, Hv.
Qed.

Lemma digits_val_app l1 l2 :
  digits_val (l1 ++ l2) = digits_val l1 + 2 ^ (b * Z.of_nat (length l1)) * digits_val l2.
Proof.
  induction l1 as [|d l1 IH]; cbn [digits_val length app].
  - rewrite Z.mul_0_r, Z.pow_0_r. lia.
  - rewrite IH. replace (b * Z.of_nat (S (length l1))) with (b + b * Z.of_nat (length l1)) by lia.
    rewrite Z.pow_add_r by lia. lia.
Qed.

(** Bit [i] of the value is bit [i mod b] of digit [i / b]. *)
Lemma digits_val_testbit l i :
  0 < b -> digits_ok l -> 0 <= i ->
  Z.testbit (digits_val l) i = Z.testbit (nth (Z.to_nat (i / b)) l 0) (i mod b).
Proof.
  intros Hb' Hl. revert i. induction Hl as [|d l Hd Hl IH]; intros i Hi.
  - cbn [digits_val]. rewrite Z.bits_0. destruct (Z.to_nat (i / b)); simpl; by rewrite Z.bits_0.
  - cbn [digits_val]. unfold in_word in Hd. destruct (Z.lt_ge_cases i b).
    + rewrite Z.div_small, (Z.mod_small i) by lia. change (Z.to_nat 0) with O. cbn [nth].
      rewrite <- (Z.mod_pow2_bits_low (d + _) b) by lia.
      f_equal. symmetry. apply Z.mod_unique_pos with (digits_val l); lia.
    + replace i with ((i - b) + b) at 1 by lia.
      rewrite <- Z.div_pow2_bits by lia.
      replace ((d + 2 ^ b * digits_val l) / 2 ^ b) with (digits_val l)
        by (apply Z.div_unique_pos with d; lia).
      rewrite IH by lia.
      assert (E : i = (i - b) + 1 * b) by lia.
      rewrite E at 3. rewrite E at 4.
      rewrite Z.mod_add by lia.
      rewrite Z.div_add by lia.
      assert (0 <= (i - b) / b) by (apply Z.div_pos; lia).
      replace (Z.to_nat ((i - b) / b + 1)) with (S (Z.to_nat ((i - b) / b))) by lia.
      reflexivity.
Qed.

Lemma digits_val_testbit_at l k j :
  digits_ok l -> 0 <= j < b ->
  Z.testbit (digits_val l) (b * Z.of_nat k + j) = Z.testbit (nth k l 0) j.
Proof.
  intros Hl Hj. rewrite digits_val_testbit by (auto; lia).
  replace ((b * Z.of_nat k + j) / b) with (Z.of_nat k) by (apply Z.div_unique_pos with j; lia).
  replace ((b * Z.of_nat k + j) mod b) with j by (apply Z.mod_unique_pos with (Z.of_nat k); lia).
  by rewrite Nat2Z.id.
Qed.

Lemma digits_val_testbit_neg l i : i < 0 -> Z.testbit (digits_val l) i = false.
Proof. intros. by rewrite Z.testbit_neg_r. Qed.

Lemma digits_val_testbit_high l i :
  digits_ok l -> b * Z.of_nat (length l) <= i -> Z.testbit (digits_val l) i = false.
Proof.
  intros Hl Hi. pose proof (digits_val_range l Hl).
  rewrite <- (Z.mod_small (digits_val l) (2 ^ (b * Z.of_nat (length l)))) by lia.
  apply Z.mod_pow2_bits_high. lia.
Qed.

(** Two digit strings have the same value when they agree bit by bit. *)
Lemma digits_val_bits_eq l v :
  0 < b -> digits_ok l -> in_word (b * Z.of_nat (length l)) v ->
  (forall k j, (k < length l)%nat -> 0 <= j < b ->
     Z.testbit (nth k l 0) j = Z.testbit v (b * Z.of_nat k + j)) ->
  digits_val l = v.
Proof.
  intros Hb' Hl Hv Heq. apply Z.bits_inj'. intros i Hi.
  destruct (Z.lt_ge_cases i (b * Z.of_nat (length l))) as [Hlt|Hge].
  - pose proof (Z.mod_pos_bound i b Hb'). pose proof (Z.div_mod i b ltac:(lia)).
    assert (0 <= i / b < Z.of_nat (length l)) by
      (split; [apply Z.div_pos; lia | apply Z.div_lt_upper_bound; lia]).
    replace i with (b * Z.of_nat (Z.to_nat (i / b)) + i mod b) by (rewrite Z2Nat.id; lia).
    rewrite digits_val_testbit_at by (auto; lia). apply Heq; lia.
  - rewrite digits_val_testbit_high by auto.
    symmetry. rewrite <- (Z.mod_small v (2 ^ (b * Z.of_nat (length l)))) by auto.
    apply Z.mod_pow2_bits_high. lia.
Qed.
End digits.

Definition byte_ok : Z -> Prop := in_word 8.
Definition bytes_ok : list Z -> Prop := digits_ok 8.

(** Little-endian memory image of an integer (the targets are x86 and ARM-LE). *)
Definition le_bytes (n : nat) (z : Z) : list Z := digits_of 8 n z.
Definition le_val (l : list Z) : Z := digits_val 8 l.

Lemma length_le_bytes n z : length (le_bytes n z) = n.
Proof. apply length_digits_of. Qed.

Lemma le_bytes_ok n z : bytes_ok (le_bytes n z).
Proof. apply digits_of_ok; lia. Qed.

Lemma le_val_bytes n z : le_val (le_bytes n z) = z mod 2 ^ (8 * Z.of_nat n).
Proof. apply digits_val_of; lia. Qed.

Lemma le_val_bytes_small n z : in_word (8 * Z.of_nat n) z -> le_val (le_bytes n z) = z.
Proof. intros. rewrite le_val_bytes. by apply Z.mod_small. Qed.

Lemma le_bytes_val l : bytes_ok l -> le_bytes (length l) (le_val l) = l.
Proof. apply digits_of_val; lia. Qed.

Lemma bytes_ok_rev l : bytes_ok l -> bytes_ok (rev l).
Proof. unfold bytes_ok, digits_ok. rewrite !List.Forall_forall. intros H x Hx. apply H. by apply in_rev. Qed.

Lemma bytes_ok_app l1 l2 : bytes_ok (l1 ++ l2) <-> bytes_ok l1 /\ bytes_ok l2.
Proof. apply Forall_app. Qed.

(** *** Lists *)

Lemma length_filter_split {A} (P : A -> Prop) `{!forall x, Decision (P x)} (l : list A) :
  (length (filter P l) + length (filter (fun x => ~ P x) l) = length l)%nat.
Proof.
  induction l as [|x l IH]; [done|]. rewrite !filter_cons.
  destruct (decide (P x)), (decide (~ P x)); try done; cbn [length]; lia.
Qed.

(** Two duplicate-free lists of indices below [n] that together are longer than [n]
    overlap. *)
Lemma index_overlap (n : Z) (l1 l2 : list Z) : 0 <= n ->
  NoDup l1 -> NoDup l2 ->
  Forall (fun x => 0 <= x < n) l1 -> Forall (fun x => 0 <= x < n) l2 ->
  Z.of_nat (length l1) + Z.of_nat (length l2) - n
  <= Z.of_nat (length (filter (fun x => x ∈ l2) l1)).
Proof.
  intros Hn N1 N2 F1 F2.
  pose proof (length_filter_split (fun x => x ∈ l2) l1) as Hs.
  match type of Hs with (_ + length ?e)%nat = _ => set (d := e) in * end.
  assert (Hnd : NoDup (d ++ l2)).
  { apply NoDup_app. split_and!; [by apply NoDup_filter| |done].
    intros x Hx Hx2. apply list_elem_of_filter in Hx as [Hx _]. done. }
  assert (Hsub : d ++ l2 ⊆+ seqZ 0 n).
  { apply NoDup_submseteq; [done|]. intros x Hx. rewrite elem_of_seqZ.
    apply elem_of_app in Hx as [Hx|Hx].
    - apply list_elem_of_filter in Hx as [_ Hx]. rewrite Forall_forall in F1. specialize (F1 x Hx). cbn in F1. lia.
    - rewrite Forall_forall in F2. specialize (F2 x Hx). cbn in F2. lia. }
  apply submseteq_length in Hsub. rewrite length_app, length_seqZ in Hsub. lia.
Qed.

(** *** Errors

    Exceptions of the C++ code; [CCASSERT] throws [runtime_error].  Two are not
    exceptions of the program: [BadAccess] is an access outside the memory of an object,
    as through a null pointer, and [FuelOut] says that a loop of the model ran out of
    fuel; the theorems about a loop show that it does not. *)

Inductive exn : Set :=
| RangeError (what : nat)
| RuntimeError (what : nat)
| AssertFail
| BadAccess
| FuelOut.

Inductive outcome (A : Type) : Type :=
| Ret (a : A)
| Throw (e : exn).
Arguments Ret {A} a.
Arguments Throw {A} e.

Definition outcome_bind {A B} (m : outcome A) (f : A -> outcome B) : outcome B :=
  match m with Ret a => f a | Throw e => Throw e end.

Declare Scope cc_scope.
Delimit Scope cc_scope with cc.
Notation "'let!' x ':=' m 'in' k" := (outcome_bind m (fun x => k))
  (at level 10, x pattern, m at level 100, k at level 200) : cc_scope.
Notation "'ccassert!' c 'in' k" := (if c then k else Throw AssertFail)
  (at level 10, c at level 100, k at level 200) : cc_scope.

(** *** Automation shared by the components *)

Create HintDb cc discriminated.
Create Rewrite HintDb cclen.
#[export] Hint Resolve wrap_range le_bytes_ok digits_of_ok : cc.
#[export] Hint Rewrite length_le_bytes length_digits_of @length_app @length_replicate : cclen.

(** Break the comparisons and conditionals of a modelled operation. *)
Ltac case_bool :=
  match goal with
  | |- context [if ?a <? ?b then _ else _] => destruct (Z.ltb_spec a b)
  | |- context [if ?a <=? ?b then _ else _] => destruct (Z.leb_spec a b)
  | |- context [if ?a =? ?b then _ else _] => destruct (Z.eqb_spec a b)
  | H : context [if ?a <? ?b then _ else _] |- _ => destruct (Z.ltb_spec a b)
  | H : context [if ?a <=? ?b then _ else _] |- _ => destruct (Z.leb_spec a b)
  | H : context [if ?a =? ?b then _ else _] |- _ => destruct (Z.eqb_spec a b)
  end.
