(* ===== verification/Rows.v ===== *)
(** * Rows of database tables

    A table of the node's databases is a map from its primary key to the other columns.
    A select with a condition and an order is the sorted list of the rows that satisfy the
    condition; what it returns first is least in the order. *)
From S2P Require Import Prelude.
From stdpp Require Import gmap sorting.

Local Open Scope Z_scope.

Section rows.
Context {K A : Type} `{Countable K}.
Context (R : relation (K * A)) `{!RelDecision R, !Transitive R, !Total R}.
Context (P : K * A -> Prop) `{!forall row, Decision (P row)}.

Definition select_rows (t : gmap K A) : list (K * A) := merge_sort R (filter P (map_to_list t)).

Lemma select_rows_elem t k a : (k, a) ∈ select_rows t <-> t !! k = Some a /\ P (k, a).
Proof. unfold select_rows. rewrite (merge_sort_Permutation R), list_elem_of_filter, elem_of_map_to_list. tauto. Qed.

Lemma select_rows_head t row rest :
  select_rows t = row :: rest -> forall row', row' ∈ select_rows t -> R row row'.
Proof.
  intros Hs row' Hin. pose proof (StronglySorted_merge_sort R (filter P (map_to_list t))) as Hsort.
  fold (select_rows t) in Hsort. rewrite Hs in Hsort, Hin. apply elem_of_cons in Hin as [->|Hin].
  - destruct (total R row row); assumption.
  - inversion Hsort as [|? ? ? Hall]; subst. rewrite Forall_forall in Hall. auto.
Qed.

Lemma select_rows_nil t : select_rows t = [] -> forall k a, t !! k = Some a -> ~ P (k, a).
Proof.
  intros Hs k a Ha Hp. assert ((k, a) ∈ select_rows t) as Hin by (apply select_rows_elem; auto).
  rewrite Hs in Hin. apply elem_of_nil in Hin. exact Hin.
Qed.

(** What the first row of a select is. *)
Lemma select_rows_first t k a rest :
  select_rows t = (k, a) :: rest ->
  t !! k = Some a /\ P (k, a) /\ forall k' a', t !! k' = Some a' -> P (k', a') -> R (k, a) (k', a').
Proof.
  intros Hs. assert ((k, a) ∈ select_rows t) as Hin by (rewrite Hs; apply list_elem_of_here).
  apply select_rows_elem in Hin as [Ha Hp]. repeat split; [exact Ha | exact Hp |].
  intros k' a' Ha' Hp'. eapply select_rows_head; [exact Hs|]. apply select_rows_elem. auto.
Qed.
End rows.

(** The order of a select by a rank and then by the key. *)
Definition rank_le {A} (rank : A -> Z) (x y : Z * A) : Prop :=
  rank (snd x) < rank (snd y) \/ rank (snd x) = rank (snd y) /\ fst x <= fst y.

#[export] Instance rank_le_dec {A} (rank : A -> Z) : RelDecision (rank_le rank).
Proof. intros x y. unfold rank_le. apply _. Defined.
#[export] Instance rank_le_trans {A} (rank : A -> Z) : Transitive (rank_le rank).
Proof. intros x y z. unfold rank_le. lia. Qed.
#[export] Instance rank_le_total {A} (rank : A -> Z) : Total (rank_le rank).
Proof. intros x y. unfold rank_le. lia. Qed.

(** ** Counting rows *)

Section Count.
Context {K A : Type} `{Countable K}.
Context (P : K * A -> Prop) {Pdec : forall x, Decision (P x)}.

Definition count (t : gmap K A) : Z := Z.of_nat (size (filter P t)).
Definition one (row : K * A) : Z := if decide (P row) then 1 else 0.

Lemma one_range row : 0 <= one row <= 1.
Proof. unfold one. destruct (decide _); lia. Qed.

Lemma count_insert_new t id r : t !! id = None -> count (<[id := r]> t) = one (id, r) + count t.
Proof.
  intros Hn. unfold count, one. rewrite map_filter_insert. destruct (decide (P (id, r))).
  - rewrite map_size_insert_None; [lia|]. apply map_lookup_filter_None. auto.
  - rewrite delete_id; [lia | exact Hn].
Qed.

Lemma count_delete t id r : t !! id = Some r -> count (delete id t) = count t - one (id, r).
Proof.
  intros Hs. pose proof (count_insert_new (delete id t) id r (lookup_delete_eq _ _)) as Hc.
  rewrite insert_delete_id in Hc by exact Hs. lia.
Qed.

Lemma count_insert_old t id r r' :
  t !! id = Some r -> count (<[id := r']> t) = count t - one (id, r) + one (id, r').
Proof.
  intros Hs. rewrite <- insert_delete_eq, count_insert_new by apply lookup_delete_eq.
  rewrite (count_delete t id r Hs). lia.
Qed.

Lemma count_nonneg t : 0 <= count t.
Proof. unfold count. lia. Qed.

Lemma count_pos t id r : t !! id = Some r -> P (id, r) -> 0 < count t.
Proof.
  intros Hs HP. pose proof (count_delete t id r Hs) as Hc. pose proof (count_nonneg (delete id t)).
  unfold one in Hc. rewrite decide_True in Hc by exact HP. lia.
Qed.

Lemma count_mono t (f : K -> A -> A) :
  (forall id r, P (id, f id r) -> P (id, r)) -> count (map_imap (fun id r => Some (f id r)) t) <= count t.
Proof.
  intros Hf. induction t as [|id r t Hn IH] using map_ind.
  - rewrite map_imap_empty. lia.
  - erewrite map_imap_insert_Some by reflexivity. rewrite !count_insert_new; [| exact Hn | by rewrite map_lookup_imap, Hn].
    assert (one (id, f id r) <= one (id, r)); [|lia].
    unfold one. repeat destruct (decide _); try lia. exfalso. eauto.
Qed.

Lemma count_map t (f : K -> A -> A) :
  (forall id r, P (id, f id r) <-> P (id, r)) -> count (map_imap (fun id r => Some (f id r)) t) = count t.
Proof.
  intros Hf. induction t as [|id r t Hn IH] using map_ind.
  - by rewrite map_imap_empty.
  - erewrite map_imap_insert_Some by reflexivity. rewrite !count_insert_new; [| exact Hn | by rewrite map_lookup_imap, Hn].
    assert (one (id, f id r) = one (id, r)); [|lia].
    unfold one. specialize (Hf id r). repeat destruct (decide _); tauto.
Qed.

Lemma count_none t : (forall id r, t !! id = Some r -> ~ P (id, r)) -> count t = 0.
Proof.
  intros Hnone. unfold count. replace (filter P t) with (∅ : gmap K A); [reflexivity|].
  symmetry. apply map_eq. intros i. rewrite lookup_empty. apply map_lookup_filter_None. right. apply Hnone.
Qed.
End Count.
