(* ===== verification/Bigint.v ===== *)
(** * Fixed-width big integers (src/source/cclib/src/CCbigint.cpp)

    A [bigint_t] is the list of its 64-bit limbs, least significant first; the
    value it stands for is [bval].  The limb-wise routines of CCbigint.cpp are
    translated loop for loop and proved to be the arithmetic operations modulo
    [2 ^ 256]. *)
From S2P Require Import Prelude.

Local Open Scope Z_scope.

Abbreviation bigint := (list Z).

(** [BIGWORD(x, i)]: a read of limb [i], and the assignment to it. *)
Definition BIGWORD (x : bigint) (i : nat) : Z := nth i x 0.
Definition SETWORD (x : bigint) (i : nat) (v : Z) : bigint := <[i := v]> x.
Definition numberLimbs (x : bigint) : nat := length x.

Definition bpl : Z := 64.

Definition bval (x : bigint) : Z := digits_val 64 x.
Definition of_bval (v : Z) : bigint := digits_of 64 4 v.
Definition bigint_ok (x : bigint) : Prop := length x = 4%nat /\ digits_ok 64 x.

Definition bigint_bit (bigval : bigint) (bit : Z) : bool :=
  let word := bit / bpl in
  let shift := bit - word * bpl in
  if i32 word <? Z.of_nat (numberLimbs bigval)
  then negb (Z.land (BIGWORD bigval (Z.to_nat word)) (u64 (Z.shiftl 1 shift)) =? 0)
  else false.

(** One pass of the [while (nbits >= bpl)] loop: move every limb one place up. *)
Definition word_shift_up (x : bigint) : bigint :=
  let x := fold_left (fun x i => SETWORD x i (BIGWORD x (i - 1)))
                     (rev (seq 1 (numberLimbs x - 1))) x in
  SETWORD x 0 0.

Fixpoint shift_up_words (fuel : nat) (x : bigint) (nbits : Z) : bigint * Z :=
  match fuel with
  | O => (x, nbits)
  | S f => if bpl <=? nbits then shift_up_words f (word_shift_up x) (nbits - bpl)
           else (x, nbits)
  end.

Definition bit_shift_up (x : bigint) (nbits : Z) : bigint :=
  if nbits =? 0 then x else
  fold_left (fun x i =>
      let x := SETWORD x i (u64 (Z.shiftl (BIGWORD x i) nbits)) in
      if (i =? 0)%nat then x
      else SETWORD x i (Z.lor (BIGWORD x i) (Z.shiftr (BIGWORD x (i - 1)) (bpl - nbits))))
    (rev (seq 0 (numberLimbs x))) x.

Definition bigint_shift_up (x : bigint) (nbits : Z) : bigint :=
  let '(x, nbits) := shift_up_words (Z.to_nat (nbits / bpl)) x nbits in
  bit_shift_up x nbits.

Definition word_shift_down (x : bigint) : bigint :=
  let n := numberLimbs x in
  let x := fold_left (fun x i => SETWORD x i (BIGWORD x (i + 1))) (seq 0 (n - 1)) x in
  SETWORD x (n - 1) 0.

Fixpoint shift_down_words (fuel : nat) (x : bigint) (nbits : Z) : bigint * Z :=
  match fuel with
  | O => (x, nbits)
  | S f => if bpl <=? nbits then shift_down_words f (word_shift_down x) (nbits - bpl)
           else (x, nbits)
  end.

Definition bit_shift_down (x : bigint) (nbits : Z) : bigint :=
  if nbits =? 0 then x else
  fold_left (fun x i =>
      let x := SETWORD x i (Z.shiftr (BIGWORD x i) nbits) in
      if (i <? numberLimbs x - 1)%nat
      then SETWORD x i (Z.lor (BIGWORD x i) (u64 (Z.shiftl (BIGWORD x (i + 1)) (bpl - nbits))))
      else x)
    (seq 0 (numberLimbs x)) x.

Definition bigint_shift_down (x : bigint) (nbits : Z) : bigint :=
  let '(x, nbits) := shift_down_words (Z.to_nat (nbits / bpl)) x nbits in
  bit_shift_down x nbits.

Definition bigint_mask (x : bigint) (nbits : Z) : bigint :=
  fold_left (fun x i =>
      if nbits <=? Z.of_nat i * bpl then SETWORD x i 0
      else if nbits <? (Z.of_nat i + 1) * bpl then
        let mask := u64 (u64 (Z.shiftl 1 (nbits - Z.of_nat i * bpl)) - 1) in
        SETWORD x i (Z.land (BIGWORD x i) mask)
      else x)
    (seq 0 (numberLimbs x)) x.

(** The object read as an array of [uint8_t]. *)
Definition bigint_mem (x : bigint) : list Z := le_bytes (8 * numberLimbs x) (bval x).

(** Scan [for (i = nb - 1; i >= 0; --i)] for a nonzero byte. *)
Fixpoint bytes_in_use_from (mem : list Z) (n : nat) : Z :=
  match n with
  | O => 0
  | S i => if nth i mem 0 =? 0 then bytes_in_use_from mem i else Z.of_nat i + 1
  end.

Definition bigint_bytes_in_use (x : bigint) : Z :=
  bytes_in_use_from (bigint_mem x) (8 * numberLimbs x).

(** Scan [for (i = 0; i < nb; ++i)] for a nonzero byte. *)
Fixpoint end_bytes_in_use_from (mem : list Z) (nb : Z) : Z :=
  match mem with
  | [] => 0
  | b :: t => if b =? 0 then end_bytes_in_use_from t (nb - 1) else nb
  end.

Definition bigint_end_bytes_in_use (x : bigint) : Z :=
  end_bytes_in_use_from (bigint_mem x) (Z.of_nat (8 * numberLimbs x)).

Definition bswap_64 (x : Z) : Z := le_val (rev (le_bytes 8 x)).

Definition bigint_byteswap (x : bigint) : bigint :=
  [bswap_64 (BIGWORD x 3); bswap_64 (BIGWORD x 2);
   bswap_64 (BIGWORD x 1); bswap_64 (BIGWORD x 0)].

(** ** Library operations

    Addition, subtraction, multiplication and division of [bigint_t] come from
    the snarklib headers, which are not part of the repository.  Components that
    use them are written against this interface.  [addBigInt], [subBigInt] and
    [mulBigInt] are the calls made with the modular-reduction flag off, which wrap
    around at the width of the type; the operators [+], [-] and [*] of [bigint_t]
    reduce modulo the 254-bit prime of the field. *)

Class BigOps := {
  addBigInt : bigint -> bigint -> bigint;
  subBigInt : bigint -> bigint -> bigint;
  mulBigInt : bigint -> bigint -> bigint;
  divBigInt : bigint -> Z -> bigint;
  modBigInt : bigint -> Z -> Z;
  field_prime : Z;
  plusBigInt : bigint -> bigint -> bigint;
  minusBigInt : bigint -> bigint -> bigint;
  timesBigInt : bigint -> bigint -> bigint;
}.

Definition TX_FIELD_BITS : Z := 254.

Class BigOpsSpec (B : BigOps) : Prop := {
  add_ok x y : bigint_ok x -> bigint_ok y -> bigint_ok (addBigInt x y);
  sub_ok x y : bigint_ok x -> bigint_ok y -> bigint_ok (subBigInt x y);
  mul_ok x y : bigint_ok x -> bigint_ok y -> bigint_ok (mulBigInt x y);
  div_ok x d : bigint_ok x -> 0 < d < 2 ^ 64 -> bigint_ok (divBigInt x d);
  add_val x y : bigint_ok x -> bigint_ok y -> bval (addBigInt x y) = u256 (bval x + bval y);
  sub_val x y : bigint_ok x -> bigint_ok y -> bval (subBigInt x y) = u256 (bval x - bval y);
  mul_val x y : bigint_ok x -> bigint_ok y -> bval (mulBigInt x y) = u256 (bval x * bval y);
  div_val x d : bigint_ok x -> 0 < d < 2 ^ 64 -> bval (divBigInt x d) = bval x / d;
  mod_val x d : bigint_ok x -> 0 < d < 2 ^ 64 -> modBigInt x d = bval x mod d;
  prime_bits : 2 ^ (TX_FIELD_BITS - 1) < field_prime < 2 ^ TX_FIELD_BITS;
  plus_ok x y : bigint_ok x -> bigint_ok y -> bigint_ok (plusBigInt x y);
  minus_ok x y : bigint_ok x -> bigint_ok y -> bigint_ok (minusBigInt x y);
  times_ok x y : bigint_ok x -> bigint_ok y -> bigint_ok (timesBigInt x y);
  plus_val x y : bigint_ok x -> bigint_ok y -> bval x < field_prime -> bval y < field_prime ->
    bval (plusBigInt x y) = (bval x + bval y) mod field_prime;
  minus_val x y : bigint_ok x -> bigint_ok y -> bval x < field_prime -> bval y < field_prime ->
    bval (minusBigInt x y) = (bval x - bval y) mod field_prime;
  times_val x y : bigint_ok x -> bigint_ok y ->
    bval (timesBigInt x y) = (bval x * bval y) mod field_prime;
}.

(** ** Well-formedness and values *)

Lemma bigint_ok_inv x : bigint_ok x ->
  exists a b c d, x = [a; b; c; d] /\ in_word 64 a /\ in_word 64 b /\ in_word 64 c /\ in_word 64 d.
Proof.
  intros [Hl Hd]. unfold digits_ok in Hd.
  destruct x as [|a [|b [|c [|d [|]]]]]; try discriminate Hl.
  rewrite !Forall_cons in Hd. exists a, b, c, d. tauto.
Qed.

Lemma bigint_ok_intro a b c d :
  in_word 64 a -> in_word 64 b -> in_word 64 c -> in_word 64 d -> bigint_ok [a; b; c; d].
Proof. intros. split; [done|]. unfold digits_ok. by rewrite !Forall_cons, Forall_nil. Qed.

Lemma bval_range x : bigint_ok x -> in_word 256 (bval x).
Proof.
  intros [Hl Hd]. pose proof (digits_val_range 64 ltac:(lia) x Hd) as H.
  rewrite Hl in H. exact H.
Qed.

Lemma of_bval_ok v : bigint_ok (of_bval v).
Proof. split; [done|]. apply digits_of_ok. lia. Qed.

Lemma bval_of v : bval (of_bval v) = u256 v.
Proof. unfold bval, of_bval. rewrite digits_val_of by lia. reflexivity. Qed.

Lemma of_bval_bval x : bigint_ok x -> of_bval (bval x) = x.
Proof. intros [Hl Hd]. unfold of_bval, bval. rewrite <- Hl. by apply digits_of_val. Qed.

Lemma bval_inj x y : bigint_ok x -> bigint_ok y -> bval x = bval y -> x = y.
Proof. intros Hx Hy E. by rewrite <- (of_bval_bval x), <- (of_bval_bval y), E. Qed.

#[export] Hint Resolve of_bval_ok bval_range add_ok sub_ok mul_ok div_ok plus_ok minus_ok times_ok : cc.

(** The reference instance of the interface: every operation through the value, and
    the prime of the BN128 curve. *)
Definition bn128_prime : Z :=
  21888242871839275222246405745257275088548364400416034343698204186575808495617.

Definition ref_bigops : BigOps := {|
  addBigInt x y := of_bval (bval x + bval y);
  subBigInt x y := of_bval (bval x - bval y);
  mulBigInt x y := of_bval (bval x * bval y);
  divBigInt x d := of_bval (bval x / d);
  modBigInt x d := bval x mod d;
  field_prime := bn128_prime;
  plusBigInt x y := of_bval ((bval x + bval y) mod bn128_prime);
  minusBigInt x y := of_bval ((bval x - bval y) mod bn128_prime);
  timesBigInt x y := of_bval ((bval x * bval y) mod bn128_prime) |}.

#[export] Instance ref_bigops_spec : BigOpsSpec ref_bigops.
Proof.
  assert (Hp : forall z, bval (of_bval (z mod bn128_prime)) = z mod bn128_prime).
  { intros z. rewrite bval_of. apply wrap_small. pose proof (Z.mod_pos_bound z bn128_prime eq_refl).
    unfold in_word. change (2 ^ 256) with (5 * bn128_prime + 6350874878119819312338956282401532410528162663560392320966563075034087161851).
    unfold bn128_prime in *. lia. }
  split; cbn -[bval of_bval Z.modulo Z.pow]; intros; auto using of_bval_ok; try apply Hp; try apply bval_of; [|done].
  rewrite bval_of. apply wrap_small. pose proof (bval_range x H) as Hr. unfold in_word in *.
  split; [apply Z.div_pos; lia|]. apply Z.div_lt_upper_bound; nia.
Qed.

(** ** Bits *)

Lemma bval_bit_at x k j :
  bigint_ok x -> 0 <= j < 64 ->
  Z.testbit (bval x) (64 * Z.of_nat k + j) = Z.testbit (BIGWORD x k) j.
Proof. intros [_ Hd] Hj. apply digits_val_testbit_at; auto; lia. Qed.

Lemma land_pow2_testbit x s : 0 <= s -> negb (Z.land x (2 ^ s) =? 0) = Z.testbit x s.
Proof.
  intros Hs. destruct (Z.eqb_spec (Z.land x (2 ^ s)) 0) as [E|E]; simpl.
  - apply (f_equal (fun v => Z.testbit v s)) in E.
    rewrite Z.land_spec, Z.bits_0, Z.pow2_bits_true, andb_true_r in E by lia. auto.
  - destruct (Z.testbit x s) eqn:Ht; [done|]. exfalso. apply E. bitwise.
    rewrite Z.land_spec, Z.bits_0. destruct (Z.eq_dec i s) as [->|].
    + by rewrite Ht.
    + rewrite Z.pow2_bits_false by lia. apply andb_false_r.
Qed.

Theorem bigint_bit_spec x bit :
  bigint_ok x -> in_word 32 bit -> bigint_bit x bit = Z.testbit (bval x) bit.
Proof.
  intros Hx Hb. pose proof Hx as [Hl Hd]. unfold in_word in Hb.
  unfold bigint_bit, numberLimbs, bpl. rewrite Hl.
  pose proof (Z.div_mod bit 64 ltac:(lia)) as E. pose proof (Z.mod_pos_bound bit 64 ltac:(lia)).
  assert (0 <= bit / 64 < 2 ^ 31) by (split; [apply Z.div_pos|apply Z.div_lt_upper_bound]; lia).
  unfold i32. rewrite sint_id by lia.
  replace (bit - bit / 64 * 64) with (bit mod 64) by lia.
  destruct (Z.ltb_spec (bit / 64) (Z.of_nat 4)).
  - unfold u64. rewrite Z.shiftl_1_l, wrap_small by (apply pow2_in_word; lia).
    rewrite land_pow2_testbit, <- bval_bit_at by (auto; lia). f_equal. lia.
  - symmetry. apply digits_val_testbit_high; [lia|done|]. rewrite Hl. lia.
Qed.

(** ** Shifts *)

Lemma word_shift_up_eq a b c d : word_shift_up [a; b; c; d] = [0; a; b; c].
Proof. reflexivity. Qed.

Lemma word_shift_down_eq a b c d : word_shift_down [a; b; c; d] = [b; c; d; 0].
Proof. reflexivity. Qed.

Lemma word_shift_up_spec x : bigint_ok x ->
  bigint_ok (word_shift_up x) /\ bval (word_shift_up x) = u256 (Z.shiftl (bval x) 64).
Proof.
  intros (a & b & c & d & -> & Ha & Hb & Hc & Hd)%bigint_ok_inv. rewrite word_shift_up_eq.
  assert (H0 : in_word 64 0) by (unfold in_word; lia).
  split; [by apply bigint_ok_intro|]. rewrite Z.shiftl_mul_pow2 by lia.
  unfold bval, u256, wrap. cbn [digits_val]. unfold in_word in *.
  apply Z.mod_unique_pos with d; lia.
Qed.

Lemma word_shift_down_spec x : bigint_ok x ->
  bigint_ok (word_shift_down x) /\ bval (word_shift_down x) = Z.shiftr (bval x) 64.
Proof.
  intros (a & b & c & d & -> & Ha & Hb & Hc & Hd)%bigint_ok_inv. rewrite word_shift_down_eq.
  assert (H0 : in_word 64 0) by (unfold in_word; lia).
  split; [by apply bigint_ok_intro|]. rewrite Z.shiftr_div_pow2 by lia.
  unfold bval. cbn [digits_val]. unfold in_word in *.
  apply Z.div_unique_pos with a; lia.
Qed.

(** Bit [j] of a limb rebuilt from its own low part and its neighbour's high part. *)
Lemma limb_shl_testbit lo hi n j :
  in_word 64 lo -> 0 < n < 64 -> 0 <= j < 64 ->
  Z.testbit (Z.lor (u64 (Z.shiftl hi n)) (Z.shiftr lo (64 - n))) j
  = if j <? n then Z.testbit lo (j + 64 - n) else Z.testbit hi (j - n).
Proof.
  intros Hlo Hn Hj. unfold u64. rewrite Z.lor_spec, wrap_testbit, Z.shiftl_spec, Z.shiftr_spec by lia.
  replace (j <? 64) with true by (symmetry; apply Z.ltb_lt; lia). simpl.
  destruct (Z.ltb_spec j n).
  - rewrite (Z.testbit_neg_r hi) by lia. simpl. f_equal. lia.
  - rewrite (in_word_testbit_high 64 lo) by (auto; lia). by rewrite orb_false_r.
Qed.

Lemma limb_shl_ok lo hi n :
  in_word 64 lo -> 0 < n < 64 -> in_word 64 (Z.lor (u64 (Z.shiftl hi n)) (Z.shiftr lo (64 - n))).
Proof.
  intros Hlo Hn. rewrite <- (wrap_small 64 (Z.shiftr lo (64 - n))).
  2: { unfold in_word in *. rewrite Z.shiftr_div_pow2 by lia.
       pose proof (pow2_pos (64 - n) ltac:(lia)).
       split; [apply Z.div_pos; lia|]. apply Z.div_lt_upper_bound; nia. }
  unfold u64. rewrite !wrap_land, <- Z.land_lor_distr_l, <- wrap_land by lia.
  apply wrap_range. lia.
Qed.

Lemma bit_shift_up_eq a b c d n : n <> 0 ->
  bit_shift_up [a; b; c; d] n =
  [u64 (Z.shiftl a n);
   Z.lor (u64 (Z.shiftl b n)) (Z.shiftr a (64 - n));
   Z.lor (u64 (Z.shiftl c n)) (Z.shiftr b (64 - n));
   Z.lor (u64 (Z.shiftl d n)) (Z.shiftr c (64 - n))].
Proof. intros Hn. unfold bit_shift_up. destruct (Z.eqb_spec n 0); [lia|]. reflexivity. Qed.

Lemma bit_shift_up_spec x n : bigint_ok x -> 0 <= n < 64 ->
  bigint_ok (bit_shift_up x n) /\ bval (bit_shift_up x n) = u256 (Z.shiftl (bval x) n).
Proof.
  intros Hx Hn. destruct (Z.eq_dec n 0) as [->|Hn0].
  { unfold bit_shift_up. cbn. split; [done|]. unfold u256.
    by rewrite Z.shiftl_0_r, wrap_small by auto with cc. }
  pose proof Hx as (a & b & c & d & -> & Ha & Hb & Hc & Hd)%bigint_ok_inv.
  rewrite bit_shift_up_eq by done.
  assert (Hok : bigint_ok [u64 (Z.shiftl a n);
   Z.lor (u64 (Z.shiftl b n)) (Z.shiftr a (64 - n));
   Z.lor (u64 (Z.shiftl c n)) (Z.shiftr b (64 - n));
   Z.lor (u64 (Z.shiftl d n)) (Z.shiftr c (64 - n))]).
  { apply bigint_ok_intro; try apply limb_shl_ok; auto; try lia. apply wrap_range. lia. }
  split; [exact Hok|]. apply digits_val_bits_eq; [lia|lia|apply Hok|apply wrap_range; lia|].
  intros k j Hk Hj. unfold u256. cbn [length] in Hk.
  rewrite wrap_testbit, Z.shiftl_spec by lia.
  replace (64 * Z.of_nat k + j <? 256) with true by (symmetry; apply Z.ltb_lt; lia). cbn [andb].
  assert (Hgo : forall k', Z.of_nat k' = Z.of_nat k - 1 -> j < n ->
      Z.testbit (bval [a; b; c; d]) (64 * Z.of_nat k + j - n)
      = Z.testbit (BIGWORD [a; b; c; d] k') (j + 64 - n)).
  { intros k' Hk' ?. rewrite <- bval_bit_at by (auto; lia). f_equal. lia. }
  assert (Hge : n <= j -> Z.testbit (bval [a; b; c; d]) (64 * Z.of_nat k + j - n)
      = Z.testbit (BIGWORD [a; b; c; d] k) (j - n)).
  { intros ?. rewrite <- bval_bit_at by (auto; lia). f_equal. lia. }
  destruct k as [|k'].
  - cbn [nth]. unfold u64. rewrite wrap_testbit, Z.shiftl_spec by lia.
    replace (j <? 64) with true by (symmetry; apply Z.ltb_lt; lia). cbn [andb].
    destruct (Z.lt_ge_cases j n); [by rewrite !Z.testbit_neg_r by lia|by rewrite Hge].
  - transitivity (if j <? n then Z.testbit (BIGWORD [a; b; c; d] k') (j + 64 - n)
                  else Z.testbit (BIGWORD [a; b; c; d] (S k')) (j - n)).
    + destruct k' as [|[|[|]]]; cbn [nth BIGWORD]; try lia; apply limb_shl_testbit; (done || lia).
    + destruct (Z.ltb_spec j n); [rewrite (Hgo k') by lia|rewrite Hge by lia]; done.
Qed.

Lemma shift_up_words_spec fuel x n : bigint_ok x -> 0 <= n -> fuel = Z.to_nat (n / 64) ->
  let '(x', n') := shift_up_words fuel x n in
  n' = n mod 64 /\ bigint_ok x' /\ bval x' = u256 (Z.shiftl (bval x) (n - n')).
Proof.
  revert x n. induction fuel as [|f IH]; intros x n Hx Hn Hf.
  - cbn [shift_up_words]. assert (n / 64 = 0) by (pose proof (Z.div_pos n 64); lia).
    assert (n < 64) by (pose proof (Z.div_mod n 64); pose proof (Z.mod_pos_bound n 64); lia).
    rewrite Z.mod_small, Z.sub_diag, Z.shiftl_0_r by lia. unfold u256.
    rewrite wrap_small by auto with cc. done.
  - pose proof (Z.div_mod n 64 ltac:(lia)). pose proof (Z.mod_pos_bound n 64 ltac:(lia)).
    cbn [shift_up_words]. unfold bpl. destruct (Z.leb_spec 64 n); [|lia].
    destruct (word_shift_up_spec x Hx) as [Hok Hv].
    assert (E : (n - 64) / 64 = n / 64 - 1).
    { replace (n - 64) with (n + (-1) * 64) by lia. rewrite Z.div_add by lia. lia. }
    specialize (IH (word_shift_up x) (n - 64) Hok ltac:(lia) ltac:(lia)).
    destruct shift_up_words as [x' n']. destruct IH as (-> & Hok' & ->).
    assert (Em : (n - 64) mod 64 = n mod 64).
    { replace (n - 64) with (n + (-1) * 64) by lia. apply Z.mod_add. lia. }
    rewrite Em. split; [done|]. split; [done|]. rewrite Hv. bitwise. unfold u256.
    rewrite !wrap_testbit, !Z.shiftl_spec, wrap_testbit by lia.
    destruct (Z.ltb_spec i 256); [|done]. cbn [andb].
    destruct (Z.ltb_spec (i - (n - 64 - n mod 64)) 256); [|lia]. cbn [andb].
    destruct (Z.neg_nonneg_cases (i - (n - 64 - n mod 64))).
    + by rewrite !Z.testbit_neg_r by lia.
    + rewrite Z.shiftl_spec by lia. f_equal. lia.
Qed.

Theorem bigint_shift_up_spec x n : bigint_ok x -> in_word 32 n ->
  bigint_ok (bigint_shift_up x n) /\ bval (bigint_shift_up x n) = u256 (Z.shiftl (bval x) n).
Proof.
  intros Hx Hn. unfold in_word in Hn. unfold bigint_shift_up, bpl.
  pose proof (shift_up_words_spec _ x n Hx ltac:(lia) eq_refl) as H.
  destruct shift_up_words as [x' n']. destruct H as (-> & Hok & Hv).
  pose proof (Z.mod_pos_bound n 64 ltac:(lia)). pose proof (Z.div_mod n 64 ltac:(lia)).
  pose proof (Z.div_pos n 64 ltac:(lia) ltac:(lia)).
  destruct (bit_shift_up_spec x' (n mod 64) Hok ltac:(lia)) as [? ->].
  split; [done|]. rewrite Hv. bitwise. unfold u256.
  rewrite !wrap_testbit, !Z.shiftl_spec, wrap_testbit by lia.
  destruct (Z.ltb_spec i 256); [|done]. cbn [andb].
  destruct (Z.ltb_spec (i - n mod 64) 256); [|lia]. cbn [andb].
  destruct (Z.neg_nonneg_cases (i - n mod 64)).
  - by rewrite !Z.testbit_neg_r by lia.
  - rewrite Z.shiftl_spec by lia. f_equal. lia.
Qed.

Lemma limb_shr_testbit lo hi n j :
  in_word 64 lo -> 0 < n < 64 -> 0 <= j < 64 ->
  Z.testbit (Z.lor (Z.shiftr lo n) (u64 (Z.shiftl hi (64 - n)))) j
  = if j + n <? 64 then Z.testbit lo (j + n) else Z.testbit hi (j + n - 64).
Proof.
  intros Hlo Hn Hj. unfold u64. rewrite Z.lor_spec, wrap_testbit, Z.shiftl_spec, Z.shiftr_spec by lia.
  replace (j <? 64) with true by (symmetry; apply Z.ltb_lt; lia). cbn [andb].
  destruct (Z.ltb_spec (j + n) 64).
  - rewrite (Z.testbit_neg_r hi) by lia. apply orb_false_r.
  - rewrite (in_word_testbit_high 64 lo) by (auto; lia). cbn [orb]. f_equal. lia.
Qed.

Lemma shiftr_in_word w x n : 0 <= w -> 0 <= n -> in_word w x -> in_word w (Z.shiftr x n).
Proof.
  unfold in_word. intros Hw Hn Hx. rewrite Z.shiftr_div_pow2 by lia.
  pose proof (pow2_pos n Hn). split; [apply Z.div_pos; lia|].
  apply Z.div_lt_upper_bound; nia.
Qed.

Lemma limb_shr_ok lo hi n :
  in_word 64 lo -> 0 < n < 64 -> in_word 64 (Z.lor (Z.shiftr lo n) (u64 (Z.shiftl hi (64 - n)))).
Proof.
  intros Hlo Hn. rewrite <- (wrap_small 64 (Z.shiftr lo n)) by (apply shiftr_in_word; auto; lia).
  unfold u64. rewrite !wrap_land, <- Z.land_lor_distr_l, <- wrap_land by lia.
  apply wrap_range. lia.
Qed.

Lemma bit_shift_down_eq a b c d n : n <> 0 ->
  bit_shift_down [a; b; c; d] n =
  [Z.lor (Z.shiftr a n) (u64 (Z.shiftl b (64 - n)));
   Z.lor (Z.shiftr b n) (u64 (Z.shiftl c (64 - n)));
   Z.lor (Z.shiftr c n) (u64 (Z.shiftl d (64 - n)));
   Z.shiftr d n].
Proof. intros Hn. unfold bit_shift_down. destruct (Z.eqb_spec n 0); [lia|]. reflexivity. Qed.

Lemma bit_shift_down_spec x n : bigint_ok x -> 0 <= n < 64 ->
  bigint_ok (bit_shift_down x n) /\ bval (bit_shift_down x n) = Z.shiftr (bval x) n.
Proof.
  intros Hx Hn. destruct (Z.eq_dec n 0) as [->|Hn0].
  { unfold bit_shift_down. cbn. split; [done|]. by rewrite Z.shiftr_0_r. }
  pose proof Hx as (a & b & c & d & -> & Ha & Hb & Hc & Hd)%bigint_ok_inv.
  rewrite bit_shift_down_eq by done.
  match goal with |- bigint_ok ?y /\ _ => assert (Hok : bigint_ok y) end.
  { apply bigint_ok_intro; try (apply limb_shr_ok; (done || lia)). apply shiftr_in_word; (done || lia). }
  split; [exact Hok|].
  apply digits_val_bits_eq; [lia|lia|apply Hok|apply shiftr_in_word; auto with cc; lia|].
  intros k j Hk Hj. cbn [length] in Hk. rewrite Z.shiftr_spec by lia.
  assert (Hge : j + n >= 64 -> Z.testbit (bval [a; b; c; d]) (64 * Z.of_nat k + j + n)
      = Z.testbit (BIGWORD [a; b; c; d] (S k)) (j + n - 64)).
  { intros ?. rewrite <- bval_bit_at by (auto; lia). f_equal. lia. }
  assert (Hlt : j + n < 64 -> Z.testbit (bval [a; b; c; d]) (64 * Z.of_nat k + j + n)
      = Z.testbit (BIGWORD [a; b; c; d] k) (j + n)).
  { intros ?. rewrite <- bval_bit_at by (auto; lia). f_equal. lia. }
  transitivity (if j + n <? 64 then Z.testbit (BIGWORD [a; b; c; d] k) (j + n)
                else Z.testbit (BIGWORD [a; b; c; d] (S k)) (j + n - 64)).
  - destruct k as [|[|[|[|]]]]; cbn [nth BIGWORD]; try lia; try (apply limb_shr_testbit; (done || lia)).
    rewrite Z.shiftr_spec by lia. destruct (Z.ltb_spec (j + n) 64); [done|].
    unfold BIGWORD. cbn [nth]. rewrite Z.bits_0. apply (in_word_testbit_high 64); (done || lia).
  - destruct (Z.ltb_spec (j + n) 64); [rewrite Hlt by lia|rewrite Hge by lia]; done.
Qed.

Lemma shift_down_words_spec fuel x n : bigint_ok x -> 0 <= n -> fuel = Z.to_nat (n / 64) ->
  let '(x', n') := shift_down_words fuel x n in
  n' = n mod 64 /\ bigint_ok x' /\ bval x' = Z.shiftr (bval x) (n - n').
Proof.
  revert x n. induction fuel as [|f IH]; intros x n Hx Hn Hf.
  - cbn [shift_down_words]. assert (n / 64 = 0) by (pose proof (Z.div_pos n 64); lia).
    assert (n < 64) by (pose proof (Z.div_mod n 64); pose proof (Z.mod_pos_bound n 64); lia).
    rewrite Z.mod_small, Z.sub_diag, Z.shiftr_0_r by lia. done.
  - pose proof (Z.div_mod n 64 ltac:(lia)). pose proof (Z.mod_pos_bound n 64 ltac:(lia)).
    cbn [shift_down_words]. unfold bpl. destruct (Z.leb_spec 64 n); [|lia].
    destruct (word_shift_down_spec x Hx) as [Hok Hv].
    assert (E : n - 64 = n + (-1) * 64) by lia.
    assert (E1 : (n - 64) / 64 = n / 64 - 1) by (rewrite E, Z.div_add by lia; lia).
    assert (Em : (n - 64) mod 64 = n mod 64) by (rewrite E; apply Z.mod_add; lia).
    specialize (IH (word_shift_down x) (n - 64) Hok ltac:(lia) ltac:(lia)).
    destruct shift_down_words as [x' n']. destruct IH as (-> & Hok' & ->).
    rewrite Em. split; [done|]. split; [done|].
    rewrite Hv, Z.shiftr_shiftr by lia. f_equal. lia.
Qed.

Theorem bigint_shift_down_spec x n : bigint_ok x -> in_word 32 n ->
  bigint_ok (bigint_shift_down x n) /\ bval (bigint_shift_down x n) = Z.shiftr (bval x) n.
Proof.
  intros Hx Hn. unfold in_word in Hn. unfold bigint_shift_down, bpl.
  pose proof (shift_down_words_spec _ x n Hx ltac:(lia) eq_refl) as H.
  destruct shift_down_words as [x' n']. destruct H as (-> & Hok & Hv).
  pose proof (Z.mod_pos_bound n 64 ltac:(lia)). pose proof (Z.div_mod n 64 ltac:(lia)).
  destruct (bit_shift_down_spec x' (n mod 64) Hok ltac:(lia)) as [? ->].
  split; [done|]. rewrite Hv, Z.shiftr_shiftr by lia. f_equal. lia.
Qed.

(** ** Masking *)

Definition mask_limb (n : Z) (k : nat) (w : Z) : Z :=
  if n <=? Z.of_nat k * 64 then 0
  else if n <? (Z.of_nat k + 1) * 64 then Z.land w (u64 (u64 (Z.shiftl 1 (n - Z.of_nat k * 64)) - 1))
  else w.

Lemma bigint_mask_eq a b c d n :
  bigint_mask [a; b; c; d] n = [mask_limb n 0 a; mask_limb n 1 b; mask_limb n 2 c; mask_limb n 3 d].
Proof.
  unfold bigint_mask, mask_limb, bpl. cbn [numberLimbs length seq fold_left].
  repeat (case_bool; try reflexivity).
Qed.

Lemma mask_limb_eq n k w : in_word 64 w -> 0 <= n ->
  mask_limb n k w = wrap (Z.max 0 (Z.min 64 (n - 64 * Z.of_nat k))) w.
Proof.
  intros Hw Hn. unfold mask_limb. repeat (case_bool; try lia).
  - replace (Z.max _ _) with 0 by lia. unfold wrap. by rewrite Z.pow_0_r, Z.mod_1_r.
  - replace (Z.max _ _) with (n - Z.of_nat k * 64) by lia.
    rewrite wrap_land by lia. f_equal. unfold u64.
    pose proof (pow2_in_word 64 (n - Z.of_nat k * 64) ltac:(lia)) as Hp.
    pose proof (pow2_pos (n - Z.of_nat k * 64) ltac:(lia)).
    rewrite Z.shiftl_1_l, (wrap_small _ (2 ^ _)) by done.
    rewrite Z.ones_equiv, <- Z.sub_1_r. apply wrap_small. unfold in_word in *. lia.
  - replace (Z.max _ _) with 64 by lia. by rewrite wrap_small.
Qed.

Theorem bigint_mask_spec x n : bigint_ok x -> in_word 32 n ->
  bigint_ok (bigint_mask x n) /\ bval (bigint_mask x n) = bval x mod 2 ^ n.
Proof.
  intros Hx Hn. pose proof Hx as (a & b & c & d & -> & Ha & Hb & Hc & Hd)%bigint_ok_inv.
  unfold in_word in Hn. fold (wrap n (bval [a; b; c; d])). rewrite bigint_mask_eq.
  assert (Hml : forall k w, in_word 64 w -> in_word 64 (mask_limb n k w)).
  { intros k w Hw. rewrite mask_limb_eq by (done || lia). pose proof (wrap_range _ w (Z.le_max_l 0 (Z.min 64 (n - 64 * Z.of_nat k)))) as Hr.
    unfold in_word in *. pose proof (Z.pow_le_mono_r 2 (Z.max 0 (Z.min 64 (n - 64 * Z.of_nat k))) 64). lia. }
  assert (Hok : bigint_ok [mask_limb n 0 a; mask_limb n 1 b; mask_limb n 2 c; mask_limb n 3 d])
    by (apply bigint_ok_intro; auto).
  split; [exact Hok|]. apply digits_val_bits_eq; [lia|lia|apply Hok|..].
  { cbn [length]. pose proof (bval_range _ Hx) as Hr. unfold in_word, wrap in *.
    split; [apply Z.mod_pos_bound, pow2_pos; lia|].
    pose proof (Z.mod_le (bval [a; b; c; d]) (2 ^ n) ltac:(lia) (pow2_pos n ltac:(lia))). lia. }
  intros k j Hk Hj. cbn [length] in Hk. rewrite wrap_testbit by lia. rewrite bval_bit_at by (done || lia).
  transitivity (Z.testbit (mask_limb n k (BIGWORD [a; b; c; d] k)) j).
  { destruct k as [|[|[|[|]]]]; try lia; done. }
  assert (Hw : in_word 64 (BIGWORD [a; b; c; d] k)) by (destruct k as [|[|[|[|]]]]; (done || lia)).
  rewrite mask_limb_eq by (done || lia). rewrite wrap_testbit by lia.
  destruct (Z.ltb_spec j (Z.max 0 (Z.min 64 (n - 64 * Z.of_nat k))));
    destruct (Z.ltb_spec (64 * Z.of_nat k + j) n); (done || lia).
Qed.

(** ** Memory image *)

Lemma bytes_in_use_from_spec mem n : bytes_ok mem -> (n <= length mem)%nat ->
  let r := bytes_in_use_from mem n in
  0 <= r <= Z.of_nat n /\ le_val (take n mem) < 2 ^ (8 * r)
  /\ (0 < r -> 2 ^ (8 * (r - 1)) <= le_val (take n mem)).
Proof.
  intros Hm. induction n as [|n IH]; intros Hn; cbn [bytes_in_use_from].
  - rewrite take_0. cbn. lia.
  - destruct (lookup_lt_is_Some_2 mem n ltac:(lia)) as [y Hy].
    rewrite (nth_lookup_Some mem n 0 y Hy), (take_S_r mem n y Hy).
    assert (Hb : in_word 8 y) by (eapply Forall_lookup_1; eauto).
    assert (Hok : bytes_ok (take n mem)) by (apply Forall_take; done).
    pose proof (digits_val_range 8 ltac:(lia) _ Hok) as Hr.
    rewrite length_take_le in Hr by lia.
    unfold le_val in *. rewrite digits_val_app by lia. rewrite length_take_le by lia.
    unfold in_word in Hb. cbn [digits_val].
    destruct (Z.eqb_spec y 0) as [->|Hy0].
    + specialize (IH ltac:(lia)). cbn zeta in IH.
      destruct IH as (? & ? & ?). split_and!; lia.
    + split_and!; [lia|lia|..].
      * replace (8 * (Z.of_nat n + 1)) with (8 * Z.of_nat n + 8) by lia.
        rewrite Z.pow_add_r by lia. nia.
      * intros _. replace (8 * (Z.of_nat n + 1 - 1)) with (8 * Z.of_nat n) by lia. nia.
Qed.

Lemma bigint_mem_ok x : bytes_ok (bigint_mem x).
Proof. apply le_bytes_ok. Qed.

Lemma length_bigint_mem x : length (bigint_mem x) = (8 * numberLimbs x)%nat.
Proof. apply length_le_bytes. Qed.

Lemma bigint_mem_val x : bigint_ok x -> le_val (bigint_mem x) = bval x.
Proof.
  intros Hx. unfold bigint_mem. apply le_val_bytes_small.
  pose proof (bval_range x Hx). destruct Hx as [Hl _]. unfold numberLimbs. by rewrite Hl.
Qed.

(** The number of significant bytes: the least [r] with [bval x < 256 ^ r]. *)
Theorem bigint_bytes_in_use_spec x : bigint_ok x ->
  let r := bigint_bytes_in_use x in
  0 <= r <= 32 /\ bval x < 2 ^ (8 * r) /\ (0 < r -> 2 ^ (8 * (r - 1)) <= bval x).
Proof.
  intros Hx. unfold bigint_bytes_in_use.
  pose proof (bytes_in_use_from_spec (bigint_mem x) (8 * numberLimbs x) (bigint_mem_ok x)) as H.
  rewrite length_bigint_mem in H. specialize (H ltac:(lia)).
  rewrite firstn_all2 in H by (rewrite length_bigint_mem; lia).
  rewrite bigint_mem_val in H by done.
  destruct Hx as [Hl _]. unfold numberLimbs in *. rewrite Hl in *. exact H.
Qed.

Lemma end_bytes_in_use_from_spec mem : bytes_ok mem ->
  let r := end_bytes_in_use_from mem (Z.of_nat (length mem)) in
  0 <= r <= Z.of_nat (length mem)
  /\ (exists q, le_val mem = q * 2 ^ (8 * (Z.of_nat (length mem) - r)))
  /\ (0 < r -> le_val mem mod 2 ^ (8 * (Z.of_nat (length mem) - r + 1)) <> 0).
Proof.
  induction 1 as [|y l Hy Hl IH]; cbn [end_bytes_in_use_from length].
  - split_and!; [lia|cbn; lia|exists 0; done|lia].
  - unfold le_val in *. cbn [digits_val]. unfold in_word in Hy.
    replace (Z.of_nat (S (length l)) - 1) with (Z.of_nat (length l)) by lia.
    destruct (Z.eqb_spec y 0) as [->|Hy0].
    + cbn zeta in IH. destruct IH as (Hr & (q & Hq) & Hne).
      set (r := end_bytes_in_use_from l (Z.of_nat (length l))) in *.
      assert (E1 : 8 * (Z.of_nat (S (length l)) - r) = 8 + 8 * (Z.of_nat (length l) - r)) by lia.
      assert (E2 : 8 * (Z.of_nat (S (length l)) - r + 1) = 8 + 8 * (Z.of_nat (length l) - r + 1)) by lia.
      rewrite E1, E2. split_and!; [lia|lia|..].
      * exists q. rewrite Z.pow_add_r, Hq by lia. ring.
      * intros H0. specialize (Hne H0). rewrite Z.pow_add_r, Z.add_0_l by lia.
        rewrite Z.mul_mod_distr_l by (try apply Z.pow_nonzero; lia). lia.
    + split_and!; [lia|lia|..].
      * exists (y + 2 ^ 8 * digits_val 8 l).
        replace (8 * _) with 0 by lia. rewrite Z.pow_0_r. lia.
      * intros _. replace (8 * _) with 8 by lia.
        rewrite (Z.mul_comm (2 ^ 8)), Z.mod_add, Z.mod_small by lia. lia.
Qed.

(** Counted from the high end: [32 - r] is the number of low-order zero bytes. *)
Theorem bigint_end_bytes_in_use_spec x : bigint_ok x ->
  let r := bigint_end_bytes_in_use x in
  0 <= r <= 32 /\ (2 ^ (8 * (32 - r)) | bval x)
  /\ (0 < r -> ~ (2 ^ (8 * (33 - r)) | bval x)).
Proof.
  intros Hx. unfold bigint_end_bytes_in_use.
  pose proof (end_bytes_in_use_from_spec (bigint_mem x) (bigint_mem_ok x)) as H.
  rewrite bigint_mem_val in H by done.
  assert (El : length (bigint_mem x) = 32%nat).
  { unfold bigint_mem. rewrite length_le_bytes. unfold numberLimbs. destruct Hx as [-> _]. done. }
  assert (En : Z.of_nat (8 * numberLimbs x) = 32).
  { unfold numberLimbs. destruct Hx as [-> _]. done. }
  rewrite En. rewrite El in H. cbn zeta in *. change (Z.of_nat 32) with 32 in *.
  destruct H as (? & (q & Hq) & Hne). split_and!; [lia|lia|by exists q|].
  intros H0 Hd. apply Z.mod_divide in Hd; [|apply Z.pow_nonzero; lia].
  apply (Hne H0). rewrite <- Hd. f_equal. f_equal. lia.
Qed.

Lemma bigint_mem_limbs a b c d : in_word 64 a -> in_word 64 b -> in_word 64 c -> in_word 64 d ->
  bigint_mem [a; b; c; d] = le_bytes 8 a ++ le_bytes 8 b ++ le_bytes 8 c ++ le_bytes 8 d.
Proof.
  intros. unfold bigint_mem. cbn [numberLimbs length].
  rewrite <- (le_bytes_val (le_bytes 8 a ++ _)).
  2: { rewrite !bytes_ok_app. auto using le_bytes_ok. }
  rewrite !length_app, !length_le_bytes. f_equal. unfold le_val.
  rewrite !digits_val_app by lia. fold (le_val (le_bytes 8 a)) (le_val (le_bytes 8 b))
    (le_val (le_bytes 8 c)) (le_val (le_bytes 8 d)).
  rewrite !le_val_bytes_small, !length_le_bytes by done.
  unfold bval. cbn [digits_val]. change (8 * Z.of_nat 8) with 64. lia.
Qed.

Lemma bswap_64_bytes x : le_bytes 8 (bswap_64 x) = rev (le_bytes 8 x).
Proof.
  unfold bswap_64. pose proof (le_bytes_val (rev (le_bytes 8 x))) as H.
  rewrite length_rev, length_le_bytes in H. apply H, bytes_ok_rev, le_bytes_ok.
Qed.

Lemma bswap_64_range x : in_word 64 (bswap_64 x).
Proof.
  unfold bswap_64. pose proof (bytes_ok_rev _ (le_bytes_ok 8 x)) as Hok.
  pose proof (digits_val_range 8 ltac:(lia) _ Hok) as H.
  rewrite length_rev, length_le_bytes in H. exact H.
Qed.

Lemma bswap_64_invol x : in_word 64 x -> bswap_64 (bswap_64 x) = x.
Proof.
  intros Hx. unfold bswap_64 at 1. rewrite bswap_64_bytes, rev_involutive.
  by apply le_val_bytes_small.
Qed.

#[export] Hint Resolve bswap_64_range : cc.

(** Byte swapping reverses the memory image. *)
Theorem bigint_byteswap_spec x : bigint_ok x ->
  bigint_ok (bigint_byteswap x) /\ bigint_mem (bigint_byteswap x) = rev (bigint_mem x).
Proof.
  intros (a & b & c & d & -> & Ha & Hb & Hc & Hd)%bigint_ok_inv.
  unfold bigint_byteswap, BIGWORD. cbn [nth].
  split; [apply bigint_ok_intro; apply bswap_64_range|].
  rewrite !bigint_mem_limbs by (done || apply bswap_64_range).
  rewrite !bswap_64_bytes, !rev_app_distr.
  by rewrite !app_assoc.
Qed.
