(* ===== verification/Block.v ===== *)
(** * Blocks and the witness-order rule (src/source/ccnode/src/block.cpp)

    Blocks live in a heap and point to their prior block, as the SmartBuf
    objects of the node do; every operation takes the heap and returns the new one.
    Reference counting is left to the SmartBuf component: a [BlockObj] stays in
    the heap as long as something can reach it.  Logging is dropped. *)
From S2P Require Import Prelude.
From stdpp Require Import gmap.

Local Open Scope Z_scope.
Local Open Scope cc_scope.

(** Pointers are positive addresses; [None] is the null pointer. *)
Abbreviation ptr := positive.

Definition MAX_NWITNESSES : Z := 21.
Definition MAX_NCONFSIGS : Z := MAX_NWITNESSES + (MAX_NWITNESSES - 1) / 2.
Definition MAX_SCORE_BITS : Z := 64.

(** ** Data *)

Record BlockWireHeader := mkWire {
  signature : list Z;
  prior_oid : list Z;
  level : Z;
  timestamp : Z;
  witness : Z;
}.

Record BlockchainParams := mkParams {
  nwitnesses : Z;
  maxmal : Z;
  nconfsigs : Z;
  nseqconfsigs : Z;
  nskipconfsigs : Z;
  next_nwitnesses : Z;
  next_maxmal : Z;
  signing_keys : list (list Z);
}.

Record WitnessParams := mkWit {
  score : Z;
  score_bits : Z;
  score_genstamp : Z;
  next_signing_private_key : list (list Z);
}.

Record BlockAux := mkAux {
  oid : list Z;
  block_hash : list Z;
  announce_ticks : Z;
  skip : Z;
  marked_for_indelible : bool;
  from_tx_net : bool;
  blockchain_params : BlockchainParams;
  total_donations : Z;
  witness_params : WitnessParams;
}.

Record BlockObj := mkBlock {
  WireData : BlockWireHeader;
  TxData : list Z;
  auxp : option BlockAux;
  priorp : option ptr;
}.

Abbreviation heap := (gmap ptr BlockObj).

(** [AuxPtr()]: asserts that the aux buffer has been set up. *)
Definition AuxPtr (b : BlockObj) : outcome BlockAux :=
  match auxp b with Some a => Ret a | None => Throw AssertFail end.

Definition set_aux (b : BlockObj) (a : BlockAux) : BlockObj :=
  mkBlock (WireData b) (TxData b) (Some a) (priorp b).
Definition set_params (a : BlockAux) (p : BlockchainParams) : BlockAux :=
  mkAux (oid a) (block_hash a) (announce_ticks a) (skip a) (marked_for_indelible a)
    (from_tx_net a) p (total_donations a) (witness_params a).
Definition set_skip (a : BlockAux) (s : Z) : BlockAux :=
  mkAux (oid a) (block_hash a) (announce_ticks a) s (marked_for_indelible a)
    (from_tx_net a) (blockchain_params a) (total_donations a) (witness_params a).
Definition set_wit (a : BlockAux) (w : WitnessParams) : BlockAux :=
  mkAux (oid a) (block_hash a) (announce_ticks a) (skip a) (marked_for_indelible a)
    (from_tx_net a) (blockchain_params a) (total_donations a) w.

Definition zero_params : BlockchainParams := mkParams 0 0 0 0 0 0 0 [].
Definition zero_wit : WitnessParams := mkWit 0 0 0 [].

(** A fresh, zeroed aux buffer ([malloc] succeeding); the two aux pointers of the
    object are this buffer and the prior block. *)
Definition SetupAuxBuf (b : BlockObj) (from_tx_net : bool) (ccticks : Z) : BlockObj :=
  set_aux b (mkAux (replicate 16 0) (replicate 64 0) ccticks 0 false from_tx_net
               zero_params 0 zero_wit).

Definition GetPriorBlock (b : BlockObj) : option ptr := priorp b.
Definition SetPriorBlock (b : BlockObj) (priorobj : option ptr) : BlockObj :=
  mkBlock (WireData b) (TxData b) (auxp b) priorobj.

(** ** Confirmation thresholds *)

Definition nconf_of (n m : Z) : Z := (n - m) / 2 + m + 1.

Definition SetConfSigs (p : BlockchainParams) : BlockchainParams :=
  let n := if nwitnesses p <=? 0 then 1 else nwitnesses p in
  let m := if (n + 1) / 2 <=? maxmal p then (n - 1) / 2 else maxmal p in
  let nconf := u16 (nconf_of n m) in
  let nskip := u16 (n + m) in
  let nseq := if m =? 0 then nconf else nskip in
  let cap x := if MAX_NCONFSIGS <? x then MAX_NCONFSIGS else x in
  mkParams n m (cap nconf) (cap nseq) (cap nskip)
    (next_nwitnesses p) (next_maxmal p) (signing_keys p).

(** Number of witnesses skipped between the signers of two consecutive blocks;
    [unsigned] arithmetic. *)
Definition ComputeSkip (prev_witness next_witness nwitnesses : Z) : Z :=
  u32 (u32 (next_witness - (u32 (prev_witness + 1) mod nwitnesses)) + nwitnesses)
  mod nwitnesses.

(** ** Chaining a block to its parent *)

Definition ChainToPriorBlock (h : heap) (self prior : ptr) : outcome heap :=
  match h !! self, h !! prior with
  | Some b, Some pb =>
    let wire := WireData b in
    let! aux := AuxPtr b in
    let! prior_aux := AuxPtr pb in
    let b := SetPriorBlock b (Some prior) in
    ccassert! (witness wire <? MAX_NWITNESSES) in
    let pp := blockchain_params prior_aux in
    let p := mkParams (next_nwitnesses pp) (next_maxmal pp) (nconfsigs pp) (nseqconfsigs pp)
               (nskipconfsigs pp) (next_nwitnesses pp) (next_maxmal pp) (signing_keys pp) in
    let w := witness_params aux in
    let w := mkWit (score w) (score_bits w) (score_genstamp w)
               (next_signing_private_key (witness_params prior_aux)) in
    let p := SetConfSigs p in
    let sk := u16 (ComputeSkip (witness (WireData pb)) (witness wire) (nwitnesses p)) in
    let aux := set_skip (set_wit (set_params aux p) w) sk in
    ccassert! negb (nwitnesses p =? 0) in
    ccassert! (sk <? nwitnesses p) in
    Ret (<[self := set_aux b aux]> h)
  | _, _ => Throw AssertFail
  end.

(** ** The duplicate/ordering rule *)

(** One [CheckBadSigOrder] run stops with a verdict or the two running sums. *)
Inductive walk_result : Set :=
| WalkBad                      (* no prior block above level 0: returns true *)
| WalkFatal                    (* level sequence error: [SetFatalError] *)
| WalkSum (nsigs skipsum : Z).

Fixpoint sig_order_walk (fuel : nat) (h : heap) (b : BlockObj) (nconfsigs nsigs skipsum : Z)
  : outcome walk_result :=
  match fuel with
  | O => Ret (WalkSum nsigs skipsum)
  | S f =>
    if nsigs <? nconfsigs then
      let! a := AuxPtr b in
      let nsigs := nsigs + 1 in
      let skipsum := u32 (skipsum + skip a) in
      match GetPriorBlock b with
      | None => if level (WireData b) =? 0 then Ret (WalkSum nsigs skipsum) else Ret WalkBad
      | Some p =>
        match h !! p with
        | None => Throw AssertFail
        | Some pb =>
          if level (WireData pb) =? u64 (level (WireData b) - 1)
          then let! _ := AuxPtr pb in sig_order_walk f h pb nconfsigs nsigs skipsum
          else Ret WalkFatal
        end
      end
    else Ret (WalkSum nsigs skipsum)
  end.

(** [top_witness] is the index of a witness about to sign on top, or negative. *)
Definition CheckBadSigOrder (h : heap) (b : BlockObj) (top_witness : Z) : outcome bool :=
  let! a := AuxPtr b in
  let p := blockchain_params a in
  let top := 0 <=? top_witness in
  let nw := if top then next_nwitnesses p else nwitnesses p in
  let nc := if top then u32 (nconf_of (next_nwitnesses p) (next_maxmal p)) else nconfsigs p in
  let nsigs := if top then 1 else 0 in
  let skipsum := if top then ComputeSkip (witness (WireData b)) top_witness nw else 0 in
  let! r := sig_order_walk (Z.to_nat nc) h b nc nsigs skipsum in
  match r with
  | WalkBad => Ret true
  | WalkFatal => Ret true
  | WalkSum _ skipsum => Ret (nw <? u32 (skipsum + nc))
  end.

(** Whether the same call sets the fatal error of the blockchain: a level out of sequence
    does, before the order rule is looked at. *)
Definition CheckBadSigOrder_fatal (h : heap) (b : BlockObj) (top_witness : Z) : outcome bool :=
  let! a := AuxPtr b in
  let p := blockchain_params a in
  let top := 0 <=? top_witness in
  let nw := if top then next_nwitnesses p else nwitnesses p in
  let nc := if top then u32 (nconf_of (next_nwitnesses p) (next_maxmal p)) else nconfsigs p in
  let nsigs := if top then 1 else 0 in
  let skipsum := if top then ComputeSkip (witness (WireData b)) top_witness nw else 0 in
  let! r := sig_order_walk (Z.to_nat nc) h b nc nsigs skipsum in
  Ret (match r with WalkFatal => true | _ => false end).

Lemma order_ok_not_fatal h b top : CheckBadSigOrder h b top = Ret false -> CheckBadSigOrder_fatal h b top = Ret false.
Proof.
  unfold CheckBadSigOrder, CheckBadSigOrder_fatal. destruct (AuxPtr b) as [a|]; [|done]. cbn [outcome_bind].
  destruct (sig_order_walk _ _ _ _ _ _) as [[]|]; done.
Qed.

(** ** Skip score *)

(** Level at or below which a maliciousness test stops scanning. *)
Definition mal_target_level (last_level nskip : Z) : Z :=
  if last_level <=? nskip then 0 else last_level - nskip.

(** Running out of [fuel] stands for exhausting the C++ stack; the scan visits one
    block of the chain per call. *)
Definition StackOverflow {A} : outcome A := Throw (RuntimeError 1).

Fixpoint CalcSkipScoreRecursive (fuel : nat) (h : heap) (self last_indelible : ptr)
    (last_level genstamp : Z) (maltest : bool) : outcome (heap * Z * Z) :=
  match fuel with
  | O => StackOverflow
  | S f =>
    match h !! self with
    | None => Throw AssertFail
    | Some b =>
      let wire := WireData b in
      let! a := AuxPtr b in
      let w := witness_params a in
      if negb (genstamp =? 0) && (genstamp =? score_genstamp w)
      then Ret (h, score w, score_bits w)
      else if bool_decide (self = last_indelible) && negb maltest then Ret (h, 1, 1)
      else if (level wire <=? last_level) && negb maltest then Ret (h, 0, 0)
      else if maltest
           && (level wire <=? mal_target_level last_level (nskipconfsigs (blockchain_params a)))
      then Ret (h, 1, 1)
      else
        match GetPriorBlock b with
        | None => if negb maltest then Ret (h, 0, 0) else Ret (h, 1, 1)
        | Some p =>
          let! (h, sc, bits) := CalcSkipScoreRecursive f h p last_indelible last_level genstamp maltest in
          if sc =? 0 then Ret (h, sc, bits)
          else
            let sc := Z.lor (u64 (Z.shiftl sc (skip a + 1))) 1 in
            let bits := u32 (bits + skip a + 1) in
            if genstamp =? 0 then Ret (h, sc, bits)
            else
              match h !! self with
              | None => Throw AssertFail
              | Some b =>
                let! a := AuxPtr b in
                let w := mkWit sc (u16 bits) genstamp (next_signing_private_key (witness_params a)) in
                Ret (<[self := set_aux b (set_wit a w)]> h, sc, bits)
              end
        end
    end
  end.

(** Returns 0 if the block does not chain back to the last indelible block. *)
Definition CalcSkipScore (fuel : nat) (h : heap) (self : ptr) (top_witness : Z)
    (last_indelible : ptr) (genstamp : Z) (maltest : bool) : outcome (heap * Z) :=
  match h !! self, h !! last_indelible with
  | Some b, Some lb =>
    let last_level := level (WireData lb) in
    let! a := AuxPtr b in
    let p := blockchain_params a in
    if maltest && (level (WireData b) <=? mal_target_level last_level (nskipconfsigs p))
    then Ret (h, 0)
    else
      let! (h, sc, bits) := CalcSkipScoreRecursive fuel h self last_indelible last_level genstamp maltest in
      let '(sc, bits) :=
        if negb (sc =? 0) && (0 <=? top_witness) then
          let sk := ComputeSkip (witness (WireData b)) top_witness (next_nwitnesses p) in
          (Z.lor (u64 (Z.shiftl sc (sk + 1))) 1, u32 (bits + sk + 1))
        else (sc, bits) in
      let '(sc, bits) :=
        if MAX_SCORE_BITS <? bits
        then if maltest then (sc, MAX_SCORE_BITS) else (0, bits)
        else (sc, bits) in
      let sc := if bits <? MAX_SCORE_BITS then u64 (Z.shiftl sc (MAX_SCORE_BITS - bits)) else sc in
      Ret (h, sc)
  | _, _ => Throw AssertFail
  end.

(** ** Block identity and signatures

    blake2 and ed25519 are third-party code: hash and signature functions are
    parameters of the definitions. *)

Definition CC_TAG_BLOCK : Z := 0xCC000001.
Definition TX_TIME_OFFSET : Z := 1704067200.

(** [PackedUnsigned<N, div, offset>] of PackedInt.hpp: an integer stored in [N]
    little-endian bytes, scaled and offset. *)
Definition packed_SetValue (N : nat) (div offset v : Z) : list Z :=
  let v := v / div in
  le_bytes N (if offset / div <? v then v - offset / div else 0).
Definition packed_GetValue (div offset : Z) (bytes : list Z) : Z :=
  u64 (u64 (le_val bytes + offset / div) * div).

(** The body of a block header after the signature, as it is on the wire. *)
Definition wire_image (w : BlockWireHeader) : list Z :=
  prior_oid w ++ packed_SetValue 4 1 0 (level w)
  ++ packed_SetValue 4 1 TX_TIME_OFFSET (timestamp w) ++ le_bytes 1 (witness w).

Section crypto.
(** [blake2b key data], [blake2s key data], and the unkeyed 512-bit hash. *)
Context (blake2b blake2s : list Z -> list Z -> list Z) (blake2b_512 : list Z -> list Z).
(** [ed25519_sign_open msg pub sig = 0] iff the signature is good. *)
Context (ed25519_sign : list Z -> list Z -> list Z -> list Z)
        (ed25519_sign_open : list Z -> list Z -> list Z -> Z).
Definition CalcHash (b : BlockObj) : list Z :=
  blake2b (le_bytes 4 CC_TAG_BLOCK) (wire_image (WireData b) ++ TxData b).

Definition CalcOid (b : BlockObj) (hash : list Z) : list Z :=
  blake2s (le_bytes 4 CC_TAG_BLOCK) (hash ++ signature (WireData b)).

Definition SetHash (a : BlockAux) (hash : list Z) : BlockAux :=
  mkAux (oid a) hash (announce_ticks a) (skip a) (marked_for_indelible a)
    (from_tx_net a) (blockchain_params a) (total_donations a) (witness_params a).

Definition SetOid (a : BlockAux) (o : list Z) : BlockAux :=
  mkAux o (block_hash a) (announce_ticks a) (skip a) (marked_for_indelible a)
    (from_tx_net a) (blockchain_params a) (total_donations a) (witness_params a).

Definition SetOrVerifyOid (b : BlockObj) (bset : bool) : outcome BlockObj :=
  let hash := CalcHash b in
  let o := CalcOid b hash in
  let! a := AuxPtr b in
  if bset then Ret (set_aux b (SetOid (SetHash a hash) o))
  else ccassert! bool_decide (hash = block_hash a) in
       ccassert! bool_decide (o = oid a) in
       Ret b.

Definition CummulativeHash (hash data : list Z) : list Z := blake2b_512 (hash ++ data).

(** Returns true on error, with the (possibly signed) block. *)
Definition SignOrVerify (h : heap) (b : BlockObj) (verify : bool) : outcome (BlockObj * bool) :=
  let wire := WireData b in
  let! a := AuxPtr b in
  match b.(priorp) ≫= (h !!.) with
  | None => Throw AssertFail
  | Some pb =>
    let! pa := AuxPtr pb in
    let data := CummulativeHash (block_hash pa) (block_hash a) in
    if next_nwitnesses (blockchain_params pa) <=? witness wire then Ret (b, true)
    else
      let key := nth (Z.to_nat (witness wire)) (signing_keys (blockchain_params pa)) [] in
      if verify then Ret (b, negb (ed25519_sign_open data key (signature wire) =? 0))
      else
        let priv := nth 0 (next_signing_private_key (witness_params pa)) [] in
        let wire := mkWire (ed25519_sign data priv key) (prior_oid wire) (level wire)
                      (timestamp wire) (witness wire) in
        Ret (mkBlock wire (TxData b) (auxp b) (priorp b), false)
  end.
End crypto.

(** ** Scans along the chain used by the serial number checks *)

(** [shutdown] is the value of [g_shutdown] at each iteration; [None] stands for a
    scan that has not finished within [fuel] blocks, or a dangling pointer. *)
Fixpoint BlockInChain (fuel : nat) (shutdown : nat -> bool) (h : heap) (find_block : ptr)
    (smartobj : option ptr) (last_indelible_level : Z) : option bool :=
  match smartobj with
  | None => Some false
  | Some p =>
    if shutdown fuel then Some false
    else if bool_decide (p = find_block) then Some true
    else match h !! p with
         | None => None
         | Some b =>
           if level (WireData b) <=? last_indelible_level then Some false
           else match fuel with
                | O => None
                | S f => BlockInChain f shutdown h find_block (GetPriorBlock b) last_indelible_level
                end
         end
  end.

Definition HasTx (b : BlockObj) : bool := negb (bool_decide (TxData b = [])).

Fixpoint delible_scan (fuel : nat) (shutdown : nat -> bool) (h : heap)
    (smartobj : option ptr) (last_indelible_level : Z) : option bool :=
  match smartobj with
  | None => Some false
  | Some p =>
    if shutdown fuel then Some false
    else match h !! p with
         | None => None
         | Some b =>
           if level (WireData b) <=? last_indelible_level then Some false
           else if HasTx b then Some true
           else match fuel with
                | O => None
                | S f => delible_scan f shutdown h (GetPriorBlock b) last_indelible_level
                end
         end
  end.

Definition ChainHasDelibleTxs (fuel : nat) (shutdown : nat -> bool) (h : heap)
    (smartobj : option ptr) (last_indelible_level : Z) : option bool :=
  if last_indelible_level =? 0 then Some true
  else delible_scan fuel shutdown h smartobj last_indelible_level.

(** ** Properties of the thresholds *)

Definition params_sane (p : BlockchainParams) : Prop :=
  0 <= nwitnesses p <= MAX_NWITNESSES /\ 0 <= maxmal p < 2 ^ 16.

Lemma half_bounds x : 2 * (x / 2) <= x < 2 * (x / 2) + 2.
Proof. pose proof (Z.div_mod x 2). pose proof (Z.mod_pos_bound x 2). lia. Qed.

(** The sanitised parameters: nonempty witness set, a minority may be malicious. *)
Lemma SetConfSigs_values p : params_sane p ->
  let q := SetConfSigs p in
  1 <= nwitnesses q <= MAX_NWITNESSES /\ 0 <= maxmal q /\ 2 * maxmal q < nwitnesses q
  /\ nconfsigs q = nconf_of (nwitnesses q) (maxmal q)
  /\ nskipconfsigs q = nwitnesses q + maxmal q
  /\ nseqconfsigs q = if maxmal q =? 0 then nconfsigs q else nskipconfsigs q.
Proof.
  unfold params_sane, MAX_NWITNESSES. intros [Hn Hm]. unfold SetConfSigs.
  cbn [nwitnesses maxmal nconfsigs nskipconfsigs nseqconfsigs].
  set (n := if nwitnesses p <=? 0 then 1 else nwitnesses p).
  assert (Hn1 : 1 <= n <= 21) by (subst n; case_bool; lia).
  set (m := if (n + 1) / 2 <=? maxmal p then (n - 1) / 2 else maxmal p).
  pose proof (half_bounds (n + 1)). pose proof (half_bounds (n - 1)). pose proof (half_bounds (n - m)).
  assert (Hm1 : 0 <= m /\ 2 * m < n) by (subst m; case_bool; lia).
  unfold u16, nconf_of, MAX_NCONFSIGS, MAX_NWITNESSES.
  change (21 + (21 - 1) / 2) with 31.
  rewrite !wrap_small by (unfold in_word; lia).
  split_and!; try lia; destruct (Z.eqb_spec m 0); repeat (case_bool; try lia).
Qed.

(** Two sets of [nconfsigs] witnesses share more than [maxmal] of them. *)
Lemma quorum_arith n m : 0 <= m -> 2 * m < n -> 1 <= n ->
  m < 2 * nconf_of n m - n /\ nconf_of n m <= n /\ 1 <= nconf_of n m /\ nconf_of n m <= n + m.
Proof. intros. unfold nconf_of. pose proof (half_bounds (n - m)). lia. Qed.

(** ** The witness ring *)

Lemma ComputeSkip_eq w0 w1 n : 0 <= w0 < n -> 0 <= w1 < n -> n < 2 ^ 31 ->
  ComputeSkip w1 w0 n = (w0 - (w1 + 1)) mod n.
Proof.
  intros H0 H1 Hn. unfold ComputeSkip, u32. rewrite (wrap_small 32 (w1 + 1)) by (unfold in_word; lia).
  pose proof (Z.mod_pos_bound (w1 + 1) n ltac:(lia)).
  unfold wrap at 2. unfold wrap. rewrite Zplus_mod_idemp_l.
  rewrite (Z.mod_small _ (2 ^ 32)) by lia.
  rewrite <- (Z.mod_add (w0 - (w1 + 1)) 1 n) by lia.
  rewrite Z.mul_1_l.
  rewrite <- Zplus_mod_idemp_l, <- (Zplus_mod_idemp_l (w0 - (w1 + 1))).
  f_equal. f_equal. apply Zminus_mod_idemp_r.
Qed.

(** Moving [skip + 1] places on the ring from the prior signer reaches the signer. *)
Lemma ComputeSkip_ring w0 w1 n : 0 <= w0 < n -> 0 <= w1 < n -> n < 2 ^ 31 ->
  0 <= ComputeSkip w1 w0 n < n /\ w0 = (w1 + (1 + ComputeSkip w1 w0 n)) mod n.
Proof.
  intros. rewrite ComputeSkip_eq by auto. split; [apply Z.mod_pos_bound; lia|].
  rewrite Z.add_assoc, Zplus_mod_idemp_r.
  replace (w1 + 1 + (w0 - (w1 + 1))) with w0 by lia. symmetry. apply Z.mod_small. lia.
Qed.

(** Signers (newest first) paired with the skip of each block. *)
Fixpoint ring_chain (n : Z) (l : list (Z * Z)) : Prop :=
  match l with
  | (w0, s0) :: (((w1, _) :: _) as t) => w0 = (w1 + (1 + s0)) mod n /\ ring_chain n t
  | _ => True
  end.

Definition skip_sum (l : list (Z * Z)) : Z := foldr (fun p acc => snd p + acc) 0 l.

Definition ring_ok (n : Z) (l : list (Z * Z)) : Prop :=
  Forall (fun p => 0 <= fst p < n /\ 0 <= snd p < n) l.

Lemma ring_ok_cons n w s l : ring_ok n ((w, s) :: l) -> 0 <= w < n /\ 0 <= s < n /\ ring_ok n l.
Proof. intros H. apply Forall_cons in H. cbn in H. unfold ring_ok. tauto. Qed.

Lemma skip_sum_cons w s l : skip_sum ((w, s) :: l) = s + skip_sum l.
Proof. done. Qed.

Lemma skip_sum_nonneg n l : ring_ok n l -> 0 <= skip_sum l.
Proof.
  induction 1 as [|[w s] l H _ IH]; [done|]. rewrite skip_sum_cons. cbn in H. lia.
Qed.

Lemma skip_sum_bound n l : ring_ok n l -> skip_sum l <= Z.of_nat (length l) * n.
Proof.
  induction l as [|[w s] l IH]; [done|]. intros (? & ? & Hok)%ring_ok_cons.
  rewrite skip_sum_cons. specialize (IH Hok). cbn [length]. lia.
Qed.

(** Every older signer is behind the newest one by a bounded nonzero distance. *)
Lemma ring_distance n w0 s0 l x : ring_ok n ((w0, s0) :: l) -> ring_chain n ((w0, s0) :: l) ->
  x ∈ map fst l ->
  exists d, 1 <= d <= skip_sum ((w0, s0) :: l) + Z.of_nat (length l) /\ w0 = (x + d) mod n.
Proof.
  revert w0 s0. induction l as [|[w1 s1] l IH]; intros w0 s0 Hok Hc Hx.
  - by apply elem_of_nil in Hx.
  - pose proof (ring_ok_cons _ _ _ _ Hok) as (? & ? & Hok').
    pose proof (ring_ok_cons _ _ _ _ Hok') as (? & ? & Hok'').
    pose proof (skip_sum_nonneg _ _ Hok''). destruct Hc as [Hw Hc].
    cbn [map fst] in Hx. cbn [length] in *. rewrite skip_sum_cons in *.
    apply elem_of_cons in Hx as [->|Hx].
    + exists (1 + s0). rewrite skip_sum_cons. split; [lia|done].
    + destruct (IH w1 s1 Hok' Hc Hx) as (d & Hd & Hw1). exists (d + (1 + s0)).
      rewrite skip_sum_cons in *. split; [lia|].
      rewrite Hw, Hw1, Zplus_mod_idemp_l. f_equal. lia.
Qed.

(** The duplicate/ordering rule: if the skips and the blocks fit in one turn of the
    ring then no witness signed twice. *)
Lemma ring_distinct n l : ring_ok n l -> ring_chain n l ->
  skip_sum l + Z.of_nat (length l) <= n -> NoDup (map fst l).
Proof.
  induction l as [|[w0 s0] l IH]; intros Hok Hc Hs; cbn [map]; [constructor|].
  pose proof (ring_ok_cons _ _ _ _ Hok) as (? & ? & Hok').
  constructor.
  - intros Hx. destruct (ring_distance _ _ _ _ _ Hok Hc Hx) as (d & Hd & Hw).
    cbn [fst length] in *. pose proof (Z.div_mod (w0 + d) n ltac:(lia)) as E.
    rewrite <- Hw in E. clear Hw. revert E. generalize ((w0 + d) / n). intros q E.
    assert (d = n * q) by lia. assert (d < n) by lia.
    destruct (Z.le_gt_cases q 0); nia.
  - apply IH; [done| |].
    + destruct l as [|[w1 s1] l]; [done|apply Hc].
    + cbn [length] in *. rewrite skip_sum_cons in *. lia.
Qed.

(** ** Chains in the heap *)

(** The [n] blocks from [p] back along the prior pointers (fewer near genesis). *)
Fixpoint back_walk (n : nat) (h : heap) (p : ptr) : list ptr :=
  match n with
  | O => []
  | S n => p :: match h !! p ≫= GetPriorBlock with
                | Some q => back_walk n h q
                | None => []
                end
  end.

Definition signer (h : heap) (p : ptr) : Z :=
  default (-1) ((fun b => witness (WireData b)) <$> h !! p).
Definition level_of (h : heap) (p : ptr) : Z :=
  default (-1) ((fun b => level (WireData b)) <$> h !! p).
Definition skip_of (h : heap) (p : ptr) : Z :=
  default 0 (skip <$> (h !! p ≫= auxp)).
Definition ring_of (h : heap) (l : list ptr) : list (Z * Z) :=
  map (fun p => (signer h p, skip_of h p)) l.

(** Every block carries the parameters of a network of [n] witnesses of which [m]
    may be malicious, and was chained to its parent by [ChainToPriorBlock]. *)
Record block_ok (h : heap) (n m : Z) (b : BlockObj) (a : BlockAux) : Prop := {
  bk_aux : auxp b = Some a;
  bk_nwit : nwitnesses (blockchain_params a) = n;
  bk_nconf : nconfsigs (blockchain_params a) = nconf_of n m;
  bk_next : next_nwitnesses (blockchain_params a) = n;
  bk_nextm : next_maxmal (blockchain_params a) = m;
  bk_witness : 0 <= witness (WireData b) < n;
  bk_level : 0 <= level (WireData b) < 2 ^ 32;
  bk_skip : 0 <= skip a < n;
  bk_prior q : GetPriorBlock b = Some q -> exists qb, h !! q = Some qb /\
    skip a = ComputeSkip (witness (WireData qb)) (witness (WireData b)) n;
}.

Definition heap_ok (h : heap) (n m : Z) : Prop :=
  forall p b, h !! p = Some b -> exists a, block_ok h n m b a.

(** Network parameters accepted by the configuration checks of ccnode.cpp. *)
Definition net_ok (n m : Z) : Prop := 1 <= n <= MAX_NWITNESSES /\ 0 <= m /\ 2 * m < n.

Lemma net_ok_conf n m : net_ok n m ->
  1 <= nconf_of n m <= n /\ n <= 21 /\ m < 2 * nconf_of n m - n.
Proof. intros (H1 & H2 & H3). unfold MAX_NWITNESSES in H1. pose proof (quorum_arith n m). lia. Qed.

Lemma ring_of_back_walk_ok h n m f p b : n <= 21 -> heap_ok h n m -> h !! p = Some b ->
  ring_ok n (ring_of h (back_walk f h p)) /\ ring_chain n (ring_of h (back_walk f h p)).
Proof.
  intros Hn Hh. revert p b. induction f as [|f IH]; intros p b Hb; [by split; [constructor|]|].
  cbn [back_walk]. rewrite Hb. cbn [mbind option_bind].
  destruct (Hh _ _ Hb) as [a Ha].
  assert (Hp : signer h p = witness (WireData b) /\ skip_of h p = skip a).
  { unfold signer, skip_of. rewrite Hb. cbn. by rewrite (bk_aux _ _ _ _ _ Ha). }
  destruct Hp as [Hs Hk]. pose proof (bk_witness _ _ _ _ _ Ha). pose proof (bk_skip _ _ _ _ _ Ha).
  destruct (GetPriorBlock b) as [q|] eqn:Eq; cbn [ring_of map].
  - destruct (bk_prior _ _ _ _ _ Ha q Eq) as (qb & Hqb & Hskip).
    destruct (IH q qb Hqb) as [IHo IHc].
    split; [constructor; [cbn; rewrite Hs, Hk; lia|exact IHo]|].
    destruct f as [|f]; [done|]. cbn [back_walk ring_of map] in *.
    split; [|exact IHc]. destruct (Hh _ _ Hqb) as [qa Hqa]. pose proof (bk_witness _ _ _ _ _ Hqa).
    rewrite Hs, Hk, Hskip. unfold signer. rewrite Hqb. cbn [fmap option_fmap option_map default].
    apply ComputeSkip_ring; auto. lia.
  - split; [constructor; [cbn; rewrite Hs, Hk; lia|constructor]|done].
Qed.

Lemma heap_ok_lookup h n m p b : heap_ok h n m -> h !! p = Some b ->
  exists a, block_ok h n m b a /\ signer h p = witness (WireData b) /\ skip_of h p = skip a
            /\ level_of h p = level (WireData b).
Proof.
  intros Hh Hb. destruct (Hh _ _ Hb) as [a Ha]. exists a. split; [done|].
  unfold signer, skip_of, level_of. rewrite Hb. cbn. by rewrite (bk_aux _ _ _ _ _ Ha).
Qed.

(** A completed scan has added up the skips of the blocks it visited, and those
    blocks are at consecutive levels. *)
Lemma sig_order_walk_sum h n m f p b nc ns ss ns' ss' :
  n <= 21 -> heap_ok h n m -> h !! p = Some b ->
  0 <= ss -> ss + Z.of_nat f * n < 2 ^ 32 -> nc - ns = Z.of_nat f ->
  sig_order_walk f h b nc ns ss = Ret (WalkSum ns' ss') ->
  ss' = ss + skip_sum (ring_of h (back_walk f h p))
  /\ (forall i q, back_walk f h p !! i = Some q -> level_of h q = level (WireData b) - Z.of_nat i).
Proof.
  intros Hn Hh. revert p b ns ss. induction f as [|f IH]; intros p b ns ss Hb Hss Hov Hnc Hw.
  - cbn in Hw. injection Hw as <- <-. cbn. split; [lia|done].
  - cbn [sig_order_walk] in Hw. destruct (Z.ltb_spec ns nc); [|lia].
    destruct (heap_ok_lookup _ _ _ _ _ Hh Hb) as (a & Ha & Hsg & Hsk & Hlv).
    pose proof (bk_skip _ _ _ _ _ Ha). pose proof (bk_level _ _ _ _ _ Ha).
    unfold AuxPtr in Hw. rewrite (bk_aux _ _ _ _ _ Ha) in Hw. cbn [outcome_bind] in Hw.
    assert (Hu : u32 (ss + skip a) = ss + skip a) by (apply wrap_small; unfold in_word; nia).
    rewrite Hu in Hw. cbn [back_walk]. rewrite Hb. cbn [mbind option_bind].
    destruct (GetPriorBlock b) as [q|] eqn:Eq.
    + destruct (bk_prior _ _ _ _ _ Ha q Eq) as (qb & Hqb & _). rewrite Hqb in Hw.
      destruct (heap_ok_lookup _ _ _ _ _ Hh Hqb) as (qa & Hqa & _ & _ & Hqlv).
      pose proof (bk_level _ _ _ _ _ Hqa).
      destruct (Z.eqb_spec (level (WireData qb)) (u64 (level (WireData b) - 1))) as [Hle|]; [|discriminate].
      rewrite (bk_aux _ _ _ _ _ Hqa) in Hw. cbn [outcome_bind] in Hw.
      assert (Hlev : level (WireData qb) = level (WireData b) - 1).
      { destruct (Z.eq_dec (level (WireData b)) 0) as [E0|].
        - rewrite E0 in Hle. change (u64 (0 - 1)) with 18446744073709551615 in Hle. lia.
        - rewrite Hle. apply wrap_small. unfold in_word. lia. }
      destruct (IH q qb (ns + 1) (ss + skip a) Hqb) as [IH1 IH2]; [lia|lia|lia|exact Hw|].
      split.
      * rewrite IH1. cbn [ring_of map]. rewrite skip_sum_cons, Hsk. unfold ring_of. lia.
      * intros [|i] x Hx; cbn in Hx; [injection Hx as <-; rewrite Hlv; lia|].
        rewrite (IH2 _ _ Hx). lia.
    + destruct (Z.eqb_spec (level (WireData b)) 0); [|discriminate]. injection Hw as <- <-.
      split; [cbn [ring_of map]; rewrite skip_sum_cons, Hsk; cbn; lia|].
      intros [|i] x Hx; cbn in Hx; [injection Hx as <-; rewrite Hlv; lia|done].
Qed.

Lemma length_back_walk f h p : (length (back_walk f h p) <= f)%nat.
Proof.
  revert p. induction f as [|f IH]; intros p; cbn; [lia|].
  destruct (h !! p ≫= GetPriorBlock); cbn; [specialize (IH p0)|]; lia.
Qed.

Lemma CheckBadSigOrder_walk h n m p b : net_ok n m -> heap_ok h n m -> h !! p = Some b ->
  CheckBadSigOrder h b (-1) = Ret false ->
  let l := back_walk (Z.to_nat (nconf_of n m)) h p in
  skip_sum (ring_of h l) + nconf_of n m <= n
  /\ (forall i q, l !! i = Some q -> level_of h q = level (WireData b) - Z.of_nat i).
Proof.
  intros Hnet Hh Hb Hc. pose proof (net_ok_conf _ _ Hnet) as Hcf.
  destruct (Hh _ _ Hb) as [a Ha]. unfold CheckBadSigOrder, AuxPtr in Hc.
  rewrite (bk_aux _ _ _ _ _ Ha) in Hc. cbn [outcome_bind] in Hc. change (0 <=? -1) with false in Hc.
  cbn iota in Hc. rewrite (bk_nconf _ _ _ _ _ Ha), (bk_nwit _ _ _ _ _ Ha) in Hc.
  destruct (sig_order_walk _ _ _ _ _ _) as [r|] eqn:Ew; [|discriminate]. cbn [outcome_bind] in Hc.
  destruct r as [| |ns' ss']; [discriminate..|].
  destruct (sig_order_walk_sum h n m (Z.to_nat (nconf_of n m)) p b (nconf_of n m) 0 0 ns' ss'
    ltac:(lia) Hh Hb ltac:(lia) ltac:(nia) ltac:(lia) Ew) as [Ess Hlev].
  split; [|exact Hlev]. injection Hc as Hc. apply Z.ltb_ge in Hc.
  destruct (ring_of_back_walk_ok h n m (Z.to_nat (nconf_of n m)) p b ltac:(lia) Hh Hb) as [Hok _].
  pose proof (skip_sum_nonneg _ _ Hok).
  pose proof (skip_sum_bound _ _ Hok) as Hub. unfold ring_of in Hub at 2.
  rewrite length_map in Hub. pose proof (length_back_walk (Z.to_nat (nconf_of n m)) h p).
  cbn zeta. subst ss'. unfold u32 in Hc.
  rewrite wrap_small in Hc; [unfold ring_of in *; lia|]. unfold in_word. unfold ring_of in *. nia.
Qed.

Lemma window_signers_distinct h n m p b : net_ok n m -> heap_ok h n m -> h !! p = Some b ->
  CheckBadSigOrder h b (-1) = Ret false ->
  NoDup (map (signer h) (back_walk (Z.to_nat (nconf_of n m)) h p)).
Proof.
  intros Hnet Hh Hb Hc. pose proof (net_ok_conf _ _ Hnet).
  destruct (CheckBadSigOrder_walk _ _ _ _ _ Hnet Hh Hb Hc) as [Hs _]. cbn zeta in Hs.
  destruct (ring_of_back_walk_ok h n m (Z.to_nat (nconf_of n m)) p b ltac:(lia) Hh Hb) as [Ho Hr].
  apply ring_distinct in Ho; [|done|].
  - unfold ring_of in Ho. rewrite map_map in Ho. exact Ho.
  - unfold ring_of at 2. rewrite length_map.
    pose proof (length_back_walk (Z.to_nat (nconf_of n m)) h p). lia.
Qed.

(** An executable check of [heap_ok], for concrete heaps. *)
Definition block_okb (h : heap) (n m : Z) (b : BlockObj) : bool :=
  match auxp b with
  | None => false
  | Some a =>
      (nwitnesses (blockchain_params a) =? n)
      && (nconfsigs (blockchain_params a) =? nconf_of n m)
      && (next_nwitnesses (blockchain_params a) =? n)
      && (next_maxmal (blockchain_params a) =? m)
      && (0 <=? witness (WireData b)) && (witness (WireData b) <? n)
      && (0 <=? level (WireData b)) && (level (WireData b) <? 2 ^ 32)
      && (0 <=? skip a) && (skip a <? n)
      && match GetPriorBlock b with
         | None => true
         | Some q => match h !! q with
                     | None => false
                     | Some qb => skip a =? ComputeSkip (witness (WireData qb)) (witness (WireData b)) n
                     end
         end
  end.

Lemma block_okb_ok h n m b : block_okb h n m b = true -> exists a, block_ok h n m b a.
Proof.
  unfold block_okb. destruct (auxp b) as [a|] eqn:Ea; [|done]. intros H. exists a.
  rewrite !andb_true_iff, !Z.eqb_eq, !Z.ltb_lt, !Z.leb_le in H.
  decompose [and] H; clear H. constructor; auto. intros q Hq. rewrite Hq in *.
  destruct (h !! q) as [qb|]; [|done]. exists qb. split; [done|by apply Z.eqb_eq].
Qed.

Lemma heap_okb_ok h n m :
  forallb (fun pb => block_okb h n m (snd pb)) (map_to_list h) = true -> heap_ok h n m.
Proof.
  intros H p b Hp. rewrite forallb_forall in H. apply elem_of_map_to_list, list_elem_of_In in Hp.
  apply block_okb_ok. exact (H _ Hp).
Qed.

(** A small network for the concrete instances below: three witnesses of which one
    may be malicious, and two branches of three blocks above a genesis block. *)
Definition demo_block (lvl w : Z) (prior : option ptr) : BlockObj :=
  mkBlock (mkWire [] [] lvl 0 w) [1] (Some (mkAux [] [] 0 0 false false
    (SetConfSigs (mkParams 3 1 0 0 0 3 1 [])) 0 zero_wit)) prior.
Definition demo_heap : heap :=
  list_to_map [(1%positive, demo_block 0 0 None);
    (2%positive, demo_block 1 1 (Some 1%positive)); (3%positive, demo_block 2 2 (Some 2%positive));
    (4%positive, demo_block 3 0 (Some 3%positive)); (5%positive, demo_block 1 1 (Some 1%positive));
    (6%positive, demo_block 2 2 (Some 5%positive)); (7%positive, demo_block 3 0 (Some 6%positive))].

(** A block that passes the order rule has distinct signers on its confirmation
    window (the block itself and its ancestors). *)
Theorem order_rule_distinct h n m p b : net_ok n m -> heap_ok h n m -> h !! p = Some b ->
  CheckBadSigOrder h b (-1) = Ret false ->
  NoDup (map (signer h) (back_walk (Z.to_nat (nconf_of n m)) h p)).
Proof. intros. by eapply window_signers_distinct. Qed.

Lemma order_rule_distinct_witness :
  CheckBadSigOrder demo_heap (demo_block 3 0 (Some 3%positive)) (-1) = Ret false /\
  NoDup (map (signer demo_heap) (back_walk (Z.to_nat (nconf_of 3 1)) demo_heap 4)).
Proof.
  split; [reflexivity|]. eapply (order_rule_distinct demo_heap 3 1 4).
  - repeat split; done.
  - apply heap_okb_ok. reflexivity.
  - reflexivity.
  - reflexivity.
Defined.

Lemma back_walk_drop i k h p q : back_walk (i + k) h p !! i = Some q -> (0 < k)%nat ->
  drop i (back_walk (i + k) h p) = back_walk k h q.
Proof.
  revert p. induction i as [|i IH]; intros p Hi Hk; cbn [Nat.add] in *.
  - destruct k as [|k]; [lia|]. cbn in Hi. by injection Hi as <-.
  - cbn [back_walk] in *. destruct (h !! p ≫= GetPriorBlock) as [x|]; [|done].
    cbn [drop]. apply IH; [exact Hi|done].
Qed.

(** A full window starting at [p] and ending at [A]. *)
Definition window (h : heap) (nc : nat) (p A : ptr) : Prop :=
  (0 < nc)%nat /\ back_walk nc h p !! (nc - 1)%nat = Some A.

Lemma window_common h nc pA pB A B i x : window h nc pA A -> window h nc pB B ->
  back_walk nc h pA !! i = Some x -> back_walk nc h pB !! i = Some x -> A = B.
Proof.
  intros [H0 HA] [_ HB] Hi Hj.
  assert (Hlt : (i < nc)%nat).
  { apply lookup_lt_Some in Hi. pose proof (length_back_walk nc h pA). lia. }
  replace nc with (i + (nc - i))%nat in Hi, Hj at 1 by lia.
  apply back_walk_drop in Hi, Hj; [|lia..]. replace (i + (nc - i))%nat with nc in Hi, Hj by lia.
  assert (E : drop i (back_walk nc h pA) !! (nc - 1 - i)%nat = drop i (back_walk nc h pB) !! (nc - 1 - i)%nat)
    by (rewrite Hi, Hj; done).
  rewrite !lookup_drop in E. replace (i + (nc - 1 - i))%nat with (nc - 1)%nat in E by lia.
  rewrite HA, HB in E. by injection E.
Qed.

Lemma window_signers h n m p b : heap_ok h n m -> h !! p = Some b -> forall f,
  Forall (fun x => 0 <= x < n) (map (signer h) (back_walk f h p)).
Proof.
  intros Hh Hb f. revert p b Hb. induction f as [|f IH]; intros p b Hb; [constructor|].
  cbn [back_walk map]. rewrite Hb. cbn [mbind option_bind].
  destruct (heap_ok_lookup _ _ _ _ _ Hh Hb) as (a & Ha & -> & _).
  pose proof (bk_witness _ _ _ _ _ Ha). constructor; [done|].
  destruct (GetPriorBlock b) as [q|] eqn:Eq; [|constructor].
  destruct (bk_prior _ _ _ _ _ Ha q Eq) as (qb & Hqb & _). by apply (IH q qb).
Qed.

Lemma window_length h nc p A : window h nc p A -> length (back_walk nc h p) = nc.
Proof.
  intros [H0 H]. apply lookup_lt_Some in H. pose proof (length_back_walk nc h p). lia.
Qed.

(** Overlapping confirmation windows of a fork. *)
Lemma fork_equivocation h n m pA bA pB bB A B :
  net_ok n m -> heap_ok h n m ->
  h !! pA = Some bA -> h !! pB = Some bB ->
  CheckBadSigOrder h bA (-1) = Ret false -> CheckBadSigOrder h bB (-1) = Ret false ->
  let nc := Z.to_nat (nconf_of n m) in
  window h nc pA A -> window h nc pB B ->
  A <> B -> level_of h A = level_of h B ->
  exists W, NoDup W /\ m < Z.of_nat (length W) /\
    forall w, w ∈ W -> exists x y,
      x ∈ back_walk nc h pA /\ y ∈ back_walk nc h pB /\ x <> y /\ signer h x = w /\ signer h y = w.
Proof.
  intros Hnet Hh HbA HbB HcA HcB nc HwA HwB Hne Hlev.
  pose proof (net_ok_conf _ _ Hnet) as Hcf.
  pose proof (window_signers_distinct _ _ _ _ _ Hnet Hh HbA HcA) as NA.
  pose proof (window_signers_distinct _ _ _ _ _ Hnet Hh HbB HcB) as NB.
  destruct (CheckBadSigOrder_walk _ _ _ _ _ Hnet Hh HbA HcA) as [_ LA].
  destruct (CheckBadSigOrder_walk _ _ _ _ _ Hnet Hh HbB HcB) as [_ LB].
  fold nc in NA, NB, LA, LB.
  set (sA := map (signer h) (back_walk nc h pA)) in *. set (sB := map (signer h) (back_walk nc h pB)) in *.
  exists (filter (fun w => w ∈ sB) sA). split_and!; [by apply NoDup_filter| |].
  - pose proof (index_overlap n sA sB ltac:(lia) NA NB (window_signers _ _ _ _ _ Hh HbA nc)
      (window_signers _ _ _ _ _ Hh HbB nc)) as Ho.
    subst sA sB. rewrite !length_map, (window_length _ _ _ _ HwA), (window_length _ _ _ _ HwB) in Ho.
    unfold nc in *. lia.
  - intros w [HwsB HwsA]%list_elem_of_filter.
    apply list_elem_of_fmap in HwsA as (x & -> & Hx). apply list_elem_of_fmap in HwsB as (y & Hsy & Hy).
    exists x, y. split_and!; auto. intros <-.
    apply list_elem_of_lookup in Hx as [i Hi]. apply list_elem_of_lookup in Hy as [j Hj].
    destruct HwA as [Hpos HA], HwB as [Hpos' HB].
    pose proof (LA _ _ Hi). pose proof (LB _ _ Hj). pose proof (LA _ _ HA). pose proof (LB _ _ HB).
    assert (i = j) as <- by lia. apply Hne.
    by apply (window_common h nc pA pB A B i x).
Qed.

(** C10. Two different blocks at the same level that both got a full confirmation window
    of valid blocks: more than [m] witnesses signed in both windows, on different
    blocks. *)
Theorem fork_needs_equivocation h n m pA bA pB bB A B :
  net_ok n m -> heap_ok h n m ->
  h !! pA = Some bA -> h !! pB = Some bB ->
  CheckBadSigOrder h bA (-1) = Ret false -> CheckBadSigOrder h bB (-1) = Ret false ->
  let nc := Z.to_nat (nconf_of n m) in
  window h nc pA A -> window h nc pB B ->
  A <> B -> level_of h A = level_of h B ->
  exists W, NoDup W /\ m < Z.of_nat (length W) /\
    forall w, w ∈ W -> exists x y,
      x ∈ back_walk nc h pA /\ y ∈ back_walk nc h pB /\ x <> y /\ signer h x = w /\ signer h y = w.
Proof. exact (fork_equivocation h n m pA bA pB bB A B). Qed.

Lemma fork_needs_equivocation_witness : exists W, NoDup W /\ 1 < Z.of_nat (length W) /\
    forall w, w ∈ W -> exists x y, x ∈ back_walk 3 demo_heap 4 /\ y ∈ back_walk 3 demo_heap 7
      /\ x <> y /\ signer demo_heap x = w /\ signer demo_heap y = w.
Proof.
  apply (fork_needs_equivocation demo_heap 3 1 4 (demo_block 3 0 (Some 3%positive))
    7 (demo_block 3 0 (Some 6%positive)) 2 5); try reflexivity; try done.
  - apply heap_okb_ok. reflexivity.
  - split; [vm_compute; lia|reflexivity].
  - split; [vm_compute; lia|reflexivity].
Defined.

(** ** Chaining preserves the chain invariant *)

Lemma block_ok_frame h h' n m b a :
  (forall q qb, GetPriorBlock b = Some q -> h !! q = Some qb ->
     exists qb', h' !! q = Some qb' /\ witness (WireData qb') = witness (WireData qb)) ->
  block_ok h n m b a -> block_ok h' n m b a.
Proof.
  intros Hf []. constructor; auto. intros q Hq. destruct (bk_prior0 q Hq) as (qb & Hqb & Hs).
  destruct (Hf q qb Hq Hqb) as (qb' & Hqb' & Hw). exists qb'. by rewrite Hw.
Qed.

(** ChainToPriorBlock succeeds on an authorised block and keeps the chain invariant of the heap. *)
Theorem ChainToPriorBlock_ok h n m self prior b a pb :
  net_ok n m -> heap_ok (delete self h) n m ->
  h !! self = Some b -> auxp b = Some a -> h !! prior = Some pb -> self <> prior ->
  0 <= witness (WireData b) < n -> 0 <= level (WireData b) < 2 ^ 32 ->
  exists h', ChainToPriorBlock h self prior = Ret h' /\ heap_ok h' n m
    /\ GetPriorBlock <$> h' !! self = Some (Some prior)
    /\ forall p, p <> self -> h' !! p = h !! p.
Proof.
  intros Hnet Hh Hb Ha Hpb Hne Hw Hl. pose proof (net_ok_conf _ _ Hnet) as Hcf.
  destruct Hnet as (Hn1 & Hm1 & Hm2). unfold MAX_NWITNESSES in Hn1.
  assert (Hpb' : delete self h !! prior = Some pb) by (by rewrite lookup_delete_ne).
  destruct (heap_ok_lookup _ _ _ _ _ Hh Hpb') as (pa & Hpa & _).
  unfold ChainToPriorBlock, AuxPtr. rewrite Hb, Hpb, Ha, (bk_aux _ _ _ _ _ Hpa).
  cbn [outcome_bind]. unfold MAX_NWITNESSES.
  destruct (Z.ltb_spec (witness (WireData b)) 21); [|lia].
  rewrite (bk_next _ _ _ _ _ Hpa), (bk_nextm _ _ _ _ _ Hpa).
  match goal with |- context [SetConfSigs ?q] => set (p0 := q) end.
  assert (Hsane : params_sane p0)
    by (unfold params_sane, MAX_NWITNESSES; subst p0; cbn; lia).
  pose proof (SetConfSigs_values p0 Hsane) as Hv. cbn zeta in Hv.
  assert (Enm : nwitnesses (SetConfSigs p0) = n /\ maxmal (SetConfSigs p0) = m
    /\ next_nwitnesses (SetConfSigs p0) = n /\ next_maxmal (SetConfSigs p0) = m).
  { unfold SetConfSigs. subst p0. cbn [nwitnesses maxmal next_nwitnesses next_maxmal].
    pose proof (half_bounds (n + 1)). destruct (Z.leb_spec n 0); [lia|].
    destruct (Z.leb_spec ((n + 1) / 2) m); lia. }
  destruct Enm as (En & Em & Enn & Enm). rewrite En, Em in Hv. destruct Hv as (_ & _ & _ & Hnc & _).
  rewrite En. pose proof (bk_witness _ _ _ _ _ Hpa).
  pose proof (ComputeSkip_ring (witness (WireData b)) (witness (WireData pb)) n ltac:(lia) ltac:(lia) ltac:(lia)) as [Hsk _].
  unfold u16. rewrite wrap_small by (unfold in_word; lia).
  destruct (Z.eqb_spec n 0); [lia|]. cbn [negb].
  destruct (Z.ltb_spec (ComputeSkip (witness (WireData pb)) (witness (WireData b)) n) n); [|lia].
  eexists. split; [reflexivity|]. split_and!.
  - intros p x Hx. destruct (decide (p = self)) as [->|Hps].
    + rewrite lookup_insert_eq in Hx. injection Hx as <-. eexists. constructor; cbn; try done.
      * intros q [= <-]. exists pb. by rewrite lookup_insert_ne.
    + rewrite lookup_insert_ne in Hx by done.
      destruct (Hh p x) as [xa Hxa]; [by rewrite lookup_delete_ne|]. exists xa.
      eapply block_ok_frame; [|exact Hxa]. intros q qb _ Hq. exists qb. split; [|done].
      destruct (decide (q = self)) as [->|]; [by rewrite lookup_delete_eq in Hq|].
      rewrite lookup_delete_ne in Hq by done. by rewrite lookup_insert_ne.
  - by rewrite lookup_insert_eq.
  - intros p Hp. by rewrite lookup_insert_ne.
Qed.

Lemma ChainToPriorBlock_ok_witness :
  let h := <[8%positive := SetupAuxBuf (mkBlock (mkWire [] [] 4 0 2) [] None None) false 0]> demo_heap in
  exists h', ChainToPriorBlock h 8 4 = Ret h' /\ heap_ok h' 3 1
    /\ GetPriorBlock <$> h' !! 8%positive = Some (Some 4%positive)
    /\ forall p, p <> 8%positive -> h' !! p = h !! p.
Proof.
  intros h. eapply (ChainToPriorBlock_ok h 3 1 8 4);
    [repeat split; done | apply heap_okb_ok; reflexivity | reflexivity | reflexivity | reflexivity
    | done | cbn; lia | cbn; lia].
Defined.

(** ** Skip scores *)

(** The blocks from just above the last indelible block up to [p], as their skips
    in chain order. *)
Inductive score_chain (h : heap) (last : ptr) (last_level : Z) : ptr -> list Z -> Prop :=
| sc_last : is_Some (h !! last ≫= auxp) -> score_chain h last last_level last []
| sc_step p b a q l :
    h !! p = Some b -> auxp b = Some a -> p <> last -> last_level < level (WireData b) ->
    GetPriorBlock b = Some q -> score_chain h last last_level q l ->
    score_chain h last last_level p (l ++ [skip a]).

Definition score_step (sc s : Z) : Z := Z.lor (u64 (Z.shiftl sc (s + 1))) 1.
Definition enc64 (l : list Z) : Z := fold_left score_step l 1.
Definition bits_of (l : list Z) : Z := fold_left (fun n s => n + s + 1) l 1.

Lemma enc64_snoc l s : enc64 (l ++ [s]) = score_step (enc64 l) s.
Proof. unfold enc64. by rewrite fold_left_app. Qed.
Lemma bits_of_snoc l s : bits_of (l ++ [s]) = bits_of l + s + 1.
Proof. unfold bits_of. by rewrite fold_left_app. Qed.

Lemma enc64_nonzero l : enc64 l <> 0.
Proof.
  destruct l as [|s l _] using rev_ind; [done|]. rewrite enc64_snoc. unfold score_step.
  intros E. apply (f_equal Z.odd) in E. rewrite <- !Z.bit0_odd, Z.lor_spec in E.
  rewrite orb_comm in E. discriminate E.
Qed.

Lemma score_chain_det h last ll p l1 l2 :
  score_chain h last ll p l1 -> score_chain h last ll p l2 -> l1 = l2.
Proof.
  intros H1. revert l2. induction H1 as [|p b a q l Hb Ha Hne Hl Hq Hc IH]; intros l2 H2.
  - inversion H2; subst; [done|congruence].
  - inversion H2; subst; [congruence|]. assert (b0 = b) as -> by congruence.
    assert (a0 = a) as -> by congruence. assert (q0 = q) as -> by congruence.
    f_equal. by apply IH.
Qed.

(** What a score computation must not change. *)
Definition static_eq (h h' : heap) : Prop :=
  forall p, (fun b => (WireData b, TxData b, priorp b, skip <$> auxp b)) <$> h' !! p
          = (fun b => (WireData b, TxData b, priorp b, skip <$> auxp b)) <$> h !! p.

#[export] Instance static_eq_preorder : PreOrder static_eq.
Proof.
  split; [intros h p; done|]. intros h1 h2 h3 H12 H23 p. by rewrite H23, H12.
Qed.

Lemma static_eq_lookup h h' p b a : static_eq h h' -> h !! p = Some b -> auxp b = Some a ->
  exists b' a', h' !! p = Some b' /\ auxp b' = Some a' /\ WireData b' = WireData b
    /\ priorp b' = priorp b /\ skip a' = skip a.
Proof.
  intros Hs Hb Ha. specialize (Hs p). rewrite Hb in Hs. cbn in Hs. rewrite Ha in Hs. cbn in Hs.
  destruct (h' !! p) as [b'|]; [|discriminate]. cbn in Hs. injection Hs as Hw Ht Hp Hk.
  destruct (auxp b') as [a'|] eqn:Ea; [|discriminate]. cbn in Hk. injection Hk as Hk.
  by exists b', a'.
Qed.

Lemma score_chain_static h h' last ll p l : static_eq h h' ->
  score_chain h last ll p l -> score_chain h' last ll p l.
Proof.
  intros Hs. induction 1 as [[a Ha]|p b a q l Hb Ha Hne Hl Hq Hc IH].
  - constructor. destruct (h !! last) as [b|] eqn:Hb; [|done]. cbn in Ha.
    destruct (static_eq_lookup _ _ _ _ _ Hs Hb Ha) as (b' & a' & -> & Ha' & _). cbn. by rewrite Ha'.
  - destruct (static_eq_lookup _ _ _ _ _ Hs Hb Ha) as (b' & a' & Hb' & Ha' & Hw & Hp & <-).
    econstructor; try done; [by rewrite Hw|]. unfold GetPriorBlock in *. by rewrite Hp.
Qed.

(** Scores cached under generation stamp [gs] are the scores of their chains. *)
Definition cache_ok (h : heap) (last : ptr) (ll gs : Z) : Prop :=
  forall p b a, h !! p = Some b -> auxp b = Some a -> gs <> 0 ->
    score_genstamp (witness_params a) = gs ->
    exists l, score_chain h last ll p l /\ score (witness_params a) = enc64 l
              /\ score_bits (witness_params a) = bits_of l.

Lemma cache_hit h last ll gs p b a l : cache_ok h last ll gs ->
  score_chain h last ll p l -> h !! p = Some b -> auxp b = Some a -> gs <> 0 ->
  score_genstamp (witness_params a) = gs ->
  score (witness_params a) = enc64 l /\ score_bits (witness_params a) = bits_of l.
Proof.
  intros Hc Hl Hb Ha Hgs Hg. destruct (Hc _ _ _ Hb Ha Hgs Hg) as (l' & Hl' & -> & ->).
  by rewrite (score_chain_det _ _ _ _ _ _ Hl' Hl).
Qed.

Lemma static_eq_set_wit h p b a w : h !! p = Some b -> auxp b = Some a ->
  static_eq h (<[p := set_aux b (set_wit a w)]> h).
Proof.
  intros Hb Ha q. destruct (decide (q = p)) as [->|].
  - rewrite lookup_insert_eq, Hb. cbn. by rewrite Ha.
  - by rewrite lookup_insert_ne.
Qed.

Lemma cache_ok_store h last ll gs p b a l key : cache_ok h last ll gs ->
  h !! p = Some b -> auxp b = Some a -> score_chain h last ll p l ->
  cache_ok (<[p := set_aux b (set_wit a (mkWit (enc64 l) (bits_of l) gs key))]> h) last ll gs.
Proof.
  intros Hc Hb Ha Hl q x xa Hx Hxa Hgs Hg.
  pose proof (static_eq_set_wit h p b a (mkWit (enc64 l) (bits_of l) gs key) Hb Ha) as Hst.
  destruct (decide (q = p)) as [->|].
  - rewrite lookup_insert_eq in Hx. injection Hx as <-. injection Hxa as <-.
    exists l. split; [|done]. by apply (score_chain_static h).
  - rewrite lookup_insert_ne in Hx by done. destruct (Hc _ _ _ Hx Hxa Hgs Hg) as (l' & Hl' & ?).
    exists l'. split; [|done]. by apply (score_chain_static h).
Qed.

Lemma CalcSkipScoreRecursive_spec h last ll gs p l :
  score_chain h last ll p l -> forall fuel, (length l < fuel)%nat -> bits_of l < 2 ^ 16 ->
  (forall q b a, h !! q = Some b -> auxp b = Some a -> 0 <= skip a) ->
  cache_ok h last ll gs ->
  1 <= bits_of l /\ exists h', CalcSkipScoreRecursive fuel h p last ll gs false
    = Ret (h', enc64 l, bits_of l) /\ static_eq h h' /\ cache_ok h' last ll gs.
Proof.
  induction 1 as [[a Ha]|p b a q l Hb Ha Hne Hl Hq Hc IH]; intros fuel Hf Hbits Hsk Hcache.
  - split; [done|]. destruct fuel as [|f]; [lia|]. cbn [CalcSkipScoreRecursive].
    destruct (h !! last) as [b|] eqn:Hb; [|done]. cbn in Ha. unfold AuxPtr. rewrite Ha.
    cbn [outcome_bind]. exists h. split; [|by split].
    destruct (Z.eqb_spec gs 0) as [->|Hgs]; cbn [negb andb].
    + by rewrite bool_decide_eq_true_2.
    + destruct (Z.eqb_spec gs (score_genstamp (witness_params a))) as [E|].
      * assert (Hl : score_chain h last ll last []) by (constructor; rewrite Hb; cbn; by rewrite Ha).
        destruct (cache_hit _ _ _ _ _ _ _ _ Hcache Hl Hb Ha Hgs (eq_sym E)) as [-> ->]. done.
      * by rewrite bool_decide_eq_true_2.
  - rewrite length_app in Hf. cbn [length] in Hf. rewrite bits_of_snoc in Hbits.
    pose proof (Hsk _ _ _ Hb Ha) as Hska.
    destruct fuel as [|f]; [lia|].
    destruct (IH f ltac:(lia) ltac:(lia) Hsk Hcache) as (Hb1 & h' & Hrec & Hst & Hc').
    rewrite bits_of_snoc, enc64_snoc. split; [lia|].
    cbn [CalcSkipScoreRecursive]. unfold AuxPtr. rewrite Hb, Ha. cbn [outcome_bind].
    assert (Hchain : score_chain h last ll p (l ++ [skip a])) by (econstructor; eauto).
    destruct (negb (gs =? 0) && (gs =? score_genstamp (witness_params a))) eqn:Ehit.
    { apply andb_true_iff in Ehit as [Hgs E]. apply negb_true_iff, Z.eqb_neq in Hgs. apply Z.eqb_eq in E.
      destruct (cache_hit _ _ _ _ _ _ _ _ Hcache Hchain Hb Ha Hgs (eq_sym E)) as [-> ->].
      exists h. by rewrite enc64_snoc, bits_of_snoc. }
    rewrite bool_decide_eq_false_2 by done. cbn [andb negb].
    destruct (Z.leb_spec (level (WireData b)) ll); [lia|]. cbn [andb].
    rewrite Hq, Hrec. cbn [outcome_bind]. pose proof (enc64_nonzero l).
    destruct (Z.eqb_spec (enc64 l) 0); [done|].
    assert (Hu : u32 (bits_of l + skip a + 1) = bits_of l + skip a + 1)
      by (apply wrap_small; unfold in_word; lia).
    rewrite Hu. destruct (Z.eqb_spec gs 0) as [->|Hgs]; [by exists h'|].
    destruct (static_eq_lookup _ _ _ _ _ Hst Hb Ha) as (b' & a' & Hb' & Ha' & _).
    rewrite Hb', Ha'. cbn [outcome_bind].
    assert (Hu16 : u16 (bits_of l + skip a + 1) = bits_of l + skip a + 1)
      by (apply wrap_small; unfold in_word; lia).
    rewrite Hu16. fold (score_step (enc64 l) (skip a)).
    rewrite <- enc64_snoc, <- bits_of_snoc. eexists. split; [reflexivity|]. split.
    + transitivity h'; [done|]. by apply static_eq_set_wit.
    + apply cache_ok_store; try done. by apply (score_chain_static h).
Qed.

(** ** Scores order chains lexicographically by their skips *)

(** [better l1 l2]: at the first difference [l1] skipped fewer witnesses, or [l1]
    extends [l2]. *)
Fixpoint better (l1 l2 : list Z) : bool :=
  match l1, l2 with
  | _ :: _, [] => true
  | [], _ => false
  | x :: l1, y :: l2 => (x <? y) || (x =? y) && better l1 l2
  end.

(** The score with [k] bits left below the last marker bit. *)
Fixpoint norm (k : Z) (l : list Z) : Z :=
  match l with
  | [] => 0
  | s :: t => 2 ^ (k - s - 1) + norm (k - s - 1) t
  end.

Definition cost (l : list Z) : Z := foldr (fun s n => s + 1 + n) 0 l.

Lemma cost_cons s l : cost (s :: l) = s + 1 + cost l.
Proof. done. Qed.

Lemma cost_nonneg l : Forall (fun s => 0 <= s) l -> 0 <= cost l.
Proof. induction 1 as [|s l Hs _ IH]; [done|]. rewrite cost_cons. lia. Qed.

Lemma bits_of_cost l : bits_of l = 1 + cost l.
Proof.
  unfold bits_of. change 1 with (1 + 0) at 2. assert (H : forall n, fold_left (fun n s => n + s + 1) l n = n + cost l).
  { induction l as [|s l IH]; intros n; [cbn; lia|]. cbn [fold_left]. rewrite IH, cost_cons. lia. }
  rewrite H. lia.
Qed.

Lemma norm_range k l : Forall (fun s => 0 <= s) l -> cost l <= k -> 0 <= norm k l < 2 ^ k.
Proof.
  intros Hl. revert k. induction Hl as [|s l Hs Hl IH]; intros k Hk.
  - cbn [norm]. split; [lia|]. apply pow2_pos. cbn in Hk. lia.
  - rewrite cost_cons in Hk. pose proof (cost_nonneg _ Hl). cbn [norm].
    specialize (IH (k - s - 1) ltac:(lia)).
    assert (2 ^ k >= 2 * 2 ^ (k - s - 1)).
    { rewrite <- Z.pow_succ_r by lia. apply Z.le_ge, Z.pow_le_mono_r; lia. }
    lia.
Qed.

Lemma norm_better k l1 l2 : Forall (fun s => 0 <= s) l1 -> Forall (fun s => 0 <= s) l2 ->
  cost l1 <= k -> cost l2 <= k -> better l1 l2 = true -> norm k l2 < norm k l1.
Proof.
  intros H1. revert k l2. induction H1 as [|x l1 Hx H1 IH]; intros k l2 H2 Hk1 Hk2 Hb; [done|].
  rewrite cost_cons in Hk1. pose proof (cost_nonneg _ H1).
  pose proof (norm_range (k - x - 1) l1 H1 ltac:(lia)).
  destruct l2 as [|y l2]; cbn [norm].
  - pose proof (pow2_pos (k - x - 1) ltac:(lia)). lia.
  - apply Forall_cons in H2 as [Hy H2]. rewrite cost_cons in Hk2. pose proof (cost_nonneg _ H2).
    cbn [better] in Hb. apply orb_true_iff in Hb as [Hxy|[Hxy Hb]%andb_true_iff].
    + apply Z.ltb_lt in Hxy. pose proof (norm_range (k - y - 1) l2 H2 ltac:(lia)).
      assert (2 ^ (k - x - 1) >= 2 * 2 ^ (k - y - 1)).
      { rewrite <- Z.pow_succ_r by lia. apply Z.le_ge, Z.pow_le_mono_r; lia. }
      lia.
    + apply Z.eqb_eq in Hxy as ->. specialize (IH (k - y - 1) l2 H2 ltac:(lia) ltac:(lia) Hb). lia.
Qed.

Lemma better_total l1 l2 : better l1 l2 = true \/ l1 = l2 \/ better l2 l1 = true.
Proof.
  revert l2. induction l1 as [|x l1 IH]; intros [|y l2]; cbn; auto.
  destruct (IH l2) as [?|[->|?]]; destruct (Z.ltb_spec x y), (Z.ltb_spec y x);
    destruct (Z.eqb_spec x y), (Z.eqb_spec y x); subst; cbn; auto; lia.
Qed.

Lemma norm_snoc k l s : norm k (l ++ [s]) = norm k l + 2 ^ (k - cost l - s - 1).
Proof.
  revert k. induction l as [|x l IH]; intros k; cbn [app norm].
  - cbn [cost foldr]. replace (k - 0 - s - 1) with (k - s - 1) by lia. lia.
  - rewrite IH, cost_cons. replace (k - x - 1 - cost l - s - 1) with (k - (x + 1 + cost l) - s - 1) by lia. lia.
Qed.

Lemma cost_snoc l s : cost (l ++ [s]) = cost l + s + 1.
Proof. induction l as [|x l IH]; [cbn; lia|]. cbn [app]. rewrite !cost_cons, IH. lia. Qed.

Lemma lor_1_even x : Z.lor (2 * x) 1 = 2 * x + 1.
Proof.
  bitwise. rewrite Z.lor_spec. destruct (Z.eq_dec i 0) as [->|].
  - by rewrite Z.testbit_odd_0, Z.testbit_even_0.
  - replace i with (Z.succ (Z.pred i)) by lia.
    rewrite Z.testbit_even_succ, Z.testbit_odd_succ by lia.
    replace 1 with (2 * 0 + 1) by lia. rewrite Z.testbit_odd_succ by lia.
    by rewrite Z.bits_0, orb_false_r.
Qed.

(** Left-aligned in 64 bits, the score is [2 ^ 63] plus the markers of the chain. *)
Lemma enc64_norm l : Forall (fun s => 0 <= s) l -> cost l <= 63 ->
  0 < enc64 l < 2 ^ bits_of l /\ enc64 l * 2 ^ (64 - bits_of l) = 2 ^ 63 + norm 63 l.
Proof.
  induction l as [|s l IH] using rev_ind; intros Hl Hc; [done|].
  apply Forall_app in Hl as [Hl Hs]. apply Forall_cons in Hs as [Hs _].
  pose proof (cost_nonneg _ Hl). rewrite cost_snoc in Hc.
  destruct (IH Hl ltac:(lia)) as [Hr He]. rewrite enc64_snoc, bits_of_snoc, norm_snoc.
  rewrite bits_of_cost in *. unfold score_step.
  assert (Hsh : Z.shiftl (enc64 l) (s + 1) = 2 * (enc64 l * 2 ^ s)).
  { rewrite Z.shiftl_mul_pow2, Z.pow_add_r by lia. lia. }
  assert (Hp : 2 ^ (1 + cost l + s + 1) = 2 * (2 ^ (1 + cost l) * 2 ^ s)).
  { rewrite (Z.pow_add_r 2 (1 + cost l + s) 1), (Z.pow_add_r 2 (1 + cost l) s) by lia. lia. }
  pose proof (pow2_pos s ltac:(lia)). pose proof (pow2_pos (1 + cost l) ltac:(lia)).
  assert (Hle : 2 ^ (1 + cost l + s + 1) <= 2 ^ 64) by (apply Z.pow_le_mono_r; lia).
  rewrite Hsh. unfold u64. rewrite wrap_small by (unfold in_word; nia).
  rewrite lor_1_even. split; [nia|].
  replace (63 - cost l - s - 1) with (64 - (1 + cost l + s + 1)) by lia.
  rewrite Z.add_assoc, <- He. replace (64 - (1 + cost l)) with (s + 1 + (64 - (1 + cost l + s + 1))) by lia.
  rewrite !Z.pow_add_r by lia. ring.
Qed.

(** The value [CalcSkipScore] returns for a chain with skips [l]. *)
Definition chain_score (l : list Z) : Z :=
  if 64 <? bits_of l then 0 else 2 ^ 63 + norm 63 l.

(** With or without the per-block cache, the score of a chain is the function
    [chain_score] of its skips, and the heap keeps everything but cached scores. *)
Theorem CalcSkipScore_chain h last lb gs p l fuel :
  h !! last = Some lb -> score_chain h last (level (WireData lb)) p l ->
  (length l < fuel)%nat -> bits_of l < 2 ^ 16 ->
  (forall q b a, h !! q = Some b -> auxp b = Some a -> 0 <= skip a) ->
  cache_ok h last (level (WireData lb)) gs ->
  exists h', CalcSkipScore fuel h p (-1) last gs false = Ret (h', chain_score l)
    /\ static_eq h h' /\ cache_ok h' last (level (WireData lb)) gs.
Proof.
  intros Hlb Hchain Hf Hbits Hsk Hcache.
  destruct (CalcSkipScoreRecursive_spec _ _ _ _ _ _ Hchain fuel Hf Hbits Hsk Hcache)
    as (Hb1 & h' & Hrec & Hst & Hc').
  assert (Hpos : Forall (fun s => 0 <= s) l).
  { clear - Hchain Hsk. induction Hchain; [constructor|]. apply Forall_app. split; [done|].
    constructor; [by eapply Hsk|constructor]. }
  assert (Hp : exists b a, h !! p = Some b /\ auxp b = Some a).
  { inversion Hchain as [[a Ha] E|? b a]; subst; [|by exists b, a].
    exists lb, a. split; [done|]. by rewrite Hlb in Ha. }
  destruct Hp as (b & a & Hb & Ha). exists h'. split; [|done].
  unfold CalcSkipScore, AuxPtr. rewrite Hb, Hlb, Ha. cbn [outcome_bind andb]. rewrite Hrec.
  cbn [outcome_bind]. rewrite andb_false_r. cbn iota. unfold MAX_SCORE_BITS, chain_score.
  rewrite bits_of_cost in *.
  destruct (Z.ltb_spec 64 (1 + cost l)).
  - destruct (Z.ltb_spec (1 + cost l) 64); [lia|done].
  - destruct (enc64_norm l Hpos ltac:(lia)) as [Hr He]. rewrite bits_of_cost in *.
    pose proof (norm_range 63 l Hpos ltac:(lia)). rewrite <- He.
    destruct (Z.ltb_spec (1 + cost l) 64).
    + rewrite Z.shiftl_mul_pow2 by lia. unfold u64. rewrite wrap_small; [done|].
      unfold in_word. rewrite He. lia.
    + replace (64 - (1 + cost l)) with 0 by lia. by rewrite Z.mul_1_r.
Qed.

Lemma CalcSkipScore_chain_witness : exists h',
  CalcSkipScore 3 demo_heap 3 (-1) 1 7 false = Ret (h', chain_score [0; 0])
    /\ static_eq demo_heap h' /\ cache_ok h' 1 0 7.
Proof.
  eapply (CalcSkipScore_chain demo_heap 1 (demo_block 0 0 None) 7 3 [0; 0]); try reflexivity.
  - apply (sc_step demo_heap 1 0 3 (demo_block 2 2 (Some 2%positive))
      (mkAux [] [] 0 0 false false (SetConfSigs (mkParams 3 1 0 0 0 3 1 [])) 0 zero_wit) 2 [0]);
      try reflexivity; try done.
    apply (sc_step demo_heap 1 0 2 (demo_block 1 1 (Some 1%positive))
      (mkAux [] [] 0 0 false false (SetConfSigs (mkParams 3 1 0 0 0 3 1 [])) 0 zero_wit) 1 []);
      try reflexivity; try done.
    constructor. eexists. reflexivity.
  - cbn. lia.
  - intros q b a Hq Ha. destruct (heap_okb_ok demo_heap 3 1 eq_refl q b Hq) as [a' Hok].
    rewrite (bk_aux _ _ _ _ _ Hok) in Ha. injection Ha as <-. apply (bk_skip _ _ _ _ _ Hok).
  - intros p b a Hp Ha Hgs Hg. exfalso. unfold demo_heap in Hp.
    apply elem_of_list_to_map_2, list_elem_of_In in Hp. cbn in Hp.
    repeat (destruct Hp as [Hp|Hp];
      [injection Hp as <- <-; injection Ha as <-; cbn in Hg; congruence|]). done.
Defined.

(** Scores compare exactly as the skip sequences do. *)
Theorem chain_score_order l1 l2 :
  Forall (fun s => 0 <= s) l1 -> Forall (fun s => 0 <= s) l2 ->
  bits_of l1 <= MAX_SCORE_BITS -> bits_of l2 <= MAX_SCORE_BITS ->
  (better l1 l2 = true <-> chain_score l2 < chain_score l1).
Proof.
  unfold MAX_SCORE_BITS, chain_score. intros H1 H2 Hb1 Hb2. rewrite bits_of_cost in *. rewrite bits_of_cost.
  destruct (Z.ltb_spec 64 (1 + cost l1)); [lia|]. destruct (Z.ltb_spec 64 (1 + cost l2)); [lia|].
  split.
  - intros Hb. pose proof (norm_better 63 l1 l2 H1 H2 ltac:(lia) ltac:(lia) Hb). lia.
  - intros Hlt. destruct (better_total l1 l2) as [?|[->|Hb]]; [done|lia|].
    pose proof (norm_better 63 l2 l1 H2 H1 ltac:(lia) ltac:(lia) Hb). lia.
Qed.

Lemma chain_score_order_witness :
  better [0; 1] [1; 0] = true <-> chain_score [1; 0] < chain_score [0; 1].
Proof. apply chain_score_order; try (repeat constructor; done); vm_compute; done. Defined.
