(* ===== verification/Encode.v ===== *)
(** * Text codecs (src/source/cclib/src/encodings.c and encode.cpp, first half)

    Alphabet tables, the table accessors, base64, and the digit strings of
    [cc_stringify] / [cc_destringify].  Strings and buffers are lists of bytes;
    a symbol table is its array of bytes, header included.  Trace output and the
    randomised self tests are left out. *)
From S2P Require Import Prelude Bigint.

Local Open Scope Z_scope.
Local Open Scope cc_scope.

(** ** Tables of encodings.c *)

Definition base256sym : list Z := [
  0; 0; 0; 0; 1; 2; 3; 4; 5; 6; 7; 8; 9; 10; 11; 12; 13; 14; 15; 16; 17; 18; 19; 20; 21;
  22; 23; 24; 25; 26; 27; 28; 29; 30; 31; 32; 33; 34; 35; 36; 37; 38; 39; 40; 41; 42;
  43; 44; 45; 46; 47; 48; 49; 50; 51; 52; 53; 54; 55; 56; 57; 58; 59; 60; 61; 62; 63;
  64; 65; 66; 67; 68; 69; 70; 71; 72; 73; 74; 75; 76; 77; 78; 79; 80; 81; 82; 83; 84;
  85; 86; 87; 88; 89; 90; 91; 92; 93; 94; 95; 96; 97; 98; 99; 100; 101; 102; 103; 104;
  105; 106; 107; 108; 109; 110; 111; 112; 113; 114; 115; 116; 117; 118; 119; 120; 121;
  122; 123; 124; 125; 126; 127; 128; 129; 130; 131; 132; 133; 134; 135; 136; 137; 138;
  139; 140; 141; 142; 143; 144; 145; 146; 147; 148; 149; 150; 151; 152; 153; 154; 155;
  156; 157; 158; 159; 160; 161; 162; 163; 164; 165; 166; 167; 168; 169; 170; 171; 172;
  173; 174; 175; 176; 177; 178; 179; 180; 181; 182; 183; 184; 185; 186; 187; 188; 189;
  190; 191; 192; 193; 194; 195; 196; 197; 198; 199; 200; 201; 202; 203; 204; 205; 206;
  207; 208; 209; 210; 211; 212; 213; 214; 215; 216; 217; 218; 219; 220; 221; 222; 223;
  224; 225; 226; 227; 228; 229; 230; 231; 232; 233; 234; 235; 236; 237; 238; 239; 240;
  241; 242; 243; 244; 245; 246; 247; 248; 249; 250; 251; 252; 253; 254; 255].
Definition base256bin : list Z := [
  0; 0; 255; 0; 1; 2; 3; 4; 5; 6; 7; 8; 9; 10; 11; 12; 13; 14; 15; 16; 17; 18; 19; 20;
  21; 22; 23; 24; 25; 26; 27; 28; 29; 30; 31; 32; 33; 34; 35; 36; 37; 38; 39; 40; 41;
  42; 43; 44; 45; 46; 47; 48; 49; 50; 51; 52; 53; 54; 55; 56; 57; 58; 59; 60; 61; 62;
  63; 64; 65; 66; 67; 68; 69; 70; 71; 72; 73; 74; 75; 76; 77; 78; 79; 80; 81; 82; 83;
  84; 85; 86; 87; 88; 89; 90; 91; 92; 93; 94; 95; 96; 97; 98; 99; 100; 101; 102; 103;
  104; 105; 106; 107; 108; 109; 110; 111; 112; 113; 114; 115; 116; 117; 118; 119; 120;
  121; 122; 123; 124; 125; 126; 127; 128; 129; 130; 131; 132; 133; 134; 135; 136; 137;
  138; 139; 140; 141; 142; 143; 144; 145; 146; 147; 148; 149; 150; 151; 152; 153; 154;
  155; 156; 157; 158; 159; 160; 161; 162; 163; 164; 165; 166; 167; 168; 169; 170; 171;
  172; 173; 174; 175; 176; 177; 178; 179; 180; 181; 182; 183; 184; 185; 186; 187; 188;
  189; 190; 191; 192; 193; 194; 195; 196; 197; 198; 199; 200; 201; 202; 203; 204; 205;
  206; 207; 208; 209; 210; 211; 212; 213; 214; 215; 216; 217; 218; 219; 220; 221; 222;
  223; 224; 225; 226; 227; 228; 229; 230; 231; 232; 233; 234; 235; 236; 237; 238; 239;
  240; 241; 242; 243; 244; 245; 246; 247; 248; 249; 250; 251; 252; 253; 254; 255].
Definition base224sym : list Z := [
  224; 249; 214; 32; 33; 34; 35; 36; 37; 38; 39; 40; 41; 42; 43; 44; 45; 46; 47; 48; 49;
  50; 51; 52; 53; 54; 55; 56; 57; 58; 59; 60; 61; 62; 63; 64; 65; 66; 67; 68; 69; 70;
  71; 72; 73; 74; 75; 76; 77; 78; 79; 80; 81; 82; 83; 84; 85; 86; 87; 88; 89; 90; 91;
  92; 93; 94; 95; 96; 97; 98; 99; 100; 101; 102; 103; 104; 105; 106; 107; 108; 109; 110;
  111; 112; 113; 114; 115; 116; 117; 118; 119; 120; 121; 122; 123; 124; 125; 126; 127;
  128; 129; 130; 131; 132; 133; 134; 135; 136; 137; 138; 139; 140; 141; 142; 143; 144;
  145; 146; 147; 148; 149; 150; 151; 152; 153; 154; 155; 156; 157; 158; 159; 160; 161;
  162; 163; 164; 165; 166; 167; 168; 169; 170; 171; 172; 173; 174; 175; 176; 177; 178;
  179; 180; 181; 182; 183; 184; 185; 186; 187; 188; 189; 190; 191; 192; 193; 194; 195;
  196; 197; 198; 199; 200; 201; 202; 203; 204; 205; 206; 207; 208; 209; 210; 211; 212;
  213; 214; 215; 216; 217; 218; 219; 220; 221; 222; 223; 224; 225; 226; 227; 228; 229;
  230; 231; 232; 233; 234; 235; 236; 237; 238; 239; 240; 241; 242; 243; 244; 245; 246;
  247; 248; 249; 250; 251; 252; 253; 254; 255].
Definition base224bin : list Z := [
  224; 32; 255; 0; 1; 2; 3; 4; 5; 6; 7; 8; 9; 10; 11; 12; 13; 14; 15; 16; 17; 18; 19;
  20; 21; 22; 23; 24; 25; 26; 27; 28; 29; 30; 31; 32; 33; 34; 35; 36; 37; 38; 39; 40;
  41; 42; 43; 44; 45; 46; 47; 48; 49; 50; 51; 52; 53; 54; 55; 56; 57; 58; 59; 60; 61;
  62; 63; 64; 65; 66; 67; 68; 69; 70; 71; 72; 73; 74; 75; 76; 77; 78; 79; 80; 81; 82;
  83; 84; 85; 86; 87; 88; 89; 90; 91; 92; 93; 94; 95; 96; 97; 98; 99; 100; 101; 102;
  103; 104; 105; 106; 107; 108; 109; 110; 111; 112; 113; 114; 115; 116; 117; 118; 119;
  120; 121; 122; 123; 124; 125; 126; 127; 128; 129; 130; 131; 132; 133; 134; 135; 136;
  137; 138; 139; 140; 141; 142; 143; 144; 145; 146; 147; 148; 149; 150; 151; 152; 153;
  154; 155; 156; 157; 158; 159; 160; 161; 162; 163; 164; 165; 166; 167; 168; 169; 170;
  171; 172; 173; 174; 175; 176; 177; 178; 179; 180; 181; 182; 183; 184; 185; 186; 187;
  188; 189; 190; 191; 192; 193; 194; 195; 196; 197; 198; 199; 200; 201; 202; 203; 204;
  205; 206; 207; 208; 209; 210; 211; 212; 213; 214; 215; 216; 217; 218; 219; 220; 221;
  222; 223].
Definition base95sym : list Z := [
  95; 210; 60; 32; 33; 34; 35; 36; 37; 38; 39; 40; 41; 42; 43; 44; 45; 46; 47; 48; 49;
  50; 51; 52; 53; 54; 55; 56; 57; 58; 59; 60; 61; 62; 63; 64; 65; 66; 67; 68; 69; 70;
  71; 72; 73; 74; 75; 76; 77; 78; 79; 80; 81; 82; 83; 84; 85; 86; 87; 88; 89; 90; 91;
  92; 93; 94; 95; 96; 97; 98; 99; 100; 101; 102; 103; 104; 105; 106; 107; 108; 109; 110;
  111; 112; 113; 114; 115; 116; 117; 118; 119; 120; 121; 122; 123; 124; 125; 126].
Definition base95bin : list Z := [
  95; 32; 126; 0; 1; 2; 3; 4; 5; 6; 7; 8; 9; 10; 11; 12; 13; 14; 15; 16; 17; 18; 19; 20;
  21; 22; 23; 24; 25; 26; 27; 28; 29; 30; 31; 32; 33; 34; 35; 36; 37; 38; 39; 40; 41;
  42; 43; 44; 45; 46; 47; 48; 49; 50; 51; 52; 53; 54; 55; 56; 57; 58; 59; 60; 61; 62;
  63; 64; 65; 66; 67; 68; 69; 70; 71; 72; 73; 74; 75; 76; 77; 78; 79; 80; 81; 82; 83;
  84; 85; 86; 87; 88; 89; 90; 91; 92; 93; 94].
Definition base85sym : list Z := [
  85; 205; 26; 33; 35; 36; 37; 38; 40; 41; 42; 43; 45; 48; 49; 50; 51; 52; 53; 54; 55;
  56; 57; 59; 60; 61; 62; 63; 64; 65; 66; 67; 68; 69; 70; 71; 72; 73; 74; 75; 76; 77;
  78; 79; 80; 81; 82; 83; 84; 85; 86; 87; 88; 89; 90; 94; 95; 96; 97; 98; 99; 100; 101;
  102; 103; 104; 105; 106; 107; 108; 109; 110; 111; 112; 113; 114; 115; 116; 117; 118;
  119; 120; 121; 122; 123; 124; 125; 126].
Definition base85bin : list Z := [
  85; 33; 126; 0; 255; 1; 2; 3; 4; 255; 5; 6; 7; 8; 255; 9; 255; 255; 10; 11; 12; 13;
  14; 15; 16; 17; 18; 19; 255; 20; 21; 22; 23; 24; 25; 26; 27; 28; 29; 30; 31; 32; 33;
  34; 35; 36; 37; 38; 39; 40; 41; 42; 43; 44; 45; 46; 47; 48; 49; 50; 51; 255; 255; 255;
  52; 53; 54; 55; 56; 57; 58; 59; 60; 61; 62; 63; 64; 65; 66; 67; 68; 69; 70; 71; 72;
  73; 74; 75; 76; 77; 78; 79; 80; 81; 82; 83; 84].
Definition base66sym : list Z := [
  66; 193; 108; 65; 66; 67; 68; 69; 70; 71; 72; 73; 74; 75; 76; 77; 78; 79; 80; 81; 82;
  83; 84; 85; 86; 87; 88; 89; 90; 97; 98; 99; 100; 101; 102; 103; 104; 105; 106; 107;
  108; 109; 110; 111; 112; 113; 114; 115; 116; 117; 118; 119; 120; 121; 122; 48; 49; 50;
  51; 52; 53; 54; 55; 56; 57; 43; 47; 45; 95].
Definition base66bin : list Z := [
  66; 43; 122; 62; 255; 64; 255; 63; 52; 53; 54; 55; 56; 57; 58; 59; 60; 61; 255; 255;
  255; 255; 255; 255; 255; 0; 1; 2; 3; 4; 5; 6; 7; 8; 9; 10; 11; 12; 13; 14; 15; 16; 17;
  18; 19; 20; 21; 22; 23; 24; 25; 255; 255; 255; 255; 65; 255; 26; 27; 28; 29; 30; 31;
  32; 33; 34; 35; 36; 37; 38; 39; 40; 41; 42; 43; 44; 45; 46; 47; 48; 49; 50; 51].
Definition base64sym : list Z := [
  64; 192; 0; 65; 66; 67; 68; 69; 70; 71; 72; 73; 74; 75; 76; 77; 78; 79; 80; 81; 82;
  83; 84; 85; 86; 87; 88; 89; 90; 97; 98; 99; 100; 101; 102; 103; 104; 105; 106; 107;
  108; 109; 110; 111; 112; 113; 114; 115; 116; 117; 118; 119; 120; 121; 122; 48; 49; 50;
  51; 52; 53; 54; 55; 56; 57; 43; 47].
Definition base64bin : list Z := [
  64; 43; 122; 62; 255; 255; 255; 63; 52; 53; 54; 55; 56; 57; 58; 59; 60; 61; 255; 255;
  255; 255; 255; 255; 255; 0; 1; 2; 3; 4; 5; 6; 7; 8; 9; 10; 11; 12; 13; 14; 15; 16; 17;
  18; 19; 20; 21; 22; 23; 24; 25; 255; 255; 255; 255; 255; 255; 26; 27; 28; 29; 30; 31;
  32; 33; 34; 35; 36; 37; 38; 39; 40; 41; 42; 43; 44; 45; 46; 47; 48; 49; 50; 51].
Definition base58sym : list Z := [
  58; 187; 117; 49; 50; 51; 52; 53; 54; 55; 56; 57; 65; 66; 67; 68; 69; 70; 71; 72; 74;
  75; 76; 77; 78; 80; 81; 82; 83; 84; 85; 86; 87; 88; 89; 90; 97; 98; 99; 100; 101; 102;
  103; 104; 105; 106; 107; 109; 110; 111; 112; 113; 114; 115; 116; 117; 118; 119; 120;
  121; 122].
Definition base58bin : list Z := [
  58; 49; 122; 0; 1; 2; 3; 4; 5; 6; 7; 8; 255; 255; 255; 255; 255; 255; 255; 9; 10; 11;
  12; 13; 14; 15; 16; 255; 17; 18; 19; 20; 21; 255; 22; 23; 24; 25; 26; 27; 28; 29; 30;
  31; 32; 255; 255; 255; 255; 255; 255; 33; 34; 35; 36; 37; 38; 39; 40; 41; 42; 43; 255;
  44; 45; 46; 47; 48; 49; 50; 51; 52; 53; 54; 55; 56; 57].
Definition base57sym : list Z := [
  57; 186; 167; 65; 66; 67; 68; 69; 70; 71; 72; 74; 75; 76; 77; 78; 80; 81; 82; 83; 84;
  85; 86; 87; 88; 89; 90; 97; 98; 99; 100; 101; 102; 103; 104; 105; 106; 107; 109; 110;
  111; 112; 113; 114; 115; 116; 117; 118; 119; 120; 121; 122; 50; 51; 52; 53; 54; 55;
  56; 57].
Definition base57bin : list Z := [
  57; 50; 122; 49; 50; 51; 52; 53; 54; 55; 56; 255; 255; 255; 255; 255; 255; 255; 0; 1;
  2; 3; 4; 5; 6; 7; 255; 8; 9; 10; 11; 12; 255; 13; 14; 15; 16; 17; 18; 19; 20; 21; 22;
  23; 255; 255; 255; 255; 255; 255; 24; 25; 26; 27; 28; 29; 30; 31; 32; 33; 34; 255; 35;
  36; 37; 38; 39; 40; 41; 42; 43; 44; 45; 46; 47; 48].
Definition base38sym : list Z := [
  38; 167; 239; 48; 49; 50; 51; 52; 53; 54; 55; 56; 57; 97; 98; 99; 100; 101; 102; 103;
  104; 105; 106; 107; 108; 109; 110; 111; 112; 113; 114; 115; 116; 117; 118; 119; 120;
  121; 122; 45; 95].
Definition base38bin : list Z := [
  38; 45; 122; 36; 255; 255; 0; 1; 2; 3; 4; 5; 6; 7; 8; 9; 255; 255; 255; 255; 255; 255;
  255; 255; 255; 255; 255; 255; 255; 255; 255; 255; 255; 255; 255; 255; 255; 255; 255;
  255; 255; 255; 255; 255; 255; 255; 255; 255; 255; 255; 255; 255; 255; 37; 255; 10; 11;
  12; 13; 14; 15; 16; 17; 18; 19; 20; 21; 22; 23; 24; 25; 26; 27; 28; 29; 30; 31; 32;
  33; 34; 35].
Definition base36sym : list Z := [
  36; 165; 112; 48; 49; 50; 51; 52; 53; 54; 55; 56; 57; 97; 98; 99; 100; 101; 102; 103;
  104; 105; 106; 107; 108; 109; 110; 111; 112; 113; 114; 115; 116; 117; 118; 119; 120;
  121; 122].
Definition base36bin : list Z := [
  36; 48; 122; 0; 1; 2; 3; 4; 5; 6; 7; 8; 9; 255; 255; 255; 255; 255; 255; 255; 255;
  255; 255; 255; 255; 255; 255; 255; 255; 255; 255; 255; 255; 255; 255; 255; 255; 255;
  255; 255; 255; 255; 255; 255; 255; 255; 255; 255; 255; 255; 255; 255; 10; 11; 12; 13;
  14; 15; 16; 17; 18; 19; 20; 21; 22; 23; 24; 25; 26; 27; 28; 29; 30; 31; 32; 33; 34; 35].
Definition base34sym : list Z := [
  34; 162; 204; 48; 49; 50; 51; 52; 53; 54; 55; 56; 57; 97; 98; 99; 100; 101; 102; 103;
  104; 106; 107; 108; 109; 110; 112; 113; 114; 115; 116; 117; 118; 119; 120; 121; 122].
Definition base34bin : list Z := [
  34; 48; 122; 0; 1; 2; 3; 4; 5; 6; 7; 8; 9; 255; 255; 255; 255; 255; 255; 255; 255;
  255; 255; 255; 255; 255; 255; 255; 255; 255; 255; 255; 255; 255; 255; 255; 255; 255;
  255; 255; 255; 255; 255; 255; 255; 255; 255; 255; 255; 255; 255; 255; 10; 11; 12; 13;
  14; 15; 16; 17; 255; 18; 19; 20; 21; 22; 255; 23; 24; 25; 26; 27; 28; 29; 30; 31; 32;
  33].
Definition base32sym : list Z := [
  32; 160; 0; 65; 66; 67; 68; 69; 70; 71; 72; 73; 74; 75; 76; 77; 78; 79; 80; 81; 82;
  83; 84; 85; 86; 87; 88; 89; 90; 50; 51; 52; 53; 54; 55].
Definition base32bin : list Z := [
  32; 50; 90; 26; 27; 28; 29; 30; 31; 255; 255; 255; 255; 255; 255; 255; 255; 255; 0; 1;
  2; 3; 4; 5; 6; 7; 8; 9; 10; 11; 12; 13; 14; 15; 16; 17; 18; 19; 20; 21; 22; 23; 24; 25].
Definition base32zsym : list Z := [
  32; 160; 0; 97; 98; 99; 100; 101; 102; 103; 104; 105; 106; 107; 109; 110; 111; 112;
  113; 114; 115; 116; 117; 119; 120; 121; 122; 49; 51; 52; 53; 54; 55; 56; 57].
Definition base32zbin : list Z := [
  32; 49; 122; 24; 255; 25; 26; 27; 28; 29; 30; 31; 255; 255; 255; 255; 255; 255; 255;
  255; 255; 255; 255; 255; 255; 255; 255; 255; 255; 255; 255; 255; 255; 255; 255; 255;
  255; 255; 255; 255; 255; 255; 255; 255; 255; 255; 255; 255; 255; 255; 255; 0; 1; 2; 3;
  4; 5; 6; 7; 8; 9; 10; 255; 11; 12; 13; 14; 15; 16; 17; 18; 19; 255; 20; 21; 22; 23].
Definition base26sym : list Z := [
  26; 150; 106; 97; 98; 99; 100; 101; 102; 103; 104; 105; 106; 107; 108; 109; 110; 111;
  112; 113; 114; 115; 116; 117; 118; 119; 120; 121; 122].
Definition base26bin : list Z := [
  26; 97; 122; 0; 1; 2; 3; 4; 5; 6; 7; 8; 9; 10; 11; 12; 13; 14; 15; 16; 17; 18; 19; 20;
  21; 22; 23; 24; 25].
Definition base17sym : list Z := [
  17; 130; 204; 120; 48; 49; 50; 51; 52; 53; 54; 55; 56; 57; 97; 98; 99; 100; 101; 102].
Definition base17bin : list Z := [
  17; 48; 120; 1; 2; 3; 4; 5; 6; 7; 8; 9; 10; 255; 255; 255; 255; 255; 255; 255; 255;
  255; 255; 255; 255; 255; 255; 255; 255; 255; 255; 255; 255; 255; 255; 255; 255; 255;
  255; 255; 255; 255; 255; 255; 255; 255; 255; 255; 255; 255; 255; 255; 11; 12; 13; 14;
  15; 16; 255; 255; 255; 255; 255; 255; 255; 255; 255; 255; 255; 255; 255; 255; 255;
  255; 255; 0].
Definition base16sym : list Z := [
  16; 128; 0; 48; 49; 50; 51; 52; 53; 54; 55; 56; 57; 97; 98; 99; 100; 101; 102].
Definition base16bin : list Z := [
  16; 48; 102; 0; 1; 2; 3; 4; 5; 6; 7; 8; 9; 255; 255; 255; 255; 255; 255; 255; 255;
  255; 255; 255; 255; 255; 255; 255; 255; 255; 255; 255; 255; 255; 255; 255; 255; 255;
  255; 255; 255; 255; 255; 255; 255; 255; 255; 255; 255; 255; 255; 255; 10; 11; 12; 13;
  14; 15].
Definition base10sym : list Z := [
  10; 106; 77; 48; 49; 50; 51; 52; 53; 54; 55; 56; 57].
Definition base10bin : list Z := [
  10; 48; 57; 0; 1; 2; 3; 4; 5; 6; 7; 8; 9].
Definition base8sym : list Z := [
  8; 96; 0; 50; 51; 52; 53; 54; 55; 56; 57].
Definition base8bin : list Z := [
  8; 50; 57; 0; 1; 2; 3; 4; 5; 6; 7].

(** ** Table accessors *)

Definition tbl (table : list Z) (i : Z) : Z := nth (Z.to_nat i) table 0.

Definition cc_table_mod (table : list Z) : Z :=
  let md := tbl table 0 in if md =? 0 then 256 else md.

(** [binlength * (1 << 16) / resize] in [unsigned] arithmetic. *)
Definition cc_table_expected_strlen (table : list Z) (binlength : Z) : Z :=
  let resize := Z.shiftl (tbl table 1) 8 + tbl table 2 in
  let resize := if resize =? 0 then Z.shiftl 1 16 else resize in
  u32 (binlength * Z.shiftl 1 16) / resize.

Definition cc_stringify_byte (table : list Z) (c : Z) : outcome Z :=
  let c := u8 c in
  ccassert! c <? cc_table_mod table in Ret (tbl table (c + 3)).

Definition cc_destringify_char (table : list Z) (c : Z) : Z :=
  let c := u8 c in
  if (c <? tbl table 1) || (tbl table 2 <? c) then 255
  else tbl table (c - tbl table 1 + 3).

(** ** base64 *)

(** Bytes [i], [i + 1], [i + 2] of the input, as far as they exist. *)
Definition b64_group (sval : list Z) (i : nat) : Z * Z :=
  fold_left (fun '(group, nbits) j =>
      let group := u32 (Z.shiftl group 8) in
      if (i + j <? length sval)%nat
      then (Z.lor group (nth (i + j) sval 0), nbits + 8)
      else (group, nbits)) [0; 1; 2]%nat (0, 0).

Fixpoint b64_symbols (fuel : nat) (table : list Z) (j group nbits : Z) (outs : list Z)
  : outcome (list Z) :=
  match fuel with
  | O => Ret outs
  | S f =>
      if 0 <? nbits then
        let! sym := cc_stringify_byte table (Z.land (Z.shiftr group ((3 - j) * 6)) 63) in
        b64_symbols f table (j + 1) group (nbits - 6) (outs ++ [sym])
      else Ret outs
  end.

Fixpoint b64_groups (fuel : nat) (table sval : list Z) (i : nat) (outs : list Z)
  : outcome (list Z) :=
  match fuel with
  | O => Ret outs
  | S f =>
      if (i <? length sval)%nat then
        let '(group, nbits) := b64_group sval i in
        let! outs := b64_symbols 5 table 0 group nbits outs in
        b64_groups f table sval (i + 3) outs
      else Ret outs
  end.

Fixpoint b64_pad (fuel : nat) (outs : list Z) : list Z :=
  match fuel with
  | O => outs
  | S f => if Z.land (Z.of_nat (length outs)) 3 =? 0 then outs
           else b64_pad f (outs ++ [61])
  end.

Definition base64_encode (table sval : list Z) (no_padding : bool) : outcome (list Z) :=
  ccassert! 64 <=? cc_table_mod table in
  let! outs := b64_groups (S (length sval)) table sval 0 [] in
  Ret (if no_padding then outs else b64_pad 4 outs).

(** The string without its trailing '=' characters. *)
Fixpoint b64_strip (rs : list Z) : list Z :=
  match rs with
  | c :: t => if c =? 61 then b64_strip t else rs
  | [] => []
  end.

Fixpoint b64_decode_loop (table str : list Z) (acc nbits : Z) (data : list Z) : option (list Z) :=
  match str with
  | [] => Some data
  | c :: str =>
      let val := cc_destringify_char table c in
      if val =? 255 then None
      else
        let acc := Z.lor (u32 (Z.shiftl acc 6)) val in
        let nbits := nbits + 6 in
        if 8 <=? nbits then
          let nbits := nbits - 8 in
          b64_decode_loop table str (Z.land acc (u32 (u32 (Z.shiftl 1 nbits) - 1))) nbits
            (data ++ [u8 (Z.shiftr acc nbits)])
        else b64_decode_loop table str acc nbits data
  end.

(** [None] is the return value -1. *)
Definition base64_decode (table str : list Z) : option (list Z) :=
  b64_decode_loop table (rev (b64_strip (rev str))) 0 0 [].

(** ** Digit strings of big integers *)

Inductive decode_error : Set := ErrInputEnd | ErrInvalidChar.

Definition CC_ENCODE_SEPARATOR : Z := 48.      (* '0' *)
Definition CC_ENCODE_SEPARATOR_ALT : Z := 79.  (* 'O' *)

Section bigint_strings.
Context {B : BigOps}.

Fixpoint compute_shift (fuel : nat) (md : Z) (maxval val : bigint) (shift : Z)
  : Z * bigint * bigint :=
  match fuel with
  | O => (shift, maxval, val)
  | S f =>
      if Z.odd (BIGWORD val 0) then (shift, maxval, val)
      else
        let val := bigint_shift_down val 1 in
        let maxval := bigint_shift_down maxval 1 in
        let shift := shift + 1 in
        if shift =? md - 1 then (shift, maxval, val)
        else compute_shift f md maxval val shift
  end.

Fixpoint stringify_loop (fuel : nat) (table : list Z) (nchars nc : Z) (mval v : bigint)
  (outs : list Z) : outcome (list Z) :=
  match fuel with
  | O => Ret outs
  | S f =>
      if bval mval =? 0 then Ret outs
      else
        let md := cc_table_mod table in
        let! sym := cc_stringify_byte table (modBigInt v md) in
        let outs := outs ++ [sym] in
        let v := divBigInt v md in
        let mval := divBigInt mval md in
        let nc := nc + 1 in
        if (nc =? nchars) || ((nchars <? 0) && (bval v =? 0)) then Ret outs
        else stringify_loop f table nchars nc mval v outs
  end.

Definition cc_stringify (table : list Z) (maxval : bigint) (normalize : bool) (nchars : Z)
  (val : bigint) (outs : list Z) : outcome (list Z) :=
  let md := cc_table_mod table in
  let mval := if bval maxval =? 0 then subBigInt (of_bval 0) (of_bval 1) else maxval in
  if normalize then
    let '(shift, mval, v) := compute_shift (Z.to_nat md) md mval val 0 in
    let! sym := cc_stringify_byte table shift in
    stringify_loop 257 table nchars 0 mval v (outs ++ [sym])
  else stringify_loop 257 table nchars 0 mval val outs.

(** [string::find], npos as [2 ^ 64 - 1]. *)
Fixpoint find_char (c : Z) (s : list Z) (pos : Z) : Z :=
  match s with
  | [] => UINT64_MAX
  | x :: s => if x =? c then pos else find_char c s (pos + 1)
  end.

(** The digits, last character first. *)
Fixpoint destringify_loop (table rsval : list Z) (val : bigint) : decode_error + bigint :=
  match rsval with
  | [] => inr val
  | ch :: rest =>
      let c := cc_destringify_char table ch in
      if c =? 255 then inl ErrInvalidChar
      else destringify_loop table rest
             (addBigInt (mulBigInt val (of_bval (cc_table_mod table))) (of_bval c))
  end.

(** Result code, remaining input, and value. *)
Definition cc_destringify (table : list Z) (normalize : bool) (nchars : Z) (instring : list Z)
  : (decode_error + bigint) * list Z :=
  let len := Z.of_nat (length instring) in
  let norm := if normalize then 1 else 0 in
  let shift := if normalize then cc_destringify_char table (nth 0 instring 0) else 0 in
  if normalize && (len <? 1) then (inl ErrInputEnd, instring)
  else if normalize && (shift =? 255) then (inl ErrInvalidChar, instring)
  else
    let nchars0 := nchars in
    let nchars :=
      if nchars =? 0 then
        let nchars := u32 (find_char CC_ENCODE_SEPARATOR instring 0) in
        let nchars2 := find_char CC_ENCODE_SEPARATOR_ALT instring 0 in
        if nchars2 <? nchars then u32 nchars2 else nchars
      else nchars in
    if (nchars0 =? 0) && (len <=? nchars) then (inl ErrInputEnd, instring)
    else
      let nchars := u32 (nchars - norm) in
      if len <? u32 (nchars + norm) then (inl ErrInputEnd, instring)
      else
        let sval := firstn (Z.to_nat nchars) (skipn (Z.to_nat norm) instring) in
        let instring := skipn (Z.to_nat (u32 (nchars + norm))) instring in
        match destringify_loop table (rev sval) (of_bval 0) with
        | inl e => (inl e, instring)
        | inr val => (inr (bigint_shift_up val shift), instring)
        end.
End bigint_strings.

(** ** Matching tables *)

(** An encoding table and a decoding table over the same alphabet of at most 255
    symbols, inverse of one another. *)
Record table_pair (sym bin : list Z) : Prop := {
  tp_mod : cc_table_mod sym = cc_table_mod bin;
  tp_range : 2 <= cc_table_mod bin <= 255;
  tp_stringify c : 0 <= c < cc_table_mod bin ->
    exists ch, cc_stringify_byte sym c = Ret ch /\ byte_ok ch /\ cc_destringify_char bin ch = c;
  tp_destringify ch : byte_ok ch -> cc_destringify_char bin ch <> 255 ->
    0 <= cc_destringify_char bin ch < cc_table_mod bin
    /\ cc_stringify_byte sym (cc_destringify_char bin ch) = Ret ch;
}.

Definition ret_is (P : Z -> bool) (o : outcome Z) : bool :=
  match o with Ret x => P x | Throw _ => false end.

Definition table_pairb (sym bin : list Z) : bool :=
  (cc_table_mod sym =? cc_table_mod bin)
  && (2 <=? cc_table_mod bin) && (cc_table_mod bin <=? 255)
  && forallb (fun c => ret_is (fun ch => (0 <=? ch) && (ch <? 256) && (cc_destringify_char bin ch =? c))
                         (cc_stringify_byte sym c)) (seqZ 0 (cc_table_mod bin))
  && forallb (fun ch => let c := cc_destringify_char bin ch in
                (c =? 255) || ((0 <=? c) && (c <? cc_table_mod bin)
                               && ret_is (Z.eqb ch) (cc_stringify_byte sym c))) (seqZ 0 256).

Lemma forallb_seqZ f n x : forallb f (seqZ 0 n) = true -> 0 <= x < n -> f x = true.
Proof.
  intros H Hx. rewrite forallb_forall in H. apply H, list_elem_of_In, elem_of_seqZ. lia.
Qed.

Lemma table_pairb_ok sym bin : table_pairb sym bin = true -> table_pair sym bin.
Proof.
  unfold table_pairb. intros H. rewrite !andb_true_iff, Z.eqb_eq, !Z.leb_le in H.
  destruct H as ((((H1 & H2) & H3) & H4) & H5). constructor; [done|lia| |].
  - intros c Hc. pose proof (forallb_seqZ _ _ c H4 Hc) as Hf. cbn beta in Hf.
    destruct (cc_stringify_byte sym c) as [ch|]; [|done]. cbn in Hf.
    rewrite !andb_true_iff, Z.eqb_eq, Z.leb_le, Z.ltb_lt in Hf. exists ch.
    unfold byte_ok, in_word. change (2 ^ 8) with 256. split_and!; [done|lia..].
  - intros ch Hch Hne. pose proof (forallb_seqZ _ 256 ch H5 Hch) as Hf. cbn beta zeta in Hf.
    rewrite orb_true_iff, !andb_true_iff, Z.eqb_eq, Z.leb_le, Z.ltb_lt in Hf.
    destruct Hf as [?|[? Hf]]; [done|]. split; [lia|].
    destruct (cc_stringify_byte sym _); [|done]. cbn in Hf. apply Z.eqb_eq in Hf. by subst.
Qed.

(** Every table of encodings.c used by the node pairs up. *)
Lemma standard_tables :
  Forall (fun p => table_pair (fst p) (snd p))
    [(base10sym, base10bin); (base16sym, base16bin); (base32sym, base32bin);
     (base32zsym, base32zbin); (base34sym, base34bin); (base38sym, base38bin);
     (base58sym, base58bin); (base66sym, base66bin); (base95sym, base95bin);
     (base224sym, base224bin); (base64sym, base64bin); (base57sym, base57bin);
     (base85sym, base85bin); (base36sym, base36bin); (base26sym, base26bin);
     (base17sym, base17bin); (base8sym, base8bin)].
Proof.
  repeat apply Forall_cons_2; try apply Forall_nil_2; apply table_pairb_ok; vm_compute; reflexivity.
Qed.

(** ** base64 round trip *)

Definition b64_symbol (table : list Z) (c : Z) : Z :=
  match cc_stringify_byte table c with Ret ch => ch | Throw _ => 0 end.

(** The symbols of a group of one, two or three bytes, arithmetically. *)
Definition b64_digits (g : list Z) : list Z :=
  match g with
  | [a] => [a / 4; a mod 4 * 16]
  | [a; b] => [a / 4; a mod 4 * 16 + b / 16; b mod 16 * 4]
  | [a; b; c] => [a / 4; a mod 4 * 16 + b / 16; b mod 16 * 4 + c / 64; c mod 64]
  | _ => []
  end.

Lemma b64_pad_replicate fuel outs : exists k, b64_pad fuel outs = outs ++ replicate k 61.
Proof.
  revert outs. induction fuel as [|f IH]; intros outs; [exists 0%nat; by rewrite app_nil_r|].
  cbn [b64_pad]. case_bool; [exists 0%nat; by rewrite app_nil_r|].
  destruct (IH (outs ++ [61])) as [k ->]. exists (S k). by rewrite <- app_assoc.
Qed.

Lemma b64_strip_replicate k rs : b64_strip (replicate k 61 ++ rs) = b64_strip rs.
Proof. induction k; done. Qed.

Section base64.
Context (sym bin : list Z) (Hpair : table_pair sym bin) (Hmod : 64 <= cc_table_mod bin).

Lemma b64_symbol_ok c : 0 <= c < 64 ->
  cc_stringify_byte sym c = Ret (b64_symbol sym c) /\ cc_destringify_char bin (b64_symbol sym c) = c
  /\ byte_ok (b64_symbol sym c).
Proof.
  intros Hc. destruct (tp_stringify _ _ Hpair c ltac:(lia)) as (ch & Hs & Hb & Hd).
  unfold b64_symbol. by rewrite Hs.
Qed.

Lemma b64_digits_range g : bytes_ok g -> Forall (fun c => 0 <= c < 64) (b64_digits g).
Proof.
  unfold bytes_ok, digits_ok, in_word, b64_digits. change (2 ^ 8) with 256.
  destruct g as [|a [|b [|c [|]]]]; intros H; [constructor|..|constructor];
    rewrite !Forall_cons in H; repeat constructor; Z.div_mod_to_equations; lia.
Qed.

(** Appending [n] low bits to a word. *)
Lemma u32_append x n y : 0 <= n -> 0 <= x -> x * 2 ^ n < 2 ^ 32 -> in_word n y ->
  Z.lor (u32 (Z.shiftl x n)) y = x * 2 ^ n + y.
Proof.
  intros Hn Hx Hb Hy. pose proof (pow2_pos n Hn). unfold u32.
  rewrite wrap_small; [by apply lor_shiftl_add|].
  rewrite Z.shiftl_mul_pow2 by lia. unfold in_word. nia.
Qed.

Lemma b64_group_suffix sval i : b64_group sval i = b64_group (drop i sval) 0.
Proof.
  assert (E : forall j, (i + j <? length sval)%nat = (j <? length (drop i sval))%nat).
  { intros j. rewrite length_drop. destruct (Nat.ltb_spec (i + j) (length sval)),
      (Nat.ltb_spec j (length sval - i)); lia || done. }
  unfold b64_group. generalize (0, 0). generalize [0; 1; 2]%nat.
  intros l. induction l as [|j l IH]; intros [g n]; [done|].
  cbn [fold_left]. rewrite E, (nth_skipn i), Nat.add_0_l. apply IH.
Qed.

Lemma b64_group_symbols s outs : bytes_ok s -> s <> [] ->
  (let '(group, nbits) := b64_group s 0 in b64_symbols 5 sym 0 group nbits outs)
  = Ret (outs ++ map (b64_symbol sym) (b64_digits (firstn 3 s))).
Proof.
  intros Hs Hne. unfold bytes_ok, digits_ok, in_word in Hs. change (2 ^ 8) with 256 in Hs.
  assert (Hgen : forall v a b c k nb, 0 <= a < 256 -> 0 <= b < 256 -> 0 <= c < 256 ->
    v = a * 65536 + b * 256 + c -> k = 2%nat /\ nb = 8 \/ k = 3%nat /\ nb = 16 \/ k = 4%nat /\ nb = 24 ->
    b64_symbols 5 sym 0 v nb outs
    = Ret (outs ++ map (b64_symbol sym) (firstn k (b64_digits [a; b; c])))).
  { intros v a b c k nb Ha Hb Hc Hv Hk.
    assert (D : forall n q, 0 <= n -> v / 2 ^ n mod 64 = q -> Z.land (Z.shiftr v n) 63 = q).
    { intros n q Hn <-. rewrite Z.shiftr_div_pow2 by lia. apply (land_mask _ 6). lia. }
    assert (G : forall q, 0 <= q < 64 -> cc_stringify_byte sym q = Ret (b64_symbol sym q))
      by (intros; by apply b64_symbol_ok).
    assert (D0 : Z.land (Z.shiftr v ((3 - 0) * 6)) 63 = a / 4)
      by (apply D; [lia|]; change (2 ^ ((3 - 0) * 6)) with 262144; Z.div_mod_to_equations; lia).
    assert (D1 : Z.land (Z.shiftr v ((3 - (0 + 1)) * 6)) 63 = a mod 4 * 16 + b / 16)
      by (apply D; [lia|]; change (2 ^ ((3 - (0 + 1)) * 6)) with 4096; Z.div_mod_to_equations; lia).
    assert (D2 : Z.land (Z.shiftr v ((3 - (0 + 1 + 1)) * 6)) 63 = b mod 16 * 4 + c / 64)
      by (apply D; [lia|]; change (2 ^ ((3 - (0 + 1 + 1)) * 6)) with 64; Z.div_mod_to_equations; lia).
    assert (D3 : Z.land (Z.shiftr v ((3 - (0 + 1 + 1 + 1)) * 6)) 63 = c mod 64)
      by (apply D; [lia|]; change (2 ^ ((3 - (0 + 1 + 1 + 1)) * 6)) with 1; Z.div_mod_to_equations; lia).
    assert (R : Forall (fun c => 0 <= c < 64) (b64_digits [a; b; c])).
    { apply b64_digits_range. unfold bytes_ok, digits_ok, in_word. change (2 ^ 8) with 256.
      repeat constructor; lia. }
    cbn [b64_digits] in *. rewrite !Forall_cons in R. destruct R as (R0 & R1 & R2 & R3 & _).
    destruct Hk as [[-> ->]|[[-> ->]|[-> ->]]].
    all: cbn -[Z.land Z.shiftr cc_stringify_byte b64_symbol Z.div Z.modulo].
    all: repeat match goal with
      |- context [0 <? ?n] => let r := eval vm_compute in (0 <? n) in change (0 <? n) with r end.
    all: rewrite ?D0, (G _ R0); cbn [outcome_bind]; rewrite ?D1, (G _ R1); cbn [outcome_bind].
    all: rewrite ?D2, ?(G _ R2); cbn [outcome_bind]; rewrite ?D3, ?(G _ R3); cbn [outcome_bind].
    all: rewrite <- ?app_assoc. all: try done. }
  assert (P3 : forall a b c, 0 <= a < 256 -> 0 <= b < 256 -> 0 <= c < 256 ->
    Z.lor (u32 (Z.shiftl (Z.lor (u32 (Z.shiftl (Z.lor (u32 (Z.shiftl 0 8)) a) 8)) b) 8)) c
    = a * 65536 + b * 256 + c).
  { intros a b c Ha Hb Hc. change (u32 (Z.shiftl 0 8)) with 0. rewrite Z.lor_0_l.
    rewrite (u32_append a 8 b), (u32_append _ 8 c) by (unfold in_word; lia). lia. }
  destruct s as [|a [|b [|c s]]]; [done|..]; rewrite ?Forall_cons in Hs.
  - pose proof (P3 a 0 0 ltac:(lia) ltac:(lia) ltac:(lia)) as E. rewrite !Z.lor_0_r in E.
    change (b64_group [a] 0) with (u32 (Z.shiftl (u32 (Z.shiftl (Z.lor (u32 (Z.shiftl 0 8)) a) 8)) 8), 8).
    cbv beta iota. rewrite (Hgen _ a 0 0 2%nat 8 ltac:(lia) ltac:(lia) ltac:(lia) E) by lia.
    cbn. by rewrite Z.add_0_r.
  - pose proof (P3 a b 0 ltac:(lia) ltac:(lia) ltac:(lia)) as E. rewrite !Z.lor_0_r in E.
    change (b64_group [a; b] 0) with
      (u32 (Z.shiftl (Z.lor (u32 (Z.shiftl (Z.lor (u32 (Z.shiftl 0 8)) a) 8)) b) 8), 16).
    cbv beta iota. rewrite (Hgen _ a b 0 3%nat 16 ltac:(lia) ltac:(lia) ltac:(lia) E) by lia.
    cbn. by rewrite Z.add_0_r.
  - pose proof (P3 a b c ltac:(lia) ltac:(lia) ltac:(lia)) as E.
    change (b64_group (a :: b :: c :: s) 0) with (Z.lor (u32 (Z.shiftl
      (Z.lor (u32 (Z.shiftl (Z.lor (u32 (Z.shiftl 0 8)) a) 8)) b) 8)) c, 24).
    cbv beta iota. by rewrite (Hgen _ a b c 4%nat 24 ltac:(lia) ltac:(lia) ltac:(lia) E) by lia.
Qed.

(** One step of the decoder on the symbol of [c]. *)
Lemma b64_decode_step c str acc nbits data : 0 <= c < 64 -> 0 <= nbits < 8 -> 0 <= acc < 2 ^ nbits ->
  b64_decode_loop bin (b64_symbol sym c :: str) acc nbits data =
  if 2 <=? nbits
  then b64_decode_loop bin str ((acc * 64 + c) mod 2 ^ (nbits - 2)) (nbits - 2)
         (data ++ [(acc * 64 + c) / 2 ^ (nbits - 2)])
  else b64_decode_loop bin str (acc * 64 + c) (nbits + 6) data.
Proof.
  intros Hc Hn Ha. destruct (b64_symbol_ok c Hc) as (_ & Hd & _).
  cbn [b64_decode_loop]. rewrite Hd. destruct (Z.eqb_spec c 255); [lia|].
  pose proof (Z.pow_lt_mono_r 2 nbits 8 ltac:(lia) ltac:(lia) ltac:(lia)) as Hp.
  change (2 ^ 8) with 256 in Hp.
  rewrite (u32_append acc 6 c) by (unfold in_word; lia). change (2 ^ 6) with 64.
  destruct (Z.leb_spec 8 (nbits + 6)), (Z.leb_spec 2 nbits); try lia; [|done].
  replace (nbits + 6 - 8) with (nbits - 2) by lia.
  assert (Hs : 0 < 2 ^ (nbits - 2) <= 32).
  { split; [apply Z.pow_pos_nonneg; lia|]. apply (Z.pow_le_mono_r 2 (nbits - 2) 5); lia. }
  assert (E : 2 ^ nbits = 4 * 2 ^ (nbits - 2)).
  { change 4 with (2 ^ 2). rewrite <- Z.pow_add_r by lia. f_equal. lia. }
  rewrite Z.shiftl_1_l. unfold u32, u8.
  rewrite (wrap_small 32 (2 ^ (nbits - 2))) by (unfold in_word; lia).
  rewrite (wrap_small 32) by (unfold in_word; lia).
  rewrite land_mask, Z.shiftr_div_pow2 by lia.
  rewrite (wrap_small 8); [done|]. unfold in_word. change (2 ^ 8) with 256.
  split; [apply Z.div_pos; lia|]. apply Z.div_lt_upper_bound; nia.
Qed.

Lemma b64_decode_group g str data : bytes_ok g -> g <> [] -> (length g <= 3)%nat ->
  (length g = 3%nat \/ str = []) ->
  b64_decode_loop bin (map (b64_symbol sym) (b64_digits g) ++ str) 0 0 data
  = if (length g =? 3)%nat then b64_decode_loop bin str 0 0 (data ++ g) else Some (data ++ g).
Proof.
  intros Hg Hne Hl Hlast. pose proof (b64_digits_range g Hg) as R.
  unfold bytes_ok, digits_ok, in_word in Hg. change (2 ^ 8) with 256 in Hg.
  assert (S0 : forall c str, 0 <= c < 64 ->
    b64_decode_loop bin (b64_symbol sym c :: str) 0 0 data = b64_decode_loop bin str c 6 data)
    by (intros; by rewrite b64_decode_step by lia).
  assert (S6 : forall acc c str data, 0 <= c < 64 -> 0 <= acc < 64 ->
    b64_decode_loop bin (b64_symbol sym c :: str) acc 6 data
    = b64_decode_loop bin str (c mod 16) 4 (data ++ [acc * 4 + c / 16])).
  { intros. rewrite b64_decode_step by lia. change (2 ^ (6 - 2)) with 16. change (2 <=? 6) with true.
    cbv iota. f_equal; [|f_equal; f_equal]; Z.div_mod_to_equations; lia. }
  assert (S4 : forall acc c str data, 0 <= c < 64 -> 0 <= acc < 16 ->
    b64_decode_loop bin (b64_symbol sym c :: str) acc 4 data
    = b64_decode_loop bin str (c mod 4) 2 (data ++ [acc * 16 + c / 4])).
  { intros. rewrite b64_decode_step by lia. change (2 ^ (4 - 2)) with 4. change (2 <=? 4) with true.
    cbv iota. f_equal; [|f_equal; f_equal]; Z.div_mod_to_equations; lia. }
  assert (S2 : forall acc c str data, 0 <= c < 64 -> 0 <= acc < 4 ->
    b64_decode_loop bin (b64_symbol sym c :: str) acc 2 data
    = b64_decode_loop bin str 0 0 (data ++ [acc * 64 + c])).
  { intros. rewrite b64_decode_step by lia. change (2 ^ (2 - 2)) with 1. change (2 <=? 2) with true.
    cbv iota. by rewrite Z.mod_1_r, Z.div_1_r. }
  destruct g as [|a [|b [|c [|]]]]; cbn [length] in *; [done|..|lia].
  all: cbn [b64_digits map app] in *; rewrite ?Forall_cons in Hg, R.
  all: destruct Hlast as [Hlast| ->]; try discriminate Hlast; cbn [app Nat.eqb].
  all: rewrite S0, S6 by (Z.div_mod_to_equations; lia).
  all: rewrite ?S4 by (Z.div_mod_to_equations; lia).
  all: rewrite ?S2 by (Z.div_mod_to_equations; lia).
  all: cbn [b64_decode_loop]; rewrite <- ?app_assoc; cbn [app].
  all: repeat f_equal; Z.div_mod_to_equations; lia.
Qed.

(** The symbols of a whole input. *)
Fixpoint b64_chars (fuel : nat) (s : list Z) : list Z :=
  match fuel with
  | O => []
  | S f => match s with
           | [] => []
           | _ => map (b64_symbol sym) (b64_digits (firstn 3 s)) ++ b64_chars f (drop 3 s)
           end
  end.

Lemma bytes_ok_take k s : bytes_ok s -> bytes_ok (take k s).
Proof. apply Forall_take. Qed.
Lemma bytes_ok_drop k s : bytes_ok s -> bytes_ok (drop k s).
Proof. apply Forall_drop. Qed.

Lemma b64_groups_chars fuel sval i outs : bytes_ok sval -> (length sval < i + fuel)%nat ->
  b64_groups fuel sym sval i outs = Ret (outs ++ b64_chars fuel (drop i sval)).
Proof.
  intros Hs. revert i outs. induction fuel as [|f IH]; intros i outs Hf.
  { cbn. by rewrite app_nil_r. }
  cbn [b64_groups b64_chars]. destruct (Nat.ltb_spec i (length sval)).
  - assert (Hne : drop i sval <> []).
    { intros E. apply (f_equal length) in E. rewrite length_drop in E. cbn in E. lia. }
    rewrite b64_group_suffix.
    pose proof (b64_group_symbols (drop i sval) outs ltac:(by apply bytes_ok_drop) Hne) as E.
    destruct (b64_group (drop i sval) 0) as [group nbits]. rewrite E. cbn [outcome_bind].
    rewrite IH by lia. rewrite <- app_assoc, drop_drop.
    destruct (drop i sval); done.
  - rewrite drop_ge by lia. by rewrite app_nil_r.
Qed.

Lemma b64_decode_chars fuel s data : bytes_ok s -> (length s < fuel)%nat ->
  b64_decode_loop bin (b64_chars fuel s) 0 0 data = Some (data ++ s).
Proof.
  revert s data. induction fuel as [|f IH]; intros s data Hs Hf; [lia|].
  destruct (decide (s = [])) as [->|Hne]; [by rewrite app_nil_r|].
  assert (Hpos : (0 < length s)%nat) by (destruct s; [done|cbn; lia]).
  replace (b64_chars (S f) s) with (map (b64_symbol sym) (b64_digits (take 3 s)) ++ b64_chars f (drop 3 s))
    by (by destruct s).
  pose proof (length_take s 3) as Hlt.
  destruct (Nat.le_gt_cases 3 (length s)).
  - rewrite b64_decode_group; [|by apply bytes_ok_take|by destruct s|rewrite Hlt; lia|left; lia].
    replace (length (take 3 s)) with 3%nat by lia. cbn [Nat.eqb].
    rewrite IH; [|by apply bytes_ok_drop|rewrite length_drop; lia].
    by rewrite <- app_assoc, take_drop.
  - rewrite drop_ge by lia. replace (b64_chars f []) with (@nil Z) by (by destruct f).
    rewrite b64_decode_group; [|by apply bytes_ok_take|by destruct s|rewrite Hlt; lia|by right].
    rewrite take_ge by lia. destruct (Nat.eqb_spec (length s) 3); [lia|done].
Qed.

Lemma b64_chars_alphabet fuel s : bytes_ok s ->
  Forall (fun ch => cc_destringify_char bin ch <> 255) (b64_chars fuel s).
Proof.
  revert s. induction fuel as [|f IH]; intros s Hs; [constructor|].
  cbn [b64_chars]. destruct s as [|x s]; [constructor|]. apply Forall_app. split.
  - apply Forall_fmap. eapply Forall_impl; [by apply b64_digits_range, bytes_ok_take|].
    intros c Hc. cbn in Hc |- *. destruct (b64_symbol_ok c Hc) as (_ & Hd & _). rewrite Hd. lia.
  - apply IH. by apply bytes_ok_drop.
Qed.

Lemma b64_strip_chars l : cc_destringify_char bin 61 = 255 ->
  Forall (fun ch => cc_destringify_char bin ch <> 255) l -> rev (b64_strip (rev l)) = l.
Proof.
  intros H61 H. destruct (rev l) as [|c t] eqn:E; cbn [b64_strip].
  - apply (f_equal (@rev Z)) in E. by rewrite rev_involutive in E.
  - rewrite Forall_forall in H. assert (Hc : c ∈ l).
    { apply list_elem_of_In, in_rev. rewrite E. by left. }
    specialize (H c Hc). destruct (Z.eqb_spec c 61) as [->|]; [done|]. rewrite <- E. by rewrite rev_involutive.
Qed.
End base64.

(** base64: encoding never fails and decoding returns the bytes, with or without
    padding. *)
Theorem base64_roundtrip sym bin sval no_padding :
  table_pair sym bin -> 64 <= cc_table_mod bin -> cc_destringify_char bin 61 = 255 ->
  bytes_ok sval ->
  exists str, base64_encode sym sval no_padding = Ret str /\ base64_decode bin str = Some sval.
Proof.
  intros Hp Hm H61 Hs. unfold base64_encode. rewrite (tp_mod _ _ Hp).
  destruct (Z.leb_spec 64 (cc_table_mod bin)); [|lia].
  rewrite (b64_groups_chars sym bin) by (done || lia). cbn [outcome_bind app drop].
  set (e := b64_chars sym (S (length sval)) sval).
  assert (He : Forall (fun ch => cc_destringify_char bin ch <> 255) e) by (by apply (b64_chars_alphabet sym bin)).
  assert (Hd : b64_decode_loop bin (rev (b64_strip (rev e))) 0 0 [] = Some sval).
  { rewrite (b64_strip_chars bin) by done. subst e. rewrite (b64_decode_chars sym bin) by (done || lia). done. }
  unfold base64_decode. destruct no_padding; [by exists e|].
  exists (b64_pad 4 e). split; [done|]. destruct (b64_pad_replicate 4 e) as [k ->].
  rewrite rev_app_distr. replace (rev (replicate k 61)) with (replicate k 61).
  - by rewrite b64_strip_replicate.
  - clear. induction k as [|k IH]; [done|]. cbn [replicate rev]. rewrite <- IH.
    by rewrite replicate_cons_app.
Qed.

Lemma base64_roundtrip_witness :
  base64_encode base64sym [77; 97; 110; 255] false = Ret [84; 87; 70; 117; 47; 119; 61; 61] /\
  exists str, base64_encode base64sym [77; 97; 110; 255] false = Ret str
    /\ base64_decode base64bin str = Some [77; 97; 110; 255].
Proof.
  split; [reflexivity|]. apply (base64_roundtrip base64sym base64bin).
  - apply table_pairb_ok. vm_compute. reflexivity.
  - vm_compute. discriminate.
  - reflexivity.
  - repeat constructor; vm_compute; congruence.
Defined.

(** ** Digit strings of big integers: round trip *)

(** Value of a digit list in base [md], least significant digit first. *)
Fixpoint horner (md : Z) (ds : list Z) : Z :=
  match ds with
  | [] => 0
  | d :: ds => d + md * horner md ds
  end.

Lemma bigint_odd x : bigint_ok x -> Z.odd (BIGWORD x 0) = Z.odd (bval x).
Proof.
  intros Hx. rewrite <- !Z.bit0_odd. by rewrite <- (bval_bit_at x 0 0) by (done || lia).
Qed.

Section stringify_proofs.
Context {B : BigOps} {HB : BigOpsSpec B} (sym bin : list Z) (Hpair : table_pair sym bin).
Abbreviation md := (cc_table_mod bin).

Definition ints_ok (ds : list Z) : Prop := Forall (fun d => 0 <= d < md) ds.

Lemma horner_nonneg ds : ints_ok ds -> 0 <= horner md ds.
Proof.
  pose proof (tp_range _ _ Hpair). induction 1; cbn [horner]; [lia|].
  assert (0 <= md * horner md l) by (apply Z.mul_nonneg_nonneg; lia). lia.
Qed.

Lemma sym_char d : 0 <= d < md ->
  cc_stringify_byte sym d = Ret (b64_symbol sym d) /\ cc_destringify_char bin (b64_symbol sym d) = d
  /\ byte_ok (b64_symbol sym d).
Proof.
  intros Hd. destruct (tp_stringify _ _ Hpair d Hd) as (ch & Hs & Hb & Hc).
  unfold b64_symbol. by rewrite Hs.
Qed.

Lemma stringify_loop_spec fuel nchars nc mval v outs :
  bigint_ok mval -> bigint_ok v -> bval v <= bval mval < 2 ^ Z.of_nat fuel ->
  nchars <= 0 <= nc ->
  exists ds, stringify_loop fuel sym nchars nc mval v outs = Ret (outs ++ map (b64_symbol sym) ds)
    /\ ints_ok ds /\ horner md ds = bval v
    /\ (length ds <= fuel)%nat /\ (bval mval <> 0 -> ds <> []).
Proof.
  pose proof (tp_range _ _ Hpair) as Hmd.
  revert nc mval v outs. induction fuel as [|f IH]; intros nc mval v outs Hm Hv Hle Hn.
  { pose proof (bval_range v Hv) as [? _]. exists []. cbn. rewrite app_nil_r.
    change (2 ^ Z.of_nat 0) with 1 in Hle. split_and!; [done|constructor|lia..]. }
  pose proof (bval_range v Hv) as [Hv0 _]. cbn [stringify_loop]. rewrite (tp_mod _ _ Hpair).
  destruct (Z.eqb_spec (bval mval) 0).
  { exists []. cbn. rewrite app_nil_r. split_and!; [done|constructor|lia..]. }
  rewrite mod_val by (done || lia).
  pose proof (Z.mod_pos_bound (bval v) md ltac:(lia)) as Hd.
  destruct (sym_char _ Hd) as (-> & _). cbn [outcome_bind].
  pose proof (div_val v md Hv ltac:(lia)) as Ev. pose proof (div_val mval md Hm ltac:(lia)) as Em.
  pose proof (Z.div_mod (bval v) md ltac:(lia)) as Edm.
  destruct (Z.eqb_spec (nc + 1) nchars); [lia|]. cbn [orb].
  destruct ((nchars <? 0) && (bval (divBigInt v md) =? 0)) eqn:Ebr.
  - exists [bval v mod md]. split_and!; [done|by apply Forall_singleton| |cbn; lia|done].
    apply andb_prop in Ebr as [_ Hz%Z.eqb_eq]. cbn [horner]. rewrite Ev in Hz. lia.
  - destruct (IH (nc + 1) (divBigInt mval md) (divBigInt v md) (outs ++ [b64_symbol sym (bval v mod md)]))
      as (ds & -> & Hds & Hval & Hlen & _).
    + apply div_ok; [done|lia].
    + apply div_ok; [done|lia].
    + rewrite Ev, Em. split; [apply Z.div_le_mono; lia|].
      apply Z.div_lt_upper_bound; [lia|].
      replace (Z.of_nat (S f)) with (Z.of_nat f + 1) in Hle by lia.
      rewrite Z.pow_add_r in Hle by lia. pose proof (pow2_pos (Z.of_nat f) ltac:(lia)). nia.
    + lia.
    + exists (bval v mod md :: ds). rewrite <- app_assoc. cbn [map app horner].
      split_and!; [done|by constructor|rewrite Hval, Ev; lia|cbn; lia|done].
Qed.

Lemma destringify_loop_app l1 l2 x :
  destringify_loop bin (l1 ++ l2) x =
  match destringify_loop bin l1 x with inl e => inl e | inr y => destringify_loop bin l2 y end.
Proof.
  revert x. induction l1 as [|ch l1 IH]; intros x; [done|]. cbn [app destringify_loop].
  case_bool; [done|apply IH].
Qed.

Lemma destringify_loop_spec ds : ints_ok ds -> horner md ds < 2 ^ 256 ->
  exists x, destringify_loop bin (rev (map (b64_symbol sym) ds)) (of_bval 0) = inr x
    /\ bigint_ok x /\ bval x = horner md ds.
Proof.
  pose proof (tp_range _ _ Hpair) as Hmd.
  induction 1 as [|d ds Hd Hds IH]; intros Hb.
  { exists (of_bval 0). split_and!; [done|apply of_bval_ok|by rewrite bval_of]. }
  pose proof (horner_nonneg ds Hds). cbn [horner] in Hb.
  destruct IH as (x & Hx & Hok & Hval); [nia|].
  cbn [map rev]. rewrite destringify_loop_app, Hx. cbn [destringify_loop].
  destruct (sym_char d Hd) as (_ & -> & _). destruct (Z.eqb_spec d 255); [lia|].
  eexists. split; [reflexivity|].
  assert (Hmul : bigint_ok (mulBigInt x (of_bval md))) by (apply mul_ok; [done|apply of_bval_ok]).
  split; [apply add_ok; [done|apply of_bval_ok]|].
  rewrite add_val, mul_val, !bval_of, Hval by (done || apply of_bval_ok). cbn [horner].
  unfold u256. rewrite (wrap_small 256 md), (wrap_small 256 d) by (unfold in_word; lia).
  rewrite (wrap_small 256 (horner md ds * md)) by (unfold in_word; nia).
  rewrite wrap_small by (unfold in_word; nia). lia.
Qed.

Lemma compute_shift_spec fuel maxval val s : bigint_ok maxval -> bigint_ok val ->
  0 <= s < md - 1 -> md - 1 - s <= Z.of_nat fuel ->
  exists k mv v, compute_shift fuel md maxval val s = (s + k, mv, v)
    /\ bigint_ok mv /\ bigint_ok v /\ 0 <= k /\ s + k <= md - 1
    /\ bval mv = bval maxval / 2 ^ k /\ bval v * 2 ^ k = bval val.
Proof.
  revert maxval val s. induction fuel as [|f IH]; intros maxval val s Hm Hv Hs Hf; [lia|].
  cbn [compute_shift]. rewrite bigint_odd by done.
  destruct (Z.odd (bval val)) eqn:Ho.
  { exists 0, maxval, val. rewrite Z.add_0_r, Z.pow_0_r, Z.div_1_r, Z.mul_1_r. split_and!; lia || done. }
  destruct (bigint_shift_down_spec val 1 Hv ltac:(done)) as [Hv1 Ev].
  destruct (bigint_shift_down_spec maxval 1 Hm ltac:(done)) as [Hm1 Em].
  rewrite Z.shiftr_div_pow2 in Ev, Em by lia. change (2 ^ 1) with 2 in *.
  assert (Hev : bval val = 2 * (bval val / 2)).
  { pose proof (Z.div_mod (bval val) 2 ltac:(lia)) as E. rewrite Zmod_odd, Ho in E. lia. }
  destruct (Z.eqb_spec (s + 1) (md - 1)) as [e|].
  - exists 1, (bigint_shift_down maxval 1), (bigint_shift_down val 1).
    split_and!; try done; change (2 ^ 1) with 2; lia.
  - destruct (IH _ _ (s + 1) Hm1 Hv1 ltac:(lia) ltac:(lia)) as (k & mv & v & -> & Hmv & Hv' & Hk & Hks & Hmd & Hvd).
    exists (k + 1), mv, v. rewrite !Z.pow_add_r by lia. change (2 ^ 1) with 2.
    replace (s + 1 + k) with (s + (k + 1)) by lia. split_and!; try done; try lia.
    rewrite Hmd, Em. pose proof (pow2_pos k Hk). rewrite Z.div_div by lia. f_equal. lia.
Qed.
End stringify_proofs.

Section stringify_theorem.
Context {B : BigOps} {HB : BigOpsSpec B} (sym bin : list Z) (Hpair : table_pair sym bin).
Abbreviation md := (cc_table_mod bin).

Lemma destringify_digits (normalize : bool) sh ds (rest : list Z) :
  ints_ok bin ds -> horner md ds < 2 ^ 256 -> 0 <= sh < md -> Z.of_nat (length ds) < 2 ^ 31 ->
  (normalize = false -> ds <> []) ->
  let str := (if normalize then [b64_symbol sym sh] else []) ++ map (b64_symbol sym) ds in
  exists x, cc_destringify bin normalize (Z.of_nat (length str)) (str ++ rest)
            = (inr (bigint_shift_up x (if normalize then sh else 0)), rest)
    /\ bigint_ok x /\ bval x = horner md ds.
Proof.
  intros Hds Hb Hsh Hlen Hne str. pose proof (tp_range _ _ Hpair).
  destruct (destringify_loop_spec sym bin Hpair ds Hds Hb) as (x & Hx & Hok & Hval).
  exists x. split; [|done]. destruct (sym_char sym bin Hpair sh Hsh) as (_ & Hdc & _).
  assert (E : Z.of_nat (length str) = (if normalize then 1 else 0) + Z.of_nat (length ds)).
  { subst str. destruct normalize; cbn [app length]; rewrite ?length_map; lia. }
  assert (0 < Z.of_nat (length str)).
  { rewrite E. destruct normalize; [lia|]. destruct ds; [by destruct Hne|cbn; lia]. }
  unfold cc_destringify. rewrite length_app.
  destruct (Z.eqb_spec (Z.of_nat (length str)) 0); [lia|]. cbn [andb].
  assert (En : u32 (Z.of_nat (length str) - (if normalize then 1 else 0)) = Z.of_nat (length ds)).
  { unfold u32. rewrite wrap_small; [lia|]. unfold in_word. lia. }
  assert (En2 : u32 (Z.of_nat (length ds) + (if normalize then 1 else 0)) = Z.of_nat (length str)).
  { unfold u32. rewrite wrap_small; [lia|]. unfold in_word. destruct normalize; lia. }
  cbn zeta. rewrite En, En2.
  assert (Eskip : skipn (Z.to_nat (Z.of_nat (length str))) (str ++ rest) = rest).
  { rewrite Nat2Z.id. apply drop_app_length. }
  rewrite Eskip, Nat2Z.id.
  destruct (Z.ltb_spec (Z.of_nat (length str + length rest)) (Z.of_nat (length str))); [lia|].
  assert (Esval : firstn (length ds) (skipn (Z.to_nat (if normalize then 1 else 0)) (str ++ rest))
                  = map (b64_symbol sym) ds).
  { subst str. rewrite <- (length_map (b64_symbol sym) ds). destruct normalize; cbn [app Z.to_nat];
      [change (Pos.to_nat 1) with 1%nat; cbn [skipn]|cbn [skipn]]; rewrite ?drop_0; apply take_app_length. }
  rewrite Esval, Hx.
  destruct normalize; [|done]. cbn [andb]. subst str. cbn [app nth]. rewrite Hdc.
  destruct (Z.ltb_spec (Z.of_nat (length (b64_symbol sym sh :: map (b64_symbol sym) ds) + length rest)) 1);
    [cbn [length] in *; lia|].
  destruct (Z.eqb_spec sh 255); [lia|done].
Qed.

(** The digit string of a value decodes to the value: variable length ([nchars < 0])
    or the fixed width of [maxval] ([nchars = 0]), with or without the shift prefix,
    whatever follows in the input. *)
Theorem cc_stringify_roundtrip maxval (normalize : bool) nchars val rest :
  bigint_ok maxval -> bigint_ok val -> bval maxval = 0 \/ bval val <= bval maxval -> nchars <= 0 ->
  exists str x, cc_stringify sym maxval normalize nchars val [] = Ret str
    /\ cc_destringify bin normalize (Z.of_nat (length str)) (str ++ rest) = (inr x, rest)
    /\ bigint_ok x /\ bval x = bval val.
Proof.
  intros Hm Hv Hmax Hnc. pose proof (tp_range _ _ Hpair). pose proof (bval_range _ Hv) as Hvr.
  unfold in_word in Hvr. unfold cc_stringify. rewrite (tp_mod _ _ Hpair).
  set (mval := if bval maxval =? 0 then _ else maxval).
  assert (Hmv : bigint_ok mval /\ bval val <= bval mval /\ bval mval <> 0).
  { subst mval. case_bool; [|split_and!; [done|lia|done]].
    split; [apply sub_ok; apply of_bval_ok|]. rewrite sub_val, !bval_of by apply of_bval_ok.
    change (u256 (u256 0 - u256 1)) with (2 ^ 256 - 1). lia. }
  clearbody mval. destruct Hmv as (Hmok & Hle & Hnz). pose proof (bval_range _ Hmok) as Hmr. unfold in_word in Hmr.
  assert (Hfuel : 2 ^ 256 < 2 ^ Z.of_nat 257) by (apply Z.pow_lt_mono_r; lia).
  destruct normalize.
  - destruct (compute_shift_spec bin (Z.to_nat md) mval val 0 Hmok Hv ltac:(lia) ltac:(lia))
      as (k & mv & v & -> & Hmv & Hv' & Hk & Hks & Hmd & Hvd). cbv beta iota. rewrite Z.add_0_l in Hks |- *.
    pose proof (pow2_pos k Hk) as Hp. pose proof (bval_range _ Hv') as Hvr'. unfold in_word in Hvr'.
    destruct (sym_char sym bin Hpair k ltac:(lia)) as (-> & _). cbn [outcome_bind app].
    destruct (stringify_loop_spec sym bin Hpair 257 nchars 0 mv v [b64_symbol sym k] Hmv Hv')
      as (ds & -> & Hds & Hval & Hlen & _); [| lia|].
    { rewrite Hmd. split; [apply Z.div_le_lower_bound; lia|].
      apply Z.div_lt_upper_bound; nia. }
    destruct (destringify_digits true k ds rest Hds ltac:(lia) ltac:(lia) ltac:(lia) ltac:(done))
      as (x & Hx & Hxok & Hxv).
    eexists _, _. split; [reflexivity|]. split; [exact Hx|].
    destruct (bigint_shift_up_spec x k Hxok ltac:(unfold in_word; lia)) as [Hsok ->]. split; [done|].
    rewrite Hxv, Hval, Z.shiftl_mul_pow2, Hvd by lia. by apply wrap_small.
  - destruct (stringify_loop_spec sym bin Hpair 257 nchars 0 mval val [] Hmok Hv)
      as (ds & -> & Hds & Hval & Hlen & Hne); [lia|lia|].
    destruct (destringify_digits false 0 ds rest Hds ltac:(lia) ltac:(lia) ltac:(lia) ltac:(auto))
      as (x & Hx & Hxok & Hxv).
    eexists _, _. split; [reflexivity|]. split; [exact Hx|].
    destruct (bigint_shift_up_spec x 0 Hxok ltac:(done)) as [Hsok ->]. split; [done|].
    rewrite Hxv, Hval, Z.shiftl_0_r. by apply wrap_small.
Qed.
End stringify_theorem.

Lemma cc_stringify_roundtrip_witness :
  cc_stringify (B := ref_bigops) base57sym (of_bval 0) true (-1) (of_bval 3000) [] = Ret [68; 106; 71] /\
  exists str x, cc_stringify (B := ref_bigops) base57sym (of_bval 0) true (-1) (of_bval 3000) [] = Ret str
    /\ cc_destringify (B := ref_bigops) base57bin true (Z.of_nat (length str)) (str ++ [48]) = (inr x, [48])
    /\ bigint_ok x /\ bval x = bval (of_bval 3000).
Proof.
  split; [vm_compute; reflexivity|].
  apply (cc_stringify_roundtrip base57sym base57bin).
  - apply table_pairb_ok. vm_compute. reflexivity.
  - apply of_bval_ok.
  - apply of_bval_ok.
  - left. reflexivity.
  - lia.
Defined.
