(* ===== verification/AlphaCode.v ===== *)
(** * Range coding of symbol strings (src/source/cclib/src/encode.cpp, second half)

    [cc_alpha_encode] compresses a string over an alphabet to bytes and
    [cc_alpha_decode] expands it; the encoder picks the shortest prefix that still
    decodes and the best of eleven alphabets.  All arithmetic is on [uint64_t]. *)
From S2P Require Import Prelude Bigint Encode.

Local Open Scope Z_scope.
Local Open Scope cc_scope.

Definition LENGTH_DIFF_OFFSET : Z := 9.

Definition CC_ENC_SHIFT : Z := 48.
Definition CC_ENC_LOWER : Z := 2 ^ CC_ENC_SHIFT - 1.
Definition CC_ENC_UPPER : Z := Z.lxor UINT64_MAX CC_ENC_LOWER.
Definition CC_ENC_MAX : Z := 2 ^ 56.

(** [range_check] asserts this. *)
Definition range_ok (v : Z) : bool := v <? u64 (Z.shiftl CC_ENC_MAX 7).

(** The condition of the renormalisation loops. *)
Definition renorm_needed (md lval hval : Z) : bool :=
  (Z.land (Z.lxor hval lval) CC_ENC_UPPER =? 0) || (hval <? u64 (u64 (lval + md) - 1)).

Definition shift_in (v b : Z) : Z := Z.lor (u64 (Z.shiftl (Z.land v CC_ENC_LOWER) 8)) b.

(** Narrowing of the interval to symbol [c]; [denom] is computed before. *)
Definition narrow (md lval hval c : Z) : Z * Z :=
  let denom := u64 (u64 (hval - lval) + 1) in
  let hval' := u64 (u64 (lval + u64 (u64 (u64 (u32 (c + 1) * denom) + md) - 1) / md) - 1) in
  let lval' := u64 (lval + u64 (u64 (u64 (c * denom) + md) - 1) / md) in
  (lval', hval').

(** *** Encoder *)

Record enc_state := mkEnc {
  bufpos : nat;
  hval : Z;
  lval : Z;
  eofm : Z;
  outv : list Z;
}.

(** The inner loop: the state, and whether [done] was set. *)
Fixpoint enc_renorm (fuel : nat) (md : Z) (nchars : nat) (s : enc_state) : outcome (enc_state * bool) :=
  match fuel with
  | O => Throw FuelOut
  | S f =>
      if renorm_needed md (lval s) (hval s) then
        let b := Z.shiftr (lval s) CC_ENC_SHIFT in
        let hval := shift_in (hval s) 255 in
        let lval := u64 (Z.shiftl (Z.land (lval s) CC_ENC_LOWER) 8) in
        let outv := outv s ++ [u8 b] in
        ccassert! range_ok hval in
        if (bufpos s =? nchars)%nat then
          let eofm := Z.lor (u64 (Z.shiftl (eofm s) 8)) 255 in
          let s := mkEnc (bufpos s) hval lval eofm outv in
          if Z.land (Z.shiftr eofm CC_ENC_SHIFT) 255 =? 255 then Ret (s, true)
          else enc_renorm f md nchars s
        else enc_renorm f md nchars (mkEnc (bufpos s) hval lval (eofm s) outv)
      else Ret (s, false)
  end.

(** The outer loop; [None] is the return value -1. *)
Fixpoint enc_loop (fuel : nat) (table : list Z) (md : Z) (sym : list Z) (s : enc_state)
  : outcome (option (list Z)) :=
  match fuel with
  | O => Throw FuelOut
  | S f =>
      let more := (bufpos s <? length sym)%nat in
      let c := if more then cc_destringify_char table (nth (bufpos s) sym 0) else md / 2 in
      let bufpos := if more then S (bufpos s) else bufpos s in
      if c =? 255 then Ret None
      else
        let '(lval, hval) := narrow md (lval s) (hval s) c in
        ccassert! range_ok hval in
        let! r := enc_renorm 8 md (length sym) (mkEnc bufpos hval lval (eofm s) (outv s)) in
        if snd r then Ret (Some (outv (fst r))) else enc_loop f table md sym (fst r)
  end.

(** The rounds the outer loop can take: one per symbol, and fewer than 60 phantom
    symbols per byte of the end mark. *)
Definition enc_fuel (nchars : nat) : nat := nchars + 480.

Definition cc_alpha_encode (table sym : list Z) (out0 : list Z) (bclear : bool)
  : outcome (option (list Z)) :=
  let out0 := if bclear then [] else out0 in
  let md := cc_table_mod table in
  match sym with
  | [] => Ret (Some out0)
  | _ =>
      if md =? 256 then Ret (Some (out0 ++ sym))
      else
        ccassert! range_ok (CC_ENC_MAX - 1) in
        enc_loop (enc_fuel (length sym)) table md sym (mkEnc 0 (CC_ENC_MAX - 1) 0 0 out0)
  end.

(** *** Decoder *)

Record dec_state := mkDec {
  dpos : nat;
  dhval : Z;
  dlval : Z;
  dval : Z;
}.

Fixpoint dec_renorm (fuel : nat) (md : Z) (buf : list Z) (s : dec_state) : outcome dec_state :=
  match fuel with
  | O => Throw FuelOut
  | S f =>
      if renorm_needed md (dlval s) (dhval s) then
        let b := if (dpos s <? length buf)%nat then nth (dpos s) buf 0 else 128 in
        let hval := shift_in (dhval s) 255 in
        let dval := shift_in (dval s) b in
        let lval := u64 (Z.shiftl (Z.land (dlval s) CC_ENC_LOWER) 8) in
        ccassert! range_ok hval in
        dec_renorm f md buf (mkDec (S (dpos s)) hval lval dval)
      else Ret s
  end.

(** One output symbol per round; [nchars] rounds. *)
Fixpoint dec_loop (nchars : nat) (table : list Z) (md : Z) (buf : list Z) (s : dec_state)
  (outs : list Z) : outcome (list Z) :=
  match nchars with
  | O => Ret outs
  | S n =>
      let! s := dec_renorm 8 md buf s in
      let denom := u64 (u64 (dhval s - dlval s) + 1) in
      let c := u64 (u64 (dval s - dlval s) * md) / denom in
      let '(lval, hval) := (
        u64 (dlval s + u64 (u64 (u64 (c * denom) + md) - 1) / md),
        u64 (u64 (dlval s + u64 (u64 (u64 (u64 (c + 1) * denom) + md) - 1) / md) - 1)) in
      let! ch := cc_stringify_byte table c in
      ccassert! range_ok hval in
      dec_loop n table md buf (mkDec (dpos s) hval lval (dval s)) (outs ++ [ch])
  end.

Definition cc_alpha_decode (table data : list Z) (nchars : nat) (out0 : list Z) (bclear : bool)
  : outcome (list Z) :=
  let md := cc_table_mod table in
  let out0 := if bclear then [] else out0 in
  if (length data =? 0)%nat || (nchars =? 0)%nat then Ret out0
  else if md =? 256 then Ret (out0 ++ take (if (nchars <? length data)%nat then nchars else length data) data)
  else dec_loop nchars table md data (mkDec 0 0 0 0) out0.

(** *** Symbol test, shortest prefix, best alphabet *)

Definition cc_string_uses_symbols (table data : list Z) : bool :=
  if cc_table_mod table =? 256 then true
  else forallb (fun sym => negb (cc_destringify_char table sym =? 255)) data.

(** The test on the length of the decoded string; [int] arithmetic. *)
Definition len_diff_of (table : list Z) (binlength : nat) (nchars : nat) : Z :=
  let expected_len := i32 (cc_table_expected_strlen table (Z.of_nat binlength)) in
  i32 (u32 (expected_len - Z.of_nat nchars)).

Fixpoint shortest_loop (test_size : nat) (decode_table data enc : list Z) (shortest_size : nat)
  : outcome nat :=
  match test_size with
  | O => Ret shortest_size
  | S n =>
      let len_diff := len_diff_of decode_table test_size (length data) + LENGTH_DIFF_OFFSET in
      if (len_diff <? 0) || (15 <? len_diff)
      then shortest_loop n decode_table data enc shortest_size
      else
        let! decoded := cc_alpha_decode decode_table (take test_size enc) (length data) [] true in
        if bool_decide (decoded = data)
        then shortest_loop n decode_table data enc test_size
        else Ret shortest_size
  end.

(** [out0] is what the output vector holds, kept when [bclear] is false. *)
Definition cc_alpha_encode_shortest (encode_table decode_table data out0 : list Z) (bclear : bool)
  : outcome (option (list Z)) :=
  let start_size := length out0 in
  let! r := cc_alpha_encode encode_table data out0 bclear in
  match r with
  | None => Ret None
  | Some out =>
      let size := (length out - start_size)%nat in
      let! shortest_size := shortest_loop size decode_table data (drop start_size out) size in
      Ret (Some (take (start_size + shortest_size) out))
  end.

(** Index 9 pairs [base224bin] with itself, as the source does. *)
Definition best_encode_table : list (list Z) :=
  [base10bin; base16bin; base32bin; base32zbin; base34bin; base38bin; base58bin; base66bin;
   base95bin; base224bin; base256bin].
Definition best_decode_table : list (list Z) :=
  [base10sym; base16sym; base32sym; base32zsym; base34sym; base38sym; base58sym; base66sym;
   base95sym; base224bin; base256sym].

Fixpoint best_loop (tables : list (list Z * list Z)) (i : Z) (data : list Z)
  : outcome (option (list Z)) :=
  match tables with
  | [] => Ret None
  | (etab, dtab) :: tables =>
      let! r := cc_alpha_encode_shortest etab dtab data [u8 (Z.shiftl i 4)] false in
      match r with
      | None => best_loop tables (i + 1) data
      | Some out =>
          let len_diff := len_diff_of dtab (length out - 1) (length data) + LENGTH_DIFF_OFFSET in
          if (len_diff <? 0) || (15 <? len_diff) then best_loop tables (i + 1) data
          else Ret (Some (<[0%nat := Z.lor (nth 0 out 0) len_diff]> out))
      end
  end.

Definition cc_alpha_encode_best (data : list Z) : outcome (option (list Z)) :=
  match data with
  | [] => Ret (Some [])
  | _ => best_loop (zip best_encode_table best_decode_table) 0 data
  end.

(** The process-wide default of the table mapping, set from block timestamps. *)
Definition cc_alpha_set_default_decode_tables (use_old_table_mapping_default : bool) (timestamp : Z) : bool :=
  if 1726100000 <? timestamp then false else use_old_table_mapping_default.

(** [None] is the return value -1; [out0] is the output string before the call. *)
Definition cc_alpha_decode_best (dflt : bool) (data out0 : list Z) (use_old_table_mapping : Z)
  : outcome (option (list Z)) :=
  match data with
  | [] => Ret (Some [])
  | b0 :: rest =>
      let table := Z.shiftr b0 4 in
      let use_old := if use_old_table_mapping <? 0 then dflt else negb (use_old_table_mapping =? 0) in
      let table := if (table =? 9) && use_old then 10 else table in
      if 10 <? table then Ret None
      else
        let dtab := nth (Z.to_nat table) best_decode_table [] in
        let len_diff := Z.land b0 15 - LENGTH_DIFF_OFFSET in
        let expected_len := i32 (cc_table_expected_strlen dtab (Z.of_nat (length rest))) in
        let nchars := i32 (expected_len - len_diff) in
        if nchars <? 0 then Ret (Some out0)
        else let! s := cc_alpha_decode dtab rest (Z.to_nat nchars) out0 true in Ret (Some s)
  end.

(** ** The interval arithmetic over the integers *)

Definition pw (k : nat) : Z := 256 ^ Z.of_nat k.
Definition in56 (v : Z) : Prop := 0 <= v < 2 ^ 56.

(** The interval bounds after [k] renormalisation steps, and the bytes sent. *)
Definition lk (l : Z) (k : nat) : Z := (l mod pw (7 - k)) * pw k.
Definition hk (h : Z) (k : nat) : Z := (h mod pw (7 - k)) * pw k + pw k - 1.
Definition byte_at (l : Z) (k : nat) : Z := (l / pw (6 - k)) mod 256.

(** Case split on a step count of at most seven, powers evaluated. *)
Ltac cases7 n :=
  destruct n as [|[|[|[|[|[|[|[|?n]]]]]]]]; try lia.
Ltac pw_eval :=
  unfold lk, hk, byte_at, in56 in *;
  repeat match goal with
  | |- context [pw ?k] => let r := eval vm_compute in (pw k) in change (pw k) with r
  | H : context [pw ?k] |- _ => let r := eval vm_compute in (pw k) in change (pw k) with r in H
  end;
  repeat match goal with
  | |- context [2 ^ ?k] => let r := eval vm_compute in (2 ^ k) in change (2 ^ k) with r
  | H : context [2 ^ ?k] |- _ => let r := eval vm_compute in (2 ^ k) in change (2 ^ k) with r in H
  end.
Ltac pw_lia := pw_eval; Z.div_mod_to_equations; lia.

Lemma land_lower x : Z.land x CC_ENC_LOWER = x mod 2 ^ 48.
Proof. apply (land_mask x 48). lia. Qed.

Lemma shift_in_eq v b : 0 <= v -> 0 <= b < 256 -> shift_in v b = v mod 2 ^ 48 * 256 + b.
Proof.
  intros Hv Hb. unfold shift_in. rewrite land_lower.
  pose proof (Z.mod_pos_bound v (2 ^ 48) ltac:(lia)). rewrite Z.shiftl_mul_pow2 by lia.
  unfold u64. rewrite wrap_small by (unfold in_word; lia).
  rewrite <- Z.shiftl_mul_pow2 by lia. by apply lor_shiftl_add.
Qed.

Lemma shl_low_eq v : 0 <= v -> u64 (Z.shiftl (Z.land v CC_ENC_LOWER) 8) = v mod 2 ^ 48 * 256.
Proof.
  intros Hv. rewrite land_lower. pose proof (Z.mod_pos_bound v (2 ^ 48) ltac:(lia)).
  rewrite Z.shiftl_mul_pow2 by lia. unfold u64. apply wrap_small. unfold in_word. lia.
Qed.

Lemma renorm_needed_eq md l h : in56 l -> in56 h -> 2 <= md <= 255 ->
  renorm_needed md l h = (l / 2 ^ 48 =? h / 2 ^ 48) || (h <? l + md - 1).
Proof.
  unfold in56. intros Hl Hh Hm. unfold renorm_needed. f_equal.
  - assert (E : Z.land (Z.lxor h l) CC_ENC_UPPER = Z.shiftl (Z.lxor (h / 2 ^ 48) (l / 2 ^ 48)) 48).
    { rewrite <- !Z.shiftr_div_pow2, <- Z.shiftr_lxor by lia. bitwise.
      rewrite Z.land_spec, Z.shiftl_spec by lia.
      change CC_ENC_UPPER with (Z.shiftl (Z.ones 16) 48). rewrite Z.shiftl_spec by lia.
      destruct (Z.lt_ge_cases i 48).
      - rewrite !(Z.testbit_neg_r _ (i - 48)) by lia. apply andb_false_r.
      - rewrite Z.shiftr_spec by lia. replace (i - 48 + 48) with i by lia.
        rewrite Z.testbit_ones_nonneg by lia. destruct (Z.ltb_spec (i - 48) 16); [apply andb_true_r|].
        rewrite andb_false_r, Z.lxor_spec.
        by rewrite (in_word_testbit_high 56 h), (in_word_testbit_high 56 l) by (done || lia). }
    rewrite E, Z.shiftl_mul_pow2 by lia.
    destruct (Z.eqb_spec (l / 2 ^ 48) (h / 2 ^ 48)) as [e|ne].
    + by rewrite e, Z.lxor_nilpotent.
    + apply Z.eqb_neq. intros [H|H]%Z.mul_eq_0; [|lia]. apply Z.lxor_eq in H. lia.
  - f_equal. unfold u64. rewrite !wrap_small; [done|..]; unfold in_word; rewrite ?wrap_small;
      unfold in_word; lia.
Qed.

Lemma lk_range l k : (k <= 7)%nat -> in56 (lk l k).
Proof. intros Hk. cases7 k; pw_lia. Qed.
Lemma hk_range h k : (k <= 7)%nat -> in56 (hk h k).
Proof. intros Hk. cases7 k; pw_lia. Qed.
Lemma lk_0 l : in56 l -> lk l 0 = l.
Proof. intros. pw_lia. Qed.
Lemma hk_0 h : in56 h -> hk h 0 = h.
Proof. intros. pw_lia. Qed.

Lemma lk_step l k : (k < 7)%nat -> u64 (Z.shiftl (Z.land (lk l k) CC_ENC_LOWER) 8) = lk l (S k).
Proof.
  intros Hk. pose proof (lk_range l k ltac:(lia)) as Hr. rewrite shl_low_eq by (unfold in56 in Hr; lia).
  clear Hr. cases7 k; pw_lia.
Qed.

Lemma hk_step h k : (k < 7)%nat -> shift_in (hk h k) 255 = hk h (S k).
Proof.
  intros Hk. pose proof (hk_range h k ltac:(lia)) as Hr. rewrite shift_in_eq by (unfold in56 in Hr; lia).
  clear Hr. cases7 k; pw_lia.
Qed.

Lemma lk_byte l k : (k < 7)%nat -> u8 (Z.shiftr (lk l k) CC_ENC_SHIFT) = byte_at l k.
Proof.
  intros Hk. unfold CC_ENC_SHIFT, u8, wrap. rewrite Z.shiftr_div_pow2 by lia. cases7 k; pw_lia.
Qed.

Lemma hk_range_ok h k : (k <= 7)%nat -> range_ok (hk h k) = true.
Proof.
  intros Hk. pose proof (hk_range h k Hk) as Hr. unfold in56 in Hr. unfold range_ok.
  apply Z.ltb_lt. change (u64 (Z.shiftl CC_ENC_MAX 7)) with (2 ^ 63). lia.
Qed.

(** ** The byte stream, and the decoder's window on it *)

(** The decoder reads phantom bytes 128 past the end of the buffer. *)
Definition stream (buf : list Z) (i : nat) : Z :=
  if (i <? length buf)%nat then nth i buf 0 else 128.

Fixpoint winN (buf : list Z) (q j : nat) : Z :=
  match j with
  | O => 0
  | S i => winN buf q i * 256 + stream buf (q + i)
  end.
Definition win (buf : list Z) (q : nat) : Z := winN buf q 7.

(** The decoder's value after [k] steps that read from position [p] on. *)
Definition dk (d : Z) (buf : list Z) (p k : nat) : Z := (d mod pw (7 - k)) * pw k + winN buf p k.

Lemma stream_range buf i : bytes_ok buf -> 0 <= stream buf i < 256.
Proof.
  intros Hb. unfold stream. destruct (Nat.ltb_spec i (length buf)); [|lia].
  unfold bytes_ok, digits_ok in Hb. rewrite List.Forall_forall in Hb.
  pose proof (Hb _ (nth_In buf 0 H)) as Hn. unfold in_word in Hn. lia.
Qed.

Lemma winN_range buf q j : bytes_ok buf -> 0 <= winN buf q j < pw j.
Proof.
  intros Hb. induction j as [|j IH]; cbn [winN]; [unfold pw; cbn; lia|].
  pose proof (stream_range buf (q + j) Hb). unfold pw in *.
  replace (Z.of_nat (S j)) with (Z.of_nat j + 1) by lia. rewrite Z.pow_add_r by lia. lia.
Qed.

Lemma win_range buf q : bytes_ok buf -> in56 (win buf q).
Proof. apply winN_range. Qed.

Lemma dk_range d buf p k : bytes_ok buf -> (k <= 7)%nat -> in56 (dk d buf p k).
Proof.
  intros Hb Hk. pose proof (winN_range buf p k Hb). unfold dk. generalize dependent (winN buf p k).
  intros x Hx. cases7 k; pw_lia.
Qed.

Lemma dk_step d buf p k : bytes_ok buf -> (k < 7)%nat ->
  shift_in (dk d buf p k) (stream buf (p + k)) = dk d buf p (S k).
Proof.
  intros Hb Hk. pose proof (dk_range d buf p k Hb ltac:(lia)) as Hr. unfold in56 in Hr.
  pose proof (stream_range buf (p + k) Hb). rewrite shift_in_eq by lia. clear Hr.
  pose proof (winN_range buf p k Hb). unfold dk. cbn [winN].
  generalize dependent (winN buf p k). generalize dependent (stream buf (p + k)).
  intros y Hy x Hx. cases7 k; pw_lia.
Qed.

Lemma winN_split buf q a b : winN buf q (a + b) = winN buf q a * pw b + winN buf (q + a) b.
Proof.
  induction b as [|b IH]; [rewrite Nat.add_0_r; unfold pw; cbn; lia|].
  replace (a + S b)%nat with (S (a + b)) by lia. cbn [winN]. rewrite IH.
  replace (q + a + b)%nat with (q + (a + b))%nat by lia. unfold pw.
  replace (Z.of_nat (S b)) with (Z.of_nat b + 1) by lia. rewrite Z.pow_add_r by lia. lia.
Qed.

Lemma pw_pos k : 0 < pw k.
Proof. unfold pw. apply Z.pow_pos_nonneg; lia. Qed.

Lemma win_split buf q a b : (a + b = 7)%nat ->
  win buf q = winN buf q a * pw b + winN buf (q + a) b.
Proof. intros E. unfold win. by rewrite <- E, winN_split. Qed.

(** The window [k] bytes further on. *)
Lemma win_shift buf q k : bytes_ok buf -> (k <= 7)%nat -> dk (win buf q) buf (q + 7) k = win buf (q + k).
Proof.
  intros Hb Hk. unfold dk.
  rewrite (win_split buf q k (7 - k)), (win_split buf (q + k) (7 - k) k) by lia.
  replace (q + k + (7 - k))%nat with (q + 7)%nat by lia.
  pose proof (winN_range buf (q + k) (7 - k) Hb). pose proof (pw_pos (7 - k)).
  rewrite Z.add_comm with (n := winN buf q k * _), Z.mod_add, Z.mod_small by lia. done.
Qed.

(** The window in terms of its first [k] bytes and of the window after them. *)
Lemma win_tail buf q k : bytes_ok buf -> (k <= 7)%nat ->
  win buf q = winN buf q k * pw (7 - k) + win buf (q + k) / pw k.
Proof.
  intros Hb Hk.
  rewrite (win_split buf q k (7 - k)), (win_split buf (q + k) (7 - k) k) by lia.
  pose proof (winN_range buf (q + k + (7 - k)) k Hb). pose proof (pw_pos k).
  rewrite Z.div_add_l, (Z.div_small (winN buf (q + k + (7 - k)) k)) by lia. lia.
Qed.

(** Sent bytes are the leading bytes of the lower bound. *)
Lemma winN_bytes buf q l k : in56 l -> (k <= 7)%nat ->
  (forall i, (i < k)%nat -> stream buf (q + i) = byte_at l i) -> winN buf q k = l / pw (7 - k).
Proof.
  intros Hl Hk. induction k as [|k IH]; intros Hs; cbn [winN].
  - symmetry. apply Z.div_small. exact Hl.
  - rewrite IH, Hs by (lia || (intros; apply Hs; lia)). clear IH Hs. cases7 k; pw_lia.
Qed.

(** ** One renormalisation *)

(** From bounds [l <= h] the loops stop after [n] steps. *)
Definition stops (md l h : Z) (n : nat) : Prop :=
  (n <= 7)%nat /\ (forall k, (k < n)%nat -> renorm_needed md (lk l k) (hk h k) = true)
  /\ renorm_needed md (lk l n) (hk h n) = false.

Lemma stops_exists md l h : 2 <= md <= 255 -> exists n, stops md l h n.
Proof.
  intros Hm.
  assert (H7 : renorm_needed md (lk l 7) (hk h 7) = false).
  { rewrite renorm_needed_eq by (done || apply lk_range || apply hk_range; lia).
    apply orb_false_iff. rewrite Z.eqb_neq, Z.ltb_ge. pw_lia. }
  assert (Hs : forall j, (j <= 7)%nat ->
    (exists n, stops md l h n) \/ (forall k, (k < j)%nat -> renorm_needed md (lk l k) (hk h k) = true)).
  { induction j as [|j IH]; intros Hj; [right; lia|]. destruct IH as [?|IH]; [lia|by left|].
    destruct (renorm_needed md (lk l j) (hk h j)) eqn:E.
    - right. intros k Hk. destruct (decide (k = j)) as [->|]; [done|]. apply IH. lia.
    - left. exists j. split_and!; [lia|done|done]. }
  destruct (Hs 7%nat) as [?|H]; [lia|done|]. exists 7%nat. by split_and!.
Qed.

Lemma needed_cases md l h k : 2 <= md <= 255 -> (k <= 7)%nat ->
  renorm_needed md (lk l k) (hk h k) = true <->
  lk l k / 2 ^ 48 = hk h k / 2 ^ 48 \/ hk h k < lk l k + md - 1.
Proof.
  intros Hm Hk. rewrite renorm_needed_eq by (done || apply lk_range || apply hk_range; lia).
  by rewrite orb_true_iff, Z.eqb_eq, Z.ltb_lt.
Qed.

(** Either the bytes sent are common to both bounds, or all seven bytes were sent. *)
Lemma stops_prefix md l h n : 2 <= md <= 255 -> in56 l -> in56 h -> l <= h -> stops md l h n ->
  l / pw (7 - n) = h / pw (7 - n) \/ n = 7%nat.
Proof.
  intros Hm Hl Hh Hle (Hn & Hneed & Hstop).
  assert (Hcross : forall k, (k <= n)%nat -> l / pw (7 - k) = h / pw (7 - k) \/
    ((0 < n)%nat /\ l / 2 ^ 48 <> h / 2 ^ 48 /\ h < l + md - 1)).
  { induction k as [|k IH]; intros Hk; [left; pw_lia|].
    destruct IH as [IH|?]; [lia| |by right].
    pose proof (Hneed k ltac:(lia)) as Hneed'. apply needed_cases in Hneed'; [|done|lia].
    destruct (decide (k = 0%nat)) as [->|Hk0].
    - rewrite lk_0, hk_0 in Hneed' by done.
      destruct (Z.eq_dec (l / 2 ^ 48) (h / 2 ^ 48)) as [e|ne]; [left; exact e|].
      right. split_and!; [lia|done|lia].
    - left. clear Hneed Hstop. cases7 k; pw_lia. }
  destruct (Hcross n ltac:(lia)) as [?|(Hpos & Hne & Hd)]; [by left|right].
  destruct (decide (n = 7%nat)) as [|Hn7]; [done|exfalso].
  assert (Ht : renorm_needed md (lk l n) (hk h n) = true); [|congruence].
  apply needed_cases; [done|lia|]. right. clear Hneed Hstop Hcross. cases7 n; pw_lia.
Qed.

(** Comparison of the bounds and the window with the last [e] bytes left open. *)
Definition inF (e : nat) (l w h : Z) : Prop := l / pw e <= w / pw e <= h / pw e.

(** Pulling the comparison back through a renormalisation. *)
Lemma inF_back md e n l h buf q : 2 <= md <= 255 -> in56 l -> in56 h -> l <= h ->
  bytes_ok buf -> stops md l h n -> (n + e <= 7)%nat ->
  (forall i, (i < n)%nat -> stream buf (q + i) = byte_at l i) ->
  inF (e + n) (lk l n) (win buf (q + n)) (hk h n) -> inF e l (win buf q) h.
Proof.
  intros Hm Hl Hh Hle Hb Hst Hne Hbytes Hin. pose proof Hst as (Hn & _ & _).
  pose proof (stops_prefix _ _ _ _ Hm Hl Hh Hle Hst) as Hpre.
  pose proof (win_range buf (q + n) Hb) as Hw.
  unfold inF in *. rewrite (win_tail buf q n Hb Hn), (winN_bytes buf q l n Hl Hn Hbytes).
  generalize dependent (win buf (q + n)). intros w Hin Hw. clear Hst Hbytes Hb.
  cases7 n; cases7 e; pw_eval; Z.div_mod_to_equations; lia.
Qed.

(** *** The loops compute [lk], [hk] and [dk] *)

Definition sent (l : Z) (k n : nat) : list Z := map (byte_at l) (seq k n).

(** While input symbols remain the encoder sends bytes until the loop stops. *)
Lemma enc_renorm_open f md nchars pos l h eof out n k : 2 <= md <= 255 ->
  stops md l h n -> (k <= n)%nat -> (n - k < f)%nat -> pos <> nchars ->
  enc_renorm f md nchars (mkEnc pos (hk h k) (lk l k) eof out)
  = Ret (mkEnc pos (hk h n) (lk l n) eof (out ++ sent l k (n - k)), false).
Proof.
  intros Hm (Hn & Hneed & Hstop). revert k out. induction f as [|f IH]; intros k out Hk Hf Hpos; [lia|].
  cbn [enc_renorm lval hval eofm outv bufpos]. destruct (decide (k = n)) as [->|Hkn].
  - rewrite Hstop, Nat.sub_diag. unfold sent. cbn [seq map]. by rewrite app_nil_r.
  - rewrite Hneed, lk_step, hk_step, lk_byte, hk_range_ok by lia.
    destruct (Nat.eqb_spec pos nchars); [done|]. rewrite IH by lia.
    rewrite <- app_assoc. unfold sent. by replace (n - k)%nat with (S (n - S k)) by lia.
Qed.

(** After the last symbol it stops early once seven bytes have been sent. *)
Lemma enc_renorm_end f md nchars l h out n e k : 2 <= md <= 255 ->
  stops md l h n -> (k <= n)%nat -> (n - k < f)%nat -> (e + k < 7)%nat ->
  enc_renorm f md nchars (mkEnc nchars (hk h k) (lk l k) (pw (e + k) - 1) out)
  = if (e + n <? 7)%nat
    then Ret (mkEnc nchars (hk h n) (lk l n) (pw (e + n) - 1) (out ++ sent l k (n - k)), false)
    else Ret (mkEnc nchars (hk h (7 - e)) (lk l (7 - e)) (pw 7 - 1) (out ++ sent l k (7 - e - k)), true).
Proof.
  intros Hm (Hn & Hneed & Hstop). revert k out. induction f as [|f IH]; intros k out Hk Hf He; [lia|].
  cbn [enc_renorm lval hval eofm outv bufpos]. destruct (decide (k = n)) as [->|Hkn].
  - rewrite Hstop, Nat.sub_diag. destruct (Nat.ltb_spec (e + n) 7); [|lia].
    unfold sent. cbn [seq map]. by rewrite app_nil_r.
  - rewrite Hneed, lk_step, hk_step, lk_byte, hk_range_ok by lia.
    rewrite Nat.eqb_refl.
    assert (Heof : Z.lor (u64 (Z.shiftl (pw (e + k) - 1) 8)) 255 = pw (e + S k) - 1).
    { replace (e + S k)%nat with (S (e + k)) by lia. clear - He.
      generalize dependent (e + k)%nat. intros j Hj. cases7 j; vm_compute; reflexivity. }
    rewrite Heof. destruct (decide (e + S k = 7)%nat) as [E7|].
    + rewrite E7. change (Z.land (Z.shiftr (pw 7 - 1) CC_ENC_SHIFT) 255 =? 255) with true. cbv iota.
      destruct (Nat.ltb_spec (e + n) 7); [lia|].
      replace (7 - e)%nat with (S k) by lia. replace (S k - k)%nat with 1%nat by lia. done.
    + assert (Hd : (Z.land (Z.shiftr (pw (e + S k) - 1) CC_ENC_SHIFT) 255 =? 255) = false).
      { assert (e + S k < 7)%nat as Hlt by lia. clear - Hlt.
        generalize dependent (e + S k)%nat. intros j Hj. cases7 j; vm_compute; reflexivity. }
      rewrite Hd, IH by lia. unfold sent. destruct (e + n <? 7)%nat; rewrite <- app_assoc.
      * by replace (n - k)%nat with (S (n - S k)) by lia.
      * by replace (7 - e - k)%nat with (S (7 - e - S k)) by lia.
Qed.

Lemma dec_renorm_steps f md buf l h d p n k : 2 <= md <= 255 -> bytes_ok buf ->
  stops md l h n -> (k <= n)%nat -> (n - k < f)%nat ->
  dec_renorm f md buf (mkDec (p + k) (hk h k) (lk l k) (dk d buf p k))
  = Ret (mkDec (p + n) (hk h n) (lk l n) (dk d buf p n)).
Proof.
  intros Hm Hb (Hn & Hneed & Hstop). revert k. induction f as [|f IH]; intros k Hk Hf; [lia|].
  cbn [dec_renorm dlval dhval dval dpos]. destruct (decide (k = n)) as [->|Hkn]; [by rewrite Hstop|].
  rewrite Hneed by lia. fold (stream buf (p + k)).
  rewrite lk_step, hk_step, hk_range_ok, dk_step by (done || lia).
  replace (S (p + k)) with (p + S k)%nat by lia. apply IH; lia.
Qed.

Lemma dk_0 d buf p : in56 d -> dk d buf p 0 = d.
Proof. intros. unfold dk. cbn [winN]. pw_lia. Qed.

(** The decoder in step with the encoder. *)
Lemma dec_renorm_win md buf l h q n : 2 <= md <= 255 -> bytes_ok buf -> in56 l -> in56 h ->
  stops md l h n ->
  dec_renorm 8 md buf (mkDec (q + 7) h l (win buf q))
  = Ret (mkDec (q + n + 7) (hk h n) (lk l n) (win buf (q + n))).
Proof.
  intros Hm Hb Hl Hh Hst. pose proof Hst as (Hn & _).
  pose proof (dec_renorm_steps 8 md buf l h (win buf q) (q + 7) n 0 Hm Hb Hst ltac:(lia) ltac:(lia)) as H.
  rewrite hk_0, lk_0, dk_0, Nat.add_0_r in H by (done || by apply win_range).
  rewrite H, win_shift by done. do 2 f_equal. lia.
Qed.

Lemma dec_renorm_start md buf : 2 <= md <= 255 -> bytes_ok buf ->
  dec_renorm 8 md buf (mkDec 0 0 0 0) = Ret (mkDec 7 (CC_ENC_MAX - 1) 0 (win buf 0)).
Proof.
  intros Hm Hb.
  assert (Hst : stops md 0 0 7).
  { split_and!; [done| |].
    - intros k Hk. apply needed_cases; [done|lia|]. left. cases7 k; reflexivity.
    - apply not_true_iff_false. rewrite needed_cases by (done || lia).
      change (lk 0 7) with 0. change (hk 0 7) with (2 ^ 56 - 1). change (0 / 2 ^ 48) with 0.
      change ((2 ^ 56 - 1) / 2 ^ 48) with 255. lia. }
  pose proof (dec_renorm_steps 8 md buf 0 0 0 0 7 0 Hm Hb Hst ltac:(lia) ltac:(lia)) as H.
  rewrite hk_0, lk_0, dk_0 in H by (unfold in56; lia). exact H.
Qed.

(** ** Narrowing *)

(** Bounds left by a loop: at least [md] values, no common byte. *)
Record norm (md l h : Z) : Prop := {
  nm_l : 0 <= l;
  nm_h : h < 2 ^ 56;
  nm_size : l + md - 1 <= h;
  nm_stop : renorm_needed md l h = false;
}.

Lemma stops_norm md l h n : 2 <= md <= 255 -> in56 l -> in56 h -> stops md l h n ->
  norm md (lk l n) (hk h n).
Proof.
  intros Hm Hl Hh (Hn & _ & Hstop). pose proof (lk_range l n Hn). pose proof (hk_range h n Hn).
  assert (~ (lk l n / 2 ^ 48 = hk h n / 2 ^ 48 \/ hk h n < lk l n + md - 1)).
  { intros H'. apply needed_cases in H'; [|done|done]. congruence. }
  unfold in56 in *. constructor; [lia|lia|lia|done].
Qed.

Lemma norm_stops md l h : 2 <= md <= 255 -> norm md l h -> in56 l /\ in56 h /\ stops md l h 0.
Proof.
  intros Hm Hn. pose proof (nm_l _ _ _ Hn). pose proof (nm_h _ _ _ Hn). pose proof (nm_size _ _ _ Hn).
  assert (Hl : in56 l) by (unfold in56; lia). assert (Hh : in56 h) by (unfold in56; lia).
  split_and!; [done|done|]. split_and!; [lia|lia|]. rewrite lk_0, hk_0 by done. apply (nm_stop _ _ _ Hn).
Qed.

Definition cdiv (md x : Z) : Z := (x + md - 1) / md.

Lemma cdiv_spec md x : 0 < md -> x <= md * cdiv md x < x + md.
Proof. intros. unfold cdiv. Z.div_mod_to_equations. nia. Qed.

Lemma narrow_eq md l h c : 2 <= md <= 255 -> norm md l h -> 0 <= c < md ->
  let D := h - l + 1 in
  narrow md l h c = (l + cdiv md (c * D), l + cdiv md ((c + 1) * D) - 1).
Proof.
  intros Hm [] Hc D.
  assert (HD : 0 < D <= 2 ^ 56) by lia.
  assert (Hb : 0 <= c * D <= 255 * 2 ^ 56) by nia.
  assert (Hb1 : 0 <= (c + 1) * D <= 255 * 2 ^ 56) by nia.
  assert (Hq : forall x, 0 <= x <= 255 * 2 ^ 56 -> 0 <= cdiv md x < 2 ^ 63).
  { intros x Hx. pose proof (cdiv_spec md x ltac:(lia)). nia. }
  unfold narrow. replace (u64 (u64 (h - l) + 1)) with D.
  2:{ unfold u64. rewrite (wrap_small 64 (h - l)), wrap_small; unfold in_word; lia. }
  pose proof (Hq _ Hb) as Hq0. pose proof (Hq _ Hb1) as Hq1. unfold cdiv in *.
  assert (Hpos : 0 < (c + 1) * D) by nia.
  assert (Hq2 : 1 <= ((c + 1) * D + md - 1) / md) by (apply Z.div_le_lower_bound; lia).
  unfold u64, u32. rewrite (wrap_small 32 (c + 1)) by (unfold in_word; lia).
  rewrite (wrap_small 64 (c * D)), (wrap_small 64 ((c + 1) * D)) by (unfold in_word; lia).
  rewrite (wrap_small 64 (c * D + md)), (wrap_small 64 ((c + 1) * D + md)) by (unfold in_word; lia).
  rewrite (wrap_small 64 (c * D + md - 1)), (wrap_small 64 ((c + 1) * D + md - 1)) by (unfold in_word; lia).
  rewrite (wrap_small 64 (l + (c * D + md - 1) / md)) by (unfold in_word; lia).
  rewrite (wrap_small 64 (l + ((c + 1) * D + md - 1) / md)) by (unfold in_word; lia).
  rewrite wrap_small by (unfold in_word; lia). done.
Qed.

(** The interval of a symbol, and the symbol found from a value in it. *)
Lemma narrow_spec md l h c : 2 <= md <= 255 -> norm md l h -> 0 <= c < md ->
  exists l1 h1, narrow md l h c = (l1, h1) /\ l <= l1 /\ l1 <= h1 /\ h1 <= h
    /\ 2 * (h1 - l1 + 1) <= h - l + 2 /\ (8 <= md -> 4 * (h1 - l1 + 1) <= h - l + 1)
    /\ forall w, l1 <= w <= h1 -> (w - l) * md / (h - l + 1) = c.
Proof.
  intros Hm Hn Hc. rewrite (narrow_eq md l h c) by done. destruct Hn as [Hl Hh Hs _].
  set (D := h - l + 1) in *. eexists _, _. split; [reflexivity|].
  pose proof (cdiv_spec md (c * D) ltac:(lia)) as H0.
  pose proof (cdiv_spec md ((c + 1) * D) ltac:(lia)) as H1.
  assert (HD : md <= D) by lia.
  generalize dependent (cdiv md (c * D)). intros a Ha.
  generalize dependent (cdiv md ((c + 1) * D)). intros b Hb.
  assert (0 <= a) by nia. assert (a < b) by nia. assert (b <= D) by nia.
  split_and!; [lia|lia|lia| | |].
  - assert (2 * (b - a) <= D + 1); [|lia]. clear - Ha Hb Hm HD. nia.
  - intros H8. assert (8 * (b - a - 1) <= D - 1); [|lia].
    assert (Hmul : md * (b - a - 1) <= D - 1) by nia. assert (Hpos : 0 <= b - a - 1) by lia.
    clear - Hmul Hpos H8. nia.
  - intros w Hw. symmetry. apply Z.div_unique_pos with ((w - l) * md - D * c); [|lia].
    split; nia.
Qed.

(** ** Encoder and decoder in lockstep *)

(** One decoded symbol. *)
Lemma dec_symbol symt md m buf l h c l1 h1 ch q outs : 2 <= md <= 255 -> norm md l h -> bytes_ok buf -> 0 <= c < md ->
  narrow md l h c = (l1, h1) -> (forall w, l1 <= w <= h1 -> (w - l) * md / (h - l + 1) = c) ->
  l <= l1 -> l1 <= h1 -> h1 <= h -> l1 <= win buf q <= h1 -> cc_stringify_byte symt c = Ret ch ->
  dec_loop (S m) symt md buf (mkDec (q + 7) h l (win buf q)) outs
  = dec_loop m symt md buf (mkDec (q + 7) h1 l1 (win buf q)) (outs ++ [ch]).
Proof.
  intros Hm Hn Hb Hc Hnar Hdec Hl1 Hlh Hh1 Hw Hch.
  destruct (norm_stops md l h Hm Hn) as (I & J & Hst). unfold in56 in I, J.
  cbn [dec_loop]. pose proof (dec_renorm_win md buf l h q 0 Hm Hb I J Hst) as Hr.
  rewrite hk_0, lk_0, Nat.add_0_r in Hr by done. rewrite Hr. cbn [outcome_bind dhval dlval dval dpos].
  assert (Hden : u64 (u64 (h - l) + 1) = h - l + 1).
  { unfold u64. rewrite (wrap_small 64 (h - l)), wrap_small; unfold in_word; lia. }
  assert (Hcd : u64 (u64 (win buf q - l) * md) / u64 (u64 (h - l) + 1) = c).
  { rewrite Hden, <- (Hdec _ Hw). f_equal. unfold u64.
    rewrite (wrap_small 64 (win buf q - l)), wrap_small; unfold in_word; nia. }
  rewrite Hcd, Hch. unfold narrow in Hnar.
  assert (Hu : u64 (c + 1) = u32 (c + 1)).
  { unfold u64, u32. rewrite !wrap_small; unfold in_word; lia. }
  rewrite Hu. injection Hnar as -> ->. cbn [outcome_bind].
  pose proof (hk_range_ok h1 0 ltac:(lia)) as Hrok. rewrite hk_0 in Hrok by (unfold in56; lia).
  by rewrite Hrok.
Qed.

Lemma dec_loop_renorm symt md m buf l h q n outs : 2 <= md <= 255 -> norm md (lk l n) (hk h n) -> bytes_ok buf ->
  in56 l -> in56 h -> stops md l h n ->
  dec_loop (S m) symt md buf (mkDec (q + 7) h l (win buf q)) outs
  = dec_loop (S m) symt md buf (mkDec (q + n + 7) (hk h n) (lk l n) (win buf (q + n))) outs.
Proof.
  intros Hm Hn Hb Hl Hh Hst. cbn [dec_loop].
  rewrite (dec_renorm_win md buf l h q n) by done.
  destruct (norm_stops md _ _ Hm Hn) as (I & J & Hst').
  pose proof (dec_renorm_win md buf _ _ (q + n) 0 Hm Hb I J Hst') as Hr.
  rewrite hk_0, lk_0, Nat.add_0_r in Hr by done. by rewrite Hr.
Qed.

Section lossless.
Context (symt bint : list Z) (Hpair : table_pair symt bint).
Abbreviation md := (cc_table_mod bint).

Lemma md_range : 2 <= md <= 255.
Proof. apply (tp_range _ _ Hpair). Qed.

(** The bytes [e] are in [buf] from [q] on. *)
Definition at_pos (buf : list Z) (q : nat) (e : list Z) : Prop :=
  forall i b, e !! i = Some b -> stream buf (q + i) = b.

Lemma at_pos_app buf q e1 e2 : at_pos buf q (e1 ++ e2) ->
  at_pos buf q e1 /\ at_pos buf (q + length e1) e2.
Proof.
  intros H. split; intros i b Hi.
  - apply H. by apply lookup_app_l_Some.
  - rewrite <- Nat.add_assoc. apply H. rewrite lookup_app_r by lia.
    by replace (length e1 + i - length e1)%nat with i by lia.
Qed.

Lemma at_pos_sent buf q l n : at_pos buf q (sent l 0 n) ->
  forall i, (i < n)%nat -> stream buf (q + i) = byte_at l i.
Proof.
  intros H i Hi. apply H. unfold sent. rewrite list_lookup_fmap, lookup_seq_lt by done. done.
Qed.

Lemma length_sent l k n : length (sent l k n) = n.
Proof. unfold sent. by rewrite length_map, length_seq. Qed.

Lemma inF_narrow e l l1 w h1 h : l <= l1 -> h1 <= h -> inF e l1 w h1 -> inF e l w h.
Proof.
  intros Hl Hh [H1 H2]. pose proof (pw_pos e).
  pose proof (Z.div_le_mono l l1 (pw e) ltac:(lia) Hl). pose proof (Z.div_le_mono h1 h (pw e) ltac:(lia) Hh).
  unfold inF. lia.
Qed.

(** One step of the outer loop after the input is exhausted: a phantom symbol. *)
Lemma enc_end f sym e k l h out : norm md l h -> (e < 7)%nat ->
  h - l + 1 <= 2 ^ Z.of_nat k + 1 -> (58 * (6 - e) + k + 2 <= f)%nat -> (k <= 56)%nat ->
  exists t, enc_loop f bint md sym (mkEnc (length sym) h l (pw e - 1) out) = Ret (Some (out ++ t))
    /\ (length t = 7 - e)%nat
    /\ forall buf q, bytes_ok buf -> at_pos buf q t -> inF e l (win buf q) h.
Proof.
  pose proof md_range as Hm. revert e k l h out.
  induction f as [|f IH]; intros e k l h out Hn He Hk Hf Hk56; [lia|].
  cbn [enc_loop bufpos hval lval eofm outv]. rewrite Nat.ltb_irrefl.
  assert (Hc : 0 <= md / 2 < md) by (split; [apply Z.div_pos|apply Z.div_lt]; lia).
  destruct (Z.eqb_spec (md / 2) 255) as [?|_]; [lia|].
  destruct (narrow_spec md l h (md / 2) Hm Hn Hc) as (l1 & h1 & -> & Hl1 & Hlh & Hh1 & Hhalf & _ & _).
  pose proof (nm_l _ _ _ Hn) as Hl0. pose proof (nm_h _ _ _ Hn) as Hh0.
  assert (I1 : in56 l1) by (unfold in56; lia). assert (J1 : in56 h1) by (unfold in56; lia).
  pose proof (hk_range_ok h1 0 ltac:(lia)) as Hrok. rewrite hk_0 in Hrok by done. rewrite Hrok.
  destruct (stops_exists md l1 h1 Hm) as [n Hst].
  pose proof (enc_renorm_end 8 md (length sym) l1 h1 out n e 0 Hm Hst ltac:(lia)) as Hren.
  pose proof Hst as (Hn7 & Hneed & Hstop).
  rewrite hk_0, lk_0, Nat.add_0_r in Hren by done. rewrite Hren by lia. clear Hren.
  destruct (Nat.ltb_spec (e + n) 7) as [Hlt|Hge]; cbn [outcome_bind fst snd].
  - pose proof (stops_norm md l1 h1 n Hm I1 J1 Hst) as Hn1.
    assert (Hk' : exists k', (k' <= 56)%nat /\ hk h1 n - lk l1 n + 1 <= 2 ^ Z.of_nat k' + 1
              /\ (58 * (6 - (e + n)) + k' + 2 <= f)%nat).
    { destruct n as [|n].
      - rewrite hk_0, lk_0 in * by done. destruct k as [|k].
        + exfalso. change (2 ^ Z.of_nat 0) with 1 in Hk. pose proof (nm_size _ _ _ Hn1). lia.
        + exists k. replace (Z.of_nat (S k)) with (Z.of_nat k + 1) in Hk by lia.
          rewrite Z.pow_add_r in Hk by lia. change (2 ^ 1) with 2 in Hk. lia.
      - exists 56%nat. pose proof (nm_l _ _ _ Hn1). pose proof (nm_h _ _ _ Hn1).
        change (2 ^ Z.of_nat 56) with (2 ^ 56). lia. }
    destruct Hk' as (k' & Hk'1 & Hk'2 & Hk'3).
    destruct (IH (e + n)%nat k' (lk l1 n) (hk h1 n) (out ++ sent l1 0 (n - 0)) Hn1 Hlt Hk'2 Hk'3 Hk'1)
      as (t & -> & Hlt7 & Ht).
    exists (sent l1 0 n ++ t). rewrite Nat.sub_0_r, <- app_assoc. split; [done|].
    split; [rewrite length_app, length_sent; lia|].
    intros buf q Hb Hat. apply at_pos_app in Hat as [Hat1 Hat2]. rewrite length_sent in Hat2.
    apply (inF_narrow e l l1 _ h1 h Hl1 Hh1).
    apply (inF_back md e n l1 h1 buf q); try done; [lia|by apply at_pos_sent|by apply Ht].
  - exists (sent l1 0 (7 - e)). rewrite Nat.sub_0_r. split; [done|]. split; [by rewrite length_sent|].
    intros buf q Hb Hat. apply (inF_narrow e l l1 _ h1 h Hl1 Hh1).
    unfold inF. rewrite (win_tail buf q (7 - e)), (winN_bytes buf q l1 (7 - e)) by
      (done || lia || by apply at_pos_sent).
    replace (7 - (7 - e))%nat with e by lia. pose proof (pw_pos e).
    pose proof (win_range buf (q + (7 - e)) Hb) as Hw.
    rewrite Z.div_add_l by lia. rewrite (Z.div_small (_ / _)).
    + pose proof (Z.div_le_mono l1 h1 (pw e) ltac:(lia) Hlh). lia.
    + unfold in56 in Hw. generalize dependent (win buf (q + (7 - e))). intros w Hw.
      cases7 e; pw_lia.
Qed.

(** What the encoder sends from a state on, and what the decoder makes of it. *)
Definition sends (f : nat) (sym : list Z) (m : nat) (l h : Z) : Prop :=
  forall out, exists t,
    enc_loop f bint md sym (mkEnc (length sym - m) h l 0 out) = Ret (Some (out ++ t))
    /\ (7 <= length t <= 7 * m)%nat /\ (8 <= md -> 4 ^ Z.of_nat m <= (h - l + 1) * pw (length t - 7))
    /\ forall buf q, bytes_ok buf -> at_pos buf q t ->
         inF 0 l (win buf q) h /\ forall outs,
         dec_loop m symt md buf (mkDec (q + 7) h l (win buf q)) outs
         = Ret (outs ++ drop (length sym - m) sym).

Lemma inF_0 l w h : inF 0 l w h <-> l <= w <= h.
Proof. unfold inF, pw. cbn. by rewrite !Z.div_1_r. Qed.

Lemma inF_coarser e l w h : inF 0 l w h -> inF e l w h.
Proof.
  rewrite inF_0. intros [H1 H2]. pose proof (pw_pos e). split; apply Z.div_le_mono; lia.
Qed.

(** The renormalisation after the last symbol, and the end mark. *)
Lemma sends_last f sym l1 h1 : in56 l1 -> in56 h1 -> l1 <= h1 -> (464 <= f)%nat ->
  forall out, exists t,
    (let! r := enc_renorm 8 md (length sym) (mkEnc (length sym) h1 l1 0 out) in
     if snd r then Ret (Some (outv (fst r))) else enc_loop f bint md sym (fst r))
    = Ret (Some (out ++ t))
    /\ (length t = 7)%nat
    /\ forall buf q, bytes_ok buf -> at_pos buf q t -> inF 0 l1 (win buf q) h1.
Proof.
  pose proof md_range as Hm. intros I1 J1 Hlh Hf out.
  destruct (stops_exists md l1 h1 Hm) as [n Hst]. pose proof Hst as (Hn7 & _ & _).
  pose proof (enc_renorm_end 8 md (length sym) l1 h1 out n 0 0 Hm Hst ltac:(lia) ltac:(lia) ltac:(lia)) as Hr.
  rewrite hk_0, lk_0, Nat.add_0_r, Nat.add_0_l in Hr by done. change (pw 0 - 1) with 0 in Hr.
  rewrite Hr. rewrite !Nat.sub_0_r. clear Hr. destruct (Nat.ltb_spec n 7); cbn [outcome_bind fst snd outv].
  - pose proof (stops_norm md l1 h1 n Hm I1 J1 Hst) as Hn1.
    destruct (enc_end f sym n 56 (lk l1 n) (hk h1 n) (out ++ sent l1 0 n) Hn1 ltac:(lia)) as (t & -> & Hlt7 & Ht).
    + pose proof (nm_l _ _ _ Hn1). pose proof (nm_h _ _ _ Hn1). change (2 ^ Z.of_nat 56) with (2 ^ 56). lia.
    + lia.
    + lia.
    + exists (sent l1 0 n ++ t). rewrite <- app_assoc. split; [done|].
      split; [rewrite length_app, length_sent; lia|].
      intros buf q Hb Hat. apply at_pos_app in Hat as [Hat1 Hat2]. rewrite length_sent in Hat2.
      apply (inF_back md 0 n l1 h1 buf q); try done; [lia|by apply at_pos_sent|by apply Ht].
  - exists (sent l1 0 7). split; [done|]. split; [by rewrite length_sent|]. intros buf q Hb Hat.
    rewrite inF_0, (win_tail buf q 7), (winN_bytes buf q l1 7) by (done || lia || by apply at_pos_sent).
    pose proof (win_range buf (q + 7) Hb) as Hw. unfold in56 in Hw. rewrite (Z.div_small _ (pw 7)) by exact Hw.
    pw_eval. Z.div_mod_to_equations; lia.
Qed.

(** Sending [n] bytes multiplies the size of the interval by at most [256 ^ n]. *)
Lemma potential_step md l1 h1 n m L D : 2 <= md <= 255 -> in56 l1 -> in56 h1 -> l1 <= h1 ->
  stops md l1 h1 n -> (7 <= L)%nat -> 4 * (h1 - l1 + 1) <= D ->
  4 ^ Z.of_nat m <= (hk h1 n - lk l1 n + 1) * pw (L - 7) ->
  4 ^ Z.of_nat (S m) <= D * pw (n + L - 7).
Proof.
  intros Hm Hl Hh Hle Hst HL HD Hpot. pose proof Hst as (Hn & _ & _).
  assert (Hgrow : hk h1 n - lk l1 n + 1 <= (h1 - l1 + 1) * pw n).
  { pose proof (stops_prefix _ _ _ _ Hm Hl Hh Hle Hst) as Hpre. clear - Hn Hpre Hl Hh Hle.
    cases7 n; pw_lia. }
  assert (E : pw (n + L - 7) = pw n * pw (L - 7)).
  { unfold pw. rewrite <- Z.pow_add_r by lia. f_equal. lia. }
  pose proof (pw_pos n). pose proof (pw_pos (L - 7)).
  rewrite E. replace (Z.of_nat (S m)) with (Z.of_nat m + 1) by lia. rewrite Z.pow_add_r by lia.
  change (4 ^ 1) with 4. 
  assert ((hk h1 n - lk l1 n + 1) * pw (L - 7) <= (h1 - l1 + 1) * pw n * pw (L - 7)) by nia.
  assert (4 * (h1 - l1 + 1) * (pw n * pw (L - 7)) <= D * (pw n * pw (L - 7))) by nia. lia.
Qed.

Lemma enc_open f sym m l h : bytes_ok sym ->
  Forall (fun ch => cc_destringify_char bint ch <> 255) sym ->
  (S m <= length sym)%nat -> norm md l h -> (m + 465 <= f)%nat -> sends f sym (S m) l h.
Proof.
  pose proof md_range as Hm. intros Hs Hval. revert m l h.
  induction f as [|f IH]; intros m l h Hlen Hn Hf out; [lia|].
  set (pos := (length sym - S m)%nat).
  assert (Hpos : (pos < length sym)%nat) by lia.
  destruct (lookup_lt_is_Some_2 sym pos Hpos) as [ch Hch].
  assert (Hcok : byte_ok ch) by (unfold bytes_ok, digits_ok in Hs; rewrite Forall_lookup in Hs; by eapply Hs).
  rewrite Forall_lookup in Hval. pose proof (Hval _ _ Hch) as Hne.
  destruct (tp_destringify _ _ Hpair ch Hcok Hne) as [Hc Hstr].
  cbn [enc_loop bufpos hval lval eofm outv]. destruct (Nat.ltb_spec pos (length sym)) as [_|]; [|lia].
  rewrite (nth_lookup_Some _ _ 0 _ Hch). set (c := cc_destringify_char bint ch) in *.
  destruct (Z.eqb_spec c 255) as [?|_]; [done|].
  destruct (narrow_spec md l h c Hm Hn Hc) as (l1 & h1 & Hnar & Hl1 & Hlh & Hh1 & _ & Hquart & Hdec).
  rewrite Hnar. pose proof (nm_l _ _ _ Hn). pose proof (nm_h _ _ _ Hn).
  assert (I1 : in56 l1) by (unfold in56; lia). assert (J1 : in56 h1) by (unfold in56; lia).
  pose proof (hk_range_ok h1 0 ltac:(lia)) as Hrok. rewrite hk_0 in Hrok by done. rewrite Hrok.
  assert (Hdrop : drop pos sym = ch :: drop (S pos) sym) by (by apply drop_S).
  destruct m as [|m].
  - replace (S pos) with (length sym) in * by lia.
    destruct (sends_last f sym l1 h1 I1 J1 Hlh ltac:(lia) out) as (t & -> & Hlt7 & Ht).
    exists t. split; [done|]. split; [lia|]. split.
    { intros H8. rewrite Hlt7. change (4 ^ Z.of_nat 1) with 4. change (pw (7 - 7)) with 1.
      specialize (Hquart H8). lia. }
    intros buf q Hb Hat. pose proof (Ht buf q Hb Hat) as Hw.
    split; [by apply (inF_narrow 0 l l1 _ h1 h)|]. intros outs. rewrite inF_0 in Hw.
    rewrite (dec_symbol symt md 0 buf l h c l1 h1 ch) by done. cbn [dec_loop]. by rewrite Hdrop, drop_all.
  - destruct (stops_exists md l1 h1 Hm) as [n Hst]. pose proof Hst as (Hn7 & _ & _).
    pose proof (enc_renorm_open 8 md (length sym) (S pos) l1 h1 0 out n 0 Hm Hst ltac:(lia) ltac:(lia) ltac:(lia)) as Hr.
    rewrite hk_0, lk_0, Nat.sub_0_r in Hr by done. rewrite Hr. clear Hr. cbn [outcome_bind fst snd].
    pose proof (stops_norm md l1 h1 n Hm I1 J1 Hst) as Hn1.
    replace (S pos) with (length sym - S m)%nat in * by lia.
    destruct (IH m (lk l1 n) (hk h1 n) ltac:(lia) Hn1 ltac:(lia) (out ++ sent l1 0 n)) as (t & -> & Hlt7 & Hpot & Ht).
    exists (sent l1 0 n ++ t). rewrite <- app_assoc. split; [done|].
    rewrite length_app, length_sent. split; [lia|]. split.
    { intros H8. specialize (Hpot H8). specialize (Hquart H8).
      apply (potential_step md l1 h1 n (S m) (length t)); done || lia. }
    intros buf q Hb Hat. apply at_pos_app in Hat as [Hat1 Hat2]. rewrite length_sent in Hat2.
    destruct (Ht buf (q + n)%nat Hb Hat2) as [Hin Hdl].
    assert (Hw : inF 0 l1 (win buf q) h1)
      by (apply (inF_back md 0 n l1 h1 buf q); (done || lia || by apply at_pos_sent || by apply inF_coarser)).
    split; [by apply (inF_narrow 0 l l1 _ h1 h)|]. intros outs. rewrite inF_0 in Hw.
    rewrite (dec_symbol symt md (S m) buf l h c l1 h1 ch), (dec_loop_renorm symt md m buf l1 h1 q n), Hdl by done.
    by rewrite Hdrop, <- app_assoc.
Qed.
End lossless.

(** ** The range coder is lossless *)

Lemma at_pos_self buf : at_pos buf 0 buf.
Proof.
  intros i b Hi. unfold stream. cbn [Nat.add]. apply lookup_lt_Some in Hi as Hlt.
  destruct (Nat.ltb_spec i (length buf)); [|lia]. by apply nth_lookup_Some.
Qed.

Lemma enc_bytes f table md sym s out : enc_loop f table md sym s = Ret (Some out) ->
  bytes_ok (outv s) -> bytes_ok out.
Proof.
  assert (Hren : forall g md n s r, enc_renorm g md n s = Ret r -> bytes_ok (outv s) -> bytes_ok (outv (fst r))).
  { clear. induction g as [|g IH]; intros md n s r H Hb; [done|]. cbn [enc_renorm] in H.
    assert (Hb' : bytes_ok (outv s ++ [u8 (Z.shiftr (lval s) CC_ENC_SHIFT)])).
    { apply Forall_app. split; [done|]. apply Forall_singleton, wrap_range. lia. }
    repeat case_match; try done; simplify_eq; try done; by eapply IH in H. }
  revert s. induction f as [|f IH]; intros s H Hb; [done|]. cbn [enc_loop] in H.
  case_match; [done|]. case_match. case_match; [|done].
  destruct (enc_renorm _ _ _ _) as [r|] eqn:Er in H; [|done]. cbn [outcome_bind] in H.
  apply Hren in Er; [|done]. case_match; [by simplify_eq|]. by eapply IH.
Qed.

Lemma norm_start md : 2 <= md <= 255 -> norm md 0 (2 ^ 56 - 1).
Proof.
  intros Hm. constructor; [lia|lia|lia|].
  apply not_true_iff_false. rewrite <- (lk_0 0), <- (hk_0 (2 ^ 56 - 1)) by (unfold in56; lia).
  rewrite needed_cases, lk_0, hk_0 by (unfold in56; lia).
  change (0 / 2 ^ 48) with 0. change ((2 ^ 56 - 1) / 2 ^ 48) with 255. lia.
Qed.

Lemma dec_start symt md buf m outs : 2 <= md <= 255 -> bytes_ok buf ->
  dec_loop (S m) symt md buf (mkDec 0 0 0 0) outs
  = dec_loop (S m) symt md buf (mkDec (0 + 7) (2 ^ 56 - 1) 0 (win buf 0)) outs.
Proof.
  intros Hm Hb. cbn [dec_loop]. rewrite dec_renorm_start by done.
  pose proof (norm_start md Hm) as Hn. destruct (norm_stops _ _ _ Hm Hn) as (I & J & Hst).
  pose proof (dec_renorm_win _ buf _ _ 0 0 Hm Hb I J Hst) as Hr.
  rewrite hk_0, lk_0 in Hr by done. by rewrite Hr.
Qed.

Lemma enc_fuel_ok n : (n + 465 <= enc_fuel (S n))%nat.
Proof. unfold enc_fuel. lia. Qed.

(** What [cc_alpha_encode] appends: bytes that decode to the input; seven at least
    for a nonempty input, seven per symbol at most, and for alphabets of eight symbols
    or more one byte for four symbols at least. *)
Lemma alpha_lossless symt bint sym out0 bclear : table_pair symt bint -> bytes_ok sym ->
  sym <> [] -> Forall (fun ch => cc_destringify_char bint ch <> 255) sym -> bytes_ok out0 ->
  let base := if bclear : bool then [] else out0 in
  exists t, cc_alpha_encode bint sym out0 bclear = Ret (Some (base ++ t)) /\ bytes_ok t
    /\ (7 <= length t <= 7 * length sym)%nat
    /\ (8 <= cc_table_mod bint -> (length sym <= 4 * length t)%nat)
    /\ cc_alpha_decode symt t (length sym) [] true = Ret sym.
Proof.
  intros Hp Hs Hne Hv Hb0 base. pose proof (tp_range _ _ Hp) as Hm. pose proof (tp_mod _ _ Hp) as Emd.
  unfold cc_alpha_encode, cc_alpha_decode. rewrite Emd. fold base.
  destruct sym as [|x sym'] eqn:E; [done|]. clear Hne.
  rewrite <- E in *. destruct (Z.eqb_spec (cc_table_mod bint) 256); [lia|].
  change (range_ok (CC_ENC_MAX - 1)) with true. cbv iota.
  pose proof (norm_start _ Hm) as Hn. change (CC_ENC_MAX - 1) with (2 ^ 56 - 1).
  assert (Hlen : length sym = S (length sym')) by (by rewrite E).
  pose proof (enc_fuel_ok (length sym')) as Hf. rewrite <- Hlen in Hf.
  generalize dependent (enc_fuel (length sym)). intros fuel Hf.
  destruct (enc_open symt bint Hp fuel sym (length sym') 0 (2 ^ 56 - 1) Hs Hv
    ltac:(lia) Hn Hf base) as (t & Ht & Hlt7 & Hpot & Hdec).
  rewrite <- Hlen, Nat.sub_diag in *. rewrite Ht.
  assert (Hb : bytes_ok t).
  { eapply enc_bytes in Ht; [by apply Forall_app in Ht as [_ ?]|]. subst base. by destruct bclear; [constructor|]. }
  exists t. split_and!; [done|done|lia|lia| |].
  - intros H8. specialize (Hpot H8). replace (2 ^ 56 - 1 - 0 + 1) with (pw 7) in Hpot by reflexivity.
    unfold pw in Hpot. rewrite <- Z.pow_add_r in Hpot by lia.
    replace (Z.of_nat 7 + Z.of_nat (length t - 7)) with (Z.of_nat (length t)) in Hpot by lia.
    change 256 with (4 ^ 4) in Hpot. rewrite <- Z.pow_mul_r in Hpot by lia.
    apply Z.pow_le_mono_r_iff in Hpot; lia.
  - destruct (Hdec t 0%nat Hb (at_pos_self t)) as [_ Hd]. specialize (Hd []).
    destruct (Nat.eqb_spec (length sym) 0); [lia|]. rewrite orb_false_r.
    destruct (Nat.eqb_spec (length t) 0) as [E0|]; [lia|].
    rewrite Hlen in *. by rewrite dec_start.
Qed.

(** A symbol outside the alphabet makes the encoder return -1. *)
Lemma enc_invalid bint f sym m l h eof out : 2 <= cc_table_mod bint <= 255 ->
  norm (cc_table_mod bint) l h -> bytes_ok sym -> (m <= length sym)%nat ->
  (forall ch, byte_ok ch -> cc_destringify_char bint ch <> 255 ->
     0 <= cc_destringify_char bint ch < cc_table_mod bint) ->
  ~ Forall (fun ch => cc_destringify_char bint ch <> 255) (drop (length sym - m) sym) ->
  (m < f)%nat ->
  enc_loop f bint (cc_table_mod bint) sym (mkEnc (length sym - m) h l eof out) = Ret None.
Proof.
  intros Hm Hn Hs Hlen Hrng Hbad Hf. revert m l h out Hn Hlen Hbad Hf.
  induction f as [|f IH]; intros m l h out Hn Hlen Hbad Hf; [lia|].
  set (pos := (length sym - m)%nat) in *.
  destruct (decide (pos < length sym)%nat) as [Hpos|]; [|rewrite drop_ge in Hbad by lia; by destruct Hbad].
  destruct (lookup_lt_is_Some_2 sym pos Hpos) as [ch Hch].
  assert (Hcok : byte_ok ch) by (unfold bytes_ok, digits_ok in Hs; rewrite Forall_lookup in Hs; by eapply Hs).
  cbn [enc_loop bufpos hval lval eofm outv]. destruct (Nat.ltb_spec pos (length sym)) as [_|]; [|lia].
  rewrite (nth_lookup_Some _ _ 0 _ Hch).
  destruct (Z.eqb_spec (cc_destringify_char bint ch) 255) as [|Hne]; [done|].
  specialize (Hrng ch Hcok Hne) as Hc.
  destruct (narrow_spec _ l h _ Hm Hn Hc) as (l1 & h1 & -> & Hl1 & Hlh & Hh1 & _).
  pose proof (nm_l _ _ _ Hn). pose proof (nm_h _ _ _ Hn).
  assert (I1 : in56 l1) by (unfold in56; lia). assert (J1 : in56 h1) by (unfold in56; lia).
  pose proof (hk_range_ok h1 0 ltac:(lia)) as Hrok. rewrite hk_0 in Hrok by done. rewrite Hrok.
  rewrite (drop_S _ _ _ Hch) in Hbad.
  assert (Hbad' : ~ Forall (fun ch => cc_destringify_char bint ch <> 255) (drop (S pos) sym))
    by (intros Hfa; apply Hbad; by constructor).
  destruct (decide (S pos = length sym)) as [E|Hnl]; [rewrite drop_ge in Hbad' by lia; by destruct Hbad'|].
  destruct (stops_exists _ l1 h1 Hm) as [n Hst]. pose proof Hst as (Hn7 & _ & _).
  pose proof (enc_renorm_open 8 _ (length sym) (S pos) l1 h1 eof out n 0 Hm Hst ltac:(lia) ltac:(lia) Hnl) as Hr.
  rewrite hk_0, lk_0 in Hr by done. rewrite Hr. cbn [outcome_bind fst snd].
  pose proof (stops_norm _ l1 h1 n Hm I1 J1 Hst) as Hn1.
  replace (S pos) with (length sym - pred m)%nat in * by lia. by apply IH; [|lia| |lia].
Qed.

Lemma alpha_invalid symt bint sym out0 bclear : table_pair symt bint -> bytes_ok sym ->
  ~ Forall (fun ch => cc_destringify_char bint ch <> 255) sym ->
  cc_alpha_encode bint sym out0 bclear = Ret None.
Proof.
  intros Hp Hs Hbad. pose proof (tp_range _ _ Hp) as Hm. unfold cc_alpha_encode.
  destruct sym as [|x sym'] eqn:E; [by destruct Hbad|]. rewrite <- E in *.
  destruct (Z.eqb_spec (cc_table_mod bint) 256); [lia|].
  change (range_ok (CC_ENC_MAX - 1)) with true. cbv iota.
  replace 0%nat with (length sym - length sym)%nat by lia.
  apply enc_invalid; [done|by apply norm_start|done|lia| | |unfold enc_fuel; lia].
  - intros ch Hch Hne. by apply (tp_destringify _ _ Hp).
  - by rewrite Nat.sub_diag.
Qed.

(** ** The decoder never fails an assertion *)

(** A window inside the bounds stays inside them. *)
Lemma stops_window md l h n buf q : 2 <= md <= 255 -> in56 l -> in56 h -> l <= h -> bytes_ok buf ->
  stops md l h n -> l <= win buf q <= h -> lk l n <= win buf (q + n) <= hk h n.
Proof.
  intros Hm Hl Hh Hle Hb Hst Hw. pose proof Hst as (Hn & _ & _).
  pose proof (stops_prefix _ _ _ _ Hm Hl Hh Hle Hst) as Hpre. clear Hst.
  rewrite <- (win_shift buf q n Hb Hn). unfold dk.
  pose proof (winN_range buf (q + 7) n Hb). pose proof (win_range buf q Hb).
  generalize dependent (win buf q). generalize dependent (winN buf (q + 7) n).
  intros x Hx w Hw Hw'. cases7 n; pw_lia.
Qed.

(** The symbol read off a value has the value in its interval. *)
Lemma narrow_cover md l h w : 2 <= md <= 255 -> norm md l h -> l <= w <= h ->
  let c := (w - l) * md / (h - l + 1) in
  0 <= c < md /\ exists l1 h1, narrow md l h c = (l1, h1) /\ l1 <= w <= h1.
Proof.
  intros Hm Hn Hw c. assert (HD : md <= h - l + 1) by (pose proof (nm_size _ _ _ Hn); lia).
  assert (Hc : c * (h - l + 1) <= (w - l) * md < (c + 1) * (h - l + 1)).
  { pose proof (Z.div_mod ((w - l) * md) (h - l + 1) ltac:(lia)) as E. fold c in E.
    pose proof (Z.mod_pos_bound ((w - l) * md) (h - l + 1) ltac:(lia)). nia. }
  assert (Hcr : 0 <= c < md) by nia. split; [done|].
  rewrite (narrow_eq md l h c) by done. eexists _, _. split; [reflexivity|].
  pose proof (cdiv_spec md (c * (h - l + 1)) ltac:(lia)).
  pose proof (cdiv_spec md ((c + 1) * (h - l + 1)) ltac:(lia)). nia.
Qed.

Section total.
Context (symt : list Z) (Hmod : 2 <= cc_table_mod symt <= 255).
Abbreviation md := (cc_table_mod symt).

Lemma dec_total m buf l h q outs : bytes_ok buf -> norm md l h -> l <= win buf q <= h ->
  exists s, dec_loop m symt md buf (mkDec (q + 7) h l (win buf q)) outs = Ret (outs ++ s) /\ length s = m.
Proof.
  intros Hb. revert l h q outs. induction m as [|m IH]; intros l h q outs Hn Hw.
  { exists []. cbn. by rewrite app_nil_r. }
  destruct (norm_stops md l h Hmod Hn) as (I & J & Hst0).
  pose proof (nm_l _ _ _ Hn). pose proof (nm_h _ _ _ Hn). pose proof (nm_size _ _ _ Hn).
  destruct (narrow_cover md l h (win buf q) Hmod Hn Hw) as (Hc & l1 & h1 & Hnar & Hw1).
  set (c := (win buf q - l) * md / (h - l + 1)) in *.
  destruct (narrow_spec md l h c Hmod Hn Hc) as (l1' & h1' & Hnar' & Hl1 & Hlh & Hh1 & _ & _ & Hdec).
  rewrite Hnar in Hnar'. injection Hnar' as <- <-.
  assert (Hch : cc_stringify_byte symt c = Ret (tbl symt (c + 3))).
  { unfold cc_stringify_byte, u8. rewrite wrap_small by (unfold in_word; lia).
    destruct (Z.ltb_spec c md); [done|lia]. }
  rewrite (dec_symbol symt md m buf l h c l1 h1 (tbl symt (c + 3))) by done.
  destruct m as [|m]; [by exists [tbl symt (c + 3)]|].
  assert (I1 : in56 l1) by (unfold in56; lia). assert (J1 : in56 h1) by (unfold in56; lia).
  destruct (stops_exists md l1 h1 Hmod) as [n Hst].
  pose proof (stops_norm md l1 h1 n Hmod I1 J1 Hst) as Hn1.
  pose proof (stops_window md l1 h1 n buf q Hmod I1 J1 Hlh Hb Hst Hw1) as Hw2.
  rewrite (dec_loop_renorm symt md m buf l1 h1 q n) by done.
  destruct (IH _ _ (q + n)%nat (outs ++ [tbl symt (c + 3)]) Hn1 Hw2) as (s & -> & Hs).
  exists (tbl symt (c + 3) :: s). rewrite <- app_assoc. split; [done|cbn; lia].
Qed.
End total.

Lemma alpha_decode_total symt data nchars : 2 <= cc_table_mod symt <= 255 -> bytes_ok data ->
  data <> [] -> exists s, cc_alpha_decode symt data nchars [] true = Ret s /\ length s = nchars.
Proof.
  intros Hm Hb Hne. unfold cc_alpha_decode.
  destruct (Nat.eqb_spec (length data) 0) as [?|_]; [by destruct data|]. cbn [orb].
  destruct (Nat.eqb_spec nchars 0) as [->|]; [by exists []|].
  destruct (Z.eqb_spec (cc_table_mod symt) 256); [lia|].
  destruct nchars as [|m]; [done|]. rewrite dec_start by done.
  destruct (dec_total symt Hm (S m) data 0 (2 ^ 56 - 1) 0 [] Hb (norm_start _ Hm)) as (s & -> & Hs).
  - pose proof (win_range data 0 Hb) as Hw. unfold in56 in Hw. lia.
  - by exists s.
Qed.

(** The range coder is lossless: a string over the alphabet of a table pair always
    encodes, and decoding the bytes with the length of the string returns it. *)
Theorem alpha_roundtrip symt bint sym :
  table_pair symt bint -> bytes_ok sym -> cc_string_uses_symbols bint sym = true ->
  exists out, cc_alpha_encode bint sym [] true = Ret (Some out)
    /\ cc_alpha_decode symt out (length sym) [] true = Ret sym.
Proof.
  intros Hp Hs Hu. pose proof (tp_range _ _ Hp). destruct (decide (sym = [])) as [->|Hne].
  { exists []. split; [done|]. unfold cc_alpha_decode. done. }
  assert (Hv : Forall (fun ch => cc_destringify_char bint ch <> 255) sym).
  { unfold cc_string_uses_symbols in Hu. destruct (Z.eqb_spec (cc_table_mod bint) 256); [lia|].
    rewrite forallb_forall in Hu. apply Forall_forall. intros ch Hch%list_elem_of_In.
    specialize (Hu ch Hch). apply negb_true_iff in Hu. by apply Z.eqb_neq. }
  destruct (alpha_lossless symt bint sym [] true Hp Hs Hne Hv ltac:(constructor)) as (t & Ht & _ & _ & _ & Hd).
  by exists t.
Qed.

Lemma alpha_roundtrip_witness :
  exists out, cc_alpha_encode base10bin [50; 48; 53; 56; 48; 48] [] true = Ret (Some out)
    /\ cc_alpha_decode base10sym out 6 [] true = Ret [50; 48; 53; 56; 48; 48].
Proof.
  apply (alpha_roundtrip base10sym base10bin [50; 48; 53; 56; 48; 48]).
  - apply table_pairb_ok. vm_compute. reflexivity.
  - repeat constructor; vm_compute; congruence.
  - reflexivity.
Defined.

(** ** The shortest prefix and the best alphabet *)

Definition decodes (dtab data t : list Z) : Prop :=
  cc_alpha_decode dtab t (length data) [] true = Ret data.

(** The search keeps the full encoding or a prefix it has checked. *)
Lemma shortest_loop_ok k dtab data enc s : 
  (forall t, bytes_ok t -> t <> [] -> exists d, cc_alpha_decode dtab t (length data) [] true = Ret d) ->
  bytes_ok enc -> (k <= length enc)%nat -> enc <> [] ->
  (s = length enc \/ (0 < s <= length enc)%nat /\ decodes dtab data (take s enc)) ->
  exists s', shortest_loop k dtab data enc s = Ret s'
    /\ (s' = length enc \/ (0 < s' <= length enc)%nat /\ decodes dtab data (take s' enc)).
Proof.
  intros Htot Hb Hk Hne. revert s. induction k as [|k IH]; intros s Hs; [by exists s|].
  cbn [shortest_loop]. destruct (_ || _); [apply IH; [lia|done]|].
  destruct (Htot (take (S k) enc)) as [d Hd]; [by apply bytes_ok_take|by destruct enc|].
  rewrite Hd. cbn [outcome_bind]. case_bool_decide as E; [|by exists s].
  apply IH; [lia|]. right. split; [lia|]. unfold decodes. by rewrite Hd, E.
Qed.

(** [cc_alpha_encode_shortest] behind one header byte. *)
Lemma shortest_ok etab dtab data b t : bytes_ok t -> t <> [] ->
  (forall t, bytes_ok t -> t <> [] -> exists d, cc_alpha_decode dtab t (length data) [] true = Ret d) ->
  cc_alpha_encode etab data [b] false = Ret (Some ([b] ++ t)) ->
  exists t', cc_alpha_encode_shortest etab dtab data [b] false = Ret (Some (b :: t'))
    /\ bytes_ok t' /\ t' <> [] /\ (t' = t \/ decodes dtab data t').
Proof.
  intros Hb Hne Htot He. unfold cc_alpha_encode_shortest. rewrite He. cbn [outcome_bind app length drop].
  replace (S (length t) - 1)%nat with (length t) by lia. rewrite drop_0.
  destruct (shortest_loop_ok (length t) dtab data t (length t) Htot Hb (le_n _) Hne (or_introl eq_refl))
    as (s & -> & Hs). cbn [outcome_bind Nat.add take]. exists (take s t). split; [done|].
  split; [by apply bytes_ok_take|]. destruct Hs as [->|[Hs Hd]].
  - rewrite firstn_all. by split; [|left].
  - split; [by destruct t, s; try lia|by right].
Qed.

(** What one alphabet contributes: nothing, a checked encoding, or one that the
    length test refuses. *)
Definition entry_ok (i : Z) (etab dtab data : list Z) : Prop :=
  exists r, cc_alpha_encode_shortest etab dtab data [u8 (Z.shiftl i 4)] false = Ret r /\
  match r with
  | None => True
  | Some out => exists t, out = u8 (Z.shiftl i 4) :: t /\
      (decodes dtab data t \/ ~ 0 <= len_diff_of dtab (length t) (length data) + LENGTH_DIFF_OFFSET <= 15)
  end.

Lemma entry_pair i sym bin data : table_pair sym bin -> bytes_ok data -> data <> [] ->
  byte_ok (u8 (Z.shiftl i 4)) -> entry_ok i bin sym data.
Proof.
  intros Hp Hd Hne Hb. pose proof (tp_range _ _ Hp). unfold entry_ok.
  destruct (decide (Forall (fun ch => cc_destringify_char bin ch <> 255) data)) as [Hv|Hv].
  - destruct (alpha_lossless sym bin data [u8 (Z.shiftl i 4)] false Hp Hd Hne Hv ltac:(by apply Forall_singleton))
      as (t & He & Ht & Hlen & _ & Hdec).
    assert (Htne : t <> []) by (intros ->; cbn in Hlen; lia).
    destruct (shortest_ok bin sym data (u8 (Z.shiftl i 4)) t Ht Htne) as (t' & -> & Hbt & _ & Ht'); [|done|].
    + intros x Hx Hxe.
      destruct (alpha_decode_total sym x (length data)) as (d & ? & _); [by rewrite (tp_mod _ _ Hp)|done|done|].
      by exists d.
    + eexists. split; [reflexivity|]. exists t'. split; [done|]. left. by destruct Ht' as [->|].
  - unfold cc_alpha_encode_shortest. rewrite (alpha_invalid sym bin) by done. by exists None.
Qed.

(** The pair of index 9, whose decoding table is not the inverse of its encoding
    table: its full encodings never pass the length test. *)
Lemma entry_base224 i data : bytes_ok data -> data <> [] -> Z.of_nat (length data) <= 9000 ->
  byte_ok (u8 (Z.shiftl i 4)) -> entry_ok i base224bin base224bin data.
Proof.
  intros Hd Hne Hlen9 Hb. unfold entry_ok.
  assert (Hp : table_pair base224sym base224bin) by (apply table_pairb_ok; vm_compute; reflexivity).
  destruct (decide (Forall (fun ch => cc_destringify_char base224bin ch <> 255) data)) as [Hv|Hv].
  - destruct (alpha_lossless base224sym base224bin data [u8 (Z.shiftl i 4)] false Hp Hd Hne Hv
      ltac:(by apply Forall_singleton)) as (t & He & Ht & Hlen & H4 & _).
    assert (Htne : t <> []) by (intros ->; cbn in Hlen; lia).
    destruct (shortest_ok base224bin base224bin data (u8 (Z.shiftl i 4)) t Ht Htne) as (t' & -> & Hbt & _ & Ht'); [|done|].
    + intros x Hx Hxe. destruct (alpha_decode_total base224bin x (length data)) as (d & ? & _); [done|done|done|].
      by exists d.
    + eexists. split; [reflexivity|]. exists t'. split; [done|]. destruct Ht' as [->|]; [right|by left].
      assert (H8 : 8 <= cc_table_mod base224bin) by (vm_compute; congruence). specialize (H4 H8).
      enough (Hd21 : 21 <= len_diff_of base224bin (length t) (length data)) by (unfold LENGTH_DIFF_OFFSET; lia).
      unfold len_diff_of, cc_table_expected_strlen.
      change (Z.shiftl (tbl base224bin 1) 8 + tbl base224bin 2) with 8447.
      change (Z.shiftl 1 16) with 65536. change (8447 =? 0) with false. cbv iota.
      unfold u32 at 2. rewrite wrap_small by (unfold in_word; lia).
      assert (He2 : 7 * Z.of_nat (length t) <= Z.of_nat (length t) * 65536 / 8447 < 8 * Z.of_nat (length t))
        by (split; [apply Z.div_le_lower_bound|apply Z.div_lt_upper_bound]; lia).
      generalize dependent (Z.of_nat (length t) * 65536 / 8447). intros E HE.
      unfold i32. rewrite (sint_id 32 E) by lia.
      unfold u32. rewrite wrap_small by (unfold in_word; lia). rewrite sint_id by lia. lia.
  - unfold cc_alpha_encode_shortest. rewrite (alpha_invalid base224sym base224bin) by done. by exists None.
Qed.

Lemma best_tables : Forall (fun p => cc_table_mod (snd p) = 256 \/ p = (base224bin, base224bin)
    \/ table_pair (snd p) (fst p)) (zip best_encode_table best_decode_table).
Proof.
  repeat apply Forall_cons_2; try apply Forall_nil_2; try (by left); try (by right; left);
    right; right; apply table_pairb_ok; vm_compute; reflexivity.
Qed.

(** base256 copies the data. *)
Lemma entry_base256 i data : data <> [] -> Z.of_nat (length data) <= 9000 ->
  cc_alpha_encode_shortest base256bin base256sym data [u8 (Z.shiftl i 4)] false
    = Ret (Some (u8 (Z.shiftl i 4) :: data))
  /\ len_diff_of base256sym (length data) (length data) = 0 /\ decodes base256sym data data.
Proof.
  intros Hne Hlen.
  assert (Hld : forall k, (k <= length data)%nat ->
    len_diff_of base256sym k (length data) = Z.of_nat k - Z.of_nat (length data)).
  { intros k Hk. unfold len_diff_of, cc_table_expected_strlen.
    change (Z.shiftl (tbl base256sym 1) 8 + tbl base256sym 2) with 0.
    change (Z.shiftl 1 16) with 65536. change (0 =? 0) with true. cbv iota.
    unfold u32 at 2. rewrite wrap_small by (unfold in_word; lia). rewrite Z.div_mul by lia.
    unfold i32, u32. rewrite (sint_id 32 (Z.of_nat k)) by lia. unfold sint. rewrite wrap_wrap.
    change (sint 32 (Z.of_nat k - Z.of_nat (length data)) = Z.of_nat k - Z.of_nat (length data)).
    apply sint_id; lia. }
  assert (Hdec : forall k, (0 < k <= length data)%nat ->
    cc_alpha_decode base256sym (take k data) (length data) [] true = Ret (take k data)).
  { intros k Hk. unfold cc_alpha_decode. rewrite length_take.
    destruct (Nat.eqb_spec (k `min` length data) 0); [lia|].
    destruct (Nat.eqb_spec (length data) 0); [lia|]. cbn [orb app].
    change (cc_table_mod base256sym =? 256) with true. cbv iota.
    destruct (Nat.ltb_spec (length data) (k `min` length data)); [lia|].
    rewrite take_take. do 2 f_equal. lia. }
  assert (Hpos : (0 < length data)%nat) by (destruct data; [done|cbn; lia]).
  assert (Hfull : decodes base256sym data data).
  { unfold decodes. rewrite <- (firstn_all data) at 1 3. apply Hdec. lia. }
  split_and!; [|rewrite Hld by lia; lia|done].
  unfold cc_alpha_encode_shortest.
  assert (He : cc_alpha_encode base256bin data [u8 (Z.shiftl i 4)] false = Ret (Some ([u8 (Z.shiftl i 4)] ++ data))).
  { unfold cc_alpha_encode. by destruct data. }
  rewrite He. cbn [outcome_bind app length drop]. rewrite drop_0.
  replace (S (length data) - 1)%nat with (length data) by lia.
  assert (Hs : forall k, (k < length data)%nat ->
    shortest_loop k base256sym data data (length data) = Ret (length data)).
  { induction k as [|k IH]; intros Hk; [done|]. cbn [shortest_loop].
    destruct (_ || _); [apply IH; lia|]. rewrite Hdec by lia. cbn [outcome_bind].
    case_bool_decide as E; [|done]. apply (f_equal length) in E. rewrite length_take in E. lia. }
  assert (Hs0 : shortest_loop (length data) base256sym data data (length data) = Ret (length data)).
  { assert (Hk : forall k, length data = S k ->
      shortest_loop (S k) base256sym data data (length data) = Ret (length data)).
    { intros k Ek. cbn [shortest_loop]. destruct (_ || _); [apply Hs; lia|].
      rewrite <- Ek, firstn_all. unfold decodes in Hfull.
      rewrite Hfull. cbn [outcome_bind]. rewrite bool_decide_eq_true_2 by done. apply Hs. lia. }
    destruct (length data) as [|k] eqn:Ek; [lia|]. by apply Hk. }
  rewrite Hs0. cbn [outcome_bind Nat.add]. by rewrite firstn_cons, firstn_all.
Qed.

Lemma best_loop_ok tables i data : bytes_ok data -> data <> [] -> Z.of_nat (length data) <= 9000 ->
  0 <= i -> i + Z.of_nat (length tables) <= 11 ->
  Forall (fun p => cc_table_mod (snd p) = 256 \/ p = (base224bin, base224bin)
    \/ table_pair (snd p) (fst p)) tables ->
  last tables = Some (base256bin, base256sym) ->
  Forall (fun p => cc_table_mod (snd p) = 256 -> p = (base256bin, base256sym)) tables ->
  exists j etab dtab t, tables !! j = Some (etab, dtab) /\
    let ld := len_diff_of dtab (length t) (length data) + LENGTH_DIFF_OFFSET in
    0 <= ld <= 15 /\ decodes dtab data t
    /\ best_loop tables i data = Ret (Some (Z.lor (u8 (Z.shiftl (i + Z.of_nat j) 4)) ld :: t)).
Proof.
  intros Hd Hne Hlen. revert i. induction tables as [|[etab dtab] tables IH]; intros i Hi Hi11 Hall Hlast H256; [done|].
  apply Forall_cons in Hall as [Hp Hall]. apply Forall_cons in H256 as [Hp256 H256].
  cbn [length] in Hi11. cbn [best_loop fst snd] in *.
  assert (Hb : byte_ok (u8 (Z.shiftl i 4))) by (apply wrap_range; lia).
  assert (Hrec : tables <> [] -> best_loop tables (i + 1) data =
     best_loop ((etab, dtab) :: tables) i data ->
     exists j etab' dtab' t, ((etab, dtab) :: tables) !! j = Some (etab', dtab') /\
      let ld := len_diff_of dtab' (length t) (length data) + LENGTH_DIFF_OFFSET in
      0 <= ld <= 15 /\ decodes dtab' data t
      /\ best_loop ((etab, dtab) :: tables) i data
         = Ret (Some (Z.lor (u8 (Z.shiftl (i + Z.of_nat j) 4)) ld :: t))).
  { intros Hnt Heq. destruct (IH (i + 1) ltac:(lia) ltac:(lia) Hall) as (j & e' & d' & t & Hj & Hld & Hdec & Hbl).
    - destruct tables; [done|exact Hlast].
    - done.
    - exists (S j), e', d', t. split; [exact Hj|]. cbv zeta in *. split_and!; [lia|lia|done|].
      rewrite <- Heq, Hbl. do 5 f_equal. f_equal. lia. }
  destruct (decide ((etab, dtab) = (base256bin, base256sym))) as [E|Hn256].
  - injection E as -> ->. destruct (entry_base256 i data Hne Hlen) as (He & Hl & Hdec).
    exists 0%nat, base256bin, base256sym, data. split; [done|]. cbv zeta. rewrite He, Hl. cbn [outcome_bind length].
    replace (S (length data) - 1)%nat with (length data) by lia. rewrite Hl, Z.add_0_r. by split_and!.
  - assert (Hnt : tables <> []) by (intros ->; cbn in Hlast; congruence).
    assert (Hentry : entry_ok i etab dtab data).
    { destruct Hp as [Hp|[[= -> ->]|Hp]]; [by specialize (Hp256 Hp)|by apply entry_base224|by apply entry_pair]. }
    destruct Hentry as (r & Hr & Hcase). cbn [best_loop] in *. rewrite Hr in *. cbn [outcome_bind] in *.
    destruct r as [out|]; [|by apply Hrec].
    destruct Hcase as (t & -> & Hcase). cbn [length] in *.
    replace (S (length t) - 1)%nat with (length t) in * by lia.
    set (ld := len_diff_of dtab (length t) (length data) + LENGTH_DIFF_OFFSET) in *.
    destruct ((ld <? 0) || (15 <? ld)) eqn:Eld; [by apply Hrec|].
    apply orb_false_iff in Eld as [?%Z.ltb_ge ?%Z.ltb_ge].
    destruct Hcase as [Hdec|Hbad]; [|lia].
    exists 0%nat, etab, dtab, t. rewrite Z.add_0_r. by split_and!.
Qed.

(** The length of the string is recovered from the header. *)
Lemma header_nchars E n ld : 0 <= n < 2 ^ 31 -> ld = i32 (u32 (E - n)) + LENGTH_DIFF_OFFSET ->
  i32 (E - (ld - LENGTH_DIFF_OFFSET)) = n.
Proof.
  intros Hn ->. replace (i32 (u32 (E - n)) + LENGTH_DIFF_OFFSET - LENGTH_DIFF_OFFSET) with (i32 (u32 (E - n))) by lia.
  transitivity (i32 n); [|apply sint_id; lia]. apply sint_cong.
  assert (H1 : wrap 32 (i32 (u32 (E - n))) = wrap 32 (E - n))
    by (unfold i32, u32; rewrite wrap_sint, wrap_wrap by lia; done).
  unfold wrap in *. rewrite Zminus_mod, H1, <- Zminus_mod. f_equal. lia.
Qed.

(** The best alphabet: encoding succeeds on every byte string of up to 9000 bytes,
    and decoding returns it; under the mapping kept for old blocks this needs a
    result that does not use index 9. *)
Theorem alpha_best_roundtrip data out0 dflt use_old :
  bytes_ok data -> Z.of_nat (length data) <= 9000 ->
  exists out, cc_alpha_encode_best data = Ret (Some out) /\
    ((if use_old <? 0 then dflt else negb (use_old =? 0)) = false \/ nth 0 out 0 / 16 <> 9 ->
     cc_alpha_decode_best dflt out out0 use_old = Ret (Some data)).
Proof.
  intros Hd Hlen. destruct (decide (data = [])) as [->|Hne]; [by exists []|].
  destruct (best_loop_ok (zip best_encode_table best_decode_table) 0 data Hd Hne Hlen)
    as (j & etab & dtab & t & Hj & Hld & Hdec & Hbl); [done|done|apply best_tables|done| |].
  { repeat apply Forall_cons_2; try apply Forall_nil_2; intros H; try done; vm_compute in H; discriminate. }
  cbv zeta in *. set (ld := len_diff_of dtab (length t) (length data) + LENGTH_DIFF_OFFSET) in *.
  assert (Hj11 : (j < 11)%nat) by (apply lookup_lt_Some in Hj; exact Hj).
  exists (Z.lor (u8 (Z.shiftl (0 + Z.of_nat j) 4)) ld :: t).
  split; [unfold cc_alpha_encode_best; by destruct data|]. intros Hold.
  assert (Hhdr : Z.lor (u8 (Z.shiftl (0 + Z.of_nat j) 4)) ld = Z.of_nat j * 16 + ld).
  { rewrite Z.add_0_l. unfold u8. rewrite wrap_small by (rewrite Z.shiftl_mul_pow2 by lia; unfold in_word; lia).
    apply (lor_shiftl_add 4); unfold in_word; lia. }
  rewrite Hhdr in *. cbn [nth] in Hold.
  assert (Hsh : Z.shiftr (Z.of_nat j * 16 + ld) 4 = Z.of_nat j).
  { rewrite Z.shiftr_div_pow2 by lia. change (2 ^ 4) with 16. rewrite Z.div_add_l, Z.div_small by lia. lia. }
  assert (Hla : Z.land (Z.of_nat j * 16 + ld) 15 = ld).
  { rewrite (land_mask _ 4) by lia. change (2 ^ 4) with 16. rewrite Z.add_comm, Z.mod_add by lia. apply Z.mod_small. lia. }
  assert (H9 : (Z.of_nat j =? 9) && (if use_old <? 0 then dflt else negb (use_old =? 0)) = false).
  { destruct Hold as [->|Hn]; [apply andb_false_r|]. apply andb_false_iff. left. apply Z.eqb_neq.
    intros E. apply Hn. rewrite E. rewrite Z.div_add_l, Z.div_small by lia. lia. }
  unfold cc_alpha_decode_best. rewrite Hsh, Hla, H9.
  destruct (Z.ltb_spec 10 (Z.of_nat j)); [lia|]. rewrite Nat2Z.id.
  assert (Hdt : nth j best_decode_table [] = dtab).
  { clear - Hj. do 11 (destruct j as [|j]; [by injection Hj as _ <-|]). done. }
  rewrite Hdt.
  rewrite (header_nchars _ (Z.of_nat (length data)) ld) by (done || lia).
  destruct (Z.ltb_spec (Z.of_nat (length data)) 0); [lia|]. rewrite Nat2Z.id.
  unfold decodes, cc_alpha_decode in *. by rewrite Hdec.
Qed.

Lemma alpha_best_roundtrip_witness :
  exists out, cc_alpha_encode_best [50; 48; 53; 56; 48; 48; 200] = Ret (Some out) /\
    (false = false \/ nth 0 out 0 / 16 <> 9 ->
     cc_alpha_decode_best true out [] 0 = Ret (Some [50; 48; 53; 56; 48; 48; 200])).
Proof.
  apply (alpha_best_roundtrip [50; 48; 53; 56; 48; 48; 200] [] true 0).
  - repeat constructor; vm_compute; congruence.
  - vm_compute. congruence.
Defined.
