(* ===== verification/MapValues.v ===== *)
(** * Exponential value maps (src/source/cclib/src/map_values.cpp)

    One-byte encodings of quantities that range over several orders of magnitude,
    such as the payment time of an exchange request: decoding by integer
    interpolation in a table, encoding by search for the nearest code. *)
From S2P Require Import Prelude.

Local Open Scope Z_scope.

(** ** The table *)

Definition exp_table : list Z := [
  3550; 3599; 3649; 3699; 3750; 3802; 3854; 3907; 3961; 4016; 4071; 4127; 4184; 4242;
  4300; 4359; 4419; 4480; 4542; 4605; 4668; 4733; 4798; 4864; 4931; 4999; 5068; 5138;
  5209; 5280; 5353; 5427; 5502; 5578; 5654; 5732; 5811; 5892; 5973; 6055; 6139; 6223;
  6309; 6396; 6484; 6574; 6664; 6756; 6849; 6944; 7039; 7136; 7235; 7334; 7436; 7538;
  7642; 7747; 7854; 7962; 8072; 8183; 8296; 8411; 8526; 8644; 8763; 8884; 9006; 9131;
  9256; 9384; 9513; 9645; 9778; 9912; 10049; 10188; 10328; 10470; 10615; 10761; 10909;
  11060; 11212; 11367; 11523; 11682; 11843; 12007; 12172; 12340; 12510; 12682; 12857;
  13035; 13214; 13396; 13581; 13768; 13958; 14150; 14346; 14543; 14744; 14947; 15153;
  15362; 15574; 15788; 16006; 16227; 16450; 16677; 16907; 17140; 17376; 17616; 17859;
  18105; 18355; 18608; 18864; 19124; 19388; 19655; 19926; 20201; 20479; 20762; 21048;
  21338; 21632; 21930; 22233; 22539; 22850; 23165; 23484; 23808; 24136; 24469; 24806;
  25148; 25495; 25846; 26202; 26564; 26930; 27301; 27677; 28059; 28446; 28838; 29235;
  29638; 30047; 30461; 30881; 31307; 31738; 32176; 32619; 33069; 33525; 33987; 34456;
  34931; 35412; 35900; 36395; 36897; 37406; 37921; 38444; 38974; 39511; 40056; 40608;
  41168; 41735; 42311; 42894; 43485; 44085; 44692; 45308; 45933; 46566; 47208; 47859;
  48519; 49188; 49866; 50553; 51250; 51956; 52673; 53399; 54135; 54881; 55638; 56405;
  57182; 57971; 58770; 59580; 60401; 61234; 62078; 62934; 63801; 64681; 65572; 66476;
  67393; 68322; 69264; 70218; 71186; 72168; 73163; 74171; 75194; 76230; 77281; 78346;
  79426; 80521; 81631; 82757; 83897; 85054; 86226; 87415; 88620; 89842; 91080; 92336;
  93609; 94899; 96207; 97534; 98878; 100241; 101623; 103024; 104444; 105884; 107344;
  108823; 110323; 111844; 113386; 114949; 116534; 118140; 119769; 121420; 123094; 124791;
  126511; 128255; 130023; 131815; 133632; 135474; 137342; 139235; 141155; 143101; 145073;
  147073; 149101; 151156; 153240; 155352; 157494; 159665; 161866; 164097; 166359; 168653;
  170978; 173334; 175724; 178146; 180602; 183092; 185616; 188175; 190769; 193398; 196064;
  198767; 201507; 204285; 207101; 209956; 212850; 215785; 218759; 221775; 224832; 227932;
  231074; 234259; 237488; 240762; 244081; 247446; 250857; 254315; 257821; 261375; 264978;
  268631; 272334; 276088; 279894; 283753; 287664; 291630; 295650; 299726; 303857; 308046;
  312293; 316598; 320962; 325387; 329872; 334420; 339030; 343703; 348441; 353245; 358114;
  363051; 368056; 373129; 378273; 383488; 388774; 394134; 399567; 405075; 410659; 416320;
  422059; 427877; 433776; 439755; 445818; 451963; 458194; 464510; 470913; 477405; 483986;
  490658; 497422; 504279; 511231; 518278; 525423; 532666; 540009; 547453; 555000; 562651;
  570407; 578270; 586242; 594323; 602516; 610822; 619242; 627779; 636433; 645206; 654101;
  663117; 672259; 681526; 690921; 700446; 710101; 719890; 729814; 739875; 750074; 760414;
  770897; 781524; 792297; 803219; 814292; 825517; 836897; 848434; 860130; 871987; 884007;
  896194; 908548; 921073; 933770; 946642; 959692; 972921; 986333; 999930; 1013714;
  1027689; 1041856; 1056218; 1070778; 1085539; 1100504; 1115674; 1131054; 1146646;
  1162453; 1178478; 1194723; 1211193; 1227890; 1244816; 1261976; 1279373; 1297010;
  1314889; 1333015; 1351391; 1370021; 1388907; 1408053; 1427463; 1447141; 1467091;
  1487315; 1507818; 1528604; 1549676; 1571039; 1592696; 1614651; 1636910; 1659475;
  1682351; 1705543; 1729054; 1752890; 1777054; 1801551; 1826386; 1851563; 1877087;
  1902964; 1929196; 1955791; 1982752; 2010085; 2037794; 2065886; 2094365; 2123236;
  2152505; 2182178; 2212260; 2242757; 2273674; 2305017; 2336792; 2369005; 2401663;
  2434770; 2468334; 2502361; 2536857; 2571828; 2607281; 2643223; 2679661; 2716601;
  2754050; 2792015; 2830504; 2869523; 2909080; 2949182; 2989838; 3031053; 3072837;
  3115197; 3158141; 3201677; 3245813; 3290557; 3335918; 3381905; 3428525; 3475788;
  3523703; 3572278; 3621523; 3671447; 3722059; 3773368; 3825385; 3878119; 3931580;
  3985778; 4040723; 4096425; 4152895; 4210144; 4268182; 4327020; 4386669; 4447141;
  4508446; 4570596; 4633603; 4697478; 4762234; 4827883; 4894436; 4961907; 5030309;
  5099653; 5169953; 5241222; 5313474; 5386721; 5460979; 5536260; 5612578; 5689949;
  5768387; 5847905; 5928520; 6010247; 6093099; 6177094; 6262247; 6348574; 6436091;
  6524814; 6614760; 6705946; 6798390; 6892107; 6987117; 7083436; 7181083; 7280076;
  7380434; 7482175; 7585319; 7689885; 7795892; 7903360; 8012310; 8122762; 8234736;
  8348254; 8463337; 8580007; 8698284; 8818192; 8939753; 9062990; 9187926; 9314584;
  9442988; 9573162; 9705131; 9838918; 9974550; 10112052; 10251450; 10392769; 10536036;
  10681278; 10828522; 10977796; 11129128; 11282546; 11438079; 11595755; 11755606;
  11917660; 12081948; 12248501; 12417350; 12588526; 12762062; 12937991; 13116345;
  13297157; 13480462; 13666293; 13854687; 14045677; 14239301; 14435593; 14634592;
  14836333; 15040856; 15248198; 15458399; 15671497; 15887533; 16106546; 16328579;
  16553673; 16781870; 17013212; 17247744; 17485509; 17726551; 17970916; 18218650;
  18469799; 18724410; 18982531; 19244210; 19509497; 19778440; 20051091; 20327501;
  20607721; 20891804; 21179803; 21471772; 21767766; 22067840; 22372051; 22680456;
  22993112; 23310078; 23631414; 23957179; 24287435; 24622244; 24961668; 25305771;
  25654618; 26008273; 26366804; 26730278; 27098762; 27472325; 27851038; 28234972;
  28624199; 29018791; 29418823; 29824369; 30235506; 30652310; 31074860; 31503235;
  31937516; 32377783; 32824119; 33276608; 33735335; 34200386; 34671847; 35149807;
  35634357; 36125586; 36623587; 37128452; 37640278; 38159159; 38685193; 39218479;
  39759116; 40307206; 40862851; 41426156; 41997227; 42576170; 43163093; 43758108;
  44361325; 44972858; 45592820; 46221329; 46858503; 47504459; 48159321; 48823210;
  49496251; 50178570; 50870294; 51571555; 52282482; 53003210; 53733873; 54474609;
  55225556; 55986855; 56758648; 57541081; 58334300; 59138454; 59953693; 60780171;
  61618041; 62467462; 63328593; 64201594; 65086630; 65983866; 66893471; 67815615;
  68750472; 69698215; 70659023; 71633077; 72620557; 73621651; 74636545; 75665429;
  76708497; 77765944; 78837968; 79924770; 81026554; 82143527; 83275897; 84423877;
  85587683; 86767531; 87963645; 89176247; 90405565; 91651829; 92915274; 94196136;
  95494654; 96811073; 98145639; 99498603; 100870217; 102260740; 103670431; 105099555;
  106548381; 108017178; 109506223; 111015796; 112546178; 114097656; 115670523; 117265071;
  118881601; 120520415; 122181821; 123866130; 125573657; 127304723; 129059652; 130838774;
  132642421; 134470931; 136324649; 138203920; 140109097; 142040538; 143998605; 145983663;
  147996087; 150036252; 152104541; 154201342; 156327048; 158482058; 160666775; 162881609;
  165126975; 167403294; 169710992; 172050503; 174422265; 176826722; 179264325; 181735531;
  184240803; 186780611; 189355431; 191965745; 194612044; 197294822; 200014583; 202771837;
  205567100; 208400897; 211273758; 214186223; 217138837; 220132153; 223166733; 226243145;
  229361966; 232523781; 235729183; 238978772; 242273157; 245612957; 248998796; 252431310;
  255911143; 259438945; 263015379; 266641116; 270316834; 274043223; 277820981; 281650816;
  285533447; 289469601; 293460016; 297505440; 301606631; 305764358; 309979400; 314252548;
  318584602; 322976375; 327428689; 331942380; 336518293; 341157287; 345860230; 350628005;
  355461504; 360361635; 365329315; 370365476; 375471062; 380647029; 385894349; 391214004;
  396606993; 402074325; 407617025; 413236134; 418932703; 424707800; 430562510; 436497927;
  442515166; 448615355; 454799636; 461069169; 467425129; 473868707; 480401113; 487023569;
  493737317; 500543616; 507443742; 514438988; 521530665; 528720103; 536008649; 543397669;
  550888550; 558482694; 566181525; 573986487; 581899042; 589920674; 598052886; 606297202;
  614655169; 623128353; 631718342; 640426746; 649255197; 658205351; 667278886; 676477501;
  685802922; 695256896; 704841196; 714557618; 724407983; 734394138; 744517955; 754781332;
  765186191; 775734485; 786428189; 797269309; 808259877; 819401953; 830697625; 842149011;
  853758257; 865527540; 877459065; 889555070; 901817821; 914249618; 926852790; 939629700;
  952582743; 965714348; 979026975; 992523120; 1006205313; 1020076119; 1034138137;
  1048394004; 1062846392; 1077498010; 1092351604; 1107409959; 1122675898; 1138152281;
  1153842010; 1169748027; 1185873312; 1202220888; 1218793820; 1235595215; 1252628221;
  1269896031; 1287401883; 1305149058; 1323140882; 1341380728; 1359872015; 1378618209;
  1397622825; 1416889424; 1436421619; 1456223070; 1476297489; 1496648639; 1517280336;
  1538196445; 1559400889; 1580897642; 1602690733; 1624784247; 1647182327; 1669889169;
  1692909032; 1716246230; 1739905137; 1763890188; 1788205880; 1812856769; 1837847478;
  1863182690; 1888867155; 1914905687; 1941303167; 1968064544; 1995194833; 2022699120;
  2050582561; 2078850382; 2107507883; 2136560435; 2166013484; 2195872552; 2226143234;
  2256831206; 2287942219; 2319482106; 2351456779; 2383872231; 2416734538; 2450049862;
  2483824445; 2518064620; 2552776805; 2587967507; 2623643322; 2659810937; 2696477133;
  2733648781; 2771332851; 2809536405; 2848266606; 2887530712; 2927336085; 2967690185;
  3008600577; 3050074930; 3092121017; 3134746721; 3177960031; 3221769049; 3266181985;
  3311207165; 3356853029; 3403128134; 3450041153; 3497600880; 3545816231; 3594696243;
  3644250079; 3694487028; 3745416506; 3797048061; 3849391370; 3902456245; 3956252634;
  4010790620; 4066080427; 4122132418; 4178957101; 4236565127; 4294967295].

Definition EXP_TABLE_SIZE : Z := 1024.
Definition EXP_INTERP_BITS : Z := 22.
Definition EXP_INTERP_MAX : Z := 2 ^ EXP_INTERP_BITS.
Definition EXP_INTERP_MASK : Z := EXP_INTERP_MAX - 1.
Definition EXP_INDEX_MAX : Z := Z.shiftl (EXP_TABLE_SIZE - 1) EXP_INTERP_BITS.

(** The member [base], a [double] kept for log output, is left out. *)
Record exp_map_t := mkMap {
  offset : Z;
  step : Z;
  enc_max : Z;
  dec_max : Z;
  unity_index : Z;
}.

Definition exp_at (i : Z) : Z := nth (Z.to_nat i) exp_table 0.

Definition map_exp_encoded_to_index (params : exp_map_t) (enc : Z) : Z :=
  u32 (u64 (u64 (u32 (EXP_INDEX_MAX - unity_index params) * enc) / enc_max params
            + unity_index params)).

Definition map_exp_get_exp (index : Z) : Z :=
  let val0 := exp_at (Z.shiftr index EXP_INTERP_BITS) in
  if EXP_INDEX_MAX <=? index then val0
  else
    let val1 := exp_at (Z.shiftr index EXP_INTERP_BITS + 1) in
    let pos := Z.land index EXP_INTERP_MASK in
    u32 (u64 (u64 (u64 (u64 (val1 - val0) * pos) + EXP_INTERP_MAX / 2) / EXP_INTERP_MAX + val0)).

Definition map_exp_decode (params : exp_map_t) (enc : Z) : Z :=
  let unity := map_exp_get_exp (unity_index params) in
  let index := map_exp_encoded_to_index params enc in
  let exp := map_exp_get_exp index in
  u32 (u64 (offset params + u64 (u64 (step params * enc) * exp) / unity)).

(** The search of [map_exp_init_params] for the smallest index whose decoding of
    [enc_max] does not exceed [dec_max], from a floating-point estimate of it. *)
Definition with_unity (params : exp_map_t) (u : Z) : exp_map_t :=
  mkMap (offset params) (step params) (enc_max params) (dec_max params) (u32 u).

Fixpoint unity_down (fuel : nat) (params : exp_map_t) : option exp_map_t :=
  match fuel with
  | O => None
  | S f =>
      let params := with_unity params (unity_index params - 1) in
      if dec_max params <? map_exp_decode params (enc_max params) then Some params
      else unity_down f params
  end.

Fixpoint unity_up (fuel : nat) (params : exp_map_t) : option exp_map_t :=
  match fuel with
  | O => None
  | S f =>
      let params := with_unity params (unity_index params + 1) in
      if map_exp_decode params (enc_max params) <=? dec_max params then Some params
      else unity_up f params
  end.

Definition map_exp_init_params (fuel : nat) (estimate : exp_map_t -> Z)
  (offset step enc_max dec_max unity_index : Z) : option exp_map_t :=
  let params := mkMap offset step enc_max dec_max unity_index in
  if unity_index <=? EXP_INDEX_MAX then Some params
  else
    match unity_down fuel (with_unity params (estimate params)) with
    | None => None
    | Some params => unity_up fuel params
    end.

(** *** Encoding *)

(** The three loops; the state is [(dec, enc)], and [None] that fuel ran out. *)
Fixpoint down_while (fuel : nat) (params : exp_map_t) (cond : Z -> bool) (dec enc : Z) : option (Z * Z) :=
  match fuel with
  | O => None
  | S f =>
      if cond dec && (0 <? enc)
      then down_while f params cond (map_exp_decode params (enc - 1)) (enc - 1)
      else Some (dec, enc)
  end.

Fixpoint up_while (fuel : nat) (params : exp_map_t) (cond : Z -> bool) (dec enc : Z) : option (Z * Z) :=
  match fuel with
  | O => None
  | S f =>
      if cond dec && (enc <? enc_max params)
      then up_while f params cond (map_exp_decode params (enc + 1)) (enc + 1)
      else Some (dec, enc)
  end.

Definition map_exp_encode (params : exp_map_t) (val : Z) (roundup : bool) : option Z :=
  if val <=? offset params then Some 0
  else if dec_max params <=? val then Some (enc_max params)
  else
    let enc := u32 (val - offset params) / step params in
    let enc := if enc_max params <? enc then enc_max params else enc in
    let dec := map_exp_decode params enc in
    let fuel := S (Z.to_nat (enc_max params)) in
    match down_while fuel params (fun dec => roundup && (val <=? dec)) dec enc with
    | None => None
    | Some (dec, enc) =>
        match up_while fuel params (fun dec => (dec <? val) || (negb roundup && (dec <=? val))) dec enc with
        | None => None
        | Some (dec, enc) =>
            match down_while fuel params (fun dec => negb roundup && (val <? dec)) dec enc with
            | None => None
            | Some (_, enc) => Some enc
            end
        end
    end.

(** The parameters of payment times (xtransaction-xreq.cpp). *)
Definition paytime_params : exp_map_t := mkMap 10 5 255 172800 2786840450.

(** ** The table and its interpolation are monotone *)

Fixpoint ascending (l : list Z) : bool :=
  match l with
  | x :: (y :: _) as t => (x <? y) && ascending t
  | _ => true
  end.

Lemma ascending_nth l i j : ascending l = true -> (i < j < length l)%nat -> nth i l 0 < nth j l 0.
Proof.
  intros Ha. assert (Hstep : forall i, (S i < length l)%nat -> nth i l 0 < nth (S i) l 0).
  { clear i j. induction l as [|x [|y l] IH]; intros i Hi; [cbn in Hi; lia..|].
    cbn [ascending] in Ha. apply andb_prop in Ha as [Hxy Ha]. apply Z.ltb_lt in Hxy.
    destruct i as [|i]; [exact Hxy|]. apply (IH Ha i). cbn in *. lia. }
  intros [Hij Hj]. induction j as [|j IH]; [lia|].
  specialize (Hstep j Hj). destruct (decide (i = j)) as [->|]; [done|].
  specialize (IH ltac:(lia) ltac:(lia)). lia.
Qed.

Lemma exp_table_ascending : ascending exp_table = true.
Proof. vm_compute. reflexivity. Qed.

Lemma exp_at_mono i j : 0 <= i <= j -> j < 1024 -> exp_at i <= exp_at j.
Proof.
  intros Hi Hj. unfold exp_at. destruct (Z.eq_dec i j) as [->|]; [lia|].
  apply Z.lt_le_incl, ascending_nth; [exact exp_table_ascending|].
  change (length exp_table) with 1024%nat. lia.
Qed.

Lemma exp_at_range i : 0 <= i < 1024 -> 3550 <= exp_at i < 2 ^ 32.
Proof.
  intros Hi. pose proof (exp_at_mono 0 i ltac:(lia) ltac:(lia)) as H0.
  pose proof (exp_at_mono i 1023 ltac:(lia) ltac:(lia)) as H1.
  change (exp_at 0) with 3550 in H0. change (exp_at 1023) with 4294967295 in H1. lia.
Qed.

(** The interpolation, without wrap-around. *)
Lemma get_exp_eq index : 0 <= index < EXP_INDEX_MAX ->
  let a := index / 2 ^ 22 in let p := index mod 2 ^ 22 in
  map_exp_get_exp index = ((exp_at (a + 1) - exp_at a) * p + 2 ^ 21) / 2 ^ 22 + exp_at a
  /\ 0 <= a < 1023 /\ exp_at a <= map_exp_get_exp index <= exp_at (a + 1).
Proof.
  change EXP_INDEX_MAX with 4290772992. intros Hi a p.
  assert (Ha : 0 <= a < 1023) by (subst a; split; [apply Z.div_pos|apply Z.div_lt_upper_bound]; lia).
  assert (Hp : 0 <= p < 2 ^ 22) by (apply Z.mod_pos_bound; lia).
  pose proof (exp_at_range a ltac:(lia)). pose proof (exp_at_range (a + 1) ltac:(lia)).
  pose proof (exp_at_mono a (a + 1) ltac:(lia) ltac:(lia)).
  unfold map_exp_get_exp. rewrite Z.shiftr_div_pow2 by (cbv; discriminate).
  change EXP_INDEX_MAX with 4290772992. change (2 ^ EXP_INTERP_BITS) with (2 ^ 22). fold a.
  destruct (Z.leb_spec 4290772992 index); [lia|].
  change EXP_INTERP_MASK with (2 ^ 22 - 1). rewrite land_mask by lia. fold p.
  change EXP_INTERP_MAX with (2 ^ 22). change (2 ^ 22 / 2) with (2 ^ 21).
  assert (Hq : 0 <= ((exp_at (a + 1) - exp_at a) * p + 2 ^ 21) / 2 ^ 22 <= exp_at (a + 1) - exp_at a).
  { split; [apply Z.div_pos; nia|]. apply Z.lt_succ_r, Z.div_lt_upper_bound; nia. }
  assert (E : u64 (u64 (u64 (exp_at (a + 1) - exp_at a) * p) + 2 ^ 21)
    = (exp_at (a + 1) - exp_at a) * p + 2 ^ 21).
  { unfold u64. rewrite (wrap_small 64 (exp_at (a + 1) - exp_at a)) by (unfold in_word; lia).
    rewrite (wrap_small 64 (_ * p)), wrap_small; unfold in_word; nia. }
  rewrite E. unfold u64, u32. rewrite !wrap_small; [|unfold in_word; rewrite ?wrap_small; unfold in_word; lia..].
  split; [done|]. lia.
Qed.

Lemma get_exp_mono i j : 0 <= i <= j -> j <= EXP_INDEX_MAX -> map_exp_get_exp i <= map_exp_get_exp j.
Proof.
  change EXP_INDEX_MAX with 4290772992. intros Hi Hj.
  assert (Htop : map_exp_get_exp 4290772992 = exp_at 1023) by reflexivity.
  destruct (Z.eq_dec j 4290772992) as [->|].
  - rewrite Htop. destruct (Z.eq_dec i 4290772992) as [->|]; [rewrite Htop; lia|].
    pose proof (get_exp_eq i ltac:(change EXP_INDEX_MAX with 4290772992; lia)) as (_ & Ha & Hr).
    pose proof (exp_at_mono (i / 2 ^ 22 + 1) 1023 ltac:(lia) ltac:(lia)). lia.
  - pose proof (get_exp_eq i ltac:(change EXP_INDEX_MAX with 4290772992; lia)) as (Ei & Hai & Hri).
    pose proof (get_exp_eq j ltac:(change EXP_INDEX_MAX with 4290772992; lia)) as (Ej & Haj & Hrj).
    pose proof (Z.div_le_mono i j (2 ^ 22) ltac:(lia) ltac:(lia)) as Hd.
    destruct (Z.eq_dec (i / 2 ^ 22) (j / 2 ^ 22)) as [e|].
    + rewrite Ei, Ej, e. apply Z.add_le_mono_r, Z.div_le_mono; [lia|].
      pose proof (exp_at_mono (j / 2 ^ 22) (j / 2 ^ 22 + 1) ltac:(lia) ltac:(lia)).
      pose proof (Z.div_mod i (2 ^ 22) ltac:(lia)). pose proof (Z.div_mod j (2 ^ 22) ltac:(lia)). nia.
    + pose proof (exp_at_mono (i / 2 ^ 22 + 1) (j / 2 ^ 22) ltac:(lia) ltac:(lia)). lia.
Qed.

(** ** Decoding *)

(** Parameters for which the arithmetic of [map_exp_decode] does not wrap. *)
Record params_ok (p : exp_map_t) : Prop := {
  po_offset : 0 <= offset p;
  po_step : 1 <= step p;
  po_enc : 1 <= enc_max p;
  po_prod : step p * enc_max p < 2 ^ 32;
  po_unity : 0 <= unity_index p < EXP_INDEX_MAX;
  po_fits : offset p + step p * enc_max p * map_exp_get_exp EXP_INDEX_MAX
            / map_exp_get_exp (unity_index p) < 2 ^ 32;
  po_dec : dec_max p < 2 ^ 32;
}.

Section params.
Context (p : exp_map_t) (Hp : params_ok p).
Abbreviation dec := (map_exp_decode p).

Lemma index_eq enc : 0 <= enc <= enc_max p ->
  let i := (EXP_INDEX_MAX - unity_index p) * enc / enc_max p + unity_index p in
  map_exp_encoded_to_index p enc = i /\ unity_index p <= i <= EXP_INDEX_MAX.
Proof.
  destruct Hp. change EXP_INDEX_MAX with 4290772992 in *. intros He i.
  assert (Hq : 0 <= (4290772992 - unity_index p) * enc / enc_max p <= 4290772992 - unity_index p).
  { split; [apply Z.div_pos; nia|]. apply Z.div_le_upper_bound; nia. }
  split; [|lia]. unfold map_exp_encoded_to_index. change EXP_INDEX_MAX with 4290772992.
  unfold u64, u32. rewrite (wrap_small 32 (4290772992 - unity_index p)) by (unfold in_word; lia).
  rewrite (wrap_small 64 (_ * enc)) by (unfold in_word; nia).
  rewrite !wrap_small; [done|..]; unfold in_word; rewrite ?wrap_small; unfold in_word; lia.
Qed.

Lemma unity_bounds : 3550 <= map_exp_get_exp (unity_index p) <= map_exp_get_exp EXP_INDEX_MAX
  /\ map_exp_get_exp EXP_INDEX_MAX = 2 ^ 32 - 1.
Proof.
  destruct Hp. split; [|reflexivity]. split; [|apply get_exp_mono; lia].
  transitivity (map_exp_get_exp 0); [vm_compute; discriminate|]. apply get_exp_mono; lia.
Qed.

Lemma decode_eq enc : 0 <= enc <= enc_max p ->
  let e := map_exp_get_exp (map_exp_encoded_to_index p enc) in
  let u := map_exp_get_exp (unity_index p) in
  dec enc = offset p + step p * enc * e / u /\ u <= e <= 2 ^ 32 - 1 /\ dec enc < 2 ^ 32.
Proof.
  intros He e u. destruct (index_eq enc He) as [Ei Hi]. destruct unity_bounds as [[Hu1 Hu2] Hmax].
  fold u in Hu1, Hu2. rewrite Hmax in Hu2.
  assert (Hee : u <= e <= 2 ^ 32 - 1).
  { subst e u. rewrite Ei, <- Hmax. destruct Hp. split; apply get_exp_mono; lia. }
  pose proof Hp as [? ? ? ? ? Hfits ?]. rewrite Hmax in Hfits. fold u in Hfits.
  assert (Hprod : 0 <= step p * enc <= step p * enc_max p) by nia.
  assert (Hq : 0 <= step p * enc * e / u <= step p * enc_max p * (2 ^ 32 - 1) / u).
  { split; [apply Z.div_pos; nia|]. apply Z.div_le_mono; nia. }
  assert (E : dec enc = offset p + step p * enc * e / u).
  { unfold map_exp_decode. fold u e. unfold u64, u32.
    rewrite (wrap_small 64 (step p * enc)) by (unfold in_word; lia).
    rewrite (wrap_small 64 (_ * e)) by (unfold in_word; nia).
    rewrite !wrap_small; [done|..]; unfold in_word; rewrite ?wrap_small; unfold in_word; lia. }
  split_and!; [done|lia|lia|lia].
Qed.

Lemma decode_step e1 e2 : 0 <= e1 < e2 -> e2 <= enc_max p -> dec e1 + step p <= dec e2.
Proof.
  intros H1 H2. destruct (decode_eq e1 ltac:(lia)) as (E1 & [Hu1 _] & _).
  destruct (decode_eq e2 ltac:(lia)) as (E2 & [Hu2 _] & _). rewrite E1, E2.
  destruct (index_eq e1 ltac:(lia)) as [Ei1 [Hi1 _]]. destruct (index_eq e2 ltac:(lia)) as [Ei2 [_ Hi2]].
  destruct unity_bounds as [[Hu _] _]. pose proof Hp as [? ? ? ? ? _ _].
  set (u := map_exp_get_exp (unity_index p)) in *.
  assert (Hm : map_exp_get_exp (map_exp_encoded_to_index p e1) <= map_exp_get_exp (map_exp_encoded_to_index p e2)).
  { rewrite Ei1, Ei2. apply get_exp_mono; [|lia]. split; [lia|].
    apply Z.add_le_mono_r, Z.div_le_mono; [lia|]. apply Z.mul_le_mono_nonneg_l; lia. }
  set (x1 := map_exp_get_exp (map_exp_encoded_to_index p e1)) in *.
  set (x2 := map_exp_get_exp (map_exp_encoded_to_index p e2)) in *.
  assert (Hs : step p * e1 * x1 + step p * u <= step p * e2 * x2).
  { assert (Ha : step p * e1 * x1 <= step p * e1 * x2) by (apply Z.mul_le_mono_nonneg_l; nia).
    assert (Hb : step p * (e1 + 1) * x2 <= step p * e2 * x2)
      by (apply Z.mul_le_mono_nonneg_r; [lia|apply Z.mul_le_mono_nonneg_l; lia]).
    assert (Hc : step p * u <= step p * x2) by (apply Z.mul_le_mono_nonneg_l; lia). lia. }
  assert (Hd : (step p * e1 * x1 + step p * u) / u <= step p * e2 * x2 / u) by (apply Z.div_le_mono; lia).
  rewrite Z.div_add in Hd by lia. lia.
Qed.

Lemma decode_mono e1 e2 : 0 <= e1 <= e2 -> e2 <= enc_max p -> dec e1 <= dec e2.
Proof.
  intros H1 H2. destruct (Z.eq_dec e1 e2) as [->|]; [lia|].
  pose proof (decode_step e1 e2 ltac:(lia) H2). pose proof (po_step _ Hp). lia.
Qed.

Lemma decode_0 : dec 0 = offset p.
Proof.
  destruct (decode_eq 0) as (E & _); [pose proof (po_enc _ Hp); lia|].
  rewrite E, Z.mul_0_r, Z.mul_0_l, Z.div_0_l; [lia|]. destruct unity_bounds; lia.
Qed.

(** ** The search loops *)

Lemma down_while_spec cond fuel e : 0 <= e <= enc_max p -> (Z.to_nat e < fuel)%nat ->
  exists e', down_while fuel p cond (dec e) e = Some (dec e', e') /\ 0 <= e' <= e
    /\ (e' = 0 \/ cond (dec e') = false) /\ forall k, e' < k <= e -> cond (dec k) = true.
Proof.
  intros He. revert e He. induction fuel as [|f IH]; intros e He Hf; [lia|].
  cbn [down_while]. destruct (cond (dec e)) eqn:Ec; cbn [andb].
  - destruct (Z.ltb_spec 0 e).
    + destruct (IH (e - 1) ltac:(lia) ltac:(lia)) as (e' & -> & Hr & Hc & Hk).
      exists e'. split_and!; [done|lia|lia|done|]. intros k Hk'.
      destruct (Z.eq_dec k e) as [->|]; [done|apply Hk; lia].
    + exists e. split_and!; [done|lia|lia|left; lia|lia].
  - exists e. split_and!; [done|lia|lia|by right|lia].
Qed.

Lemma up_while_spec cond fuel e : 0 <= e <= enc_max p -> (Z.to_nat (enc_max p - e) < fuel)%nat ->
  exists e', up_while fuel p cond (dec e) e = Some (dec e', e') /\ e <= e' <= enc_max p
    /\ (e' = enc_max p \/ cond (dec e') = false) /\ forall k, e <= k < e' -> cond (dec k) = true.
Proof.
  intros He. revert e He. induction fuel as [|f IH]; intros e He Hf; [lia|].
  cbn [up_while]. destruct (cond (dec e)) eqn:Ec; cbn [andb].
  - destruct (Z.ltb_spec e (enc_max p)).
    + destruct (IH (e + 1) ltac:(lia) ltac:(lia)) as (e' & -> & Hr & Hc & Hk).
      exists e'. split_and!; [done|lia|lia|done|]. intros k Hk'.
      destruct (Z.eq_dec k e) as [->|]; [done|apply Hk; lia].
    + exists e. split_and!; [done|lia|lia|left; lia|lia].
  - exists e. split_and!; [done|lia|lia|by right|lia].
Qed.

Lemma start_range val : offset p < val -> val < dec_max p ->
  let e := u32 (val - offset p) / step p in
  0 <= (if enc_max p <? e then enc_max p else e) <= enc_max p.
Proof.
  pose proof Hp as [? ? ? ? ? _ ?]. intros Hv1 Hv2 e. unfold e, u32.
  rewrite wrap_small by (unfold in_word; lia).
  assert (0 <= (val - offset p) / step p) by (apply Z.div_pos; lia).
  destruct (Z.ltb_spec (enc_max p) ((val - offset p) / step p)); lia.
Qed.
End params.

(** Rounding up: between the limits, the code found is the least whose decoding
    reaches the value, or the last code when none does. *)
Lemma encode_up_spec p val : params_ok p -> offset p < val < dec_max p ->
  exists e, map_exp_encode p val true = Some e /\ 0 <= e <= enc_max p
    /\ (val <= map_exp_decode p e \/ e = enc_max p)
    /\ forall k, 0 <= k < e -> map_exp_decode p k < val.
Proof.
  intros Hp [Hv1 Hv2]. unfold map_exp_encode.
  destruct (Z.leb_spec val (offset p)); [lia|]. destruct (Z.leb_spec (dec_max p) val); [lia|].
  pose proof (start_range p Hp val Hv1 Hv2) as He. cbv zeta in He.
  set (e0 := if enc_max p <? _ then _ else _) in *.
  destruct (down_while_spec p (fun dec => true && (val <=? dec)) (S (Z.to_nat (enc_max p))) e0 He ltac:(lia))
    as (e1 & -> & Hr1 & Hc1 & _).
  destruct (up_while_spec p (fun dec => (dec <? val) || (negb true && (dec <=? val)))
    (S (Z.to_nat (enc_max p))) e1 ltac:(lia) ltac:(lia)) as (e2 & -> & Hr2 & Hc2 & Hk2).
  cbn [down_while negb andb]. exists e2. split_and!; [done|lia|lia| |].
  - destruct Hc2 as [?|Hc2]; [by right|left]. rewrite orb_false_r in Hc2. by apply Z.ltb_ge.
  - intros k Hk. destruct (Z.le_gt_cases e1 k) as [Hle|Hgt].
    + specialize (Hk2 k ltac:(lia)). cbn in Hk2. rewrite orb_false_r in Hk2. by apply Z.ltb_lt.
    + destruct Hc1 as [?|Hc1]; [lia|]. cbn in Hc1. apply Z.leb_gt in Hc1.
      pose proof (decode_mono p Hp k e1 ltac:(lia) ltac:(lia)). lia.
Qed.

(** Rounding down: the code found is the greatest whose decoding stays within the
    value. *)
Lemma encode_down_spec p val : params_ok p -> offset p < val < dec_max p ->
  exists e, map_exp_encode p val false = Some e /\ 0 <= e <= enc_max p
    /\ map_exp_decode p e <= val
    /\ forall k, e < k <= enc_max p -> val < map_exp_decode p k.
Proof.
  intros Hp [Hv1 Hv2]. unfold map_exp_encode.
  destruct (Z.leb_spec val (offset p)); [lia|]. destruct (Z.leb_spec (dec_max p) val); [lia|].
  pose proof (start_range p Hp val Hv1 Hv2) as He. cbv zeta in He.
  set (e0 := if enc_max p <? _ then _ else _) in *.
  assert (H1 : down_while (S (Z.to_nat (enc_max p))) p (fun dec => false && (val <=? dec))
    (map_exp_decode p e0) e0 = Some (map_exp_decode p e0, e0)) by done.
  rewrite H1. clear H1.
  destruct (up_while_spec p (fun dec => (dec <? val) || (negb false && (dec <=? val)))
    (S (Z.to_nat (enc_max p))) e0 ltac:(lia) ltac:(lia)) as (e2 & -> & Hr2 & Hc2 & Hk2).
  destruct (down_while_spec p (fun dec => negb false && (val <? dec)) (S (Z.to_nat (enc_max p))) e2
    ltac:(lia) ltac:(lia)) as (e3 & -> & Hr3 & Hc3 & Hk3). cbn [negb andb] in *.
  exists e3. split_and!; [done|lia|lia| |].
  - destruct Hc3 as [->|Hc3]; [rewrite decode_0 by done; lia|by apply Z.ltb_ge].
  - intros k Hk. destruct (Z.le_gt_cases k e2) as [Hle|Hgt].
    + apply Z.ltb_lt. apply Hk3. lia.
    + destruct Hc2 as [?|Hc2]; [lia|]. apply orb_false_iff in Hc2 as [_ Hc2%Z.leb_gt].
      pose proof (decode_mono p Hp e2 k ltac:(lia) ltac:(lia)). lia.
Qed.

(** Between the limits the search terminates with the nearest code: rounding up, the
    least code whose decoding reaches the value (the last code when none does);
    rounding down, the greatest whose decoding stays within it. *)
Theorem map_exp_encode_correct p val : params_ok p -> offset p < val < dec_max p ->
  exists up down,
    map_exp_encode p val true = Some up /\ map_exp_encode p val false = Some down
    /\ 0 <= up <= enc_max p /\ 0 <= down <= enc_max p
    /\ (val <= map_exp_decode p up \/ up = enc_max p)
    /\ (forall k, 0 <= k < up -> map_exp_decode p k < val)
    /\ map_exp_decode p down <= val
    /\ (forall k, down < k <= enc_max p -> val < map_exp_decode p k).
Proof.
  intros Hp Hv. destruct (encode_up_spec p val Hp Hv) as (up & ? & ? & ? & ?).
  destruct (encode_down_spec p val Hp Hv) as (down & ? & ? & ? & ?).
  exists up, down. tauto.
Qed.

(** Codes survive a decode / encode round trip in both rounding modes, and distinct
    codes decode to distinct values. *)
Theorem map_exp_roundtrip p e roundup : params_ok p ->
  0 <= e <= enc_max p -> map_exp_decode p (enc_max p) = dec_max p ->
  map_exp_encode p (map_exp_decode p e) roundup = Some e.
Proof.
  intros Hp He Hmax. pose proof (po_step _ Hp) as Hs. pose proof (decode_0 p Hp) as H0.
  destruct (Z.eq_dec e 0) as [->|].
  { unfold map_exp_encode. rewrite H0. destruct (Z.leb_spec (offset p) (offset p)); [done|lia]. }
  pose proof (decode_step p Hp 0 e ltac:(lia) ltac:(lia)).
  destruct (Z.eq_dec e (enc_max p)) as [->|].
  { unfold map_exp_encode. rewrite Hmax. destruct (Z.leb_spec (dec_max p) (offset p)); [lia|].
    destruct (Z.leb_spec (dec_max p) (dec_max p)); [done|lia]. }
  pose proof (decode_step p Hp e (enc_max p) ltac:(lia) ltac:(lia)).
  set (v := map_exp_decode p e) in *. assert (Hv : offset p < v < dec_max p) by lia.
  destruct roundup.
  - destruct (encode_up_spec p v Hp Hv) as (k & -> & Hk & Hge & Hlt). f_equal.
    destruct (Z.lt_trichotomy k e) as [Hke|[?|Hke]]; [|done|specialize (Hlt e ltac:(lia)); lia].
    pose proof (decode_step p Hp k e ltac:(lia) ltac:(lia)). lia.
  - destruct (encode_down_spec p v Hp Hv) as (k & -> & Hk & Hle & Hgt). f_equal.
    destruct (Z.lt_trichotomy k e) as [Hke|[?|Hke]]; [specialize (Hgt e ltac:(lia)); lia|done|].
    pose proof (decode_step p Hp e k ltac:(lia) ltac:(lia)). lia.
Qed.

(** The payment-time parameters satisfy the conditions, and reach their limit. *)
Lemma paytime_ok : params_ok paytime_params /\
  map_exp_decode paytime_params (enc_max paytime_params) = dec_max paytime_params.
Proof. split; [constructor|]; vm_compute; repeat split; congruence. Qed.

Lemma map_exp_encode_correct_witness : map_exp_encode paytime_params 3600 true = Some 102 /\
  exists up down,
    map_exp_encode paytime_params 3600 true = Some up /\ map_exp_encode paytime_params 3600 false = Some down
    /\ 0 <= up <= 255 /\ 0 <= down <= 255
    /\ (3600 <= map_exp_decode paytime_params up \/ up = 255)
    /\ (forall k, 0 <= k < up -> map_exp_decode paytime_params k < 3600)
    /\ map_exp_decode paytime_params down <= 3600
    /\ (forall k, down < k <= 255 -> 3600 < map_exp_decode paytime_params k).
Proof.
  split; [vm_compute; reflexivity|].
  apply (map_exp_encode_correct paytime_params 3600); [apply paytime_ok|cbn; lia].
Defined.

Lemma map_exp_roundtrip_witness :
  map_exp_encode paytime_params (map_exp_decode paytime_params 200) false = Some 200.
Proof. apply map_exp_roundtrip; [apply paytime_ok|cbn; lia|apply paytime_ok]. Defined.
