(* ===== verification/Amounts.v ===== *)
(** * Amounts (src/source/cclib/src/amounts.cpp)

    Conversions between [bigint_t] and the checked 256-bit integers [amtint_t], the
    packed forms stored in the database, whose memory order is numeric order, and
    the textual clean-up of decimal amounts.  Arithmetic on decimal floats is the
    boost library's and not modelled. *)
From S2P Require Import Prelude Bigint.

Local Open Scope Z_scope.
Local Open Scope cc_scope.

(** ** Checked integers

    [amtint_t] is a sign and a magnitude of 256 bits; an operation whose magnitude
    does not fit throws [range_error]. *)

Abbreviation amtint := Z.

Definition checked (x : Z) : outcome amtint :=
  if Z.abs x <? 2 ^ 256 then Ret x else Throw (RangeError 0).

Definition BIT63 (w : Z) : bool := negb (Z.land w (Z.shiftl 1 63) =? 0).

Section conversions.
Context {B : BigOps}.

Definition amount_from_bigint (amount : bigint) : outcome amtint :=
  let neg := BIT63 (BIGWORD amount 3) in
  let adj_amount := if neg then subBigInt (of_bval 0) amount else amount in
  let! val := checked (BIGWORD adj_amount 3) in
  let! val := checked (Z.shiftl val 64) in
  let! val := checked (Z.lor val (BIGWORD adj_amount 2)) in
  let! val := checked (Z.shiftl val 64) in
  let! val := checked (Z.lor val (BIGWORD adj_amount 1)) in
  let! val := checked (Z.shiftl val 64) in
  let! val := checked (Z.lor val (BIGWORD adj_amount 0)) in
  if neg then checked (- val) else Ret val.

Definition amount_to_bigint (amount : amtint) : outcome bigint :=
  let! adj_amount := if amount <? 0 then checked (- amount) else Ret amount in
  let w0 := Z.land adj_amount UINT64_MAX in
  let adj_amount := Z.shiftr adj_amount 64 in
  let w1 := Z.land adj_amount UINT64_MAX in
  let adj_amount := Z.shiftr adj_amount 64 in
  let w2 := Z.land adj_amount UINT64_MAX in
  let adj_amount := Z.shiftr adj_amount 64 in
  let w3 := Z.land adj_amount UINT64_MAX in
  let val := [w0; w1; w2; w3] in
  Ret (if amount <? 0 then subBigInt (of_bval 0) val else val).

(** ** Packed amounts *)

Record packed_unsigned_amount_t := mkPU { uhi : Z; ulo : Z }.
Record packed_signed_amount_t := mkPS { shi : Z; smid : Z; slo : Z }.

(** The packed structures as the bytes [memcmp] sees. *)
Definition unsigned_image (p : packed_unsigned_amount_t) : list Z :=
  le_bytes 8 (uhi p) ++ le_bytes 8 (ulo p).
Definition signed_image (p : packed_signed_amount_t) : list Z :=
  le_bytes 8 (shi p) ++ le_bytes 8 (smid p) ++ le_bytes 8 (slo p).

(** The two low limbs of [amount] are written, the others kept. *)
Definition unpack_unsigned_amount (packed : packed_unsigned_amount_t) (amount : bigint) : bigint :=
  SETWORD (SETWORD amount 0 (bswap_64 (ulo packed))) 1 (bswap_64 (uhi packed)).

(** [zero] is a default-constructed [bigint_t]; the result code is nonzero when the
    amount does not survive. *)
Definition pack_unsigned_amount (zero amount : bigint) : bool * packed_unsigned_amount_t :=
  let packed := mkPU (bswap_64 (BIGWORD amount 1)) (bswap_64 (BIGWORD amount 0)) in
  let unpacked := unpack_unsigned_amount packed zero in
  (negb (bval unpacked =? bval amount), packed).

Definition pack_unsigned_amtint (zero : bigint) (amount : amtint)
  : outcome (bool * packed_unsigned_amount_t) :=
  let! vi := amount_to_bigint amount in Ret (pack_unsigned_amount zero vi).

Definition unpack_unsigned_amtint (zero : bigint) (packed : packed_unsigned_amount_t) : outcome amtint :=
  amount_from_bigint (unpack_unsigned_amount packed zero).

(** [(1 << 63) * (1 << 63) * (1 << 63) * 4]. *)
Definition pack_offset : bigint :=
  let b := of_bval (2 ^ 63) in timesBigInt (timesBigInt (timesBigInt b b) b) (of_bval 4).

Definition unpack_signed_amount (packed : packed_signed_amount_t) (amount : bigint) : bigint :=
  let amount := SETWORD amount 0 (bswap_64 (slo packed)) in
  let amount := SETWORD amount 1 (bswap_64 (smid packed)) in
  let amount := SETWORD amount 2 (bswap_64 (shi packed)) in
  let amount := subBigInt amount pack_offset in
  SETWORD amount 3 (if BIT63 (BIGWORD amount 2) then UINT64_MAX else 0).

Definition pack_signed_amount (zero amount : bigint) : bool * packed_signed_amount_t :=
  let adj_amount := addBigInt amount pack_offset in
  let packed := mkPS (bswap_64 (BIGWORD adj_amount 2)) (bswap_64 (BIGWORD adj_amount 1))
                  (bswap_64 (BIGWORD adj_amount 0)) in
  let unpacked := unpack_signed_amount packed zero in
  (negb (bval unpacked =? bval amount), packed).

Definition pack_signed_amtint (zero : bigint) (amount : amtint)
  : outcome (bool * packed_signed_amount_t) :=
  let! vi := amount_to_bigint amount in Ret (pack_signed_amount zero vi).

Definition unpack_signed_amtint (zero : bigint) (packed : packed_signed_amount_t) : outcome amtint :=
  amount_from_bigint (unpack_signed_amount packed zero).
End conversions.

(** ** Text *)

Definition ASSET_NO_SCALE : Z := -27.

(** The power of ten by which the amounts of an asset are scaled. *)
Definition asset_scale_exponent (asset : Z) : Z := Z.land (u64 (asset - ASSET_NO_SCALE)) 31.

(** Index of the first character satisfying [f], and of the last. *)
Fixpoint find_first (f : Z -> bool) (s : list Z) : option nat :=
  match s with
  | [] => None
  | c :: s => if f c then Some 0%nat else S <$> find_first f s
  end.
Fixpoint find_last (f : Z -> bool) (s : list Z) : option nat :=
  match s with
  | [] => None
  | c :: s => match find_last f s with
              | Some i => Some (S i)
              | None => if f c then Some 0%nat else None
              end
  end.

(** The clean-up applied to the fixed-point text of an amount: 46 is the point, 48
    the digit zero, 69 and 101 the exponent letters. *)
Definition amount_to_string (s : list Z) (add_decimal : bool) : list Z :=
  match find_first (fun c => (c =? 101) || (c =? 69)) s with
  | Some _ => s
  | None =>
      let s :=
        match find_first (Z.eqb 46) s with
        | Some dec =>
            match find_last (fun c => negb (c =? 48)) s with
            | Some z => if (dec =? z)%nat then take dec s else take (z + 1) s
            | None => s
            end
        | None => s
        end in
      if add_decimal && bool_decide (find_first (Z.eqb 46) s = None) then s ++ [46; 48] else s
  end.

(** ** Memory order *)

(** The sign of [memcmp] on buffers of the same length. *)
Fixpoint memcmp (l1 l2 : list Z) : comparison :=
  match l1, l2 with
  | a :: l1, b :: l2 => match a ?= b with Eq => memcmp l1 l2 | c => c end
  | _, _ => Eq
  end.

Definition be_val (l : list Z) : Z := le_val (rev l).

Lemma be_val_cons a l : be_val (a :: l) = a * 2 ^ (8 * Z.of_nat (length l)) + be_val l.
Proof.
  unfold be_val, le_val. cbn [rev]. rewrite digits_val_app by lia.
  cbn [digits_val]. rewrite length_rev. lia.
Qed.

Lemma be_val_range l : bytes_ok l -> 0 <= be_val l < 2 ^ (8 * Z.of_nat (length l)).
Proof.
  intros H. unfold be_val, le_val. rewrite <- (length_rev l).
  apply digits_val_range; [lia|by apply bytes_ok_rev].
Qed.

(** Big-endian images compare as the numbers they hold. *)
Lemma memcmp_be l1 l2 : bytes_ok l1 -> bytes_ok l2 -> length l1 = length l2 ->
  memcmp l1 l2 = (be_val l1 ?= be_val l2).
Proof.
  revert l2. induction l1 as [|a l1 IH]; intros [|b l2] H1 H2 Hl; try done.
  apply Forall_cons in H1 as [Ha H1]. apply Forall_cons in H2 as [Hb H2]. injection Hl as Hl.
  cbn [memcmp]. rewrite !be_val_cons, <- Hl.
  pose proof (be_val_range l1 H1). pose proof (be_val_range l2 H2) as Hr2. rewrite <- Hl in Hr2.
  set (k := 2 ^ (8 * Z.of_nat (length l1))) in *.
  destruct (Z.compare_spec a b) as [->|Hlt|Hgt].
  - rewrite IH by done. symmetry. destruct (Z.compare_spec (be_val l1) (be_val l2)) as [->|?|?];
      [apply Z.compare_refl|apply Z.compare_lt_iff; lia|apply Z.compare_gt_iff; lia].
  - symmetry. apply Z.compare_lt_iff. nia.
  - symmetry. apply Z.compare_gt_iff. nia.
Qed.

Lemma be_val_app l1 l2 : be_val (l1 ++ l2) = be_val l1 * 2 ^ (8 * Z.of_nat (length l2)) + be_val l2.
Proof.
  unfold be_val, le_val. rewrite rev_app_distr, digits_val_app by lia. rewrite length_rev. lia.
Qed.

(** A swapped word is stored big-endian. *)
Lemma be_val_swapped w : in_word 64 w -> be_val (le_bytes 8 (bswap_64 w)) = w.
Proof.
  intros Hw. unfold be_val. rewrite bswap_64_bytes, rev_involutive. by apply le_val_bytes_small.
Qed.

(** ** Limbs *)

Lemma bval_limbs a b c d : bval [a; b; c; d] = a + 2 ^ 64 * (b + 2 ^ 64 * (c + 2 ^ 64 * d)).
Proof. unfold bval. cbn [digits_val]. lia. Qed.

Lemma BIT63_spec w : in_word 64 w -> BIT63 w = (2 ^ 63 <=? w).
Proof.
  intros Hw. unfold in_word in Hw. unfold BIT63. rewrite Z.shiftl_1_l, land_pow2_testbit by lia.
  rewrite Z.testbit_odd, Z.shiftr_div_pow2 by lia.
  destruct (Z.leb_spec (2 ^ 63) w) as [H|H].
  - replace (w / 2 ^ 63) with 1; [done|]. apply Z.div_unique with (w - 2 ^ 63); lia.
  - by rewrite Z.div_small by lia.
Qed.

Lemma checked_ok x : - 2 ^ 256 < x < 2 ^ 256 -> checked x = Ret x.
Proof. intros. unfold checked. destruct (Z.ltb_spec (Z.abs x) (2 ^ 256)); [done|lia]. Qed.

Lemma land_max64 x : Z.land x UINT64_MAX = wrap 64 x.
Proof. apply (land_mask x 64). lia. Qed.

Section proofs.
Context {B : BigOps} {HB : BigOpsSpec B}.

(** The four shift-and-or steps rebuild the value, without overflow. *)
Lemma limbs_to_amount a b c d : in_word 64 a -> in_word 64 b -> in_word 64 c -> in_word 64 d ->
  (let! val := checked d in
   let! val := checked (Z.shiftl val 64) in let! val := checked (Z.lor val c) in
   let! val := checked (Z.shiftl val 64) in let! val := checked (Z.lor val b) in
   let! val := checked (Z.shiftl val 64) in checked (Z.lor val a)) = Ret (bval [a; b; c; d]).
Proof.
  intros Ha Hb Hc Hd. rewrite bval_limbs. unfold in_word in *.
  assert (E : forall x y, 0 <= y < 2 ^ 64 -> Z.lor (Z.shiftl x 64) y = x * 2 ^ 64 + y)
    by (intros; by apply lor_shiftl_add).
  rewrite checked_ok by lia. cbn [outcome_bind].
  rewrite checked_ok by (rewrite Z.shiftl_mul_pow2; lia). cbn [outcome_bind].
  rewrite E, checked_ok by lia. cbn [outcome_bind].
  rewrite checked_ok by (rewrite Z.shiftl_mul_pow2; lia). cbn [outcome_bind].
  rewrite E, checked_ok by lia. cbn [outcome_bind].
  rewrite checked_ok by (rewrite Z.shiftl_mul_pow2; lia). cbn [outcome_bind].
  rewrite E, checked_ok by lia. f_equal. lia.
Qed.

Lemma bval_top a b c d : in_word 64 a -> in_word 64 b -> in_word 64 c -> in_word 64 d ->
  (2 ^ 63 <=? d) = (2 ^ 255 <=? bval [a; b; c; d]).
Proof.
  intros Ha Hb Hc Hd. rewrite bval_limbs. unfold in_word in *.
  destruct (Z.leb_spec (2 ^ 63) d), (Z.leb_spec (2 ^ 255) (a + 2 ^ 64 * (b + 2 ^ 64 * (c + 2 ^ 64 * d)))); lia.
Qed.

Lemma amount_from_bigint_eq x : bigint_ok x -> amount_from_bigint x = Ret (sint 256 (bval x)).
Proof.
  intros Hx. pose proof (bval_range x Hx) as Hr.
  pose proof Hx as (a & b & c & d & -> & Ha & Hb & Hc & Hd)%bigint_ok_inv.
  unfold amount_from_bigint. cbv zeta. change (BIGWORD [a; b; c; d] 3) with d.
  rewrite !BIT63_spec, !(bval_top a b c d) by done.
  unfold sint. rewrite wrap_small by done. change (256 - 1) with 255. unfold in_word in Hr.
  destruct (Z.leb_spec (2 ^ 255) (bval [a; b; c; d])), (Z.ltb_spec (bval [a; b; c; d]) (2 ^ 255)); try lia.
  - pose proof (sub_ok (of_bval 0) [a; b; c; d] (of_bval_ok 0) Hx) as Hs.
    pose proof (sub_val (of_bval 0) [a; b; c; d] (of_bval_ok 0) Hx) as Hv.
    rewrite bval_of in Hv. change (u256 0) with 0 in Hv.
    pose proof Hs as (a' & b' & c' & d' & E & Ha' & Hb' & Hc' & Hd')%bigint_ok_inv. rewrite E in *.
    unfold BIGWORD. cbn [nth]. pose proof (limbs_to_amount a' b' c' d' Ha' Hb' Hc' Hd') as L.
    destruct (checked d') as [v|]; [|discriminate L]. cbn [outcome_bind] in *.
    repeat (match type of L with (outcome_bind ?m _) = _ => destruct m; [|discriminate L] end; cbn [outcome_bind] in * ).
    rewrite L. cbn [outcome_bind]. rewrite Hv.
    replace (u256 (0 - bval [a; b; c; d])) with (2 ^ 256 - bval [a; b; c; d])
      by (unfold u256, wrap; apply Z.mod_unique_pos with (-1); lia).
    rewrite checked_ok by lia. f_equal. lia.
  - unfold BIGWORD. cbn [nth]. pose proof (limbs_to_amount a b c d Ha Hb Hc Hd) as L.
    destruct (checked d) as [v|]; [|discriminate L]. cbn [outcome_bind] in *.
    repeat (match type of L with (outcome_bind ?m _) = _ => destruct m; [|discriminate L] end; cbn [outcome_bind] in * ).
    by rewrite L.
Qed.

Lemma amount_to_bigint_eq a : - 2 ^ 256 < a < 2 ^ 256 ->
  exists x, amount_to_bigint a = Ret x /\ bigint_ok x /\ bval x = u256 a.
Proof.
  intros Ha.
  assert (Hw : forall y, [Z.land y UINT64_MAX; Z.land (Z.shiftr y 64) UINT64_MAX;
      Z.land (Z.shiftr (Z.shiftr y 64) 64) UINT64_MAX;
      Z.land (Z.shiftr (Z.shiftr (Z.shiftr y 64) 64) 64) UINT64_MAX] = of_bval y).
  { intros y. rewrite !land_max64, !Z.shiftr_div_pow2 by lia. done. }
  unfold amount_to_bigint. destruct (Z.ltb_spec a 0).
  - rewrite checked_ok by lia. cbn [outcome_bind]. rewrite Hw.
    eexists. split; [done|]. split; [apply sub_ok; apply of_bval_ok|].
    rewrite sub_val, !bval_of by apply of_bval_ok. unfold u256, wrap. rewrite <- Zminus_mod. f_equal. lia.
  - cbn [outcome_bind]. rewrite Hw. eexists. split; [done|]. split; [apply of_bval_ok|]. by rewrite bval_of.
Qed.

(** A 256-bit integer read as an amount is its two's complement value, and converts
    back to the same limbs; amounts in that range convert back to themselves. *)
Theorem amount_bigint_roundtrip x a : bigint_ok x -> - 2 ^ 255 <= a < 2 ^ 255 ->
  (exists v, amount_from_bigint x = Ret v /\ - 2 ^ 255 <= v < 2 ^ 255 /\ v mod 2 ^ 256 = bval x
             /\ amount_to_bigint v = Ret x)
  /\ (exists y, amount_to_bigint a = Ret y /\ amount_from_bigint y = Ret a).
Proof.
  intros Hx Ha. pose proof (sint_range 256 (bval x) ltac:(lia)) as Hs. change (256 - 1) with 255 in Hs.
  assert (Hm : u256 (sint 256 (bval x)) = bval x).
  { unfold u256. rewrite wrap_sint by lia. by apply wrap_small, bval_range. }
  split.
  - exists (sint 256 (bval x)). split; [by apply amount_from_bigint_eq|]. split; [exact Hs|]. split; [exact Hm|].
    destruct (amount_to_bigint_eq (sint 256 (bval x)) ltac:(lia)) as (y & -> & Hy & Hv).
    f_equal. apply bval_inj; [done|done|]. by rewrite Hv.
  - destruct (amount_to_bigint_eq a ltac:(lia)) as (y & -> & Hy & Hv). exists y. split; [done|].
    rewrite amount_from_bigint_eq, Hv by done. f_equal. unfold u256.
    transitivity (sint 256 a); [apply sint_cong, wrap_wrap|]. apply sint_id; lia.
Qed.
End proofs.

Lemma amount_bigint_roundtrip_witness :
  let x := [UINT64_MAX - 4; UINT64_MAX; UINT64_MAX; UINT64_MAX] in
  amount_from_bigint (B := ref_bigops) x = Ret (-5) /\
  (exists v, amount_from_bigint (B := ref_bigops) x = Ret v /\ - 2 ^ 255 <= v < 2 ^ 255
             /\ v mod 2 ^ 256 = bval x /\ amount_to_bigint (B := ref_bigops) v = Ret x)
  /\ (exists y, amount_to_bigint (B := ref_bigops) (-7) = Ret y /\ amount_from_bigint (B := ref_bigops) y = Ret (-7)).
Proof.
  intros x. split; [vm_compute; reflexivity|]. apply (amount_bigint_roundtrip x (-7)).
  - apply bigint_ok_intro; vm_compute; split; congruence.
  - lia.
Defined.

(** ** Packing *)

Section packing.
Context {B : BigOps} {HB : BigOpsSpec B} (zero : bigint) (Hzero : bigint_ok zero) (Hz0 : bval zero = 0).

Lemma zero_limbs : zero = [0; 0; 0; 0].
Proof. apply bval_inj; [done|by apply (of_bval_ok 0)|done]. Qed.

Lemma pack_unsigned_eq amount : bigint_ok amount ->
  exists p, pack_unsigned_amount zero amount = (2 ^ 128 <=? bval amount, p)
    /\ bval (unpack_unsigned_amount p zero) = bval amount mod 2 ^ 128
    /\ be_val (unsigned_image p) = bval amount mod 2 ^ 128.
Proof.
  intros (a & b & c & d & -> & Ha & Hb & Hc & Hd)%bigint_ok_inv.
  unfold pack_unsigned_amount, unpack_unsigned_amount. rewrite zero_limbs. unfold BIGWORD, SETWORD.
  cbn [nth uhi ulo insert list_insert]. rewrite !bswap_64_invol by done.
  eexists. split; [|split].
  - f_equal. rewrite !bval_limbs. unfold in_word in *.
    destruct (Z.eqb_spec (a + 2 ^ 64 * (b + 2 ^ 64 * (0 + 2 ^ 64 * 0)))
      (a + 2 ^ 64 * (b + 2 ^ 64 * (c + 2 ^ 64 * d)))),
      (Z.leb_spec (2 ^ 128) (a + 2 ^ 64 * (b + 2 ^ 64 * (c + 2 ^ 64 * d)))); try done; lia.
  - cbn [uhi ulo]. rewrite !bswap_64_invol by done. rewrite !bval_limbs. unfold in_word in *.
    apply Z.mod_unique_pos with (c + 2 ^ 64 * d); lia.
  - unfold unsigned_image. cbn [uhi ulo]. rewrite be_val_app, !be_val_swapped, length_le_bytes by done.
    rewrite !bval_limbs. unfold in_word in *. apply Z.mod_unique_pos with (c + 2 ^ 64 * d); lia.
Qed.

Lemma unsigned_image_ok p : bytes_ok (unsigned_image p) /\ length (unsigned_image p) = 16%nat.
Proof.
  unfold unsigned_image. rewrite length_app, !length_le_bytes. split; [|done].
  apply bytes_ok_app. split; apply le_bytes_ok.
Qed.

Lemma signed_image_ok p : bytes_ok (signed_image p) /\ length (signed_image p) = 24%nat.
Proof.
  unfold signed_image. rewrite !length_app, !length_le_bytes. split; [|done].
  rewrite !bytes_ok_app. split_and!; apply le_bytes_ok.
Qed.

(** Unsigned packing succeeds exactly on the values below [2 ^ 128], is undone by
    unpacking, and makes [memcmp] the numeric order. *)
Theorem pack_unsigned_amount_correct x y : bigint_ok x -> bigint_ok y ->
  let '(rcx, px) := pack_unsigned_amount zero x in
  let '(rcy, py) := pack_unsigned_amount zero y in
  (rcx = false <-> bval x < 2 ^ 128)
  /\ (rcx = false -> bval (unpack_unsigned_amount px zero) = bval x)
  /\ (rcx = false -> rcy = false ->
      memcmp (unsigned_image px) (unsigned_image py) = (bval x ?= bval y)).
Proof.
  intros Hx Hy. destruct (pack_unsigned_eq x Hx) as (px & -> & Hux & Hix).
  destruct (pack_unsigned_eq y Hy) as (py & -> & _ & Hiy).
  pose proof (bval_range x Hx) as [Hx0 _]. pose proof (bval_range y Hy) as [Hy0 _].
  rewrite !Z.leb_gt. split_and!; [done| |].
  - intros Hlt. by rewrite Hux, Z.mod_small.
  - intros Hlx Hly. destruct (unsigned_image_ok px), (unsigned_image_ok py).
    rewrite memcmp_be by congruence. by rewrite Hix, Hiy, !Z.mod_small.
Qed.

Lemma times_small x y v : bigint_ok x -> bigint_ok y -> bval x * bval y = v -> v < 2 ^ 253 ->
  bigint_ok (timesBigInt x y) /\ bval (timesBigInt x y) = v.
Proof.
  intros Hx Hy <- Hv. split; [auto with cc|]. rewrite times_val by done. pose proof prime_bits.
  unfold TX_FIELD_BITS in *. pose proof (bval_range _ Hx). pose proof (bval_range _ Hy). unfold in_word in *.
  apply Z.mod_small. nia.
Qed.

Lemma pack_offset_ok : bigint_ok pack_offset /\ bval pack_offset = 2 ^ 191.
Proof.
  destruct (times_small (of_bval (2 ^ 63)) (of_bval (2 ^ 63)) (2 ^ 126) (of_bval_ok _) (of_bval_ok _) eq_refl eq_refl)
    as [H1 E1].
  destruct (times_small _ (of_bval (2 ^ 63)) (2 ^ 189) H1 (of_bval_ok _)) as [H2 E2]; [by rewrite E1|done|].
  apply (times_small _ (of_bval 4) (2 ^ 191) H2 (of_bval_ok _)); [by rewrite E2|done].
Qed.

Lemma sint_range_mod w x : 0 < w -> in_word w x ->
  sint w x = if x <? 2 ^ (w - 1) then x else x - 2 ^ w.
Proof. intros Hw Hx. unfold sint. by rewrite wrap_small. Qed.

(** Offsetting, cutting to three limbs and sign-extending keeps the low 192 bits. *)
Lemma pack_signed_eq amount : bigint_ok amount ->
  exists p, pack_signed_amount zero amount = (negb (u256 (sint 192 (bval amount)) =? bval amount), p)
    /\ bigint_ok (unpack_signed_amount p zero)
    /\ bval (unpack_signed_amount p zero) = u256 (sint 192 (bval amount))
    /\ be_val (signed_image p) = (bval amount + 2 ^ 191) mod 2 ^ 192.
Proof.
  intros Hx. destruct pack_offset_ok as [Hpo Hpv].
  unfold pack_signed_amount. pose proof (add_ok amount pack_offset Hx Hpo) as Hadj.
  pose proof (add_val amount pack_offset Hx Hpo) as Hav. rewrite Hpv in Hav.
  pose proof Hadj as (a & b & c & d & E & Ha & Hb & Hc & Hd)%bigint_ok_inv. rewrite E in *.
  unfold BIGWORD. cbn [nth]. set (p := mkPS _ _ _). exists p.
  assert (Hlow : bval [a; b; c; 0] = (bval amount + 2 ^ 191) mod 2 ^ 192).
  { replace ((bval amount + 2 ^ 191) mod 2 ^ 192) with (bval [a; b; c; d] mod 2 ^ 192).
    - rewrite !bval_limbs. unfold in_word in *. apply Z.mod_unique_pos with d; lia.
    - rewrite Hav. unfold u256, wrap. change (2 ^ 256) with (2 ^ 192 * 2 ^ 64).
      apply Z.mod_mod_divide. by exists (2 ^ 64). }
  assert (Hun : bigint_ok (unpack_signed_amount p zero)
    /\ bval (unpack_signed_amount p zero) = u256 (sint 192 (bval amount))).
  { unfold unpack_signed_amount. rewrite zero_limbs. unfold SETWORD, p.
    cbn [shi smid slo insert list_insert]. rewrite !bswap_64_invol by done.
    assert (Hok : bigint_ok [a; b; c; 0]) by (apply bigint_ok_intro; done || (unfold in_word; lia)).
    pose proof (sub_ok _ _ Hok Hpo) as Hs. pose proof (sub_val _ _ Hok Hpo) as Hv. rewrite Hpv, Hlow in Hv.
    pose proof Hs as (a' & b' & c' & d' & E' & Ha' & Hb' & Hc' & Hd')%bigint_ok_inv. rewrite E' in *.
    unfold BIGWORD. cbn [nth insert list_insert]. rewrite BIT63_spec by done.
    assert (Hm : bval [a'; b'; c'; 0] = bval amount mod 2 ^ 192).
    { replace (bval [a'; b'; c'; 0]) with (bval [a'; b'; c'; d'] mod 2 ^ 192).
      - rewrite Hv. unfold u256, wrap. change (2 ^ 256) with (2 ^ 192 * 2 ^ 64).
        rewrite Z.mod_mod_divide by (by exists (2 ^ 64)). rewrite Zminus_mod_idemp_l. f_equal. lia.
      - rewrite !bval_limbs. unfold in_word in *. symmetry. apply Z.mod_unique_pos with d'; lia. }
    unfold sint, wrap. rewrite <- Hm. change (192 - 1) with 191. rewrite !bval_limbs in *. unfold in_word in *.
    split; [destruct (2 ^ 63 <=? c'); apply bigint_ok_intro; done || (unfold in_word, UINT64_MAX; lia)|].
    destruct (Z.leb_spec (2 ^ 63) c'), (Z.ltb_spec (a' + 2 ^ 64 * (b' + 2 ^ 64 * (c' + 2 ^ 64 * 0))) (2 ^ 191)); try lia.
    - unfold UINT64_MAX, u256, wrap. apply Z.mod_unique_pos with (-1); lia.
    - unfold u256. by rewrite wrap_small by (unfold in_word; lia). }
  destruct Hun as [Hok Hun]. rewrite Hun. split_and!; [done|done|done|].
  unfold signed_image, p. cbn [shi smid slo]. rewrite !be_val_app, !be_val_swapped by done.
  cbn [length app]. rewrite length_app, !length_le_bytes, <- Hlow, bval_limbs. lia.
Qed.

Lemma sint192_fits v : in_word 256 v ->
  (u256 (sint 192 v) = v <-> - 2 ^ 191 <= sint 256 v < 2 ^ 191)
  /\ (u256 (sint 192 v) = v -> (v + 2 ^ 191) mod 2 ^ 192 = sint 256 v + 2 ^ 191).
Proof.
  intros Hv. pose proof (sint_range 192 v ltac:(lia)) as H1. change (192 - 1) with 191 in H1.
  rewrite (sint_range_mod 256) by (done || lia). change (256 - 1) with 255. unfold in_word in Hv.
  assert (Hu : u256 (sint 192 v) = if sint 192 v <? 0 then sint 192 v + 2 ^ 256 else sint 192 v).
  { unfold u256, wrap. destruct (Z.ltb_spec (sint 192 v) 0); symmetry;
      [apply Z.mod_unique_pos with (-1)|apply Z.mod_unique_pos with 0]; lia. }
  rewrite Hu.
  assert (Hback : forall s, - 2 ^ 191 <= s < 2 ^ 191 -> wrap 192 s = wrap 192 v -> sint 192 v = s).
  { intros s Hs E. rewrite <- (sint_cong 192 s v E). apply sint_id; [lia|]. exact Hs. }
  assert (Hm : v mod 2 ^ 192 = (v - 2 ^ 256) mod 2 ^ 192).
  { replace (v - 2 ^ 256) with (v + - 2 ^ 64 * 2 ^ 192) by lia. by rewrite Z.mod_add. }
  split.
  - destruct (Z.ltb_spec v (2 ^ 255)); split.
    + destruct (Z.ltb_spec (sint 192 v) 0); lia.
    + intros Hs. rewrite (Hback v Hs eq_refl). destruct (Z.ltb_spec v 0); lia.
    + destruct (Z.ltb_spec (sint 192 v) 0); lia.
    + intros Hs. rewrite (Hback (v - 2 ^ 256) Hs (eq_sym Hm)). destruct (Z.ltb_spec (v - 2 ^ 256) 0); lia.
  - intros E. symmetry. destruct (Z.ltb_spec v (2 ^ 255)), (Z.ltb_spec (sint 192 v) 0); try lia.
    + apply Z.mod_unique_pos with 0; lia.
    + apply Z.mod_unique_pos with (2 ^ 64); lia.
Qed.

(** Signed packing succeeds exactly on the amounts of 192 bits, is undone by
    unpacking, and makes [memcmp] the numeric order of the signed values. *)
Theorem pack_signed_amount_correct x y : bigint_ok x -> bigint_ok y ->
  let '(rcx, px) := pack_signed_amount zero x in
  let '(rcy, py) := pack_signed_amount zero y in
  (rcx = false <-> - 2 ^ 191 <= sint 256 (bval x) < 2 ^ 191)
  /\ (rcx = false -> unpack_signed_amount px zero = x)
  /\ (rcx = false -> rcy = false ->
      memcmp (signed_image px) (signed_image py) = (sint 256 (bval x) ?= sint 256 (bval y))).
Proof.
  intros Hx Hy. destruct (pack_signed_eq x Hx) as (px & -> & Hokx & Hux & Hix).
  destruct (pack_signed_eq y Hy) as (py & -> & _ & _ & Hiy).
  destruct (sint192_fits _ (bval_range x Hx)) as [Hfx Hex].
  destruct (sint192_fits _ (bval_range y Hy)) as [_ Hey].
  rewrite !negb_false_iff, !Z.eqb_eq. split_and!; [exact Hfx| |].
  - intros E. apply bval_inj; [done|done|]. by rewrite Hux, E.
  - intros E1 E2. destruct (signed_image_ok px), (signed_image_ok py).
    rewrite memcmp_be by congruence. rewrite Hix, Hiy, Hex, Hey by done.
    rewrite (Z.add_comm (sint 256 (bval x))), (Z.add_comm (sint 256 (bval y))). apply Z.add_compare_mono_l.
Qed.
End packing.

Lemma pack_unsigned_amount_correct_witness :
  let '(rcx, px) := pack_unsigned_amount (of_bval 0) (of_bval 5) in
  let '(rcy, py) := pack_unsigned_amount (of_bval 0) (of_bval 256) in
  (rcx = false <-> bval (of_bval 5) < 2 ^ 128)
  /\ (rcx = false -> bval (unpack_unsigned_amount px (of_bval 0)) = bval (of_bval 5))
  /\ (rcx = false -> rcy = false -> memcmp (unsigned_image px) (unsigned_image py) = Lt).
Proof.
  apply (pack_unsigned_amount_correct (of_bval 0) (of_bval_ok 0) eq_refl (of_bval 5) (of_bval 256));
    apply of_bval_ok.
Defined.

Lemma pack_signed_amount_correct_witness :
  let '(rcx, px) := pack_signed_amount (B := ref_bigops) (of_bval 0) (of_bval (-3)) in
  let '(rcy, py) := pack_signed_amount (B := ref_bigops) (of_bval 0) (of_bval 2) in
  (rcx = false <-> - 2 ^ 191 <= sint 256 (bval (of_bval (-3))) < 2 ^ 191)
  /\ (rcx = false -> unpack_signed_amount (B := ref_bigops) px (of_bval 0) = of_bval (-3))
  /\ (rcx = false -> rcy = false -> memcmp (signed_image px) (signed_image py) = Lt).
Proof.
  apply (pack_signed_amount_correct (B := ref_bigops) (of_bval 0) (of_bval_ok 0) eq_refl (of_bval (-3)) (of_bval 2));
    apply of_bval_ok.
Defined.

(** ** Text *)

Definition digit (c : Z) : Prop := 48 <= c <= 57.

Lemma find_first_app f s1 s2 : find_first f (s1 ++ s2) =
  match find_first f s1 with Some i => Some i | None => (Nat.add (length s1)) <$> find_first f s2 end.
Proof.
  induction s1 as [|c s1 IH]; [by cbn; destruct (find_first f s2)|].
  cbn [app find_first length]. destruct (f c); [done|]. rewrite IH.
  by destruct (find_first f s1), (find_first f s2).
Qed.

Lemma find_last_app f s1 s2 : find_last f (s1 ++ s2) =
  match find_last f s2 with Some i => Some (length s1 + i)%nat | None => find_last f s1 end.
Proof.
  induction s1 as [|c s1 IH]; [by cbn; destruct (find_last f s2)|].
  cbn [app find_last length]. rewrite IH. by destruct (find_last f s2).
Qed.

Lemma find_first_none f s : Forall (fun c => f c = false) s -> find_first f s = None.
Proof. induction 1 as [|c s Hc _ IH]; [done|]. cbn [find_first]. by rewrite Hc, IH. Qed.

Lemma find_last_none f s : Forall (fun c => f c = false) s -> find_last f s = None.
Proof. induction 1 as [|c s Hc _ IH]; [done|]. cbn [find_last]. by rewrite IH, Hc. Qed.

Lemma digits_not c0 s : Forall digit s -> ~ digit c0 -> Forall (fun c => (c0 =? c) = false) s.
Proof.
  intros Hs Hc. eapply Forall_impl; [exact Hs|]. intros c Hd. apply Z.eqb_neq. by intros ->.
Qed.

(** The text of an amount loses exactly the trailing zeros of its fraction, and the
    point with them when nothing is left; [add_decimal] restores one zero. *)
Theorem amount_to_string_trims ip fp k add_decimal :
  Forall digit ip -> Forall digit fp -> last fp <> Some 48 ->
  amount_to_string (ip ++ 46 :: fp ++ replicate k 48) add_decimal
  = match fp with
    | [] => if add_decimal then ip ++ [46; 48] else ip
    | _ => ip ++ 46 :: fp
    end.
Proof.
  intros Hip Hfp Hlast. unfold amount_to_string.
  assert (Hz : Forall digit (replicate k 48)) by (apply Forall_replicate; unfold digit; lia).
  assert (Hexp : forall s, Forall digit s -> Forall (fun c => ((c =? 101) || (c =? 69)) = false) s).
  { intros s Hs. eapply Forall_impl; [exact Hs|]. intros c [? ?]. cbn.
    destruct (Z.eqb_spec c 101), (Z.eqb_spec c 69); lia || done. }
  rewrite find_first_none.
  2:{ apply Forall_app. split; [by apply Hexp|]. constructor; [done|].
      apply Forall_app. split; by apply Hexp. }
  assert (Hdot : forall s, Forall digit s -> find_first (Z.eqb 46) s = None).
  { intros s Hs. apply find_first_none, digits_not; [done|]. unfold digit. lia. }
  rewrite find_first_app, (Hdot ip) by done. cbn [find_first Z.eqb Pos.eqb fmap option_fmap option_map].
  rewrite Nat.add_0_r.
  assert (Hzl : find_last (fun c => negb (c =? 48)) (replicate k 48) = None).
  { apply find_last_none, Forall_replicate. done. }
  destruct fp as [|x fp'] eqn:Efp.
  - rewrite find_last_app. cbn [app find_last]. rewrite Hzl. cbn. rewrite Nat.add_0_r, Nat.eqb_refl.
    rewrite take_app_length, (Hdot ip) by done. by destruct add_decimal.
  - rewrite <- Efp in *. assert (Hne : exists fp0 y, fp = fp0 ++ [y]).
    { destruct (exists_last (l := fp)) as (l & y & ->); [by rewrite Efp|]. by exists l, y. }
    destruct Hne as (fp0 & y & E).
    assert (Hy : y <> 48) by (intros ->; apply Hlast; rewrite E; by rewrite last_snoc).
    assert (Hfl : find_last (fun c => negb (c =? 48)) (ip ++ 46 :: fp ++ replicate k 48)
      = Some (length ip + length fp)%nat).
    { rewrite find_last_app. replace (46 :: fp ++ replicate k 48) with ((46 :: fp0) ++ [y] ++ replicate k 48)
        by (rewrite E; cbn; by rewrite <- app_assoc).
      rewrite find_last_app, find_last_app, Hzl. cbn [find_last].
      destruct (Z.eqb_spec y 48); [done|]. cbn [negb]. f_equal. rewrite E, length_app. cbn. lia. }
    rewrite Hfl. assert (length fp <> 0)%nat by (rewrite E, length_app; cbn; lia).
    destruct (Nat.eqb_spec (length ip) (length ip + length fp)); [lia|].
    assert (Ht : take (length ip + length fp + 1) (ip ++ 46 :: fp ++ replicate k 48) = ip ++ 46 :: fp).
    { change (46 :: fp ++ replicate k 48) with ((46 :: fp) ++ replicate k 48). rewrite app_assoc.
      replace (length ip + length fp + 1)%nat with (length (ip ++ 46 :: fp)) by (rewrite length_app; cbn; lia).
      apply take_app_length. }
    rewrite Ht. rewrite find_first_app, (Hdot ip) by done. cbn [find_first Z.eqb Pos.eqb fmap option_fmap option_map].
    rewrite bool_decide_eq_false_2 by done. by rewrite andb_false_r, Efp.
Qed.

Lemma amount_to_string_trims_witness :
  amount_to_string ([49; 50] ++ 46 :: [48; 53] ++ replicate 29 48) true = [49; 50; 46; 48; 53].
Proof.
  apply (amount_to_string_trims [49; 50] [48; 53] 29 true); [repeat constructor; done..|done].
Defined.
