(* ===== verification/Chain.v ===== *)
(** * Indelible blocks (src/source/ccnode/src/blockchain.cpp)

    The node confirms a block once enough later blocks are signed on top of it: the
    scan back from a new block, the conditions for the oldest unconfirmed block to
    become indelible, the transition that makes it so, the split of its donations
    among the witnesses, and the commit.  The database, the transaction index and the
    exchange are reached through the interface [ChainDb]; its laws are what this
    component relies on. *)
From S2P Require Import Prelude Bigint Encode AlphaCode Amounts Block.
From stdpp Require Import gmap.

Local Open Scope Z_scope.
Local Open Scope cc_scope.

(** ** Interface to the rest of the node *)

(** Operations on the database state [D]: a [true] result is an error, as in the
    source, except where an integer code is returned. *)
Class ChainDb (D : Type) := {
  BeginWrite : D -> Z * D;
  EndWrite : bool -> D -> bool * D;
  GetNextXreqnum : D -> Z;
  (** error, fatal error set, database, and the block's total donations after adding
      those of its transactions *)
  IndexTxs : D -> BlockObj -> BlockAux -> Z -> bool * bool * D * Z;
  (** level, block time, first new exchange request number *)
  SynchronizeMatching : D -> Z -> Z -> Z -> bool * D;
  SaveNextNums : D -> Z -> Z -> bool * D;
  ExpireMatches : D -> Z -> bool * D;
  PruneMatchingReqs : D -> Z -> D;
  UpdateCommitTree : D -> ptr -> Z -> bool * D;
  BlockchainInsert : D -> Z -> ptr -> bool * D;
  DonationSelect : D -> Z -> Z * packed_unsigned_amount_t;
  DonationInsert : D -> Z -> packed_unsigned_amount_t -> bool * D;
  BlockAuxInsert : D -> Z -> BlockAux -> bool * D;
  SaveMining : D -> bool * D;
}.

(** ** State *)

Record chain (D : Type) := mkChain {
  c_heap : heap;
  c_db : D;
  m_last_indelible_block : option ptr;
  m_new_indelible_block : option ptr;
  m_last_indelible_level : Z;
  m_last_indelible_timestamp : Z;
  m_last_matching_completed_block_time : Z;
  m_last_matching_start_block_time : Z;
  m_last_indelible_ticks : Z;
  m_startup_prune_level : Z;
  m_have_fatal_error : bool;
  running_donations : Z;
  use_old_table_mapping_default : bool;
}.
Arguments mkChain {D}.
Arguments c_heap {D}.
Arguments c_db {D}.
Arguments m_last_indelible_block {D}.
Arguments m_new_indelible_block {D}.
Arguments m_last_indelible_level {D}.
Arguments m_last_indelible_timestamp {D}.
Arguments m_last_matching_completed_block_time {D}.
Arguments m_last_matching_start_block_time {D}.
Arguments m_last_indelible_ticks {D}.
Arguments m_startup_prune_level {D}.
Arguments m_have_fatal_error {D}.
Arguments running_donations {D}.
Arguments use_old_table_mapping_default {D}.

Section ops.
Context {D : Type}.

Definition with_mem (c : chain D) (h : heap) (db : D) : chain D :=
  mkChain h db (m_last_indelible_block c) (m_new_indelible_block c) (m_last_indelible_level c)
    (m_last_indelible_timestamp c) (m_last_matching_completed_block_time c)
    (m_last_matching_start_block_time c) (m_last_indelible_ticks c) (m_startup_prune_level c)
    (m_have_fatal_error c) (running_donations c) (use_old_table_mapping_default c).
Definition with_db (c : chain D) (db : D) : chain D := with_mem c (c_heap c) db.
Definition with_new (c : chain D) (p : option ptr) : chain D :=
  mkChain (c_heap c) (c_db c) (m_last_indelible_block c) p (m_last_indelible_level c)
    (m_last_indelible_timestamp c) (m_last_matching_completed_block_time c)
    (m_last_matching_start_block_time c) (m_last_indelible_ticks c) (m_startup_prune_level c)
    (m_have_fatal_error c) (running_donations c) (use_old_table_mapping_default c).
Definition with_ticks (c : chain D) (t : Z) : chain D :=
  mkChain (c_heap c) (c_db c) (m_last_indelible_block c) (m_new_indelible_block c) (m_last_indelible_level c)
    (m_last_indelible_timestamp c) (m_last_matching_completed_block_time c)
    (m_last_matching_start_block_time c) t (m_startup_prune_level c)
    (m_have_fatal_error c) (running_donations c) (use_old_table_mapping_default c).
Definition with_running (c : chain D) (r : Z) : chain D :=
  mkChain (c_heap c) (c_db c) (m_last_indelible_block c) (m_new_indelible_block c) (m_last_indelible_level c)
    (m_last_indelible_timestamp c) (m_last_matching_completed_block_time c)
    (m_last_matching_start_block_time c) (m_last_indelible_ticks c) (m_startup_prune_level c)
    (m_have_fatal_error c) r (use_old_table_mapping_default c).
(** [SetFatalError] sets the flag and returns true. *)
Definition SetFatalError (c : chain D) : bool * chain D :=
  (true, mkChain (c_heap c) (c_db c) (m_last_indelible_block c) (m_new_indelible_block c)
    (m_last_indelible_level c) (m_last_indelible_timestamp c) (m_last_matching_completed_block_time c)
    (m_last_matching_start_block_time c) (m_last_indelible_ticks c) (m_startup_prune_level c)
    true (running_donations c) (use_old_table_mapping_default c)).

(** A dereference of a block pointer. *)
Definition deref (h : heap) (p : ptr) : outcome BlockObj :=
  match h !! p with Some b => Ret b | None => Throw AssertFail end.

Definition ComputePruneLevel (c : chain D) (min_level trailing_rounds : Z) : outcome Z :=
  let! ll := match m_last_indelible_block c with
             | None => Ret (0, 0)
             | Some p =>
                 let! b := deref (c_heap c) p in
                 let! a := AuxPtr b in
                 Ret (level (WireData b), u32 (trailing_rounds * nwitnesses (blockchain_params a)))
             end in
  let '(last_level, trailing_levels) := ll in
  let prune_level := if trailing_levels <? last_level then last_level - trailing_levels else 0 in
  let prune_level := if prune_level <? min_level then min_level else prune_level in
  let prune_level := if prune_level <? m_startup_prune_level c then m_startup_prune_level c else prune_level in
  Ret prune_level.

(** [ticks] is the clock, [xreq_times] the two block times of the exchange. *)
Definition SetLastIndelible (c : chain D) (smartobj : option ptr) (ticks : Z) (xreq_times : Z * Z)
  : outcome (chain D) :=
  match smartobj with
  | None => Throw AssertFail
  | Some p =>
      let! b := deref (c_heap c) p in
      let! a := AuxPtr b in
      let level := level (WireData b) in
      ccassert! (m_last_indelible_level c =? 0)
                || (level <=? u64 (m_last_indelible_level c + nskipconfsigs (blockchain_params a))) in
      Ret (mkChain (c_heap c) (c_db c) smartobj (m_new_indelible_block c) level
             (timestamp (WireData b)) (fst xreq_times) (snd xreq_times) ticks
             (m_startup_prune_level c) (m_have_fatal_error c) (running_donations c)
             (cc_alpha_set_default_decode_tables (use_old_table_mapping_default c) (timestamp (WireData b))))
  end.

Definition GetLastIndelibleValues (c : chain D) : Z * Z * Z * Z :=
  (m_last_indelible_level c, m_last_indelible_timestamp c,
   m_last_matching_completed_block_time c, m_last_matching_start_block_time c).
End ops.

(** ** Donations *)

Section donations.
Context {B : BigOps}.

(** The share of the block's own witness, and that of each other witness. *)
Definition donation_split (total : bigint) (nwitnesses : Z) : bigint * bigint :=
  let big_split := total in
  let little_split := divBigInt (timesBigInt big_split (of_bval 2)) (u64 (3 * nwitnesses)) in
  let little_sum := timesBigInt (of_bval (u64 (nwitnesses - 1))) little_split in
  if bval little_sum <? bval big_split
  then (minusBigInt big_split little_sum, little_split)
  else (big_split, of_bval 0).

(** The loop over the witnesses; [true] is a fatal database error. *)
Fixpoint donate_loop {D} `{ChainDb D} (idx : list Z) (db : D) (witness : Z) (big_split little_split : bigint)
  : outcome (bool * D) :=
  match idx with
  | [] => Ret (false, db)
  | i :: idx =>
      let '(rc, packed) := DonationSelect db i in
      if rc <? 0 then Ret (true, db)
      else
        let total := if rc =? 0 then unpack_unsigned_amount packed (of_bval 0) else of_bval 0 in
        let total := plusBigInt total (if i =? witness then big_split else little_split) in
        let '(err, packed) := pack_unsigned_amount (of_bval 0) total in
        ccassert! negb err in
        let '(rc, db) := DonationInsert db i packed in
        if rc then Ret (true, db) else donate_loop idx db witness big_split little_split
  end.
End donations.

(** ** Confirmation *)

Section confirm.
Context {D : Type} `{ChainDb D} {B : BigOps}.
(** [g_shutdown] as read at each poll: by the scan after [n] blocks, and by the loop
    after each block. *)
Context (shutdown : Z -> bool) (shutdown_loop : chain D -> bool).

(** Update of a block's aux data. *)
Definition put_aux (h : heap) (p : ptr) (b : BlockObj) (a : BlockAux) : heap := <[p := set_aux b a]> h.
Definition set_marked (a : BlockAux) : BlockAux :=
  mkAux (oid a) (block_hash a) (announce_ticks a) (skip a) true
    (from_tx_net a) (blockchain_params a) (total_donations a) (witness_params a).
Definition set_donations (a : BlockAux) (d : Z) : BlockAux :=
  mkAux (oid a) (block_hash a) (announce_ticks a) (skip a) (marked_for_indelible a)
    (from_tx_net a) (blockchain_params a) d (witness_params a).

(** The block the next indelible block must extend. *)
Definition indelible_tip (c : chain D) : option ptr :=
  match m_new_indelible_block c with Some q => Some q | None => m_last_indelible_block c end.

(** Level and hash link of a newly indelible block against the tip. *)
Definition in_sequence (h : heap) (tip : option ptr) (b : BlockObj) : outcome bool :=
  match tip with
  | None => ccassert! level (WireData b) =? 0 in Ret true
  | Some q =>
      let! lb := deref h q in
      let! la := AuxPtr lb in
      Ret ((level (WireData b) =? u64 (level (WireData lb) + 1))
           && bool_decide (prior_oid (WireData b) = oid la))
  end.

Definition SetNewlyIndelibleBlock (c : chain D) (p : ptr) : outcome (bool * chain D) :=
  let! b := deref (c_heap c) p in
  let! a := AuxPtr b in
  let lev := level (WireData b) in
  let ts := timestamp (WireData b) in
  let '(rc, db) := BeginWrite (c_db c) in
  let c := with_db c db in
  if rc <? 0 then Ret (SetFatalError c)
  else if marked_for_indelible a then Ret (true, c)
  else
    let a := set_marked a in
    let c := with_mem c (put_aux (c_heap c) p b a) (c_db c) in
    let! in_order := in_sequence (c_heap c) (indelible_tip c) b in
    if negb in_order then Ret (SetFatalError c)
    else
      let new_xreqnum := GetNextXreqnum (c_db c) in
      let '(rc, fatal, db, donations) := IndexTxs (c_db c) b a ts in
      let a := set_donations a donations in
      let c := with_mem c (put_aux (c_heap c) p b a) db in
      if rc then Ret (if fatal then SetFatalError c else (true, c))
      else
      let '(rc, db) := SynchronizeMatching (c_db c) lev ts new_xreqnum in
      let c := with_db c db in
      if rc then Ret (SetFatalError c) else
      let '(rc, db) := SaveNextNums (c_db c) lev ts in
      let c := with_db c db in
      if rc then Ret (SetFatalError c) else
      let '(rc, db) := ExpireMatches (c_db c) ts in
      let c := with_db c db in
      if rc then Ret (SetFatalError c) else
      let c := with_db c (PruneMatchingReqs (c_db c) ts) in
      let '(rc, db) := UpdateCommitTree (c_db c) p ts in
      let c := with_db c db in
      if rc then Ret (SetFatalError c) else
      let '(rc, db) := BlockchainInsert (c_db c) lev p in
      let c := with_db c db in
      if rc then Ret (SetFatalError c) else
      let total := of_bval (total_donations a) in
      let c := with_running c (bval (plusBigInt (of_bval (running_donations c)) total)) in
      let nwit := nwitnesses (blockchain_params a) in
      ccassert! negb (nwit =? 0) in
      let '(big_split, little_split) := donation_split total nwit in
      let idx := if bval total =? 0 then [] else seqZ 0 nwit in
      let! r := donate_loop idx (c_db c) (witness (WireData b)) big_split little_split in
      let c := with_db c (snd r) in
      if fst r then Ret (SetFatalError c) else
      let '(rc, db) := BlockAuxInsert (c_db c) (Z.land lev 63) a in
      let c := with_db c db in
      if rc then Ret (SetFatalError c) else
      Ret (false, with_new c (Some p)).

Inductive scan_res : Set :=
| ScanShutdown
| ScanBadLevel
| ScanDone (lastobj : ptr) (nconfsigs : Z).

(** The scan back to the oldest block not marked indelible. *)
Fixpoint confirm_scan (fuel : nat) (h : heap) (p : ptr) (b : BlockObj) (nconfsigs : Z) : outcome scan_res :=
  match fuel with
  | O => Throw FuelOut
  | S f =>
      if shutdown nconfsigs then Ret ScanShutdown
      else
        match GetPriorBlock b with
        | None => Ret (ScanDone p nconfsigs)
        | Some q =>
            let! qb := deref h q in
            let! qa := AuxPtr qb in
            if negb (level (WireData qb) =? u64 (level (WireData b) - 1)) then Ret ScanBadLevel
            else if marked_for_indelible qa then Ret (ScanDone p nconfsigs)
            else confirm_scan f h q qb (u32 (nconfsigs + 1))
        end
  end.

(** Steps enough for a scan from a block of this level. *)
Definition scan_fuel (b : BlockObj) : nat := S (S (Z.to_nat (level (WireData b)))).

Definition DoConfirmOne (c : chain D) (newobj : ptr) : outcome (bool * chain D) :=
  let! b := deref (c_heap c) newobj in
  let! a := AuxPtr b in
  if marked_for_indelible a then Ret (true, c)
  else
    let nseq := nseqconfsigs (blockchain_params a) in
    let nskip := nskipconfsigs (blockchain_params a) in
    let! r := confirm_scan (scan_fuel b) (c_heap c) newobj b 1 in
    match r with
    | ScanShutdown => Ret (true, c)
    | ScanBadLevel => Ret (SetFatalError c)
    | ScanDone lastobj nconf =>
        let! lb := deref (c_heap c) lastobj in
        let! la := AuxPtr lb in
        if bool_decide (is_Some (m_last_indelible_block c))
           && ((nconf <? nseq) || (negb (skip la =? 0) && (nconf <? nskip)))
        then Ret (true, c)
        else SetNewlyIndelibleBlock c lastobj
    end.

(** The loop of [DoConfirmationLoop]: abandoned or not, whether a block became
    indelible, and the state. *)
Fixpoint confirm_loop (fuel : nat) (c : chain D) (newobj : ptr) (have_new : bool)
  : outcome (bool * bool * chain D) :=
  match fuel with
  | O => Throw FuelOut
  | S f =>
      let! r := DoConfirmOne c newobj in
      let '(rc, c) := r in
      if m_have_fatal_error c || shutdown_loop c then Ret (true, have_new, c)
      else if rc then Ret (false, have_new, c)
      else confirm_loop f c newobj true
  end.

Definition DoConfirmationLoop (c : chain D) (newobj : ptr) (ticks : Z) (xreq_times : Z * Z)
  : outcome (bool * chain D) :=
  let! nb := deref (c_heap c) newobj in
  let! r := confirm_loop (scan_fuel nb) c newobj false in
  let '(abandoned, have_new, c) := r in
  if abandoned then Ret (true, c)
  else if negb have_new then Ret (true, c)
  else
    ccassert! bool_decide (is_Some (m_new_indelible_block c)) in
    let '(rc, db) := SaveMining (c_db c) in
    let c := with_db c db in
    if rc then Ret (SetFatalError c) else
    let '(rc, db) := EndWrite true (c_db c) in
    let c := with_db c db in
    if rc then Ret (SetFatalError c) else
    let! c := SetLastIndelible c (m_new_indelible_block c) ticks xreq_times in
    Ret (false, with_new c None).

Definition DoConfirmations (c : chain D) (newobj : ptr) (ticks : Z) (xreq_times : Z * Z)
  : outcome (bool * chain D) :=
  if m_have_fatal_error c then Ret (true, c)
  else
    let c := if m_last_indelible_level c =? 0 then with_ticks c ticks else c in
    let! r := DoConfirmationLoop c newobj ticks xreq_times in
    let '(rc, c) := r in
    let '(_, db) := EndWrite false (c_db c) in
    Ret (rc, with_db c db).
End confirm.
Abbreviation zero := (of_bval 0).

Section donation_proofs.
Context {B : BigOps} {HB : BigOpsSpec B}.

Lemma donation_split_arith t n : 0 <= t -> 1 <= n ->
  let l := t * 2 / (3 * n) in
  0 <= l /\ (n - 1) * l <= t /\ l <= t - (n - 1) * l /\ t <= 3 * (t - (n - 1) * l)
  /\ (0 < t -> (n - 1) * l < t).
Proof.
  intros Ht Hn l. assert (Hl : 3 * n * l <= t * 2) by (apply Z.mul_div_le; lia).
  assert (0 <= l) by (apply Z.div_pos; lia). nia.
Qed.

Lemma donation_split_values total n : bigint_ok total -> bval total < 2 ^ 128 -> 1 <= n < 2 ^ 16 ->
  let '(big, little) := donation_split total n in
  bigint_ok big /\ bigint_ok little
  /\ bval little = bval total * 2 / (3 * n) /\ bval big = bval total - (n - 1) * bval little.
Proof.
  intros Ht Hlt Hn. pose proof (bval_range _ Ht) as [H0 _].
  destruct (donation_split_arith (bval total) n H0 ltac:(lia)) as (Hl0 & Hs & _ & _ & Hpos).
  unfold donation_split.
  assert (E3 : u64 (3 * n) = 3 * n) by (apply wrap_small; unfold in_word; lia).
  assert (E1 : u64 (n - 1) = n - 1) by (apply wrap_small; unfold in_word; lia).
  rewrite E3, E1.
  destruct (times_small total (of_bval 2) (bval total * 2) Ht (of_bval_ok _) eq_refl ltac:(lia)) as [Hm Em].
  set (l := divBigInt (timesBigInt total (of_bval 2)) (3 * n)).
  assert (Hl : bigint_ok l) by (apply div_ok; auto; lia).
  assert (El : bval l = bval total * 2 / (3 * n)) by (unfold l; rewrite div_val, Em by (auto; lia); done).
  assert (Eb : bval (of_bval (n - 1)) = n - 1) by (rewrite bval_of; apply wrap_small; unfold in_word; lia).
  destruct (times_small (of_bval (n - 1)) l ((n - 1) * bval l) (of_bval_ok _) Hl ltac:(by rewrite Eb) ltac:(rewrite El; lia))
    as [Hs1 Es].
  rewrite Es. destruct (Z.ltb_spec ((n - 1) * bval l) (bval total)).
  - split_and!; auto with cc. pose proof prime_bits as Hp. unfold TX_FIELD_BITS in Hp.
    rewrite minus_val, Es by (auto with cc || lia).
    apply Z.mod_small. rewrite El in *. lia.
  - rewrite El in *. assert (bval total = 0) as -> by lia.
    rewrite bval_of. change (u256 0) with 0. rewrite Z.div_0_l by lia. split_and!; auto with cc; lia.
Qed.

(** What the database promises about the table of donation totals while it works. *)
Class DonationTable (D : Type) `{ChainDb D} := {
  db_works : D -> Prop;
  select_works db i : db_works db -> 0 <= fst (DonationSelect db i);
  insert_works db i p : db_works db -> exists db', DonationInsert db i p = (false, db') /\ db_works db'
    /\ DonationSelect db' i = (0, p) /\ forall j, j <> i -> DonationSelect db' j = DonationSelect db j;
}.

(** The total recorded for witness [i]; a missing record counts as nothing. *)
Definition donation_total {D} `{ChainDb D} (db : D) (i : Z) : Z :=
  let '(rc, packed) := DonationSelect db i in
  if rc =? 0 then bval (unpack_unsigned_amount packed (of_bval 0)) else 0.

Lemma unpack_zero p : bigint_ok (unpack_unsigned_amount p (of_bval 0))
  /\ 0 <= bval (unpack_unsigned_amount p (of_bval 0)) < 2 ^ 128.
Proof.
  change (of_bval 0) with [0; 0; 0; 0]. unfold unpack_unsigned_amount, SETWORD. cbn [insert list_insert].
  pose proof (bswap_64_range (ulo p)) as H1. pose proof (bswap_64_range (uhi p)) as H2.
  split; [by apply bigint_ok_intro|]. rewrite bval_limbs. unfold in_word in *. lia.
Qed.

Lemma donate_loop_spec {D} `{DonationTable D} w big little :
  bigint_ok big -> bigint_ok little -> bval big < 2 ^ 128 -> bval little < 2 ^ 128 ->
  forall idx db, NoDup idx -> db_works db ->
  (forall i, i ∈ idx -> donation_total db i + (if i =? w then bval big else bval little) < 2 ^ 128) ->
  exists db', donate_loop idx db w big little = Ret (false, db') /\ db_works db'
    /\ forall i, donation_total db' i
       = donation_total db i + (if bool_decide (i ∈ idx) then if i =? w then bval big else bval little else 0).
Proof.
  intros Hb Hl Hbs Hls. pose proof (bval_range _ Hb) as [Hb0 _]. pose proof (bval_range _ Hl) as [Hl0 _].
  induction idx as [|k idx IH]; intros db Hnd Hw Hfit.
  { exists db. split_and!; [done|done|]. intros i.
    rewrite bool_decide_eq_false_2 by apply not_elem_of_nil. lia. }
  apply NoDup_cons in Hnd as [Hk Hnd]. cbn [donate_loop].
  pose proof (select_works db k Hw) as Hsel. destruct (DonationSelect db k) as [rc pk] eqn:Es. cbn in Hsel.
  destruct (Z.ltb_spec rc 0); [lia|].
  assert (Ek : donation_total db k
    = bval (if rc =? 0 then unpack_unsigned_amount pk (of_bval 0) else of_bval 0)).
  { unfold donation_total. rewrite Es. by destruct (rc =? 0). }
  set (old := if rc =? 0 then unpack_unsigned_amount pk (of_bval 0) else of_bval 0) in *.
  assert (Ho : bigint_ok old /\ 0 <= bval old < 2 ^ 128).
  { subst old. destruct (rc =? 0); [apply unpack_zero|]. split; [auto with cc|]. by vm_compute. }
  destruct Ho as [Ho Hor]. set (sh := if k =? w then big else little).
  assert (Hsh : bigint_ok sh /\ bval sh = if k =? w then bval big else bval little)
    by (subst sh; by destruct (k =? w)).
  destruct Hsh as [Hsh Esh].
  pose proof (Hfit k ltac:(left)) as Hfk. rewrite Ek, <- Esh in Hfk.
  assert (Hsh0 : 0 <= bval sh) by (apply bval_range; done).
  assert (Hsum : bigint_ok (plusBigInt old sh) /\ bval (plusBigInt old sh) = bval old + bval sh).
  { split; [auto with cc|]. pose proof prime_bits as Hp. unfold TX_FIELD_BITS in Hp.
    rewrite plus_val by (done || lia). apply Z.mod_small. lia. }
  destruct Hsum as [Hsum Esum].
  destruct (pack_unsigned_eq (of_bval 0) (of_bval_ok 0) eq_refl _ Hsum) as (pk' & Epk & Eu & _).
  rewrite Epk, Esum. destruct (Z.leb_spec (2 ^ 128) (bval old + bval sh)); [lia|]. cbn [negb].
  destruct (insert_works db k pk' Hw) as (db1 & -> & Hw1 & Hs1 & Hs2).
  assert (Et1 : donation_total db1 k = bval old + bval sh).
  { unfold donation_total. rewrite Hs1, Eu, Esum. cbn. rewrite Z.mod_small; lia. }
  assert (Et2 : forall j, j <> k -> donation_total db1 j = donation_total db j).
  { intros j Hj. unfold donation_total. by rewrite Hs2. }
  destruct (IH db1 Hnd Hw1) as (db' & -> & Hw' & Ht').
  { intros i Hi. rewrite Et2 by (intros ->; done). apply Hfit. by right. }
  exists db'. split_and!; [done|done|]. intros i. rewrite Ht'.
  destruct (decide (i = k)) as [->|Hne].
  - rewrite bool_decide_eq_false_2 by done. rewrite bool_decide_eq_true_2 by left.
    rewrite Et1, Ek, Esh. lia.
  - rewrite Et2 by done. f_equal.
    destruct (decide (i ∈ idx)); [rewrite !bool_decide_eq_true_2 by (done || by right); done|].
    rewrite !bool_decide_eq_false_2; [done| |done]. by intros [|]%elem_of_cons.
Qed.

Definition zsum (l : list Z) : Z := foldr Z.add 0 l.

Lemma zsum_add {A} (f g : A -> Z) l : zsum (map (fun x => f x + g x) l) = zsum (map f l) + zsum (map g l).
Proof. unfold zsum. induction l as [|x l IH]; cbn [map foldr]; [done|]. rewrite IH. lia. Qed.

Lemma zsum_shares w big little l : NoDup l -> w ∈ l ->
  zsum (map (fun i => if i =? w then big else little) l) = big + (Z.of_nat (length l) - 1) * little.
Proof.
  assert (Hno : forall l, w ∉ l -> zsum (map (fun i => if i =? w then big else little) l) = Z.of_nat (length l) * little).
  { intros l'. unfold zsum. induction l' as [|x l' IH]; cbn [map foldr length]; intros Hx; [lia|].
    apply not_elem_of_cons in Hx as [Hx Hl]. rewrite IH by done. destruct (Z.eqb_spec x w); [congruence|lia]. }
  unfold zsum in *. induction 1 as [|x l Hx Hnd IH]; intros Hw; [by apply elem_of_nil in Hw|].
  cbn [map foldr length]. destruct (Z.eqb_spec x w) as [->|].
  - rewrite Hno by done. lia.
  - apply elem_of_cons in Hw as [->|Hw]; [done|]. rewrite IH by done. lia.
Qed.
End donation_proofs.

(** ** The transition that makes a block indelible *)

Section confirm_proofs.
Context {D : Type} `{ChainDb D} {B : BigOps}.
Context (shutdown : Z -> bool) (shutdown_loop : chain D -> bool).

(** Block [p] extends [prev]: the next level, and the hash link. *)
Definition extends (h : heap) (prev : option ptr) (p : ptr) : Prop :=
  exists b, h !! p = Some b /\
  match prev with
  | None => level (WireData b) = 0
  | Some q => exists qb qa, h !! q = Some qb /\ auxp qb = Some qa
      /\ level (WireData b) = u64 (level (WireData qb) + 1) /\ prior_oid (WireData b) = oid qa
  end.

(** What becoming indelible changes in a block: its mark and its donations. *)
Definition marked_block (b : BlockObj) (a : BlockAux) (d : Z) : BlockObj :=
  set_aux b (set_donations (set_marked a) d).

Definition keeps_ids (h h' : heap) : Prop :=
  forall p, (fun b => (WireData b, priorp b, oid <$> auxp b)) <$> h' !! p
          = (fun b => (WireData b, priorp b, oid <$> auxp b)) <$> h !! p.

#[export] Instance keeps_ids_preorder : PreOrder keeps_ids.
Proof. split; [intros h p; done|]. intros h1 h2 h3 H12 H23 p. by rewrite H23, H12. Qed.

Lemma keeps_ids_insert h p b a a' : h !! p = Some b -> auxp b = Some a -> oid a' = oid a ->
  keeps_ids h (<[p := set_aux b a']> h).
Proof.
  intros Hb Ha Ho q. destruct (decide (q = p)) as [->|].
  - rewrite lookup_insert_eq, Hb. cbn. rewrite Ha. cbn. by rewrite Ho.
  - by rewrite lookup_insert_ne.
Qed.

Lemma extends_keeps h h' prev p : keeps_ids h h' -> extends h prev p -> extends h' prev p.
Proof.
  intros Hk (b & Hb & Hp).
  assert (Hx : forall q qb, h !! q = Some qb -> exists qb', h' !! q = Some qb' /\ WireData qb' = WireData qb
    /\ oid <$> auxp qb' = oid <$> auxp qb).
  { intros q qb Hq. specialize (Hk q). rewrite Hq in Hk. destruct (h' !! q) as [qb'|]; [|discriminate].
    cbn in Hk. injection Hk as ? ? ?. by exists qb'. }
  destruct (Hx p b Hb) as (b' & Hb' & Hw & _). exists b'. split; [done|]. rewrite Hw.
  destruct prev as [q|]; [|done]. destruct Hp as (qb & qa & Hq & Hqa & Hl & Ho).
  destruct (Hx q qb Hq) as (qb' & Hq' & Hw' & Ho'). rewrite Hqa in Ho'. cbn in Ho'.
  destruct (auxp qb') as [qa'|] eqn:Eq; [|discriminate]. cbn in Ho'. injection Ho' as Ho'.
  exists qb', qa'. rewrite Hw', Ho'. done.
Qed.

Lemma in_sequence_true h tip p b b' : h !! p = Some b' -> WireData b' = WireData b -> in_sequence h tip b = Ret true -> extends h tip p.
Proof.
  intros Hb Hw. unfold in_sequence, deref, AuxPtr. rewrite <- Hw. destruct tip as [q|].
  - destruct (h !! q) as [qb|] eqn:Hq; [|discriminate]. cbn [outcome_bind].
    destruct (auxp qb) as [qa|] eqn:Hqa; [|discriminate]. cbn [outcome_bind]. intros [= E].
    apply andb_true_iff in E as [Hl Ho]. apply Z.eqb_eq in Hl. apply bool_decide_eq_true in Ho.
    exists b'. split; [done|]. by exists qb, qa.
  - destruct (Z.eqb_spec (level (WireData b')) 0); [|discriminate]. intros _. by exists b'.
Qed.

(** Follow a run of a modelled handler: case analysis of what it scrutinises. *)
Ltac run_handler H :=
  repeat (cbn [outcome_bind negb fst snd] in H; cbv zeta in H;
    match type of H with
    | match ?e with _ => _ end = _ => destruct e eqn:?; try discriminate H
    | Ret (if ?e then _ else _) = _ => destruct e; try discriminate H
    | outcome_bind ?e _ = _ => destruct e eqn:?; try discriminate H
    end).

Lemma SetNewlyIndelibleBlock_success c p c' : SetNewlyIndelibleBlock c p = Ret (false, c') ->
  exists b a d, c_heap c !! p = Some b /\ auxp b = Some a /\ marked_for_indelible a = false
    /\ c_heap c' = <[p := marked_block b a d]> (c_heap c)
    /\ extends (<[p := set_aux b (set_marked a)]> (c_heap c)) (indelible_tip c) p
    /\ m_new_indelible_block c' = Some p
    /\ m_last_indelible_block c' = m_last_indelible_block c
    /\ m_last_indelible_level c' = m_last_indelible_level c
    /\ m_have_fatal_error c' = m_have_fatal_error c.
Proof.
  unfold SetNewlyIndelibleBlock. intros Hrun. run_handler Hrun.
  injection Hrun as <-. unfold deref, AuxPtr in *.
  destruct (c_heap c !! p) as [bp|] eqn:Hb; [|discriminate].
  match goal with E : Ret bp = Ret _ |- _ => injection E as <- end.
  destruct (auxp bp) as [ap|] eqn:Ha; [|discriminate].
  match goal with E : Ret ap = Ret _ |- _ => injection E as <- end.
  exists bp, ap. eexists. split_and!; try done.
  - cbn. unfold put_aux, marked_block. by rewrite insert_insert_eq.
  - match goal with E : in_sequence ?h ?t _ = Ret ?x |- _ =>
      change t with (indelible_tip c) in E; cbn in E; destruct x; [|discriminate];
      eapply (in_sequence_true _ _ p) in E; [exact E| |] end.
    + apply lookup_insert_eq.
    + done.
Qed.
(** ** The scan *)

Fixpoint ancestor (k : nat) (h : heap) (p : ptr) : option ptr :=
  match k with
  | O => Some p
  | S k => match h !! p ≫= GetPriorBlock with Some q => ancestor k h q | None => None end
  end.

Lemma back_walk_ancestor h n i p : (i < n)%nat -> back_walk n h p !! i = ancestor i h p.
Proof.
  revert i p. induction n as [|n IH]; intros i p Hi; [lia|]. cbn [back_walk].
  destruct i as [|i]; [done|]. cbn [lookup list_lookup ancestor].
  destruct (h !! p ≫= GetPriorBlock) as [q|]; [|done]. apply IH. lia.
Qed.

Lemma ancestor_add h i j p q : ancestor i h p = Some q -> ancestor (i + j) h p = ancestor j h q.
Proof.
  revert p. induction i as [|i IH]; intros p; cbn [ancestor Nat.add]; [by intros [= ->]|].
  destruct (h !! p ≫= GetPriorBlock) as [x|]; [|done]. apply IH.
Qed.

Definition marked_in (h : heap) (p : ptr) : bool :=
  match h !! p ≫= auxp with Some a => marked_for_indelible a | None => false end.

(** Levels are four bytes on the wire. *)
Definition levels_ok (h : heap) : Prop := forall p b, h !! p = Some b -> 0 <= level (WireData b) < 2 ^ 32.

Lemma prior_level h x xb b : levels_ok h -> h !! x = Some xb -> 0 <= level (WireData b) < 2 ^ 32 ->
  level (WireData xb) = u64 (level (WireData b) - 1) -> level (WireData xb) = level (WireData b) - 1.
Proof.
  intros Hl Hx Hb E. specialize (Hl _ _ Hx). destruct (Z.eq_dec (level (WireData b)) 0) as [E0|].
  - rewrite E0 in E. change (u64 (0 - 1)) with 18446744073709551615 in E. lia.
  - rewrite E. apply wrap_small. unfold in_word. lia.
Qed.

(** The scan returns the oldest block of the unmarked run, and counts at most the
    blocks it has visited. *)
Lemma confirm_scan_spec f h p b k q k' : h !! p = Some b -> 0 <= k ->
  confirm_scan shutdown f h p b k = Ret (ScanDone q k') ->
  exists i, ancestor i h p = Some q /\ k' <= k + Z.of_nat i
    /\ (forall j r, (1 <= j <= i)%nat -> ancestor j h p = Some r -> marked_in h r = false)
    /\ (forall r, ancestor (S i) h p = Some r -> marked_in h r = true)
    /\ (levels_ok h -> level_of h q = level (WireData b) - Z.of_nat i).
Proof.
  revert p b k. induction f as [|f IH]; intros p b k Hb Hk; [discriminate|]. cbn [confirm_scan].
  destruct (shutdown k); [discriminate|].
  assert (Hanc : forall j, ancestor (S j) h p = match GetPriorBlock b with Some x => ancestor j h x | None => None end)
    by (intros j; cbn [ancestor]; rewrite Hb; done).
  destruct (GetPriorBlock b) as [x|] eqn:Hx.
  2:{ intros [= <- <-]. exists O. split_and!; [done|lia|intros; lia| |].
      - intros r. by rewrite Hanc.
      - intros _. unfold level_of. rewrite Hb. cbn. lia. }
  unfold deref, AuxPtr. destruct (h !! x) as [xb|] eqn:Hxb; [|discriminate]. cbn [outcome_bind].
  destruct (auxp xb) as [xa|] eqn:Hxa; [|discriminate]. cbn [outcome_bind].
  assert (Hmx : marked_in h x = marked_for_indelible xa) by (unfold marked_in; rewrite Hxb; cbn; by rewrite Hxa).
  destruct (Z.eqb_spec (level (WireData xb)) (u64 (level (WireData b) - 1))) as [El|]; cbn [negb]; [|discriminate].
  destruct (marked_for_indelible xa) eqn:Hm.
  - intros [= <- <-]. exists O. split_and!; [done|lia|intros; lia| |].
    + intros r. rewrite Hanc. by intros [= <-].
    + intros _. unfold level_of. rewrite Hb. cbn. lia.
  - intros Hs. assert (Hu : 0 <= u32 (k + 1) <= k + 1) by (unfold u32, wrap; split;
      [apply Z.mod_pos_bound; lia|apply Z.mod_le; lia]).
    destruct (IH x xb (u32 (k + 1)) Hxb ltac:(lia) Hs) as (i & Hq & Hk' & Hun & Hstop & Hlev). exists (S i).
    rewrite !Hanc. split_and!; [done|lia| | |].
    + intros [|[|j]] r Hj; [lia| |]; rewrite Hanc; [by intros [= <-]|]. apply Hun. lia.
    + exact Hstop.
    + intros Hl. rewrite (Hlev Hl), (prior_level h x xb b Hl Hxb (Hl _ _ Hb) El). lia.
Qed.

Lemma confirm_scan_fuel h f p b k : levels_ok h -> h !! p = Some b ->
  (Z.to_nat (level (WireData b)) < f)%nat -> confirm_scan shutdown f h p b k <> Throw FuelOut.
Proof.
  intros Hl. revert p b k. induction f as [|f IH]; intros p b k Hb Hf; [lia|]. cbn [confirm_scan].
  destruct (shutdown k); [discriminate|]. destruct (GetPriorBlock b) as [x|]; [|discriminate].
  unfold deref, AuxPtr. destruct (h !! x) as [xb|] eqn:Hxb; [|discriminate]. cbn [outcome_bind].
  destruct (auxp xb); [|discriminate]. cbn [outcome_bind].
  destruct (Z.eqb_spec (level (WireData xb)) (u64 (level (WireData b) - 1))) as [E|]; [|discriminate].
  cbn [negb]. destruct (marked_for_indelible _); [discriminate|]. apply (IH x xb); [done|].
  pose proof (prior_level h x xb b Hl Hxb (Hl _ _ Hb) E). pose proof (Hl _ _ Hxb). lia.
Qed.

(** What a successful [DoConfirmOne] did. *)
Lemma DoConfirmOne_success c newobj c' : DoConfirmOne shutdown c newobj = Ret (false, c') ->
  exists b q k, c_heap c !! newobj = Some b /\ marked_in (c_heap c) newobj = false
    /\ confirm_scan shutdown (scan_fuel b) (c_heap c) newobj b 1 = Ret (ScanDone q k)
    /\ SetNewlyIndelibleBlock c q = Ret (false, c')
    /\ (is_Some (m_last_indelible_block c) -> exists a, auxp b = Some a /\
          nseqconfsigs (blockchain_params a) <= k).
Proof.
  unfold DoConfirmOne, deref, AuxPtr. destruct (c_heap c !! newobj) as [b|] eqn:Hb; [|discriminate].
  cbn [outcome_bind]. destruct (auxp b) as [a|] eqn:Ha; [|discriminate]. cbn [outcome_bind].
  destruct (marked_for_indelible a) eqn:Hm; [discriminate|].
  destruct (confirm_scan _ _ _ _ _ _) as [[| |q k]|] eqn:Hs; [discriminate..| |discriminate].
  cbn [outcome_bind]. destruct (c_heap c !! q) as [qb|] eqn:Hq; [|discriminate]. cbn [outcome_bind].
  destruct (auxp qb) as [qa|] eqn:Hqa; [|discriminate]. cbn [outcome_bind].
  destruct (bool_decide _ && _) eqn:Hg; [discriminate|]. intros Hset. exists b, q, k.
  split_and!; [done| |done|done|].
  - unfold marked_in. rewrite Hb. cbn. by rewrite Ha.
  - intros Hsome. exists a. split; [done|]. rewrite bool_decide_eq_true_2 in Hg by done. cbn [andb] in Hg.
    apply orb_false_iff in Hg as [Hg _]. by apply Z.ltb_ge.
Qed.

Lemma DoConfirmOne_tip c newobj c' : DoConfirmOne shutdown c newobj = Ret (false, c') ->
  exists q, m_new_indelible_block c' = Some q /\ keeps_ids (c_heap c) (c_heap c')
    /\ extends (c_heap c') (indelible_tip c) q
    /\ marked_in (c_heap c) q = false
    /\ (forall r, marked_in (c_heap c') r = if bool_decide (r = q) then true else marked_in (c_heap c) r)
    /\ m_last_indelible_block c' = m_last_indelible_block c
    /\ m_last_indelible_level c' = m_last_indelible_level c
    /\ m_have_fatal_error c' = m_have_fatal_error c.
Proof.
  intros (b & q & k & Hb & Hm & Hs & Hset & _)%DoConfirmOne_success.
  destruct (SetNewlyIndelibleBlock_success _ _ _ Hset) as (x & a & d & Hx & Ha & Hma & Hh & Hext & Hnew & Hl & Hll & Hf).
  exists q. assert (Hk : forall a', oid a' = oid a -> keeps_ids (c_heap c) (<[q := set_aux x a']> (c_heap c)))
    by (intros; by eapply keeps_ids_insert).
  assert (Hk1 := Hk (set_donations (set_marked a) d) eq_refl).
  split_and!; try done.
  - rewrite Hh. exact Hk1.
  - rewrite Hh. eapply extends_keeps; [|exact Hext].
    intros r. etransitivity; [apply Hk1|symmetry; by apply Hk].
  - unfold marked_in. rewrite Hx. cbn. by rewrite Ha.
  - intros r. rewrite Hh. unfold marked_in. destruct (decide (r = q)) as [->|Hne].
    + rewrite lookup_insert_eq. cbn. by rewrite bool_decide_eq_true_2.
    + rewrite lookup_insert_ne by done. by rewrite bool_decide_eq_false_2.
Qed.

(** A run of successful confirmations, with the blocks made indelible in order. *)
Inductive confirm_run (newobj : ptr) : chain D -> list ptr -> chain D -> Prop :=
| run_nil c : confirm_run newobj c [] c
| run_cons c q c1 l c2 :
    DoConfirmOne shutdown c newobj = Ret (false, c1) -> m_new_indelible_block c1 = Some q ->
    confirm_run newobj c1 l c2 -> confirm_run newobj c (q :: l) c2.

(** Each block of the list extends the one before it. *)
Fixpoint linked (h : heap) (prev : option ptr) (l : list ptr) : Prop :=
  match l with
  | [] => True
  | q :: l => extends h prev q /\ linked h (Some q) l
  end.

Lemma confirm_run_linked newobj c l c' : confirm_run newobj c l c' ->
  linked (c_heap c') (indelible_tip c) l /\ keeps_ids (c_heap c) (c_heap c')
  /\ Forall (fun q => marked_in (c_heap c') q = true) l
  /\ indelible_tip c' = default (indelible_tip c) (Some <$> last l)
  /\ (l <> [] -> m_new_indelible_block c' = last l)
  /\ m_last_indelible_block c' = m_last_indelible_block c
  /\ m_last_indelible_level c' = m_last_indelible_level c
  /\ m_have_fatal_error c' = m_have_fatal_error c
  /\ (forall r, marked_in (c_heap c) r = true -> marked_in (c_heap c') r = true).
Proof.
  induction 1 as [c|c q c1 l c2 Hone Hnew Hrun (IHl & IHk & IHm & IHt & IHn & IHb & IHlev & IHf & IHmm)].
  - by split_and!.
  - destruct (DoConfirmOne_tip _ _ _ Hone) as (q' & Hnew' & Hk & Hext & Hq & Hmk & Hl & Hll & Hf).
    assert (q' = q) as -> by congruence.
    assert (Ht1 : indelible_tip c1 = Some q) by (unfold indelible_tip; by rewrite Hnew).
    assert (Hqm : marked_in (c_heap c1) q = true) by (rewrite Hmk; by rewrite bool_decide_eq_true_2).
    rewrite Ht1 in *. assert (Hkk : keeps_ids (c_heap c) (c_heap c2)) by (by transitivity (c_heap c1)).
    split_and!; try congruence.
    + split; [exact (extends_keeps _ _ _ _ IHk Hext)|exact IHl].
    + constructor; [|done]. by apply IHmm.
    + rewrite IHt, last_cons. by destruct (last l).
    + intros _. destruct l as [|x l]; [|rewrite last_cons_cons; by apply IHn].
      inversion Hrun; subst. done.
    + intros r Hr. apply IHmm. rewrite Hmk. by destruct (bool_decide (r = q)).
Qed.

Definition marks_kept (h h' : heap) : Prop := forall r, marked_in h r = true -> marked_in h' r = true.

Lemma marks_insert h p b a' : marked_for_indelible a' = true -> marks_kept h (<[p := set_aux b a']> h).
Proof.
  intros Hm r Hr. unfold marked_in. destruct (decide (r = p)) as [->|].
  - by rewrite lookup_insert_eq.
  - by rewrite lookup_insert_ne.
Qed.

(** An attempt that confirms nothing leaves the tip alone. *)
Lemma SetNewlyIndelibleBlock_stop c p c' : SetNewlyIndelibleBlock c p = Ret (true, c') ->
  m_new_indelible_block c' = m_new_indelible_block c
  /\ m_last_indelible_block c' = m_last_indelible_block c
  /\ m_last_indelible_level c' = m_last_indelible_level c /\ keeps_ids (c_heap c) (c_heap c')
  /\ marks_kept (c_heap c) (c_heap c').
Proof.
  unfold SetNewlyIndelibleBlock, SetFatalError. intros Hrun. run_handler Hrun;
  injection Hrun as <-; (split_and!; [done|done|done|..]); try done; cbn;
  unfold deref, AuxPtr in *; destruct (c_heap c !! p) as [bp|] eqn:Hb; try discriminate;
  match goal with E : Ret bp = Ret _ |- _ => injection E as <- end;
  destruct (auxp bp) as [ap|] eqn:Ha; try discriminate;
  match goal with E : Ret ap = Ret _ |- _ => injection E as <- end;
  unfold put_aux; rewrite ?insert_insert_eq;
  first [by eapply keeps_ids_insert|by apply marks_insert|by intros ? ?].
Qed.

Lemma DoConfirmOne_stop c p c' : DoConfirmOne shutdown c p = Ret (true, c') ->
  m_new_indelible_block c' = m_new_indelible_block c
  /\ m_last_indelible_block c' = m_last_indelible_block c
  /\ m_last_indelible_level c' = m_last_indelible_level c /\ keeps_ids (c_heap c) (c_heap c')
  /\ marks_kept (c_heap c) (c_heap c').
Proof.
  unfold DoConfirmOne. intros Hrun.
  run_handler Hrun; try (injection Hrun as <-; split_and!; try done; by intros ? ?).
  by eapply SetNewlyIndelibleBlock_stop.
Qed.

(** ** The confirmation loop ends *)

Lemma donate_loop_fuel idx (db : D) w big little : donate_loop idx db w big little <> Throw FuelOut.
Proof.
  revert db. induction idx as [|i idx IH]; intros db; [discriminate|]. cbn [donate_loop].
  destruct (DonationSelect db i) as [rc pk]. destruct (rc <? 0); [discriminate|]. cbv zeta.
  destruct (pack_unsigned_amount _ _) as [err pk']. destruct (negb err); [|discriminate].
  destruct (DonationInsert db i pk') as [[] db']; [discriminate|apply IH].
Qed.

Lemma SetNewlyIndelibleBlock_fuel c p : SetNewlyIndelibleBlock c p <> Throw FuelOut.
Proof.
  unfold SetNewlyIndelibleBlock, in_sequence, deref, AuxPtr. intros Hrun. run_handler Hrun;
  repeat match goal with
  | E : match ?x with _ => _ end = Throw _ |- _ => destruct x; try discriminate E
  | E : outcome_bind ?x _ = Throw _ |- _ => destruct x eqn:?; cbn [outcome_bind] in E; try discriminate E
  end; try congruence; simplify_eq; by eapply donate_loop_fuel.
Qed.
Lemma keeps_ids_lookup h h' p b : keeps_ids h h' -> h !! p = Some b ->
  exists b', h' !! p = Some b' /\ WireData b' = WireData b /\ priorp b' = priorp b.
Proof.
  intros Hk Hb. specialize (Hk p). rewrite Hb in Hk. destruct (h' !! p) as [b'|]; [|discriminate].
  cbn in Hk. injection Hk as ? ? ?. by exists b'.
Qed.

Lemma keeps_ids_prior h h' p : keeps_ids h h' -> (h' !! p ≫= GetPriorBlock) = (h !! p ≫= GetPriorBlock).
Proof.
  intros Hk. specialize (Hk p). destruct (h' !! p), (h !! p); try discriminate; [|done].
  cbn in *. by injection Hk.
Qed.

Lemma ancestor_keeps h h' k p : keeps_ids h h' -> ancestor k h' p = ancestor k h p.
Proof.
  intros Hk. revert p. induction k as [|k IH]; intros p; [done|]. cbn [ancestor].
  rewrite (keeps_ids_prior h h' p Hk). by destruct (h !! p ≫= GetPriorBlock).
Qed.

Lemma levels_ok_keeps h h' : keeps_ids h h' -> levels_ok h -> levels_ok h'.
Proof.
  intros Hk Hl p b' Hb'. specialize (Hk p). rewrite Hb' in Hk. cbn in Hk.
  destruct (h !! p) as [b|] eqn:Hb; [|discriminate]. cbn in Hk. injection Hk as -> _ _. by eapply Hl.
Qed.

Lemma DoConfirmOne_fuel c p : levels_ok (c_heap c) -> DoConfirmOne shutdown c p <> Throw FuelOut.
Proof.
  intros Hl. unfold DoConfirmOne, deref, AuxPtr. destruct (c_heap c !! p) as [b|] eqn:Hb; [|discriminate].
  cbn [outcome_bind]. destruct (auxp b) as [a|]; [|discriminate]. cbn [outcome_bind].
  destruct (marked_for_indelible a); [discriminate|].
  pose proof (confirm_scan_fuel (c_heap c) (scan_fuel b) p b 1 Hl Hb ltac:(unfold scan_fuel; lia)) as Hsf.
  destruct (confirm_scan _ _ _ _ _ _) as [[| |q k]|]; cbn [outcome_bind]; try discriminate; [|by intros [= ->]].
  destruct (c_heap c !! q) as [qb|]; [|discriminate]. cbn [outcome_bind].
  destruct (auxp qb); [|discriminate]. cbn [outcome_bind]. destruct (_ && _); [discriminate|].
  apply SetNewlyIndelibleBlock_fuel.
Qed.

(** A success marks an ancestor at a distance no scan goes beyond again. *)
Lemma DoConfirmOne_progress c newobj c' : levels_ok (c_heap c) ->
  DoConfirmOne shutdown c newobj = Ret (false, c') ->
  levels_ok (c_heap c') /\
  exists b i q, c_heap c !! newobj = Some b /\ Z.of_nat i <= level (WireData b)
    /\ ancestor i (c_heap c') newobj = Some q /\ marked_in (c_heap c') q = true
    /\ forall j r, ancestor j (c_heap c) newobj = Some r -> marked_in (c_heap c) r = true -> (i < j)%nat.
Proof.
  intros Hl Hone. destruct (DoConfirmOne_success _ _ _ Hone) as (b & q & k & Hb & Hm & Hs & Hset & _).
  destruct (DoConfirmOne_tip _ _ _ Hone) as (q' & Hnew & Hk & _ & Hq' & Hmk & _).
  destruct (SetNewlyIndelibleBlock_success _ _ _ Hset) as (x & ? & ? & Hx & _ & _ & _ & _ & Hnew' & _).
  assert (q' = q) as -> by congruence. split; [by eapply levels_ok_keeps|].
  destruct (confirm_scan_spec _ (c_heap c) newobj b 1 q k Hb ltac:(lia) Hs) as (i & Hi & _ & Hun & _ & Hlev).
  exists b, i, q. split_and!; [done| | | |].
  - specialize (Hlev Hl). unfold level_of in Hlev. rewrite Hx in Hlev. cbn in Hlev.
    pose proof (Hl _ _ Hx). lia.
  - by rewrite (ancestor_keeps _ _ _ _ Hk).
  - rewrite Hmk. by rewrite bool_decide_eq_true_2.
  - intros j r Hj Hr. destruct (Nat.lt_ge_cases i j) as [|Hji]; [done|]. exfalso.
    destruct j as [|j]; [cbn in Hj; injection Hj as <-; congruence|].
    rewrite (Hun (S j) r ltac:(lia) Hj) in Hr. discriminate.
Qed.

Lemma confirm_loop_fuel f : forall c newobj hn i q, levels_ok (c_heap c) ->
  ancestor i (c_heap c) newobj = Some q -> marked_in (c_heap c) q = true -> (i < f)%nat ->
  confirm_loop shutdown shutdown_loop f c newobj hn <> Throw FuelOut.
Proof.
  induction f as [|f IH]; intros c newobj hn i q Hl Hi Hq Hf; [lia|]. cbn [confirm_loop].
  pose proof (DoConfirmOne_fuel c newobj Hl) as Hnf.
  destruct (DoConfirmOne shutdown c newobj) as [[rc c1]|] eqn:Hone; cbn [outcome_bind]; [|by intros [= ->]].
  destruct (_ || _); [discriminate|]. destruct rc; [discriminate|].
  destruct (DoConfirmOne_progress _ _ _ Hl Hone) as (Hl1 & b & i1 & q1 & _ & _ & Hi1 & Hq1 & Hmin).
  pose proof (Hmin i q Hi Hq). apply (IH c1 newobj true i1 q1); auto. lia.
Qed.

(** What the loop did: a run of successes, then an attempt that confirmed nothing,
    unless it was abandoned. *)
Lemma confirm_loop_run f c newobj hn hn' c' :
  confirm_loop shutdown shutdown_loop f c newobj hn = Ret (false, hn', c') ->
  exists l c1, confirm_run newobj c l c1 /\ DoConfirmOne shutdown c1 newobj = Ret (true, c')
    /\ (hn' = true -> hn = true \/ l <> []).
Proof.
  revert c hn. induction f as [|f IH]; intros c hn; [discriminate|]. cbn [confirm_loop].
  destruct (DoConfirmOne shutdown c newobj) as [[rc c2]|] eqn:Hone; [|discriminate]. cbn [outcome_bind].
  destruct (m_have_fatal_error c2 || shutdown_loop c2); [discriminate|].
  destruct rc.
  { intros [= <- <-]. exists [], c. split_and!; [constructor|done|auto]. }
  intros Hl. destruct (IH _ _ Hl) as (l & c1 & Hrun & Hlast & _).
  destruct (DoConfirmOne_tip _ _ _ Hone) as (q & Hnew & _).
  exists (q :: l), c1. split_and!; [by econstructor|done|by right].
Qed.
End confirm_proofs.

(** ** A reference database

    Every operation succeeds; the donation totals are a finite map. *)

Abbreviation ref_db := (gmap Z packed_unsigned_amount_t).

#[export] Instance ref_ChainDb : ChainDb ref_db := {|
  BeginWrite db := (0, db);
  EndWrite _ db := (false, db);
  GetNextXreqnum _ := 1;
  IndexTxs db _ a _ := (false, false, db, total_donations a);
  SynchronizeMatching db _ _ _ := (false, db);
  SaveNextNums db _ _ := (false, db);
  ExpireMatches db _ := (false, db);
  PruneMatchingReqs db _ := db;
  UpdateCommitTree db _ _ := (false, db);
  BlockchainInsert db _ _ := (false, db);
  DonationSelect db i := match db !! i with Some p => (0, p) | None => (1, mkPU 0 0) end;
  DonationInsert db i p := (false, <[i := p]> db);
  BlockAuxInsert db _ _ := (false, db);
  SaveMining db := (false, db) |}.

#[export] Program Instance ref_DonationTable : DonationTable ref_db := {| db_works _ := True |}.
Next Obligation. intros db i _. cbn. destruct (_ !! i); cbn; lia. Qed.
Next Obligation.
  intros db i p _. eexists. split; [reflexivity|]. cbn. split; [done|]. split; [by rewrite lookup_insert_eq|].
  intros j Hj. by rewrite lookup_insert_ne.
Qed.

(** ** Main results *)

Section donation_theorems.
Context {B : BigOps} {HB : BigOpsSpec B}.

(** The donations of a block are credited to the witnesses in full: the block's own
    witness gets its share, at least a third and no less than any other, every other
    witness the same smaller share, and the totals grow by exactly the donations. *)
Theorem donations_credited {D} `{DonationTable D} total n w (db : D) :
  bigint_ok total -> 1 <= n < 2 ^ 16 -> 0 <= w < n -> db_works db ->
  (forall i, 0 <= i < n -> donation_total db i + bval total < 2 ^ 128) ->
  let '(big, little) := donation_split total n in
  exists db', donate_loop (seqZ 0 n) db w big little = Ret (false, db')
    /\ (forall i, 0 <= i < n -> donation_total db' i = donation_total db i + if i =? w then bval big else bval little)
    /\ (forall i, ~ 0 <= i < n -> donation_total db' i = donation_total db i)
    /\ zsum (map (donation_total db') (seqZ 0 n)) = zsum (map (donation_total db) (seqZ 0 n)) + bval total
    /\ bval little <= bval big /\ bval total <= 3 * bval big.
Proof.
  intros Ht Hn Hw Hdb Hfit. pose proof (bval_range _ Ht) as [H0' _].
  assert (Hnn : forall i, 0 <= donation_total db i).
  { intros i. unfold donation_total. destruct (DonationSelect db i) as [rc p].
    destruct (rc =? 0); [|lia]. apply unpack_zero. }
  assert (Hlt : bval total < 2 ^ 128) by (pose proof (Hfit 0 ltac:(lia)); pose proof (Hnn 0); lia).
  pose proof (donation_split_values total n Ht Hlt Hn) as Hv.
  destruct (donation_split total n) as [big little]. destruct Hv as (Hb & Hl & El & Eb).
  destruct (donation_split_arith (bval total) n H0' ltac:(lia)) as (Hl0 & Hs & Hle & H3 & _). rewrite <- El in *.
  assert (0 <= (n - 1) * bval little) by nia.
  destruct (donate_loop_spec w big little Hb Hl ltac:(lia) ltac:(nia) (seqZ 0 n) db) as (db' & Hrun & _ & Htot);
    [apply NoDup_seqZ|done| |].
  { intros i Hi. apply elem_of_seqZ in Hi. specialize (Hfit i ltac:(lia)). destruct (i =? w); nia. }
  exists db'. split_and!; [done| | | |lia|lia].
  - intros i Hi. rewrite Htot, bool_decide_eq_true_2; [done|]. apply elem_of_seqZ. lia.
  - intros i Hi. rewrite Htot, bool_decide_eq_false_2; [lia|]. rewrite elem_of_seqZ. lia.
  - assert (E : map (donation_total db') (seqZ 0 n)
      = map (fun i => donation_total db i + (if i =? w then bval big else bval little)) (seqZ 0 n)).
    { apply map_ext_in. intros i Hi. apply list_elem_of_In in Hi. by rewrite Htot, bool_decide_eq_true_2. }
    rewrite E, zsum_add, zsum_shares; [|apply NoDup_seqZ|apply elem_of_seqZ; lia].
    rewrite length_seqZ, Z2Nat.id, Eb by lia. lia.
Qed.
End donation_theorems.

Lemma donations_credited_witness :
  let '(big, little) := donation_split (B := ref_bigops) (of_bval 100) 3 in
  exists db', donate_loop (B := ref_bigops) (seqZ 0 3) (∅ : ref_db) 1 big little = Ret (false, db')
    /\ (forall i, 0 <= i < 3 -> donation_total db' i = donation_total (∅ : ref_db) i + if i =? 1 then bval big else bval little)
    /\ (forall i, ~ 0 <= i < 3 -> donation_total db' i = donation_total (∅ : ref_db) i)
    /\ zsum (map (donation_total db') (seqZ 0 3)) = zsum (map (donation_total (∅ : ref_db)) (seqZ 0 3)) + bval (of_bval 100)
    /\ bval little <= bval big /\ bval (of_bval 100) <= 3 * bval big.
Proof.
  apply (donations_credited (B := ref_bigops) (of_bval 100) 3 1 (∅ : ref_db)); try lia; try done.
  apply of_bval_ok.
Defined.

Section confirm_theorems.
Context {D : Type} `{ChainDb D} {B : BigOps}.
Context (shutdown : Z -> bool) (shutdown_loop : chain D -> bool).

Lemma ancestor_prefix h i j p q : ancestor (i + j) h p = Some q -> exists r, ancestor i h p = Some r /\ ancestor j h r = Some q.
Proof.
  revert p. induction i as [|i IH]; intros p Hq; [by exists p|]. cbn [ancestor Nat.add] in *.
  destruct (h !! p ≫= GetPriorBlock) as [x|]; [|done]. by apply IH.
Qed.

Lemma ancestor_in_heap h n m k p q : heap_ok h n m -> is_Some (h !! p) -> ancestor k h p = Some q -> is_Some (h !! q).
Proof.
  intros Hh. revert p. induction k as [|k IH]; intros p Hp; cbn [ancestor]; [by intros [= <-]|].
  destruct Hp as [b Hb]. rewrite Hb. cbn [mbind option_bind].
  destruct (GetPriorBlock b) as [x|] eqn:Hx; [|done]. destruct (Hh _ _ Hb) as [a Ha].
  destruct (bk_prior _ _ _ _ _ Ha x Hx) as (xb & Hxb & _). apply IH. by exists xb.
Qed.

(** A block that a node confirms has a full window of signatures on top of it. *)
Lemma DoConfirmOne_window n m h c newobj c' A : net_ok n m -> heap_ok h n m -> keeps_ids h (c_heap c) ->
  is_Some (m_last_indelible_block c) ->
  (forall p b a, c_heap c !! p = Some b -> auxp b = Some a -> nconf_of n m <= nseqconfsigs (blockchain_params a)) ->
  DoConfirmOne shutdown c newobj = Ret (false, c') -> m_new_indelible_block c' = Some A ->
  exists p b, h !! p = Some b /\ window h (Z.to_nat (nconf_of n m)) p A /\ exists k, ancestor k h newobj = Some p.
Proof.
  intros Hnet Hh Hk Hstart Hthr Hone Hnew. pose proof (net_ok_conf _ _ Hnet) as Hcf.
  destruct (DoConfirmOne_success _ _ _ _ Hone) as (b & q & k & Hb & _ & Hs & Hset & Hg).
  destruct (SetNewlyIndelibleBlock_success _ _ _ Hset) as (? & ? & ? & _ & _ & _ & _ & _ & Hnew' & _).
  assert (q = A) as -> by congruence. destruct (Hg Hstart) as (a & Ha & Hk1).
  pose proof (Hthr _ _ _ Hb Ha).
  destruct (confirm_scan_spec _ _ (c_heap c) newobj b 1 A k Hb ltac:(lia) Hs) as (i & Hi & Hki & _).
  rewrite (ancestor_keeps _ _ _ _ Hk) in Hi. set (nc := Z.to_nat (nconf_of n m)).
  replace i with ((i + 1 - nc) + (nc - 1))%nat in Hi by lia.
  destruct (ancestor_prefix _ _ _ _ _ Hi) as (r & Hr & HA).
  assert (Hin : is_Some (h !! newobj)).
  { specialize (Hk newobj). rewrite Hb in Hk. destruct (h !! newobj); [done|discriminate]. }
  destruct (ancestor_in_heap _ _ _ _ _ _ Hh Hin Hr) as [rb Hrb].
  exists r, rb. split_and!; [done| |by eexists]. split; [lia|].
  rewrite back_walk_ancestor by lia. exact HA.
Qed.

(** C12. Agreement: if two nodes that hold the same valid blocks make different blocks
    of one level indelible, then more than [m] witnesses each signed two different
    blocks. *)
Theorem indelible_fork_needs_equivocation n m cA cB newA newB cA' cB' A B' :
  let h := c_heap cA in
  net_ok n m -> heap_ok h n m -> keeps_ids h (c_heap cB) ->
  (forall p b, h !! p = Some b -> CheckBadSigOrder h b (-1) = Ret false) ->
  (forall c p b a, c = cA \/ c = cB -> c_heap c !! p = Some b -> auxp b = Some a ->
     nconf_of n m <= nseqconfsigs (blockchain_params a)) ->
  is_Some (m_last_indelible_block cA) -> is_Some (m_last_indelible_block cB) ->
  DoConfirmOne shutdown cA newA = Ret (false, cA') -> m_new_indelible_block cA' = Some A ->
  DoConfirmOne shutdown cB newB = Ret (false, cB') -> m_new_indelible_block cB' = Some B' ->
  A <> B' -> level_of h A = level_of h B' ->
  exists W, NoDup W /\ m < Z.of_nat (length W) /\
    forall w, w ∈ W -> exists x y, x <> y /\ signer h x = w /\ signer h y = w
      /\ is_Some (h !! x) /\ is_Some (h !! y).
Proof.
  intros h Hnet Hh Hk Hvalid Hthr HsA HsB HoA HnA HoB HnB Hne Hlev.
  destruct (DoConfirmOne_window n m h cA newA cA' A Hnet Hh ltac:(reflexivity) HsA) as (pA & bA & HpA & HwA & _);
    [intros p b a Hp Ha; apply (Hthr cA p b a); auto|done|done|].
  destruct (DoConfirmOne_window n m h cB newB cB' B' Hnet Hh Hk HsB) as (pB & bB & HpB & HwB & _);
    [intros p b a Hp Ha; apply (Hthr cB p b a); auto|done|done|].
  destruct (fork_equivocation h n m pA bA pB bB A B' Hnet Hh HpA HpB (Hvalid _ _ HpA) (Hvalid _ _ HpB)
    HwA HwB Hne Hlev) as (W & HW & HmW & HWs).
  exists W. split_and!; [done|done|]. intros w Hw. destruct (HWs w Hw) as (x & y & Hx & Hy & Hxy & Hsx & Hsy).
  assert (Hin : forall p z, is_Some (h !! p) -> z ∈ back_walk (Z.to_nat (nconf_of n m)) h p -> is_Some (h !! z)).
  { intros p z Hp Hz. apply list_elem_of_lookup in Hz as [i Hi].
    pose proof (lookup_lt_Some _ _ _ Hi). pose proof (length_back_walk (Z.to_nat (nconf_of n m)) h p).
    rewrite back_walk_ancestor in Hi by lia. by eapply ancestor_in_heap. }
  exists x, y. split_and!; eauto.
Qed.

(** Termination: the confirmation loop never needs more rounds than the new block has
    levels, plus two. *)
Theorem confirm_loop_terminates c newobj b hn : levels_ok (c_heap c) -> c_heap c !! newobj = Some b ->
  confirm_loop shutdown shutdown_loop (scan_fuel b) c newobj hn <> Throw FuelOut.
Proof.
  intros Hl Hb. destruct (scan_fuel b) as [|f] eqn:Hf; [done|]. unfold scan_fuel in Hf. cbn [confirm_loop].
  pose proof (DoConfirmOne_fuel shutdown c newobj Hl) as Hnf.
  destruct (DoConfirmOne shutdown c newobj) as [[rc c1]|] eqn:Hone; cbn [outcome_bind]; [|by intros [= ->]].
  destruct (_ || _); [discriminate|]. destruct rc; [discriminate|].
  destruct (DoConfirmOne_progress _ _ _ _ Hl Hone) as (Hl1 & x & i & q & Hx & Hi & Hiq & Hq & _).
  assert (x = b) as -> by congruence. apply (confirm_loop_fuel shutdown shutdown_loop _ c1 newobj true i q); auto. lia.
Qed.

Lemma confirm_loop_keeps f c newobj hn ab hn' c' :
  confirm_loop shutdown shutdown_loop f c newobj hn = Ret (ab, hn', c') ->
  m_last_indelible_block c' = m_last_indelible_block c /\ m_last_indelible_level c' = m_last_indelible_level c.
Proof.
  revert c hn. induction f as [|f IH]; intros c hn; [discriminate|]. cbn [confirm_loop].
  destruct (DoConfirmOne shutdown c newobj) as [[rc c1]|] eqn:Hone; [|discriminate]. cbn [outcome_bind].
  assert (Hk : m_last_indelible_block c1 = m_last_indelible_block c /\ m_last_indelible_level c1 = m_last_indelible_level c).
  { destruct rc; [by destruct (DoConfirmOne_stop _ _ _ _ Hone) as (_ & ? & ? & _)|].
    by destruct (DoConfirmOne_tip _ _ _ _ Hone) as (? & _ & _ & _ & _ & _ & ? & ? & _). }
  destruct (_ || _); [by intros [= <- <- <-]|]. destruct rc; [by intros [= <- <- <-]|].
  intros Hl. apply IH in Hl. destruct Hl, Hk. split; congruence.
Qed.

Lemma level_of_keeps h h' p : keeps_ids h h' -> level_of h' p = level_of h p.
Proof.
  intros Hk. specialize (Hk p). unfold level_of. destruct (h' !! p), (h !! p); try discriminate; [|done].
  cbn in *. injection Hk as -> _ _. done.
Qed.

Lemma linked_keeps h h' prev l : keeps_ids h h' -> linked h prev l -> linked h' prev l.
Proof.
  intros Hk. revert prev. induction l as [|q l IH]; intros prev; [done|]. cbn [linked].
  intros [He Hl]. split; [by eapply extends_keeps|by apply IH].
Qed.

(** C25. Commit: when the loop reports success, the new indelible chain is a nonempty run of
    blocks, each extending the one before by one level and by its hash, starting from
    the last indelible block; its end is the new last indelible block.  When it does
    not, the last indelible block has not moved. *)
Theorem DoConfirmationLoop_commits c newobj ticks xt rc c' :
  m_new_indelible_block c = None ->
  DoConfirmationLoop shutdown shutdown_loop c newobj ticks xt = Ret (rc, c') ->
  if rc then m_last_indelible_block c' = m_last_indelible_block c
             /\ m_last_indelible_level c' = m_last_indelible_level c
  else exists l q, last l = Some q /\ linked (c_heap c') (m_last_indelible_block c) l
         /\ Forall (fun p => marked_in (c_heap c') p = true) l
         /\ m_last_indelible_block c' = Some q
         /\ m_last_indelible_level c' = level_of (c_heap c') q
         /\ m_new_indelible_block c' = None.
Proof.
  intros Hnone. unfold DoConfirmationLoop, deref. destruct (c_heap c !! newobj) as [nb|]; [|discriminate].
  cbn [outcome_bind]. destruct (confirm_loop _ _ _ _ _ _) as [[[ab hn] c1]|] eqn:Hloop; [|discriminate].
  cbn [outcome_bind]. destruct (confirm_loop_keeps _ _ _ _ _ _ _ Hloop) as [Hkb Hkl].
  destruct ab; [by intros [= <- <-]|]. destruct hn; cbn [negb]; [|by intros [= <- <-]].
  destruct (confirm_loop_run _ _ _ _ _ _ _ _ Hloop) as (l & c2 & Hrun & Hstop & Hl).
  destruct (Hl eq_refl) as [|Hne]; [done|].
  destruct (confirm_run_linked _ _ _ _ _ Hrun) as (Hlink & _ & Hmarks & _ & Hnew & _).
  destruct (DoConfirmOne_stop _ _ _ _ Hstop) as (Hn1 & _ & _ & Hk1 & Hm1).
  specialize (Hnew Hne). rewrite Hnew in Hn1. destruct (last l) as [q|] eqn:Hlast; [|by apply last_None in Hlast].
  rewrite Hn1. rewrite bool_decide_eq_true_2 by done.
  destruct (SaveMining (c_db c1)) as [[] db1]; [by intros [= <- <-]|].
  destruct (EndWrite true _) as [[] db2]; [by intros [= <- <-]|].
  cbn [m_new_indelible_block with_db with_mem]. rewrite Hn1. unfold SetLastIndelible, deref, AuxPtr.
  cbn [c_heap with_db with_mem].
  destruct (c_heap c1 !! q) as [qb|] eqn:Hq; [|discriminate]. cbn [outcome_bind].
  destruct (auxp qb) as [qa|]; [|discriminate]. cbn [outcome_bind].
  destruct (_ || _); [|discriminate]. intros [= <- <-]. exists l, q. cbn.
  assert (Htip : indelible_tip c = m_last_indelible_block c) by (unfold indelible_tip; by rewrite Hnone).
  rewrite Htip in Hlink. split_and!; try done.
  - by eapply linked_keeps.
  - eapply Forall_impl; [exact Hmarks|]. exact Hm1.
  - unfold level_of. by rewrite Hq.
Qed.
End confirm_theorems.

(** Two branches of four blocks above an indelible genesis block. *)
Definition mark (b : BlockObj) : BlockObj :=
  match auxp b with Some a => set_aux b (set_marked a) | None => b end.
Definition demo_fork : heap :=
  list_to_map [(1%positive, mark (demo_block 0 0 None));
    (2%positive, demo_block 1 1 (Some 1%positive)); (3%positive, demo_block 2 2 (Some 2%positive));
    (4%positive, demo_block 3 0 (Some 3%positive)); (5%positive, demo_block 4 1 (Some 4%positive));
    (6%positive, demo_block 1 1 (Some 1%positive)); (7%positive, demo_block 2 2 (Some 6%positive));
    (8%positive, demo_block 3 0 (Some 7%positive)); (9%positive, demo_block 4 1 (Some 8%positive))].
Definition demo_chain : chain ref_db :=
  mkChain demo_fork ∅ (Some 1%positive) None 0 0 0 0 0 0 false 0 false.

Lemma map_forallb {A} (P : A -> Prop) (f : A -> bool) (h : gmap ptr A) :
  (forall x, f x = true -> P x) -> forallb (fun pb => f (snd pb)) (map_to_list h) = true ->
  forall p b, h !! p = Some b -> P b.
Proof.
  intros Hf H p b Hp. rewrite forallb_forall in H. apply elem_of_map_to_list, list_elem_of_In in Hp.
  apply Hf. exact (H _ Hp).
Qed.

Lemma indelible_fork_needs_equivocation_witness :
  exists W, NoDup W /\ 1 < Z.of_nat (length W) /\
    forall w, w ∈ W -> exists x y, x <> y /\ signer demo_fork x = w /\ signer demo_fork y = w
      /\ is_Some (demo_fork !! x) /\ is_Some (demo_fork !! y).
Proof.
  eapply (indelible_fork_needs_equivocation (B := ref_bigops) (fun _ => false) 3 1 demo_chain demo_chain 5 9 _ _ 2 6).
  - by split_and!.
  - apply heap_okb_ok. reflexivity.
  - reflexivity.
  - apply (map_forallb _ (fun b => match CheckBadSigOrder demo_fork b (-1) with Ret false => true | _ => false end)).
    + intros x. destruct (CheckBadSigOrder _ _ _) as [[|]|]; done.
    + reflexivity.
  - intros c p b a Hc Hb. assert (c_heap c = demo_fork) as E by (by destruct Hc as [-> | ->]).
    rewrite E in Hb. revert a. revert p b Hb.
    apply (map_forallb (fun b => forall a, auxp b = Some a -> nconf_of 3 1 <= nseqconfsigs (blockchain_params a))
      (fun b => match auxp b with None => true
      | Some a => nconf_of 3 1 <=? nseqconfsigs (blockchain_params a) end)).
    + intros x Hx a Ha. rewrite Ha in Hx. by apply Z.leb_le.
    + reflexivity.
  - done.
  - done.
  - vm_compute. reflexivity.
  - reflexivity.
  - vm_compute. reflexivity.
  - reflexivity.
  - done.
  - vm_compute. reflexivity.
Defined.

Lemma demo_levels : levels_ok demo_fork.
Proof.
  unfold levels_ok. apply (map_forallb (fun b => 0 <= level (WireData b) < 2 ^ 32) (fun b => (0 <=? level (WireData b)) && (level (WireData b) <? 2 ^ 32))).
  - intros b [H1 H2]%andb_true_iff. apply Z.leb_le in H1. apply Z.ltb_lt in H2. lia.
  - reflexivity.
Qed.

Lemma confirm_loop_terminates_witness :
  confirm_loop (B := ref_bigops) (fun _ => false) (fun _ => false) (scan_fuel (demo_block 4 1 (Some 4%positive)))
    demo_chain 5 false <> Throw FuelOut.
Proof. apply confirm_loop_terminates; [apply demo_levels|reflexivity]. Defined.

Lemma DoConfirmationLoop_commits_witness :
  exists c', DoConfirmationLoop (B := ref_bigops) (fun _ => false) (fun _ => false) demo_chain 5 7 (0, 0)
    = Ret (false, c') /\
  exists l q, last l = Some q /\ linked (c_heap c') (Some 1%positive) l
    /\ Forall (fun p => marked_in (c_heap c') p = true) l
    /\ m_last_indelible_block c' = Some q
    /\ m_last_indelible_level c' = level_of (c_heap c') q
    /\ m_new_indelible_block c' = None.
Proof.
  eexists. split; [vm_compute; reflexivity|].
  eapply (DoConfirmationLoop_commits (B := ref_bigops) (fun _ => false) (fun _ => false) demo_chain 5 7 (0, 0) false).
  - reflexivity.
  - vm_compute. reflexivity.
Defined.
