(* ===== verification/ZkHash.v ===== *)
(** * The knapsack hash (src/source/cclib/src/zkhash.hpp)

    The hash used for commitments, addresses and the Merkle tree, as the [inteval]
    instance of [ZKHasher] computes it: bits of the inputs select entries of a table of
    bases, whose sums go through a polynomial iteration in the prime field and,
    except at inner nodes of the Merkle tree, a final knapsack.  The constraint
    system that the other instances build, and debug output, are left out. *)
From S2P Require Import Prelude Bigint.

Local Open Scope Z_scope.
Local Open Scope cc_scope.

Definition HASHBASES_RANDOM_START : Z := 256.
Definition HASHBASES_NRANDOM : Z := 2048.

Definition HASH_BASES_MERKLE_NODE : Z := -1.
Definition HASH_BASES_MERKLE_LEAF : Z := 9.

Definition TX_MERKLE_DEPTH : nat := 40.
Definition TX_COMMITNUM_BITS : Z := Z.of_nat TX_MERKLE_DEPTH + 8.
Definition TX_MERKLE_BITS : Z := TX_FIELD_BITS.

(** Sixteen keys of two 64-bit words. *)
Definition hash_bases_prfkeys : list Z :=
  [0x73a83dc8a7f6c299; 0x25c46795627353ff; 0xd5a0588f21f9bf9b; 0x71903c69f6dbc06c;
   0x6d667f1d45a6b6e8; 0xbb5e38400befa348; 0xec5dacc80521caa4; 0xf74c5d4d6102883e;
   0xd0676e9bbf73de55; 0x982323fa87e0aa60; 0xf7b76456c551889d; 0xc70ccc3bbc856d79;
   0x610bfb31a81e1d17; 0x6d71b04574ebe366; 0x7d5d761577ee2f6b; 0x74d49d9cdd2ce11e;
   0xfad1efb766084c0f; 0x4240056ac9ccdc22; 0xa04cbcc91f6b8874; 0x2eebf6d4ec7066e0;
   0xe0e642ce5c83ecd3; 0xdbabd31a652cab95; 0x52c42fcfd4c5371a; 0x173c5e2042693a1d;
   0xb0c31538466e31e7; 0x7e1041191b1528fb; 0x5a475b6d369304d8; 0x4d6ab921d12b932e;
   0x1a8ac0032c33aaf1; 0x8d45f7123c3eedee; 0x7e47e1cd11e3abb5; 0xe0caf4a10de0368f].

(** A key of the pseudo-random function: its sixteen bytes; [None] is NULL. *)
Abbreviation prfkey := (option (list Z)).
Definition prfkey_at (basis : Z) : prfkey :=
  let i := Z.to_nat (2 * basis) in
  Some (le_bytes 8 (nth i hash_bases_prfkeys 0) ++ le_bytes 8 (nth (S i) hash_bases_prfkeys 0)).

Section hash.
Context {B : BigOps}.
(** The random entries of the table HashBases.h, numbered from its entry 256, and the
    third-party siphash function of a message and a key. *)
Context (random_base : Z -> bigint) (siphash : list Z -> list Z -> Z).

(** [HashBases::bigint]: the powers of two, then the random bases. *)
Definition hash_base (index : Z) : bigint :=
  if index <? HASHBASES_RANDOM_START then of_bval (2 ^ index)
  else random_base (index - HASHBASES_RANDOM_START).

(** *** Bits of a value *)

Record extracted := mkExtracted { ex_bits : list bool; ex_remainder : bigint; ex_bitval : bigint }.

(** [nbits] steps from bit [i]; the shift is GMP's. *)
Fixpoint extract_loop (nbits : nat) (i : Z) (val bval_ : bigint) : extracted :=
  match nbits with
  | O => mkExtracted [] val bval_
  | S n =>
      let bit := Z.land (BIGWORD val 0) 1 =? 1 in
      let val := of_bval (Z.shiftr (bval val) 1) in
      let bval_ := if bit then addBigInt bval_ (hash_base i) else bval_ in
      let r := extract_loop n (i + 1) val bval_ in
      mkExtracted (bit :: ex_bits r) (ex_remainder r) (ex_bitval r)
  end.

Definition extractBits (val : bigint) (nbits : Z) : extracted :=
  extract_loop (Z.to_nat nbits) 0 val (of_bval 0).

(** *** Knapsacks *)

(** Table indices of [n] bits from bit [i], and the next basis number. *)
Fixpoint knapsack_bases (n : nat) (i : Z) (key : prfkey) (basisi : Z) (sequential : bool) : list Z * Z :=
  match n with
  | O => ([], basisi)
  | S n =>
      match key with
      | None =>
          let r := knapsack_bases n (i + 1) key basisi sequential in
          (u16 (i + HASHBASES_RANDOM_START) :: fst r, snd r)
      | Some k =>
          let x := if sequential then u16 (le_val (take 2 k) + basisi)
                   else u16 (siphash (le_bytes 4 basisi) k) in
          let x := Z.land x (HASHBASES_NRANDOM - 1) in
          let r := knapsack_bases n (i + 1) key (u32 (basisi + 1)) sequential in
          (u16 (x + HASHBASES_RANDOM_START) :: fst r, snd r)
      end
  end.

Definition knapsack_sum (bits : list bool) (bases : list Z) : bigint :=
  fold_left (fun sum p => if (fst p : bool) then plusBigInt sum (hash_base (snd p)) else sum)
    (combine bits bases) (of_bval 0).

Definition Knapsack1 (bits : list bool) (key : prfkey) (basisi : Z) (sequential : bool)
  : outcome (bigint * Z) :=
  ccassert! Z.of_nat (length bits) <=? 256 in
  let '(bases, basisi) := knapsack_bases (length bits) 0 key basisi sequential in
  Ret (knapsack_sum bits bases, basisi).

Definition Knapsack2 (bits : list bool) (key : prfkey) (basisi : Z) : outcome (bigint * bigint * Z) :=
  let! k0 := Knapsack1 bits key basisi true in
  let! k1 := Knapsack1 bits key (snd k0) false in
  Ret (fst k0, fst k1, snd k1).

(** *** The hash *)

(** One round of the polynomial iteration on the two running sums. *)
Definition hash_round (ks : bigint * bigint) : bigint * bigint :=
  let c := of_bval 1 in
  let '(ks0, ks1) := ks in
  (plusBigInt (plusBigInt (timesBigInt ks0 ks0) ks0) c,
   plusBigInt (minusBigInt (timesBigInt ks1 ks1) ks1) c).

Definition HashFinish (acc ks0 ks1 : bigint) (key : prfkey) (basisi outbits : Z) (skip_final_knapsack : bool)
  : outcome bigint :=
  let '(ks0, ks1) := Nat.iter 8 hash_round (ks0, ks1) in
  let acc := plusBigInt (plusBigInt acc ks0) ks1 in
  let! acc :=
    if skip_final_knapsack then Ret acc
    else
      let inbits := if TX_FIELD_BITS <? outbits * 2 then TX_FIELD_BITS else outbits * 2 in
      let! k := Knapsack1 (ex_bits (extractBits acc inbits)) key basisi true in
      Ret (fst k) in
  Ret (if TX_FIELD_BITS <=? outbits then acc else ex_bitval (extractBits acc outbits)).

(** The loop over the inputs, each a value and its number of bits; [None] before the
    first. *)
Fixpoint hash_inputs (a : list (bigint * Z)) (key : prfkey) (basisi : Z) (st : option (bigint * bigint * bigint))
  : outcome (option (bigint * bigint * bigint) * Z) :=
  match a with
  | [] => Ret (st, basisi)
  | (val, nbits) :: a =>
      let! k := Knapsack2 (ex_bits (extractBits val nbits)) key basisi in
      let '(k0, k1, basisi) := k in
      let st := match st with
                | None => (plusBigInt k0 k1, k0, k1)
                | Some (acc, ks0, ks1) =>
                    (plusBigInt (plusBigInt acc k0) k1, plusBigInt ks0 k0, plusBigInt ks1 k1)
                end in
      hash_inputs a key basisi (Some st)
  end.

(** No inputs leave the variables default-constructed. *)
Definition Hash (a : list (bigint * Z)) (basis outbits : Z) (skip_final_knapsack : bool) : outcome bigint :=
  ccassert! basis <? Z.of_nat (length hash_bases_prfkeys) / 2 in
  let key := if 0 <=? basis then prfkey_at basis else None in
  let! r := hash_inputs a key 0 None in
  let '(acc, ks0, ks1) := match fst r with Some s => s | None => (of_bval 0, of_bval 0, of_bval 0) end in
  HashFinish acc ks0 ks1 key (snd r) outbits skip_final_knapsack.

Definition tx_commit_tree_hash_leaf (commitment : bigint) (commitnum : Z) : outcome bigint :=
  Hash [(commitment, TX_FIELD_BITS); (of_bval commitnum, TX_COMMITNUM_BITS)] HASH_BASES_MERKLE_LEAF TX_MERKLE_BITS false.

Definition tx_commit_tree_hash_node (val1 val2 : bigint) (skip_final_knapsack : bool) : outcome bigint :=
  Hash [(val1, TX_MERKLE_BITS); (val2, TX_MERKLE_BITS)] HASH_BASES_MERKLE_NODE TX_MERKLE_BITS skip_final_knapsack.
End hash.

(** ** Properties *)

Section bits.
Context {B : BigOps} {HB : BigOpsSpec B} (random_base : Z -> bigint).

Lemma bval_shiftr1 val : bigint_ok val -> bval (of_bval (Z.shiftr (bval val) 1)) = bval val / 2.
Proof.
  intros Hv. rewrite bval_of, Z.shiftr_div_pow2 by lia. change (2 ^ 1) with 2.
  pose proof (bval_range _ Hv) as [H0 H1]. apply wrap_small. unfold in_word.
  split; [apply Z.div_pos; lia|]. apply Z.div_lt_upper_bound; lia.
Qed.

Lemma low_bit val : bigint_ok val -> (Z.land (BIGWORD val 0) 1 =? 1) = Z.testbit (bval val) 0.
Proof.
  intros Hv. pose proof (bval_bit_at val 0 0 Hv ltac:(lia)) as E.
  change (64 * Z.of_nat 0 + 0) with 0 in E.
  rewrite E. rewrite Z.bit0_odd. change 1 with (Z.ones 1) at 1. rewrite Z.land_ones by lia.
  change (2 ^ 1) with 2. rewrite Zmod_odd. by destruct (Z.odd _).
Qed.

Lemma extract_loop_spec n : forall i val bv, bigint_ok val -> bigint_ok bv -> 0 <= i -> i + Z.of_nat n <= 256 ->
  bval bv < 2 ^ i ->
  let r := extract_loop random_base n i val bv in
  ex_bits r = map (Z.testbit (bval val)) (seqZ 0 (Z.of_nat n))
  /\ bigint_ok (ex_remainder r) /\ bval (ex_remainder r) = bval val / 2 ^ Z.of_nat n
  /\ bigint_ok (ex_bitval r) /\ bval (ex_bitval r) = bval bv + 2 ^ i * (bval val mod 2 ^ Z.of_nat n).
Proof.
  induction n as [|n IH]; intros i val bv Hv Hbv Hi Hn Hlt.
  - change (2 ^ Z.of_nat 0) with 1. rewrite Z.div_1_r, Z.mod_1_r. split_and!; auto. cbn [extract_loop ex_bitval]. lia.
  - cbn [extract_loop ex_bits ex_remainder ex_bitval]. rewrite low_bit by done.
    pose proof (bval_shiftr1 val Hv) as Ev. set (v2 := of_bval (Z.shiftr (bval val) 1)) in *.
    set (bit := Z.testbit (bval val) 0).
    set (bv2 := if bit then addBigInt bv (hash_base random_base i) else bv).
    pose proof (bval_range _ Hbv) as [Hb0 _]. pose proof (pow2_pos i Hi).
    assert (H2i : 2 ^ (i + 1) = 2 * 2 ^ i) by (rewrite Z.pow_add_r by lia; lia).
    assert (Hi256 : 2 ^ (i + 1) <= 2 ^ 256) by (apply Z.pow_le_mono_r; lia).
    assert (Hbv2 : bigint_ok bv2 /\ bval bv2 = bval bv + 2 ^ i * Z.b2z bit).
    { subst bv2. unfold hash_base, HASHBASES_RANDOM_START. destruct (Z.ltb_spec i 256); [|lia].
      destruct bit; cbn [Z.b2z]; [|split; [done|lia]]. split; [auto with cc|].
      rewrite add_val, bval_of by auto with cc. unfold u256. rewrite (wrap_small 256 (2 ^ i)) by (unfold in_word; lia).
      rewrite wrap_small by (unfold in_word; lia). lia. }
    destruct Hbv2 as [Hbv2 Ebv2].
    assert (Z.b2z bit <= 1) by (destruct bit; done).
    destruct (IH (i + 1) v2 bv2) as (I1 & I2 & I3 & I4 & I5);
      [apply of_bval_ok|done|lia|lia|rewrite Ebv2; nia|].
    assert (Hmod : bval val mod 2 = Z.b2z bit)
      by (unfold bit; rewrite Zmod_odd, Z.bit0_odd; by destruct (Z.odd _)).
    assert (Hpow : 2 ^ Z.of_nat (S n) = 2 * 2 ^ Z.of_nat n)
      by (replace (Z.of_nat (S n)) with (1 + Z.of_nat n) by lia; rewrite Z.pow_add_r by lia; lia).
    pose proof (pow2_pos (Z.of_nat n) ltac:(lia)).
    split_and!; [|done| |done|].
    + rewrite I1, Ev. replace (Z.of_nat (S n)) with (1 + Z.of_nat n) by lia.
      rewrite (seqZ_app 0 1 (Z.of_nat n)) by lia. cbn [map app seqZ]. 
      change (seqZ 0 1) with [0]. cbn [map app]. f_equal.
      change (0 + 1) with (1 + 0). rewrite <- (fmap_add_seqZ 1). unfold fmap, list_fmap.
      change (map (Z.testbit (bval val / 2)) (seqZ 0 (Z.of_nat n))
        = map (Z.testbit (bval val)) (map (Z.add 1) (seqZ 0 (Z.of_nat n)))). rewrite map_map.
      apply map_ext_in. intros k Hk%list_elem_of_In%elem_of_seqZ.
      change 2 with (2 ^ 1). rewrite Z.div_pow2_bits by lia. f_equal. lia.
    + rewrite I3, Ev, Hpow, Z.div_div by lia. done.
    + rewrite I5, Ev, Ebv2, H2i, Hpow, Z.rem_mul_r by lia. rewrite Hmod. lia.
Qed.

Lemma extractBits_bits val nbits : bigint_ok val -> 0 <= nbits <= 256 ->
  ex_bits (extractBits random_base val nbits) = map (Z.testbit (bval val)) (seqZ 0 nbits).
Proof.
  intros Hv Hn. destruct (extract_loop_spec (Z.to_nat nbits) 0 val (of_bval 0) Hv (of_bval_ok 0)) as (E & _);
    [lia|lia|by vm_compute|]. unfold extractBits. rewrite E, Z2Nat.id by lia. done.
Qed.

(** [extractBits] decomposes a value: the bits are those of its low part, which is the
    masked value, and the remainder is the high part. *)
Theorem extractBits_decomposes val nbits : bigint_ok val -> 0 <= nbits <= 256 ->
  let r := extractBits random_base val nbits in
  ex_bits r = map (Z.testbit (bval val)) (seqZ 0 nbits)
  /\ bval (ex_bitval r) = bval val mod 2 ^ nbits
  /\ bval val = bval (ex_bitval r) + 2 ^ nbits * bval (ex_remainder r).
Proof.
  intros Hv Hn r. split; [by apply extractBits_bits|].
  destruct (extract_loop_spec (Z.to_nat nbits) 0 val (of_bval 0) Hv (of_bval_ok 0)) as (_ & _ & E1 & _ & E2);
    [lia|lia|by vm_compute|]. fold (extractBits random_base val nbits) in *. fold r in E1, E2.
  rewrite Z2Nat.id in E1, E2 by lia. change (bval (of_bval 0)) with 0 in E2. rewrite E2, E1.
  pose proof (pow2_pos nbits ltac:(lia)). split; [lia|].
  pose proof (Z.div_mod (bval val) (2 ^ nbits) ltac:(lia)). lia.
Qed.
End bits.

Section field.
Context {B : BigOps} {HB : BigOpsSpec B}.

(** Elements of the prime field. *)
Definition field_ok (x : bigint) : Prop := bigint_ok x /\ bval x < field_prime.

Lemma field_ok_nonneg x : field_ok x -> 0 <= bval x < field_prime.
Proof. intros [Hx ?]. pose proof (bval_range _ Hx) as [? _]. lia. Qed.

Lemma prime_pos : 0 < field_prime.
Proof. pose proof prime_bits as [H _]. assert (0 < 2 ^ (TX_FIELD_BITS - 1)) by (apply pow2_pos; done). lia. Qed.

Lemma plus_field x y : field_ok x -> field_ok y ->
  field_ok (plusBigInt x y) /\ bval (plusBigInt x y) = (bval x + bval y) mod field_prime.
Proof.
  intros [Hx ?] [Hy ?]. pose proof prime_pos. assert (E := plus_val x y Hx Hy ltac:(done) ltac:(done)).
  split; [|done]. split; [auto with cc|]. rewrite E. apply Z.mod_pos_bound. lia.
Qed.

Lemma minus_field x y : field_ok x -> field_ok y -> field_ok (minusBigInt x y).
Proof.
  intros [Hx ?] [Hy ?]. pose proof prime_pos. split; [auto with cc|].
  rewrite minus_val by done. apply Z.mod_pos_bound. lia.
Qed.

Lemma times_field x y : field_ok x -> field_ok y -> field_ok (timesBigInt x y).
Proof.
  intros [Hx ?] [Hy ?]. pose proof prime_pos. split; [auto with cc|].
  rewrite times_val by done. apply Z.mod_pos_bound. lia.
Qed.

Lemma small_field n : 0 <= n < 2 ^ 64 -> field_ok (of_bval n).
Proof.
  intros Hn. split; [auto with cc|]. rewrite bval_of. unfold u256. rewrite wrap_small by (unfold in_word; lia).
  pose proof prime_bits as [Hp _]. unfold TX_FIELD_BITS in Hp. lia.
Qed.

Lemma plus_comm x y : field_ok x -> field_ok y -> plusBigInt x y = plusBigInt y x.
Proof.
  intros Hx Hy. destruct (plus_field x y Hx Hy) as [[H1 _] E1]. destruct (plus_field y x Hy Hx) as [[H2 _] E2].
  apply bval_inj; [done..|]. rewrite E1, E2. by rewrite Z.add_comm.
Qed.

Lemma plus_assoc x y z : field_ok x -> field_ok y -> field_ok z ->
  plusBigInt (plusBigInt x y) z = plusBigInt x (plusBigInt y z).
Proof.
  intros Hx Hy Hz. destruct (plus_field x y Hx Hy) as [Hxy E1]. destruct (plus_field y z Hy Hz) as [Hyz E2].
  destruct (plus_field _ z Hxy Hz) as [[? _] E3]. destruct (plus_field x _ Hx Hyz) as [[? _] E4].
  apply bval_inj; [done..|]. rewrite E3, E4, E1, E2, Zplus_mod_idemp_l, Zplus_mod_idemp_r. by rewrite Z.add_assoc.
Qed.
End field.

Section hash_facts.
Context {B : BigOps} {HB : BigOpsSpec B} (random_base : Z -> bigint) (siphash : list Z -> list Z -> Z).
Context (Htab : forall i, 0 <= i < HASHBASES_NRANDOM -> field_ok (random_base i)).

Local Abbreviation Knapsack1 := (Knapsack1 random_base siphash).
Local Abbreviation Knapsack2 := (Knapsack2 random_base siphash).
Local Abbreviation extractBits := (extractBits random_base).
Local Abbreviation Hash := (Hash random_base siphash).
Local Abbreviation HashFinish := (HashFinish random_base siphash).

Definition random_index (i : Z) : Prop :=
  HASHBASES_RANDOM_START <= i < HASHBASES_RANDOM_START + HASHBASES_NRANDOM.

Lemma knapsack_bases_random n : forall i key basisi sequential, 0 <= i -> i + Z.of_nat n <= 256 ->
  Forall random_index (fst (knapsack_bases siphash n i key basisi sequential)).
Proof.
  unfold random_index, HASHBASES_RANDOM_START, HASHBASES_NRANDOM.
  induction n as [|n IH]; intros i key basisi sequential Hi Hn; [constructor|]. cbn [knapsack_bases].
  destruct key as [k|]; cbn [fst].
  - constructor; [|apply IH; lia]. match goal with |- context [Z.land ?x _] => set (v := x) end.
    unfold HASHBASES_NRANDOM, HASHBASES_RANDOM_START. change (2048 - 1) with (2 ^ 11 - 1). rewrite land_mask by lia.
    pose proof (Z.mod_pos_bound v (2 ^ 11) eq_refl). unfold u16. rewrite wrap_small by (unfold in_word; lia). lia.
  - constructor; [|apply IH; lia]. unfold HASHBASES_RANDOM_START, u16. rewrite wrap_small by (unfold in_word; lia). lia.
Qed.

Lemma hash_base_field i : random_index i -> field_ok (hash_base random_base i).
Proof.
  unfold random_index, hash_base. intros Hi. destruct (Z.ltb_spec i HASHBASES_RANDOM_START); [lia|].
  apply Htab. lia.
Qed.

Lemma knapsack_sum_field bits bases : Forall random_index bases -> field_ok (knapsack_sum random_base bits bases).
Proof.
  unfold knapsack_sum. intros Hb. assert (H0 : field_ok (of_bval 0)) by (apply small_field; lia).
  revert bits H0. generalize (of_bval 0). induction Hb as [|x l Hx Hl IH]; intros s [|b bits] Hs; try done.
  cbn [combine fold_left fst snd]. apply IH. destruct b; [|done]. apply plus_field; [done|by apply hash_base_field].
Qed.

Lemma Knapsack1_ret bits key basisi sequential : (length bits <= 256)%nat ->
  exists s b, Knapsack1 bits key basisi sequential = Ret (s, b) /\ field_ok s.
Proof.
  intros Hl. unfold ZkHash.Knapsack1. destruct (Z.leb_spec (Z.of_nat (length bits)) 256); [|lia].
  pose proof (knapsack_bases_random (length bits) 0 key basisi sequential ltac:(lia) ltac:(lia)) as Hr.
  destruct (knapsack_bases _ _ _ _ _ _) as [bases b]. exists (knapsack_sum random_base bits bases), b.
  split; [done|]. by apply knapsack_sum_field.
Qed.

Lemma Knapsack2_ret bits key basisi : (length bits <= 256)%nat ->
  exists s t b, Knapsack2 bits key basisi = Ret (s, t, b) /\ field_ok s /\ field_ok t.
Proof.
  intros Hl. unfold ZkHash.Knapsack2. destruct (Knapsack1_ret bits key basisi true Hl) as (s & b & -> & Hs).
  cbn [outcome_bind snd]. destruct (Knapsack1_ret bits key b false Hl) as (t & b' & -> & Ht).
  cbn. by exists s, t, b'.
Qed.

Lemma length_extractBits val nbits : bigint_ok val -> 0 <= nbits <= 256 ->
  length (ex_bits (extractBits val nbits)) = Z.to_nat nbits.
Proof. intros. rewrite extractBits_bits by done. by rewrite length_map, length_seqZ. Qed.

Lemma hash_rounds_field n ks0 ks1 : field_ok ks0 -> field_ok ks1 ->
  field_ok (fst (Nat.iter n hash_round (ks0, ks1))) /\ field_ok (snd (Nat.iter n hash_round (ks0, ks1))).
Proof.
  intros H0 H1. induction n as [|n [IH0 IH1]]; [done|].
  change (Nat.iter (S n) hash_round (ks0, ks1)) with (hash_round (Nat.iter n hash_round (ks0, ks1))).
  destruct (Nat.iter n hash_round (ks0, ks1)) as [a b]. cbn [fst snd hash_round] in *.
  assert (Hc : field_ok (of_bval 1)) by (apply small_field; lia).
  split; (apply plus_field; [|done]); [apply plus_field; [by apply times_field|done]|].
  apply minus_field; [by apply times_field|done].
Qed.

(** The finish never asserts, and its result is a value of the type. *)
Lemma HashFinish_ret acc ks0 ks1 key basisi outbits skip : field_ok acc -> field_ok ks0 -> field_ok ks1 ->
  0 <= outbits <= 256 ->
  exists h, HashFinish acc ks0 ks1 key basisi outbits skip = Ret h /\ bigint_ok h.
Proof.
  intros Ha H0 H1 Ho. unfold ZkHash.HashFinish.
  destruct (hash_rounds_field 8 ks0 ks1 H0 H1) as [F0 F1].
  destruct (Nat.iter 8 hash_round (ks0, ks1)) as [r0 r1]. cbn [fst snd] in F0, F1. cbv beta iota zeta.
  set (x := plusBigInt (plusBigInt acc r0) r1).
  assert (Hx : field_ok x) by (apply plus_field; [by apply plus_field|done]). clearbody x.
  assert (Hy : exists y, (if skip then Ret x else
     let! k := Knapsack1 (ex_bits (extractBits x (if TX_FIELD_BITS <? outbits * 2 then TX_FIELD_BITS
       else outbits * 2))) key basisi true in Ret (fst k)) = Ret y /\ field_ok y).
  { destruct skip; [by exists x|]. match goal with |- context [ZkHash.extractBits _ x ?e] => set (inb := e) end.
    assert (0 <= inb <= 254) by (subst inb; unfold TX_FIELD_BITS; case_bool; lia).
    destruct (Knapsack1_ret (ex_bits (extractBits x inb)) key basisi true) as (s & b & -> & Hs).
    { rewrite length_extractBits by (apply Hx || lia). lia. }
    by exists s. }
  destruct Hy as (y & -> & Hy). cbn [outcome_bind]. eexists. split; [reflexivity|].
  destruct (_ <=? _); [apply Hy|].
  unfold extractBits. destruct (extract_loop_spec random_base (Z.to_nat outbits) 0 y (of_bval 0)) as (_ & _ & _ & H & _);
    [apply Hy|apply of_bval_ok|lia|lia|by vm_compute|done].
Qed.
(** Two inputs of at most 256 bits hash without an assertion. *)
Lemma Hash2_ret a b na nb basis outbits skip : bigint_ok a -> bigint_ok b -> 0 <= na <= 256 -> 0 <= nb <= 256 ->
  basis < 16 -> 0 <= outbits <= 256 ->
  exists h, Hash [(a, na); (b, nb)] basis outbits skip = Ret h /\ bigint_ok h.
Proof.
  intros Ha Hb Hna Hnb Hbas Ho. unfold ZkHash.Hash. change (Z.of_nat (length hash_bases_prfkeys) / 2) with 16.
  destruct (Z.ltb_spec basis 16); [|lia]. set (key := if 0 <=? basis then _ else _). clearbody key.
  cbn [hash_inputs].
  destruct (Knapsack2_ret (ex_bits (extractBits a na)) key 0) as (s & t & i & -> & Hs & Ht).
  { rewrite length_extractBits by done. lia. }
  cbn [outcome_bind].
  destruct (Knapsack2_ret (ex_bits (extractBits b nb)) key i) as (s' & t' & i' & -> & Hs' & Ht').
  { rewrite length_extractBits by done. lia. }
  cbn [outcome_bind fst snd].
  apply HashFinish_ret; [| | |done]; repeat (apply plus_field || done).
Qed.

Lemma tx_commit_tree_hash_leaf_ret c n : bigint_ok c ->
  exists h, tx_commit_tree_hash_leaf random_base siphash c n = Ret h /\ bigint_ok h.
Proof.
  intros Hc. apply Hash2_ret; auto with cc; unfold TX_FIELD_BITS, TX_COMMITNUM_BITS, TX_MERKLE_DEPTH, TX_MERKLE_BITS,
    HASH_BASES_MERKLE_LEAF, TX_FIELD_BITS; lia.
Qed.

Lemma tx_commit_tree_hash_node_ret a b skip : bigint_ok a -> bigint_ok b ->
  exists h, tx_commit_tree_hash_node random_base siphash a b skip = Ret h /\ bigint_ok h.
Proof.
  intros Ha Hb. apply Hash2_ret; auto with cc; unfold TX_MERKLE_BITS, TX_FIELD_BITS, HASH_BASES_MERKLE_NODE; lia.
Qed.

(** With a NULL key the bases depend on the bit positions only. *)
Lemma knapsack_bases_null n : forall i basisi s,
  knapsack_bases siphash n i None basisi s = (map (fun k => u16 (k + HASHBASES_RANDOM_START)) (seqZ i (Z.of_nat n)), basisi).
Proof.
  induction n as [|n IH]; intros i basisi s; [done|]. cbn [knapsack_bases]. rewrite IH. cbn [fst snd].
  replace (Z.of_nat (S n)) with (1 + Z.of_nat n) by lia. rewrite seqZ_app by lia. done.
Qed.

Lemma Knapsack2_null bits : (length bits <= 256)%nat ->
  exists s, field_ok s /\ forall j, Knapsack2 bits None j = Ret (s, s, j).
Proof.
  intros Hl. pose proof (knapsack_bases_random (length bits) 0 None 0 true ltac:(lia) ltac:(lia)) as Hr.
  rewrite knapsack_bases_null in Hr. cbn [fst] in Hr.
  eexists. split; [by apply knapsack_sum_field|]. intros j.
  unfold ZkHash.Knapsack2, ZkHash.Knapsack1. destruct (Z.leb_spec (Z.of_nat (length bits)) 256); [|lia].
  rewrite knapsack_bases_null. cbn [outcome_bind fst snd]. by rewrite knapsack_bases_null.
Qed.

Lemma hash_node_comm a b skip : bigint_ok a -> bigint_ok b ->
  tx_commit_tree_hash_node random_base siphash a b skip = tx_commit_tree_hash_node random_base siphash b a skip.
Proof.
  intros Ha Hb. unfold tx_commit_tree_hash_node, ZkHash.Hash. cbn [hash_inputs].
  change (0 <=? HASH_BASES_MERKLE_NODE) with false. cbv iota.
  destruct (Knapsack2_null (ex_bits (extractBits a TX_MERKLE_BITS))) as (s & Hs & Es).
  { rewrite length_extractBits by (done || unfold TX_MERKLE_BITS, TX_FIELD_BITS; lia). unfold TX_MERKLE_BITS, TX_FIELD_BITS. lia. }
  destruct (Knapsack2_null (ex_bits (extractBits b TX_MERKLE_BITS))) as (t & Ht & Et).
  { rewrite length_extractBits by (done || unfold TX_MERKLE_BITS, TX_FIELD_BITS; lia). unfold TX_MERKLE_BITS, TX_FIELD_BITS. lia. }
  destruct (_ <? _); [|done].
  rewrite !Es, !Et. cbn [outcome_bind]. rewrite !Es, !Et.
  cbn [outcome_bind fst snd].
  destruct (plus_field s s Hs Hs) as [Hss _]. destruct (plus_field t t Ht Ht) as [Htt _].
  rewrite !(plus_assoc _ t t), !(plus_assoc _ s s) by done.
  by rewrite (plus_comm (plusBigInt s s)), (plus_comm s t) by done.
Qed.
End hash_facts.

(** The node hash of the Merkle tree does not depend on the order of its inputs, so
    that a path need not say on which side each sibling is. *)
Theorem tx_commit_tree_hash_node_comm {B : BigOps} {HB : BigOpsSpec B} random_base siphash a b skip :
  (forall i, 0 <= i < HASHBASES_NRANDOM -> field_ok (random_base i)) -> bigint_ok a -> bigint_ok b ->
  exists h, tx_commit_tree_hash_node random_base siphash a b skip = Ret h
    /\ tx_commit_tree_hash_node random_base siphash b a skip = Ret h.
Proof.
  intros Htab Ha Hb. destruct (tx_commit_tree_hash_node_ret random_base siphash Htab a b skip Ha Hb) as (h & Eh & _).
  exists h. split; [done|]. by rewrite <- hash_node_comm.
Qed.

(** A small table of bases for the concrete instances. *)
Definition demo_base (i : Z) : bigint := of_bval (7 * i + 3).

Lemma demo_base_field : forall i, 0 <= i < HASHBASES_NRANDOM -> field_ok (B := ref_bigops) (demo_base i).
Proof. unfold HASHBASES_NRANDOM. intros i Hi. apply small_field. lia. Qed.

Lemma tx_commit_tree_hash_node_comm_witness :
  exists h, tx_commit_tree_hash_node (B := ref_bigops) demo_base (fun _ _ => 0) (of_bval 5) (of_bval 9) true = Ret h
    /\ tx_commit_tree_hash_node (B := ref_bigops) demo_base (fun _ _ => 0) (of_bval 9) (of_bval 5) true = Ret h.
Proof.
  apply (tx_commit_tree_hash_node_comm (B := ref_bigops) demo_base (fun _ _ => 0) (of_bval 5) (of_bval 9) true);
    [apply demo_base_field|apply of_bval_ok|apply of_bval_ok].
Defined.

Lemma extractBits_decomposes_witness :
  let r := extractBits (B := ref_bigops) demo_base (of_bval 300) 8 in
  ex_bits r = map (Z.testbit (bval (of_bval 300))) (seqZ 0 8)
  /\ bval (ex_bitval r) = bval (of_bval 300) mod 2 ^ 8
  /\ bval (of_bval 300) = bval (ex_bitval r) + 2 ^ 8 * bval (ex_remainder r).
Proof. apply (extractBits_decomposes (B := ref_bigops) demo_base (of_bval 300) 8); [apply of_bval_ok|lia]. Defined.
