(* ===== verification/Merkle.v ===== *)
(** * The commitment tree (src/source/ccnode/src/commitments.cpp)

    The Merkle tree over the transaction outputs, stored row by row in the database
    and brought up to date at each indelible block; the query that serves the path
    of a commitment (src/source/ccnode/src/transact.cpp), and the check of a path that a
    wallet makes (src/source/cclib/src/transaction.cpp).  The database is an interface
    with the laws of its insert-or-replace tables. *)
From S2P Require Import Prelude Bigint Block ZkHash.
From stdpp Require Import gmap.

Local Open Scope Z_scope.
Local Open Scope cc_scope.

(** ** Interfaces *)

(** Keys and values of the parameter table. *)
Inductive param_key : Set :=
| DB_KEY_COMMIT_BLOCKLEVEL
| DB_KEY_COMMIT_COMMITNUM_HI
| DB_KEY_COMMIT_NULL_INPUT.

Inductive param_value : Set :=
| PVnum (n : Z)
| PVbig (b : bigint).

(** The row of a block in the table of Merkle roots. *)
Record commit_root := mkRoot { cr_timestamp : Z; cr_next_commitnum : Z; cr_root : bigint }.

(** Selects return 0 for a row, a positive code for none and a negative one for an error. *)
Class CommitDb (D : Type) := {
  CommitTreeInsert : D -> Z -> Z -> bigint -> Z * D;
  CommitTreeSelect : D -> Z -> Z -> Z * bigint;
  ParameterInsert : D -> param_key -> param_value -> Z * D;
  ParameterSelect : D -> param_key -> Z * param_value;
  CommitRootsInsert : D -> Z -> commit_root -> Z * D;
  CommitRootsSelectLevel : D -> Z -> Z * commit_root;
}.

(** The hash functions of the tree. *)
Class TreeHash := {
  hash_leaf : bigint -> Z -> outcome bigint;
  hash_node : bigint -> bigint -> bool -> outcome bigint;
}.

(** ** Operations *)

Record commitments := mkCommitments {
  m_next_commitnum : Z;
  m_next_tree_update_commitnum : Z;
}.

Section ops.
Context {D : Type} {HD : CommitDb D} {T : TreeHash} {B : BigOps}.

(** [None]: fatal error. *)
Definition Init (c : commitments) (db : D) : option commitments :=
  let '(rc, row_end) := ParameterSelect db DB_KEY_COMMIT_COMMITNUM_HI in
  if rc <? 0 then None
  else if rc =? 0 then
    let n := match row_end with PVnum n => Some n | PVbig _ => None end in
    (fun n => mkCommitments (u64 (n + 1)) (u64 (n + 1))) <$> n
  else Some c.

Definition GetNextCommitnum (c : commitments) (increment : bool) : Z * commitments :=
  (m_next_commitnum c,
   if increment then mkCommitments (u64 (m_next_commitnum c + 1)) (m_next_tree_update_commitnum c) else c).

Definition AddCommitment (db : D) (commitnum : Z) (commitment : bigint) : bool * D :=
  let '(rc, db) := CommitTreeInsert db 0 commitnum commitment in (negb (rc =? 0), db).

(** A row of the tree, hashed when it is a leaf; [None] is an error. *)
Definition select_hashed (db : D) (height offset : Z) : outcome (option bigint) :=
  let '(rc, h) := CommitTreeSelect db height offset in
  if negb (rc =? 0) then Ret None
  else if height =? 0 then let! h := hash_leaf h offset in Ret (Some h)
  else Ret (Some h).

(** The loop over the pairs of one row: error, database, last hash computed. *)
Fixpoint row_loop (fuel : nat) (db : D) (height offset row_end : Z) (nullhash hash : bigint)
  : outcome (bool * D * bigint) :=
  match fuel with
  | O => Throw FuelOut
  | S f =>
      if row_end <? offset then Ret (false, db, hash)
      else
        let! h1 := select_hashed db height offset in
        match h1 with
        | None => Ret (true, db, hash)
        | Some h1 =>
            let! h2 := if row_end <=? offset then Ret (Some nullhash) else select_hashed db height (u64 (offset + 1)) in
            match h2 with
            | None => Ret (true, db, hash)
            | Some h2 =>
                let! hash := hash_node h1 h2 (height <? Z.of_nat TX_MERKLE_DEPTH - 1) in
                let '(rc, db) := CommitTreeInsert db (height + 1) (offset / 2) hash in
                if negb (rc =? 0) then Ret (true, db, hash)
                else row_loop f db height (u64 (offset + 2)) row_end nullhash hash
            end
        end
  end.

(** Steps enough for a row. *)
Definition row_fuel (row_start row_end : Z) : nat := S (S (Z.to_nat ((row_end - row_start) / 2))).

(** Clearing the low bit of a 64-bit value. *)
Definition even_floor (x : Z) : Z := Z.land x (2 ^ 64 - 2).

(** The loop over the heights, [n] of them from [height]. *)
Fixpoint height_loop (n : nat) (db : D) (height row_start row_end : Z) (nullhash hash : bigint)
  : outcome (bool * D * bigint) :=
  match n with
  | O => Ret (false, db, hash)
  | S n =>
      let! r := row_loop (row_fuel row_start row_end) db height row_start row_end nullhash hash in
      let '(rc, db, hash) := r in
      if rc then Ret (true, db, hash)
      else height_loop n db (height + 1) (even_floor (row_start / 2)) (row_end / 2) nullhash hash
  end.

(** What a changed tree needs: the two stashed parameters and the new rows. *)
Definition update_rows (c : commitments) (db : D) (hash : bigint) (block_hash : list Z)
  : outcome (bool * D * bigint) :=
  let row_start := even_floor (m_next_tree_update_commitnum c) in
  let row_end := u64 (m_next_commitnum c - 1) in
  let nullhash := timesBigInt (of_bval (le_val (take 32 block_hash))) (of_bval 1) in
  let '(rc, db) := ParameterInsert db DB_KEY_COMMIT_COMMITNUM_HI (PVnum row_end) in
  if negb (rc =? 0) then Ret (true, db, hash)
  else
    let '(rc, db) := ParameterInsert db DB_KEY_COMMIT_NULL_INPUT (PVbig nullhash) in
    if negb (rc =? 0) then Ret (true, db, hash)
    else height_loop TX_MERKLE_DEPTH db 0 row_start row_end nullhash hash.

(** [blockchain] is the number of the blockchain, which is the root of an empty tree;
    [block_hash] the hash of the block, whose first 32 bytes stand for missing nodes. *)
Definition UpdateCommitTree (c : commitments) (db : D) (blockchain level timestamp : Z) (block_hash : list Z)
  : outcome (bool * D * commitments) :=
  let treechanged := negb (m_next_tree_update_commitnum c =? m_next_commitnum c) in
  let stash := (level =? 0) || treechanged in
  let '(rc, db) := if stash then ParameterInsert db DB_KEY_COMMIT_BLOCKLEVEL (PVnum level) else (0, db) in
  if negb (rc =? 0) then Ret (true, db, c)
  else
    let hash := of_bval blockchain in
    let! r := if treechanged then update_rows c db hash block_hash else Ret (false, db, hash) in
    let '(rc, db, hash) := r in
    let c := if treechanged then mkCommitments (m_next_commitnum c) (m_next_commitnum c) else c in
    if rc then Ret (true, db, c)
    else if stash then
      let '(rc, db) := CommitRootsInsert db level
        (mkRoot (if level =? 0 then 0 else timestamp) (m_next_commitnum c) hash) in
      Ret (negb (rc =? 0), db, c)
    else Ret (false, db, c).
End ops.

(** ** Paths *)

Section paths.
Context {D : Type} {HD : CommitDb D} {T : TreeHash}.

Definition TX_CHAIN_BYTES : Z := 4.
Definition TX_MAXINPATH : Z := 8.
Definition TX_TIME_DIVISOR : Z := 30.

(** The path loop of [HandleTxQueryInputs] for one commitment; [None] is a server error. *)
Fixpoint path_loop (n : nat) (db : D) (height offset end_ : Z) (nullhash : bigint) : outcome (option (list bigint)) :=
  match n with
  | O => Ret (Some [])
  | S n =>
      let offset := Z.lxor offset 1 in
      let! h := if end_ <? offset then Ret (Some nullhash) else select_hashed db height offset in
      match h with
      | None => Ret None
      | Some h =>
          let! r := path_loop n db (height + 1) (offset / 2) (end_ / 2) nullhash in
          Ret (cons h <$> r)
      end
  end.

(** A report gives the level and time of the root, the root, and a path for each
    commitment number asked for. *)
Inductive query_reply : Set :=
| QMalformed
| QTooManyObjects
| QBlockchainNumber
| QServerError
| QNotFound (index : nat)
| QReport (param_level param_time : Z) (merkle_root : bigint) (inputs : list (Z * list bigint)).

(** The paths of the commitment numbers of a message, from number [i] on. *)
Fixpoint query_inputs (db : D) (row_end : Z) (nullhash : bigint) (i : nat) (nums : list Z)
  : outcome (query_reply + list (Z * list bigint)) :=
  match nums with
  | [] => Ret (inr [])
  | commitnum :: nums =>
      if row_end <? commitnum then Ret (inl (QNotFound i))
      else
        let! p := path_loop TX_MERKLE_DEPTH db 0 commitnum row_end nullhash in
        match p with
        | None => Ret (inl QServerError)
        | Some p =>
            let! r := query_inputs db row_end nullhash (S i) nums in
            Ret (match r with inl e => inl e | inr l => inr ((commitnum, p) :: l) end)
        end
  end.

(** 64-bit words of a message. *)
Fixpoint words (n : nat) (msg : list Z) : list Z :=
  match n with O => [] | S n => le_val (take 8 msg) :: words n (drop 8 msg) end.

(** [chain] is the number of the node's blockchain. *)
Definition HandleTxQueryInputs (db : D) (chain : Z) (msg : list Z) : outcome query_reply :=
  let size := Z.of_nat (length msg) in
  let nin := (size - TX_CHAIN_BYTES) / 8 in
  if (size <? TX_CHAIN_BYTES) || negb (TX_CHAIN_BYTES + nin * 8 =? size) then Ret QMalformed
  else if TX_MAXINPATH <? nin then Ret QTooManyObjects
  else
    let blockchain := le_val (take (Z.to_nat TX_CHAIN_BYTES) msg) in
    if negb (blockchain =? 0) && negb (blockchain =? chain) then Ret QBlockchainNumber
    else
      match ParameterSelect db DB_KEY_COMMIT_BLOCKLEVEL with
      | (0, PVnum param_level) =>
          let '(rc, root) := CommitRootsSelectLevel db param_level in
          if negb (rc =? 0) then Ret QServerError
          else
            match ParameterSelect db DB_KEY_COMMIT_COMMITNUM_HI, ParameterSelect db DB_KEY_COMMIT_NULL_INPUT with
            | (0, PVnum row_end), (0, PVbig nullhash) =>
                let merkle_time := cr_timestamp root in
                let param_time := if TX_TIME_OFFSET <? merkle_time
                                  then (merkle_time - TX_TIME_OFFSET) / TX_TIME_DIVISOR else 0 in
                let! r := query_inputs db row_end nullhash 0 (words (Z.to_nat nin) (drop (Z.to_nat TX_CHAIN_BYTES) msg)) in
                Ret (match r with inl e => e | inr l => QReport param_level param_time (cr_root root) l end)
            | _, _ => Ret QServerError
            end
      | _ => Ret QServerError
      end.

Fixpoint path_hash (i : Z) (hash : bigint) (path : list bigint) : outcome bigint :=
  match path with
  | [] => Ret hash
  | val2 :: path =>
      let! hash := hash_node hash val2 (i <? Z.of_nat TX_MERKLE_DEPTH - 1) in
      path_hash (i + 1) hash path
  end.

(** [true] is the error "commitment Merkle path does not hash to the Merkle root". *)
Definition txpay_precheck_input_path (commitment : bigint) (commitnum : Z) (merkle_root : bigint)
    (merkle_path : list bigint) : outcome bool :=
  let! hash := hash_leaf commitment commitnum in
  let! hash := path_hash 0 hash (take TX_MERKLE_DEPTH merkle_path) in
  Ret (negb (bval hash =? bval merkle_root)).
End paths.

(** ** What the components promise *)

(** A database that works: insert or replace, then select. *)
Class CommitDbSpec (D : Type) `{CommitDb D} := {
  commit_db_ok : D -> Prop;
  tree_insert db h o v : commit_db_ok db -> exists db', CommitTreeInsert db h o v = (0, db') /\ commit_db_ok db'
    /\ (forall h' o', CommitTreeSelect db' h' o' = if bool_decide (h' = h /\ o' = o) then (0, v) else CommitTreeSelect db h' o')
    /\ ParameterSelect db' = ParameterSelect db /\ CommitRootsSelectLevel db' = CommitRootsSelectLevel db;
  param_insert db k v : commit_db_ok db -> exists db', ParameterInsert db k v = (0, db') /\ commit_db_ok db'
    /\ ParameterSelect db' k = (0, v) /\ (forall k', k' <> k -> ParameterSelect db' k' = ParameterSelect db k')
    /\ CommitTreeSelect db' = CommitTreeSelect db /\ CommitRootsSelectLevel db' = CommitRootsSelectLevel db;
  roots_insert db l r : commit_db_ok db -> exists db', CommitRootsInsert db l r = (0, db') /\ commit_db_ok db'
    /\ CommitRootsSelectLevel db' l = (0, r)
    /\ CommitTreeSelect db' = CommitTreeSelect db /\ ParameterSelect db' = ParameterSelect db;
}.

(** The hashes are total, and the node hash is commutative. *)
Class TreeHashSpec (T : TreeHash) : Prop := {
  hash_leaf_ret c n : bigint_ok c -> exists h, hash_leaf c n = Ret h /\ bigint_ok h;
  hash_node_ret a b s : bigint_ok a -> bigint_ok b -> exists h, hash_node a b s = Ret h /\ bigint_ok h;
  hash_node_swap a b s : bigint_ok a -> bigint_ok b -> hash_node a b s = hash_node b a s;
}.

Definition zk_TreeHash {B : BigOps} random_base siphash : TreeHash :=
  {| hash_leaf := tx_commit_tree_hash_leaf random_base siphash;
     hash_node := tx_commit_tree_hash_node random_base siphash |}.

(** The knapsack hash keeps the promise. *)
Lemma zk_TreeHashSpec {B : BigOps} {HB : BigOpsSpec B} random_base siphash :
  (forall i, 0 <= i < HASHBASES_NRANDOM -> field_ok (random_base i)) -> TreeHashSpec (zk_TreeHash random_base siphash).
Proof.
  intros Htab. constructor; cbn [hash_leaf hash_node zk_TreeHash].
  - intros. by apply tx_commit_tree_hash_leaf_ret.
  - intros. by apply tx_commit_tree_hash_node_ret.
  - intros. by apply hash_node_comm.
Qed.

Definition val_of (m : outcome bigint) : bigint := match m with Ret h => h | Throw _ => of_bval 0 end.

(** ** The tree as a function of the commitments *)

Section tree.
Context {T : TreeHash} {HT : TreeHashSpec T} (commits : Z -> bigint) (Hcommits : forall i, bigint_ok (commits i)).

(** The node at height [h] and offset [o] of the tree of the first [N] commitments,
    where [null] stands for an absent right child. *)
Fixpoint mtree (N : Z) (null : bigint) (h : nat) (o : Z) : bigint :=
  match h with
  | O => val_of (hash_leaf (commits o) o)
  | S h => val_of (hash_node (mtree N null h (2 * o))
             (if 2 * o + 1 <=? (N - 1) / 2 ^ Z.of_nat h then mtree N null h (2 * o + 1) else null)
             (Z.of_nat h <? Z.of_nat TX_MERKLE_DEPTH - 1))
  end.

Lemma hash_leaf_val c n : bigint_ok c -> hash_leaf c n = Ret (val_of (hash_leaf c n)) /\ bigint_ok (val_of (hash_leaf c n)).
Proof. intros Hc. by destruct (hash_leaf_ret c n Hc) as (h & -> & Hh). Qed.

Lemma hash_node_val a b s : bigint_ok a -> bigint_ok b ->
  hash_node a b s = Ret (val_of (hash_node a b s)) /\ bigint_ok (val_of (hash_node a b s)).
Proof. intros Ha Hb. by destruct (hash_node_ret a b s Ha Hb) as (h & -> & Hh). Qed.

Lemma mtree_bigint N null h o : bigint_ok null -> bigint_ok (mtree N null h o).
Proof.
  intros Hn. revert o. induction h as [|h IH]; intros o; cbn [mtree].
  - by apply hash_leaf_val.
  - apply hash_node_val; [done|]. by destruct (_ <=? _).
Qed.

(** A complete subtree does not depend on how many commitments follow it, nor on what
    stands for absent nodes. *)
Lemma mtree_complete N N' null null' h o : 0 <= o -> (o + 1) * 2 ^ Z.of_nat h <= N -> (o + 1) * 2 ^ Z.of_nat h <= N' ->
  mtree N null h o = mtree N' null' h o.
Proof.
  revert o. induction h as [|h IH]; intros o Ho HN HN'; [done|]. cbn [mtree].
  pose proof (pow2_pos (Z.of_nat h) ltac:(lia)).
  assert (E : 2 ^ Z.of_nat (S h) = 2 * 2 ^ Z.of_nat h)
    by (replace (Z.of_nat (S h)) with (1 + Z.of_nat h) by lia; rewrite Z.pow_add_r by lia; lia).
  rewrite E in HN, HN'.
  assert (Hle : forall M, (o + 1) * (2 * 2 ^ Z.of_nat h) <= M -> 2 * o + 1 <= (M - 1) / 2 ^ Z.of_nat h).
  { intros M HM. apply Z.div_le_lower_bound; nia. }
  pose proof (Hle N HN). pose proof (Hle N' HN').
  rewrite (IH (2 * o)) by nia. destruct (Z.leb_spec (2 * o + 1) ((N - 1) / 2 ^ Z.of_nat h)); [|lia].
  destruct (Z.leb_spec (2 * o + 1) ((N' - 1) / 2 ^ Z.of_nat h)); [|lia].
  by rewrite (IH (2 * o + 1)) by nia.
Qed.
End tree.

Section update.
Context {D : Type} {HD : CommitDb D} {HDS : CommitDbSpec D} {T : TreeHash} {HT : TreeHashSpec T}.
Context {B : BigOps} {HB : BigOpsSpec B}.
Context (commits : Z -> bigint) (Hcommits : forall i, bigint_ok (commits i)).

Local Abbreviation node := (mtree commits).

(** The last offset of a row. *)
Definition row_last (N : Z) (h : nat) : Z := (N - 1) / 2 ^ Z.of_nat h.

(** What a row of the table holds: the commitments themselves, then the nodes. *)
Definition row_value (N : Z) (null : bigint) (h : nat) (o : Z) : bigint :=
  match h with O => commits o | S _ => node N null h o end.

Definition row_ok (db : D) (N : Z) (null : bigint) (h : nat) : Prop :=
  forall o, 0 <= o <= row_last N h -> CommitTreeSelect db (Z.of_nat h) o = (0, row_value N null h o).

Lemma pow2_S h : 2 ^ Z.of_nat (S h) = 2 * 2 ^ Z.of_nat h.
Proof. replace (Z.of_nat (S h)) with (1 + Z.of_nat h) by lia. rewrite Z.pow_add_r by lia. lia. Qed.

Lemma row_last_S N h : row_last N (S h) = row_last N h / 2.
Proof.
  unfold row_last. rewrite pow2_S, Z.mul_comm. pose proof (pow2_pos (Z.of_nat h) ltac:(lia)).
  by rewrite Z.div_div by lia.
Qed.

Lemma row_last_bound N h : 0 < N -> 0 <= row_last N h < N.
Proof.
  intros HN. unfold row_last. pose proof (pow2_pos (Z.of_nat h) ltac:(lia)). split; [apply Z.div_pos; lia|].
  apply Z.div_lt_upper_bound; nia.
Qed.

Lemma select_row db N null h o : row_ok db N null h -> 0 <= o <= row_last N h ->
  select_hashed db (Z.of_nat h) o = Ret (Some (node N null h o)).
Proof.
  intros Hr Ho. unfold select_hashed. rewrite (Hr o Ho). cbn [negb Z.eqb].
  destruct h as [|h].
  - cbn [Z.of_nat Z.eqb row_value]. destruct (hash_leaf_val (commits o) o (Hcommits o)) as [-> _]. done.
  - destruct (Z.eqb_spec (Z.of_nat (S h)) 0); [lia|]. done.
Qed.

(** What an update of row [h + 1] from offset [k] on leaves alone. *)
Definition row_frame (db db' : D) (h : Z) (k : Z) : Prop :=
  (forall h' o, h' <> h \/ o < k -> CommitTreeSelect db' h' o = CommitTreeSelect db h' o)
  /\ ParameterSelect db' = ParameterSelect db /\ CommitRootsSelectLevel db' = CommitRootsSelectLevel db.

Lemma row_loop_spec N null h : 0 < N <= 2 ^ 40 -> bigint_ok null -> forall f db k hash,
  commit_db_ok db -> row_ok db N null h -> 0 <= k -> 2 * k <= row_last N h + 2 ->
  (Z.to_nat (row_last N h / 2 + 1 - k) < f)%nat ->
  exists db', row_loop f db (Z.of_nat h) (2 * k) (row_last N h) null hash
      = Ret (false, db', if 2 * k <=? row_last N h then node N null (S h) (row_last N (S h)) else hash)
    /\ commit_db_ok db' /\ row_frame db db' (Z.of_nat h + 1) k
    /\ forall o, k <= o <= row_last N (S h) -> CommitTreeSelect db' (Z.of_nat h + 1) o = (0, node N null (S h) o).
Proof.
  intros HN Hnull. pose proof (row_last_bound N h ltac:(lia)) as Hlast. rewrite row_last_S.
  set (e := row_last N h) in *. pose proof (half_bounds e) as He.
  induction f as [|f IH]; intros db k hash Hdb Hrow Hk Hk2 Hf; [lia|]. cbn [row_loop].
  destruct (Z.ltb_spec e (2 * k)).
  { destruct (Z.leb_spec (2 * k) e); [lia|]. exists db. split_and!; try done.
    intros o Ho. lia. }
  destruct (Z.leb_spec (2 * k) e); [|lia].
  rewrite (select_row db N null h (2 * k) Hrow) by (fold e; lia). cbn [outcome_bind].
  assert (Hu1 : u64 (2 * k + 1) = 2 * k + 1) by (apply wrap_small; unfold in_word; lia).
  assert (Hu2 : u64 (2 * k + 2) = 2 * (k + 1)) by (replace (2 * k + 2) with (2 * (k + 1)) by lia; apply wrap_small; unfold in_word; lia).
  assert (Hright : (if e <=? 2 * k then Ret (Some null) else select_hashed db (Z.of_nat h) (u64 (2 * k + 1)))
    = Ret (Some (if 2 * k + 1 <=? e then node N null h (2 * k + 1) else null))).
  { rewrite Hu1. destruct (Z.leb_spec e (2 * k)), (Z.leb_spec (2 * k + 1) e); try lia; [done|].
    rewrite (select_row db N null h (2 * k + 1) Hrow) by (fold e; lia). done. }
  rewrite Hright. cbn [outcome_bind].
  assert (Hnode : hash_node (node N null h (2 * k)) (if 2 * k + 1 <=? e then node N null h (2 * k + 1) else null)
    (Z.of_nat h <? Z.of_nat TX_MERKLE_DEPTH - 1) = Ret (node N null (S h) k)).
  { cbn [mtree]. fold (row_last N h). fold e. apply hash_node_val; [by apply mtree_bigint|].
    destruct (2 * k + 1 <=? e); [by apply mtree_bigint|done]. }
  rewrite Hnode. cbn [outcome_bind].
  assert (Hdiv : 2 * k / 2 = k) by (rewrite Z.mul_comm; apply Z.div_mul; lia). rewrite Hdiv.
  destruct (tree_insert db (Z.of_nat h + 1) k (node N null (S h) k) Hdb) as (db1 & -> & Hdb1 & Hsel & Hpar & Hroot).
  cbn [negb Z.eqb]. rewrite Hu2.
  assert (Hrow1 : row_ok db1 N null h).
  { intros o Ho. rewrite Hsel, bool_decide_eq_false_2 by lia. by apply Hrow. }
  destruct (IH db1 (k + 1) (node N null (S h) k) Hdb1 Hrow1 ltac:(lia) ltac:(lia) ltac:(lia))
    as (db2 & -> & Hdb2 & (Hfr & Hpar2 & Hroot2) & Hval).
  exists db2. split_and!; [|done|split_and!; [|by rewrite Hpar2|by rewrite Hroot2]|].
  - do 2 f_equal. destruct (Z.leb_spec (2 * (k + 1)) e); [done|]. assert (e / 2 = k) as -> by lia. done.
  - intros h' o Ho. rewrite Hfr by lia. rewrite Hsel, bool_decide_eq_false_2 by lia. done.
  - intros o Ho. destruct (Z.eq_dec o k) as [->|]; [|apply Hval; lia].
    rewrite Hfr by lia. rewrite Hsel, bool_decide_eq_true_2 by done. done.
Qed.

Lemma even_floor_spec x : 0 <= x < 2 ^ 64 -> even_floor x = 2 * (x / 2).
Proof.
  intros Hx. unfold even_floor. change (2 ^ 64 - 2) with (Z.shiftl (Z.ones 63) 1). bitwise.
  replace (2 * (x / 2)) with (Z.shiftl (Z.shiftr x 1) 1) by (rewrite Z.shiftl_mul_pow2, Z.shiftr_div_pow2 by lia; change (2 ^ 1) with 2; lia).
  rewrite Z.land_spec. destruct (Z.eq_dec i 0) as [->|].
  - by rewrite !Z.shiftl_spec_low by lia; rewrite andb_false_r.
  - rewrite !Z.shiftl_spec, Z.shiftr_spec by lia. replace (i - 1 + 1) with i by lia.
    rewrite Z.testbit_ones_nonneg by lia. destruct (Z.ltb_spec (i - 1) 63); [by rewrite andb_true_r|].
    rewrite andb_false_r. symmetry. apply (in_word_testbit_high 64); [done|lia].
Qed.

(** The first pair of row [h] that an update touches, when it had [N0] commitments. *)
Definition row_first (N0 : Z) (h : nat) : Z := N0 / 2 ^ Z.of_nat (S h).

Lemma row_first_S N0 h : row_first N0 (S h) = row_first N0 h / 2.
Proof.
  unfold row_first. rewrite (pow2_S (S h)), Z.mul_comm. pose proof (pow2_pos (Z.of_nat (S h)) ltac:(lia)).
  by rewrite Z.div_div by lia.
Qed.

Lemma row_first_last N0 N h : 0 <= N0 < N -> 0 <= row_first N0 h /\ 2 * row_first N0 h <= row_last N h.
Proof.
  intros HN. unfold row_first, row_last. rewrite pow2_S. pose proof (pow2_pos (Z.of_nat h) ltac:(lia)) as Hp.
  set (p := 2 ^ Z.of_nat h) in *. split; [apply Z.div_pos; lia|].
  rewrite Z.mul_comm, (Z.mul_comm 2 p), <- Z.div_div by lia.
  pose proof (half_bounds (N0 / p)). assert (N0 / p <= (N - 1) / p) by (apply Z.div_le_mono; lia). lia.
Qed.
Lemma row_fuel_enough k e : 0 <= k -> 0 <= e -> (Z.to_nat (e / 2 + 1 - k) < row_fuel (2 * k) e)%nat.
Proof.
  intros Hk He. unfold row_fuel. pose proof (half_bounds e). pose proof (half_bounds (e - 2 * k)). lia.
Qed.

(** Rows above [h] still hold the complete subtrees of the first [N0] commitments. *)
Definition complete_above (db : D) (N0 N : Z) (null : bigint) (h : nat) : Prop :=
  forall j o, (h < j <= TX_MERKLE_DEPTH)%nat -> 0 <= o -> (o + 1) * 2 ^ Z.of_nat j <= N0 ->
    CommitTreeSelect db (Z.of_nat j) o = (0, node N null j o).

Lemma height_loop_spec N0 N null : 0 <= N0 < N -> N <= 2 ^ 40 -> bigint_ok null -> forall n h db hash,
  (h + n <= TX_MERKLE_DEPTH)%nat -> commit_db_ok db -> row_ok db N null h -> complete_above db N0 N null h ->
  exists db', height_loop n db (Z.of_nat h) (2 * row_first N0 h) (row_last N h) null hash
      = Ret (false, db', match n with O => hash | _ => node N null (h + n) (row_last N (h + n)) end)
    /\ commit_db_ok db' /\ (forall j, (h <= j <= h + n)%nat -> row_ok db' N null j)
    /\ (forall h' o, h' <= Z.of_nat h -> CommitTreeSelect db' h' o = CommitTreeSelect db h' o)
    /\ ParameterSelect db' = ParameterSelect db /\ CommitRootsSelectLevel db' = CommitRootsSelectLevel db.
Proof.
  intros HN0 HN Hnull. induction n as [|n IH]; intros h db hash Hd Hdb Hrow Hcomp.
  { exists db. split_and!; try done. intros j Hj. by replace j with h by lia. }
  cbn [height_loop]. pose proof (row_first_last N0 N h HN0) as [Hf0 Hf1].
  pose proof (row_last_bound N h ltac:(lia)) as Hlb.
  destruct (row_loop_spec N null h ltac:(lia) Hnull (row_fuel (2 * row_first N0 h) (row_last N h)) db
    (row_first N0 h) hash Hdb Hrow Hf0 ltac:(lia) (row_fuel_enough (row_first N0 h) (row_last N h) Hf0 ltac:(lia)))
    as (db1 & -> & Hdb1 & (Hfr & Hpar & Hroot) & Hval).
  cbn [outcome_bind]. destruct (Z.leb_spec (2 * row_first N0 h) (row_last N h)); [|lia].
  assert (Hrf : even_floor (2 * row_first N0 h / 2) = 2 * row_first N0 (S h)).
  { rewrite (Z.mul_comm 2), Z.div_mul, even_floor_spec, row_first_S by lia. done. }
  rewrite Hrf, <- row_last_S.
  assert (Hrow1 : row_ok db1 N null (S h)).
  { intros o Ho. replace (Z.of_nat (S h)) with (Z.of_nat h + 1) by lia.
    destruct (Z.lt_ge_cases o (row_first N0 h)) as [Hlt|]; [|by rewrite Hval by lia].
    rewrite Hfr by lia. replace (Z.of_nat h + 1) with (Z.of_nat (S h)) by lia.
    rewrite (Hcomp (S h) o); [done|lia|lia|]. unfold row_first in Hlt.
    pose proof (pow2_pos (Z.of_nat (S h)) ltac:(lia)).
    pose proof (Z.mul_div_le N0 (2 ^ Z.of_nat (S h)) ltac:(lia)). nia. }
  assert (Hcomp1 : complete_above db1 N0 N null (S h)).
  { intros j o Hj Ho Hle. rewrite Hfr by lia. apply Hcomp; [lia|done|done]. }
  replace (Z.of_nat h + 1) with (Z.of_nat (S h)) by lia.
  destruct (IH (S h) db1 (node N null (S h) (row_last N (S h))) ltac:(lia) Hdb1 Hrow1 Hcomp1)
    as (db2 & -> & Hdb2 & Hrows & Hlow & Hpar2 & Hroot2).
  exists db2. split_and!; [|done| | |by rewrite Hpar2|by rewrite Hroot2].
  - do 2 f_equal. destruct n as [|n]; [by replace (h + 1)%nat with (S h) by lia|].
    by replace (h + S (S n))%nat with (S h + S n)%nat by lia.
  - intros j Hj. destruct (decide (j = h)) as [->|]; [|apply Hrows; lia].
    intros o Ho. rewrite Hlow by lia. rewrite Hfr by lia. by apply Hrow.
  - intros h' o Hh'. rewrite Hlow by lia. apply Hfr. lia.
Qed.

(** The state of the tree after an update: [N] commitments are in it, every row is
    right, and the database records the parameters and the root of the block. *)
Record tree_snapshot (db : D) (N : Z) (null : bigint) (level time : Z) : Prop := {
  ts_rows j : (j <= TX_MERKLE_DEPTH)%nat -> row_ok db N null j;
  ts_level : ParameterSelect db DB_KEY_COMMIT_BLOCKLEVEL = (0, PVnum level);
  ts_last : ParameterSelect db DB_KEY_COMMIT_COMMITNUM_HI = (0, PVnum (N - 1));
  ts_null : ParameterSelect db DB_KEY_COMMIT_NULL_INPUT = (0, PVbig null);
  ts_root : CommitRootsSelectLevel db level = (0, mkRoot time N (node N null TX_MERKLE_DEPTH 0));
}.

(** The rows hold a tree of [N] commitments; nothing is known of an empty tree. *)
Definition tree_rows (db : D) (N : Z) (null : bigint) : Prop :=
  forall j, (j <= TX_MERKLE_DEPTH)%nat -> row_ok db N null j.

Definition block_null (block_hash : list Z) : bigint := timesBigInt (of_bval (le_val (take 32 block_hash))) (of_bval 1).

Lemma rows_complete db N0 N null0 null : 0 <= N0 < N -> tree_rows db N0 null0 -> complete_above db N0 N null 0.
Proof.
  intros HN0 Hrows j o Hj Ho Hle. pose proof (pow2_pos (Z.of_nat j) ltac:(lia)).
  rewrite (Hrows j ltac:(lia) o).
  - f_equal. destruct j as [|j]; [lia|]. cbn [row_value]. apply mtree_complete; lia.
  - split; [done|]. unfold row_last. apply Z.div_le_lower_bound; nia.
Qed.

Lemma update_rows_spec N0 N null0 db hash bh : 0 <= N0 < N -> N <= 2 ^ 40 -> commit_db_ok db ->
  tree_rows db N0 null0 -> (forall i, 0 <= i < N -> CommitTreeSelect db 0 i = (0, commits i)) ->
  exists db', update_rows (mkCommitments N N0) db hash bh
      = Ret (false, db', node N (block_null bh) TX_MERKLE_DEPTH 0)
    /\ commit_db_ok db' /\ tree_rows db' N (block_null bh)
    /\ ParameterSelect db' DB_KEY_COMMIT_BLOCKLEVEL = ParameterSelect db DB_KEY_COMMIT_BLOCKLEVEL
    /\ ParameterSelect db' DB_KEY_COMMIT_COMMITNUM_HI = (0, PVnum (N - 1))
    /\ ParameterSelect db' DB_KEY_COMMIT_NULL_INPUT = (0, PVbig (block_null bh))
    /\ CommitRootsSelectLevel db' = CommitRootsSelectLevel db.
Proof.
  intros HN0 HN Hdb Hrows Hleaves. unfold update_rows. cbn [m_next_commitnum m_next_tree_update_commitnum].
  fold (block_null bh). set (null := block_null bh).
  assert (Hnull : bigint_ok null) by (unfold null, block_null; auto with cc).
  assert (Hu : u64 (N - 1) = N - 1) by (apply wrap_small; unfold in_word; lia). rewrite Hu.
  destruct (param_insert db DB_KEY_COMMIT_COMMITNUM_HI (PVnum (N - 1)) Hdb) as (db1 & -> & Hdb1 & Hp1 & Hf1 & Ht1 & Hr1).
  cbn [negb Z.eqb].
  destruct (param_insert db1 DB_KEY_COMMIT_NULL_INPUT (PVbig null) Hdb1) as (db2 & -> & Hdb2 & Hp2 & Hf2 & Ht2 & Hr2).
  cbn [negb Z.eqb].
  assert (Ht : CommitTreeSelect db2 = CommitTreeSelect db) by congruence.
  assert (E0 : even_floor N0 = 2 * row_first N0 0).
  { rewrite even_floor_spec by lia. done. }
  assert (E1 : N - 1 = row_last N 0) by (unfold row_last; change (2 ^ Z.of_nat 0) with 1; by rewrite Z.div_1_r).
  destruct (height_loop_spec N0 N null HN0 HN Hnull TX_MERKLE_DEPTH 0%nat db2 hash) as (db3 & E & Hdb3 & Hrw & _ & Hpar & Hroot);
    [lia|done| | |].
  - intros o Ho. rewrite Ht. rewrite <- E1 in Ho. apply Hleaves. lia.
  - intros j o Hj Ho Hle. rewrite Ht. by apply (rows_complete db N0 N null0 null HN0 Hrows j o).
  - rewrite <- E0, <- E1 in E. change (Z.of_nat 0) with 0 in E. rewrite E. cbn [Nat.add].
    assert (EL : row_last N TX_MERKLE_DEPTH = 0).
    { unfold row_last. apply Z.div_small. unfold TX_MERKLE_DEPTH. change (2 ^ Z.of_nat 40) with (2 ^ 40). lia. }
    rewrite EL. exists db3. split_and!; [done|done| | | | |congruence].
    + intros j Hj. apply Hrw. lia.
    + rewrite Hpar, Hf2, Hf1 by done. done.
    + rewrite Hpar, Hf2 by done. done.
    + by rewrite Hpar.
Qed.
End update.

Section results.
Context {D : Type} {HD : CommitDb D} {HDS : CommitDbSpec D} {T : TreeHash} {HT : TreeHashSpec T}.
Context {B : BigOps} {HB : BigOpsSpec B}.
Context (commits : Z -> bigint) (Hcommits : forall i, bigint_ok (commits i)).

Lemma tree_rows_frame db db' N null : CommitTreeSelect db' = CommitTreeSelect db ->
  tree_rows commits db N null -> tree_rows commits db' N null.
Proof. intros E H j Hj o Ho. rewrite E. by apply H. Qed.

Lemma UpdateCommitTree_snapshot N0 N null0 db blockchain level timestamp block_hash :
  0 <= N0 < N -> N <= 2 ^ 40 -> commit_db_ok db -> tree_rows commits db N0 null0 ->
  (forall i, 0 <= i < N -> CommitTreeSelect db 0 i = (0, commits i)) ->
  exists db', UpdateCommitTree (mkCommitments N N0) db blockchain level timestamp block_hash
      = Ret (false, db', mkCommitments N N)
    /\ commit_db_ok db'
    /\ tree_snapshot commits db' N (block_null block_hash) level (if level =? 0 then 0 else timestamp).
Proof.
  intros HN0 HN Hdb Hrows Hleaves. unfold UpdateCommitTree. cbn [m_next_commitnum m_next_tree_update_commitnum].
  destruct (Z.eqb_spec N0 N); [lia|]. cbn [negb]. rewrite orb_true_r.
  destruct (param_insert db DB_KEY_COMMIT_BLOCKLEVEL (PVnum level) Hdb) as (db1 & -> & Hdb1 & Hp1 & _ & Ht1 & Hr1).
  cbn [negb Z.eqb].
  destruct (update_rows_spec commits Hcommits N0 N null0 db1 (of_bval blockchain) block_hash HN0 HN Hdb1)
    as (db2 & -> & Hdb2 & Hrw & Hlev & Hhi & Hnull & Hroot).
  { by eapply tree_rows_frame. }
  { intros i Hi. rewrite Ht1. by apply Hleaves. }
  cbn [outcome_bind m_next_commitnum].
  destruct (roots_insert db2 level (mkRoot (if level =? 0 then 0 else timestamp) N
    (mtree commits N (block_null block_hash) TX_MERKLE_DEPTH 0)) Hdb2) as (db3 & -> & Hdb3 & Hr3 & Ht3 & Hp3).
  exists db3. split_and!; [done|done|]. constructor.
  - by eapply tree_rows_frame.
  - by rewrite Hp3, Hlev.
  - by rewrite Hp3.
  - by rewrite Hp3.
  - done.
Qed.

(** C14. The incremental update is the full computation: with the rows of the tree of the
    first [N0] commitments and the commitments up to [N] in the database, it leaves the
    rows of the tree of [N] commitments, and records its root for the block. *)
Theorem UpdateCommitTree_correct N0 N null0 db blockchain level timestamp block_hash :
  0 <= N0 < N -> N <= 2 ^ 40 -> commit_db_ok db -> tree_rows commits db N0 null0 ->
  (forall i, 0 <= i < N -> CommitTreeSelect db 0 i = (0, commits i)) ->
  exists db', UpdateCommitTree (mkCommitments N N0) db blockchain level timestamp block_hash
      = Ret (false, db', mkCommitments N N)
    /\ commit_db_ok db'
    /\ tree_snapshot commits db' N (block_null block_hash) level (if level =? 0 then 0 else timestamp).
Proof. apply UpdateCommitTree_snapshot. Qed.

Lemma lxor_1 x : 0 <= x -> Z.lxor x 1 = if Z.even x then x + 1 else x - 1.
Proof.
  intros Hx. assert (E : Z.lxor x 1 = 2 * (x / 2) + (if Z.even x then 1 else 0)).
  { bitwise. rewrite Z.lxor_spec. destruct (Z.eq_dec i 0) as [->|].
    - rewrite !Z.bit0_odd. rewrite Z.odd_add_mul_2 || rewrite Z.odd_add. rewrite Z.odd_mul. cbn [Z.odd andb xorb].
      rewrite <- Z.negb_even. by destruct (Z.even x).
    - replace i with (Z.succ (Z.pred i)) by lia.
      replace (Z.testbit 1 (Z.succ (Z.pred i))) with false
        by (symmetry; change 1 with (2 ^ 0); apply Z.pow2_bits_false; lia).
      rewrite xorb_false_r. destruct (Z.even x); [rewrite Z.testbit_odd_succ by lia|rewrite Z.add_0_r, Z.testbit_even_succ by lia];
      rewrite <- Z.div2_div, Z.div2_spec, Z.shiftr_spec by lia; f_equal; lia. }
  rewrite E. pose proof (Z.div_mod x 2 ltac:(lia)) as Hd. rewrite Zmod_even in Hd. destruct (Z.even x); lia.
Qed.

(** A path served for offset [o] of row [h], hashed up from the node there, gives the
    node above it. *)
Lemma path_loop_spec N null db n : forall h o, 0 < N <= 2 ^ 40 -> bigint_ok null -> (h + n = TX_MERKLE_DEPTH)%nat ->
  tree_rows commits db N null -> 0 <= o <= row_last N h ->
  exists path, path_loop n db (Z.of_nat h) o (row_last N h) null = Ret (Some path)
    /\ length path = n
    /\ path_hash (Z.of_nat h) (mtree commits N null h o) path = Ret (mtree commits N null TX_MERKLE_DEPTH (o / 2 ^ Z.of_nat n)).
Proof.
  induction n as [|n IH]; intros h o HN Hnull Hd Hrows Ho.
  { exists []. rewrite Nat.add_0_r in Hd. subst h. split_and!; try done. cbn [path_hash].
    change (2 ^ Z.of_nat 0) with 1. by rewrite Z.div_1_r. }
  cbn [path_loop path_hash]. pose proof (row_last_bound N h ltac:(lia)) as Hlb.
  rewrite lxor_1 by lia. set (sib := if Z.even o then o + 1 else o - 1).
  pose proof (Z.div_mod o 2 ltac:(lia)) as Hdm. rewrite Zmod_even in Hdm.
  assert (Hsib : 0 <= sib /\ sib / 2 = o / 2).
  { subst sib. destruct (Z.even o) eqn:Ev.
    - split; [lia|]. symmetry. apply Z.div_unique_pos with 1; lia.
    - split; [lia|]. symmetry. apply Z.div_unique_pos with 0; lia. }
  destruct Hsib as [Hs0 Hs2].
  set (other := if row_last N h <? sib then null else mtree commits N null h sib).
  assert (Hoth : (if row_last N h <? sib then Ret (Some null) else select_hashed db (Z.of_nat h) sib) = Ret (Some other)).
  { subst other. destruct (Z.ltb_spec (row_last N h) sib); [done|].
    apply (select_row commits Hcommits); [|lia]. apply Hrows. lia. }
  rewrite Hoth. cbn [outcome_bind]. rewrite Hs2, <- row_last_S.
  destruct (IH (S h) (o / 2) HN Hnull ltac:(lia) Hrows) as (path & Hp & Hlen & Hh).
  { rewrite row_last_S. split; [apply Z.div_pos; lia|apply Z.div_le_mono; lia]. }
  replace (Z.of_nat h + 1) with (Z.of_nat (S h)) by lia. rewrite Hp. cbn [outcome_bind].
  exists (other :: path). split_and!; [done|cbn; lia|]. cbn [path_hash].
  assert (Hok : bigint_ok other) by (subst other; destruct (_ <? _); [done|by apply mtree_bigint]).
  assert (Hnode : hash_node (mtree commits N null h o) other (Z.of_nat h <? Z.of_nat TX_MERKLE_DEPTH - 1)
    = Ret (mtree commits N null (S h) (o / 2))).
  { cbn [mtree]. fold (row_last N h). destruct (Z.even o) eqn:Ev; subst other sib.
    - replace (2 * (o / 2)) with o by lia. rewrite Z.ltb_antisym. replace (o + 1 <=? row_last N h) with (negb (row_last N h <? o + 1)) by (by rewrite Z.ltb_antisym, negb_involutive).
      destruct (row_last N h <? o + 1); cbn [negb] in *; apply hash_node_val; (done || by apply mtree_bigint).
    - replace (2 * (o / 2)) with (o - 1) by lia. replace (o - 1 + 1) with o by lia.
      destruct (Z.leb_spec o (row_last N h)); [|lia]. destruct (Z.ltb_spec (row_last N h) (o - 1)); [lia|].
      rewrite hash_node_swap by (by apply mtree_bigint). apply hash_node_val; by apply mtree_bigint. }
  rewrite Hnode. cbn [outcome_bind]. replace (Z.of_nat h + 1) with (Z.of_nat (S h)) by lia. rewrite Hh.
  rewrite pow2_S. pose proof (pow2_pos (Z.of_nat n) ltac:(lia)). by rewrite Z.div_div by lia.
Qed.
Lemma words_concat nums : Forall (in_word 64) nums -> words (length nums) (concat (map (le_bytes 8) nums)) = nums.
Proof.
  induction 1 as [|x l Hx Hl IH]; [done|]. cbn [length words map concat].
  rewrite take_app_length', drop_app_length' by (by rewrite length_le_bytes). rewrite IH.
  rewrite le_val_bytes_small by done. done.
Qed.

(** The message of a query for some commitment numbers. *)
Definition query_message (chain : Z) (nums : list Z) : list Z := le_bytes 4 chain ++ concat (map (le_bytes 8) nums).

Lemma length_query_message chain nums : Z.of_nat (length (query_message chain nums)) = 4 + 8 * Z.of_nat (length nums).
Proof.
  unfold query_message. rewrite length_app, length_le_bytes.
  assert (E : length (concat (map (le_bytes 8) nums)) = (8 * length nums)%nat).
  { induction nums as [|x l IH]; [done|]. cbn [map concat length]. rewrite length_app, length_le_bytes, IH. lia. }
  rewrite E. lia.
Qed.

Lemma query_inputs_spec N null db nums : forall i, 0 < N <= 2 ^ 40 -> bigint_ok null -> tree_rows commits db N null ->
  Forall (fun n => 0 <= n < N) nums ->
  exists inputs, query_inputs db (N - 1) null i nums = Ret (inr inputs) /\ map fst inputs = nums
    /\ Forall (fun p => txpay_precheck_input_path (commits (fst p)) (fst p) (mtree commits N null TX_MERKLE_DEPTH 0) (snd p)
                         = Ret false) inputs.
Proof.
  induction nums as [|n nums IH]; intros i HN Hnull Hrows Hall; [by exists []|].
  apply Forall_cons in Hall as [Hn Hall]. cbn [query_inputs]. destruct (Z.ltb_spec (N - 1) n); [lia|].
  assert (E1 : N - 1 = row_last N 0) by (unfold row_last; change (2 ^ Z.of_nat 0) with 1; by rewrite Z.div_1_r).
  destruct (path_loop_spec N null db TX_MERKLE_DEPTH 0%nat n HN Hnull eq_refl Hrows) as (path & Hp & Hlen & Hh); [lia|].
  rewrite <- E1 in Hp. change (Z.of_nat 0) with 0 in *. rewrite Hp. cbn [outcome_bind].
  destruct (IH (S i) HN Hnull Hrows Hall) as (inputs & -> & Hfst & Hok). cbn [outcome_bind].
  exists ((n, path) :: inputs). split_and!; [done|cbn; by rewrite Hfst|]. constructor; [|done]. cbn [fst snd].
  unfold txpay_precheck_input_path. destruct (hash_leaf_val (commits n) n (Hcommits n)) as [-> _]. cbn [outcome_bind].
  cbn [mtree] in Hh. rewrite take_ge by lia. rewrite Hh. cbn [outcome_bind].
  assert (E0 : n / 2 ^ Z.of_nat TX_MERKLE_DEPTH = 0).
  { apply Z.div_small. unfold TX_MERKLE_DEPTH. change (2 ^ Z.of_nat 40) with (2 ^ 40). lia. }
  rewrite E0. by rewrite Z.eqb_refl.
Qed.

(** C26. The paths served for commitments of the tree pass the wallet's check against the
    root served with them. *)
Theorem served_paths_verify N null db level time chain nums :
  0 < N <= 2 ^ 40 -> bigint_ok null -> tree_snapshot commits db N null level time ->
  0 <= chain < 2 ^ 32 -> Z.of_nat (length nums) <= TX_MAXINPATH -> Forall (fun n => 0 <= n < N) nums ->
  exists root param_time inputs,
    HandleTxQueryInputs db chain (query_message chain nums) = Ret (QReport level param_time root inputs)
    /\ map fst inputs = nums
    /\ Forall (fun p => txpay_precheck_input_path (commits (fst p)) (fst p) root (snd p) = Ret false) inputs.
Proof.
  intros HN Hnull [Hrows Hlev Hlast Hnl Hroot] Hchain Hlen Hall. unfold HandleTxQueryInputs.
  rewrite length_query_message. unfold TX_CHAIN_BYTES in *.
  replace ((4 + 8 * Z.of_nat (length nums) - 4) / 8) with (Z.of_nat (length nums))
    by (apply Z.div_unique_pos with 0; lia).
  destruct (Z.ltb_spec (4 + 8 * Z.of_nat (length nums)) 4); [lia|].
  destruct (Z.eqb_spec (4 + Z.of_nat (length nums) * 8) (4 + 8 * Z.of_nat (length nums))); [|lia]. cbn [orb negb].
  destruct (Z.ltb_spec TX_MAXINPATH (Z.of_nat (length nums))); [lia|].
  unfold query_message. change (Z.to_nat 4) with 4%nat.
  rewrite take_app_length', drop_app_length' by (by rewrite length_le_bytes).
  rewrite le_val_bytes_small by (unfold in_word; lia). rewrite Z.eqb_refl. cbn [negb]. rewrite andb_false_r.
  rewrite Hlev, Hroot, Hlast, Hnl. cbn [negb Z.eqb cr_timestamp cr_root]. rewrite Nat2Z.id, words_concat.
  - destruct (query_inputs_spec N null db nums 0 HN Hnull Hrows Hall) as (inputs & -> & Hfst & Hok).
    cbn [outcome_bind]. eexists _, _, inputs. by split_and!.
  - eapply Forall_impl; [exact Hall|]. intros x Hx. cbn in Hx. unfold in_word. lia.
Qed.
End results.

(** ** A reference database *)

Record ref_cdb := mkCdb {
  cd_tree : gmap (Z * Z) bigint;
  cd_params : param_key -> option param_value;
  cd_roots : gmap Z commit_root;
}.

#[export] Instance param_key_eq_dec : EqDecision param_key.
Proof. solve_decision. Defined.

#[export] Instance ref_CommitDb : CommitDb ref_cdb := {|
  CommitTreeInsert db h o v := (0, mkCdb (<[(h, o) := v]> (cd_tree db)) (cd_params db) (cd_roots db));
  CommitTreeSelect db h o := match cd_tree db !! (h, o) with Some v => (0, v) | None => (1, of_bval 0) end;
  ParameterInsert db k v :=
    (0, mkCdb (cd_tree db) (fun k' => if decide (k' = k) then Some v else cd_params db k') (cd_roots db));
  ParameterSelect db k := match cd_params db k with Some v => (0, v) | None => (1, PVnum 0) end;
  CommitRootsInsert db l r := (0, mkCdb (cd_tree db) (cd_params db) (<[l := r]> (cd_roots db)));
  CommitRootsSelectLevel db l := match cd_roots db !! l with Some r => (0, r) | None => (1, mkRoot 0 0 (of_bval 0)) end |}.

#[export] Program Instance ref_CommitDbSpec : CommitDbSpec ref_cdb := {| commit_db_ok _ := True |}.
Next Obligation.
  intros db h o v _. eexists. split; [reflexivity|]. split_and!; try done.
  intros h' o'. cbn. destruct (decide (h' = h /\ o' = o)) as [[-> ->]|Hne].
  - rewrite lookup_insert_eq. by rewrite bool_decide_eq_true_2.
  - rewrite lookup_insert_ne by (intros [= -> ->]; tauto). by rewrite bool_decide_eq_false_2.
Qed.
Next Obligation.
  intros db k v _. eexists. split; [reflexivity|]. split_and!; try done; cbn.
  - by rewrite decide_True.
  - intros k' Hk. by rewrite decide_False.
Qed.
Next Obligation.
  intros db l r _. eexists. split; [reflexivity|]. split_and!; try done. cbn. by rewrite lookup_insert_eq.
Qed.

(** ** Concrete instances *)

Definition demo_hash : TreeHash := zk_TreeHash (B := ref_bigops) demo_base (fun _ _ => 0).

#[export] Instance demo_hash_spec : TreeHashSpec demo_hash.
Proof. apply zk_TreeHashSpec, demo_base_field. Qed.

Definition demo_commits (i : Z) : bigint := of_bval (100 + i).

(** A database with the commitments of three outputs, not yet in the tree. *)
Definition demo_cdb : ref_cdb :=
  mkCdb (list_to_map [((0, 0), demo_commits 0); ((0, 1), demo_commits 1); ((0, 2), demo_commits 2)]) (fun _ => None) ∅.

Lemma tree_rows_empty {T : TreeHash} commits (db : ref_cdb) null : tree_rows commits db 0 null.
Proof.
  intros j _ o Ho. exfalso. unfold row_last in Ho. pose proof (pow2_pos (Z.of_nat j) ltac:(lia)).
  assert (E : (0 - 1) / 2 ^ Z.of_nat j = -1) by (symmetry; apply Z.div_unique_pos with (2 ^ Z.of_nat j - 1); lia).
  lia.
Qed.

Lemma demo_leaves i : 0 <= i < 3 -> CommitTreeSelect demo_cdb 0 i = (0, demo_commits i).
Proof.
  intros Hi. assert (i = 0 \/ i = 1 \/ i = 2) as [->|[->| ->]] by lia; reflexivity.
Qed.

Lemma UpdateCommitTree_correct_witness :
  exists db', UpdateCommitTree (T := demo_hash) (B := ref_bigops) (mkCommitments 3 0) demo_cdb 1 5 9 (replicate 64 1)
      = Ret (false, db', mkCommitments 3 3) /\ commit_db_ok db'
    /\ tree_snapshot (T := demo_hash) demo_commits db' 3 (block_null (B := ref_bigops) (replicate 64 1)) 5 9.
Proof.
  apply (UpdateCommitTree_correct (T := demo_hash) (B := ref_bigops) demo_commits (fun i => of_bval_ok _)
    0 3 (of_bval 0) demo_cdb 1 5 9 (replicate 64 1)); [lia|lia|done|apply tree_rows_empty|apply demo_leaves].
Defined.

Lemma served_paths_verify_witness :
  exists db', UpdateCommitTree (T := demo_hash) (B := ref_bigops) (mkCommitments 3 0) demo_cdb 1 5 9 (replicate 64 1)
      = Ret (false, db', mkCommitments 3 3) /\
  exists root param_time inputs,
    HandleTxQueryInputs (T := demo_hash) db' 1 (query_message 1 [2; 0]) = Ret (QReport 5 param_time root inputs)
    /\ map fst inputs = [2; 0]
    /\ Forall (fun p => txpay_precheck_input_path (T := demo_hash) (demo_commits (fst p)) (fst p) root (snd p)
                         = Ret false) inputs.
Proof.
  destruct (UpdateCommitTree_snapshot (T := demo_hash) (B := ref_bigops) demo_commits (fun i => of_bval_ok _)
    0 3 (of_bval 0) demo_cdb 1 5 9 (replicate 64 1)) as (db' & E & _ & Hsnap);
    [lia|lia|done|apply tree_rows_empty|apply demo_leaves|].
  exists db'. split; [exact E|].
  apply (served_paths_verify (T := demo_hash) demo_commits (fun i => of_bval_ok _) 3
    (block_null (B := ref_bigops) (replicate 64 1)) db' 5 9 1 [2; 0]); [lia| |exact Hsnap|lia|done|].
  - unfold block_null. apply times_ok; apply of_bval_ok.
  - repeat constructor; lia.
Defined.
