(* ===== verification/Objects.v ===== *)
(** * Network objects (src/source/cccommon/src/CCobjects.cpp, CCobjects.hpp)

    The header of a message or object, the tags and types it may have, where its body
    lies, and its identifier.  An object is kept as its header words and the bytes that
    follow them; the preamble holds the identifier. *)
From S2P Require Import Prelude.

Local Open Scope Z_scope.
Local Open Scope cc_scope.

(** ** Constants of CCobjdefs.h *)

Definition CC_TYPE_VOID : Z := 0.
Definition CC_TYPE_MINT : Z := 1.
Definition CC_TYPE_TXPAY : Z := 2.
Definition CC_TYPE_BLOCK : Z := 3.
Definition CC_TYPE_XCX_NAKED_BUY : Z := 4.
Definition CC_TYPE_XCX_NAKED_SELL : Z := 5.
Definition CC_TYPE_XCX_SIMPLE_BUY : Z := 6.
Definition CC_TYPE_XCX_SIMPLE_SELL : Z := 7.
Definition CC_TYPE_XCX_REQ_BUY : Z := 8.
Definition CC_TYPE_XCX_REQ_SELL : Z := 9.
Definition CC_TYPE_XCX_PAYMENT : Z := 12.
Definition CC_TYPE_XCX_MINING_TRADE : Z := 13.
Definition CC_TYPE_XCX_MINING_BUY : Z := 14.
Definition CC_TYPE_XCX_MINING_SELL : Z := 15.

Definition CC_TAG_BLOCK : Z := 0xCC000001.
Definition CC_TAG_BLOCK_FLAG : Z := 0x00010000.
Definition CC_TAG_MINT : Z := 0xCC020001.
Definition CC_TAG_TX : Z := 0xCC040001.
Definition CC_TAG_TX_XDOMAIN : Z := 0xCC060001.
Definition CC_TAG_XCX_SIMPLE_BUY : Z := 0xCC0C0001.
Definition CC_TAG_XCX_SIMPLE_SELL : Z := 0xCC0E0001.
Definition CC_TAG_XCX_NAKED_BUY : Z := 0xCC100001.
Definition CC_TAG_XCX_NAKED_SELL : Z := 0xCC120001.
Definition CC_TAG_XCX_PAYMENT : Z := 0xCC180001.
Definition CC_TAG_XCX_SIMPLE_TRADE : Z := 0xCC1a0001.
Definition CC_TAG_LAST_OBJ : Z := CC_TAG_XCX_SIMPLE_TRADE.

Definition CC_MSG_HEADER_SIZE : Z := 8.
Definition TX_POW_SIZE : Z := 8 + 8 * 5.
Definition TX_MAX_SIZE : Z := 512 * 1024 - 128.
Definition CC_BLOCK_MAX_SIZE : Z := 32 * 1024 * 1024 - 128.

(** ** Objects *)

Record CCObject := mkObj {
  obj_oid : list Z;
  obj_size : Z;
  obj_tag : Z;
  obj_data : list Z;
}.

Definition ObjSize (o : CCObject) : Z := obj_size o.
Definition ObjTag (o : CCObject) : Z := obj_tag o.

Definition DataSize (o : CCObject) : Z :=
  if ObjSize o <? CC_MSG_HEADER_SIZE then 0 else ObjSize o - CC_MSG_HEADER_SIZE.

Definition HasPOW (tag : Z) : bool :=
  (CC_TAG_MINT <=? tag) && (tag <=? CC_TAG_LAST_OBJ) && (Z.land tag CC_TAG_BLOCK_FLAG =? 0).

Definition WireTag (tag : Z) : Z := Z.land tag (Z.lxor (2 ^ 32 - 1) CC_TAG_BLOCK_FLAG).
Definition BlockTag (tag : Z) : Z := Z.lor tag CC_TAG_BLOCK_FLAG.

Definition TypeToWireTag (type : Z) : Z :=
  if type =? CC_TYPE_BLOCK then CC_TAG_BLOCK
  else if type =? CC_TYPE_MINT then CC_TAG_MINT
  else if type =? CC_TYPE_TXPAY then CC_TAG_TX
  else if type =? CC_TYPE_XCX_SIMPLE_BUY then CC_TAG_XCX_SIMPLE_BUY
  else if type =? CC_TYPE_XCX_SIMPLE_SELL then CC_TAG_XCX_SIMPLE_SELL
  else if type =? CC_TYPE_XCX_MINING_TRADE then CC_TAG_XCX_SIMPLE_TRADE
  else if type =? CC_TYPE_XCX_NAKED_BUY then CC_TAG_XCX_NAKED_BUY
  else if type =? CC_TYPE_XCX_NAKED_SELL then CC_TAG_XCX_NAKED_SELL
  else if type =? CC_TYPE_XCX_PAYMENT then CC_TAG_XCX_PAYMENT
  else 0.

(** The static function of a tag. *)
Definition TagType (tag : Z) : Z :=
  let t := WireTag tag in
  if t =? CC_TAG_BLOCK then CC_TYPE_BLOCK
  else if t =? CC_TAG_MINT then CC_TYPE_MINT
  else if (t =? CC_TAG_TX) || (t =? CC_TAG_TX_XDOMAIN) then CC_TYPE_TXPAY
  else if t =? CC_TAG_XCX_SIMPLE_BUY then CC_TYPE_XCX_SIMPLE_BUY
  else if t =? CC_TAG_XCX_SIMPLE_SELL then CC_TYPE_XCX_SIMPLE_SELL
  else if t =? CC_TAG_XCX_SIMPLE_TRADE then CC_TYPE_XCX_MINING_TRADE
  else if t =? CC_TAG_XCX_NAKED_BUY then CC_TYPE_XCX_NAKED_BUY
  else if t =? CC_TAG_XCX_NAKED_SELL then CC_TYPE_XCX_NAKED_SELL
  else if t =? CC_TAG_XCX_PAYMENT then CC_TYPE_XCX_PAYMENT
  else CC_TYPE_VOID.
Definition ObjType (o : CCObject) : Z := TagType (ObjTag o).

(** Offset of the body in the data. *)
Definition BodyOffset (o : CCObject) : Z := if HasPOW (ObjTag o) then TX_POW_SIZE else 0.
Definition BodySize (o : CCObject) : Z :=
  if HasPOW (ObjTag o) then u32 (DataSize o - TX_POW_SIZE) else DataSize o.
Definition Body (o : CCObject) : list Z :=
  take (Z.to_nat (BodySize o)) (drop (Z.to_nat (BodyOffset o)) (obj_data o)).

(** The types of transactions that an object may have. *)
Definition is_tx_type (t : Z) : bool :=
  existsb (Z.eqb t) [CC_TYPE_MINT; CC_TYPE_TXPAY; CC_TYPE_XCX_SIMPLE_BUY; CC_TYPE_XCX_SIMPLE_SELL;
    CC_TYPE_XCX_MINING_TRADE; CC_TYPE_XCX_NAKED_BUY; CC_TYPE_XCX_NAKED_SELL; CC_TYPE_XCX_PAYMENT].

Definition IsValid (o : CCObject) : bool :=
  if ObjType o =? CC_TYPE_BLOCK then BodySize o <=? CC_BLOCK_MAX_SIZE
  else if is_tx_type (ObjType o) then BodySize o <=? TX_MAX_SIZE
  else false.

Section oid.
(** [blake2b size key data], of the third-party library. *)
Context (blake2b : Z -> list Z -> list Z -> list Z).

Definition ComputeObjId (o : CCObject) : outcome (list Z) :=
  ccassert! negb (ObjType o =? CC_TYPE_BLOCK) in
  Ret (blake2b 16 (le_bytes 4 (WireTag (ObjTag o))) (Body o)).

Definition SetObjId (o : CCObject) : outcome CCObject :=
  let! oid := ComputeObjId o in
  Ret (mkObj oid (obj_size o) (obj_tag o) (obj_data o)).

(** The object that a message is, its identifier not yet set. *)
Definition message_obj (msg : list Z) : CCObject :=
  mkObj (replicate 16 0) (le_val (take 4 msg)) (le_val (take 4 (drop 4 msg))) (drop 8 msg).

Definition ComputeMessageObjId (msg : list Z) : outcome (list Z) := ComputeObjId (message_obj msg).
End oid.

(** ** Properties *)

(** The wire tags of the types round trip, have a proof of work exactly when they are
    not blocks, and lose it, but not their type, when they are flagged as part of a block. *)
Theorem tags_roundtrip t : (t = CC_TYPE_BLOCK \/ is_tx_type t = true) ->
  TagType (TypeToWireTag t) = t
  /\ TagType (BlockTag (TypeToWireTag t)) = t
  /\ HasPOW (TypeToWireTag t) = negb (t =? CC_TYPE_BLOCK)
  /\ HasPOW (BlockTag (TypeToWireTag t)) = false
  /\ WireTag (BlockTag (TypeToWireTag t)) = TypeToWireTag t.
Proof.
  intros Ht. assert (Hin : t ∈ [3; 1; 2; 6; 7; 13; 4; 5; 12]).
  { destruct Ht as [->|Ht]; [by left|]. unfold is_tx_type in Ht. apply existsb_exists in Ht as (x & Hx & E).
    apply Z.eqb_eq in E as <-. right. by apply list_elem_of_In. }
  rewrite !elem_of_cons, elem_of_nil in Hin.
  repeat (destruct Hin as [->|Hin]; [by vm_compute|]). done.
Qed.

Lemma tags_roundtrip_witness :
  TagType (TypeToWireTag CC_TYPE_XCX_PAYMENT) = CC_TYPE_XCX_PAYMENT
  /\ TagType (BlockTag (TypeToWireTag CC_TYPE_XCX_PAYMENT)) = CC_TYPE_XCX_PAYMENT
  /\ HasPOW (TypeToWireTag CC_TYPE_XCX_PAYMENT) = negb (CC_TYPE_XCX_PAYMENT =? CC_TYPE_BLOCK)
  /\ HasPOW (BlockTag (TypeToWireTag CC_TYPE_XCX_PAYMENT)) = false
  /\ WireTag (BlockTag (TypeToWireTag CC_TYPE_XCX_PAYMENT)) = TypeToWireTag CC_TYPE_XCX_PAYMENT.
Proof. apply (tags_roundtrip CC_TYPE_XCX_PAYMENT). right. reflexivity. Defined.

(** The size computation of the body wraps around when an object is too short for its
    proof of work, and [IsValid] then rejects it: in an object that passes, whose size
    field is that of its bytes, the body lies inside the object and ends it. *)
Theorem valid_body_in_bounds o : IsValid o = true -> CC_MSG_HEADER_SIZE <= ObjSize o < 2 ^ 32 ->
  Z.of_nat (length (obj_data o)) = ObjSize o - CC_MSG_HEADER_SIZE ->
  0 <= BodySize o /\ CC_MSG_HEADER_SIZE + BodyOffset o + BodySize o = ObjSize o
  /\ Z.of_nat (length (Body o)) = BodySize o /\ (HasPOW (ObjTag o) = true -> TX_POW_SIZE <= DataSize o).
Proof.
  unfold IsValid, Body, BodySize, BodyOffset, DataSize, CC_MSG_HEADER_SIZE, CC_BLOCK_MAX_SIZE, TX_MAX_SIZE.
  change TX_POW_SIZE with 48. intros Hv Hs Hlen. destruct (Z.ltb_spec (ObjSize o) 8); [lia|].
  assert (Hlim : (if HasPOW (ObjTag o) then u32 (ObjSize o - 8 - 48) else ObjSize o - 8) <= 2 ^ 25).
  { destruct (ObjType o =? CC_TYPE_BLOCK); [apply Z.leb_le in Hv; lia|].
    destruct (is_tx_type (ObjType o)); [apply Z.leb_le in Hv; lia|done]. }
  destruct (HasPOW (ObjTag o)).
  - destruct (Z.lt_ge_cases (ObjSize o - 8) 48) as [Hlt|Hge].
    + exfalso. unfold u32, wrap in Hlim.
      replace ((ObjSize o - 8 - 48) mod 2 ^ 32) with (ObjSize o - 56 + 2 ^ 32) in Hlim
        by (apply Z.mod_unique_pos with (-1); lia). lia.
    + assert (E : u32 (ObjSize o - 8 - 48) = ObjSize o - 8 - 48) by (apply wrap_small; unfold in_word; lia).
      rewrite E. rewrite length_take, length_drop. split_and!; lia.
  - change (Z.to_nat 0) with O. rewrite length_take, length_drop. split_and!; try lia; done.
Qed.

Lemma valid_body_in_bounds_witness :
  let o := mkObj [] 60 CC_TAG_TX (replicate 52 0) in
  0 <= BodySize o /\ CC_MSG_HEADER_SIZE + BodyOffset o + BodySize o = ObjSize o
  /\ Z.of_nat (length (Body o)) = BodySize o /\ (HasPOW (ObjTag o) = true -> TX_POW_SIZE <= DataSize o).
Proof. apply (valid_body_in_bounds (mkObj [] 60 CC_TAG_TX (replicate 52 0))); [reflexivity|cbn; unfold CC_MSG_HEADER_SIZE; lia|reflexivity]. Defined.
