(* ===== verification/Pow.v ===== *)
(** * Proof of work of transactions (src/source/cclib/src/transaction.cpp)

    A message of a transaction has a time and eight nonces of 40 bits before its body; each
    nonce is for a hash of the body's identifier under a key that holds the time or the
    nonce before, so that they are found one after the other.  The same function finds the
    nonces and, allowed one attempt, checks them.  [siphash] is of a third-party library. *)
From stdpp Require Import list.
From S2P Require Import Prelude Objects.

Local Open Scope Z_scope.
Local Open Scope cc_scope.

Definition TX_POW_NPROOFS : Z := 8.
Definition TX_POW_NONCE_BITS : Z := 40.
Definition TX_POW_NONCE_MASK : Z := (2 ^ (TX_POW_NONCE_BITS - 1) - 1) * 2 + 1.
Definition TX_POW_NONCE_SIZE : Z := 5.

(** The 64 bits at a position. *)
Definition read64 (binbuf : list Z) (pos : Z) : outcome Z :=
  if (0 <=? pos) && (pos + 8 <=? Z.of_nat (length binbuf)) then Ret (le_val (take 8 (drop (Z.to_nat pos) binbuf))) else Throw BadAccess.

(** The same as the target of an assignment. *)
Definition write64 (binbuf : list Z) (pos v : Z) : outcome (list Z) :=
  if (0 <=? pos) && (pos + 8 <=? Z.of_nat (length binbuf))
  then Ret (take (Z.to_nat pos) binbuf ++ le_bytes 8 v ++ drop (Z.to_nat pos + 8) binbuf) else Throw BadAccess.

(** The time of the message; [size] is in its header. *)
Definition tx_reset_work (size timestamp : Z) (binbuf : list Z) : Z * list Z :=
  let data_offset := CC_MSG_HEADER_SIZE + TX_POW_SIZE in
  if Z.of_nat (length binbuf) <? size then (-1, binbuf)
  else if size <? data_offset then (-1, binbuf)
  else (0, take 8 binbuf ++ le_bytes 8 timestamp ++ replicate 40 0 ++ drop (Z.to_nat data_offset) binbuf).

(** [age] is signed; the allowances are compared as [int64_t]. *)
Definition tx_check_timestamp (now timestamp past_allowance future_allowance : Z) : Z :=
  let age := i64 (u64 now - timestamp) in
  if (past_allowance <? age) || ((age <? 0) && (future_allowance <? i64 (- age))) then -1 else 0.

Section work.
Context (siphash : list Z -> list Z -> Z).
(** Whether the node is shut down when a nonce of a proof is tried. *)
Context (shutdown : Z -> Z -> bool).

Definition pnonce (proof_index : Z) : Z := CC_MSG_HEADER_SIZE + 8 + proof_index * TX_POW_NONCE_SIZE.

Definition pow_hash (txhash : list Z) (key0 proof_index nonce : Z) : Z :=
  siphash txhash (le_bytes 8 key0 ++ le_bytes 8 (Z.lor (u64 (Z.shiftl proof_index TX_POW_NONCE_BITS)) nonce)).

(** The first nonce that will do, or the one after the last; nothing at a shutdown. *)
Fixpoint find_nonce (count : nat) (txhash : list Z) (key0 proof_index difficulty nonce : Z) : option Z :=
  match count with
  | O => Some nonce
  | S count =>
      if shutdown proof_index nonce then None
      else if pow_hash txhash key0 proof_index nonce <? difficulty then Some nonce
      else find_nonce count txhash key0 proof_index difficulty (nonce + 1)
  end.

Definition iter_limit : Z := TX_POW_NONCE_MASK - 1.

Definition iter_last (iter_start iter_count : Z) : Z :=
  let iter_end := u64 (iter_start + iter_count - 1) in
  if (iter_limit <? iter_end) || (u64 (iter_limit - iter_count) <? iter_start) then iter_limit else iter_end.

(** One proof: the code that the function returns, if it ends here, whether the nonce will
    not do, and the message with the nonce. *)
Definition prove_one (txhash : list Z) (iter_count difficulty proof_index : Z) (binbuf : list Z) : outcome (option Z * bool * list Z) :=
  ccassert! proof_index <? TX_POW_NPROOFS in
  let! v := read64 binbuf (pnonce proof_index) in
  let iter_start := Z.land v TX_POW_NONCE_MASK in
  let iter_end := iter_last iter_start iter_count in
  let! key0 := read64 binbuf (if proof_index =? 0 then CC_MSG_HEADER_SIZE else pnonce proof_index - 8) in
  match find_nonce (Z.to_nat (iter_end - iter_start + 1)) txhash key0 proof_index difficulty iter_start with
  | None => Ret (Some (-3), false, binbuf)
  | Some nonce =>
      let v := Z.lor (Z.land v (Z.lxor (2 ^ 64 - 1) TX_POW_NONCE_MASK)) nonce in
      let! binbuf := write64 binbuf (pnonce proof_index) v in
      Ret (if iter_limit <? nonce then Some (-2) else None, iter_end <? nonce, binbuf)
  end.

Fixpoint prove_loop (count : nat) (txhash : list Z) (iter_count difficulty proof_index result : Z) (binbuf : list Z) : outcome (Z * list Z) :=
  match count with
  | O => Ret (result, binbuf)
  | S count =>
      let! r := prove_one txhash iter_count difficulty proof_index binbuf in
      let '(stop, fails, binbuf) := r in
      match stop with
      | Some rc => Ret (rc, binbuf)
      | None => prove_loop count txhash iter_count difficulty (proof_index + 1) (if fails then 1 else result) binbuf
      end
  end.

(** 0 when every nonce will do, 1 when more attempts are needed, -2 when the nonces are used
    up, -3 at a shutdown; the time is read first. *)
Definition tx_set_work_internal (binbuf txhash : list Z) (proof_start proof_count iter_count proof_difficulty : Z) : outcome (Z * list Z) :=
  if proof_difficulty =? 0 then Ret (0, binbuf)
  else
    let! _ := read64 binbuf CC_MSG_HEADER_SIZE in
    prove_loop (Z.to_nat proof_count) txhash iter_count proof_difficulty proof_start 0 binbuf.

(** With the hash of the body, of which the tag is the key. *)
Definition tx_set_work (blake2b : Z -> list Z -> list Z -> list Z) (size tag : Z) (binbuf : list Z)
    (proof_start proof_count iter_count proof_difficulty : Z) : outcome (Z * list Z) :=
  let data_offset := CC_MSG_HEADER_SIZE + TX_POW_SIZE in
  if Z.of_nat (length binbuf) <? size then Ret (-1, binbuf)
  else if size <? data_offset then Ret (-1, binbuf)
  else
    let txhash := blake2b 16 (le_bytes 4 tag) (take (Z.to_nat (size - data_offset)) (drop (Z.to_nat data_offset) binbuf)) in
    tx_set_work_internal binbuf txhash proof_start proof_count iter_count proof_difficulty.
End work.

(** ** Nonces *)

Lemma le_val_range l : bytes_ok l -> 0 <= le_val l < 2 ^ (8 * Z.of_nat (length l)).
Proof. apply digits_val_range. lia. Qed.

Lemma le_val_app l1 l2 : le_val (l1 ++ l2) = le_val l1 + 2 ^ (8 * Z.of_nat (length l1)) * le_val l2.
Proof. apply digits_val_app. lia. Qed.

Lemma keep_high v : 0 <= v < 2 ^ 64 -> Z.land v (Z.lxor (2 ^ 64 - 1) TX_POW_NONCE_MASK) = Z.shiftl (v / 2 ^ 40) 40.
Proof.
  intros Hv. change (Z.lxor (2 ^ 64 - 1) TX_POW_NONCE_MASK) with (Z.shiftl (2 ^ 24 - 1) 40). rewrite <- Z.shiftr_div_pow2 by lia.
  apply Z.bits_inj'. intros i Hi. rewrite Z.land_spec, !Z.shiftl_spec by lia. destruct (Z.lt_ge_cases i 40).
  - rewrite !(Z.testbit_neg_r _ (i - 40)) by lia. apply andb_false_r.
  - rewrite Z.shiftr_spec by lia. replace (i - 40 + 40) with i by lia. destruct (Z.lt_ge_cases i 64).
    + replace (2 ^ 24 - 1) with (Z.ones 24) by reflexivity. rewrite Z.ones_spec_low by lia. apply andb_true_r.
    + rewrite <- (Z.mod_small v (2 ^ 64)), Z.mod_pow2_bits_high by lia. reflexivity.
Qed.

(** A new nonce leaves the three bytes that are read with it. *)
Lemma set_nonce N R3 n : bytes_ok (N ++ R3) -> length N = 5%nat -> length R3 = 3%nat -> 0 <= n < 2 ^ 40 ->
  le_bytes 8 (Z.lor (Z.land (le_val (N ++ R3)) (Z.lxor (2 ^ 64 - 1) TX_POW_NONCE_MASK)) n) = le_bytes 5 n ++ R3.
Proof.
  intros Hok HN HR Hn. pose proof (le_val_range _ Hok) as Hr. apply bytes_ok_app in Hok as [HNok HRok].
  rewrite length_app, HN, HR in Hr. change (8 * Z.of_nat (5 + 3)) with 64 in Hr. rewrite keep_high by exact Hr. rewrite lor_shiftl_add by (unfold in_word; lia).
  pose proof (le_val_range _ HNok) as HvN. pose proof (le_val_range _ HRok) as HvR. rewrite HN in HvN. rewrite HR in HvR. change (8 * Z.of_nat 5) with 40 in HvN. change (8 * Z.of_nat 3) with 24 in HvR.
  assert (Ediv : le_val (N ++ R3) / 2 ^ 40 = le_val R3).
  { rewrite le_val_app, HN. change (8 * Z.of_nat 5) with 40. symmetry. apply Z.div_unique_pos with (le_val N); lia. }
  rewrite Ediv. apply (digits_val_inj 8); try lia.
  - apply le_bytes_ok.
  - apply bytes_ok_app. split; [apply le_bytes_ok | exact HRok].
  - rewrite length_app, !length_le_bytes, HR. reflexivity.
  - change (le_val (le_bytes 8 (le_val R3 * 2 ^ 40 + n)) = le_val (le_bytes 5 n ++ R3)).
    rewrite le_val_app, length_le_bytes, !le_val_bytes. change (8 * Z.of_nat 5) with 40. change (8 * Z.of_nat 8) with 64. rewrite (Z.mod_small n) by lia.
    rewrite Z.mod_small; nia.
Qed.

Lemma read_nonce N R3 : bytes_ok (N ++ R3) -> length N = 5%nat -> Z.land (le_val (N ++ R3)) TX_POW_NONCE_MASK = le_val N.
Proof.
  intros Hok HN. apply bytes_ok_app in Hok as [HNok _]. change TX_POW_NONCE_MASK with (2 ^ 40 - 1). rewrite land_mask by lia. rewrite le_val_app, HN. change (8 * Z.of_nat 5) with 40.
  pose proof (le_val_range _ HNok) as Hv. rewrite HN in Hv. change (8 * Z.of_nat 5) with 40 in Hv.
  symmetry. apply Z.mod_unique_pos with (le_val R3); lia.
Qed.

Section proofs.
Context (siphash : list Z -> list Z -> Z).

Lemma find_nonce_spec shutdown count txhash key0 i difficulty : forall nonce n, find_nonce siphash shutdown count txhash key0 i difficulty nonce = Some n ->
  nonce <= n <= nonce + Z.of_nat count /\ (n < nonce + Z.of_nat count -> pow_hash siphash txhash key0 i n < difficulty).
Proof.
  induction count as [|count IH]; intros nonce n; cbn [find_nonce]; [intros [= ->]; lia|]. destruct (shutdown i nonce); [discriminate|].
  destruct (Z.ltb_spec (pow_hash siphash txhash key0 i nonce) difficulty); [intros [= ->]; split; [lia | auto]|].
  intros E%IH. split; [lia|]. intros Hn. apply E. lia.
Qed.

(** The key of a proof: the eight bytes before its nonce. *)
Definition key_of (P : list Z) : Z := le_val (drop (length P - 8) P).

Lemma iter_last_bound start count : 0 <= start < 2 ^ 40 -> iter_last start count <= iter_limit.
Proof. intros Hs. unfold iter_last. destruct (Z.ltb_spec iter_limit (u64 (start + count - 1))); cbn [orb]; [lia|]. destruct (_ <? _); lia. Qed.

Lemma iter_last_one start : 0 <= start <= iter_limit -> iter_last start 1 = start.
Proof.
  change iter_limit with (2 ^ 40 - 2). intros Hs. unfold iter_last. change iter_limit with (2 ^ 40 - 2).
  replace (start + 1 - 1) with start by lia. rewrite (u64_small start), (u64_small (2 ^ 40 - 2 - 1)) by lia.
  destruct (Z.ltb_spec (2 ^ 40 - 2) start); [lia|]. cbn [orb]. destruct (Z.ltb_spec (2 ^ 40 - 2 - 1) start); lia.
Qed.

Lemma read64_at P N R : length N = 5%nat -> (3 <= length R)%nat -> read64 (P ++ N ++ R) (Z.of_nat (length P)) = Ret (le_val (N ++ take 3 R)).
Proof.
  intros HN HR. unfold read64. rewrite !length_app, HN. rewrite (proj2 (Z.leb_le 0 _)), (proj2 (Z.leb_le _ _)) by lia. cbn [andb].
  rewrite Nat2Z.id, drop_app_length. do 2 f_equal. rewrite (take_app_ge N) by lia. rewrite HN. reflexivity.
Qed.

Lemma read64_key P rest : (8 <= length P)%nat -> read64 (P ++ rest) (Z.of_nat (length P - 8)) = Ret (key_of P).
Proof.
  intros HP. unfold read64, key_of. rewrite !length_app. rewrite (proj2 (Z.leb_le 0 _)), (proj2 (Z.leb_le _ _)) by lia. cbn [andb].
  rewrite Nat2Z.id. do 2 f_equal. rewrite drop_app_le by lia. rewrite take_app_le by (rewrite length_drop; lia). rewrite take_ge; [reflexivity | rewrite length_drop; lia].
Qed.

Lemma write64_at P N R v : length N = 5%nat -> (3 <= length R)%nat -> write64 (P ++ N ++ R) (Z.of_nat (length P)) v = Ret (P ++ le_bytes 8 v ++ drop 3 R).
Proof.
  intros HN HR. unfold write64. rewrite !length_app, HN. rewrite (proj2 (Z.leb_le 0 _)), (proj2 (Z.leb_le _ _)) by lia. cbn [andb].
  rewrite Nat2Z.id, take_app_length. do 3 f_equal. rewrite drop_app_ge by lia. replace (length P + 8 - length P)%nat with 8%nat by lia. rewrite drop_app_ge by lia. by rewrite HN.
Qed.

(** One proof, on a message in three parts: what is before the nonce, the nonce, and the rest. *)
Lemma prove_one_at shutdown txhash count difficulty i P N R : bytes_ok (N ++ R) -> length N = 5%nat -> (3 <= length R)%nat -> 0 <= i < 8 -> Z.of_nat (length P) = pnonce i ->
  prove_one siphash shutdown txhash count difficulty i (P ++ N ++ R)
  = match find_nonce siphash shutdown (Z.to_nat (iter_last (le_val N) count - le_val N + 1)) txhash (key_of P) i difficulty (le_val N) with
    | None => Ret (Some (-3), false, P ++ N ++ R)
    | Some n => Ret (if iter_limit <? n then Some (-2) else None, iter_last (le_val N) count <? n, P ++ le_bytes 5 n ++ R)
    end.
Proof.
  intros Hok HN HR Hi HP. unfold prove_one. rewrite (proj2 (Z.ltb_lt _ _)) by (change TX_POW_NPROOFS with 8; lia). rewrite <- HP, read64_at by assumption. cbn [outcome_bind].
  assert (HokN : bytes_ok N) by (apply bytes_ok_app in Hok; tauto).
  assert (Hok3 : bytes_ok (N ++ take 3 R)).
  { rewrite <- (take_drop 3 R), app_assoc in Hok. apply bytes_ok_app in Hok. tauto. }
  rewrite read_nonce by assumption. cbv zeta.
  assert (Hkey : (if i =? 0 then CC_MSG_HEADER_SIZE else Z.of_nat (length P) - 8) = Z.of_nat (length P - 8)).
  { unfold pnonce in HP. change CC_MSG_HEADER_SIZE with 8 in *. change TX_POW_NONCE_SIZE with 5 in HP. destruct (Z.eqb_spec i 0); lia. }
  rewrite Hkey, read64_key by (unfold pnonce in HP; change CC_MSG_HEADER_SIZE with 8 in *; change TX_POW_NONCE_SIZE with 5 in HP; lia). cbn [outcome_bind].
  destruct (find_nonce _ _ _ _ _ _ _ _) as [n|] eqn:En; [|reflexivity]. apply find_nonce_spec in En as [Hn _].
  pose proof (le_val_range _ HokN) as Hv. rewrite HN in Hv. change (8 * Z.of_nat 5) with 40 in Hv. pose proof (iter_last_bound (le_val N) count Hv) as Hl. change iter_limit with (2 ^ 40 - 2) in Hl.
  rewrite write64_at by assumption. cbn [outcome_bind]. rewrite set_nonce by (rewrite ?length_take; assumption || lia).
  do 3 f_equal. rewrite <- app_assoc. f_equal. apply take_drop.
Qed.

(** *** Messages whose nonces will do *)

Fixpoint nonces_work (count : nat) (txhash : list Z) (difficulty i : Z) (P rest : list Z) : Prop :=
  match count with
  | O => True
  | S count => exists N R, rest = N ++ R /\ length N = 5%nat /\ le_val N <= iter_limit
      /\ pow_hash siphash txhash (key_of P) i (le_val N) < difficulty /\ nonces_work count txhash difficulty (i + 1) (P ++ N) R
  end.

Lemma pnonce_next i (P N : list Z) : length N = 5%nat -> Z.of_nat (length P) = pnonce i -> Z.of_nat (length (P ++ N)) = pnonce (i + 1).
Proof. intros HN HP. rewrite length_app. unfold pnonce in *. change TX_POW_NONCE_SIZE with 5 in *. lia. Qed.

Lemma prove_loop_works shutdown txhash iters difficulty count : forall i P rest result buf, bytes_ok rest -> 0 <= i -> i + Z.of_nat count <= 8 -> Z.of_nat (length P) = pnonce i ->
  (5 * count + 3 <= length rest)%nat -> prove_loop siphash shutdown count txhash iters difficulty i result (P ++ rest) = Ret (0, buf) ->
  result = 0 /\ exists rest', buf = P ++ rest' /\ length rest' = length rest /\ bytes_ok rest' /\ drop (5 * count) rest' = drop (5 * count) rest
    /\ nonces_work count txhash difficulty i P rest'.
Proof.
  induction count as [|count IH]; intros i P rest result buf Hok Hi Hc HP Hlen E; cbn [prove_loop] in E.
  - injection E as -> <-. split; [reflexivity|]. exists rest. cbn [nonces_work]. auto.
  - rewrite <- (take_drop 5 rest) in Hok, E. set (N := take 5 rest) in *. set (R := drop 5 rest) in *.
    assert (HN : length N = 5%nat) by (unfold N; rewrite length_take; lia). assert (HR : (5 * count + 3 <= length R)%nat) by (unfold R; rewrite length_drop; lia).
    rewrite prove_one_at in E by (assumption || lia). destruct (find_nonce _ _ _ _ _ _ _ _) as [n|] eqn:En; [|discriminate E]. cbn [outcome_bind] in E.
    destruct (Z.ltb_spec iter_limit n) as [|Hlim]; [discriminate E|]. apply find_nonce_spec in En as [Hn Hh].
    apply bytes_ok_app in Hok as [HokN HokR]. pose proof (le_val_range _ HokN) as Hv. rewrite HN in Hv. change (8 * Z.of_nat 5) with 40 in Hv. change iter_limit with (2 ^ 40 - 2) in Hlim.
    rewrite app_assoc in E. apply IH in E as [Hres (rest' & -> & L1 & L2 & L3 & L4)]; [|exact HokR | lia | lia | apply pnonce_next; [apply length_le_bytes | exact HP] | lia].
    destruct (Z.ltb_spec (iter_last (le_val N) iters) n) as [|Hle]; [discriminate|]. split; [exact Hres|].
    exists (le_bytes 5 n ++ rest'). rewrite <- app_assoc. split; [reflexivity|]. split; [rewrite length_app, length_le_bytes, L1; unfold R; rewrite length_drop; lia|].
    split; [apply bytes_ok_app; split; [apply le_bytes_ok | exact L2]|]. split.
    + replace (5 * S count)%nat with (5 + 5 * count)%nat by lia. rewrite <- !drop_drop. change (drop 5 (le_bytes 5 n ++ rest')) with rest'. exact L3.
    + cbn [nonces_work]. exists (le_bytes 5 n), rest'. rewrite le_val_bytes_small by (unfold in_word; change (8 * Z.of_nat 5) with 40; lia).
      split; [reflexivity|]. split; [apply length_le_bytes|]. split; [change iter_limit with (2 ^ 40 - 2); lia|]. split; [apply Hh; lia | exact L4].
Qed.

Lemma works_prove_loop shutdown txhash difficulty count : (forall i n, shutdown i n = false) -> forall i P rest, bytes_ok rest -> 0 <= i -> i + Z.of_nat count <= 8 -> Z.of_nat (length P) = pnonce i ->
  (5 * count + 3 <= length rest)%nat -> nonces_work count txhash difficulty i P rest -> prove_loop siphash shutdown count txhash 1 difficulty i 0 (P ++ rest) = Ret (0, P ++ rest).
Proof.
  intros Hs. induction count as [|count IH]; intros i P rest Hok Hi Hc HP Hlen Hw; cbn [prove_loop]; [reflexivity|].
  destruct Hw as (N & R & -> & HN & Hlim & Hh & Hw). rewrite length_app in Hlen. pose proof Hok as Hok'. apply bytes_ok_app in Hok' as [HokN HokR]. pose proof (le_val_range _ HokN) as Hv.
  rewrite prove_one_at by (assumption || lia). rewrite iter_last_one by lia. replace (Z.to_nat (le_val N - le_val N + 1)) with 1%nat by lia.
  cbn [find_nonce]. rewrite Hs, (proj2 (Z.ltb_lt _ _) Hh). cbn [outcome_bind]. rewrite (proj2 (Z.ltb_ge _ _) Hlim), Z.ltb_irrefl.
  rewrite <- HN, le_bytes_val by exact HokN. rewrite app_assoc. apply IH; [exact HokR | lia | lia | by apply pnonce_next | lia | exact Hw].
Qed.

Lemma works_prove_prefix shutdown txhash difficulty k count : (forall i n, shutdown i n = false) -> forall i P rest, bytes_ok rest -> 0 <= i -> i + Z.of_nat count <= 8 -> Z.of_nat (length P) = pnonce i ->
  (5 * count + 3 <= length rest)%nat -> nonces_work count txhash difficulty i P rest -> exists P' R, P ++ rest = P' ++ R /\ length P' = (length P + 5 * count)%nat
    /\ prove_loop siphash shutdown (count + k) txhash 1 difficulty i 0 (P ++ rest) = prove_loop siphash shutdown k txhash 1 difficulty (i + Z.of_nat count) 0 (P' ++ R).
Proof.
  intros Hs. induction count as [|count IH]; intros i P rest Hok Hi Hc HP Hlen Hw.
  - exists P, rest. cbn [Nat.add]. rewrite Z.add_0_r. split_and!; [reflexivity | lia | reflexivity].
  - destruct Hw as (N & R & -> & HN & Hlim & Hh & Hw). rewrite length_app in Hlen. pose proof Hok as Hok'. apply bytes_ok_app in Hok' as [HokN HokR]. pose proof (le_val_range _ HokN) as Hv.
    destruct (IH (i + 1) (P ++ N) R HokR) as (P' & R' & E1 & E2 & E3); [lia | lia | by apply pnonce_next | lia | exact Hw|].
    exists P', R'. rewrite app_assoc. split; [exact E1|]. split; [rewrite E2, length_app; lia|]. rewrite <- app_assoc. cbn [Nat.add prove_loop].
    rewrite prove_one_at by (assumption || lia). rewrite iter_last_one by lia. replace (Z.to_nat (le_val N - le_val N + 1)) with 1%nat by lia.
    cbn [find_nonce]. rewrite Hs, (proj2 (Z.ltb_lt _ _) Hh). cbn [outcome_bind]. rewrite (proj2 (Z.ltb_ge _ _) Hlim), Z.ltb_irrefl.
    rewrite <- HN, le_bytes_val by exact HokN. rewrite app_assoc, E3. f_equal. lia.
Qed.

(** C33. Nonces that were found pass the check of other nodes, which changes nothing: when the function
    returns 0 with any number of attempts, it returns 0 with one attempt on the result.
    Only the forty bytes of the nonces change. *)
Theorem work_verifies shutdown shutdown' txhash iters difficulty buf buf' : bytes_ok buf -> (59 <= length buf)%nat -> (forall i n, shutdown' i n = false) ->
  tx_set_work_internal siphash shutdown buf txhash 0 TX_POW_NPROOFS iters difficulty = Ret (0, buf') ->
  tx_set_work_internal siphash shutdown' buf' txhash 0 TX_POW_NPROOFS 1 difficulty = Ret (0, buf')
  /\ take 16 buf' = take 16 buf /\ drop 56 buf' = drop 56 buf /\ (difficulty <> 0 -> nonces_work 8 txhash difficulty 0 (take 16 buf') (drop 16 buf')).
Proof.
  intros Hok Hlen Hs. unfold tx_set_work_internal. destruct (Z.eqb_spec difficulty 0) as [->|Hd]; [intros [= ->]; split_and!; done|].
  assert (Hread : forall b, (59 <= length b)%nat -> exists v, read64 b CC_MSG_HEADER_SIZE = Ret v).
  { intros b Hb. unfold read64. change CC_MSG_HEADER_SIZE with 8. rewrite (proj2 (Z.leb_le _ _)), (proj2 (Z.leb_le _ _)) by lia. by eexists. }
  destruct (Hread buf Hlen) as [v ->]. cbn [outcome_bind]. change (Z.to_nat TX_POW_NPROOFS) with 8%nat. intros E.
  rewrite <- (take_drop 16 buf) in Hok, E. set (P := take 16 buf) in *. set (rest := drop 16 buf) in *.
  assert (HP : length P = 16%nat) by (unfold P; rewrite length_take; lia). assert (HPn : Z.of_nat (length P) = pnonce 0) by (rewrite HP; reflexivity).
  apply bytes_ok_app in Hok as [_ HokR]. assert (Hr : (43 <= length rest)%nat) by (unfold rest; rewrite length_drop; lia).
  apply prove_loop_works in E as [_ (rest' & -> & L1 & L2 & L3 & L4)]; [|exact HokR | lia | lia | exact HPn | lia].
  destruct (Hread (P ++ rest') ltac:(rewrite length_app; lia)) as [v' ->]. cbn [outcome_bind].
  split; [apply works_prove_loop; try assumption; lia|]. rewrite (take_app_length' P rest' 16 (eq_sym HP)), (drop_app_length' P rest' 16 (eq_sym HP)).
  split; [reflexivity|]. split; [|intros _; exact L4]. replace (drop 56 buf) with (drop 40 rest) by (unfold rest; apply drop_drop).
  change (drop 40 rest) with (drop (5 * 8) rest). rewrite <- L3. rewrite drop_app_ge by lia. f_equal. lia.
Qed.

(** C39. The last nonce is read and written with the three bytes after it: the check of a message whose
    body is shorter than that, such as a claim of a payment with no body, accesses memory
    outside of the message when its first seven nonces will do. *)
Theorem short_body_overruns shutdown txhash difficulty buf : bytes_ok buf -> (56 <= length buf < 59)%nat -> difficulty <> 0 -> (forall i n, shutdown i n = false) ->
  nonces_work 7 txhash difficulty 0 (take 16 buf) (drop 16 buf) ->
  tx_set_work_internal siphash shutdown buf txhash 0 TX_POW_NPROOFS 1 difficulty = Throw BadAccess.
Proof.
  intros Hok Hlen Hd Hs Hw. unfold tx_set_work_internal. rewrite (proj2 (Z.eqb_neq _ _) Hd).
  assert (Hread : exists v, read64 buf CC_MSG_HEADER_SIZE = Ret v)
    by (unfold read64; change CC_MSG_HEADER_SIZE with 8; rewrite (proj2 (Z.leb_le _ _)), (proj2 (Z.leb_le _ _)) by lia; by eexists).
  destruct Hread as [v ->]. cbn [outcome_bind]. change (Z.to_nat TX_POW_NPROOFS) with (7 + 1)%nat.
  assert (HP : length (take 16 buf) = 16%nat) by (rewrite length_take; lia).
  rewrite <- (take_drop 16 buf) in Hok. apply bytes_ok_app in Hok as [_ HokR].
  destruct (works_prove_prefix shutdown txhash difficulty 1 7 Hs 0 (take 16 buf) (drop 16 buf) HokR) as (P' & R & E1 & E2 & E3);
    [lia | lia | rewrite HP; reflexivity | rewrite length_drop; lia | exact Hw|]. rewrite take_drop in E1, E3. rewrite E3. cbn [prove_loop].
  unfold prove_one. change (0 + Z.of_nat 7 <? TX_POW_NPROOFS) with true. cbv iota. change (pnonce (0 + Z.of_nat 7)) with 51. unfold read64 at 1.
  rewrite <- E1. rewrite (proj2 (Z.leb_gt (51 + 8) _)) by lia. reflexivity.
Qed.
End proofs.

(** ** Witnesses *)

(** A hash that depends on the key and on what is hashed. *)
Definition demo_siphash (data key : list Z) : Z := (le_val (take 8 key) * 7 + le_val (drop 8 key) * 5 + le_val data * 13 + 5) mod 64.
Definition no_shutdown (i n : Z) : bool := false.
Definition demo_message : list Z := le_bytes 4 60 ++ le_bytes 4 CC_TAG_TX ++ le_bytes 8 1700000000 ++ replicate 40 0 ++ [11; 12; 13; 14].
Definition result_of (r : outcome (Z * list Z)) : list Z := if r is Ret (_, b) then b else [].
Definition demo_worked : list Z := result_of (tx_set_work_internal demo_siphash no_shutdown demo_message [1; 2; 3] 0 8 1000 8).

Lemma work_verifies_witness : tx_set_work_internal demo_siphash no_shutdown demo_message [1; 2; 3] 0 TX_POW_NPROOFS 1000 8 = Ret (0, demo_worked)
  /\ demo_worked <> demo_message
  /\ tx_set_work_internal demo_siphash no_shutdown demo_worked [1; 2; 3] 0 TX_POW_NPROOFS 1 8 = Ret (0, demo_worked).
Proof.
  assert (E : tx_set_work_internal demo_siphash no_shutdown demo_message [1; 2; 3] 0 TX_POW_NPROOFS 1000 8 = Ret (0, demo_worked)) by (vm_compute; reflexivity).
  split; [exact E|]. split; [vm_compute; discriminate|].
  apply (work_verifies demo_siphash no_shutdown no_shutdown [1; 2; 3] 1000 8 demo_message demo_worked); [| | reflexivity | exact E].
  - apply (bool_decide_unpack _). vm_compute. exact I.
  - vm_compute. lia.
Defined.

Definition zero_hash (data key : list Z) : Z := 0.
Definition bare_claim : list Z := le_bytes 4 56 ++ le_bytes 4 CC_TAG_XCX_PAYMENT ++ replicate 48 0.

Lemma zero_works count k : forall i P, nonces_work zero_hash count [] 1 i P (replicate (5 * count + k) 0).
Proof.
  induction count as [|count IH]; intros i P; [exact I|]. exists (replicate 5 0), (replicate (5 * count + k) 0).
  split; [rewrite <- replicate_add; f_equal; lia|]. split; [reflexivity|]. split; [vm_compute; discriminate|]. split; [reflexivity | apply IH].
Qed.

(** A claim of a payment that has no body passes the checks before. *)
Lemma short_body_overruns_witness : IsValid (message_obj bare_claim) = true
  /\ tx_set_work_internal zero_hash no_shutdown bare_claim [] 0 TX_POW_NPROOFS 1 1 = Throw BadAccess.
Proof.
  split; [vm_compute; reflexivity|]. apply (short_body_overruns zero_hash no_shutdown [] 1 bare_claim).
  - apply (bool_decide_unpack _). vm_compute. exact I.
  - vm_compute. lia.
  - discriminate.
  - reflexivity.
  - assert (E : drop 16 bare_claim = replicate (5 * 7 + 5) 0) by (vm_compute; reflexivity). rewrite E. apply zero_works.
Defined.
