(* ===== verification/Serials.v ===== *)
(** * Spent serial numbers (src/source/ccnode/src/dbconn-tempserials.cpp, blockchain.cpp)

    A serial number marks an input as spent.  Those of indelible blocks are in the
    persistent table; those of valid blocks that are not yet indelible are in the
    temporary table with the address of their block, and [CheckSerialnum] looks for them
    along the chain of a new block.  The temporary table is modelled by the SQL
    statements of dbconn-tempserials.cpp; the errors of the database engine are an
    argument of each operation. *)
From S2P Require Import Prelude Bigint Block.
From stdpp Require Import gmap sorting.

Local Open Scope Z_scope.
Local Open Scope cc_scope.

(** ** The temporary table

    Rows (Serialnum, Blockp, Level) with primary key (Serialnum, Blockp); [Blockp] is an
    address, or a small constant while a block is being validated. *)

Abbreviation serial := (list Z).
Abbreviation temp_table := (gmap (serial * Z) Z).

Definition TEMP_SERIALS_PROCESS_BLOCKP : Z := 1.
Definition TEMP_SERIALS_WITNESS_BLOCKP : Z := 2.

Definition TempSerialnumInsert (fault : bool) (t : temp_table) (s : serial) (blockp : Z) : Z * temp_table :=
  if fault then (-1, t)
  else match t !! (s, blockp) with
       | Some _ => (1, t)
       | None => (0, <[(s, blockp) := 0]> t)
       end.

(** The rows of a block under validation. *)
Definition pending (blockp : Z) (row : (serial * Z) * Z) : Prop := snd (fst row) = blockp /\ snd row = 0.
#[export] Instance pending_dec blockp row : Decision (pending blockp row).
Proof. unfold pending. apply _. Defined.

(** The update fails as a whole when a new key is taken. *)
Definition TempSerialnumUpdate (fault : bool) (t : temp_table) (old_blockp new_blockp level : Z) : Z * temp_table :=
  if fault then (-1, t)
  else
    let sel := filter (pending old_blockp) t in
    let rest := filter (fun row => ~ pending old_blockp row) t in
    let moved := map (fun row : (serial * Z) * Z => ((fst (fst row), new_blockp), level)) (map_to_list sel) in
    if existsb (fun row => bool_decide (is_Some (rest !! fst row))) moved then (-1, t)
    else (0, list_to_map moved ∪ rest).

Definition TempSerialnumClear (fault : bool) (t : temp_table) (blockp : Z) : Z * temp_table :=
  if fault then (-1, t) else (0, filter (fun row => ~ pending blockp row) t).

Definition TempSerialnumPruneLevel (fault : bool) (t : temp_table) (level : Z) : Z * temp_table :=
  if fault then (-1, t) else (0, filter (fun row => ~ (0 < snd row < level)) t).

(** Blobs compare byte by byte: addresses are ordered by their bytes, lowest first. *)
Definition blob_le (a b : Z) : Prop := bswap_64 a <= bswap_64 b.
#[export] Instance blob_le_dec a b : Decision (blob_le a b).
Proof. unfold blob_le. apply _. Defined.

(** "select Blockp where Serialnum = ?1 and (?2 is null or Blockp > ?2) order by Blockp";
    a zero [last_blockp] is null. *)
Definition select_blockps (t : temp_table) (s : serial) (last_blockp : Z) : list Z :=
  merge_sort blob_le
    (filter (fun b => last_blockp = 0 \/ ~ blob_le b last_blockp)
       (map (fun row : (serial * Z) * Z => snd (fst row)) (filter (fun row => fst (fst row) = s) (map_to_list t)))).

(** The count, one more than [bufsize] if there are more rows, and the output. *)
Definition TempSerialnumSelect (fault shutdown : bool) (t : temp_table) (s : serial) (last_blockp : Z) (bufsize : nat)
  : Z * list Z :=
  if fault then (-1, [])
  else if shutdown then (0, [])
  else
    let rows := select_blockps t s last_blockp in
    if existsb (Z.eqb 0) (take bufsize rows) then (-1, [])
    else (Z.of_nat (Nat.min (length rows) (S bufsize)), take bufsize rows).

(** ** The check *)

Definition BLOCKARRAYSIZE : nat := 100.

(** What the checks read besides the table: the blocks in memory, [m_last_indelible_block],
    the persistent table and [g_shutdown]. *)
Record serial_env := mkSerialEnv {
  env_heap : heap;
  env_last_indelible : option ptr;
  env_persistent : gset serial;
  env_shutdown : bool
}.

(** Which calls into the database fail while one serial number is handled. *)
Record db_faults := mkFaults {
  fail_select : bool;
  fail_page : nat -> bool;
  fail_insert : bool
}.

Definition no_faults : db_faults := mkFaults false (fun _ => false) false.

(** [BlockInChain] on an address from the table; the number of blocks in memory is
    enough fuel. *)
Definition in_chain (e : serial_env) (topblock : option ptr) (blockp : Z) : outcome bool :=
  match env_last_indelible e ≫= (env_heap e !!.) with
  | None => Throw AssertFail
  | Some lb =>
      match blockp with
      | Zpos find_block =>
          match BlockInChain (size (env_heap e)) (fun _ => env_shutdown e) (env_heap e) find_block topblock
                  (level (WireData lb)) with
          | Some r => Ret r
          | None => Throw FuelOut
          end
      | _ => Ret false
      end
  end.

(** The loop over one page of rows; [None]: nothing found. *)
Fixpoint scan_page (shutdown : bool) (check : Z -> outcome bool) (type : Z) (rows : list Z) : outcome (option Z) :=
  match rows with
  | [] => Ret None
  | b :: rows =>
      if shutdown then Ret (Some 0)
      else if b =? type then Ret (Some 2)
      else
        let! r := check b in
        if r then Ret (Some 3) else scan_page shutdown check type rows
  end.

Fixpoint page_loop (fuel : nat) (faults : nat -> bool) (shutdown : bool) (check : Z -> outcome bool) (type : Z)
    (t : temp_table) (s : serial) (last_blockp : Z) : outcome Z :=
  match fuel with
  | O => Throw FuelOut
  | S f =>
      let '(nblocks, rows) := TempSerialnumSelect (faults f) shutdown t s last_blockp BLOCKARRAYSIZE in
      if nblocks <? 0 then Ret (-1)
      else
        let have_more := Z.of_nat BLOCKARRAYSIZE <? nblocks in
        let! r := scan_page shutdown check type rows in
        match r with
        | Some code => Ret code
        | None =>
            if have_more
            then page_loop f faults shutdown check type t s (List.last rows 0)
            else Ret 0
        end
  end.

(** A select of the persistent table: 0 when the serial number is there. *)
Definition SerialnumSelect (fault : bool) (persistent : gset serial) (s : serial) : Z :=
  if fault then -1 else if decide (s ∈ persistent) then 0 else 1.

(** Enough pages for every row of the table. *)
Definition page_fuel (t : temp_table) : nat := S (size t).

(** Result code, and whether the transaction object [txobj] is deleted from the valid
    objects. *)
Definition CheckSerialnum (e : serial_env) (faults : db_faults) (t : temp_table)
    (topblock : option ptr) (type : Z) (txobj : bool) (s : serial) : outcome (Z * bool) :=
  let result := SerialnumSelect (fail_select faults) (env_persistent e) s in
  if result <? 0 then Ret (-1, false)
  else if result =? 0 then Ret (4, txobj)
  else
    let! r := page_loop (page_fuel t) (fail_page faults) (env_shutdown e) (in_chain e topblock) type t s 0 in
    Ret (r, false).

(** The serial numbers of one transaction of a block under validation, [prior] the
    parent of the block: each is checked and recorded as pending. *)
Fixpoint check_inputs (e : serial_env) (faults : nat -> db_faults) (t : temp_table)
    (prior : option ptr) (serials : list serial) : outcome (Z * temp_table) :=
  match serials with
  | [] => Ret (0, t)
  | s :: rest =>
      let! r := CheckSerialnum e (faults (length serials)) t prior TEMP_SERIALS_PROCESS_BLOCKP false s in
      if env_shutdown e then Ret (1, t)
      else if negb (fst r =? 0) then Ret (1, t)
      else
        let '(rc2, t) := TempSerialnumInsert (fail_insert (faults (length serials))) t s TEMP_SERIALS_PROCESS_BLOCKP in
        if negb (rc2 =? 0) then Ret (-1, t)
        else check_inputs e faults t prior rest
  end.

(** ** Paging

    One select returns at most [BLOCKARRAYSIZE] rows; the loop reads the rest from the
    last row on.  Addresses are 64-bit words and no row has a null one. *)

Definition table_ok (t : temp_table) : Prop := forall s b l, t !! (s, b) = Some l -> in_word 64 b /\ b <> 0.

#[export] Instance blob_le_trans : Transitive blob_le.
Proof. unfold blob_le. intros x y z. lia. Qed.
#[export] Instance blob_le_total : Total blob_le.
Proof. unfold blob_le. intros x y. lia. Qed.

Lemma blob_le_antisym x y : in_word 64 x -> in_word 64 y -> blob_le x y -> blob_le y x -> x = y.
Proof.
  intros Hx Hy H1 H2. unfold blob_le in *.
  rewrite <- (bswap_64_invol x), <- (bswap_64_invol y) by done. f_equal. lia.
Qed.

(** The addresses of the rows of a serial number, in the order of the table. *)
Definition rows_of (t : temp_table) (s : serial) : list Z :=
  map (fun row : (serial * Z) * Z => snd (fst row)) (filter (fun row => fst (fst row) = s) (map_to_list t)).

Lemma elem_of_rows t s b : b ∈ rows_of t s <-> is_Some (t !! (s, b)).
Proof.
  unfold rows_of. rewrite list_elem_of_fmap. split.
  - intros ([[s' b'] l] & -> & Hin). apply list_elem_of_filter in Hin as [Hs Hin].
    cbn in Hs. subst. apply elem_of_map_to_list in Hin. by exists l.
  - intros [l Hl]. exists ((s, b), l). split; [done|]. apply list_elem_of_filter. split; [done|].
    by apply elem_of_map_to_list.
Qed.

Lemma rows_NoDup t s : NoDup (rows_of t s).
Proof.
  unfold rows_of. pose proof (NoDup_fst_map_to_list t) as Hnd. revert Hnd.
  induction (map_to_list t) as [|[[s1 b1] l1] rows IH]; intros Hnd; [constructor|].
  cbn [fmap list_fmap fst] in Hnd. apply NoDup_cons in Hnd as [Hn Hnd]. rewrite filter_cons.
  destruct (decide _) as [Hs|]; [|by apply IH]. cbn in Hs. subst s1. cbn [map fst snd].
  apply NoDup_cons. split; [|by apply IH].
  intros Hin. apply Hn. apply list_elem_of_fmap in Hin as ([[s2 b2] l2] & Hb & Hin).
  apply list_elem_of_filter in Hin as [Hs2 Hin]. cbn in Hs2, Hb. subst.
  apply list_elem_of_fmap. by exists (s, b2, l2).
Qed.

Lemma rows_length t s : (length (rows_of t s) <= size t)%nat.
Proof.
  unfold rows_of. rewrite length_map.
  etrans; [apply length_filter|]. by rewrite length_map_to_list.
Qed.

Lemma select_sorted t s last : StronglySorted blob_le (select_blockps t s last).
Proof. apply (StronglySorted_merge_sort blob_le). Qed.

Lemma elem_of_select t s last b :
  b ∈ select_blockps t s last <-> (last = 0 \/ ~ blob_le b last) /\ is_Some (t !! (s, b)).
Proof.
  unfold select_blockps. rewrite merge_sort_Permutation, list_elem_of_filter.
  fold (rows_of t s). by rewrite elem_of_rows.
Qed.

Lemma select_NoDup t s last : NoDup (select_blockps t s last).
Proof.
  unfold select_blockps. rewrite merge_sort_Permutation. apply NoDup_filter, rows_NoDup.
Qed.

Lemma sorted_app_order (R : relation Z) l1 l2 x y :
  StronglySorted R (l1 ++ l2) -> x ∈ l1 -> y ∈ l2 -> R x y.
Proof. intros HS Hx Hy. by apply (StronglySorted_app_1_elem_of R l1 l2). Qed.

(** The rows after the last one of a page are the rest of the rows. *)
Lemma select_rest t s pre x post :
  table_ok t -> select_blockps t s 0 = (pre ++ [x]) ++ post -> select_blockps t s x = post.
Proof.
  intros Ht E.
  assert (Hin : forall b, b ∈ (pre ++ [x]) ++ post <-> is_Some (t !! (s, b))).
  { intros b. rewrite <- E, elem_of_select. naive_solver. }
  assert (Hw : forall b, is_Some (t !! (s, b)) -> in_word 64 b) by (intros b [l Hl]; apply Ht in Hl; tauto).
  pose proof (select_NoDup t s 0) as Hnd. pose proof (select_sorted t s 0) as Hso.
  rewrite E in Hnd, Hso.
  assert (Hx0 : x <> 0).
  { assert (Hs : is_Some (t !! (s, x))) by (apply Hin; set_solver). destruct Hs as [l Hl]. apply Ht in Hl. tauto. }
  apply (StronglySorted_unique_strong blob_le).
  - intros y z Hy Hz ? ?. apply elem_of_select in Hy as [_ Hy].
    apply blob_le_antisym; auto. apply Hw, Hin. set_solver.
  - apply select_sorted.
  - by eapply StronglySorted_app_1_r.
  - apply NoDup_Permutation; [apply select_NoDup|by apply NoDup_app in Hnd as (_ & _ & ?)|].
    intros b. rewrite elem_of_select. split.
    + intros [[->|Hle] Hb]; [done|]. apply Hin in Hb. apply elem_of_app in Hb as [Hb|Hb]; [|done].
      exfalso. apply Hle. apply elem_of_app in Hb as [Hb|Hb].
      * rewrite <- app_assoc in Hso. apply (sorted_app_order _ _ _ b x Hso Hb). set_solver.
      * apply list_elem_of_singleton in Hb. subst. unfold blob_le. lia.
    + intros Hb. assert (Hs : is_Some (t !! (s, b))) by (apply Hin; set_solver). split; [|done]. right. intros Hle.
      assert (blob_le x b) by (apply (sorted_app_order _ _ _ x b Hso); [set_solver|done]).
      assert (b = x) as ->.
      { apply blob_le_antisym; auto. apply Hw, Hin. set_solver. }
      apply NoDup_app in Hnd as (_ & Hd & _). apply (Hd x); [set_solver|done].
Qed.
(** *** The loop over the pages is one scan of the rows *)

Section pages.
Context (check : Z -> outcome bool) (type : Z).

Lemma scan_page_app l1 l2 :
  scan_page false check type (l1 ++ l2) =
  let! r := scan_page false check type l1 in
  match r with Some c => Ret (Some c) | None => scan_page false check type l2 end.
Proof.
  induction l1 as [|b l1 IH]; [done|]. cbn [scan_page app]. destruct (b =? type); [done|].
  destruct (check b) as [[]|]; [done|exact IH|done].
Qed.

Definition scan_all (rows : list Z) : outcome Z :=
  let! r := scan_page false check type rows in Ret (default 0 r).

Lemma TempSerialnumSelect_ok t s last n :
  table_ok t ->
  TempSerialnumSelect false false t s last n =
  (Z.of_nat (Nat.min (length (select_blockps t s last)) (S n)), take n (select_blockps t s last)).
Proof.
  intros Ht. unfold TempSerialnumSelect.
  match goal with |- context [existsb ?f ?l] => destruct (existsb f l) eqn:E end; [|done].
  exfalso. apply existsb_exists in E as (b & Hb & E0). apply Z.eqb_eq in E0. subst b.
  apply list_elem_of_In, subseteq_take in Hb. apply elem_of_select in Hb as [_ [l Hl]].
  apply Ht in Hl. tauto.
Qed.

(** Whatever selects fail, the loop ends, and with the result of one scan of the rows
    if it is not an error of the table. *)
Lemma page_loop_scan faults t s pre rest fuel last :
  table_ok t -> select_blockps t s 0 = pre ++ rest -> select_blockps t s last = rest ->
  (length rest < fuel)%nat ->
  (exists i, faults i = true /\ page_loop fuel faults false check type t s last = Ret (-1)) \/
  page_loop fuel faults false check type t s last = scan_all rest.
Proof.
  intros Ht. revert pre rest last. induction fuel as [|f IH]; intros pre rest last Hall Hsel Hf; [lia|].
  cbn [page_loop]. destruct (faults f) eqn:Ef; [left; by exists f|].
  rewrite TempSerialnumSelect_ok, Hsel by done.
  destruct (Z.ltb_spec (Z.of_nat (length rest `min` S BLOCKARRAYSIZE)) 0) as [|_]; [lia|].
  destruct (Z.ltb_spec (Z.of_nat BLOCKARRAYSIZE) (Z.of_nat (length rest `min` S BLOCKARRAYSIZE))) as [Hm|Hm].
  - rewrite <- (take_drop BLOCKARRAYSIZE rest) in Hall.
    assert (Hlen : length (take BLOCKARRAYSIZE rest) = BLOCKARRAYSIZE) by (rewrite length_take; lia).
    assert (HB : (0 < BLOCKARRAYSIZE)%nat) by (unfold BLOCKARRAYSIZE; lia).
    pose proof (length_drop rest BLOCKARRAYSIZE) as Hd.
    replace (scan_all rest) with (scan_all (take BLOCKARRAYSIZE rest ++ drop BLOCKARRAYSIZE rest)) by (by rewrite take_drop).
    unfold scan_all. rewrite scan_page_app.
    revert Hall Hlen Hd. generalize (take BLOCKARRAYSIZE rest) (drop BLOCKARRAYSIZE rest). intros page post Hall Hlen Hd.
    destruct (scan_page false check type page) as [[c|]|]; cbn [outcome_bind default]; [by right| |by right].
    destruct page as [|x page _] using rev_ind; [cbn in Hlen; lia|]. rewrite List.last_last.
    apply (IH (pre ++ page ++ [x])); [by rewrite Hall, !app_assoc| |lia].
    apply (select_rest t s (pre ++ page)); [done|]. by rewrite Hall, !app_assoc.
  - right. rewrite take_ge by lia. unfold scan_all.
    by destruct (scan_page false check type rest) as [[c|]|].
Qed.
End pages.

(** ** The chain of a block *)

(** The blocks a check of the chain looks at: from [top] to the first one that is not
    above the last indelible level. *)
Inductive delible_path (h : heap) (lvl : Z) : option ptr -> list ptr -> Prop :=
| path_none : delible_path h lvl None []
| path_end p b : h !! p = Some b -> level (WireData b) <= lvl -> delible_path h lvl (Some p) [p]
| path_step p b l : h !! p = Some b -> lvl < level (WireData b) ->
    delible_path h lvl (GetPriorBlock b) l -> delible_path h lvl (Some p) (p :: l).

Lemma path_det h lvl top l1 l2 : delible_path h lvl top l1 -> delible_path h lvl top l2 -> l1 = l2.
Proof.
  intros H1. revert l2. induction H1 as [|p b Hb Hl|p b l Hb Hl _ IH]; intros l2 H2; inversion H2; subst;
    simplify_eq; try lia; try done.
  f_equal. by apply IH.
Qed.

Lemma path_suffix h lvl top l p :
  delible_path h lvl top l -> p ∈ l -> exists l', delible_path h lvl (Some p) l' /\ (length l' <= length l)%nat.
Proof.
  induction 1 as [|q b Hb Hl|q b l Hb Hl Hp IH]; intros Hin.
  - by apply not_elem_of_nil in Hin.
  - apply list_elem_of_singleton in Hin as ->. exists [q]. split; [by econstructor|done].
  - apply elem_of_cons in Hin as [->|Hin].
    + exists (q :: l). split; [by econstructor|done].
    + destruct (IH Hin) as (l' & Hl' & Hle). exists l'. split; [done|]. cbn. lia.
Qed.

Lemma path_in_heap h lvl top l p : delible_path h lvl top l -> p ∈ l -> is_Some (h !! p).
Proof. intros H Hin. destruct (path_suffix _ _ _ _ _ H Hin) as (l' & Hl' & _). inversion Hl'; by eexists. Qed.

Lemma path_NoDup h lvl top l : delible_path h lvl top l -> NoDup l.
Proof.
  induction 1 as [|q b Hb Hl|q b l Hb Hl Hp IH]; [constructor|apply NoDup_singleton|].
  constructor; [|done]. intros Hin. destruct (path_suffix _ _ _ _ _ Hp Hin) as (l' & Hl' & Hle).
  assert (E : l' = q :: l) by (eapply path_det; [exact Hl'|by econstructor]).
  rewrite E in Hle. cbn in Hle. lia.
Qed.

Lemma path_length h lvl top l : delible_path h lvl top l -> (length l <= size h)%nat.
Proof.
  intros H. rewrite <- (size_dom h), <- (size_list_to_set (C := gset ptr)) by (by eapply path_NoDup).
  apply subseteq_size. intros p Hp. apply elem_of_list_to_set in Hp. apply elem_of_dom. by eapply path_in_heap.
Qed.

Lemma BlockInChain_path h lvl top l p fuel :
  delible_path h lvl top l -> (length l <= fuel)%nat ->
  BlockInChain fuel (fun _ => false) h p top lvl = Some (bool_decide (p ∈ l)).
Proof.
  intros H. revert fuel. induction H as [|q b Hb Hl|q b l Hb Hl Hp IH]; intros fuel Hf.
  - by destruct fuel.
  - destruct fuel as [|f]; [cbn in Hf; lia|]. cbn [BlockInChain]. rewrite Hb.
    destruct (Z.leb_spec (level (WireData b)) lvl); [|lia].
    destruct (bool_decide_reflect (q = p)), (bool_decide_reflect (p ∈ [q])); set_solver.
  - destruct fuel as [|f]; [cbn in Hf; lia|]. cbn [BlockInChain]. rewrite Hb.
    destruct (Z.leb_spec (level (WireData b)) lvl); [lia|]. rewrite IH by (cbn in Hf; lia).
    destruct (bool_decide_reflect (q = p)), (bool_decide_reflect (p ∈ q :: l)), (bool_decide_reflect (p ∈ l)); set_solver.
Qed.
(** ** What the check answers *)

(** The blocks from [prior] down to the last indelible level. *)
Definition env_ok (e : serial_env) (prior : option ptr) (path : list ptr) : Prop :=
  env_shutdown e = false /\
  exists lb, (env_last_indelible e ≫= (env_heap e !!.)) = Some lb /\
    delible_path (env_heap e) (level (WireData lb)) prior path.

Definition on_path (path : list ptr) (blockp : Z) : Prop := exists p, p ∈ path /\ blockp = Zpos p.
#[export] Instance on_path_dec path blockp : Decision (on_path path blockp).
Proof.
  refine (cast_if (decide (Exists (fun p => blockp = Zpos p) path))); abstract (rewrite Exists_exists in *; done).
Defined.

Definition unspent (persistent : gset serial) (t : temp_table) (path : list ptr) (type : Z) (s : serial) : Prop :=
  (s ∉ persistent) /\ t !! (s, type) = None /\ (forall p, p ∈ path -> t !! (s, Zpos p) = None).

(** The result codes of [CheckSerialnum]. *)
Inductive spent_code (persistent : gset serial) (t : temp_table) (path : list ptr) (type : Z) (s : serial) : Z -> Prop :=
| code_indelible : s ∈ persistent -> spent_code persistent t path type s 4
| code_pending : s ∉ persistent -> is_Some (t !! (s, type)) -> spent_code persistent t path type s 2
| code_chain p : s ∉ persistent -> p ∈ path -> is_Some (t !! (s, Zpos p)) -> spent_code persistent t path type s 3
| code_unspent : unspent persistent t path type s -> spent_code persistent t path type s 0.

Definition faulty (f : db_faults) : Prop := fail_select f = true \/ exists i, fail_page f i = true.

Lemma in_chain_path e prior path b :
  env_ok e prior path -> in_chain e prior b = Ret (bool_decide (on_path path b)).
Proof.
  intros (Hs & lb & Hlb & Hp). unfold in_chain. rewrite Hlb, Hs.
  assert (Hn : (forall p, b <> Zpos p) -> bool_decide (on_path path b) = false).
  { intros Hn. apply bool_decide_eq_false. intros (p & _ & ->). by apply (Hn p). }
  destruct b as [|p|p]; [by rewrite Hn| |by rewrite Hn].
  rewrite (BlockInChain_path _ _ _ path) by (done || by eapply path_length). f_equal.
  apply bool_decide_ext. unfold on_path. split; [intros ?; by exists p|]. intros (q & Hq & [= ->]). done.
Qed.

Lemma scan_all_rows e prior path type rows :
  env_ok e prior path ->
  exists r, scan_all (in_chain e prior) type rows = Ret r /\
    (r = 2 /\ type ∈ rows \/ r = 3 /\ (exists b, b ∈ rows /\ on_path path b) \/
     r = 0 /\ forall b, b ∈ rows -> b <> type /\ ~ on_path path b).
Proof.
  intros He. unfold scan_all. induction rows as [|b rows (r & Hr & IH)].
  - exists 0. split; [done|]. right; right. split; [done|]. intros b Hb. by apply not_elem_of_nil in Hb.
  - cbn [scan_page]. destruct (Z.eqb_spec b type) as [->|Hb].
    { exists 2. split; [done|]. left. split; [done|]. apply elem_of_cons. by left. }
    rewrite (in_chain_path _ _ _ _ He). cbn [outcome_bind]. destruct (bool_decide_reflect (on_path path b)) as [Hp|Hp].
    { exists 3. split; [done|]. right; left. split; [done|]. exists b. split; [|done]. apply elem_of_cons. by left. }
    exists r. split; [done|]. destruct IH as [[-> ?]|[[-> (c & Hc & ?)]|[-> IH]]].
    + left. split; [done|]. apply elem_of_cons. by right.
    + right; left. split; [done|]. exists c. split; [|done]. apply elem_of_cons. by right.
    + right; right. split; [done|]. intros c Hc. apply elem_of_cons in Hc as [->|Hc]; [done|by apply IH].
Qed.

Lemma CheckSerialnum_codes e faults t prior path type txobj s :
  table_ok t -> env_ok e prior path ->
  exists code, CheckSerialnum e faults t prior type txobj s = Ret (code, bool_decide (code = 4) && txobj) /\
    (code = -1 /\ faulty faults \/ spent_code (env_persistent e) t path type s code).
Proof.
  intros Ht He. unfold CheckSerialnum, SerialnumSelect.
  destruct (fail_select faults) eqn:Ef.
  { exists (-1). split; [done|]. left. split; [done|]. by left. }
  destruct (decide (s ∈ env_persistent e)) as [Hp|Hp].
  { exists 4. split; [done|]. right. by constructor. }
  cbn [Z.ltb Z.eqb Z.compare]. rewrite (proj1 He).
  destruct (page_loop_scan (in_chain e prior) type (fail_page faults) t s [] (select_blockps t s 0) (page_fuel t) 0 Ht
    eq_refl eq_refl) as [(i & Hi & Hl)|Hl].
  { unfold page_fuel. unfold select_blockps. rewrite merge_sort_Permutation. fold (rows_of t s).
    pose proof (length_filter (fun b => 0 = 0 \/ ~ blob_le b 0) (rows_of t s)). pose proof (rows_length t s). lia. }
  { exists (-1). unfold page_fuel in *. rewrite Hl. split; [done|]. left. split; [done|]. right. by exists i. }
  unfold page_fuel in *. rewrite Hl. clear Hl.
  destruct (scan_all_rows e prior path type (select_blockps t s 0) He) as (r & -> & Hr). cbn [outcome_bind].
  exists r. split; [by destruct Hr as [[-> _]|[[-> _]|[-> _]]]|]. right.
  assert (Hrow : forall b, b ∈ select_blockps t s 0 <-> is_Some (t !! (s, b))).
  { intros b. rewrite elem_of_select. naive_solver. }
  destruct Hr as [[-> H]|[[-> (b & Hb & p & Hin & ->)]|[-> H]]].
  - constructor; [done|]. by apply Hrow.
  - apply (code_chain _ _ _ _ _ p); [done|done|by apply Hrow].
  - constructor. split; [done|]. split.
    + apply eq_None_not_Some. intros Hs. apply Hrow, H in Hs. tauto.
    + intros p Hin. apply eq_None_not_Some. intros Hs. apply Hrow, H in Hs as [_ Hs]. apply Hs. by exists p.
Qed.
(** *** One transaction *)

Definition record_pending (serials : list serial) (t : temp_table) : temp_table :=
  fold_left (fun t s => <[(s, TEMP_SERIALS_PROCESS_BLOCKP) := 0]> t) serials t.

Lemma record_pending_lookup serials t s b :
  record_pending serials t !! (s, b) =
  if decide (b = TEMP_SERIALS_PROCESS_BLOCKP /\ s ∈ serials) then Some 0 else t !! (s, b).
Proof.
  revert t. induction serials as [|x serials IH]; intros t; cbn [record_pending fold_left].
  - destruct (decide _) as [[_ H]|]; [by apply not_elem_of_nil in H|done].
  - fold (record_pending serials (<[(x, TEMP_SERIALS_PROCESS_BLOCKP) := 0]> t)). rewrite IH.
    destruct (decide (b = TEMP_SERIALS_PROCESS_BLOCKP /\ s ∈ serials)) as [[-> H]|H].
    + destruct (decide _) as [_|H']; [done|]. destruct H'. split; [done|]. apply elem_of_cons. by right.
    + destruct (decide ((x, TEMP_SERIALS_PROCESS_BLOCKP) = (s, b))) as [[= <- <-]|Hne].
      * rewrite lookup_insert_eq. destruct (decide _) as [_|H']; [done|]. destruct H'. split; [done|]. apply elem_of_cons. by left.
      * rewrite lookup_insert_ne by done. destruct (decide _) as [[-> H']|_]; [|done].
        apply elem_of_cons in H' as [->|H']; [done|]. destruct H. done.
Qed.

Lemma record_pending_ok serials t : table_ok t -> table_ok (record_pending serials t).
Proof.
  intros Ht s b l. rewrite record_pending_lookup. destruct (decide _) as [[-> _]|_]; [|apply Ht].
  intros _. by vm_compute.
Qed.

Lemma unspent_insert persistent t path s x :
  Forall (fun p => Zpos p <> TEMP_SERIALS_PROCESS_BLOCKP) path ->
  unspent persistent (<[(x, TEMP_SERIALS_PROCESS_BLOCKP) := 0]> t) path TEMP_SERIALS_PROCESS_BLOCKP s <->
  (s <> x) /\ unspent persistent t path TEMP_SERIALS_PROCESS_BLOCKP s.
Proof.
  intros Hp. rewrite Forall_forall in Hp. unfold unspent. split.
  - intros (H1 & H2 & H3). destruct (decide (s = x)) as [->|Hne]; [by rewrite lookup_insert_eq in H2|].
    rewrite lookup_insert_ne in H2 by congruence. split_and!; auto.
    intros p Hin. specialize (H3 p Hin). rewrite lookup_insert_ne in H3; [done|]. intros [= -> _]. done.
  - intros (Hne & H1 & H2 & H3). split_and!; [done|by rewrite lookup_insert_ne by congruence|].
    intros p Hin. rewrite lookup_insert_ne by congruence. by apply H3.
Qed.

(** Addresses of blocks in memory are not the constants of rows under validation. *)
Definition path_ok (path : list ptr) : Prop := Forall (fun p => (2 < p)%positive) path.

Lemma path_ok_ne path : path_ok path -> Forall (fun p => Zpos p <> TEMP_SERIALS_PROCESS_BLOCKP) path.
Proof. intros H. eapply Forall_impl; [exact H|]. cbn. intros p Hp. unfold TEMP_SERIALS_PROCESS_BLOCKP. lia. Qed.

(** Outcome of the loop over the inputs: 0 means that the serial numbers are distinct
    and none is spent, and that exactly they became pending; otherwise only pending rows
    were added. *)
Definition inputs_post (e : serial_env) (t : temp_table) (path : list ptr) (serials : list serial) (r : Z) (t' : temp_table) : Prop :=
  (r = 0 -> NoDup serials /\ Forall (unspent (env_persistent e) t path TEMP_SERIALS_PROCESS_BLOCKP) serials /\
            t' = record_pending serials t) /\
  (forall s b, b <> TEMP_SERIALS_PROCESS_BLOCKP -> t' !! (s, b) = t !! (s, b)) /\
  table_ok t'.

Lemma inputs_post_stop e t path s serials r t' :
  table_ok t -> r <> 0 ->
  (forall s b, b <> TEMP_SERIALS_PROCESS_BLOCKP -> t' !! (s, b) = t !! (s, b)) -> t' = t ->
  inputs_post e t path (s :: serials) r t'.
Proof. intros Ht Hr Hk ->. split_and!; [done|done|done]. Qed.

Lemma check_inputs_result e faults t prior path serials :
  table_ok t -> env_ok e prior path -> path_ok path ->
  exists r t', check_inputs e faults t prior serials = Ret (r, t') /\ inputs_post e t path serials r t'.
Proof.
  intros Ht He Hp. revert t Ht. induction serials as [|s serials IH]; intros t Ht.
  { exists 0, t. split; [done|]. split_and!; [|done|done]. intros _. split_and!; [constructor|constructor|done]. }
  cbn [check_inputs].
  destruct (CheckSerialnum_codes e (faults (length (s :: serials))) t prior path TEMP_SERIALS_PROCESS_BLOCKP false s Ht He)
    as (code & -> & Hcode). cbn [outcome_bind fst]. rewrite (proj1 He).
  destruct (Z.eqb_spec code 0) as [->|Hne]; cbn [negb]; [|exists 1, t; split; [done|]; by apply inputs_post_stop].
  destruct Hcode as [[? _]|Hcode]; [done|]. inversion Hcode as [| | |Hun]; subst. clear Hcode.
  unfold TempSerialnumInsert. destruct (fail_insert _).
  { exists (-1), t. split; [done|]. by apply inputs_post_stop. }
  rewrite (proj1 (proj2 Hun)). cbn [negb Z.eqb].
  destruct (IH (<[(s, TEMP_SERIALS_PROCESS_BLOCKP) := 0]> t)) as (r & t' & -> & Hr & Hk & Hok).
  { apply (record_pending_ok [s]). done. }
  exists r, t'. split; [done|]. split_and!; [|intros x b Hb; rewrite Hk by done; by rewrite lookup_insert_ne by congruence|done].
  intros Hr0. destruct (Hr Hr0) as (Hnd & Hall & ->).
  rewrite Forall_forall in Hall.
  assert (Hx : forall x, x ∈ serials -> x <> s /\ unspent (env_persistent e) t path TEMP_SERIALS_PROCESS_BLOCKP x).
  { intros x Hin. apply (unspent_insert _ _ path); [by apply path_ok_ne|]. by apply Hall. }
  split_and!; [|constructor; [done|]|done].
  - constructor; [|done]. intros Hin. by apply Hx in Hin as [? _].
  - apply Forall_forall. intros x Hin. by apply Hx.
Qed.

(** Without database errors nothing else stops the loop. *)
Lemma check_inputs_accepts e faults t prior path serials :
  table_ok t -> env_ok e prior path -> path_ok path -> (forall i, faults i = no_faults) ->
  NoDup serials -> Forall (unspent (env_persistent e) t path TEMP_SERIALS_PROCESS_BLOCKP) serials ->
  check_inputs e faults t prior serials = Ret (0, record_pending serials t).
Proof.
  intros Ht He Hp Hf Hnd Hall. revert t Ht Hall. induction Hnd as [|s serials Hs Hnd IH]; intros t Ht Hall; [done|].
  cbn [check_inputs]. rewrite Hf.
  destruct (CheckSerialnum_codes e no_faults t prior path TEMP_SERIALS_PROCESS_BLOCKP false s Ht He)
    as (code & -> & Hcode). cbn [outcome_bind fst]. rewrite (proj1 He).
  apply Forall_cons in Hall as [(H1 & H2 & H3) Hall].
  destruct Hcode as [[_ [Hc|[i Hc]]]|Hcode]; [done|done|].
  inversion Hcode as [|? Hx|p ? Hin Hx|]; subst.
  - done.
  - rewrite H2 in Hx. by destruct Hx.
  - rewrite H3 in Hx by done. by destruct Hx.
  - cbn [negb Z.eqb]. unfold TempSerialnumInsert. cbn [fail_insert no_faults]. rewrite H2. cbn [negb Z.eqb].
    apply IH; [by apply (record_pending_ok [s])|].
    apply Forall_forall. intros x Hin. apply unspent_insert; [by apply path_ok_ne|].
    rewrite Forall_forall in Hall. split; [by intros ->|by apply Hall].
Qed.
Lemma record_pending_app l1 l2 t : record_pending (l1 ++ l2) t = record_pending l2 (record_pending l1 t).
Proof. unfold record_pending. by rewrite fold_left_app. Qed.

Lemma unspent_record persistent t path l s :
  path_ok path ->
  unspent persistent (record_pending l t) path TEMP_SERIALS_PROCESS_BLOCKP s <->
  (s ∉ l) /\ unspent persistent t path TEMP_SERIALS_PROCESS_BLOCKP s.
Proof.
  intros Hp%path_ok_ne. revert t. induction l as [|x l IH]; intros t.
  - split; [intros H; split; [apply not_elem_of_nil|done]|by intros [_ H]].
  - change (record_pending (x :: l) t) with (record_pending l (<[(x, TEMP_SERIALS_PROCESS_BLOCKP) := 0]> t)).
    rewrite IH, unspent_insert, not_elem_of_cons by done. tauto.
Qed.
(** ** Clearing, recording and pruning *)

Lemma TempSerialnumClear_lookup fault t blockp rc t' s b :
  TempSerialnumClear fault t blockp = (rc, t') ->
  (b <> blockp -> t' !! (s, b) = t !! (s, b)) /\ (t !! (s, b) = None -> t' !! (s, b) = None).
Proof.
  unfold TempSerialnumClear. destruct fault; intros [= <- <-]; [done|]. split.
  - intros Hb. rewrite map_lookup_filter. destruct (t !! (s, b)) as [l|]; [|done]. cbn.
    rewrite option_guard_True; [done|]. unfold pending. cbn. tauto.
  - intros E. by rewrite map_lookup_filter, E.
Qed.

Lemma TempSerialnumClear_ok fault t blockp rc t' :
  table_ok t -> TempSerialnumClear fault t blockp = (rc, t') -> table_ok t'.
Proof.
  intros Ht E s b l Hl. destruct (t !! (s, b)) as [l'|] eqn:El; [by apply (Ht s b l')|].
  eapply TempSerialnumClear_lookup in El; [|exact E]. by rewrite El in Hl.
Qed.

Section update.
Context (t : temp_table) (old new lvl : Z).

Definition moved_rows : list ((serial * Z) * Z) :=
  map (fun row : (serial * Z) * Z => ((fst (fst row), new), lvl)) (map_to_list (filter (pending old) t)).

Lemma moved_lookup s b :
  (list_to_map moved_rows : temp_table) !! (s, b) =
  if decide (b = new /\ t !! (s, old) = Some 0) then Some lvl else None.
Proof.
  assert (Hin : forall row, row ∈ moved_rows <-> exists s, row = ((s, new), lvl) /\ t !! (s, old) = Some 0).
  { intros row. unfold moved_rows. rewrite list_elem_of_fmap. split.
    - intros ([[s' b'] l'] & -> & Hr). apply elem_of_map_to_list, map_lookup_filter_Some in Hr as [Hr [Hb Hl]].
      cbn in Hb, Hl. subst. by exists s'.
    - intros (s' & -> & Hr). exists ((s', old), 0). split; [done|]. apply elem_of_map_to_list, map_lookup_filter_Some.
      by split. }
  destruct (decide _) as [[-> Hs]|Hn].
  - apply elem_of_list_to_map_1'; [|apply Hin; by exists s].
    intros y Hy. apply Hin in Hy as (s' & [= -> ->] & _). done.
  - apply not_elem_of_list_to_map_1. intros Hf. apply list_elem_of_fmap in Hf as (row & Hrow & Hr).
    apply Hin in Hr as (s' & -> & Hs). cbn in Hrow. injection Hrow as -> ->. by apply Hn.
Qed.

(** The pending rows of [old] become rows of [new]; no other row changes. *)
Lemma TempSerialnumUpdate_lookup t' :
  old <> new -> TempSerialnumUpdate false t old new lvl = (0, t') ->
  (forall s, t !! (s, old) = Some 0 -> t !! (s, new) = None) /\
  forall s b, t' !! (s, b) =
    if decide (b = new /\ t !! (s, old) = Some 0) then Some lvl
    else if decide (b = old /\ t !! (s, old) = Some 0) then None else t !! (s, b).
Proof.
  intros Hne. unfold TempSerialnumUpdate. fold moved_rows.
  match goal with |- context [existsb ?f ?l] => destruct (existsb f l) eqn:E end; intros [= <-].
  assert (Hrest : forall s b, (filter (fun row => ~ pending old row) t : temp_table) !! (s, b) =
    if decide (b = old /\ t !! (s, old) = Some 0) then None else t !! (s, b)).
  { intros s b. rewrite map_lookup_filter. destruct (t !! (s, b)) as [l|] eqn:Eb; cbn.
    - destruct (decide _) as [[-> Hs]|Hn].
      + rewrite option_guard_False; [done|]. rewrite Eb in Hs. injection Hs as ->. unfold pending. cbn. tauto.
      + rewrite option_guard_True; [done|]. unfold pending. cbn. intros [-> ->]. tauto.
    - by destruct (decide _). }
  split.
  - intros s Hs. destruct (t !! (s, new)) as [l|] eqn:El; [|done]. exfalso.
    assert (Hin : ((s, new), lvl) ∈ moved_rows).
    { unfold moved_rows. apply list_elem_of_fmap. exists ((s, old), 0). split; [done|].
      apply elem_of_map_to_list, map_lookup_filter_Some. by split. }
    apply Bool.not_true_iff_false in E. apply E, existsb_exists. exists ((s, new), lvl).
    split; [by apply list_elem_of_In|]. apply bool_decide_eq_true. cbn. rewrite Hrest, decide_False, El; [done|].
    intros [? _]. by subst.
  - intros s b. rewrite lookup_union, moved_lookup, Hrest. destruct (decide (b = new /\ _)) as [[-> _]|_].
    + by destruct (decide (new = old /\ _)), (t !! (s, new)).
    + by destruct (decide (b = old /\ _)), (t !! (s, b)).
Qed.
End update.

Lemma TempSerialnumUpdate_rc fault t old new lvl rc t' :
  TempSerialnumUpdate fault t old new lvl = (rc, t') ->
  rc = 0 /\ TempSerialnumUpdate false t old new lvl = (0, t') \/ rc = -1 /\ t' = t.
Proof.
  unfold TempSerialnumUpdate at 1. destruct fault; [intros [= <- <-]; by right|].
  destruct (existsb _ _) eqn:E; intros [= <- <-]; [by right|]. left. split; [done|].
  unfold TempSerialnumUpdate. by rewrite E.
Qed.

(** Pruning keeps the rows of blocks at the level and above it, and pending rows. *)
Lemma TempSerialnumPruneLevel_lookup fault t lvl rc t' s b l :
  TempSerialnumPruneLevel fault t lvl = (rc, t') ->
  (t' !! (s, b) = Some l -> t !! (s, b) = Some l) /\
  (t !! (s, b) = Some l -> l <= 0 \/ lvl <= l -> t' !! (s, b) = Some l).
Proof.
  unfold TempSerialnumPruneLevel. destruct fault; intros [= <- <-]; [done|]. split.
  - intros Hf. by apply map_lookup_filter_Some in Hf as [? _].
  - intros E Hl. apply map_lookup_filter_Some. split; [done|]. cbn. lia.
Qed.

(** ** Properties *)

(** C18. The answer of a check: 4 for a serial number that an indelible block has spent, 2 for
    one that is pending, 3 for one of a block on the chain, and otherwise 0; an answer of
    -1 only after a failure of the database.  A transaction object is deleted just when
    the answer is 4. *)
Theorem CheckSerialnum_spec e faults t prior path type txobj s :
  table_ok t -> env_ok e prior path ->
  exists code, CheckSerialnum e faults t prior type txobj s = Ret (code, bool_decide (code = 4) && txobj) /\
    (code = 0 -> unspent (env_persistent e) t path type s) /\
    (~ faulty faults -> spent_code (env_persistent e) t path type s code /\
       (unspent (env_persistent e) t path type s -> code = 0)).
Proof.
  intros Ht He. destruct (CheckSerialnum_codes e faults t prior path type txobj s Ht He) as (code & -> & Hc).
  exists code. split; [done|]. destruct Hc as [[-> Hf]|Hc]; [by split|]. split.
  - intros ->. by inversion Hc.
  - intros _. split; [done|]. intros (H1 & H2 & H3). inversion Hc as [|_ Hx|q _ Hq Hx|]; subst; try done.
    + rewrite H2 in Hx. by destruct Hx.
    + rewrite H3 in Hx by done. by destruct Hx.
Qed.

(** The loop over pages of [BLOCKARRAYSIZE] rows is one scan of all rows of the serial
    number, in the order of the table. *)
Theorem page_loop_refines_scan check type t s :
  table_ok t ->
  page_loop (page_fuel t) (fun _ => false) false check type t s 0 = scan_all check type (select_blockps t s 0).
Proof.
  intros Ht. destruct (page_loop_scan check type (fun _ => false) t s [] (select_blockps t s 0) (page_fuel t) 0 Ht eq_refl eq_refl)
    as [(i & Hi & _)|E]; [|done|done].
  unfold page_fuel, select_blockps. rewrite merge_sort_Permutation. fold (rows_of t s).
  pose proof (length_filter (fun b => 0 = 0 \/ ~ blob_le b 0) (rows_of t s)). pose proof (rows_length t s). lia.
Qed.

(** Two blocks in memory, the lower one the last indelible; a serial number spent by the
    upper one, and one row of a block that is not on the chain. *)
Definition demo_rows : temp_table := list_to_map [(([7], 4), 1); (([8], 9), 1)].
Definition demo_env : serial_env :=
  mkSerialEnv (list_to_map [(3%positive, demo_block 0 0 None); (4%positive, demo_block 1 1 (Some 3%positive))])
    (Some 3%positive) {[ [6] ]} false.

Lemma demo_rows_ok : table_ok demo_rows.
Proof.
  intros s b l Hl. apply elem_of_list_to_map_2 in Hl. rewrite !elem_of_cons, elem_of_nil in Hl.
  unfold in_word. destruct Hl as [Hl|[Hl|[]]]; simplify_eq; lia.
Qed.

Lemma demo_env_ok : env_ok demo_env (Some 4%positive) [4%positive; 3%positive].
Proof.
  split; [done|]. exists (demo_block 0 0 None). split; [vm_compute; reflexivity|].
  apply (path_step _ _ _ (demo_block 1 1 (Some 3%positive))); [vm_compute; reflexivity|vm_compute; reflexivity|].
  apply (path_end _ _ _ (demo_block 0 0 None)); [vm_compute; reflexivity|done].
Qed.

Lemma CheckSerialnum_spec_witness :
  exists code, CheckSerialnum demo_env no_faults demo_rows (Some 4%positive) 1 true [7] = Ret (code, bool_decide (code = 4) && true) /\
    (code = 0 -> unspent (env_persistent demo_env) demo_rows [4%positive; 3%positive] 1 [7]) /\
    (~ faulty no_faults -> spent_code (env_persistent demo_env) demo_rows [4%positive; 3%positive] 1 [7] code /\
       (unspent (env_persistent demo_env) demo_rows [4%positive; 3%positive] 1 [7] -> code = 0)).
Proof. apply CheckSerialnum_spec; [apply demo_rows_ok|apply demo_env_ok]. Defined.

Lemma page_loop_refines_scan_witness :
  page_loop (page_fuel demo_rows) (fun _ => false) false (in_chain demo_env (Some 4%positive)) 1 demo_rows [8] 0
  = scan_all (in_chain demo_env (Some 4%positive)) 1 (select_blockps demo_rows [8] 0).
Proof. apply page_loop_refines_scan, demo_rows_ok. Defined.
