(* ===== verification/Txs.v ===== *)
(** * Transactions of a block (xtransaction.hpp, processtx.cpp, blockchain.cpp, processblock.cpp)

    The parts of a parsed transaction that blocks are validated and indexed by, the
    predicates on transaction types, exchange transactions, the pseudo serial numbers
    of transactions that spend nothing, and the objects made of a block's transactions.
    Parsing is reached through the interface [TxCodec], hashing through [Hashes]. *)
From S2P Require Import Prelude Objects.

Local Open Scope Z_scope.
Local Open Scope cc_scope.

(** ** Types *)

Definition CC_TYPE_XCX_ACCEPT : Z := 10.
Definition CC_TYPE_XCX_CANCEL : Z := 11.

Definition TypeIsXtx (type : Z) : bool := (CC_TYPE_XCX_NAKED_BUY <=? type) && (type <=? CC_TYPE_XCX_MINING_SELL).
Definition TypeIsCrosschain (type : Z) : bool := (CC_TYPE_XCX_NAKED_BUY <=? type) && (type <=? CC_TYPE_XCX_MINING_SELL).
Definition TypeIsXpay (type : Z) : bool := type =? CC_TYPE_XCX_PAYMENT.
Definition TypeIsXreq (type : Z) : bool :=
  (CC_TYPE_XCX_NAKED_BUY <=? type) && (type <=? CC_TYPE_XCX_REQ_SELL)
  || (CC_TYPE_XCX_MINING_TRADE <=? type) && (type <=? CC_TYPE_XCX_MINING_SELL).
Definition TypeHasBareMsg (type : Z) : bool :=
  (type =? CC_TYPE_XCX_NAKED_BUY) || (type =? CC_TYPE_XCX_ACCEPT) || (type =? CC_TYPE_XCX_CANCEL)
  || (type =? CC_TYPE_XCX_PAYMENT).
Definition TypeIsNaked (type : Z) : bool := (type =? CC_TYPE_XCX_NAKED_BUY) || (type =? CC_TYPE_XCX_NAKED_SELL).
Definition TypeIsBuyer (type : Z) : bool :=
  (type =? CC_TYPE_XCX_REQ_BUY) || (type =? CC_TYPE_XCX_SIMPLE_BUY) || (type =? CC_TYPE_XCX_NAKED_BUY)
  || (type =? CC_TYPE_XCX_MINING_BUY) || (type =? CC_TYPE_XCX_MINING_TRADE).
Definition TypeIsSeller (type : Z) : bool :=
  (type =? CC_TYPE_XCX_REQ_SELL) || (type =? CC_TYPE_XCX_SIMPLE_SELL) || (type =? CC_TYPE_XCX_NAKED_SELL)
  || (type =? CC_TYPE_XCX_MINING_SELL) || (type =? CC_TYPE_XCX_MINING_TRADE).
Definition TypeIsSimple (type : Z) : bool :=
  (type =? CC_TYPE_XCX_SIMPLE_BUY) || (type =? CC_TYPE_XCX_SIMPLE_SELL) || (type =? CC_TYPE_XCX_MINING_BUY)
  || (type =? CC_TYPE_XCX_MINING_SELL) || (type =? CC_TYPE_XCX_MINING_TRADE).

(** ** Data

    The fields that the modelled operations use. *)

Definition TX_MAXIN : Z := 8.
Definition TX_SERIALNUM_BYTES : Z := 32.
Definition TX_HASHKEY_WIRE_BYTES : Z := 16.

Record TxIn := mkTxIn {
  no_serialnum : bool;
  S_serialnum : list Z;
  S_hashkey : list Z
}.

Record TxOut := mkTxOut {
  no_address : bool;
  M_address : list Z;
  M_domain : Z;
  asset_mask : Z;
  amount_mask : Z;
  M_asset_enc : Z;
  M_amount_enc : Z;
  M_commitment : list Z
}.

(** [inputs] is an array of [TX_MAXIN] entries, of which the first [nin] count. *)
Record TxPay := mkTxPay {
  tag_type : Z;
  param_level : Z;
  donation_fp : Z;
  append_data : list Z;
  outputs : list TxOut;
  nin : Z;
  inputs : list TxIn
}.

Record Xreq := mkXreq {
  xr_type : Z;
  expire_time : Z;
  hold_time : Z;
  quote_asset : Z;
  xr_foreign_address : list Z
}.

Record Xpay := mkXpay {
  xmatchnum : Z;
  match_timestamp : Z;
  payment_time : Z;
  foreign_blockchain : Z;
  foreign_confirmations_required : Z;
  foreign_block_id : list Z;
  foreign_txid : list Z;
  foreign_address : list Z;
  match_left_to_pay : list Z
}.

(** The dynamic type of an [Xtx]. *)
Inductive Xtx :=
| XtxReq (r : Xreq)
| XtxPay (p : Xpay)
| XtxBase (type : Z).

(** What [SetMatchFieldsinXpay] reads of a match and its sell request. *)
Record Xmatch := mkXmatch {
  xm_match_timestamp : Z;
  xm_sell_quote_asset : Z;
  xm_sell_foreign_address : list Z;
  xm_sell_confirmations : Z;
  xm_sell_payment_time : Z;
  AmountToPay : list Z
}.

(** ** Interfaces *)

(** Results of the parsers of transaction.cpp and of the [FromWire] methods: nothing on
    error.  [tx_from_wire] gets the memory from the start of the transaction on, and the
    size that the transaction claims. *)
Class TxCodec := {
  tx_from_wire : list Z -> Z -> option TxPay;
  FromWire : Xtx -> list Z -> option Xtx;
}.

(** [blake2b size key data] and [blake2s size key data] of the third-party library. *)
Class Hashes := {
  blake2b : Z -> list Z -> list Z -> list Z;
  blake2s : Z -> list Z -> list Z -> list Z;
}.

(** ** Exchange transactions *)

(** [Xtx::New]; the fields are zero. *)
Definition Xtx_New (type : Z) : option Xtx :=
  if TypeIsXreq type then Some (XtxReq (mkXreq type 0 0 0 []))
  else if TypeIsXpay type then Some (XtxPay (mkXpay 0 0 0 0 0 [] [] [] []))
  else if TypeIsXtx type then Some (XtxBase type)
  else None.

Definition Xreq_Cast (x : option Xtx) : option Xreq := match x with Some (XtxReq r) => Some r | _ => None end.
Definition Xpay_Cast (x : option Xtx) : option Xpay := match x with Some (XtxPay p) => Some p | _ => None end.

(** A member access through a pointer. *)
Definition deref_ptr {A} (p : option A) : outcome A := match p with Some a => Ret a | None => Throw BadAccess end.

Definition ExtractXtxFailed (tx : TxPay) (for_pseudo_serialnum : bool) : bool :=
  if negb (TypeIsXtx (tag_type tx)) then false
  else if for_pseudo_serialnum && negb (TypeIsXpay (tag_type tx)) then false
  else true.

Definition SetMatchFieldsinXpay (m : Xmatch) (p : Xpay) : Xpay :=
  mkXpay (xmatchnum p) (xm_match_timestamp m) (xm_sell_payment_time m) (xm_sell_quote_asset m)
    (xm_sell_confirmations m) (foreign_block_id p) (foreign_txid p) (xm_sell_foreign_address m) (AmountToPay m).

(** [XmatchSelect] is the lookup of a match in the database, if there is one; an
    exception of [FromWire] is caught. *)
Definition ExtractXtx `{TxCodec} (XmatchSelect : option (Z -> option Xmatch)) (tx : TxPay)
    (for_pseudo_serialnum : bool) : outcome (option Xtx) :=
  if negb (ExtractXtxFailed tx for_pseudo_serialnum) then Ret None
  else
    let! xtx := deref_ptr (Xtx_New (tag_type tx)) in
    match FromWire xtx (append_data tx) with
    | None => Ret None
    | Some xtx =>
        match XmatchSelect, TypeIsXpay (tag_type tx) with
        | Some select, true =>
            let! xpay := deref_ptr (Xpay_Cast (Some xtx)) in
            match select (xmatchnum xpay) with
            | None => Ret None
            | Some m => Ret (Some (XtxPay (SetMatchFieldsinXpay m xpay)))
            end
        | _, _ => Ret (Some xtx)
        end
    end.

Definition XREQ_BLOCKCHAIN_BCH : Z := 2.

Definition ComputePaymentIdHash `{Hashes} (p : Xpay) (hashsize : Z) : outcome (list Z) :=
  ccassert! negb (foreign_blockchain p =? 0) in
  Ret (blake2s hashsize (le_bytes 8 (foreign_blockchain p))
         ((if XREQ_BLOCKCHAIN_BCH <? foreign_blockchain p then foreign_block_id p else [])
          ++ foreign_txid p ++ foreign_address p)).

(** ** Pseudo serial numbers *)

Definition zero_in : TxIn := mkTxIn false [] [].

(** [txbuf.inputs[i]] for [i < nin]. *)
Definition live_inputs (tx : TxPay) : list TxIn := take (Z.to_nat (nin tx)) (inputs tx).

Definition set_input (tx : TxPay) (n : Z) (i : nat) (x : TxIn) : TxPay :=
  mkTxPay (tag_type tx) (param_level tx) (donation_fp tx) (append_data tx) (outputs tx) n (<[i := x]> (inputs tx)).

(** [mem] is the memory from the start of the transaction on. *)
Definition CheckCreatePseudoSerialnum `{Hashes} (tx : TxPay) (xtx : option Xtx) (mem : list Z) (bpersistent : bool)
  : outcome TxPay :=
  let type := tag_type tx in
  let xchain_sell := negb bpersistent && TypeIsXreq type && TypeIsCrosschain type && TypeIsSeller type in
  let need_pseudo := xchain_sell || (type =? CC_TYPE_MINT) in
  if negb need_pseudo && existsb (fun x => negb (no_serialnum x)) (live_inputs tx) then Ret tx
  else
    let i := if type =? CC_TYPE_MINT then u16 (nin tx - 1) else nin tx in
    let n := u16 (i + 1) in
    ccassert! (i <? TX_MAXIN) in
    let old := nth (Z.to_nat i) (inputs tx) zero_in in
    let obj := message_obj mem in
    let objtype := ObjType obj in
    ccassert! negb (objtype =? 0) in
    if xchain_sell then
      let! xreq := deref_ptr (Xreq_Cast xtx) in
      ccassert! negb (bool_decide (xr_foreign_address xreq = [])) in
      Ret (set_input tx n (Z.to_nat i)
             (mkTxIn false (blake2b TX_SERIALNUM_BYTES [] (xr_foreign_address xreq)) (S_hashkey old)))
    else if TypeIsXpay type then
      let! xpay := deref_ptr (Xpay_Cast xtx) in
      let! id := ComputePaymentIdHash xpay TX_SERIALNUM_BYTES in
      Ret (set_input tx n (Z.to_nat i)
             (mkTxIn false id (blake2b TX_HASHKEY_WIRE_BYTES (le_bytes 8 objtype) (Body obj))))
    else
      Ret (set_input tx n (Z.to_nat i)
             (mkTxIn false (blake2b TX_SERIALNUM_BYTES (le_bytes 8 objtype) (Body obj)) (S_hashkey old))).

(** ** The objects of a block's transactions *)

(** A copy of [txsize] bytes of memory: nothing when the result is an error. *)
Definition ExtractTx `{Hashes} (mem : list Z) (txsize : Z) : outcome (option CCObject) :=
  if txsize <? CC_MSG_HEADER_SIZE then Ret None
  else if Z.of_nat (length mem) <? txsize then Throw BadAccess
  else
    let obj := message_obj (take (Z.to_nat txsize) mem) in
    if negb (IsValid obj) || negb (ObjSize obj =? txsize) then Ret None
    else
      let! obj := SetObjId blake2b obj in
      Ret (Some obj).

(** True: the transactions differ. *)
Definition CompareBinaryTxs (obj1 obj2 : CCObject) : bool :=
  if negb (WireTag (ObjTag obj1) =? WireTag (ObjTag obj2)) then true
  else if negb (BodySize obj1 =? BodySize obj2) then true
  else if negb (bool_decide (Body obj1 = Body obj2)) then true
  else false.

(** ** Properties *)

Lemma live_set_input tx i x n :
  (i < length (inputs tx))%nat -> n = Z.of_nat (S i) ->
  live_inputs (set_input tx n i x) = take i (inputs tx) ++ [x].
Proof.
  intros Hi ->. unfold live_inputs, set_input. cbn [nin inputs]. rewrite Nat2Z.id.
  rewrite (take_S_r _ _ x) by (by apply list_lookup_insert_eq). by rewrite take_insert_ge by done.
Qed.

(** The input that a pseudo serial number goes into, and what comes before it. *)
Definition pseudo_post (tx tx' : TxPay) : Prop :=
  0 < nin tx' <= TX_MAXIN /\ length (inputs tx') = Z.to_nat TX_MAXIN /\
  tag_type tx' = tag_type tx /\ outputs tx' = outputs tx /\
  existsb (fun x => negb (no_serialnum x)) (live_inputs tx') = true /\
  (live_inputs tx' = live_inputs tx \/
   exists x, no_serialnum x = false /\
     live_inputs tx' = (if tag_type tx =? CC_TYPE_MINT then removelast (live_inputs tx) else live_inputs tx) ++ [x]).

Lemma set_pseudo tx i x :
  length (inputs tx) = Z.to_nat TX_MAXIN -> 0 <= nin tx <= TX_MAXIN ->
  i = (if tag_type tx =? CC_TYPE_MINT then u16 (nin tx - 1) else nin tx) -> i < TX_MAXIN -> no_serialnum x = false ->
  pseudo_post tx (set_input tx (u16 (i + 1)) (Z.to_nat i) x).
Proof.
  unfold pseudo_post. change TX_MAXIN with 8. intros Hlen Hn Ei Hi Hx.
  assert (Hi0 : 0 <= i).
  { subst i. destruct (_ =? _); [|lia]. pose proof (wrap_range 16 (nin tx - 1) ltac:(lia)) as [? _]. done. }
  assert (Hu : u16 (i + 1) = Z.of_nat (S (Z.to_nat i))) by (unfold u16; rewrite wrap_small by (unfold in_word; lia); lia).
  assert (Htake : take (Z.to_nat i) (inputs tx) =
    if tag_type tx =? CC_TYPE_MINT then removelast (live_inputs tx) else live_inputs tx).
  { subst i. destruct (_ =? _); [|done]. unfold live_inputs, u16 in *. destruct (Z.eq_dec (nin tx) 0) as [E0|Hn0].
    - rewrite E0 in Hi. by vm_compute in Hi.
    - rewrite wrap_small by (unfold in_word; lia).
      replace (Z.to_nat (nin tx)) with (S (Z.to_nat (nin tx - 1))) by lia. rewrite removelast_firstn; [done|].
      rewrite Hlen. change (Z.to_nat 8) with 8%nat. lia. }
  assert (El : live_inputs (set_input tx (u16 (i + 1)) (Z.to_nat i) x) = take (Z.to_nat i) (inputs tx) ++ [x]).
  { apply live_set_input; [|done]. rewrite Hlen. change (Z.to_nat 8) with 8%nat. lia. }
  rewrite El, existsb_app, Htake. cbn [existsb]. rewrite Hx. cbn [negb orb]. rewrite orb_true_r.
  split_and!; try done; [cbn; lia|cbn; lia|cbn; by rewrite length_insert|]. right. by exists x.
Qed.

(** What becomes of the inputs of a transaction: they stay as they are when one of them
    has a serial number and no other is needed; otherwise one input with a serial number
    follows them, in place of the last one of a mint transaction.  Either way some input
    has a serial number, as the index of transactions asserts. *)
Theorem pseudo_serial_inputs `{Hashes} tx xtx mem bp tx' :
  length (inputs tx) = Z.to_nat TX_MAXIN -> 0 <= nin tx <= TX_MAXIN ->
  CheckCreatePseudoSerialnum tx xtx mem bp = Ret tx' ->
  0 < nin tx' <= TX_MAXIN /\ length (inputs tx') = Z.to_nat TX_MAXIN /\
  tag_type tx' = tag_type tx /\ outputs tx' = outputs tx /\
  existsb (fun x => negb (no_serialnum x)) (live_inputs tx') = true /\
  (live_inputs tx' = live_inputs tx \/
   exists x, no_serialnum x = false /\
     live_inputs tx' = (if tag_type tx =? CC_TYPE_MINT then removelast (live_inputs tx) else live_inputs tx) ++ [x]).
Proof.
  intros Hlen Hn. fold (pseudo_post tx tx'). unfold CheckCreatePseudoSerialnum.
  destruct (_ && existsb _ _) eqn:Ehave.
  { intros [= <-]. apply andb_true_iff in Ehave as [_ He]. split_and!; try done; [|lia|by left].
    destruct (Z.eq_dec (nin tx) 0) as [E0|]; [|lia]. unfold live_inputs in He. by rewrite E0 in He. }
  clear Ehave. destruct (Z.ltb_spec (if tag_type tx =? CC_TYPE_MINT then u16 (nin tx - 1) else nin tx) TX_MAXIN) as [Hi|]; [|done].
  destruct (negb _); [|done]. destruct (_ && TypeIsSeller _).
  { destruct (Xreq_Cast xtx) as [r|]; [|done]. cbn [deref_ptr outcome_bind]. destruct (negb _); [|done].
    intros [= <-]. by apply set_pseudo. }
  destruct (TypeIsXpay _).
  { destruct (Xpay_Cast xtx) as [r|]; [|done]. cbn [deref_ptr outcome_bind]. unfold ComputePaymentIdHash.
    destruct (negb _); [|done]. cbn [outcome_bind]. intros [= <-]. by apply set_pseudo. }
  intros [= <-]. by apply set_pseudo.
Qed.

(** Objects compare equal exactly when their wire tags and bodies are the same, and then
    they have the same identifier. *)
Theorem CompareBinaryTxs_same `{Hashes} o1 o2 :
  (CompareBinaryTxs o1 o2 = false <->
   WireTag (ObjTag o1) = WireTag (ObjTag o2) /\ BodySize o1 = BodySize o2 /\ Body o1 = Body o2) /\
  (CompareBinaryTxs o1 o2 = false -> ComputeObjId blake2b o1 = ComputeObjId blake2b o2).
Proof.
  assert (E : CompareBinaryTxs o1 o2 = false <->
   WireTag (ObjTag o1) = WireTag (ObjTag o2) /\ BodySize o1 = BodySize o2 /\ Body o1 = Body o2).
  { unfold CompareBinaryTxs. destruct (Z.eqb_spec (WireTag (ObjTag o1)) (WireTag (ObjTag o2))); cbn [negb]; [|naive_solver].
    destruct (Z.eqb_spec (BodySize o1) (BodySize o2)); cbn [negb]; [|naive_solver].
    destruct (bool_decide_reflect (Body o1 = Body o2)); cbn [negb]; naive_solver. }
  split; [done|]. intros (Et & _ & Eb)%E. unfold ComputeObjId, ObjType, TagType. by rewrite Et, Eb.
Qed.

Definition demo_hashes : Hashes := {| blake2b _ k d := k ++ d; blake2s _ k d := k ++ d |}.

(** A mint transaction as the parser leaves it: one input, which has no serial number. *)
Definition demo_mint : TxPay :=
  mkTxPay CC_TYPE_MINT 0 0 [] [] 1 (mkTxIn true [] [] :: replicate 7 zero_in).
Definition demo_mint_mem : list Z := le_bytes 4 60 ++ le_bytes 4 CC_TAG_MINT ++ replicate 52 3.
Definition demo_mint' : TxPay :=
  match CheckCreatePseudoSerialnum (H := demo_hashes) demo_mint None demo_mint_mem false with Ret tx => tx | Throw _ => demo_mint end.

Lemma pseudo_serial_inputs_witness :
  0 < nin demo_mint' <= TX_MAXIN /\ length (inputs demo_mint') = Z.to_nat TX_MAXIN /\
  tag_type demo_mint' = tag_type demo_mint /\ outputs demo_mint' = outputs demo_mint /\
  existsb (fun x => negb (no_serialnum x)) (live_inputs demo_mint') = true /\
  (live_inputs demo_mint' = live_inputs demo_mint \/
   exists x, no_serialnum x = false /\
     live_inputs demo_mint' = (if tag_type demo_mint =? CC_TYPE_MINT then removelast (live_inputs demo_mint) else live_inputs demo_mint) ++ [x]).
Proof.
  apply (pseudo_serial_inputs (H := demo_hashes) demo_mint None demo_mint_mem false); [done|done|vm_compute; reflexivity].
Defined.

