(* ===== verification/Validate.v ===== *)
(** * Validation of blocks (src/source/ccnode/src/processblock.cpp)

    The checks a block passes before it is valid: its witness, its place in the order of
    witnesses, its signature and time, its transactions and their serial numbers; and
    what the thread that validates blocks does with the result.  Databases, queues and
    the validation of single transactions are reached through the interface [BlockDb]. *)
From S2P Require Import Prelude Bigint Encode AlphaCode Amounts Block Chain Objects Serials Txs.
From stdpp Require Import gmap.

Local Open Scope Z_scope.
Local Open Scope cc_scope.

Definition BLOCK_PRUNE_ROUNDS : Z := 5.
Definition XREQ_MAX_EXPIRE_TIME : Z := 2 * 60 * 60.
Definition XREQ_MIN_POSTHOLD_TIME : Z := 60.
Definition XCX_PAY_RETRIES : nat := 200.
Definition XCX_PAY_WITNESS_RETRIES : nat := 4.

(** ** Interfaces *)

(** The databases and queues of a node.  Objects are looked up by their identifier.
    [TxValidate] returns whether there is an error, and the type of the transaction. *)
Class BlockDb (D : Type) := {
  persistent : D -> gset serial;
  XmatchSelect : D -> Z -> option Xmatch;
  XmatchingreqUniqueForeignAddressSelect : D -> Z -> Z -> list Z -> Z;
  ValidObjsGetBlock : D -> list Z -> option ptr;
  ValidObjsGetTx : D -> list Z -> option CCObject;
  ValidObjsInsert : D -> ptr -> bool * D;
  ProcessQSelectAndDelete : D -> list Z -> D;
  ProcessQEnqueueValid : D -> ptr -> list Z -> Z -> D;
  ProcessQUpdateObj : D -> list Z -> bool -> D;
  ProcessQUpdateSubsequentBlockStatus : D -> list Z -> bool * D;
  ProcessQPruneLevel : D -> Z -> D;
  ProcessQDone : D -> Z -> D;
  InitBlockScan : D -> D;
  TxEnqueueValidate : D -> CCObject -> D;
  WaitForBlockTxValidation : D -> D;
  TxValidate : D -> CCObject -> Z -> bool * Z * D;
}.

(** The signature scheme of the third-party library, and the hash of two block hashes. *)
Class Signatures := {
  blake2b_512 : list Z -> list Z;
  ed25519_sign : list Z -> list Z -> list Z -> list Z;
  ed25519_sign_open : list Z -> list Z -> list Z -> Z;
}.

(** Parameters of the node and what it reads from its surroundings during one call:
    the clocks, [g_shutdown], the failures of the serial number tables, and the memory
    behind the buffer of the block. *)
Record config := mkConfig {
  cf_witness : bool;
  cf_test_mal : bool;
  cf_future_tolerance : Z;
  cf_unixtime : Z;
  cf_ticks : Z;
  cf_xreq_times : Z * Z;
  cf_shutdown : bool;
  cf_clear_fault : bool;
  cf_update_fault : bool;
  cf_prune_fault : bool;
  cf_faults : Z -> nat -> db_faults;
  cf_beyond : list Z
}.

Record node (D : Type) := mkNode {
  n_chain : chain D;
  n_temp : temp_table;
  n_last_network_ticks : Z;
  n_last_block_ticks : Z;
  n_last_pruned_level : Z
}.
Arguments mkNode {D}.
Arguments n_chain {D}.
Arguments n_temp {D}.
Arguments n_last_network_ticks {D}.
Arguments n_last_block_ticks {D}.
Arguments n_last_pruned_level {D}.

Section validate.
Context {D : Type} `{!ChainDb D} `{!BlockDb D} {C : TxCodec} {H : Hashes} {S : Signatures} {B : BigOps}.

Definition set_chain (n : node D) (c : chain D) : node D :=
  mkNode c (n_temp n) (n_last_network_ticks n) (n_last_block_ticks n) (n_last_pruned_level n).
Definition set_temp (n : node D) (t : temp_table) : node D :=
  mkNode (n_chain n) t (n_last_network_ticks n) (n_last_block_ticks n) (n_last_pruned_level n).
Definition n_db (n : node D) : D := c_db (n_chain n).
Definition n_heap (n : node D) : heap := c_heap (n_chain n).
Definition set_db (n : node D) (db : D) : node D := set_chain n (with_db (n_chain n) db).
Definition set_heap (n : node D) (h : heap) : node D := set_chain n (with_mem (n_chain n) h (n_db n)).

(** What the check of a serial number reads. *)
Definition serials_env (cf : config) (n : node D) : serial_env :=
  mkSerialEnv (n_heap n) (m_last_indelible_block (n_chain n)) (persistent (n_db n)) (cf_shutdown cf).

(** ** The parent and the header *)

(** The parent, chained to if it was not; nothing when it is not valid yet. *)
Definition find_prior (n : node D) (p : ptr) (b : BlockObj) : outcome (option ptr * node D) :=
  match GetPriorBlock b with
  | Some q => Ret (Some q, n)
  | None =>
      match ValidObjsGetBlock (n_db n) (prior_oid (WireData b)) with
      | None => Ret (None, n)
      | Some q =>
          let! h := ChainToPriorBlock (n_heap n) p q in
          Ret (Some q, set_heap n h)
      end
  end.

(** The witness order and the signature; [true] on error. *)
Definition check_signer (n : node D) (p : ptr) : outcome (bool * node D) :=
  let! b := deref (n_heap n) p in
  let! bad := CheckBadSigOrder (n_heap n) b (-1) in
  let! fatal := CheckBadSigOrder_fatal (n_heap n) b (-1) in
  let n := if fatal then set_chain n (snd (SetFatalError (n_chain n))) else n in
  if bad then Ret (true, n)
  else
    let! r := SignOrVerify blake2b_512 ed25519_sign ed25519_sign_open (n_heap n) b true in
    Ret (snd r, n).

(** ** Transactions *)

(** The memory from position [pos] of the transactions on, and a 32-bit word there. *)
Definition mem_from (cf : config) (data : list Z) (pos : Z) : list Z :=
  drop (Z.to_nat pos) (data ++ cf_beyond cf).
Definition read_size (mem : list Z) : outcome Z :=
  if (length mem <? 4)%nat then Throw BadAccess else Ret (le_val (take 4 mem)).

(** The conditions on an exchange request; [true] on error. *)
Definition bad_xreq (db : D) (prior_blocktime : Z) (xtx : option Xtx) : outcome bool :=
  let! xreq := deref_ptr (Xreq_Cast xtx) in
  if u64 (prior_blocktime + XREQ_MAX_EXPIRE_TIME) <? expire_time xreq then Ret true
  else if expire_time xreq <=? u64 (prior_blocktime + hold_time xreq + XREQ_MIN_POSTHOLD_TIME) then Ret true
  else if bool_decide (xr_foreign_address xreq = []) then Ret false
  else Ret (XmatchingreqUniqueForeignAddressSelect db prior_blocktime (quote_asset xreq) (xr_foreign_address xreq) <=? 0).

(** The conditions on a payment. *)
Definition bad_xpay (prior_blocktime : Z) (xtx : option Xtx) : outcome bool :=
  let! xpay := deref_ptr (Xpay_Cast xtx) in
  if match_timestamp xpay =? 0 then Ret true
  else if payment_time xpay =? 0 then Ret true
  else Ret (u64 (match_timestamp xpay + payment_time xpay) <? prior_blocktime).

(** The transaction as it is checked: parsed, its exchange conditions met, with its
    pseudo serial number; nothing when it is rejected. *)
Definition parse_tx (db : D) (prior_blocktime : Z) (mem : list Z) (txsize : Z) : outcome (option TxPay) :=
  match tx_from_wire mem txsize with
  | None => Ret None
  | Some txbuf =>
      let! xtx := ExtractXtx (Some (XmatchSelect db)) txbuf false in
      if bool_decide (xtx = None) && ExtractXtxFailed txbuf true then Ret None
      else
        let! bad := if TypeIsXreq (tag_type txbuf) then bad_xreq db prior_blocktime xtx else Ret false in
        if bad then Ret None
        else
          let! bad := if TypeIsXpay (tag_type txbuf) then bad_xpay prior_blocktime xtx else Ret false in
          if bad then Ret None
          else
            let! txbuf := CheckCreatePseudoSerialnum txbuf xtx mem false in
            Ret (Some txbuf)
  end.
(** The first pass: every transaction is parsed, its serial numbers are checked and
    recorded, and it is queued for validation.  The loop runs while [pos] is before the
    end of the block, and gives the position it ends at. *)
Fixpoint index_loop (fuel : nat) (cf : config) (n : node D) (prior : ptr) (prior_blocktime : Z) (data : list Z)
    (pos : Z) : outcome (Z * Z * node D) :=
  if Z.of_nat (length data) <=? pos then Ret (0, pos, n)
  else
    match fuel with
    | O => Throw FuelOut
    | Datatypes.S f =>
        if cf_shutdown cf then Ret (1, pos, n)
        else
          let mem := mem_from cf data pos in
          let! txsize := read_size mem in
          let! tx := parse_tx (n_db n) prior_blocktime mem txsize in
          match tx with
          | None => Ret (-1, pos, n)
          | Some txbuf =>
              let! r := check_inputs (serials_env cf n) (cf_faults cf pos) (n_temp n) (Some prior)
                          (map S_serialnum (live_inputs txbuf)) in
              let '(rc, t) := r in
              let n := set_temp n t in
              if negb (rc =? 0) then Ret (rc, pos, n)
              else
                let! obj := ExtractTx mem txsize in
                match obj with
                | None => Ret (-1, pos, n)
                | Some obj =>
                    let n := set_db n (TxEnqueueValidate (n_db n) obj) in
                    index_loop f cf n prior prior_blocktime data (pos + txsize)
                end
          end
    end.

(** Retries of a payment whose confirmation on the foreign blockchain is not seen yet. *)
Fixpoint retry_loop (tries : nat) (cf : config) (db : D) (obj : CCObject) (prior_blocktime : Z) : Z * D :=
  let '(bad, type, db) := TxValidate db obj prior_blocktime in
  if negb bad then (0, db)
  else
    match tries with
    | O => (-1, db)
    | Datatypes.S tries =>
        if negb (TypeIsXpay type) then (-1, db)
        else if cf_shutdown cf then (1, db)
        else retry_loop tries cf db obj prior_blocktime
    end.

(** The second pass: each transaction is among the valid objects, unchanged, or is valid
    at the time of the parent. *)
Fixpoint verify_loop (fuel : nat) (cf : config) (n : node D) (prior_blocktime : Z) (data : list Z) (pos : Z)
  : outcome (Z * node D) :=
  if Z.of_nat (length data) <=? pos then Ret (0, n)
  else
    match fuel with
    | O => Throw FuelOut
    | Datatypes.S f =>
        if cf_shutdown cf then Ret (1, n)
        else
          let mem := mem_from cf data pos in
          let! txsize := read_size mem in
          let! obj := ExtractTx mem txsize in
          match obj with
          | None => Ret (-1, n)
          | Some obj =>
              let '(rc, db) :=
                match ValidObjsGetTx (n_db n) (obj_oid obj) with
                | Some validobj => (if CompareBinaryTxs obj validobj then -1 else 0, n_db n)
                | None =>
                    retry_loop (Datatypes.S (if cf_witness cf then XCX_PAY_WITNESS_RETRIES else XCX_PAY_RETRIES)) cf
                      (n_db n) obj prior_blocktime
                end in
              let n := set_db n db in
              if negb (rc =? 0) then Ret (rc, n)
              else verify_loop f cf n prior_blocktime data (pos + txsize)
          end
    end.

(** Every transaction takes at least a header. *)
Definition tx_fuel (data : list Z) : nat := Datatypes.S (length data).

(** ** A block *)

(** 0 valid, 1 not now, 2 parent not valid yet, -1 invalid. *)
Definition BlockValidate (cf : config) (n : node D) (p : ptr) : outcome (Z * node D) :=
  let! b := deref (n_heap n) p in
  let wire := WireData b in
  let! a := AuxPtr b in
  let! prune_level := ComputePruneLevel (n_chain n) 1 BLOCK_PRUNE_ROUNDS in
  if level wire <? prune_level then Ret (1, n)
  else if MAX_NWITNESSES <=? witness wire then Ret (-1, n)
  else
    let! r := find_prior n p b in
    let '(prior, n) := r in
    match prior with
    | None => Ret (2, n)
    | Some prior =>
        let! pb := deref (n_heap n) prior in
        let! pa := AuxPtr pb in
        if next_nwitnesses (blockchain_params pa) <=? witness wire then Ret (-1, n)
        else if cf_test_mal cf then Ret (0, n)
        else
          let! r := check_signer n p in
          let '(bad, n) := r in
          if bad then Ret (-1, n)
          else
            let prior_blocktime := timestamp (WireData pb) in
            let future := i64 (timestamp wire - cf_unixtime cf) in
            if cf_future_tolerance cf <? future
            then Ret (-1, set_db n (ProcessQSelectAndDelete (n_db n) (oid a)))
            else
              let '(_, t) := TempSerialnumClear (cf_clear_fault cf) (n_temp n) TEMP_SERIALS_PROCESS_BLOCKP in
              let n := set_temp n t in
              let n := set_db n (InitBlockScan (n_db n)) in
              let! r := index_loop (tx_fuel (TxData b)) cf n prior prior_blocktime (TxData b) 0 in
              let '(rc, pos, n) := r in
              if negb (rc =? 0) then Ret (rc, n)
              else if negb (pos =? Z.of_nat (length (TxData b))) then Ret (-1, n)
              else
                let n := set_db n (WaitForBlockTxValidation (n_db n)) in
                verify_loop (tx_fuel (TxData b)) cf n prior_blocktime (TxData b) 0
    end.

(** ** A valid block *)

Definition ValidObjsBlockInsert (cf : config) (n : node D) (p : ptr) (enqueue check_indelible : bool)
  : outcome (node D) :=
  let! b := deref (n_heap n) p in
  let wire := WireData b in
  let! a := AuxPtr b in
  let '(rc, db) := ValidObjsInsert (n_db n) p in
  let n := set_db n db in
  if rc then Ret n
  else
    let n :=
      if from_tx_net a
      then mkNode (n_chain n) (n_temp n) (if announce_ticks a =? 0 then 1 else announce_ticks a)
             (n_last_block_ticks n) (n_last_pruned_level n)
      else n in
    let n :=
      if enqueue then set_db n (ProcessQEnqueueValid (n_db n) p (prior_oid wire) (level wire))
      else set_db n (ProcessQUpdateObj (n_db n) (oid a) true) in
    let n := set_db n (snd (ProcessQUpdateSubsequentBlockStatus (n_db n) (oid a))) in
    let! n :=
      if check_indelible then
        let! r := DoConfirmations (fun _ => cf_shutdown cf) (fun _ => cf_shutdown cf) (n_chain n) p (cf_ticks cf) (cf_xreq_times cf) in
        let n := set_chain n (snd r) in
        if fst r then Ret n
        else
          let! prune_level := ComputePruneLevel (n_chain n) 0 (BLOCK_PRUNE_ROUNDS + 2) in
          let! done_level := ComputePruneLevel (n_chain n) 0 BLOCK_PRUNE_ROUNDS in
          let done_level := if cf_witness cf then done_level else prune_level in
          let n := set_db n (ProcessQPruneLevel (n_db n) prune_level) in
          let n := if prune_level <? done_level then set_db n (ProcessQDone (n_db n) done_level) else n in
          if (n_last_pruned_level n <? prune_level) && (prune_level mod 3 =? 0)
          then Ret (mkNode (n_chain n) (snd (TempSerialnumPruneLevel (cf_prune_fault cf) (n_temp n) prune_level))
                      (n_last_network_ticks n) (n_last_block_ticks n) prune_level)
          else Ret n
      else Ret n in
    Ret (mkNode (n_chain n) (n_temp n) (n_last_network_ticks n) (cf_ticks cf) (n_last_pruned_level n)).

(** The thread's work on one queued block: the result that is reported to the
    connection the block came from. *)
Definition process_block (cf : config) (n : node D) (p : ptr) : outcome (Z * node D) :=
  let! b := deref (n_heap n) p in
  let! r := BlockValidate cf n p in
  let '(result, n) := r in
  if negb (result =? 0) then
    if result <? 0 then
      let! a := AuxPtr b in
      Ret (result, set_db n (ProcessQUpdateObj (n_db n) (oid a) false))
    else Ret (result, n)
  else
    let '(rc, t) := TempSerialnumUpdate (cf_update_fault cf) (n_temp n) TEMP_SERIALS_PROCESS_BLOCKP (Zpos p)
                      (level (WireData b)) in
    let n := set_temp n t in
    if negb (rc =? 0) then Ret (1, n)
    else
      let! n := ValidObjsBlockInsert cf n p false true in
      Ret (0, n).
End validate.
(** ** What a database promises

    Queues and valid objects are not the table of spent serial numbers. *)
Class BlockDbSpec (D : Type) `{!BlockDb D} := {
  InitBlockScan_persistent db : persistent (InitBlockScan db) = persistent db;
  TxEnqueueValidate_persistent db obj : persistent (TxEnqueueValidate db obj) = persistent db;
  WaitForBlockTxValidation_persistent db : persistent (WaitForBlockTxValidation db) = persistent db;
  TxValidate_persistent db obj t : persistent (snd (TxValidate db obj t)) = persistent db;
}.

Section proofs.
Context {D : Type} `{!ChainDb D} `{!BlockDb D} `{!BlockDbSpec D} {C : TxCodec} {H : Hashes} {S : Signatures} {B : BigOps}.

(** The transactions from [pos] on fill the block, each parses and passes its checks,
    and [ss] are their serial numbers. *)
Inductive indexed (cf : config) (bt : Z) (data : list Z) : D -> Z -> list serial -> Prop :=
| indexed_end db : indexed cf bt data db (Z.of_nat (length data)) []
| indexed_tx db pos txsize tx obj ss :
    pos < Z.of_nat (length data) ->
    read_size (mem_from cf data pos) = Ret txsize ->
    parse_tx db bt (mem_from cf data pos) txsize = Ret (Some tx) ->
    ExtractTx (mem_from cf data pos) txsize = Ret (Some obj) ->
    indexed cf bt data (TxEnqueueValidate db obj) (pos + txsize) ss ->
    indexed cf bt data db pos (map S_serialnum (live_inputs tx) ++ ss).

Lemma ExtractTx_size mem txsize obj : ExtractTx mem txsize = Ret (Some obj) -> CC_MSG_HEADER_SIZE <= txsize.
Proof. unfold ExtractTx. destruct (Z.ltb_spec txsize CC_MSG_HEADER_SIZE); [done|lia]. Qed.

(** No check of a transaction runs out of fuel. *)
Definition finite {A} (m : outcome A) : Prop := m <> Throw FuelOut.

Lemma finite_bind {A E} (m : outcome A) (f : A -> outcome E) :
  finite m -> (forall a, m = Ret a -> finite (f a)) -> finite (let! x := m in f x).
Proof. destruct m as [a|e]; cbn; [auto|]. intros Hm _ [= ->]. by apply Hm. Qed.

Lemma finite_deref_ptr {A} (x : option A) : finite (deref_ptr x).
Proof. by destruct x. Qed.

Lemma finite_read_size mem : finite (read_size mem).
Proof. unfold read_size. by case_match. Qed.

Lemma finite_ExtractTx mem txsize : finite (ExtractTx mem txsize).
Proof.
  unfold ExtractTx. repeat case_match; try done.
  apply finite_bind; [|done]. unfold SetObjId, ComputeObjId. by case_match.
Qed.

Ltac finite_tac :=
  repeat first
    [ done
    | apply finite_deref_ptr
    | apply finite_bind; [|intros ? _]
    | case_match ].

Lemma finite_parse_tx db bt mem txsize : finite (parse_tx db bt mem txsize).
Proof.
  unfold parse_tx, ExtractXtx, bad_xreq, bad_xpay, CheckCreatePseudoSerialnum, ComputePaymentIdHash. finite_tac.
Qed.

(** The state after the first pass, from [n] to [n'] with result [rc]. *)
Record index_post (cf : config) (bt : Z) (path : list ptr) (data : list Z) (pos : Z) (n : node D)
    (rc pos' : Z) (n' : node D) : Prop := {
  ip_heap : n_heap n' = n_heap n;
  ip_indelible : m_last_indelible_block (n_chain n') = m_last_indelible_block (n_chain n);
  ip_persistent : persistent (n_db n') = persistent (n_db n);
  ip_table : table_ok (n_temp n');
  ip_others s b : b <> TEMP_SERIALS_PROCESS_BLOCKP -> n_temp n' !! (s, b) = n_temp n !! (s, b);
  ip_accept : rc = 0 -> pos' = Z.of_nat (length data) ->
    exists ss, indexed cf bt data (n_db n) pos ss /\ NoDup ss /\
      Forall (unspent (persistent (n_db n)) (n_temp n) path TEMP_SERIALS_PROCESS_BLOCKP) ss /\
      n_temp n' = record_pending ss (n_temp n)
}.

Lemma set_temp_id (n : node D) : n = set_temp n (n_temp n).
Proof. by destruct n. Qed.
Lemma set_db_id (n : node D) : n = set_db n (n_db n).
Proof. by destruct n as [[] ? ? ? ?]. Qed.

Lemma env_ok_mono cf n n' prior path :
  n_heap n' = n_heap n -> m_last_indelible_block (n_chain n') = m_last_indelible_block (n_chain n) ->
  env_ok (serials_env cf n) prior path -> env_ok (serials_env cf n') prior path.
Proof. unfold env_ok, serials_env; cbn. by intros -> ->. Qed.

Lemma index_post_stop cf bt path data pos n rc pos' t :
  table_ok t -> rc <> 0 -> (forall s b, b <> TEMP_SERIALS_PROCESS_BLOCKP -> t !! (s, b) = n_temp n !! (s, b)) ->
  index_post cf bt path data pos n rc pos' (set_temp n t).
Proof. by constructor. Qed.

Lemma index_loop_result fuel cf n prior bt data pos path :
  table_ok (n_temp n) -> env_ok (serials_env cf n) (Some prior) path -> path_ok path ->
  (Z.to_nat (Z.of_nat (length data) - pos) < fuel)%nat ->
  match index_loop fuel cf n prior bt data pos with
  | Ret (rc, pos', n') => index_post cf bt path data pos n rc pos' n'
  | Throw e => e <> FuelOut
  end.
Proof.
  revert n pos. induction fuel as [|f IH]; intros n pos Ht He Hp Hf; [lia|]. cbn [index_loop].
  destruct (Z.leb_spec (Z.of_nat (length data)) pos) as [Hle|Hlt].
  { constructor; try done. intros _ ->. exists []. split_and!; [constructor|constructor|constructor|done]. }
  assert (Hs : cf_shutdown cf = false) by apply (proj1 He). rewrite Hs.
  pose proof (finite_read_size (mem_from cf data pos)) as Fr.
  destruct (read_size _) as [txsize|e] eqn:Er; [|cbn; by intros ->]. cbn [outcome_bind].
  pose proof (finite_parse_tx (n_db n) bt (mem_from cf data pos) txsize) as Fp.
  destruct (parse_tx _ _ _ _) as [[tx|]|e] eqn:Ep; cbn [outcome_bind]; [|by rewrite (set_temp_id n) at 2; apply index_post_stop|by intros ->].
  destruct (check_inputs_result (serials_env cf n) (cf_faults cf pos) (n_temp n) (Some prior) path
    (map S_serialnum (live_inputs tx)) Ht He Hp) as (rc & t & -> & Hin & Hk & Hok). cbn [outcome_bind].
  destruct (Z.eqb_spec rc 0) as [->|Hrc]; cbn [negb]; [|by apply index_post_stop].
  pose proof (finite_ExtractTx (mem_from cf data pos) txsize) as Fe.
  destruct (ExtractTx _ _) as [[obj|]|e] eqn:Ee; cbn [outcome_bind]; [|by apply index_post_stop|by intros ->].
  apply ExtractTx_size in Ee as Hsz. change CC_MSG_HEADER_SIZE with 8 in Hsz.
  set (n1 := set_db (set_temp n t) _).
  destruct (Hin eq_refl) as (Hnd & Hun & Et).
  assert (Ep1 : persistent (n_db n1) = persistent (n_db n)) by apply TxEnqueueValidate_persistent.
  specialize (IH n1 (pos + txsize) Hok (env_ok_mono cf n n1 _ _ eq_refl eq_refl He) Hp ltac:(lia)).
  destruct (index_loop _ _ _ _ _ _ _) as [[[rc pos'] n']|e]; [|exact IH].
  destruct IH as [I1 I2 I3 I4 I5 I6]. constructor.
  - by rewrite I1.
  - by rewrite I2.
  - by rewrite I3.
  - done.
  - intros s b Hb. rewrite I5 by done. by apply Hk.
  - intros -> Hpos. destruct (I6 eq_refl Hpos) as (ss & Hix & Hnd2 & Hun2 & Et2). rewrite Ep1 in Hun2.
    exists (map S_serialnum (live_inputs tx) ++ ss).
    assert (Hss : forall s, s ∈ ss -> (s ∉ map S_serialnum (live_inputs tx)) /\
      unspent (persistent (n_db n)) (n_temp n) path TEMP_SERIALS_PROCESS_BLOCKP s).
    { intros s Hs'. rewrite Forall_forall in Hun2. specialize (Hun2 s Hs'). change (n_temp n1) with t in Hun2.
      rewrite Et in Hun2. by apply unspent_record in Hun2. }
    split_and!.
    + by eapply indexed_tx.
    + apply NoDup_app. split_and!; [done| |done]. intros s Hs1 Hs2. by apply (proj1 (Hss s Hs2)).
    + apply Forall_app. split; [done|]. apply Forall_forall. intros s Hs'. by apply Hss.
    + rewrite record_pending_app, <- Et. exact Et2.
Qed.

Lemma retry_loop_persistent tries cf db obj bt : persistent (snd (retry_loop tries cf db obj bt)) = persistent db.
Proof.
  revert db. induction tries as [|k IH]; intros db; cbn [retry_loop];
    pose proof (TxValidate_persistent db obj bt) as Hv; destruct (TxValidate db obj bt) as [[bad type] db']; cbn in Hv;
    destruct bad; cbn [negb]; try done.
  destruct (TypeIsXpay type); cbn [negb]; [|done]. destruct (cf_shutdown cf); [done|]. by rewrite IH.
Qed.

(** The second pass changes the queues only. *)
Lemma verify_loop_result fuel cf n bt data pos :
  (Z.to_nat (Z.of_nat (length data) - pos) < fuel)%nat ->
  match verify_loop fuel cf n bt data pos with
  | Ret (rc, n') => exists db, n' = set_db n db /\ persistent db = persistent (n_db n)
  | Throw e => e <> FuelOut
  end.
Proof.
  revert n pos. induction fuel as [|f IH]; intros n pos Hf; [lia|]. cbn [verify_loop].
  pose proof (set_db_id n) as Hn.
  destruct (Z.leb_spec (Z.of_nat (length data)) pos) as [Hle|Hlt]; [by exists (n_db n)|].
  destruct (cf_shutdown cf); [by exists (n_db n)|].
  pose proof (finite_read_size (mem_from cf data pos)) as Fr.
  destruct (read_size _) as [txsize|e]; [|cbn; by intros ->]. cbn [outcome_bind].
  pose proof (finite_ExtractTx (mem_from cf data pos) txsize) as Fe.
  destruct (ExtractTx _ _) as [[obj|]|e] eqn:Ee; cbn [outcome_bind]; [|by exists (n_db n)|by intros ->].
  apply ExtractTx_size in Ee. change CC_MSG_HEADER_SIZE with 8 in Ee.
  match goal with |- context [match ?m with (rc, db) => _ end] => assert (Hp : persistent (snd m) = persistent (n_db n));
    [|destruct m as [rc db]; cbn in Hp] end.
  { case_match; [done|apply retry_loop_persistent]. }
  destruct (rc =? 0); cbn [negb]; [|by exists db].
  specialize (IH (set_db n db) (pos + txsize) ltac:(lia)).
  destruct (verify_loop _ _ _ _ _ _) as [[rc' n']|e]; [|exact IH].
  destruct IH as (db' & -> & E). exists db'. split; [done|]. by rewrite E.
Qed.

(** What a valid block has passed. *)
Record block_accepted (cf : config) (n n1 n' : node D) (p prior : ptr) (path : list ptr) (ss : list serial) : Prop := {
  ba_txs : exists b pb, n_heap n !! p = Some b /\ n_heap n1 !! prior = Some pb /\
    indexed cf (timestamp (WireData pb)) (TxData b) (InitBlockScan (n_db n1)) 0 ss;
  ba_distinct : NoDup ss;
  ba_unspent s : s ∈ ss -> (s ∉ persistent (n_db n1)) /\ (forall q, q ∈ path -> n_temp n !! (s, Zpos q) = None);
  ba_pending s : s ∈ ss -> n_temp n' !! (s, TEMP_SERIALS_PROCESS_BLOCKP) = Some 0;
  ba_others s b : b <> TEMP_SERIALS_PROCESS_BLOCKP -> n_temp n' !! (s, b) = n_temp n !! (s, b);
  ba_heap : n_heap n' = n_heap n1;
  ba_indelible : m_last_indelible_block (n_chain n') = m_last_indelible_block (n_chain n1);
  ba_persistent : persistent (n_db n') = persistent (n_db n1);
  ba_table : table_ok (n_temp n')
}.

Lemma find_prior_temp n p b prior n1 : find_prior n p b = Ret (prior, n1) ->
  n_temp n1 = n_temp n /\ n_db n1 = n_db n /\
  m_last_indelible_block (n_chain n1) = m_last_indelible_block (n_chain n).
Proof.
  unfold find_prior. destruct (GetPriorBlock b); [by intros [= <- <-]|].
  destruct (ValidObjsGetBlock _ _); [|by intros [= <- <-]].
  destruct (ChainToPriorBlock _ _ _); [|done]. by intros [= <- <-].
Qed.

(** The part of [BlockValidate] after the time check. *)
Lemma validate_txs_accepted cf n n1 p b prior pb path n' :
  table_ok (n_temp n1) -> env_ok (serials_env cf n1) (Some prior) path -> path_ok path ->
  n_heap n !! p = Some b -> n_heap n1 !! prior = Some pb -> n_temp n1 = n_temp n ->
  (let '(_, t) := TempSerialnumClear (cf_clear_fault cf) (n_temp n1) TEMP_SERIALS_PROCESS_BLOCKP in
   let n := set_temp n1 t in
   let n := set_db n (InitBlockScan (n_db n)) in
   let! r := index_loop (tx_fuel (TxData b)) cf n prior (timestamp (WireData pb)) (TxData b) 0 in
   let '(rc, pos, n) := r in
   if negb (rc =? 0) then Ret (rc, n)
   else if negb (pos =? Z.of_nat (length (TxData b))) then Ret (-1, n)
   else
     let n := set_db n (WaitForBlockTxValidation (n_db n)) in
     verify_loop (tx_fuel (TxData b)) cf n (timestamp (WireData pb)) (TxData b) 0) = Ret (0, n') ->
  exists ss, block_accepted cf n n1 n' p prior path ss.
Proof.
  intros Ht He Hp Hb Hpb Etemp.
  destruct (TempSerialnumClear _ _ _) as [crc t] eqn:Ec.
  pose proof (TempSerialnumClear_ok _ _ _ _ _ Ht Ec) as Htt.
  cbv zeta. set (n2 := set_db (set_temp n1 t) _).
  assert (Ep2 : persistent (n_db n2) = persistent (n_db n1)) by apply InitBlockScan_persistent.
  pose proof (index_loop_result (tx_fuel (TxData b)) cf n2 prior (timestamp (WireData pb)) (TxData b) 0 path Htt
    (env_ok_mono cf n1 n2 _ _ eq_refl eq_refl He) Hp ltac:(unfold tx_fuel; lia)) as Hix.
  destruct (index_loop _ _ _ _ _ _ _) as [[[rc pos] n3]|e]; [|done]. cbn [outcome_bind].
  destruct (Z.eqb_spec rc 0) as [->|]; cbn [negb]; [|by intros [= -> _]].
  destruct (Z.eqb_spec pos (Z.of_nat (length (TxData b)))) as [->|]; cbn [negb]; [|done].
  destruct Hix as [I1 I2 I3 I4 I5 I6]. destruct (I6 eq_refl eq_refl) as (ss & Hixd & Hnd & Hun & Et).
  rewrite Forall_forall in Hun. intros Hv.
  pose proof (verify_loop_result (tx_fuel (TxData b)) cf (set_db n3 (WaitForBlockTxValidation (n_db n3)))
    (timestamp (WireData pb)) (TxData b) 0 ltac:(unfold tx_fuel; lia)) as Hvl.
  rewrite Hv in Hvl. destruct Hvl as (db & -> & Edb). exists ss.
  assert (Hcl : forall s q, q <> TEMP_SERIALS_PROCESS_BLOCKP -> t !! (s, q) = n_temp n !! (s, q)).
  { intros s q Hq. rewrite <- Etemp. by apply (proj1 (TempSerialnumClear_lookup _ _ _ _ _ s q Ec)). }
  constructor; [|done| | | |exact I1|exact I2| |done].
  - exists b, pb. by split_and!.
  - intros s Hs. destruct (Hun s Hs) as (H1 & _ & H3). rewrite Ep2 in H1. split; [done|].
    intros q Hq. rewrite <- Hcl; [by apply H3|]. apply path_ok_ne in Hp. rewrite Forall_forall in Hp. by apply Hp.
  - intros s Hs. change (n_temp (set_db (set_db n3 _) db)) with (n_temp n3). rewrite Et, record_pending_lookup, decide_True; done.
  - intros s q Hq. change (n_temp (set_db (set_db n3 _) db)) with (n_temp n3). rewrite I5 by done. by apply Hcl.
  - change (n_db (set_db (set_db n3 _) db)) with db. rewrite Edb. change (n_db (set_db n3 _)) with (WaitForBlockTxValidation (n_db n3)).
    by rewrite WaitForBlockTxValidation_persistent, I3.
Qed.

Lemma check_signer_node (n : node D) p n' : check_signer n p = Ret (false, n') -> n' = n.
Proof.
  unfold check_signer. destruct (deref _ _) as [b|]; [|done]. cbn [outcome_bind].
  destruct (CheckBadSigOrder _ _ _) as [[]|] eqn:E; cbn [outcome_bind]; [|rewrite (order_ok_not_fatal _ _ _ E)|done].
  - destruct (CheckBadSigOrder_fatal _ _ _); done.
  - cbn [outcome_bind]. destruct (SignOrVerify _ _ _ _ _ _); [|done]. by intros [= _ <-].
Qed.

Lemma BlockValidate_accepted cf n n1 p b prior path n' :
  cf_test_mal cf = false -> n_heap n !! p = Some b -> find_prior n p b = Ret (Some prior, n1) ->
  table_ok (n_temp n) -> env_ok (serials_env cf n1) (Some prior) path -> path_ok path ->
  BlockValidate cf n p = Ret (0, n') ->
  (exists ss, block_accepted cf n n1 n' p prior path ss) /\
  check_signer n1 p = Ret (false, n1) /\
  (exists pb pa, n_heap n1 !! prior = Some pb /\ auxp pb = Some pa /\
     witness (WireData b) < next_nwitnesses (blockchain_params pa)).
Proof.
  intros Hm Hb Hfp Ht He Hp. destruct (find_prior_temp _ _ _ _ _ Hfp) as (Et & _ & _).
  unfold BlockValidate. unfold deref at 1. rewrite Hb. cbn [outcome_bind].
  destruct (AuxPtr b) as [a|]; [|done]. cbn [outcome_bind].
  destruct (ComputePruneLevel _ _ _) as [pl|]; [|done]. cbn [outcome_bind].
  destruct (level (WireData b) <? pl); [done|]. destruct (MAX_NWITNESSES <=? witness (WireData b)); [done|].
  rewrite Hfp. cbn [outcome_bind]. unfold deref. destruct (n_heap n1 !! prior) as [pb|] eqn:Epb; [|done]. cbn [outcome_bind].
  destruct (AuxPtr pb) as [pa|] eqn:Epa; [|done]. cbn [outcome_bind].
  destruct (Z.leb_spec (next_nwitnesses (blockchain_params pa)) (witness (WireData b))) as [|Hw]; [done|]. rewrite Hm.
  destruct (check_signer n1 p) as [[[] n3]|] eqn:Ecs; cbn [outcome_bind]; [done| |done].
  apply check_signer_node in Ecs as ->.
  destruct (cf_future_tolerance cf <? _); [done|]. intros Hr. split_and!; [|done|].
  - rewrite <- Et in Ht. by apply (validate_txs_accepted cf n n1 p b prior pb path n').
  - exists pb, pa. split_and!; [done| |done]. unfold AuxPtr in Epa. destruct (auxp pb); by simplify_eq.
Qed.

(** ** A level out of sequence

    The order of witnesses is checked before the signature, and a block whose level is
    not that of its parent plus one sets the fatal error of the node there. *)
Lemma bad_level_order h p b a q pb pa :
  h !! p = Some b -> auxp b = Some a -> 0 < nconfsigs (blockchain_params a) -> priorp b = Some q ->
  h !! q = Some pb -> auxp pb = Some pa -> level (WireData pb) <> u64 (level (WireData b) - 1) ->
  CheckBadSigOrder h b (-1) = Ret true /\ CheckBadSigOrder_fatal h b (-1) = Ret true.
Proof.
  intros Hb Ha Hn Hq Hpb Hpa Hl. unfold CheckBadSigOrder, CheckBadSigOrder_fatal, AuxPtr. rewrite Ha. cbn [outcome_bind].
  change (0 <=? -1) with false. cbv iota.
  destruct (Z.to_nat (nconfsigs (blockchain_params a))) as [|f] eqn:Ef; [lia|]. cbn [sig_order_walk].
  destruct (Z.ltb_spec 0 (nconfsigs (blockchain_params a))); [|lia].
  unfold AuxPtr, GetPriorBlock. rewrite Ha, Hq. cbn [outcome_bind]. rewrite Hpb.
  destruct (Z.eqb_spec (level (WireData pb)) (u64 (level (WireData b) - 1))); done.
Qed.

(** A block whose level is not that of its parent plus one sets the fatal error of the node, whatever its signature. *)
Theorem unsigned_bad_level_is_fatal cf n p b a n1 b1 a1 q pb pa pl :
  cf_test_mal cf = false -> n_heap n !! p = Some b -> auxp b = Some a ->
  ComputePruneLevel (n_chain n) 1 BLOCK_PRUNE_ROUNDS = Ret pl -> pl <= level (WireData b) ->
  witness (WireData b) < MAX_NWITNESSES ->
  find_prior n p b = Ret (Some q, n1) -> n_heap n1 !! p = Some b1 -> WireData b1 = WireData b -> priorp b1 = Some q ->
  auxp b1 = Some a1 -> 0 < nconfsigs (blockchain_params a1) ->
  n_heap n1 !! q = Some pb -> auxp pb = Some pa -> witness (WireData b) < next_nwitnesses (blockchain_params pa) ->
  level (WireData b) <> level (WireData pb) + 1 -> 0 < level (WireData b) < 2 ^ 64 ->
  exists n', BlockValidate cf n p = Ret (-1, n') /\ m_have_fatal_error (n_chain n') = true.
Proof.
  intros Hm Hb Ha Hpl Hpl2 Hw Hfp Hb1 Hwd Hpr Ha1 Hnc Hpb Hpa Hw2 Hlev Hrange.
  destruct (bad_level_order (n_heap n1) p b1 a1 q pb pa) as [E1 E2]; try done.
  { rewrite Hwd. unfold u64. rewrite wrap_small by (unfold in_word; lia). lia. }
  unfold BlockValidate. unfold deref at 1. rewrite Hb. cbn [outcome_bind]. unfold AuxPtr at 1. rewrite Ha. cbn [outcome_bind].
  rewrite Hpl. cbn [outcome_bind].
  destruct (Z.ltb_spec (level (WireData b)) pl); [lia|]. destruct (Z.leb_spec MAX_NWITNESSES (witness (WireData b))); [lia|].
  rewrite Hfp. cbn [outcome_bind]. unfold deref at 1. rewrite Hpb. cbn [outcome_bind]. unfold AuxPtr at 1. rewrite Hpa. cbn [outcome_bind].
  destruct (Z.leb_spec (next_nwitnesses (blockchain_params pa)) (witness (WireData b))); [lia|]. rewrite Hm.
  unfold check_signer, deref. rewrite Hb1. cbn [outcome_bind]. rewrite E1. cbn [outcome_bind]. rewrite E2. cbn [outcome_bind].
  by eexists.
Qed.

(** ** Termination, and a malformed exchange request *)

Lemma finite_check_signer (n : node D) p : finite (check_signer n p).
Proof.
  unfold check_signer, deref, CheckBadSigOrder, CheckBadSigOrder_fatal, SignOrVerify, AuxPtr.
  assert (Hw : forall f h b nc ns ss, finite (sig_order_walk f h b nc ns ss)).
  { intros f h. induction f as [|f IH]; intros b nc ns ss; [done|]. cbn [sig_order_walk]. unfold AuxPtr.
    repeat first [done | apply IH | apply finite_bind; [|intros ? _] | case_match]. }
  repeat first [done | apply Hw | apply finite_bind; [|intros ? _] | case_match].
Qed.

Lemma finite_ComputePruneLevel (c : chain D) m r : finite (ComputePruneLevel c m r).
Proof. unfold ComputePruneLevel, deref, AuxPtr. finite_tac. Qed.

Lemma finite_find_prior (n : node D) p b : finite (find_prior n p b).
Proof. unfold find_prior, ChainToPriorBlock, AuxPtr. finite_tac. Qed.

(** Validation ends: every transaction advances by at least a header, and every check of a
    serial number ends on the finite chain of the parent. *)
Theorem BlockValidate_terminates cf n p :
  table_ok (n_temp n) ->
  (forall b prior n1, n_heap n !! p = Some b -> find_prior n p b = Ret (Some prior, n1) ->
     exists path, env_ok (serials_env cf n1) (Some prior) path /\ path_ok path) ->
  BlockValidate cf n p <> Throw FuelOut.
Proof.
  intros Ht Hpath. fold (finite (BlockValidate cf n p)). unfold BlockValidate.
  unfold deref at 1. destruct (n_heap n !! p) as [b|] eqn:Eb; [|done]. cbn [outcome_bind].
  apply finite_bind; [unfold AuxPtr; by case_match|intros a _].
  apply finite_bind; [apply finite_ComputePruneLevel|intros pl _]. case_match; [done|]. case_match; [done|].
  apply finite_bind; [apply finite_find_prior|intros [[prior|] n1] Hfp; [|done]].
  destruct (find_prior_temp _ _ _ _ _ Hfp) as (Et & _). destruct (Hpath b prior n1 eq_refl Hfp) as (path & He & Hpok).
  apply finite_bind; [unfold deref; by case_match|intros pb _]. apply finite_bind; [unfold AuxPtr; by case_match|intros pa _].
  case_match; [done|]. case_match; [done|].
  apply finite_bind; [apply finite_check_signer|intros [[] n2] Hcs; [done|]]. apply check_signer_node in Hcs as ->.
  cbv zeta. case_match; [done|].
  destruct (TempSerialnumClear _ _ _) as [crc t] eqn:Ec. rewrite Et in Ec.
  pose proof (TempSerialnumClear_ok _ _ _ _ _ Ht Ec) as Htt. set (n3 := set_db (set_temp n1 t) _).
  pose proof (index_loop_result (tx_fuel (TxData b)) cf n3 prior (timestamp (WireData pb)) (TxData b) 0 path Htt
    (env_ok_mono cf n1 n3 _ _ eq_refl eq_refl He) Hpok ltac:(unfold tx_fuel; lia)) as Hix.
  destruct (index_loop _ _ _ _ _ _ _) as [[[rc pos] n4]|e]; [cbn [outcome_bind]|cbn; by intros [= ->]].
  case_match; [done|]. case_match; [done|].
  pose proof (verify_loop_result (tx_fuel (TxData b)) cf (set_db n4 (WaitForBlockTxValidation (n_db n4)))
    (timestamp (WireData pb)) (TxData b) 0 ltac:(unfold tx_fuel; lia)) as Hvl.
  destruct (verify_loop _ _ _ _ _ _) as [|e]; [done|]. by intros [= ->].
Qed.

(** An exchange request whose data does not parse is not rejected here: its conditions
    are read through a null pointer. *)
Theorem malformed_xreq_null_access (db : D) bt mem txsize tx :
  tx_from_wire mem txsize = Some tx -> TypeIsXreq (tag_type tx) = true ->
  (forall x, Xtx_New (tag_type tx) = Some x -> FromWire x (append_data tx) = None) ->
  parse_tx db bt mem txsize = Throw BadAccess.
Proof.
  intros Htx Ht Hf. unfold parse_tx. rewrite Htx. unfold ExtractXtx, ExtractXtxFailed.
  assert (Hx : TypeIsXtx (tag_type tx) = true).
  { revert Ht. unfold TypeIsXreq, TypeIsXtx. change CC_TYPE_XCX_NAKED_BUY with 4. change CC_TYPE_XCX_REQ_SELL with 9.
    change CC_TYPE_XCX_MINING_TRADE with 13. change CC_TYPE_XCX_MINING_SELL with 15. lia. }
  assert (Hp : TypeIsXpay (tag_type tx) = false).
  { revert Ht. unfold TypeIsXreq, TypeIsXpay. change CC_TYPE_XCX_NAKED_BUY with 4. change CC_TYPE_XCX_REQ_SELL with 9.
    change CC_TYPE_XCX_MINING_TRADE with 13. change CC_TYPE_XCX_MINING_SELL with 15. change CC_TYPE_XCX_PAYMENT with 12. lia. }
  rewrite Hx, Hp. cbn [negb andb]. unfold Xtx_New in *. rewrite Ht in *. cbn [deref_ptr outcome_bind].
  rewrite (Hf _ eq_refl). cbn [outcome_bind]. unfold bad_xreq. cbn [Xreq_Cast deref_ptr outcome_bind].
  rewrite bool_decide_eq_true_2 by done. done.
Qed.
End proofs.

(** ** A small network

    A network of three witnesses; the transactions of the parser below are 60 bytes
    long, and spend the serial number that their 9th byte names. *)
Module Demo.
Abbreviation db := (gset serial).

Definition serial_of (mem : list Z) : serial := [nth 8 mem 0].

Definition payment (s : serial) : TxPay := mkTxPay CC_TYPE_TXPAY 0 0 [] [] 1 (mkTxIn false s [] :: replicate 7 zero_in).

#[export] Instance demo_codec : TxCodec := {|
  tx_from_wire mem size := Some (payment (serial_of mem));
  FromWire x _ := Some x |}.

#[export] Instance demo_hashes : Hashes := {| blake2b _ k d := k ++ d; blake2s _ k d := k ++ d |}.

#[export] Instance demo_signatures : Signatures := {|
  blake2b_512 d := d; ed25519_sign _ _ _ := []; ed25519_sign_open _ _ _ := 0 |}.

#[export] Instance demo_db : BlockDb db := {|
  persistent d := d;
  XmatchSelect _ _ := None;
  XmatchingreqUniqueForeignAddressSelect _ _ _ _ := 1;
  ValidObjsGetBlock _ _ := Some 3%positive;
  ValidObjsGetTx _ _ := None;
  ValidObjsInsert d _ := (false, d);
  ProcessQSelectAndDelete d _ := d;
  ProcessQEnqueueValid d _ _ _ := d;
  ProcessQUpdateObj d _ _ := d;
  ProcessQUpdateSubsequentBlockStatus d _ := (false, d);
  ProcessQPruneLevel d _ := d;
  ProcessQDone d _ := d;
  InitBlockScan d := d;
  TxEnqueueValidate d _ := d;
  WaitForBlockTxValidation d := d;
  TxValidate d _ _ := (false, CC_TYPE_TXPAY, d) |}.

#[export] Program Instance demo_spec : BlockDbSpec db.
Solve All Obligations with done.

Definition tx (s : Z) : list Z := le_bytes 4 60 ++ le_bytes 4 CC_TAG_TX ++ s :: replicate 51 0.

Definition block (lvl w : Z) (txs : list Z) (prior : option ptr) : BlockObj :=
  mkBlock (WireData (demo_block lvl w prior)) txs (auxp (demo_block lvl w prior)) prior.

(** A genesis block, and a block with two transactions that waits to be validated. *)
Definition heap0 : heap :=
  list_to_map [(3%positive, block 0 0 [] None); (4%positive, block 1 1 (tx 7 ++ tx 8) None)].
Definition chain0 : chain db := mkChain heap0 ∅ (Some 3%positive) None 0 0 0 0 0 0 false 0 false.
Definition node0 : node db := mkNode chain0 ∅ 0 0 0.
Definition cf : config :=
  mkConfig false false 10 1000 1 (0, 0) false false false false (fun _ _ => no_faults) [].

Definition is_ret_code (r : Z) (m : outcome (Z * node db)) : bool :=
  match m with Ret (x, _) => x =? r | _ => false end.

Example accepts_distinct : is_ret_code 0 (BlockValidate cf node0 4) = true.
Proof. vm_compute. reflexivity. Qed.

(** The same block with the same transaction twice is refused. *)
Definition heap_dup : heap :=
  list_to_map [(3%positive, block 0 0 [] None); (4%positive, block 1 1 (tx 7 ++ tx 7) None)].
Example refuses_repeated : is_ret_code 1 (BlockValidate cf (set_heap node0 heap_dup) 4) = true.
Proof. vm_compute. reflexivity. Qed.
End Demo.

(** ** Witnesses *)

Import Demo.

Definition n1 : node db :=
  match find_prior node0 4 (block 1 1 (tx 7 ++ tx 8) None) with Ret (_, n) => n | Throw _ => node0 end.
Definition n2 : node db := match BlockValidate cf node0 4 with Ret (_, n) => n | Throw _ => node0 end.

Lemma demo_env : env_ok (serials_env cf n1) (Some 3%positive) [3%positive].
Proof.
  split; [done|]. exists (block 0 0 [] None). split; [vm_compute; reflexivity|].
  apply (path_end _ _ _ (block 0 0 [] None)); [vm_compute; reflexivity|done].
Qed.

Lemma demo_table : table_ok (n_temp node0).
Proof. intros s b l Hl. cbn in Hl. by rewrite lookup_empty in Hl. Qed.

(** C4. A block that validates has a signature and witness order that pass and an authorised witness, and its transactions fill it, with distinct serial numbers that no indelible block and no block of its chain has spent and that are now pending. *)
Theorem BlockValidate_sound {D : Type} `{!BlockDb D} `{!BlockDbSpec D} {C : TxCodec} {H : Hashes} {S : Signatures}
    cf (n : node D) n1 p b prior path n' :
  cf_test_mal cf = false -> n_heap n !! p = Some b -> find_prior n p b = Ret (Some prior, n1) ->
  table_ok (n_temp n) -> env_ok (serials_env cf n1) (Some prior) path -> path_ok path ->
  BlockValidate cf n p = Ret (0, n') ->
  check_signer n1 p = Ret (false, n1) /\
  exists pb pa ss, n_heap n1 !! prior = Some pb /\ auxp pb = Some pa /\
    witness (WireData b) < next_nwitnesses (blockchain_params pa) /\
    indexed cf (timestamp (WireData pb)) (TxData b) (InitBlockScan (n_db n1)) 0 ss /\ NoDup ss /\
    (forall s, s ∈ ss -> (s ∉ persistent (n_db n)) /\ (forall q, q ∈ path -> n_temp n !! (s, Zpos q) = None) /\
       n_temp n' !! (s, TEMP_SERIALS_PROCESS_BLOCKP) = Some 0) /\
    (forall s q, q <> TEMP_SERIALS_PROCESS_BLOCKP -> n_temp n' !! (s, q) = n_temp n !! (s, q)) /\
    persistent (n_db n') = persistent (n_db n).
Proof.
  intros Hm Hb Hfp Ht He Hp Hv. destruct (find_prior_temp _ _ _ _ _ Hfp) as (_ & Edb & _).
  destruct (BlockValidate_accepted _ _ _ _ _ _ _ _ Hm Hb Hfp Ht He Hp Hv) as ((ss & Ha) & Hcs & pb & pa & Hpb & Hpa & Hw).
  split; [done|]. exists pb, pa, ss. destruct Ha as [(b' & pb' & Hb' & Hpb' & Hix) Hnd Hun Hpend Hoth _ _ Hper _].
  simplify_eq. rewrite Edb in *. split_and!; try done. intros s Hs. destruct (Hun s Hs). split_and!; [done|done|by apply Hpend].
Qed.

Lemma BlockValidate_sound_witness :
  check_signer n1 4 = Ret (false, n1) /\
  exists pb pa ss, n_heap n1 !! 3%positive = Some pb /\ auxp pb = Some pa /\
    witness (WireData (block 1 1 (tx 7 ++ tx 8) None)) < next_nwitnesses (blockchain_params pa) /\
    indexed cf (timestamp (WireData pb)) (TxData (block 1 1 (tx 7 ++ tx 8) None)) (InitBlockScan (n_db n1)) 0 ss /\ NoDup ss /\
    (forall s, s ∈ ss -> (s ∉ persistent (n_db node0)) /\ (forall q, q ∈ [3%positive] -> n_temp node0 !! (s, Zpos q) = None) /\
       n_temp n2 !! (s, TEMP_SERIALS_PROCESS_BLOCKP) = Some 0) /\
    (forall s q, q <> TEMP_SERIALS_PROCESS_BLOCKP -> n_temp n2 !! (s, q) = n_temp node0 !! (s, q)) /\
    persistent (n_db n2) = persistent (n_db node0).
Proof.
  apply (BlockValidate_sound cf node0 n1 4 (block 1 1 (tx 7 ++ tx 8) None) 3 [3%positive] n2).
  - done.
  - vm_compute. reflexivity.
  - vm_compute. reflexivity.
  - apply demo_table.
  - apply demo_env.
  - by repeat constructor.
  - vm_compute. reflexivity.
Defined.

Lemma BlockValidate_terminates_witness : BlockValidate cf node0 4 <> Throw FuelOut.
Proof.
  apply (BlockValidate_terminates cf node0 4).
  - apply demo_table.
  - intros b prior m Hb Hfp. assert (b = block 1 1 (tx 7 ++ tx 8) None) as -> by (vm_compute in Hb; vm_compute; congruence).
    assert (Ret (Some 3%positive, n1) = Ret (Some prior, m)) as E.
    { rewrite <- Hfp. vm_compute. reflexivity. }
    injection E as <- <-. exists [3%positive]. split; [apply demo_env|by repeat constructor].
Defined.

(** A block of level 5 on the genesis block, with no signature. *)
Definition bad_level_block : BlockObj := block 5 1 [] None.
Definition bad_level_node : node db :=
  set_heap node0 (list_to_map [(3%positive, block 0 0 [] None); (4%positive, bad_level_block)]).
Definition bad_level_n1 : node db :=
  match find_prior bad_level_node 4 bad_level_block with Ret (_, n) => n | Throw _ => node0 end.
Definition the_block (n : node db) (p : ptr) : BlockObj := default bad_level_block (n_heap n !! p).
Definition the_aux (b : BlockObj) : BlockAux := default (mkAux [] [] 0 0 false false zero_params 0 zero_wit) (auxp b).

Lemma unsigned_bad_level_is_fatal_witness :
  exists n', BlockValidate cf bad_level_node 4 = Ret (-1, n') /\ m_have_fatal_error (n_chain n') = true.
Proof.
  apply (unsigned_bad_level_is_fatal cf bad_level_node 4 bad_level_block (the_aux bad_level_block) bad_level_n1
    (the_block bad_level_n1 4) (the_aux (the_block bad_level_n1 4)) 3 (block 0 0 [] None) (the_aux (block 0 0 [] None)) 1);
    vm_compute; (reflexivity || congruence || (split; congruence)).
Defined.

(** A parser that finds an exchange request with unreadable data. *)
Definition xreq_codec : TxCodec := {|
  tx_from_wire _ _ := Some (mkTxPay CC_TYPE_XCX_SIMPLE_BUY 0 0 [] [] 0 (replicate 8 zero_in)); FromWire _ _ := None |}.

Lemma malformed_xreq_null_access_witness :
  parse_tx (C := xreq_codec) (∅ : db) 0 (tx 7) 60 = Throw BadAccess.
Proof.
  apply (malformed_xreq_null_access (C := xreq_codec) _ _ _ _ (mkTxPay CC_TYPE_XCX_SIMPLE_BUY 0 0 [] [] 0 (replicate 8 zero_in)));
    reflexivity.
Defined.
