(* ===== verification/Ledger.v ===== *)
(** * No double spend

    The node over time: blocks are validated and accepted, become indelible one after
    the other, and old rows of the table of temporary serial numbers are pruned.  The
    steps are those of processblock.cpp and blockchain.cpp; what the rest of the node
    does between them is a step that leaves blocks, rows and spent serial numbers alone.
    The invariant says that on every chain that ends in the last indelible block, no
    serial number is spent twice, nor one that an indelible block has spent. *)
From S2P Require Import Prelude Bigint Encode AlphaCode Amounts Block Chain Objects Serials Txs Validate.
From stdpp Require Import gmap.

Local Open Scope Z_scope.
Local Open Scope cc_scope.

(** ** Paths *)

(** Two heaps that agree on where the blocks of a set are in the chain. *)
Definition same_place (b b' : BlockObj) : Prop := WireData b' = WireData b /\ priorp b' = priorp b.
Definition agree_on (X : gset ptr) (h h' : heap) : Prop :=
  forall p b, p ∈ X -> h !! p = Some b -> exists b', h' !! p = Some b' /\ same_place b b'.

(** A set of blocks that is closed under going to the parent above level [lvl]. *)
Definition closed (X : gset ptr) (h : heap) (lvl : Z) : Prop :=
  forall p, p ∈ X -> exists b, h !! p = Some b /\
    (lvl < level (WireData b) -> exists q, priorp b = Some q /\ q ∈ X).

Lemma path_closed X h lvl p l : closed X h lvl -> p ∈ X -> delible_path h lvl (Some p) l -> Forall (.∈ X) l.
Proof.
  intros Hc Hp H. remember (Some p) as top eqn:E. revert p Hp E.
  induction H as [|p b Hb Hl|p b l Hb Hl Hpath IH]; intros x Hx E; [constructor| |]; injection E as ->.
  - by repeat constructor.
  - constructor; [done|]. destruct (Hc x Hx) as (b' & Hb' & Hq). rewrite Hb in Hb'. injection Hb' as <-.
    destruct (Hq Hl) as (q & Hq' & Hqx). by apply (IH q).
Qed.

Lemma path_agree X h h' lvl p l :
  closed X h lvl -> agree_on X h h' -> p ∈ X -> delible_path h lvl (Some p) l -> delible_path h' lvl (Some p) l.
Proof.
  intros Hc Ha Hp H. remember (Some p) as top eqn:E. revert p Hp E.
  induction H as [|p b Hb Hl|p b l Hb Hl Hpath IH]; intros x Hx E; [done| |]; injection E as ->;
    destruct (Ha x b Hx Hb) as (b' & Hb' & Hw & Hpr).
  - apply (path_end _ _ _ b'); [done|]. by rewrite Hw.
  - apply (path_step _ _ _ b'); [done|by rewrite Hw|].
    destruct (Hc x Hx) as (b2 & Hb2 & Hq). rewrite Hb in Hb2. injection Hb2 as <-.
    destruct (Hq Hl) as (q & Hq' & Hqx). unfold GetPriorBlock in *. rewrite Hpr. rewrite Hq' in *. by apply (IH q).
Qed.

Lemma closed_agree X h h' lvl lvl' : lvl <= lvl' -> closed X h lvl -> agree_on X h h' -> closed X h' lvl'.
Proof.
  intros Hle Hc Ha p Hp. destruct (Hc p Hp) as (b & Hb & Hq). destruct (Ha p b Hp Hb) as (b' & Hb' & Hw & Hpr).
  exists b'. split; [done|]. rewrite Hw, Hpr. intros Hl. apply Hq. lia.
Qed.

(** Raising the level cuts a path off earlier. *)
Lemma path_raise h lvl lvl' top l :
  lvl <= lvl' -> delible_path h lvl top l -> exists l1 l2, l = l1 ++ l2 /\ delible_path h lvl' top l1.
Proof.
  intros Hle. induction 1 as [|p b Hb Hl|p b l Hb Hl Hp (l1 & l2 & -> & IH)].
  - exists [], []. split; [done|constructor].
  - exists [p], []. split; [done|]. apply (path_end _ _ _ b); [done|lia].
  - destruct (Z.le_gt_cases (level (WireData b)) lvl').
    + exists [p], (l1 ++ l2). split; [done|]. by apply (path_end _ _ _ b).
    + exists (p :: l1), l2. split; [done|]. by apply (path_step _ _ _ b).
Qed.

(** A path down to a block [e], seen from below [e]. *)
Lemma path_extend h lvl lvl' top l e be q bq :
  lvl < lvl' -> delible_path h lvl' top l -> last l = Some e ->
  h !! e = Some be -> level (WireData be) = lvl' -> priorp be = Some q ->
  h !! q = Some bq -> level (WireData bq) <= lvl ->
  delible_path h lvl top (l ++ [q]).
Proof.
  intros Hlt H. induction H as [|p b Hb Hl|p b l Hb Hl Hp IH]; intros Hlast He Hle Hpe Hq Hlq; [done| |].
  - injection Hlast as ->. rewrite Hb in He. injection He as ->. apply (path_step _ _ _ be); [done|lia|].
    unfold GetPriorBlock. rewrite Hpe. by apply (path_end _ _ _ bq).
  - apply (path_step _ _ _ b); [done|lia|]. apply IH; try done.
    destruct l; [|done]. inversion Hp as [Hn| |]. exfalso.
    injection Hlast as ->. rewrite Hb in He. injection He as ->. lia.
Qed.

(** ** States and steps *)

Section ledger.
Context {D : Type} `{!ChainDb D} `{!BlockDb D} `{!BlockDbSpec D} {C : TxCodec} {H : Hashes} {S : Signatures} {B : BigOps}.

(** A node, with the serial numbers of the blocks it has accepted, and those that
    indelible blocks have spent, newest first. *)
Record ledger := mkLedger {
  lg_node : node D;
  lg_serials : gmap ptr (list serial);
  lg_spent : list serial
}.

Definition last_level (n : node D) : option Z :=
  level ∘ WireData <$> (m_last_indelible_block (n_chain n) ≫= (n_heap n !!.)).

Definition spent_table (n : node D) : gset serial := persistent (n_db n).

Inductive step : ledger -> ledger -> Prop :=
(** A block is validated, and its serial numbers are recorded as those of the block. *)
| step_accept cf n g sp p b prior pb n1 n2 t path ss :
    cf_test_mal cf = false -> n_heap n !! p = Some b -> 2 < Zpos p < 2 ^ 64 -> g !! p = None ->
    find_prior n p b = Ret (Some prior, n1) -> is_Some (g !! prior) -> n_heap n1 !! prior = Some pb ->
    env_ok (serials_env cf n1) (Some prior) path ->
    BlockValidate cf n p = Ret (0, n2) ->
    indexed cf (timestamp (WireData pb)) (TxData b) (InitBlockScan (n_db n1)) 0 ss ->
    TempSerialnumUpdate (cf_update_fault cf) (n_temp n2) TEMP_SERIALS_PROCESS_BLOCKP (Zpos p) (level (WireData b)) = (0, t) ->
    step (mkLedger n g sp) (mkLedger (set_temp n2 t) (<[p := ss]> g) sp)
(** A child of the last indelible block becomes indelible; [indexed] are the serial
    numbers that are entered into the table of spent ones. *)
| step_commit n g sp p b ss n' indexed lvl :
    g !! p = Some ss -> n_heap n !! p = Some b -> priorp b = m_last_indelible_block (n_chain n) ->
    last_level n = Some lvl -> lvl < level (WireData b) ->
    m_last_indelible_block (n_chain n') = Some p -> agree_on (dom g) (n_heap n) (n_heap n') ->
    n_temp n' = n_temp n -> spent_table n' = spent_table n ∪ indexed ->
    step (mkLedger n g sp) (mkLedger n' g (filter (.∈ indexed) ss ++ sp))
| step_prune n g sp fault lvl lvl' rc t :
    last_level n = Some lvl -> lvl' <= lvl -> TempSerialnumPruneLevel fault (n_temp n) lvl' = (rc, t) ->
    step (mkLedger n g sp) (mkLedger (set_temp n t) g sp)
(** Anything else: blocks arrive, are rejected, or are validated by the witness; queues
    and other tables change. *)
| step_other n g sp n' :
    m_last_indelible_block (n_chain n') = m_last_indelible_block (n_chain n) ->
    agree_on (dom g) (n_heap n) (n_heap n') -> table_ok (n_temp n') ->
    (forall s p, p ∈ dom g -> n_temp n' !! (s, Zpos p) = n_temp n !! (s, Zpos p)) ->
    spent_table n ⊆ spent_table n' ->
    step (mkLedger n g sp) (mkLedger n' g sp).

(** Reachable from a node whose last indelible block is the only one accepted. *)
Definition initial (L : ledger) : Prop :=
  exists p b, m_last_indelible_block (n_chain (lg_node L)) = Some p /\ (2 < p)%positive /\
    n_heap (lg_node L) !! p = Some b /\ lg_serials L = {[ p := [] ]} /\ lg_spent L = [] /\ table_ok (n_temp (lg_node L)).

(** ** Invariant *)

(** The serial numbers of the blocks of a path above the last indelible block. *)
Definition path_serials (g : gmap ptr (list serial)) (path : list ptr) : list serial :=
  concat (map (fun p => default [] (g !! p)) path).

Record ledger_ok (L : ledger) (last : ptr) (lvl : Z) : Prop := {
  lo_last : m_last_indelible_block (n_chain (lg_node L)) = Some last;
  lo_level : last_level (lg_node L) = Some lvl;
  lo_last_in : last ∈ dom (lg_serials L);
  lo_table : table_ok (n_temp (lg_node L));
  lo_ptrs p : p ∈ dom (lg_serials L) -> (2 < p)%positive;
  lo_closed : closed (dom (lg_serials L)) (n_heap (lg_node L)) lvl;
  lo_rows p ss b s : lg_serials L !! p = Some ss -> n_heap (lg_node L) !! p = Some b -> lvl < level (WireData b) ->
    s ∈ ss -> n_temp (lg_node L) !! (s, Zpos p) = Some (level (WireData b));
  lo_spent s : s ∈ lg_spent L -> s ∈ spent_table (lg_node L);
  lo_spent_once : NoDup (lg_spent L);
  lo_paths p path : p ∈ dom (lg_serials L) -> delible_path (n_heap (lg_node L)) lvl (Some p) (path ++ [last]) ->
    NoDup (path_serials (lg_serials L) path ++ lg_spent L)
}.

Lemma last_level_deref n p : m_last_indelible_block (n_chain n) = Some p ->
  forall lvl, last_level n = Some lvl <-> exists b, n_heap n !! p = Some b /\ level (WireData b) = lvl.
Proof.
  intros Hp lvl. unfold last_level. rewrite Hp. cbn. destruct (n_heap n !! p) as [b|]; cbn.
  - split; [intros [= <-]; by exists b|by intros (b' & [= <-] & <-)].
  - split; [done|by intros (? & ? & _)].
Qed.

Lemma initial_ok L : initial L -> exists last lvl, ledger_ok L last lvl.
Proof.
  destruct L as [n g sp]. intros (p & b & Hl & Hp & Hb & Hg & Hs & Ht). cbn in *. subst.
  exists p, (level (WireData b)).
  assert (Hll : last_level n = Some (level (WireData b))) by (apply (last_level_deref n p Hl); by exists b).
  constructor; cbn; try done.
  - set_solver.
  - intros q Hq. rewrite dom_singleton in Hq. apply elem_of_singleton in Hq. by subst.
  - intros q Hq. rewrite dom_singleton in Hq. apply elem_of_singleton in Hq. subst. exists b. split; [done|]. lia.
  - intros q ss b' s Hq. apply lookup_singleton_Some in Hq as [<- <-]. intros _ _ Hin. by apply not_elem_of_nil in Hin.
  - intros s Hin. by apply not_elem_of_nil in Hin.
  - constructor.
  - intros q path Hq Hpath. rewrite dom_singleton in Hq. apply elem_of_singleton in Hq as ->.
    assert (E : path ++ [p] = [p]).
    { eapply path_det; [exact Hpath|]. by apply (path_end _ _ _ b). }
    destruct path as [|? path]; [constructor|]. injection E as _ E. by destruct path.
Qed.

(** Nothing that matters to the invariant changes. *)
Lemma ok_transfer n g sp n' last lvl :
  ledger_ok (mkLedger n g sp) last lvl ->
  m_last_indelible_block (n_chain n') = m_last_indelible_block (n_chain n) ->
  agree_on (dom g) (n_heap n) (n_heap n') -> table_ok (n_temp n') ->
  (forall s p b, p ∈ dom g -> n_heap n !! p = Some b -> lvl < level (WireData b) ->
     n_temp n !! (s, Zpos p) = Some (level (WireData b)) -> n_temp n' !! (s, Zpos p) = Some (level (WireData b))) ->
  spent_table n ⊆ spent_table n' ->
  ledger_ok (mkLedger n' g sp) last lvl.
Proof.
  intros [L1 L2 L3 L4 L5 L6 L7 L8 L9 L10] Hlast Ha Ht Hk Hs. cbn in *.
  assert (Hback : forall p b', p ∈ dom g -> n_heap n' !! p = Some b' -> exists b, n_heap n !! p = Some b /\ same_place b b').
  { intros p b' Hp Hb'. destruct (L6 p Hp) as (b & Hb & _). destruct (Ha p b Hp Hb) as (b2 & Hb2 & Hsp).
    rewrite Hb' in Hb2. injection Hb2 as <-. by exists b. }
  assert (Ha' : agree_on (dom g) (n_heap n') (n_heap n)).
  { intros p b' Hp Hb'. destruct (Hback p b' Hp Hb') as (b & Hb & Hw & Hpr). by exists b. }
  assert (Hcl : closed (dom g) (n_heap n') lvl) by (eapply closed_agree; [|exact L6|exact Ha]; done).
  constructor; cbn; try done.
  - by rewrite Hlast.
  - apply (last_level_deref n' last); [by rewrite Hlast|].
    apply (last_level_deref n last L1) in L2 as (b & Hb & <-). destruct (Ha last b L3 Hb) as (b' & Hb' & Hw & _).
    exists b'. by rewrite Hw.
  - intros p ss b' s Hg Hb' Hl Hin. assert (Hp : p ∈ dom g) by (by apply elem_of_dom; exists ss).
    destruct (Hback p b' Hp Hb') as (b & Hb & Hw & _). rewrite Hw in *. apply (Hk s p b); try done. by apply (L7 p ss b s).
  - intros s Hin. apply Hs. by apply L8.
  - intros p path Hp Hpath. apply (L10 p path Hp). eapply path_agree; [exact Hcl|exact Ha'|done|done].
Qed.

Lemma indexed_pos cf bt data db pos ss : indexed cf bt data db pos ss -> pos <= Z.of_nat (length data).
Proof. destruct 1; lia. Qed.

Lemma indexed_det cf bt data db pos ss1 ss2 :
  indexed cf bt data db pos ss1 -> indexed cf bt data db pos ss2 -> ss1 = ss2.
Proof.
  intros H1. revert ss2. induction H1 as [|db pos txsize tx obj ss Hlt Hr Hp He _ IH]; intros ss2 H2;
    inversion H2 as [|db' pos' sz2 tx2 obj2 ss' Hlt2 Hr2 Hp2 He2 Hix]; subst; try lia; [done|].
  rewrite Hr in Hr2. injection Hr2 as <-. rewrite Hp in Hp2. injection Hp2 as <-. rewrite He in He2. injection He2 as <-.
  by rewrite (IH _ Hix).
Qed.

Lemma find_prior_heap n p b prior n1 : n_heap n !! p = Some b -> find_prior n p b = Ret (Some prior, n1) ->
  (forall q, q <> p -> n_heap n1 !! q = n_heap n !! q) /\
  exists b', n_heap n1 !! p = Some b' /\ WireData b' = WireData b /\ priorp b' = Some prior.
Proof.
  intros Hb. unfold find_prior. destruct (GetPriorBlock b) as [q|] eqn:Eq.
  { intros [= <- <-]. split; [done|]. by exists b. }
  destruct (ValidObjsGetBlock _ _) as [q|]; [|done].
  destruct (ChainToPriorBlock (n_heap n) p q) as [h|] eqn:E; [|done]. intros [= <- <-].
  change (n_heap (set_heap n h)) with h.
  unfold ChainToPriorBlock in E. rewrite Hb in E. destruct (n_heap n !! q) as [pb|]; [|done].
  destruct (AuxPtr b) as [a|]; [|done]. destruct (AuxPtr pb) as [pa|]; [|done]. cbn [outcome_bind] in E.
  destruct (witness (WireData b) <? MAX_NWITNESSES); [|done].
  match type of E with (if ?c then _ else _) = _ => destruct c; [|done] end.
  match type of E with (if ?c then _ else _) = _ => destruct c; [|done] end.
  injection E as <-. split.
  - intros x Hx. by rewrite lookup_insert_ne.
  - eexists. split; [apply lookup_insert_eq|done].
Qed.

Lemma elem_of_path_serials g path s :
  s ∈ path_serials g path <-> exists p, p ∈ path /\ exists ss, g !! p = Some ss /\ s ∈ ss.
Proof.
  unfold path_serials. rewrite list_elem_of_In, in_concat. split.
  - intros (l & Hl & Hs). apply in_map_iff in Hl as (p & <- & Hp). exists p. split; [by apply list_elem_of_In|].
    destruct (g !! p) as [ss|]; [|done]. exists ss. split; [done|]. by apply list_elem_of_In.
  - intros (p & Hp & ss & Hg & Hs). exists ss. split; [|by apply list_elem_of_In].
    apply in_map_iff. exists p. rewrite Hg. split; [done|]. by apply list_elem_of_In.
Qed.

Lemma path_serials_insert g p ss path : p ∉ path -> path_serials (<[p := ss]> g) path = path_serials g path.
Proof.
  intros Hp. unfold path_serials. f_equal. apply map_ext_in. intros q Hq%list_elem_of_In.
  rewrite lookup_insert_ne; [done|]. by intros ->.
Qed.

(** Every block of a path but the last is above the level. *)
Lemma path_above h lvl top l p : delible_path h lvl top l -> forall e, top <> None -> l = e ++ [p] ->
  Forall (fun q => exists b, h !! q = Some b /\ lvl < level (WireData b)) e.
Proof.
  induction 1 as [|q b Hb Hl|q b l Hb Hl Hp IH]; intros e Ht E; [done| |].
  - destruct e as [|? e]; [constructor|]. injection E as _ E. by destruct e.
  - destruct e as [|x e]; [constructor|]. injection E as <- ->. constructor; [by exists b|].
    apply (IH e); [|done]. intros Hn. rewrite Hn in Hp. inversion Hp as [E'| |]. by destruct e.
Qed.

Lemma agree_back X h h' lvl : closed X h lvl -> agree_on X h h' -> agree_on X h' h.
Proof.
  intros Hc Ha p b' Hp Hb'. destruct (Hc p Hp) as (b & Hb & _). destruct (Ha p b Hp Hb) as (b2 & Hb2 & Hw & Hpr).
  rewrite Hb' in Hb2. injection Hb2 as <-. exists b. split; [done|]. by split.
Qed.

Lemma env_path cf n last lvl prior path :
  m_last_indelible_block (n_chain n) = Some last -> last_level n = Some lvl -> env_ok (serials_env cf n) prior path ->
  delible_path (n_heap n) lvl prior path.
Proof.
  intros Hl Hll (_ & lb & Hlb & Hp). cbn in Hlb, Hp. unfold last_level in Hll. rewrite Hlb in Hll.
  injection Hll as <-. exact Hp.
Qed.

(** The serial numbers of an accepted block are new to its chain. *)
Lemma accept_paths cf n g sp last lvl p prior n1 n2 path ss :
  ledger_ok (mkLedger n g sp) last lvl -> agree_on (dom g) (n_heap n1) (n_heap n) -> closed (dom g) (n_heap n1) lvl ->
  n_db n1 = n_db n -> prior ∈ dom g -> block_accepted cf n n1 n2 p prior (path ++ [last]) ss ->
  delible_path (n_heap n1) lvl (Some prior) (path ++ [last]) ->
  NoDup (ss ++ path_serials g path ++ sp).
Proof.
  intros L Ha Hc Hdb Hpr [_ Hnd Hun _ _ _ _ _ _] Hpath.
  pose proof (path_agree _ _ _ _ _ _ Hc Ha Hpr Hpath) as Hpath'.
  apply NoDup_app. split_and!; [done| |by apply (lo_paths _ _ _ L prior)].
  intros s Hs Hin. destruct (Hun s Hs) as [H1 H2]. apply elem_of_app in Hin as [Hin|Hin].
  - apply elem_of_path_serials in Hin as (q & Hq & ssq & Hg & Hsq).
    pose proof (path_above _ _ _ _ _ Hpath' path ltac:(done) eq_refl) as Hab. rewrite Forall_forall in Hab.
    destruct (Hab q Hq) as (bq & Hbq & Hl).
    pose proof (lo_rows _ _ _ L q ssq bq s Hg Hbq Hl Hsq) as Hrow. cbn in Hrow.
    rewrite H2 in Hrow; [done|]. apply elem_of_app. by left.
  - apply (lo_spent _ _ _ L) in Hin. unfold spent_table in Hin. cbn in Hin. by rewrite Hdb in H1.
Qed.

Lemma path_inv h lvl p b path last :
  delible_path h lvl (Some p) (path ++ [last]) -> p <> last -> h !! p = Some b ->
  exists path', path = p :: path' /\ delible_path h lvl (priorp b) (path' ++ [last]).
Proof.
  intros Hp Hne Hb. remember (path ++ [last]) as l eqn:El. inversion Hp as [|q bq Hbq Hl|q bq l' Hbq Hl Hrest]; subst q.
  - destruct path as [|? [|? ?]]; simplify_eq/=; congruence.
  - destruct path as [|x path]; cbn in El; [congruence|]. assert (x = p /\ l' = path ++ [last]) as [-> ->] by (split; congruence). rewrite Hb in Hbq. injection Hbq as <-. by exists path.
Qed.

(** The chain as an accepted block finds it. *)
Record accept_setup (n n1 : node D) (g : gmap ptr (list serial)) (last : ptr) (lvl : Z) (p prior : ptr) (b b' : BlockObj)
    (path : list ptr) : Prop := {
  as_fresh : p ∉ dom g;
  as_back : agree_on (dom g) (n_heap n1) (n_heap n);
  as_closed : closed (dom g) (n_heap n1) lvl;
  as_block : n_heap n1 !! p = Some b';
  as_wire : WireData b' = WireData b;
  as_prior : priorp b' = Some prior;
  as_other q : q <> p -> n_heap n1 !! q = n_heap n !! q;
  as_level : last_level n1 = Some lvl;
  as_path : delible_path (n_heap n1) lvl (Some prior) path;
  as_path_ok : path_ok path
}.

Lemma accept_setup_ok cf n g sp p b prior n1 path last lvl :
  ledger_ok (mkLedger n g sp) last lvl -> n_heap n !! p = Some b -> g !! p = None ->
  find_prior n p b = Ret (Some prior, n1) -> prior ∈ dom g -> env_ok (serials_env cf n1) (Some prior) path ->
  exists b', accept_setup n n1 g last lvl p prior b b' path.
Proof.
  intros L Hb Hg Hfp Hpr He. assert (Hpd : p ∉ dom g) by by apply not_elem_of_dom.
  destruct (find_prior_temp _ _ _ _ _ Hfp) as (_ & _ & El1).
  destruct (find_prior_heap _ _ _ _ _ Hb Hfp) as (Hother & b' & Hb' & Hw & Hpp). exists b'.
  assert (Ha : agree_on (dom g) (n_heap n) (n_heap n1)).
  { intros q bq Hq Hbq. exists bq. rewrite Hother; [done|]. by intros ->. }
  assert (Hc1 : closed (dom g) (n_heap n1) lvl) by (eapply closed_agree; [|exact (lo_closed _ _ _ L)|exact Ha]; done).
  pose proof (lo_last _ _ _ L) as Hlast. cbn in Hlast.
  assert (Hll1 : last_level n1 = Some lvl).
  { apply (last_level_deref n1 last); [by rewrite El1|]. pose proof (lo_level _ _ _ L) as Hll. cbn in Hll.
    apply (last_level_deref n last Hlast) in Hll as (bl & Hbl & <-).
    destruct (Ha last bl (lo_last_in _ _ _ L) Hbl) as (bl' & Hbl' & Hwl & _). exists bl'. by rewrite Hwl. }
  pose proof (env_path cf n1 last lvl _ _ ltac:(by rewrite El1) Hll1 He) as Hpath.
  constructor; try done; [by eapply agree_back; [apply (lo_closed _ _ _ L)|]|].
  assert (Hin : Forall (.∈ dom g) path) by (by eapply path_closed).
  eapply Forall_impl; [exact Hin|]. intros q Hq. by apply (lo_ptrs _ _ _ L).
Qed.

(** The rows after the pending ones have become those of the block. *)
Lemma accept_rows cf n g sp last lvl n1 n2 p prior b path ss t fault :
  ledger_ok (mkLedger n g sp) last lvl -> p ∉ dom g -> 2 < Zpos p < 2 ^ 64 ->
  block_accepted cf n n1 n2 p prior path ss ->
  TempSerialnumUpdate fault (n_temp n2) TEMP_SERIALS_PROCESS_BLOCKP (Zpos p) (level (WireData b)) = (0, t) ->
  table_ok t /\ (forall s, s ∈ ss -> t !! (s, Zpos p) = Some (level (WireData b))) /\
  (forall s q, q ∈ dom g -> t !! (s, Zpos q) = n_temp n !! (s, Zpos q)).
Proof.
  intros L Hpd Hp [_ _ _ Hpend Hoth _ _ _ Htab] Hup.
  apply TempSerialnumUpdate_rc in Hup as [[_ Hup]|[? _]]; [|done].
  apply TempSerialnumUpdate_lookup in Hup as [_ Hup]; [|unfold TEMP_SERIALS_PROCESS_BLOCKP; lia].
  split_and!.
  - intros s q l Hq. rewrite Hup in Hq. destruct (decide _) as [[-> _]|_]; [split; [unfold in_word; lia|done]|].
    destruct (decide _); [done|]. by apply (Htab s q l).
  - intros s Hs. rewrite Hup, decide_True; [done|]. split; [done|]. by apply Hpend.
  - intros s q Hq. pose proof (lo_ptrs _ _ _ L q Hq) as Hq2. rewrite Hup, decide_False, decide_False.
    + apply Hoth. unfold TEMP_SERIALS_PROCESS_BLOCKP. lia.
    + unfold TEMP_SERIALS_PROCESS_BLOCKP. intros [? _]. lia.
    + intros [[= ->] _]. done.
Qed.

(** Paths after a block has been added. *)
Lemma accept_path_serials cf n g sp last lvl n1 n2 p prior b b' path ss x path' :
  ledger_ok (mkLedger n g sp) last lvl -> accept_setup n n1 g last lvl p prior b b' path -> n_db n1 = n_db n ->
  prior ∈ dom g -> block_accepted cf n n1 n2 p prior path ss -> x ∈ dom (<[p := ss]> g) ->
  delible_path (n_heap n1) lvl (Some x) (path' ++ [last]) ->
  NoDup (path_serials (<[p := ss]> g) path' ++ sp).
Proof.
  intros L [Hpd Hab Hc1 Hb' Hw Hpp Hother Hll1 Hpath Hpok] Edb1 Hpr Hacc Hx Hpx.
  assert (Hold : forall y e, y ∈ dom g -> delible_path (n_heap n1) lvl (Some y) (e ++ [last]) ->
    path_serials (<[p := ss]> g) e = path_serials g e).
  { intros y e Hy Hpy. apply path_serials_insert. intros Hpin. pose proof (path_closed _ _ _ _ _ Hc1 Hy Hpy) as Hall.
    rewrite Forall_forall in Hall. apply Hpd, Hall, elem_of_app. by left. }
  rewrite dom_insert in Hx. apply elem_of_union in Hx as [Hx|Hx].
  - apply elem_of_singleton in Hx as ->.
    destruct (path_inv _ _ _ _ _ _ Hpx ltac:(intros ->; apply Hpd, (lo_last_in _ _ _ L)) Hb') as (path2 & -> & Hrest).
    rewrite Hpp in Hrest. rewrite (path_det _ _ _ _ _ Hpath Hrest) in Hacc.
    pose proof (accept_paths cf n g sp last lvl p prior n1 n2 path2 ss L Hab Hc1 Edb1 Hpr Hacc Hrest) as Hnd.
    unfold path_serials. cbn [map concat]. rewrite lookup_insert_eq. cbn [default].
    fold (path_serials (<[p := ss]> g) path2). rewrite (Hold prior path2 Hpr Hrest). by rewrite <- app_assoc.
  - rewrite (Hold x path' Hx Hpx). apply (lo_paths _ _ _ L x); [done|]. by eapply path_agree.
Qed.

Lemma accept_closed n n1 g last lvl p prior b b' path ss :
  accept_setup n n1 g last lvl p prior b b' path -> prior ∈ dom g -> closed (dom (<[p := ss]> g)) (n_heap n1) lvl.
Proof.
  intros [Hpd Hab Hc1 Hb' Hw Hpp Hother Hll1 Hpath Hpok] Hpr q Hq. rewrite dom_insert in Hq.
  apply elem_of_union in Hq as [Hq|Hq].
  - apply elem_of_singleton in Hq as ->. exists b'. split; [done|]. intros _. exists prior. split; [done|].
    rewrite dom_insert. apply elem_of_union. by right.
  - destruct (Hc1 q Hq) as (bq & Hbq & Hx). exists bq. split; [done|]. intros Hl. destruct (Hx Hl) as (r & ? & ?).
    exists r. split; [done|]. rewrite dom_insert. apply elem_of_union. by right.
Qed.

Lemma accept_ok cf n g sp p b prior pb n1 n2 t path ss last lvl :
  ledger_ok (mkLedger n g sp) last lvl ->
  cf_test_mal cf = false -> n_heap n !! p = Some b -> 2 < Zpos p < 2 ^ 64 -> g !! p = None ->
  find_prior n p b = Ret (Some prior, n1) -> is_Some (g !! prior) -> n_heap n1 !! prior = Some pb ->
  env_ok (serials_env cf n1) (Some prior) path ->
  BlockValidate cf n p = Ret (0, n2) ->
  indexed cf (timestamp (WireData pb)) (TxData b) (InitBlockScan (n_db n1)) 0 ss ->
  TempSerialnumUpdate (cf_update_fault cf) (n_temp n2) TEMP_SERIALS_PROCESS_BLOCKP (Zpos p) (level (WireData b)) = (0, t) ->
  ledger_ok (mkLedger (set_temp n2 t) (<[p := ss]> g) sp) last lvl.
Proof.
  intros L Hm Hb Hp Hg Hfp Hpr Hpb He Hv Hix Hup. apply elem_of_dom in Hpr.
  destruct (find_prior_temp _ _ _ _ _ Hfp) as (Et1 & Edb1 & El1).
  destruct (accept_setup_ok cf n g sp p b prior n1 path last lvl L Hb Hg Hfp Hpr He) as (b' & Hset).
  destruct (BlockValidate_accepted cf n n1 p b prior path n2 Hm Hb Hfp (lo_table _ _ _ L) He (as_path_ok _ _ _ _ _ _ _ _ _ _ Hset) Hv)
    as ((ss' & Hacc) & _).
  assert (ss' = ss) as ->.
  { destruct (ba_txs _ _ _ _ _ _ _ _ Hacc) as (b2 & pb2 & Hb2 & Hpb2 & Hix2). simplify_eq. by eapply indexed_det. }
  pose proof Hset as [Hpd Hab Hc1 Hb' Hw Hpp Hother Hll1 Hpath Hpok].
  destruct (accept_rows cf n g sp last lvl n1 n2 p prior b path ss t _ L Hpd Hp Hacc Hup) as (Htab & Hnew & Hkeep).
  pose proof (ba_heap _ _ _ _ _ _ _ _ Hacc) as Hheap. pose proof (ba_indelible _ _ _ _ _ _ _ _ Hacc) as Hlst.
  constructor; cbn [lg_node lg_serials lg_spent];
    change (n_heap (set_temp n2 t)) with (n_heap n2); change (n_temp (set_temp n2 t)) with t; rewrite ?Hheap.
  - change (n_chain (set_temp n2 t)) with (n_chain n2). rewrite Hlst, El1. apply (lo_last _ _ _ L).
  - unfold last_level in *. change (n_heap (set_temp n2 t)) with (n_heap n2).
    change (n_chain (set_temp n2 t)) with (n_chain n2). by rewrite Hlst, Hheap.
  - rewrite dom_insert. apply elem_of_union. right. apply (lo_last_in _ _ _ L).
  - done.
  - intros q Hq. rewrite dom_insert in Hq. apply elem_of_union in Hq as [Hq%elem_of_singleton|Hq]; [subst; lia|].
    by apply (lo_ptrs _ _ _ L).
  - by eapply accept_closed.
  - intros q ssq bq s Hgq Hbq Hl Hs. destruct (decide (q = p)) as [->|Hne].
    + rewrite lookup_insert_eq in Hgq. simplify_eq. rewrite Hw. by apply Hnew.
    + rewrite lookup_insert_ne in Hgq by done. rewrite Hkeep by (apply elem_of_dom; by exists ssq).
      rewrite Hother in Hbq by done. by apply (lo_rows _ _ _ L q ssq bq s).
  - intros s Hs. apply (lo_spent _ _ _ L) in Hs. unfold spent_table in *. change (n_db (set_temp n2 t)) with (n_db n2).
    cbn in Hs. by rewrite (ba_persistent _ _ _ _ _ _ _ _ Hacc), Edb1.
  - apply (lo_spent_once _ _ _ L).
  - intros x path' Hx Hpx. by eapply accept_path_serials.
Qed.

Lemma path_serials_snoc g path p ss : g !! p = Some ss -> path_serials g (path ++ [p]) = path_serials g path ++ ss.
Proof. intros Hg. unfold path_serials. rewrite map_app, concat_app. cbn. by rewrite Hg, app_nil_r. Qed.

Lemma NoDup_filter_mid (X : gset serial) (l1 l2 l3 : list serial) :
  NoDup (l1 ++ l2 ++ l3) -> NoDup (l1 ++ filter (.∈ X) l2 ++ l3).
Proof.
  intros Hnd. eapply sublist_NoDup; [exact Hnd|].
  apply sublist_app; [done|]. apply sublist_app; [apply sublist_filter|done].
Qed.

Lemma commit_ok n g sp p b ss n' indexed last lvl :
  ledger_ok (mkLedger n g sp) last lvl ->
  g !! p = Some ss -> n_heap n !! p = Some b -> priorp b = m_last_indelible_block (n_chain n) -> lvl < level (WireData b) ->
  m_last_indelible_block (n_chain n') = Some p -> agree_on (dom g) (n_heap n) (n_heap n') ->
  n_temp n' = n_temp n -> spent_table n' = spent_table n ∪ indexed ->
  ledger_ok (mkLedger n' g (filter (.∈ indexed) ss ++ sp)) p (level (WireData b)).
Proof.
  intros L Hg Hb Hpp Hl Hlast' Ha Ht Hs. pose proof L as [L1 L2 L3 L4 L5 L6 L7 L8 L9 L10]. cbn in *. rewrite L1 in Hpp.
  assert (Hp : p ∈ dom g) by (apply elem_of_dom; by exists ss).
  apply (last_level_deref n last L1) in L2 as (bl & Hbl & Hll).
  assert (Hpath : forall x path, x ∈ dom g -> delible_path (n_heap n') (level (WireData b)) (Some x) (path ++ [p]) ->
    NoDup (path_serials g path ++ ss ++ sp)).
  { intros x path Hx Hpx.
    assert (Hc' : closed (dom g) (n_heap n') (level (WireData b))) by (eapply closed_agree; [|exact L6|exact Ha]; lia).
    pose proof (path_agree _ _ _ _ _ _ Hc' (agree_back _ _ _ _ L6 Ha) Hx Hpx) as Hold. clear Hpx. rename Hold into Hpx.
    apply (path_extend _ lvl _ _ _ p b last bl) in Hpx; try done; [|by apply last_snoc|lia].
    pose proof (L10 x _ Hx Hpx) as Hnd. by rewrite (path_serials_snoc g path p ss Hg), <- app_assoc in Hnd. }
  constructor; cbn; try done.
  - apply (last_level_deref n' p Hlast'). destruct (Ha p b Hp Hb) as (b' & Hb' & Hw & _). exists b'. by rewrite Hw.
  - by rewrite Ht.
  - eapply closed_agree; [|exact L6|exact Ha]. lia.
  - intros q ssq bq s Hgq Hbq Hlq Hin. rewrite Ht. assert (Hq : q ∈ dom g) by (apply elem_of_dom; by exists ssq).
    destruct (agree_back _ _ _ _ L6 Ha q bq Hq Hbq) as (bq' & Hbq' & Hw & _).
    rewrite <- Hw in *. apply (L7 q ssq bq' s); try done. lia.
  - intros s Hin. rewrite Hs. apply elem_of_app in Hin as [Hin|Hin].
    + apply list_elem_of_filter in Hin as [Hin _]. set_solver.
    + apply L8 in Hin. set_solver.
  - assert (Hp1 : NoDup (path_serials g [] ++ ss ++ sp)).
    { apply (Hpath p []); [done|]. destruct (Ha p b Hp Hb) as (b' & Hb' & Hw & _). apply (path_end _ _ _ b'); [done|]. by rewrite Hw. }
    by apply (NoDup_filter_mid indexed []) in Hp1.
  - intros x path Hx Hpx. by apply NoDup_filter_mid, (Hpath x).
Qed.

Lemma step_ok L L' last lvl : ledger_ok L last lvl -> step L L' -> exists last' lvl', ledger_ok L' last' lvl'.
Proof.
  intros HL Hstep. destruct Hstep as [cf n g sp p b prior pb n1 n2 t path ss|n g sp p b ss n' indexed lvl0 Hg Hb Hpp Hll Hlt|
    n g sp fault lvl0 lvl' rc t Hll Hle Hpr|n g sp n' Hlast Ha Ht Hk Hs].
  - exists last, lvl. by eapply accept_ok.
  - exists p, (level (WireData b)). pose proof (lo_level _ _ _ HL) as Hl. cbn in Hl. simplify_eq. by eapply commit_ok.
  - exists last, lvl. pose proof (lo_level _ _ _ HL) as Hl. cbn in Hl. simplify_eq.
    eapply ok_transfer; [exact HL|done|intros q bq Hq Hbq; by exists bq| | |done].
    + intros s q l Hq. cbn in Hq. apply (TempSerialnumPruneLevel_lookup _ _ _ _ _ s q l Hpr) in Hq. by apply (lo_table _ _ _ HL s q l).
    + intros s q bq Hq Hbq Hlq Hrow. cbn. apply (TempSerialnumPruneLevel_lookup _ _ _ _ _ s (Zpos q) _ Hpr); [done|]. right. lia.
  - exists last, lvl. eapply ok_transfer; try done. intros s q bq Hq _ _ Hrow. by rewrite Hk.
Qed.

Lemma reachable_ok L0 L : initial L0 -> rtc step L0 L -> exists last lvl, ledger_ok L last lvl.
Proof.
  intros H0 Hr. apply initial_ok in H0. induction Hr as [|L1 L2 L3 Hs _ IH]; [done|].
  apply IH. destruct H0 as (last & lvl & H0). by eapply step_ok.
Qed.

(** C1. In every reachable state: no two indelible blocks have spent the same serial number,
    and the blocks of a chain on top of the last indelible one spend serial numbers that
    are distinct from each other and from those. *)
Theorem no_double_spend L0 L p path last :
  initial L0 -> rtc step L0 L ->
  m_last_indelible_block (n_chain (lg_node L)) = Some last -> p ∈ dom (lg_serials L) ->
  (forall lvl, last_level (lg_node L) = Some lvl -> delible_path (n_heap (lg_node L)) lvl (Some p) (path ++ [last])) ->
  NoDup (path_serials (lg_serials L) path ++ lg_spent L) /\
  forall s, s ∈ lg_spent L -> s ∈ spent_table (lg_node L).
Proof.
  intros H0 Hr Hlast Hp Hpath. destruct (reachable_ok L0 L H0 Hr) as (last' & lvl & L1).
  pose proof (lo_last _ _ _ L1) as Hl. rewrite Hlast in Hl. injection Hl as <-.
  split; [|apply (lo_spent _ _ _ L1)]. apply (lo_paths _ _ _ L1 p); [done|]. by apply Hpath, (lo_level _ _ _ L1).
Qed.
End ledger.

(** ** A run: the block of [Validate.Demo] is accepted *)

Import Demo.

Definition t2 : temp_table := snd (TempSerialnumUpdate false (n_temp n2) TEMP_SERIALS_PROCESS_BLOCKP 4 1).

Definition ledger0 : ledger (D := db) := mkLedger node0 {[3%positive := []]} [].
Definition ledger1 : ledger (D := db) := mkLedger (set_temp n2 t2) (<[4%positive := [[7]; [8]]]> {[3%positive := []]}) [].

Lemma demo_initial : initial ledger0.
Proof.
  exists 3%positive, (block 0 0 [] None). split_and!; [done|lia|by vm_compute|done|done|].
  intros s b l Hl. cbn in Hl. by rewrite lookup_empty in Hl.
Qed.

Lemma demo_step : step ledger0 ledger1.
Proof.
  eapply (step_accept cf node0 _ _ 4 (block 1 1 (tx 7 ++ tx 8) None) 3 (block 0 0 [] None) n1 n2 t2 [3%positive]).
  - done.
  - by vm_compute.
  - lia.
  - by vm_compute.
  - vm_compute. reflexivity.
  - by eexists.
  - vm_compute. reflexivity.
  - split; [done|]. exists (block 0 0 [] None). split; [vm_compute; reflexivity|].
    apply (path_end _ _ _ (block 0 0 [] None)); [vm_compute; reflexivity|done].
  - vm_compute. reflexivity.
  - change ([[7]; [8]] : list serial) with
      (map S_serialnum (live_inputs (payment [7])) ++ (map S_serialnum (live_inputs (payment [8])) ++ [])).
    eapply (indexed_tx _ _ _ _ _ 60 (payment [7])).
    + vm_compute. reflexivity.
    + vm_compute. reflexivity.
    + vm_compute. reflexivity.
    + vm_compute. reflexivity.
    + eapply (indexed_tx _ _ _ _ _ 60 (payment [8])).
      * vm_compute. reflexivity.
      * vm_compute. reflexivity.
      * vm_compute. reflexivity.
      * vm_compute. reflexivity.
      * apply (indexed_end cf _ (tx 7 ++ tx 8)).
  - vm_compute. reflexivity.
Qed.

Lemma no_double_spend_witness :
  NoDup (path_serials (lg_serials ledger1) [4%positive] ++ lg_spent ledger1) /\
  forall s, s ∈ lg_spent ledger1 -> s ∈ spent_table (lg_node ledger1).
Proof.
  apply (no_double_spend ledger0 ledger1 4 [4%positive] 3).
  - apply demo_initial.
  - eapply rtc_l; [apply demo_step|apply rtc_refl].
  - vm_compute. reflexivity.
  - vm_compute. reflexivity.
  - intros lvl Hl. assert (lvl = 0) as -> by (vm_compute in Hl; congruence).
    apply (path_step _ _ _ (mkBlock (WireData (block 1 1 (tx 7 ++ tx 8) None)) (tx 7 ++ tx 8)
      (match n_heap n1 !! 4%positive with Some b => auxp b | None => None end) (Some 3%positive))).
    + vm_compute. reflexivity.
    + vm_compute. reflexivity.
    + apply (path_end _ _ _ (block 0 0 [] None)); [vm_compute; reflexivity|done].
Defined.
