(* ===== verification/ProcessQ.v ===== *)
(** * The validation queues (src/source/ccnode/src/dbconn-processq.cpp)

    Objects that wait to be validated, one table per type of object.  The operations are
    the SQL statements of the file on a finite map from object identifiers to rows; the
    failures of the database engine are an argument, and so is [g_shutdown].  A row
    holds one reference to its buffer: [q_refs] counts the references that the operations
    have taken and not given back.  The counter that numbers the rows is shared by the
    tables, so between two operations on one table it may also move forward.  [q_work] is
    the count of queued work that worker threads wait on.  Where a statement selects one row
    without an order, the row is any; the model takes the first of the map. *)
From S2P Require Import Prelude Rows.
From stdpp Require Import gmap sorting.

Local Open Scope Z_scope.
Local Open Scope cc_scope.

Definition PROCESS_Q_STATUS_PENDING : Z := 0.
Definition PROCESS_Q_STATUS_HOLD : Z := 1.
Definition PROCESS_Q_STATUS_VALID : Z := 2.
Definition PROCESS_Q_STATUS_INVALID : Z := 3.
Definition PROCESS_Q_STATUS_DONE_FLAG : Z := 4.

Abbreviation oid := (list Z).

(** ** Rows and tables *)

(** [PriorOid] and [Level] are null for transactions. *)
Record qrow := mkRow {
  q_prior : option oid;
  q_level : option Z;
  q_auxint : Z;
  q_conn : Z;
  q_callback : Z;
  q_bufp : positive;
  q_status : Z;
  q_priority : Z;
  q_seqnum : Z
}.

Abbreviation table := (gmap oid qrow).

Record queue := mkQueue {
  q_rows : table;
  q_sequence : Z;
  q_refs : gmap positive Z;
  q_work : Z
}.

Definition set_status (r : qrow) (s : Z) : qrow :=
  mkRow (q_prior r) (q_level r) (q_auxint r) (q_conn r) (q_callback r) (q_bufp r) s (q_priority r) (q_seqnum r).
Definition set_auxint (r : qrow) (a : Z) : qrow :=
  mkRow (q_prior r) (q_level r) a (q_conn r) (q_callback r) (q_bufp r) (q_status r) (q_priority r) (q_seqnum r).
Definition set_priority (r : qrow) (p : Z) : qrow :=
  mkRow (q_prior r) (q_level r) (q_auxint r) (q_conn r) (q_callback r) (q_bufp r) (q_status r) p (q_seqnum r).

Definition with_rows (q : queue) (t : table) : queue := mkQueue t (q_sequence q) (q_refs q) (q_work q).

(** [IncRef] and [DecRef] of a buffer, by the queue. *)
Definition add_ref (q : queue) (p : positive) (n : Z) : queue :=
  mkQueue (q_rows q) (q_sequence q) (<[p := default 0 (q_refs q !! p) + n]> (q_refs q)) (q_work q).

Definition IncrementQueuedWork (q : queue) (changes : Z) : queue :=
  mkQueue (q_rows q) (q_sequence q) (q_refs q) (q_work q + changes).

Definition INT_MAX : Z := 2 ^ 31 - 1.
Definition StopQueuedWork (q : queue) : queue := mkQueue (q_rows q) (q_sequence q) (q_refs q) (INT_MAX / 2).

(** One attempt to claim work: [true] when there is some. *)
Definition try_claim (q : queue) : bool * queue :=
  if 0 <? q_work q then (true, mkQueue (q_rows q) (q_sequence q) (q_refs q) (q_work q - 1)) else (false, q).

(** ** Operations *)

(** "update Process_Q set Priority = min(Priority, ?2), Seqnum = max(Seqnum, ?3), AuxInt =
    AuxInt + ?4, ConnId = max(ConnId, ?5), CallbackId = case when ConnId > ?5 then
    CallbackId else ?6 end": expressions read the row as it was. *)
Definition update_queue (r : qrow) (priority seqnum auxint conn callback : Z) : qrow :=
  mkRow (q_prior r) (q_level r) (q_auxint r + auxint) (Z.max (q_conn r) conn)
    (if conn <? q_conn r then q_callback r else callback) (q_bufp r) (q_status r)
    (Z.min (q_priority r) priority) (Z.max (q_seqnum r) seqnum).

(** The table update, without the increment of queued work, which follows when the lock
    has been released: the result, the queue, and the increment.  The prior identifier
    and the level are only stored for blocks. *)
Definition enqueue_locked (q : queue) (fault fault2 : bool) (is_block : bool) (id : oid) (bufp : positive)
    (prior : oid) (level status priority : Z) (is_block_tx : bool) (conn callback : Z) : Z * queue * Z :=
  let seqnum := q_sequence q in
  let q := mkQueue (q_rows q) (seqnum + 1) (q_refs q) (q_work q) in
  let auxint := if is_block_tx then 1 else 0 in
  if fault then (-1, q, 0)
  else match q_rows q !! id with
       | None =>
           let r := mkRow (if is_block then Some prior else None) (if is_block then Some level else None)
                      auxint conn callback bufp status priority seqnum in
           (0, add_ref (with_rows q (<[id := r]> (q_rows q))) bufp 1, 1)
       | Some r =>
           if negb is_block_tx then (1, q, 0)
           else if fault2 then (-1, q, 0)
           else (1, with_rows q (<[id := update_queue r priority seqnum auxint conn callback]> (q_rows q)), 0)
       end.

Definition ProcessQEnqueueValidate (q : queue) (fault fault2 : bool) (is_block : bool) (id : oid) (bufp : positive)
    (prior : oid) (level status priority : Z) (is_block_tx : bool) (conn callback : Z) : Z * queue :=
  let '(rc, q, changes) :=
    enqueue_locked q fault fault2 is_block id bufp prior level status priority is_block_tx conn callback in
  (rc, IncrementQueuedWork q changes).

(** "order by Priority, Level desc, Seqnum"; a null level is lowest. *)
Definition level_key (r : qrow) : Z := match q_level r with Some l => l | None => - 2 ^ 63 - 1 end.
Definition before (a b : oid * qrow) : Prop :=
  q_priority (snd a) < q_priority (snd b)
  \/ q_priority (snd a) = q_priority (snd b) /\
     (level_key (snd b) < level_key (snd a)
      \/ level_key (snd a) = level_key (snd b) /\ q_seqnum (snd a) <= q_seqnum (snd b)).
#[export] Instance before_dec : RelDecision before.
Proof. intros a b. unfold before. apply _. Defined.

Definition select_next (t : table) (status : Z) : list (oid * qrow) :=
  select_rows before (fun row => q_status (snd row) = status) t.

(** Result code, and the identifier and row selected; the row is held for the caller.
    The count of work is given back when there is an error. *)
Definition ProcessQGetNextValidateObj (q : queue) (fault fault2 : bool) : Z * queue * option (oid * qrow) :=
  if fault then (-1, IncrementQueuedWork q 1, None)
  else match select_next (q_rows q) PROCESS_Q_STATUS_PENDING with
       | [] => (1, q, None)
       | (id, r) :: _ =>
           if fault2 then (-1, IncrementQueuedWork q 1, None)
           else (0, with_rows q (<[id := set_status r PROCESS_Q_STATUS_HOLD]> (q_rows q)), Some (id, r))
       end.

Definition waits_for (id : oid) (r : qrow) : Prop :=
  q_status r = PROCESS_Q_STATUS_HOLD /\ q_prior r = Some id.
#[export] Instance waits_for_dec id r : Decision (waits_for id r).
Proof. unfold waits_for. apply _. Defined.

Definition release_row (id : oid) (r : qrow) : qrow :=
  if decide (waits_for id r) then set_status r PROCESS_Q_STATUS_PENDING else r.

(** The table update and the number of rows it changes. *)
Definition release_locked (q : queue) (fault : bool) (id : oid) : Z * queue * Z :=
  if fault then (-1, q, 0)
  else (0, with_rows q (release_row id <$> q_rows q),
        Z.of_nat (size (filter (fun row => waits_for id (snd row)) (q_rows q)))).

Definition ProcessQUpdateSubsequentBlockStatus (q : queue) (fault : bool) (id : oid) : Z * queue :=
  let '(rc, q, changes) := release_locked q fault id in
  (rc, IncrementQueuedWork q changes).

Definition ProcessQUpdateObj (q : queue) (fault : bool) (id : oid) (status auxint : Z) : Z * queue :=
  if fault then (-1, q)
  else match q_rows q !! id with
       | None => (-1, q)
       | Some r => (0, with_rows q (<[id := set_auxint (set_status r status) auxint]> (q_rows q)))
       end.

Definition ProcessQCountValidObjs (q : queue) (fault : bool) (auxint : Z) : Z :=
  if fault then -1
  else Z.of_nat (size (filter (fun row : oid * qrow => q_status (snd row) = PROCESS_Q_STATUS_VALID /\ q_auxint (snd row) = auxint) (q_rows q))).

Definition ProcessQClearValidObjs (q : queue) (fault : bool) : Z * queue :=
  if fault then (-1, q)
  else (0, with_rows q ((fun r => if q_status r =? PROCESS_Q_STATUS_VALID then set_auxint r 0 else r) <$> q_rows q)).

(** [random] is the generator's value for each row. *)
Definition ProcessQRandomizeValidObjs (q : queue) (fault : bool) (random : oid -> Z) : Z * queue :=
  if fault then (-1, q)
  else (0, with_rows q (map_imap (fun id r => Some (if q_status r =? PROCESS_Q_STATUS_VALID then set_priority r (random id) else r))
                          (q_rows q))).

Definition ProcessQGetNextValidObj (q : queue) (fault : bool) (offset : nat) : Z * option positive :=
  if fault then (-1, None)
  else match drop offset (select_next (q_rows q) PROCESS_Q_STATUS_VALID) with
       | [] => (1, None)
       | (_, r) :: _ => (0, Some (q_bufp r))
       end.

Definition below (level : Z) (r : qrow) : Prop := match q_level r with Some l => l < level | None => False end.
#[export] Instance below_dec level r : Decision (below level r).
Proof. unfold below. destruct (q_level r); apply _. Defined.

Definition ProcessQDone (q : queue) (fault : bool) (level : Z) : Z * queue :=
  if fault then (-1, q)
  else (0, with_rows q ((fun r => if decide (below level r) then set_status r (Z.lor (q_status r) PROCESS_Q_STATUS_DONE_FLAG) else r)
                          <$> q_rows q)).

(** The connection that a pruned object came from is told when it was still waiting. *)
Definition prune_notice (r : qrow) : list (Z * Z * Z) :=
  let status := Z.land (q_status r) (Z.lnot PROCESS_Q_STATUS_DONE_FLAG) in
  if negb (q_conn r =? 0) && ((status =? PROCESS_Q_STATUS_PENDING) || (status =? PROCESS_Q_STATUS_HOLD))
  then [(q_conn r, default 0 (q_level r), q_callback r)] else [].

(** One row at a time; [faults] says at which of the remaining rows the engine fails. *)
Fixpoint prune_loop (fuel : nat) (faults : nat -> bool) (q : queue) (level : Z) : outcome (Z * queue * list (Z * Z * Z)) :=
  match fuel with
  | O => Throw FuelOut
  | S f =>
      if faults f then Ret (-1, q, [])
      else match map_to_list (filter (fun row => below level (snd row)) (q_rows q)) with
           | [] => Ret (1, q, [])
           | (id, r) :: _ =>
               let q := add_ref (with_rows q (delete id (q_rows q))) (q_bufp r) (-1) in
               let! res := prune_loop f faults q level in
               let '(rc, q, notices) := res in
               Ret (rc, q, prune_notice r ++ notices)
           end
  end.

Definition ProcessQPruneLevel (q : queue) (shutdown : bool) (faults : nat -> bool) (level : Z) : outcome (Z * queue * list (Z * Z * Z)) :=
  if shutdown then Ret (0, q, []) else prune_loop (S (size (q_rows q))) faults q level.

(** Result code, queue, and the auxiliary integer, connection and callback of the row. *)
Definition ProcessQSelectAndDelete (q : queue) (fault fault2 : bool) (id : oid) : Z * queue * (Z * Z * Z) :=
  if fault then (-1, q, (0, 0, 0))
  else match q_rows q !! id with
       | None => (1, q, (0, 0, 0))
       | Some r =>
           if fault2 then (-1, q, (q_auxint r, q_conn r, q_callback r))
           else (0, add_ref (with_rows q (delete id (q_rows q))) (q_bufp r) (-1), (q_auxint r, q_conn r, q_callback r))
       end.

Lemma fmap_imap (f : qrow -> qrow) (t : table) : f <$> t = map_imap (fun _ r => Some (f r)) t.
Proof. apply map_eq. intros i. rewrite lookup_fmap, map_lookup_imap. by destruct (t !! i). Qed.

(** ** Any operation of the table *)

Inductive op :=
| Enqueue (fault fault2 is_block : bool) (id : oid) (bufp : positive) (prior : oid) (level status priority : Z)
    (is_block_tx : bool) (conn callback : Z)
| GetNext (fault fault2 : bool)
| Release (fault : bool) (id : oid)
| Update (fault : bool) (id : oid) (status auxint : Z)
| Clear (fault : bool)
| Randomize (fault : bool) (random : oid -> Z)
| Done (fault : bool) (level : Z)
| Prune (shutdown : bool) (faults : nat -> bool) (level : Z)
| Delete (fault fault2 : bool) (id : oid)
| Work (changes : Z)
| Claim.

Definition run (q : queue) (o : op) : queue :=
  match o with
  | Enqueue f f2 b id p pr l s pri tx c cb => snd (ProcessQEnqueueValidate q f f2 b id p pr l s pri tx c cb)
  | GetNext f f2 => snd (fst (ProcessQGetNextValidateObj q f f2))
  | Release f id => snd (ProcessQUpdateSubsequentBlockStatus q f id)
  | Update f id s a => snd (ProcessQUpdateObj q f id s a)
  | Clear f => snd (ProcessQClearValidObjs q f)
  | Randomize f g => snd (ProcessQRandomizeValidObjs q f g)
  | Done f l => snd (ProcessQDone q f l)
  | Prune sh f l => match ProcessQPruneLevel q sh f l with Ret (_, q', _) => q' | Throw _ => q end
  | Delete f f2 id => snd (fst (ProcessQSelectAndDelete q f f2 id))
  | Work n => IncrementQueuedWork q n
  | Claim => snd (try_claim q)
  end.

(** ** The next row *)

Lemma before_trans : Transitive before.
Proof. intros [ia a] [ib b] [ic c]. unfold before. cbn. lia. Qed.
Lemma before_total : Total before.
Proof. intros [ia a] [ib b]. unfold before. cbn. lia. Qed.
#[export] Existing Instance before_trans.
#[export] Existing Instance before_total.

Lemma select_next_elem t status id r :
  (id, r) ∈ select_next t status <-> t !! id = Some r /\ q_status r = status.
Proof. apply (select_rows_elem before (fun row => q_status (snd row) = status)). Qed.

Lemma select_next_head t status row rest :
  select_next t status = row :: rest -> forall row', row' ∈ select_next t status -> before row row'.
Proof. apply select_rows_head; apply _. Qed.

Lemma select_next_nil t status : select_next t status = [] -> forall id r, t !! id = Some r -> q_status r <> status.
Proof. intros Hs id r. apply (select_rows_nil before (fun row => q_status (snd row) = status) t Hs). Qed.

(** The result of one call that dequeues. *)
Lemma GetNext_cases q fault fault2 :
  let '(rc, q', got) := ProcessQGetNextValidateObj q fault fault2 in
  (rc = -1 /\ got = None /\ q' = IncrementQueuedWork q 1)
  \/ (rc = 1 /\ got = None /\ q' = q /\ forall id r, q_rows q !! id = Some r -> q_status r <> PROCESS_Q_STATUS_PENDING)
  \/ (rc = 0 /\ exists id r, got = Some (id, r) /\ q_rows q !! id = Some r /\ q_status r = PROCESS_Q_STATUS_PENDING
      /\ q' = with_rows q (<[id := set_status r PROCESS_Q_STATUS_HOLD]> (q_rows q))
      /\ forall id' r', q_rows q !! id' = Some r' -> q_status r' = PROCESS_Q_STATUS_PENDING -> before (id, r) (id', r')).
Proof.
  unfold ProcessQGetNextValidateObj. destruct fault; [auto|].
  destruct (select_next _ _) as [|[id r] rest] eqn:E.
  - right. left. repeat split; [reflexivity..|]. apply select_next_nil. exact E.
  - destruct fault2; [auto|]. right. right.
    assert ((id, r) ∈ select_next (q_rows q) PROCESS_Q_STATUS_PENDING) as Hin by (rewrite E; set_solver).
    apply select_next_elem in Hin as [Hr Hs]. split; [reflexivity|]. exists id, r. repeat split; try assumption.
    intros id' r' Hr' Hs'. eapply select_next_head; [exact E|]. apply select_next_elem. auto.
Qed.

(** ** Pruning *)

Definition below_rows (t : table) (level : Z) : table := filter (fun row => below level (snd row)) t.
Definition kept_rows (t : table) (level : Z) : table := filter (fun row => ~ below level (snd row)) t.

Lemma below_rows_head t level id r rest :
  map_to_list (below_rows t level) = (id, r) :: rest -> t !! id = Some r /\ below level r.
Proof.
  intros E. assert ((id, r) ∈ map_to_list (below_rows t level)) as Hin by (rewrite E; set_solver).
  apply elem_of_map_to_list, map_lookup_filter_Some in Hin. exact Hin.
Qed.

Lemma below_rows_delete t level id r :
  t !! id = Some r -> below level r ->
  size (below_rows (delete id t) level) = (size (below_rows t level) - 1)%nat
  /\ (0 < size (below_rows t level))%nat.
Proof.
  intros Hr Hb. unfold below_rows. rewrite map_filter_delete.
  assert (filter (fun row : oid * qrow => below level (snd row)) t !! id = Some r) as Hf
    by (apply map_lookup_filter_Some; auto).
  rewrite map_size_delete_Some by eauto. split; [lia|].
  pose proof (map_size_ne_0_lookup_2 _ _ (ex_intro _ r Hf)). lia.
Qed.

Lemma kept_rows_delete t level id r :
  t !! id = Some r -> below level r -> kept_rows (delete id t) level = kept_rows t level.
Proof.
  intros Hr Hb. unfold kept_rows. rewrite map_filter_delete. apply delete_id, map_lookup_filter_None.
  right. intros x Hx. cbn. rewrite Hr in Hx. congruence.
Qed.

Lemma below_rows_nil t level : map_to_list (below_rows t level) = [] -> t = kept_rows t level.
Proof.
  intros E. apply map_to_list_empty_iff in E. symmetry. apply map_filter_id. intros i x Hx Hb.
  pose proof (proj2 (map_lookup_filter_Some (fun row : oid * qrow => below level (snd row)) t i x) (conj Hx Hb)) as H.
  unfold below_rows in E. rewrite E, lookup_empty in H. discriminate.
Qed.

(** What the loop does: it always ends within one turn for each row below the level and
    one more; whatever held of the queue and is kept by dropping a row below the level
    holds at the end; and without a failure all those rows are gone, and only those. *)
Lemma prune_loop_spec (Inv : queue -> Prop) faults level :
  (forall q id r, Inv q -> q_rows q !! id = Some r -> below level r ->
     Inv (add_ref (with_rows q (delete id (q_rows q))) (q_bufp r) (-1))) ->
  forall fuel q, (size (below_rows (q_rows q) level) < fuel)%nat -> Inv q ->
  exists rc q' notices, prune_loop fuel faults q level = Ret (rc, q', notices) /\ Inv q' /\
    ((rc = 1 /\ q_rows q' = kept_rows (q_rows q) level) \/ (rc = -1 /\ exists f, (f < fuel)%nat /\ faults f = true)).
Proof.
  intros Hstep fuel. induction fuel as [|f IH]; intros q Hlt HI; [lia|]. cbn [prune_loop].
  destruct (faults f) eqn:Ef.
  { exists (-1), q, []. split; [reflexivity|]. split; [exact HI|]. right. split; [reflexivity|]. exists f. split; [lia | exact Ef]. }
  change (filter (fun row : oid * qrow => below level (snd row)) (q_rows q)) with (below_rows (q_rows q) level).
  destruct (map_to_list (below_rows (q_rows q) level)) as [|[id r] rest] eqn:E.
  - exists 1, q, []. split; [reflexivity|]. split; [exact HI|]. left. split; [reflexivity|]. apply below_rows_nil. exact E.
  - destruct (below_rows_head _ _ _ _ _ E) as [Hr Hb]. destruct (below_rows_delete _ _ _ _ Hr Hb) as [Hsz Hpos].
    destruct (IH (add_ref (with_rows q (delete id (q_rows q))) (q_bufp r) (-1))) as (rc & q' & n & Hl & HI' & Hrc);
      [cbn; lia | auto |].
    rewrite Hl. cbn. eexists _, _, _. split; [reflexivity|]. split; [exact HI'|].
    destruct Hrc as [[-> Hq]|[-> (f0 & ? & ?)]]; [left | right; split; [reflexivity | exists f0; split; [lia | assumption]]].
    split; [reflexivity|]. rewrite Hq. cbn. apply (kept_rows_delete _ _ id r); assumption.
Qed.

Lemma below_rows_size t level : (size (below_rows t level) <= size t)%nat.
Proof. apply map_size_filter. Qed.

Lemma Prune_spec (Inv : queue -> Prop) faults level :
  (forall q id r, Inv q -> q_rows q !! id = Some r -> below level r ->
     Inv (add_ref (with_rows q (delete id (q_rows q))) (q_bufp r) (-1))) ->
  forall q shutdown, Inv q ->
  exists rc q' notices, ProcessQPruneLevel q shutdown faults level = Ret (rc, q', notices) /\ Inv q' /\
    ((shutdown = true /\ q' = q) \/ (shutdown = false /\ rc = 1 /\ q_rows q' = kept_rows (q_rows q) level)
     \/ (shutdown = false /\ rc = -1 /\ exists f, (f < Datatypes.S (size (q_rows q)))%nat /\ faults f = true)).
Proof.
  intros Hstep q sh HI. unfold ProcessQPruneLevel. destruct sh; [exists 0, q, []; auto|].
  destruct (prune_loop_spec Inv faults level Hstep (Datatypes.S (size (q_rows q))) q) as (rc & q' & n & Hl & HI' & Hrc);
    [pose proof (below_rows_size (q_rows q) level); lia | exact HI |].
  exists rc, q', n. split; [exact Hl|]. split; [exact HI'|]. tauto.
Qed.

(** ** References to buffers *)

Definition holds (p : positive) (row : oid * qrow) : Prop := q_bufp (snd row) = p.
#[export] Instance holds_dec p row : Decision (holds p row).
Proof. unfold holds. apply _. Defined.

Definition refs (q : queue) (p : positive) : Z := default 0 (q_refs q !! p).

(** The queue holds as many references to a buffer as it has rows for it. *)
Definition refs_ok (q : queue) : Prop := forall p, refs q p = count (holds p) (q_rows q).

Lemma refs_add_ref q p n p' : refs (add_ref q p n) p' = refs q p' + (if decide (p = p') then n else 0).
Proof.
  unfold refs, add_ref. cbn [q_refs]. destruct (decide (p = p')) as [->|Hne].
  - rewrite lookup_insert_eq. reflexivity.
  - rewrite lookup_insert_ne by exact Hne. lia.
Qed.

Lemma refs_ok_new q id r :
  refs_ok q -> q_rows q !! id = None -> refs_ok (add_ref (with_rows q (<[id := r]> (q_rows q))) (q_bufp r) 1).
Proof.
  intros H Hn p. rewrite refs_add_ref. cbn [q_rows add_ref with_rows]. rewrite count_insert_new by exact Hn.
  change (refs (with_rows q (<[id := r]> (q_rows q))) p) with (refs q p). rewrite H.
  unfold one. repeat destruct (decide _); unfold holds in *; cbn [snd] in *; congruence || lia.
Qed.

Lemma refs_ok_old q id r r' :
  refs_ok q -> q_rows q !! id = Some r -> q_bufp r' = q_bufp r -> refs_ok (with_rows q (<[id := r']> (q_rows q))).
Proof.
  intros H Hs Hb p. change (refs _ p) with (refs q p). cbn [q_rows with_rows].
  rewrite (count_insert_old _ _ _ r) by exact Hs. rewrite H.
  unfold one. repeat destruct (decide _); unfold holds in *; cbn [snd] in *; congruence || lia.
Qed.

Lemma refs_ok_drop q id r :
  refs_ok q -> q_rows q !! id = Some r -> refs_ok (add_ref (with_rows q (delete id (q_rows q))) (q_bufp r) (-1)).
Proof.
  intros H Hs p. rewrite refs_add_ref. cbn [q_rows add_ref with_rows]. rewrite (count_delete _ _ _ r) by exact Hs.
  change (refs (with_rows q (delete id (q_rows q))) p) with (refs q p). rewrite H.
  unfold one. repeat destruct (decide _); unfold holds in *; cbn [snd] in *; congruence || lia.
Qed.

Lemma refs_ok_map q (f : oid -> qrow -> qrow) :
  refs_ok q -> (forall id r, q_bufp (f id r) = q_bufp r) ->
  refs_ok (with_rows q (map_imap (fun id r => Some (f id r)) (q_rows q))).
Proof.
  intros H Hb p. change (refs _ p) with (refs q p). cbn [q_rows with_rows].
  rewrite count_map; [apply H|]. intros id r. unfold holds. cbn. rewrite Hb. reflexivity.
Qed.

Lemma refs_ok_same q q' : refs_ok q -> q_rows q' = q_rows q -> q_refs q' = q_refs q -> refs_ok q'.
Proof. intros H Hr Hf p. unfold refs. rewrite Hr, Hf. apply H. Qed.

Lemma enqueue_refs q f f2 b id p pr l s pri tx c cb :
  refs_ok q -> refs_ok (snd (ProcessQEnqueueValidate q f f2 b id p pr l s pri tx c cb)).
Proof.
  intros H. unfold ProcessQEnqueueValidate, enqueue_locked. cbv zeta. cbn [q_rows].
  destruct f; [exact H|]. destruct (q_rows q !! id) as [r|] eqn:E.
  - destruct tx; cbn [negb]; [|exact H]. destruct f2; [exact H|]. cbn [snd].
    eapply refs_ok_same; [apply (refs_ok_old q id r (update_queue r pri (q_sequence q) 1 c cb) H E)|..]; reflexivity.
  - cbn [snd]. set (r := mkRow _ _ _ _ _ _ _ _ _).
    eapply refs_ok_same; [apply (refs_ok_new q id r H E)|..]; reflexivity.
Qed.

Lemma run_refs q o : refs_ok q -> refs_ok (run q o).
Proof.
  intros H. destruct o as [f f2 b id p pr l s pri tx c cb|f f2|f id|f id s a|f|f g|f l|sh f l|f f2 id|n|]; cbn [run].
  - apply enqueue_refs. exact H.
  - pose proof (GetNext_cases q f f2) as Hc. destruct (ProcessQGetNextValidateObj q f f2) as [[rc q'] got].
    cbn [fst snd]. destruct Hc as [(_ & _ & ->)|[(_ & _ & -> & _)|(_ & id & r & _ & Hr & _ & -> & _)]];
      [exact H | exact H |]. apply (refs_ok_old q id r); auto.
  - unfold ProcessQUpdateSubsequentBlockStatus, release_locked. destruct f; [exact H|]. cbn [snd].
    rewrite fmap_imap. apply (refs_ok_map q (fun _ => release_row id) H). intros i r. unfold release_row. by destruct (decide _).
  - unfold ProcessQUpdateObj. destruct f; [exact H|]. destruct (q_rows q !! id) as [r|] eqn:E; [|exact H].
    cbn [snd]. apply (refs_ok_old q id r); auto.
  - unfold ProcessQClearValidObjs. destruct f; [exact H|]. cbn [snd]. rewrite fmap_imap.
    apply (refs_ok_map q (fun _ r => if q_status r =? PROCESS_Q_STATUS_VALID then set_auxint r 0 else r) H). intros i r. by destruct (_ =? _).
  - unfold ProcessQRandomizeValidObjs. destruct f; [exact H|]. cbn [snd]. apply refs_ok_map; [exact H|]. intros i r. by destruct (_ =? _).
  - unfold ProcessQDone. destruct f; [exact H|]. cbn [snd]. rewrite fmap_imap.
    apply (refs_ok_map q (fun _ r => if decide (below l r) then set_status r (Z.lor (q_status r) PROCESS_Q_STATUS_DONE_FLAG) else r) H).
    intros i r. by destruct (decide _).
  - destruct (Prune_spec refs_ok f l) with (q := q) (shutdown := sh) as (rc & q' & n & -> & H' & _); [|exact H|exact H'].
    intros q0 id r H0 Hr _. apply refs_ok_drop; assumption.
  - unfold ProcessQSelectAndDelete. destruct f; [exact H|]. destruct (q_rows q !! id) as [r|] eqn:E; [|exact H].
    destruct f2; [exact H|]. cbn [fst snd]. apply refs_ok_drop; assumption.
  - exact H.
  - unfold try_claim. destruct (0 <? q_work q); exact H.
Qed.

Definition empty_queue : queue := mkQueue ∅ 0 ∅ 0.

Lemma foldl_inv {A B} (Inv : A -> Prop) (f : A -> B -> A) l a :
  (forall a b, Inv a -> Inv (f a b)) -> Inv a -> Inv (foldl f a l).
Proof. intros Hf. revert a. induction l as [|b l IH]; intros a Ha; [exact Ha|]. apply IH, Hf, Ha. Qed.

Lemma refs_ok_empty : refs_ok empty_queue.
Proof. intros p. reflexivity. Qed.

(** Whatever operations run, with whatever failures of the database engine, the queue holds
    exactly as many references to a buffer as it has rows for it, so a buffer in the queue
    is never freed and none is leaked. *)
Theorem queue_references ops p :
  let q := foldl run empty_queue ops in
  refs q p = count (holds p) (q_rows q)
  /\ forall id r, q_rows q !! id = Some r -> 0 < refs q (q_bufp r).
Proof.
  pose proof (foldl_inv refs_ok run ops empty_queue run_refs refs_ok_empty) as H. cbv zeta. split; [apply H|].
  intros id r Hr. rewrite (H (q_bufp r)). apply (count_pos (holds (q_bufp r)) _ id r Hr). reflexivity.
Qed.

(** ** Claims of work

    The worker threads between [WaitForQueuedWork] and [ProcessQGetNextValidateObj], and
    the threads that have changed the table and not yet added to the count of work.
    Threads are counted by what they are about to do; a step is one atomic operation: a
    table operation under the lock of the table, or one change of the counter. *)

Record work_state := mkWork {
  w_queue : queue;
  w_owed : Z;       (** increments still to be made, for rows already in the table *)
  w_claimed : Z;    (** threads that have returned from the wait with a claim *)
  w_lowered : Z     (** threads that have lowered the count, found no work, and will raise it *)
}.

Definition pending (row : oid * qrow) : Prop := q_status (snd row) = PROCESS_Q_STATUS_PENDING.
#[export] Instance pending_dec row : Decision (pending row).
Proof. unfold pending. apply _. Defined.

(** Operations that other threads perform on the table, with the increment they owe. *)
Definition table_op (q : queue) (o : op) : queue * Z :=
  match o with
  | Enqueue f f2 b id p pr l s pri tx c cb =>
      let '(_, q', n) := enqueue_locked q f f2 b id p pr l s pri tx c cb in (q', n)
  | Release f id => let '(_, q', n) := release_locked q f id in (q', n)
  | Work _ | Claim | GetNext _ _ => (q, 0)
  | _ => (run q o, 0)
  end.

(** The callers of [ProcessQUpdateObj] never make an object pending again. *)
Definition allowed (o : op) : Prop :=
  match o with Update _ _ s _ => s <> PROCESS_Q_STATUS_PENDING | _ => True end.

Inductive work_step : work_state -> work_state -> Prop :=
| WTable q owed c l o :
    allowed o ->
    work_step (mkWork q owed c l) (mkWork (fst (table_op q o)) (owed + snd (table_op q o)) c l)
| WPay q owed c l n :
    0 <= n <= owed -> work_step (mkWork q owed c l) (mkWork (IncrementQueuedWork q n) (owed - n) c l)
| WClaim q owed c l :
    0 < q_work q -> work_step (mkWork q owed c l) (mkWork (IncrementQueuedWork q (-1)) owed (c + 1) l)
| WLower q owed c l :
    q_work q <= 0 -> work_step (mkWork q owed c l) (mkWork (IncrementQueuedWork q (-1)) owed c (l + 1))
| WRaise q owed c l :
    0 < l -> work_step (mkWork q owed c l) (mkWork (IncrementQueuedWork q 1) owed c (l - 1))
| WGet q owed c l f f2 :
    0 < c -> work_step (mkWork q owed c l) (mkWork (snd (fst (ProcessQGetNextValidateObj q f f2))) owed (c - 1) l)
| WTimed q owed c l f f2 :
    work_step (mkWork q owed c l) (mkWork (snd (fst (ProcessQGetNextValidateObj q f f2))) owed c l).

Definition work_start : work_state := mkWork empty_queue 0 0 0.
Definition work_reachable : work_state -> Prop := rtc work_step work_start.

Definition work_ok (s : work_state) : Prop :=
  count pending (q_rows (w_queue s)) <= q_work (w_queue s) + w_owed s + w_claimed s + w_lowered s
  /\ 0 <= q_work (w_queue s) + w_lowered s /\ 0 <= w_owed s /\ 0 <= w_claimed s /\ 0 <= w_lowered s.

Lemma count_waiting t id :
  count pending (release_row id <$> t)
  = count pending t + Z.of_nat (size (filter (fun row : oid * qrow => waits_for id (snd row)) t)).
Proof.
  change (Z.of_nat (size (filter (fun row : oid * qrow => waits_for id (snd row)) t))) with
    (count (fun row : oid * qrow => waits_for id (snd row)) t).
  induction t as [|i r t Hn IH] using map_ind; [reflexivity|].
  rewrite fmap_insert, !count_insert_new; [| exact Hn | exact Hn | by rewrite lookup_fmap, Hn].
  rewrite IH. enough (one pending (i, release_row id r) =
    one pending (i, r) + one (fun row : oid * qrow => waits_for id (snd row)) (i, r)) by lia.
  unfold one, release_row. repeat destruct (decide _); unfold pending, waits_for in *; cbn in *; try lia; try tauto.
  destruct w as [H _]. rewrite p0 in H. discriminate H.
Qed.

Lemma one_pending_le id r r' : (q_status r' = PROCESS_Q_STATUS_PENDING -> q_status r = PROCESS_Q_STATUS_PENDING) ->
  one pending (id, r') <= one pending (id, r).
Proof. intros H. unfold one, pending. cbn [snd]. repeat destruct (decide _); try lia; tauto. Qed.

Lemma done_flag_ne s x : Z.lor s PROCESS_Q_STATUS_DONE_FLAG = x -> Z.testbit x 2 = false -> False.
Proof.
  intros <- H. rewrite Z.lor_spec in H. change (Z.testbit PROCESS_Q_STATUS_DONE_FLAG 2) with true in H.
  rewrite orb_true_r in H. discriminate H.
Qed.

(** A table operation adds no more pending rows than the increment it owes. *)
Lemma table_op_pending q o :
  allowed o ->
  count pending (q_rows (fst (table_op q o))) <= count pending (q_rows q) + snd (table_op q o)
  /\ 0 <= snd (table_op q o) /\ q_work (fst (table_op q o)) = q_work q.
Proof.
  intros Ha. destruct o as [f f2 b id p pr l s pri tx c cb|f f2|f id|f id s a|f|f g|f l|sh f l|f f2 id|n|];
    cbn [table_op run]; try (cbn [fst snd]; split; [lia | split; [lia | reflexivity]]).
  - unfold enqueue_locked. cbv zeta. cbn [q_rows]. destruct f; [cbn; lia|].
    destruct (q_rows q !! id) as [r|] eqn:E.
    + destruct tx; cbn [negb]; [|cbn; lia]. destruct f2; [cbn; lia|]. cbn [fst snd with_rows q_rows q_work].
      rewrite (count_insert_old _ _ _ r) by exact E. pose proof (one_pending_le id r (update_queue r pri (q_sequence q) 1 c cb) (fun h => h)). lia.
    + cbn [fst snd with_rows add_ref q_rows q_work]. rewrite count_insert_new by exact E.
      set (r := mkRow _ _ _ _ _ _ _ _ _). pose proof (one_range pending (id, r)). lia.
  - unfold release_locked. destruct f; [cbn; lia|]. cbn [fst snd with_rows q_rows q_work]. rewrite count_waiting. lia.
  - unfold ProcessQUpdateObj. destruct f; [cbn; lia|]. destruct (q_rows q !! id) as [r|] eqn:E; [|cbn; lia].
    cbn [fst snd with_rows q_rows q_work]. rewrite (count_insert_old _ _ _ r) by exact E.
    pose proof (one_pending_le id r (set_auxint (set_status r s) a)) as H. cbn in Ha. cbn [set_auxint set_status q_status] in H.
    specialize (H ltac:(tauto)). lia.
  - unfold ProcessQClearValidObjs. destruct f; [cbn; lia|]. cbn [fst snd with_rows q_rows q_work]. rewrite fmap_imap.
    pose proof (count_mono pending (q_rows q) (fun _ r => if q_status r =? PROCESS_Q_STATUS_VALID then set_auxint r 0 else r)) as H.
    cbv beta in H. rewrite Z.add_0_r. split; [apply H | split; [lia | reflexivity]].
    intros i r. unfold pending. cbn [snd]. by destruct (_ =? _).
  - unfold ProcessQRandomizeValidObjs. destruct f; [cbn; lia|]. cbn [fst snd with_rows q_rows q_work].
    rewrite Z.add_0_r. split; [apply count_mono | split; [lia | reflexivity]].
    intros i r. unfold pending. cbn [snd]. by destruct (_ =? _).
  - unfold ProcessQDone. destruct f; [cbn; lia|]. cbn [fst snd with_rows q_rows q_work]. rewrite fmap_imap.
    rewrite Z.add_0_r. split; [apply (count_mono pending (q_rows q) (fun _ r => if decide (below l r) then set_status r (Z.lor (q_status r) PROCESS_Q_STATUS_DONE_FLAG) else r)) | split; [lia | reflexivity]].
    intros i r. unfold pending. cbn [snd]. destruct (decide _); [|auto]. cbn [set_status q_status]. intros H. destruct (done_flag_ne _ _ H eq_refl).
  - destruct (Prune_spec (fun q' => count pending (q_rows q') <= count pending (q_rows q) /\ q_work q' = q_work q) f l)
      with (q := q) (shutdown := sh) as (rc & q' & n & -> & H & _); [|lia|cbn [fst snd]; lia].
    intros q0 id r [H0 Hw] Hr _. cbn [add_ref with_rows q_rows q_work]. rewrite (count_delete _ _ _ r) by exact Hr.
    pose proof (one_range pending (id, r)). lia.
  - unfold ProcessQSelectAndDelete. destruct f; [cbn; lia|]. destruct (q_rows q !! id) as [r|] eqn:E; [|cbn; lia].
    destruct f2; [cbn; lia|]. cbn [fst snd add_ref with_rows q_rows q_work]. rewrite (count_delete _ _ _ r) by exact E.
    pose proof (one_range pending (id, r)). lia.
Qed.

Lemma GetNext_pending q f f2 :
  let q' := snd (fst (ProcessQGetNextValidateObj q f f2)) in
  count pending (q_rows q') <= count pending (q_rows q) /\
  (count pending (q_rows q') = 0 /\ q_work q' = q_work q
   \/ count pending (q_rows q') = count pending (q_rows q) - 1 /\ q_work q' = q_work q
   \/ q_work q' = q_work q + 1).
Proof.
  pose proof (GetNext_cases q f f2) as Hc. destruct (ProcessQGetNextValidateObj q f f2) as [[rc q'] got]. cbn [fst snd].
  destruct Hc as [(_ & _ & ->)|[(_ & _ & -> & Hnone)|(_ & id & r & _ & Hr & Hs & -> & _)]].
  - split; [cbn; lia|]. right. right. reflexivity.
  - split; [lia|]. left. split; [|reflexivity]. apply count_none. exact Hnone.
  - cbn [with_rows q_rows q_work]. rewrite (count_insert_old _ _ _ r) by exact Hr.
    unfold one. rewrite decide_True by exact Hs. rewrite decide_False by (intros H; discriminate H). lia.
Qed.

Lemma work_step_ok s s' : work_step s s' -> work_ok s -> work_ok s'.
Proof.
  unfold work_ok. intros Hst. destruct Hst as [q owed c l o Ha|q owed c l n Hn|q owed c l Hw|q owed c l Hw|q owed c l Hl|q owed c l f f2 Hc|q owed c l f f2];
    cbn [w_queue w_owed w_claimed w_lowered].
  - pose proof (table_op_pending q o Ha). intros. lia.
  - cbn [IncrementQueuedWork q_rows q_work]. lia.
  - cbn [IncrementQueuedWork q_rows q_work]. lia.
  - cbn [IncrementQueuedWork q_rows q_work]. lia.
  - cbn [IncrementQueuedWork q_rows q_work]. lia.
  - pose proof (GetNext_pending q f f2) as H. cbv zeta in H. lia.
  - pose proof (GetNext_pending q f f2) as H. cbv zeta in H. lia.
Qed.

Lemma work_reachable_ok s : work_reachable s -> work_ok s.
Proof.
  intros H. refine (rtc_ind_r (fun s => work_ok s) work_start _ _ s H).
  - vm_compute. intuition discriminate.
  - intros s1 s2 _ Hst. apply work_step_ok, Hst.
Qed.

(** C20. The count of queued work never loses an object: in every reachable state, once no thread
    is between lowering and raising the count, or has claimed work or owes an increment, a
    pending row implies that the next attempt to claim work succeeds and dequeues a pending
    row that is first in the order. *)
Theorem work_never_lost s id r :
  work_reachable s ->
  q_rows (w_queue s) !! id = Some r -> q_status r = PROCESS_Q_STATUS_PENDING ->
  w_owed s = 0 -> w_claimed s = 0 -> w_lowered s = 0 ->
  let '(claimed, q) := try_claim (w_queue s) in
  claimed = true /\
  exists id' r', snd (ProcessQGetNextValidateObj q false false) = Some (id', r')
    /\ q_rows (w_queue s) !! id' = Some r' /\ q_status r' = PROCESS_Q_STATUS_PENDING /\ before (id', r') (id, r).
Proof.
  intros Hreach Hr Hs Ho Hc Hl. destruct (work_reachable_ok s Hreach) as (Hcnt & Hw & _).
  pose proof (count_pos pending (q_rows (w_queue s)) id r Hr Hs) as Hpos.
  unfold try_claim. rewrite (proj2 (Z.ltb_lt 0 _)) by lia. split; [reflexivity|].
  set (q := mkQueue _ _ _ _). pose proof (GetNext_cases q false false) as Hg.
  destruct (select_next (q_rows q) PROCESS_Q_STATUS_PENDING) as [|[i x] rest] eqn:E.
  - destruct (select_next_nil _ _ E id r Hr Hs).
  - unfold ProcessQGetNextValidateObj in *. rewrite E in *. cbn [snd]. exists i, x. split; [reflexivity|].
    destruct Hg as [(H & _)|[(H & _)|(_ & i' & x' & [= <- <-] & Hx & Hxs & _ & Hmin)]]; [discriminate H..|].
    repeat split; try assumption. apply Hmin; assumption.
Qed.

Definition demo_enqueue : op := Enqueue false false true [1] 7%positive [0] 5 PROCESS_Q_STATUS_PENDING 10 false 3 4.
Definition demo_work : work_state := mkWork (run empty_queue demo_enqueue) 0 0 0.

Lemma demo_work_reachable : work_reachable demo_work.
Proof.
  unfold demo_work. eapply rtc_l; [apply (WTable empty_queue 0 0 0 demo_enqueue); exact I|].
  eapply rtc_l; [apply (WPay _ _ _ _ 1); vm_compute; split; discriminate|]. apply rtc_refl.
Qed.

Lemma work_never_lost_witness :
  work_reachable demo_work /\
  let '(claimed, q) := try_claim (w_queue demo_work) in
  claimed = true /\
  exists id' r', snd (ProcessQGetNextValidateObj q false false) = Some (id', r')
    /\ q_rows (w_queue demo_work) !! id' = Some r' /\ q_status r' = PROCESS_Q_STATUS_PENDING
    /\ before (id', r') ([1], mkRow (Some [0]) (Some 5) 0 3 4 7 PROCESS_Q_STATUS_PENDING 10 0).
Proof.
  split; [apply demo_work_reachable|].
  apply (work_never_lost demo_work [1] (mkRow (Some [0]) (Some 5) 0 3 4 7 PROCESS_Q_STATUS_PENDING 10 0) demo_work_reachable);
    vm_compute; reflexivity.
Defined.

(** ** Blocks on hold

    [ProcessBlock::ThreadProc] dequeues a block, which puts it on hold, and only then looks
    for its prior block among the valid ones; when it is not there, the block stays on hold.
    [ValidObjsBlockInsert], in that thread or another, first makes a block valid and only
    then makes the blocks that wait for it pending.  A block is [abandoned] when its
    validation ends without a verdict (result 1), and a prior block is [lost] when the
    database engine fails to update the blocks that wait for it, which the code reports
    as a possible loss of synchronization.  The identifier of a block is a hash of its
    contents, so it determines the prior block. *)

Section Hold.
Variable prior_of : oid -> oid.

Record hold_state := mkHold {
  h_queue : queue;
  h_valid : gset oid;
  h_thread : option oid;        (** the block that the validation thread has dequeued *)
  h_inserted : gset oid;        (** blocks made valid, whose waiting blocks are not yet released *)
  h_abandoned : gset oid;
  h_lost : gset oid
}.

Inductive hold_step : hold_state -> hold_state -> Prop :=
| HEnqueue q v t i a l f f2 id p lv s pri tx c cb :
    (s = PROCESS_Q_STATUS_PENDING \/ s = PROCESS_Q_STATUS_VALID) ->
    hold_step (mkHold q v t i a l)
              (mkHold (snd (ProcessQEnqueueValidate q f f2 true id p (prior_of id) lv s pri tx c cb)) v t i a l)
| HGetNext q v i a l f f2 :
    hold_step (mkHold q v None i a l)
              (let '(_, q', got) := ProcessQGetNextValidateObj q f f2 in mkHold q' v (fst <$> got) i a l)
| HNotYetValid q v id i a l :          (** [BlockValidate] returns 2 *)
    prior_of id ∉ v -> hold_step (mkHold q v (Some id) i a l) (mkHold q v None i a l)
| HUndecided q v id i a l :            (** result 1, or a result that the engine fails to record *)
    hold_step (mkHold q v (Some id) i a l) (mkHold q v None i ({[id]} ∪ a) l)
| HInvalid q v id aux i a l :          (** [BlockValidate] returns -1 *)
    hold_step (mkHold q v (Some id) i a l)
              (mkHold (snd (ProcessQUpdateObj q false id PROCESS_Q_STATUS_INVALID aux)) v None i a l)
| HInsert q v t id i a l :             (** [ValidObjsInsert] *)
    hold_step (mkHold q v t i a l) (mkHold q ({[id]} ∪ v) t ({[id]} ∪ i) a l)
| HValid q v id aux i a l :            (** the update of the block that has become valid *)
    hold_step (mkHold q v (Some id) i a l)
              (mkHold (snd (ProcessQUpdateObj q false id PROCESS_Q_STATUS_VALID aux)) v None i a l)
| HScore q v t id aux i a l f :        (** the witness thread scores a valid block *)
    hold_step (mkHold q v t i a l)
              (mkHold (snd (ProcessQUpdateObj q f id PROCESS_Q_STATUS_VALID aux)) v t i a l)
| HRelease q v t id i a l :
    id ∈ i ->
    hold_step (mkHold q v t i a l)
              (mkHold (snd (ProcessQUpdateSubsequentBlockStatus q false id)) v t (i ∖ {[id]}) a l)
| HReleaseFails q v t id i a l :
    id ∈ i ->
    hold_step (mkHold q v t i a l)
              (mkHold (snd (ProcessQUpdateSubsequentBlockStatus q true id)) v t (i ∖ {[id]}) a ({[id]} ∪ l))
| HForget q v t id i a l :             (** a valid block expires from the valid objects *)
    hold_step (mkHold q v t i a l) (mkHold q (v ∖ {[id]}) t i a l)
| HOther q v t i a l o :
    (match o with Clear _ | Randomize _ _ | Done _ _ | Prune _ _ _ | Delete _ _ _ | Work _ | Claim => True | _ => False end) ->
    hold_step (mkHold q v t i a l) (mkHold (run q o) v t i a l).

Definition hold_start : hold_state := mkHold empty_queue ∅ None ∅ ∅ ∅.
Definition hold_reachable : hold_state -> Prop := rtc hold_step hold_start.

Definition excused (s : hold_state) (id : oid) : Prop :=
  prior_of id ∉ h_valid s \/ h_thread s = Some id \/ prior_of id ∈ h_inserted s \/ id ∈ h_abandoned s \/ prior_of id ∈ h_lost s.

Definition hold_ok (s : hold_state) : Prop :=
  forall id r, q_rows (h_queue s) !! id = Some r ->
  q_prior r = Some (prior_of id) /\ (q_status r = PROCESS_Q_STATUS_HOLD -> excused s id).

(** Every row of the second queue was in the first, with the same prior block, and it was
    on hold if it still is. *)
Definition rows_from (q q' : queue) : Prop :=
  forall id r', q_rows q' !! id = Some r' ->
  exists r, q_rows q !! id = Some r /\ q_prior r = q_prior r'
    /\ (q_status r' = PROCESS_Q_STATUS_HOLD -> q_status r = PROCESS_Q_STATUS_HOLD).

Lemma rows_from_refl q : rows_from q q.
Proof. intros id r H. eauto. Qed.

Lemma rows_from_map q (f : oid -> qrow -> qrow) :
  (forall id r, q_prior (f id r) = q_prior r /\ (q_status (f id r) = PROCESS_Q_STATUS_HOLD -> q_status r = PROCESS_Q_STATUS_HOLD)) ->
  rows_from q (with_rows q (map_imap (fun id r => Some (f id r)) (q_rows q))).
Proof.
  intros Hf id r' H. cbn [with_rows q_rows] in H. rewrite map_lookup_imap in H.
  destruct (q_rows q !! id) as [r|]; [|discriminate H]. cbn in H. injection H as <-. exists r. destruct (Hf id r). auto.
Qed.

Lemma rows_from_delete q id q' : q_rows q' = delete id (q_rows q) -> rows_from q q'.
Proof. intros E i r' H. rewrite E in H. apply lookup_delete_Some in H as [_ H]. eauto. Qed.

Lemma rows_from_insert q id r r' :
  q_rows q !! id = Some r -> q_prior r = q_prior r' ->
  (q_status r' = PROCESS_Q_STATUS_HOLD -> q_status r = PROCESS_Q_STATUS_HOLD) ->
  rows_from q (with_rows q (<[id := r']> (q_rows q))).
Proof.
  intros Hr Hp Hs i x H. cbn [with_rows q_rows] in H. apply lookup_insert_Some in H as [[<- <-]|[_ H]]; eauto.
Qed.

Lemma rows_from_trans q1 q2 q3 : rows_from q1 q2 -> rows_from q2 q3 -> rows_from q1 q3.
Proof.
  intros H12 H23 id r H. destruct (H23 id r H) as (r2 & H2 & Hp & Hs). destruct (H12 id r2 H2) as (r1 & H1 & Hp1 & Hs1).
  exists r1. split; [exact H1|]. split; [congruence|tauto].
Qed.

Lemma update_rows_from q f id s a : s <> PROCESS_Q_STATUS_HOLD -> rows_from q (snd (ProcessQUpdateObj q f id s a)).
Proof.
  intros Hs. unfold ProcessQUpdateObj. destruct f; [apply rows_from_refl|].
  destruct (q_rows q !! id) as [r|] eqn:E; [|apply rows_from_refl]. cbn [snd].
  apply (rows_from_insert q id r); [exact E | reflexivity |]. cbn. tauto.
Qed.

Lemma release_rows_from q f id : rows_from q (snd (ProcessQUpdateSubsequentBlockStatus q f id)).
Proof.
  unfold ProcessQUpdateSubsequentBlockStatus, release_locked. destruct f; cbn [snd]; [intros i r H; eauto|].
  rewrite fmap_imap. apply (rows_from_map q (fun _ => release_row id)). intros i r. unfold release_row.
  destruct (decide _); [|auto]. split; [reflexivity | intros H; discriminate H].
Qed.

Lemma update_not_hold q id s a r :
  q_rows (snd (ProcessQUpdateObj q false id s a)) !! id = Some r -> s <> PROCESS_Q_STATUS_HOLD ->
  q_status r <> PROCESS_Q_STATUS_HOLD.
Proof.
  unfold ProcessQUpdateObj. destruct (q_rows q !! id) as [x|] eqn:E; cbn [snd]; [|congruence].
  cbn [with_rows q_rows]. rewrite lookup_insert_eq. intros [= <-] Hs. exact Hs.
Qed.

(** After a release that does not fail, no row waits for the block. *)
Lemma release_none_waits q id i r :
  q_rows (snd (ProcessQUpdateSubsequentBlockStatus q false id)) !! i = Some r ->
  q_prior r = Some id -> q_status r <> PROCESS_Q_STATUS_HOLD.
Proof.
  intros H Hp. change (q_rows _) with (release_row id <$> q_rows q) in H. rewrite lookup_fmap in H.
  destruct (q_rows q !! i) as [x|]; [|discriminate H]. cbn in H. injection H as <-. unfold release_row, waits_for in *.
  destruct (decide _) as [_|Hn]; [intros H; discriminate H | tauto].
Qed.

Lemma other_rows_from q o :
  (match o with Clear _ | Randomize _ _ | Done _ _ | Prune _ _ _ | Delete _ _ _ | Work _ | Claim => True | _ => False end) ->
  rows_from q (run q o).
Proof.
  intros Ho. destruct o as [f f2 b id p pr l s pri tx c cb|f f2|f id|f id s a|f|f g|f l|sh f l|f f2 id|n|]; try tauto; cbn [run].
  - unfold ProcessQClearValidObjs. destruct f; [apply rows_from_refl|]. cbn [snd]. rewrite fmap_imap.
    apply (rows_from_map q (fun _ r => if q_status r =? PROCESS_Q_STATUS_VALID then set_auxint r 0 else r)). intros i r. by destruct (_ =? _).
  - unfold ProcessQRandomizeValidObjs. destruct f; [apply rows_from_refl|]. cbn [snd].
    apply rows_from_map. intros i r. by destruct (_ =? _).
  - unfold ProcessQDone. destruct f; [apply rows_from_refl|]. cbn [snd]. rewrite fmap_imap.
    apply (rows_from_map q (fun _ r => if decide (below l r) then set_status r (Z.lor (q_status r) PROCESS_Q_STATUS_DONE_FLAG) else r)).
    intros i r. destruct (decide _); [|auto]. cbn. split; [reflexivity|]. intros H. destruct (done_flag_ne _ _ H eq_refl).
  - destruct (Prune_spec (rows_from q) f l) with (q := q) (shutdown := sh) as (rc & q' & n & -> & H & _);
      [|apply rows_from_refl|exact H].
    intros q0 id r H0 Hr _. eapply rows_from_trans; [exact H0|]. apply (rows_from_delete _ id). reflexivity.
  - unfold ProcessQSelectAndDelete. destruct f; [apply rows_from_refl|]. destruct (q_rows q !! id); [|apply rows_from_refl].
    destruct f2; [apply rows_from_refl|]. cbn [fst snd]. apply (rows_from_delete _ id). reflexivity.
  - intros i r H. eauto.
  - unfold try_claim. destruct (0 <? q_work q); intros i r H; eauto.
Qed.

Lemma enqueue_rows q f f2 id p lv s pri tx c cb i r' :
  q_rows (snd (ProcessQEnqueueValidate q f f2 true id p (prior_of id) lv s pri tx c cb)) !! i = Some r' ->
  (exists r, q_rows q !! i = Some r /\ q_prior r = q_prior r' /\ q_status r = q_status r')
  \/ (q_prior r' = Some (prior_of i) /\ q_status r' = s).
Proof.
  unfold ProcessQEnqueueValidate, enqueue_locked. cbv zeta. cbn [q_rows].
  destruct f; [cbn; eauto|]. destruct (q_rows q !! id) as [r|] eqn:E.
  - destruct tx; cbn [negb]; [|cbn; eauto]. destruct f2; [cbn; eauto|]. cbn [snd IncrementQueuedWork with_rows q_rows].
    intros H. apply lookup_insert_Some in H as [[<- <-]|[_ H]]; [|eauto]. left. exists r. auto.
  - cbn [snd IncrementQueuedWork add_ref with_rows q_rows]. intros H. apply lookup_insert_Some in H as [[<- <-]|[_ H]]; [|eauto].
    right. auto.
Qed.

Lemma hold_ok_from q q' s s' :
  hold_ok s -> h_queue s = q -> h_queue s' = q' -> rows_from q q' ->
  (forall id r', q_rows q' !! id = Some r' -> q_status r' = PROCESS_Q_STATUS_HOLD -> q_prior r' = Some (prior_of id) -> excused s id -> excused s' id) ->
  hold_ok s'.
Proof.
  intros H <- <- Hfrom Hex id r' Hr'. destruct (Hfrom id r' Hr') as (r & Hr & Hp & Hs). destruct (H id r Hr) as [Hpr He].
  split; [congruence|]. intros Hst. apply (Hex id r' Hr' Hst); [congruence | auto].
Qed.

Lemma hold_step_ok s s' : hold_step s s' -> hold_ok s -> hold_ok s'.
Proof.
  intros Hst H. destruct Hst.
  - intros i0 r' Hr'. cbn [h_queue] in Hr'. apply enqueue_rows in Hr' as [(r & Hr & Hp & Hs)|[Hp Hs]].
    + destruct (H i0 r Hr) as [Hpr He]. split; [congruence|]. intros Hh. apply He. congruence.
    + split; [exact Hp|]. intros Hh. rewrite Hs in Hh. destruct H0 as [->| ->]; discriminate Hh.
  - pose proof (GetNext_cases q f f2) as Hc. destruct (ProcessQGetNextValidateObj q f f2) as [[rc q'] got].
    destruct Hc as [(_ & -> & ->)|[(_ & -> & -> & _)|(_ & id & r & -> & Hr & Hs & -> & _)]]; [exact H | exact H |].
    intros i0 x Hx. cbn [h_queue with_rows q_rows] in Hx. apply lookup_insert_Some in Hx as [[<- <-]|[Hne Hx]].
    + destruct (H id r Hr) as [Hp _]. split; [exact Hp|]. intros _. right. left. reflexivity.
    + destruct (H i0 x Hx) as [Hp He]. split; [exact Hp|]. intros Hh. destruct (He Hh) as [?|[Hn|[?|[?|?]]]];
        unfold excused; cbn in *; try tauto. discriminate Hn.
  - eapply hold_ok_from; [exact H | reflexivity | reflexivity | apply rows_from_refl |].
    intros id0 r' _ _ _. unfold excused. cbn. intros [?|[[= <-]|?]]; tauto.
  - eapply hold_ok_from; [exact H | reflexivity | reflexivity | apply rows_from_refl |].
    intros id0 r' _ _ _. unfold excused. cbn. intros [?|[[= <-]|[?|[?|?]]]]; set_solver.
  - eapply hold_ok_from; [exact H | reflexivity | reflexivity | apply update_rows_from; discriminate |].
    intros id0 r' Hr Hh _. unfold excused. cbn. intros [?|[[= <-]|?]]; try tauto.
    destruct (update_not_hold _ _ _ _ _ Hr ltac:(discriminate) Hh).
  - eapply hold_ok_from; [exact H | reflexivity | reflexivity | apply rows_from_refl |].
    intros id0 r' _ _ _. unfold excused. cbn. intros He. destruct (decide (prior_of id0 = id)); set_solver.
  - eapply hold_ok_from; [exact H | reflexivity | reflexivity | apply update_rows_from; discriminate |].
    intros id0 r' Hr Hh _. unfold excused. cbn. intros [?|[[= <-]|?]]; try tauto.
    destruct (update_not_hold _ _ _ _ _ Hr ltac:(discriminate) Hh).
  - eapply hold_ok_from; [exact H | reflexivity | reflexivity | apply update_rows_from; discriminate |].
    intros id0 r' _ _ _ He. exact He.
  - eapply hold_ok_from; [exact H | reflexivity | reflexivity | apply release_rows_from |].
    intros id0 r' Hr Hh Hp. unfold excused. cbn. destruct (decide (prior_of id0 = id)) as [<-|Hne]; [|set_solver].
    destruct (release_none_waits _ _ _ _ Hr Hp Hh).
  - eapply hold_ok_from; [exact H | reflexivity | reflexivity | apply release_rows_from |].
    intros id0 r' _ _ _. unfold excused. cbn. destruct (decide (prior_of id0 = id)); set_solver.
  - eapply hold_ok_from; [exact H | reflexivity | reflexivity | apply rows_from_refl |].
    intros id0 r' _ _ _. unfold excused. cbn. set_solver.
  - eapply hold_ok_from; [exact H | reflexivity | reflexivity | apply other_rows_from; assumption |].
    intros id0 r' _ _ _ He. exact He.
Qed.

Lemma hold_reachable_ok s : hold_reachable s -> hold_ok s.
Proof.
  intros H. refine (rtc_ind_r (fun s => hold_ok s) hold_start _ _ s H).
  - intros id r Hr. discriminate Hr.
  - intros s1 s2 _ Hst. apply hold_step_ok, Hst.
Qed.

(** C16. The hold-and-release protocol of blocks has no lost wake-up: in every reachable state, a
    block whose prior block has become valid is not on hold, unless the validation thread
    has it, the release of the prior block's successors is still to run or has failed, or
    its own validation ended without a verdict. *)
Theorem no_block_left_on_hold s id r :
  hold_reachable s ->
  q_rows (h_queue s) !! id = Some r -> prior_of id ∈ h_valid s ->
  h_thread s <> Some id -> prior_of id ∉ h_inserted s -> id ∉ h_abandoned s -> prior_of id ∉ h_lost s ->
  q_status r <> PROCESS_Q_STATUS_HOLD.
Proof.
  intros Hreach Hr Hv Ht Hi Ha Hl Hh. destruct (proj2 (hold_reachable_ok s Hreach id r Hr) Hh) as [?|[?|[?|[?|?]]]]; tauto.
Qed.
End Hold.

Definition demo_prior (id : oid) : oid := match id with [2] => [1] | _ => [0] end.
Definition demo_child : oid := [2].
Definition demo_q0 : queue := run empty_queue (Enqueue false false true [2] 7%positive [1] 5 PROCESS_Q_STATUS_PENDING 10 false 3 4).
Definition demo_q1 : queue := snd (fst (ProcessQGetNextValidateObj demo_q0 false false)).
Definition demo_q2 : queue := snd (ProcessQUpdateSubsequentBlockStatus demo_q1 false [1]).
Definition demo_hold : hold_state := mkHold demo_q2 {[ [1] ]} None ∅ ∅ ∅.

Lemma demo_hold_reachable : hold_reachable demo_prior demo_hold.
Proof.
  eapply rtc_l; [apply (HEnqueue demo_prior empty_queue ∅ None ∅ ∅ ∅ false false [2] 7%positive 5 PROCESS_Q_STATUS_PENDING 10 false 3 4); auto|].
  eapply rtc_l; [apply (HGetNext demo_prior _ _ _ _ _ false false)|].
  eapply rtc_l; [apply (HNotYetValid demo_prior demo_q1 ∅ [2]); apply not_elem_of_empty|].
  eapply rtc_l; [apply (HInsert demo_prior demo_q1 ∅ None [1])|].
  replace ({[[1]]} ∪ ∅) with ({[ [1] ]} : gset oid) by (vm_compute; reflexivity).
  eapply rtc_l; [apply (HRelease demo_prior demo_q1 _ None [1]); apply elem_of_singleton; reflexivity|].
  replace ({[[1]]} ∖ {[[1]]}) with (∅ : gset oid) by (vm_compute; reflexivity). apply rtc_refl.
Qed.

Lemma no_block_left_on_hold_witness :
  exists r, q_rows (h_queue demo_hold) !! demo_child = Some r /\ q_status r <> PROCESS_Q_STATUS_HOLD.
Proof.
  eexists. split; [vm_compute; reflexivity|].
  apply (no_block_left_on_hold demo_prior demo_hold demo_child _ demo_hold_reachable);
    [vm_compute; reflexivity | vm_compute; reflexivity | discriminate | apply not_elem_of_empty..].
Defined.

(** Pruning a level ends, within one turn for each row and one more; unless the database
    engine fails, exactly the rows below the level are gone. *)
Theorem PruneLevel_spec q faults level :
  exists rc q' notices, ProcessQPruneLevel q false faults level = Ret (rc, q', notices) /\
    ((rc = 1 /\ forall id, q_rows q' !! id = match q_rows q !! id with
                                             | Some r => if decide (below level r) then None else Some r
                                             | None => None
                                             end)
     \/ (rc = -1 /\ exists f, (f <= size (q_rows q))%nat /\ faults f = true)).
Proof.
  destruct (Prune_spec (fun _ => True) faults level (fun _ _ _ _ _ _ => I) q false I) as (rc & q' & n & H & _ & Hc).
  exists rc, q', n. split; [exact H|]. destruct Hc as [[Hf _]|[(_ & -> & Hr)|(_ & -> & f & Hf & Hff)]]; [discriminate Hf | left | right].
  - split; [reflexivity|]. intros id. rewrite Hr. unfold kept_rows. rewrite map_lookup_filter.
    destruct (q_rows q !! id) as [r|]; [|reflexivity]. cbn. destruct (decide (below level r)).
    + rewrite option_guard_False by tauto. reflexivity.
    + rewrite option_guard_True by tauto. reflexivity.
  - split; [reflexivity|]. exists f. split; [lia|exact Hff].
Qed.
