(* ===== verification/ValidObjs.v ===== *)
(** * Valid objects (src/source/ccnode/src/dbconn-validobjs.cpp, seqnum.cpp)

    The objects that have been validated and are announced to other nodes and used by a
    witness, in a table numbered by sequence numbers.  An object of the table is a buffer:
    [mem] gives what a buffer holds, [vo_refs] counts the references to it that the table
    has taken and not given back.  Readers keep a cursor, the sequence number to go on
    from, and fetch what is new in messages for a peer or as an array of objects.
    Failures of the database engine are arguments. *)
From S2P Require Import Prelude Rows Objects Txs Block.
From stdpp Require Import gmap sorting.

Local Open Scope Z_scope.
Local Open Scope cc_scope.

(** ** Sequence counters *)

Record Seqnum := mkSeq {
  seqnum : Z;
  seqmin : Z;
  seqmax : Z
}.

Definition BLOCK_SEQNUM_MAX : Z := -7000000000000000000.
Definition INT64_MAX : Z := 2 ^ 63 - 1.
Definition INT64_MIN : Z := - 2 ^ 63.

Inductive seq_kind := BLOCKSEQ | TXSEQ | XREQSEQ.
#[export] Instance seq_kind_dec : EqDecision seq_kind.
Proof. solve_decision. Defined.

Record seq_table := mkSeqs { seq_block : Seqnum; seq_tx : Seqnum; seq_xreq : Seqnum }.

(** The row [VALIDSEQ] of [g_seqnum]. *)
Definition g_seqnum : seq_table :=
  mkSeqs (mkSeq (INT64_MIN + 1) (INT64_MIN + 1) BLOCK_SEQNUM_MAX)
         (mkSeq (BLOCK_SEQNUM_MAX + 1) (BLOCK_SEQNUM_MAX + 1) (-1))
         (mkSeq 1 1 (INT64_MAX - 1)).

Definition seq_get (t : seq_table) (k : seq_kind) : Seqnum :=
  match k with BLOCKSEQ => seq_block t | TXSEQ => seq_tx t | XREQSEQ => seq_xreq t end.
Definition seq_set (t : seq_table) (k : seq_kind) (s : Seqnum) : seq_table :=
  match k with
  | BLOCKSEQ => mkSeqs s (seq_tx t) (seq_xreq t)
  | TXSEQ => mkSeqs (seq_block t) s (seq_xreq t)
  | XREQSEQ => mkSeqs (seq_block t) (seq_tx t) s
  end.

Definition Peek (s : Seqnum) : Z := seqnum s.

(** The number, the counter, and whether the fatal error is set. *)
Definition NextNum (s : Seqnum) : Z * Seqnum * bool :=
  let next := seqnum s in
  let s := mkSeq (i64 (next + 1)) (seqmin s) (seqmax s) in
  if 0 <? i64 (next - seqmax s) then (0, s, true) else (next, s, false).

(** ** Objects in buffers *)

Inductive stored :=
| StoredBlock (size : Z) (id : list Z) (b : BlockObj)
| StoredTx (o : CCObject).

Definition st_type (o : stored) : Z := match o with StoredBlock _ _ _ => CC_TYPE_BLOCK | StoredTx o => ObjType o end.
Definition st_oid (o : stored) : list Z := match o with StoredBlock _ id _ => id | StoredTx o => obj_oid o end.
Definition st_size (o : stored) : Z := match o with StoredBlock size _ _ => size | StoredTx o => ObjSize o end.

Definition TX_BLOCKLEVEL_BYTES : Z := 5.

(** [(uint64_t)(-1)] is the error. *)
Definition txpay_param_level_from_wire (o : CCObject) : Z :=
  if negb (IsValid o) then UINT64_MAX
  else if TypeHasBareMsg (ObjType o) then 0
  else if BodySize o <? TX_BLOCKLEVEL_BYTES then UINT64_MAX
  else Z.land (le_val (take 8 (Body o))) (2 ^ (TX_BLOCKLEVEL_BYTES * 8) - 1).

Record vrow := mkV {
  v_time : Z;
  v_oid : list Z;
  v_bufp : positive
}.

Record valid_objs := mkVO {
  vo_rows : gmap Z vrow;
  vo_seqs : seq_table;
  vo_refs : gmap positive Z;
  vo_fatal : bool
}.

Definition vo_add_ref (t : valid_objs) (p : positive) (n : Z) : valid_objs :=
  mkVO (vo_rows t) (vo_seqs t) (<[p := default 0 (vo_refs t !! p) + n]> (vo_refs t)) (vo_fatal t).
Definition vo_with_rows (t : valid_objs) (rows : gmap Z vrow) : valid_objs :=
  mkVO rows (vo_seqs t) (vo_refs t) (vo_fatal t).

(** Order of blobs. *)
Fixpoint bytes_le (a b : list Z) : bool :=
  match a, b with
  | [], _ => true
  | _ :: _, [] => false
  | x :: a, y :: b => (x <? y) || (x =? y) && bytes_le a b
  end.

Definition oid_le (x y : Z * vrow) : Prop := bytes_le (v_oid (snd x)) (v_oid (snd y)) = true.
#[export] Instance oid_le_dec : RelDecision oid_le.
Proof. intros x y. unfold oid_le. apply _. Defined.
Definition seq_le (x y : Z * vrow) : Prop := fst x <= fst y.
#[export] Instance seq_le_dec : RelDecision seq_le.
Proof. intros x y. unfold seq_le. apply _. Defined.

Definition oid_from (id : list Z) (row : Z * vrow) : Prop := bytes_le id (v_oid (snd row)) = true.
#[export] Instance oid_from_dec id row : Decision (oid_from id row).
Proof. unfold oid_from. apply _. Defined.
Definition seq_between (lo hi : Z) (row : Z * vrow) : Prop := lo <= fst row /\ fst row <= hi.
#[export] Instance seq_between_dec lo hi row : Decision (seq_between lo hi row).
Proof. unfold seq_between. apply _. Defined.
Definition row_is (id : list Z) (row : Z * vrow) : Prop := v_oid (snd row) = id.
#[export] Instance row_is_dec id row : Decision (row_is id row).
Proof. unfold row_is. apply _. Defined.

Section ops.
Context (mem : positive -> stored).

Definition seq_of_type (type : Z) : seq_kind :=
  if type =? CC_TYPE_BLOCK then BLOCKSEQ else if TypeIsXreq type then XREQSEQ else TXSEQ.

(** ** Operations *)

(** 0 with the sequence number given, 1 when there is an object with the identifier, or -1. *)
Definition ValidObjsInsert (t : valid_objs) (fault : bool) (ticks : Z) (bufp : positive)
    : outcome (Z * Z * valid_objs) :=
  let obj := mem bufp in
  let type := st_type obj in
  ccassert! negb (type =? 0) in
  let kind := seq_of_type type in
  let '(seqnum, s, over) := NextNum (seq_get (vo_seqs t) kind) in
  let t := mkVO (vo_rows t) (seq_set (vo_seqs t) kind s) (vo_refs t) (vo_fatal t || over) in
  if seqnum =? 0 then Ret (-1, 0, t)
  else
    let seqnum := if (seqnum =? seqmin (seq_block (vo_seqs t))) && forallb (Z.eqb 0) (st_oid obj) then 0 else seqnum in
    if fault then Ret (-1, 0, t)
    else if bool_decide (is_Some (vo_rows t !! seqnum)) || negb (bool_decide (filter (row_is (st_oid obj)) (vo_rows t) = ∅))
    then Ret (1, 0, t)
    else
      let t := vo_with_rows t (<[seqnum := mkV ticks (st_oid obj) bufp]> (vo_rows t)) in
      Ret (0, seqnum, vo_add_ref t bufp 1).

(** 0 with the buffer, 1 when there is none, or -1. *)
Definition ValidObjsGetObj (t : valid_objs) (fault : bool) (id : list Z) (or_greater : bool) : Z * option positive :=
  if fault then (-1, None)
  else match select_rows oid_le (oid_from id) (vo_rows t) with
       | [] => (1, None)
       | (_, r) :: _ =>
           if negb or_greater && negb (bool_decide (st_oid (mem (v_bufp r)) = id)) then (1, None)
           else (0, Some (v_bufp r))
       end.

(** [copy_to_buf] when not hexadecimal: the position moves on even when it passes the end. *)
Definition copy_to_buf (data : list Z) (bufpos : Z) (out : list Z) (bufsize : Z) : Z * list Z :=
  let pos := Z.to_nat bufpos in
  let bufpos := u32 (bufpos + Z.of_nat (length data)) in
  (bufpos, if bufpos <=? bufsize then take pos out ++ data ++ drop (pos + length data) out else out).

Definition CC_MSG_HAVE_BLOCK : Z := 0xCC4D0001.
Definition CC_MSG_HAVE_TX : Z := 0xCC4D0002.
Definition CC_OID_BYTES : Z := 16.
Definition RELAY_PARAMS_BYTES : Z := CC_OID_BYTES + CC_OID_BYTES + 8 + 4 + 1.
Definition CC_HAVE_MAX : Z := 100.
Definition CC_HAVE_MAX_MSG_SIZE : Z := CC_MSG_HEADER_SIZE + CC_HAVE_MAX * (CC_OID_BYTES + 4 + 8) + 20.

(** Where the search stands: the cursor, the objects of the array, and the message.  In
    the array mode [f_pos] counts objects, else bytes. *)
Record search := mkFind {
  f_next : Z;
  f_pos : Z;
  f_arr : list (Z * positive);
  f_out : list Z
}.

Fixpoint copy_fields (fields : list (list Z)) (pos : Z) (out : list Z) (bufsize : Z) : Z * list Z :=
  match fields with
  | [] => (pos, out)
  | d :: fields => let '(pos, out) := copy_to_buf d pos out bufsize in copy_fields fields pos out bufsize
  end.

(** Room for the size word, and the tag, when the message is empty. *)
Definition start_msg (tag : Z) (pos : Z) (out : list Z) (bufsize : Z) : Z * list Z :=
  if pos =? 0 then copy_fields [le_bytes 4 pos; le_bytes 4 tag] pos out bufsize else (pos, out).

(** The tag of the announcement of an object, the size that is compared with the room
    left, and its fields; none for a transaction whose level cannot be read. *)
Definition announce (is_block : bool) (obj : stored) : option (Z * Z * list (list Z)) :=
  match is_block, obj with
  | true, StoredBlock size id b =>
      let wire := WireData b in
      Some (CC_MSG_HAVE_BLOCK, RELAY_PARAMS_BYTES,
            [id; prior_oid wire; le_bytes 8 (level wire); le_bytes 4 size; le_bytes 1 (witness wire)])
  | false, StoredTx o =>
      let param_level := txpay_param_level_from_wire o in
      if param_level =? UINT64_MAX then None
      else Some (CC_MSG_HAVE_TX, CC_OID_BYTES + 8 + 4, [obj_oid o; le_bytes 8 param_level; le_bytes 4 (ObjSize o)])
  | _, _ => None
  end.

(** One row: the new state, and whether the loop goes on.  [bad] says that the row could
    not be read. *)
Definition find_row (block_max : Z) (want_msgs : bool) (bufsize : Z) (bad : bool) (sq : Z) (r : vrow) (s : search)
    : search * bool :=
  let s := mkFind (sq + 1) (f_pos s) (f_arr s) (f_out s) in
  let obj := mem (v_bufp r) in
  if bad || negb (bool_decide (st_oid obj = v_oid r)) then (s, false)
  else if negb want_msgs then
    (mkFind (f_next s) (f_pos s + 1) (f_arr s ++ [(sq, v_bufp r)]) (f_out s), negb (bufsize <=? f_pos s + 1))
  else match announce (sq <=? block_max) obj with
       | None => (s, false)
       | Some (tag, need, fields) =>
           let '(pos, out) := start_msg tag (f_pos s) (f_out s) bufsize in
           if bufsize <? u32 (pos + need) then (mkFind (f_next s - 1) pos (f_arr s) out, false)
           else let '(pos, out) := copy_fields fields pos out bufsize in
                (mkFind (f_next s) pos (f_arr s) out, true)
       end.

(** [stop] is a shutdown or a failure before the row is fetched. *)
Fixpoint find_loop (block_max : Z) (want_msgs : bool) (bufsize : Z) (stop bad : Z -> bool)
    (rows : list (Z * vrow)) (s : search) : search :=
  match rows with
  | [] => s
  | (sq, r) :: rows =>
      if stop sq then s
      else let '(s, go) := find_row block_max want_msgs bufsize (bad sq) sq r s in
           if go then find_loop block_max want_msgs bufsize stop bad rows s else s
  end.

(** "where Seqnum between ?1 and ?2 order by Seqnum limit ?3" *)
Definition select_seqnums (t : valid_objs) (lo hi : Z) (limit : nat) : list (Z * vrow) :=
  take limit (select_rows seq_le (seq_between lo hi) (vo_rows t)).

(** The value returned, and the cursor, the array and the message.  The result is unsigned. *)
Definition ValidObjsFindNew (t : valid_objs) (fault : bool) (stop bad : Z -> bool) (next_seqnum max_seqnum : Z)
    (limit : nat) (want_msgs : bool) (out : list Z) (bufsize : Z) : Z * search :=
  let s := mkFind next_seqnum 0 [] out in
  if fault then (u32 (-1), s)
  else
    let s := find_loop (seqmax (seq_block (vo_seqs t))) want_msgs bufsize stop bad
               (select_seqnums t next_seqnum max_seqnum limit) s in
    if bufsize <? f_pos s then (0, s)
    else (f_pos s, if want_msgs then mkFind (f_next s) (f_pos s) (f_arr s) (le_bytes 4 (f_pos s) ++ drop 4 (f_out s)) else s).

(** The object is found by its identifier; the reference given back is the caller's. *)
Definition ValidObjsDeleteObj (t : valid_objs) (fault : bool) (bufp : positive) : Z * valid_objs :=
  if fault then (-1, t)
  else
    let id := st_oid (mem bufp) in
    let t' := vo_with_rows t (filter (fun row => ~ row_is id row) (vo_rows t)) in
    if bool_decide (filter (row_is id) (vo_rows t) = ∅) then (0, t') else (0, vo_add_ref t' bufp (-1)).

(** No reference is given back. *)
Definition ValidObjsDeleteSeqnum (t : valid_objs) (fault : bool) (seqnum : Z) : Z * valid_objs :=
  if fault then (-1, t) else (0, vo_with_rows t (delete seqnum (vo_rows t))).

(** Result, the sequence number found or -1, the buffer and its time.  [unreadable] says
    that the row has no buffer, which is reported as found. *)
Definition ValidObjsGetExpires (t : valid_objs) (fault fault2 unreadable : bool) (min_seqnum max_seqnum last_expires_seqnum : Z)
    : Z * Z * option positive * Z :=
  if fault then (-1, -1, None, 0)
  else match select_seqnums t min_seqnum max_seqnum 1 with
       | [] => (1, -1, None, 0)
       | (seqnum, r) :: _ =>
           if seqnum =? last_expires_seqnum then (-1, -1, None, 0)
           else if fault2 then (-1, -1, None, 0)
           else (0, seqnum, if unreadable then None else Some (v_bufp r), v_time r)
       end.
End ops.

(** ** The order of blobs *)

Lemma bytes_le_trans : forall a b c, bytes_le a b = true -> bytes_le b c = true -> bytes_le a c = true.
Proof.
  induction a as [|x a IH]; intros [|y b] [|z c] Hab Hbc; try done.
  cbn in *. apply orb_true_iff in Hab, Hbc. rewrite !andb_true_iff, Z.ltb_lt, Z.eqb_eq in *.
  apply orb_true_iff. rewrite andb_true_iff, Z.ltb_lt, Z.eqb_eq.
  destruct Hab as [Hab|[-> Hab]], Hbc as [Hbc|[-> Hbc]]; eauto; lia.
Qed.

Lemma bytes_le_total : forall a b, bytes_le a b = true \/ bytes_le b a = true.
Proof.
  induction a as [|x a IH]; intros [|y b]; cbn; auto.
  rewrite !orb_true_iff, !andb_true_iff, !Z.ltb_lt, !Z.eqb_eq.
  destruct (Z.lt_total x y) as [?|[->|?]]; auto. destruct (IH b); auto.
Qed.

Lemma bytes_le_antisym : forall a b, bytes_le a b = true -> bytes_le b a = true -> a = b.
Proof.
  induction a as [|x a IH]; intros [|y b] Hab Hba; cbn in *; try done.
  apply orb_true_iff in Hab, Hba. rewrite !andb_true_iff, !Z.ltb_lt, !Z.eqb_eq in *.
  destruct Hab as [Hab|[-> Hab]], Hba as [Hba|[E Hba]]; try lia. f_equal. auto.
Qed.

Lemma bytes_le_refl a : bytes_le a a = true.
Proof. destruct (bytes_le_total a a); assumption. Qed.

#[export] Instance oid_le_trans : Transitive oid_le.
Proof. intros x y z. apply bytes_le_trans. Qed.
#[export] Instance oid_le_total : Total oid_le.
Proof. intros x y. apply bytes_le_total. Qed.
#[export] Instance seq_le_trans : Transitive seq_le.
Proof. intros x y z. unfold seq_le. lia. Qed.
#[export] Instance seq_le_total : Total seq_le.
Proof. intros x y. unfold seq_le. lia. Qed.

(** ** The invariant of the table *)

Definition seq_ok (s s0 : Seqnum) : Prop :=
  seqmin s = seqmin s0 /\ seqmax s = seqmax s0 /\ seqmin s <= seqnum s <= seqmax s + 1.

Definition limits_ok (s s0 : Seqnum) : Prop := seqmin s = seqmin s0 /\ seqmax s = seqmax s0.

(** The first block may have been given the number 0. *)
Definition row_seq_ok (mem : positive -> stored) (t : valid_objs) (sq : Z) (r : vrow) : Prop :=
  let k := seq_of_type (st_type (mem (v_bufp r))) in
  sq = 0 /\ k = BLOCKSEQ
  \/ seqmin (seq_get g_seqnum k) <= sq < seqnum (seq_get (vo_seqs t) k).

Definition oids_unique (rows : gmap Z vrow) : Prop :=
  forall a b ra rb, rows !! a = Some ra -> rows !! b = Some rb -> v_oid ra = v_oid rb -> a = b.

Record vo_ok (mem : positive -> stored) (t : valid_objs) : Prop := {
  vo_limits : forall k, limits_ok (seq_get (vo_seqs t) k) (seq_get g_seqnum k);
  vo_counters : vo_fatal t = false -> forall k, seq_ok (seq_get (vo_seqs t) k) (seq_get g_seqnum k);
  vo_oids : forall sq r, vo_rows t !! sq = Some r -> st_oid (mem (v_bufp r)) = v_oid r;
  vo_unique : oids_unique (vo_rows t);
  vo_numbers : vo_fatal t = false -> forall sq r, vo_rows t !! sq = Some r -> row_seq_ok mem t sq r
}.

Definition vo_start : valid_objs := mkVO ∅ g_seqnum ∅ false.

Lemma vo_start_ok mem : vo_ok mem vo_start.
Proof.
  split.
  - intros k. by split.
  - intros _ []; vm_compute; auto; split_and!; congruence.
  - intros sq r Hr. cbn in Hr. rewrite lookup_empty in Hr. done.
  - intros a b ra rb Ha. cbn in Ha. rewrite lookup_empty in Ha. done.
  - intros _ sq r Hr. cbn in Hr. rewrite lookup_empty in Hr. done.
Qed.

Lemma seq_get_set t k s k' : seq_get (seq_set t k s) k' = if decide (k = k') then s else seq_get t k'.
Proof. by destruct k, k', (decide _). Qed.

(** While the counter has not run out, it gives its numbers in order. *)
Lemma NextNum_ok s k n s' over : seq_ok s (seq_get g_seqnum k) -> NextNum s = (n, s', over) ->
  seqmin s' = seqmin s /\ seqmax s' = seqmax s
  /\ if over then n = 0 else n = seqnum s /\ seqnum s' = seqnum s + 1 /\ seqnum s <= seqmax s.
Proof.
  intros (Hmin & Hmax & Hr) Hn. unfold NextNum in Hn. cbv zeta in Hn. cbn [seqmax] in Hn.
  assert (seqmin (seq_get g_seqnum k) = seqmin s /\ - 2 ^ 63 < seqmin s
          /\ seqmax s < 2 ^ 63 - 1 /\ - 2 ^ 63 <= seqmin s - seqmax s) as (_ & H1 & H2 & H3).
  { rewrite Hmin, Hmax. destruct k; vm_compute; split_and!; congruence. }
  rewrite (i64_small (seqnum s - seqmax s)) in Hn by lia.
  destruct (Z.ltb_spec 0 (seqnum s - seqmax s)); injection Hn as <- <- <-; cbn; [done|].
  rewrite i64_small by lia. split_and!; lia.
Qed.

Lemma NextNum_limits s n s' over : NextNum s = (n, s', over) -> seqmin s' = seqmin s /\ seqmax s' = seqmax s.
Proof. unfold NextNum. destruct (_ <? _); intros [= <- <- <-]; done. Qed.

(** ** Operations keep the invariant *)

Lemma seq_get_min_neg : seqmin (seq_block g_seqnum) <> 0 /\ seqmax (seq_block g_seqnum) < 0.
Proof. vm_compute. split; congruence. Qed.

Lemma vo_ok_rows mem t rows :
  vo_ok mem t -> (forall sq r, rows !! sq = Some r -> vo_rows t !! sq = Some r) ->
  forall refs, vo_ok mem (mkVO rows (vo_seqs t) refs (vo_fatal t)).
Proof.
  intros [L C O U N] Hsub refs. split; cbn; [exact L | exact C | eauto | |].
  - intros a b ra rb Ha Hb. apply U; eauto.
  - intros Hf sq r Hr. apply (N Hf sq r). auto.
Qed.

Lemma row_is_none (rows : gmap Z vrow) id : filter (row_is id) rows = ∅ -> forall sq r, rows !! sq = Some r -> v_oid r <> id.
Proof.
  intros He sq r Hr Heq. assert (filter (row_is id) rows !! sq = Some r) as Hf.
  { apply map_lookup_filter_Some. split; [exact Hr | exact Heq]. }
  rewrite He in Hf. done.
Qed.

Lemma row_is_some (rows : gmap Z vrow) id : filter (row_is id) rows <> ∅ -> exists sq r, rows !! sq = Some r /\ v_oid r = id.
Proof.
  intros Hne. destruct (map_choose _ Hne) as (sq & r & Hf).
  apply map_lookup_filter_Some in Hf as [Hr Heq]. eauto.
Qed.

Section insert.
Context (mem : positive -> stored).

(** What an insertion does, on each of its branches. *)
Lemma Insert_cases t fault ticks p rc n t' :
  ValidObjsInsert mem t fault ticks p = Ret (rc, n, t') ->
  let obj := mem p in let k := seq_of_type (st_type obj) in
  exists sq s over, NextNum (seq_get (vo_seqs t) k) = (sq, s, over) /\ st_type obj <> 0
  /\ vo_seqs t' = seq_set (vo_seqs t) k s /\ vo_fatal t' = vo_fatal t || over
  /\ (rc <> 0 /\ n = 0 /\ vo_rows t' = vo_rows t /\ vo_refs t' = vo_refs t
      /\ (rc = 1 \/ rc = -1)
      \/ rc = 0 /\ sq <> 0 /\ (n = sq \/ n = 0 /\ sq = seqmin (seq_block (vo_seqs t')))
         /\ vo_rows t !! n = None /\ (forall sq' r', vo_rows t !! sq' = Some r' -> v_oid r' <> st_oid obj)
         /\ vo_rows t' = <[n := mkV ticks (st_oid obj) p]> (vo_rows t)
         /\ vo_refs t' = <[p := default 0 (vo_refs t !! p) + 1]> (vo_refs t)).
Proof.
  intros Hi obj k. unfold ValidObjsInsert in Hi. cbv zeta in Hi. fold obj in Hi. fold k in Hi.
  destruct (Z.eqb_spec (st_type obj) 0) as [|Ht]; [done|]. cbn [negb] in Hi.
  destruct (NextNum (seq_get (vo_seqs t) k)) as [[sq s] over] eqn:En. exists sq, s, over.
  split; [done|]. split; [exact Ht|]. cbv zeta in Hi.
  destruct (Z.eqb_spec sq 0) as [|Hz]; [injection Hi as <- <- <-; cbn; split_and!; auto; left; split_and!; auto; lia|].
  destruct fault; [injection Hi as <- <- <-; cbn; split_and!; auto; left; split_and!; auto; lia|].
  match type of Hi with context [is_Some (_ !! ?e)] => set (num := e) in * end.
  destruct (bool_decide _ || _) eqn:Ec; injection Hi as <- <- <-; cbn; [split_and!; auto; left; split_and!; auto; lia|].
  apply orb_false_iff in Ec as [E1 E2]. apply bool_decide_eq_false in E1.
  apply negb_false_iff, bool_decide_eq_true in E2.
  split_and!; auto. right. split_and!; auto.
  - unfold num. cbn. destruct (_ && _) eqn:Eg; [|by left]. right. split; [done|].
    apply andb_true_iff in Eg as [Eg _]. by apply Z.eqb_eq in Eg.
  - by apply eq_None_not_Some.
  - apply (row_is_none _ _ E2).
Qed.

Lemma vo_ok_seqs t k s over n :
  NextNum (seq_get (vo_seqs t) k) = (n, s, over) -> vo_ok mem t ->
  vo_ok mem (mkVO (vo_rows t) (seq_set (vo_seqs t) k s) (vo_refs t) (vo_fatal t || over)).
Proof.
  intros En [L C O U N]. split; cbn; [| | exact O | exact U |].
  - intros k'. rewrite seq_get_set. destruct (decide (k = k')) as [<-|]; [|apply L].
    destruct (NextNum_limits _ _ _ _ En) as [E1 E2]. destruct (L k). split; congruence.
  - intros Hf k'. apply orb_false_iff in Hf as [Hf ->]. rewrite seq_get_set.
    destruct (decide (k = k')) as [<-|]; [|auto]. pose proof (C Hf k) as Hk.
    destruct (NextNum_ok _ k _ _ _ Hk En) as (E1 & E2 & _ & E3 & E4). destruct Hk as (K1 & K2 & K3).
    split_and!; [congruence | congruence | lia | lia].
  - intros Hf sq r Hr. apply orb_false_iff in Hf as [Hf ->]. destruct (N Hf sq r Hr) as [?|Hlt]; [by left|].
    right. cbn. rewrite seq_get_set. destruct (decide _) as [Ek|]; [|exact Hlt]. rewrite <- Ek in Hlt |- *.
    destruct (NextNum_ok _ k _ _ _ (C Hf k) En) as (_ & _ & _ & E3 & _). lia.
Qed.

Lemma Insert_ok t fault ticks p rc n t' : vo_ok mem t ->
  ValidObjsInsert mem t fault ticks p = Ret (rc, n, t') -> vo_ok mem t'.
Proof.
  intros Hok Hi. destruct (Insert_cases _ _ _ _ _ _ _ Hi) as (sq & s & over & En & Ht & Hs & Hf & Hc).
  pose proof (vo_ok_seqs t _ s over sq En Hok) as Hok1.
  destruct t' as [rows' seqs' refs' fatal']. cbn in *. subst seqs' fatal'.
  destruct Hc as [(_ & _ & -> & -> & _)|(_ & Hz & Hn & Hnone & Hnew & -> & ->)]; [exact Hok1|].
  pose proof Hok1 as [L C O U N]. cbn in *.
  set (k := seq_of_type (st_type (mem p))) in *. split; cbn; [exact L | exact C | | |].
  - intros sq' r Hr. apply lookup_insert_Some in Hr as [[<- <-]|[_ Hr]]; [done | eauto].
  - intros a b ra rb Ha Hb Heq. apply lookup_insert_Some in Ha as [[<- <-]|[_ Ha]];
      apply lookup_insert_Some in Hb as [[<- <-]|[_ Hb]]; [done | | | eauto].
    + destruct (Hnew _ _ Hb). done.
    + destruct (Hnew _ _ Ha). done.
  - intros Hf' sq' r Hr. apply lookup_insert_Some in Hr as [[<- <-]|[_ Hr]]; [|by apply N].
    apply orb_false_iff in Hf' as [Hf' ->]. unfold row_seq_ok. cbn. fold k.
    pose proof (vo_counters _ _ Hok Hf' k) as Hk. destruct (NextNum_ok _ k _ _ _ Hk En) as (_ & _ & -> & E3 & E4).
    destruct Hk as (K1 & K2 & K3). rewrite seq_get_set, decide_True by done.
    destruct Hn as [->|[-> Hfirst]]; [right; rewrite <- K1; lia|]. left. split; [done|].
    destruct (decide (k = BLOCKSEQ)) as [|Hk]; [done|]. exfalso.
    rewrite K1 in K3. destruct (L BLOCKSEQ) as [L1 _]. cbn in L1. rewrite L1 in Hfirst. rewrite Hfirst in K3.
    revert K3. clear -Hk. destruct k; [done| |]; cbn; unfold INT64_MIN, BLOCK_SEQNUM_MAX; lia.
Qed.

Lemma DeleteObj_ok t fault p rc t' : vo_ok mem t -> ValidObjsDeleteObj mem t fault p = (rc, t') -> vo_ok mem t'.
Proof.
  intros Hok. unfold ValidObjsDeleteObj. destruct fault; [by intros [= <- <-]|].
  case_bool_decide; intros [= <- <-]; apply (vo_ok_rows mem t); try exact Hok; intros sq r Hr;
    by apply map_lookup_filter_Some in Hr as [Hr _].
Qed.

Lemma DeleteSeqnum_ok t fault n rc t' : vo_ok mem t -> ValidObjsDeleteSeqnum t fault n = (rc, t') -> vo_ok mem t'.
Proof.
  intros Hok. unfold ValidObjsDeleteSeqnum. destruct fault; intros [= <- <-]; [exact Hok|].
  apply (vo_ok_rows mem t); [exact Hok|]. intros sq r Hr. by apply lookup_delete_Some in Hr as [_ Hr].
Qed.

(** An object is found by its identifier exactly when it is in the table. *)
Lemma GetObj_exact t id : vo_ok mem t ->
  match ValidObjsGetObj mem t false id false with
  | (0, Some p) => exists sq r, vo_rows t !! sq = Some r /\ v_oid r = id /\ v_bufp r = p
  | (1, None) => forall sq r, vo_rows t !! sq = Some r -> v_oid r <> id
  | _ => False
  end.
Proof.
  intros Hok. unfold ValidObjsGetObj. destruct (select_rows _ _ _) as [|[sq r] rest] eqn:Es.
  - intros sq r Hr Heq. apply (select_rows_nil _ _ _ Es sq r Hr). unfold oid_from. cbn. rewrite Heq. apply bytes_le_refl.
  - apply (select_rows_first oid_le (oid_from id)) in Es as (Hr & Hfrom & Hleast). pose proof (vo_oids _ _ Hok sq r Hr) as Ho.
    cbn [negb andb]. rewrite Ho. destruct (bool_decide_reflect (v_oid r = id)) as [Heq|Hne]; cbn [negb].
    + exists sq, r. auto.
    + intros sq' r' Hr' Heq. apply Hne. apply bytes_le_antisym; [|exact Hfrom]. rewrite <- Heq.
      apply (Hleast sq' r' Hr'). unfold oid_from. cbn. rewrite Heq. apply bytes_le_refl.
Qed.
End insert.

(** ** References *)

Definition in_buffer (p : positive) (row : Z * vrow) : Prop := v_bufp (snd row) = p.
#[export] Instance in_buffer_dec p row : Decision (in_buffer p row).
Proof. unfold in_buffer. apply _. Defined.

Definition vo_ref (t : valid_objs) (p : positive) : Z := default 0 (vo_refs t !! p).

(** The table holds one reference for each of its rows. *)
Definition vo_refs_ok (t : valid_objs) : Prop := forall p, vo_ref t p = count (in_buffer p) (vo_rows t).

Lemma lookup_refs (m : gmap positive Z) p q n :
  default 0 (<[p := default 0 (m !! p) + n]> m !! q) = default 0 (m !! q) + (if decide (p = q) then n else 0).
Proof.
  destruct (decide (p = q)) as [<-|Hne]; [by rewrite lookup_insert_eq|].
  rewrite lookup_insert_ne by done. lia.
Qed.

Lemma one_in_buffer p q sq r : v_bufp r = q -> one (in_buffer p) (sq, r) = if decide (q = p) then 1 else 0.
Proof. intros <-. reflexivity. Qed.

Lemma filter_one_row (rows : gmap Z vrow) id sq r : oids_unique rows -> rows !! sq = Some r -> v_oid r = id ->
  filter (fun row => ~ row_is id row) rows = delete sq rows.
Proof.
  intros Hu Hr Hid. apply map_eq. intros i. destruct (decide (i = sq)) as [->|Hne].
  - rewrite lookup_delete_eq. apply map_lookup_filter_None. right. intros x Hx Hnot.
    apply Hnot. unfold row_is. cbn. congruence.
  - rewrite lookup_delete_ne by done. apply option_eq. intros x. rewrite map_lookup_filter_Some.
    split; [by intros [? _]|]. intros Hx. split; [exact Hx|]. unfold row_is. cbn. intros Hx'.
    apply Hne. eapply Hu; [exact Hx | exact Hr | congruence].
Qed.

(** Insertions keep a reference for each row; a deletion of an object does when it is
    given the buffer that the row holds, and otherwise gives back a reference to a buffer
    that the table does not hold, and keeps one to a buffer of no row. *)
Definition buffer_of_row (mem : positive -> stored) (t : valid_objs) (p : positive) : Prop :=
  forall sq r, vo_rows t !! sq = Some r -> v_oid r = st_oid (mem p) -> v_bufp r = p.

Lemma Insert_refs mem t fault ticks p rc n t' : vo_refs_ok t ->
  ValidObjsInsert mem t fault ticks p = Ret (rc, n, t') -> vo_refs_ok t'.
Proof.
  intros Hr Hi. destruct (Insert_cases _ _ _ _ _ _ _ _ Hi) as (sq & s & over & _ & _ & _ & _ & Hc). intros q.
  destruct Hc as [(_ & _ & Er & Ef & _)|(_ & _ & _ & Hnone & _ & Er & Ef)]; unfold vo_ref; rewrite Er, Ef; [apply Hr|].
  rewrite lookup_refs, count_insert_new by exact Hnone. rewrite (one_in_buffer _ p) by reflexivity.
  specialize (Hr q). unfold vo_ref in Hr. lia.
Qed.

Lemma DeleteObj_refs mem t fault p rc t' : oids_unique (vo_rows t) -> vo_refs_ok t -> buffer_of_row mem t p ->
  ValidObjsDeleteObj mem t fault p = (rc, t') -> vo_refs_ok t'.
Proof.
  intros Hu Hr Hp. unfold ValidObjsDeleteObj. destruct fault; [by intros [= <- <-]|].
  destruct (bool_decide_reflect (filter (row_is (st_oid (mem p))) (vo_rows t) = ∅)) as [He|Hne]; intros [= <- <-] q.
  - specialize (Hr q). unfold vo_ref in *. cbn. rewrite Hr. f_equal. symmetry. apply map_eq. intros i. apply option_eq. intros x. rewrite map_lookup_filter_Some.
    split; [by intros [? _]|]. intros Hx. split; [exact Hx|]. exact (row_is_none _ _ He _ _ Hx).
  - apply row_is_some in Hne as (sq & r & Hsq & Hid). cbn. unfold vo_ref. cbn. rewrite lookup_refs.
    rewrite (filter_one_row _ _ sq r) by done. rewrite (count_delete _ _ _ r) by done.
    rewrite (one_in_buffer _ p) by eauto. specialize (Hr q). unfold vo_ref in Hr. destruct (decide _); lia.
Qed.

Inductive vo_op :=
| VoInsert (fault : bool) (ticks : Z) (p : positive)
| VoDelete (fault : bool) (p : positive)
| VoDeleteSeqnum (fault : bool) (sq : Z).

Definition vo_run (mem : positive -> stored) (t : valid_objs) (o : vo_op) : outcome valid_objs :=
  match o with
  | VoInsert fault ticks p => let! res := ValidObjsInsert mem t fault ticks p in Ret (snd res)
  | VoDelete fault p => Ret (snd (ValidObjsDeleteObj mem t fault p))
  | VoDeleteSeqnum fault sq => Ret (snd (ValidObjsDeleteSeqnum t fault sq))
  end.

(** The operations that keep count of references. *)
Definition counted (mem : positive -> stored) (t : valid_objs) (o : vo_op) : Prop :=
  match o with
  | VoInsert _ _ _ => True
  | VoDelete _ p => buffer_of_row mem t p
  | VoDeleteSeqnum _ _ => False
  end.

Lemma vo_run_ok mem t o t' : vo_ok mem t -> vo_run mem t o = Ret t' -> vo_ok mem t'.
Proof.
  intros Hok. destruct o as [fault ticks p|fault p|fault sq]; cbn [vo_run].
  - destruct (ValidObjsInsert _ _ _ _ _) as [[[rc n] t1]|] eqn:Ei; cbn; [|done]. intros [= <-].
    exact (Insert_ok mem _ _ _ _ _ _ _ Hok Ei).
  - intros [= <-]. destruct (ValidObjsDeleteObj _ _ _ _) as [rc t1] eqn:Ed. exact (DeleteObj_ok mem _ _ _ _ _ Hok Ed).
  - intros [= <-]. destruct (ValidObjsDeleteSeqnum _ _ _) as [rc t1] eqn:Ed. exact (DeleteSeqnum_ok mem _ _ _ _ _ Hok Ed).
Qed.

Inductive counted_run (mem : positive -> stored) : valid_objs -> Prop :=
| counted_start : counted_run mem vo_start
| counted_next t o t' : counted_run mem t -> counted mem t o -> vo_run mem t o = Ret t' -> counted_run mem t'.

Lemma counted_run_ok mem t : counted_run mem t -> vo_ok mem t /\ vo_refs_ok t.
Proof.
  induction 1 as [|t o t' _ [Hok Hr] Hc Hrun].
  - split; [apply vo_start_ok|]. intros p. reflexivity.
  - split; [exact (vo_run_ok _ _ _ _ Hok Hrun)|]. destruct o as [fault ticks p|fault p|fault sq]; cbn [vo_run] in Hrun; [| |done].
    + destruct (ValidObjsInsert _ _ _ _ _) as [[[rc n] t1]|] eqn:Ei; cbn in Hrun; [|done]. injection Hrun as <-.
      exact (Insert_refs _ _ _ _ _ _ _ _ Hr Ei).
    + injection Hrun as <-. destruct (ValidObjsDeleteObj _ _ _ _) as [rc t1] eqn:Ed.
      exact (DeleteObj_refs _ _ _ _ _ _ (vo_unique _ _ Hok) Hr Hc Ed).
Qed.

(** The table of valid objects holds exactly one reference for each of its rows, in
    every state that insertions and deletions lead to, as long as objects are deleted
    with the buffer that the table holds.  When an object is deleted with another buffer
    of the same identifier, the reference given back is one that the table never took,
    and the one to the buffer of the row is never given back. *)
Theorem valid_objs_references mem t p : counted_run mem t ->
  vo_ref t p = count (in_buffer p) (vo_rows t)
  /\ forall sq r q, vo_rows t !! sq = Some r -> v_oid r = st_oid (mem q) -> v_bufp r <> q ->
     let t' := snd (ValidObjsDeleteObj mem t false q) in
     vo_rows t' = delete sq (vo_rows t)
     /\ vo_ref t' q = count (in_buffer q) (vo_rows t') - 1
     /\ vo_ref t' (v_bufp r) = count (in_buffer (v_bufp r)) (vo_rows t') + 1.
Proof.
  intros Hrun. destruct (counted_run_ok _ _ Hrun) as [Hok Hr]. split; [apply Hr|].
  intros sq r q Hsq Hid Hne. unfold ValidObjsDeleteObj.
  rewrite bool_decide_eq_false_2.
  2:{ intros He. exact (row_is_none _ _ He _ _ Hsq Hid). }
  cbn. rewrite (filter_one_row _ _ sq r) by (try apply (vo_unique _ _ Hok); done). split; [done|].
  unfold vo_ref. cbn. rewrite !lookup_refs, !(count_delete _ _ _ r) by done.
  rewrite !(one_in_buffer _ (v_bufp r)) by done. pose proof (Hr q) as H1. pose proof (Hr (v_bufp r)) as H2.
  unfold vo_ref in H1, H2. split.
  - rewrite decide_True by done. rewrite decide_False by done. lia.
  - rewrite decide_False by done. rewrite decide_True by done. lia.
Qed.

(** An example: a block in one buffer, and a payment in all others. *)
Definition demo_payment : CCObject := mkObj (replicate 16 7) 66 CC_TAG_TX (replicate 58 0).
Definition demo_block : BlockObj := mkBlock (mkWire [] (replicate 16 3) 5 0 2) [] None None.
Definition demo_mem (p : positive) : stored :=
  match p with 1%positive => StoredBlock 100 (replicate 16 4) demo_block | _ => StoredTx demo_payment end.
Definition demo_insert (t : valid_objs) (p : positive) : valid_objs :=
  match ValidObjsInsert demo_mem t false 0 p with Ret (_, _, t') => t' | Throw _ => t end.
Definition demo_table : valid_objs := demo_insert (demo_insert vo_start 1) 2.
Definition demo_sq : Z := BLOCK_SEQNUM_MAX + 1.
Definition demo_row : vrow := mkV 0 (replicate 16 7) 2.

Lemma demo_table_counted : counted_run demo_mem demo_table.
Proof.
  apply (counted_next demo_mem (demo_insert vo_start 1) (VoInsert false 0 2)); [|exact I|reflexivity].
  apply (counted_next demo_mem vo_start (VoInsert false 0 1)); [constructor | exact I | reflexivity].
Qed.

Lemma valid_objs_references_witness :
  vo_ref (snd (ValidObjsDeleteObj demo_mem demo_table false 3)) 3 = -1
  /\ vo_ref (snd (ValidObjsDeleteObj demo_mem demo_table false 3)) 2 = 1.
Proof.
  destruct (valid_objs_references demo_mem demo_table 2 demo_table_counted) as [_ H].
  assert (vo_rows demo_table !! demo_sq = Some demo_row) as H1 by (vm_compute; reflexivity).
  assert (v_oid demo_row = st_oid (demo_mem 3)) as H2 by reflexivity.
  assert (v_bufp demo_row <> 3%positive) as H3 by (vm_compute; congruence).
  destruct (H demo_sq demo_row 3%positive H1 H2 H3) as (Hr & Hq & Hp). split.
  - rewrite Hq. vm_compute. reflexivity.
  - change 2%positive with (v_bufp demo_row). rewrite Hp. vm_compute. reflexivity.
Defined.
