(* ===== verification/Announce.v ===== *)
(** * Announcements (src/source/ccnode/src/relay.cpp, with ValidObjs.v)

    What a peer makes of the announcements of valid objects that [ValidObjsFindNew]
    writes, and what readers of the table of valid objects see over time. *)
From S2P Require Import Prelude Rows Objects Txs Block ValidObjs.
From stdpp Require Import gmap sorting.

Local Open Scope Z_scope.
Local Open Scope cc_scope.

(** ** Reading an announcement *)

(** [relay_request_wire_params_t] *)
Record relay_params := mkRelay {
  rp_oid : list Z;
  rp_prior : list Z;
  rp_level : Z;
  rp_size : Z;
  rp_witness : Z
}.

(** [copy_from_buf]: zeros when the buffer ends before the data. *)
Definition copy_from_buf (nbytes bufpos : Z) (buffer : list Z) (bufsize : Z) : Z * list Z :=
  let pos := u32 (bufpos + nbytes) in
  (pos, if pos <=? bufsize then take (Z.to_nat nbytes) (drop (Z.to_nat bufpos) buffer) else replicate (Z.to_nat nbytes) 0).

Definition read_params (is_block : bool) (bufpos : Z) (msg : list Z) (msgsize : Z) : Z * relay_params :=
  if is_block then
    let '(bufpos, d) := copy_from_buf RELAY_PARAMS_BYTES bufpos msg msgsize in
    (bufpos, mkRelay (take 16 d) (take 16 (drop 16 d)) (le_val (take 8 (drop 32 d))) (le_val (take 4 (drop 40 d)))
               (le_val (take 1 (drop 44 d))))
  else
    let '(bufpos, id) := copy_from_buf CC_OID_BYTES bufpos msg msgsize in
    let '(bufpos, lv) := copy_from_buf 8 bufpos msg msgsize in
    let '(bufpos, size) := copy_from_buf 4 bufpos msg msgsize in
    (bufpos, mkRelay id (replicate 16 0) (le_val lv) (le_val size) 0).

(** The objects inserted as announced by the peer, and whether the connection is stopped.
    [full] says that objects take up more memory than allowed. *)
Fixpoint have_loop (fuel : nat) (is_block full : bool) (prune_level msgsize : Z) (msg : list Z) (bufpos : Z)
    : outcome (list relay_params * bool) :=
  match fuel with
  | O => Throw FuelOut
  | S f =>
      if negb (bufpos <? msgsize) then Ret ([], false)
      else
        let '(bufpos, req_params) := read_params is_block bufpos msg msgsize in
        if msgsize <? bufpos then Ret ([], true)
        else if INT64_MAX <? rp_level req_params then Ret ([], true)
        else
          let! res := have_loop f is_block full prune_level msgsize msg bufpos in
          let '(inserted, stopped) := res in
          if is_block && (rp_level req_params <? prune_level) then Ret (inserted, stopped)
          else if negb is_block && full then Ret (inserted, stopped)
          else Ret (req_params :: inserted, stopped)
  end.

Definition handle_have (full : bool) (prune_level msgsize tag : Z) (msg : list Z) : outcome (list relay_params * bool) :=
  have_loop (S (Z.to_nat msgsize)) (tag =? CC_MSG_HAVE_BLOCK) full
    (if tag =? CC_MSG_HAVE_BLOCK then prune_level else 0) msgsize msg CC_MSG_HEADER_SIZE.

(** ** Writing an announcement *)

Section lists.
Implicit Types l pre rest : list Z.

Lemma Zlen_nonneg l : 0 <= Z.of_nat (length l).
Proof. lia. Qed.

Lemma copy_to_buf_ok d pre rest bufsize :
  Z.of_nat (length pre + length rest) = bufsize -> bufsize < 2 ^ 31 ->
  (length d <= length rest)%nat ->
  copy_to_buf d (Z.of_nat (length pre)) (pre ++ rest) bufsize
  = (Z.of_nat (length (pre ++ d)), (pre ++ d) ++ drop (length d) rest).
Proof.
  intros Hsize Hmax Hfit. unfold copy_to_buf. cbv zeta.
  rewrite Nat2Z.id. assert (u32 (Z.of_nat (length pre) + Z.of_nat (length d)) = Z.of_nat (length (pre ++ d))) as ->.
  { rewrite length_app. unfold u32. rewrite wrap_small; [lia|]. unfold in_word. lia. }
  rewrite (proj2 (Z.leb_le _ _)) by (rewrite length_app; lia).
  rewrite take_app_length, drop_app_add. by rewrite <- app_assoc.
Qed.

Lemma copy_fields_ok fields pre rest bufsize :
  Z.of_nat (length pre + length rest) = bufsize -> bufsize < 2 ^ 31 ->
  (length (concat fields) <= length rest)%nat ->
  copy_fields fields (Z.of_nat (length pre)) (pre ++ rest) bufsize
  = (Z.of_nat (length (pre ++ concat fields)), (pre ++ concat fields) ++ drop (length (concat fields)) rest).
Proof.
  revert pre rest. induction fields as [|d fields IH]; intros pre rest Hsize Hmax Hfit; cbn [copy_fields concat].
  - cbn [length]. by rewrite app_nil_r.
  - cbn [concat] in Hfit. rewrite length_app in Hfit. rewrite copy_to_buf_ok by lia.
    rewrite IH; [|rewrite length_app, length_drop; lia|done|rewrite length_drop; lia].
    rewrite <- !app_assoc, drop_drop, !length_app. reflexivity.
Qed.
End lists.

(** The message of a list of records, its size word still zero when it is being written. *)
Definition msg_of (size tag : Z) (recs : list (list Z)) : list Z := le_bytes 4 size ++ le_bytes 4 tag ++ concat recs.

(** What is known of an object that has been validated. *)
Definition stored_ok (o : stored) : Prop :=
  match o with
  | StoredBlock size id b =>
      length id = 16%nat /\ length (prior_oid (WireData b)) = 16%nat /\ 0 <= level (WireData b) < 2 ^ 63
      /\ in_word 32 size /\ in_word 8 (witness (WireData b))
  | StoredTx o =>
      length (obj_oid o) = 16%nat /\ in_word 32 (ObjSize o) /\ ObjType o <> CC_TYPE_VOID /\ ObjType o <> CC_TYPE_BLOCK
      /\ txpay_param_level_from_wire o <> UINT64_MAX
  end.

Definition params_of (o : stored) : relay_params :=
  match o with
  | StoredBlock size id b => mkRelay id (prior_oid (WireData b)) (level (WireData b)) size (witness (WireData b))
  | StoredTx o => mkRelay (obj_oid o) (replicate 16 0) (txpay_param_level_from_wire o) (ObjSize o) 0
  end.

Definition record_of (o : stored) : list Z :=
  match o with
  | StoredBlock size id b =>
      let wire := WireData b in
      concat [id; prior_oid wire; le_bytes 8 (level wire); le_bytes 4 size; le_bytes 1 (witness wire)]
  | StoredTx o => concat [obj_oid o; le_bytes 8 (txpay_param_level_from_wire o); le_bytes 4 (ObjSize o)]
  end.

Definition is_block (o : stored) : bool := match o with StoredBlock _ _ _ => true | StoredTx _ => false end.
Definition record_size (b : bool) : nat := if b then 45%nat else 28%nat.
Definition have_tag (b : bool) : Z := if b then CC_MSG_HAVE_BLOCK else CC_MSG_HAVE_TX.

Lemma announce_ok o : stored_ok o -> exists fields,
  announce (is_block o) o = Some (have_tag (is_block o), Z.of_nat (record_size (is_block o)), fields)
  /\ concat fields = record_of o /\ length (record_of o) = record_size (is_block o).
Proof.
  destruct o as [size id b|o]; cbn [stored_ok is_block announce].
  - intros (H1 & H2 & _). eexists. split; [reflexivity|]. split; [reflexivity|]. cbn [record_of concat record_size].
    rewrite !length_app, !length_le_bytes, H1, H2. reflexivity.
  - intros (H1 & _ & _ & _ & H2). rewrite (proj2 (Z.eqb_neq _ _) H2). eexists. split; [reflexivity|].
    split; [reflexivity|]. cbn [record_of concat record_size].
    rewrite !length_app, !length_le_bytes, H1. reflexivity.
Qed.

Lemma param_level_range o : 0 <= txpay_param_level_from_wire o /\
  (txpay_param_level_from_wire o <> UINT64_MAX -> txpay_param_level_from_wire o < 2 ^ 40).
Proof.
  unfold txpay_param_level_from_wire, UINT64_MAX.
  destruct (negb (IsValid o)); [lia|]. destruct (TypeHasBareMsg _); [lia|]. destruct (BodySize o <? _); [lia|].
  change (TX_BLOCKLEVEL_BYTES * 8) with 40. rewrite land_mask by lia.
  pose proof (Z.mod_pos_bound (le_val (take 8 (Body o))) (2 ^ 40) ltac:(lia)). lia.
Qed.

(** Reading a record back. *)
Lemma copy_from_buf_ok n d pre rest msgsize :
  n = Z.of_nat (length d) -> msgsize = Z.of_nat (length (pre ++ d ++ rest)) -> msgsize < 2 ^ 31 ->
  copy_from_buf n (Z.of_nat (length pre)) (pre ++ d ++ rest) msgsize = (Z.of_nat (length (pre ++ d)), d).
Proof.
  intros -> -> Hmax. rewrite !length_app in Hmax. unfold copy_from_buf. cbv zeta.
  assert (u32 (Z.of_nat (length pre) + Z.of_nat (length d)) = Z.of_nat (length (pre ++ d))) as ->.
  { rewrite length_app. unfold u32. rewrite wrap_small; [lia|]. unfold in_word. lia. }
  rewrite (proj2 (Z.leb_le _ _)) by (rewrite !length_app; lia).
  by rewrite !Nat2Z.id, drop_app_length, take_app_length.
Qed.

(** Fields of known length are the parts of a record. *)
Lemma split_at (a b : list Z) n : length a = n -> take n (a ++ b) = a /\ drop n (a ++ b) = b.
Proof. intros <-. split; [apply take_app_length | apply drop_app_length]. Qed.

Lemma read_record o pre rest msgsize : stored_ok o ->
  msgsize = Z.of_nat (length (pre ++ record_of o ++ rest)) -> msgsize < 2 ^ 31 ->
  read_params (is_block o) (Z.of_nat (length pre)) (pre ++ record_of o ++ rest) msgsize
  = (Z.of_nat (length (pre ++ record_of o)), params_of o).
Proof.
  intros Hok Hm Hmax. destruct (announce_ok o Hok) as (_ & _ & _ & Hlen).
  destruct o as [size id b|o]; cbn [is_block record_size stored_ok] in *; unfold read_params.
  - destruct Hok as (H1 & H2 & H3 & H4 & H5). rewrite copy_from_buf_ok by (rewrite ?Hlen; done).
    f_equal. cbn [record_of params_of concat]. rewrite app_nil_r. set (w := WireData b) in *.
    destruct (split_at id (prior_oid w ++ le_bytes 8 (level w) ++ le_bytes 4 size ++ le_bytes 1 (witness w)) 16 H1) as [T1 D1].
    destruct (split_at (prior_oid w) (le_bytes 8 (level w) ++ le_bytes 4 size ++ le_bytes 1 (witness w)) 16 H2) as [T2 D2].
    change (drop 44) with (fun l : list Z => drop (16 + (16 + (8 + 4))) l).
    change (drop 40) with (fun l : list Z => drop (16 + (16 + 8)) l).
    change (drop 32) with (fun l : list Z => drop (16 + 16) l). cbv beta.
    rewrite <- !drop_drop, T1, D1, T2, D2, !(drop_app_length' (le_bytes 8 _)), !(drop_app_length' (le_bytes 4 _)) by done.
    rewrite !take_app_length' by done. rewrite (take_ge (le_bytes 1 _)) by done.
    rewrite !le_val_bytes_small; [reflexivity | exact H5 | exact H4 | unfold in_word; cbn; lia].
  - destruct Hok as (H1 & H2 & _ & _ & H3). destruct (param_level_range o) as [L1 L2]. specialize (L2 H3).
    cbn [record_of params_of concat] in *. rewrite app_nil_r in *. rewrite <- !app_assoc in Hm |- *.
    rewrite copy_from_buf_ok by (rewrite ?H1; done).
    rewrite (app_assoc pre) in Hm |- *. rewrite copy_from_buf_ok by done.
    rewrite (app_assoc (pre ++ _)) in Hm |- *. rewrite copy_from_buf_ok by done.
    rewrite !le_val_bytes_small; [by rewrite <- !app_assoc | exact H2 | unfold in_word; cbn; lia].
Qed.

(** ** What a call finds *)

Abbreviation vrows := (list (Z * vrow)).

Definition next_after (n : Z) (rows : vrows) : Z := match last rows with Some (sq, _) => sq + 1 | None => n end.

(** The cursor when [seen] of the rows have been delivered and [rest] not. *)
Definition cursor_at (n : Z) (seen rest : vrows) (n' : Z) : Prop :=
  n' = next_after n seen \/ exists sq r rest', rest = (sq, r) :: rest' /\ n' = sq.

Lemma next_after_cons n sq r rows : next_after n ((sq, r) :: rows) = next_after (sq + 1) rows.
Proof. unfold next_after. destruct rows as [|x rows]; [done|]. rewrite last_cons. destruct (last _) eqn:E; [done|]. by apply last_None in E. Qed.

Section find.
Context (mem : positive -> stored) (mem_ok : forall p, stored_ok (mem p)).
Context (block_max bufsize : Z) (stop : Z -> bool).

Definition ids_ok (rows : vrows) : Prop := Forall (fun '(sq, r) => st_oid (mem (v_bufp r)) = v_oid r) rows.

(** The array. *)
Lemma find_array rows s : ids_ok rows -> 0 <= f_pos s < bufsize ->
  let s' := find_loop mem block_max false bufsize stop (fun _ => false) rows s in
  exists seen rest, rows = seen ++ rest
  /\ f_next s' = next_after (f_next s) seen
  /\ f_arr s' = f_arr s ++ map (fun row => (fst row, v_bufp (snd row))) seen
  /\ f_pos s' = f_pos s + Z.of_nat (length seen) /\ f_pos s' <= bufsize
  /\ f_out s' = f_out s
  /\ (rest = [] \/ bufsize <= f_pos s' \/ exists sq r rest', rest = (sq, r) :: rest' /\ stop sq = true).
Proof.
  intros Hids. revert s. induction Hids as [|[sq r] rows Hid _ IH]; intros s Hpos.
  - exists [], []. cbn. rewrite app_nil_r. split_and!; auto; lia.
  - cbn [find_loop]. destruct (stop sq) eqn:Est.
    { exists [], ((sq, r) :: rows). cbn. rewrite app_nil_r. split_and!; auto; try lia. right. right. eauto. }
    unfold find_row. cbn [negb f_next f_pos f_arr f_out orb]. rewrite bool_decide_eq_true_2 by exact Hid. cbn [negb orb].
    destruct (Z.leb_spec bufsize (f_pos s + 1)); cbn [negb].
    + exists [(sq, r)], rows. cbn. split_and!; auto; lia.
    + destruct (IH (mkFind (sq + 1) (f_pos s + 1) (f_arr s ++ [(sq, v_bufp r)]) (f_out s)) ltac:(cbn; lia))
        as (seen & rest & -> & Hn & Ha & Hp & Hle & Ho & Hend). cbn in Hn, Ha, Hp, Ho.
      exists ((sq, r) :: seen), rest. split; [done|]. rewrite next_after_cons. rewrite Hn, Ha, Ho. cbn [map length app fst snd].
      split_and!; auto; first [by rewrite <- app_assoc | lia].
Qed.

(** The message.  [b]: the objects of this range are blocks. *)
Context (b : bool).

Definition kinds_ok (rows : vrows) : Prop :=
  Forall (fun '(sq, r) => is_block (mem (v_bufp r)) = b /\ (sq <=? block_max) = b) rows.
Definition recs (rows : vrows) : list (list Z) := map (fun row => record_of (mem (v_bufp (snd row)))) rows.

Definition written (s : search) (pre : list Z) : Prop :=
  exists rest, f_out s = pre ++ rest /\ f_pos s = Z.of_nat (length pre) /\ Z.of_nat (length (f_out s)) = bufsize.

Lemma find_message rows s pre0 : bufsize < 2 ^ 31 -> ids_ok rows -> kinds_ok rows ->
  Z.of_nat (length (msg_of 0 (have_tag b) (recs pre0))) + 45 <= bufsize \/ pre0 <> [] ->
  written s (if decide (pre0 = []) then [] else msg_of 0 (have_tag b) (recs pre0)) ->
  let s' := find_loop mem block_max true bufsize stop (fun _ => false) rows s in
  exists seen rest, rows = seen ++ rest
  /\ cursor_at (f_next s) seen rest (f_next s')
  /\ f_arr s' = f_arr s
  /\ written s' (if decide (pre0 ++ seen = []) then [] else msg_of 0 (have_tag b) (recs (pre0 ++ seen)))
  /\ (rest = [] \/ pre0 ++ seen <> [] \/ exists sq r rest', rest = (sq, r) :: rest' /\ stop sq = true).
Proof.
  intros Hmax Hids. revert s pre0. induction Hids as [|[sq r] rows Hid _ IH]; intros s pre0 Hk Hroom Hw.
  - exists [], []. cbn. rewrite app_nil_r. split_and!; auto. by left.
  - cbn [find_loop]. destruct (stop sq) eqn:Est.
    { exists [], ((sq, r) :: rows). rewrite app_nil_r. cbn. split_and!; auto; [by left|]. right. right. eauto. }
    apply Forall_cons in Hk as [[Hb Hle] Hk]. unfold find_row.
    cbn [negb f_next f_pos f_arr f_out orb]. rewrite bool_decide_eq_true_2 by exact Hid. cbn [negb orb].
    destruct (announce_ok _ (mem_ok (v_bufp r))) as (fields & Ea & Ef & Hl). rewrite Hle. rewrite Hb in Ea, Hl. rewrite Ea.
    (* the header is written first *)
    assert (exists pos out pre rest, start_msg (have_tag b) (f_pos s) (f_out s) bufsize = (pos, out)
            /\ pre = msg_of 0 (have_tag b) (recs pre0)
            /\ out = pre ++ rest /\ pos = Z.of_nat (length pre) /\ Z.of_nat (length out) = bufsize)
      as (pos & out & pre & tail & Es & Epre & Eout & Epos & Hsize).
    { destruct Hw as (tail & Eo & Ep & Hs). unfold start_msg. destruct (decide (pre0 = [])) as [->|Hne].
      - cbn [app length] in Eo, Ep. rewrite Ep, Eo. change (Z.of_nat 0) with 0. rewrite Z.eqb_refl. destruct Hroom as [Hroom|]; [|done].
        pose proof (copy_fields_ok [le_bytes 4 0; le_bytes 4 (have_tag b)] [] tail bufsize) as Hc.
        cbn [length app concat] in Hc. change (Z.of_nat 0) with 0 in Hc. rewrite app_nil_r, length_app, !length_le_bytes in Hc.
        rewrite Eo in Hs. unfold msg_of in Hroom. rewrite !length_app, !length_le_bytes in Hroom.
        rewrite Hc by lia. exists 8, ((le_bytes 4 0 ++ le_bytes 4 (have_tag b)) ++ drop 8 tail), (msg_of 0 (have_tag b) []), (drop 8 tail).
        split_and!; [done | done | unfold msg_of; cbn [concat]; by rewrite app_nil_r | done |].
        rewrite !length_app, !length_le_bytes, length_drop. lia.
      - rewrite Ep. destruct (Z.eqb_spec (Z.of_nat (length (msg_of 0 (have_tag b) (recs pre0)))) 0) as [E|_].
        { unfold msg_of in E. rewrite !length_app, !length_le_bytes in E. lia. }
        exists (Z.of_nat (length (msg_of 0 (have_tag b) (recs pre0)))), (f_out s), (msg_of 0 (have_tag b) (recs pre0)), tail.
        split_and!; auto. }
    rewrite Es. assert (Hlen : Z.of_nat (length pre + length tail) = bufsize) by (rewrite <- Hsize, Eout, length_app; lia).
    unfold u32. rewrite wrap_small by (unfold in_word; destruct b; cbn [record_size]; lia).
    destruct (Z.ltb_spec bufsize (pos + Z.of_nat (record_size b))) as [Hfull|Hfit].
    + exists [], ((sq, r) :: rows). rewrite app_nil_r. cbn [f_next f_arr f_out app].
      destruct (decide (pre0 = [])) as [->|Hne].
      { destruct Hroom as [Hroom|]; [|done]. destruct b; cbn [record_size] in Hfull; rewrite <- Epre in Hroom; lia. }
      split_and!; auto; [right; exists sq, r, rows; split; [done|lia]|].
      exists tail. cbn [f_out f_pos]. rewrite <- Epre. auto.
    + rewrite Epos, Eout, copy_fields_ok by (rewrite ?Ef, ?Hl; lia).
      set (s1 := mkFind _ _ _ _). destruct (IH s1 (pre0 ++ [(sq, r)]) Hk) as (seen & rest & -> & Hc & Ha & Hw' & Hend).
      * right. by destruct pre0.
      * destruct (decide (pre0 ++ [(sq, r)] = [])) as [E|_]; [by destruct pre0|].
        exists (drop (length (concat fields)) tail). unfold s1. cbn [f_out f_pos].
        assert (pre ++ concat fields = msg_of 0 (have_tag b) (recs (pre0 ++ [(sq, r)]))) as <-.
        { rewrite Epre, Ef. unfold msg_of, recs. rewrite map_app, concat_app. cbn [map concat snd].
          rewrite app_nil_r. by rewrite <- !app_assoc. }
        split_and!; [done | done |]. rewrite Ef, !length_app, length_drop, Hl. lia.
      * exists ((sq, r) :: seen), rest. rewrite <- (app_assoc pre0) in Hw', Hend. split_and!; auto.
        destruct Hc as [->|Hc]; [left; by rewrite next_after_cons | by right].
Qed.
End find.

(** *** The rows of a call *)

Definition earlier (x y : Z * vrow) : Prop := fst x < fst y.

Lemma sorted_rows lo hi (rows : gmap Z vrow) :
  StronglySorted earlier (select_rows seq_le (seq_between lo hi) rows).
Proof.
  pose proof (StronglySorted_merge_sort seq_le (filter (seq_between lo hi) (map_to_list rows))) as Hs.
  fold (select_rows seq_le (seq_between lo hi) rows) in Hs.
  assert (NoDup (select_rows seq_le (seq_between lo hi) rows).*1) as Hnd.
  { unfold select_rows. rewrite (merge_sort_Permutation seq_le).
    assert (forall l : list (Z * vrow), NoDup l.*1 -> NoDup (filter (seq_between lo hi) l).*1) as Hf.
    { intros l. induction l as [|x l IH]; [done|]. rewrite fmap_cons, filter_cons. intros [Hx Hl]%NoDup_cons.
      destruct (decide _); [|auto]. rewrite fmap_cons. apply NoDup_cons. split; [|auto].
      intros Hin. apply Hx. apply list_elem_of_fmap in Hin as (y & -> & Hy). apply list_elem_of_filter in Hy as [_ Hy].
      apply list_elem_of_fmap. eauto. }
    apply Hf, NoDup_fst_map_to_list. }
  revert Hnd. induction Hs as [|x l Hl IH Hall]; intros Hnd; [constructor|].
  rewrite fmap_cons in Hnd. apply NoDup_cons in Hnd as [Hx Hnd]. constructor; [auto|].
  rewrite Forall_forall in Hall |- *. intros y Hy. specialize (Hall y Hy). unfold seq_le in Hall. unfold earlier.
  assert (fst x <> fst y); [|lia]. intros E. apply Hx. rewrite E. apply list_elem_of_fmap. eauto.
Qed.

Lemma sorted_app_inv l1 l2 : StronglySorted earlier (l1 ++ l2) ->
  StronglySorted earlier l1 /\ StronglySorted earlier l2 /\ forall x y, x ∈ l1 -> y ∈ l2 -> earlier x y.
Proof.
  induction l1 as [|z l1 IH]; cbn [app].
  - intros Hs. split_and!; [constructor | exact Hs |]. intros x y Hx. by apply elem_of_nil in Hx.
  - intros Hs. inversion Hs as [|? ? Hs' Hall]; subst. destruct (IH Hs') as (S1 & S2 & H12). rewrite Forall_app in Hall.
    destruct Hall as [A1 A2]. split_and!; [by constructor | exact S2 |]. intros x y [->|Hx]%elem_of_cons Hy; [|auto].
    rewrite Forall_forall in A2. auto.
Qed.

(** A cursor separates what a call has delivered from the rest. *)
Lemma cursor_cuts lo hi (rows : gmap Z vrow) limit seen rest n' :
  take limit (select_rows seq_le (seq_between lo hi) rows) = seen ++ rest -> cursor_at lo seen rest n' ->
  lo <= n'
  /\ (forall sq r, (sq, r) ∈ seen -> rows !! sq = Some r /\ lo <= sq < n' /\ sq <= hi)
  /\ (forall sq r, rows !! sq = Some r -> lo <= sq <= hi -> (sq, r) ∈ seen \/ n' <= sq)
  /\ (n' = lo \/ exists sq r, rows !! sq = Some r /\ lo <= sq <= hi /\ n' <= sq + 1).
Proof.
  intros Htake Hc. set (all := select_rows seq_le (seq_between lo hi) rows) in *.
  pose proof (sorted_rows lo hi rows) as Hs. fold all in Hs.
  assert (Hin : forall sq r, (sq, r) ∈ all <-> rows !! sq = Some r /\ lo <= sq <= hi).
  { intros sq r. unfold all. rewrite select_rows_elem. reflexivity. }
  rewrite <- (take_drop limit all), Htake, <- app_assoc in Hs. set (rest' := rest ++ drop limit all) in *.
  assert (Hall : all = seen ++ rest') by (unfold rest'; by rewrite app_assoc, <- Htake, take_drop).
  destruct (sorted_app_inv _ _ Hs) as (S1 & S2 & S12).
  assert (Hseen : forall sq r, (sq, r) ∈ seen -> rows !! sq = Some r /\ lo <= sq <= hi).
  { intros sq r Hx. apply Hin. rewrite Hall. apply elem_of_app. by left. }
  assert (Hrest : forall sq r, (sq, r) ∈ rest' -> rows !! sq = Some r /\ lo <= sq <= hi).
  { intros sq r Hx. apply Hin. rewrite Hall. apply elem_of_app. by right. }
  assert (Hsplit : (forall sq r, (sq, r) ∈ seen -> sq < n') /\ (forall sq r, (sq, r) ∈ rest' -> n' <= sq) /\ lo <= n'
                   /\ (n' = lo \/ exists sq r, rows !! sq = Some r /\ lo <= sq <= hi /\ n' <= sq + 1)).
  { destruct Hc as [->|(sq0 & r0 & rest0 & -> & ->)].
    - unfold next_after. destruct (last seen) as [[sq0 r0]|] eqn:El.
      + apply last_Some in El as [pre ->]. destruct (sorted_app_inv _ _ S1) as (_ & _ & Hpre).
        assert ((sq0, r0) ∈ pre ++ [(sq0, r0)]) as H0 by (apply elem_of_app; right; apply list_elem_of_here).
        destruct (Hseen _ _ H0) as [? ?]. split_and!; [| | lia | right; exists sq0, r0; auto with lia].
        * intros sq r [Hx|Hx]%elem_of_app.
          -- specialize (Hpre _ _ Hx (list_elem_of_here _ _)). unfold earlier in Hpre. cbn in Hpre. lia.
          -- apply list_elem_of_singleton in Hx as [= -> ->]. lia.
        * intros sq r Hx. specialize (S12 _ _ H0 Hx). unfold earlier in S12. cbn in S12. lia.
      + apply last_None in El as ->. split_and!; [| | lia | by left].
        * intros sq r Hx. by apply elem_of_nil in Hx.
        * intros sq r Hx. apply Hrest in Hx. lia.
    - assert ((sq0, r0) ∈ rest') as H0 by (unfold rest'; apply list_elem_of_here).
      destruct (Hrest _ _ H0) as [? ?]. split_and!; [| | lia | right; exists sq0, r0; auto with lia].
      + intros sq r Hx. specialize (S12 _ _ Hx H0). exact S12.
      + intros sq r Hx. unfold rest' in Hx, S2. cbn [app] in Hx, S2. apply elem_of_cons in Hx as [[= -> ->]|Hx]; [lia|].
        inversion S2 as [|? ? _ Hf]; subst. rewrite Forall_forall in Hf. specialize (Hf _ Hx). unfold earlier in Hf. cbn in Hf. lia. }
  destruct Hsplit as (P1 & P2 & P3 & P4). split_and!; [exact P3 | | | exact P4].
  - intros sq r Hx. destruct (Hseen _ _ Hx). specialize (P1 _ _ Hx). split_and!; auto; lia.
  - intros sq r Hr Hlim. assert ((sq, r) ∈ all) as Hx by (apply Hin; auto). rewrite Hall in Hx.
    apply elem_of_app in Hx as [Hx|Hx]; [by left|]. right. eauto.
Qed.

(** The objects of a range of numbers are of its kind. *)
Definition in_kind (k : seq_kind) (sq : Z) : Prop := seqmin (seq_get g_seqnum k) <= sq <= seqmax (seq_get g_seqnum k).

Lemma zero_no_kind k : ~ in_kind k 0.
Proof. unfold in_kind. destruct k; vm_compute; intros [? ?]; congruence. Qed.

Lemma kinds_disjoint k k' sq : in_kind k sq -> in_kind k' sq -> k = k'.
Proof. unfold in_kind. destruct k, k'; cbn; unfold INT64_MIN, INT64_MAX, BLOCK_SEQNUM_MAX; try done; lia. Qed.

Lemma block_range k sq : in_kind k sq -> (sq <=? seqmax (seq_block g_seqnum)) = bool_decide (k = BLOCKSEQ).
Proof.
  unfold in_kind. destruct k; rewrite ?bool_decide_eq_true_2, ?bool_decide_eq_false_2 by done; cbn;
    unfold INT64_MIN, INT64_MAX, BLOCK_SEQNUM_MAX; intros Hk; [apply Z.leb_le | apply Z.leb_gt | apply Z.leb_gt]; lia.
Qed.

Lemma kind_unique mem t k sq r : vo_ok mem t -> vo_fatal t = false -> vo_rows t !! sq = Some r -> in_kind k sq ->
  seq_of_type (st_type (mem (v_bufp r))) = k /\ sq < seqnum (seq_get (vo_seqs t) k).
Proof.
  intros Hok Hf Hr Hk. destruct (vo_numbers _ _ Hok Hf sq r Hr) as [[-> _]|Hn]; [by destruct (zero_no_kind k)|].
  set (k' := seq_of_type (st_type (mem (v_bufp r)))) in *.
  destruct (vo_counters _ _ Hok Hf k') as (C1 & C2 & C3).
  assert (k' = k) as <-; [|split; [done | lia]]. apply (kinds_disjoint k' k sq); [|exact Hk]. unfold in_kind. lia.
Qed.

Lemma kind_of_range mem t k sq r : (forall p, stored_ok (mem p)) -> vo_ok mem t -> vo_fatal t = false ->
  vo_rows t !! sq = Some r -> in_kind k sq ->
  is_block (mem (v_bufp r)) = bool_decide (k = BLOCKSEQ)
  /\ (sq <=? seqmax (seq_block (vo_seqs t))) = bool_decide (k = BLOCKSEQ)
  /\ sq < seqnum (seq_get (vo_seqs t) k).
Proof.
  intros Hmem Hok Hf Hr Hk. destruct (kind_unique _ _ _ _ _ Hok Hf Hr Hk) as [Ek Hlt].
  pose proof (vo_limits _ _ Hok BLOCKSEQ) as [_ Hmax]. cbn in Hmax. rewrite Hmax.
  split_and!; [|by apply block_range | exact Hlt]. rewrite <- Ek.
  specialize (Hmem (v_bufp r)). destruct (mem (v_bufp r)) as [? ? ?|o]; [reflexivity|]. cbn.
  destruct Hmem as (_ & _ & _ & Hne & _). unfold seq_of_type. rewrite (proj2 (Z.eqb_neq _ _) Hne). by destruct (TypeIsXreq _).
Qed.

(** ** Readers *)

(** A call of a witness ([want_msgs] false) or of a connection: the cursor it leaves and
    the identifiers of the objects that the witness, or the peer that the message is
    sent to, gets. *)
Definition read_call (mem : positive -> stored) (t : valid_objs) (k : seq_kind) (stop : Z -> bool) (limit : nat)
    (want_msgs : bool) (out : list Z) (bufsize next : Z) : outcome (Z * list (list Z)) :=
  let '(n, s) := ValidObjsFindNew mem t false stop (fun _ => false) next (seqmax (seq_get g_seqnum k)) limit want_msgs out bufsize in
  if want_msgs then
    if n =? 0 then Ret (f_next s, [])
    else let msg := take (Z.to_nat n) (f_out s) in
         let! res := handle_have false 0 n (le_val (take 4 (drop 4 msg))) msg in
         Ret (f_next s, map rp_oid (fst res))
  else Ret (f_next s, map (fun x => st_oid (mem (snd x))) (f_arr s)).

Lemma params_oid o : rp_oid (params_of o) = st_oid o.
Proof. by destruct o. Qed.

Lemma params_level o : stored_ok o -> 0 <= rp_level (params_of o) <= INT64_MAX.
Proof.
  destruct o as [size id b|o]; cbn.
  - intros (_ & _ & H & _). unfold INT64_MAX. lia.
  - intros (_ & _ & _ & _ & H). destruct (param_level_range o) as [H1 H2]. specialize (H2 H). unfold INT64_MAX. lia.
Qed.

(** A peer reads what was written. *)
Lemma have_loop_reads b objs : Forall stored_ok objs -> Forall (fun o => is_block o = b) objs ->
  forall fuel pre msgsize, (length objs < fuel)%nat ->
  msgsize = Z.of_nat (length (pre ++ concat (map record_of objs))) -> msgsize < 2 ^ 31 ->
  have_loop fuel b false 0 msgsize (pre ++ concat (map record_of objs)) (Z.of_nat (length pre)) = Ret (map params_of objs, false).
Proof.
  induction objs as [|o objs IH]; intros Hok Hb fuel pre msgsize Hfuel Hm Hmax; (destruct fuel as [|fuel]; [cbn in Hfuel; lia|]); cbn [have_loop].
  - cbn [map concat] in Hm. rewrite app_nil_r in Hm. rewrite Hm, Z.ltb_irrefl. reflexivity.
  - apply Forall_cons in Hok as [Ho Hok], Hb as [Hob Hb]. cbn [map concat] in *. cbn [length] in Hfuel.
    destruct (announce_ok o Ho) as (_ & _ & _ & Hl).
    assert ((0 < length (record_of o))%nat) as Hpos by (rewrite Hl; destruct (is_block o); cbn; lia).
    rewrite (proj2 (Z.ltb_lt _ _)) by (rewrite Hm, !length_app; lia). cbn [negb].
    rewrite <- Hob at 1. rewrite read_record by done. rewrite (proj2 (Z.ltb_ge _ _)) by (rewrite Hm, !length_app; lia).
    pose proof (params_level o Ho) as Hlev. rewrite (proj2 (Z.ltb_ge _ _)) by lia.
    rewrite (app_assoc pre) in Hm |- *. rewrite IH by (done || lia). cbn [outcome_bind].
    rewrite andb_false_r. rewrite (proj2 (Z.ltb_ge (rp_level _) 0)) by lia. rewrite andb_false_r. reflexivity.
Qed.

(** A finished message is read back as the objects it announces. *)
Lemma message_read mem b seen n out tail : (forall p, stored_ok (mem p)) ->
  Forall (fun row => is_block (mem (v_bufp (snd row))) = b) seen ->
  out = msg_of 0 (have_tag b) (recs mem seen) ++ tail -> n = Z.of_nat (length (msg_of 0 (have_tag b) (recs mem seen))) ->
  n < 2 ^ 31 ->
  let msg := take (Z.to_nat n) (le_bytes 4 n ++ drop 4 out) in
  handle_have false 0 n (le_val (take 4 (drop 4 msg))) msg
  = Ret (map (fun row => params_of (mem (v_bufp (snd row)))) seen, false).
Proof.
  intros Hmem Hb -> Hn Hmax. cbv zeta.
  assert (Hm : length (msg_of 0 (have_tag b) (recs mem seen)) = (8 + length (concat (recs mem seen)))%nat).
  { unfold msg_of. rewrite !length_app, !length_le_bytes. lia. }
  assert (take (Z.to_nat n) (le_bytes 4 n ++ drop 4 (msg_of 0 (have_tag b) (recs mem seen) ++ tail))
          = msg_of n (have_tag b) (recs mem seen)) as ->.
  { unfold msg_of at 1. rewrite <- app_assoc. rewrite drop_app_length' by done. rewrite app_assoc.
    rewrite take_app_length'; [done|]. rewrite Hn, Nat2Z.id, !length_app, !length_le_bytes, Hm. lia. }
  assert (le_val (take 4 (drop 4 (msg_of n (have_tag b) (recs mem seen)))) = have_tag b) as ->.
  { unfold msg_of. rewrite drop_app_length' by done. rewrite take_app_length' by done. apply le_val_bytes_small. by destruct b. }
  unfold handle_have. replace (have_tag b =? CC_MSG_HAVE_BLOCK) with b by (by destruct b).
  replace (if b then 0 else 0) with 0 by (by destruct b).
  assert (recs mem seen = map record_of (map (fun row => mem (v_bufp (snd row))) seen)) as Er by (by rewrite map_map).
  unfold msg_of. rewrite Er, app_assoc.
  change CC_MSG_HEADER_SIZE with (Z.of_nat (length (le_bytes 4 n ++ le_bytes 4 (have_tag b)))).
  rewrite have_loop_reads; [by rewrite map_map | | | | | exact Hmax].
  - rewrite Forall_map. apply Forall_forall. auto.
  - rewrite Forall_map. exact Hb.
  - rewrite length_map, Hn, Nat2Z.id, Hm, Er. clear -Hmem. induction seen as [|row seen IH]; cbn [map concat length]; [lia|].
    rewrite length_app. destruct (announce_ok _ (Hmem (v_bufp (snd row)))) as (_ & _ & _ & ->).
    destruct (is_block _); cbn; lia.
  - rewrite Hn, Hm, length_app, !length_app, !length_le_bytes, Er. lia.
Qed.

(** What the rows of a call are. *)
Lemma call_rows mem t k next limit : (forall p, stored_ok (mem p)) -> vo_ok mem t -> vo_fatal t = false ->
  seqmin (seq_get g_seqnum k) <= next ->
  let rows := select_seqnums t next (seqmax (seq_get g_seqnum k)) limit in
  ids_ok mem rows /\ kinds_ok mem (seqmax (seq_block (vo_seqs t))) (bool_decide (k = BLOCKSEQ)) rows.
Proof.
  intros Hmem Hok Hf Hmin rows.
  assert (Hrows : forall sq r, (sq, r) ∈ rows -> vo_rows t !! sq = Some r /\ next <= sq <= seqmax (seq_get g_seqnum k)).
  { intros sq r Hx. unfold rows, select_seqnums in Hx.
    assert ((sq, r) ∈ select_rows seq_le (seq_between next (seqmax (seq_get g_seqnum k))) (vo_rows t)) as Hx'.
    { rewrite <- (take_drop limit). apply elem_of_app. by left. }
    apply select_rows_elem in Hx'. exact Hx'. }
  split.
  - unfold ids_ok. rewrite Forall_forall. intros [sq r] Hx. destruct (Hrows _ _ Hx). eapply vo_oids; eauto.
  - unfold kinds_ok. rewrite Forall_forall. intros [sq r] Hx. destruct (Hrows _ _ Hx) as [Hr Hlim].
    destruct (kind_of_range mem t k sq r Hmem Hok Hf Hr ltac:(unfold in_kind; lia)) as (K1 & K2 & _). auto.
Qed.

Definition bufsize_ok (bufsize : Z) : Prop := RELAY_PARAMS_BYTES + CC_MSG_HEADER_SIZE <= bufsize < 2 ^ 31.

Definition objs_of (mem : positive -> stored) (rows : vrows) : list stored := map (fun row => mem (v_bufp (snd row))) rows.

Lemma objs_oids mem rows : ids_ok mem rows -> map st_oid (objs_of mem rows) = map (fun row => v_oid (snd row)) rows.
Proof.
  intros Hids. unfold objs_of. rewrite map_map. apply list_fmap_ext. intros i [sq r] Hi. cbn.
  unfold ids_ok in Hids. rewrite Forall_forall in Hids. apply (Hids (sq, r)). eapply list_elem_of_lookup_2; eauto.
Qed.

Definition progress (stop : Z -> bool) (seen rest : vrows) : Prop :=
  seen <> [] \/ rest = [] \/ exists sq r rest', rest = (sq, r) :: rest' /\ stop sq = true.

(** A call for a message. *)
Lemma FindNew_message mem t k stop limit out bufsize next n s :
  (forall p, stored_ok (mem p)) -> vo_ok mem t -> vo_fatal t = false ->
  seqmin (seq_get g_seqnum k) <= next -> bufsize_ok bufsize -> Z.of_nat (length out) = bufsize ->
  ValidObjsFindNew mem t false stop (fun _ => false) next (seqmax (seq_get g_seqnum k)) limit true out bufsize = (n, s) ->
  exists seen rest,
    select_seqnums t next (seqmax (seq_get g_seqnum k)) limit = seen ++ rest
    /\ cursor_at next seen rest (f_next s) /\ progress stop seen rest /\ 0 <= n <= bufsize
    /\ (n = 0 <-> seen = [])
    /\ let msg := take (Z.to_nat n) (f_out s) in
       n <> 0 -> handle_have false 0 n (le_val (take 4 (drop 4 msg))) msg = Ret (map params_of (objs_of mem seen), false).
Proof.
  intros Hmem Hok Hf Hmin Hbuf Hout. unfold ValidObjsFindNew.
  destruct (call_rows mem t k next limit Hmem Hok Hf Hmin) as [Hids Hkinds]. unfold bufsize_ok in Hbuf.
  set (rows := select_seqnums t next _ limit) in *. set (bmax := seqmax (seq_block (vo_seqs t))) in *.
  change (RELAY_PARAMS_BYTES + CC_MSG_HEADER_SIZE) with 53 in Hbuf. set (b := bool_decide (k = BLOCKSEQ)) in *.
  destruct (find_message mem Hmem bmax bufsize stop b rows (mkFind next 0 [] out) [] ltac:(lia) Hids Hkinds)
    as (seen & rest & Hsplit & Hcur & _ & (tail & Eo & Ep & Es) & Hend).
  { left. unfold msg_of. cbn [recs map concat]. rewrite !length_app, !length_le_bytes. cbn [length]. lia. }
  { exists out. cbn. auto. }
  set (s' := find_loop _ _ _ _ _ _ _ _) in *. cbn [app f_next] in *.
  assert (Hle : f_pos s' <= bufsize) by (rewrite <- Es, Eo, Ep, length_app; lia).
  rewrite (proj2 (Z.ltb_ge _ _)) by exact Hle. intros [= <- <-]. cbn [f_next f_out]. exists seen, rest.
  split; [exact Hsplit|]. split; [exact Hcur|]. split; [destruct Hend as [?|[?|?]]; unfold progress; auto|].
  split; [lia|]. destruct (decide (seen = [])) as [->|Hne]; [rewrite Ep; done|].
  set (m := msg_of 0 (have_tag b) (recs mem seen)) in *.
  assert (f_pos s' <> 0) as Hz by (rewrite Ep; unfold m, msg_of; rewrite length_app, length_le_bytes; lia).
  split; [done|]. cbv zeta. intros _. unfold objs_of. rewrite map_map.
  apply (message_read mem b seen (f_pos s') (f_out s') tail Hmem); [|exact Eo|exact Ep|lia].
  unfold kinds_ok in Hkinds. rewrite Hsplit, Forall_app in Hkinds. destruct Hkinds as [Hkinds _].
  eapply Forall_impl; [exact Hkinds|]. intros [sq r] [? _]. done.
Qed.

(** What a call returns, when the counters have not run out. *)
Lemma read_call_spec mem t k stop limit want_msgs out bufsize next :
  (forall p, stored_ok (mem p)) -> vo_ok mem t -> vo_fatal t = false ->
  seqmin (seq_get g_seqnum k) <= next -> bufsize_ok bufsize -> Z.of_nat (length out) = bufsize ->
  exists seen rest n',
    read_call mem t k stop limit want_msgs out bufsize next = Ret (n', map (fun row => v_oid (snd row)) seen)
    /\ select_seqnums t next (seqmax (seq_get g_seqnum k)) limit = seen ++ rest
    /\ cursor_at next seen rest n' /\ progress stop seen rest.
Proof.
  intros Hmem Hok Hf Hmin Hbuf Hout. unfold read_call.
  destruct (call_rows mem t k next limit Hmem Hok Hf Hmin) as [Hids _].
  destruct want_msgs.
  - destruct (ValidObjsFindNew _ _ _ _ _ _ _ _ _ _ _) as [n s] eqn:Ef.
    destruct (FindNew_message mem t k stop limit out bufsize next n s Hmem Hok Hf Hmin Hbuf Hout Ef)
      as (seen & rest & Hsplit & Hcur & Hend & Hn & Hz & Hread).
    rewrite Hsplit in Hids. apply Forall_app in Hids as [Hids _].
    exists seen, rest, (f_next s). split; [|auto]. destruct (Z.eqb_spec n 0) as [->|Hne].
    + by rewrite (proj1 Hz eq_refl).
    + rewrite Hread by exact Hne. cbn [outcome_bind fst]. rewrite <- (objs_oids mem seen Hids), map_map.
      f_equal. f_equal. apply map_ext. intros. apply params_oid.
  - unfold ValidObjsFindNew. set (rows := select_seqnums t next _ limit) in *.
    unfold bufsize_ok in Hbuf. change (RELAY_PARAMS_BYTES + CC_MSG_HEADER_SIZE) with 53 in Hbuf.
    destruct (find_array mem (seqmax (seq_block (vo_seqs t))) bufsize stop rows (mkFind next 0 [] out) Hids ltac:(cbn; lia))
      as (seen & rest & Hsplit & Hn & Ha & Hp & Hle & Ho & Hend).
    set (s' := find_loop _ _ _ _ _ _ _ _) in *. cbn [app f_next f_arr f_pos] in *.
    rewrite (proj2 (Z.ltb_ge _ _)) by lia. rewrite Hsplit in Hids. apply Forall_app in Hids as [Hids _].
    exists seen, rest, (f_next s'). split; [|split_and!; [exact Hsplit | by left |]].
    + rewrite Ha, map_map. cbn. rewrite <- (objs_oids mem seen Hids). unfold objs_of. rewrite map_map. reflexivity.
    + destruct Hend as [?|[Hfull|?]]; unfold progress; auto. left. intros ->. cbn in Hp. lia.
Qed.

(** Any sequence of operations on the table and calls of a reader of one kind of object. *)
Record reader := mkReader {
  rd_vo : valid_objs;
  rd_next : Z;
  rd_seen : list (list Z)
}.

Inductive reader_step (mem : positive -> stored) (k : seq_kind) : reader -> reader -> Prop :=
| reader_op t o t' next seen : vo_run mem t o = Ret t' ->
    reader_step mem k (mkReader t next seen) (mkReader t' next seen)
| reader_call t stop limit want_msgs out bufsize next seen next' ids :
    bufsize_ok bufsize -> Z.of_nat (length out) = bufsize ->
    read_call mem t k stop limit want_msgs out bufsize next = Ret (next', ids) ->
    reader_step mem k (mkReader t next seen) (mkReader t next' (seen ++ ids)).

(** A reader starts at the first number of its kind, on a table that has been in use. *)
Inductive reader_reachable (mem : positive -> stored) (k : seq_kind) : reader -> Prop :=
| reader_start t : vo_ok mem t -> reader_reachable mem k (mkReader t (seqmin (seq_get g_seqnum k)) [])
| reader_next s s' : reader_reachable mem k s -> reader_step mem k s s' -> reader_reachable mem k s'.

Definition reader_ok (mem : positive -> stored) (k : seq_kind) (s : reader) : Prop :=
  vo_ok mem (rd_vo s)
  /\ (vo_fatal (rd_vo s) = false ->
      seqmin (seq_get g_seqnum k) <= rd_next s <= seqnum (seq_get (vo_seqs (rd_vo s)) k)
      /\ forall sq r, vo_rows (rd_vo s) !! sq = Some r -> in_kind k sq -> rd_next s <= sq \/ v_oid r ∈ rd_seen s).

(** What operations do to the numbers: new rows of a kind get numbers from its counter. *)
Definition numbers_after (t t' : valid_objs) (k : seq_kind) : Prop :=
  vo_fatal t = false /\ seqnum (seq_get (vo_seqs t) k) <= seqnum (seq_get (vo_seqs t') k)
  /\ forall sq r, vo_rows t' !! sq = Some r -> in_kind k sq ->
     vo_rows t !! sq = Some r \/ seqnum (seq_get (vo_seqs t) k) <= sq.

Lemma numbers_after_rows t rows refs k : vo_fatal t = false ->
  (forall sq r, rows !! sq = Some r -> vo_rows t !! sq = Some r) -> numbers_after t (mkVO rows (vo_seqs t) refs (vo_fatal t)) k.
Proof. intros Hf Hsub. split_and!; [exact Hf | cbn; lia |]. intros sq r Hr _. left. auto. Qed.

Lemma Insert_numbers mem t fault ticks p rc n t' k : vo_ok mem t ->
  ValidObjsInsert mem t fault ticks p = Ret (rc, n, t') -> vo_fatal t' = false -> numbers_after t t' k.
Proof.
  intros Hok Ei Hf. pose proof (Insert_ok mem _ _ _ _ _ _ _ Hok Ei) as Hok'.
  destruct (Insert_cases _ _ _ _ _ _ _ _ Ei) as (sq & s & over & En & _ & Es & Ef & Hc).
  rewrite Hf in Ef. symmetry in Ef. apply orb_false_iff in Ef as [Ef ->].
  set (k' := seq_of_type (st_type (mem p))) in *.
  destruct (NextNum_ok _ k' _ _ _ (vo_counters _ _ Hok Ef k') En) as (_ & _ & -> & E3 & E4).
  split; [exact Ef|]. split; [rewrite Es, seq_get_set; destruct (decide _) as [<-|]; lia|].
  intros sq r Hr Hk. destruct Hc as [(_ & _ & Er & _)|(_ & _ & Hn & _ & _ & Er & _)]; [rewrite Er in Hr; by left|].
  pose proof Hr as Hr'. rewrite Er in Hr'. apply lookup_insert_Some in Hr' as [[<- <-]|[_ Hr']]; [|by left]. right.
  destruct (kind_unique _ _ _ _ _ Hok' Hf Hr Hk) as [Ek _]. cbn in Ek. fold k' in Ek. subst k.
  destruct Hn as [->|[-> _]]; [lia|]. by destruct (zero_no_kind k').
Qed.

Lemma vo_run_numbers mem t o t' k : vo_ok mem t -> vo_run mem t o = Ret t' -> vo_fatal t' = false -> numbers_after t t' k.
Proof.
  intros Hok Hrun Hf. destruct o as [fault ticks p|fault p|fault sq]; cbn [vo_run] in Hrun.
  - destruct (ValidObjsInsert _ _ _ _ _) as [[[rc n] t1]|] eqn:Ei; cbn in Hrun; [|done]. injection Hrun as <-.
    exact (Insert_numbers _ _ _ _ _ _ _ _ k Hok Ei Hf).
  - injection Hrun as <-. revert Hf. unfold ValidObjsDeleteObj. destruct fault, t as [rows seqs refs fatal]; [|case_bool_decide];
      cbn; intros Hf; apply (numbers_after_rows (mkVO rows seqs refs fatal)); try exact Hf; cbn; auto;
      intros sq r Hr; by apply map_lookup_filter_Some in Hr as [Hr _].
  - injection Hrun as <-. revert Hf. unfold ValidObjsDeleteSeqnum. destruct fault, t as [rows seqs refs fatal];
      cbn; intros Hf; apply (numbers_after_rows (mkVO rows seqs refs fatal)); try exact Hf; cbn; auto.
    intros sq' r Hr. by apply lookup_delete_Some in Hr as [_ Hr].
Qed.


Lemma reader_step_ok mem k s s' : (forall p, stored_ok (mem p)) -> reader_step mem k s s' -> reader_ok mem k s -> reader_ok mem k s'.
Proof.
  intros Hmem [t o t' next seen Hrun|t stop limit want_msgs out bufsize next seen next' ids Hb Hout Hcall] [Hok Hc]; cbn in *.
  - pose proof (vo_run_ok _ _ _ _ Hok Hrun) as Hok'. split; [exact Hok'|]. intros Hf.
    destruct (vo_run_numbers _ _ _ _ k Hok Hrun Hf) as (Hf0 & Hmono & Hrows). destruct (Hc Hf0) as [Hn Hseen].
    cbn [rd_vo rd_next rd_seen]. split; [lia|]. intros sq r Hr Hk. destruct (Hrows _ _ Hr Hk) as [Hr0|Hge]; [eauto|]. left. lia.
  - split; [exact Hok|]. intros Hf. destruct (Hc Hf) as [Hn Hseen]. cbn [rd_vo rd_next rd_seen].
    destruct (read_call_spec mem t k stop limit want_msgs out bufsize next Hmem Hok Hf ltac:(lia) Hb Hout)
      as (got & rest & n' & Hcall' & Hsel & Hcur & _).
    rewrite Hcall in Hcall'. injection Hcall' as <- ->.
    destruct (cursor_cuts _ _ _ _ _ _ _ Hsel Hcur) as (C1 & C2 & C3 & C4). split.
    + split; [lia|]. destruct C4 as [->|(sq & r & Hr & Hlim & Hle)]; [lia|].
      destruct (kind_unique mem t k sq r Hok Hf Hr) as [_ Hlt]; [unfold in_kind; lia | lia].
    + intros sq r Hr Hk. destruct (Hseen _ _ Hr Hk) as [Hge|Hin]; [|right; apply elem_of_app; by left].
      destruct (C3 sq r Hr) as [Hin|Hge']; [unfold in_kind in Hk; lia | | by left].
      right. apply elem_of_app. right. apply list_elem_of_fmap. exists (sq, r). auto.
Qed.

Lemma reader_reachable_ok mem k s : (forall p, stored_ok (mem p)) -> reader_reachable mem k s -> reader_ok mem k s.
Proof.
  intros Hmem. induction 1 as [t Hok|s s' _ IH Hstep]; [|by eapply reader_step_ok].
  split; [exact Hok|]. cbn. intros Hf. destruct (vo_counters _ _ Hok Hf k) as (C1 & _ & C3). split; [lia|].
  intros sq r _ Hk. left. unfold in_kind in Hk. lia.
Qed.

(** C30. Whatever is inserted and deleted between the calls of a reader, which fetch
    objects as an array or as messages that a peer reads, in portions of any size and
    interrupted anywhere: no object of its kind is passed over.  Each one that is in the
    table is still ahead of the cursor or has been received, and the next call that is
    not interrupted receives one if there is one left. *)
Theorem readers_miss_nothing mem k s : (forall p, stored_ok (mem p)) -> reader_reachable mem k s ->
  vo_fatal (rd_vo s) = false ->
  (forall sq r, vo_rows (rd_vo s) !! sq = Some r -> in_kind k sq -> rd_next s <= sq \/ v_oid r ∈ rd_seen s)
  /\ (forall limit want_msgs out bufsize, (0 < limit)%nat -> bufsize_ok bufsize -> Z.of_nat (length out) = bufsize ->
      exists next ids, read_call mem (rd_vo s) k (fun _ => false) limit want_msgs out bufsize (rd_next s) = Ret (next, ids)
      /\ rd_next s <= next
      /\ ((exists sq r, vo_rows (rd_vo s) !! sq = Some r /\ in_kind k sq /\ rd_next s <= sq) -> ids <> [] /\ rd_next s < next)).
Proof.
  intros Hmem Hreach Hf. destruct (reader_reachable_ok _ _ _ Hmem Hreach) as [Hok Hc]. destruct (Hc Hf) as [Hn Hseen].
  split; [exact Hseen|]. intros limit want_msgs out bufsize Hlimit Hb Hout.
  destruct (read_call_spec mem (rd_vo s) k (fun _ => false) limit want_msgs out bufsize (rd_next s) Hmem Hok Hf ltac:(lia) Hb Hout)
    as (got & rest & n' & Hcall & Hsel & Hcur & Hend).
  destruct (cursor_cuts _ _ _ _ _ _ _ Hsel Hcur) as (C1 & C2 & C3 & _).
  exists n', (map (fun row => v_oid (snd row)) got). split; [exact Hcall|]. split; [exact C1|].
  intros (sq & r & Hr & Hk & Hge).
  assert (got <> []) as Hgot.
  { intros ->. destruct Hend as [|[->|(? & ? & ? & _ & ?)]]; [done | | done].
    assert ((sq, r) ∈ select_rows seq_le (seq_between (rd_next s) (seqmax (seq_get g_seqnum k))) (vo_rows (rd_vo s))) as Hin.
    { apply select_rows_elem. split; [exact Hr|]. unfold seq_between. cbn. unfold in_kind in Hk. lia. }
    unfold select_seqnums in Hsel. destruct (select_rows _ _ _) as [|x l]; [by apply elem_of_nil in Hin|].
    destruct limit; [lia | done]. }
  split; [by destruct got|]. destruct got as [|[sq0 r0] got]; [done|].
  destruct (C2 sq0 r0 (list_elem_of_here _ _)) as (_ & Hlt & _). lia.
Qed.

(** The peer that an announcement is sent to reads exactly the objects that the call
    passed its cursor over, with their levels, sizes and witnesses, and without an error;
    the message does not pass the end of its buffer. *)
Theorem announcement_roundtrip mem t k stop limit out bufsize next n s :
  (forall p, stored_ok (mem p)) -> vo_ok mem t -> vo_fatal t = false ->
  seqmin (seq_get g_seqnum k) <= next -> bufsize_ok bufsize -> Z.of_nat (length out) = bufsize ->
  ValidObjsFindNew mem t false stop (fun _ => false) next (seqmax (seq_get g_seqnum k)) limit true out bufsize = (n, s) ->
  0 <= n <= bufsize
  /\ exists seen rest, select_seqnums t next (seqmax (seq_get g_seqnum k)) limit = seen ++ rest
     /\ (forall sq r, (sq, r) ∈ seen -> sq < f_next s) /\ (forall sq r, (sq, r) ∈ rest -> f_next s <= sq)
     /\ let msg := take (Z.to_nat n) (f_out s) in
        n <> 0 -> handle_have false 0 n (le_val (take 4 (drop 4 msg))) msg = Ret (map params_of (objs_of mem seen), false).
Proof.
  intros Hmem Hok Hf Hmin Hbuf Hout Hfind.
  destruct (FindNew_message mem t k stop limit out bufsize next n s Hmem Hok Hf Hmin Hbuf Hout Hfind)
    as (seen & rest & Hsplit & Hcur & _ & Hn & _ & Hread). split; [exact Hn|]. exists seen, rest.
  destruct (cursor_cuts _ _ _ _ _ _ _ Hsplit Hcur) as (_ & C2 & C3 & _).
  split; [exact Hsplit|]. split; [intros sq r Hx; destruct (C2 _ _ Hx) as (_ & ? & _); lia|]. split; [|exact Hread].
  intros sq r Hx. pose proof (sorted_rows next (seqmax (seq_get g_seqnum k)) (vo_rows t)) as Hs.
  unfold select_seqnums in Hsplit. rewrite <- (take_drop limit), Hsplit, <- app_assoc in Hs.
  apply sorted_app_inv in Hs as (_ & Hs & Hse). destruct Hcur as [->|(sq0 & r0 & rest0 & -> & ->)].
  - unfold next_after. destruct (last seen) as [[sq0 r0]|] eqn:El.
    + apply last_Some in El as [pre ->]. specialize (Hse (sq0, r0) (sq, r)). unfold earlier in Hse. cbn in Hse.
      assert (sq0 < sq); [|lia]. apply Hse; apply elem_of_app; [right; apply list_elem_of_here | by left].
    + assert ((sq, r) ∈ select_rows seq_le (seq_between next (seqmax (seq_get g_seqnum k))) (vo_rows t)) as Hin.
      { rewrite <- (take_drop limit), Hsplit. apply elem_of_app. left. apply elem_of_app. by right. }
      apply select_rows_elem in Hin as [_ [Hin _]]. exact Hin.
  - cbn [app] in Hs. apply elem_of_cons in Hx as [[= -> ->]|Hx]; [lia|]. inversion Hs as [|? ? _ Hall]; subst.
    rewrite Forall_forall in Hall. specialize (Hall (sq, r)). unfold earlier in Hall. cbn in Hall.
    assert (sq0 < sq); [|lia]. apply Hall. apply elem_of_app. by left.
Qed.

(** ** Examples *)

Lemma demo_stored_ok p : stored_ok (demo_mem p).
Proof. destruct p; cbn; vm_compute; repeat split; try congruence. Qed.

Definition demo_reader : reader := mkReader demo_table (seqmin (seq_get g_seqnum TXSEQ)) [].

Lemma demo_reader_reachable : reader_reachable demo_mem TXSEQ demo_reader.
Proof. apply reader_start. apply (proj1 (counted_run_ok _ _ demo_table_counted)). Qed.

Definition demo_out : list Z := replicate 100 0.

Lemma demo_out_ok : bufsize_ok 100 /\ Z.of_nat (length demo_out) = 100.
Proof. vm_compute. repeat split; congruence. Qed.

Lemma readers_miss_nothing_witness : exists next ids,
  read_call demo_mem demo_table TXSEQ (fun _ => false) 5 true demo_out 100 (rd_next demo_reader) = Ret (next, ids) /\ ids <> [].
Proof.
  destruct (readers_miss_nothing demo_mem TXSEQ demo_reader demo_stored_ok demo_reader_reachable ltac:(reflexivity)) as [_ H].
  destruct (H 5%nat true demo_out 100 ltac:(lia) (proj1 demo_out_ok) (proj2 demo_out_ok)) as (next & ids & Hcall & _ & Hp).
  exists next, ids. split; [exact Hcall|]. apply Hp. exists demo_sq, demo_row.
  split; [vm_compute; reflexivity|]. vm_compute. repeat split; congruence.
Defined.

Definition demo_call : Z * search :=
  ValidObjsFindNew demo_mem demo_table false (fun _ => false) (fun _ => false) (seqmin (seq_get g_seqnum BLOCKSEQ))
    (seqmax (seq_get g_seqnum BLOCKSEQ)) 5 true demo_out 100.

Lemma announcement_roundtrip_witness :
  fst demo_call = 53 /\ 0 <= fst demo_call <= 100
  /\ (seqmin (seq_get g_seqnum BLOCKSEQ) <= seqmin (seq_get g_seqnum BLOCKSEQ)).
Proof.
  split; [vm_compute; reflexivity|].
  destruct (announcement_roundtrip demo_mem demo_table BLOCKSEQ (fun _ => false) 5 demo_out 100 (seqmin (seq_get g_seqnum BLOCKSEQ))
    (fst demo_call) (snd demo_call) demo_stored_ok (proj1 (counted_run_ok _ _ demo_table_counted)) ltac:(reflexivity)
    (Z.le_refl _) (proj1 demo_out_ok) (proj2 demo_out_ok) ltac:(vm_compute; reflexivity)) as [H _].
  split; [exact H | apply Z.le_refl].
Defined.
