(* ===== verification/RelayTable.v ===== *)
(** * Tables of the relay (src/source/ccnode/src/dbconn-relay.cpp)

    Which objects peers have announced, in two tables numbered by sequence numbers: one row per
    object, and one row per announcement with what the peer said of the object.  An operation
    is a transaction of the database or a sequence of statements: [fails n] says that the
    [n]th statement fails, and [now n] is the time at which it runs; a transaction that
    fails is rolled back.  The rows of the search for downloads are fetched one at a time,
    each with the tables and the time as they are then; its updates change only rows that
    were fetched already.  Sequence numbers, levels, sizes and connection numbers are
    below 2^63, or 2^31 where the code binds an int. *)
From stdpp Require Import gmap sorting.
From S2P Require Import Prelude Rows Objects Txs Block ValidObjs Announce.

Local Open Scope Z_scope.
Local Open Scope cc_scope.

Definition RELAY_DOWLOAD_RETRY_SECS : Z := 5.
Definition RELAY_DOWLOAD_RETRY_BYTES_PER_SEC : Z := 2000.
Definition RELAY_DOWNLOAD_TIME_MAX : Z := 15.

Definition RELAY_STATUS_ANNOUNCED : Z := 0.
Definition RELAY_STATUS_DOWNLOADED : Z := 1.
Definition RELAY_PEER_STATUS_READY : Z := 0.
Definition RELAY_PEER_STATUS_STARTED : Z := 1.

Definition CC_CMD_SEND_BLOCK : Z := 0xCC430003.
Definition CC_CMD_SEND_TX : Z := 0xCC430004.

(** ** Data *)

(** Relay_Objs *)
Record relay_obj := mkRObj {
  ob_time : Z;
  ob_oid : list Z;
  ob_status : Z;
  ob_timeout : Z
}.

(** Relay_Peers, whose primary key is the number of the object. *)
Record relay_peer := mkRPeer {
  pe_peer : Z;
  pe_size : Z;
  pe_level : Z;
  pe_status : Z;
  pe_prior : option (list Z);
  pe_witness : option Z
}.

(** The tables, the row [RELAYSEQ] of [g_seqnum], the number of statements executed, and
    whether the fatal error is set. *)
Record relay_db := mkRDb {
  objs : gmap Z relay_obj;
  peers : gmap Z relay_peer;
  rseqs : seq_table;
  rclock : nat;
  rfatal : bool
}.

Definition rtick (db : relay_db) : relay_db := mkRDb (objs db) (peers db) (rseqs db) (S (rclock db)) (rfatal db).
Definition with_objs (db : relay_db) (t : gmap Z relay_obj) : relay_db := mkRDb t (peers db) (rseqs db) (rclock db) (rfatal db).
Definition with_peers (db : relay_db) (t : gmap Z relay_peer) : relay_db := mkRDb (objs db) t (rseqs db) (rclock db) (rfatal db).

(** [DoRelayObjsFinish]: the tables as they were when the transaction began. *)
Definition rollback (before db : relay_db) : relay_db := with_peers (with_objs db (objs before)) (peers before).

Definition by_seqnum {A} : relation (Z * A) := rank_le (fun _ => 0).

Section statements.
Variable fails : nat -> bool.
Variable now : nat -> Z.
Variable shutdown : nat -> bool.

(** A statement, with the time at which it runs. *)
Definition statement {A} (run : Z -> relay_db -> option A * relay_db) (db : relay_db) : option A * relay_db :=
  if fails (rclock db) then (None, rtick db) else run (now (rclock db)) (rtick db).

(** [finally] rolls back unless the commit succeeds. *)
Definition in_transaction {A} (body : relay_db -> option A * relay_db) (before : relay_db) : option A * relay_db :=
  match statement (fun _ db => (Some tt, db)) before with
  | (None, db) => (None, rollback before db)
  | (Some _, db) =>
      match body db with
      | (None, db) => (None, rollback before db)
      | (Some a, db) =>
          match statement (fun _ db => (Some a, db)) db with
          | (None, db) => (None, rollback before db)
          | r => r
          end
      end
  end.

Definition has_oid (oid : list Z) (row : Z * relay_obj) : Prop := ob_oid (snd row) = oid.
#[export] Instance has_oid_dec oid row : Decision (has_oid oid row).
Proof. unfold has_oid. apply _. Defined.

(** "where ObjId = ?1", which has a unique index. *)
Definition find_oid (t : gmap Z relay_obj) (oid : list Z) : option (Z * relay_obj) :=
  head (select_rows by_seqnum (has_oid oid) t).

(** ** Operations *)

(** The row of an object and of its announcement.  [type] tells which counter numbers it. *)
Definition insert_obj (type ticks : Z) (oid : list Z) (obj_status : Z) (db : relay_db) : option Z * relay_db :=
  let kind := seq_of_type type in
  let '(seqnum, s, over) := NextNum (seq_get (rseqs db) kind) in
  let db := mkRDb (objs db) (peers db) (seq_set (rseqs db) kind s) (rclock db) (rfatal db || over) in
  if seqnum =? 0 then (None, db)
  else
    statement (fun time db =>
      if bool_decide (is_Some (objs db !! seqnum)) then (None, db)
      else (Some seqnum, with_objs db (<[seqnum := mkRObj ticks oid obj_status time]> (objs db)))) db.

Definition peer_row (peer type : Z) (p : relay_params) (peer_status : Z) : relay_peer :=
  mkRPeer peer (rp_size p) (rp_level p) peer_status
    (if type =? CC_TYPE_BLOCK then Some (rp_prior p) else None)
    (if type =? CC_TYPE_BLOCK then Some (rp_witness p) else None).

(** A second row for the object violates the primary key. *)
Definition insert_peer (seqnum : Z) (row : relay_peer) (db : relay_db) : option unit * relay_db :=
  statement (fun _ db =>
    if bool_decide (is_Some (peers db !! seqnum)) then (None, db)
    else (Some tt, with_peers db (<[seqnum := row]> (peers db)))) db.

(** The number of the object, unless it was downloaded already. *)
Definition announced_seqnum (type ticks : Z) (oid : list Z) (obj_status : Z) (db : relay_db) : option Z * relay_db :=
  match statement (fun _ db => (Some (find_oid (objs db) oid), db)) db with
  | (None, db) => (None, db)
  | (Some (Some (seqnum, o)), db) => (if ob_status o =? RELAY_STATUS_DOWNLOADED then None else Some seqnum, db)
  | (Some None, db) => insert_obj type ticks oid obj_status db
  end.

Definition RelayObjsInsert (peer type ticks : Z) (p : relay_params) (obj_status peer_status : Z) (db : relay_db) : option unit * relay_db :=
  in_transaction (fun db =>
    match announced_seqnum type ticks (rp_oid p) obj_status db with
    | (None, db) => (None, db)
    | (Some seqnum, db) => if peer =? 0 then (Some tt, db) else insert_peer seqnum (peer_row peer type p peer_status) db
    end) db.

(** *** Downloads *)

(** What the statement asks of an announcement, at a time. *)
Definition downloadable (t : gmap Z relay_obj) (peer last_indelible_level time : Z) (row : Z * relay_peer) : bool :=
  (pe_peer (snd row) =? peer) && (pe_status (snd row) =? RELAY_PEER_STATUS_READY)
  && ((fst row <=? BLOCK_SEQNUM_MAX) || (BLOCK_SEQNUM_MAX <? fst row) && (pe_level (snd row) <=? last_indelible_level))
  && match t !! fst row with
     | Some o => (ob_status o =? RELAY_STATUS_ANNOUNCED) && (ob_timeout o <=? time)
     | None => false
     end.

(** The next row of the search, after the number [last]. *)
Definition next_download (db : relay_db) (peer last_indelible_level last time : Z) : option (Z * relay_peer * relay_obj) :=
  match head (select_rows by_seqnum (fun row => last < fst row /\ downloadable (objs db) peer last_indelible_level time row = true) (peers db)) with
  | Some (seqnum, pe) => match objs db !! seqnum with Some o => Some (seqnum, pe, o) | None => None end
  | None => None
  end.

(** The message to send, and what was asked for. *)
Record downloads := mkDown {
  dn_pos : Z;
  dn_out : list Z;
  dn_params : list (relay_params * Z);
  dn_have_blocks : bool
}.

Definition retry_timeout (total_size : Z) : Z := i32 (RELAY_DOWLOAD_RETRY_SECS + total_size / RELAY_DOWLOAD_RETRY_BYTES_PER_SEC).

Definition oid_size_ok (oid : list Z) : bool := Z.of_nat (length oid) =? CC_OID_BYTES.
Definition prior_size_ok (prior : option (list Z)) : bool := match prior with Some id => oid_size_ok id | None => true end.

(** The announcement that is asked for, with the time of the first one. *)
Definition params_of_row (pe : relay_peer) (o : relay_obj) : relay_params * Z :=
  (mkRelay (ob_oid o) (default (replicate 16 0) (pe_prior pe)) (pe_level pe) (u32 (pe_size pe)) (u8 (default 0 (pe_witness pe))), ob_time o).

(** The object is not asked for again from this peer, nor, unless a witness asks for a block,
    from another one until the time is over. *)
Definition mark_started (IsWitness : bool) (seqnum : Z) (oid : list Z) (timeout : Z) (db : relay_db) : option unit * relay_db :=
  match statement (fun _ db => (Some tt, with_peers db (alter (fun pe =>
          mkRPeer (pe_peer pe) (pe_size pe) (pe_level pe) RELAY_PEER_STATUS_STARTED (pe_prior pe) (pe_witness pe)) seqnum (peers db)))) db with
  | (None, db) => (None, db)
  | (Some _, db) =>
      if IsWitness && (seqnum <=? BLOCK_SEQNUM_MAX) then (Some tt, db)
      else statement (fun time db => (Some tt, with_objs db ((fun o =>
             if bool_decide (ob_oid o = oid) then mkRObj (ob_time o) (ob_oid o) RELAY_STATUS_ANNOUNCED (time + timeout) else o) <$> objs db))) db
  end.

(** The size word is set at the end. *)
Definition write_request (is_block : bool) (oid : list Z) (bufsize : Z) (pos : Z) (out : list Z) : Z * list Z :=
  let '(pos, out) :=
    if pos =? 0 then copy_fields [le_bytes 4 4; le_bytes 4 (if is_block then CC_CMD_SEND_BLOCK else CC_CMD_SEND_TX)] pos out bufsize else (pos, out) in
  copy_to_buf oid pos out bufsize.

(** [todo] rows may still be fetched; [last] is the number of the last one. *)
Fixpoint download_loop (todo : nat) (IsWitness : bool) (peer last_indelible_level last total_size bufsize : Z) (d : downloads) (db : relay_db)
    : option downloads * relay_db :=
  match todo with
  | O => (Some d, db)
  | S todo =>
      if shutdown (rclock db) then (Some d, db)
      else
        match statement (fun time db => (Some (next_download db peer last_indelible_level last time), db)) db with
        | (None, db) => (None, db)
        | (Some None, db) => (Some d, db)
        | (Some (Some (seqnum, pe, o)), db) =>
            let is_block := seqnum <=? BLOCK_SEQNUM_MAX in
            if negb is_block && dn_have_blocks d then (Some d, db)
            else if negb (oid_size_ok (ob_oid o)) || negb (prior_size_ok (pe_prior pe)) then (None, db)
            else
              let total_size := u64 (total_size + pe_size pe) in
              let timeout := retry_timeout total_size in
              match mark_started IsWitness seqnum (ob_oid o) timeout db with
              | (None, db) => (None, db)
              | (Some _, db) =>
                  let '(pos, out) := write_request is_block (ob_oid o) bufsize (dn_pos d) (dn_out d) in
                  let d := mkDown pos out (dn_params d ++ [params_of_row pe o]) (is_block || dn_have_blocks d) in
                  if RELAY_DOWNLOAD_TIME_MAX <=? timeout then (Some d, db)
                  else download_loop todo IsWitness peer last_indelible_level seqnum total_size bufsize d db
              end
        end
  end.

(** Nothing was found when the result is [None] or the list of parameters is empty; the
    position is the size of the message. *)
Definition RelayObjsFindDownloads (IsWitness : bool) (peer last_indelible_level : Z) (output : list Z) (maxobjs bytes_pending : Z) (db : relay_db)
    : Z * option downloads * relay_db :=
  let bufsize := Z.of_nat (length output) in
  if maxobjs <? 0 then (-1, None, db)
  else if maxobjs =? 0 then (0, None, db)
  else if RELAY_DOWNLOAD_TIME_MAX <=? retry_timeout (u64 bytes_pending) then (1, None, db)
  else
    match in_transaction (fun db =>
        match download_loop (Z.to_nat maxobjs) IsWitness peer last_indelible_level INT64_MIN (u64 bytes_pending) bufsize (mkDown 0 output [] false) db with
        | (None, db) => (None, db)
        | (Some d, db) =>
            if bufsize <? dn_pos d then (None, db)
            else (Some (mkDown (dn_pos d) (le_bytes 4 (dn_pos d) ++ drop 4 (dn_out d)) (dn_params d) (dn_have_blocks d)), db)
        end) db with
    | (None, db) => (-1, None, db)
    | (Some d, db) => (0, Some d, db)
    end.

(** *** Changes *)

(** The announcements of a transaction that was downloaded are deleted; -1 is no number. *)
Definition RelayObjsSetStatus (oid : list Z) (obj_status timeout : Z) (db : relay_db) : Z * relay_db :=
  let '(seqnum, db) :=
    if obj_status =? RELAY_STATUS_DOWNLOADED then
      match statement (fun _ db => (Some (find_oid (objs db) oid), db)) db with
      | (Some (Some (seqnum, _)), db) => (seqnum, db)
      | (_, db) => (-1, db)
      end
    else (-1, db) in
  match statement (fun time db => (Some tt, with_objs db ((fun o =>
          if bool_decide (ob_oid o = oid) then mkRObj (ob_time o) (ob_oid o) obj_status (time + timeout) else o) <$> objs db))) db with
  | (None, db) => (-1, db)
  | (Some _, db) =>
      if (obj_status =? RELAY_STATUS_DOWNLOADED) && (BLOCK_SEQNUM_MAX <? seqnum)
      then (0, snd (statement (fun _ db => (Some tt, with_peers db (delete seqnum (peers db)))) db))
      else (0, db)
  end.

Definition RelayObjsDeletePeer (peer : Z) (db : relay_db) : Z * relay_db :=
  match statement (fun _ db => (Some tt, with_peers db (filter (fun row => pe_peer (snd row) <> peer) (peers db)))) db with
  | (None, db) => (-1, db)
  | (Some _, db) => (0, db)
  end.

(** A failure to delete the object is not a failure of the transaction. *)
Definition RelayObjsDeleteSeqnum (seqnum : Z) (db : relay_db) : Z * relay_db :=
  match in_transaction (fun db =>
      match statement (fun _ db => (Some tt, with_peers db (delete seqnum (peers db)))) db with
      | (None, db) => (None, db)
      | (Some _, db) => (Some tt, snd (statement (fun _ db => (Some tt, with_objs db (delete seqnum (objs db)))) db))
      end) db with
  | (None, db) => (-1, db)
  | (Some _, db) => (0, db)
  end.

(** The result, the number or -1, the identifier and the time. *)
Definition RelayObjsGetExpires (min_seqnum max_seqnum last_expires_seqnum : Z) (db : relay_db) : Z * Z * list Z * Z * relay_db :=
  match statement (fun _ db => (Some (head (select_rows by_seqnum (fun row => min_seqnum <= fst row <= max_seqnum) (objs db))), db)) db with
  | (None, db) => (-1, -1, [], 0, db)
  | (Some None, db) => (1, -1, [], 0, db)
  | (Some (Some (seqnum, o)), db) =>
      if seqnum =? last_expires_seqnum then (-1, -1, [], 0, db) else (0, seqnum, ob_oid o, ob_time o, db)
  end.
End statements.

(** ** Runs *)

Inductive relay_op :=
| Announced (peer type ticks : Z) (p : relay_params)
| Had (type ticks : Z) (p : relay_params)
| Find (IsWitness : bool) (peer last_indelible_level : Z) (output : list Z) (maxobjs bytes_pending : Z)
| Received (oid : list Z)
| Gone (peer : Z)
| Expired (seqnum : Z).

Section runs.
Variables fails shutdown : nat -> bool.
Variable now : nat -> Z.

(** An operation, and what it asks for. *)
Definition relay_step (op : relay_op) (db : relay_db) : list (relay_params * Z) * relay_db :=
  match op with
  | Announced peer type ticks p => ([], snd (RelayObjsInsert fails now peer type ticks p RELAY_STATUS_ANNOUNCED RELAY_PEER_STATUS_READY db))
  | Had type ticks p => ([], snd (RelayObjsInsert fails now 0 type ticks p RELAY_STATUS_DOWNLOADED 0 db))
  | Find w peer level output maxobjs pending =>
      let r := RelayObjsFindDownloads fails now shutdown w peer level output maxobjs pending db in
      (match snd (fst r) with Some d => dn_params d | None => [] end, snd r)
  | Received oid => ([], snd (RelayObjsSetStatus fails now oid RELAY_STATUS_DOWNLOADED 0 db))
  | Gone peer => ([], snd (RelayObjsDeletePeer fails now peer db))
  | Expired seqnum => ([], snd (RelayObjsDeleteSeqnum fails now seqnum db))
  end.
End runs.

(** Who is asked for what in a run. *)
Definition asker (op : relay_op) : Z := match op with Find _ peer _ _ _ _ => peer | _ => 0 end.

Fixpoint relay_run (fails shutdown : nat -> bool) (now : nat -> Z) (ops : list relay_op) (db : relay_db) : list (Z * relay_params) * relay_db :=
  match ops with
  | [] => ([], db)
  | op :: ops =>
      let r := relay_step fails shutdown now op db in
      let rest := relay_run fails shutdown now ops (snd r) in
      (map (fun p => (asker op, fst p)) (fst r) ++ fst rest, snd rest)
  end.

(** ** What the tables keep *)

(** An identifier has one number, and what peers announced is known. *)
Record relay_ok (db : relay_db) : Prop := {
  rk_unique : forall a b o o', objs db !! a = Some o -> objs db !! b = Some o' -> ob_oid o = ob_oid o' -> a = b;
  rk_known : forall sq, is_Some (peers db !! sq) -> is_Some (objs db !! sq)
}.

(** The identifiers and the peers, without what changes while an object is asked for. *)
Definition sources (db : relay_db) : gmap Z (list Z) * gmap Z Z := (ob_oid <$> objs db, pe_peer <$> peers db).

Lemma sources_lookup db db' : sources db' = sources db ->
  (forall sq, ob_oid <$> objs db' !! sq = ob_oid <$> objs db !! sq) /\ (forall sq, pe_peer <$> peers db' !! sq = pe_peer <$> peers db !! sq).
Proof. intros [= H1 H2]. split; intros sq; rewrite <- !lookup_fmap; congruence. Qed.

Lemma fmap_back {A B} (f : A -> B) (x y : option A) b : f <$> x = f <$> y -> x = Some b -> exists c, y = Some c /\ f c = f b.
Proof. intros E ->. destruct y as [c|]; cbn in E; [|discriminate]. exists c. split; [reflexivity|congruence]. Qed.

Lemma relay_ok_same db db' : sources db' = sources db -> relay_ok db -> relay_ok db'.
Proof.
  intros [H1 H2]%sources_lookup [Hu Hk]. split.
  - intros a b o o' Ha Hb E. destruct (fmap_back _ _ _ _ (H1 a) Ha) as (c & Hc & Ec), (fmap_back _ _ _ _ (H1 b) Hb) as (c' & Hc' & Ec').
    apply (Hu a b c c' Hc Hc'). congruence.
  - intros sq [pe Hpe]. destruct (fmap_back _ _ _ _ (H2 sq) Hpe) as (c & Hc & _). destruct (Hk sq (ex_intro _ c Hc)) as [o Ho].
    destruct (fmap_back _ _ _ _ (eq_sym (H1 sq)) Ho) as (o' & Ho' & _). by exists o'.
Qed.

(** The announcement of an object that is remembered, and whether it may be asked for. *)
Record source (db : relay_db) (oid : list Z) (peer sq : Z) (pe : relay_peer) : Prop := {
  so_oid : ob_oid <$> objs db !! sq = Some oid;
  so_row : peers db !! sq = Some pe;
  so_peer : pe_peer pe = peer
}.

Definition is_ready (pe : relay_peer) : nat := if pe_status pe =? RELAY_PEER_STATUS_READY then 1 else 0.

(** How often an object is among those that are asked for. *)
Definition asked (oid : list Z) (l : list (relay_params * Z)) : nat := length (filter (fun p => rp_oid (fst p) = oid) l).

Lemma asked_app oid l l' : asked oid (l ++ l') = (asked oid l + asked oid l')%nat.
Proof. unfold asked. by rewrite filter_app, length_app. Qed.

(** *** Statements and transactions *)

Section proofs.
Variables fails shutdown : nat -> bool.
Variable now : nat -> Z.

Lemma statement_cases {A} (run : Z -> relay_db -> option A * relay_db) db r : statement fails now run db = r ->
  r = (None, rtick db) \/ r = run (now (rclock db)) (rtick db).
Proof. unfold statement. destruct (fails _); auto. Qed.

(** A transaction that is not committed leaves the tables. *)
Lemma transaction_cases {A} (body : relay_db -> option A * relay_db) db r : in_transaction fails now body db = r ->
  (fst r = None /\ objs (snd r) = objs db /\ peers (snd r) = peers db)
  \/ exists a db', fst r = Some a /\ body (rtick db) = (Some a, db') /\ snd r = rtick db'.
Proof.
  unfold in_transaction, statement. intros <-. destruct (fails (rclock db)); [by left|]. destruct (body (rtick db)) as [[a|] db'] eqn:Eb; [|by left].
  destruct (fails (rclock db')); [by left|]. right. exists a, db'. auto.
Qed.

Lemma select_seqnum_head {A} (P : Z * A -> Prop) `{forall row, Decision (P row)} (t : gmap Z A) sq a :
  head (select_rows by_seqnum P t) = Some (sq, a) -> t !! sq = Some a /\ P (sq, a).
Proof.
  intros E. destruct (select_rows by_seqnum P t) as [|row rest] eqn:Es; [discriminate|]. injection E as ->.
  apply (select_rows_first by_seqnum P) in Es as (H1 & H2 & _). auto.
Qed.

Lemma find_oid_Some t oid sq o : find_oid t oid = Some (sq, o) -> t !! sq = Some o /\ ob_oid o = oid.
Proof. intros E. apply (select_seqnum_head (has_oid oid)) in E. exact E. Qed.

Lemma find_oid_None t oid : find_oid t oid = None -> forall sq o, t !! sq = Some o -> ob_oid o <> oid.
Proof.
  intros E sq o Ho. unfold find_oid in E. destruct (select_rows by_seqnum (has_oid oid) t) eqn:Es; [|discriminate].
  exact (select_rows_nil by_seqnum (has_oid oid) t Es sq o Ho).
Qed.

Lemma next_download_Some db peer level last time sq pe o : next_download db peer level last time = Some (sq, pe, o) ->
  peers db !! sq = Some pe /\ objs db !! sq = Some o /\ last < sq /\ downloadable (objs db) peer level time (sq, pe) = true.
Proof.
  unfold next_download. destruct (head _) as [[n p]|] eqn:Eh; [|discriminate]. destruct (objs db !! n) as [o'|] eqn:Eo; [|discriminate]. intros [= -> -> ->].
  apply (select_seqnum_head (fun row => last < fst row /\ downloadable (objs db) peer level time row = true)) in Eh as (H1 & H2 & H3). auto.
Qed.

(** *** Downloads *)

Lemma start_row_sources sq db : sources (with_peers db (alter (fun pe => mkRPeer (pe_peer pe) (pe_size pe) (pe_level pe) RELAY_PEER_STATUS_STARTED (pe_prior pe) (pe_witness pe)) sq (peers db))) = sources db.
Proof.
  unfold sources. cbn. f_equal. apply map_eq. intros k. rewrite !lookup_fmap. destruct (decide (k = sq)) as [->|Hn].
  - rewrite lookup_alter_eq. by destruct (peers db !! sq).
  - f_equal. refine (lookup_alter_ne _ _ _ _ _). by apply not_eq_sym.
Qed.

Lemma set_objs_sources (f : relay_obj -> relay_obj) db : (forall o, ob_oid (f o) = ob_oid o) -> sources (with_objs db (f <$> objs db)) = sources db.
Proof.
  intros Hf. unfold sources. cbn. f_equal. apply map_eq. intros k. rewrite !lookup_fmap. destruct (objs db !! k) as [o|]; [|reflexivity]. cbn. by rewrite Hf.
Qed.

Lemma mark_started_sources IsWitness sq oid timeout db r db' : mark_started fails now IsWitness sq oid timeout db = (r, db') -> sources db' = sources db.
Proof.
  unfold mark_started, statement. destruct (fails (rclock db)); [by intros [= _ <-]|]. set (db1 := with_peers _ _).
  assert (Hs : sources db1 = sources db) by exact (start_row_sources sq (rtick db)).
  destruct (_ && _); [by intros [= _ <-]|]. destruct (fails (rclock db1)); intros [= _ <-]; rewrite <- Hs; [reflexivity|].
  apply (set_objs_sources _ (rtick db1)). intros o. by destruct (bool_decide _).
Qed.

(** A row is marked as started; the others stay. *)
Lemma mark_started_peers IsWitness sq oid timeout db u db' : mark_started fails now IsWitness sq oid timeout db = (Some u, db') ->
  (forall k, k <> sq -> peers db' !! k = peers db !! k)
  /\ forall pe, peers db !! sq = Some pe -> exists pe', peers db' !! sq = Some pe' /\ pe_peer pe' = pe_peer pe /\ is_ready pe' = 0%nat.
Proof.
  unfold mark_started, statement. destruct (fails (rclock db)); [discriminate|]. set (f := fun pe => mkRPeer _ _ _ _ _ _). set (db1 := with_peers _ _).
  assert (H1 : forall k, k <> sq -> peers db1 !! k = peers db !! k) by (intros k Hk; refine (lookup_alter_ne _ _ _ _ _); by apply not_eq_sym).
  assert (H2 : forall pe, peers db !! sq = Some pe -> exists pe', peers db1 !! sq = Some pe' /\ pe_peer pe' = pe_peer pe /\ is_ready pe' = 0%nat).
  { intros pe Hpe. exists (f pe). split; [|split; reflexivity]. change (alter f sq (peers db) !! sq = Some (f pe)). by rewrite lookup_alter_eq, Hpe. }
  destruct (_ && _); [intros [= _ <-]; auto|]. destruct (fails (rclock db1)); [discriminate|]. intros [= _ <-]. auto.
Qed.

Lemma asked_one oid pe o : asked oid [params_of_row pe o] = if decide (ob_oid o = oid) then 1%nat else 0%nat.
Proof. unfold asked, params_of_row. cbn. by destruct (decide _). Qed.

(** What a search asks for: an object whose announcement by this peer was ready, which then is
    not ready any more. *)
Lemma download_loop_asks todo : forall IsWitness peer level last total bufsize d db d' db', relay_ok db ->
  download_loop fails now shutdown todo IsWitness peer level last total bufsize d db = (Some d', db') ->
  sources db' = sources db /\ forall oid p sq pe, source db oid p sq pe -> exists pe', source db' oid p sq pe'
    /\ (asked oid (dn_params d') + is_ready pe' <= asked oid (dn_params d) + is_ready pe)%nat
    /\ (p <> peer -> asked oid (dn_params d') = asked oid (dn_params d)).
Proof.
  induction todo as [|todo IH]; intros IsWitness peer level last total bufsize d db d' db' Hok E; cbn [download_loop] in E.
  - injection E as <- <-. split; [reflexivity|]. eauto.
  - destruct (shutdown _); [injection E as <- <-; split; [reflexivity|]; eauto|]. unfold statement at 1 in E.
    assert (Hstay : forall db', sources db' = sources db -> peers db' = peers db -> forall oid p sq pe, source db oid p sq pe -> exists pe', source db' oid p sq pe'
      /\ (asked oid (dn_params d) + is_ready pe' <= asked oid (dn_params d) + is_ready pe)%nat /\ (p <> peer -> asked oid (dn_params d) = asked oid (dn_params d))).
    { intros db1 [H1 _]%sources_lookup Hp oid p sq pe [S1 S2 S3]. exists pe. split; [split; [by rewrite H1 | by rewrite Hp | exact S3]|]. split; [lia|reflexivity]. }
    destruct (fails _); [discriminate|]. destruct (next_download _ _ _ _ _) as [[[n pe0] o]|] eqn:En; [|injection E as <- <-; split; [reflexivity | by apply Hstay]].
    cbn zeta in E. destruct (_ && _); [injection E as <- <-; split; [reflexivity | by apply Hstay]|]. destruct (_ || _); [discriminate|].
    destruct (mark_started _ _ _ _ _ _ _) as [[u|] db1] eqn:Em; [|discriminate]. apply next_download_Some in En as (Np & No & _ & Nd). change (peers db !! n = Some pe0) in Np. change (objs db !! n = Some o) in No.
    destruct (write_request _ _ _ _ _) as [pos out]. pose proof (mark_started_sources _ _ _ _ _ _ _ Em) as Hs. apply mark_started_peers in Em as [M1 M2]. change (sources db1 = sources db) in Hs.
    assert (Hmark : forall oid p sq pe, source db oid p sq pe -> exists pe', source db1 oid p sq pe'
      /\ (asked oid (dn_params d ++ [params_of_row pe0 o]) + is_ready pe' <= asked oid (dn_params d) + is_ready pe)%nat
      /\ (p <> peer -> asked oid (dn_params d ++ [params_of_row pe0 o]) = asked oid (dn_params d))).
    { intros oid p sq pe [S1 S2 S3]. rewrite asked_app, asked_one. destruct (sources_lookup _ _ Hs) as [H1 _].
      apply fmap_Some in S1 as (o1 & So & ->). unfold downloadable in Nd. rewrite !andb_true_iff, !Z.eqb_eq in Nd. destruct Nd as [[[D1 D2] _] _]. cbn [snd] in D1, D2.
      destruct (decide (sq = n)) as [->|Hn].
      - assert (o1 = o) as -> by congruence. assert (pe = pe0) as -> by (change (peers db !! n = Some pe) in S2; congruence).
        destruct (M2 pe0 Np) as (pe' & P1 & P2 & P3). exists pe'. split; [split; [rewrite H1; by rewrite So | exact P1 | congruence]|].
        rewrite decide_True by done. unfold is_ready at 2. rewrite D2, Z.eqb_refl. split; [lia|]. congruence.
      - exists pe. split; [split; [rewrite H1; by rewrite So | by rewrite M1 | exact S3]|].
        rewrite decide_False; [lia|]. intros He. apply Hn. exact (rk_unique _ Hok sq n o1 o So No (eq_sym He)). }
    destruct (_ <=? _).
    + injection E as <- <-. split; [exact Hs | exact Hmark].
    + apply IH in E as [Hs2 Hrun]; [|exact (relay_ok_same db db1 Hs Hok)]. split; [congruence|]. intros oid p sq pe Hsrc.
      destruct (Hmark oid p sq pe Hsrc) as (pe1 & S1 & A1 & B1). destruct (Hrun oid p sq pe1 S1) as (pe2 & S2 & A2 & B2). exists pe2.
      split; [exact S2|]. cbn [dn_params] in *. split; [lia|]. intros Hp. rewrite B2, B1 by exact Hp. reflexivity.
Qed.

Lemma FindDownloads_cases IsWitness peer level output maxobjs pending db rc r db' :
  RelayObjsFindDownloads fails now shutdown IsWitness peer level output maxobjs pending db = (rc, r, db') ->
  (r = None /\ objs db' = objs db /\ peers db' = peers db)
  \/ exists d db1 d', r = Some d' /\ rc = 0 /\ dn_params d' = dn_params d /\ db' = rtick db1
     /\ download_loop fails now shutdown (Z.to_nat maxobjs) IsWitness peer level INT64_MIN (u64 pending) (Z.of_nat (length output)) (mkDown 0 output [] false) (rtick db) = (Some d, db1)
     /\ dn_pos d <= Z.of_nat (length output) /\ d' = mkDown (dn_pos d) (le_bytes 4 (dn_pos d) ++ drop 4 (dn_out d)) (dn_params d) (dn_have_blocks d).
Proof.
  unfold RelayObjsFindDownloads. destruct (_ <? 0); [intros [= _ <- <-]; auto|]. destruct (_ =? 0); [intros [= _ <- <-]; auto|].
  destruct (_ <=? _); [intros [= _ <- <-]; auto|]. destruct (in_transaction _ _ _ db) as [v db2] eqn:Et.
  destruct (transaction_cases _ _ _ Et) as [(E1 & E2 & E3)|(d' & db1 & E1 & E2 & E3)]; cbn [fst snd] in *; subst v; [intros [= _ <- <-]; auto|].
  intros E. injection E as <- <- <-. right. destruct (download_loop _ _ _ _ _ _ _ _ _ _ _ _) as [[d|] db3] eqn:El; [|discriminate].
  destruct (Z.ltb_spec (Z.of_nat (length output)) (dn_pos d)); [discriminate|]. injection E2 as <- <-.
  exists d, db3. eexists. do 3 (split; [reflexivity|]). split; [exact E3|]. split; [reflexivity|]. split; [assumption | reflexivity].
Qed.

(** ** The other operations *)

Lemma insert_obj_cases type ticks oid status db r db' : insert_obj fails now type ticks oid status db = (r, db') ->
  peers db' = peers db /\ (objs db' = objs db \/ exists sq o, r = Some sq /\ ob_oid o = oid /\ objs db !! sq = None /\ objs db' = <[sq := o]> (objs db)) /\ (r = None -> objs db' = objs db).
Proof.
  unfold insert_obj. destruct (NextNum _) as [[sq s] over]. destruct (sq =? 0); [intros [= <- <-]; auto|]. unfold statement. destruct (fails _); [intros [= <- <-]; auto|].
  destruct (objs db !! sq) eqn:Eo.
  - rewrite bool_decide_eq_true_2; [intros [= <- <-]; auto|]. cbn. rewrite Eo. eauto.
  - rewrite bool_decide_eq_false_2; [|cbn; rewrite Eo; by intros [? ?]]. intros [= <- <-]. split; [reflexivity|]. split; [|discriminate]. right. exists sq, (mkRObj ticks oid status (now (rclock db))). split_and!; [reflexivity | reflexivity | exact Eo | reflexivity].
Qed.

(** What an announcement adds. *)
Record added (db db' : relay_db) (oid : list Z) : Prop := {
  ad_objs : objs db' = objs db \/ exists sq o, ob_oid o = oid /\ objs db !! sq = None /\ (forall k x, objs db !! k = Some x -> ob_oid x <> oid) /\ objs db' = <[sq := o]> (objs db);
  ad_peers : peers db' = peers db \/ exists sq pe, peers db !! sq = None /\ is_Some (objs db' !! sq) /\ peers db' = <[sq := pe]> (peers db)
}.

Lemma added_none db db' oid : objs db' = objs db -> peers db' = peers db -> added db db' oid.
Proof. intros H1 H2. split; auto. Qed.

Lemma announced_seqnum_added type ticks oid status db sq db' : announced_seqnum fails now type ticks oid status db = (Some sq, db') ->
  added db db' oid /\ peers db' = peers db /\ is_Some (objs db' !! sq).
Proof.
  unfold announced_seqnum, statement. destruct (fails _); [discriminate|]. destruct (find_oid _ _) as [[n o]|] eqn:Ef.
  - apply find_oid_Some in Ef as [Ho _]. destruct (_ =? _); [discriminate|]. intros [= <- <-]. split; [by apply added_none|]. split; [reflexivity|]. by exists o.
  - intros E. destruct (insert_obj_cases _ _ _ _ _ _ _ E) as (Hp & [Ho|(n & o & [= <-] & He & Hn & Ho)] & _).
    + exfalso. revert E Ho. unfold insert_obj. destruct (NextNum _) as [[m s] over]. destruct (m =? 0); [discriminate|]. unfold statement. destruct (fails _); [discriminate|].
      case_bool_decide as Hd; [discriminate|]. intros [= <- <-]. cbn. intros Hc. apply Hd. cbn. rewrite <- Hc, lookup_insert_eq. by eexists.
    + split; [|split; [exact Hp | rewrite Ho, lookup_insert_eq; by eexists]]. split; [right | by left]. exists sq, o. split_and!; try assumption. exact (find_oid_None _ _ Ef).
Qed.

Lemma RelayObjsInsert_added peer type ticks p os ps db : added db (snd (RelayObjsInsert fails now peer type ticks p os ps db)) (rp_oid p).
Proof.
  unfold RelayObjsInsert. destruct (in_transaction _ _ _ db) as [v db2] eqn:Et. destruct (transaction_cases _ _ _ Et) as [(_ & E2 & E3)|(u & db1 & E1 & E2 & E3)]; cbn [fst snd] in *; [by apply added_none|].
  subst v db2. destruct (announced_seqnum _ _ _ _ _ _ _) as [[sq|] db3] eqn:Ea; [|discriminate]. apply announced_seqnum_added in Ea as ([A1 A2] & Hp & Hs).
  destruct (peer =? 0); [injection E2 as <- <-; split; [exact A1 | exact A2]|]. revert E2. unfold insert_peer, statement. destruct (fails _); [discriminate|].
  case_bool_decide as Hd; [discriminate|]. intros [= <- <-]. split; [exact A1 | right]. exists sq, (peer_row peer type p ps). split_and!; [|exact Hs | cbn; by rewrite Hp].
  apply eq_None_not_Some. intros Hc. apply Hd. cbn. rewrite Hp. exact Hc.
Qed.

Lemma added_ok db db' oid : added db db' oid -> relay_ok db -> relay_ok db'.
Proof.
  intros [A1 A2] [Hu Hk]. split.
  - destruct A1 as [->|(sq & o & He & Hn & Hnew & ->)]; [exact Hu|]. intros a b x y Ha Hb E. apply lookup_insert_Some in Ha as [[<- <-]|[Ha' Ha]], Hb as [[<- <-]|[Hb' Hb]]; [reflexivity | | |].
    + destruct (Hnew _ _ Hb). congruence.
    + destruct (Hnew _ _ Ha). congruence.
    + exact (Hu _ _ _ _ Ha Hb E).
  - assert (Hgrow : forall sq, is_Some (objs db !! sq) -> is_Some (objs db' !! sq)).
    { intros sq Hs. destruct A1 as [->|(n & o & _ & _ & _ & ->)]; [exact Hs|]. destruct (decide (sq = n)) as [->|]; [rewrite lookup_insert_eq; by eexists | by rewrite lookup_insert_ne by congruence]. }
    intros sq Hs. destruct A2 as [E|(n & pe & _ & Hn & E)]; rewrite E in Hs; [exact (Hgrow sq (Hk sq Hs))|]. destruct (decide (sq = n)) as [->|Hne]; [exact Hn|].
    rewrite lookup_insert_ne in Hs by congruence. exact (Hgrow sq (Hk sq Hs)).
Qed.

Lemma added_source db db' oid0 oid p sq pe : added db db' oid0 -> source db oid p sq pe -> source db' oid p sq pe.
Proof.
  intros [A1 A2] [S1 S2 S3]. split; [| |exact S3].
  - destruct A1 as [->|(n & o & _ & Hn & _ & ->)]; [exact S1|]. rewrite lookup_insert_ne; [exact S1|]. intros ->. by rewrite Hn in S1.
  - destruct A2 as [->|(n & pe' & Hn & _ & ->)]; [exact S2|]. rewrite lookup_insert_ne; [exact S2|]. congruence.
Qed.

(** What is taken away. *)
Record taken (db db' : relay_db) : Prop := {
  tk_objs : forall sq, ob_oid <$> objs db' !! sq = ob_oid <$> objs db !! sq \/ objs db' !! sq = None /\ peers db' !! sq = None;
  tk_peers : forall sq, peers db' !! sq = peers db !! sq \/ peers db' !! sq = None
}.

Lemma taken_same db db' : objs db' = objs db -> peers db' = peers db -> taken db db'.
Proof. intros H1 H2. split; intros sq; rewrite ?H1, ?H2; auto. Qed.

Lemma taken_ok db db' : taken db db' -> relay_ok db -> relay_ok db'.
Proof.
  intros [T1 T2] [Hu Hk].
  assert (Hb : forall sq o, objs db' !! sq = Some o -> exists o', objs db !! sq = Some o' /\ ob_oid o' = ob_oid o).
  { intros sq o Ho. destruct (T1 sq) as [E|[E _]]; [exact (fmap_back _ _ _ _ E Ho) | congruence]. }
  split.
  - intros a b o o' Ha Hb' E. destruct (Hb _ _ Ha) as (x & Hx & Ex), (Hb _ _ Hb') as (y & Hy & Ey). apply (Hu a b x y Hx Hy). congruence.
  - intros sq Hs. destruct (T2 sq) as [E|E]; [|rewrite E in Hs; by destruct Hs]. destruct (T1 sq) as [E1|[_ E1]]; [|rewrite E1 in Hs; by destruct Hs].
    rewrite E in Hs. apply fmap_is_Some with (f := ob_oid). rewrite E1. apply fmap_is_Some. exact (Hk sq Hs).
Qed.

Lemma set_status_objs oid status timeout db : forall sq, ob_oid <$> ((fun o => if bool_decide (ob_oid o = oid) then mkRObj (ob_time o) (ob_oid o) status timeout else o) <$> objs db) !! sq = ob_oid <$> objs db !! sq.
Proof. intros sq. rewrite lookup_fmap. destruct (objs db !! sq) as [o|]; [|reflexivity]. cbn. by destruct (bool_decide _). Qed.

Lemma SetStatus_taken oid status timeout db rc db' : RelayObjsSetStatus fails now oid status timeout db = (rc, db') -> taken db db'
  /\ forall sq o, objs db !! sq = Some o -> ob_oid o <> oid -> sq <> -1 -> peers db' !! sq = peers db !! sq.
Proof.
  unfold RelayObjsSetStatus. set (r := if status =? RELAY_STATUS_DOWNLOADED then _ else _).
  assert (Hr : objs (snd r) = objs db /\ peers (snd r) = peers db /\ (fst r = -1 \/ exists o, objs db !! fst r = Some o /\ ob_oid o = oid)).
  { unfold r, statement. destruct (_ =? _); [|auto]. destruct (fails _); [auto|]. destruct (find_oid _ _) as [[n o]|] eqn:Ef; [|auto].
    apply find_oid_Some in Ef. cbn. eauto. }
  destruct r as [n db1]. cbn [fst snd] in Hr. destruct Hr as (Ho & Hp & Hn). unfold statement at 1.
  destruct (fails _); [intros [= _ <-]; split; [by apply taken_same | intros; cbn; by rewrite Hp]|].
  set (db2 := with_objs _ _).
  assert (Hs : forall sq, ob_oid <$> objs db2 !! sq = ob_oid <$> objs db !! sq) by (intros sq; unfold db2; rewrite <- Ho; apply (set_status_objs oid status _ db1)).
  assert (Hp2 : peers db2 = peers db) by exact Hp.
  assert (Hstay : forall db3, objs db3 = objs db2 -> peers db3 = peers db2 ->
      taken db db3 /\ forall sq o, objs db !! sq = Some o -> ob_oid o <> oid -> sq <> -1 -> peers db3 !! sq = peers db !! sq).
  { intros db3 E1 E2. rewrite E2, Hp2. split; [split; intros sq; [left; rewrite E1; apply Hs | left; by rewrite E2, Hp2] | auto]. }
  destruct (_ && _); [|intros [= _ <-]; by apply Hstay]. unfold statement. destruct (fails _); intros [= _ <-]; [by apply Hstay|]. split; [split|].
  - intros sq. left. apply Hs.
  - intros sq. cbn. rewrite Hp. destruct (decide (sq = n)) as [->|]; [right; apply lookup_delete_eq | left; by apply lookup_delete_ne].
  - intros sq o Hx Hne H1. cbn. rewrite Hp. apply lookup_delete_ne. intros ->. destruct Hn as [->|(o' & Ho' & He)]; congruence.
Qed.

Lemma DeletePeer_taken peer db : taken db (snd (RelayObjsDeletePeer fails now peer db))
  /\ forall sq pe, peers db !! sq = Some pe -> pe_peer pe <> peer -> peers (snd (RelayObjsDeletePeer fails now peer db)) !! sq = Some pe.
Proof.
  unfold RelayObjsDeletePeer, statement. destruct (fails _); cbn; [split; [split; auto | auto]|]. split; [split; [auto|]|].
  - intros sq. destruct (peers db !! sq) as [pe|] eqn:E.
    + destruct (decide (pe_peer pe = peer)) as [He|He]; [right; apply map_lookup_filter_None | left; by apply map_lookup_filter_Some].
      right. intros x Hx. assert (x = pe) as -> by congruence. cbn. auto.
    + right. apply map_lookup_filter_None. by left.
  - intros sq pe Hs Hne. apply map_lookup_filter_Some. auto.
Qed.

Lemma DeleteSeqnum_taken sq0 db : taken db (snd (RelayObjsDeleteSeqnum fails now sq0 db))
  /\ forall sq, sq <> sq0 -> objs (snd (RelayObjsDeleteSeqnum fails now sq0 db)) !! sq = objs db !! sq /\ peers (snd (RelayObjsDeleteSeqnum fails now sq0 db)) !! sq = peers db !! sq.
Proof.
  unfold RelayObjsDeleteSeqnum. destruct (in_transaction _ _ _ db) as [v db2] eqn:Et.
  assert (Hend : (objs db2 = objs db /\ peers db2 = peers db) \/ peers db2 = delete sq0 (peers db) /\ (objs db2 = objs db \/ objs db2 = delete sq0 (objs db))).
  { destruct (transaction_cases _ _ _ Et) as [(_ & E2 & E3)|(u & db1 & E1 & E2 & E3)]; cbn [fst snd] in *; [auto|]. right. subst v db2. revert E2. unfold statement.
    destruct (fails _); [discriminate|]. cbn. destruct (fails _); intros [= _ <-]; auto. }
  assert (Hs : snd (match v with Some _ => (0, db2) | None => (-1, db2) end) = db2) by (by destruct v). rewrite Hs.
  destruct Hend as [[H1 H2]|[Hp Ho]]; [split; [by apply taken_same | intros; by rewrite H1, H2]|]. split; [split|].
  - intros sq. destruct (decide (sq = sq0)) as [->|]; [|left; destruct Ho as [->| ->]; [reflexivity | by rewrite lookup_delete_ne]].
    destruct Ho as [->| ->]; [by left | right; rewrite Hp; split; apply lookup_delete_eq].
  - intros sq. rewrite Hp. destruct (decide (sq = sq0)) as [->|]; [right; apply lookup_delete_eq | left; by rewrite lookup_delete_ne].
  - intros sq Hn. rewrite Hp. destruct Ho as [->| ->]; rewrite !lookup_delete_ne by congruence; auto.
Qed.

(** ** Objects are asked for once *)

(** What makes the node forget an announcement. *)
Definition forgets (oid : list Z) (peer sq : Z) (op : relay_op) : bool :=
  match op with
  | Received id => bool_decide (id = oid)
  | Gone p => p =? peer
  | Expired n => n =? sq
  | _ => false
  end.

Lemma relay_step_ok op db : relay_ok db -> relay_ok (snd (relay_step fails shutdown now op db)).
Proof.
  intros Hok. destruct op as [peer type ticks p|type ticks p|w peer level output maxobjs pending|oid|peer|sq]; cbn [relay_step snd].
  - exact (added_ok _ _ _ (RelayObjsInsert_added _ _ _ _ _ _ _) Hok).
  - exact (added_ok _ _ _ (RelayObjsInsert_added _ _ _ _ _ _ _) Hok).
  - destruct (RelayObjsFindDownloads _ _ _ _ _ _ _ _ _ _) as [[rc r] db'] eqn:E. cbn [fst snd].
    destruct (FindDownloads_cases _ _ _ _ _ _ _ _ _ _ E) as [(_ & E1 & E2)|(d & db1 & d' & _ & _ & _ & -> & El & _)].
    + refine (relay_ok_same db db' _ Hok). unfold sources. by rewrite E1, E2.
    + apply download_loop_asks in El as [Hs _]; [|exact (relay_ok_same db (rtick db) eq_refl Hok)]. exact (relay_ok_same db (rtick db1) Hs Hok).
  - destruct (RelayObjsSetStatus _ _ _ _ _ _) as [rc db'] eqn:E. exact (taken_ok _ _ (proj1 (SetStatus_taken _ _ _ _ _ _ E)) Hok).
  - exact (taken_ok _ _ (proj1 (DeletePeer_taken _ _)) Hok).
  - exact (taken_ok _ _ (proj1 (DeleteSeqnum_taken _ _)) Hok).
Qed.

Lemma relay_step_asks op db oid p sq pe : relay_ok db -> source db oid p sq pe -> sq <> -1 -> forgets oid p sq op = false ->
  let r := relay_step fails shutdown now op db in
  exists pe', source (snd r) oid p sq pe' /\ (asked oid (fst r) + is_ready pe' <= is_ready pe)%nat /\ (p <> asker op -> asked oid (fst r) = 0%nat).
Proof.
  intros Hok Hsrc Hsq Hf. destruct op as [peer type ticks pr|type ticks pr|w peer level output maxobjs pending|id|peer|n]; cbn [relay_step fst snd asker].
  - exists pe. split; [|auto]. exact (added_source _ _ _ _ _ _ _ (RelayObjsInsert_added _ _ _ _ _ _ _) Hsrc).
  - exists pe. split; [|auto]. exact (added_source _ _ _ _ _ _ _ (RelayObjsInsert_added _ _ _ _ _ _ _) Hsrc).
  - destruct (RelayObjsFindDownloads _ _ _ _ _ _ _ _ _ _) as [[rc r] db'] eqn:E. cbn [fst snd].
    destruct (FindDownloads_cases _ _ _ _ _ _ _ _ _ _ E) as [(-> & E1 & E2)|(d & db1 & d' & -> & _ & Hd & -> & El & _)].
    + exists pe. split; [|auto]. destruct Hsrc as [S1 S2 S3]. split; [by rewrite E1 | by rewrite E2 | exact S3].
    + apply download_loop_asks in El as [_ Ha]; [|exact (relay_ok_same db (rtick db) eq_refl Hok)]. assert (Hs0 : source (rtick db) oid p sq pe) by (destruct Hsrc; by split).
      destruct (Ha oid p sq pe Hs0) as (pe' & [S1 S2 S3] & A & B). exists pe'. rewrite Hd. cbn [dn_params] in A, B. split; [by split|]. split; [exact A | exact B].
  - destruct (RelayObjsSetStatus _ _ _ _ _ _) as [rc db'] eqn:E. destruct (SetStatus_taken _ _ _ _ _ _ E) as [[T1 _] T2]. cbn [snd fst]. exists pe. split; [|auto].
    destruct Hsrc as [S1 S2 S3]. pose proof S1 as So. apply fmap_Some in So as (o & Ho & He). cbn in Hf. apply bool_decide_eq_false in Hf.
    assert (Hp : peers db' !! sq = Some pe) by (rewrite <- S2; apply (T2 sq o Ho); congruence). split; [|exact Hp | exact S3].
    destruct (T1 sq) as [->|[_ Hc]]; [exact S1 | congruence].
  - destruct (DeletePeer_taken peer db) as [[T1 _] T2]. exists pe. split; [|auto]. destruct Hsrc as [S1 S2 S3]. cbn in Hf. apply Z.eqb_neq in Hf.
    assert (Hp := T2 sq pe S2 ltac:(congruence)). split; [|exact Hp | exact S3]. destruct (T1 sq) as [->|[_ Hc]]; [exact S1 | congruence].
  - destruct (DeleteSeqnum_taken n db) as [_ T2]. exists pe. split; [|auto]. destruct Hsrc as [S1 S2 S3]. cbn in Hf. apply Z.eqb_neq in Hf.
    destruct (T2 sq ltac:(congruence)) as [E1 E2]. split; [by rewrite E1 | by rewrite E2 | exact S3].
Qed.

Definition requests_of (oid : list Z) (l : list (Z * relay_params)) : list (Z * relay_params) := filter (fun r => rp_oid (snd r) = oid) l.

Lemma requests_of_step oid peer l : length (requests_of oid (map (fun p => (peer, fst p)) l)) = asked oid l.
Proof.
  unfold requests_of, asked. induction l as [|[p t] l IH]; [reflexivity|]. cbn [map fst]. rewrite !filter_cons. cbn [fst snd]. destruct (decide _); cbn [length]; by rewrite IH.
Qed.

Lemma run_asks oid p sq : sq <> -1 -> forall ops db pe, relay_ok db -> source db oid p sq pe -> Forall (fun op => forgets oid p sq op = false) ops ->
  let r := relay_run fails shutdown now ops db in
  relay_ok (snd r) /\ exists pe', source (snd r) oid p sq pe' /\ (length (requests_of oid (fst r)) + is_ready pe' <= is_ready pe)%nat
    /\ Forall (fun req => fst req = p) (requests_of oid (fst r)).
Proof.
  intros Hsq ops. induction ops as [|op ops IH]; intros db pe Hok Hsrc Hf; cbn [relay_run fst snd].
  - split; [exact Hok|]. exists pe. cbn. auto.
  - apply Forall_cons in Hf as [Hop Hf]. destruct (relay_step_asks op db oid p sq pe Hok Hsrc Hsq Hop) as (pe1 & S1 & A1 & B1).
    pose proof (relay_step_ok op db Hok) as Hok1. destruct (relay_step fails shutdown now op db) as [l db1]. cbn [fst snd] in *.
    destruct (IH db1 pe1 Hok1 S1 Hf) as (Hok2 & pe2 & S2 & A2 & B2). split; [exact Hok2|]. exists pe2. split; [exact S2|].
    pose proof (requests_of_step oid (asker op) l) as Hl. unfold requests_of in *. rewrite filter_app, length_app, Hl. split; [lia|]. apply Forall_app. split; [|exact B2].
    destruct (decide (p = asker op)) as [E|Hne].
    + apply Forall_forall. intros req [_ (x & -> & _)%list_elem_of_fmap]%list_elem_of_filter. by rewrite E.
    + rewrite B1 in Hl by exact Hne. by apply length_zero_iff_nil in Hl as ->.
Qed.

(** ** What a search finds *)

Definition row_seq (r : Z * relay_peer * relay_obj) : Z := r.1.1.
Definition row_oid (r : Z * relay_peer * relay_obj) : list Z := ob_oid r.2.
Definition row_params (r : Z * relay_peer * relay_obj) : relay_params * Z := params_of_row r.1.2 r.2.

(** A row that may be asked for: announced by this peer and by nobody asked for, not
    downloaded, and not too far ahead of the chain. *)
Record offered (db : relay_db) (peer level : Z) (r : Z * relay_peer * relay_obj) : Prop := {
  of_peers : peers db !! row_seq r = Some r.1.2;
  of_objs : objs db !! row_seq r = Some r.2;
  of_peer : pe_peer r.1.2 = peer;
  of_ready : pe_status r.1.2 = RELAY_PEER_STATUS_READY;
  of_announced : ob_status r.2 = RELAY_STATUS_ANNOUNCED;
  of_level : row_seq r <= BLOCK_SEQNUM_MAX \/ pe_level r.1.2 <= level;
  of_time : exists n, (rclock db <= n)%nat /\ ob_timeout r.2 <= now n
}.

Definition request_tag (b : bool) : Z := if b then CC_CMD_SEND_BLOCK else CC_CMD_SEND_TX.

(** The message for some objects, with its first word. *)
Definition request_msg (size : Z) (b : bool) (oids : list (list Z)) : list Z :=
  match oids with [] => [] | _ => le_bytes 4 size ++ le_bytes 4 (request_tag b) ++ concat oids end.

Lemma concat_oids (l : list (list Z)) : Forall (fun id => length id = 16%nat) l -> length (concat l) = (16 * length l)%nat.
Proof. induction 1 as [|id l Hid _ IH]; [reflexivity|]. cbn [concat length]. rewrite length_app, Hid, IH. lia. Qed.

Lemma request_msg_length size b oids : oids <> [] -> Forall (fun id => length id = 16%nat) oids -> length (request_msg size b oids) = (8 + 16 * length oids)%nat.
Proof. intros Hne Hl. destruct oids; [done|]. unfold request_msg. rewrite !length_app, !length_le_bytes, concat_oids by exact Hl. lia. Qed.

Lemma request_msg_snoc size b oids id : oids <> [] -> request_msg size b (oids ++ [id]) = request_msg size b oids ++ id.
Proof. intros Hne. destruct oids; [done|]. unfold request_msg. cbn [app]. rewrite app_comm_cons, concat_app. cbn [concat]. by rewrite app_nil_r, <- !app_assoc. Qed.

(** Where a search stands. *)
Record dl_state (size : nat) (rows : list (Z * relay_peer * relay_obj)) (last : Z) (d : downloads) : Prop := {
  dl_params : dn_params d = map row_params rows;
  dl_pos : dn_pos d = Z.of_nat (length (request_msg 4 (dn_have_blocks d) (map row_oid rows)));
  dl_out : exists rest, dn_out d = request_msg 4 (dn_have_blocks d) (map row_oid rows) ++ rest /\ length (dn_out d) = size;
  dl_kind : Forall (fun r => (row_seq r <=? BLOCK_SEQNUM_MAX) = dn_have_blocks d) rows;
  dl_empty : rows = [] -> dn_have_blocks d = false;
  dl_last : Forall (fun r => row_seq r <= last) rows;
  dl_sizes : Forall (fun id => length id = 16%nat) (map row_oid rows)
}.

Lemma write_request_ok b oids id size out rest : length id = 16%nat -> Forall (fun id => length id = 16%nat) oids ->
  out = request_msg 4 b oids ++ rest -> length out = size -> (8 + 16 * S (length oids) <= size)%nat -> Z.of_nat size < 2 ^ 31 ->
  exists rest', write_request b id (Z.of_nat size) (Z.of_nat (length (request_msg 4 b oids))) out
    = (Z.of_nat (length (request_msg 4 b (oids ++ [id]))), request_msg 4 b (oids ++ [id]) ++ rest')
    /\ length (request_msg 4 b (oids ++ [id]) ++ rest') = size.
Proof.
  intros Hid Hl -> Hsize Hfit Hmax. unfold write_request. rewrite length_app in Hsize. destruct (decide (oids = [])) as [->|Hne].
  - cbn [request_msg length app] in *. change (Z.of_nat 0 =? 0) with true. cbv iota.
    rewrite (copy_fields_ok _ [] rest) by (cbn [length concat]; rewrite ?length_app, ?length_le_bytes; cbn [length]; lia).
    cbn [app length] in *. set (hd := concat [_; _]). assert (Hh : length hd = 8%nat) by reflexivity.
    rewrite (copy_to_buf_ok id hd (drop (length hd) rest)) by (rewrite ?length_drop, ?Hh; lia).
    exists (drop (length id) (drop (length hd) rest)). unfold request_msg. cbn [concat app]. rewrite app_nil_r.
    assert (Eh : hd ++ id = le_bytes 4 4 ++ le_bytes 4 (request_tag b) ++ id) by (unfold hd; cbn [concat]; by rewrite app_nil_r, <- app_assoc).
    rewrite <- Eh. split; [reflexivity|]. rewrite !length_app, !length_drop, Hh, Hid. lia.
  - pose proof (request_msg_length 4 b oids Hne Hl) as Hlen. rewrite (proj2 (Z.eqb_neq _ 0)) by lia.
    rewrite copy_to_buf_ok by lia. exists (drop (length id) rest). rewrite request_msg_snoc by exact Hne. split; [reflexivity|].
    rewrite !length_app, length_drop. lia.
Qed.

Lemma mark_started_others IsWitness n oid timeout db u db' : mark_started fails now IsWitness n oid timeout db = (Some u, db') -> relay_ok db ->
  (exists o, objs db !! n = Some o /\ ob_oid o = oid) -> forall k, k <> n -> objs db' !! k = objs db !! k /\ peers db' !! k = peers db !! k.
Proof.
  intros E Hok (o & Ho & Hoid) k Hk. split; [|exact (proj1 (mark_started_peers _ _ _ _ _ _ _ E) k Hk)]. revert E. unfold mark_started, statement.
  destruct (fails _); [discriminate|]. destruct (_ && _); [by intros [= _ <-]|]. destruct (fails _); [discriminate|]. intros [= _ <-]. cbn.
  rewrite lookup_fmap. destruct (objs db !! k) as [x|] eqn:Ex; [|reflexivity]. cbn. rewrite bool_decide_eq_false_2; [reflexivity|].
  intros He. apply Hk. apply (rk_unique _ Hok k n x o Ex Ho). congruence.
Qed.

Lemma mark_started_clock IsWitness n oid timeout db r : let db' := snd (mark_started fails now IsWitness n oid timeout db) in r = db' -> (rclock db <= rclock r)%nat.
Proof. cbv zeta. intros ->. unfold mark_started, statement. destruct (fails _); cbn; [lia|]. destruct (_ && _); [cbn; lia|]. destruct (fails _); cbn; lia. Qed.

Lemma download_loop_rows db0 M todo : forall size IsWitness peer level last total rows d db d' db', relay_ok db -> (rclock db0 <= rclock db)%nat ->
  (forall k, last < k -> objs db !! k = objs db0 !! k /\ peers db !! k = peers db0 !! k) ->
  dl_state size rows last d -> (todo + length rows <= M)%nat -> (8 + 16 * M <= size)%nat -> Z.of_nat size < 2 ^ 31 ->
  download_loop fails now shutdown todo IsWitness peer level last total (Z.of_nat size) d db = (Some d', db') ->
  exists more last', dl_state size (rows ++ more) last' d' /\ (length (rows ++ more) <= M)%nat /\ Forall (offered db0 peer level) more
    /\ StronglySorted (fun a b => a < b) (last :: map row_seq more).
Proof.
  induction todo as [|todo IH]; intros size IsWitness peer level last total rows d db d' db' Hok Hclk Hsame Hst HM Hfit Hmax E; cbn [download_loop] in E.
  - injection E as <- <-. exists [], last. rewrite app_nil_r. split_and!; [exact Hst | lia | constructor | repeat constructor].
  - assert (Hdone : exists more last', dl_state size (rows ++ more) last' d /\ (length (rows ++ more) <= M)%nat /\ Forall (offered db0 peer level) more
      /\ StronglySorted (fun a b => a < b) (last :: map row_seq more)) by (exists [], last; rewrite app_nil_r; split_and!; [exact Hst | lia | constructor | repeat constructor]).
    destruct (shutdown _); [injection E as <- <-; exact Hdone|]. unfold statement at 1 in E. destruct (fails _); [discriminate|].
    destruct (next_download _ _ _ _ _) as [[[n pe] o]|] eqn:En; [|injection E as <- <-; exact Hdone]. cbn zeta in E.
    destruct (negb _ && dn_have_blocks d) eqn:Emix; [injection E as <- <-; exact Hdone|]. destruct (_ || _) eqn:Esz; [discriminate|].
    destruct (mark_started _ _ _ _ _ _ _) as [[u|] db1] eqn:Em; [|discriminate].
    apply next_download_Some in En as (Np & No & Nl & Nd). change (peers db !! n = Some pe) in Np. change (objs db !! n = Some o) in No.
    set (time := now (rclock db)) in *.
    assert (Hok1 : relay_ok db1) by exact (relay_ok_same db db1 (mark_started_sources _ _ _ _ _ _ _ Em) Hok).
    pose proof (mark_started_others _ _ _ _ _ _ _ Em (relay_ok_same db (rtick db) eq_refl Hok) (ex_intro _ o (conj No eq_refl))) as Hoth.
    pose proof (mark_started_clock IsWitness n (ob_oid o) (retry_timeout (u64 (total + pe_size pe))) (rtick db) db1 ltac:(by rewrite Em)) as Hck. cbn [rtick rclock] in Hck.
    apply orb_false_iff in Esz as [Esz _]. apply negb_false_iff, Z.eqb_eq in Esz. assert (Hid : length (ob_oid o) = 16%nat) by (unfold CC_OID_BYTES in Esz; lia).
    set (row := (n, pe, o)).
    assert (Hoff : offered db0 peer level row).
    { destruct (Hsame n Nl) as [E1 E2]. unfold downloadable in Nd. cbn [fst snd] in Nd. change (objs (rtick db)) with (objs db) in Nd. rewrite No in Nd.
      rewrite !andb_true_iff, !Z.eqb_eq, orb_true_iff, Z.leb_le, andb_true_iff, !Z.leb_le in Nd. destruct Nd as [[[D1 D2] D3] [D4 D5]].
      split; cbn [row row_seq fst snd]; [by rewrite <- E2 | by rewrite <- E1 | exact D1 | exact D2 | exact D4 | tauto | exists (rclock db); auto]. }
    destruct Hst as [S1 S2 (rest & S3 & S3') S4 S4' S5 S6].
    assert (Hflag : (n <=? BLOCK_SEQNUM_MAX) || dn_have_blocks d = (n <=? BLOCK_SEQNUM_MAX)
      /\ (rows <> [] -> dn_have_blocks d = (n <=? BLOCK_SEQNUM_MAX))).
    { destruct (dn_have_blocks d) eqn:Eb.
      - rewrite andb_true_r in Emix. apply negb_false_iff in Emix. rewrite Emix. auto.
      - rewrite orb_false_r. split; [reflexivity|]. intros Hne. destruct rows as [|r rows]; [done|]. apply Forall_cons in S4 as [S4 _], S5 as [S5 _].
        apply Z.leb_gt in S4. symmetry. apply Z.leb_gt. lia. }
    destruct Hflag as [Hf1 Hf2]. rewrite S2 in E.
    assert (Hmsg : request_msg 4 (dn_have_blocks d) (map row_oid rows) = request_msg 4 (n <=? BLOCK_SEQNUM_MAX) (map row_oid rows))
      by (destruct (decide (rows = [])) as [->|Hne]; [reflexivity | by rewrite (Hf2 Hne)]).
    rewrite Hmsg in E, S3. destruct (write_request_ok (n <=? BLOCK_SEQNUM_MAX) (map row_oid rows) (ob_oid o) size (dn_out d) rest Hid S6 S3 S3') as (rest' & Ew & Hlen);
      [rewrite length_map; lia | exact Hmax|]. rewrite Ew, Hf1 in E.
    set (d1 := mkDown _ _ _ _) in E.
    assert (Hd1 : dl_state size (rows ++ [row]) n d1).
    { split; cbn [d1 dn_params dn_pos dn_out dn_have_blocks]; rewrite ?map_app.
      - by rewrite S1.
      - reflexivity.
      - exists rest'. split; [reflexivity | exact Hlen].
      - apply Forall_app. split; [|by constructor]. destruct (decide (rows = [])) as [->|Hne]; [constructor|]. rewrite <- (Hf2 Hne). exact S4.
      - intros Hc. by destruct rows.
      - apply Forall_app. split; [|constructor; [cbn; lia | constructor]]. eapply Forall_impl; [exact S5|]. cbn. lia.
      - apply Forall_app. split; [exact S6|]. by constructor. }
    assert (HM1 : (todo + length (rows ++ [row]) <= M)%nat) by (rewrite length_app; cbn [length]; lia).
    destruct (RELAY_DOWNLOAD_TIME_MAX <=? _).
    + injection E as <- <-. exists [row], n. split_and!; [exact Hd1 | lia | by constructor | repeat constructor; exact Nl].
    + apply (IH size IsWitness peer level n _ (rows ++ [row])) in E as (more & last' & D1 & D2 & D3 & D4); [|exact Hok1 | lia | | exact Hd1 | exact HM1 | exact Hfit | exact Hmax].
      * exists (row :: more), last'. rewrite cons_middle, app_assoc. split_and!; [exact D1 | exact D2 | by constructor|]. cbn [map]. constructor; [exact D4|].
        apply StronglySorted_inv in D4 as [_ D4]. constructor; [exact Nl|]. eapply Forall_impl; [exact D4|]. cbn. intros x Hx. cbn in Nl. lia.
      * intros k Hk. destruct (Hoth k ltac:(lia)) as [-> ->]. apply Hsame. lia.
Qed.

(** C32. The objects that a peer is asked for are those that it announced and that were not asked
    for before, in the order of their numbers, none twice; they are all blocks or
    all transactions, and no transaction is too far ahead of the chain; the message has
    their identifiers in that order after its size and its tag, and fits the buffer. *)
Theorem FindDownloads_asks IsWitness peer level output maxobjs pending db d db' : relay_ok db ->
  8 + 16 * maxobjs <= Z.of_nat (length output) < 2 ^ 31 ->
  RelayObjsFindDownloads fails now shutdown IsWitness peer level output maxobjs pending db = (0, Some d, db') ->
  exists rows b, dn_params d = map row_params rows /\ Z.of_nat (length rows) <= Z.max 0 maxobjs
    /\ Forall (offered db peer level) rows /\ StronglySorted (fun x y => x < y) (map row_seq rows)
    /\ Forall (fun r => (row_seq r <=? BLOCK_SEQNUM_MAX) = b) rows
    /\ take (Z.to_nat (dn_pos d)) (dn_out d) = request_msg (dn_pos d) b (map row_oid rows)
    /\ dn_pos d = Z.of_nat (length (request_msg (dn_pos d) b (map row_oid rows))).
Proof.
  intros Hok Hsize E. destruct (FindDownloads_cases _ _ _ _ _ _ _ _ _ _ E) as [(Hc & _)|(d0 & db1 & d' & Hd & _ & _ & _ & El & Hpos & Ed)]; [discriminate|].
  injection Hd as <-. assert (Hm : 0 < maxobjs).
  { unfold RelayObjsFindDownloads in E. destruct (Z.ltb_spec maxobjs 0); [discriminate|]. destruct (Z.eqb_spec maxobjs 0); [discriminate|]. lia. }
  apply (download_loop_rows db (Z.to_nat maxobjs) _ _ _ _ _ _ _ []) in El as (rows & last & [D1 D2 (rest & D3 & D3') D4 _ _ D6] & L1 & L2 & L3);
    [|exact (relay_ok_same db (rtick db) eq_refl Hok) | cbn; lia | by split | | cbn [length]; lia | lia | lia].
  - cbn [app] in *. exists rows, (dn_have_blocks d0). rewrite Ed. cbn [dn_params dn_pos dn_out]. apply StronglySorted_inv in L3 as [L3 _].
    split; [exact D1|]. split; [lia|]. split; [exact L2|]. split; [exact L3|]. split; [exact D4|]. rewrite D2, Nat2Z.id, D3.
    set (b := dn_have_blocks d0). set (n := Z.of_nat (length (request_msg 4 b (map row_oid rows)))).
    assert (Hl : length (request_msg n b (map row_oid rows)) = length (request_msg 4 b (map row_oid rows))).
    { destruct (decide (map row_oid rows = [])) as [->|Hne]; [reflexivity|]. rewrite !request_msg_length by assumption. reflexivity. }
    split; [|by rewrite Hl]. destruct (map row_oid rows) as [|id ids] eqn:Em; [reflexivity|]. rewrite <- Hl. unfold request_msg.
    set (X := le_bytes 4 (request_tag b) ++ concat (id :: ids)). rewrite <- (app_assoc (le_bytes 4 4) X rest).
    change (drop 4 (le_bytes 4 4 ++ X ++ rest)) with (X ++ rest). rewrite app_assoc. apply take_app_length.
  - split; cbn; done || constructor || by exists output.
Qed.

(** C31. As long as the node keeps the first announcement of an object, that is, until it is
    received, or its peer is gone, or it expires, the object is asked for from that peer alone, and
    only once, whatever other peers announce, whatever time passes and whatever fails.  So no
    object is downloaded twice at once; but the time after which it may be asked for from
    another peer is of no use, and a peer that announces an object first and does
    not send it keeps it from the node. *)
Theorem asked_once oid p sq pe ops db reqs db' : relay_ok db -> source db oid p sq pe -> sq <> -1 ->
  Forall (fun op => forgets oid p sq op = false) ops -> relay_run fails shutdown now ops db = (reqs, db') ->
  (length (requests_of oid reqs) <= 1)%nat /\ Forall (fun req => fst req = p) (requests_of oid reqs)
  /\ relay_ok db' /\ exists pe', source db' oid p sq pe'.
Proof.
  intros Hok Hsrc Hsq Hf E. destruct (run_asks oid p sq Hsq ops db pe Hok Hsrc Hf) as [Hok' (pe' & S' & A & B)]. rewrite E in *. cbn [fst snd] in *.
  split; [|split; [exact B | split; [exact Hok' | by exists pe']]]. assert (is_ready pe <= 1)%nat by (unfold is_ready; destruct (_ =? _); lia). lia.
Qed.

(** An announcement is remembered only for the first peer: the second changes nothing. *)
Lemma second_announcement_lost peer type ticks p os ps db sq o : relay_ok db -> objs db !! sq = Some o -> ob_oid o = rp_oid p -> peer <> 0 -> is_Some (peers db !! sq) ->
  let db' := snd (RelayObjsInsert fails now peer type ticks p os ps db) in objs db' = objs db /\ peers db' = peers db.
Proof.
  intros Hok Ho He Hp Hs. cbv zeta. unfold RelayObjsInsert. destruct (in_transaction _ _ _ db) as [v db2] eqn:Et.
  destruct (transaction_cases _ _ _ Et) as [(_ & E2 & E3)|(u & db1 & E1 & E2 & E3)]; cbn [fst snd] in *; [auto|]. exfalso. revert E2.
  unfold announced_seqnum, statement at 1. destruct (fails _); [discriminate|]. cbn [objs rtick]. destruct (find_oid (objs db) (rp_oid p)) as [[n x]|] eqn:Ef.
  - apply find_oid_Some in Ef as [Hx Hox]. assert (n = sq) as -> by (apply (rk_unique _ Hok n sq x o Hx Ho); congruence).
    destruct (ob_status x =? RELAY_STATUS_DOWNLOADED); [discriminate|]. rewrite (proj2 (Z.eqb_neq _ _) Hp). unfold insert_peer, statement. destruct (fails _); [discriminate|].
    case_bool_decide as Hd; [discriminate|]. destruct Hd. exact Hs.
  - exfalso. exact (find_oid_None _ _ Ef sq o Ho He).
Qed.
End proofs.

(** ** Witnesses *)

Definition empty_relay : relay_db := mkRDb ∅ ∅ g_seqnum 0 false.

Lemma empty_relay_ok : relay_ok empty_relay.
Proof. split; [intros a b o o' Ho; discriminate Ho | intros sq [pe Hpe]; discriminate Hpe]. Qed.

Definition demo_works (n : nat) : bool := false.
Definition demo_now (n : nat) : Z := 1000 * Z.of_nat n.
Definition demo_oid : list Z := replicate 16 7.
Definition demo_params : relay_params := mkRelay demo_oid (replicate 16 0) 3 400 0.
Definition demo_first : relay_op := Announced 1 CC_TYPE_TXPAY 0 demo_params.
Definition send_buf : list Z := replicate 522 0.

Definition demo_announced : relay_db := snd (relay_run demo_works demo_works demo_now [demo_first] empty_relay).
Definition demo_later : list relay_op :=
  [Announced 2 CC_TYPE_TXPAY 9 demo_params; Find false 2 10 send_buf 27 0; Find false 1 10 send_buf 27 0;
   Find false 2 10 send_buf 27 0; Find false 1 10 send_buf 27 0].

Lemma demo_announced_ok : relay_ok demo_announced.
Proof. exact (relay_step_ok demo_works demo_works demo_now demo_first empty_relay empty_relay_ok). Qed.

Definition demo_row : relay_peer := mkRPeer 1 400 3 RELAY_PEER_STATUS_READY None None.

(** The second peer announces the object too and is never asked, although time passes; the
    first one is asked once. *)
Lemma asked_once_witness : fst (relay_run demo_works demo_works demo_now demo_later demo_announced) = [(1, demo_params)]
  /\ exists pe', source (snd (relay_run demo_works demo_works demo_now demo_later demo_announced)) demo_oid 1 (BLOCK_SEQNUM_MAX + 1) pe'.
Proof.
  split; [vm_compute; reflexivity|]. destruct (relay_run demo_works demo_works demo_now demo_later demo_announced) as [reqs db'] eqn:E.
  destruct (asked_once demo_works demo_works demo_now demo_oid 1 (BLOCK_SEQNUM_MAX + 1) demo_row demo_later demo_announced reqs db' demo_announced_ok) as (_ & _ & _ & Hs).
  - split; [vm_compute; reflexivity | vm_compute; reflexivity | reflexivity].
  - discriminate.
  - repeat constructor.
  - exact E.
  - exact Hs.
Defined.

(** A block and a transaction were announced; the block is asked for first. *)
Definition demo_block : relay_params := mkRelay (replicate 16 8) (replicate 16 9) 4 5000 2.
Definition demo_both : relay_db := snd (relay_step demo_works demo_works demo_now (Announced 1 CC_TYPE_BLOCK 1 demo_block) demo_announced).

Lemma demo_both_ok : relay_ok demo_both.
Proof. apply relay_step_ok, demo_announced_ok. Qed.

Lemma FindDownloads_asks_witness : exists d db', RelayObjsFindDownloads demo_works demo_now demo_works false 1 10 send_buf 27 0 demo_both = (0, Some d, db')
  /\ dn_params d = [(demo_block, 1)] /\ exists b rows, dn_params d = map row_params rows
    /\ take (Z.to_nat (dn_pos d)) (dn_out d) = request_msg (dn_pos d) b (map row_oid rows).
Proof.
  assert (E : exists d db', RelayObjsFindDownloads demo_works demo_now demo_works false 1 10 send_buf 27 0 demo_both = (0, Some d, db') /\ dn_params d = [(demo_block, 1)])
    by (eexists _, _; split; [vm_compute; reflexivity | reflexivity]).
  destruct E as (d & db' & E & Hd). exists d, db'. split; [exact E|]. split; [exact Hd|].
  destruct (FindDownloads_asks demo_works demo_works demo_now false 1 10 send_buf 27 0 demo_both d db' demo_both_ok) as (rows & b & H1 & _ & _ & _ & _ & H2 & _);
    [split; [discriminate | reflexivity] | exact E|].
  exists b, rows. split; [exact H1 | exact H2].
Defined.
