(* ===== verification/TxQueue.v ===== *)
(** * Queueing transactions for validation (src/source/ccnode/src/processtx.cpp)

    [TxEnqueueValidate], the wait for the transactions of a block, and an iteration of the
    threads that validate transactions.  The operations on the queue of transactions are
    those of ProcessQ.v, the valid objects those of ValidObjs.v.  What is done under
    [processtx_mutex] is one step; validation itself, between taking a transaction from the
    queue and finishing it, gives any result (ProcessTx.v). *)
From S2P Require Import Prelude Rows Objects Txs Block ProcessQ ValidObjs.
From stdpp Require Import gmap sorting.

Local Open Scope Z_scope.
Local Open Scope cc_scope.

Definition PROCESS_RESULT_STOP_THRESHOLD : Z := -1000.
Definition TX_RESULT_INTERNAL_ERROR : Z := PROCESS_RESULT_STOP_THRESHOLD.

(** [block_txs_pending], the queue of transactions, and the valid objects. *)
Record tx_state := mkTxState {
  ts_queue : queue;
  ts_pending : Z;
  ts_valid : valid_objs
}.

Section ops.
Context (mem : positive -> stored).

(** What may fail in an operation. *)
Record tx_faults := mkTxFaults {
  tf_select : bool;
  tf_queue : bool;
  tf_queue2 : bool
}.

(** [xreq_rc] is the result of [XreqsSelectObjId]; the result, the state, and whether the
    object is recorded as downloaded. *)
Definition TxEnqueueValidate (s : tx_state) (f : tx_faults) (xreq_rc : Z) (is_block_tx add_to_relay_objs : bool)
    (priority : Z) (bufp : positive) (conn callback : Z) : Z * tx_state * bool :=
  let obj := mem bufp in
  if TypeIsXreq (st_type obj) && (xreq_rc =? 0) then (1, s, false)
  else
    let '(rc, _) := ValidObjsGetObj mem (ts_valid s) (tf_select f) (st_oid obj) false in
    if rc =? 0 then (1, s, false)
    else
      let '(rc, q) := ProcessQEnqueueValidate (ts_queue s) (tf_queue f) (tf_queue2 f) false (st_oid obj) bufp [] 0
                        PROCESS_Q_STATUS_PENDING priority is_block_tx conn callback in
      if rc <? 0 then (-1, mkTxState q (ts_pending s) (ts_valid s), add_to_relay_objs)
      else
        let pending := if (rc =? 0) && is_block_tx then ts_pending s + 1 else ts_pending s in
        (0, mkTxState q pending (ts_valid s), add_to_relay_objs).

(** The condition that [WaitForBlockTxValidation] waits for. *)
Definition wait_over (s : tx_state) (shutdown : bool) : bool := negb ((0 <? ts_pending s) && negb shutdown).

(** What the thread makes of the result of [TxValidate]: whether the transaction is to be
    inserted, the result so far, and the commitment number to search from. *)
Definition after_validate (rc next_commitnum : Z) : bool * Z * Z :=
  if rc <? 0 then (false, rc, next_commitnum)
  else if rc =? 1 then (false, 0, next_commitnum)
  else if rc =? 0 then (true, TX_RESULT_INTERNAL_ERROR, next_commitnum)
  else (true, TX_RESULT_INTERNAL_ERROR, 0).

(** What is known when a transaction is finished: whether it is newly valid and its number,
    the answer to its connection, and whether waiting for a block is over. *)
Record finished := mkFinished {
  fin_inserted : bool;
  fin_seqnum : Z;
  fin_result : Z;
  fin_conn : Z;
  fin_callback : Z;
  fin_block_done : bool
}.

Definition finish_tx (s : tx_state) (insert_fault del_fault del_fault2 : bool) (ticks : Z) (bufp : positive)
    (rc next_commitnum : Z) : outcome (finished * tx_state) :=
  let '(validated, result, next_commitnum) := after_validate rc next_commitnum in
  let! ins := if validated
              then let! res := ValidObjsInsert mem (ts_valid s) insert_fault ticks bufp in
                   let '(rc, seqnum, v) := res in
                   Ret (if rc <? 0 then (false, seqnum, result, v)
                        else if negb (rc =? 0) then (false, seqnum, 0, v)
                        else (true, seqnum, next_commitnum, v))
              else Ret (false, 0, result, ts_valid s) in
  let '(inserted, seqnum, result, v) := ins in
  let '(rc, q, (block_tx_count, conn, callback)) :=
    ProcessQSelectAndDelete (ts_queue s) del_fault del_fault2 (st_oid (mem bufp)) in
  ccassert! rc =? 0 in
  let '(pending, done) :=
    if block_tx_count =? 0 then (ts_pending s, false)
    else let btp := ts_pending s - block_tx_count in
         (if btp <? 0 then btp - btp else btp, btp <=? 0) in
  Ret (mkFinished inserted seqnum result conn callback done, mkTxState q pending v).

(** ** Any interleaving of threads

    [tq_held] are the buffers of the transactions that threads are validating.  With
    [faults] false, looking up a valid object does not fail, and other threads do not
    insert a transaction that is in the queue. *)
Record txq := mkTxq {
  tq_state : tx_state;
  tq_held : list positive
}.

Definition queued (s : tx_state) (id : oid) : Prop := is_Some (q_rows (ts_queue s) !! id).
Definition is_valid_obj (s : tx_state) (id : oid) : Prop :=
  exists sq r, vo_rows (ts_valid s) !! sq = Some r /\ v_oid r = id.

Definition other_op_ok (s : tx_state) (o : vo_op) : Prop :=
  match o with VoInsert _ _ p => ~ queued s (st_oid (mem p)) | _ => True end.

Inductive txq_step (faults fresh : bool) : txq -> txq -> Prop :=
| txq_enqueue s held f xreq_rc is_block_tx relay priority bufp conn callback rc s' ro :
    (faults = false -> tf_select f = false) ->
    (fresh = true -> is_block_tx = true -> ~ queued s (st_oid (mem bufp))) ->
    TxEnqueueValidate s f xreq_rc is_block_tx relay priority bufp conn callback = (rc, s', ro) ->
    txq_step faults fresh (mkTxq s held) (mkTxq s' held)
| txq_get q pending v held fault fault2 rc q' id r :
    ProcessQGetNextValidateObj q fault fault2 = (rc, q', Some (id, r)) ->
    txq_step faults fresh (mkTxq (mkTxState q pending v) held) (mkTxq (mkTxState q' pending v) (q_bufp r :: held))
| txq_work q pending v held n :
    txq_step faults fresh (mkTxq (mkTxState q pending v) held) (mkTxq (mkTxState (IncrementQueuedWork q n) pending v) held)
| txq_finish s held held' bufp insert_fault ticks rc next out s' :
    held ≡ₚ bufp :: held' ->
    finish_tx s insert_fault false false ticks bufp rc next = Ret (out, s') ->
    txq_step faults fresh (mkTxq s held) (mkTxq s' held')
| txq_other q pending v held o v' :
    (faults = false -> other_op_ok (mkTxState q pending v) o) ->
    vo_run mem v o = Ret v' ->
    txq_step faults fresh (mkTxq (mkTxState q pending v) held) (mkTxq (mkTxState q pending v') held).

Definition txq_start : txq := mkTxq (mkTxState empty_queue 0 vo_start) [].
Definition txq_reachable (faults fresh : bool) : txq -> Prop := rtc (txq_step faults fresh) txq_start.
End ops.

(** ** Sums over the queue *)

Definition aux_sum (t : gmap oid qrow) : Z := map_fold (fun _ r acc => q_auxint r + acc) 0 t.

Lemma aux_sum_insert_new t id r : t !! id = None -> aux_sum (<[id := r]> t) = q_auxint r + aux_sum t.
Proof. intros Hn. unfold aux_sum. rewrite map_fold_insert_L; [reflexivity | intros; lia | exact Hn]. Qed.

Lemma aux_sum_delete t id r : t !! id = Some r -> aux_sum (delete id t) = aux_sum t - q_auxint r.
Proof.
  intros Hr. pose proof (aux_sum_insert_new (delete id t) id r (lookup_delete_eq _ _)) as E.
  rewrite insert_delete_id in E by exact Hr. lia.
Qed.

Lemma aux_sum_insert_old t id r r' : t !! id = Some r -> aux_sum (<[id := r']> t) = aux_sum t - q_auxint r + q_auxint r'.
Proof.
  intros Hr. rewrite <- insert_delete_eq, aux_sum_insert_new by apply lookup_delete_eq. rewrite (aux_sum_delete t id r Hr). lia.
Qed.

Definition aux_nonneg (t : gmap oid qrow) : Prop := forall id r, t !! id = Some r -> 0 <= q_auxint r.

Lemma aux_sum_nonneg t : aux_nonneg t -> 0 <= aux_sum t.
Proof.
  induction t as [|id r t Hn IH] using map_ind; intros Ht; [reflexivity|]. rewrite aux_sum_insert_new by exact Hn.
  assert (0 <= q_auxint r) by (apply (Ht id); apply lookup_insert_eq).
  assert (0 <= aux_sum t); [|lia]. apply IH. intros i x Hx. apply (Ht i). rewrite lookup_insert_ne; [exact Hx | congruence].
Qed.

Lemma aux_sum_pos t : aux_nonneg t -> 0 < aux_sum t -> exists id r, t !! id = Some r /\ 0 < q_auxint r.
Proof.
  induction t as [|id r t Hn IH] using map_ind; intros Ht; [intros Hs; vm_compute in Hs; discriminate|]. rewrite aux_sum_insert_new by exact Hn. intros Hs.
  assert (0 <= q_auxint r) by (apply (Ht id); apply lookup_insert_eq).
  destruct (decide (0 < q_auxint r)) as [|]; [exists id, r; split; [apply lookup_insert_eq | done]|].
  destruct IH as (i & x & Hx & Hp); [|lia|].
  - intros i x Hx. apply (Ht i). rewrite lookup_insert_ne; [exact Hx | congruence].
  - exists i, x. split; [|done]. rewrite lookup_insert_ne; [exact Hx | congruence].
Qed.

(** ** What the operations of the queue do to its rows *)

(** What is kept of the rows: their buffers are their objects', those being validated are
    on hold, and each counts the blocks that it was queued for. *)
Definition rows_ok (mem : positive -> stored) (t : gmap oid qrow) : Prop :=
  aux_nonneg t /\ forall id r, t !! id = Some r -> st_oid (mem (q_bufp r)) = id.

Definition on_hold (t : gmap oid qrow) (p : positive) (id : oid) : Prop :=
  exists r, t !! id = Some r /\ q_status r = PROCESS_Q_STATUS_HOLD /\ q_bufp r = p.

(** The rows after queueing, and the count of the result. *)
Lemma enqueue_tx_cases q f f2 id p priority is_tx conn callback rc q' :
  ProcessQEnqueueValidate q f f2 false id p [] 0 PROCESS_Q_STATUS_PENDING priority is_tx conn callback = (rc, q') ->
  (rc = -1 /\ q_rows q' = q_rows q)
  \/ (rc = 0 /\ q_rows q !! id = None /\ exists r, q_rows q' = <[id := r]> (q_rows q) /\ q_bufp r = p
      /\ q_status r = PROCESS_Q_STATUS_PENDING /\ q_auxint r = if is_tx then 1 else 0)
  \/ (rc = 1 /\ is_tx = false /\ q_rows q' = q_rows q /\ is_Some (q_rows q !! id))
  \/ (rc = 1 /\ is_tx = true /\ exists r r', q_rows q !! id = Some r /\ q_rows q' = <[id := r']> (q_rows q)
      /\ q_bufp r' = q_bufp r /\ q_status r' = q_status r /\ q_auxint r' = q_auxint r + 1).
Proof.
  unfold ProcessQEnqueueValidate, enqueue_locked. cbv zeta. cbn [q_rows].
  destruct f; [intros [= <- <-]; auto|]. destruct (q_rows q !! id) as [r|] eqn:E.
  - destruct is_tx; cbn [negb].
    + destruct f2; intros [= <- <-]; cbn; [auto|]. right. right. right. split_and!; auto. eexists _, _. split_and!; [reflexivity..].
    + intros [= <- <-]. cbn. right. right. left. split_and!; auto.
  - intros [= <- <-]. cbn. right. left. split_and!; auto. eexists. split_and!; reflexivity.
Qed.

Lemma select_delete_cases q id :
  match q_rows q !! id with
  | Some r => exists q', ProcessQSelectAndDelete q false false id = (0, q', (q_auxint r, q_conn r, q_callback r))
              /\ q_rows q' = delete id (q_rows q)
  | None => ProcessQSelectAndDelete q false false id = (1, q, (0, 0, 0))
  end.
Proof. unfold ProcessQSelectAndDelete. destruct (q_rows q !! id); [eexists; split; reflexivity | reflexivity]. Qed.

(** ** The invariant *)

Section invariant.
Context (mem : positive -> stored).

Record txq_ok (s : txq) : Prop := {
  tq_rows : rows_ok mem (q_rows (ts_queue (tq_state s)));
  tq_holds : Forall (fun p => on_hold (q_rows (ts_queue (tq_state s))) p (st_oid (mem p))) (tq_held s);
  tq_once : NoDup ((fun p => st_oid (mem p)) <$> tq_held s);
  tq_all_held : forall id r, q_rows (ts_queue (tq_state s)) !! id = Some r -> q_status r = PROCESS_Q_STATUS_HOLD -> q_bufp r ∈ tq_held s;
  tq_status : forall id r, q_rows (ts_queue (tq_state s)) !! id = Some r ->
    q_status r = PROCESS_Q_STATUS_PENDING \/ q_status r = PROCESS_Q_STATUS_HOLD;
  tq_bounds : 0 <= ts_pending (tq_state s) <= aux_sum (q_rows (ts_queue (tq_state s)));
  tq_vo : vo_ok mem (ts_valid (tq_state s))
}.

Definition in_sync (s : tx_state) : Prop := forall id, queued s id -> ~ is_valid_obj s id.

(** The rows and the pending count after a transaction has been queued. *)
Lemma enqueue_state s f xreq_rc tx relay priority bufp conn callback rc s' ro :
  TxEnqueueValidate mem s f xreq_rc tx relay priority bufp conn callback = (rc, s', ro) ->
  ts_valid s' = ts_valid s
  /\ (q_rows (ts_queue s') = q_rows (ts_queue s) /\ ts_pending s' = ts_pending s
      \/ (tf_select f = false -> vo_ok mem (ts_valid s) -> ~ is_valid_obj s (st_oid (mem bufp)))
         /\ exists q', ts_queue s' = q' /\ exists rc', (0 <= rc')
         /\ ProcessQEnqueueValidate (ts_queue s) (tf_queue f) (tf_queue2 f) false (st_oid (mem bufp)) bufp [] 0
              PROCESS_Q_STATUS_PENDING priority tx conn callback = (rc', q')
         /\ ts_pending s' = if (rc' =? 0) && tx then ts_pending s + 1 else ts_pending s).
Proof.
  unfold TxEnqueueValidate. destruct (TypeIsXreq _ && _); [intros [= <- <- <-]; auto|].
  destruct (ValidObjsGetObj _ _ _ _ _) as [grc gp] eqn:Eg. destruct (Z.eqb_spec grc 0) as [|Hg]; [intros [= <- <- <-]; auto|].
  destruct (ProcessQEnqueueValidate _ _ _ _ _ _ _ _ _ _ _ _ _) as [qrc q'] eqn:Eq.
  destruct (Z.ltb_spec qrc 0); intros [= <- <- <-]; cbn; split; try reflexivity.
  - left. destruct (enqueue_tx_cases _ _ _ _ _ _ _ _ _ _ _ Eq) as [[_ ->]|[[-> _]|[[-> _]|[-> _]]]]; [done|lia..].
  - right. split; [|exists q'; split; [done|]; exists qrc; auto].
    intros Hsel Hok (sq & r & Hr & Hid). rewrite Hsel in Eg.
    pose proof (GetObj_exact mem (ts_valid s) (st_oid (mem bufp)) Hok) as Hex. rewrite Eg in Hex.
    destruct grc as [|[| |]|]; try done. destruct gp; [done|]. exact (Hex _ _ Hr Hid).
Qed.

Lemma enqueue_ok fresh s held f xreq_rc tx relay priority bufp conn callback rc s' ro :
  (fresh = true -> tx = true -> ~ queued s (st_oid (mem bufp))) ->
  txq_ok (mkTxq s held) ->
  TxEnqueueValidate mem s f xreq_rc tx relay priority bufp conn callback = (rc, s', ro) ->
  txq_ok (mkTxq s' held)
  /\ (fresh = true -> ts_pending s = aux_sum (q_rows (ts_queue s)) -> ts_pending s' = aux_sum (q_rows (ts_queue s')))
  /\ (tf_select f = false -> in_sync s -> in_sync s').
Proof.
  intros Hfresh [[R1 R2] H O A S [B1 B2] V] He. cbn in *.
  destruct (enqueue_state _ _ _ _ _ _ _ _ _ _ _ _ He) as (Ev & [[Er Ep]|(Hnv & q' & Eq' & rc' & Hrc & Eq & Ep)]).
  { split; [|split].
    - split; cbn; rewrite ?Er, ?Ep, ?Ev; try assumption; split; assumption.
    - by rewrite Er, Ep.
    - intros _ Hs id Hq. unfold is_valid_obj. rewrite Ev. apply (Hs id). unfold queued. by rewrite <- Er. }
  set (id := st_oid (mem bufp)) in *. destruct s' as [q1 pend v1]. cbn in Ev, Eq', Ep. subst q1 v1 pend.
  destruct (enqueue_tx_cases _ _ _ _ _ _ _ _ _ _ _ Eq) as [[-> _]|[(-> & Hn & r & Er & Hp & Hst & Ha)|[(-> & -> & Er & _)|(-> & -> & r & r' & Hr & Er & Hp & Hst & Ha)]]].
  - lia.
  - assert (Hnew : forall i, on_hold (q_rows (ts_queue s)) i (st_oid (mem i)) -> on_hold (<[id := r]> (q_rows (ts_queue s))) i (st_oid (mem i))).
    { intros i (x & Hx & Hh & Hb). exists x. split; [|done]. rewrite lookup_insert_ne; [exact Hx|]. intros E. rewrite <- E, Hn in Hx. done. }
    split; [split; cbn; rewrite ?Er|split].
    + split; [intros i x Hx|intros i x Hx]; apply lookup_insert_Some in Hx as [[<- <-]|[_ Hx]]; eauto; [destruct tx; lia|].
      rewrite Hp. reflexivity.
    + eapply Forall_impl; [exact H|]. exact Hnew.
    + exact O.
    + intros i x Hx Hh. apply lookup_insert_Some in Hx as [[<- <-]|[_ Hx]]; [rewrite Hst in Hh; done | eauto].
    + intros i x Hx. apply lookup_insert_Some in Hx as [[<- <-]|[_ Hx]]; [by left | eauto].
    + rewrite aux_sum_insert_new by exact Hn. rewrite Ha. destruct tx; cbn; lia.
    + exact V.
    + cbn. intros _ Hpe. rewrite Er, aux_sum_insert_new by exact Hn. rewrite Ha. destruct tx; cbn; lia.
    + intros Hsel Hs i [x Hx] Hv. cbn in Hx. rewrite Er in Hx. change (is_valid_obj s i) in Hv.
      apply lookup_insert_Some in Hx as [[<- _]|[_ Hx]]; [exact (Hnv Hsel V Hv)|]. apply (Hs i); [exists x; exact Hx | exact Hv].
  - cbn in *. split; [split; cbn; rewrite ?Er; try assumption; split; assumption|]. split; [by rewrite Er|].
    intros _ Hs i Hq Hv. apply (Hs i); [|exact Hv]. unfold queued in *. cbn in Hq. by rewrite <- Er.
  - cbn in *. split; [split; cbn; rewrite ?Er|split].
    + split; [intros i x Hx|intros i x Hx]; apply lookup_insert_Some in Hx as [[<- <-]|[_ Hx]]; eauto.
      * rewrite Ha. specialize (R1 _ _ Hr). lia.
      * rewrite Hp. eauto.
    + eapply Forall_impl; [exact H|]. intros i (x & Hx & Hh & Hb). destruct (decide (id = st_oid (mem i))) as [E|E].
      * rewrite <- E in *. rewrite Hr in Hx. injection Hx as <-. exists r'. rewrite lookup_insert_eq. split_and!; congruence.
      * exists x. rewrite lookup_insert_ne by exact E. auto.
    + exact O.
    + intros i x Hx Hh. apply lookup_insert_Some in Hx as [[<- <-]|[_ Hx]]; [rewrite Hp; rewrite Hst in Hh; eauto | eauto].
    + intros i x Hx. apply lookup_insert_Some in Hx as [[<- <-]|[_ Hx]]; [rewrite Hst; eauto | eauto].
    + rewrite (aux_sum_insert_old _ _ _ _ Hr), Ha. lia.
    + exact V.
    + intros Hf. exfalso. apply (Hfresh Hf eq_refl). eexists. exact Hr.
    + intros _ Hs i [x Hx] Hv. cbn in Hx. rewrite Er in Hx. apply (Hs i); [|exact Hv]. unfold queued.
      apply lookup_insert_Some in Hx as [[<- _]|[_ Hx]]; eexists; eassumption.
Qed.
End invariant.

(** An object that is queued has a type: its tag was checked when it was received. *)
Section steps.
Context (mem : positive -> stored) (mem_typed : forall p, st_type (mem p) <> 0).

Lemma get_ok q pending v held fault fault2 rc q' id r :
  txq_ok mem (mkTxq (mkTxState q pending v) held) ->
  ProcessQGetNextValidateObj q fault fault2 = (rc, q', Some (id, r)) ->
  txq_ok mem (mkTxq (mkTxState q' pending v) (q_bufp r :: held))
  /\ aux_sum (q_rows q') = aux_sum (q_rows q)
  /\ (forall i, is_Some (q_rows q' !! i) <-> is_Some (q_rows q !! i)).
Proof.
  intros [[R1 R2] H O A S B V] Hg. cbn in *.
  pose proof (GetNext_cases q fault fault2) as Hc. rewrite Hg in Hc.
  destruct Hc as [(_ & ? & _)|[(_ & ? & _)|(_ & i & x & [= <- <-] & Hr & Hst & -> & _)]]; [done..|]. cbn.
  pose proof (R2 _ _ Hr) as Hid.
  assert (Hsum : aux_sum (<[id := set_status r PROCESS_Q_STATUS_HOLD]> (q_rows q)) = aux_sum (q_rows q)).
  { rewrite (aux_sum_insert_old _ _ _ _ Hr). cbn. lia. }
  assert (Hnew : forall p, p ∈ held -> st_oid (mem p) <> id).
  { intros p Hp E. rewrite Forall_forall in H. destruct (H p Hp) as (y & Hy & Hh & _). rewrite E, Hr in Hy.
    injection Hy as <-. rewrite Hst in Hh. done. }
  split; [split; cbn|split; [exact Hsum|]].
  - split; intros i x Hx; apply lookup_insert_Some in Hx as [[<- <-]|[_ Hx]]; cbn; eauto.
  - apply Forall_cons. split.
    + rewrite Hid. exists (set_status r PROCESS_Q_STATUS_HOLD). by rewrite lookup_insert_eq.
    + rewrite Forall_forall in H |- *. intros p Hp. destruct (H p Hp) as (y & Hy & Hh & Hb). exists y.
      rewrite lookup_insert_ne; [auto|]. intros E. by apply (Hnew p Hp).
  - apply NoDup_cons. split; [|exact O]. rewrite Hid. intros Hin.
    apply list_elem_of_fmap in Hin as (p & E & Hp). by apply (Hnew p Hp).
  - intros i x Hx Hh. apply lookup_insert_Some in Hx as [[<- <-]|[_ Hx]]; [apply list_elem_of_here|].
    apply elem_of_cons. right. eauto.
  - intros i x Hx. apply lookup_insert_Some in Hx as [[<- <-]|[_ Hx]]; [by right | eauto].
  - by rewrite Hsum.
  - exact V.
  - intros i. destruct (decide (id = i)) as [<-|Hne]; [rewrite lookup_insert_eq, Hr; split; eauto | by rewrite lookup_insert_ne].
Qed.

(** Finishing a transaction that a thread holds: it is never refused, its row is removed,
    the blocks that it was queued for are subtracted, and the wait ends with the last. *)
Lemma finish_cases s held p insert_fault ticks rc next :
  txq_ok mem (mkTxq s held) -> p ∈ held ->
  exists r out s', q_rows (ts_queue s) !! st_oid (mem p) = Some r /\ q_bufp r = p
    /\ finish_tx mem s insert_fault false false ticks p rc next = Ret (out, s')
    /\ q_rows (ts_queue s') = delete (st_oid (mem p)) (q_rows (ts_queue s))
    /\ ts_pending s' = Z.max 0 (ts_pending s - q_auxint r)
    /\ fin_block_done out = negb (q_auxint r =? 0) && (ts_pending s <=? q_auxint r)
    /\ fin_conn out = q_conn r /\ fin_callback out = q_callback r
    /\ (ts_valid s' = ts_valid s /\ fin_inserted out = false \/
        exists irc n, ValidObjsInsert mem (ts_valid s) insert_fault ticks p = Ret (irc, n, ts_valid s')
                      /\ fin_inserted out = (irc =? 0) /\ (rc = 0 \/ 1 < rc)).
Proof.
  intros [[R1 R2] H O A S [B1 B2] V] Hp. cbn in *. rewrite Forall_forall in H.
  destruct (H p Hp) as (r & Hr & Hh & Hb). exists r. pose proof (R1 _ _ Hr) as Haux.
  pose proof (select_delete_cases (ts_queue s) (st_oid (mem p))) as Hd. rewrite Hr in Hd. destruct Hd as (q' & Hd & Hrows).
  unfold finish_tx. destruct (after_validate rc next) as [[validated result] nc] eqn:Ea.
  assert (exists ins sn res v, (if validated
              then let! res := ValidObjsInsert mem (ts_valid s) insert_fault ticks p in
                   let '(rc, seqnum, v) := res in
                   Ret (if rc <? 0 then (false, seqnum, result, v)
                        else if negb (rc =? 0) then (false, seqnum, 0, v)
                        else (true, seqnum, nc, v))
              else Ret (false, 0, result, ts_valid s)) = Ret (ins, sn, res, v)
          /\ (v = ts_valid s /\ ins = false \/ exists irc n, ValidObjsInsert mem (ts_valid s) insert_fault ticks p = Ret (irc, n, v)
              /\ ins = (irc =? 0) /\ (rc = 0 \/ 1 < rc))) as (ins & sn & res & v & -> & Hv).
  { destruct validated; [|by eexists _, _, _, _; split; [reflexivity|left]].
    assert (rc = 0 \/ 1 < rc) as Hrc.
    { revert Ea. unfold after_validate. destruct (Z.ltb_spec rc 0); [done|]. destruct (Z.eqb_spec rc 1); [done|]. intros _. lia. }
    destruct (ValidObjsInsert _ _ _ _ _) as [[[irc n] v]|e] eqn:Ei.
    - cbn [outcome_bind]. destruct (Z.ltb_spec irc 0); [|destruct (Z.eqb_spec irc 0)]; cbn [negb];
        eexists _, _, _, _; (split; [reflexivity|]); right; exists irc, n; split_and!; auto; symmetry; apply Z.eqb_neq || apply Z.eqb_eq; lia.
    - exfalso. revert Ei. unfold ValidObjsInsert. rewrite (proj2 (Z.eqb_neq _ _) (mem_typed p)). cbn [negb].
      destruct (NextNum _) as [[? ?] ?]. repeat case_match; done. }
  cbn [outcome_bind]. rewrite Hd. cbn [Z.eqb].
  destruct (Z.eqb_spec (q_auxint r) 0) as [E0|E0].
  - eexists _, _. split_and!; try reflexivity; try assumption. cbn. lia.
  - eexists _, _. split_and!; try reflexivity; try assumption; cbn.
    + destruct (Z.ltb_spec (ts_pending s - q_auxint r) 0); lia.
    + destruct (Z.leb_spec (ts_pending s - q_auxint r) 0), (Z.leb_spec (ts_pending s) (q_auxint r)); done || lia.
Qed.

Lemma finish_ok s held held' p insert_fault ticks rc next out s' :
  txq_ok mem (mkTxq s held) -> held ≡ₚ p :: held' ->
  finish_tx mem s insert_fault false false ticks p rc next = Ret (out, s') ->
  txq_ok mem (mkTxq s' held')
  /\ (ts_pending s = aux_sum (q_rows (ts_queue s)) -> ts_pending s' = aux_sum (q_rows (ts_queue s')))
  /\ (in_sync s -> in_sync s').
Proof.
  intros Hok Hheld Hf. pose proof Hok as [[R1 R2] H O A S [B1 B2] V]. cbn in *.
  assert (p ∈ held) as Hp by (rewrite Hheld; apply list_elem_of_here).
  destruct (finish_cases _ _ _ insert_fault ticks rc next Hok Hp) as (r & out' & s1 & Hr & Hb & Hf' & Er & Ep & _ & _ & _ & Ev).
  rewrite Hf in Hf'. injection Hf' as <- <-. pose proof (R1 _ _ Hr) as Haux.
  pose proof (aux_sum_delete _ _ _ Hr) as Hsum.
  assert (Hpos : 0 <= aux_sum (delete (st_oid (mem p)) (q_rows (ts_queue s)))).
  { apply aux_sum_nonneg. intros i x Hx. apply lookup_delete_Some in Hx as [_ Hx]. eauto. }
  assert (Hnd : NoDup (st_oid (mem p) :: ((fun p => st_oid (mem p)) <$> held'))).
  { change (NoDup ((fun p => st_oid (mem p)) <$> (p :: held'))). rewrite <- Hheld. exact O. }
  apply NoDup_cons in Hnd as [Hnot Hnd].
  assert (Hother : forall p', p' ∈ held' -> st_oid (mem p') <> st_oid (mem p)).
  { intros p' Hp' E. apply Hnot. rewrite <- E. apply list_elem_of_fmap. eauto. }
  split; [split; cbn; rewrite ?Er, ?Ep|split].
  - split; intros i x Hx; apply lookup_delete_Some in Hx as [_ Hx]; eauto.
  - rewrite Forall_forall in H |- *. intros p' Hp'. destruct (H p') as (y & Hy & Hh & Hyb); [rewrite Hheld; by right|].
    exists y. rewrite lookup_delete_ne; [auto|]. intros E. by apply (Hother p').
  - exact Hnd.
  - intros i x Hx Hh. apply lookup_delete_Some in Hx as [Hne Hx]. specialize (A _ _ Hx Hh). rewrite Hheld in A.
    apply elem_of_cons in A as [E|A]; [|exact A]. exfalso. apply Hne. rewrite <- E. eauto.
  - intros i x Hx. apply lookup_delete_Some in Hx as [_ Hx]. eauto.
  - lia.
  - destruct Ev as [[-> _]|(irc & n & Ei & _)]; [exact V|]. exact (Insert_ok mem _ _ _ _ _ _ _ V Ei).
  - rewrite Er, Ep. lia.
  - intros Hs i [x Hx] Hv. cbn in Hx. rewrite Er in Hx. apply lookup_delete_Some in Hx as [Hne Hx].
    assert (queued s i) as Hq by (eexists; exact Hx). apply (Hs i Hq). unfold is_valid_obj in Hv |- *.
    destruct Ev as [[<- _]|(irc & n & Ei & _)]; [exact Hv|]. destruct Hv as (sq & y & Hy & Hid).
    destruct (Insert_cases mem _ _ _ _ _ _ _ Ei) as (sq' & s2 & over & _ & _ & _ & _ & Hc).
    destruct Hc as [(_ & _ & E & _)|(_ & _ & _ & _ & _ & E & _)]; rewrite E in Hy; [eauto|].
    apply lookup_insert_Some in Hy as [[_ <-]|[_ Hy]]; [done | eauto].
Qed.

Lemma other_ok q pending v held o v' :
  txq_ok mem (mkTxq (mkTxState q pending v) held) -> vo_run mem v o = Ret v' ->
  txq_ok mem (mkTxq (mkTxState q pending v') held)
  /\ (other_op_ok mem (mkTxState q pending v) o -> in_sync (mkTxState q pending v) -> in_sync (mkTxState q pending v')).
Proof.
  intros [R H O A S B V] Hrun. split.
  - split; cbn in *; try assumption. exact (vo_run_ok mem _ _ _ V Hrun).
  - intros Ho Hs i Hq (sq & y & Hy & Hid). cbn in Hy. apply (Hs i Hq). unfold is_valid_obj. cbn.
    destruct o as [fault ticks p|fault p|fault n]; cbn [vo_run] in Hrun.
    + destruct (ValidObjsInsert _ _ _ _ _) as [[[irc n] v1]|] eqn:Ei; cbn in Hrun; [|done]. injection Hrun as <-.
      destruct (Insert_cases mem _ _ _ _ _ _ _ Ei) as (sq' & s2 & over & _ & _ & _ & _ & Hc).
      destruct Hc as [(_ & _ & E & _)|(_ & _ & _ & _ & _ & E & _)]; rewrite E in Hy; [eauto|].
      apply lookup_insert_Some in Hy as [[_ <-]|[_ Hy]]; [|eauto]. exfalso. apply Ho. unfold queued. cbn in Hid. by rewrite Hid.
    + injection Hrun as <-. revert Hy. unfold ValidObjsDeleteObj. destruct fault; cbn; [eauto|].
      case_bool_decide; cbn; intros Hy; apply map_lookup_filter_Some in Hy as [Hy _]; eauto.
    + injection Hrun as <-. revert Hy. unfold ValidObjsDeleteSeqnum. destruct fault; cbn; [eauto|].
      intros Hy. apply lookup_delete_Some in Hy as [_ Hy]. eauto.
Qed.

Definition exact (s : tx_state) : Prop := ts_pending s = aux_sum (q_rows (ts_queue s)).

Lemma txq_step_ok faults fresh s s' : txq_step mem faults fresh s s' -> txq_ok mem s ->
  txq_ok mem s'
  /\ (fresh = true -> exact (tq_state s) -> exact (tq_state s'))
  /\ (faults = false -> in_sync (tq_state s) -> in_sync (tq_state s')).
Proof.
  unfold exact.
  intros [s0 held f xreq_rc tx relay priority bufp conn callback rc s1 ro Hf Hfresh He|q pending v held fault fault2 rc q' id r Hg
         |q pending v held n|s0 held held' p insert_fault ticks rc next out s1 Hheld Hfin|q pending v held o v' Ho Hrun] Hok.
  - destruct (enqueue_ok mem fresh _ _ _ _ _ _ _ _ _ _ _ _ _ Hfresh Hok He) as (H1 & H2 & H3). auto.
  - destruct (get_ok _ _ _ _ _ _ _ _ _ _ Hok Hg) as (H1 & H2 & H3). split; [exact H1|]. cbn. split; [by rewrite H2|].
    intros _ Hs i Hq Hv. apply (Hs i); [|exact Hv]. unfold queued in *. cbn in *. by apply H3.
  - split; [|auto]. destruct Hok. split; assumption.
  - destruct (finish_ok _ _ _ _ _ _ _ _ _ _ Hok Hheld Hfin) as (H1 & H2 & H3). auto.
  - destruct (other_ok _ _ _ _ _ _ Hok Hrun) as [H1 H2]. auto.
Qed.

Lemma txq_start_ok : txq_ok mem txq_start.
Proof.
  split; cbn.
  - split; intros i x Hx; by rewrite lookup_empty in Hx.
  - constructor.
  - constructor.
  - intros i x Hx. by rewrite lookup_empty in Hx.
  - intros i x Hx. by rewrite lookup_empty in Hx.
  - vm_compute. split; congruence.
  - apply vo_start_ok.
Qed.

Lemma txq_reachable_ok faults fresh s : txq_reachable mem faults fresh s ->
  txq_ok mem s /\ (fresh = true -> exact (tq_state s)) /\ (faults = false -> in_sync (tq_state s)).
Proof.
  unfold txq_reachable. intros Hr. 
  apply (rtc_ind_r (R := txq_step mem faults fresh) (fun s => txq_ok mem s /\ (fresh = true -> exact (tq_state s)) /\ (faults = false -> in_sync (tq_state s))) txq_start).
  - split; [apply txq_start_ok|]. split; [reflexivity|]. intros _ i [x Hx]. cbn in Hx. by rewrite lookup_empty in Hx.
  - intros s1 s2 _ Hstep (H1 & H2 & H3). destruct (txq_step_ok _ _ _ _ Hstep H1) as (G1 & G2 & G3). auto.
  - exact Hr.
Qed.
End steps.

(** ** Properties *)

(** In every state that threads can lead to by queueing transactions, taking them and
    finishing them in any order: finishing a transaction that a thread holds never asserts,
    whatever the validation gave, and removes it from the queue; the count that the wait
    for a block goes by is between zero and the number of times that queued transactions
    belong to a block, so that the wait goes on only while one of them is queued, and the
    thread that brings it to zero reports it; and unless looking it up fails, no queued
    transaction is among the valid objects. *)
Theorem transactions_in_step mem faults fresh s :
  (forall p, st_type (mem p) <> 0) -> txq_reachable mem faults fresh s ->
  let st := tq_state s in
  (forall p insert_fault ticks rc next, p ∈ tq_held s ->
     exists out st', finish_tx mem st insert_fault false false ticks p rc next = Ret (out, st')
     /\ q_rows (ts_queue st') !! st_oid (mem p) = None
     /\ (0 < ts_pending st -> ts_pending st' = 0 -> fin_block_done out = true))
  /\ 0 <= ts_pending st <= aux_sum (q_rows (ts_queue st))
  /\ (wait_over st false = false -> exists id r, q_rows (ts_queue st) !! id = Some r /\ 0 < q_auxint r)
  /\ (faults = false -> forall id, queued st id -> ~ is_valid_obj st id).
Proof.
  intros Hmem Hr st. destruct (txq_reachable_ok mem Hmem faults fresh s Hr) as (Hok & _ & Hsync).
  destruct s as [s0 held]. cbn in st. subst st. cbn in *. pose proof Hok as [[R1 R2] H O A S B V]. cbn in *.
  split_and!.
  - intros p insert_fault ticks rc next Hp.
    destruct (finish_cases mem Hmem s0 held p insert_fault ticks rc next Hok Hp) as (r & out & s' & Hrow & _ & Hf & Er & Ep & Ed & _).
    exists out, s'. split; [exact Hf|]. split; [rewrite Er; apply lookup_delete_eq|]. intros H1 H2. rewrite Ed.
    specialize (R1 _ _ Hrow). destruct (Z.eqb_spec (q_auxint r) 0); [lia|]. cbn. apply Z.leb_le. lia.
  - lia.
  - lia.
  - unfold wait_over. destruct (Z.ltb_spec 0 (ts_pending s0)); [|done]. intros _. apply aux_sum_pos; [exact R1 | lia].
  - exact Hsync.
Qed.

(** When the transactions of blocks are queued only while they are not in the queue, the
    wait for the transactions of a block is over exactly when none is queued. *)
Theorem block_wait_exact mem faults s :
  (forall p, st_type (mem p) <> 0) -> txq_reachable mem faults true s ->
  let st := tq_state s in
  ts_pending st = aux_sum (q_rows (ts_queue st))
  /\ (wait_over st false = true <-> forall id r, q_rows (ts_queue st) !! id = Some r -> q_auxint r = 0).
Proof.
  intros Hmem Hr st. destruct (txq_reachable_ok mem Hmem faults true s Hr) as (Hok & Hexact & _).
  specialize (Hexact eq_refl). fold st in Hexact. unfold exact in Hexact. split; [exact Hexact|].
  destruct Hok as [[R1 R2] _ _ _ _ B _]. fold st in B, R1. unfold wait_over. rewrite andb_true_r, Hexact. split.
  - intros Hw id r Hrow. pose proof (R1 _ _ Hrow). destruct (Z.ltb_spec 0 (aux_sum (q_rows (ts_queue st)))); [done|].
    pose proof (aux_sum_delete _ _ _ Hrow) as Hsum. assert (0 <= aux_sum (delete id (q_rows (ts_queue st)))); [|lia].
    apply aux_sum_nonneg. intros i x Hx. apply lookup_delete_Some in Hx as [_ Hx]. eauto.
  - intros Hz. destruct (Z.ltb_spec 0 (aux_sum (q_rows (ts_queue st)))) as [Hpos|]; [|done].
    destruct (aux_sum_pos _ R1 Hpos) as (id & r & Hrow & Hp). specialize (Hz _ _ Hrow). lia.
Qed.

(** ** Examples *)

(** A transaction of a peer is queued and then comes in a block, with another. *)
Definition demo_tx (n : Z) : CCObject := mkObj (replicate 16 n) 66 CC_TAG_TX (replicate 58 0).
Definition demo_txs (p : positive) : stored := StoredTx (demo_tx (Zpos p)).
Definition no_faults : tx_faults := mkTxFaults false false false.

Lemma demo_txs_typed p : st_type (demo_txs p) <> 0.
Proof. vm_compute. congruence. Qed.

Definition demo_enqueue_tx (s : txq) (is_block_tx : bool) (p : positive) : txq :=
  mkTxq (snd (fst (TxEnqueueValidate demo_txs (tq_state s) no_faults 1 is_block_tx false 4 p 0 0))) (tq_held s).
Definition demo_take (s : txq) : txq :=
  match ProcessQGetNextValidateObj (ts_queue (tq_state s)) false false with
  | (_, q, Some (_, r)) => mkTxq (mkTxState q (ts_pending (tq_state s)) (ts_valid (tq_state s))) (q_bufp r :: tq_held s)
  | _ => s
  end.
Definition demo_finish (s : txq) (p : positive) : txq :=
  match finish_tx demo_txs (tq_state s) false false false 0 p 0 0 with
  | Ret (_, st) => mkTxq st []
  | Throw _ => s
  end.

Definition demo_queued : txq := demo_enqueue_tx (demo_enqueue_tx (demo_enqueue_tx txq_start false 1) true 1) true 2.
Definition demo_taken : txq := demo_take demo_queued.
Definition demo_done : txq := demo_finish demo_taken 1.

Lemma demo_enqueue_step faults s is_block_tx p :
  txq_step demo_txs faults false s (demo_enqueue_tx s is_block_tx p).
Proof.
  destruct s as [st held]. unfold demo_enqueue_tx. cbn [tq_state tq_held].
  destruct (TxEnqueueValidate _ _ _ _ _ _ _ _ _ _) as [[rc s'] ro] eqn:E.
  eapply txq_enqueue; [| |exact E]; [reflexivity | discriminate].
Qed.

Lemma demo_queued_reachable : txq_reachable demo_txs false false demo_queued.
Proof. unfold txq_reachable, demo_queued. eapply rtc_r; [eapply rtc_r; [eapply rtc_r; [apply rtc_refl|]|]|]; apply demo_enqueue_step. Qed.

Lemma demo_taken_reachable : txq_reachable demo_txs false false demo_taken.
Proof.
  eapply rtc_r; [exact demo_queued_reachable|].
  destruct (ProcessQGetNextValidateObj (ts_queue (tq_state demo_queued)) false false) as [[rc q'] [[id r]|]] eqn:E.
  - unfold demo_taken, demo_take. rewrite E. apply (txq_get _ _ _ _ (ts_pending (tq_state demo_queued)) _ _ false false rc _ id). exact E.
  - exfalso. revert E. vm_compute. discriminate.
Qed.

Lemma demo_done_reachable : txq_reachable demo_txs false false demo_done.
Proof.
  eapply rtc_r; [exact demo_taken_reachable|].
  destruct (finish_tx demo_txs (tq_state demo_taken) false false false 0 1 0 0) as [[out st]|] eqn:E.
  - unfold demo_done, demo_finish. rewrite E. destruct demo_taken as [s0 held] eqn:Et.
    eapply (txq_finish _ _ _ s0 held [] 1%positive false 0 0 0 out st); [|exact E].
    assert (held = tq_held demo_taken) as -> by (by rewrite Et). reflexivity.
  - exfalso. revert E. vm_compute. discriminate.
Qed.

(** The wait for the transactions of a block can end too early: a transaction that a
    peer sent is queued again by a block without being added to [block_txs_pending], but is
    subtracted from it when it is finished, although another transaction of the block
    is still waiting to be validated. *)
Theorem block_wait_ends_early :
  txq_reachable demo_txs false false demo_done
  /\ wait_over (tq_state demo_done) false = true
  /\ exists id r, q_rows (ts_queue (tq_state demo_done)) !! id = Some r
     /\ q_status r = PROCESS_Q_STATUS_PENDING /\ q_auxint r = 1 /\ ~ is_valid_obj (tq_state demo_done) id.
Proof.
  split; [exact demo_done_reachable|]. split; [vm_compute; reflexivity|].
  assert (Hrow : exists r, q_rows (ts_queue (tq_state demo_done)) !! replicate 16 2 = Some r
                 /\ q_status r = PROCESS_Q_STATUS_PENDING /\ q_auxint r = 1).
  { eexists. vm_compute. split; [reflexivity|]. split; reflexivity. }
  destruct Hrow as (r & Hr & Hs & Ha). exists (replicate 16 2), r. split_and!; auto.
  apply (proj2 (proj2 (txq_reachable_ok demo_txs demo_txs_typed false false _ demo_done_reachable)) eq_refl).
  eexists. exact Hr.
Qed.

Lemma transactions_in_step_witness : exists out st',
  finish_tx demo_txs (tq_state demo_taken) false false false 5 1 0 9 = Ret (out, st').
Proof.
  destruct (transactions_in_step demo_txs false false demo_taken demo_txs_typed demo_taken_reachable) as [H _].
  destruct (H 1%positive false 5 0 9) as (out & st' & E & _).
  - assert (tq_held demo_taken = [1%positive]) as -> by (vm_compute; reflexivity). apply list_elem_of_here.
  - exists out, st'. exact E.
Defined.

Definition demo_fresh : txq := demo_enqueue_tx txq_start true 2.

Lemma demo_fresh_reachable : txq_reachable demo_txs false true demo_fresh.
Proof.
  eapply rtc_r; [apply rtc_refl|]. unfold demo_fresh, demo_enqueue_tx.
  destruct (TxEnqueueValidate _ _ _ _ _ _ _ _ _ _) as [[rc s'] ro] eqn:E.
  eapply txq_enqueue; [| |exact E]; [reflexivity|]. intros _ _ [x Hx]. cbn in Hx. by rewrite lookup_empty in Hx.
Qed.

Lemma block_wait_exact_witness :
  ts_pending (tq_state demo_fresh) = aux_sum (q_rows (ts_queue (tq_state demo_fresh))) /\ ts_pending (tq_state demo_fresh) = 1.
Proof.
  destruct (block_wait_exact demo_txs false demo_fresh demo_txs_typed demo_fresh_reachable) as [H _].
  split; [exact H | vm_compute; reflexivity].
Defined.
