(* ===== verification/UniFloat.v ===== *)
(** * Portable floating point (src/source/cccommon/src/unifloat.cpp, unifloat.hpp)

    Amounts and rates of the exchange.  A [UniFloat] holds a double, and its arithmetic
    takes doubles apart into integers, computes with those, and puts a double together.
    A finite double is modelled as a dyadic number [d_m * 2 ^ d_e]; the operations of the
    C library on doubles ([frexp], [ldexp], the conversions, [floor] and so on) are exact
    or round as IEEE 754 says, and are written out.  A [UniFloat] is always finite, because
    [Recompose] replaces infinities. *)
From S2P Require Import Prelude.

Local Open Scope Z_scope.
Local Open Scope cc_scope.

(** ** Doubles *)

Record double := mkD { d_m : Z; d_e : Z }.

Definition zero : double := mkD 0 0.
Definition neg (v : double) : double := mkD (- d_m v) (d_e v).

(** Both mantissas for the smaller of the exponents. *)
Definition common (a b : double) : Z := Z.min (d_e a) (d_e b).
Definition at_exp (k : Z) (a : double) : Z := d_m a * 2 ^ (d_e a - k).
Definition dle (a b : double) : bool := at_exp (common a b) a <=? at_exp (common a b) b.
Definition dlt (a b : double) : bool := at_exp (common a b) a <? at_exp (common a b) b.
Definition deq (a b : double) : bool := at_exp (common a b) a =? at_exp (common a b) b.

Definition bits (m : Z) : Z := if m =? 0 then 0 else Z.log2 m + 1.

Definition DBL_MAX : double := mkD (2 ^ 53 - 1) 971.

(** [m / 2 ^ s] for [m >= 0], by [floor], [ceil] or [round] (halves up). *)
Definition shift_round (rounding m s : Z) : Z :=
  if s <=? 0 then m * 2 ^ (- s)
  else if rounding <? 0 then m / 2 ^ s
  else if 0 <? rounding then (m + (2 ^ s - 1)) / 2 ^ s
  else (m + 2 ^ (s - 1)) / 2 ^ s.

(** The rounding of conversions and of [ldexp]: halves to even. *)
Definition shift_even (m s : Z) : Z :=
  let q := m / 2 ^ s in
  let r := m mod 2 ^ s in
  if (2 ^ (s - 1) <? r) || ((2 ^ (s - 1) =? r) && Z.odd q) then q + 1 else q.

(** The double nearest to an integer [m >= 0]. *)
Definition of_integer (m : Z) : double :=
  if bits m <=? 53 then mkD m 0 else mkD (shift_even m (bits m - 53)) (bits m - 53).

(** Nothing stands for infinity. *)
Definition ldexp (v : double) (n : Z) : option double :=
  let e := d_e v + n in
  if d_m v =? 0 then Some zero
  else if 1024 <? bits (d_m v) + e then None
  else if e <? -1074 then Some (mkD (shift_even (d_m v) (-1074 - e)) (-1074))
  else Some (mkD (d_m v) e).

(** ** Taking apart and putting together *)

Record UniFloatTuple := mkT { mant : Z; exp : Z; sign : Z }.

Definition UNIFLOAT_BITS : Z := 32.
Definition UNIFLOAT_EXPONENT_BITS : Z := 11.
Definition UNIFLOAT_MATISSA_BITS : Z := UNIFLOAT_BITS - UNIFLOAT_EXPONENT_BITS.
Definition UNIFLOAT_COMPUTATION_BITS : Z := 52.

(** The mantissa is halved until it is below the limit. *)
Fixpoint decompose_loop (fuel : nat) (rounding increment sgn limit m s e : Z) : outcome (Z * Z) :=
  match fuel with
  | O => Throw FuelOut
  | S f =>
      let y := u64 (u64 (shift_round rounding m s) + sgn * increment) in
      if y <? limit then Ret (y, e)
      else decompose_loop f rounding increment sgn limit m (s + 1) (i16 (e + 1))
  end.

Definition Decompose (v : double) (nbits rounding increment : Z) : outcome UniFloatTuple :=
  if d_m v =? 0 then Ret (mkT 0 0 0)
  else
    let nbits := if nbits =? 0 then UNIFLOAT_COMPUTATION_BITS else nbits in
    ccassert! (nbits <? 64) in
    let limit := 2 ^ nbits in
    let b := bits (Z.abs (d_m v)) in
    let sgn := if 0 <? d_m v then 1 else -1 in
    let! r := decompose_loop 64 rounding increment sgn limit (Z.abs (d_m v)) (b - nbits) (i16 (d_e v + b - nbits)) in
    Ret (mkT (fst r) (snd r) sgn).

Definition Recompose (x : UniFloatTuple) : double :=
  match ldexp (of_integer (mant x)) (exp x) with
  | Some v => mkD (sign x * d_m v) (d_e v)
  | None => mkD (sign x * d_m DBL_MAX) (d_e DBL_MAX)
  end.

(** The constructor from a double. *)
Definition UniFloat_of (v : double) (rounding : Z) : outcome double :=
  let! x := Decompose v 0 rounding 0 in
  Ret (Recompose x).

Definition CheckLE (a b : double) : outcome bool :=
  let! v := Decompose b 0 0 0 in
  Ret (dle a (Recompose (mkT (u64 (mant v + 2)) (exp v) (sign v)))).
Definition CheckGE (a b : double) : outcome bool := CheckLE b a.

Definition ApplySign (s : Z) (a : double) : double :=
  if 0 <? s then a else if s <? 0 then neg a else zero.

(** ** Arithmetic *)

Definition Shift (v shift rounding : Z) : outcome Z :=
  ccassert! (0 <=? shift) in
  Ret (if (rounding <? 0) || (shift =? 0) then u64 (Z.shiftr v shift)
       else if 0 <? rounding then
         let up := Z.land v (2 ^ shift - 1) in
         let r := u64 (Z.shiftr v shift) in
         if up =? 0 then r else u64 (r + 1)
       else
         let up := Z.land v (2 ^ (shift - 1)) in
         let r := u64 (Z.shiftr v shift) in
         if up =? 0 then r else u64 (r + 1)).

(** The smallest shift that brings the mantissa below the limit. *)
Fixpoint find_shift (fuel : nat) (m shift : Z) : outcome Z :=
  if Z.shiftr m shift <? 2 ^ UNIFLOAT_COMPUTATION_BITS then Ret shift
  else match fuel with O => Throw FuelOut | S f => find_shift f m (shift + 1) end.

Definition Normalize (m : Z) (x : UniFloatTuple) (rounding : Z) : outcome UniFloatTuple :=
  let! shift := find_shift 128 m 0 in
  let! r := Shift m shift rounding in
  Ret (mkT r (i16 (exp x + shift)) (sign x)).

Definition Add (a b : double) (rounding : Z) (average : bool) : outcome double :=
  let nbits := 8 * 8 - 2 in
  let! v := Decompose a nbits 0 0 in
  let! x := Decompose b nbits 0 0 in
  let diff := if (mant v =? 0) || (mant x =? 0) then 0 else exp v - exp x in
  let! v :=
    if (mant x =? 0) || (nbits <=? diff) then Ret v
    else if (mant v =? 0) || (nbits <=? - diff) then Ret x
    else
      let! xm := if 0 <? diff then Shift (mant x) diff rounding else Ret (mant x) in
      let! vm := if diff <? 0 then Shift (mant v) (- diff) rounding else Ret (mant v) in
      let e := if diff <? 0 then exp x else exp v in
      let j := i64 (sign v * i64 vm) in
      let k := i64 (sign x * i64 xm) in
      let y := i64 (j + k) in
      Normalize (Z.abs y) (mkT vm e (Z.sgn y)) rounding in
  let v := if average then mkT (mant v) (i16 (exp v - 1)) (sign v) else v in
  Ret (Recompose v).

Definition Average (a b : double) (rounding : Z) : outcome double := Add a b rounding true.

Definition Multiply (a b : double) (rounding : Z) : outcome double :=
  let! v := Decompose a (8 * 8 - 1) 0 0 in
  let! x := Decompose b (8 * 8 - 1) 0 0 in
  let y := u128 (mant v * mant x) in
  let! r := Normalize y (mkT (mant v) (i16 (exp v + exp x)) (sign v * sign x)) rounding in
  Ret (Recompose r).

Definition Divide (a b : double) (rounding : Z) : outcome double :=
  let nbits := 8 * 8 - 1 in
  let! v := Decompose a nbits 0 0 in
  let! x := Decompose b nbits (- rounding) 0 in
  if mant x =? 0 then UniFloat_of (if sign v <? 0 then neg DBL_MAX else DBL_MAX) 0
  else
    let y := u128 (Z.shiftl (mant v) (127 - nbits)) in
    let y :=
      if rounding =? 0 then u128 (y + u64 (mant x + 1) / 2)
      else if 0 <? rounding then u128 (y + u64 (mant x - 1))
      else y in
    let y := y / mant x in
    let! r := Normalize y (mkT (mant v) (i16 (exp v - i16 (exp x + 127 - nbits))) (sign v * sign x)) rounding in
    Ret (Recompose r).

Definition one : double := mkD 1 0.

(** [a] to the [b], by squaring. *)
Fixpoint power_loop (fuel : nat) (v fac : double) (b : Z) : outcome double :=
  match fuel with
  | O => Throw FuelOut
  | S f =>
      let! v := if Z.odd b then Multiply v fac 0 else Ret v in
      let b := Z.shiftr b 1 in
      if b =? 0 then Ret v
      else
        let! fac := Multiply fac fac 0 in
        power_loop f v fac b
  end.

Definition Power (a : double) (b : Z) : outcome double :=
  if b <? 0 then Ret zero
  else if b =? 0 then Ret one
  else power_loop 32 one a b.

(** [ceil], [floor] or [round] of the value. *)
Definition Round (a : double) (rounding : Z) : outcome double :=
  let m := d_m a in
  let s := - d_e a in
  let r :=
    if s <=? 0 then m * 2 ^ (- s)
    else if 0 <? rounding then - ((- m) / 2 ^ s)
    else if rounding <? 0 then m / 2 ^ s
    else Z.sgn m * shift_round 0 (Z.abs m) s in
  UniFloat_of (if s <=? 0 then a else mkD r 0) 0.

(** ** The wire *)

Definition maxexp : Z := 2 ^ (UNIFLOAT_EXPONENT_BITS - 1).
Definition manhi : Z := 2 ^ UNIFLOAT_MATISSA_BITS.

(** Halving keeps the mantissa below twice [manhi]; nothing stands for a value above the
    largest. *)
Fixpoint normalize_wire (fuel : nat) (mantissa exponent : Z) : outcome (option (Z * Z)) :=
  if mantissa <? 2 * manhi then Ret (Some (mantissa, exponent))
  else match fuel with
       | O => Throw FuelOut
       | S f =>
           let exponent := exponent + 1 in
           if maxexp <? exponent then Ret None else normalize_wire f (Z.shiftr mantissa 1) exponent
       end.

(** The value; the mantissa and the exponent that the code can also return through
    pointers are left out. *)
Definition WireDecode (v increment : Z) (allow_zero : bool) : outcome double :=
  if allow_zero && (v =? 0) && (increment =? 0) then Ret zero
  else
    let exponent := Z.shiftr v UNIFLOAT_MATISSA_BITS in
    if 2 * maxexp <=? exponent then Throw (RangeError 0)
    else
      let mantissa := Z.land v (manhi - 1) in
      if (increment <? 0) && (mantissa <? u64 (- increment)) && (exponent =? 0) then UniFloat_of (neg DBL_MAX) 0
      else
        let mantissa := if v =? 0 then mantissa else u64 (mantissa + manhi) in
        let mantissa := u64 (mantissa + increment) in
        let! r := normalize_wire 64 mantissa exponent in
        match r with
        | None => UniFloat_of DBL_MAX 0
        | Some (mantissa, exponent) =>
            UniFloat_of (mkD mantissa (exponent - maxexp - UNIFLOAT_MATISSA_BITS)) 0
        end.

(** The [floor] of the C library's [log2]. *)
Class Libm := floor_log2 : double -> Z.

(** Halves: 5 is 2.5. *)
Definition half (rb2 s : Z) : Z := rb2 * 2 ^ s.

(** [(v / 2 ^ exponent) * manhi - manhi], rounded and converted to [uint64_t].  For normal [v]
    the doubles that the result depends on are exact; a negative value wraps around as on
    x86-64 (the conversion is undefined in C++). *)
Definition encode_mantissa (v : double) (exponent rounding rb2 : Z) : Z :=
  let s := Z.max 0 (exponent - UNIFLOAT_MATISSA_BITS - d_e v) in
  let m2 := 2 * (d_m v * 2 ^ (d_e v + UNIFLOAT_MATISSA_BITS - exponent + s) - manhi * 2 ^ s) in
  u64 (if 0 <? rounding then Z.quot (m2 - half rb2 s) (2 * 2 ^ s)
       else if rounding <? 0 then - ((- (m2 + half rb2 s)) / (2 * 2 ^ s))
       else Z.quot (m2 + half 1 s) (2 * 2 ^ s)).

(** The exponent goes up until the mantissa fits. *)
Fixpoint encode_exponent (fuel : nat) (v : double) (exponent rounding rb2 : Z) : outcome (Z * Z) :=
  match fuel with
  | O => Throw FuelOut
  | S f =>
      let exponent := exponent + 1 in
      let mantissa := encode_mantissa v exponent rounding rb2 in
      if maxexp + 3 <? exponent then Ret (exponent, mantissa)
      else if manhi <=? mantissa then encode_exponent f v exponent rounding rb2
      else Ret (exponent, mantissa)
  end.

(** One turn for each rounding increment: a result, or nothing to go on. *)
Definition encode_try `{Libm} (v : double) (rounding rb2 : Z) (allow_zero : bool) : outcome (option Z) :=
  let! r := encode_exponent 4096 v (floor_log2 v - 2) rounding rb2 in
  let '(exponent, mantissa) := r in
  let more := -4 <? rb2 in
  if (maxexp <=? exponent) && more then Ret None
  else if (maxexp <=? exponent) && (0 <? rounding) then Throw (RangeError 1)
  else
    let '(exponent, mantissa) := if maxexp <=? exponent then (maxexp - 1, manhi - 1) else (exponent, mantissa) in
    if exponent <? - maxexp then
      if more then Ret None
      else if 0 <=? rounding then Ret (Some 1)
      else if allow_zero then Ret (Some 0)
      else Throw (RangeError 1)
    else
      let rv := Z.lor (Z.shiftl (exponent + maxexp) UNIFLOAT_MATISSA_BITS) mantissa in
      if rounding =? 0 then Ret (Some rv)
      else
        let! check := WireDecode rv 0 true in
        if (0 <? rounding) && dlt check v then Ret None
        else if (rounding <? 0) && dlt v check then Ret None
        else Ret (Some rv).

Fixpoint encode_loop `{Libm} (rbs : list Z) (v : double) (rounding : Z) (allow_zero : bool) : outcome Z :=
  match rbs with
  | [] => Throw (RuntimeError 0)
  | rb2 :: rbs =>
      let! r := encode_try v rounding rb2 allow_zero in
      match r with Some rv => Ret rv | None => encode_loop rbs v rounding allow_zero end
  end.

Definition WireEncode `{Libm} (v : double) (rounding : Z) (allow_zero : bool) : outcome Z :=
  if (d_m v =? 0) && (0 <? rounding) then Ret 1
  else if (d_m v =? 0) && allow_zero then Ret 0
  else if d_m v <=? 0 then Throw (RangeError 2)
  else encode_loop [5; 3; 1; -1; -3; -5] v rounding allow_zero.

(** ** Comparisons *)

Lemma at_exp_shift k k' a : k' <= k -> k <= d_e a -> at_exp k' a = at_exp k a * 2 ^ (k - k').
Proof.
  intros H1 H2. unfold at_exp. rewrite <- Z.mul_assoc, <- Z.pow_add_r by lia. f_equal. f_equal. lia.
Qed.

Lemma dle_at k a b : k <= d_e a -> k <= d_e b -> dle a b = (at_exp k a <=? at_exp k b).
Proof.
  intros Ha Hb. unfold dle. assert (k <= common a b) by (unfold common; lia).
  rewrite (at_exp_shift (common a b) k a), (at_exp_shift (common a b) k b) by (unfold common in *; lia).
  pose proof (pow2_pos (common a b - k) ltac:(lia)). apply eq_bool_prop_intro.
  rewrite !Is_true_true, !Z.leb_le. nia.
Qed.

Lemma dlt_at k a b : k <= d_e a -> k <= d_e b -> dlt a b = (at_exp k a <? at_exp k b).
Proof.
  intros Ha Hb. unfold dlt. assert (k <= common a b) by (unfold common; lia).
  rewrite (at_exp_shift (common a b) k a), (at_exp_shift (common a b) k b) by (unfold common in *; lia).
  pose proof (pow2_pos (common a b - k) ltac:(lia)). apply eq_bool_prop_intro.
  rewrite !Is_true_true, !Z.ltb_lt. nia.
Qed.

(** ** Exact values *)

Definition dabs (a : double) : double := mkD (Z.abs (d_m a)) (d_e a).
Definition dmul (a b : double) : double := mkD (d_m a * d_m b) (d_e a + d_e b).
Definition dadd (a b : double) : double :=
  mkD (at_exp (common a b) a + at_exp (common a b) b) (common a b).
Definition dsub (a b : double) : double := dadd a (neg b).

(** [v] is [exact] rounded to about 2^-50 of it, towards zero or away from it as
    [rounding] says, and of the same sign. *)
Definition rounded (rounding : Z) (exact v : double) : Prop :=
  Z.sgn (d_m v) = Z.sgn (d_m exact)
  /\ dlt (dabs (dsub v exact)) (mkD (Z.abs (d_m exact)) (d_e exact - 50)) = true
  /\ (rounding < 0 -> dle (dabs v) (dabs exact) = true)
  /\ (0 < rounding -> dle (dabs exact) (dabs v) = true).

(** The same on integers, for values with the exponent [k]. *)
Lemma rounded_at k rounding exact v M Q sg :
  k <= d_e exact -> k <= d_e v -> at_exp k exact = sg * M -> at_exp k v = sg * Q ->
  sg = 1 \/ sg = -1 -> 0 < M -> 0 < Q ->
  Z.abs (Q - M) * 2 ^ 50 < M -> (rounding < 0 -> Q <= M) -> (0 < rounding -> M <= Q) ->
  rounded rounding exact v.
Proof.
  intros Hke Hkv HM HQ Hs HM0 HQ0 Herr Hdn Hup.
  assert (Hpe : 0 < 2 ^ (d_e exact - k)) by (apply pow2_pos; lia).
  assert (Hpv : 0 < 2 ^ (d_e v - k)) by (apply pow2_pos; lia).
  assert (Habs : forall x z, at_exp k x = z -> k <= d_e x -> at_exp k (dabs x) = Z.abs z).
  { intros x z <- Hx. unfold at_exp, dabs. cbn [d_m d_e]. rewrite Z.abs_mul. f_equal. symmetry. apply Z.abs_eq.
    pose proof (pow2_pos (d_e x - k) ltac:(lia)). lia. }
  split; [|split; [|split]].
  - unfold at_exp in HM, HQ. destruct (Z.sgn_spec (d_m v)) as [[? ->]|[[? ->]|[? ->]]], (Z.sgn_spec (d_m exact)) as [[? ->]|[[? ->]|[? ->]]];
      try reflexivity; exfalso; nia.
  - assert (Hc : k <= common v (neg exact)) by (unfold common, neg; cbn [d_e]; lia).
    assert (Hd : at_exp k (dsub v exact) = sg * (Q - M)).
    { unfold dsub, dadd. unfold at_exp at 1. cbn [d_m d_e]. rewrite Z.mul_add_distr_r.
      rewrite <- (at_exp_shift _ k v), <- (at_exp_shift _ k (neg exact)) by (unfold common, neg in *; cbn [d_e] in *; lia).
      rewrite HQ. unfold at_exp, neg in *. cbn [d_m d_e]. nia. }
    rewrite (dlt_at (k - 50)).
    + rewrite (at_exp_shift k (k - 50)) by (cbn [dabs dsub dadd d_e]; lia).
      rewrite (Habs (dsub v exact) _ Hd) by (cbn [dsub dadd d_e]; lia).
      assert (Hx : at_exp (k - 50) (mkD (Z.abs (d_m exact)) (d_e exact - 50)) = M).
      { unfold at_exp. cbn [d_m d_e]. replace (d_e exact - 50 - (k - 50)) with (d_e exact - k) by lia.
        pose proof (Habs exact _ HM Hke) as Ha. unfold at_exp, dabs in Ha. cbn [d_m d_e] in Ha. rewrite Ha.
        destruct Hs as [->| ->]; lia. }
      rewrite Hx. replace (k - (k - 50)) with 50 by lia. apply Z.ltb_lt.
      replace (Z.abs (sg * (Q - M))) with (Z.abs (Q - M)) by (destruct Hs as [->| ->]; lia). exact Herr.
    + cbn [dabs dsub dadd d_e]. lia.
    + cbn [d_e]. lia.
  - intros Hr. rewrite (dle_at k) by (cbn [dabs d_e]; lia). rewrite (Habs _ _ HM Hke), (Habs _ _ HQ Hkv).
    apply Z.leb_le. specialize (Hdn Hr). destruct Hs as [->| ->]; lia.
  - intros Hr. rewrite (dle_at k) by (cbn [dabs d_e]; lia). rewrite (Habs _ _ HM Hke), (Habs _ _ HQ Hkv).
    apply Z.leb_le. specialize (Hup Hr). destruct Hs as [->| ->]; lia.
Qed.

(** ** Taking apart *)

Lemma bits_bound m : 0 < m -> 2 ^ (bits m - 1) <= m < 2 ^ bits m /\ 0 < bits m.
Proof.
  intros Hm. unfold bits. rewrite (proj2 (Z.eqb_neq m 0)) by lia. pose proof (Z.log2_spec m Hm) as H.
  pose proof (Z.log2_nonneg m). replace (Z.log2 m + 1 - 1) with (Z.log2 m) by lia. rewrite Z.add_1_r. lia.
Qed.

Lemma bits_le m w : 0 <= m < 2 ^ w -> 0 <= w -> 0 <= bits m <= w.
Proof.
  intros Hm Hw. unfold bits. destruct (Z.eqb_spec m 0); [lia|]. pose proof (Z.log2_nonneg m).
  assert (Z.log2 m < w) by (apply Z.log2_lt_pow2; lia). lia.
Qed.

Definition is_double (v : double) : Prop := Z.abs (d_m v) < 2 ^ 53 /\ -1074 <= d_e v <= 971.

(** The exponent of the value, as [frexp] has it. *)
Definition scale (v : double) : Z := d_e v + bits (Z.abs (d_m v)).

(** The mantissa on [nbits] bits. *)
Definition full (nbits : Z) (v : double) : Z := Z.abs (d_m v) * 2 ^ (nbits - bits (Z.abs (d_m v))).

Lemma double_bits v : is_double v -> d_m v <> 0 -> 0 < bits (Z.abs (d_m v)) <= 53.
Proof.
  intros [Hm _] Hn. pose proof (bits_le (Z.abs (d_m v)) 53 ltac:(lia) ltac:(lia)).
  pose proof (bits_bound (Z.abs (d_m v)) ltac:(lia)). lia.
Qed.

Lemma full_bounds nbits v : d_m v <> 0 -> bits (Z.abs (d_m v)) <= nbits -> 2 ^ (nbits - 1) <= full nbits v < 2 ^ nbits.
Proof.
  intros Hn Hle. pose proof (bits_bound (Z.abs (d_m v)) ltac:(lia)) as [[H1 H2] Hb].
  unfold full. set (b := bits _) in *. pose proof (pow2_pos (nbits - b) ltac:(lia)).
  assert (2 ^ (nbits - 1) = 2 ^ (b - 1) * 2 ^ (nbits - b)) as -> by (rewrite <- Z.pow_add_r by lia; f_equal; lia).
  assert (2 ^ nbits = 2 ^ b * 2 ^ (nbits - b)) as -> by (rewrite <- Z.pow_add_r by lia; f_equal; lia).
  nia.
Qed.

Lemma full_range nbits v : is_double v -> d_m v <> 0 -> 53 <= nbits -> 2 ^ (nbits - 1) <= full nbits v < 2 ^ nbits.
Proof. intros Hd Hn Hb. pose proof (double_bits v Hd Hn). apply full_bounds; [exact Hn | lia]. Qed.

Lemma Decompose_zero v nbits rounding : d_m v = 0 -> Decompose v nbits rounding 0 = Ret (mkT 0 0 0).
Proof. intros H. unfold Decompose. rewrite H. reflexivity. Qed.

(** With enough bits nothing is lost. *)
Lemma Decompose_bits v nbits rounding :
  d_m v <> 0 -> -1074 <= d_e v <= 1024 -> bits (Z.abs (d_m v)) <= nbits < 64 ->
  Decompose v nbits rounding 0 = Ret (mkT (full nbits v) (scale v - nbits) (Z.sgn (d_m v))).
Proof.
  intros Hn He Hb. pose proof (full_bounds nbits v Hn ltac:(lia)) as Hf.
  pose proof (bits_bound (Z.abs (d_m v)) ltac:(lia)) as [_ Hbits].
  assert (Hlt : 2 ^ nbits <= 2 ^ 63) by (apply Z.pow_le_mono_r; lia).
  pose proof (pow2_pos (nbits - 1) ltac:(lia)).
  unfold Decompose. rewrite (proj2 (Z.eqb_neq (d_m v) 0)) by exact Hn. rewrite (proj2 (Z.eqb_neq nbits 0)) by lia.
  cbv zeta. rewrite (proj2 (Z.ltb_lt nbits 64)) by lia. cbn [decompose_loop].
  unfold shift_round. rewrite (proj2 (Z.leb_le _ 0)) by lia.
  replace (- (bits (Z.abs (d_m v)) - nbits)) with (nbits - bits (Z.abs (d_m v))) by lia. fold (full nbits v).
  rewrite Z.mul_0_r, Z.add_0_r, !(u64_small (full nbits v)) by lia.
  rewrite (proj2 (Z.ltb_lt _ _)) by lia. cbn [outcome_bind fst snd]. unfold scale.
  rewrite i16_small by lia. apply f_equal. f_equal.
  destruct (Z.ltb_spec 0 (d_m v)); rewrite ?Z.sgn_pos, ?Z.sgn_neg by lia; reflexivity.
Qed.

Lemma Decompose_full v nbits rounding :
  is_double v -> d_m v <> 0 -> 53 <= nbits < 64 ->
  Decompose v nbits rounding 0 = Ret (mkT (full nbits v) (scale v - nbits) (Z.sgn (d_m v))).
Proof.
  intros Hd Hn Hb. pose proof (double_bits v Hd Hn). destruct Hd. apply Decompose_bits; lia.
Qed.

Lemma at_full k nbits v : d_m v <> 0 -> bits (Z.abs (d_m v)) <= nbits -> k <= scale v - nbits ->
  at_exp k v = Z.sgn (d_m v) * (full nbits v * 2 ^ (scale v - nbits - k)).
Proof.
  intros Hn Hb Hk. unfold at_exp, full, scale in *. rewrite <- (Z.mul_assoc (Z.abs _)), <- Z.pow_add_r by lia.
  replace (nbits - bits (Z.abs (d_m v)) + (d_e v + bits (Z.abs (d_m v)) - nbits - k)) with (d_e v - k) by lia.
  rewrite Z.mul_assoc. rewrite (Z.mul_comm (Z.sgn _)), Z.abs_sgn. reflexivity.
Qed.

(** ** Shifting and putting together *)

(** [q] is [m / 2 ^ s], rounded. *)
Record shifted (m s rounding q : Z) : Prop := {
  sh_low : m - 2 ^ s < q * 2 ^ s;
  sh_high : q * 2 ^ s < m + 2 ^ s;
  sh_down : rounding < 0 -> q * 2 ^ s <= m;
  sh_up : 0 < rounding -> m <= q * 2 ^ s
}.

Lemma land_bit m i : 0 <= i -> 0 <= m -> Z.land m (2 ^ i) = 0 \/ Z.land m (2 ^ i) = 2 ^ i.
Proof.
  intros Hi Hm. destruct (Z.testbit m i) eqn:E; [right|left]; bitwise; rewrite Z.land_spec, Z.pow2_bits_eqb by lia.
  - destruct (Z.eqb_spec i i0) as [<-|]; [rewrite E; reflexivity | apply andb_false_r].
  - rewrite Z.bits_0. destruct (Z.eqb_spec i i0) as [<-|]; [rewrite E; reflexivity | apply andb_false_r].
Qed.

(** The next bit says which half of the interval the value is in. *)
Lemma half_bit m s : 0 < s -> 0 <= m ->
  if Z.land m (2 ^ (s - 1)) =? 0 then m mod 2 ^ s < 2 ^ (s - 1) else 2 ^ (s - 1) <= m mod 2 ^ s.
Proof.
  intros Hs Hm. assert (E : 2 ^ s = 2 * 2 ^ (s - 1)) by (rewrite <- Z.pow_succ_r by lia; f_equal; lia).
  pose proof (pow2_pos (s - 1) ltac:(lia)) as Hp.
  assert (Hb : Z.testbit m (s - 1) = Z.odd (m / 2 ^ (s - 1))).
  { rewrite <- Z.shiftr_div_pow2 by lia. rewrite <- Z.bit0_odd, Z.shiftr_spec by lia. reflexivity. }
  assert (Hland : (Z.land m (2 ^ (s - 1)) =? 0) = negb (Z.testbit m (s - 1))).
  { destruct (land_bit m (s - 1) ltac:(lia) Hm) as [H|H]; rewrite H.
    - assert (Hz : Z.testbit (Z.land m (2 ^ (s - 1))) (s - 1) = false) by (rewrite H; apply Z.bits_0).
      rewrite Z.land_spec, Z.pow2_bits_eqb, Z.eqb_refl, andb_true_r in Hz by lia. rewrite Hz. reflexivity.
    - assert (Hz : Z.testbit (Z.land m (2 ^ (s - 1))) (s - 1) = true) by (rewrite H, Z.pow2_bits_eqb, Z.eqb_refl; lia || reflexivity).
      rewrite Z.land_spec, Z.pow2_bits_eqb, Z.eqb_refl, andb_true_r in Hz by lia. rewrite Hz. apply Z.eqb_neq. lia. }
  rewrite Hland, Hb, E, (Z.mul_comm 2), Z.rem_mul_r, Zmod_odd by lia.
  pose proof (Z.mod_pos_bound m (2 ^ (s - 1)) Hp). destruct (Z.odd _); cbn [negb]; lia.
Qed.

Lemma Shift_spec m s rounding :
  0 <= m -> 0 <= s -> m / 2 ^ s < 2 ^ 63 ->
  exists q, Shift m s rounding = Ret q /\ shifted m s rounding q /\ m / 2 ^ s <= q <= m / 2 ^ s + 1
    /\ (m mod 2 ^ s = 0 -> q = m / 2 ^ s).
Proof.
  intros Hm Hs Hlt. unfold Shift. rewrite (proj2 (Z.leb_le 0 s)) by exact Hs. eexists. split; [reflexivity|].
  pose proof (pow2_pos s Hs) as Hp. pose proof (Z.div_mod m (2 ^ s) ltac:(lia)) as D.
  pose proof (Z.mod_pos_bound m (2 ^ s) Hp) as Hr. pose proof (Z.div_pos m (2 ^ s) Hm Hp) as Hq.
  rewrite !Z.shiftr_div_pow2 by exact Hs. rewrite (u64_small (m / 2 ^ s)) by lia. rewrite (u64_small (m / 2 ^ s + 1)) by lia.
  rewrite land_mask by exact Hs.
  destruct (Z.ltb_spec rounding 0); [cbn [orb]; split; [split; intros; nia | split; [lia | reflexivity]]|].
  destruct (Z.eqb_spec s 0) as [->|]; cbn [orb].
  { rewrite Z.pow_0_r in *. split; [split; intros; nia | split; [lia | reflexivity]]. }
  destruct (Z.ltb_spec 0 rounding).
  - destruct (Z.eqb_spec (m mod 2 ^ s) 0); (split; [split; intros; nia | split; [lia | intros; lia]]).
  - pose proof (half_bit m s ltac:(lia) Hm) as Hh.
    assert (E : 2 ^ s = 2 * 2 ^ (s - 1)) by (rewrite <- Z.pow_succ_r by lia; f_equal; lia).
    pose proof (pow2_pos (s - 1) ltac:(lia)).
    destruct (Z.land m (2 ^ (s - 1)) =? 0); (split; [split; intros; nia | split; [lia | intros; lia]]).
Qed.

Lemma find_shift_spec fuel m s :
  0 <= m -> 0 <= s -> m < 2 ^ (52 + s + Z.of_nat fuel) -> (s = 0 \/ 2 ^ (51 + s) <= m) ->
  exists s', find_shift fuel m s = Ret s' /\ s <= s' <= s + Z.of_nat fuel /\ m < 2 ^ (52 + s') /\ (s' = 0 \/ 2 ^ (51 + s') <= m).
Proof.
  revert s. induction fuel as [|f IH]; intros s Hm Hs Hlt Hlow; cbn [find_shift];
    rewrite Z.shiftr_div_pow2 by exact Hs; pose proof (pow2_pos s Hs) as Hp.
  - rewrite (proj2 (Z.ltb_lt _ _)); [exists s; repeat split; try lia|].
    + replace (52 + s + Z.of_nat 0) with (52 + s) in Hlt by lia. exact Hlt.
    + apply Z.div_lt_upper_bound; [exact Hp|]. unfold UNIFLOAT_COMPUTATION_BITS. rewrite <- Z.pow_add_r by lia.
      replace (s + 52) with (52 + s + Z.of_nat 0) by lia. exact Hlt.
  - destruct (Z.ltb_spec (m / 2 ^ s) (2 ^ UNIFLOAT_COMPUTATION_BITS)) as [H|H].
    + exists s. repeat split; try lia. apply Z.div_lt_upper_bound in H || idtac.
      pose proof (Z.mul_succ_div_gt m (2 ^ s) Hp). unfold UNIFLOAT_COMPUTATION_BITS in H.
      rewrite Z.add_comm, Z.pow_add_r by lia. nia.
    + destruct (IH (s + 1)) as (s' & Hf & Hs' & Hr); try lia.
      * replace (52 + (s + 1) + Z.of_nat f) with (52 + s + Z.of_nat (S f)) by lia. exact Hlt.
      * right. unfold UNIFLOAT_COMPUTATION_BITS in H. pose proof (Z.mul_div_le m (2 ^ s) Hp).
        replace (51 + (s + 1)) with (s + 52) by lia. rewrite Z.pow_add_r by lia. nia.
      * exists s'. split; [exact Hf|]. split; [lia|exact Hr].
Qed.

Lemma Normalize_spec m x rounding :
  0 <= m < 2 ^ 128 -> - 2 ^ 14 <= exp x < 2 ^ 14 ->
  exists q s, Normalize m x rounding = Ret (mkT q (exp x + s) (sign x)) /\ shifted m s rounding q
    /\ 0 <= q <= 2 ^ 52 /\ 0 <= s /\ m < 2 ^ (52 + s) /\ (s = 0 \/ 2 ^ (51 + s) <= m).
Proof.
  intros Hm He. unfold Normalize.
  assert (Hb : m < 2 ^ (52 + 0 + Z.of_nat 128)) by (assert (2 ^ 128 <= 2 ^ (52 + 0 + Z.of_nat 128)) by (apply Z.pow_le_mono_r; lia); lia).
  destruct (find_shift_spec 128 m 0 ltac:(lia) ltac:(lia) Hb ltac:(lia)) as (s & -> & Hs & Hlt & Hlow).
  cbn [outcome_bind]. pose proof (pow2_pos s ltac:(lia)) as Hp.
  assert (Hq : m / 2 ^ s < 2 ^ 52) by (apply Z.div_lt_upper_bound; [lia|]; rewrite <- Z.pow_add_r by lia; replace (s + 52) with (52 + s) by lia; exact Hlt).
  destruct (Shift_spec m s rounding ltac:(lia) ltac:(lia) ltac:(lia)) as (q & -> & Hsh & Hqr & _). cbn [outcome_bind].
  pose proof (Z.div_pos m (2 ^ s) ltac:(lia) Hp).
  exists q, s. rewrite i16_small by lia. repeat split; try lia; apply Hsh.
Qed.

(** Doubles on at most 53 bits are put together exactly. *)
Lemma Recompose_exact m e sg :
  0 < m -> bits m <= 53 -> bits m + e <= 1024 -> -1074 <= e -> Recompose (mkT m e sg) = mkD (sg * m) e.
Proof.
  intros Hm Hb Hhi Hlo. unfold Recompose, of_integer, ldexp. cbn [mant exp sign].
  rewrite (proj2 (Z.leb_le (bits m) 53)) by exact Hb. cbn [d_m d_e].
  rewrite (proj2 (Z.eqb_neq m 0)) by lia. rewrite Z.add_0_l.
  rewrite (proj2 (Z.ltb_ge 1024 _)) by lia. rewrite (proj2 (Z.ltb_ge e _)) by lia. reflexivity.
Qed.

Lemma bits_lt m w : 0 < m <= 2 ^ w -> 0 <= w -> bits m <= w + 1.
Proof.
  intros Hm Hw. apply (bits_le m (w + 1)); [|lia]. split; [lia|].
  assert (2 ^ w < 2 ^ (w + 1)) by (apply Z.pow_lt_mono_r; lia). lia.
Qed.

Lemma sgn_cases m : m <> 0 -> Z.sgn m = 1 \/ Z.sgn m = -1.
Proof. destruct m; cbn; tauto. Qed.

(** ** Products and quotients *)

(** The shifted mantissa is close to the value when the shift leaves 52 bits. *)
Lemma shifted_close m s rounding q : shifted m s rounding q -> 0 <= s -> 2 ^ (51 + s) <= m ->
  0 < q /\ Z.abs (q * 2 ^ s - m) * 2 ^ 51 < m.
Proof.
  intros [H1 H2 _ _] Hs Hm. rewrite Z.pow_add_r in Hm by lia. pose proof (pow2_pos s Hs).
  assert (2 ^ 51 = 2251799813685248) as E by reflexivity. rewrite E in *. split; [nia|]. nia.
Qed.

Lemma abs_sgn_mul x y : x * y = Z.abs x * Z.abs y * (Z.sgn x * Z.sgn y).
Proof. rewrite <- (Z.abs_sgn x) at 1. rewrite <- (Z.abs_sgn y) at 1. ring. Qed.

Lemma close_50 x m : Z.abs x * 2 ^ 51 < m -> Z.abs x * 2 ^ 50 < m.
Proof. intros H. apply Z.le_lt_trans with (2 := H). apply Z.mul_le_mono_nonneg_l; lia. Qed.

Lemma Multiply_rounds a b rounding :
  is_double a -> is_double b -> d_m a <> 0 -> d_m b <> 0 -> -1020 <= scale a + scale b <= 1023 ->
  exists v, Multiply a b rounding = Ret v /\ rounded rounding (dmul a b) v.
Proof.
  intros Ha Hb Hna Hnb Hsc. unfold Multiply. rewrite (Decompose_full a 63), (Decompose_full b 63) by (assumption || lia).
  cbn [outcome_bind mant exp sign].
  pose proof (full_range 63 a Ha Hna ltac:(lia)) as Hfa. pose proof (full_range 63 b Hb Hnb ltac:(lia)) as Hfb.
  pose proof (double_bits a Ha Hna) as Hba. pose proof (double_bits b Hb Hnb) as Hbb.
  assert (Hea : -1074 <= d_e a <= 971) by apply Ha. assert (Heb : -1074 <= d_e b <= 971) by apply Hb.
  set (M := full 63 a * full 63 b).
  assert (HM : 2 ^ 124 <= M < 2 ^ 126).
  { unfold M. assert (2 ^ 124 = 2 ^ (63 - 1) * 2 ^ (63 - 1)) as -> by reflexivity.
    assert (2 ^ 126 = 2 ^ 63 * 2 ^ 63) as -> by reflexivity. nia. }
  assert (Hu : u128 M = M) by (apply (wrap_small 128); unfold in_word; assert (2 ^ 126 < 2 ^ 128) by reflexivity; lia).
  rewrite Hu. rewrite i16_small by (unfold scale; lia).
  set (E := scale a - 63 + (scale b - 63)).
  destruct (Normalize_spec M (mkT (full 63 a) E (Z.sgn (d_m a) * Z.sgn (d_m b))) rounding) as (q & s & -> & Hsh & Hq & Hs & Hlt & Hlow);
    [assert (2 ^ 126 < 2 ^ 128) by reflexivity; lia | cbn [exp]; unfold E, scale; lia |].
  cbn [outcome_bind exp sign]. assert (Hs1 : 72 <= s).
  { destruct (Z.lt_ge_cases s 72) as [Hc|]; [|lia]. assert (2 ^ (52 + s) <= 2 ^ 123) by (apply Z.pow_le_mono_r; lia).
    assert (2 ^ 123 < 2 ^ 124) by reflexivity. lia. }
  assert (Hs2 : s <= 74).
  { destruct (Z.lt_ge_cases 74 s) as [Hc|]; [|lia]. destruct Hlow as [->|Hlow]; [lia|].
    assert (2 ^ 126 <= 2 ^ (51 + s)) by (apply Z.pow_le_mono_r; lia). lia. }
  destruct Hlow as [->|Hlow]; [lia|]. destruct (shifted_close _ _ _ _ Hsh Hs Hlow) as [Hq0 Hclose].
  eexists. split; [rewrite Recompose_exact; [reflexivity | exact Hq0 | | |]|].
  - pose proof (bits_lt q 52 ltac:(lia) ltac:(lia)). lia.
  - pose proof (bits_lt q 52 ltac:(lia) ltac:(lia)). unfold E. lia.
  - unfold E. lia.
  - assert (HE : E <= d_e a + d_e b) by (unfold E, scale; lia).
    apply (rounded_at E rounding (dmul a b) _ M (q * 2 ^ s) (Z.sgn (d_m a) * Z.sgn (d_m b))).
    + exact HE.
    + cbn [d_e]. lia.
    + unfold at_exp, dmul. cbn [d_m d_e]. rewrite (abs_sgn_mul (d_m a) (d_m b)).
      unfold M, full. replace (d_e a + d_e b - E) with (63 - bits (Z.abs (d_m a)) + (63 - bits (Z.abs (d_m b)))) by (unfold E, scale; lia).
      rewrite Z.pow_add_r by lia. ring.
    + unfold at_exp. cbn [d_m d_e]. replace (E + s - E) with s by lia. ring.
    + destruct (sgn_cases _ Hna) as [-> | ->], (sgn_cases _ Hnb) as [-> | ->]; lia.
    + lia.
    + pose proof (pow2_pos s Hs). apply Z.mul_pos_pos; lia.
    + exact (close_50 _ _ Hclose).
    + apply Hsh.
    + apply Hsh.
Qed.

(** The integer quotient that [Divide] computes, with the same rounding. *)
Definition adjust (rounding d : Z) : Z :=
  if rounding =? 0 then (d + 1) / 2 else if 0 <? rounding then d - 1 else 0.

Lemma adjust_range rounding d : 1 < d -> 0 <= adjust rounding d < d.
Proof.
  intros Hd. unfold adjust. destruct (Z.eqb_spec rounding 0), (Z.ltb_spec 0 rounding);
    try (split; [apply Z.div_pos; lia | apply Z.div_lt_upper_bound; lia]); lia.
Qed.

Lemma adjusted_quotient n d rounding :
  0 <= n -> 1 < d ->
  let y := (n + adjust rounding d) / d in
  n - d < y * d < n + d /\ (rounding < 0 -> y * d <= n) /\ (0 < rounding -> n <= y * d).
Proof.
  intros Hn Hd. cbv zeta. pose proof (adjust_range rounding d Hd) as Hr. set (j := adjust rounding d) in *.
  assert (Hup : 0 < rounding -> j = d - 1).
  { intros H. unfold j, adjust. rewrite (proj2 (Z.eqb_neq _ _)), (proj2 (Z.ltb_lt _ _)) by lia. reflexivity. }
  assert (Hdn : rounding < 0 -> j = 0).
  { intros H. unfold j, adjust. rewrite (proj2 (Z.eqb_neq _ _)), (proj2 (Z.ltb_ge _ _)) by lia. reflexivity. }
  pose proof (Z.mul_div_le (n + j) d ltac:(lia)). pose proof (Z.mul_succ_div_gt (n + j) d ltac:(lia)).
  split; [lia|]. split; intros; [specialize (Hdn ltac:(lia)) | specialize (Hup ltac:(lia))]; lia.
Qed.

Lemma Divide_adjust y d rounding :
  0 <= y < 2 ^ 127 -> 2 ^ 62 <= d < 2 ^ 63 ->
  (if rounding =? 0 then u128 (y + u64 (d + 1) / 2) else if 0 <? rounding then u128 (y + u64 (d - 1)) else y)
  = y + adjust rounding d.
Proof.
  intros Hy Hd. pose proof (adjust_range rounding d ltac:(lia)) as Hr. unfold adjust in *.
  assert (2 ^ 127 + 2 ^ 63 < 2 ^ 128) by reflexivity.
  destruct (Z.eqb_spec rounding 0), (Z.ltb_spec 0 rounding);
    try (rewrite u64_small by lia; apply (wrap_small 128); unfold in_word; lia); lia.
Qed.

(** A rounded quotient of a rounded quotient. *)
Lemma quotient_close n d y q s rounding :
  0 <= n -> 1 < d -> 1 <= s ->
  n - d < y * d < n + d -> (rounding < 0 -> y * d <= n) -> (0 < rounding -> n <= y * d) ->
  shifted y s rounding q -> 2 ^ (51 + s) <= y ->
  Z.abs (q * 2 ^ s * d - n) * 2 ^ 50 < n
  /\ (rounding < 0 -> q * 2 ^ s * d <= n) /\ (0 < rounding -> n <= q * 2 ^ s * d).
Proof.
  intros Hn Hd Hs Hy Hdn Hup [H1 H2 H3 H4] Hlow. rewrite Z.pow_add_r in Hlow by lia.
  assert (E1 : 2 ^ s = 2 * 2 ^ (s - 1)) by (rewrite <- Z.pow_succ_r by lia; f_equal; lia).
  pose proof (pow2_pos (s - 1) ltac:(lia)) as Hp. set (Q := q * 2 ^ s) in *. set (P := 2 ^ s) in *.
  assert (E51 : 2 ^ 51 = 2251799813685248) by reflexivity. assert (E50 : 2 ^ 50 = 1125899906842624) by reflexivity.
  rewrite E51 in Hlow. rewrite E50. clear E51 E50.
  split; [|split; intros Hr; [specialize (H3 Hr); specialize (Hdn Hr) | specialize (H4 Hr); specialize (Hup Hr)]; nia].
  assert (Ha : (y - P + 1) * d <= Q * d <= (y + P - 1) * d) by (split; apply Z.mul_le_mono_nonneg_r; lia).
  assert (Hb : 2251799813685248 * (P * d) <= y * d) by nia.
  assert (Hc : 2 * d <= P * d) by (apply Z.mul_le_mono_nonneg_r; lia).
  rewrite !Z.mul_add_distr_r, !Z.mul_sub_distr_r in Ha.
  assert (Z.abs (Q * d - n) <= P * d) by lia. lia.
Qed.

Lemma Divide_rounds a b rounding :
  is_double a -> is_double b -> d_m a <> 0 -> d_m b <> 0 -> -1020 <= scale a - scale b <= 1020 ->
  exists v, Divide a b rounding = Ret v /\ rounded rounding a (dmul v b).
Proof.
  intros Ha Hb Hna Hnb Hsc. unfold Divide. rewrite (Decompose_full a), (Decompose_full b) by (assumption || lia).
  cbn [outcome_bind mant exp sign]. change (8 * 8 - 1) with 63. change (127 - 63) with 64.
  pose proof (full_range 63 a Ha Hna ltac:(lia)) as Hfa. pose proof (full_range 63 b Hb Hnb ltac:(lia)) as Hfb.
  pose proof (double_bits a Ha Hna) as Hba. pose proof (double_bits b Hb Hnb) as Hbb.
  assert (Hea : -1074 <= d_e a <= 971) by apply Ha. assert (Heb : -1074 <= d_e b <= 971) by apply Hb.
  rewrite (proj2 (Z.eqb_neq (full 63 b) 0)) by (change (2 ^ (63 - 1)) with 4611686018427387904 in Hfb; lia).
  rewrite Z.shiftl_mul_pow2 by lia. set (d := full 63 b) in *. set (n := full 63 a * 2 ^ 64).
  change (63 - 1) with 62 in *.
  assert (Hn : 2 ^ 126 <= n < 2 ^ 127).
  { unfold n. assert (2 ^ 126 = 2 ^ 62 * 2 ^ 64) as -> by reflexivity. assert (2 ^ 127 = 2 ^ 63 * 2 ^ 64) as -> by reflexivity. lia. }
  assert (Hd1 : 1 < d) by lia.
  assert (Hu : u128 n = n) by (apply (wrap_small 128); unfold in_word; assert (2 ^ 127 < 2 ^ 128) by reflexivity; lia).
  rewrite Hu, (Divide_adjust n d rounding) by lia.
  pose proof (adjusted_quotient n d rounding ltac:(lia) Hd1) as (Hy & Hydn & Hyup). cbv zeta in Hy, Hydn, Hyup.
  pose proof (adjust_range rounding d Hd1) as Hadj. set (y := (n + adjust rounding d) / d) in *.
  assert (Hyr : 2 ^ 63 <= y <= 2 ^ 65).
  { assert (2 ^ 126 = 2 ^ 63 * 2 ^ 63) by reflexivity. assert (2 ^ 127 = 2 ^ 65 * 2 ^ 62) by reflexivity.
    split; [apply Z.div_le_lower_bound; [lia|] | apply Z.lt_succ_r, Z.div_lt_upper_bound; [lia|]]; nia. }
  rewrite (i16_small (scale b - 63 + 127 - 63)) by (unfold scale; lia). rewrite i16_small by (unfold scale; lia).
  set (E := scale a - 63 - (scale b - 63 + 127 - 63)).
  destruct (Normalize_spec y (mkT (full 63 a) E (Z.sgn (d_m a) * Z.sgn (d_m b))) rounding) as (q & s & -> & Hsh & Hq & Hs & Hlt & Hlow);
    [assert (2 ^ 65 < 2 ^ 128) by reflexivity; lia | cbn [exp]; unfold E, scale; lia |].
  cbn [outcome_bind exp sign].
  assert (Hs1 : 11 < s).
  { destruct (Z.lt_ge_cases 11 s) as [Hc|]; [lia|]. assert (2 ^ (52 + s) <= 2 ^ 63) by (apply Z.pow_le_mono_r; lia). lia. }
  destruct Hlow as [->|Hlow]; [lia|].
  assert (Hs2 : s <= 14).
  { destruct (Z.lt_ge_cases 14 s) as [Hc|]; [|lia]. assert (2 ^ 66 <= 2 ^ (51 + s)) by (apply Z.pow_le_mono_r; lia).
    assert (2 ^ 65 < 2 ^ 66) by reflexivity. lia. }
  destruct (shifted_close _ _ _ _ Hsh Hs Hlow) as [Hq0 _].
  destruct (quotient_close n d y q s rounding ltac:(lia) Hd1 ltac:(lia) Hy Hydn Hyup Hsh Hlow) as (Herr & Hdn & Hup).
  eexists. split; [rewrite Recompose_exact; [reflexivity | exact Hq0 | | |]|].
  - pose proof (bits_lt q 52 ltac:(lia) ltac:(lia)). lia.
  - pose proof (bits_lt q 52 ltac:(lia) ltac:(lia)). unfold E. lia.
  - unfold E. lia.
  - apply (rounded_at (E + (scale b - 63)) rounding a _ n (q * 2 ^ s * d) (Z.sgn (d_m a))).
    + unfold E, scale. lia.
    + cbn [dmul d_e]. unfold scale. lia.
    + rewrite (at_full _ 63) by (assumption || (unfold E; lia)). unfold n. f_equal. f_equal. f_equal. unfold E. lia.
    + unfold at_exp, dmul. cbn [d_m d_e]. unfold d, full.
      replace (E + s + d_e b - (E + (scale b - 63))) with (s + (63 - bits (Z.abs (d_m b)))) by (unfold scale; lia).
      rewrite Z.pow_add_r by lia. rewrite <- (Z.abs_sgn (d_m b)) at 2.
      destruct (sgn_cases _ Hnb) as [-> | ->]; ring.
    + apply sgn_cases, Hna.
    + lia.
    + pose proof (pow2_pos s Hs). apply Z.mul_pos_pos; [apply Z.mul_pos_pos; lia | lia].
    + exact Herr.
    + exact Hdn.
    + exact Hup.
Qed.

(** ** Sums *)

Lemma sgn_at k v : k <= d_e v -> Z.sgn (at_exp k v) = Z.sgn (d_m v).
Proof.
  intros Hk. unfold at_exp. rewrite Z.sgn_mul, (Z.sgn_pos (2 ^ _)) by (apply pow2_pos; lia). lia.
Qed.

Lemma at_dadd k a b : k <= d_e a -> k <= d_e b -> at_exp k (dadd a b) = at_exp k a + at_exp k b.
Proof.
  intros Ha Hb. unfold dadd. unfold at_exp at 1. cbn [d_m d_e]. rewrite Z.mul_add_distr_r.
  rewrite <- !at_exp_shift by (unfold common; lia). reflexivity.
Qed.

Lemma full_split v n1 n2 : 0 <= n1 -> bits (Z.abs (d_m v)) <= n2 -> full (n1 + n2) v = full n2 v * 2 ^ n1.
Proof.
  intros H1 H2. unfold full. rewrite <- Z.mul_assoc, <- Z.pow_add_r by lia. f_equal. f_equal. lia.
Qed.

(** A mantissa of more bits than a double has goes back to the same value. *)
Lemma Recompose_full v : is_double v -> d_m v <> 0 -> -1000 <= scale v ->
  Recompose (mkT (full 62 v) (scale v - 62) (Z.sgn (d_m v))) = mkD (Z.sgn (d_m v) * full 53 v) (scale v - 53).
Proof.
  intros Hd Hn Hs. pose proof (full_range 62 v Hd Hn ltac:(lia)) as H62. pose proof (full_range 53 v Hd Hn ltac:(lia)) as H53.
  pose proof (double_bits v Hd Hn) as Hb. assert (He : -1074 <= d_e v <= 971) by apply Hd.
  assert (Hbits : forall w m, 0 < w -> 2 ^ (w - 1) <= m < 2 ^ w -> bits m = w).
  { intros w m Hw Hm. unfold bits. pose proof (pow2_pos (w - 1) ltac:(lia)). rewrite (proj2 (Z.eqb_neq m 0)) by lia.
    rewrite (Z.log2_unique m (w - 1)); [lia | lia |]. replace (Z.succ (w - 1)) with w by lia. exact Hm. }
  unfold Recompose, of_integer. cbn [mant exp sign]. rewrite (Hbits 62 _ ltac:(lia) H62). change (62 <=? 53) with false. cbv iota.
  assert (E : shift_even (full 62 v) (62 - 53) = full 53 v).
  { change 62 with (9 + 53) at 1. rewrite full_split by lia. unfold shift_even. change (9 + 53 - 53) with 9.
    rewrite Z.div_mul, Z.mod_mul by lia. reflexivity. }
  change (62 - 53) with 9 in *. rewrite E. unfold ldexp. cbn [d_m d_e]. change (2 ^ (53 - 1)) with (2 ^ 52) in H53.
  rewrite (proj2 (Z.eqb_neq (full 53 v) 0)) by lia. rewrite (Hbits 53 _ ltac:(lia) H53).
  rewrite (proj2 (Z.ltb_ge 1024 _)) by (unfold scale; lia). rewrite (proj2 (Z.ltb_ge _ (-1074))) by lia.
  cbn [d_m d_e]. f_equal. lia.
Qed.

(** What is left when the mantissas have a common exponent. *)
Lemma Add_core y x e rounding :
  - 2 ^ 63 < y < 2 ^ 63 -> -1074 <= e <= 959 ->
  exists v, (let! t := Normalize (Z.abs y) (mkT x e (Z.sgn y)) rounding in Ret (Recompose t)) = Ret v
    /\ Z.sgn (d_m v) = Z.sgn y.
Proof.
  intros Hy He. destruct (Normalize_spec (Z.abs y) (mkT x e (Z.sgn y)) rounding) as (q & s & -> & Hsh & Hq & Hs & Hlt & Hlow);
    [assert (2 ^ 63 < 2 ^ 128) by reflexivity; lia | cbn [exp]; lia |].
  cbn [outcome_bind exp sign]. eexists. split; [reflexivity|].
  destruct (Z.eq_dec y 0) as [->|Hy0].
  - destruct Hlow as [->|Hlow]; [|change (Z.abs 0) with 0 in Hlow; pose proof (pow2_pos (51 + s) ltac:(lia)); lia].
    destruct Hsh as [H1 H2 _ _]. change (Z.abs 0) with 0 in *. rewrite Z.pow_0_r in *. assert (q = 0) as -> by lia. reflexivity.
  - assert (Hq0 : 0 < q).
    { destruct Hsh as [H1 H2 _ _]. pose proof (pow2_pos s Hs). destruct Hlow as [->|Hlow].
      - rewrite Z.pow_0_r in *. lia.
      - rewrite Z.pow_add_r in Hlow by lia. change (2 ^ 51) with 2251799813685248 in Hlow. nia. }
    assert (Hs2 : s <= 12).
    { destruct Hlow as [->|Hlow]; [lia|]. destruct (Z.lt_ge_cases 12 s) as [Hc|]; [|lia].
      assert (2 ^ 64 <= 2 ^ (51 + s)) by (apply Z.pow_le_mono_r; lia). assert (2 ^ 63 < 2 ^ 64) by reflexivity. lia. }
    pose proof (bits_lt q 52 ltac:(lia) ltac:(lia)).
    rewrite Recompose_exact by lia. cbn [d_m]. rewrite Z.sgn_mul, (Z.sgn_pos q) by lia. rewrite Z.mul_1_r. apply Z.sgn_sgn.
Qed.

(** A mantissa of a double, shifted to a larger exponent. *)
Lemma shift_full v d rounding :
  is_double v -> d_m v <> 0 -> 0 < d ->
  exists q, Shift (full 62 v) d rounding = Ret q /\ 0 <= q < 2 ^ 61 /\ (d <= 9 -> q * 2 ^ d = full 62 v).
Proof.
  intros Hd Hn Hpos. pose proof (full_range 62 v Hd Hn ltac:(lia)) as H62. pose proof (full_range 53 v Hd Hn ltac:(lia)) as H53.
  pose proof (double_bits v Hd Hn) as Hb. change (62 - 1) with 61 in *. pose proof (pow2_pos d ltac:(lia)) as Hp.
  assert (Hq : full 62 v / 2 ^ d < 2 ^ 62) by (apply Z.div_lt_upper_bound; nia).
  destruct (Shift_spec (full 62 v) d rounding ltac:(lia) ltac:(lia)) as (q & HS & _ & Hr & Hex);
    [assert (2 ^ 62 < 2 ^ 63) by reflexivity; lia|].
  exists q. split; [exact HS|]. pose proof (Z.div_pos (full 62 v) (2 ^ d) ltac:(lia) Hp).
  destruct (Z.le_gt_cases d 9) as [Hd9|Hd9].
  - assert (E : full 62 v = full (62 - d) v * 2 ^ d) by (rewrite <- full_split by lia; f_equal; lia).
    assert (Hm : full 62 v mod 2 ^ d = 0) by (rewrite E; apply Z.mod_mul; lia).
    specialize (Hex Hm). assert (Hqd : q * 2 ^ d = full 62 v) by (rewrite Hex, E, Z.div_mul by lia; reflexivity).
    split; [|intros _; exact Hqd]. split; [lia|]. assert (2 <= 2 ^ d) by (change 2 with (2 ^ 1) at 1; apply Z.pow_le_mono_r; lia).
    assert (2 ^ 62 = 2 * 2 ^ 61) by reflexivity. nia.
  - split; [|lia]. assert (2 ^ 10 <= 2 ^ d) by (apply Z.pow_le_mono_r; lia).
    assert (full 62 v / 2 ^ d < 2 ^ 52).
    { apply Z.div_lt_upper_bound; [exact Hp|]. assert (2 ^ 62 = 2 ^ 10 * 2 ^ 52) by reflexivity. nia. }
    assert (2 ^ 52 < 2 ^ 61) by reflexivity. lia.
Qed.

Lemma dadd_comm a b : dadd a b = dadd b a.
Proof. unfold dadd, common. rewrite Z.min_comm. f_equal. lia. Qed.

Lemma sgn_sum_bigger sa sb x y : (sa = 1 \/ sa = -1) -> (sb = 1 \/ sb = -1) -> 0 <= y < x -> Z.sgn (sa * x + sb * y) = sa.
Proof. intros [->| ->] [->| ->] H; [rewrite Z.sgn_pos by lia | rewrite Z.sgn_pos by lia | rewrite Z.sgn_neg by lia | rewrite Z.sgn_neg by lia]; reflexivity. Qed.

Lemma dadd_sgn_bigger a b : is_double a -> is_double b -> d_m a <> 0 -> d_m b <> 0 -> scale b < scale a ->
  Z.sgn (d_m (dadd a b)) = Z.sgn (d_m a).
Proof.
  intros Ha Hb Hna Hnb Hs. pose proof (full_range 62 a Ha Hna ltac:(lia)) as Hfa. pose proof (full_range 62 b Hb Hnb ltac:(lia)) as Hfb.
  pose proof (double_bits a Ha Hna). pose proof (double_bits b Hb Hnb). change (62 - 1) with 61 in *.
  set (k := scale b - 62). assert (Hk : k <= d_e a /\ k <= d_e b) by (unfold k, scale in *; lia).
  rewrite <- (sgn_at k) by (unfold dadd, common; cbn [d_e]; lia). rewrite at_dadd by lia.
  rewrite (at_full k 62 a), (at_full k 62 b) by (assumption || (unfold k; lia)).
  apply sgn_sum_bigger; [apply sgn_cases, Hna | apply sgn_cases, Hnb |].
  replace (scale b - 62 - k) with 0 by (unfold k; lia). rewrite Z.pow_0_r.
  assert (2 <= 2 ^ (scale a - 62 - k)) by (change 2 with (2 ^ 1) at 1; apply Z.pow_le_mono_r; unfold k; lia).
  assert (2 ^ 62 = 2 * 2 ^ 61) by reflexivity. nia.
Qed.

Lemma dadd_sgn_same a b : is_double a -> is_double b -> d_m a <> 0 -> d_m b <> 0 -> scale b = scale a ->
  Z.sgn (d_m (dadd a b)) = Z.sgn (Z.sgn (d_m a) * full 62 a + Z.sgn (d_m b) * full 62 b).
Proof.
  intros Ha Hb Hna Hnb Hs. pose proof (double_bits a Ha Hna). pose proof (double_bits b Hb Hnb).
  set (k := scale b - 62). assert (Hk : k <= d_e a /\ k <= d_e b) by (unfold k, scale in *; lia).
  rewrite <- (sgn_at k) by (unfold dadd, common; cbn [d_e]; lia). rewrite at_dadd by lia.
  rewrite (at_full k 62 a), (at_full k 62 b) by (assumption || (unfold k; lia)).
  replace (scale b - 62 - k) with 0 by (unfold k; lia). replace (scale a - 62 - k) with 0 by (unfold k; lia).
  rewrite Z.pow_0_r, !Z.mul_1_r. reflexivity.
Qed.

Lemma dadd_zero_l a b : d_m a = 0 -> Z.sgn (d_m (dadd a b)) = Z.sgn (d_m b).
Proof.
  intros H. set (k := common a b). rewrite <- (sgn_at k) by (unfold dadd, k; cbn [d_e]; lia).
  rewrite at_dadd by (unfold k, common; lia). unfold at_exp at 1. rewrite H, Z.mul_0_l, Z.add_0_l. apply sgn_at. unfold k, common. lia.
Qed.

Lemma Add_two a b rounding :
  is_double a -> is_double b -> d_m a <> 0 -> d_m b <> 0 -> -1000 <= scale a <= 1000 -> -1000 <= scale b <= 1000 ->
  exists v, Add a b rounding false = Ret v /\ Z.sgn (d_m v) = Z.sgn (d_m (dadd a b)).
Proof.
  intros Ha Hb Hna Hnb Hsa Hsb. unfold Add. change (8 * 8 - 2) with 62.
  rewrite (Decompose_full a), (Decompose_full b) by (assumption || lia). cbn [outcome_bind mant exp sign].
  pose proof (full_range 62 a Ha Hna ltac:(lia)) as Hfa. pose proof (full_range 62 b Hb Hnb ltac:(lia)) as Hfb.
  change (62 - 1) with 61 in *. assert (E62 : 2 ^ 62 = 2 * 2 ^ 61) by reflexivity. assert (E63 : 2 ^ 63 = 4 * 2 ^ 61) by reflexivity.
  rewrite (proj2 (Z.eqb_neq (full 62 a) 0)), (proj2 (Z.eqb_neq (full 62 b) 0)) by lia. cbn [orb].
  replace (scale a - 62 - (scale b - 62)) with (scale a - scale b) by lia.
  pose proof (sgn_cases _ Hna) as Hga. pose proof (sgn_cases _ Hnb) as Hgb.
  assert (Hfull : forall v, is_double v -> d_m v <> 0 -> -1000 <= scale v ->
    Z.sgn (d_m (Recompose (mkT (full 62 v) (scale v - 62) (Z.sgn (d_m v))))) = Z.sgn (d_m v)).
  { intros v Hv Hnv Hsv. rewrite Recompose_full by assumption. cbn [d_m]. pose proof (full_range 53 v Hv Hnv ltac:(lia)).
    pose proof (pow2_pos (53 - 1) ltac:(lia)). rewrite Z.sgn_mul, (Z.sgn_pos (full 53 v)), Z.mul_1_r by lia. apply Z.sgn_sgn. }
  destruct (Z.leb_spec 62 (scale a - scale b)) as [H1|H1].
  { cbn [outcome_bind]. eexists. split; [reflexivity|]. cbn [mant exp sign]. rewrite Hfull by (assumption || lia).
    symmetry. apply dadd_sgn_bigger; assumption || lia. }
  destruct (Z.leb_spec 62 (- (scale a - scale b))) as [H2|H2].
  { cbn [outcome_bind]. eexists. split; [reflexivity|]. cbn [mant exp sign]. rewrite Hfull by (assumption || lia).
    symmetry. rewrite dadd_comm. apply dadd_sgn_bigger; assumption || lia. }
  assert (Hcore : forall vm xm e, 0 <= vm < 2 ^ 62 -> 0 <= xm < 2 ^ 62 -> -1074 <= e <= 959 ->
    Z.sgn (Z.sgn (d_m a) * vm + Z.sgn (d_m b) * xm) = Z.sgn (d_m (dadd a b)) ->
    exists v, (let! v := Normalize (Z.abs (i64 (i64 (Z.sgn (d_m a) * i64 vm) + i64 (Z.sgn (d_m b) * i64 xm))))
      (mkT vm e (Z.sgn (i64 (i64 (Z.sgn (d_m a) * i64 vm) + i64 (Z.sgn (d_m b) * i64 xm))))) rounding in Ret (Recompose v)) = Ret v
      /\ Z.sgn (d_m v) = Z.sgn (d_m (dadd a b))).
  { intros vm xm e Hvm Hxm He Hs. rewrite (i64_small vm), (i64_small xm) by lia.
    rewrite (i64_small (Z.sgn (d_m a) * vm)) by (destruct Hga as [->| ->]; lia).
    rewrite (i64_small (Z.sgn (d_m b) * xm)) by (destruct Hgb as [->| ->]; lia).
    rewrite (i64_small (_ + _)) by (destruct Hga as [->| ->], Hgb as [->| ->]; lia). rewrite <- Hs.
    apply Add_core; [destruct Hga as [->| ->], Hgb as [->| ->]; lia | exact He]. }
  destruct (Z.ltb_spec 0 (scale a - scale b)) as [H3|H3].
  - destruct (shift_full b (scale a - scale b) rounding Hb Hnb H3) as (q & -> & Hq & _). cbn [outcome_bind].
    rewrite (proj2 (Z.ltb_ge _ 0)) by lia. cbn [outcome_bind]. cbv zeta.
    apply Hcore; try lia. rewrite sgn_sum_bigger by (assumption || lia). symmetry. apply dadd_sgn_bigger; assumption || lia.
  - cbn [outcome_bind]. destruct (Z.ltb_spec (scale a - scale b) 0) as [H4|H4].
    + destruct (shift_full a (- (scale a - scale b)) rounding Ha Hna ltac:(lia)) as (q & -> & Hq & _). cbn [outcome_bind]. cbv zeta.
      apply Hcore; try lia. rewrite Z.add_comm, sgn_sum_bigger by (assumption || lia). symmetry. rewrite dadd_comm.
      apply dadd_sgn_bigger; assumption || lia.
    + cbn [outcome_bind]. cbv zeta. apply Hcore; try lia. symmetry. apply dadd_sgn_same; assumption || lia.
Qed.

(** A sum has the sign of the exact sum, whatever bits were shifted out; so the check of
    a payment against a quote cannot be off because of rounding in the difference. *)
Theorem Add_sign a b rounding :
  is_double a -> is_double b ->
  (d_m a <> 0 -> -1000 <= scale a <= 1000) -> (d_m b <> 0 -> -1000 <= scale b <= 1000) ->
  exists v, Add a b rounding false = Ret v /\ Z.sgn (d_m v) = Z.sgn (d_m (dadd a b)).
Proof.
  intros Ha Hb Hsa Hsb. destruct (Z.eq_dec (d_m a) 0) as [Hza|Hna], (Z.eq_dec (d_m b) 0) as [Hzb|Hnb].
  - unfold Add. rewrite !Decompose_zero by assumption. eexists. split; [reflexivity|]. rewrite dadd_zero_l, Hzb by exact Hza. reflexivity.
  - unfold Add. change (8 * 8 - 2) with 62. rewrite (Decompose_zero a), (Decompose_full b) by (assumption || lia).
    cbn [outcome_bind mant exp sign orb Z.eqb]. pose proof (full_range 62 b Hb Hnb ltac:(lia)) as Hfb. change (62 - 1) with 61 in *.
    rewrite (proj2 (Z.eqb_neq (full 62 b) 0)) by lia. cbn [outcome_bind orb]. change (62 <=? 0) with false. cbv iota. cbn [outcome_bind mant exp sign].
    eexists. split; [reflexivity|]. rewrite Recompose_full by (assumption || (specialize (Hsb Hnb); lia)). cbn [d_m].
    rewrite dadd_zero_l by exact Hza. pose proof (full_range 53 b Hb Hnb ltac:(lia)).
    pose proof (pow2_pos (53 - 1) ltac:(lia)). rewrite Z.sgn_mul, (Z.sgn_pos (full 53 b)), Z.mul_1_r by lia. apply Z.sgn_sgn.
  - unfold Add. change (8 * 8 - 2) with 62. rewrite (Decompose_zero b), (Decompose_full a) by (assumption || lia).
    cbn [outcome_bind mant exp sign orb Z.eqb]. change (0 =? 0) with true. cbn [orb]. cbv iota. cbn [outcome_bind mant exp sign].
    eexists. split; [reflexivity|]. rewrite Recompose_full by (assumption || (specialize (Hsa Hna); lia)). cbn [d_m].
    rewrite dadd_comm, dadd_zero_l by exact Hzb. pose proof (full_range 53 a Ha Hna ltac:(lia)).
    pose proof (pow2_pos (53 - 1) ltac:(lia)). rewrite Z.sgn_mul, (Z.sgn_pos (full 53 a)), Z.mul_1_r by lia. apply Z.sgn_sgn.
  - apply Add_two; auto.
Qed.

(** Products and quotients of doubles are exact to about 50 bits, have the sign of the
    exact result, and are rounded towards zero or away from it as asked; the range excludes
    results that overflow or are subnormal. *)
Theorem arithmetic_rounds a b rounding :
  is_double a -> is_double b -> d_m a <> 0 -> d_m b <> 0 ->
  (-1020 <= scale a + scale b <= 1023 -> exists v, Multiply a b rounding = Ret v /\ rounded rounding (dmul a b) v)
  /\ (-1020 <= scale a - scale b <= 1020 -> exists v, Divide a b rounding = Ret v /\ rounded rounding a (dmul v b)).
Proof. intros. split; [apply Multiply_rounds | apply Divide_rounds]; assumption. Qed.

(** 1 / 3 rounded up is above a third. *)
Lemma arithmetic_rounds_witness :
  exists v, Divide one (mkD 3 0) 1 = Ret v /\ rounded 1 one (dmul v (mkD 3 0)).
Proof.
  apply (arithmetic_rounds one (mkD 3 0) 1);
    [split; [reflexivity | split; vm_compute; discriminate] | split; [reflexivity | split; vm_compute; discriminate] | discriminate | discriminate |].
  vm_compute. split; discriminate.
Defined.

(** 1 - (1 + 2^-52) is negative. *)
Lemma Add_sign_witness :
  exists v, Add one (mkD (- (2 ^ 52 + 1)) (-52)) 0 false = Ret v /\ Z.sgn (d_m v) = -1.
Proof.
  apply (Add_sign one (mkD (- (2 ^ 52 + 1)) (-52)) 0).
  - split; [reflexivity | split; vm_compute; discriminate].
  - split; [reflexivity | split; vm_compute; discriminate].
  - intros _. vm_compute. split; discriminate.
  - intros _. vm_compute. split; discriminate.
Defined.
(** ** Every operation returns *)

(** What the operations take and give: a finite double, not necessarily normalized. *)
Definition finite (v : double) : Prop := Z.abs (d_m v) <= 2 ^ 53 /\ -1074 <= d_e v <= 1024.

Lemma shift_round_le rounding m s n : 0 <= m < 2 ^ (n + s) -> 0 <= n -> 0 <= n + s -> 0 <= shift_round rounding m s <= 2 ^ n.
Proof.
  intros Hm Hn Hns. unfold shift_round. destruct (Z.leb_spec s 0) as [Hs|Hs].
  - pose proof (pow2_pos (- s) ltac:(lia)) as Hp. assert (2 ^ n = 2 ^ (n + s) * 2 ^ (- s)) as -> by (rewrite <- Z.pow_add_r by lia; f_equal; lia). nia.
  - pose proof (pow2_pos s ltac:(lia)) as Hp. pose proof (pow2_pos n Hn). rewrite Z.pow_add_r in Hm by lia.
    assert (Hhalf : 0 < 2 ^ (s - 1) /\ 2 ^ s = 2 * 2 ^ (s - 1))
      by (split; [apply pow2_pos; lia | rewrite <- Z.pow_succ_r by lia; f_equal; lia]).
    destruct (rounding <? 0); [|destruct (0 <? rounding)]; (split; [apply Z.div_pos; lia|]);
      apply Z.lt_succ_r, Z.div_lt_upper_bound; nia.
Qed.

Record tuple_ok (nbits : Z) (x : UniFloatTuple) : Prop := {
  to_mant : 0 <= mant x < 2 ^ nbits;
  to_exp : -1200 <= exp x <= 1100;
  to_sign : sign x = -1 \/ sign x = 0 \/ sign x = 1
}.

Lemma Decompose_returns v nbits rounding :
  finite v -> 2 <= nbits < 64 -> exists x, Decompose v nbits rounding 0 = Ret x /\ tuple_ok nbits x.
Proof.
  intros [Hm He] Hb. unfold Decompose. destruct (Z.eqb_spec (d_m v) 0) as [Hz|Hn].
  { eexists. split; [reflexivity|]. pose proof (pow2_pos nbits ltac:(lia)). split; cbn; lia. }
  rewrite (proj2 (Z.eqb_neq nbits 0)) by lia. cbv zeta. rewrite (proj2 (Z.ltb_lt nbits 64)) by lia.
  set (M := Z.abs (d_m v)) in *. assert (HM : 0 < M) by lia. pose proof (bits_bound M HM) as [Hbb Hb0].
  assert (Hb54 : bits M <= 54) by (apply bits_le; [change (2 ^ 54) with (2 * 2 ^ 53); lia | lia]).
  assert (Hlim : 0 < 2 ^ nbits <= 2 ^ 63) by (split; [apply pow2_pos; lia | apply Z.pow_le_mono_r; lia]).
  assert (Hsg : (if 0 <? d_m v then 1 else -1) = -1 \/ (if 0 <? d_m v then 1 else -1) = 0 \/ (if 0 <? d_m v then 1 else -1) = 1) by (destruct (0 <? d_m v); lia).
  pose proof (shift_round_le rounding M (bits M - nbits) nbits ltac:(replace (nbits + (bits M - nbits)) with (bits M) by lia; lia) ltac:(lia) ltac:(lia)) as H0.
  cbn [decompose_loop]. rewrite ?Z.mul_0_r, ?Z.add_0_r, !(u64_small (shift_round rounding M _)) by (rewrite ?u64_small; lia).
  destruct (Z.ltb_spec (shift_round rounding M (bits M - nbits)) (2 ^ nbits)) as [Hlt|Hge].
  - cbn [outcome_bind fst snd]. eexists. split; [reflexivity|]. rewrite i16_small by lia. split; cbn [mant exp sign]; lia.
  - pose proof (shift_round_le rounding M (bits M - nbits + 1) (nbits - 1) ltac:(replace (nbits - 1 + (bits M - nbits + 1)) with (bits M) by lia; lia) ltac:(lia) ltac:(lia)) as H1.
    assert (2 ^ nbits = 2 * 2 ^ (nbits - 1)) by (rewrite <- Z.pow_succ_r by lia; f_equal; lia).
    rewrite ?Z.mul_0_r, ?Z.add_0_r, !(u64_small (shift_round rounding M _)) by (rewrite ?u64_small; lia).
    rewrite (proj2 (Z.ltb_lt _ _)) by lia. cbn [outcome_bind fst snd]. eexists. split; [reflexivity|].
    rewrite (i16_small (d_e v + _ - _)), i16_small by lia. split; cbn [mant exp sign]; lia.
Qed.

Lemma shift_even_le m s n : 0 <= m < 2 ^ (n + s) -> 0 <= n -> 0 < s -> 0 <= shift_even m s <= 2 ^ n.
Proof.
  intros Hm Hn Hs. unfold shift_even. rewrite Z.pow_add_r in Hm by lia. pose proof (pow2_pos s ltac:(lia)).
  assert (0 <= m / 2 ^ s < 2 ^ n) by (split; [apply Z.div_pos; lia | apply Z.div_lt_upper_bound; lia]).
  destruct (_ || _); lia.
Qed.

Lemma Recompose_finite x : 0 <= mant x < 2 ^ 64 -> sign x = -1 \/ sign x = 0 \/ sign x = 1 -> finite (Recompose x).
Proof.
  intros Hm Hs. unfold Recompose.
  assert (Hi : 0 <= d_m (of_integer (mant x)) <= 2 ^ 53 /\ 0 <= d_e (of_integer (mant x)) <= 11).
  { unfold of_integer. pose proof (bits_le (mant x) 64 ltac:(lia) ltac:(lia)) as Hb. destruct (Z.leb_spec (bits (mant x)) 53) as [H53|H53]; cbn [d_m d_e].
    - destruct (Z.eq_dec (mant x) 0); [lia|]. pose proof (bits_bound (mant x) ltac:(lia)) as [[_ H] _].
      pose proof (Z.pow_le_mono_r 2 (bits (mant x)) 53 ltac:(lia) ltac:(lia)). lia.
    - split; [|lia]. apply shift_even_le; [|lia|lia]. assert (0 < mant x) by (destruct (Z.eq_dec (mant x) 0) as [E|]; [rewrite E in H53; cbn in H53; lia | lia]).
      pose proof (bits_bound (mant x) ltac:(lia)) as [[_ H'] _]. replace (53 + (bits (mant x) - 53)) with (bits (mant x)) by lia. lia. }
  assert (Hsg : forall m, 0 <= m <= 2 ^ 53 -> Z.abs (sign x * m) <= 2 ^ 53) by (intros m Hr; destruct Hs as [->|[->| ->]]; lia).
  unfold ldexp. set (v := of_integer (mant x)) in *. destruct (Z.eqb_spec (d_m v) 0) as [Hz|Hn].
  { split; cbn [d_m d_e zero]; [apply Hsg|]; lia. }
  destruct (Z.ltb_spec 1024 (bits (d_m v) + (d_e v + exp x))) as [Hbig|Hfit].
  { split; cbn [d_m d_e DBL_MAX]; [apply Hsg|]; lia. }
  pose proof (bits_bound (d_m v) ltac:(lia)) as [_ Hb0].
  destruct (Z.ltb_spec (d_e v + exp x) (-1074)) as [Hlow|Hok]; (split; cbn [d_m d_e]; [apply Hsg | lia]); [|lia].
  pose proof (shift_even_le (d_m v) (-1074 - (d_e v + exp x)) 53) as H.
  assert (2 ^ 53 * 2 <= 2 ^ (53 + (-1074 - (d_e v + exp x)))) by (change (2 ^ 53 * 2) with (2 ^ 54); apply Z.pow_le_mono_r; lia). lia.
Qed.

Lemma UniFloat_of_returns v rounding : finite v -> exists w, UniFloat_of v rounding = Ret w /\ finite w.
Proof.
  intros Hv. unfold UniFloat_of. change (Decompose v 0 rounding 0) with (Decompose v 52 rounding 0).
  destruct (Decompose_returns v 52 rounding Hv ltac:(lia)) as (x & -> & [Hm _ Hs]). cbn [outcome_bind].
  eexists. split; [reflexivity|]. apply Recompose_finite; [lia | exact Hs].
Qed.

(** Normalizing and putting together. *)
Lemma finish_returns m x rounding :
  0 <= m < 2 ^ 128 -> -16000 <= exp x <= 16000 -> sign x = -1 \/ sign x = 0 \/ sign x = 1 ->
  exists r, Normalize m x rounding = Ret r /\ 0 <= mant r < 2 ^ 64 /\ sign r = sign x.
Proof.
  intros Hm He Hs. destruct (Normalize_spec m x rounding Hm ltac:(lia)) as (q & s & -> & _ & Hq & _).
  eexists. split; [reflexivity|]. cbn [mant sign]. lia.
Qed.

Lemma sign_mul a b : (a = -1 \/ a = 0 \/ a = 1) -> (b = -1 \/ b = 0 \/ b = 1) -> a * b = -1 \/ a * b = 0 \/ a * b = 1.
Proof. intros [->|[->| ->]] [->|[->| ->]]; lia. Qed.

Lemma Multiply_returns a b rounding : finite a -> finite b -> exists v, Multiply a b rounding = Ret v /\ finite v.
Proof.
  intros Ha Hb. unfold Multiply. change (8 * 8 - 1) with 63.
  destruct (Decompose_returns a 63 0 Ha ltac:(lia)) as (v & -> & [Hvm Hve Hvs]).
  destruct (Decompose_returns b 63 0 Hb ltac:(lia)) as (x & -> & [Hxm Hxe Hxs]). cbn [outcome_bind].
  assert (Hp : 0 <= mant v * mant x < 2 ^ 128) by (change (2 ^ 128) with (2 ^ 63 * 2 ^ 65); nia).
  unfold u128. rewrite wrap_small by exact Hp. rewrite i16_small by lia.
  destruct (finish_returns (mant v * mant x) (mkT (mant v) (exp v + exp x) (sign v * sign x)) rounding) as (r & -> & Hr & Hs);
    [exact Hp | cbn [exp]; lia | apply sign_mul; assumption |]. cbn [outcome_bind]. eexists. split; [reflexivity|].
  apply Recompose_finite; [exact Hr|]. rewrite Hs. apply sign_mul; assumption.
Qed.

Lemma Divide_returns a b rounding : finite a -> finite b -> exists v, Divide a b rounding = Ret v /\ finite v.
Proof.
  intros Ha Hb. unfold Divide. change (8 * 8 - 1) with 63.
  destruct (Decompose_returns a 63 0 Ha ltac:(lia)) as (v & -> & [Hvm Hve Hvs]).
  destruct (Decompose_returns b 63 (- rounding) Hb ltac:(lia)) as (x & -> & [Hxm Hxe Hxs]). cbn [outcome_bind].
  destruct (Z.eqb_spec (mant x) 0) as [Hz|Hn].
  { apply UniFloat_of_returns. destruct (sign v <? 0); split; cbn [d_m d_e neg DBL_MAX]; lia. }
  cbv zeta. change (127 - 63) with 64. rewrite Z.shiftl_mul_pow2 by lia.
  assert (Hy0 : 0 <= mant v * 2 ^ 64 <= 2 ^ 127 - 2 ^ 64) by (change (2 ^ 127) with (2 ^ 63 * 2 ^ 64); lia).
  rewrite (u64_small (mant x + 1)), (u64_small (mant x - 1)) by lia.
  assert (Hh : 0 <= (mant x + 1) / 2 <= 2 ^ 63) by (split; [apply Z.div_pos; lia | apply Z.div_le_upper_bound; lia]).
  unfold u128. rewrite !(wrap_small 128) by (unfold in_word; rewrite ?(wrap_small 128) by (unfold in_word; lia); lia).
  set (y := if rounding =? 0 then _ else _). assert (Hy : 0 <= y < 2 ^ 128) by (unfold y; destruct (rounding =? 0); [lia|]; destruct (0 <? rounding); lia).
  rewrite (i16_small (exp x + 127 - 63)), i16_small by lia.
  destruct (finish_returns (y / mant x) (mkT (mant v) (exp v - (exp x + 127 - 63)) (sign v * sign x)) rounding) as (r & -> & Hr & Hs);
    [| cbn [exp]; lia | apply sign_mul; assumption |].
  { split; [apply Z.div_pos; lia|]. apply Z.div_lt_upper_bound; [lia|]. nia. }
  cbn [outcome_bind]. eexists. split; [reflexivity|]. apply Recompose_finite; [exact Hr|]. rewrite Hs. apply sign_mul; assumption.
Qed.

Lemma Add_returns a b rounding average : finite a -> finite b -> exists v, Add a b rounding average = Ret v /\ finite v.
Proof.
  intros Ha Hb. unfold Add. change (8 * 8 - 2) with 62.
  destruct (Decompose_returns a 62 0 Ha ltac:(lia)) as (v & -> & [Hvm Hve Hvs]).
  destruct (Decompose_returns b 62 0 Hb ltac:(lia)) as (x & -> & [Hxm Hxe Hxs]). cbn [outcome_bind]. cbv zeta.
  assert (Hend : forall w, 0 <= mant w < 2 ^ 64 -> sign w = -1 \/ sign w = 0 \/ sign w = 1 ->
    finite (Recompose (if average then mkT (mant w) (i16 (exp w - 1)) (sign w) else w)))
    by (intros w H1 H2; destruct average; apply Recompose_finite; cbn [mant sign]; assumption).
  set (diff := if (mant v =? 0) || (mant x =? 0) then 0 else exp v - exp x).
  destruct ((mant x =? 0) || (62 <=? diff)); [cbn [outcome_bind]; eexists; split; [reflexivity | apply Hend; [lia | exact Hvs]]|].
  destruct ((mant v =? 0) || (62 <=? - diff)); [cbn [outcome_bind]; eexists; split; [reflexivity | apply Hend; [lia | exact Hxs]]|].
  assert (Hshift : forall (c : bool) m s, 0 <= m < 2 ^ 62 -> (c = true -> 0 < s) ->
    exists q, (if c then Shift m s rounding else Ret m) = Ret q /\ 0 <= q < 2 ^ 62).
  { intros c m s Hm Hc. destruct c; [|exists m; split; [reflexivity | lia]]. specialize (Hc eq_refl).
    assert (2 <= 2 ^ s) by (change 2 with (2 ^ 1) at 1; apply Z.pow_le_mono_r; lia).
    assert (0 <= m / 2 ^ s < 2 ^ 61) by (split; [apply Z.div_pos; lia | apply Z.div_lt_upper_bound; nia]).
    destruct (Shift_spec m s rounding ltac:(lia) ltac:(lia) ltac:(lia)) as (q & Hq & _ & Hr & _). exists q. split; [exact Hq | lia]. }
  destruct (Hshift (0 <? diff) (mant x) diff Hxm ltac:(intros ?%Z.ltb_lt; lia)) as (xm & -> & Hxm').
  destruct (Hshift (diff <? 0) (mant v) (- diff) Hvm ltac:(intros ?%Z.ltb_lt; lia)) as (vm & -> & Hvm'). cbn [outcome_bind].
  assert (Habs : forall s m, (s = -1 \/ s = 0 \/ s = 1) -> 0 <= m < 2 ^ 62 -> Z.abs (s * m) < 2 ^ 62) by (intros s m [->|[->| ->]]; lia).
  pose proof (Habs (sign v) vm Hvs Hvm') as Hj. pose proof (Habs (sign x) xm Hxs Hxm') as Hk.
  rewrite (i64_small vm), (i64_small xm) by lia. rewrite (i64_small (sign v * vm)), (i64_small (sign x * xm)) by lia.
  rewrite i64_small by lia. set (y := sign v * vm + sign x * xm) in *.
  destruct (finish_returns (Z.abs y) (mkT vm (if diff <? 0 then exp x else exp v) (Z.sgn y)) rounding) as (r & -> & Hr & Hs);
    [lia | cbn [exp]; destruct (diff <? 0); lia | cbn [sign]; lia |].
  cbn [outcome_bind]. eexists. split; [reflexivity|]. apply Hend; [exact Hr | rewrite Hs; cbn [sign]; lia].
Qed.

Lemma power_loop_returns fuel : forall v fac b, finite v -> finite fac -> 0 <= b < 2 ^ Z.of_nat fuel -> (0 < fuel)%nat ->
  exists w, power_loop fuel v fac b = Ret w /\ finite w.
Proof.
  induction fuel as [|f IH]; intros v fac b Hv Hf Hb Hpos; [lia|]. cbn [power_loop].
  assert (exists w, (if Z.odd b then Multiply v fac 0 else Ret v) = Ret w /\ finite w) as (w & -> & Hw)
    by (destruct (Z.odd b); [apply Multiply_returns; assumption | eauto]). cbn [outcome_bind].
  rewrite Z.shiftr_div_pow2 by lia. change (2 ^ 1) with 2. destruct (Z.eqb_spec (b / 2) 0) as [|Hne]; [eauto|].
  destruct (Multiply_returns fac fac 0 Hf Hf) as (fac' & -> & Hf'). cbn [outcome_bind].
  rewrite Nat2Z.inj_succ, Z.pow_succ_r in Hb by lia.
  assert (0 <= b / 2 < 2 ^ Z.of_nat f) by (split; [apply Z.div_pos; lia | apply Z.div_lt_upper_bound; lia]).
  apply IH; try assumption. destruct f; [|lia]. change (2 ^ Z.of_nat 0) with 1 in *. lia.
Qed.

(** No operation on portable floats asserts or loops: on finite doubles every one
    returns a finite double. *)
Theorem operations_return a b rounding n :
  finite a -> finite b -> n < 2 ^ 31 ->
  (exists v, UniFloat_of a rounding = Ret v /\ finite v)
  /\ (forall average, exists v, Add a b rounding average = Ret v /\ finite v)
  /\ (exists v, Multiply a b rounding = Ret v /\ finite v)
  /\ (exists v, Divide a b rounding = Ret v /\ finite v)
  /\ (exists v, Power a n = Ret v /\ finite v).
Proof.
  intros Ha Hb Hn. split; [apply UniFloat_of_returns, Ha|]. split; [intros; apply Add_returns; assumption|].
  split; [apply Multiply_returns; assumption|]. split; [apply Divide_returns; assumption|].
  assert (Hsmall : forall m, 0 <= m <= 1 -> finite (mkD m 0)) by (intros; split; cbn; lia).
  unfold Power. destruct (Z.ltb_spec n 0); [exists zero; split; [reflexivity | apply Hsmall; lia]|].
  destruct (Z.eqb_spec n 0); [exists one; split; [reflexivity | apply Hsmall; lia]|].
  apply power_loop_returns; [apply Hsmall; lia | exact Ha | | lia]. change (Z.of_nat 32) with 32. lia.
Qed.

Lemma operations_return_witness :
  (exists v, Divide one zero 0 = Ret v /\ finite v) /\ (exists v, Power (mkD 3 (-1)) (2 ^ 31 - 1) = Ret v /\ finite v).
Proof.
  assert (H : forall m e, 0 <= m <= 3 -> -1 <= e <= 0 -> finite (mkD m e)) by (intros; split; cbn; lia).
  split; [apply (operations_return one zero 0 0) | apply (operations_return (mkD 3 (-1)) one 0 (2 ^ 31 - 1))]; try (apply H; lia); lia.
Defined.
(** ** Signs *)

Lemma outcome_bind_Ret {A B} (m : outcome A) (f : A -> outcome B) b : outcome_bind m f = Ret b -> exists a, m = Ret a /\ f a = Ret b.
Proof. destruct m as [a|]; cbn [outcome_bind]; [eauto | discriminate]. Qed.

Lemma decompose_loop_nonneg fuel rounding incr sgn limit m : forall s e y e', decompose_loop fuel rounding incr sgn limit m s e = Ret (y, e') -> 0 <= y.
Proof.
  induction fuel as [|f IH]; intros s e y e'; cbn [decompose_loop]; [discriminate|].
  destruct (_ <? limit); [intros [= <- _]; unfold u64; apply wrap_range; lia | apply IH].
Qed.

Lemma Decompose_sign v nbits rounding x : Decompose v nbits rounding 0 = Ret x -> 0 <= mant x /\ sign x = Z.sgn (d_m v).
Proof.
  unfold Decompose. destruct (Z.eqb_spec (d_m v) 0) as [->|Hn]; [intros [= <-]; split; reflexivity|].
  cbv zeta. destruct (_ <? 64); [|discriminate]. intros ([y e] & Hl & [= <-])%outcome_bind_Ret. cbn [mant sign fst snd].
  split; [exact (decompose_loop_nonneg _ _ _ _ _ _ _ _ _ _ Hl)|]. destruct (Z.ltb_spec 0 (d_m v)); lia.
Qed.

Lemma Shift_nonneg v s rounding r : Shift v s rounding = Ret r -> 0 <= r.
Proof.
  unfold Shift. destruct (0 <=? s); [|discriminate]. intros [= <-].
  repeat match goal with |- context [if ?c then _ else _] => destruct c end; unfold u64; apply wrap_range; lia.
Qed.

Lemma Normalize_sign m x rounding r : Normalize m x rounding = Ret r -> 0 <= mant r /\ sign r = sign x.
Proof.
  unfold Normalize. intros (s & _ & (q & Hq & [= <-])%outcome_bind_Ret)%outcome_bind_Ret. split; [exact (Shift_nonneg _ _ _ _ Hq) | reflexivity].
Qed.

Lemma shift_even_nonneg m s : 0 <= m -> 0 <= shift_even m s.
Proof.
  intros Hm. unfold shift_even. assert (0 <= m / 2 ^ s) by (destruct (Z.eq_dec (2 ^ s) 0) as [->|]; [rewrite Z.div_0_r; lia | apply Z.div_pos; [exact Hm|]; pose proof (Z.pow_nonneg 2 s); lia]).
  destruct (_ || _); lia.
Qed.

Lemma Recompose_nonneg x : 0 <= mant x -> 0 <= sign x -> 0 <= d_m (Recompose x).
Proof.
  intros Hm Hs. unfold Recompose, ldexp.
  assert (Hi : 0 <= d_m (of_integer (mant x))) by (unfold of_integer; destruct (_ <=? 53); [exact Hm | apply shift_even_nonneg, Hm]).
  destruct (_ =? 0); [cbn; lia|]. destruct (1024 <? _); [cbn [d_m]; apply Z.mul_nonneg_nonneg; [exact Hs | discriminate]|].
  destruct (_ <? -1074); cbn [d_m]; apply Z.mul_nonneg_nonneg; try assumption. apply shift_even_nonneg, Hi.
Qed.

Lemma UniFloat_of_nonneg v rounding w : UniFloat_of v rounding = Ret w -> 0 <= d_m v -> 0 <= d_m w.
Proof.
  unfold UniFloat_of. intros (x & Hx & [= <-])%outcome_bind_Ret Hv. apply Decompose_sign in Hx as [Hm Hs]. apply Recompose_nonneg; lia.
Qed.

Lemma Multiply_nonneg a b rounding v : Multiply a b rounding = Ret v -> 0 <= d_m a -> 0 <= d_m b -> 0 <= d_m v.
Proof.
  unfold Multiply. intros (x & Hx & (y & Hy & (r & Hr & [= <-])%outcome_bind_Ret)%outcome_bind_Ret)%outcome_bind_Ret Ha Hb.
  apply Decompose_sign in Hx as [_ Hsx]. apply Decompose_sign in Hy as [_ Hsy]. apply Normalize_sign in Hr as [Hm Hs]. cbn [sign] in Hs.
  apply Recompose_nonneg; [exact Hm|]. rewrite Hs, Hsx, Hsy. lia.
Qed.

Lemma Divide_nonneg a b rounding v : Divide a b rounding = Ret v -> 0 <= d_m a -> 0 <= d_m b -> 0 <= d_m v.
Proof.
  unfold Divide. intros (x & Hx & (y & Hy & Hv)%outcome_bind_Ret)%outcome_bind_Ret Ha Hb.
  apply Decompose_sign in Hx as [_ Hsx]. apply Decompose_sign in Hy as [_ Hsy]. destruct (mant y =? 0).
  - apply UniFloat_of_nonneg in Hv; [exact Hv|]. destruct (Z.ltb_spec (sign x) 0); [lia | discriminate].
  - apply outcome_bind_Ret in Hv as (r & Hr & [= <-]). apply Normalize_sign in Hr as [Hm Hs]. cbn [sign] in Hs.
    apply Recompose_nonneg; [exact Hm|]. rewrite Hs, Hsx, Hsy. lia.
Qed.

(** A sum of positives, or a difference that is not negative, is not negative, in the whole
    range of doubles. *)
Lemma finite_bits v : finite v -> d_m v <> 0 -> 0 < bits (Z.abs (d_m v)) <= 54.
Proof.
  intros [Hm _] Hn. pose proof (bits_le (Z.abs (d_m v)) 54 ltac:(change (2 ^ 54) with (2 * 2 ^ 53); lia) ltac:(lia)).
  pose proof (bits_bound (Z.abs (d_m v)) ltac:(lia)). lia.
Qed.

Lemma Decompose_62 v : finite v -> d_m v <> 0 ->
  Decompose v 62 0 0 = Ret (mkT (full 62 v) (scale v - 62) (Z.sgn (d_m v))) /\ 2 ^ 61 <= full 62 v < 2 ^ 62.
Proof.
  intros Hf Hn. pose proof (finite_bits v Hf Hn) as Hb. destruct Hf as [Hm He]. split; [apply Decompose_bits; lia|].
  apply (full_bounds 62 v Hn). lia.
Qed.

(** The operands of a difference that is not negative, taken apart. *)
Lemma dle_full a b : finite a -> finite b -> 0 < d_m b -> 0 < d_m a -> dle b a = true ->
  scale b <= scale a /\ (scale b = scale a -> full 62 b <= full 62 a).
Proof.
  intros Ha Hb Hpb Hpa Hle. set (k := Z.min (Z.min (d_e a) (d_e b)) (Z.min (scale a - 62) (scale b - 62))).
  rewrite (dle_at k) in Hle by (unfold k; lia). apply Z.leb_le in Hle.
  pose proof (finite_bits a Ha ltac:(lia)). pose proof (finite_bits b Hb ltac:(lia)).
  rewrite (at_full k 62 a), (at_full k 62 b) in Hle by (unfold k; lia). rewrite !Z.sgn_pos, !Z.mul_1_l in Hle by lia.
  destruct (Decompose_62 a Ha ltac:(lia)) as [_ Fa]. destruct (Decompose_62 b Hb ltac:(lia)) as [_ Fb].
  pose proof (pow2_pos (scale a - 62 - k) ltac:(unfold k; lia)) as Pa. pose proof (pow2_pos (scale b - 62 - k) ltac:(unfold k; lia)) as Pb.
  split.
  - destruct (Z.le_gt_cases (scale b) (scale a)) as [H1|H1]; [exact H1|]. exfalso.
    assert (2 * 2 ^ (scale a - 62 - k) <= 2 ^ (scale b - 62 - k)) by (rewrite <- Z.pow_succ_r by (unfold k; lia); apply Z.pow_le_mono_r; lia).
    change (2 ^ 62) with (2 * 2 ^ 61) in *. nia.
  - intros E. rewrite E in Hle. nia.
Qed.

Lemma Add_sub_nonneg a b rounding : finite a -> finite b -> 0 <= d_m b -> dle b a = true ->
  exists v, Add a (neg b) rounding false = Ret v /\ finite v /\ 0 <= d_m v.
Proof.
  intros Ha Hb Hpb Hle.
  assert (Hnb : finite (neg b)) by (destruct Hb; split; cbn [neg d_m d_e]; lia).
  destruct (Add_returns a (neg b) rounding false Ha Hnb) as (v & Hv & Hf). exists v. split; [exact Hv|]. split; [exact Hf|].
  assert (Hpa : 0 <= d_m a).
  { rewrite (dle_at (common a b)) in Hle by (unfold common; lia). apply Z.leb_le in Hle. unfold at_exp in Hle.
    pose proof (pow2_pos (d_e a - common a b) ltac:(unfold common; lia)). pose proof (pow2_pos (d_e b - common a b) ltac:(unfold common; lia)). nia. }
  revert Hv. unfold Add. change (8 * 8 - 2) with 62. destruct (Z.eq_dec (d_m b) 0) as [Hzb|Hn].
  - rewrite (Decompose_zero (neg b)) by (cbn [neg d_m]; lia). intros (x & Hx & Hv)%outcome_bind_Ret. apply Decompose_sign in Hx as [Hm Hs].
    cbn [outcome_bind mant Z.eqb orb] in Hv. injection Hv as <-. apply Recompose_nonneg; lia.
  - assert (Hna : d_m a <> 0).
    { intros Hz. rewrite (dle_at (common a b)) in Hle by (unfold common; lia). apply Z.leb_le in Hle. unfold at_exp in Hle. rewrite Hz in Hle.
      pose proof (pow2_pos (d_e b - common a b) ltac:(unfold common; lia)). nia. }
    destruct (dle_full a b Ha Hb ltac:(lia) ltac:(lia) Hle) as [Hsc Heq].
    destruct (Decompose_62 a Ha Hna) as [-> Fa]. destruct (Decompose_62 (neg b) Hnb ltac:(cbn [neg d_m]; lia)) as [-> Fb].
    assert (full 62 (neg b) = full 62 b /\ scale (neg b) = scale b) as [Ef Es] by (unfold full, scale, neg; cbn [d_m d_e]; rewrite Z.abs_opp; split; reflexivity).
    rewrite Ef, Es in *. cbn [outcome_bind mant exp sign]. rewrite !(proj2 (Z.eqb_neq (full 62 _) 0)) by lia. cbn [orb].
    replace (scale a - 62 - (scale b - 62)) with (scale a - scale b) by lia.
    destruct (62 <=? scale a - scale b); [cbn [outcome_bind]; intros [= <-]; apply Recompose_nonneg; cbn [mant sign]; lia|].
    rewrite (proj2 (Z.leb_gt 62 (- (scale a - scale b)))) by lia. rewrite (proj2 (Z.ltb_ge (scale a - scale b) 0)) by lia.
    assert (Hxm : exists xm, (if 0 <? scale a - scale b then Shift (full 62 b) (scale a - scale b) rounding else Ret (full 62 b)) = Ret xm /\ 0 <= xm <= full 62 a).
    { destruct (Z.ltb_spec 0 (scale a - scale b)) as [Hd|Hd]; [|exists (full 62 b); split; [reflexivity | pose proof (Heq ltac:(lia)); lia]].
      set (d := scale a - scale b) in *. assert (2 <= 2 ^ d) by (change 2 with (2 ^ 1) at 1; apply Z.pow_le_mono_r; lia).
      assert (full 62 b / 2 ^ d < 2 ^ 61) by (apply Z.div_lt_upper_bound; [lia|]; change (2 ^ 62) with (2 * 2 ^ 61) in Fb; nia).
      destruct (Shift_spec (full 62 b) d rounding ltac:(lia) ltac:(lia) ltac:(lia)) as (q & Hq & _ & Hr & _). exists q. split; [exact Hq|].
      pose proof (Z.div_pos (full 62 b) (2 ^ d) ltac:(lia) ltac:(lia)). lia. }
    destruct Hxm as (xm & -> & Hxm). cbn [outcome_bind]. cbn [neg d_m]. rewrite (Z.sgn_pos (d_m a)), (Z.sgn_neg (- d_m b)) by lia.
    rewrite (i64_small xm), (i64_small (full 62 a)) by lia. rewrite (i64_small (1 * _)), (i64_small (-1 * _)) by lia. rewrite i64_small by lia.
    intros (r & Hr & [= <-])%outcome_bind_Ret. apply Normalize_sign in Hr as [Hm Hs]. cbn [sign] in Hs. apply Recompose_nonneg; [exact Hm | lia].
Qed.

Lemma Add_nonneg a b rounding v : Add a b rounding false = Ret v -> finite a -> finite b -> 0 <= d_m a -> 0 <= d_m b -> 0 <= d_m v.
Proof.
  intros Hv Ha Hb Hpa Hpb. revert Hv. unfold Add. change (8 * 8 - 2) with 62.
  destruct (Z.eq_dec (d_m b) 0) as [Hzb|Hnb].
  { rewrite (Decompose_zero b) by exact Hzb. intros (x & Hx & Hv)%outcome_bind_Ret. apply Decompose_sign in Hx as [Hm Hs].
    cbn [outcome_bind mant Z.eqb orb] in Hv. injection Hv as <-. apply Recompose_nonneg; lia. }
  destruct (Z.eq_dec (d_m a) 0) as [Hza|Hna].
  { rewrite (Decompose_zero a) by exact Hza. destruct (Decompose_62 b Hb Hnb) as [-> Fb]. cbn [outcome_bind mant Z.eqb orb].
    rewrite (proj2 (Z.eqb_neq (full 62 b) 0)) by lia. cbn [orb]. change (62 <=? 0) with false. cbn [outcome_bind]. intros [= <-]. apply Recompose_nonneg; cbn [mant sign]; lia. }
  destruct (Decompose_62 a Ha Hna) as [-> Fa]. destruct (Decompose_62 b Hb Hnb) as [-> Fb]. cbn [outcome_bind mant exp sign].
  rewrite !(proj2 (Z.eqb_neq (full 62 _) 0)) by lia. cbn [orb]. set (d := scale a - 62 - (scale b - 62)).
  destruct (62 <=? d); [cbn [outcome_bind]; intros [= <-]; apply Recompose_nonneg; cbn [mant sign]; lia|].
  destruct (62 <=? - d); [cbn [outcome_bind]; intros [= <-]; apply Recompose_nonneg; cbn [mant sign]; lia|].
  assert (Hsh : forall (c : bool) m s, 2 ^ 61 <= m < 2 ^ 62 -> (c = true -> 0 < s) -> forall q, (if c then Shift m s rounding else Ret m) = Ret q -> 0 <= q < 2 ^ 62).
  { intros c m s Hm Hc q. destruct c; [|intros [= <-]; lia]. specialize (Hc eq_refl). assert (2 <= 2 ^ s) by (change 2 with (2 ^ 1) at 1; apply Z.pow_le_mono_r; lia).
    assert (0 <= m / 2 ^ s < 2 ^ 61) by (split; [apply Z.div_pos; lia | apply Z.div_lt_upper_bound; [lia|]; change (2 ^ 62) with (2 * 2 ^ 61) in Hm; nia]).
    destruct (Shift_spec m s rounding ltac:(lia) ltac:(lia) ltac:(lia)) as (q' & -> & _ & Hr & _). intros [= <-]. lia. }
  intros (y & (xm & Hxm & (vm & Hvm & Hn)%outcome_bind_Ret)%outcome_bind_Ret & [= <-])%outcome_bind_Ret.
  apply Hsh in Hxm; [|exact Fb | intros ?%Z.ltb_lt; lia]. apply Hsh in Hvm; [|exact Fa | intros ?%Z.ltb_lt; lia].
  rewrite (i64_small vm), (i64_small xm), !Z.sgn_pos, !Z.mul_1_l in Hn by lia. rewrite (i64_small vm), (i64_small xm) in Hn by lia. rewrite i64_small in Hn by lia.
  apply Normalize_sign in Hn as [Hm Hs]. cbn [sign] in Hs. apply Recompose_nonneg; [exact Hm | lia].
Qed.
