(* ===== verification/WireFloat.v ===== *)
(** * The wire format of portable floats (src/source/cccommon/src/unifloat.cpp)

    What [WireEncode] and [WireDecode] do with the codes of 32 bits: codes are ordered as
    their values, encoding a decoded value gives the code back whatever the rounding, and
    decoding with an increment. *)
From S2P Require Import Prelude UniFloat.

Local Open Scope Z_scope.
Local Open Scope cc_scope.

(** ** The wire *)

(** The value of a code other than 0; the smallest ones are subnormal. *)
Definition wire_bits (c : Z) : Z := if c / manhi =? 0 then 29 else 30.
Definition wire_double (c : Z) : double :=
  mkD ((manhi + c mod manhi) * 2 ^ wire_bits c) (c / manhi - 1045 - wire_bits c).

Definition is_code (c : Z) : Prop := 0 <= c < 2 ^ UNIFLOAT_BITS.

Lemma code_parts c : is_code c -> 0 <= c / manhi < 2048 /\ 0 <= c mod manhi < 2 ^ 21 /\ c = c / manhi * 2 ^ 21 + c mod manhi.
Proof.
  unfold is_code. change (2 ^ UNIFLOAT_BITS) with (2048 * 2 ^ 21). change manhi with (2 ^ 21). intros Hc.
  split; [split; [apply Z.div_pos; lia | apply Z.div_lt_upper_bound; lia]|]. split; [apply Z.mod_pos_bound; lia|].
  pose proof (Z.div_mod c (2 ^ 21) ltac:(lia)). lia.
Qed.

Lemma bits_unique m w : 0 < w -> 2 ^ (w - 1) <= m < 2 ^ w -> bits m = w.
Proof.
  intros Hw Hm. unfold bits. pose proof (pow2_pos (w - 1) ltac:(lia)). rewrite (proj2 (Z.eqb_neq m 0)) by lia.
  rewrite (Z.log2_unique m (w - 1)); [lia | lia |]. replace (Z.succ (w - 1)) with w by lia. exact Hm.
Qed.

(** A mantissa of 22 bits becomes a value exactly. *)
Lemma UniFloat_of_wire m e : 2 ^ 21 <= m < 2 ^ 22 -> -1045 <= e <= 1002 ->
  let k := if e =? -1045 then 29 else 30 in UniFloat_of (mkD m e) 0 = Ret (mkD (m * 2 ^ k) (e - k)).
Proof.
  intros Hm He. cbv zeta. unfold UniFloat_of.
  assert (Hb : bits m = 22) by (apply bits_unique; [lia | exact Hm]).
  change (Decompose (mkD m e) 0 0 0) with (Decompose (mkD m e) 52 0 0).
  rewrite (Decompose_bits (mkD m e) 52 0) by (cbn [d_m d_e]; rewrite ?Z.abs_eq, ?Hb by lia; lia).
  cbn [outcome_bind]. unfold full, scale. cbn [d_m d_e]. rewrite Z.abs_eq, Hb, Z.sgn_pos by lia. change (52 - 22) with 30.
  assert (bits (m * 2 ^ 30) = 52) as Hb2.
  { apply bits_unique; [lia|]. change (2 ^ (52 - 1)) with (2 ^ 21 * 2 ^ 30). change (2 ^ 52) with (2 ^ 22 * 2 ^ 30). lia. }
  destruct (Z.eqb_spec e (-1045)) as [->|Hne]; [|rewrite Recompose_exact by lia; f_equal; f_equal; lia].
  unfold Recompose, of_integer. cbn [mant exp sign]. rewrite Hb2. change (52 <=? 53) with true. cbv iota.
  unfold ldexp. cbn [d_m d_e]. rewrite Hb2. rewrite (proj2 (Z.eqb_neq _ 0)) by lia.
  change (0 + (-1045 + 22 - 52)) with (-1075). change (1024 <? 52 + -1075) with false. change (-1075 <? -1074) with true. cbv iota.
  change (-1074 - -1075) with 1. replace (m * 2 ^ 30) with (m * 2 ^ 29 * 2 ^ 1) by lia.
  unfold shift_even. rewrite Z.div_mul, Z.mod_mul by lia. change (2 ^ (1 - 1) <? 0) with false. cbn [orb].
  change (2 ^ (1 - 1) =? 0) with false. cbn [andb d_m d_e]. f_equal. f_equal; lia.
Qed.

Lemma WireDecode_value c az : is_code c -> c <> 0 -> WireDecode c 0 az = Ret (wire_double c).
Proof.
  intros Hc Hn. destruct (code_parts c Hc) as (He & Hm & _). unfold WireDecode.
  rewrite (proj2 (Z.eqb_neq c 0)) by exact Hn. rewrite andb_false_r. cbn [andb].
  rewrite Z.shiftr_div_pow2 by (change UNIFLOAT_MATISSA_BITS with 21; lia). change (2 ^ UNIFLOAT_MATISSA_BITS) with manhi. change (2 * maxexp) with 2048.
  rewrite (proj2 (Z.leb_gt _ _)) by lia. change (manhi - 1) with (2 ^ 21 - 1). rewrite land_mask by lia.
  change (2 ^ 21) with manhi in *. change (0 <? 0) with false. cbn [andb]. rewrite Z.add_0_r.
  change manhi with (2 ^ 21) in *. rewrite !(u64_small (c mod 2 ^ 21 + 2 ^ 21)) by lia. cbn [normalize_wire].
  change (2 * manhi) with (2 ^ 22). rewrite (proj2 (Z.ltb_lt _ (2 ^ 22))) by (change (2 ^ 22) with (2 ^ 21 + 2 ^ 21); lia). cbn [outcome_bind].
  rewrite UniFloat_of_wire by (change maxexp with 1024; change UNIFLOAT_MATISSA_BITS with 21; lia).
  unfold wire_double, wire_bits. change manhi with (2 ^ 21). change maxexp with 1024. change UNIFLOAT_MATISSA_BITS with 21.
  assert ((c / 2 ^ 21 - 1024 - 21 =? -1045) = (c / 2 ^ 21 =? 0)) as ->
    by (destruct (Z.eqb_spec (c / 2 ^ 21) 0), (Z.eqb_spec (c / 2 ^ 21 - 1024 - 21) (-1045)); lia).
  f_equal. f_equal; lia.
Qed.

Lemma at_wire c : is_code c -> -1075 <= d_e (wire_double c) /\ at_exp (-1075) (wire_double c) = (2 ^ 21 + c mod manhi) * 2 ^ (c / manhi + 30).
Proof.
  intros Hc. destruct (code_parts c Hc) as (He & Hm & _). unfold at_exp, wire_double, wire_bits. cbn [d_m d_e].
  destruct (Z.eqb_spec (c / manhi) 0) as [E|E].
  - rewrite E. split; [lia|]. change manhi with (2 ^ 21). change (0 - 1045 - 29 - -1075) with 1. change (0 + 30) with 30. lia.
  - split; [lia|]. rewrite <- Z.mul_assoc, <- Z.pow_add_r by lia. change manhi with (2 ^ 21) at 1. f_equal. f_equal. lia.
Qed.

Lemma WireDecode_zero : WireDecode 0 0 true = Ret zero.
Proof. reflexivity. Qed.

Lemma wire_double_lt c d : is_code c -> is_code d -> c <> 0 -> d <> 0 -> dlt (wire_double c) (wire_double d) = (c <? d).
Proof.
  intros Hc Hd Hcn Hdn. destruct (code_parts c Hc) as (He & Hm & Ec). destruct (code_parts d Hd) as (He' & Hm' & Ed).
  destruct (at_wire c Hc) as [Hk1 Ha1]. destruct (at_wire d Hd) as [Hk2 Ha2].
  rewrite (dlt_at (-1075)), Ha1, Ha2 by assumption. change manhi with (2 ^ 21) in *. set (E := c / 2 ^ 21) in *. set (F := d / 2 ^ 21) in *.
  set (x := c mod 2 ^ 21) in *. set (y := d mod 2 ^ 21) in *. apply eq_bool_prop_intro. rewrite !Is_true_true, !Z.ltb_lt.
  assert (Hpow : forall n, 0 < n -> 2 <= 2 ^ n) by (intros n Hp; change 2 with (2 ^ 1) at 1; apply Z.pow_le_mono_r; lia).
  destruct (Z.lt_trichotomy E F) as [Hlt|[Heq|Hgt]].
  - replace (F + 30) with ((F - E) + (E + 30)) by lia. rewrite (Z.pow_add_r 2 (F - E)), Z.mul_assoc by lia.
    pose proof (pow2_pos (E + 30) ltac:(lia)). rewrite <- Z.mul_lt_mono_pos_r by assumption. specialize (Hpow (F - E) ltac:(lia)). split; intros; nia.
  - rewrite Heq. pose proof (pow2_pos (F + 30) ltac:(lia)). rewrite <- Z.mul_lt_mono_pos_r by assumption. lia.
  - replace (E + 30) with ((E - F) + (F + 30)) by lia. rewrite (Z.pow_add_r 2 (E - F)), Z.mul_assoc by lia.
    pose proof (pow2_pos (F + 30) ltac:(lia)). rewrite <- Z.mul_lt_mono_pos_r by assumption. specialize (Hpow (E - F) ltac:(lia)). split; intros; nia.
Qed.

Lemma wire_double_pos c : is_code c -> 0 < d_m (wire_double c).
Proof. intros Hc. destruct (code_parts c Hc) as (_ & Hm & _). cbn [wire_double d_m]. change manhi with (2 ^ 21) in *.
  apply Z.mul_pos_pos; [lia|]. apply pow2_pos. unfold wire_bits. destruct (_ =? _); lia. Qed.

Lemma dlt_zero_l a : 0 < d_m a -> dlt zero a = true.
Proof.
  intros Ha. unfold dlt, at_exp. change (d_m zero) with 0. rewrite Z.mul_0_l. apply Z.ltb_lt.
  apply Z.mul_pos_pos; [exact Ha | apply pow2_pos; unfold common, zero; cbn; lia].
Qed.
Lemma dlt_zero_r a : 0 <= d_m a -> dlt a zero = false.
Proof.
  intros Ha. unfold dlt, at_exp. change (d_m zero) with 0. rewrite Z.mul_0_l. apply Z.ltb_ge.
  apply Z.mul_nonneg_nonneg; [exact Ha | apply Z.lt_le_incl, pow2_pos; unfold common, zero; cbn; lia].
Qed.

(** Codes are ordered as their values are. *)
Lemma WireDecode_order c d : is_code c -> is_code d ->
  exists v w, WireDecode c 0 true = Ret v /\ WireDecode d 0 true = Ret w /\ dlt v w = (c <? d).
Proof.
  intros Hc Hd. destruct (Z.eq_dec c 0) as [->|Hcn], (Z.eq_dec d 0) as [->|Hdn].
  - exists zero, zero. repeat split; reflexivity.
  - exists zero, (wire_double d). rewrite WireDecode_zero, (WireDecode_value d) by assumption. repeat split.
    rewrite dlt_zero_l by (apply wire_double_pos, Hd). symmetry. apply Z.ltb_lt. unfold is_code in Hd. lia.
  - exists (wire_double c), zero. rewrite WireDecode_zero, (WireDecode_value c) by assumption. repeat split.
    rewrite dlt_zero_r by (apply Z.lt_le_incl, wire_double_pos, Hc). symmetry. apply Z.ltb_ge. unfold is_code in Hc. lia.
  - exists (wire_double c), (wire_double d). rewrite !WireDecode_value by assumption. repeat split. apply wire_double_lt; assumption.
Qed.

Lemma code_of_parts e m : 0 <= m < 2 ^ 21 -> (e * 2 ^ 21 + m) / manhi = e /\ (e * 2 ^ 21 + m) mod manhi = m.
Proof.
  intros Hm. change manhi with (2 ^ 21) in *. rewrite Z.add_comm. rewrite Z.div_add, Z.mod_add by lia.
  rewrite Z.div_small, Z.mod_small by lia. lia.
Qed.

(** Decoding with an increment of one gives the next value, except where the increment
    carries into the exponent of a value of one or more: there it gives the largest double,
    because the code compares the biased exponent with its unbiased limit. *)
Theorem WireDecode_next c :
  is_code c -> c <> 0 -> is_code (c + 1) ->
  WireDecode c 1 true =
    if (c mod manhi =? manhi - 1) && (maxexp <=? c / manhi) then Ret DBL_MAX else WireDecode (c + 1) 0 true.
Proof.
  intros Hc Hn Hc1. destruct (code_parts c Hc) as (He & Hm & Ec).
  rewrite (WireDecode_value (c + 1)) by (unfold is_code in *; assumption || lia).
  unfold WireDecode. rewrite (proj2 (Z.eqb_neq c 0)) by exact Hn. rewrite andb_false_r. cbn [andb].
  rewrite Z.shiftr_div_pow2 by (change UNIFLOAT_MATISSA_BITS with 21; lia). change (2 ^ UNIFLOAT_MATISSA_BITS) with manhi.
  change (2 * maxexp) with 2048. rewrite (proj2 (Z.leb_gt _ _)) by lia. change (manhi - 1) with (2 ^ 21 - 1). rewrite land_mask by lia.
  change (1 <? 0) with false. cbn [andb]. change manhi with (2 ^ 21) in *.
  rewrite !(u64_small (c mod 2 ^ 21 + 2 ^ 21)) by lia. rewrite u64_small by lia.
  change (normalize_wire 64) with (fun m x => if m <? 2 ^ 22 then Ret (Some (m, x))
    else let x := x + 1 in if maxexp <? x then Ret None else normalize_wire 63 (Z.shiftr m 1) x).
  cbv beta zeta. change (2 ^ 22) with (2 ^ 21 + 2 ^ 21). destruct (Z.eqb_spec (c mod 2 ^ 21) (2 ^ 21 - 1)) as [Em|Em].
  - rewrite (proj2 (Z.ltb_ge _ _)) by lia. rewrite Em. change (2 ^ 21 - 1 + 2 ^ 21 + 1) with (2 ^ 22). cbn [andb].
    change maxexp with 1024. destruct (Z.leb_spec 1024 (c / 2 ^ 21)) as [Hx|Hx].
    + rewrite (proj2 (Z.ltb_lt _ _)) by lia. vm_compute. reflexivity.
    + rewrite (proj2 (Z.ltb_ge 1024 _)) by lia. change (Z.shiftr (2 ^ 22) 1) with (2 ^ 21). cbn [normalize_wire].
      change (2 ^ 21 <? 2 * manhi) with true. cbn [outcome_bind]. change UNIFLOAT_MATISSA_BITS with 21.
      rewrite UniFloat_of_wire by lia. rewrite (proj2 (Z.eqb_neq _ (-1045))) by lia.
      assert (Hp : c + 1 = (c / 2 ^ 21 + 1) * 2 ^ 21 + 0) by lia.
      destruct (code_of_parts (c / 2 ^ 21 + 1) 0 ltac:(lia)) as [P1 P2]. rewrite <- Hp in P1, P2.
      unfold wire_double, wire_bits. rewrite P1, P2. rewrite (proj2 (Z.eqb_neq _ 0)) by lia. change manhi with (2 ^ 21) in *. f_equal. f_equal; lia.
  - rewrite (proj2 (Z.ltb_lt _ _)) by lia. cbn [andb outcome_bind]. change maxexp with 1024. change UNIFLOAT_MATISSA_BITS with 21.
    rewrite UniFloat_of_wire by lia.
    assert (Hp : c + 1 = c / 2 ^ 21 * 2 ^ 21 + (c mod 2 ^ 21 + 1)) by lia.
    destruct (code_of_parts (c / 2 ^ 21) (c mod 2 ^ 21 + 1) ltac:(lia)) as [P1 P2]. rewrite <- Hp in P1, P2.
    unfold wire_double, wire_bits. rewrite P1, P2. change manhi with (2 ^ 21).
    assert ((c / 2 ^ 21 - 1024 - 21 =? -1045) = (c / 2 ^ 21 =? 0)) as ->
      by (destruct (Z.eqb_spec (c / 2 ^ 21) 0), (Z.eqb_spec (c / 2 ^ 21 - 1024 - 21) (-1045)); lia).
    f_equal. f_equal; lia.
Qed.

(** ** Encoding what was decoded *)

(** The logarithm of the C library may be rounded up to the next integer. *)
Class LibmSpec `{Libm} : Prop := floor_log2_ok v : 0 < d_m v ->
  d_e v + Z.log2 (d_m v) <= floor_log2 v <= d_e v + Z.log2 (d_m v) + 1.

Section Roundtrip.
Context `{LibmSpec}.
Variable c : Z.
Hypothesis Hcode : is_code c.
(** A normal value: exponents from -1022 on. *)
Hypothesis Hnormal : 2 <= c / 2 ^ 21.

Local Abbreviation E := (c / 2 ^ 21).
Local Abbreviation mt := (c mod 2 ^ 21).
Local Abbreviation e0 := (c / 2 ^ 21 - 1024).

Lemma rt_range : 2 <= E < 2048 /\ 0 <= mt < 2 ^ 21 /\ c = E * 2 ^ 21 + mt.
Proof. destruct (code_parts c Hcode) as (? & ? & ?). change manhi with (2 ^ 21) in *. lia. Qed.

Lemma rt_value : wire_double c = mkD ((2 ^ 21 + mt) * 2 ^ 30) (e0 - 51).
Proof.
  unfold wire_double, wire_bits. change manhi with (2 ^ 21). rewrite (proj2 (Z.eqb_neq _ 0)) by lia. f_equal. lia.
Qed.

(** The mantissa at the exponent [e0 + j]. *)
Lemma rt_mantissa j rounding rb2 : -1 <= j ->
  encode_mantissa (wire_double c) (e0 + j) rounding rb2
  = u64 (if 0 <? rounding then Z.quot (2 * (2 ^ 22 + 2 * mt) - (2 ^ 22 + rb2) * 2 ^ (j + 1)) (2 * 2 ^ (j + 1))
         else if rounding <? 0 then - ((- (2 * (2 ^ 22 + 2 * mt) - (2 ^ 22 - rb2) * 2 ^ (j + 1))) / (2 * 2 ^ (j + 1)))
         else Z.quot (2 * (2 ^ 22 + 2 * mt) - (2 ^ 22 - 1) * 2 ^ (j + 1)) (2 * 2 ^ (j + 1))).
Proof.
  intros Hj. unfold encode_mantissa. rewrite rt_value. cbn [d_m d_e]. change UNIFLOAT_MATISSA_BITS with 21.
  replace (e0 + j - 21 - (e0 - 51)) with (30 + j) by lia. rewrite Z.max_r by lia.
  replace (e0 - 51 + 21 - (e0 + j) + (30 + j)) with 0 by lia. rewrite Z.pow_0_r, Z.mul_1_r. unfold half.
  replace (30 + j) with (29 + (j + 1)) by lia. rewrite Z.pow_add_r by lia. change manhi with (2 ^ 21) in *. set (P := 2 ^ (j + 1)).
  assert (HP : 0 < P) by (apply pow2_pos; lia).
  assert (Q : forall x, Z.quot (2 ^ 29 * x) (2 * (2 ^ 29 * P)) = Z.quot x (2 * P)).
  { intros x. replace (2 * (2 ^ 29 * P)) with (2 ^ 29 * (2 * P)) by lia. apply Z.quot_mul_cancel_l; lia. }
  assert (D : forall x, (2 ^ 29 * x) / (2 * (2 ^ 29 * P)) = x / (2 * P)).
  { intros x. replace (2 * (2 ^ 29 * P)) with (2 ^ 29 * (2 * P)) by lia. apply Z.div_mul_cancel_l; lia. }
  destruct (0 <? rounding); [|destruct (rounding <? 0)]; f_equal; [| f_equal |].
  - rewrite <- Q. f_equal. lia.
  - rewrite <- D. f_equal. lia.
  - rewrite <- Q. f_equal. lia.
Qed.

(** Negative values wrap around to large ones, up to the last exponent. *)
Lemma rt_runaway rounding rb2 fuel x :
  e0 - 1 <= x <= 1027 -> 1028 - x <= Z.of_nat fuel ->
  (forall j, 0 <= j -> manhi <= encode_mantissa (wire_double c) (e0 + j) rounding rb2) ->
  exists m, encode_exponent fuel (wire_double c) x rounding rb2 = Ret (1028, m).
Proof.
  intros Hx Hf Hbig. revert x Hx Hf. induction fuel as [|f IH]; intros x Hx Hf; [lia|]. cbn [encode_exponent].
  change (maxexp + 3) with 1027. destruct (Z.ltb_spec 1027 (x + 1)) as [H1|H1].
  - replace (x + 1) with 1028 by lia. eauto.
  - specialize (Hbig (x + 1 - e0) ltac:(lia)). replace (e0 + (x + 1 - e0)) with (x + 1) in Hbig by lia.
    rewrite (proj2 (Z.leb_le _ _)) by exact Hbig. apply IH; lia.
Qed.

Lemma u64_negative q : - 2 ^ 62 <= q < 0 -> 2 ^ 21 <= u64 q.
Proof.
  intros Hq. unfold u64, wrap. replace (q mod 2 ^ 64) with (q + 2 ^ 64); [lia|].
  rewrite <- (Z.mod_add q 1 (2 ^ 64)) by lia. rewrite Z.mod_small by lia. lia.
Qed.

Lemma quot_2 a b : 0 < b -> a <= - 2 * b -> Z.quot a (2 * b) <= -1.
Proof.
  intros Hb Ha. replace a with (- - a) by lia. rewrite Z.quot_opp_l by lia.
  assert (1 <= Z.quot (- a) (2 * b)); [|lia]. rewrite Z.quot_div_nonneg by lia. apply Z.div_le_lower_bound; lia.
Qed.

Lemma quot_low a b k : 0 < b -> 0 <= k -> - (k * (2 * b)) <= a <= 0 -> - k <= Z.quot a (2 * b).
Proof.
  intros Hb Hk Ha. replace a with (- - a) by lia. rewrite Z.quot_opp_l by lia.
  assert (Z.quot (- a) (2 * b) <= k); [|lia]. rewrite Z.quot_div_nonneg by lia. apply Z.div_le_upper_bound; lia.
Qed.

Lemma rt_up_negative rb2 j : 1 <= rb2 <= 5 -> 2 * mt + 2 <= rb2 -> 0 <= j ->
  manhi <= encode_mantissa (wire_double c) (e0 + j) 1 rb2.
Proof.
  intros Hrb Hmt Hj. destruct rt_range as (_ & Hm & _). rewrite rt_mantissa by lia. change (0 <? 1) with true. cbv iota.
  rewrite Z.pow_add_r by lia. change (2 ^ 1) with 2. pose proof (pow2_pos j Hj) as Hp. set (P := 2 ^ j) in *.
  assert (HrP : P <= rb2 * P <= 5 * P /\ rb2 <= rb2 * P) by (split; [split|]; nia).
  replace ((2 ^ 22 + rb2) * (P * 2)) with (2 ^ 23 * P + 2 * (rb2 * P)) by ring. set (R := rb2 * P) in *.
  assert (HR : j = 0 -> R = rb2) by (intros ->; unfold R, P; change (2 ^ 0) with 1; lia).
  change manhi with (2 ^ 21) in *. apply u64_negative. split.
  - apply (Z.le_trans _ (- (2 ^ 23))); [lia|]. apply quot_low; lia.
  - apply Z.le_lt_trans with (m := -1); [|lia]. apply quot_2; [lia|].
    destruct (Z.eq_dec j 0) as [Hj0|]; [specialize (HR Hj0); assert (P = 1) by (unfold P; rewrite Hj0; reflexivity); lia|].
    assert (2 <= P) by (unfold P; change 2 with (2 ^ 1) at 1; apply Z.pow_le_mono_r; lia). lia.
Qed.

Lemma rt_start : e0 <= floor_log2 (wire_double c) <= e0 + 1.
Proof.
  destruct (rt_range) as (HE & Hm & _).
  pose proof (floor_log2_ok (wire_double c) (wire_double_pos c Hcode)) as Hl.
  assert (Hlog : d_e (wire_double c) + Z.log2 (d_m (wire_double c)) = e0).
  { rewrite rt_value. cbn [d_m d_e]. rewrite (Z.log2_unique _ 51); [lia | lia |].
    change (2 ^ Z.succ 51) with (2 ^ 22 * 2 ^ 30). change (2 ^ 51) with (2 ^ 21 * 2 ^ 30). lia. }
  rewrite Hlog in Hl. exact Hl.
Qed.

(** Rounding up. *)
Lemma rt_up fuel rb2 : (4001 <= fuel)%nat -> In rb2 [5; 3; 1; -1] ->
  exists x m, encode_exponent fuel (wire_double c) (floor_log2 (wire_double c) - 2) 1 rb2 = Ret (x, m)
    /\ ((maxexp <= x /\ rb2 <> -1) \/ (x = e0 /\ 0 <= m <= mt /\ (rb2 = -1 -> m = mt)) \/ (x = e0 - 1 /\ 0 <= m < 2 ^ 21 /\ rb2 <> -1)).
Proof.
  intros Hfuel Hin. destruct rt_range as (HE & Hm & _).
  assert (Hrb : -1 <= rb2 <= 5 /\ rb2 mod 2 = 1) by (cbn in Hin; intuition subst; try lia; reflexivity).
  assert (Hfrom : forall f, (4000 <= f)%nat -> exists x m, encode_exponent f (wire_double c) (e0 - 1) 1 rb2 = Ret (x, m)
    /\ ((maxexp <= x /\ rb2 <> -1) \/ (x = e0 /\ 0 <= m <= mt /\ (rb2 = -1 -> m = mt)))).
  { intros f Hf. destruct (Z.le_gt_cases (2 * mt + 2) rb2) as [Hneg|Hpos].
    - destruct (rt_runaway 1 rb2 f (e0 - 1)) as [m ->]; [lia | lia | intros; apply rt_up_negative; lia |].
      exists 1028, m. split; [reflexivity|]. left. change maxexp with 1024. lia.
    - destruct f as [|f]; [lia|]. cbn [encode_exponent]. change (maxexp + 3) with 1027.
      replace (e0 - 1 + 1) with (e0 + 0) by lia. rewrite (proj2 (Z.ltb_ge 1027 _)) by lia. rewrite rt_mantissa by lia.
      change (0 <? 1) with true. cbv iota. change (2 ^ (0 + 1)) with 2.
      replace (2 * (2 ^ 22 + 2 * mt) - (2 ^ 22 + rb2) * 2) with (2 * (2 * mt - rb2)) by lia. rewrite Z.quot_mul_cancel_l by lia.
      assert (Hq : 0 <= Z.quot (2 * mt - rb2) 2 <= mt /\ (rb2 = -1 -> Z.quot (2 * mt - rb2) 2 = mt)).
      { destruct (Z.eq_dec (2 * mt - rb2) (-1)) as [Heq|]; [rewrite Heq; change (Z.quot (-1) 2) with 0; lia|].
        assert (0 <= 2 * mt - rb2) by lia. rewrite Z.quot_div_nonneg by lia.
        pose proof (Z.mul_div_le (2 * mt - rb2) 2 ltac:(lia)). pose proof (Z.mul_succ_div_gt (2 * mt - rb2) 2 ltac:(lia)). lia. }
      rewrite u64_small by lia. match goal with |- context [manhi <=? ?x] => change (manhi <=? x) with (2 ^ 21 <=? x) end. rewrite (proj2 (Z.leb_gt _ _)) by lia.
      eexists _, _. split; [reflexivity|]. right. split; [lia | exact Hq]. }
  pose proof rt_start as Hl.
  destruct (Z.eq_dec (floor_log2 (wire_double c)) e0) as [->|Hne].
  - destruct fuel as [|fuel]; [lia|]. cbn [encode_exponent]. change (maxexp + 3) with 1027. replace (e0 - 2 + 1) with (e0 + -1) by lia.
    rewrite (proj2 (Z.ltb_ge 1027 _)) by lia. rewrite rt_mantissa by lia. change (0 <? 1) with true. cbv iota.
    change (2 ^ (-1 + 1)) with 1.
    replace (2 * (2 ^ 22 + 2 * mt) - (2 ^ 22 + rb2) * 1) with (2 ^ 22 + 4 * mt - rb2) by lia. rewrite Z.quot_div_nonneg by lia.
    pose proof (Z.mul_div_le (2 ^ 22 + 4 * mt - rb2) 2 ltac:(lia)). pose proof (Z.mul_succ_div_gt (2 ^ 22 + 4 * mt - rb2) 2 ltac:(lia)).
    change (2 * 1) with 2. rewrite u64_small by lia. change manhi with (2 ^ 21).
    destruct (Z.leb_spec (2 ^ 21) ((2 ^ 22 + 4 * mt - rb2) / 2)) as [Hge|Hlt].
    + replace (e0 + -1) with (e0 - 1) by lia. destruct (Hfrom fuel ltac:(lia)) as (x & m & -> & Hc). exists x, m. tauto.
    + eexists _, _. split; [reflexivity|]. right. right. lia.
  - replace (floor_log2 (wire_double c) - 2) with (e0 - 1) by lia. destruct (Hfrom fuel ltac:(lia)) as (x & m & -> & Hc). exists x, m. tauto.
Qed.
(** The first turn may be at the exponent below, where the mantissa is too large. *)
Lemma rt_skip rounding rb2 fuel : (1 <= fuel)%nat ->
  2 ^ 21 <= encode_mantissa (wire_double c) (e0 + -1) rounding rb2 ->
  exists f, (fuel <= S f)%nat /\
  encode_exponent fuel (wire_double c) (floor_log2 (wire_double c) - 2) rounding rb2
  = encode_exponent f (wire_double c) (e0 - 1) rounding rb2.
Proof.
  intros Hf Hbig. pose proof (rt_start) as Hl. destruct (rt_range) as (HE & _ & _).
  destruct (Z.eq_dec (floor_log2 (wire_double c)) e0) as [->|Hne].
  - destruct fuel as [|f]; [lia|]. exists f. split; [lia|]. cbn [encode_exponent]. change (maxexp + 3) with 1027.
    rewrite (proj2 (Z.ltb_ge 1027 _)) by lia. replace (e0 - 2 + 1) with (e0 + -1) by lia.
    rewrite (proj2 (Z.leb_le manhi _)) by exact Hbig. f_equal; lia.
  - exists fuel. split; [lia|]. f_equal; lia.
Qed.

(** Rounding to the nearest. *)
Lemma rt_nearest fuel rb2 : (2 <= fuel)%nat ->
  encode_exponent fuel (wire_double c) (floor_log2 (wire_double c) - 2) 0 rb2 = Ret (e0, mt).
Proof.
  intros Hf. destruct (rt_range) as (HE & Hm & _).
  destruct (rt_skip 0 rb2 fuel) as (f & Hff & ->); [lia | |].
  - rewrite rt_mantissa by (assumption || lia). change (0 <? 0) with false. cbv iota. change (2 ^ (-1 + 1)) with 1. change (2 * 1) with 2.
    replace (2 * (2 ^ 22 + 2 * mt) - (2 ^ 22 - 1) * 1) with ((2 ^ 21 + 2 * mt) * 2 + 1) by lia. rewrite Z.quot_div_nonneg by lia.
    rewrite Z.div_add_l by lia. change (1 / 2) with 0. rewrite u64_small by lia. lia.
  - destruct f as [|f]; [lia|]. cbn [encode_exponent]. change (maxexp + 3) with 1027. replace (e0 - 1 + 1) with (e0 + 0) by lia.
    rewrite (proj2 (Z.ltb_ge 1027 _)) by lia. rewrite rt_mantissa by (assumption || lia). change (0 <? 0) with false. cbv iota.
    change (2 ^ (0 + 1)) with 2. replace (2 * (2 ^ 22 + 2 * mt) - (2 ^ 22 - 1) * 2) with (mt * (2 * 2) + 2) by lia.
    rewrite Z.quot_div_nonneg by lia. rewrite Z.div_add_l by lia. change (2 / (2 * 2)) with 0. rewrite Z.add_0_r, u64_small by lia.
    rewrite (proj2 (Z.leb_gt manhi _)) by (change manhi with (2 ^ 21); lia). rewrite Z.add_0_r. reflexivity.
Qed.

(** Rounding down. *)
Lemma rt_down fuel rb2 : (3 <= fuel)%nat -> In rb2 [5; 3; 1; -1] ->
  exists x m, encode_exponent fuel (wire_double c) (floor_log2 (wire_double c) - 2) (-1) rb2 = Ret (x, m)
    /\ 0 <= m < 2 ^ 21 /\ ((x = e0 /\ mt <= m /\ (rb2 = -1 -> m = mt)) \/ (x = e0 + 1 /\ rb2 <> -1)).
Proof.
  intros Hf Hin. destruct (rt_range) as (HE & Hm & _).
  assert (Hrb : exists k, rb2 = 2 * k - 1 /\ 0 <= k <= 3)
    by (cbn in Hin; destruct Hin as [<-|[<-|[<-|[<-|[]]]]]; [exists 3 | exists 2 | exists 1 | exists 0]; lia).
  destruct Hrb as (k & -> & Hk).
  destruct (rt_skip (-1) (2 * k - 1) fuel) as (f & Hff & ->); [lia | |].
  - rewrite rt_mantissa by (assumption || lia). change (0 <? -1) with false. change (-1 <? 0) with true. cbv iota.
    change (2 ^ (-1 + 1)) with 1. change (2 * 1) with 2.
    replace (- (2 * (2 ^ 22 + 2 * mt) - (2 ^ 22 - (2 * k - 1)) * 1)) with (- (2 ^ 21 + 2 * mt + k) * 2 + 1) by lia.
    rewrite Z.div_add_l by lia. change (1 / 2) with 0. rewrite Z.add_0_r, Z.opp_involutive, u64_small by lia. lia.
  - destruct f as [|f]; [lia|]. cbn [encode_exponent]. change (maxexp + 3) with 1027. replace (e0 - 1 + 1) with (e0 + 0) by lia.
    rewrite (proj2 (Z.ltb_ge 1027 _)) by lia. rewrite rt_mantissa by (assumption || lia).
    change (0 <? -1) with false. change (-1 <? 0) with true. cbv iota. change (2 ^ (0 + 1)) with 2.
    replace (- (2 * (2 ^ 22 + 2 * mt) - (2 ^ 22 - (2 * k - 1)) * 2)) with (- (mt + k) * (2 * 2) + 2) by lia.
    rewrite Z.div_add_l by lia. change (2 / (2 * 2)) with 0. rewrite Z.add_0_r, Z.opp_involutive, u64_small by lia.
    destruct (Z.leb_spec manhi (mt + k)) as [Hge|Hlt]; change manhi with (2 ^ 21) in *.
    + destruct f as [|f]; [lia|]. cbn [encode_exponent]. change (maxexp + 3) with 1027. replace (e0 + 0 + 1) with (e0 + 1) by lia.
      rewrite (proj2 (Z.ltb_ge 1027 _)) by lia. rewrite rt_mantissa by (assumption || lia).
      change (0 <? -1) with false. change (-1 <? 0) with true. cbv iota. change (2 ^ (1 + 1)) with 4. change (2 * 4) with 8.
      set (z := - (2 * (2 ^ 22 + 2 * mt) - (2 ^ 22 - (2 * k - 1)) * 4)).
      assert (Hz : -3 <= z / 8 <= 0).
      { split; [apply Z.div_le_lower_bound; unfold z; lia|]. apply Z.lt_succ_r, Z.div_lt_upper_bound; unfold z; lia. }
      rewrite u64_small by lia. rewrite (proj2 (Z.leb_gt (2 ^ 21) _)) by lia. eexists _, _. split; [reflexivity|]. lia.
    + eexists _, _. split; [reflexivity|]. lia.
Qed.

Lemma encode_try_code rounding rb2 az x m :
  encode_exponent 4096 (wire_double c) (floor_log2 (wire_double c) - 2) rounding rb2 = Ret (x, m) ->
  -1024 <= x < 1024 -> 0 <= m < 2 ^ 21 ->
  let d := (x + 1024) * 2 ^ 21 + m in
  encode_try (wire_double c) rounding rb2 az =
    Ret (if (0 <? rounding) && (d <? c) then None else if (rounding <? 0) && (c <? d) then None else Some d).
Proof.
  intros He Hx Hm. cbv zeta. destruct (rt_range) as (HE & Hmt & Hc). unfold encode_try. rewrite He. cbn [outcome_bind].
  change maxexp with 1024. rewrite (proj2 (Z.leb_gt 1024 x)) by lia. cbn [andb].
  rewrite (proj2 (Z.ltb_ge x (- (1024)))) by lia. change UNIFLOAT_MATISSA_BITS with 21.
  rewrite lor_shiftl_add by (unfold in_word; lia). set (d := (x + 1024) * 2 ^ 21 + m).
  assert (Hd : is_code d) by (unfold is_code, d; change (2 ^ UNIFLOAT_BITS) with (2048 * 2 ^ 21); lia).
  destruct (Z.eqb_spec rounding 0) as [->|Hr]; [reflexivity|].
  destruct (WireDecode_order d c Hd Hcode) as (v & w & Hv & Hw & Hlt).
  destruct (WireDecode_order c d Hcode Hd) as (w' & v' & Hw' & Hv' & Hlt').
  assert (Hcv : WireDecode c 0 true = Ret (wire_double c)) by (apply WireDecode_value; [exact Hcode | lia]).
  rewrite Hcv in Hw, Hw'. rewrite Hv in Hv'. injection Hw as <-. injection Hw' as <-. injection Hv' as <-.
  rewrite Hv. cbn [outcome_bind]. rewrite Hlt, Hlt'.
  destruct ((0 <? rounding) && (d <? c)); [reflexivity|]. destruct ((rounding <? 0) && (c <? d)); reflexivity.
Qed.

(** One turn gives the code or goes on; with the increment -1/2 it gives the code. *)
Lemma encode_try_turn rounding rb2 az :
  -1 <= rounding <= 1 -> In rb2 [5; 3; 1; -1] ->
  encode_try (wire_double c) rounding rb2 az = Ret (Some c)
  \/ (encode_try (wire_double c) rounding rb2 az = Ret None /\ rb2 <> -1).
Proof.
  intros Hr Hin. destruct (rt_range) as (HE & Hm & Hc).
  assert (Hmore : (-4 <? rb2) = true) by (apply Z.ltb_lt; cbn in Hin; lia).
  assert (Hbeyond : forall x m, encode_exponent 4096 (wire_double c) (floor_log2 (wire_double c) - 2) rounding rb2 = Ret (x, m) ->
    1024 <= x -> encode_try (wire_double c) rounding rb2 az = Ret None).
  { intros x m Hx Hbig. unfold encode_try. rewrite Hx. cbn [outcome_bind]. change maxexp with 1024.
    rewrite (proj2 (Z.leb_le 1024 x)) by exact Hbig. rewrite Hmore. reflexivity. }
  assert (Hcases : rounding = 1 \/ rounding = -1 \/ rounding = 0) by lia. destruct Hcases as [->|[->| ->]].
  - destruct (rt_up 4096 rb2) as (x & m & He & Hx); [apply Nat.leb_le; reflexivity | exact Hin |].
    change maxexp with 1024 in Hx. destruct Hx as [[Hx Hne]|[(-> & Hmm & Hlast)|(-> & Hmm & Hlast)]].
    + right. split; [exact (Hbeyond _ _ He Hx) | exact Hne].
    + rewrite (encode_try_code 1 rb2 az _ _ He) by lia. change (0 <? 1) with true. change (1 <? 0) with false. cbn [andb].
      destruct (Z.ltb_spec ((e0 + 1024) * 2 ^ 21 + m) c) as [Hlt|Hge].
      * right. split; [reflexivity|]. intros ->. specialize (Hlast eq_refl). lia.
      * left. do 2 f_equal. lia.
    + rewrite (encode_try_code 1 rb2 az _ _ He) by lia. change (0 <? 1) with true. cbn [andb].
      rewrite (proj2 (Z.ltb_lt _ c)) by lia. right. split; [reflexivity | exact Hlast].
  - destruct (rt_down 4096 rb2) as (x & m & He & Hmm & Hx); [apply Nat.leb_le; reflexivity | exact Hin |].
    destruct (Z.le_gt_cases 1024 x) as [Hbig|Hsmall].
    + right. split; [exact (Hbeyond _ _ He Hbig)|]. destruct Hx as [[Hx _]|[_ Hx]]; [lia | exact Hx].
    + rewrite (encode_try_code (-1) rb2 az _ _ He) by lia. change (0 <? -1) with false. change (-1 <? 0) with true. cbn [andb].
      destruct Hx as [(-> & Hle & Hlast)|(-> & Hlast)].
      * destruct (Z.ltb_spec c ((e0 + 1024) * 2 ^ 21 + m)) as [Hlt|Hge].
        -- right. split; [reflexivity|]. intros ->. specialize (Hlast eq_refl). lia.
        -- left. do 2 f_equal. lia.
      * rewrite (proj2 (Z.ltb_lt c _)) by lia. right. split; [reflexivity | exact Hlast].
  - left. rewrite (encode_try_code 0 rb2 az e0 mt); [| apply rt_nearest; apply Nat.leb_le; reflexivity | lia | lia].
    cbn [andb]. change (0 <? 0) with false. cbn [andb]. do 2 f_equal. lia.
Qed.

Lemma encode_roundtrip rounding az : -1 <= rounding <= 1 -> WireEncode (wire_double c) rounding az = Ret c.
Proof.
  intros Hr. pose proof (wire_double_pos c Hcode) as Hpos. unfold WireEncode.
  rewrite (proj2 (Z.eqb_neq _ 0)) by lia. cbn [andb]. rewrite (proj2 (Z.leb_gt _ 0)) by lia.
  assert (Hturn : forall rb2 rbs, In rb2 [5; 3; 1; -1] -> (rb2 = -1 \/ encode_loop rbs (wire_double c) rounding az = Ret c) ->
    encode_loop (rb2 :: rbs) (wire_double c) rounding az = Ret c).
  { intros rb2 rbs Hin Hrest. cbn [encode_loop]. destruct (encode_try_turn rounding rb2 az Hr Hin) as [->|[-> Hne]]; cbn [outcome_bind]; [reflexivity | tauto]. }
  do 4 (apply Hturn; [cbn; tauto|]; try (left; reflexivity); right).
Qed.
End Roundtrip.

(** Encoding a normal value that was decoded gives the code back, whatever the rounding. *)
Theorem WireEncode_roundtrip `{LibmSpec} c rounding az :
  is_code c -> 2 <= c / 2 ^ UNIFLOAT_MATISSA_BITS -> -1 <= rounding <= 1 ->
  exists v, WireDecode c 0 true = Ret v /\ WireEncode v rounding az = Ret c.
Proof.
  intros Hc Hn Hr. change (2 ^ UNIFLOAT_MATISSA_BITS) with (2 ^ 21) in Hn. exists (wire_double c). split.
  - apply WireDecode_value; [exact Hc | intros ->; change (0 / 2 ^ 21) with 0 in Hn; lia].
  - apply encode_roundtrip; assumption.
Qed.

(** The code after that of the largest value below 1, and of the largest value below 2. *)
Lemma WireDecode_next_witness :
  WireDecode (2 ^ 31 - 1) 1 true = Ret (wire_double (2 ^ 31)) /\ WireDecode (2 ^ 31 + 2 ^ 21 - 1) 1 true = Ret DBL_MAX.
Proof.
  split.
  - rewrite (WireDecode_next (2 ^ 31 - 1)); [vm_compute; reflexivity | split; vm_compute; discriminate || reflexivity | discriminate | split; vm_compute; discriminate || reflexivity].
  - rewrite (WireDecode_next (2 ^ 31 + 2 ^ 21 - 1)); [vm_compute; reflexivity | split; vm_compute; discriminate || reflexivity | discriminate | split; vm_compute; discriminate || reflexivity].
Defined.

(** The exact logarithm. *)
Definition exact_log2 : Libm := fun v => d_e v + Z.log2 (d_m v).
Lemma exact_log2_spec : LibmSpec (H := exact_log2).
Proof. intros v Hv. unfold floor_log2, exact_log2. lia. Qed.

Lemma WireEncode_roundtrip_witness :
  exists v, WireDecode (2 ^ 31 + 12345) 0 true = Ret v /\ WireEncode (H := exact_log2) v 1 true = Ret (2 ^ 31 + 12345).
Proof.
  apply (WireEncode_roundtrip (H := exact_log2) (H0 := exact_log2_spec) (2 ^ 31 + 12345) 1 true).
  - split; vm_compute; discriminate || reflexivity.
  - vm_compute. discriminate.
  - vm_compute. split; discriminate.
Defined.
