(* ===== verification/TxAmount.v ===== *)
(** * Amounts of transactions (src/source/cclib/src/transaction.cpp)

    An amount is coded as a mantissa and a decimal exponent.  Amounts are values of
    [bigint_t]; its operators [+], [-] and [*] reduce modulo the prime of the field, which
    is the parameter [P], and [mpn_tdiv_qr] is the division of naturals. *)
From S2P Require Import Prelude.

Local Open Scope Z_scope.
Local Open Scope cc_scope.

Definition TX_AMOUNT_BITS : Z := 40.
Definition TX_AMOUNT_EXPONENT_BITS : Z := 5.
Definition TX_DONATION_BITS : Z := 16.
Definition TX_AMOUNT_EXPONENT_MASK : Z := 2 ^ TX_AMOUNT_EXPONENT_BITS - 1.
Definition TX_AMOUNT_MASK : Z := 2 ^ TX_AMOUNT_BITS - 1.
Definition TX_DONATION_MASK : Z := 2 ^ TX_DONATION_BITS - 1.

Definition amount_mantissa_bits (is_donation : bool) : Z :=
  if is_donation then TX_DONATION_BITS - TX_AMOUNT_EXPONENT_BITS else TX_AMOUNT_BITS - TX_AMOUNT_EXPONENT_BITS.

Section Field.
Variable P : Z.

Definition fadd (x y : Z) : Z := (x + y) mod P.
Definition fsub (x y : Z) : Z := (x - y) mod P.
Definition fmul (x y : Z) : Z := (x * y) mod P.

(** ** Tables *)

Fixpoint factor_table (i : nat) : Z :=
  match i with O => 1 | S i => fmul 10 (factor_table i) end.
Definition amount_factors (exponent : Z) : Z := factor_table (Z.to_nat exponent).

(** The largest amount for an exponent; the index is the way of rounding: to the closest,
    up, a donation up, down. *)
Definition amount_maxs (round_index exponent : Z) : Z :=
  let f := amount_factors exponent in
  let zero := if exponent =? 0 then 1 else 0 in
  let up := fmul (u64 (2 ^ amount_mantissa_bits false - zero)) f in
  if round_index =? 2 then fmul (u64 (2 ^ amount_mantissa_bits true - zero)) f
  else if round_index =? 1 then up
  else if round_index =? 0 then fsub (fadd up (Z.shiftr f 1)) (if 0 <? exponent then 1 else 0)
  else fadd up (if exponent =? 0 then 0 else fsub f 1).

(** ** Decoding *)

Definition tx_amount_decode_exponent (amount : Z) : Z := Z.land amount TX_AMOUNT_EXPONENT_MASK.

Definition tx_amount_decode (amount : Z) : Z :=
  let exponent := Z.land amount TX_AMOUNT_EXPONENT_MASK in
  let result := u64 (Z.shiftr amount TX_AMOUNT_EXPONENT_BITS + (if 0 <? exponent then 1 else 0)) in
  fmul result (amount_factors exponent).

(** ** Encoding *)

(** From the largest exponent down, until the amount is more than the largest for it. *)
Fixpoint find_exponent (n : nat) (amount round_index exponent min_exponent : Z) : Z :=
  match n with
  | O => exponent
  | S n =>
      if exponent <? min_exponent then exponent
      else if amount_maxs round_index exponent <? amount then exponent + 1
      else find_exponent n amount round_index (exponent - 1) min_exponent
  end.

(** "minimize mantissa" *)
Fixpoint minimize (n : nat) (mantissa exponent max_exponent : Z) : Z * Z :=
  match n with
  | O => (mantissa, exponent)
  | S n =>
      if exponent <? max_exponent then
        let div := mantissa / 10 in
        if u64 (div * 10) =? mantissa then minimize n div (exponent + 1) max_exponent
        else (mantissa, exponent)
      else (mantissa, exponent)
  end.

Definition NO_ENCODING : Z := UINT64_MAX.

(** [rounding] as in the comment above the tables; 3 (the default, [-1]) rounds down. *)
Definition tx_amount_encode (amount : Z) (is_donation : bool) (min_exponent max_exponent rounding : Z) : Z :=
  let min_exponent := if TX_AMOUNT_EXPONENT_MASK <? min_exponent then TX_AMOUNT_EXPONENT_MASK else min_exponent in
  let max_exponent := if TX_AMOUNT_EXPONENT_MASK <? max_exponent then TX_AMOUNT_EXPONENT_MASK else max_exponent in
  let max_exponent := if max_exponent <? min_exponent then min_exponent else max_exponent in
  let rounding := Z.land rounding 3 in
  let no_rounding := rounding =? 2 in
  let round_index := if is_donation then 2 else if rounding <? 2 then rounding else 3 in
  let amount_bits := if is_donation then TX_DONATION_BITS else TX_AMOUNT_BITS in
  if amount =? 0 then 0
  else
    let exponent := find_exponent 33 amount round_index max_exponent min_exponent in
    let below := exponent <? min_exponent in
    let too_large := amount_maxs round_index min_exponent <? amount in
    if below && too_large then (if no_rounding then NO_ENCODING else min_exponent)
    else
      let exponent := if below then min_exponent else exponent in
      if max_exponent <? exponent then
        if no_rounding || (is_donation && negb (rounding =? 3)) then NO_ENCODING
        else Z.lor (Z.shiftl (2 ^ (amount_bits - TX_AMOUNT_EXPONENT_BITS) - 1) TX_AMOUNT_EXPONENT_BITS) max_exponent
      else
        let f := amount_factors exponent in
        let mantissa := u64 (amount / f) in
        let rem := amount mod f in
        if negb (rem =? 0) && no_rounding then NO_ENCODING
        else
          let up :=
            negb (rem =? 0) && (is_donation || (rounding <=? 1))
            && (is_donation || (rounding =? 1)
                || (f <=? (if negb is_donation && (rounding =? 0) then u256 (2 * rem) else rem))) in
          let mantissa := if up then u64 (mantissa + 1) else mantissa in
          if mantissa =? 0 then (if no_rounding then NO_ENCODING else 0)
          else
            let '(mantissa, exponent) := minimize 32 mantissa exponent max_exponent in
            Z.lor (u64 (Z.shiftl (u64 (mantissa - (if 0 <? exponent then 1 else 0))) TX_AMOUNT_EXPONENT_BITS)) exponent.

Definition tx_amount_max (max_exponent : Z) : Z :=
  let max_exponent :=
    if (max_exponent =? 0) || (TX_AMOUNT_EXPONENT_MASK <? max_exponent) then TX_AMOUNT_EXPONENT_MASK else max_exponent in
  Z.lor (Z.shiftl (2 ^ amount_mantissa_bits false - 1) TX_AMOUNT_EXPONENT_BITS) max_exponent.

Definition tx_amount_max_value (max_exponent : Z) : Z := tx_amount_decode (tx_amount_max max_exponent).
End Field.

(** ** Properties *)

Section Encode.
Variable P : Z.
Hypothesis HP : 2 ^ 253 < P.

(** The largest amount that an exponent stands for, when rounding down. *)
Definition cap (e : Z) : Z := (2 ^ 35 + (if 0 <? e then 1 else 0)) * 10 ^ e - 1.

Lemma pow10_pos e : 0 <= e -> 1 <= 10 ^ e.
Proof. intros He. pose proof (Z.pow_pos_nonneg 10 e ltac:(lia) He). lia. Qed.

Lemma pow10_bound e : 0 <= e <= 31 -> 1 <= 10 ^ e <= 10 ^ 31.
Proof. intros He. split; [apply pow10_pos; lia | apply Z.pow_le_mono_r; lia]. Qed.

Lemma fmul_small x y : 0 <= x -> 0 <= y -> x * y < 2 ^ 253 -> fmul P x y = x * y.
Proof. intros Hx Hy H. unfold fmul. apply Z.mod_small. nia. Qed.

Lemma factors_pow e : 0 <= e <= 31 -> amount_factors P e = 10 ^ e.
Proof.
  intros He. unfold amount_factors. rewrite <- (Z2Nat.id e) at 2 by lia. assert (Hn : (Z.to_nat e <= 31)%nat) by lia. clear He.
  induction (Z.to_nat e) as [|n IH]; [reflexivity|]. cbn [factor_table]. rewrite IH by lia.
  pose proof (pow10_bound (Z.of_nat n) ltac:(lia)). assert (10 ^ 31 * 10 < 2 ^ 253) by reflexivity.
  rewrite fmul_small by lia. rewrite Nat2Z.inj_succ, Z.pow_succ_r by lia. reflexivity.
Qed.

Lemma maxs_cap e : 0 <= e <= 31 -> amount_maxs P 3 e = cap e.
Proof.
  intros He. pose proof (pow10_bound e He) as Hb. assert (H31 : (2 ^ 35 + 1) * 10 ^ 31 < 2 ^ 253) by reflexivity.
  unfold amount_maxs, cap. rewrite factors_pow by exact He. change (3 =? 2) with false. change (3 =? 1) with false. change (3 =? 0) with false. cbv iota zeta.
  change (amount_mantissa_bits false) with 35. unfold fadd, fsub.
  destruct (Z.eqb_spec e 0) as [->|Hne].
  - change (10 ^ 0) with 1. rewrite u64_small by lia. rewrite fmul_small by lia. change (0 <? 0) with false. rewrite Z.mod_small by lia. lia.
  - rewrite (proj2 (Z.ltb_lt 0 e)) by lia. rewrite u64_small by lia. rewrite fmul_small by nia.
    rewrite (Z.mod_small (10 ^ e - 1)) by lia. rewrite Z.mod_small by nia. lia.
Qed.

Lemma cap_mono e e' : 0 <= e <= e' -> cap e <= cap e'.
Proof.
  intros H. unfold cap. pose proof (Z.pow_le_mono_r 10 e e' ltac:(lia) ltac:(lia)) as Hp. pose proof (pow10_pos e ltac:(lia)).
  destruct (Z.ltb_spec 0 e), (Z.ltb_spec 0 e'); nia.
Qed.

Lemma find_exponent_spec n amount e mn :
  0 <= mn -> mn - 1 <= e <= 31 -> e - mn + 2 <= Z.of_nat n ->
  let r := find_exponent P n amount 3 e mn in
  mn - 1 <= r <= e + 1 /\ (r <= e -> mn <= e -> amount <= cap (Z.max r mn)) /\ (mn <= r -> mn - 1 <= r - 1 /\ (0 <= r - 1 -> cap (r - 1) < amount)).
Proof.
  intros Hmn. revert e. induction n as [|n IH]; intros e He Hn; [lia|]. cbn [find_exponent].
  destruct (Z.ltb_spec e mn) as [H1|H1]; [cbv zeta; lia|].
  rewrite maxs_cap by lia. destruct (Z.ltb_spec (cap e) amount) as [H2|H2].
  - cbv zeta. split; [lia|]. split; [lia|]. intros _. split; [lia|]. intros _. replace (e + 1 - 1) with e by lia. exact H2.
  - specialize (IH (e - 1) ltac:(lia) ltac:(lia)). cbv zeta in *. destruct IH as (A & B & C). split; [lia|]. split; [|exact C].
    intros Hr _. destruct (Z.eq_dec (find_exponent P n amount 3 (e - 1) mn) e) as [E|E].
    + rewrite E. rewrite Z.max_l by lia. exact H2.
    + destruct (Z.le_gt_cases mn (e - 1)) as [Hle|Hgt]; [apply B; lia|].
      replace (Z.max _ mn) with e by lia. exact H2.
Qed.

Lemma minimize_spec n m e mx : 1 <= m < 2 ^ 63 -> 0 <= e <= mx ->
  let '(m', e') := minimize n m e mx in m' * 10 ^ e' = m * 10 ^ e /\ 1 <= m' <= m /\ e <= e' <= mx.
Proof.
  revert m e. induction n as [|n IH]; intros m e Hm He; cbn [minimize]; [lia|].
  destruct (Z.ltb_spec e mx) as [H1|H1]; [|lia].
  pose proof (Z.mul_div_le m 10 ltac:(lia)) as Hd. pose proof (Z.div_pos m 10 ltac:(lia) ltac:(lia)) as Hd0.
  rewrite u64_small by lia. destruct (Z.eqb_spec (m / 10 * 10) m) as [E|E]; [|lia].
  specialize (IH (m / 10) (e + 1) ltac:(lia) ltac:(lia)). destruct (minimize n (m / 10) (e + 1) mx) as [m' e'].
  destruct IH as (A & B & C). split; [|lia]. rewrite A, Z.pow_add_r by lia. rewrite <- E at 2. lia.
Qed.

Lemma decode_code m e : 0 <= e <= 31 -> 0 <= m - (if 0 <? e then 1 else 0) -> m <= 2 ^ 35 ->
  tx_amount_decode P (Z.lor (Z.shiftl (m - (if 0 <? e then 1 else 0)) 5) e) = m * 10 ^ e.
Proof.
  intros He Hm Hm2. assert (H31 : 2 ^ 35 * 10 ^ 31 < 2 ^ 253) by reflexivity. pose proof (pow10_bound e He).
  rewrite lor_shiftl_add by (unfold in_word; lia). unfold tx_amount_decode.
  change TX_AMOUNT_EXPONENT_MASK with (2 ^ 5 - 1). change TX_AMOUNT_EXPONENT_BITS with 5. rewrite land_mask by lia.
  rewrite Z.shiftr_div_pow2 by lia. set (k := m - _) in *.
  assert (Hmod : (k * 2 ^ 5 + e) mod 2 ^ 5 = e) by (rewrite Z.add_comm, Z.mod_add, Z.mod_small by lia; reflexivity).
  assert (Hdiv : (k * 2 ^ 5 + e) / 2 ^ 5 = k) by (rewrite Z.add_comm, Z.div_add, Z.div_small by lia; reflexivity).
  rewrite Hmod, Hdiv. replace (k + (if 0 <? e then 1 else 0)) with m by (unfold k; lia).
  assert (0 <= m) by (unfold k in Hm; destruct (0 <? e); lia).
  rewrite u64_small by lia. rewrite factors_pow by exact He. apply fmul_small; nia.
Qed.

Lemma cap_div e x : 0 <= e -> 0 <= x <= cap e -> x / 10 ^ e <= 2 ^ 35 + (if 0 <? e then 1 else 0) - 1.
Proof.
  intros He Hx. pose proof (pow10_pos e He). unfold cap in Hx.
  assert (x / 10 ^ e < 2 ^ 35 + (if 0 <? e then 1 else 0)); [|lia]. apply Z.div_lt_upper_bound; lia.
Qed.

(** Rounding down: the multiple of the power of ten that was chosen. *)
Lemma encode_down_value x mn mx : 0 < x < 2 ^ 255 -> 0 <= mn <= mx -> mx <= 31 ->
  exists e, mn <= e <= mx /\ (e = mn \/ cap (e - 1) < x) /\
  tx_amount_decode P (tx_amount_encode P x false mn mx 3) =
    if x <=? cap mx then x / 10 ^ e * 10 ^ e else (2 ^ 35 - 1 + (if 0 <? mx then 1 else 0)) * 10 ^ mx.
Proof.
  intros Hx Hmn Hmx. unfold tx_amount_encode. change TX_AMOUNT_EXPONENT_MASK with 31. change (Z.land 3 3) with 3.
  rewrite (proj2 (Z.ltb_ge 31 mn)), (proj2 (Z.ltb_ge 31 mx)), (proj2 (Z.ltb_ge mx mn)) by lia. cbv zeta.
  change (3 =? 2) with false. change (3 <? 2) with false. change (3 <=? 1) with false. change (3 =? 1) with false. cbv iota.
  rewrite (proj2 (Z.eqb_neq x 0)) by lia.
  pose proof (find_exponent_spec 33 x mx mn ltac:(lia) ltac:(lia) ltac:(lia)) as Hf. cbv zeta in Hf.
  set (r := find_exponent P 33 x 3 mx mn) in *. destruct Hf as (Hr & Hle & Hgt). rewrite maxs_cap by lia.
  set (e := if r <? mn then mn else r).
  assert (He : e = Z.max r mn) by (unfold e; destruct (Z.ltb_spec r mn); lia).
  assert (Hbelow : (r <? mn) && (cap mn <? x) = false).
  { destruct (Z.ltb_spec r mn); [|reflexivity]. cbn [andb]. apply Z.ltb_ge. specialize (Hle ltac:(lia) ltac:(lia)).
    replace (Z.max r mn) with mn in Hle by lia. exact Hle. }
  rewrite Hbelow. cbn [andb orb negb]. rewrite andb_false_r. cbn [orb].
  destruct (Z.ltb_spec mx e) as [Hbig|Hsmall].
  - exists mx. assert (Hcap : cap mx < x) by (destruct (Hgt ltac:(lia)) as [_ Hc]; replace (r - 1) with mx in Hc by lia; apply Hc; lia).
    split; [lia|]. split.
    { destruct (Z.eq_dec mx mn); [left; assumption|]. right. pose proof (cap_mono (mx - 1) mx ltac:(lia)). lia. }
    rewrite (proj2 (Z.leb_gt _ _)) by exact Hcap. change (TX_AMOUNT_BITS - TX_AMOUNT_EXPONENT_BITS) with 35. change TX_AMOUNT_EXPONENT_BITS with 5.
    rewrite <- decode_code by (destruct (Z.ltb_spec 0 mx); lia). do 3 f_equal. lia.
  - exists e. assert (Hxe : x <= cap e) by (rewrite He; apply Hle; lia). split; [lia|]. split.
    { destruct (Z.ltb_spec r mn); [left; reflexivity|]. destruct (Z.eq_dec mn r); [left; unfold e; lia|].
      right. unfold e. apply (Hgt ltac:(lia)). lia. }
    rewrite (proj2 (Z.leb_le x (cap mx))) by (pose proof (cap_mono e mx ltac:(lia)); lia).
    rewrite factors_pow by lia. pose proof (pow10_pos e ltac:(lia)) as Hp. pose proof (cap_div e x ltac:(lia) ltac:(lia)) as Hd.
    pose proof (Z.div_pos x (10 ^ e) ltac:(lia) ltac:(lia)) as Hd0.
    cbn [andb]. rewrite ?andb_false_r. cbn [andb]. rewrite (u64_small (x / 10 ^ e)) by (destruct (0 <? e); lia).
    destruct (Z.eqb_spec (x / 10 ^ e) 0) as [Hz|Hnz]; [rewrite Hz; reflexivity|].
    pose proof (minimize_spec 32 (x / 10 ^ e) e mx ltac:(destruct (0 <? e); lia) ltac:(lia)) as Hm.
    destruct (minimize 32 (x / 10 ^ e) e mx) as [m' e']. destruct Hm as (A & B & C).
    assert (Hm' : 0 <= m' - (if 0 <? e' then 1 else 0) /\ m' <= 2 ^ 35) by (revert Hd; destruct (Z.ltb_spec 0 e), (Z.ltb_spec 0 e'); lia).
    rewrite (u64_small (m' - _)) by (destruct (0 <? e'); lia). change TX_AMOUNT_EXPONENT_BITS with 5. rewrite (u64_small (Z.shiftl _ _)) by (rewrite Z.shiftl_mul_pow2 by lia; destruct (0 <? e'); lia).
    rewrite decode_code by lia. exact A.
Qed.

(** With one exponent for all amounts the encoding is exact up to the unit, or it is the
    largest amount. *)
Lemma encode_single x k : 0 < x < 2 ^ 255 -> 0 < k <= 31 ->
  tx_amount_decode P (tx_amount_encode P x false k k 3) = Z.min (x / 10 ^ k) (2 ^ 35) * 10 ^ k.
Proof.
  intros Hx Hk. destruct (encode_down_value x k k Hx ltac:(lia) ltac:(lia)) as (e & He & _ & ->).
  replace e with k by lia. rewrite (proj2 (Z.ltb_lt 0 k)) by lia. pose proof (pow10_pos k ltac:(lia)).
  destruct (Z.leb_spec x (cap k)) as [H1|H1].
  - pose proof (cap_div k x ltac:(lia) ltac:(lia)) as Hd. rewrite (proj2 (Z.ltb_lt 0 k)) in Hd by lia. rewrite Z.min_l by lia. reflexivity.
  - assert (2 ^ 35 + 1 <= x / 10 ^ k).
    { apply Z.div_le_lower_bound; [lia|]. unfold cap in H1. rewrite (proj2 (Z.ltb_lt 0 k)) in H1 by lia. lia. }
    rewrite Z.min_r by lia. reflexivity.
Qed.

Lemma encode_down_bounds x mn mx : 0 < x < 2 ^ 255 -> 0 <= mn <= mx -> mx <= 31 ->
  let d := tx_amount_decode P (tx_amount_encode P x false mn mx 3) in
  0 <= d <= x /\ (d = 0 <-> x < 10 ^ mn)
  /\ (x <= cap mx -> x - d < 10 ^ mn \/ (x - d) * 2 ^ 35 < 10 * x).
Proof.
  intros Hx Hmn Hmx. cbv zeta. destruct (encode_down_value x mn mx Hx Hmn Hmx) as (e & He & Hc & ->).
  pose proof (pow10_pos e ltac:(lia)) as Hp. pose proof (pow10_pos mx ltac:(lia)) as Hpx.
  pose proof (Z.pow_le_mono_r 10 mn e ltac:(lia) ltac:(lia)) as Hme. pose proof (pow10_pos mn ltac:(lia)).
  destruct (Z.leb_spec x (cap mx)) as [H1|H1].
  - pose proof (Z.mul_div_le x (10 ^ e) ltac:(lia)) as Hd. pose proof (Z.mul_succ_div_gt x (10 ^ e) ltac:(lia)) as Hd2.
    pose proof (Z.div_pos x (10 ^ e) ltac:(lia) ltac:(lia)) as Hd0.
    assert (Hbig : e = mn \/ (mn < e /\ 2 ^ 35 * 10 ^ e <= 10 * x)).
    { destruct Hc as [Hc|Hc]; [left; exact Hc|]. destruct (Z.eq_dec e mn); [left; assumption|right]. split; [lia|].
      unfold cap in Hc. replace e with (1 + (e - 1)) at 1 by lia. rewrite Z.pow_add_r by lia. change (10 ^ 1) with 10.
      pose proof (pow10_pos (e - 1) ltac:(lia)). destruct (0 <? e - 1); lia. }
    split; [lia|]. split.
    + split; [intros Hz; assert (x / 10 ^ e = 0) as E by nia; rewrite E in Hd2; destruct Hbig as [->|[_ Hb]]; [lia|]; exfalso; nia|].
      intros Hlt. rewrite Z.div_small by lia. reflexivity.
    + intros _. destruct Hbig as [->|[_ Hb]]; [left; lia|right]. nia.
  - assert (Hcap : (2 ^ 35 - 1 + (if 0 <? mx then 1 else 0)) * 10 ^ mx <= x) by (unfold cap in H1; destruct (0 <? mx); lia).
    pose proof (Z.pow_le_mono_r 10 mn mx ltac:(lia) ltac:(lia)).
    assert (2 ^ 34 * 10 ^ mx <= (2 ^ 35 - 1 + (if 0 <? mx then 1 else 0)) * 10 ^ mx) by (apply Z.mul_le_mono_nonneg_r; [lia|]; destruct (0 <? mx); lia).
    split; [lia|]. split; [split; lia | lia].
Qed.
(** Above the largest amount of the largest exponent the encoding is that amount. *)
Lemma encode_down_max x mn mx : cap mx < x < 2 ^ 255 -> 0 <= mn <= mx -> mx <= 31 ->
  tx_amount_decode P (tx_amount_encode P x false mn mx 3) = (2 ^ 35 - 1 + (if 0 <? mx then 1 else 0)) * 10 ^ mx.
Proof.
  intros Hx Hmn Hmx. pose proof (pow10_pos mx ltac:(lia)). assert (0 <= cap mx) by (unfold cap; destruct (0 <? mx); lia).
  destruct (encode_down_value x mn mx ltac:(lia) Hmn Hmx) as (e & _ & _ & ->). rewrite (proj2 (Z.leb_gt _ _)) by lia. reflexivity.
Qed.

(** The exponents are limited to what the code has bits for. *)
Lemma encode_clamp x mn mx r : 0 <= mn -> 0 <= mx ->
  tx_amount_encode P x false mn mx r = tx_amount_encode P x false (Z.min 31 mn) (Z.max (Z.min 31 mn) (Z.min 31 mx)) r.
Proof.
  intros Hmn Hmx. unfold tx_amount_encode. change TX_AMOUNT_EXPONENT_MASK with 31. cbv zeta.
  assert (E1 : (if 31 <? mn then 31 else mn) = Z.min 31 mn) by (destruct (Z.ltb_spec 31 mn); lia).
  assert (E2 : (if 31 <? mx then 31 else mx) = Z.min 31 mx) by (destruct (Z.ltb_spec 31 mx); lia).
  rewrite E1, E2. rewrite (proj2 (Z.ltb_ge 31 (Z.min 31 mn))), (proj2 (Z.ltb_ge 31 (Z.max _ _))) by lia.
  rewrite (proj2 (Z.ltb_ge (Z.max _ _) (Z.min 31 mn))) by lia.
  assert ((if Z.min 31 mx <? Z.min 31 mn then Z.min 31 mn else Z.min 31 mx) = Z.max (Z.min 31 mn) (Z.min 31 mx)) as ->
    by (destruct (Z.ltb_spec (Z.min 31 mx) (Z.min 31 mn)); lia).
  reflexivity.
Qed.

(** Rounding down never gives more than the amount, gives nothing only for an amount below
    one unit of the smallest exponent, and loses less than one such unit or ten parts
    in 2^35 of an amount that is not too large. *)
Theorem encode_rounds_down x mn mx : 0 < x < 2 ^ 255 -> 0 <= mn <= mx -> mx <= 31 ->
  let d := tx_amount_decode P (tx_amount_encode P x false mn mx 3) in
  0 <= d <= x /\ (d = 0 <-> x < 10 ^ mn)
  /\ (x <= cap mx -> x - d < 10 ^ mn \/ (x - d) * 2 ^ 35 < 10 * x).
Proof. apply encode_down_bounds. Qed.
End Encode.

Lemma encode_rounds_down_witness :
  let P := 2 ^ 254 - 127 in
  let d := tx_amount_decode P (tx_amount_encode P 1234567890123456789 false 3 20 3) in
  0 <= d <= 1234567890123456789 /\ d <> 0 /\ 1234567890123456789 - d < 10 ^ 9.
Proof.
  cbv zeta. destruct (encode_rounds_down (2 ^ 254 - 127) ltac:(vm_compute; reflexivity) 1234567890123456789 3 20) as (A & B & C).
  - split; vm_compute; reflexivity.
  - split; vm_compute; discriminate.
  - vm_compute. discriminate.
  - split; [exact A|]. split; [vm_compute; discriminate | vm_compute; reflexivity].
Defined.
