(* ===== verification/TxWire.v ===== *)
(** * The wire format of transactions (src/source/cclib/src/transaction.cpp, CCutil.cpp)

    Writing a transaction as a binary message ([txpay_to_wire]) and reading one
    ([tx_from_wire]), with every field that goes on the wire or is set from it.  Both are
    computations over a position in a buffer: they may return early with an error code,
    and an access outside the buffers is [BadAccess].  The fields of the spend secrets,
    which never go on the wire, are not kept. *)
From S2P Require Import Prelude Objects Txs ValidObjs TxAmount Announce.
From coqutil Require Import Datatypes.RecordSetters.
Import DoubleBraceUpdate.

Local Open Scope Z_scope.
Local Open Scope cc_scope.

(** ** Computations over a buffer

    The state is threaded; [inl rc] is an early return with a code. *)

Definition wired (S A : Type) : Type := S -> outcome (Z + A * S).

#[export] Instance wired_ret S : MRet (wired S) := fun A a s => Ret (inr (a, s)).
#[export] Instance wired_bind S : MBind (wired S) := fun A B f m s =>
  match m s with
  | Ret (inr (a, s)) => f a s
  | Ret (inl rc) => Ret (inl rc)
  | Throw e => Throw e
  end.
Definition wreturn {S A} (rc : Z) : wired S A := fun _ => Ret (inl rc).
Definition wthrow {S A} (e : exn) : wired S A := fun _ => Throw e.
Definition wassert {S} (b : bool) : wired S unit := if b then mret tt else wthrow AssertFail.
(** [if (b) return -1] *)
Definition wcheck {S} (b : bool) : wired S unit := if b then wreturn (-1) else mret tt.

(** ** Constants of CCparams.h and transaction.hpp *)

Definition TX_ADDRESS_BYTES : Z := 16.
Definition TX_DOMAIN_BYTES : Z := 3.
Definition TX_ASSET_WIRE_BYTES : Z := 4.
Definition TX_ASSET_WIRE_MASK : Z := 2 ^ 32 - 1.
Definition TX_AMOUNT_BYTES : Z := 5.
Definition TX_DONATION_BYTES : Z := 2.
Definition TX_COMMITMENT_BYTES : Z := 32.
Definition TX_COMMITNUM_BYTES : Z := 6.
Definition TX_MERKLE_BYTES : Z := 32.
Definition TX_HASHKEY_WIRE_BITS : Z := 128.
Definition TX_MAXOUT : Z := 10.
Definition TX_MAXINPATH : Z := 8.
Definition TX_MAX_APPEND : Z := 512.
Definition TX_MINT_NOUT : Z := 1.
Definition TX_MINT_ZKKEY_ID : Z := 0.
Definition TX_CC_MINT_EXPONENT : Z := 22.
Definition TX_CC_MINT_AMOUNT : Z := 10 ^ 30.
(** [ZKPROOF_VALS] values of 32 bytes. *)
Definition zkproof_size : Z := 9 * 32.

(** ** Data *)

Record TxOut := mkTxOut {
  dest_chain : Z;
  no_address : bool;
  M_address : Z;
  acceptance_required : Z;
  repeat_count : Z;
  out_M_domain : Z;
  no_asset : bool;
  asset_mask : Z;
  M_asset_enc : Z;
  no_amount : bool;
  amount_mask : Z;
  M_amount_enc : Z;
  M_commitment : Z
}.

Record TxIn := mkTxIn {
  enforce_master_secret : Z;
  enforce_spend_secrets : Z;
  enforce_trust_secrets : Z;
  enforce_freeze : Z;
  enforce_unfreeze : Z;
  merkle_root : Z;
  invalmax : Z;
  delaytime : Z;
  in_M_domain : Z;
  in_amount_fp : Z;
  in_M_commitment : Z;
  in_M_commitnum : Z;
  no_serialnum : bool;
  S_serialnum : Z;
  S_hashkey : Z;
  S_spendspec_hashed : Z;
  pathnum : Z
}.

(** [zkproof] and [append_data] are arrays of bytes, [outputs] and [inputs] of structures. *)
Record TxPay := mkTxPay {
  default_domain__ : Z;
  dest_chain__ : Z;
  acceptance_required__ : Z;
  invalmax__ : Z;
  delaytime__ : Z;
  wire_tag : Z;
  tag_type : Z;
  zkkeyid : Z;
  zkproof : list Z;
  amount_carry_out : Z;
  append_wire_offset : Z;
  append_data_length : Z;
  append_data : list Z;
  tx_type : Z;
  source_chain : Z;
  param_level : Z;
  param_time : Z;
  revision : Z;
  expiration : Z;
  refhash : Z;
  reserved : Z;
  donation_fp : Z;
  outvalmin : Z;
  outvalmax : Z;
  have_allow_restricted_addresses__ : bool;
  allow_restricted_addresses : bool;
  tx_merkle_root : Z;
  override_commitment_iv__ : bool;
  M_commitment_iv : Z;
  nout : Z;
  nin : Z;
  nin_with_path : Z;
  outputs : list TxOut;
  inputs : list TxIn
}.

Definition zero_out : TxOut := mkTxOut 0 false 0 0 0 0 false 0 0 false 0 0 0.
Definition zero_in : TxIn := mkTxIn 0 0 0 0 0 0 0 0 0 0 0 0 false 0 0 0 0.

(** A cleared structure. *)
Definition tx_init : TxPay :=
  mkTxPay 0 0 0 0 0 0 0 0 (replicate (Z.to_nat zkproof_size) 0) 0 0 0 (replicate (Z.to_nat TX_MAX_APPEND) 0)
    0 0 0 0 0 0 0 0 0 0 0 false false 0 false 0 0 0 0
    (replicate (Z.to_nat TX_MAXOUT) zero_out) (replicate (Z.to_nat TX_MAXIN) zero_in).

(** [tx.outputs[i]], [tx.inputs[i]]; the callers keep [i] within the arrays. *)
Definition output (tx : TxPay) (i : nat) : TxOut := nth i (outputs tx) zero_out.
Definition input (tx : TxPay) (i : nat) : TxIn := nth i (inputs tx) zero_in.

(** ** Reading *)

(** [copy_from_bufl]: the destination of [datasize] bytes gets [nbytes] bytes and zeros, or
    only zeros when the buffer ends first. *)
Definition copy_from_bufl (datasize nbytes : Z) (buf : list Z) (bufsize : Z) : wired Z (list Z) := fun bufpos =>
  let pos := bufpos in
  let bufpos := u32 (bufpos + nbytes) in
  if bufpos <=? bufsize then
    if (datasize <? nbytes) || (Z.of_nat (length buf) <? pos + nbytes) then Throw BadAccess
    else Ret (inr (take (Z.to_nat nbytes) (drop (Z.to_nat pos) buf) ++ replicate (Z.to_nat (datasize - nbytes)) 0, bufpos))
  else Ret (inr (replicate (Z.to_nat datasize) 0, bufpos)).

Section reading.
(** The modulus of the field, of the third-party library (TxAmount.v). *)
Context (P : Z).
Context (binbuf : list Z) (binsize : Z).

#[local] Abbreviation rd := (wired Z).

(** An integer of [datasize] bytes. *)
Definition copy_from_buf (datasize nbytes : Z) : rd Z :=
  b ← copy_from_bufl datasize nbytes binbuf binsize; mret (le_val b).

Definition txpay_output_from_wire (tx : TxPay) (txout : TxOut) : rd TxOut :=
  let txout := txout{{dest_chain := dest_chain__ tx}} in
  txout ← (if negb (no_address txout) then
             x ← copy_from_buf 32 TX_ADDRESS_BYTES; mret (txout{{M_address := x}})
           else mret txout);
  let txout := txout{{acceptance_required := acceptance_required__ tx}} in
  txout ← (if wire_tag tx =? CC_TAG_TX_XDOMAIN then
             x ← copy_from_buf 4 TX_DOMAIN_BYTES; mret (txout{{out_M_domain := x}})
           else mret (txout{{out_M_domain := default_domain__ tx}}));
  txout ← (if negb (tag_type tx =? CC_TYPE_MINT) then
             let txout := txout{{asset_mask := TX_ASSET_WIRE_MASK; amount_mask := TX_AMOUNT_MASK}} in
             x ← copy_from_buf 8 TX_ASSET_WIRE_BYTES; mret (txout{{M_asset_enc := x}})
           else mret txout);
  x ← copy_from_buf 8 TX_AMOUNT_BYTES;
  let txout := txout{{M_amount_enc := x}} in
  x ← copy_from_buf 32 TX_COMMITMENT_BYTES;
  mret (txout{{M_commitment := x}}).

Definition txpay_input_from_wire (tx : TxPay) (txin : TxIn) : rd TxIn :=
  let txin := txin{{enforce_trust_secrets := 1; merkle_root := tx_merkle_root tx; invalmax := invalmax__ tx;
                    delaytime := delaytime__ tx}} in
  txin ← (if wire_tag tx =? CC_TAG_TX_XDOMAIN then
            x ← copy_from_buf 4 TX_DOMAIN_BYTES; mret (txin{{in_M_domain := x}})
          else mret (txin{{in_M_domain := default_domain__ tx}}));
  txin ← (if pathnum txin =? 0 then
            x ← copy_from_buf 32 TX_COMMITMENT_BYTES;
            let txin := txin{{in_M_commitment := x}} in
            if negb (no_serialnum txin) then
              x ← copy_from_buf 8 TX_COMMITNUM_BYTES; mret (txin{{in_M_commitnum := x}})
            else mret txin
          else mret txin);
  txin ← (if negb (no_serialnum txin) then
            x ← copy_from_buf 32 TX_SERIALNUM_BYTES; mret (txin{{S_serialnum := x}})
          else mret txin);
  x ← copy_from_buf 32 TX_HASHKEY_WIRE_BYTES;
  mret (txin{{S_hashkey := x}}).

(** The input of a mint, without its secrets. *)
Definition set_mint_inputs (tx : TxPay) : Z + TxPay :=
  if negb (tag_type tx =? CC_TYPE_MINT) then inl (-1)
  else if negb (nin tx =? 0) then inl (-1)
  else
    let txin := input tx 0 in
    let txin := txin{{invalmax := TX_CC_MINT_EXPONENT;
                      in_amount_fp := tx_amount_encode P TX_CC_MINT_AMOUNT false TX_CC_MINT_EXPONENT TX_CC_MINT_EXPONENT (-1);
                      in_M_commitment := 973184326264892349829845330310452310635714594783699009126090380917429859595;
                      merkle_root := tx_merkle_root tx;
                      enforce_trust_secrets := 1;
                      no_serialnum := true}} in
    inr (tx{{nin := 1; inputs := <[0%nat := txin]> (inputs tx)}}).

(** The types of transactions with outputs and inputs on the wire, mints apart. *)
Definition pays_on_wire (type : Z) : bool :=
  (type =? CC_TYPE_TXPAY) || (type =? CC_TYPE_XCX_SIMPLE_BUY) || (type =? CC_TYPE_XCX_SIMPLE_SELL)
  || (type =? CC_TYPE_XCX_MINING_TRADE) || (type =? CC_TYPE_XCX_NAKED_BUY) || (type =? CC_TYPE_XCX_NAKED_SELL).

(** The loops over the outputs and the inputs, [i] of [n] still to do. *)
Fixpoint outputs_from_wire (n : nat) (i : nat) (tx : TxPay) : rd TxPay :=
  match n with
  | O => mret tx
  | S n =>
      txout ← txpay_output_from_wire tx (output tx i);
      let tx := tx{{outputs := <[i := txout]> (outputs tx)}} in
      let tx := if no_address txout && negb (have_allow_restricted_addresses__ tx)
                then tx{{allow_restricted_addresses := false}} else tx in
      outputs_from_wire n (S i) tx
  end.

Fixpoint inputs_from_wire (n : nat) (i : nat) (tx : TxPay) : rd TxPay :=
  match n with
  | O => mret tx
  | S n =>
      let txin := input tx i in
      let txin := if Z.of_nat i <? nin_with_path tx then txin{{pathnum := u16 (Z.of_nat i + 1)}} else txin in
      txin ← txpay_input_from_wire tx txin;
      inputs_from_wire n (S i) (tx{{inputs := <[i := txin]> (inputs tx)}})
  end.

(** The body up to the outputs. *)
Definition txpay_head_from_wire (tx : TxPay) : rd TxPay :=
  x ← copy_from_buf 8 TX_BLOCKLEVEL_BYTES;
  let tx := tx{{param_level := x}} in
  p ← copy_from_bufl zkproof_size (zkproof_size - 1) binbuf binsize;
  let tx := tx{{zkproof := p}} in
  tx ← (if tag_type tx =? CC_TYPE_MINT then mret (tx{{zkkeyid := TX_MINT_ZKKEY_ID}})
        else x ← copy_from_buf 2 1; mret (tx{{zkkeyid := x}}));
  x ← copy_from_buf 8 TX_DONATION_BYTES;
  let tx := tx{{donation_fp := x}} in
  if pays_on_wire (tag_type tx) then
    nadj ← copy_from_buf 1 1;
    let tx := tx{{nout := Z.shiftr nadj 4 + 1; nin_with_path := Z.land nadj 15 + 1}} in
    mret (tx{{nin := nin_with_path tx}})
  else if tag_type tx =? CC_TYPE_MINT then mret (tx{{nout := TX_MINT_NOUT}})
  else wreturn (-1).

(** Its outputs and inputs. *)
Definition txpay_payload_from_wire (tx : TxPay) : rd TxPay :=
  let tx := if negb (nout tx =? 0) && negb (have_allow_restricted_addresses__ tx)
            then tx{{allow_restricted_addresses := true}} else tx in
  tx ← outputs_from_wire (Z.to_nat (nout tx)) 0 tx;
  tx ← inputs_from_wire (Z.to_nat (nin tx)) 0 tx;
  if tag_type tx =? CC_TYPE_MINT then
    match set_mint_inputs tx with inl rc => wreturn rc | inr tx => mret tx end
  else mret tx.

Definition txpay_body_from_wire (tx : TxPay) : rd TxPay :=
  tx ← txpay_head_from_wire tx;
  wcheck (TX_MAXOUT <? nout tx);;
  wcheck (TX_MAXIN <? nin tx);;
  wcheck (TX_MAXINPATH <? nin_with_path tx);;
  txpay_payload_from_wire tx.

(** What is done with the data after the body: [nappend] wraps around when the body went
    past the size that the message claims. *)
Definition append_from_wire `{Hashes} (wiresize : Z) (tx : TxPay) : rd TxPay := fun bufpos =>
  let nappend := u32 (wiresize - bufpos) in
  if nappend =? 0 then Ret (inr (tx, bufpos))
  else
    (wcheck (negb (TypeIsXtx (tag_type tx)));;
     let tx := tx{{append_wire_offset := bufpos; append_data_length := nappend}} in
     d ← copy_from_bufl TX_MAX_APPEND nappend binbuf binsize;
     let tx := tx{{append_data := d}} in
     mret (if (refhash tx =? 0) && negb (append_data_length tx =? 0)
           then tx{{refhash := le_val (blake2s 32 [] (take (Z.to_nat (append_data_length tx)) (append_data tx)))}}
           else tx)) bufpos.

Definition move_pos (n : Z) : rd unit := fun bufpos => Ret (inr (tt, u32 (bufpos + n))).
Definition get_pos : rd Z := fun bufpos => Ret (inr (bufpos, bufpos)).

Definition tx_add_from_wire `{Hashes} (tx : TxPay) : rd TxPay :=
  wiresize ← copy_from_buf 4 4;
  wcheck (binsize <? wiresize);;
  tag ← copy_from_buf 4 4;
  let tx := tx{{wire_tag := tag; tag_type := TagType tag}} in
  wcheck ((tag_type tx =? 0) || (tag_type tx =? CC_TYPE_BLOCK) || (tag_type tx =? CC_TYPE_VOID));;
  let tx := tx{{tx_type := tag_type tx}} in
  pos ← get_pos;
  wassert (pos =? CC_MSG_HEADER_SIZE);;
  (if HasPOW (wire_tag tx) then move_pos TX_POW_SIZE else mret tt);;
  let tx := tx{{wire_tag := WireTag (wire_tag tx)}} in
  tx ← (if negb (TypeHasBareMsg (tag_type tx)) then txpay_body_from_wire tx else mret tx);
  tx ← append_from_wire wiresize tx;
  pos ← get_pos;
  if binsize <? pos then wreturn 1 else mret tx.
End reading.

(** The code, or the transaction. *)
Definition tx_from_wire `{Hashes} (P : Z) (binbuf : list Z) (binsize : Z) : outcome (Z + TxPay) :=
  match tx_add_from_wire P binbuf binsize tx_init 0 with
  | Throw e => Throw e
  | Ret (inl rc) => Ret (inl rc)
  | Ret (inr (tx, _)) => Ret (inr tx)
  end.

(** ** Writing

    The state is the position and the contents of the buffer. *)

Section writing.
Context (err_check : Z) (binsize : Z).

#[local] Abbreviation wr := (wired (Z * list Z)).

Definition copy_to_bufp (data : list Z) : wr unit := fun s => Ret (inr (tt, copy_to_buf data s.1 s.2 binsize)).
Definition copy_to_buf_int (nbytes : Z) (x : Z) : wr unit := copy_to_bufp (le_bytes (Z.to_nat nbytes) x).

(** [if (b && err_check) return error_invalid_binary_tx_value(..)] *)
Definition invalid_if (b : bool) : wr unit := wcheck (b && negb (err_check =? 0)).
(** [error_invalid_tx_type]. *)
Definition invalid_tx_type {A} : wr A := wreturn (-1).

Definition txpay_output_to_wire (tx : TxPay) (txout : TxOut) : wr unit :=
  invalid_if (no_address txout);;
  invalid_if (negb (dest_chain txout =? dest_chain (output tx 0)));;
  (if negb (no_address txout) then copy_to_buf_int TX_ADDRESS_BYTES (M_address txout) else mret tt);;
  invalid_if (negb (acceptance_required txout =? acceptance_required (output tx 0)));;
  wcheck (negb (acceptance_required txout =? 0) && (1 <? err_check));;
  invalid_if (negb (repeat_count txout =? 0));;
  (if wire_tag tx =? CC_TAG_TX_XDOMAIN then copy_to_buf_int TX_DOMAIN_BYTES (out_M_domain txout)
   else wassert (out_M_domain txout =? default_domain__ tx));;
  invalid_if (no_asset txout);;
  invalid_if (no_amount txout);;
  (if tag_type tx =? CC_TYPE_MINT then
     invalid_if (negb (asset_mask txout =? 0));;
     invalid_if (negb (amount_mask txout =? 0));;
     invalid_if (negb (M_asset_enc txout =? 0))
   else if pays_on_wire (tag_type tx) then
     invalid_if (negb (asset_mask txout =? TX_ASSET_WIRE_MASK));;
     invalid_if (negb (amount_mask txout =? TX_AMOUNT_MASK));;
     invalid_if (negb (Z.land (M_asset_enc txout) (Z.lxor UINT64_MAX TX_ASSET_WIRE_MASK) =? 0));;
     copy_to_buf_int TX_ASSET_WIRE_BYTES (M_asset_enc txout)
   else invalid_tx_type);;
  invalid_if (negb (Z.land (M_amount_enc txout) (Z.lxor UINT64_MAX TX_AMOUNT_MASK) =? 0));;
  copy_to_buf_int TX_AMOUNT_BYTES (M_amount_enc txout);;
  copy_to_buf_int TX_COMMITMENT_BYTES (M_commitment txout).

Definition txpay_input_to_wire (tx : TxPay) (txin : TxIn) : wr unit :=
  invalid_if (negb (enforce_master_secret txin =? 0));;
  invalid_if (negb (enforce_spend_secrets txin =? 0));;
  invalid_if (negb (enforce_trust_secrets txin =? 1));;
  invalid_if (negb (enforce_freeze txin =? 0));;
  invalid_if (negb (enforce_unfreeze txin =? 0));;
  invalid_if (negb (merkle_root txin =? merkle_root (input tx 0)));;
  invalid_if (negb (invalmax txin =? invalmax (input tx 0)));;
  invalid_if (negb (delaytime txin =? delaytime (input tx 0)));;
  wcheck (negb (delaytime txin =? 0) && (1 <? err_check));;
  (if wire_tag tx =? CC_TAG_TX_XDOMAIN then copy_to_buf_int TX_DOMAIN_BYTES (in_M_domain txin)
   else wassert (in_M_domain txin =? default_domain__ tx));;
  invalid_if (no_serialnum txin);;
  invalid_if (negb (S_spendspec_hashed txin =? 0));;
  (if pathnum txin =? 0 then
     copy_to_buf_int TX_COMMITMENT_BYTES (in_M_commitment txin);;
     (if negb (no_serialnum txin) then copy_to_buf_int TX_COMMITNUM_BYTES (in_M_commitnum txin) else mret tt)
   else mret tt);;
  (if negb (no_serialnum txin) then copy_to_buf_int TX_SERIALNUM_BYTES (S_serialnum txin) else mret tt);;
  let bigval := Z.land (S_hashkey txin) (2 ^ TX_HASHKEY_WIRE_BITS - 1) in
  invalid_if (negb (bigval =? S_hashkey txin));;
  copy_to_buf_int TX_HASHKEY_WIRE_BYTES (S_hashkey txin).

Fixpoint outputs_to_wire (tx : TxPay) (l : list TxOut) : wr unit :=
  match l with
  | [] => mret tt
  | txout :: l => txpay_output_to_wire tx txout;; outputs_to_wire tx l
  end.

(** The inputs with a path, or those without; their number. *)
Fixpoint inputs_to_wire (tx : TxPay) (with_path : bool) (l : list TxIn) (count : Z) : wr Z :=
  match l with
  | [] => mret count
  | txin :: l =>
      if Bool.eqb (pathnum txin =? 0) with_path then inputs_to_wire tx with_path l count
      else txpay_input_to_wire tx txin;; inputs_to_wire tx with_path l (count + 1)
  end.

Definition live_outputs (tx : TxPay) : list TxOut := take (Z.to_nat (nout tx)) (outputs tx).
Definition live_inputs (tx : TxPay) : list TxIn := take (Z.to_nat (nin tx)) (inputs tx).

Definition txpay_body_to_wire (tx : TxPay) : wr unit :=
  copy_to_buf_int TX_BLOCKLEVEL_BYTES (param_level tx);;
  copy_to_bufp (take (Z.to_nat (zkproof_size - 1)) (zkproof tx));;
  (if negb (tag_type tx =? CC_TYPE_MINT) then copy_to_buf_int 1 (zkkeyid tx)
   else invalid_if (negb (zkkeyid tx =? TX_MINT_ZKKEY_ID)));;
  copy_to_buf_int TX_DONATION_BYTES (donation_fp tx);;
  wassert (nin_with_path tx <=? nin tx);;
  let nin_without_path := nin tx - nin_with_path tx in
  (if pays_on_wire (tag_type tx) then
     invalid_if (nout tx =? 0);;
     invalid_if (nin tx =? 0);;
     invalid_if (negb (nin_without_path =? 0));;
     wassert (0 <? nout tx);;
     wassert (0 <? nin_with_path tx);;
     wassert (nin_without_path =? 0);;
     wassert (nout tx <=? 16);;
     wassert (nin_with_path tx <=? 16);;
     copy_to_buf_int 1 (u8 (Z.lor (Z.shiftl (nout tx - 1) 4) (nin_with_path tx - 1)))
   else if tag_type tx =? CC_TYPE_MINT then
     invalid_if (negb (nout tx =? TX_MINT_NOUT));;
     invalid_if (negb (nin tx =? 1))
   else invalid_tx_type);;
  outputs_to_wire tx (live_outputs tx);;
  if negb (tag_type tx =? CC_TYPE_MINT) then
    count ← inputs_to_wire tx true (live_inputs tx) 0;
    wassert (count =? nin_with_path tx);;
    count ← inputs_to_wire tx false (live_inputs tx) 0;
    wassert (count =? nin_without_path)
  else mret tt.

Definition write_pos : wr Z := fun s => Ret (inr (s.1, s)).

(** [memcpy(binbuf, &bufpos, sizeof(bufpos))] *)
Definition patch_size : wr unit := fun s => Ret (inr (tt, (s.1, le_bytes 4 s.1 ++ drop 4 s.2))).

(** The tag of a transaction some of whose domains are not the default one. *)
Definition wire_tag_of (tx : TxPay) : Z :=
  let tag := TypeToWireTag (tag_type tx) in
  let tag := fold_left (fun tag txout => if (tag =? CC_TAG_TX) && negb (out_M_domain txout =? default_domain__ tx)
                                         then CC_TAG_TX_XDOMAIN else tag) (live_outputs tx) tag in
  fold_left (fun tag txin => if (tag =? CC_TAG_TX) && negb (in_M_domain txin =? default_domain__ tx)
                             then CC_TAG_TX_XDOMAIN else tag) (live_inputs tx) tag.

(** The transaction gets its wire tag and where its data begins; its identifier is that of
    the message (Objects.v). *)
Definition txpay_to_wire_from (tx : TxPay) : wr TxPay :=
  copy_to_buf_int 4 0;;
  let tag := TypeToWireTag (tag_type tx) in
  wcheck ((tag =? 0) || (tag =? CC_TAG_BLOCK));;
  let tx := tx{{wire_tag := wire_tag_of tx}} in
  copy_to_buf_int 4 (wire_tag tx);;
  pos ← write_pos;
  wassert (pos =? CC_MSG_HEADER_SIZE);;
  copy_to_bufp (replicate (Z.to_nat TX_POW_SIZE) 0);;
  (if negb (TypeHasBareMsg (tag_type tx)) then txpay_body_to_wire tx else mret tt);;
  pos ← write_pos;
  tx ← (if negb (append_data_length tx =? 0) then
          copy_to_bufp (take (Z.to_nat (append_data_length tx)) (append_data tx));;
          mret (tx{{append_wire_offset := pos}})
        else mret tx);
  pos ← write_pos;
  (if binsize <? pos then wreturn 1 else mret tt);;
  patch_size;;
  mret tx.

(** [binbuf] is the buffer before; the result is a code, or the transaction, the number of
    bytes, and the buffer after. *)
Definition txpay_to_wire (tx : TxPay) (binbuf : list Z) : outcome (Z + TxPay * (Z * list Z)) :=
  txpay_to_wire_from tx (0, binbuf).
End writing.

(** ** Properties of reading *)

Lemma u32_small x : 0 <= x < 2 ^ 32 -> u32 x = x.
Proof. intros H. by apply wrap_small. Qed.

(** [m] neither throws nor moves the position back, or on by more than [n]. *)
Definition advances {A} (n : Z) (m : wired Z A) : Prop := 0 <= n /\ forall pos, 0 <= pos -> pos + n < 2 ^ 32 ->
  match m pos with
  | Ret (inr (_, pos')) => pos <= pos' <= pos + n
  | Ret (inl _) => True
  | Throw _ => False
  end.

Create HintDb advances discriminated.

Section advances.
Context {A B : Type}.

Lemma advances_ret (a : A) : advances 0 (mret a).
Proof. split; [done|]. intros pos ? ?. cbn. lia. Qed.

Lemma advances_bind n1 n2 (m : wired Z A) (f : A -> wired Z B) :
  advances n1 m -> 0 <= n2 /\ (forall a, advances n2 (f a)) -> advances (n1 + n2) (m ≫= f).
Proof.
  intros [? Hm] [? Hf]. split; [lia|]. intros pos Hpos Hmax. unfold mbind, wired_bind.
  specialize (Hm pos Hpos ltac:(lia)). destruct (m pos) as [[?|[a pos1]]|?]; try done.
  destruct (Hf a) as [_ Hf']. specialize (Hf' pos1 ltac:(lia) ltac:(lia)).
  destruct (f a pos1) as [[?|[b pos2]]|?]; try done. lia.
Qed.

Lemma advances_le n1 n2 (m : wired Z A) : advances n1 m -> n1 <= n2 -> advances n2 m.
Proof.
  intros [? Hm] Hle. split; [lia|]. intros pos Hpos Hmax. specialize (Hm pos Hpos ltac:(lia)).
  destruct (m pos) as [[?|[a pos1]]|?]; try done. lia.
Qed.

Lemma advances_if n1 n2 (b : bool) (m1 m2 : wired Z A) :
  advances n1 m1 -> advances n2 m2 -> advances (Z.max n1 n2) (if b then m1 else m2).
Proof.
  intros H1 H2. destruct b; (eapply advances_le; [done|]); [|destruct H1]; lia.
Qed.

Lemma advances_return rc : advances 0 (wreturn rc : wired Z A).
Proof. split; [done|]. by intros pos ? ?. Qed.
End advances.

Lemma advances_check b : advances 0 (wcheck b : wired Z unit).
Proof. destruct b; [apply advances_return|apply advances_ret]. Qed.

(** Where the body of a message starts, and what is known of the transaction then. *)
Definition start_of (tag : Z) : Z := if HasPOW tag then CC_MSG_HEADER_SIZE + TX_POW_SIZE else CC_MSG_HEADER_SIZE.
Definition started (tag : Z) : TxPay :=
  tx_init{{wire_tag := tag; tag_type := TagType tag; tx_type := TagType tag; wire_tag := WireTag tag}}.

(** What holds of the result when there is one. *)
Definition returns {S A} (Q : A -> Prop) (m : wired S A) : Prop :=
  forall s a s', m s = Ret (inr (a, s')) -> Q a.

Section returns.
Context {S A B : Type}.

Lemma returns_ret (Q : A -> Prop) (a : A) : Q a -> returns Q (mret a : wired S A).
Proof. by intros HQ s a' s' [= <- _]. Qed.

Lemma returns_any (m : wired S A) : returns (fun _ => True) m.
Proof. done. Qed.

Lemma returns_bind (Q : A -> Prop) (R : B -> Prop) (m : wired S A) (f : A -> wired S B) :
  returns Q m -> (forall a, Q a -> returns R (f a)) -> returns R (m ≫= f).
Proof.
  intros Hm Hf s b s'. unfold mbind, wired_bind. destruct (m s) as [[?|[a s1]]|?] eqn:E; try done.
  apply Hf. by eapply Hm.
Qed.

Lemma returns_weaken (Q R : A -> Prop) (m : wired S A) : returns Q m -> (forall a, Q a -> R a) -> returns R m.
Proof. intros Hm HQR s a s' E. by eapply HQR, Hm. Qed.

Lemma returns_if (Q : A -> Prop) (b : bool) (m1 m2 : wired S A) :
  (b = true -> returns Q m1) -> (b = false -> returns Q m2) -> returns Q (if b then m1 else m2).
Proof. destruct b; auto. Qed.

Lemma returns_return (Q : A -> Prop) rc : returns Q (wreturn rc : wired S A).
Proof. by intros s a s'. Qed.

Lemma returns_check (b : bool) : returns (fun _ => b = false) (wcheck b : wired S unit).
Proof. by destruct b; intros s a s'. Qed.
End returns.

Section safe_reading.
Context `{Hashes} (P : Z) (binbuf : list Z) (binsize : Z).
Hypothesis Hbuf : binsize <= Z.of_nat (length binbuf).

Lemma advances_copy_bytes datasize n : 0 <= n <= datasize ->
  advances n (copy_from_bufl datasize n binbuf binsize).
Proof.
  intros ?. split; [lia|]. intros pos Hpos Hmax. unfold copy_from_bufl. cbv zeta. rewrite u32_small by lia.
  destruct (Z.leb_spec (pos + n) binsize); [|cbn; lia].
  rewrite (proj2 (Z.ltb_ge datasize n)) by lia. rewrite (proj2 (Z.ltb_ge _ (pos + n))) by lia. cbn. lia.
Qed.

Lemma advances_copy datasize n : 0 <= n <= datasize -> advances n (copy_from_buf binbuf binsize datasize n).
Proof.
  intros Hn. unfold copy_from_buf. replace n with (n + 0) at 1 by lia.
  apply advances_bind; [by apply advances_copy_bytes|]. split; [done|]. intros ?. apply advances_ret.
Qed.
End safe_reading.

(** How far a computation advances, from how it is built; the goal is [advances ?n _]. *)
Ltac advance :=
  first
    [ apply advances_ret | apply advances_check | apply advances_return
    | apply advances_copy_bytes; [done|vm_compute; intuition discriminate]
    | apply advances_copy; [done|vm_compute; intuition discriminate]
    | eapply advances_bind; [advance|split; [|intros ?; cbv zeta; advance]; vm_compute; intuition discriminate]
    | apply advances_if; advance ].

Section safe_body.
Context `{Hashes} (P : Z) (binbuf : list Z) (binsize : Z).
Hypothesis Hbuf : binsize <= Z.of_nat (length binbuf).

Lemma advances_output tx txout : advances 60 (txpay_output_from_wire binbuf binsize tx txout).
Proof.
  eapply advances_le; [unfold txpay_output_from_wire; cbv zeta; advance|]. vm_compute; intuition discriminate.
Qed.

Lemma advances_input tx txin : advances 89 (txpay_input_from_wire binbuf binsize tx txin).
Proof.
  eapply advances_le; [unfold txpay_input_from_wire; cbv zeta; advance|]. vm_compute; intuition discriminate.
Qed.

Lemma advances_outputs n i tx : advances (60 * Z.of_nat n) (outputs_from_wire binbuf binsize n i tx).
Proof.
  revert i tx. induction n as [|n IH]; intros i tx; cbn [outputs_from_wire]; [apply advances_ret|].
  eapply advances_le; [eapply advances_bind; [apply advances_output|split; [|intros ?; cbv zeta; apply IH]]|]; lia.
Qed.

Lemma advances_inputs n i tx : advances (89 * Z.of_nat n) (inputs_from_wire binbuf binsize n i tx).
Proof.
  revert i tx. induction n as [|n IH]; intros i tx; cbn [inputs_from_wire]; [apply advances_ret|].
  eapply advances_le; [eapply advances_bind; [apply advances_input|split; [|intros ?; cbv zeta; apply IH]]|]; lia.
Qed.

Lemma advances_guard {A} n b (m : wired Z A) : 0 <= n -> (b = false -> advances n m) -> advances n (wcheck b;; m).
Proof.
  intros Hn Hm. destruct b; [split; [done|]; by intros pos ? ?|]. by apply Hm.
Qed.

Lemma advances_head tx : advances 296 (txpay_head_from_wire binbuf binsize tx).
Proof.
  eapply advances_le; [unfold txpay_head_from_wire; cbv zeta; advance|]. vm_compute; intuition discriminate.
Qed.

Lemma outputs_returns n i tx :
  returns (fun tx' => nin tx' = nin tx /\ tag_type tx' = tag_type tx) (outputs_from_wire binbuf binsize n i tx).
Proof.
  revert i tx. induction n as [|n IH]; intros i tx; cbn [outputs_from_wire]; [by apply returns_ret|].
  eapply returns_bind; [apply returns_any|]. intros txout _. cbv zeta.
  eapply returns_weaken; [apply IH|]. intros tx' [-> ->]. by destruct (_ && _).
Qed.

Lemma inputs_returns n i tx : returns (fun tx' => tag_type tx' = tag_type tx) (inputs_from_wire binbuf binsize n i tx).
Proof.
  revert i tx. induction n as [|n IH]; intros i tx; cbn [inputs_from_wire]; [by apply returns_ret|].
  eapply returns_bind; [apply returns_any|]. intros txin _. cbv zeta.
  eapply returns_weaken; [apply IH|]. by intros tx' ->.
Qed.

Lemma advances_payload tx : nout tx <= 10 -> nin tx <= 8 -> advances 1312 (txpay_payload_from_wire P binbuf binsize tx).
Proof.
  intros Hout Hin. unfold txpay_payload_from_wire. cbv zeta.
  set (tx1 := if _ && _ then _ else tx). assert (H1 : nout tx1 = nout tx /\ nin tx1 = nin tx) by (unfold tx1; by destruct (_ && _)).
  destruct H1 as [H1 H2]. rewrite H1. split; [done|]. intros pos Hpos Hmax. unfold mbind at 1, wired_bind at 1.
  destruct (advances_outputs (Z.to_nat (nout tx)) 0 tx1) as [_ Ho]. specialize (Ho pos Hpos ltac:(lia)).
  destruct (outputs_from_wire _ _ _ _ _ _) as [[?|[tx2 p]]|?] eqn:E; try done.
  apply outputs_returns in E as [E _]. rewrite E, H2.
  unfold mbind at 1, wired_bind at 1.
  destruct (advances_inputs (Z.to_nat (nin tx)) 0 tx2) as [_ Hi]. specialize (Hi p ltac:(lia) ltac:(lia)).
  destruct (inputs_from_wire _ _ _ _ _ _) as [[?|[tx3 p3]]|?]; try done.
  destruct (tag_type tx3 =? CC_TYPE_MINT); [destruct (set_mint_inputs P tx3)|]; cbn; lia.
Qed.

Lemma advances_body tx : advances 1608 (txpay_body_from_wire P binbuf binsize tx).
Proof.
  apply (advances_bind 296 1312); [apply advances_head|]. split; [done|]. intros tx1.
  apply advances_guard; [done|]. intros H1. apply advances_guard; [done|]. intros H2.
  apply advances_guard; [done|]. intros _. unfold TX_MAXOUT, TX_MAXIN in *. apply advances_payload; lia.
Qed.

Lemma head_returns tx : returns (fun tx' => tag_type tx' = tag_type tx) (txpay_head_from_wire binbuf binsize tx).
Proof.
  unfold txpay_head_from_wire. do 2 (eapply returns_bind; [apply returns_any|intros ? _; cbv zeta]).
  eapply returns_bind.
  { apply (returns_if (fun tx' => tag_type tx' = tag_type tx)); intros _; [by apply returns_ret|].
    eapply returns_bind; [apply returns_any|]. intros ? _. by apply returns_ret. }
  intros tx1 H1. eapply returns_bind; [apply returns_any|intros ? _; cbv zeta].
  apply returns_if; intros _; [eapply returns_bind; [apply returns_any|intros ? _; by apply returns_ret]|].
  apply returns_if; intros _; [by apply returns_ret|apply returns_return].
Qed.

Lemma payload_returns tx : returns (fun tx' => tag_type tx' = tag_type tx) (txpay_payload_from_wire P binbuf binsize tx).
Proof.
  unfold txpay_payload_from_wire. cbv zeta.
  eapply returns_bind; [apply outputs_returns|]. intros tx1 [_ H1].
  eapply returns_bind; [apply inputs_returns|]. intros tx2 H2.
  assert (Ht : tag_type tx2 = tag_type tx) by (rewrite H2, H1; by destruct (_ && _)).
  apply returns_if; intros _; [|by apply returns_ret]. unfold set_mint_inputs.
  destruct (negb (tag_type tx2 =? _)); [apply returns_return|]. destruct (negb (nin tx2 =? _)); [apply returns_return|].
  by apply returns_ret.
Qed.

Lemma body_returns tx : returns (fun tx' => tag_type tx' = tag_type tx) (txpay_body_from_wire P binbuf binsize tx).
Proof.
  unfold txpay_body_from_wire. eapply returns_bind; [apply head_returns|]. intros tx1 H1.
  do 3 (eapply returns_bind; [apply returns_any|intros _ _]).
  eapply returns_weaken; [apply payload_returns|]. cbn. congruence.
Qed.

(** Where the body of a message ends, the types without a body included: nothing when the
    body is refused. *)
Definition body_end (tag : Z) : option Z :=
  if TypeHasBareMsg (TagType tag) then Some (start_of tag)
  else match txpay_body_from_wire P binbuf binsize (started tag) (start_of tag) with Ret (inr (_, p)) => Some p | _ => None end.
End safe_body.

(** ** The length of a message *)

Section whole_message.
Context `{Hashes} (P : Z) (binbuf : list Z).
Hypothesis Hlen : 8 <= Z.of_nat (length binbuf) < 2 ^ 31.
Hypothesis Hsize : le_val (take 4 binbuf) = Z.of_nat (length binbuf).

#[local] Abbreviation size := (Z.of_nat (length binbuf)).
#[local] Abbreviation tag := (le_val (take 4 (drop 4 binbuf))).

Lemma copy_word pos : 0 <= pos <= 4 ->
  copy_from_buf binbuf size 4 4 pos = Ret (inr (le_val (take 4 (drop (Z.to_nat pos) binbuf)), pos + 4)).
Proof.
  intros Hpos. unfold copy_from_buf, mbind, wired_bind, copy_from_bufl. cbv zeta. rewrite u32_small by lia.
  rewrite (proj2 (Z.leb_le _ size)) by lia. rewrite (proj2 (Z.ltb_ge size _)) by lia.
  change (4 <? 4) with false. cbn [orb]. change (Z.to_nat (4 - 4)) with O. cbn [replicate].
  by rewrite app_nil_r.
Qed.

(** What is done once the header has been read. *)
Lemma tx_from_wire_eq :
  tx_from_wire P binbuf size =
    if (TagType tag =? 0) || (TagType tag =? CC_TYPE_BLOCK) || (TagType tag =? CC_TYPE_VOID) then Ret (inl (-1))
    else
      match ((if negb (TypeHasBareMsg (TagType tag)) then txpay_body_from_wire P binbuf size (started tag)
              else mret (started tag)) ≫= append_from_wire binbuf size size) (start_of tag) with
      | Throw e => Throw e
      | Ret (inl rc) => Ret (inl rc)
      | Ret (inr (tx, p)) => if size <? p then Ret (inl 1) else Ret (inr tx)
      end.
Proof.
  unfold tx_from_wire, tx_add_from_wire. unfold mbind at 1, wired_bind at 1. rewrite copy_word by lia.
  change (Z.to_nat 0) with O. rewrite drop_0, Hsize, Z.ltb_irrefl.
  unfold mbind at 1, wired_bind at 1. cbn [wcheck mret wired_ret].
  unfold mbind at 1, wired_bind at 1. rewrite copy_word by lia. change (Z.to_nat (0 + 4)) with 4%nat. cbv zeta.
  change (tag_type (tx_init{{wire_tag := tag; tag_type := TagType tag}})) with (TagType tag).
  destruct (_ || _) eqn:E; [done|]. cbn [wcheck].
  do 3 (unfold mbind at 1, wired_bind at 1; cbn [mret wired_ret get_pos]). 
  change (wassert _ _) with (@Ret (Z + unit * Z) (inr (tt, 8))). cbv beta iota.
  change (wire_tag (tx_init{{wire_tag := tag; tag_type := TagType tag; tx_type := TagType tag}})) with tag.
  match goal with |- context [tx_init{{wire_tag := ?a; tag_type := ?b; tx_type := ?c; wire_tag := ?d}}] =>
    change (tx_init{{wire_tag := a; tag_type := b; tx_type := c; wire_tag := d}}) with (started tag) end.
  change (tag_type (started tag)) with (TagType tag).
  unfold mbind at 1, wired_bind at 1.
  assert (Epow : (if HasPOW tag then move_pos TX_POW_SIZE else mret tt) 8 = Ret (inr (tt, start_of tag))).
  { unfold start_of. by destruct (HasPOW tag). }
  rewrite Epow. unfold mbind, wired_bind, mret, wired_ret.
  destruct ((if negb (TypeHasBareMsg (TagType tag)) then txpay_body_from_wire P binbuf size (started tag) else
    (fun s => Ret (inr (started tag, s)))) (start_of tag)) as [[?|[tx1 p]]|?]; try done.
  destruct (append_from_wire binbuf size size tx1 p) as [[?|[tx2 q]]|?]; try done.
  cbn [get_pos]. by destruct (_ <? _).
Qed.

Lemma append_throws tx p e : 0 <= p < 2 ^ 31 ->
  append_from_wire binbuf size size tx p = Throw e
  <-> e = BadAccess /\ TypeIsXtx (tag_type tx) = true /\ (size < p \/ p + TX_MAX_APPEND < size).
Proof.
  intros Hp. unfold append_from_wire, TX_MAX_APPEND. cbv zeta.
  destruct (Z.eq_dec p size) as [->|Hne].
  { rewrite Z.sub_diag. change (u32 0 =? 0) with true. split; [done|]. intros (_ & _ & ?). lia. }
  assert (Hn : u32 (size - p) = if p <? size then size - p else size - p + 2 ^ 32).
  { destruct (Z.ltb_spec p size); [by apply u32_small; lia|].
    symmetry. apply Z.mod_unique_pos with (-1); lia. }
  rewrite (proj2 (Z.eqb_neq (u32 _) 0)) by (rewrite Hn; destruct (Z.ltb_spec p size); lia).
  unfold mbind at 1, wired_bind at 1.
  destruct (TypeIsXtx (tag_type tx)); cbn [negb wcheck mret wired_ret wreturn]; [|by split; [|intros (_ & ? & _)]].
  unfold mbind, wired_bind, copy_from_bufl, mret, wired_ret. cbv zeta.
  assert (Hpos : u32 (p + u32 (size - p)) = size).
  { rewrite Hn. destruct (Z.ltb_spec p size).
    - rewrite u32_small by lia. lia.
    - symmetry. apply Z.mod_unique_pos with 1; lia. }
  rewrite Hpos, (proj2 (Z.leb_le size size)) by lia.
  destruct (_ || _) eqn:Ec.
  - split; [|by intros (-> & _)]. intros [= <-]. split_and!; [done|done|].
    apply orb_true_iff in Ec as [Ec%Z.ltb_lt|Ec%Z.ltb_lt]; rewrite Hn in Ec; destruct (Z.ltb_spec p size); lia.
  - split; [done|]. intros (_ & _ & Hor). exfalso. apply orb_false_iff in Ec as [Ec%Z.ltb_ge _].
    rewrite Hn in Ec. destruct (Z.ltb_spec p size); lia.
Qed.
End whole_message.

Lemma xtx_is_tx t : TypeIsXtx t = true -> (t =? 0) || (t =? CC_TYPE_BLOCK) || (t =? CC_TYPE_VOID) = false.
Proof. unfold TypeIsXtx, CC_TYPE_XCX_NAKED_BUY, CC_TYPE_BLOCK, CC_TYPE_VOID. lia. Qed.

(** A message is read without leaving the buffers, unless it is of an exchange type and
    the data after its body is too long, or its body goes past its end: then the length of
    that data wraps around, and the copy leaves both buffers. *)
Theorem exchange_message_overruns `{Hashes} P binbuf e :
  8 <= Z.of_nat (length binbuf) < 2 ^ 31 - 2000 -> le_val (take 4 binbuf) = Z.of_nat (length binbuf) ->
  let binsize := Z.of_nat (length binbuf) in
  let tag := le_val (take 4 (drop 4 binbuf)) in
  tx_from_wire P binbuf binsize = Throw e
  <-> e = BadAccess /\ TypeIsXtx (TagType tag) = true
      /\ exists p, body_end P binbuf binsize tag = Some p /\ (binsize < p \/ p + TX_MAX_APPEND < binsize).
Proof.
  intros Hlen Hsize binsize tag. unfold binsize. rewrite tx_from_wire_eq by lia. fold tag.
  assert (Hstart : 0 <= start_of tag <= 56) by (unfold start_of; destruct (HasPOW tag); vm_compute; intuition discriminate).
  unfold body_end. destruct (_ || _) eqn:E0.
  { split; [done|]. intros (_ & Hx%xtx_is_tx & _). congruence. }
  unfold mbind, wired_bind.
  assert (Happ : forall tx p, tag_type tx = TagType tag -> 0 <= p < 2 ^ 31 ->
    match append_from_wire binbuf (Z.of_nat (length binbuf)) (Z.of_nat (length binbuf)) tx p with
    | Ret (inr (tx, p)) => if Z.of_nat (length binbuf) <? p then Ret (inl 1) else Ret (inr tx)
    | Ret (inl rc) => Ret (inl rc)
    | Throw e => Throw e
    end = Throw e <-> e = BadAccess /\ TypeIsXtx (TagType tag) = true
      /\ (Z.of_nat (length binbuf) < p \/ p + TX_MAX_APPEND < Z.of_nat (length binbuf))).
  { intros tx p <- Hp. rewrite <- (append_throws binbuf) by lia.
    destruct (append_from_wire _ _ _ _ _) as [[?|[tx1 q]]|?]; [by split| |by split; intros [= ->]].
    destruct (_ <? _); by split. }
  destruct (TypeHasBareMsg (TagType tag)); cbn [negb mret wired_ret].
  - rewrite Happ by (done || lia). split; [intros (? & ? & ?); eauto|by intros (? & ? & ? & [= <-] & ?)].
  - destruct (advances_body P binbuf (Z.of_nat (length binbuf)) ltac:(lia) (started tag)) as [_ Hb].
    specialize (Hb (start_of tag) ltac:(lia) ltac:(lia)).
    pose proof (body_returns P binbuf (Z.of_nat (length binbuf)) (started tag) (start_of tag)) as Ht.
    destruct (txpay_body_from_wire _ _ _ _ _) as [[?|[tx p]]|?]; [by split; [|intros (? & ? & ? & ? & ?)]| |done].
    specialize (Ht _ _ eq_refl). cbv beta iota in Hb. rewrite Happ by (exact Ht || lia).
    split; [intros (? & ? & ?); eauto|by intros (? & ? & ? & [= <-] & ?)].
Qed.

(** A buy request of 64 bytes, and a payment claim with 513 bytes of data. *)
Definition short_request : list Z := le_bytes 4 64 ++ le_bytes 4 CC_TAG_XCX_SIMPLE_BUY ++ replicate 56 0.
Definition long_claim : list Z := le_bytes 4 569 ++ le_bytes 4 CC_TAG_XCX_PAYMENT ++ replicate 561 0.

Lemma exchange_message_overruns_witness :
  tx_from_wire (H := demo_hashes) 1000003 short_request 64 = Throw BadAccess
  /\ tx_from_wire (H := demo_hashes) 1000003 long_claim 569 = Throw BadAccess.
Proof.
  split.
  - apply (exchange_message_overruns (H := demo_hashes) 1000003 short_request BadAccess); [by vm_compute|done|].
    split_and!; [done|done|]. eexists. split; [vm_compute; reflexivity|left; by vm_compute].
  - apply (exchange_message_overruns (H := demo_hashes) 1000003 long_claim BadAccess); [by vm_compute|done|].
    split_and!; [done|done|]. eexists. split; [vm_compute; reflexivity|right; by vm_compute].
Defined.
