(* ===== verification/TxTrip.v ===== *)
(** * Round trip of the wire format of transactions (src/source/cclib/src/transaction.cpp)

    What [txpay_to_wire] of TxWire.v writes, as a list of bytes, and that [tx_from_wire]
    reads it back: [emits] says what a computation that writes has written when it
    succeeds, [reads] what one that reads makes of given bytes. *)
From S2P Require Import Prelude Objects Txs ValidObjs TxAmount Announce TxWire.
From coqutil Require Import Datatypes.RecordSetters.
Import DoubleBraceUpdate.

Local Open Scope Z_scope.
Local Open Scope cc_scope.

(** ** Writing and reading back

    The bytes that a transaction is written as. *)

Section bytes.
Context (tx : TxPay).
#[local] Abbreviation xdomain := (wire_tag tx =? CC_TAG_TX_XDOMAIN).
#[local] Abbreviation mint := (tag_type tx =? CC_TYPE_MINT).

Definition domain_bytes (d : Z) : list Z := if xdomain then le_bytes 3 d else [].
Definition output_bytes (o : TxOut) : list Z :=
  le_bytes 16 (M_address o) ++ domain_bytes (out_M_domain o)
  ++ (if mint then [] else le_bytes 4 (M_asset_enc o)) ++ le_bytes 5 (M_amount_enc o) ++ le_bytes 32 (M_commitment o).
(** An input with a path. *)
Definition input_bytes (x : TxIn) : list Z :=
  domain_bytes (in_M_domain x) ++ le_bytes 32 (S_serialnum x) ++ le_bytes 16 (S_hashkey x).
Definition counts_byte : Z := u8 (Z.lor (Z.shiftl (nout tx - 1) 4) (nin_with_path tx - 1)).
Definition head_bytes : list Z :=
  le_bytes 5 (param_level tx) ++ take 287 (zkproof tx) ++ (if mint then [] else le_bytes 1 (zkkeyid tx))
  ++ le_bytes 2 (donation_fp tx) ++ (if mint then [] else le_bytes 1 counts_byte).
Definition body_bytes : list Z :=
  head_bytes ++ concat (map output_bytes (live_outputs tx))
  ++ (if mint then [] else concat (map input_bytes (live_inputs tx))).
Definition tail_bytes : list Z :=
  le_bytes 4 (wire_tag tx) ++ replicate 48 0 ++ (if TypeHasBareMsg (tag_type tx) then [] else body_bytes)
  ++ take (Z.to_nat (append_data_length tx)) (append_data tx).

(** What is read back: the values cut down to their widths on the wire, and the constants. *)
Definition received_domain (d : Z) : Z := if xdomain then wrap 24 d else 0.
Definition received_output (o : TxOut) : TxOut :=
  mkTxOut 0 false (wrap 128 (M_address o)) 0 0 (received_domain (out_M_domain o))
    false (if mint then 0 else TX_ASSET_WIRE_MASK) (if mint then 0 else wrap 32 (M_asset_enc o))
    false (if mint then 0 else TX_AMOUNT_MASK) (wrap 40 (M_amount_enc o)) (wrap 256 (M_commitment o)).
Definition received_input (i : nat) (x : TxIn) : TxIn :=
  mkTxIn 0 0 1 0 0 0 0 0 (received_domain (in_M_domain x)) 0 0 0 false
    (wrap 256 (S_serialnum x)) (wrap 128 (S_hashkey x)) 0 (Z.of_nat (S i)).
End bytes.

(** The arrays of the structure, and the counts within them. *)
Record tx_shape (tx : TxPay) : Prop := {
  shape_outputs : length (outputs tx) = 10%nat;
  shape_inputs : length (inputs tx) = 8%nat;
  shape_nout : 0 <= nout tx <= 10;
  shape_nin : 0 <= nin tx <= 8;
  shape_nin_with_path : 0 <= nin_with_path tx;
  shape_zkproof : length (zkproof tx) = 288%nat;
  shape_append : length (append_data tx) = 512%nat;
  shape_append_length : 0 <= append_data_length tx <= 512
}.

Section emits.
Context (err_check : Z) (binsize : Z).
Hypothesis Hcheck : err_check <> 0.

(** The bytes [pre] have been written, as far as they fit. *)
Definition written (pre : list Z) (s : Z * list Z) : Prop :=
  s.1 = Z.of_nat (length pre) /\ Z.of_nat (length s.2) = binsize
  /\ (Z.of_nat (length pre) <= binsize -> exists rest, s.2 = pre ++ rest).

(** When [m] succeeds it has written [bs], and its result is as [Q] says. *)
Definition emits {A} (bs : list Z) (Q : A -> Prop) (m : wired (Z * list Z) A) : Prop := forall pre s a s',
  written pre s -> Z.of_nat (length (pre ++ bs)) < 2 ^ 32 -> m s = Ret (inr (a, s')) ->
  written (pre ++ bs) s' /\ Q a.

Lemma emits_ret {A} (a : A) : emits [] (fun a' => a' = a) (mret a).
Proof. intros pre s a' s' Hs _ [= <- <-]. by rewrite app_nil_r. Qed.

Lemma emits_bind {A B} b1 b2 (Q : A -> Prop) (R : B -> Prop) (m : wired (Z * list Z) A) (f : A -> wired (Z * list Z) B) :
  emits b1 Q m -> (forall a, Q a -> emits b2 R (f a)) -> emits (b1 ++ b2) R (m ≫= f).
Proof.
  intros Hm Hf pre s b s' Hs Hmax. unfold mbind, wired_bind. rewrite app_assoc in Hmax |- *.
  destruct (m s) as [[?|[a s1]]|?] eqn:E; try done. intros Eb.
  destruct (Hm pre s a s1) as [Hs1 Ha]; [done| |done|]. { rewrite length_app in Hmax. lia. }
  by apply (Hf a Ha (pre ++ b1) s1).
Qed.

Lemma emits_weaken {A} bs (Q R : A -> Prop) (m : wired (Z * list Z) A) :
  emits bs Q m -> (forall a, Q a -> R a) -> emits bs R m.
Proof. intros Hm HQR pre s a s' Hs Hmax E. destruct (Hm pre s a s') as [? ?]; auto. Qed.

Lemma emits_return {A} bs (Q : A -> Prop) rc : emits bs Q (wreturn rc).
Proof. by intros pre s a s'. Qed.

Lemma emits_check b : emits [] (fun _ => b = false) (wcheck b).
Proof. destruct b; [apply emits_return|]. eapply emits_weaken; [apply emits_ret|done]. Qed.

Lemma emits_invalid b : emits [] (fun _ => b = false) (invalid_if err_check b).
Proof.
  unfold invalid_if. eapply emits_weaken; [apply emits_check|]. cbn. intros [] Hb.
  apply andb_false_iff in Hb as [?|Hb]; [done|]. apply negb_false_iff, Z.eqb_eq in Hb. done.
Qed.

Lemma emits_assert b : emits [] (fun _ => b = true) (wassert b).
Proof. destruct b; [eapply emits_weaken; [apply emits_ret|done]|]. by intros pre s a s'. Qed.

Lemma emits_bytes bs : emits bs (fun _ => True) (copy_to_bufp binsize bs).
Proof.
  intros pre [pos out] [] s' (Hpos & Hlen & Hpre) Hmax. cbn [fst snd] in Hpos, Hlen, Hpre. unfold copy_to_bufp, copy_to_buf. cbn [fst snd].
  cbv zeta. subst pos. rewrite length_app in Hmax. rewrite u32_small by lia. rewrite Nat2Z.id.
  intros [= <-]. split; [|done]. unfold written. cbn [fst snd]. rewrite length_app.
  destruct (Z.leb_spec (Z.of_nat (length pre) + Z.of_nat (length bs)) binsize) as [Hfit|Hfit].
  - destruct (Hpre ltac:(lia)) as [rest ->]. rewrite take_app_length, drop_app_add.
    rewrite !length_app, length_drop in *. split_and!; [lia|lia|]. intros _. eexists. by rewrite <- app_assoc.
  - split_and!; [lia|done|lia].
Qed.

Lemma emits_int bs n x : bs = le_bytes (Z.to_nat n) x -> emits bs (fun _ => True) (copy_to_buf_int binsize n x).
Proof. intros ->. apply emits_bytes. Qed.

Lemma emits_skip {A B} bs (Q : A -> Prop) (R : B -> Prop) (m : wired (Z * list Z) A) (f : A -> wired (Z * list Z) B) :
  emits [] Q m -> (forall a, Q a -> emits bs R (f a)) -> emits bs R (m ≫= f).
Proof. apply (emits_bind [] bs). Qed.

Lemma emits_last {A B} bs (Q : A -> Prop) (R : B -> Prop) (m : wired (Z * list Z) A) (f : A -> wired (Z * list Z) B) :
  emits bs Q m -> (forall a, emits [] R (f a)) -> emits bs R (m ≫= f).
Proof. intros Hm Hf. rewrite <- (app_nil_r bs). eapply emits_bind; [done|]. auto. Qed.

Lemma emits_if (b : bool) bs1 bs2 {A} (Q : A -> Prop) (m1 m2 : wired (Z * list Z) A) :
  (b = true -> emits bs1 Q m1) -> (b = false -> emits bs2 Q m2) ->
  emits (if b then bs1 else bs2) Q (if b then m1 else m2).
Proof. destruct b; auto. Qed.

(** The checks before the next bytes. *)
Ltac skip_checks :=
  repeat (eapply emits_skip; [first [apply emits_invalid | apply emits_check | apply emits_assert]|intros [] ?]).

Lemma emits_domain tx d :
  emits (domain_bytes tx d) (fun _ => True)
    (if wire_tag tx =? CC_TAG_TX_XDOMAIN then copy_to_buf_int binsize TX_DOMAIN_BYTES d
     else wassert (d =? default_domain__ tx)).
Proof.
  apply emits_if; intros _; [by apply emits_int|]. eapply emits_weaken; [apply emits_assert|done].
Qed.

Lemma emits_output tx o : pays_on_wire (tag_type tx) = true \/ tag_type tx = CC_TYPE_MINT ->
  emits (output_bytes tx o) (fun _ => True) (txpay_output_to_wire err_check binsize tx o).
Proof.
  intros Ht. unfold txpay_output_to_wire, output_bytes. eapply emits_skip; [apply emits_invalid|intros [] ->].
  eapply emits_skip; [apply emits_invalid|intros [] _]. eapply emits_bind; [by apply emits_int|intros _ _].
  skip_checks. eapply emits_bind; [apply emits_domain|intros _ _]. skip_checks.
  eapply (emits_bind _ _ (fun _ => True)).
  { apply (emits_if (tag_type tx =? CC_TYPE_MINT) []); intros Hm.
    - skip_checks. eapply emits_weaken; [apply emits_invalid|done].
    - destruct Ht as [->|Ht]; [|apply Z.eqb_neq in Hm; done]. skip_checks. by apply emits_int. }
  intros _ _. skip_checks. eapply emits_bind; [by apply emits_int|intros _ _]. by apply emits_int.
Qed.

Lemma emits_input tx x : (pathnum x =? 0) = false ->
  emits (input_bytes tx x) (fun _ => True) (txpay_input_to_wire err_check binsize tx x).
Proof.
  intros Hp. unfold txpay_input_to_wire, input_bytes. rewrite Hp. skip_checks.
  eapply emits_bind; [apply emits_domain|intros _ _]. eapply emits_skip; [apply emits_invalid|intros [] ->].
  skip_checks. eapply emits_skip; [apply emits_ret|intros [] _].
  eapply emits_bind; [by apply emits_int|intros _ _]. cbv zeta. skip_checks. by apply emits_int.
Qed.

Lemma emits_outputs tx l : pays_on_wire (tag_type tx) = true \/ tag_type tx = CC_TYPE_MINT ->
  emits (concat (map (output_bytes tx) l)) (fun _ => True) (outputs_to_wire err_check binsize tx l).
Proof.
  intros Ht. induction l as [|o l IH]; cbn [outputs_to_wire map concat].
  { eapply emits_weaken; [apply emits_ret|done]. }
  eapply emits_bind; [by apply emits_output|by intros _ _].
Qed.

Definition with_path (l : list TxIn) : list TxIn := List.filter (fun x => negb (pathnum x =? 0)) l.

Lemma emits_inputs tx l count :
  emits (concat (map (input_bytes tx) (with_path l)))
    (fun n => n = count + Z.of_nat (length (with_path l))) (inputs_to_wire err_check binsize tx true l count).
Proof.
  revert count. induction l as [|x l IH]; intros count; cbn [inputs_to_wire with_path List.filter map concat].
  { eapply emits_weaken; [apply emits_ret|]. cbn. intros ? ->. lia. }
  destruct (pathnum x =? 0) eqn:Hp; cbn [Bool.eqb negb].
  - apply IH.
  - cbn [map concat length]. eapply emits_bind; [by apply emits_input|]. intros _ _.
    eapply emits_weaken; [apply IH|]. cbn. intros ? ->. unfold with_path. lia.
Qed.

Lemma with_path_all l : (length l <= length (with_path l))%nat -> with_path l = l.
Proof.
  unfold with_path. induction l as [|x l IH]; [done|]. cbn [List.filter length].
  pose proof (List.filter_length_le (fun x => negb (pathnum x =? 0)) l).
  destruct (negb _); cbn [length]; intros ?; [f_equal; apply IH|]; lia.
Qed.

Lemma emits_without_path tx l count : with_path l = l ->
  emits [] (fun n => n = count) (inputs_to_wire err_check binsize tx false l count).
Proof.
  revert count. induction l as [|x l IH]; intros count Hl; cbn [inputs_to_wire].
  { apply emits_ret. }
  unfold with_path in Hl. cbn [List.filter] in Hl. destruct (pathnum x =? 0) eqn:Hp; cbn [Bool.eqb negb] in *.
  - exfalso. pose proof (List.filter_length_le (fun x => negb (pathnum x =? 0)) l) as Hle.
    rewrite Hl in Hle. cbn [length] in Hle. lia.
  - apply IH. by injection Hl.
Qed.

Lemma length_with_path tx l :
  (length (concat (map (input_bytes tx) (with_path l))) <= length (concat (map (input_bytes tx) l)))%nat.
Proof.
  unfold with_path. induction l as [|x l IH]; [done|]. cbn [List.filter map concat].
  destruct (negb _); cbn [map concat]; rewrite !length_app; lia.
Qed.

Lemma emits_change {A} bs bs' (Q : A -> Prop) (m : wired (Z * list Z) A) :
  (length bs <= length bs')%nat -> (forall a, Q a -> bs = bs') -> emits bs Q m -> emits bs' Q m.
Proof.
  intros Hle Heq Hm pre s a s' Hs Hmax E. rewrite length_app in Hmax.
  destruct (Hm pre s a s') as [Hw HQ]; [done|rewrite length_app; lia|done|]. by rewrite <- (Heq a HQ).
Qed.

(** What the checks of the body establish. *)
Definition body_ok (tx : TxPay) : Prop :=
  if tag_type tx =? CC_TYPE_MINT then nout tx = 1 /\ nin tx = 1 /\ zkkeyid tx = 0
  else pays_on_wire (tag_type tx) = true /\ 0 < nout tx /\ 0 < nin tx /\ nin_with_path tx = nin tx.

Lemma emits_body tx : tx_shape tx -> emits (body_bytes tx) (fun _ => body_ok tx) (txpay_body_to_wire err_check binsize tx).
Proof.
  intros Hs. unfold txpay_body_to_wire, body_bytes, head_bytes, body_ok. rewrite <- !app_assoc.
  eapply emits_bind; [by apply emits_int|intros _ _]. eapply emits_bind; [apply emits_bytes|intros _ _].
  eapply (emits_bind _ _ (fun _ => tag_type tx = CC_TYPE_MINT -> zkkeyid tx = 0)).
  { rewrite <- (negb_involutive (tag_type tx =? CC_TYPE_MINT)) at 1.
    replace (if negb (negb (tag_type tx =? CC_TYPE_MINT)) then [] else le_bytes 1 (zkkeyid tx))
      with (if negb (tag_type tx =? CC_TYPE_MINT) then le_bytes 1 (zkkeyid tx) else []) by by destruct (tag_type tx =? _).
    apply emits_if; intros Hm.
    - eapply emits_weaken; [by apply emits_int|]. intros [] _ Ht. rewrite Ht in Hm. done.
    - eapply emits_weaken; [apply emits_invalid|]. cbn. intros [] Hz _. unfold TX_MINT_ZKKEY_ID in Hz. lia. }
  intros [] Hz. eapply emits_bind; [by apply emits_int|intros _ _]. eapply emits_skip; [apply emits_assert|intros [] Hle].
  cbv zeta. rewrite !app_assoc. rewrite <- (app_assoc _ (concat _)).
  destruct (Z.eqb_spec (tag_type tx) CC_TYPE_MINT) as [Hm|Hm]; cbn [negb].
  - rewrite Hm. change (pays_on_wire CC_TYPE_MINT) with false. cbn [app]. rewrite app_nil_r.
    apply (emits_skip _ (fun _ => nout tx = 1 /\ nin tx = 1)).
    { eapply emits_skip; [apply emits_invalid|intros [] H1].
      eapply emits_weaken; [apply emits_invalid|]. intros [] H2. unfold TX_MINT_NOUT in H1. lia. }
    intros [] [H1 H2]. rewrite <- (app_nil_r (concat _)).
    eapply emits_bind; [apply emits_outputs; auto|intros _ _].
    eapply emits_weaken; [apply emits_ret|]. intros [] _. auto.
  - destruct (pays_on_wire (tag_type tx)) eqn:Ep.
    2:{ intros pre s a s' _ _. done. }
    eapply (emits_bind _ _ (fun _ => 0 < nout tx /\ 0 < nin tx /\ nin_with_path tx = nin tx)).
    { skip_checks. eapply emits_weaken; [by apply emits_int|]. intros [] _.
      repeat match goal with E : _ = true |- _ => apply Z.eqb_eq in E || apply Z.ltb_lt in E || apply Z.leb_le in E || fail end.
      lia. }
    intros [] (H1 & H2 & H3). eapply emits_bind; [apply emits_outputs; auto|intros _ _].
    assert (Hlen : Z.of_nat (length (live_inputs tx)) = nin tx).
    { unfold live_inputs. rewrite length_take, (shape_inputs _ Hs). pose proof (shape_nin _ Hs). lia. }
    eapply emits_weaken.
    { apply (emits_change (concat (map (input_bytes tx) (with_path (live_inputs tx))))
             _ (fun _ => with_path (live_inputs tx) = live_inputs tx)); [apply length_with_path|by intros _ ->|].
      rewrite <- (app_nil_r (concat _)). eapply emits_bind; [apply emits_inputs|].
      intros count ->. eapply emits_skip; [apply emits_assert|intros [] Hn%Z.eqb_eq].
      assert (Hall : with_path (live_inputs tx) = live_inputs tx) by (apply with_path_all; lia).
      eapply emits_skip; [by apply emits_without_path|]. intros ? ->.
      eapply emits_weaken; [apply emits_assert|]. done. }
    intros [] _. auto.
Qed.
End emits.

Lemma length_concat_map {A} (f : A -> list Z) (k : nat) l :
  (forall x, (length (f x) <= k)%nat) -> (length (concat (map f l)) <= k * length l)%nat.
Proof.
  intros Hf. induction l as [|x l IH]; cbn [map concat length]; [lia|]. rewrite length_app. specialize (Hf x). lia.
Qed.

Lemma length_domain_bytes tx d : (length (domain_bytes tx d) <= 3)%nat.
Proof. unfold domain_bytes. destruct (_ =? _); rewrite ?length_le_bytes; cbn; lia. Qed.

Lemma length_tail_bytes tx : tx_shape tx -> (length (tail_bytes tx) <= 3000)%nat.
Proof.
  intros Hs. unfold tail_bytes, body_bytes, head_bytes.
  assert (H1 : (length (concat (map (output_bytes tx) (live_outputs tx))) <= 60 * 10)%nat).
  { etransitivity; [apply (length_concat_map _ 60)|].
    - intros o. unfold output_bytes. rewrite !length_app, !length_le_bytes. pose proof (length_domain_bytes tx (out_M_domain o)).
      destruct (_ =? _); cbn [length]; rewrite ?length_le_bytes; lia.
    - unfold live_outputs. rewrite length_take, (shape_outputs _ Hs). lia. }
  assert (H2 : (length (concat (map (input_bytes tx) (live_inputs tx))) <= 60 * 8)%nat).
  { etransitivity; [apply (length_concat_map _ 60)|].
    - intros x. unfold input_bytes. rewrite !length_app, !length_le_bytes. pose proof (length_domain_bytes tx (in_M_domain x)). lia.
    - unfold live_inputs. rewrite length_take, (shape_inputs _ Hs). lia. }
  rewrite !length_app, length_replicate, length_take, (shape_append _ Hs).
  destruct (TypeHasBareMsg _), (tag_type tx =? CC_TYPE_MINT); rewrite ?length_app, ?length_le_bytes, ?length_take, ?(shape_zkproof _ Hs); cbn [length]; lia.
Qed.

(** What a message says, once it has been written. *)
Record message_of (tx : TxPay) (n : Z) (out : list Z) : Prop := {
  message_size : n = Z.of_nat (length (le_bytes 4 0 ++ tail_bytes tx));
  message_bytes : take (Z.to_nat n) out = le_bytes 4 n ++ tail_bytes tx;
  message_type : is_tx_type (tag_type tx) = true;
  message_body : TypeHasBareMsg (tag_type tx) = true \/ body_ok tx
}.

Lemma wire_type t : (TypeToWireTag t =? 0) || (TypeToWireTag t =? CC_TAG_BLOCK) = false -> is_tx_type t = true.
Proof.
  unfold TypeToWireTag, is_tx_type. cbn [existsb].
  destruct (t =? CC_TYPE_BLOCK); [done|]. destruct (t =? CC_TYPE_MINT); [done|]. destruct (t =? CC_TYPE_TXPAY); [done|].
  destruct (t =? CC_TYPE_XCX_SIMPLE_BUY); [done|]. destruct (t =? CC_TYPE_XCX_SIMPLE_SELL); [done|].
  destruct (t =? CC_TYPE_XCX_MINING_TRADE); [done|]. destruct (t =? CC_TYPE_XCX_NAKED_BUY); [done|].
  destruct (t =? CC_TYPE_XCX_NAKED_SELL); [done|]. by destruct (t =? CC_TYPE_XCX_PAYMENT).
Qed.

Ltac len := rewrite ?length_app, ?length_le_bytes, ?length_replicate; cbn [length]; lia.

Section message.
Context (err_check : Z) (tx : TxPay) (binbuf : list Z).
Hypothesis Hcheck : err_check <> 0.
Hypothesis Hshape : tx_shape tx.

Lemma emits_pos binsize pre s a s' : written binsize pre s -> write_pos s = Ret (inr (a, s')) ->
  a = Z.of_nat (length pre) /\ s' = s.
Proof. intros [Hs _]. by intros [= <- <-]. Qed.

Definition tagged : TxPay := tx{{wire_tag := wire_tag_of tx}}.

Lemma tagged_shape : tx_shape tagged.
Proof. by destruct Hshape; split. Qed.

Lemma emitted size pre s : written size pre s -> forall {A} bs (Q : A -> Prop) (m : wired (Z * list Z) A) a s',
  emits size bs Q m -> m s = Ret (inr (a, s')) -> (length pre + length bs <= 3004)%nat ->
  written size (pre ++ bs) s' /\ Q a.
Proof. intros Hs A bs Q m a s' Hm E Hle. apply (Hm pre s); [done| |done]. rewrite length_app. lia. Qed.

Arguments emitted {size pre s} Hs {A bs Q m a s'} Hm E Hle.

Lemma wbind_inv {S A B} (m : wired S A) (f : A -> wired S B) s b s' :
  (m ≫= f) s = Ret (inr (b, s')) -> exists a s1, m s = Ret (inr (a, s1)) /\ f a s1 = Ret (inr (b, s')).
Proof. unfold mbind, wired_bind. destruct (m s) as [[?|[a s1]]|?]; try done. eauto. Qed.

Lemma txpay_to_wire_writes tx' n out :
  txpay_to_wire err_check (Z.of_nat (length binbuf)) tx binbuf = Ret (inr (tx', (n, out))) ->
  message_of tagged n out /\ n <= Z.of_nat (length binbuf)
  /\ tx' = if append_data_length tx =? 0 then tagged else tagged{{append_wire_offset := n - append_data_length tx}}.
Proof.
  unfold txpay_to_wire, txpay_to_wire_from. cbv zeta. set (size := Z.of_nat (length binbuf)).
  assert (H0 : written size [] (0, binbuf)) by (split_and!; [done|done|]; intros _; by exists binbuf).
  revert H0. generalize (0, binbuf). intros s0 H0 E. fold tagged in E.
  pose proof (length_tail_bytes tagged tagged_shape) as Hmax. unfold tail_bytes in Hmax. rewrite !length_app in Hmax.
  rewrite length_le_bytes, length_replicate in Hmax.
  apply wbind_inv in E as ([] & s1 & E1 & E).
  destruct (emitted H0 (emits_int size (le_bytes 4 0) 4 0 eq_refl) E1) as [H1 _]; [len|].
  apply wbind_inv in E as ([] & s2 & E2 & E).
  destruct (emitted H1 (emits_check size _) E2) as [H2 Ht]; [len|]. rewrite app_nil_r in H2.
  apply wbind_inv in E as ([] & s3 & E3 & E).
  destruct (emitted H2 (emits_int size (le_bytes 4 (wire_tag tagged)) 4 _ eq_refl) E3) as [H3 _]; [len|].
  apply wbind_inv in E as (p3 & s4 & E4 & E). injection E4 as _ <-.
  apply wbind_inv in E as ([] & s4 & E4 & E).
  destruct (emitted H3 (emits_assert size _) E4) as [H4 _]; [len|]. rewrite app_nil_r in H4.
  apply wbind_inv in E as ([] & s5 & E5 & E).
  destruct (emitted H4 (emits_bytes size (replicate 48 0)) E5) as [H5 _]; [len|].
  apply wbind_inv in E as ([] & s6 & E6 & E).
  assert (Hbody : emits size (if TypeHasBareMsg (tag_type tagged) then [] else body_bytes tagged)
      (fun _ => TypeHasBareMsg (tag_type tagged) = true \/ body_ok tagged)
      (if negb (TypeHasBareMsg (tag_type tagged)) then txpay_body_to_wire err_check size tagged else mret tt)).
  { destruct (TypeHasBareMsg (tag_type tagged)); cbn [negb].
    - eapply emits_weaken; [apply emits_ret|auto].
    - eapply emits_weaken; [apply (emits_body err_check size Hcheck tagged tagged_shape)|auto]. }
  destruct (emitted H5 Hbody E6) as [H6 Hok]; [len|].
  apply wbind_inv in E as (p6 & s7 & E7 & E). injection E7 as <- <-.
  assert (Happ : emits size (take (Z.to_nat (append_data_length tagged)) (append_data tagged))
      (fun t => t = if append_data_length tx =? 0 then tagged else tagged{{append_wire_offset := s6.1}})
      (if negb (append_data_length tagged =? 0)
       then copy_to_bufp size (take (Z.to_nat (append_data_length tagged)) (append_data tagged));;
            mret (tagged{{append_wire_offset := s6.1}})
       else mret tagged)).
  { change (append_data_length tagged) with (append_data_length tx). destruct (Z.eqb_spec (append_data_length tx) 0) as [->|_]; cbn [negb].
    - apply emits_ret.
    - eapply (emits_last size); [apply emits_bytes|]. intros _. apply emits_ret. }
  apply wbind_inv in E as (t & s7 & E7 & E).
  destruct (emitted H6 Happ E7) as [H7 Etx]; [len|].
  apply wbind_inv in E as (p7 & s8 & E8 & E). injection E8 as <- <-.
  apply wbind_inv in E as ([] & s8 & E8 & E). destruct (Z.ltb_spec size s7.1) as [|Hfit]; [done|]. injection E8 as <-.
  change (@Ret (Z + TxPay * (Z * list Z)) (inr (t, (s7.1, le_bytes 4 s7.1 ++ drop 4 s7.2))) = Ret (inr (tx', (n, out)))) in E.
  remember (le_bytes 4 s7.1 ++ drop 4 s7.2) as o eqn:Eo. injection E as <- <- <-. subst o. cbn [app] in H6, H7. rewrite <- !app_assoc in H7.
  destruct H6 as (Hp6 & _), H7 as (Hp7 & Hl7 & Hr7). destruct (Hr7 ltac:(lia)) as [rest Hrest]. clear Hr7.
  split_and!; [split|done|].
  - unfold tail_bytes. exact Hp7.
  - change (le_bytes 4 0 ++ le_bytes 4 (wire_tag tagged) ++ replicate 48 0 ++ _ ++ _) with (le_bytes 4 0 ++ tail_bytes tagged) in Hp7, Hrest.
    rewrite Hrest, <- app_assoc, drop_app_length' by (by rewrite length_le_bytes).
    rewrite app_assoc. apply take_app_length'. rewrite Hp7, Nat2Z.id, !length_app, !length_le_bytes. done.
  - apply wire_type. exact Ht.
  - exact Hok.
  - assert (Hn : s6.1 = s7.1 - append_data_length tx); [|by rewrite Etx, Hn]. rewrite Hp6, Hp7.
    pose proof (shape_append _ tagged_shape) as Ha. pose proof (shape_append_length _ Hshape) as Hb.
    rewrite !length_app, (length_take (append_data tagged)), Ha. change (append_data_length tagged) with (append_data_length tx).
    lia.
Qed.
End message.

(** *** Reading what was written *)

Section reads.
Context (P : Z) (binbuf : list Z).
#[local] Abbreviation size := (Z.of_nat (length binbuf)).

Definition reads {A} (bs : list Z) (a : A) (m : wired Z A) : Prop := forall pre post,
  binbuf = pre ++ bs ++ post -> Z.of_nat (length binbuf) < 2 ^ 31 ->
  m (Z.of_nat (length pre)) = Ret (inr (a, Z.of_nat (length (pre ++ bs)))).

Lemma reads_ret {A} (a : A) : reads [] a (mret a).
Proof. intros pre post _ _. by rewrite app_nil_r. Qed.

Lemma reads_bind {A B} b1 b2 (a : A) (b : B) (m : wired Z A) (f : A -> wired Z B) :
  reads b1 a m -> reads b2 b (f a) -> reads (b1 ++ b2) b (m ≫= f).
Proof.
  intros Hm Hf pre post E Hmax. unfold mbind, wired_bind. rewrite (Hm pre (b2 ++ post)); [|by rewrite E, <- app_assoc|done].
  rewrite (Hf (pre ++ b1) post); [by rewrite app_assoc|by rewrite E, <- !app_assoc|done].
Qed.

Lemma reads_skip {A B} bs (a : A) (b : B) (m : wired Z A) (f : A -> wired Z B) :
  reads [] a m -> reads bs b (f a) -> reads bs b (m ≫= f).
Proof. apply (reads_bind [] bs). Qed.

Lemma reads_last {A B} bs (a : A) (b : B) (m : wired Z A) (f : A -> wired Z B) :
  reads bs a m -> reads [] b (f a) -> reads bs b (m ≫= f).
Proof. intros. rewrite <- (app_nil_r bs). by eapply reads_bind. Qed.

Lemma reads_check (b : bool) : b = false -> reads [] tt (wcheck b).
Proof. intros ->. apply reads_ret. Qed.

Lemma reads_bytes datasize n bs : Z.of_nat (length bs) = n -> n <= datasize ->
  reads bs (bs ++ replicate (Z.to_nat (datasize - n)) 0) (copy_from_bufl datasize n binbuf size).
Proof.
  intros Hn Hle pre post E Hmax. unfold copy_from_bufl. cbv zeta.
  assert (Hlen : length binbuf = (length pre + (length bs + length post))%nat) by (by rewrite E, !length_app).
  rewrite u32_small by lia. rewrite (proj2 (Z.leb_le _ size)) by lia.
  rewrite (proj2 (Z.ltb_ge datasize n)), (proj2 (Z.ltb_ge size _)) by lia. cbn [orb].
  rewrite Nat2Z.id, E, drop_app_length, take_app_length' by lia. rewrite length_app. do 3 f_equal. lia.
Qed.

Lemma le_val_zeros l k : le_val (l ++ replicate k 0) = le_val l.
Proof.
  unfold le_val. rewrite digits_val_app by lia. enough (digits_val 8 (replicate k 0) = 0) as -> by lia.
  induction k as [|k IH]; cbn [replicate digits_val]; [done|]. rewrite IH. lia.
Qed.

Lemma reads_int bs datasize k n x : bs = le_bytes k x -> Z.of_nat k = n -> n <= datasize ->
  reads bs (wrap (8 * n) x) (copy_from_buf binbuf size datasize n).
Proof.
  intros -> Hn Hle. unfold copy_from_buf. eapply reads_last.
  { apply (reads_bytes datasize n); [by rewrite length_le_bytes|done]. }
  rewrite le_val_zeros, le_val_bytes, Hn. apply reads_ret.
Qed.

Lemma reads_if (b : bool) bs1 bs2 {A} (a1 a2 : A) (m1 m2 : wired Z A) :
  (b = true -> reads bs1 a1 m1) -> (b = false -> reads bs2 a2 m2) ->
  reads (if b then bs1 else bs2) (if b then a1 else a2) (if b then m1 else m2).
Proof. destruct b; auto. Qed.

(** A field after another. *)
Ltac read_fields :=
  repeat first
    [ apply reads_ret
    | match goal with
      | |- context [if ?b then _ else _] => first [change b with true | change b with false]; cbv iota
      end
    | eapply reads_bind; [eapply reads_last; [eapply reads_int; [reflexivity|reflexivity|vm_compute; discriminate]|apply reads_ret]|]
    | eapply reads_bind; [eapply reads_int; [reflexivity|reflexivity|vm_compute; discriminate]|]
    | eapply reads_skip; [apply reads_ret|]
    | eapply reads_last; [eapply reads_int; [reflexivity|reflexivity|vm_compute; discriminate]|] ].

Context (tx : TxPay).

(** The values that the fields of [t] which reading uses have. *)
Record reading_like (t : TxPay) : Prop := {
  like_tag : wire_tag t = wire_tag tx;
  like_type : tag_type t = tag_type tx;
  like_chain : dest_chain__ t = 0;
  like_domain : default_domain__ t = 0;
  like_accept : acceptance_required__ t = 0;
  like_invalmax : invalmax__ t = 0;
  like_delay : delaytime__ t = 0;
  like_root : tx_merkle_root t = 0
}.

Lemma reads_output t o : reading_like t ->
  reads (output_bytes tx o) (received_output tx o) (txpay_output_from_wire binbuf size t zero_out).
Proof.
  intros [H1 H2 H3 H4 H5 _ _ _]. unfold txpay_output_from_wire, output_bytes. cbv zeta.
  rewrite H1, H2, H3, H4, H5. unfold domain_bytes, received_output, received_domain.
  destruct (wire_tag tx =? CC_TAG_TX_XDOMAIN), (tag_type tx =? CC_TYPE_MINT); cbn [negb app]; read_fields.
Qed.

Lemma reads_input t i x : reading_like t ->
  reads (input_bytes tx x) (received_input tx i x) (txpay_input_from_wire binbuf size t (zero_in{{pathnum := Z.of_nat (S i)}})).
Proof.
  intros [H1 H2 H3 H4 H5 H6 H7 H8]. unfold txpay_input_from_wire, input_bytes. cbv zeta.
  rewrite H1, H4, H6, H7, H8. unfold domain_bytes, received_input, received_domain.
  destruct (wire_tag tx =? CC_TAG_TX_XDOMAIN); cbn [negb app]; read_fields.
Qed.

(** Two updates of the same array. *)
Lemma nth_zeros {A} (z : A) done n k : nth (length done) (done ++ replicate (S n + k) z) z = z.
Proof. rewrite app_nth2 by lia. by rewrite Nat.sub_diag. Qed.

Lemma insert_next {A} (z x : A) done n k :
  <[length done := x]> (done ++ replicate (S n + k) z) = (done ++ [x]) ++ replicate (n + k) z.
Proof. rewrite <- (Nat.add_0_r (length done)), insert_app_r. by rewrite <- app_assoc. Qed.

Lemma reads_outputs l done k t : reading_like t -> outputs t = done ++ replicate (length l + k) zero_out ->
  reads (concat (map (output_bytes tx) l)) (t{{outputs := (done ++ map (received_output tx) l) ++ replicate k zero_out}})
    (outputs_from_wire binbuf size (length l) (length done) t).
Proof.
  revert done t. induction l as [|o l IH]; intros done t Ht Hout; cbn [length map concat outputs_from_wire].
  { rewrite app_nil_r. cbn [length Nat.add] in Hout. rewrite <- Hout. destruct t. apply reads_ret. }
  eapply reads_bind.
  { unfold output. rewrite Hout. cbn [length]. rewrite nth_zeros. by apply reads_output. }
  cbv zeta. rewrite Hout. cbn [length]. rewrite insert_next.
  specialize (IH (done ++ [received_output tx o])). rewrite length_app in IH. cbn [length] in IH. rewrite Nat.add_1_r in IH.
  replace (done ++ received_output tx o :: map (received_output tx) l)
    with ((done ++ [received_output tx o]) ++ map (received_output tx) l) by by rewrite <- app_assoc.
  specialize (IH (t{{outputs := (done ++ [received_output tx o]) ++ replicate (length l + k) zero_out}})).
  apply IH; [by destruct Ht; split|done].
Qed.

Lemma reads_inputs l done k t : reading_like t -> inputs t = done ++ replicate (length l + k) zero_in ->
  nin_with_path t = Z.of_nat (length done + length l) -> (length done + length l <= 8)%nat ->
  reads (concat (map (input_bytes tx) l))
    (t{{inputs := (done ++ imap (fun j x => received_input tx (length done + j) x) l) ++ replicate k zero_in}})
    (inputs_from_wire binbuf size (length l) (length done) t).
Proof.
  revert done t. induction l as [|x l IH]; intros done t Ht Hin Hnin Hmax; cbn [length map concat inputs_from_wire].
  { cbn [imap]. rewrite app_nil_r. cbn [length Nat.add] in Hin. rewrite <- Hin. destruct t. apply reads_ret. }
  cbn [length] in Hnin, Hmax. unfold input. rewrite Hin. cbn [length]. rewrite nth_zeros. cbv zeta.
  rewrite Hnin, (proj2 (Z.ltb_lt _ _)) by lia.
  replace (u16 (Z.of_nat (length done) + 1)) with (Z.of_nat (S (length done)))
    by (unfold u16; rewrite wrap_small by (unfold in_word; lia); lia).
  eapply reads_bind; [by apply reads_input|]. cbv zeta. rewrite insert_next.
  specialize (IH (done ++ [received_input tx (length done) x])).
  rewrite length_app in IH. cbn [length] in IH. rewrite Nat.add_1_r in IH. rewrite imap_cons, Nat.add_0_r.
  replace (imap ((fun j x => received_input tx (length done + j) x) ∘ S) l)
    with (imap (fun j x => received_input tx (S (length done) + j) x) l)
    by (apply imap_ext; intros j y _; cbn [compose]; f_equal; lia).
  replace (done ++ received_input tx (length done) x :: imap (fun j x => received_input tx (S (length done) + j) x) l)
    with ((done ++ [received_input tx (length done) x]) ++ imap (fun j x => received_input tx (S (length done) + j) x) l)
    by by rewrite <- app_assoc.
  specialize (IH (t{{inputs := (done ++ [received_input tx (length done) x]) ++ replicate (length l + k) zero_in}})).
  apply IH; [by destruct Ht; split|done|change (nin_with_path t = Z.of_nat (S (length done) + length l)); lia|lia].
Qed.

(** What is read of the body, whose checks passed when it was written. *)
Definition received_head (t : TxPay) : TxPay :=
  if tag_type tx =? CC_TYPE_MINT then
    t{{param_level := wrap 40 (param_level tx); zkproof := take 287 (zkproof tx) ++ [0]; zkkeyid := TX_MINT_ZKKEY_ID;
       donation_fp := wrap 16 (donation_fp tx); nout := TX_MINT_NOUT}}
  else
    t{{param_level := wrap 40 (param_level tx); zkproof := take 287 (zkproof tx) ++ [0]; zkkeyid := wrap 8 (zkkeyid tx);
       donation_fp := wrap 16 (donation_fp tx); nout := nout tx; nin_with_path := nin tx; nin := nin tx}}.

Lemma counts_byte_parts : 0 < nout tx <= 10 -> 0 < nin tx <= 8 -> nin_with_path tx = nin tx ->
  Z.shiftr (counts_byte tx) 4 + 1 = nout tx /\ Z.land (counts_byte tx) 15 + 1 = nin tx /\ 0 <= counts_byte tx < 256.
Proof.
  intros Ho Hi Hn. unfold counts_byte. rewrite Hn. rewrite lor_shiftl_add by (unfold in_word; lia). change (2 ^ 4) with 16.
  unfold u8. rewrite wrap_small by (unfold in_word; lia).
  rewrite Z.shiftr_div_pow2 by lia. change 15 with (2 ^ 4 - 1). rewrite land_mask by lia. change (2 ^ 4) with 16.
  rewrite Z.add_comm with (m := nin tx - 1), Z.div_add, Z.mod_add, Z.div_small, Z.mod_small by lia. lia.
Qed.

Lemma reads_head t : tx_shape tx -> body_ok tx -> reading_like t ->
  reads (head_bytes tx) (received_head t) (txpay_head_from_wire binbuf size t).
Proof.
  intros Hs Hok Ht. unfold txpay_head_from_wire, head_bytes, received_head, body_ok in *. cbv zeta.
  assert (Hz : Z.of_nat (length (take 287 (zkproof tx))) = zkproof_size - 1).
  { rewrite length_take, (shape_zkproof _ Hs). done. }
  eapply reads_bind; [eapply reads_int; [reflexivity|reflexivity|vm_compute; discriminate]|].
  eapply reads_bind; [apply reads_bytes; [exact Hz|vm_compute; discriminate]|].
  change (tag_type (t{{param_level := _; zkproof := _}})) with (tag_type t). rewrite (like_type t Ht).
  destruct (tag_type tx =? CC_TYPE_MINT) eqn:Em; cbn [app].
  - eapply reads_skip; [apply reads_ret|]. eapply reads_last; [eapply reads_int; [by rewrite app_nil_r|reflexivity|vm_compute; discriminate]|].
    change (tag_type (t{{param_level := _; zkproof := _; zkkeyid := _; donation_fp := _}})) with (tag_type t).
    rewrite (like_type t Ht), Em. apply Z.eqb_eq in Em. rewrite Em. change (pays_on_wire CC_TYPE_MINT) with false. cbv iota.
    apply reads_ret.
  - destruct Hok as (Hp & H1 & H2 & H3).
    eapply reads_bind; [eapply reads_last; [eapply reads_int; [reflexivity|reflexivity|vm_compute; discriminate]|apply reads_ret]|].
    eapply reads_bind; [eapply reads_int; [reflexivity|reflexivity|vm_compute; discriminate]|].
    change (tag_type (t{{param_level := _; zkproof := _; zkkeyid := _; donation_fp := _}})) with (tag_type t).
    rewrite (like_type t Ht), Hp.
    eapply reads_last; [eapply reads_int; [reflexivity|reflexivity|vm_compute; discriminate]|].
    destruct (counts_byte_parts) as (E1 & E2 & E3); [pose proof (shape_nout _ Hs); lia|pose proof (shape_nin _ Hs); lia|done|].
    change (8 * 1) with 8. rewrite (wrap_small 8 (counts_byte tx)) by exact E3. rewrite E1, E2. apply reads_ret.
Qed.

(** What is read back of a body, and of a message. *)
Definition received_body (t : TxPay) : TxPay :=
  let t := (received_head t){{allow_restricted_addresses := true}} in
  let t := t{{outputs := map (received_output tx) (live_outputs tx)
                           ++ replicate (10 - length (live_outputs tx)) zero_out}} in
  if tag_type tx =? CC_TYPE_MINT then match set_mint_inputs P t with inr t => t | inl _ => t end
  else t{{inputs := imap (received_input tx) (live_inputs tx) ++ replicate (8 - length (live_inputs tx)) zero_in}}.

Lemma length_live_outputs : tx_shape tx -> Z.of_nat (length (live_outputs tx)) = nout tx.
Proof. intros Hs. unfold live_outputs. rewrite length_take, (shape_outputs _ Hs). pose proof (shape_nout _ Hs). lia. Qed.
Lemma length_live_inputs : tx_shape tx -> Z.of_nat (length (live_inputs tx)) = nin tx.
Proof. intros Hs. unfold live_inputs. rewrite length_take, (shape_inputs _ Hs). pose proof (shape_nin _ Hs). lia. Qed.

(** The fields that a fresh transaction has and the payload is read into. *)
Record fresh (t : TxPay) : Prop := {
  fresh_allow : have_allow_restricted_addresses__ t = false;
  fresh_outputs : outputs t = replicate 10 zero_out;
  fresh_inputs : inputs t = replicate 8 zero_in;
  fresh_nin : nin t = 0;
  fresh_nin_with_path : nin_with_path t = 0
}.

Lemma reads_payload t : tx_shape tx -> body_ok tx -> reading_like t -> fresh t ->
  reads (concat (map (output_bytes tx) (live_outputs tx))
         ++ (if tag_type tx =? CC_TYPE_MINT then [] else concat (map (input_bytes tx) (live_inputs tx))))
    (received_body t) (txpay_payload_from_wire P binbuf size (received_head t)).
Proof.
  intros Hs Hok Ht Hf. unfold txpay_payload_from_wire, received_body. cbv zeta.
  pose proof (length_live_outputs Hs) as Hlo. pose proof (length_live_inputs Hs) as Hli.
  pose proof (shape_nout _ Hs) as Hno. pose proof (shape_nin _ Hs) as Hni.
  assert (Hh : nout (received_head t) = nout tx /\ outputs (received_head t) = outputs t
    /\ inputs (received_head t) = inputs t /\ reading_like (received_head t)
    /\ have_allow_restricted_addresses__ (received_head t) = false /\ 0 < nout tx).
  { unfold received_head, body_ok in *. destruct Ht, Hf. destruct (tag_type tx =? CC_TYPE_MINT);
      (split_and!; [try done|done|done|by split|done|]); [change (1 = nout tx); lia|lia|lia]. }
  destruct Hh as (H1 & H2 & H3 & H4 & H5 & H6).
  rewrite H1, H5. rewrite (proj2 (Z.eqb_neq (nout tx) 0)) by lia. cbn [negb andb].
  set (t1 := (received_head t){{allow_restricted_addresses := true}}).
  assert (Hn1 : nout t1 = nout tx) by exact H1.
  replace (Z.to_nat (nout t1)) with (length (live_outputs tx)) by (rewrite Hn1; lia). clear Hn1.
  eapply reads_bind.
  { apply (reads_outputs (live_outputs tx) [] (10 - length (live_outputs tx))).
    - by destruct H4; split.
    - change (outputs t1) with (outputs (received_head t)). rewrite H2, (fresh_outputs t Hf). cbn [app].
      f_equal. lia. }
  cbn [app].
  set (t2 := t1{{outputs := map (received_output tx) (live_outputs tx) ++ replicate (10 - length (live_outputs tx)) zero_out}}).
  change (nin t2) with (nin (received_head t)).
  unfold body_ok in Hok. destruct (tag_type tx =? CC_TYPE_MINT) eqn:Em.
  - assert (Hn : nin (received_head t) = 0) by (unfold received_head; rewrite Em; exact (fresh_nin t Hf)).
    rewrite Hn. change (Z.to_nat 0) with O. cbn [inputs_from_wire]. eapply reads_skip; [apply reads_ret|].
    change (tag_type t2) with (tag_type (received_head t)). rewrite (like_type _ H4), Em.
    unfold set_mint_inputs. change (tag_type t2) with (tag_type (received_head t)).
    change (nin t2) with (nin (received_head t)). rewrite (like_type _ H4), Em, Hn. cbn [negb Z.eqb]. apply reads_ret.
  - destruct Hok as (_ & _ & _ & Hp).
    assert (Hn : nin (received_head t) = nin tx /\ nin_with_path (received_head t) = nin tx)
      by (unfold received_head; by rewrite Em).
    destruct Hn as [Hn1 Hn2]. rewrite Hn1. replace (Z.to_nat (nin tx)) with (length (live_inputs tx)) by lia.
    eapply reads_last.
    { apply (reads_inputs (live_inputs tx) [] (8 - length (live_inputs tx))).
      - by destruct H4; split.
      - change (inputs t2) with (inputs (received_head t)). rewrite H3, (fresh_inputs t Hf). cbn [app]. f_equal. lia.
      - change (nin_with_path t2) with (nin_with_path (received_head t)). rewrite Hn2. cbn [length Nat.add]. lia.
      - cbn [length Nat.add]. lia. }
    cbn [app length Nat.add].
    match goal with |- context [tag_type ?x =? CC_TYPE_MINT] => change (tag_type x) with (tag_type (received_head t)) end.
    rewrite (like_type _ H4), Em. apply reads_ret.
Qed.

Lemma reads_body t : tx_shape tx -> body_ok tx -> reading_like t -> fresh t ->
  reads (body_bytes tx) (received_body t) (txpay_body_from_wire P binbuf size t).
Proof.
  intros Hs Hok Ht Hf. unfold txpay_body_from_wire, body_bytes.
  eapply reads_bind; [by apply reads_head|].
  assert (Hc : nout (received_head t) <= 10 /\ nin (received_head t) <= 8 /\ nin_with_path (received_head t) <= 8).
  { pose proof (shape_nout _ Hs) as Hno. pose proof (shape_nin _ Hs) as Hni. unfold received_head.
    destruct Hf as [_ _ _ Hn Hp]. destruct (tag_type tx =? CC_TYPE_MINT).
    - change (1 <= 10 /\ nin t <= 8 /\ nin_with_path t <= 8). lia.
    - change (nout tx <= 10 /\ nin tx <= 8 /\ nin tx <= 8). lia. }
  unfold TX_MAXOUT, TX_MAXIN, TX_MAXINPATH.
  eapply reads_skip; [apply reads_check, Z.ltb_ge; lia|]. eapply reads_skip; [apply reads_check, Z.ltb_ge; lia|].
  eapply reads_skip; [apply reads_check, Z.ltb_ge; lia|]. by apply reads_payload.
Qed.
End reads.

(** A transaction as it is read from the message that it was written as. *)
Definition received `{Hashes} (P : Z) (tx : TxPay) : TxPay :=
  let t := started (wire_tag tx) in
  let t := if TypeHasBareMsg (tag_type tx) then t else received_body P tx t in
  if append_data_length tx =? 0 then t
  else
    t{{append_wire_offset := append_wire_offset tx; append_data_length := append_data_length tx;
       append_data := take (Z.to_nat (append_data_length tx)) (append_data tx)
                      ++ replicate (Z.to_nat (TX_MAX_APPEND - append_data_length tx)) 0;
       refhash := le_val (blake2s 32 [] (take (Z.to_nat (append_data_length tx)) (append_data tx)))}}.

Lemma wire_tag_of_cases tx : wire_tag_of tx = TypeToWireTag (tag_type tx)
  \/ (TypeToWireTag (tag_type tx) = CC_TAG_TX /\ wire_tag_of tx = CC_TAG_TX_XDOMAIN).
Proof.
  unfold wire_tag_of. set (tag := TypeToWireTag (tag_type tx)).
  assert (Hf : forall {A} (f : A -> bool) l t0, t0 = tag \/ (tag = CC_TAG_TX /\ t0 = CC_TAG_TX_XDOMAIN) ->
    let t1 := fold_left (fun tag x => if (tag =? CC_TAG_TX) && f x then CC_TAG_TX_XDOMAIN else tag) l t0 in
    t1 = tag \/ (tag = CC_TAG_TX /\ t1 = CC_TAG_TX_XDOMAIN)).
  { intros A f l. induction l as [|x l IH]; intros t0 H0; [done|]. cbn [fold_left]. apply IH.
    destruct (Z.eqb_spec t0 CC_TAG_TX) as [Ht|]; cbn [andb]; [|done]. destruct (f x); [|done].
    destruct H0 as [->|[? ?]]; auto. }
  apply (Hf _ (fun txin => negb (in_M_domain txin =? default_domain__ tx))).
  apply (Hf _ (fun txout => negb (out_M_domain txout =? default_domain__ tx))). by left.
Qed.

Lemma tag_facts tx : is_tx_type (tag_type tx) = true ->
  let tag := wire_tag_of tx in
  TagType tag = tag_type tx /\ HasPOW tag = true /\ WireTag tag = tag /\ 0 <= tag < 2 ^ 32
  /\ (TagType tag =? 0) || (TagType tag =? CC_TYPE_BLOCK) || (TagType tag =? CC_TYPE_VOID) = false.
Proof.
  intros Ht. cbv zeta.
  assert (Hfin : forall t, is_tx_type t = true ->
    t ∈ [CC_TYPE_MINT; CC_TYPE_TXPAY; CC_TYPE_XCX_SIMPLE_BUY; CC_TYPE_XCX_SIMPLE_SELL;
    CC_TYPE_XCX_MINING_TRADE; CC_TYPE_XCX_NAKED_BUY; CC_TYPE_XCX_NAKED_SELL; CC_TYPE_XCX_PAYMENT]).
  { intros t Hx. unfold is_tx_type in Hx. apply existsb_exists in Hx as (x & Hx & E). apply Z.eqb_eq in E as <-.
    by apply list_elem_of_In. }
  destruct (wire_tag_of_cases tx) as [->|[Htag ->]].
  - apply Hfin in Ht. rewrite !elem_of_cons, elem_of_nil in Ht.
    repeat (destruct Ht as [->|Ht]; [by vm_compute|]). done.
  - apply Hfin in Ht. rewrite !elem_of_cons, elem_of_nil in Ht.
    repeat (destruct Ht as [Ht|Ht]; [rewrite Ht in Htag |- *; vm_compute in Htag; try done; by vm_compute|]). done.
Qed.

Lemma received_body_keeps P tx t :
  tag_type (received_body P tx t) = tag_type t /\ refhash (received_body P tx t) = refhash t.
Proof.
  unfold received_body, received_head. cbv zeta. destruct (tag_type tx =? CC_TYPE_MINT); [|done].
  unfold set_mint_inputs. destruct (negb _); [done|]. by destruct (negb _).
Qed.

Section reading_back.
Context `{Hashes} (P : Z) (tg : TxPay) (n : Z).
Hypothesis Hshape : tx_shape tg.
Hypothesis Hbare : TypeHasBareMsg (tag_type tg) = true \/ body_ok tg.
Hypothesis Htag : TagType (wire_tag tg) = tag_type tg.
Hypothesis Hpow : HasPOW (wire_tag tg) = true.
Hypothesis Hwire : WireTag (wire_tag tg) = wire_tag tg.
Hypothesis Happ : TypeIsXtx (tag_type tg) = true \/ append_data_length tg = 0.

Definition message : list Z := le_bytes 4 n ++ tail_bytes tg.
Hypothesis Hn : n = Z.of_nat (length message).

#[local] Abbreviation pre := (le_bytes 4 n ++ le_bytes 4 (wire_tag tg) ++ replicate 48 0).
#[local] Abbreviation body := (if TypeHasBareMsg (tag_type tg) then [] else body_bytes tg).
#[local] Abbreviation app_data := (take (Z.to_nat (append_data_length tg)) (append_data tg)).

Lemma message_eq : message = pre ++ body ++ app_data.
Proof. unfold message, tail_bytes. by rewrite <- !app_assoc. Qed.

Lemma message_length : 8 <= n < 2 ^ 31.
Proof.
  rewrite Hn. unfold message. rewrite length_app, length_le_bytes. pose proof (length_tail_bytes tg Hshape).
  assert (4 <= length (tail_bytes tg))%nat by (unfold tail_bytes; rewrite length_app, length_le_bytes; lia). lia.
Qed.

(** The transaction after its body has been read. *)
Definition after_body : TxPay :=
  if TypeHasBareMsg (tag_type tg) then started (wire_tag tg) else received_body P tg (started (wire_tag tg)).

Lemma reads_message_body :
  (if negb (TypeHasBareMsg (tag_type tg)) then txpay_body_from_wire P message (Z.of_nat (length message)) (started (wire_tag tg))
   else mret (started (wire_tag tg))) (start_of (wire_tag tg))
  = Ret (inr (after_body, Z.of_nat (length (pre ++ body)))).
Proof.
  unfold start_of. rewrite Hpow. change (CC_MSG_HEADER_SIZE + TX_POW_SIZE) with (Z.of_nat (length pre)).
  assert (Hr : reads message body after_body
    (if negb (TypeHasBareMsg (tag_type tg)) then txpay_body_from_wire P message (Z.of_nat (length message)) (started (wire_tag tg))
     else mret (started (wire_tag tg)))).
  { unfold after_body. destruct (TypeHasBareMsg (tag_type tg)) eqn:Eb; cbn [negb]; [apply reads_ret|].
    destruct Hbare as [?|Hok]; [done|]. by apply reads_body. }
  apply (Hr pre app_data); [apply message_eq|]. pose proof message_length. lia.
Qed.

Lemma append_fields :
  append_from_wire message (Z.of_nat (length message)) (Z.of_nat (length message)) after_body (Z.of_nat (length (pre ++ body)))
  = Ret (inr (if append_data_length tg =? 0 then after_body else
      after_body{{append_wire_offset := n - append_data_length tg; append_data_length := append_data_length tg;
        append_data := app_data ++ replicate (Z.to_nat (TX_MAX_APPEND - append_data_length tg)) 0;
        refhash := le_val (blake2s 32 [] app_data)}}, n)).
Proof.
  pose proof message_length as Hm. pose proof (shape_append _ Hshape) as Ha. pose proof (shape_append_length _ Hshape) as Hb.
  assert (Hl : Z.of_nat (length app_data) = append_data_length tg) by (rewrite length_take, Ha; lia).
  assert (Hsum : n = Z.of_nat (length (pre ++ body)) + append_data_length tg).
  { rewrite Hn, message_eq at 1. rewrite app_assoc, (length_app (pre ++ body)). lia. }
  rewrite <- Hn. unfold append_from_wire. cbv zeta.
  replace (u32 (n - Z.of_nat (length (pre ++ body)))) with (append_data_length tg).
  2:{ rewrite u32_small by lia. lia. }
  destruct (Z.eqb_spec (append_data_length tg) 0) as [E0|E0].
  { assert (Z.of_nat (length (pre ++ body)) = n) as -> by lia. done. }
  destruct Happ as [Hx|?]; [|done].
  assert (Hkeep : tag_type after_body = tag_type tg /\ refhash after_body = 0).
  { unfold after_body. destruct (TypeHasBareMsg (tag_type tg)); [split; [exact Htag|done]|].
    destruct (received_body_keeps P tg (started (wire_tag tg))) as [-> ->]. split; [exact Htag|done]. }
  destruct Hkeep as [Hk1 Hk2]. rewrite Hk1, Hx. cbn [negb].
  unfold mbind at 1, wired_bind at 1. cbn [wcheck mret wired_ret].
  unfold mbind at 1, wired_bind at 1.
  pose proof (reads_bytes message TX_MAX_APPEND (append_data_length tg) app_data Hl ltac:(unfold TX_MAX_APPEND; lia)
    (pre ++ body) []) as Hr.
  rewrite <- Hn in Hr. rewrite Hr; [|by rewrite message_eq, app_nil_r, app_assoc|lia].
  rewrite (length_app (pre ++ body)), Nat2Z.inj_add, Hl, <- Hsum.
  cbv zeta. change (refhash (after_body{{append_wire_offset := _; append_data_length := _; append_data := _}})) with (refhash after_body).
  rewrite Hk2.
  change (append_data_length (after_body{{append_wire_offset := _; append_data_length := ?x; append_data := _}})) with x.
  change (append_data (after_body{{append_wire_offset := _; append_data_length := _; append_data := ?x}})) with x.
  rewrite (proj2 (Z.eqb_neq _ 0) E0), (take_app_length' _ _ (Z.to_nat (append_data_length tg))) by lia.
  replace (Z.of_nat (length (pre ++ body))) with (n - append_data_length tg) by lia. done.
Qed.
End reading_back.

(** C34. What [txpay_to_wire] writes when it checks for errors, [tx_from_wire] reads back:
    every field on the wire comes back, at its width on the wire, and the others as the
    reader sets them. *)
Theorem tx_wire_roundtrip `{Hashes} P err_check tx binbuf tx' n out :
  tx_shape tx -> err_check <> 0 ->
  TypeIsXtx (tag_type tx) = true \/ append_data_length tx = 0 ->
  txpay_to_wire err_check (Z.of_nat (length binbuf)) tx binbuf = Ret (inr (tx', (n, out))) ->
  tx_from_wire P (take (Z.to_nat n) out) n = Ret (inr (received P tx')).
Proof.
  intros Hs Hc Happ E. destruct (txpay_to_wire_writes err_check tx binbuf Hc Hs tx' n out E) as ([Hn Hb Ht Hbody] & Hfit & Htx).
  destruct (tag_facts tx Ht) as (F1 & F2 & F3 & F4 & F5).
  set (tg := tagged tx) in *. pose proof (tagged_shape tx Hs) as Hs'. fold tg in Hs'.
  assert (Hn' : n = Z.of_nat (length (message tg n))) by (rewrite Hn; unfold message; by rewrite !length_app, !length_le_bytes).
  rewrite Hb. change (le_bytes 4 n ++ tail_bytes tg) with (message tg n).
  pose proof (message_length tg n Hs' Hn') as Hm. rewrite Hn' at 2.
  assert (Hsize : le_val (take 4 (message tg n)) = Z.of_nat (length (message tg n))).
  { rewrite <- Hn'. unfold message. rewrite take_app_length' by (by rewrite length_le_bytes).
    apply le_val_bytes_small. unfold in_word. lia. }
  assert (Htg : le_val (take 4 (drop 4 (message tg n))) = wire_tag tg).
  { unfold message, tail_bytes. rewrite drop_app_length' by (by rewrite length_le_bytes).
    rewrite take_app_length' by (by rewrite length_le_bytes). by apply le_val_bytes_small. }
  rewrite tx_from_wire_eq by (exact Hsize || lia). rewrite Htg.
  change (wire_tag_of tx) with (wire_tag tg) in F1, F2, F3, F5. change (tag_type tx) with (tag_type tg) in F1, Happ.
  rewrite F5, F1.
  unfold mbind, wired_bind.
  rewrite (reads_message_body P tg n) by assumption. rewrite (append_fields P tg n) by assumption.
  rewrite <- Hn', Z.ltb_irrefl. rewrite Htx. unfold received. change (append_data_length tg) with (append_data_length tx).
  destruct (append_data_length tx =? 0) eqn:E0.
  - change (append_data_length tg) with (append_data_length tx). by rewrite E0.
  - change (append_data_length (tg{{append_wire_offset := _}})) with (append_data_length tx). by rewrite E0.
Qed.


(** A payment of one output and one input. *)
Definition demo_payment : TxPay :=
  tx_init{{tag_type := CC_TYPE_TXPAY; param_level := 7; zkproof := replicate 288 5; zkkeyid := 3; donation_fp := 99;
           nout := 1; nin := 1; nin_with_path := 1;
           outputs := mkTxOut 0 false 17 0 0 0 false TX_ASSET_WIRE_MASK 21 false TX_AMOUNT_MASK 22 23 :: replicate 9 zero_out;
           inputs := mkTxIn 0 0 1 0 0 0 0 0 0 0 0 0 false 31 32 0 1 :: replicate 7 zero_in}}.

Lemma tx_wire_roundtrip_witness :
  exists tx' n out, txpay_to_wire 1 512 demo_payment (replicate 512 0) = Ret (inr (tx', (n, out)))
    /\ tx_from_wire (H := demo_hashes) 1000003 (take (Z.to_nat n) out) n
       = Ret (inr (received (H := demo_hashes) 1000003 tx'))
    /\ M_address (output (received (H := demo_hashes) 1000003 tx') 0) = 17.
Proof.
  destruct (txpay_to_wire 1 512 demo_payment (replicate 512 0)) as [[rc|[tx' [n out]]]|e] eqn:E;
    [vm_compute in E; discriminate| |vm_compute in E; discriminate].
  exists tx', n, out. split; [done|]. split.
  - apply (tx_wire_roundtrip (H := demo_hashes) 1000003 1 demo_payment (replicate 512 0)); [|done|by right|exact E].
    split; try reflexivity; vm_compute; intuition discriminate.
  - vm_compute in E. injection E as <- _ _. reflexivity.
Defined.
