(* ===== verification/Xmatch.v ===== *)
(** * Exchange requests and matches (xtransaction-xreq.cpp, xmatch.hpp, xmatch.cpp)

    A request to exchange Creda for a foreign currency, its copy that is kept with its
    matches, and a match of a buyer with a seller: how they are made, the rates and amounts
    that follow from them, and what is left to pay.  Fields that only the wallet uses are
    left out.  Amounts are values of [bigint_t], here integers; conversions between amounts
    and floating point go through the third-party decimal library, the interface
    [AmtFloat]. *)
From S2P Require Import Prelude Objects Txs UniFloat.

Local Open Scope Z_scope.
Local Open Scope cc_scope.

(** ** Data *)

Definition XMATCH_REQ_DISPOSITION_VOID : Z := 0.
Definition XMATCH_REQ_DISPOSITION_EXPIRED_ALL : Z := 3.
Definition XMATCH_REQ_DISPOSITION_EXPIRED_REM : Z := 4.
Definition XMATCH_REQ_DISPOSITION_OPEN_ALL : Z := 5.
Definition XMATCH_REQ_DISPOSITION_OPEN_PART : Z := 6.
Definition XMATCH_REQ_DISPOSITION_MATCHED_PART : Z := 7.
Definition XMATCH_REQ_DISPOSITION_MATCHED_ALL : Z := 8.

Definition XMATCH_STATUS_VOID : Z := 0.
Definition XMATCH_STATUS_MATCHED : Z := 3.
Definition XMATCH_STATUS_ACCEPTED : Z := 6.
Definition XMATCH_STATUS_PART_PAID_OPEN : Z := 7.
Definition XMATCH_STATUS_PART_PAID_EXPIRED : Z := 8.
Definition XMATCH_STATUS_PAID : Z := 9.
Definition XMATCH_STATUS_UNPAID_EXPIRED : Z := 10.

Record Flags := mkFlags {
  add_immediately_to_blockchain : bool;
  auto_accept_matches : bool;
  no_minimum_after_first_match : bool;
  must_liquidate_crossing_minimum : bool;
  must_liquidate_below_minimum : bool;
  has_signing_key : bool
}.

(** The fields that [Xmatchreq::Init] copies from an [Xreq]. *)
Record Terms := mkTerms {
  t_type : Z;
  objid : list Z;
  t_expire_time : Z;
  base_asset : Z;
  t_quote_asset : Z;
  foreign_asset : list Z;
  t_foreign_address : list Z;
  destination : Z;
  signing_public_key : list Z;
  min_amount : Z;
  max_amount : Z;
  net_rate_required : double;
  wait_discount : double;
  base_costs : double;
  quote_costs : double;
  consideration_required : Z;
  consideration_offered : Z;
  pledge : Z;
  t_hold_time : Z;
  hold_time_required : Z;
  min_wait_time : Z;
  accept_time_required : Z;
  accept_time_offered : Z;
  t_payment_time : Z;
  confirmations : Z;
  flags : Flags
}.

(** The other fields of an [Xreq] that making a match reads. *)
Record Xreq := mkXreq {
  terms : Terms;
  xreqnum : Z;
  seqnum : Z;
  best_other_seqnum : Z;
  open_amount : Z;
  best_amount : Z;
  best_rate : double
}.

Record Xmatchreq := mkXmatchreq {
  q_terms : Terms;
  q_xreqnum : Z;
  delete_time : Z;
  disposition : Z;
  match_consideration : Z;
  q_open_amount : Z;
  have_matching : bool
}.

Record Xmatch := mkXmatch {
  m_type : Z;
  status : Z;
  m_xmatchnum : Z;
  next_deadline : Z;
  m_match_timestamp : Z;
  accept_timestamp : Z;
  final_timestamp : Z;
  base_amount : Z;
  rate : double;
  amount_paid : double;
  mining_amount : double;
  have_xreqs : bool;
  accept_time : Z;
  match_pledge : Z;
  xbuy : Xmatchreq;
  xsell : Xmatchreq
}.

Definition set_delete_time (q : Xmatchreq) (t : Z) : Xmatchreq :=
  mkXmatchreq (q_terms q) (q_xreqnum q) t (disposition q) (match_consideration q) (q_open_amount q) (have_matching q).

(** [asDouble asset amount] is [(double)asFullFloat(asset, amount)]; [amount_from_full asset v]
    is the result and the amount of [amount_from_float(asset, (amtfloat_t)v.asFullString(), _)]. *)
Class AmtFloat := {
  asDouble : Z -> Z -> double;
  amount_from_full : Z -> double -> Z * Z;
}.

(** ** Matches *)

(** [Xmatchreq::Init] for the node ([tx_id] is 0). *)
Definition Xmatchreq_Init (xreq other : Xreq) : outcome Xmatchreq :=
  let t := terms xreq in
  let o := terms other in
  let same := xreqnum xreq =? xreqnum other in
  ccassert! same || (best_other_seqnum xreq =? seqnum other) in
  ccassert! same || (consideration_required o <=? consideration_offered t) in
  ccassert! same || (accept_time_required t <=? accept_time_offered o) in
  Ret (mkXmatchreq t (xreqnum xreq) (u64 (t_expire_time t + t_payment_time t))
    (if (open_amount xreq =? 0) && (max_amount t =? 0) then XMATCH_REQ_DISPOSITION_EXPIRED_ALL
     else if open_amount xreq =? max_amount t then XMATCH_REQ_DISPOSITION_OPEN_ALL
     else if negb (open_amount xreq =? 0) && negb (bool_decide (t_foreign_address t = [])) then XMATCH_REQ_DISPOSITION_MATCHED_PART
     else if negb (open_amount xreq =? 0) then XMATCH_REQ_DISPOSITION_OPEN_PART
     else XMATCH_REQ_DISPOSITION_MATCHED_ALL)
    (consideration_required o) (open_amount xreq) true).

Definition same_terms (buyer seller : Xreq) : bool :=
  let b := terms buyer in
  let s := terms seller in
  (base_asset b =? base_asset s) && (t_quote_asset b =? t_quote_asset s)
  && bool_decide (foreign_asset b = foreign_asset s)
  && (best_amount buyer =? best_amount seller) && deq (best_rate buyer) (best_rate seller)
  && (pledge s <=? pledge b) && (t_payment_time s <=? t_payment_time b).

(** [Xmatch::Init]; the number is given when the match is made persistent. *)
Definition Xmatch_Init (matchtime : Z) (buyer seller : Xreq) : outcome Xmatch :=
  ccassert! same_terms buyer seller in
  let accept_time := Z.max (accept_time_required (terms buyer)) (accept_time_required (terms seller)) in
  let! qb := Xmatchreq_Init buyer seller in
  let! qs := Xmatchreq_Init seller buyer in
  ccassert! accept_time =? 0 in
  ccassert! auto_accept_matches (flags (q_terms qb)) in
  ccassert! auto_accept_matches (flags (q_terms qs)) in
  let deadline := u64 (matchtime + t_payment_time (terms seller)) in
  let qb := if delete_time qb <? deadline then set_delete_time qb deadline else qb in
  ccassert! negb (delete_time qs <? deadline) || bool_decide (t_foreign_address (q_terms qs) = []) in
  let qs := if delete_time qs <? deadline then set_delete_time qs deadline else qs in
  Ret (mkXmatch (t_type (terms buyer)) XMATCH_STATUS_ACCEPTED 0 deadline matchtime matchtime 0
    (best_amount buyer) (best_rate buyer) zero zero true accept_time (pledge (terms buyer)) qb qs).

Definition StatusIsOpen (status : Z) : bool :=
  (status =? 0) || (XMATCH_STATUS_MATCHED <=? status) && (status <=? XMATCH_STATUS_PART_PAID_OPEN).
Definition StatusIsClosed (status : Z) : bool := negb (StatusIsOpen status).
Definition StatusIsPending (status : Z) : bool :=
  (status =? 0) || (XMATCH_STATUS_MATCHED <=? status) && (status <? XMATCH_STATUS_ACCEPTED).

Definition IsOpen (q : Xmatchreq) : bool :=
  (disposition q =? 0) || (disposition q =? XMATCH_REQ_DISPOSITION_OPEN_ALL)
  || (disposition q =? XMATCH_REQ_DISPOSITION_OPEN_PART).
Definition IsClosed (q : Xmatchreq) : bool := negb (IsOpen q).

(** ** Rates *)

Definition RateSign (isbuyer : bool) : Z := if isbuyer then -1 else 1.
Definition SignedRate (isbuyer : bool) (rate : double) : double := if isbuyer then neg rate else rate.

(** [sign * DBL_MAX] as a [UniFloat]. *)
Definition signed_max (sign : Z) : outcome double :=
  UniFloat_of (mkD (sign * d_m DBL_MAX) (d_e DBL_MAX)) 0.

Definition QuoteAmount (base_amount rate : double) : outcome double := Multiply base_amount rate 1.

Definition NetRate (t : Terms) (base_amount rate : double) (rounding : Z) : outcome double :=
  let sign := RateSign (TypeIsBuyer (t_type t)) in
  let! base := Add base_amount (ApplySign sign (base_costs t)) (- rounding) false in
  if d_m base =? 0 then signed_max sign
  else
    let! quote := Multiply base_amount rate rounding in
    let! quote := Add quote (ApplySign (- sign) (quote_costs t)) rounding false in
    Divide quote base rounding.

Definition MatchRateRequired (t : Terms) (base_amount : double) (rounding : Z) : outcome double :=
  let sign := RateSign (TypeIsBuyer (t_type t)) in
  if d_m base_amount =? 0 then signed_max sign
  else
    let! result := Add base_amount (ApplySign sign (base_costs t)) rounding false in
    let! result := Multiply result (net_rate_required t) 0 in
    let! result := Add result (ApplySign sign (quote_costs t)) rounding false in
    let! result := Divide result base_amount rounding in
    Ret (if (sign <? 0) && dlt (net_rate_required t) result || (0 <? sign) && dlt result (net_rate_required t)
         then net_rate_required t else result).

Section amounts.
Context `{AmtFloat}.

Definition asUniFloat (asset amount : Z) : outcome double := UniFloat_of (asDouble asset amount) 0.

Definition Xmatch_QuoteAmount (m : Xmatch) : outcome double :=
  let! base := asUniFloat (base_asset (q_terms (xsell m))) (base_amount m) in
  QuoteAmount base (rate m).

(** What is left to pay, as computed by the node, and rounded up to a value that a payment
    can state. *)
Definition AmountLeft (m : Xmatch) : outcome double :=
  if status m =? XMATCH_STATUS_PAID then Ret zero
  else
    let! quote := Xmatch_QuoteAmount m in
    let! amount := Add quote (neg (amount_paid m)) 1 false in
    Ret (if dlt amount zero then zero else amount).

Definition AmountToPay `{Libm} (m : Xmatch) (roundup : bool) : outcome double :=
  let! amount := AmountLeft m in
  if negb roundup || (status m =? XMATCH_STATUS_PAID) then Ret amount
  else
    let! encoded := WireEncode amount 1 true in
    let! result := WireDecode encoded 0 true in
    ccassert! dle amount result in
    let! check_encoded := WireEncode result (-1) true in
    let! check_decoded := WireDecode check_encoded 0 true in
    ccassert! dle amount check_decoded in
    Ret result.
End amounts.
