(* ===== verification/XtxWire.v ===== *)
(** * The wire format of exchange messages (src/source/cclib/src/xtransaction*.cpp)

    Requests to exchange and claims of payments as data of a transaction: writing
    ([DataToWire]), reading ([DataFromWire]), and the checks of foreign addresses.  The
    computations are those of TxWire.v; times, amounts, rates and strings are coded as in
    Block.v, TxAmount.v, WireFloat.v, MapValues.v and AlphaCode.v. *)
From S2P Require Import Prelude Block Encode AlphaCode MapValues Objects Txs UniFloat WireFloat ValidObjs TxAmount TxWire Xmatch.
From coqutil Require Import Datatypes.RecordSetters.
Import DoubleBraceUpdate.

Local Open Scope Z_scope.
Local Open Scope cc_scope.

(** ** Constants of xtransaction.hpp and xtransaction-xreq.hpp *)

Definition XTX_MAX_ITEM_SIZE : Z := 247.
Definition XREQ_BLOCKCHAIN_BTC : Z := 1.
Definition XREQ_SYMBOL_BTC : list Z := [98; 116; 99].
Definition XREQ_SYMBOL_BCH : list Z := [98; 99; 104].
Definition XREQ_SIMPLE_PLEDGE : Z := 50.
Definition XREQ_SIMPLE_HOLD_TIME : Z := 60.
Definition XREQ_SIMPLE_WAIT_TIME : Z := 60.
Definition XREQ_MAINNET_CONFIRMATIONS : Z := 12.
Definition XREQ_TESTNET_CONFIRMATIONS : Z := 2.
Definition XREQ_MAINNET_PAYMENT_TIME : Z := (60 * XREQ_MAINNET_CONFIRMATIONS + 0) * 60.
Definition XREQ_TESTNET_PAYMENT_TIME : Z := (30 * XREQ_TESTNET_CONFIRMATIONS + 30) * 60.
Definition CC_BLOCKTIME_WIRE_BYTES : Z := 4.
Definition XCX_BLOCKCHAIN_WIRE_BYTES : Z := 2.
Definition XCX_CONFIRMATIONS_WIRE_BYTES : Z := 1.
Definition UNIFLOAT_WIRE_BYTES : Z := 4.
(** [sizeof(strbuf)] *)
Definition strbuf_size : Z := 288.
(** [(amount_bits + 7) / 8] for the [amount_bits] that [ExtractXtx] sets. *)
Definition amount_bytes : Z := 5.

Definition DefaultPaymentTime (istestnet : bool) : Z := if istestnet then XREQ_TESTNET_PAYMENT_TIME else XREQ_MAINNET_PAYMENT_TIME.
Definition DefaultConfirmations (istestnet : bool) : Z := if istestnet then XREQ_TESTNET_CONFIRMATIONS else XREQ_MAINNET_CONFIRMATIONS.

(** ** Data *)

(** The fields of a claim; those from [pay_match_timestamp] on are set from the match. *)
Record Xpay := mkXpay {
  pay_type : Z;
  pay_xmatchnum : Z;
  foreign_amount : double;
  foreign_amount_fp : Z;
  pay_foreign_block_id : list Z;
  pay_foreign_txid : list Z;
  pay_match_timestamp : Z;
  pay_payment_time : Z;
  pay_foreign_blockchain : Z;
  pay_foreign_confirmations_required : Z;
  pay_foreign_address : list Z;
  pay_match_left_to_pay : double
}.

Inductive Xtx :=
| XReq (t : Terms)
| XPay (p : Xpay)
| XBase (type : Z).

Definition type_of (x : Xtx) : Z := match x with XReq t => t_type t | XPay p => pay_type p | XBase type => type end.
Definition set_type (x : Xtx) (type : Z) : Xtx :=
  match x with XReq t => XReq (t{{t_type := type}}) | XPay p => XPay (p{{pay_type := type}}) | XBase _ => XBase type end.

Definition no_flags : Flags := mkFlags false false false false false false.
Definition empty_terms (type : Z) : Terms :=
  mkTerms type [] 0 0 0 [] [] 0 [] 0 0 zero zero zero zero 0 0 0 0 0 0 0 0 0 0 no_flags.
Definition empty_pay (type : Z) : Xpay := mkXpay type 0 zero 0 [] [] 0 0 0 0 [] zero.

(** [Xtx::New]. *)
Definition New (type : Z) : option Xtx :=
  if TypeIsXreq type then Some (XReq (empty_terms type))
  else if TypeIsXpay type then Some (XPay (empty_pay type))
  else if TypeIsXtx type then Some (XBase type)
  else None.

(** ** Times and addresses *)

Definition Encode_Time (timestamp : Z) : Z := le_val (packed_SetValue 4 1 TX_TIME_OFFSET timestamp).
Definition Decode_Time (timestamp : Z) : Z := u64 (le_val (le_bytes 4 timestamp) + TX_TIME_OFFSET).

(** Index of the last [c]. *)
Fixpoint rfind (c : Z) (s : list Z) : option nat :=
  match s with
  | [] => None
  | x :: s => match rfind c s with Some i => Some (S i) | None => if x =? c then Some O else None end
  end.

Definition bad_char (c : Z) : bool :=
  ((c <? 48) || (57 <? c)) && ((c <? 97) || (122 <? c)) || (c =? 49) || (c =? 98) || (c =? 105) || (c =? 111).

(** True: the address is not valid. *)
Definition CheckForeignAddress (t : Terms) : bool :=
  if negb (TypeIsCrosschain (t_type t)) || negb (TypeIsSeller (t_type t)) then false
  else
    let str := t_foreign_address t in
    let len := Z.of_nat (length str) in
    if t_quote_asset t =? XREQ_BLOCKCHAIN_BTC then
      if negb (len =? 42) && negb (len =? 62) then true
      else if negb (bool_decide (take 4 str = [98; 99; 49; 113])) && negb (bool_decide (take 4 str = [116; 98; 49; 113])) then true
      else existsb bad_char (drop 4 str)
    else if t_quote_asset t =? XREQ_BLOCKCHAIN_BCH then
      if negb (len =? 42) then true
      else if negb (nth 0 str 0 =? 112) && negb (nth 0 str 0 =? 113) then true
      else existsb bad_char (drop 1 str)
    else existsb bad_char str.

Definition NormalizeForeignAddress (t : Terms) : bool * Terms :=
  if negb (TypeIsCrosschain (t_type t)) || negb (TypeIsSeller (t_type t)) then (false, t)
  else
    let t :=
      if (t_quote_asset t =? XREQ_BLOCKCHAIN_BTC) || (t_quote_asset t =? XREQ_BLOCKCHAIN_BCH) then
        let a := t_foreign_address t in
        let a := match rfind 63 a with Some pos => take pos a | None => a end in
        let a := match rfind 58 a with Some pos => drop (S pos) a | None => a end in
        t{{t_foreign_address := a}}
      else t in
    (CheckForeignAddress t, t).

(** The types whose terms are fixed. *)
Definition fixed_terms (type : Z) : bool :=
  (CC_TYPE_XCX_NAKED_BUY <=? type) && (type <=? CC_TYPE_XCX_SIMPLE_SELL) || (type =? CC_TYPE_XCX_MINING_TRADE).

(** An exception of the program is thrown on. *)
Definition lift {S A} (m : outcome A) : wired S A := fun s => match m with Ret a => Ret (inr (a, s)) | Throw e => Throw e end.
Definition throw_if {S} (b : bool) : wired S unit := if b then wthrow (RangeError 0) else mret tt.

(** ** Writing *)

Section writing.
Context `{Libm} (P : Z) (testnet : bool) (binsize : Z).

#[local] Abbreviation wr := (wired (Z * list Z)).

(** [cc_alpha_encode_best]; [None] is an error. *)
Definition alpha_encode (s : list Z) : wr (list Z) :=
  r ← lift (cc_alpha_encode_best s);
  match r with Some v => mret v | None => wthrow (RangeError 0) end.

(** A byte for the length less [less], and the string. *)
Definition string_to_wire (less : Z) (s : list Z) : wr unit :=
  v ← alpha_encode s;
  let encoded_size := u32 (Z.of_nat (length v) - less) in
  throw_if (XTX_MAX_ITEM_SIZE <? encoded_size);;
  copy_to_buf_int binsize 1 encoded_size;;
  copy_to_bufp binsize v.

Definition amount_to_wire (amount : Z) : wr unit :=
  copy_to_buf_int binsize amount_bytes (tx_amount_encode P amount false 0 UINT32_MAX (-1)).
Definition rate_to_wire (v : double) (rounding : Z) : wr unit :=
  fp ← lift (WireEncode v rounding true); copy_to_buf_int binsize UNIFLOAT_WIRE_BYTES fp.

Definition packed_flags (f : Flags) : Z :=
  fold_left (fun v (b : bool) => 2 * v + Z.b2z b)
    [add_immediately_to_blockchain f; auto_accept_matches f; no_minimum_after_first_match f;
     must_liquidate_crossing_minimum f; must_liquidate_below_minimum f; has_signing_key f] 0.

(** The considerations, times and confirmations. *)
Definition times_to_wire (t : Terms) : wr unit :=
  if fixed_terms (t_type t) then
    throw_if (negb (consideration_required t =? 0));;
    throw_if (negb (consideration_offered t =? 0));;
    (if TypeIsSimple (t_type t) then throw_if (negb (pledge t =? XREQ_SIMPLE_PLEDGE)) else throw_if (negb (pledge t =? 0)));;
    throw_if (negb (t_hold_time t =? XREQ_SIMPLE_HOLD_TIME));;
    throw_if (negb (hold_time_required t =? XREQ_SIMPLE_HOLD_TIME));;
    throw_if (negb (accept_time_required t =? 0));;
    throw_if (negb (accept_time_offered t =? 0));;
    throw_if (negb (t_payment_time t =? DefaultPaymentTime testnet));;
    throw_if (negb (confirmations t =? DefaultConfirmations testnet))
  else
    throw_if (255 <? consideration_required t);; copy_to_buf_int binsize 1 (consideration_required t);;
    throw_if (255 <? consideration_offered t);; copy_to_buf_int binsize 1 (consideration_offered t);;
    throw_if (255 <? pledge t);; copy_to_buf_int binsize 1 (pledge t);;
    throw_if (255 <? t_hold_time t);; copy_to_buf_int binsize 1 (t_hold_time t);;
    throw_if (255 <? hold_time_required t);; copy_to_buf_int binsize 1 (hold_time_required t);;
    throw_if (255 <? accept_time_required t);; copy_to_buf_int binsize 1 (accept_time_required t);;
    throw_if (255 <? accept_time_offered t);; copy_to_buf_int binsize 1 (accept_time_offered t);;
    match map_exp_encode paytime_params (t_payment_time t) true with
    | None => wthrow FuelOut
    | Some enc => throw_if (255 <? enc);; copy_to_buf_int binsize 1 enc
    end;;
    let encoded_confirmations := u32 (confirmations t - 1) in
    throw_if (256 <=? encoded_confirmations);;
    copy_to_buf_int binsize XCX_CONFIRMATIONS_WIRE_BYTES encoded_confirmations.

(** [Xreq::DataToWire]; the request with its address normalized. *)
Definition Xreq_DataToWire (t : Terms) : wr Terms :=
  let trade := t_type t =? CC_TYPE_XCX_MINING_TRADE in
  wassert (TypeIsXreq (t_type t));;
  throw_if ((t_type t =? CC_TYPE_XCX_MINING_BUY) || (t_type t =? CC_TYPE_XCX_MINING_SELL));;
  throw_if (t_expire_time t =? 0);;
  let '(bad, t) := NormalizeForeignAddress t in
  throw_if bad;;
  copy_to_buf_int binsize CC_BLOCKTIME_WIRE_BYTES (Encode_Time (t_expire_time t));;
  copy_to_buf_int binsize 32 (destination t);;
  amount_to_wire (min_amount t);;
  (if negb trade then amount_to_wire (max_amount t) else throw_if (negb (max_amount t =? min_amount t)));;
  rate_to_wire (net_rate_required t) 0;;
  (if negb trade then rate_to_wire (wait_discount t) 0 else throw_if (negb (deq (wait_discount t) (mkD 1 0))));;
  throw_if (negb (base_asset t =? 0));;
  throw_if (negb (deq (base_costs t) zero));;
  throw_if (2 ^ 16 <=? t_quote_asset t);;
  copy_to_buf_int binsize XCX_BLOCKCHAIN_WIRE_BYTES (t_quote_asset t);;
  (if negb trade then rate_to_wire (quote_costs t) 0 else throw_if (negb (deq (quote_costs t) zero)));;
  times_to_wire t;;
  throw_if (255 <? min_wait_time t);;
  (if negb trade then copy_to_buf_int binsize 1 (min_wait_time t)
   else throw_if (negb (min_wait_time t =? XREQ_SIMPLE_WAIT_TIME)));;
  copy_to_buf_int binsize 1 (packed_flags (flags t));;
  (if negb (TypeIsCrosschain (t_type t)) then mret tt
   else if (t_quote_asset t =? XREQ_BLOCKCHAIN_BTC) && bool_decide (foreign_asset t = XREQ_SYMBOL_BTC)
        || (t_quote_asset t =? XREQ_BLOCKCHAIN_BCH) && bool_decide (foreign_asset t = XREQ_SYMBOL_BCH) then
     copy_to_buf_int binsize 1 0
   else string_to_wire 0 (foreign_asset t));;
  (if TypeIsCrosschain (t_type t) && TypeIsSeller (t_type t) then string_to_wire 1 (t_foreign_address t) else mret tt);;
  (if has_signing_key (flags t) then copy_to_bufp binsize (signing_public_key t) else mret tt);;
  (if t_type t =? CC_TYPE_XCX_NAKED_BUY then copy_to_buf_int binsize 8 0 else mret tt);;
  mret t.

(** [Xpay::DataToWire]. *)
Definition Xpay_DataToWire (p : Xpay) : wr unit :=
  wassert (TypeIsXpay (pay_type p));;
  copy_to_buf_int binsize 8 (pay_xmatchnum p);;
  rate_to_wire (foreign_amount p) (-1);;
  string_to_wire 1 (pay_foreign_txid p);;
  v ← alpha_encode (pay_foreign_block_id p);
  copy_to_bufp binsize v.
End writing.

(** ** Reading *)

Section reading.
Context (P : Z) (testnet old_tables : bool) (binbuf : list Z) (binsize : Z).

#[local] Abbreviation rd := (wired Z).
#[local] Abbreviation get := (copy_from_buf binbuf binsize).

(** [encoded] bytes of [strbuf], and their decoding over the string [s]. *)
Definition string_from_wire (encoded : Z) (s : list Z) : rd (list Z) :=
  strbuf ← copy_from_bufl strbuf_size encoded binbuf binsize;
  r ← lift (cc_alpha_decode_best old_tables (take (Z.to_nat encoded) strbuf) s (-1));
  match r with Some s => mret s | None => wthrow (RangeError 0) end.

Definition amount_from_wire : rd Z :=
  encoded ← get 8 amount_bytes; mret (tx_amount_decode P encoded).
Definition rate_from_wire : rd double :=
  encoded ← get 8 UNIFLOAT_WIRE_BYTES; lift (WireDecode encoded 0 true).

Definition times_from_wire (t : Terms) : rd Terms :=
  if fixed_terms (t_type t) then
    mret (t{{consideration_required := 0; consideration_offered := 0;
             pledge := if TypeIsSimple (t_type t) then XREQ_SIMPLE_PLEDGE else 0;
             t_hold_time := XREQ_SIMPLE_HOLD_TIME; hold_time_required := XREQ_SIMPLE_HOLD_TIME;
             accept_time_required := 0; accept_time_offered := 0;
             t_payment_time := DefaultPaymentTime testnet; confirmations := DefaultConfirmations testnet}})
  else
    x ← get 2 1; let t := t{{consideration_required := x}} in
    x ← get 2 1; let t := t{{consideration_offered := x}} in
    x ← get 2 1; let t := t{{pledge := x}} in
    x ← get 2 1; let t := t{{t_hold_time := x}} in
    x ← get 2 1; let t := t{{hold_time_required := x}} in
    x ← get 2 1; let t := t{{accept_time_required := x}} in
    x ← get 2 1; let t := t{{accept_time_offered := x}} in
    x ← get 4 1; let t := t{{t_payment_time := u16 (map_exp_decode paytime_params x)}} in
    x ← get 2 XCX_CONFIRMATIONS_WIRE_BYTES; mret (t{{confirmations := u16 (x + 1)}}).

Definition unpacked_flags (encoded : Z) : Flags :=
  mkFlags (Z.testbit encoded 5) (Z.testbit encoded 4) (Z.testbit encoded 3) (Z.testbit encoded 2)
    (Z.testbit encoded 1) (Z.testbit encoded 0).

(** [Xreq::DataFromWire]. *)
Definition Xreq_DataFromWire (t : Terms) : rd Terms :=
  let trade := t_type t =? CC_TYPE_XCX_MINING_TRADE in
  wassert (TypeIsXreq (t_type t));;
  throw_if ((t_type t =? CC_TYPE_XCX_MINING_BUY) || (t_type t =? CC_TYPE_XCX_MINING_SELL));;
  x ← get 8 CC_BLOCKTIME_WIRE_BYTES;
  let t := t{{t_expire_time := Decode_Time x}} in
  x ← get 32 32;
  let t := t{{destination := x}} in
  x ← amount_from_wire;
  let t := t{{min_amount := x}} in
  x ← (if negb trade then amount_from_wire else mret (min_amount t));
  let t := t{{max_amount := x}} in
  x ← rate_from_wire;
  let t := t{{net_rate_required := x}} in
  x ← (if negb trade then rate_from_wire else mret (mkD 1 0));
  let t := t{{wait_discount := x; base_asset := 0; base_costs := zero}} in
  x ← get 8 XCX_BLOCKCHAIN_WIRE_BYTES;
  let t := t{{t_quote_asset := x}} in
  x ← (if negb trade then rate_from_wire else mret zero);
  let t := t{{quote_costs := x}} in
  t ← times_from_wire t;
  x ← (if negb trade then get 2 1 else mret XREQ_SIMPLE_WAIT_TIME);
  let t := t{{min_wait_time := x}} in
  encoded ← get 8 1;
  let t := t{{flags := unpacked_flags encoded}} in
  t ← (if TypeIsCrosschain (t_type t) then
         encoded ← get 8 1;
         s ← string_from_wire encoded (foreign_asset t); mret (t{{foreign_asset := s}})
       else mret t);
  t ← (if TypeIsCrosschain (t_type t) && TypeIsSeller (t_type t) then
         encoded ← get 8 1;
         s ← string_from_wire (u64 (encoded + 1)) (t_foreign_address t);
         let t := t{{t_foreign_address := s}} in
         throw_if (CheckForeignAddress t);; mret t
       else mret t);
  t ← (if has_signing_key (flags t) then
         s ← copy_from_bufl 32 32 binbuf binsize; mret (t{{signing_public_key := s}})
       else mret t);
  (if t_type t =? CC_TYPE_XCX_NAKED_BUY then pow ← get 8 8; mret tt else mret tt);;
  mret t.

(** [Xpay::DataFromWire]: what is left after the transaction identifier is the block
    identifier, whose length wraps around when nothing is left. *)
Definition Xpay_DataFromWire (p : Xpay) : rd Xpay :=
  wassert (TypeIsXpay (pay_type p));;
  x ← get 8 8;
  let p := p{{pay_xmatchnum := x}} in
  x ← get 8 UNIFLOAT_WIRE_BYTES;
  let p := p{{foreign_amount_fp := x}} in
  v ← lift (WireDecode x 0 true);
  let p := p{{foreign_amount := v}} in
  encoded ← get 8 1;
  s ← string_from_wire (u64 (encoded + 1)) (pay_foreign_txid p);
  let p := p{{pay_foreign_txid := s}} in
  pos ← get_pos;
  let encoded := u32 (binsize - pos) in
  strbuf ← copy_from_bufl strbuf_size encoded binbuf binsize;
  pos ← get_pos;
  if binsize <? pos then mret p
  else
    r ← lift (cc_alpha_decode_best old_tables (take (Z.to_nat encoded) strbuf) (pay_foreign_block_id p) (-1));
    match r with Some s => mret (p{{pay_foreign_block_id := s}}) | None => wthrow (RangeError 0) end.

Definition DataFromWire (x : Xtx) : rd Xtx :=
  match x with
  | XReq t => t ← Xreq_DataFromWire t; mret (XReq t)
  | XPay p => p ← Xpay_DataFromWire p; mret (XPay p)
  | XBase _ => wthrow AssertFail
  end.

(** [Xtx::FromWire]: the tag 0 is ignored, the tag 1 is read. *)
Definition FromWire (wire_tag : Z) (x : Xtx) : rd Xtx :=
  wire_tag ← (if wire_tag =? 1 then
                tag ← get 4 4; wassert (negb (TypeToWireTag (type_of x) =? 0));; mret tag
              else mret wire_tag);
  x ← (if negb (wire_tag =? 0) then
         if negb (type_of x =? 0) && negb (type_of x =? TagType wire_tag) then wthrow (RangeError 0)
         else mret (set_type x (TagType wire_tag))
       else mret x);
  x ← DataFromWire x;
  pos ← get_pos;
  if binsize <? pos then wreturn 1 else mret x.
End reading.

(** [Xtx::ToWire] with its tag. *)
Section to_wire.
Context `{Libm} (P : Z) (testnet : bool) (binsize : Z).

Definition ToWire (x : Xtx) : wired (Z * list Z) Xtx :=
  let tag := TypeToWireTag (type_of x) in
  wassert (negb (tag =? 0));;
  copy_to_buf_int binsize 4 tag;;
  x ← match x with
      | XReq t => t ← Xreq_DataToWire P testnet binsize t; mret (XReq t)
      | XPay p => Xpay_DataToWire binsize p;; mret (XPay p)
      | XBase _ => wthrow AssertFail
      end;
  pos ← write_pos;
  if negb (binsize =? 0) && (binsize <? pos) then wreturn pos else mret x.
End to_wire.

(** The exchange message of a transaction: [None] when there is none or it cannot be read. *)
Definition FromWire_caught (P : Z) (testnet old_tables : bool) (x : Xtx) (data : list Z) : outcome (option Xtx) :=
  match FromWire P testnet old_tables data (Z.of_nat (length data)) 0 x 0 with
  | Ret (inr (x, _)) => Ret (Some x)
  | Ret (inl _) => Ret None
  | Throw BadAccess => Throw BadAccess
  | Throw FuelOut => Throw FuelOut
  | Throw _ => Ret None
  end.

(** ** Decoding never throws *)

Lemma decode_best_returns old data s : bytes_ok data -> exists r, cc_alpha_decode_best old data s (-1) = Ret r.
Proof.
  intros Hb. destruct data as [|b0 rest]; [by eexists|]. unfold cc_alpha_decode_best.
  apply Forall_cons in Hb as [Hb0 Hb].
  set (table := if _ && _ then _ else _). destruct (Z.ltb_spec 10 table) as [|Ht]; [by eexists|].
  cbv zeta. match goal with |- context [if ?x <? 0 then Ret (Some s) else _] => destruct (x <? 0) end; [by eexists|].
  assert (Htab : 2 <= cc_table_mod (nth (Z.to_nat table) best_decode_table []) <= 256).
  { assert (H0 : 0 <= table).
    { unfold table. destruct (_ && _); [lia|]. apply Z.shiftr_nonneg. unfold byte_ok, in_word in Hb0. lia. }
    generalize (Z.to_nat table), (ltac:(lia) : (Z.to_nat table <= 10)%nat). intros n Hn. clear -Hn.
    do 11 (destruct n as [|n]; [vm_compute; intuition discriminate|]). lia. }
  destruct (decide (rest = [])) as [->|Hne]; [by eexists|].
  destruct (Z.eqb_spec (cc_table_mod (nth (Z.to_nat table) best_decode_table [])) 256) as [E|E].
  - unfold cc_alpha_decode. rewrite (proj2 (Z.eqb_eq _ 256) E). destruct (_ || _); by eexists.
  - assert (Hdec : forall n, cc_alpha_decode (nth (Z.to_nat table) best_decode_table []) rest n s true
       = cc_alpha_decode (nth (Z.to_nat table) best_decode_table []) rest n [] true) by done.
    rewrite Hdec. match goal with |- context [cc_alpha_decode _ _ ?n [] true] =>
      destruct (alpha_decode_total (nth (Z.to_nat table) best_decode_table []) rest n ltac:(lia) Hb Hne) as (x & -> & _) end.
    by eexists.
Qed.

Lemma WireDecode_returns c : 0 <= c < 2 ^ 32 -> exists v, WireDecode c 0 true = Ret v.
Proof.
  intros Hc. destruct (Z.eq_dec c 0) as [->|Hn]; [by eexists; apply WireDecode_zero|].
  eexists. by apply WireDecode_value.
Qed.

(** ** Claims *)

Section claims.
Context (old_tables : bool) (data : list Z).
Hypothesis Hbytes : bytes_ok data.
Hypothesis Hlen : Z.of_nat (length data) < 2 ^ 31.

#[local] Abbreviation size := (Z.of_nat (length data)).

(** Where the transaction identifier of a claim ends. *)
Definition txid_end : Z := 14 + (if size <? 13 then 0 else nth 12 data 0).

(** An integer of [n] bytes at [pos], zero when the data ends first. *)
Lemma get_at n pos datasize : 0 <= n <= datasize -> 0 <= pos -> pos + n < 2 ^ 32 ->
  TxWire.copy_from_buf data size datasize n pos
  = Ret (inr (if pos + n <=? size then le_val (take (Z.to_nat n) (drop (Z.to_nat pos) data)) else 0, pos + n)).
Proof.
  intros Hn Hpos Hmax. unfold TxWire.copy_from_buf, mbind, wired_bind, copy_from_bufl, mret, wired_ret. cbv zeta.
  rewrite u32_small by lia. destruct (Z.leb_spec (pos + n) size) as [Hfit|_].
  - rewrite (proj2 (Z.ltb_ge datasize n)), (proj2 (Z.ltb_ge size _)) by lia. cbn [orb].
    unfold le_val. rewrite digits_val_app by lia.
    enough (forall k, digits_val 8 (replicate k 0) = 0) as -> by (rewrite Z.mul_0_r, Z.add_0_r; done).
    intros k. induction k as [|k IH]; cbn [replicate digits_val]; [done|]. rewrite IH. lia.
  - enough (forall k, digits_val 8 (replicate k 0) = 0) as -> by done.
    intros k. induction k as [|k IH]; cbn [replicate digits_val]; [done|]. rewrite IH. lia.
Qed.

Definition bytes_at (n pos : Z) : list Z :=
  if pos + n <=? size then take (Z.to_nat n) (drop (Z.to_nat pos) data) else replicate (Z.to_nat n) 0.

Lemma bytes_at_ok n pos : bytes_ok (bytes_at n pos).
Proof.
  unfold bytes_at. destruct (_ <=? _); [by apply Forall_take, Forall_drop|].
  apply Forall_replicate. unfold in_word. lia.
Qed.

Lemma copy_at n pos : 0 <= n <= strbuf_size -> 0 <= pos -> pos + n < 2 ^ 32 ->
  exists rest, copy_from_bufl strbuf_size n data size pos = Ret (inr (bytes_at n pos ++ rest, pos + n))
    /\ length (bytes_at n pos) = Z.to_nat n.
Proof.
  intros Hn Hpos Hmax. unfold copy_from_bufl, bytes_at. cbv zeta. rewrite u32_small by lia.
  destruct (Z.leb_spec (pos + n) size) as [Hfit|_].
  - rewrite (proj2 (Z.ltb_ge strbuf_size n)), (proj2 (Z.ltb_ge size _)) by lia. cbn [orb].
    eexists. split; [done|]. rewrite length_take, length_drop. lia.
  - exists (replicate (Z.to_nat (strbuf_size - n)) 0). rewrite length_replicate. split; [|done].
    rewrite <- replicate_add. do 3 f_equal. f_equal. lia.
Qed.

Lemma string_at n pos s : 0 <= n <= strbuf_size -> 0 <= pos -> pos + n < 2 ^ 32 ->
  exists r, cc_alpha_decode_best old_tables (bytes_at n pos) s (-1) = Ret r
    /\ string_from_wire old_tables data size n s pos
       = match r with Some s => Ret (inr (s, pos + n)) | None => Throw (RangeError 0) end.
Proof.
  intros Hn Hpos Hmax. destruct (decode_best_returns old_tables (bytes_at n pos) s (bytes_at_ok n pos)) as [r Hr].
  exists r. split; [done|]. destruct (copy_at n pos) as (rest & Hc & Hl); [done|done|done|].
  unfold string_from_wire, mbind, wired_bind. rewrite Hc, take_app_length' by done.
  unfold lift. rewrite Hr. by destruct r.
Qed.

(** Zeros always decode: they are symbols of the first table. *)
Lemma zeros_decode k s : exists s', cc_alpha_decode_best old_tables (replicate (S k) 0) s (-1) = Ret (Some s').
Proof.
  destruct (decode_best_returns old_tables (replicate (S k) 0) s) as [[s'|] E]; [|by exists s'|].
  { apply Forall_replicate. unfold in_word. lia. }
  exfalso. revert E. cbn [replicate]. unfold cc_alpha_decode_best. change (Z.shiftr 0 4) with 0. cbn [Z.eqb andb].
  cbv zeta. change (10 <? 0) with false. cbv iota.
  match goal with |- context [if ?x <? 0 then Ret (Some s) else _] => destruct (x <? 0) end; [done|].
  destruct (cc_alpha_decode _ _ _ _ _); done.
Qed.
End claims.

(** A claim whose data ends before its transaction identifier does makes the reader copy
    outside its buffers, and so does one with more than 288 bytes for the block identifier;
    no other claim does. *)
Theorem payment_claim_overruns old_tables data :
  bytes_ok data -> Z.of_nat (length data) < 2 ^ 31 ->
  Xpay_DataFromWire old_tables data (Z.of_nat (length data)) (empty_pay CC_TYPE_XCX_PAYMENT) 0 = Throw BadAccess
  <-> (Z.of_nat (length data) < txid_end data
       \/ txid_end data + strbuf_size < Z.of_nat (length data)
          /\ exists s, cc_alpha_decode_best old_tables (bytes_at data (txid_end data - 13) 13) [] (-1) = Ret (Some s)).
Proof.
  intros Hb Hl. set (size := Z.of_nat (length data)) in *.
  assert (He : 0 <= (if size <? 13 then 0 else nth 12 data 0) < 256).
  { destruct (Z.ltb_spec size 13); [lia|]. apply (Forall_nth byte_ok 0 data) with (i := 12%nat) in Hb; [exact Hb|lia]. }
  set (e := if size <? 13 then 0 else nth 12 data 0) in *.
  assert (Hend : txid_end data = 14 + e) by done. rewrite Hend.
  unfold Xpay_DataFromWire. unfold mbind at 1, wired_bind at 1. change (wassert _ 0) with (@Ret (Z + unit * Z) (inr (tt, 0))). cbv beta iota.
  unfold mbind at 1, wired_bind at 1. rewrite get_at by (done || lia).
  unfold mbind at 1, wired_bind at 1. rewrite get_at by (vm_compute; intuition discriminate).
  change (0 + 8 + UNIFLOAT_WIRE_BYTES) with 12.
  set (c := if 12 <=? _ then _ else 0).
  assert (Hc : 0 <= c < 2 ^ 32).
  { unfold c. destruct (_ <=? _); [|lia].
    pose proof (digits_val_range 8 ltac:(lia) (take (Z.to_nat UNIFLOAT_WIRE_BYTES) (drop (Z.to_nat (0 + 8)) data))
      ltac:(by apply Forall_take, Forall_drop)) as Hr.
    pose proof (length_take (drop (Z.to_nat (0 + 8)) data) (Z.to_nat UNIFLOAT_WIRE_BYTES)) as Ht.
    change (Z.to_nat UNIFLOAT_WIRE_BYTES) with 4%nat in *. unfold le_val. split; [lia|].
    eapply Z.lt_le_trans; [apply Hr|]. apply Z.pow_le_mono_r; lia. }
  cbv zeta. unfold mbind at 1, wired_bind at 1. destruct (WireDecode_returns c Hc) as [v Hv]. unfold lift at 1. rewrite Hv.
  unfold mbind at 1, wired_bind at 1. rewrite get_at by (done || lia).
  change (12 + 1) with 13.
  assert (Hval : (if 13 <=? size then le_val (take (Z.to_nat 1) (drop (Z.to_nat 12) data)) else 0) = e).
  { unfold e. destruct (Z.leb_spec 13 size), (Z.ltb_spec size 13); try lia. assert (Hlt : (12 < length data)%nat) by (clear -H; subst size; lia). change (Z.to_nat 1) with 1%nat. change (Z.to_nat 12) with 12%nat.
    assert (Hd : drop 12 data = nth 12 data 0 :: drop 13 data).
    { destruct (lookup_lt_is_Some_2 data 12 Hlt) as [x Hx]. rewrite nth_lookup, Hx. by apply drop_S. }
    rewrite Hd. cbn [take]. unfold le_val. cbn [digits_val]. rewrite take_0. cbn [digits_val]. lia. }
  fold size. rewrite Hval, u64_small by lia.
  destruct (string_at old_tables data Hb (e + 1) 13 []) as (r & Hr & Hs); [unfold strbuf_size; lia|lia|lia|].
  unfold mbind at 1, wired_bind at 1. fold size in Hs.
  change (pay_foreign_txid _) with (@nil Z). rewrite Hs.
  replace (14 + e - 13) with (e + 1) by lia. rewrite Hr.
  destruct r as [s|].
  2:{ split; [done|]. intros [Hshort|[_ [s Hx]]]; [|done]. exfalso.
      unfold bytes_at in Hr. fold size in Hr. rewrite (proj2 (Z.leb_gt _ size)) in Hr by lia.
      replace (Z.to_nat (e + 1)) with (S (Z.to_nat e)) in Hr by lia.
      destruct (zeros_decode old_tables data (Z.to_nat e) []) as [s' Hz]. congruence. }
  replace (13 + (e + 1)) with (14 + e) by lia.
  unfold mbind at 1, wired_bind at 1. cbn [get_pos]. cbv zeta.
  unfold mbind at 1, wired_bind at 1.
  destruct (Z.lt_ge_cases size (14 + e)) as [Hshort|Hok].
  - assert (Hn : u32 (size - (14 + e)) = size - (14 + e) + 2 ^ 32).
    { symmetry. apply Z.mod_unique_pos with (-1); lia. }
    rewrite Hn. unfold copy_from_bufl. cbv zeta.
    assert (Hp : u32 (14 + e + (size - (14 + e) + 2 ^ 32)) = size) by (symmetry; apply Z.mod_unique_pos with 1; lia).
    rewrite Hp, (proj2 (Z.leb_le size size)) by lia.
    rewrite (proj2 (Z.ltb_lt strbuf_size _)) by (unfold strbuf_size; lia). cbn [orb]. split; [auto|done].
  - rewrite u32_small by lia.
    destruct (Z.lt_ge_cases strbuf_size (size - (14 + e))) as [Hlong|Hfit].
    + unfold copy_from_bufl. cbv zeta. rewrite u32_small by lia.
      rewrite (proj2 (Z.leb_le _ size)), (proj2 (Z.ltb_lt strbuf_size _)) by lia. cbn [orb]. split; [|done].
      intros _. right. split; [lia|by exists s].
    + destruct (copy_at data (size - (14 + e)) (14 + e)) as (rest & Hc2 & Hl2); [lia|lia|lia|].
      fold size in Hc2. rewrite Hc2. unfold mbind at 1, wired_bind at 1.
      unfold get_pos at 1. cbv beta iota. replace (14 + e + (size - (14 + e))) with size by lia. rewrite Z.ltb_irrefl, take_app_length' by done.
      destruct (decode_best_returns old_tables (bytes_at data (size - (14 + e)) (14 + e)) [] (bytes_at_ok data Hb _ _)) as [r Hr2].
      unfold mbind, wired_bind, lift.
      change (pay_foreign_block_id _) with (@nil Z). rewrite Hr2.
      split; [by destruct r|]. intros [?|[? _]]; lia.
Qed.

(** A claim of five bytes, and one whose block identifier has 289 bytes. *)
Definition claim_5 : list Z := replicate 5 0.
Definition claim_303 : list Z := replicate 12 0 ++ [0; 0] ++ replicate 289 0.

Lemma payment_claim_overruns_witness :
  Xpay_DataFromWire false claim_5 5 (empty_pay CC_TYPE_XCX_PAYMENT) 0 = Throw BadAccess
  /\ Xpay_DataFromWire false claim_303 303 (empty_pay CC_TYPE_XCX_PAYMENT) 0 = Throw BadAccess.
Proof.
  split.
  - apply (payment_claim_overruns false claim_5); [|done|by left].
    apply Forall_replicate. unfold in_word. lia.
  - apply (payment_claim_overruns false claim_303); [|done|right].
    + unfold claim_303, bytes_ok, digits_ok. rewrite !Forall_app. split_and!; repeat constructor; lia || (apply Forall_replicate; unfold in_word; lia).
    + split; [done|]. eexists. vm_compute. reflexivity.
Defined.
