(* ===== verification/MatchTables.v ===== *)
(** * Tables of matches (dbconn-persistent.cpp, tables created in dbconn.cpp)

    The three tables that keep exchange matches and the requests they are made of, and the
    operations on them by their SQL statements.  Failures of the database engine are
    arguments.  Numbers and times are below 2^63, where SQL's signed integers agree with the
    unsigned ones of the code; blobs that the code reads have the size they were written
    with, so the checks of sizes are left out. *)
From S2P Require Import Prelude Rows Objects Txs UniFloat TxAmount Xmatch.
From stdpp Require Import gmap sorting.

Local Open Scope Z_scope.
Local Open Scope cc_scope.

(** ** Tables *)

Record match_row := mkMatchRow {
  c_buy : Z; c_sell : Z; c_type : Z; c_status : Z; c_deadline : Z;
  c_match_ts : Z; c_accept_ts : Z; c_final_ts : Z;
  c_base : Z; c_rate : double; c_paid : double; c_mining : double;
  c_accept_time : Z; c_buyer_cons : Z; c_seller_cons : Z; c_pledge : Z
}.

Record req_row := mkReqRow {
  r_disposition : Z; r_expire : Z; r_objid : list Z; r_type : Z;
  r_base_asset : Z; r_quote_asset : Z; r_foreign_asset : list Z;
  r_min : Z; r_max : Z;
  r_net_rate : double; r_discount : double; r_base_costs : double; r_quote_costs : double;
  r_flags : Z; r_cons_required : Z; r_cons_offered : Z; r_pledge : Z;
  r_hold : Z; r_hold_required : Z; r_min_wait : Z; r_accept_required : Z; r_accept_offered : Z;
  r_payment : Z; r_confirmations : Z
}.

(** Null columns are [None]. *)
Record matching_row := mkMatchingRow {
  g_delete : Z; g_quote : Z; g_unique : bool;
  g_address : option (list Z); g_destination : Z; g_key : option (list Z); g_open : option Z
}.

Record match_db := mkMatchDb {
  t_matches : gmap Z match_row;
  t_reqs : gmap Z req_row;
  t_matching : gmap Z matching_row
}.

(** "on conflict(Xmatchnum) do update set ..." *)
Definition update_match (old new : match_row) : match_row :=
  mkMatchRow (c_buy old) (c_sell old) (c_type old) (c_status new) (c_deadline new)
    (c_match_ts old) (c_accept_ts new) (c_final_ts new)
    (c_base new) (c_rate new) (c_paid new) (c_mining new)
    (c_accept_time old) (c_buyer_cons old) (c_seller_cons old) (c_pledge old).

(** "do update set Disposition = excluded.Disposition" *)
Definition set_disposition (r : req_row) (d : Z) : req_row :=
  mkReqRow d (r_expire r) (r_objid r) (r_type r) (r_base_asset r) (r_quote_asset r) (r_foreign_asset r)
    (r_min r) (r_max r) (r_net_rate r) (r_discount r) (r_base_costs r) (r_quote_costs r)
    (r_flags r) (r_cons_required r) (r_cons_offered r) (r_pledge r)
    (r_hold r) (r_hold_required r) (r_min_wait r) (r_accept_required r) (r_accept_offered r)
    (r_payment r) (r_confirmations r).

(** "do update set OpenAmount = excluded.OpenAmount, DeleteTime = max(DeleteTime, excluded.DeleteTime)" *)
Definition update_matching (old new : matching_row) : matching_row :=
  mkMatchingRow (Z.max (g_delete old) (g_delete new)) (g_quote old) (g_unique old)
    (g_address old) (g_destination old) (g_key old) (g_open new).

Definition upsert {A} (update : A -> A -> A) (k : Z) (new : A) (t : gmap Z A) : gmap Z A :=
  match t !! k with
  | None => <[k := new]> t
  | Some old => <[k := update old new]> t
  end.

(** ** Writing *)

Definition pack_flags (f : Flags) : Z :=
  fold_left (fun acc (b : bool) => Z.lor (Z.shiftl acc 1) (if b then 1 else 0))
    [add_immediately_to_blockchain f; auto_accept_matches f; no_minimum_after_first_match f;
     must_liquidate_crossing_minimum f; must_liquidate_below_minimum f] 0.

Definition blob_or_null {A} (null : bool) (a : A) : option A := if null then None else Some a.

Section ops.
(** The prime of the field of amounts. *)
Variable P : Z.

Definition encode_fp (amount : Z) : Z := tx_amount_encode P amount false 0 UINT32_MAX 3.

Definition row_of_req (q : Xmatchreq) : req_row :=
  let t := q_terms q in
  mkReqRow (disposition q) (t_expire_time t) (objid t) (t_type t) (base_asset t) (t_quote_asset t) (foreign_asset t)
    (encode_fp (min_amount t)) (encode_fp (max_amount t))
    (net_rate_required t) (wait_discount t) (base_costs t) (quote_costs t) (pack_flags (flags t))
    (consideration_required t) (consideration_offered t) (pledge t)
    (t_hold_time t) (hold_time_required t) (min_wait_time t) (accept_time_required t) (accept_time_offered t)
    (t_payment_time t) (confirmations t).

Definition BlockchainRequiresUniqueForeignAddress (foreign_blockchain : Z) : bool := true.

Definition row_of_matching (q : Xmatchreq) : matching_row :=
  let t := q_terms q in
  mkMatchingRow (delete_time q) (t_quote_asset t) (BlockchainRequiresUniqueForeignAddress (t_quote_asset t))
    (blob_or_null (bool_decide (t_foreign_address t = [])) (t_foreign_address t)) (destination t)
    (blob_or_null (negb (has_signing_key (flags t))) (signing_public_key t))
    (blob_or_null (q_open_amount q =? 0) (q_open_amount q)).

(** The table checks that [DeleteTime > 0]. *)
Definition XmatchingreqInsertInternal (db : match_db) (fault : bool) (q : Xmatchreq) : Z * match_db :=
  if fault || negb (0 <? delete_time q) then (-1, db)
  else (0, mkMatchDb (t_matches db) (t_reqs db) (upsert update_matching (q_xreqnum q) (row_of_matching q) (t_matching db))).

Definition XmatchreqInsertInternal (db : match_db) (fault fault2 : bool) (q : Xmatchreq) : Z * match_db :=
  if fault then (-1, db)
  else
    let db := mkMatchDb (t_matches db)
      (upsert (fun old new => set_disposition old (r_disposition new)) (q_xreqnum q) (row_of_req q) (t_reqs db))
      (t_matching db) in
    if have_matching q then XmatchingreqInsertInternal db fault2 q else (0, db).

Definition XmatchreqInsert (db : match_db) (fault fault2 : bool) (q : Xmatchreq) : Z * match_db :=
  let '(rc, db) := XmatchreqInsertInternal db fault fault2 q in (if rc =? 0 then 0 else -1, db).

Definition XmatchreqUpdate (db : match_db) (fault : bool) (xreqnum disposition : Z) : Z * match_db :=
  if fault then (-1, db)
  else if xreqnum =? 0 then (0, db)
  else (0, mkMatchDb (t_matches db) (alter (fun r => set_disposition r disposition) xreqnum (t_reqs db)) (t_matching db)).

Definition row_of_match (m : Xmatch) : match_row :=
  mkMatchRow (q_xreqnum (xbuy m)) (q_xreqnum (xsell m)) (m_type m) (status m) (next_deadline m)
    (m_match_timestamp m) (accept_timestamp m) (final_timestamp m)
    (base_amount m) (rate m) (amount_paid m) (mining_amount m)
    (accept_time m) (match_consideration (xbuy m)) (match_consideration (xsell m)) (match_pledge m).

(** [fault i]: the [i]th statement fails.  The amount is packed into 128 bits, which is
    asserted to work. *)
Definition XmatchInsert (db : match_db) (fault : nat -> bool) (m : Xmatch) : outcome (Z * match_db) :=
  ccassert! (0 <=? base_amount m) && (base_amount m <? 2 ^ 128) in
  Ret (if fault 0%nat then (-1, db)
       else
         let db := mkMatchDb (upsert update_match (m_xmatchnum m) (row_of_match m) (t_matches db)) (t_reqs db) (t_matching db) in
         if negb (have_xreqs m) then (0, db)
         else
           let '(rc, db) := XmatchreqInsertInternal db (fault 1%nat) (fault 2%nat) (xbuy m) in
           if negb (rc =? 0) then (-1, db)
           else
             let '(rc, db) := XmatchreqInsertInternal db (fault 3%nat) (fault 4%nat) (xsell m) in
             (if negb (rc =? 0) then -1 else 0, db)).

Definition XmatchingreqPrune (db : match_db) (fault : bool) (delete_time : Z) : Z * match_db :=
  if fault then (-1, db)
  else (0, mkMatchDb (t_matches db) (t_reqs db) (filter (fun row => delete_time <= g_delete (snd row)) (t_matching db))).

(** ** Reading *)

Definition unpack_flags (p : Z) (key : bool) : Flags :=
  mkFlags (Z.testbit p 4) (Z.testbit p 3) (Z.testbit p 2) (Z.testbit p 1) (Z.testbit p 0) key.

(** A column of numbers becomes a [UniFloat]. *)
Definition column_double (v : double) : outcome double := UniFloat_of v 0.

(** The columns of a request, from both tables; [cons] is the consideration that the
    caller has read from the row of the match. *)
Definition read_req (k : Z) (r : req_row) (g : option matching_row) (cons : Z) : outcome Xmatchreq :=
  let! net_rate := column_double (r_net_rate r) in
  let! discount := column_double (r_discount r) in
  let! bcosts := column_double (r_base_costs r) in
  let! qcosts := column_double (r_quote_costs r) in
  let key := g ≫= g_key in
  Ret (mkXmatchreq
    (mkTerms (r_type r) (r_objid r) (r_expire r) (r_base_asset r) (r_quote_asset r) (r_foreign_asset r)
       (default [] (g ≫= g_address)) (default 0 (g_destination <$> g)) (default [] key)
       (tx_amount_decode P (r_min r)) (tx_amount_decode P (r_max r))
       net_rate discount bcosts qcosts
       (r_cons_required r) (r_cons_offered r) (r_pledge r)
       (r_hold r) (r_hold_required r) (r_min_wait r) (r_accept_required r) (r_accept_offered r)
       (r_payment r) (r_confirmations r) (unpack_flags (r_flags r) (bool_decide (is_Some key))))
    k (default 0 (g_delete <$> g)) (r_disposition r) cons (default 0 (g ≫= g_open)) (bool_decide (is_Some g))).

(** Result code, and the request if it is 0; 1 when there is no request. *)
Definition XmatchreqSelectInternal (db : match_db) (k : Z) (matching_required : bool) (cons : Z)
  : outcome (Z * option Xmatchreq) :=
  match t_reqs db !! k with
  | None => Ret (1, None)
  | Some r =>
      if k =? 0 then Ret (1, None)
      else
        let g := t_matching db !! k in
        if matching_required && bool_decide (g = None) then Ret (-1, None)
        else let! q := read_req k r g cons in Ret (0, Some q)
  end.

(** The first row of a select over the matches and the requests that it joins. *)
Definition XmatchSelectInternal (db : match_db) (fault : bool) (rows : list (Z * match_row)) (matchnum : Z)
    (or_greater xreqs_required matching_required : bool) : outcome (Z * option Xmatch) :=
  if fault then Ret (-1, None)
  else
    match rows with
    | [] => Ret (1, None)
    | (num, c) :: _ =>
        if negb (num =? matchnum) && negb or_greater then Ret (1, None)
        else
          let! rate := column_double (c_rate c) in
          let! paid := column_double (c_paid c) in
          let! mining := column_double (c_mining c) in
          let! rb := XmatchreqSelectInternal db (c_buy c) matching_required (c_buyer_cons c) in
          match rb with
          | (0, Some qb) =>
              let! rs := XmatchreqSelectInternal db (c_sell c) matching_required (c_seller_cons c) in
              match rs with
              | (0, Some qs) =>
                  Ret (0, Some (mkXmatch (c_type c) (c_status c) num (c_deadline c) (c_match_ts c) (c_accept_ts c)
                    (c_final_ts c) (c_base c) rate paid mining true (c_accept_time c) (c_pledge c) qb qs))
              | _ => Ret (-1, None)
              end
          | _ => Ret (-1, None)
          end
    end.

Abbreviation by_number := (rank_le (fun _ => 0)).

(** "where Xmatchnum >= ?1 order by Xmatchnum limit 1" *)
Definition XmatchSelect (db : match_db) (fault : bool) (matchnum : Z) (or_greater xreqs_required matching_required : bool)
  : outcome (Z * option Xmatch) :=
  XmatchSelectInternal db fault (select_rows by_number (fun row => matchnum <= fst row) (t_matches db))
    matchnum or_greater xreqs_required matching_required.

(** "where (BuyXreqnum = ?1 or SellXreqnum = ?1) and Xmatchnum >= ?2 order by Xmatchnum limit 1" *)
Definition XmatchSelectReqnum (db : match_db) (fault : bool) (reqnum matchnum : Z) (xreqs_required matching_required : bool)
  : outcome (Z * option Xmatch) :=
  XmatchSelectInternal db fault
    (select_rows by_number (fun row => (c_buy (snd row) = reqnum \/ c_sell (snd row) = reqnum) /\ matchnum <= fst row) (t_matches db))
    matchnum true xreqs_required matching_required.

(** "where (NextDeadline < ?1) and NextDeadline > 0 order by NextDeadline, Xmatchnum limit 1" *)
Definition past_deadline (deadline : Z) (row : Z * match_row) : Prop :=
  c_deadline (snd row) < deadline /\ 0 < c_deadline (snd row).
#[export] Instance past_deadline_dec deadline row : Decision (past_deadline deadline row).
Proof. unfold past_deadline. apply _. Defined.

Definition XmatchSelectNextDeadline (db : match_db) (fault : bool) (deadline : Z) (xreqs_required matching_required : bool)
  : outcome (Z * option Xmatch) :=
  XmatchSelectInternal db fault (select_rows (rank_le c_deadline) (past_deadline deadline) (t_matches db))
    0 true xreqs_required matching_required.

(** The inner join of the tables of requests. *)
Definition XmatchreqSelectMatching (db : match_db) (fault : bool) (reqnum : Z) (or_greater : bool)
  : outcome (Z * option Xmatchreq) :=
  if fault then Ret (-1, None)
  else
    match select_rows by_number (fun row => reqnum <= fst row /\ is_Some (t_reqs db !! fst row)) (t_matching db) with
    | [] => Ret (1, None)
    | (k, _) :: _ =>
        let! r := XmatchreqSelectInternal db k true 0 in
        match r with
        | (0, Some q) => if negb (k =? reqnum) && negb or_greater then Ret (1, None) else Ret (0, Some q)
        | _ => Ret (-1, None)
        end
    end.

(** "where ObjId = ?1 and Xreqnum <= ?2 order by Xreqnum desc limit 1"; the number selected,
    or 0. *)
Definition XmatchreqSelectObjIdDescendingId (db : match_db) (fault fault2 : bool) (oid : list Z) (reqnum_start : Z) : Z * Z :=
  if fault then (-1, 0)
  else match rev (select_rows by_number (fun row => r_objid (snd row) = oid /\ fst row <= reqnum_start) (t_reqs db)) with
       | [] => (1, 0)
       | (k, _) :: _ => if fault2 then (-1, 0) else (0, k)
       end.

(** 0 when a request that is still needed has the address, 1 when none has. *)
Definition holds_address (prior_blocktime blockchain : Z) (addr : list Z) (g : matching_row) : Prop :=
  prior_blocktime <= g_delete g /\ g_quote g = blockchain /\ g_address g = Some addr /\ g_unique g = true.
#[export] Instance holds_address_dec prior_blocktime blockchain addr g : Decision (holds_address prior_blocktime blockchain addr g).
Proof. unfold holds_address. apply _. Defined.

Definition XmatchingreqUniqueForeignAddressSelect (db : match_db) (fault : bool) (prior_blocktime blockchain : Z) (addr : list Z)
  : outcome Z :=
  ccassert! negb (bool_decide (addr = [])) in
  Ret (if fault then -1
       else match filter (fun row => holds_address prior_blocktime blockchain addr (snd row)) (map_to_list (t_matching db)) with
            | [] => 1
            | _ :: _ => 0
            end).
End ops.
(** ** Reading what was written *)

Lemma unpack_pack_flags f : unpack_flags (pack_flags f) (has_signing_key f) = f.
Proof. destruct f as [[] [] [] [] [] []]; reflexivity. Qed.

Lemma upsert_lookup {A} update k (new : A) t :
  upsert update k new t !! k = Some (match t !! k with None => new | Some old => update old new end).
Proof. unfold upsert. destruct (t !! k); apply lookup_insert_eq. Qed.

Lemma upsert_lookup_ne {A} update k k' (new : A) t : k <> k' -> upsert update k new t !! k' = t !! k'.
Proof. intros Hne. unfold upsert. destruct (t !! k); apply lookup_insert_ne; exact Hne. Qed.

Lemma upsert_is_Some {A} update k k' (new : A) t : is_Some (t !! k') -> is_Some (upsert update k new t !! k').
Proof.
  intros H. destruct (decide (k = k')) as [->|Hne]; [rewrite upsert_lookup; eauto | rewrite upsert_lookup_ne by exact Hne; exact H].
Qed.

Section roundtrip.
Variable P : Z.

(** What the tables can hold: amounts that have an encoding, and portable floats in the
    form that [Recompose] gives them. *)
Definition exact_amount (a : Z) : Prop := tx_amount_decode P (encode_fp P a) = a.
Definition exact_double (v : double) : Prop := UniFloat_of v 0 = Ret v.

Record req_storable (q : Xmatchreq) : Prop := {
  rs_num : q_xreqnum q <> 0;
  rs_matching : have_matching q = true;
  rs_delete : 0 < delete_time q;
  rs_min : exact_amount (min_amount (q_terms q));
  rs_max : exact_amount (max_amount (q_terms q));
  rs_rate : exact_double (net_rate_required (q_terms q));
  rs_discount : exact_double (wait_discount (q_terms q));
  rs_bcosts : exact_double (base_costs (q_terms q));
  rs_qcosts : exact_double (quote_costs (q_terms q));
  rs_key : has_signing_key (flags (q_terms q)) = false -> signing_public_key (q_terms q) = []
}.

(** The rows of the request, if there are any, hold the columns that do not change. *)
Definition req_kept (db : match_db) (q : Xmatchreq) : Prop :=
  (forall r, t_reqs db !! q_xreqnum q = Some r -> set_disposition r (disposition q) = row_of_req P q)
  /\ (forall g, t_matching db !! q_xreqnum q = Some g ->
        mkMatchingRow (delete_time q) (g_quote g) (g_unique g) (g_address g) (g_destination g) (g_key g)
          (blob_or_null (q_open_amount q =? 0) (q_open_amount q)) = row_of_matching q).

(** The time of deletion that the table ends up with. *)
Definition kept_delete_time (db : match_db) (q : Xmatchreq) : Z :=
  match t_matching db !! q_xreqnum q with
  | None => delete_time q
  | Some g => Z.max (g_delete g) (delete_time q)
  end.

Definition stored_req (db : match_db) (q : Xmatchreq) : Xmatchreq := set_delete_time q (kept_delete_time db q).

Lemma read_row_of_req q : req_storable q ->
  read_req P (q_xreqnum q) (row_of_req P q) (Some (row_of_matching q)) (match_consideration q) = Ret q.
Proof.
  intros [Hnum Hm Hd Hmin Hmax Hr1 Hr2 Hr3 Hr4 Hkey]. destruct q as [t k dt disp mc oa hm]. destruct t as [? ? ? ? ? ? ? ? ? ? ? ? ? ? ? ? ? ? ? ? ? ? ? ? ? fl]. cbn in *. subst hm.
  unfold read_req, column_double. cbn -[pack_flags unpack_flags]. rewrite Hr1, Hr2, Hr3, Hr4. cbn [outcome_bind]. rewrite Hmin, Hmax.
  f_equal. f_equal.
  - f_equal.
    + unfold blob_or_null. case_bool_decide as E; [symmetry; exact E | reflexivity].
    + destruct (has_signing_key fl) eqn:E; cbn; [reflexivity | symmetry; apply Hkey; reflexivity].
    + etransitivity; [|apply unpack_pack_flags]. f_equal. destruct (has_signing_key fl); reflexivity.
  - unfold blob_or_null. destruct (Z.eqb_spec oa 0) as [->|]; reflexivity.
Qed.

(** Writing a request, then reading its columns. *)
Lemma insert_req db q : req_storable q -> req_kept db q ->
  exists db', XmatchreqInsertInternal P db false false q = (0, db')
    /\ t_matches db' = t_matches db
    /\ (forall k, k <> q_xreqnum q -> t_reqs db' !! k = t_reqs db !! k /\ t_matching db' !! k = t_matching db !! k)
    /\ t_reqs db' !! q_xreqnum q = Some (row_of_req P q)
    /\ t_matching db' !! q_xreqnum q = Some (row_of_matching (stored_req db q)).
Proof.
  intros Hs [Hr Hg]. unfold XmatchreqInsertInternal. rewrite (rs_matching q Hs). unfold XmatchingreqInsertInternal.
  rewrite (proj2 (Z.ltb_lt 0 _)) by apply Hs. cbn [orb negb t_matches t_reqs t_matching].
  eexists. split; [reflexivity|]. cbn [t_matches t_reqs t_matching]. split; [reflexivity|]. split; [|split].
  - intros k Hk. split; apply upsert_lookup_ne; auto.
  - rewrite upsert_lookup. destruct (t_reqs db !! q_xreqnum q) as [r|] eqn:E; [|reflexivity]. f_equal. apply Hr. reflexivity.
  - rewrite upsert_lookup. unfold stored_req, kept_delete_time. destruct (t_matching db !! q_xreqnum q) as [g|] eqn:E.
    + f_equal. specialize (Hg g eq_refl). unfold row_of_matching, update_matching in *. cbn in *. injection Hg as ? ? ? ? ?. subst.
      f_equal; assumption.
    + destruct q; reflexivity.
Qed.

Record match_storable (m : Xmatch) : Prop := {
  ms_amount : 0 <= base_amount m < 2 ^ 128;
  ms_xreqs : have_xreqs m = true;
  ms_rate : exact_double (rate m);
  ms_paid : exact_double (amount_paid m);
  ms_mining : exact_double (mining_amount m);
  ms_buy : req_storable (xbuy m);
  ms_sell : req_storable (xsell m);
  ms_distinct : q_xreqnum (xbuy m) <> q_xreqnum (xsell m)
}.

Definition match_kept (db : match_db) (m : Xmatch) : Prop :=
  (forall c, t_matches db !! m_xmatchnum m = Some c -> update_match c (row_of_match m) = row_of_match m)
  /\ req_kept db (xbuy m) /\ req_kept db (xsell m).

Definition stored (db : match_db) (m : Xmatch) : Xmatch :=
  mkXmatch (m_type m) (status m) (m_xmatchnum m) (next_deadline m) (m_match_timestamp m) (accept_timestamp m)
    (final_timestamp m) (base_amount m) (rate m) (amount_paid m) (mining_amount m) (have_xreqs m) (accept_time m)
    (match_pledge m) (stored_req db (xbuy m)) (stored_req db (xsell m)).

Lemma by_number_first {A} (t : gmap Z A) k a : t !! k = Some a ->
  exists rest, select_rows (rank_le (fun _ => 0)) (fun row => k <= fst row) t = (k, a) :: rest.
Proof.
  intros Hk. destruct (select_rows _ _ t) as [|[k' a'] rest] eqn:E.
  - destruct (select_rows_nil _ _ _ E k a Hk). cbn. lia.
  - destruct (select_rows_first _ _ _ _ _ _ E) as (Hk' & Hp & Hle). specialize (Hle k a Hk ltac:(cbn; lia)).
    unfold rank_le in Hle. cbn in Hp, Hle. assert (k' = k) as -> by lia. rewrite Hk in Hk'. injection Hk' as ->. eauto.
Qed.

(** A match that is inserted, new or as an update of the one with its number, is read
    back as it is, with its requests; their time of deletion can only have become later. *)
Theorem XmatchInsert_select db m :
  match_storable m -> match_kept db m ->
  exists db', XmatchInsert P db (fun _ => false) m = Ret (0, db')
    /\ XmatchSelect P db' false (m_xmatchnum m) false true true = Ret (0, Some (stored db m)).
Proof.
  intros Hs (Hm & Hb & Hq). unfold XmatchInsert. destruct (ms_amount m Hs).
  rewrite (proj2 (Z.leb_le 0 _)), (proj2 (Z.ltb_lt _ _)) by assumption. cbn [andb]. rewrite (ms_xreqs m Hs). cbn [negb].
  set (db1 := mkMatchDb _ _ _).
  destruct (insert_req db1 (xbuy m) (ms_buy m Hs) Hb) as (db2 & -> & Hm2 & Hk2 & Hr2 & Hg2). cbn [Z.eqb negb].
  destruct (Hk2 (q_xreqnum (xsell m))) as [Hr2' Hg2']; [intros Hx; apply (ms_distinct m Hs); symmetry; exact Hx|].
  assert (Hq2 : req_kept db2 (xsell m)) by (destruct Hq; split; [rewrite Hr2' | rewrite Hg2']; assumption).
  destruct (insert_req db2 (xsell m) (ms_sell m Hs) Hq2) as (db3 & -> & Hm3 & Hk3 & Hr3 & Hg3). cbn [Z.eqb negb].
  eexists. split; [reflexivity|]. unfold XmatchSelect, XmatchSelectInternal.
  assert (Hrow : t_matches db3 !! m_xmatchnum m = Some (row_of_match m)).
  { rewrite Hm3, Hm2. unfold db1. cbn [t_matches]. rewrite upsert_lookup. destruct (t_matches db !! m_xmatchnum m) eqn:E; [f_equal; apply Hm; reflexivity | reflexivity]. }
  destruct (by_number_first _ _ _ Hrow) as [rest ->]. rewrite Z.eqb_refl. cbn [negb andb row_of_match c_rate c_paid c_mining c_buy c_sell c_buyer_cons c_seller_cons].
  unfold column_double. rewrite (ms_rate m Hs), (ms_paid m Hs), (ms_mining m Hs). cbn [outcome_bind].
  destruct (Hk3 (q_xreqnum (xbuy m)) (ms_distinct m Hs)) as [Hr3' Hg3'].
  assert (Hread : forall q, req_storable q -> t_reqs db3 !! q_xreqnum q = Some (row_of_req P q) ->
    forall dt, delete_time q <= dt -> t_matching db3 !! q_xreqnum q = Some (row_of_matching (set_delete_time q dt)) ->
    XmatchreqSelectInternal P db3 (q_xreqnum q) true (match_consideration q) = Ret (0, Some (set_delete_time q dt))).
  { intros q Hsq Hr dt Hdt Hg. unfold XmatchreqSelectInternal. rewrite Hr, Hg. rewrite (proj2 (Z.eqb_neq _ 0)) by apply Hsq.
    rewrite bool_decide_false by discriminate. cbn [andb].
    change (read_req P (q_xreqnum q) (row_of_req P q)) with (read_req P (q_xreqnum (set_delete_time q dt)) (row_of_req P (set_delete_time q dt))).
    change (match_consideration q) with (match_consideration (set_delete_time q dt)).
    rewrite read_row_of_req; [reflexivity|].
    destruct Hsq; split; cbn; try assumption. lia. }
  assert (Hle : forall db q, delete_time q <= kept_delete_time db q) by (intros d q; unfold kept_delete_time; destruct (t_matching d !! q_xreqnum q); lia).
  assert (Hb1 : kept_delete_time db1 (xbuy m) = kept_delete_time db (xbuy m)) by reflexivity.
  assert (Hq1 : kept_delete_time db2 (xsell m) = kept_delete_time db (xsell m)) by (unfold kept_delete_time; rewrite Hg2'; reflexivity).
  rewrite (Hread (xbuy m) (ms_buy m Hs) ltac:(rewrite Hr3'; exact Hr2) (kept_delete_time db (xbuy m)) (Hle _ _)
    ltac:(rewrite Hg3', Hg2; unfold stored_req; rewrite Hb1; reflexivity)). cbn [outcome_bind].
  rewrite (Hread (xsell m) (ms_sell m Hs) Hr3 (kept_delete_time db (xsell m)) (Hle _ _)
    ltac:(rewrite Hg3; unfold stored_req; rewrite Hq1; reflexivity)). cbn [outcome_bind].
  unfold stored, row_of_match. cbn. rewrite (ms_xreqs m Hs). reflexivity.
Qed.
End roundtrip.
(** ** Requests that an open match needs *)

Section supported.
Variable P : Z.

Record req_finite (r : req_row) : Prop := {
  rf_rate : finite (r_net_rate r); rf_discount : finite (r_discount r);
  rf_bcosts : finite (r_base_costs r); rf_qcosts : finite (r_quote_costs r)
}.

Record match_finite (c : match_row) : Prop := {
  mf_rate : finite (c_rate c); mf_paid : finite (c_paid c); mf_mining : finite (c_mining c)
}.

(** Both rows of the request are there, and pruning keeps them at least until [d]. *)
Definition req_ready (db : match_db) (k d : Z) : Prop :=
  k <> 0 /\ is_Some (t_reqs db !! k)
  /\ exists g, t_matching db !! k = Some g /\ d <= g_delete g.

Definition match_ready (db : match_db) (c : match_row) : Prop :=
  match_finite c /\ (0 < c_deadline c -> req_ready db (c_buy c) (c_deadline c) /\ req_ready db (c_sell c) (c_deadline c)).

(** Every match that still has a deadline can be settled. *)
Definition supported (db : match_db) : Prop :=
  (forall k r, t_reqs db !! k = Some r -> req_finite r) /\ (forall n c, t_matches db !! n = Some c -> match_ready db c).

(** A match as it is read from its row. *)
Record read_of (db : match_db) (n : Z) (c : match_row) (m : Xmatch) : Prop := {
  ro_num : m_xmatchnum m = n; ro_type : m_type m = c_type c; ro_status : status m = c_status c;
  ro_deadline : next_deadline m = c_deadline c; ro_base : base_amount m = c_base c;
  ro_pledge : match_pledge m = c_pledge c; ro_xreqs : have_xreqs m = true;
  ro_final : final_timestamp m = c_final_ts c;
  ro_buy : q_xreqnum (xbuy m) = c_buy c; ro_sell : q_xreqnum (xsell m) = c_sell c;
  ro_buy_matching : have_matching (xbuy m) = true; ro_sell_matching : have_matching (xsell m) = true;
  ro_buy_delete : delete_time (xbuy m) = default 0 (g_delete <$> t_matching db !! c_buy c);
  ro_sell_delete : delete_time (xsell m) = default 0 (g_delete <$> t_matching db !! c_sell c);
  ro_pledge_buy : pledge (q_terms (xbuy m)) = default 0 (r_pledge <$> t_reqs db !! c_buy c);
  ro_buy_dest : destination (q_terms (xbuy m)) = default 0 (g_destination <$> t_matching db !! c_buy c);
  ro_sell_dest : destination (q_terms (xsell m)) = default 0 (g_destination <$> t_matching db !! c_sell c);
  ro_rate : UniFloat_of (c_rate c) 0 = Ret (rate m) /\ finite (rate m);
  ro_paid : UniFloat_of (c_paid c) 0 = Ret (amount_paid m) /\ finite (amount_paid m);
  ro_mining : UniFloat_of (c_mining c) 0 = Ret (mining_amount m) /\ finite (mining_amount m);
  ro_finite : Forall (fun q => Forall finite [net_rate_required (q_terms q); wait_discount (q_terms q); base_costs (q_terms q); quote_costs (q_terms q)]) [xbuy m; xsell m]
}.

Lemma select_req_ready db k d cons : supported db -> req_ready db k d ->
  exists q, XmatchreqSelectInternal P db k true cons = Ret (0, Some q) /\ q_xreqnum q = k /\ have_matching q = true
    /\ delete_time q = default 0 (g_delete <$> t_matching db !! k) /\ match_consideration q = cons
    /\ pledge (q_terms q) = default 0 (r_pledge <$> t_reqs db !! k) /\ destination (q_terms q) = default 0 (g_destination <$> t_matching db !! k)
    /\ Forall finite [net_rate_required (q_terms q); wait_discount (q_terms q); base_costs (q_terms q); quote_costs (q_terms q)].
Proof.
  intros [Hfin _] (Hk & [r Hr] & g & Hg & Hd). destruct (Hfin k r Hr) as [F1 F2 F3 F4]. unfold XmatchreqSelectInternal. rewrite Hr, Hg, (proj2 (Z.eqb_neq k 0)) by exact Hk.
  rewrite bool_decide_false by discriminate. cbn [andb]. unfold read_req, column_double.
  destruct (UniFloat_of_returns _ 0 F1) as (v1 & -> & G1). destruct (UniFloat_of_returns _ 0 F2) as (v2 & -> & G2).
  destruct (UniFloat_of_returns _ 0 F3) as (v3 & -> & G3). destruct (UniFloat_of_returns _ 0 F4) as (v4 & -> & G4). cbn [outcome_bind].
  eexists. split; [reflexivity|]. cbn. do 6 (split; [reflexivity|]). apply Forall_fold_right. cbn. auto.
Qed.

Lemma select_ready db n c rest num ge xr d :
  supported db -> t_matches db !! n = Some c -> match_finite c -> req_ready db (c_buy c) d -> req_ready db (c_sell c) d -> ge = true \/ num = n ->
  exists m, XmatchSelectInternal P db false ((n, c) :: rest) num ge xr true = Ret (0, Some m) /\ read_of db n c m.
Proof.
  intros Hsup Hc [F1 F2 F3] Hb Hs Hnum. unfold XmatchSelectInternal.
  assert (negb (n =? num) && negb ge = false) as -> by (destruct Hnum as [->| ->]; rewrite ?Z.eqb_refl, ?andb_false_r; reflexivity).
  unfold column_double. destruct (UniFloat_of_returns _ 0 F1) as (v1 & E1 & G1). destruct (UniFloat_of_returns _ 0 F2) as (v2 & E2 & G2).
  destruct (UniFloat_of_returns _ 0 F3) as (v3 & E3 & G3). rewrite E1, E2, E3. cbn [outcome_bind].
  destruct (select_req_ready db (c_buy c) d (c_buyer_cons c) Hsup Hb) as (qb & -> & Hb1 & Hb2 & Hb3 & Hb4 & Hb5 & Hb6 & Hb7). cbn [outcome_bind].
  destruct (select_req_ready db (c_sell c) d (c_seller_cons c) Hsup Hs) as (qs & -> & Hs1 & Hs2 & Hs3 & Hs4 & Hs5 & Hs6 & Hs7). cbn [outcome_bind].
  eexists. split; [reflexivity|]. split; cbn; auto.
Qed.

(** The next match past its deadline can be read, or there is none. *)
Lemma SelectNextDeadline_ready db d xr : supported db ->
  (XmatchSelectNextDeadline P db false d xr true = Ret (1, None) /\ forall n c, t_matches db !! n = Some c -> 0 < c_deadline c -> d <= c_deadline c)
  \/ exists n c m, t_matches db !! n = Some c /\ 0 < c_deadline c < d /\ XmatchSelectNextDeadline P db false d xr true = Ret (0, Some m) /\ read_of db n c m.
Proof.
  intros Hs. unfold XmatchSelectNextDeadline. destruct (select_rows _ _ _) as [|[n c] rest] eqn:E.
  - left. split; [reflexivity|]. intros n c Hc H0. pose proof (select_rows_nil _ _ _ E n c Hc) as Hn. destruct (Z.lt_ge_cases (c_deadline c) d) as [Hlt|Hge]; [|exact Hge]. destruct Hn. split; assumption.
  - right. destruct (select_rows_first _ _ _ _ _ _ E) as (Hc & [Hlt H0] & _). cbn in Hlt, H0. destruct (proj2 Hs n c Hc) as [Hf Hr].
    destruct (Hr H0) as [Hb Hsell]. destruct (select_ready db n c rest 0 true xr _ Hs Hc Hf Hb Hsell ltac:(left; reflexivity)) as (m & Hm & Hread).
    exists n, c, m. split; [exact Hc|]. split; [lia|]. split; [exact Hm | exact Hread].
Qed.

Lemma Select_ready db num xr c : supported db -> t_matches db !! num = Some c -> 0 < c_deadline c ->
  exists m, XmatchSelect P db false num false xr true = Ret (0, Some m) /\ read_of db num c m.
Proof.
  intros Hs Hc Hd. destruct (proj2 Hs num c Hc) as [Hf Hr]. destruct (Hr Hd) as [Hb Hsell]. unfold XmatchSelect.
  destruct (by_number_first _ _ _ Hc) as [rest ->]. eapply select_ready; eauto.
Qed.

(** Pruning up to a time that no deadline is before. *)
Lemma Prune_supported db t : supported db ->
  (forall n c, t_matches db !! n = Some c -> 0 < c_deadline c -> t <= c_deadline c) -> supported (snd (XmatchingreqPrune db false t)).
Proof.
  intros [Hfin Hs] Ht. split; [exact Hfin|]. intros n c Hc. cbn in Hc. destruct (Hs n c Hc) as [Hf Hr]. split; [exact Hf|]. intros Hd. destruct (Hr Hd) as [Hb Hsell].
  specialize (Ht n c Hc Hd).
  assert (Hkeep : forall k, req_ready db k (c_deadline c) -> req_ready (snd (XmatchingreqPrune db false t)) k (c_deadline c)).
  { intros k (Hk & Hreq & g & Hg & Hge). repeat split; [exact Hk | exact Hreq |]. exists g. split; [|exact Hge]. cbn.
    apply map_lookup_filter_Some. split; [exact Hg | cbn; lia]. }
  split; apply Hkeep; assumption.
Qed.

Definition terms_finite (t : Terms) : Prop :=
  Forall finite [net_rate_required t; wait_discount t; base_costs t; quote_costs t].

Lemma terms_finite_row q : terms_finite (q_terms q) -> req_finite (row_of_req P q).
Proof. unfold terms_finite. rewrite !Forall_cons. intros (H1 & H2 & H3 & H4 & _). split; assumption. Qed.

(** Inserting a request only adds to what is ready. *)
Lemma insert_req_ready db f1 f2 q rc db' :
  XmatchreqInsertInternal P db f1 f2 q = (rc, db') -> terms_finite (q_terms q) ->
  (forall k r, t_reqs db !! k = Some r -> req_finite r) ->
  t_matches db' = t_matches db /\ (forall k r, t_reqs db' !! k = Some r -> req_finite r)
  /\ (forall k d, req_ready db k d -> req_ready db' k d)
  /\ (rc = 0 -> q_xreqnum q <> 0 -> have_matching q = true -> req_ready db' (q_xreqnum q) (delete_time q)).
Proof.
  intros Hi Hf Hfin. apply terms_finite_row in Hf. unfold XmatchreqInsertInternal in Hi. destruct f1; [injection Hi as <- <-; split; [reflexivity|]; split; [exact Hfin|]; split; [auto | discriminate]|].
  set (db1 := mkMatchDb _ _ _) in Hi.
  assert (Hfin1 : forall k r, t_reqs db1 !! k = Some r -> req_finite r).
  { intros k r. unfold db1. cbn. destruct (decide (q_xreqnum q = k)) as [<-|Hne].
    - rewrite upsert_lookup. destruct (t_reqs db !! q_xreqnum q) as [old|] eqn:E; intros [= <-]; [|exact Hf].
      destruct (Hfin _ _ E). split; assumption.
    - rewrite upsert_lookup_ne by exact Hne. apply Hfin. }
  assert (Hreq : forall k, is_Some (t_reqs db !! k) -> is_Some (t_reqs db1 !! k)) by (intros k; apply upsert_is_Some).
  assert (Hnew : is_Some (t_reqs db1 !! q_xreqnum q)) by (unfold db1; cbn; rewrite upsert_lookup; eauto).
  destruct (have_matching q) eqn:Em; [unfold XmatchingreqInsertInternal in Hi; destruct (f2 || negb (0 <? delete_time q))|]; injection Hi as <- <-.
  - split; [reflexivity|]. split; [exact Hfin1|]. split; [|discriminate]. intros k d (Hk & Hr & Hg). repeat split; auto.
  - cbn [t_matches t_reqs t_matching]. split; [reflexivity|]. split; [exact Hfin1|]. split.
    + intros k d (Hk & Hr & g & Hg & Hd). repeat split; [exact Hk | apply Hreq, Hr |]. cbn. destruct (decide (q_xreqnum q = k)) as [<-|Hne].
      * rewrite upsert_lookup, Hg. eexists. split; [reflexivity|]. cbn. lia.
      * rewrite upsert_lookup_ne by exact Hne. eauto.
    + intros _ Hnum _. repeat split; [exact Hnum | exact Hnew |]. cbn. rewrite upsert_lookup.
      destruct (t_matching db !! q_xreqnum q); (eexists; split; [reflexivity|]); cbn; lia.
  - split; [reflexivity|]. split; [exact Hfin1|]. split; [|discriminate]. intros k d (Hk & Hr & Hg). repeat split; auto.
Qed.

(** What a match must have to be inserted: numbers, finite values, and requests that are
    kept up to its deadline. *)
Record insertable (m : Xmatch) : Prop := {
  in_xreqs : have_xreqs m = true;
  in_values : match_finite (row_of_match m);
  in_buy : q_xreqnum (xbuy m) <> 0 /\ have_matching (xbuy m) = true /\ terms_finite (q_terms (xbuy m));
  in_sell : q_xreqnum (xsell m) <> 0 /\ have_matching (xsell m) = true /\ terms_finite (q_terms (xsell m));
  in_deadline : 0 < next_deadline m -> next_deadline m <= delete_time (xbuy m) /\ next_deadline m <= delete_time (xsell m)
}.

Lemma Insert_supported db fault m db' :
  supported db -> insertable m -> XmatchInsert P db fault m = Ret (0, db') ->
  (forall c, t_matches db !! m_xmatchnum m = Some c -> c_buy c = q_xreqnum (xbuy m) /\ c_sell c = q_xreqnum (xsell m)) ->
  supported db' /\ t_matches db' = upsert update_match (m_xmatchnum m) (row_of_match m) (t_matches db).
Proof.
  intros [Hfin Hs] [Hx [V1 V2 V3] (Hb1 & Hb2 & Hb3) (Hs1 & Hs2 & Hs3) Hd] Hi Hsame. unfold XmatchInsert in Hi.
  destruct ((0 <=? base_amount m) && _); [|discriminate]. injection Hi as Hi. destruct (fault 0%nat); [discriminate|].
  rewrite Hx in Hi. cbn [negb] in Hi. set (db1 := mkMatchDb _ _ _) in Hi.
  destruct (XmatchreqInsertInternal P db1 _ _ (xbuy m)) as [rc2 db2] eqn:E2.
  destruct (insert_req_ready _ _ _ _ _ _ E2 Hb3 Hfin) as (Hm2 & Hf2 & Hk2 & Hn2). destruct (Z.eqb_spec rc2 0) as [->|]; [|discriminate].
  cbn [negb] in Hi. destruct (XmatchreqInsertInternal P db2 _ _ (xsell m)) as [rc3 db3] eqn:E3.
  destruct (insert_req_ready _ _ _ _ _ _ E3 Hs3 Hf2) as (Hm3 & Hf3 & Hk3 & Hn3). destruct (Z.eqb_spec rc3 0) as [->|]; [|discriminate].
  injection Hi as <-. specialize (Hn2 eq_refl Hb1 Hb2). specialize (Hn3 eq_refl Hs1 Hs2).
  assert (Hlow : forall k d d', d' <= d -> req_ready db3 k d -> req_ready db3 k d')
    by (intros k d d' Hle (A & B & g & C & D); repeat split; [exact A | exact B | exists g; split; [exact C | lia]]).
  split; [|rewrite Hm3, Hm2; reflexivity]. split; [exact Hf3|].
  intros n c Hc. rewrite Hm3, Hm2 in Hc. unfold db1 in Hc. cbn [t_matches] in Hc. destruct (decide (m_xmatchnum m = n)) as [<-|Hne].
  - rewrite upsert_lookup in Hc. injection Hc as <-.
    destruct (t_matches db !! m_xmatchnum m) as [c|] eqn:Ec; [destruct (Hsame c eq_refl) as [Ebuy Esell]|];
      (split; [split; assumption|]); cbn; rewrite ?Ebuy, ?Esell; intros H0; destruct (Hd H0); (split; [eapply Hlow; [|apply Hk3, Hn2] | eapply Hlow; [|apply Hn3]]; assumption).
  - rewrite upsert_lookup_ne in Hc by exact Hne. destruct (Hs n c Hc) as [Hf Hr]. split; [exact Hf|]. intros H0. destruct (Hr H0) as [Ha Hb].
    split; apply Hk3, Hk2; assumption.
Qed.
End supported.

(** ** An example *)

Definition demo_terms (type : Z) (addr : list Z) : Terms :=
  mkTerms type [1; 2; 3] 1000 0 2 [] addr 77 [] 100 5000 (mkD (2 ^ 51) (-51)) zero zero zero 0 0 50 60 60 60 0 0 300 12
    (mkFlags true true false false true false).
Definition demo_req (num : Z) (addr : list Z) : Xmatchreq :=
  mkXmatchreq (demo_terms CC_TYPE_XCX_SIMPLE_BUY addr) num 1300 XMATCH_REQ_DISPOSITION_OPEN_PART 0 4000 true.
Definition demo_match : Xmatch :=
  mkXmatch CC_TYPE_XCX_SIMPLE_BUY XMATCH_STATUS_ACCEPTED 5 1200 900 900 0 1000 (mkD (2 ^ 51) (-51)) zero zero true 0 50
    (demo_req 7 []) (demo_req 8 [113; 49]).
Definition demo_P : Z := 2 ^ 254 - 127.

Lemma demo_req_storable num addr : num <> 0 -> req_storable demo_P (demo_req num addr).
Proof. intros Hn. split; cbn; try exact Hn; try (vm_compute; reflexivity). Qed.

Lemma demo_storable : match_storable demo_P demo_match.
Proof.
  split.
  - split; [discriminate | reflexivity].
  - reflexivity.
  - vm_compute. reflexivity.
  - vm_compute. reflexivity.
  - vm_compute. reflexivity.
  - apply demo_req_storable. discriminate.
  - apply demo_req_storable. discriminate.
  - discriminate.
Qed.

Lemma demo_stored : stored (mkMatchDb ∅ ∅ ∅) demo_match = demo_match.
Proof. reflexivity. Qed.

(** Inserted in empty tables. *)
Lemma XmatchInsert_select_witness :
  exists db', XmatchInsert demo_P (mkMatchDb ∅ ∅ ∅) (fun _ => false) demo_match = Ret (0, db')
    /\ XmatchSelect demo_P db' false 5 false true true = Ret (0, Some demo_match).
Proof.
  assert (Hk : match_kept demo_P (mkMatchDb ∅ ∅ ∅) demo_match)
    by (split; [intros c Hc; discriminate|]; split; split; intros ? Hc; discriminate).
  pose proof (XmatchInsert_select demo_P (mkMatchDb ∅ ∅ ∅) demo_match demo_storable Hk) as H.
  rewrite demo_stored in H. exact H.
Defined.
