(* ===== verification/ProcessTx.v ===== *)
(** * Validation of transactions (src/source/ccnode/src/processtx.cpp, foreign-query.cpp, foreign-rpc.hpp)

    [ProcessTx::TxValidate] and what it calls: the checks of the fields of a transaction,
    of its exchange message, of its Merkle root, its proof and its serial numbers, and of
    the payment on a foreign blockchain that a claim names.  The computations are those of
    TxWire.v, which may return early with a code. *)
From S2P Require Import Prelude Rows Block Objects Txs UniFloat WireFloat ValidObjs TxAmount TxWire Xmatch MatchTables XtxWire.
From coqutil Require Import Datatypes.RecordSetters.
Import DoubleBraceUpdate.
From stdpp Require Import gmap.

Local Open Scope Z_scope.
Local Open Scope cc_scope.

(** ** Results (processtx.hpp) *)

Definition STOP_THRESHOLD : Z := -1000.
Definition TX_RESULT_PARAM_LEVEL_TOO_OLD : Z := -1.
Definition TX_RESULT_EXPIRED : Z := -2.
Definition TX_RESULT_ALREADY_SPENT : Z := -3.
Definition TX_RESULT_ADDRESS_IN_USE : Z := -4.
Definition TX_RESULT_ALREADY_PAID : Z := -5.
Definition TX_RESULT_FOREIGN_ERROR : Z := -6.
Definition TX_RESULT_INTERNAL_ERROR : Z := STOP_THRESHOLD.
Definition TX_RESULT_SERVER_ERROR : Z := STOP_THRESHOLD - 1.
Definition TX_RESULT_PARAM_LEVEL_INVALID : Z := STOP_THRESHOLD - 2.
Definition TX_RESULT_DUPLICATE_SERIALNUM : Z := STOP_THRESHOLD - 3.
Definition TX_RESULT_BINARY_DATA_INVALID : Z := STOP_THRESHOLD - 4.
Definition TX_RESULT_OPTION_NOT_SUPPORTED : Z := STOP_THRESHOLD - 5.
Definition TX_RESULT_INSUFFICIENT_DONATION : Z := STOP_THRESHOLD - 6.
Definition TX_RESULT_PROOF_VERIFICATION_FAILED : Z := STOP_THRESHOLD - 7.
Definition TX_RESULT_FOREIGN_VERIFICATION_FAILED : Z := STOP_THRESHOLD - 8.
Definition TX_RESULT_INVALID_VALUE : Z := STOP_THRESHOLD - 9.

Definition FOREIGN_TX_PAST_ALLOWANCE : Z := 4 * 3600.
Definition FOREIGN_TX_FUTURE_ALLOWANCE : Z := 2 * 3600.
Definition XREQ_MIN_POSTHOLD_TIME : Z := 60.
Definition XREQ_MAX_EXPIRE_TIME : Z := 2 * 60 * 60.
Definition XREQ_BLOCKCHAIN_MAX : Z := XREQ_BLOCKCHAIN_BCH.
Definition TX_COMMIT_IV_BITS : Z := 128.
Definition TX_TIME_DIVISOR : Z := 30.

(** ** What the node reads *)

Record proof_params := mkProofParams {
  minimum_donation : Z;
  donation_per_tx : Z;
  donation_per_byte : Z;
  donation_per_output : Z;
  donation_per_input : Z;
  donation_per_xcx_req : Z;
  pp_outvalmin : Z;
  pp_outvalmax : Z;
  pp_invalmax : Z
}.

Record params := mkParams {
  test_mal : bool;
  blockchain : Z;
  default_domain : Z;
  max_param_age : Z;
  xcx_naked_buy_work_difficulty : Z;
  transact_enabled : bool;
  verify_level : Z -> Z;
  last_indelible_timestamp : Z;
  proofs : proof_params
}.

Definition IsTestnet (chain : Z) : bool := (1000 <=? chain) && (chain <=? 1999).

(** A row of the table of roots, by level. *)
Record root_row := mkRootRow { rt_timestamp : Z; rt_next_commitnum : Z; rt_root : Z }.

(** The tables that validation reads: the roots by level, the hash key (empty when null)
    and the commitment number of each spent serial number, the blocked addresses by
    blockchain, those of pending requests that must be unique, and the tables of matches. *)
Record node_db := mkNodeDb {
  roots : gmap Z root_row;
  spent : gmap (list Z) (list Z * Z);
  blocked : gset (Z * list Z);
  pending : gset (Z * list Z);
  matches : match_db
}.

(** Failures of the selects of one validation, in their order; [f_serial i] is of the
    [i]th serial number. *)
Record faults := mkFaults {
  f_match : bool;
  f_pending : bool;
  f_matching : bool;
  f_blocked : bool;
  f_next_root : bool;
  f_root : bool;
  f_serial : nat -> bool
}.

(** [CommitRootsSelectLevel]: the code, the time and the root. *)
Definition CommitRootsSelectLevel (t : gmap Z root_row) (fault : bool) (level : Z) (or_greater : bool) : Z * Z * Z :=
  if fault then (-1, 0, 0)
  else
    match select_rows (rank_le (fun _ => 0)) (fun row => level <= fst row) t with
    | [] => (1, 0, 0)
    | (l, r) :: _ => if negb (l =? level) && negb or_greater then (1, 0, 0) else (0, rt_timestamp r, rt_root r)
    end.

(** [SerialnumSelect]: the code, the hash key and the commitment number. *)
Definition SerialnumSelect (t : gmap (list Z) (list Z * Z)) (fault : bool) (serialnum : list Z) (keysize : Z) : Z * list Z * Z :=
  if fault then (-1, [], 0)
  else
    match t !! serialnum with
    | None => (1, [], 0)
    | Some (hashkey, commitnum) =>
        if keysize <? Z.of_nat (length hashkey) then (-1, [], 0) else (0, hashkey, commitnum)
    end.

Definition XcxBlockedForeignAddressSelect (t : gset (Z * list Z)) (fault : bool) (blockchain : Z) (addr : list Z) : outcome Z :=
  ccassert! negb (bool_decide (addr = [])) in
  Ret (if fault then -1 else if bool_decide ((blockchain, addr) ∈ t) then 0 else 1).

Definition XreqsSelectUniqueForeignAddress (t : gset (Z * list Z)) (fault : bool) (blockchain : Z) (addr : list Z) : Z :=
  if fault then -1 else if bool_decide ((blockchain, addr) ∈ t) then 0 else 1.

(** ** Foreign blockchains *)

Record ForeignQueryResult := mkForeignQueryResult {
  fq_amount : double;
  fq_blocktime : Z;
  fq_confirmations : Z;
  fq_memo : list Z
}.

(** What [ForeignQueryBtc] finds out (ForeignBtc.v): a positive code when an address is not
    valid, a negative one when the answer cannot be known. *)
Class ForeignServer := {
  btc_QueryAddress : Z -> list Z -> outcome Z;
  btc_QueryPayment : Z -> list Z -> list Z -> list Z -> outcome (Z * ForeignQueryResult)
}.

Definition If_Possible : Z := 1.
Definition Strict_Relay : Z := 2.
Definition Strict_Blocks : Z := 3.

Section queries.
Context (p : params).

Definition GetVerifyLevel (blockchain : Z) : outcome Z :=
  ccassert! blockchain <=? XREQ_BLOCKCHAIN_MAX in Ret (verify_level p blockchain).

Definition NoQuery (blockchain : Z) : outcome bool :=
  let! level := GetVerifyLevel blockchain in Ret (level <? If_Possible).

Definition IgnoreError (blockchain : Z) (in_block : bool) : outcome bool :=
  let! level := GetVerifyLevel blockchain in
  Ret (if Strict_Blocks <=? level then false else if level =? Strict_Relay then in_block else true).

Context `{ForeignServer}.

Definition QueryAddress (blockchain : Z) (addr : list Z) : outcome Z :=
  let! no := NoQuery blockchain in
  if (no : bool) then Ret (-1)
  else if (blockchain =? XREQ_BLOCKCHAIN_BTC) || (blockchain =? XREQ_BLOCKCHAIN_BCH) then btc_QueryAddress blockchain addr
  else Ret (-1).

Definition no_result : ForeignQueryResult := mkForeignQueryResult zero 0 0 [].

Definition QueryPayment (blockchain : Z) (block addr txid : list Z) : outcome (Z * ForeignQueryResult) :=
  let! no := NoQuery blockchain in
  if (no : bool) then Ret (-1, no_result)
  else if (blockchain =? XREQ_BLOCKCHAIN_BTC) || (blockchain =? XREQ_BLOCKCHAIN_BCH) then btc_QueryPayment blockchain block addr txid
  else Ret (-1, no_result).
End queries.

(** ** Steps of validation

    A transaction is passed from step to step; a step may end the validation with a code. *)

Abbreviation step := (wired unit).
Definition reject (b : bool) (rc : Z) : step unit := if b then wreturn rc else mret tt.
Definition do {A} (m : outcome A) : step A := lift m.
Definition unsupported (b : bool) : step unit := reject b TX_RESULT_OPTION_NOT_SUPPORTED.
Definition invalid (b : bool) : step unit := reject b TX_RESULT_INVALID_VALUE.
Definition not_positive (v : double) : bool := d_m v <=? 0.
Definition negative (v : double) : bool := d_m v <? 0.

(** ** Claims of payments *)

Section validate.
Context `{Libm} `{AmtFloat} `{ForeignServer} `{Hashes}.
(** [siphash data key] of the third-party library, and [CCProof_VerifyProof] of CCproof.cpp,
    which runs the third-party proof system: true when the proof is wrong. *)
Context (siphash : list Z -> list Z -> Z) (VerifyProof : TxPay -> bool).
Context (P : Z) (old_tables : bool) (p : params) (db : node_db) (f : faults).

Definition SetMatchFieldsinXpay (m : Xmatch.Xmatch) (xpay : Xpay) : outcome Xpay :=
  let t := q_terms (xsell m) in
  let! left_to_pay := AmountToPay m false in
  Ret (xpay{{pay_match_timestamp := m_match_timestamp m; pay_foreign_blockchain := t_quote_asset t;
             pay_foreign_address := t_foreign_address t; pay_foreign_confirmations_required := confirmations t;
             pay_payment_time := t_payment_time t; pay_match_left_to_pay := left_to_pay}}).

(** The claim with the fields of its match, and whether the match is already paid. *)
Definition ValidateXpay (prior_blocktime : Z) (xpay : Xpay) : step (bool * Xpay) :=
  invalid (pay_xmatchnum xpay =? 0);;
  invalid (not_positive (foreign_amount xpay));;
  invalid (bool_decide (pay_foreign_txid xpay = []));;
  r ← do (XmatchSelect P (matches db) (f_match f) (pay_xmatchnum xpay) false false false);
  match r with
  | (rc, Some m) =>
      invalid (negb ((status m =? XMATCH_STATUS_ACCEPTED) || (status m =? XMATCH_STATUS_PART_PAID_OPEN)
                     || (status m =? XMATCH_STATUS_PAID)));;
      reject (negb (have_xreqs m)) TX_RESULT_SERVER_ERROR;;
      xpay ← do (SetMatchFieldsinXpay m xpay);
      reject (pay_match_timestamp xpay =? 0) TX_RESULT_SERVER_ERROR;;
      reject (pay_payment_time xpay =? 0) TX_RESULT_SERVER_ERROR;;
      reject (u64 (pay_match_timestamp xpay + pay_payment_time xpay) <? prior_blocktime) TX_RESULT_EXPIRED;;
      reject ((pay_foreign_blockchain xpay <? 1) || (XREQ_BLOCKCHAIN_MAX <? pay_foreign_blockchain xpay)) TX_RESULT_SERVER_ERROR;;
      reject (bool_decide (pay_foreign_address xpay = [])) TX_RESULT_SERVER_ERROR;;
      reject (pay_foreign_confirmations_required xpay <=? 0) TX_RESULT_SERVER_ERROR;;
      invalid (bool_decide (pay_foreign_block_id xpay = []));;
      mret (status m =? XMATCH_STATUS_PAID, xpay)
  | (rc, None) => wreturn (if rc <? 0 then TX_RESULT_INTERNAL_ERROR else TX_RESULT_INVALID_VALUE)
  end.

Definition foreign_failed (b : bool) : step unit := reject b TX_RESULT_FOREIGN_VERIFICATION_FAILED.

Definition ValidateForeign (prior_blocktime : Z) (in_block : bool) (xpay : Xpay) : step unit :=
  let chain := pay_foreign_blockchain xpay in
  unsupported ((chain <? 1) || (XREQ_BLOCKCHAIN_MAX <? chain));;
  r ← do (QueryPayment p chain (pay_foreign_block_id xpay) (pay_foreign_address xpay) (pay_foreign_txid xpay));
  let '(rc, result) := r in
  invalid (0 <? rc);;
  if negb (rc =? 0) then
    ignore ← do (IgnoreError p chain in_block);
    reject (negb ignore) TX_RESULT_FOREIGN_ERROR
  else
    let required := pay_foreign_confirmations_required xpay / (if in_block then 2 else 1) in
    foreign_failed (fq_confirmations result <? required);;
    foreign_failed (dlt (fq_amount result) (foreign_amount xpay));;
    (if dlt (foreign_amount xpay) (fq_amount result) && dlt (foreign_amount xpay) (pay_match_left_to_pay xpay) then
       encoded ← do (WireEncode (fq_amount result) (-1) true);
       decoded ← do (WireDecode encoded 0 true);
       foreign_failed (dlt (foreign_amount xpay) decoded)
     else mret tt);;
    let past := i64 (pay_match_timestamp xpay - fq_blocktime result) in
    let future := i64 (fq_blocktime result - prior_blocktime) in
    foreign_failed (FOREIGN_TX_PAST_ALLOWANCE <? past);;
    foreign_failed (FOREIGN_TX_FUTURE_ALLOWANCE <? future);;
    wassert (bool_decide (fq_memo result = [])).

(** ** Exchange requests *)

(** True: not valid. *)
Definition CheckXreqAmount (amount : Z) : bool := (amount =? 0) || (2 ^ 128 <=? amount).

Definition CheckTransientDuplicateForeignAddresses (foreign_blockchain : Z) : bool :=
  transact_enabled p && BlockchainRequiresUniqueForeignAddress foreign_blockchain.

(** What must be fixed in a request. *)
Definition check_xreq_terms (t : Terms) : step unit :=
  if (t_type t <? CC_TYPE_XCX_NAKED_BUY) && (CC_TYPE_XCX_SIMPLE_SELL <? t_type t) && negb (t_type t =? CC_TYPE_XCX_MINING_TRADE)
  then wreturn TX_RESULT_OPTION_NOT_SUPPORTED
  else
    invalid (negb (consideration_required t =? 0));;
    invalid (negb (consideration_offered t =? 0));;
    (if (t_type t =? CC_TYPE_XCX_SIMPLE_BUY) || (t_type t =? CC_TYPE_XCX_SIMPLE_SELL) || (t_type t =? CC_TYPE_XCX_MINING_TRADE)
     then invalid (negb (pledge t =? XREQ_SIMPLE_PLEDGE))
     else invalid (negb (pledge t =? 0)));;
    invalid (negb (t_hold_time t =? XREQ_SIMPLE_HOLD_TIME));;
    invalid (negb (hold_time_required t =? XREQ_SIMPLE_HOLD_TIME));;
    invalid (negb (min_wait_time t =? XREQ_SIMPLE_WAIT_TIME));;
    invalid (negb (accept_time_required t =? 0));;
    invalid (negb (accept_time_offered t =? 0));;
    invalid (negb (t_payment_time t =? DefaultPaymentTime (IsTestnet (blockchain p))));;
    invalid (negb (confirmations t =? DefaultConfirmations (IsTestnet (blockchain p))));;
    unsupported (add_immediately_to_blockchain (flags t));;
    unsupported (negb (auto_accept_matches (flags t)));;
    unsupported (no_minimum_after_first_match (flags t));;
    unsupported (must_liquidate_crossing_minimum (flags t));;
    unsupported (must_liquidate_below_minimum (flags t)).

Definition check_address (prior_blocktime : Z) (in_block : bool) (foreign_blockchain : Z) (addr : list Z) : step unit :=
  if bool_decide (addr = []) then mret tt
  else
    let rc := if negb in_block && CheckTransientDuplicateForeignAddresses foreign_blockchain
              then XreqsSelectUniqueForeignAddress (pending db) (f_pending f) foreign_blockchain addr else 1 in
    rc ← (if 0 <? rc then do (XmatchingreqUniqueForeignAddressSelect (matches db) (f_matching f) prior_blocktime foreign_blockchain addr)
          else mret rc);
    reject (rc <? 0) TX_RESULT_INTERNAL_ERROR;;
    reject (rc =? 0) TX_RESULT_ADDRESS_IN_USE;;
    rc ← do (XcxBlockedForeignAddressSelect (blocked db) (f_blocked f) foreign_blockchain addr);
    reject (rc <? 0) TX_RESULT_INTERNAL_ERROR;;
    invalid (rc =? 0);;
    rc ← do (QueryAddress p foreign_blockchain addr);
    invalid (0 <? rc);;
    if negb (rc =? 0) then
      ignore ← do (IgnoreError p foreign_blockchain in_block);
      reject (negb ignore) TX_RESULT_FOREIGN_ERROR
    else mret tt.

Definition xreq_min_donation (t : Terms) (tx : TxPay) (tx_size total_nout : Z) : Z :=
  if TypeHasBareMsg (t_type t) then 0
  else
    fadd P (fadd P (fadd P (fmul P tx_size (donation_per_byte (proofs p)))
                           (fmul P total_nout (donation_per_output (proofs p))))
                   (fmul P (nin tx) (donation_per_input (proofs p))))
           (donation_per_xcx_req (proofs p)).

(** What the inputs of the transaction must have more than its outputs. *)
Definition xreq_carry_out (t : Terms) : Z :=
  let carry := if TypeIsSeller (t_type t) then max_amount t else 0 in
  if TypeIsBuyer (t_type t) && (pledge t =? 100) then fadd P carry (max_amount t)
  else if TypeIsBuyer (t_type t) && negb (pledge t =? 0) then fadd P carry (fmul P (max_amount t) (pledge t) / 100)
  else carry.

Definition CheckPOW (data : list Z) (difficulty nonce : Z) : Z :=
  if difficulty =? 0 then 0 else if siphash data (le_bytes 8 nonce) <? difficulty then 0 else 1.

(** [Xtx::CheckPow]: the nonce is the last 8 bytes. *)
Definition CheckPow (data : list Z) (difficulty : Z) : outcome Z :=
  let size := Z.of_nat (length data) in
  let hash_bytes := u64 (size - 8) in
  ccassert! hash_bytes <? size in
  Ret (CheckPOW (take (Z.to_nat hash_bytes) data) difficulty (le_val (drop (Z.to_nat hash_bytes) data))).

(** The bytes of the exchange message. *)
Definition xtx_data (tx : TxPay) : list Z := take (Z.to_nat (append_data_length tx)) (append_data tx).

Definition ValidateXreq (prior_blocktime : Z) (in_block : bool) (tx : TxPay) (t : Terms) (donation tx_size total_nout : Z) : step TxPay :=
  let foreign_blockchain := t_quote_asset t in
  invalid (negb (bool_decide (t_foreign_address t = [])) && (TX_MAXIN <=? nin tx));;
  invalid (destination t =? 0);;
  invalid (CheckXreqAmount (min_amount t));;
  invalid (CheckXreqAmount (max_amount t));;
  invalid (max_amount t <? min_amount t);;
  invalid (not_positive (net_rate_required t));;
  invalid (negative (wait_discount t) || dlt (mkD 1 0) (wait_discount t));;
  invalid (negative (quote_costs t));;
  invalid (negative (base_costs t));;
  invalid (negb (base_asset t =? 0));;
  invalid ((foreign_blockchain <? XREQ_BLOCKCHAIN_BTC) || (XREQ_BLOCKCHAIN_BCH <? foreign_blockchain));;
  check_xreq_terms t;;
  unsupported (negb (bool_decide (foreign_asset t = [])));;
  check_address prior_blocktime in_block foreign_blockchain (t_foreign_address t);;
  reject ((donation <? xreq_min_donation t tx tx_size total_nout) && (donation_fp tx <? TX_DONATION_MASK))
    TX_RESULT_INSUFFICIENT_DONATION;;
  invalid (u64 (prior_blocktime + XREQ_MAX_EXPIRE_TIME) <? t_expire_time t);;
  reject (t_expire_time t <=? u64 (prior_blocktime + t_hold_time t + XREQ_MIN_POSTHOLD_TIME)) TX_RESULT_EXPIRED;;
  let tx := tx{{amount_carry_out := xreq_carry_out t}} in
  rc ← (if t_type t =? CC_TYPE_XCX_NAKED_BUY then do (CheckPow (xtx_data tx) (xcx_naked_buy_work_difficulty p)) else mret 0);
  invalid (negb (rc =? 0));;
  mret tx.

(** ** Fields *)

Definition check_header (tx : TxPay) : step TxPay :=
  let tx := tx{{source_chain := blockchain p}} in
  unsupported (negb (is_tx_type (tag_type tx)));;
  unsupported (negb (tx_type tx =? tag_type tx));;
  unsupported (negb (source_chain tx =? blockchain p));;
  unsupported (negb (revision tx =? 0));;
  unsupported (negb (expiration tx =? 0));;
  unsupported (negb (reserved tx =? 0));;
  unsupported ((tag_type tx =? CC_TYPE_MINT) && negb (nin tx =? 1));;
  unsupported (negb (tag_type tx =? CC_TYPE_MINT) && negb (nin tx =? nin_with_path tx));;
  mret tx.

Definition check_output (mint : bool) (txout : TxOut) : step TxOut :=
  let txout := txout{{dest_chain := blockchain p}} in
  let txout := if out_M_domain txout =? 0 then txout{{out_M_domain := default_domain p}} else txout in
  unsupported (negb (dest_chain txout =? blockchain p));;
  unsupported (negb (out_M_domain txout =? default_domain p));;
  unsupported (no_address txout);;
  unsupported (negb (acceptance_required txout =? 0));;
  unsupported (negb (repeat_count txout =? 0));;
  unsupported (no_asset txout);;
  unsupported (no_amount txout);;
  (if mint then
     unsupported (negb (asset_mask txout =? 0));;
     unsupported (negb (amount_mask txout =? 0));;
     unsupported (negb (M_asset_enc txout =? 0))
   else
     unsupported (negb (asset_mask txout =? TX_ASSET_WIRE_MASK));;
     unsupported (negb (amount_mask txout =? TX_AMOUNT_MASK)));;
  mret txout.

(** The outputs, their number with repeats, and [allow_restricted_addresses]. *)
Fixpoint check_outputs (mint : bool) (outs : list TxOut) (total : Z) (allow : bool) : step (list TxOut * Z * bool) :=
  match outs with
  | [] => mret ([], total, allow)
  | txout :: outs =>
      let total := u32 (total + (repeat_count txout + 1)) in
      let allow := allow && negb (no_address txout) in
      txout ← check_output mint txout;
      r ← check_outputs mint outs total allow;
      let '(outs, total, allow) := r in
      mret (txout :: outs, total, allow)
  end.

Definition check_input (mint : bool) (txin : TxIn) : step TxIn :=
  let txin := if (in_M_domain txin =? 0) && negb mint then txin{{in_M_domain := default_domain p}} else txin in
  unsupported (negb (enforce_master_secret txin =? 0));;
  unsupported (negb (enforce_spend_secrets txin =? 0));;
  unsupported (enforce_trust_secrets txin =? 0);;
  unsupported (negb (enforce_freeze txin =? 0));;
  unsupported (negb (enforce_unfreeze txin =? 0));;
  unsupported (negb (delaytime txin =? 0));;
  unsupported (negb mint && no_serialnum txin);;
  unsupported (mint && negb (no_serialnum txin));;
  unsupported (negb (S_spendspec_hashed txin =? 0));;
  unsupported (mint && negb (pathnum txin =? 0));;
  unsupported (negb mint && (pathnum txin =? 0));;
  mret txin.

Fixpoint check_inputs (mint : bool) (ins : list TxIn) : step (list TxIn) :=
  match ins with
  | [] => mret []
  | txin :: ins => txin ← check_input mint txin; ins ← check_inputs mint ins; mret (txin :: ins)
  end.

(** The first [n] of an array replaced. *)
Definition replace_first {A} (n : Z) (new old : list A) : list A := new ++ drop (Z.to_nat n) old.

(** The transaction, and its number of outputs with repeats. *)
Definition check_fields (tx : TxPay) : step (TxPay * Z) :=
  tx ← check_header tx;
  let mint := tag_type tx =? CC_TYPE_MINT in
  let tx := if nout tx =? 0 then tx{{allow_restricted_addresses := false}} else tx in
  r ← check_outputs mint (take (Z.to_nat (nout tx)) (outputs tx)) 0 (allow_restricted_addresses tx);
  let '(outs, total_nout, allow) := r in
  let tx := tx{{outputs := replace_first (nout tx) outs (outputs tx); allow_restricted_addresses := allow}} in
  ins ← check_inputs mint (take (Z.to_nat (nin tx)) (inputs tx));
  mret (tx{{inputs := replace_first (nin tx) ins (inputs tx)}}, total_nout).

(** ** The exchange message *)

(** [ExtractXtx] without a database, and the check of its result. *)
Definition ExtractXtx (tx : TxPay) : step (option Xtx) :=
  if negb (TypeIsXtx (tag_type tx)) then mret None
  else
    match New (tag_type tx) with
    | None => wthrow BadAccess
    | Some xtx =>
        r ← do (FromWire_caught P (IsTestnet (blockchain p)) old_tables xtx (xtx_data tx));
        match r with None => wreturn TX_RESULT_BINARY_DATA_INVALID | Some xtx => mret (Some xtx) end
    end.

Definition txpay_min_donation (tx : TxPay) (tx_size total_nout : Z) : Z :=
  let d := fadd P (fadd P (fadd P (donation_per_tx (proofs p)) (fmul P tx_size (donation_per_byte (proofs p))))
                          (fmul P total_nout (donation_per_output (proofs p))))
                  (fmul P (nin tx) (donation_per_input (proofs p))) in
  if d <? minimum_donation (proofs p) then minimum_donation (proofs p) else d.

(** The checks by type: the transaction, its message and whether the match of a claim is
    already paid. *)
Definition validate_by_type (prior_blocktime : Z) (in_block : bool) (tx : TxPay) (xtx : option Xtx) (tx_size total_nout : Z)
  : step (TxPay * option Xtx * bool) :=
  let donation := tx_amount_decode P (donation_fp tx) in
  if TypeIsXpay (tag_type tx) then
    match xtx with
    | Some (XPay xpay) =>
        r ← ValidateXpay prior_blocktime xpay;
        let '(paid, xpay) := r in
        mret (tx, Some (XPay xpay), paid)
    | _ => wthrow BadAccess
    end
  else if TypeIsXreq (tag_type tx) then
    match xtx with
    | Some (XReq t) =>
        tx ← ValidateXreq prior_blocktime in_block tx t donation tx_size total_nout;
        mret (tx, xtx, false)
    | _ => wthrow BadAccess
    end
  else if tag_type tx =? CC_TYPE_MINT then
    reject (negb (donation =? 0)) TX_RESULT_INSUFFICIENT_DONATION;;
    mret (tx, xtx, false)
  else if tag_type tx =? CC_TYPE_TXPAY then
    let min_donation := txpay_min_donation tx tx_size total_nout in
    reject ((donation <? min_donation) && (donation_fp tx <? TX_DONATION_MASK)) TX_RESULT_INSUFFICIENT_DONATION;;
    mret (if fmul P min_donation 4 <? donation then tx{{allow_restricted_addresses := false}} else tx, xtx, false)
  else wreturn TX_RESULT_SERVER_ERROR.

(** ** The Merkle root, the proof and the serial numbers *)

Definition set_root_inputs (tx : TxPay) : TxPay :=
  let set txin := if tag_type tx =? CC_TYPE_MINT then txin{{invalmax := TX_CC_MINT_EXPONENT}}
                  else txin{{merkle_root := tx_merkle_root tx; invalmax := pp_invalmax (proofs p)}} in
  tx{{inputs := replace_first (nin tx) (map set (take (Z.to_nat (nin tx)) (inputs tx))) (inputs tx)}}.

Definition set_root (prior_blocktime : Z) (tx : TxPay) : step TxPay :=
  let '(rc, merkle_time, _) := CommitRootsSelectLevel (roots db) (f_next_root f) (u64 (param_level tx + 1)) true in
  reject (rc <? 0) TX_RESULT_INTERNAL_ERROR;;
  let merkle_time := if negb (rc =? 0) then prior_blocktime else merkle_time in
  let dt := i64 (prior_blocktime - merkle_time) in
  reject ((max_param_age p <? dt) && negb (TypeHasBareMsg (tag_type tx))) TX_RESULT_PARAM_LEVEL_TOO_OLD;;
  let '(rc, merkle_time, root) := CommitRootsSelectLevel (roots db) (f_root f) (param_level tx) false in
  reject (rc <? 0) TX_RESULT_INTERNAL_ERROR;;
  reject (negb (rc =? 0)) TX_RESULT_PARAM_LEVEL_INVALID;;
  mret (set_root_inputs
    (tx{{tx_merkle_root := root;
         param_time := if TX_TIME_OFFSET <? merkle_time then (merkle_time - TX_TIME_OFFSET) / TX_TIME_DIVISOR else 0;
         outvalmin := pp_outvalmin (proofs p); outvalmax := pp_outvalmax (proofs p)}})).

Definition tx_set_commit_iv (tx : TxPay) : TxPay :=
  if override_commitment_iv__ tx then tx else tx{{M_commitment_iv := wrap TX_COMMIT_IV_BITS (tx_merkle_root tx)}}.

Definition check_proof (tx : TxPay) : step TxPay :=
  if TypeHasBareMsg (tag_type tx) then mret tx
  else
    let tx := tx_set_commit_iv tx in
    reject (VerifyProof tx) TX_RESULT_PROOF_VERIFICATION_FAILED;;
    mret tx.

(** The records of Txs.v, for the creation of pseudo serial numbers. *)
Definition txs_view (tx : TxPay) : Txs.TxPay :=
  Txs.mkTxPay (tag_type tx) (param_level tx) (donation_fp tx) (append_data tx) [] (nin tx)
    (map (fun x => Txs.mkTxIn (no_serialnum x) (le_bytes 32 (S_serialnum x)) (le_bytes 32 (S_hashkey x))) (inputs tx)).

Definition xtx_view (x : Xtx) : Txs.Xtx :=
  match x with
  | XReq t => Txs.XtxReq (Txs.mkXreq (t_type t) (t_expire_time t) (t_hold_time t) (t_quote_asset t) (t_foreign_address t))
  | XPay q => Txs.XtxPay (Txs.mkXpay (pay_xmatchnum q) (pay_match_timestamp q) (pay_payment_time q) (pay_foreign_blockchain q)
                (pay_foreign_confirmations_required q) (pay_foreign_block_id q) (pay_foreign_txid q) (pay_foreign_address q) [])
  | XBase type => Txs.XtxBase type
  end.

Definition put_view (tx : TxPay) (v : Txs.TxPay) : TxPay :=
  tx{{nin := Txs.nin v;
      inputs := zip_with (fun x y => x{{no_serialnum := Txs.no_serialnum y; S_serialnum := le_val (Txs.S_serialnum y);
                                        S_hashkey := le_val (Txs.S_hashkey y)}}) (inputs tx) (Txs.inputs v) }}.

(** The loop over the inputs; [seen] are the serial numbers of the inputs before.  Whether
    they have been spent. *)
Fixpoint check_serials (i : nat) (seen : list Z) (ins : list TxIn) (one_spent one_not_spent : bool) (tx_commitnum : Z) : step bool :=
  match ins with
  | [] => mret one_spent
  | txin :: ins =>
      reject (existsb (Z.eqb (S_serialnum txin)) seen) TX_RESULT_DUPLICATE_SERIALNUM;;
      let '(rc, hashkey, commitnum) :=
        SerialnumSelect (spent db) (f_serial f i) (le_bytes 32 (S_serialnum txin)) 32 in
      reject (rc <? 0) TX_RESULT_INTERNAL_ERROR;;
      if negb (rc =? 0) then
        reject one_spent TX_RESULT_ALREADY_SPENT;;
        check_serials (S i) (S_serialnum txin :: seen) ins one_spent true tx_commitnum
      else
        reject (negb (bool_decide (hashkey = [])) && negb (le_val hashkey =? S_hashkey txin)) TX_RESULT_ALREADY_SPENT;;
        reject (one_spent && negb (commitnum =? 0) && negb (commitnum =? tx_commitnum)) TX_RESULT_ALREADY_SPENT;;
        reject one_not_spent TX_RESULT_ALREADY_SPENT;;
        check_serials (S i) (S_serialnum txin :: seen) ins true one_not_spent (if one_spent then tx_commitnum else commitnum)
  end.

(** What follows the proof: 1 when the transaction has been spent already, and the
    transaction with its pseudo serial number. *)
Definition check_spent (prior_blocktime : Z) (in_block : bool) (mem : list Z) (tx : TxPay) (xtx : option Xtx) (already_paid : bool)
  : step (Z * TxPay) :=
  if tag_type tx =? CC_TYPE_MINT then mret (0, tx)
  else
    v ← do (CheckCreatePseudoSerialnum (txs_view tx) (option_map xtx_view xtx) mem false);
    let tx := put_view tx v in
    one_spent ← check_serials 0 [] (take (Z.to_nat (nin tx)) (inputs tx)) false false 0;
    if (one_spent : bool) then mret (1, tx)
    else
      reject already_paid TX_RESULT_ALREADY_PAID;;
      (if TypeIsXpay (tag_type tx) then
         match xtx with Some (XPay xpay) => ValidateForeign prior_blocktime in_block xpay | _ => wthrow BadAccess end
       else mret tt);;
      mret (0, tx).

(** [ProcessTx::TxValidate] of the object in [mem]. *)
Definition validate_steps (prior_blocktime : Z) (in_block : bool) (mem : list Z) : step (Z * TxPay) :=
  let obj := message_obj mem in
  r ← do (tx_from_wire P mem (ObjSize obj));
  match r with
  | inl _ => wreturn TX_RESULT_BINARY_DATA_INVALID
  | inr tx =>
      let tx_size := u32 (CC_MSG_HEADER_SIZE + BodySize obj) in
      r ← check_fields tx;
      let '(tx, total_nout) := r in
      xtx ← ExtractXtx tx;
      r ← validate_by_type prior_blocktime in_block tx xtx tx_size total_nout;
      let '(tx, xtx, already_paid) := r in
      tx ← set_root prior_blocktime tx;
      tx ← check_proof tx;
      check_spent prior_blocktime in_block mem tx xtx already_paid
  end.

(** The code, and the transaction when it is not an error. *)
Definition TxValidate (prior_blocktime : Z) (in_block : bool) (mem : list Z) : outcome (Z * option TxPay) :=
  if test_mal p then Ret (0, None)
  else
    let prior_blocktime := if prior_blocktime =? 0 then last_indelible_timestamp p else prior_blocktime in
    match validate_steps prior_blocktime in_block mem tt with
    | Throw e => Throw e
    | Ret (inl rc) => Ret (rc, None)
    | Ret (inr (rc, tx, _)) => Ret (rc, Some tx)
    end.
End validate.

(** ** Steps that pass *)

(** When [m] does not end early its result is as [Q] says. *)
Definition passes {S A} (m : wired S A) (Q : A -> Prop) : Prop := forall s a s', m s = Ret (inr (a, s')) -> Q a.

Lemma passes_ret {S A} (a : A) (Q : A -> Prop) : Q a -> passes (S := S) (mret a) Q.
Proof. by intros Hq s a' s' [= <- <-]. Qed.

Lemma passes_bind {S A B} (m : wired S A) (k : A -> wired S B) (Q : B -> Prop) :
  passes m (fun a => passes (k a) Q) -> passes (m ≫= k) Q.
Proof.
  intros Hm s b s'. unfold mbind, wired_bind. destruct (m s) as [[?|[a s1]]|?] eqn:E; try done. intros Eb. by apply (Hm s a s1 E s1 b s').
Qed.

Lemma passes_reject b rc (Q : unit -> Prop) : (b = false -> Q tt) -> passes (reject b rc) Q.
Proof. intros Hq s [] s'. unfold reject. destruct b; [done|auto]. Qed.

Lemma passes_check {S} b (Q : unit -> Prop) : (b = false -> Q tt) -> passes (S := S) (wcheck b) Q.
Proof. intros Hq s [] s'. unfold wcheck. destruct b; [done|auto]. Qed.

Lemma passes_lift {S A} (m : outcome A) (Q : A -> Prop) : (forall a, m = Ret a -> Q a) -> passes (S := S) (lift m) Q.
Proof. intros Hq s a s'. unfold lift. destruct m; [intros [= -> ->]; auto|done]. Qed.

Lemma passes_weaken {S A} (m : wired S A) (Q R : A -> Prop) : passes m Q -> (forall a, Q a -> R a) -> passes m R.
Proof. intros Hm Hr s a s' E. eauto. Qed.

Lemma passes_any {S A} (m : wired S A) : passes m (fun _ => True).
Proof. by intros s a s' _. Qed.

Lemma passes_return {S A} rc (Q : A -> Prop) : passes (S := S) (wreturn rc) Q.
Proof. by intros s a. Qed.

Lemma passes_throw {S A} e (Q : A -> Prop) : passes (S := S) (wthrow e) Q.
Proof. by intros s a. Qed.

Lemma passes_assert {S} b (Q : unit -> Prop) : (b = true -> Q tt) -> passes (S := S) (wassert b) Q.
Proof. intros Hq s [] s'. unfold wassert. destruct b; [auto|done]. Qed.

(** The checks in a row. *)
Ltac checks := repeat (apply passes_bind; apply passes_reject; intros ?).

(** The negated conditions of checks, as propositions. *)
Ltac decided :=
  repeat match goal with
  | E : negb _ = false |- _ => apply negb_false_iff in E
  | E : (_ || _) = false |- _ => apply orb_false_iff in E as [? ?]
  | E : (_ =? _) = true |- _ => apply Z.eqb_eq in E
  | E : (_ =? _) = false |- _ => apply Z.eqb_neq in E
  | E : (_ <? _) = false |- _ => apply Z.ltb_ge in E
  | E : (_ <=? _) = false |- _ => apply Z.leb_gt in E
  | E : bool_decide _ = false |- _ => apply bool_decide_eq_false in E
  | E : bool_decide _ = true |- _ => apply bool_decide_eq_true in E
  end.


(** *** What is read *)

(** The arrays have their sizes. *)
Definition arrays (tx : TxPay) : Prop := length (outputs tx) = 10%nat /\ length (inputs tx) = 8%nat.
(** The counts are within the arrays. *)
Definition shaped (tx : TxPay) : Prop :=
  (0 <= nout tx <= TX_MAXOUT /\ (Z.to_nat (nout tx) <= length (outputs tx))%nat)
  /\ 0 <= nin tx /\ (Z.to_nat (nin tx) <= length (inputs tx))%nat /\ length (inputs tx) = 8%nat.

Section read_shape.
Context (P : Z) (binbuf : list Z) (binsize : Z).

Hypothesis Hbytes : bytes_ok binbuf.

Lemma int_nonneg size n : passes (TxWire.copy_from_buf binbuf binsize size n) (fun x => 0 <= x).
Proof.
  unfold TxWire.copy_from_buf. apply passes_bind. apply (passes_weaken _ bytes_ok).
  { intros pos b pos'. unfold copy_from_bufl. cbv zeta.
    assert (Hz : forall k, bytes_ok (replicate k 0)) by (intros k; apply Forall_replicate; unfold in_word; lia).
    destruct (_ <=? _); [destruct (_ || _); [done|]|]; intros [= <- _]; [|apply Hz].
    apply Forall_app. split; [|apply Hz]. by apply Forall_take, Forall_drop. }
  intros b Hb. apply passes_ret. unfold le_val. destruct (digits_val_range 8 ltac:(lia) b Hb) as [? _]. done.
Qed.

Lemma head_arrays tx : arrays tx -> 0 <= nout tx -> 0 <= nin tx ->
  passes (txpay_head_from_wire binbuf binsize tx) (fun t => arrays t /\ 0 <= nout t /\ 0 <= nin t).
Proof.
  intros Ha Hn Hi. unfold txpay_head_from_wire. cbv zeta. apply passes_bind. eapply passes_weaken; [apply passes_any|intros x1 _].
  apply passes_bind. eapply passes_weaken; [apply passes_any|intros x2 _].
  apply passes_bind. apply (passes_weaken _ (fun t => arrays t /\ 0 <= nout t /\ 0 <= nin t)).
  { destruct (_ =? _); [by apply passes_ret|]. apply passes_bind. eapply passes_weaken; [apply passes_any|intros x3 _]. by apply passes_ret. }
  intros tx1 (Ha1 & Hn1 & Hi1). apply passes_bind. eapply passes_weaken; [apply passes_any|intros x3 _].
  destruct (pays_on_wire _); [|destruct (_ =? _); [by apply passes_ret|apply passes_return]].
  apply passes_bind. eapply passes_weaken; [apply int_nonneg|intros nadj Hadj]. apply passes_ret. split; [done|].
  change (0 <= Z.shiftr nadj 4 + 1 /\ 0 <= Z.land nadj 15 + 1).
  pose proof (proj2 (Z.shiftr_nonneg nadj 4) Hadj). pose proof (proj2 (Z.land_nonneg nadj 15) (or_introl Hadj)). lia.
Qed.

Lemma outputs_arrays n i tx : arrays tx ->
  passes (outputs_from_wire binbuf binsize n i tx) (fun t => arrays t /\ nout t = nout tx /\ nin t = nin tx).
Proof.
  revert i tx. induction n as [|n IH]; intros i tx Ha; cbn [outputs_from_wire]; [by apply passes_ret|].
  apply passes_bind. eapply passes_weaken; [apply passes_any|intros o _]. cbv zeta.
  destruct (no_address o && negb (have_allow_restricted_addresses__ _));
    (eapply passes_weaken; [apply IH; split; [rewrite <- (proj1 Ha); apply length_insert|apply Ha]|done]).
Qed.

Lemma inputs_arrays n i tx : arrays tx ->
  passes (inputs_from_wire binbuf binsize n i tx) (fun t => arrays t /\ nout t = nout tx /\ nin t = nin tx).
Proof.
  revert i tx. induction n as [|n IH]; intros i tx Ha; cbn [inputs_from_wire]; [by apply passes_ret|].
  cbv zeta. apply passes_bind. eapply passes_weaken; [apply passes_any|intros x _].
  eapply passes_weaken; [apply IH; split; [apply Ha|rewrite <- (proj2 Ha); apply length_insert]|done].
Qed.

Lemma payload_shaped tx : arrays tx -> 0 <= nout tx <= TX_MAXOUT -> 0 <= nin tx <= TX_MAXIN ->
  passes (txpay_payload_from_wire P binbuf binsize tx) shaped.
Proof.
  intros Ha Ho Hi. unfold TX_MAXOUT, TX_MAXIN in *. unfold txpay_payload_from_wire. cbv zeta.
  set (tx0 := if _ : bool then _ else _).
  assert (Ha0 : arrays tx0 /\ nout tx0 = nout tx /\ nin tx0 = nin tx) by (unfold tx0; by destruct (_ && _)). clearbody tx0.
  destruct Ha0 as (Ha0 & F1 & F2). apply passes_bind. eapply passes_weaken; [by apply outputs_arrays|]. intros tx1 (Ha1 & G1 & G2).
  apply passes_bind. eapply passes_weaken; [by apply inputs_arrays|]. intros tx2 (Ha2 & E1 & E2).
  destruct Ha2 as [Hl1 Hl2]. destruct (_ =? _); [|apply passes_ret; unfold shaped, TX_MAXOUT; lia].
  unfold set_mint_inputs. destruct (negb _); [apply passes_return|]. destruct (negb _); [apply passes_return|].
  cbv zeta. apply passes_ret. split; [change (0 <= nout tx2 <= TX_MAXOUT /\ (Z.to_nat (nout tx2) <= length (outputs tx2))%nat); unfold TX_MAXOUT; lia|].
  match goal with |- context [<[0%nat := ?x]> _] => change (0 <= 1 /\ (Z.to_nat 1 <= length (<[0%nat := x]> (inputs tx2)))%nat /\ length (<[0%nat := x]> (inputs tx2)) = 8%nat) end.
  rewrite length_insert, Hl2. lia.
Qed.

Lemma body_shaped tx : arrays tx -> 0 <= nout tx -> 0 <= nin tx -> passes (txpay_body_from_wire P binbuf binsize tx) shaped.
Proof.
  intros Ha Hn Hi. unfold txpay_body_from_wire. apply passes_bind. eapply passes_weaken; [by apply head_arrays|]. intros tx1 (Ha1 & Hn1 & Hi1).
  do 3 (apply passes_bind; apply passes_check; intros ?). apply payload_shaped; [done|lia|lia].
Qed.

Lemma append_shaped `{Hashes} size tx : shaped tx -> passes (append_from_wire binbuf binsize size tx) shaped.
Proof.
  intros Hs pos. unfold append_from_wire. cbv zeta. destruct (_ =? 0); [by intros tx' pos' [= <- _]|].
  match goal with |- forall a s, ?m pos = _ -> _ => assert (Hp : passes m shaped); [|exact (Hp pos)] end.
  apply passes_bind, passes_check. intros _. apply passes_bind. eapply passes_weaken; [apply passes_any|intros d _].
  apply passes_ret. by destruct ((_ =? 0) && _).
Qed.

Lemma tx_from_wire_shaped `{Hashes} tx : tx_from_wire P binbuf binsize = Ret (inr tx) -> shaped tx.
Proof.
  unfold tx_from_wire. destruct (tx_add_from_wire _ _ _ _ _) as [[?|[t pos]]|?] eqn:E; try done. intros [= ->].
  assert (Hp : passes (tx_add_from_wire P binbuf binsize tx_init) shaped); [|exact (Hp 0 tx pos E)].
  unfold tx_add_from_wire. apply passes_bind. eapply passes_weaken; [apply passes_any|intros size _].
  apply passes_bind, passes_check. intros _. apply passes_bind. eapply passes_weaken; [apply passes_any|intros tag _]. cbv zeta.
  apply passes_bind, passes_check. intros _. apply passes_bind. eapply passes_weaken; [apply passes_any|intros q _].
  apply passes_bind, passes_assert. intros _. apply passes_bind. eapply passes_weaken; [apply passes_any|intros [] _].
  apply passes_bind. apply (passes_weaken _ shaped).
  { destruct (negb _); [by apply body_shaped|]. apply passes_ret. unfold shaped, TX_MAXOUT. vm_compute. intuition (lia || discriminate). }
  intros tx1 Hs. apply passes_bind. eapply passes_weaken; [by apply append_shaped|]. intros tx2 Hs2.
  apply passes_bind. eapply passes_weaken; [apply passes_any|intros q2 _]. destruct (_ <? _); [apply passes_return|by apply passes_ret].
Qed.
End read_shape.

Section sound.
Context `{Libm} `{AmtFloat} `{ForeignServer} `{Hashes}.
Context (siphash : list Z -> list Z -> Z) (VerifyProof : TxPay -> bool).
Context (P : Z) (old_tables : bool) (p : params) (db : node_db) (f : faults).

(** *** Fields *)

Record output_ok (mint : bool) (o : TxOut) : Prop := {
  oo_chain : dest_chain o = blockchain p;
  oo_domain : out_M_domain o = default_domain p;
  oo_plain : no_address o = false /\ no_asset o = false /\ no_amount o = false /\ acceptance_required o = 0 /\ repeat_count o = 0;
  oo_masks : asset_mask o = (if mint then 0 else TX_ASSET_WIRE_MASK) /\ amount_mask o = (if mint then 0 else TX_AMOUNT_MASK);
  oo_mint : mint = true -> M_asset_enc o = 0
}.

Record input_ok (mint : bool) (x : TxIn) : Prop := {
  io_enforced : enforce_master_secret x = 0 /\ enforce_spend_secrets x = 0 /\ enforce_trust_secrets x <> 0
    /\ enforce_freeze x = 0 /\ enforce_unfreeze x = 0;
  io_plain : delaytime x = 0 /\ S_spendspec_hashed x = 0;
  io_serialnum : no_serialnum x = mint;
  io_path : pathnum x = 0 <-> mint = true
}.

(** The same but for the chain and the domain, which are set. *)
Definition same_output (o o' : TxOut) : Prop :=
  M_address o' = M_address o /\ M_asset_enc o' = M_asset_enc o /\ M_amount_enc o' = M_amount_enc o /\ M_commitment o' = M_commitment o
  /\ repeat_count o' = repeat_count o.
Definition same_input (x x' : TxIn) : Prop :=
  S_serialnum x' = S_serialnum x /\ S_hashkey x' = S_hashkey x /\ pathnum x' = pathnum x /\ no_serialnum x' = no_serialnum x.

Lemma check_output_ok mint o : passes (check_output p mint o) (fun o' => output_ok mint o' /\ same_output o o').
Proof.
  unfold check_output. cbv zeta.
  set (o' := if _ : bool then _ else _).
  assert (Hs : same_output o o') by (unfold o'; by destruct (_ =? 0)). clearbody o'.
  checks. apply passes_bind. destruct mint; checks; apply passes_reject; intros ?; apply passes_ret; decided;
    (split; [split|exact Hs]); split_and?; done.
Qed.

Lemma check_input_ok mint x : passes (check_input p mint x) (fun x' => input_ok mint x' /\ same_input x x').
Proof.
  unfold check_input. cbv zeta.
  set (x' := if _ : bool then _ else _).
  assert (Hs : same_input x x') by (unfold x'; by destruct (_ && _)). clearbody x'.
  checks. apply passes_ret. destruct mint; cbn [negb andb] in *; decided; (split; [split|exact Hs]); split_and?; done.
Qed.

Lemma check_outputs_ok mint outs total allow :
  passes (check_outputs p mint outs total allow) (fun r => Forall (output_ok mint) r.1.1 /\ Forall2 same_output outs r.1.1
    /\ (0 <= total -> total + Z.of_nat (length outs) < 2 ^ 32 -> r.1.2 = total + Z.of_nat (length outs))).
Proof.
  revert total allow. induction outs as [|o outs IH]; intros total allow; cbn [check_outputs]; cbv zeta.
  { apply passes_ret. cbn. split_and!; [constructor|constructor|lia]. }
  apply passes_bind. eapply passes_weaken; [apply check_output_ok|]. intros o' [Ho Hsame]. apply passes_bind.
  eapply passes_weaken; [apply IH|]. intros [[outs' total'] allow'] (Hall & Hall2 & Htot). cbn [fst snd] in *. apply passes_ret. cbn [fst snd].
  split_and!; [by constructor|by constructor|]. intros H0' Hmax.
  assert (E : repeat_count o = 0) by (destruct Hsame as (_ & _ & _ & _ & <-); apply Ho).
  rewrite E, u32_small in Htot by (cbn [length] in Hmax; lia). cbn [length] in *. rewrite Htot; lia.
Qed.

Lemma check_inputs_ok mint ins :
  passes (check_inputs p mint ins) (fun r => Forall (input_ok mint) r /\ Forall2 same_input ins r).
Proof.
  induction ins as [|x ins IH]; cbn [check_inputs].
  { by apply passes_ret. }
  apply passes_bind. eapply passes_weaken; [apply check_input_ok|]. intros x' [Hx Hsame]. apply passes_bind.
  eapply passes_weaken; [apply IH|]. intros ins' [Hall Hall2]. apply passes_ret. by split; constructor.
Qed.

(** What a transaction keeps of the one read from the wire. *)
Record same_payment (tx tx' : TxPay) : Prop := {
  sp_type : tag_type tx' = tag_type tx;
  sp_level : param_level tx' = param_level tx;
  sp_proof : zkproof tx' = zkproof tx /\ zkkeyid tx' = zkkeyid tx;
  sp_donation : donation_fp tx' = donation_fp tx;
  sp_data : append_data tx' = append_data tx /\ append_data_length tx' = append_data_length tx;
  sp_counts : nout tx' = nout tx /\ nin tx' = nin tx;
  sp_outputs : Forall2 same_output (take (Z.to_nat (nout tx)) (outputs tx)) (take (Z.to_nat (nout tx)) (outputs tx'));
  sp_inputs : Forall2 same_input (take (Z.to_nat (nin tx)) (inputs tx)) (take (Z.to_nat (nin tx)) (inputs tx'));
  sp_rest : drop (Z.to_nat (nin tx)) (inputs tx') = drop (Z.to_nat (nin tx)) (inputs tx)
}.

(** The fields are as validation wants them. *)
Record fields_ok (tx : TxPay) : Prop := {
  fo_type : is_tx_type (tag_type tx) = true;
  fo_header : source_chain tx = blockchain p /\ revision tx = 0 /\ expiration tx = 0 /\ reserved tx = 0;
  fo_nin : if tag_type tx =? CC_TYPE_MINT then nin tx = 1 else nin tx = nin_with_path tx;
  fo_outputs : Forall (output_ok (tag_type tx =? CC_TYPE_MINT)) (take (Z.to_nat (nout tx)) (outputs tx));
  fo_inputs : Forall (input_ok (tag_type tx =? CC_TYPE_MINT)) (take (Z.to_nat (nin tx)) (inputs tx))
}.

Lemma take_replaced {A} (R : A -> A -> Prop) n (new old : list A) :
  (Z.to_nat n <= length old)%nat -> Forall2 R (take (Z.to_nat n) old) new ->
  take (Z.to_nat n) (replace_first n new old) = new /\ drop (Z.to_nat n) (replace_first n new old) = drop (Z.to_nat n) old
  /\ length (replace_first n new old) = length old.
Proof.
  intros Hlen Hall. apply Forall2_length in Hall. rewrite length_take, Nat.min_l in Hall by done. unfold replace_first.
  rewrite take_app_length', drop_app_length', length_app, length_drop by done. split_and!; [done|done|lia].
Qed.

Lemma Forall2_refl_of {A} (R : A -> A -> Prop) l : (forall x, R x x) -> Forall2 R l l.
Proof. intros Hr. induction l; constructor; auto. Qed.
Lemma same_input_refl x : same_input x x. Proof. done. Qed.
Lemma same_output_refl x : same_output x x. Proof. done. Qed.

Lemma check_fields_ok tx : shaped tx ->
  passes (check_fields p tx) (fun r => fields_ok r.1 /\ same_payment tx r.1 /\ shaped r.1 /\ r.2 = nout tx).
Proof.
  intros [[Hn Ho] (Hi0 & Hi & Hi8)]. unfold check_fields, check_header. cbv zeta. apply passes_bind. checks. apply passes_ret.
  set (tx1 := if _ : bool then _ else _).
  assert (E1 : outputs tx1 = outputs tx /\ nout tx1 = nout tx /\ inputs tx1 = inputs tx /\ nin tx1 = nin tx
    /\ zkproof tx1 = zkproof tx /\ zkkeyid tx1 = zkkeyid tx /\ param_level tx1 = param_level tx /\ donation_fp tx1 = donation_fp tx
    /\ append_data tx1 = append_data tx /\ append_data_length tx1 = append_data_length tx /\ tag_type tx1 = tag_type tx
    /\ nin_with_path tx1 = nin_with_path tx /\ revision tx1 = revision tx /\ expiration tx1 = expiration tx /\ reserved tx1 = reserved tx
    /\ source_chain tx1 = blockchain p) by (unfold tx1; destruct (nout (tx{{source_chain := blockchain p}}) =? 0); split_and!; reflexivity).
  clearbody tx1. destruct E1 as (E1 & E2 & E3 & E4 & E5 & E6 & E7 & E8 & E9 & E10 & E11 & E12 & E13 & E14 & E15 & E16).
  change (tag_type (tx{{source_chain := _}})) with (tag_type tx) in *.
  rewrite E1, E2. apply passes_bind. eapply passes_weaken; [apply check_outputs_ok|]. intros [[outs total] allow] (Hout & Hsame & Htot). cbn [fst snd] in *.
  change (inputs (tx1{{outputs := _; allow_restricted_addresses := _}})) with (inputs tx1).
  change (nin (tx1{{outputs := _; allow_restricted_addresses := _}})) with (nin tx1). rewrite E3, E4.
  apply passes_bind. eapply passes_weaken; [apply check_inputs_ok|]. intros ins [Hin Hsamei]. apply passes_ret. cbn [fst snd].
  destruct (take_replaced _ _ _ _ Ho Hsame) as (Ho1 & _ & Ho3). destruct (take_replaced _ _ _ _ Hi Hsamei) as (Hi1 & Hi2 & Hi3).
  set (tx2 := tx1{{outputs := _; allow_restricted_addresses := allow; inputs := _}}).
  assert (F : outputs tx2 = replace_first (nout tx) outs (outputs tx) /\ inputs tx2 = replace_first (nin tx) ins (inputs tx)
    /\ nout tx2 = nout tx /\ nin tx2 = nin tx /\ tag_type tx2 = tag_type tx) by (unfold tx2; split_and!; done).
  destruct F as (F1 & F2 & F3 & F4 & F5).
  rewrite length_take in Htot. split; [split|split; [split|split; [split; [split|split; [|split]]|]]]; rewrite ?F1, ?F2, ?F3, ?F4, ?F5, ?Ho1, ?Hi1, ?Hi2, ?Ho3, ?Hi3; try done.
  - change (is_tx_type (tag_type tx) = true). decided. done.
  - decided. unfold tx2. change (source_chain tx1 = blockchain p /\ revision tx1 = 0 /\ expiration tx1 = 0 /\ reserved tx1 = 0).
    rewrite E13, E14, E15. done.
  - change (nin_with_path tx2) with (nin_with_path tx1). rewrite E12. destruct (tag_type tx =? CC_TYPE_MINT); cbn [negb andb] in *; decided; done.
  - unfold TX_MAXOUT in Hn. rewrite Htot; lia.
Qed.

(** *** Claims of payments *)

Record claim_ok (now : Z) (xpay : Xpay) (m : Xmatch.Xmatch) : Prop := {
  cl_match : exists rc, XmatchSelect P (matches db) false (pay_xmatchnum xpay) false false false = Ret (rc, Some m);
  cl_status : status m = XMATCH_STATUS_ACCEPTED \/ status m = XMATCH_STATUS_PART_PAID_OPEN \/ status m = XMATCH_STATUS_PAID;
  cl_amount : 0 < d_m (foreign_amount xpay);
  cl_payment : pay_foreign_txid xpay <> [] /\ pay_foreign_block_id xpay <> [] /\ pay_foreign_address xpay <> [];
  cl_of_match : pay_match_timestamp xpay = m_match_timestamp m /\ pay_foreign_blockchain xpay = t_quote_asset (q_terms (xsell m))
    /\ pay_foreign_address xpay = t_foreign_address (q_terms (xsell m))
    /\ pay_foreign_confirmations_required xpay = confirmations (q_terms (xsell m));
  cl_chain : 1 <= pay_foreign_blockchain xpay <= XREQ_BLOCKCHAIN_MAX;
  cl_confirmations : 0 < pay_foreign_confirmations_required xpay;
  cl_time : now <= u64 (m_match_timestamp m + t_payment_time (q_terms (xsell m)))
}.

(** Nothing else of a claim changes. *)
Definition same_claim (x y : Xpay) : Prop :=
  pay_xmatchnum y = pay_xmatchnum x /\ foreign_amount y = foreign_amount x
  /\ pay_foreign_txid y = pay_foreign_txid x /\ pay_foreign_block_id y = pay_foreign_block_id x.

Lemma XmatchSelect_fault b n m rc : XmatchSelect P (matches db) b n false false false = Ret (rc, Some m) -> b = false.
Proof. by destruct b. Qed.

Lemma ValidateXpay_ok now xpay :
  passes (ValidateXpay P db f now xpay) (fun r => same_claim xpay r.2 /\ exists m, claim_ok now r.2 m /\ r.1 = (status m =? XMATCH_STATUS_PAID)).
Proof.
  unfold ValidateXpay. checks. apply passes_bind, passes_lift. intros [rc [m|]] Em; [|apply passes_return].
  pose proof (XmatchSelect_fault _ _ _ _ Em) as Hf. rewrite Hf in Em.
  checks. apply passes_bind, passes_lift. intros xpay' Ex.
  unfold SetMatchFieldsinXpay in Ex. destruct (AmountToPay m false) as [left_to_pay|]; [|done]. injection Ex as <-. checks. apply passes_ret.
  cbn [fst snd]. split; [done|]. exists m. split; [|done]. split; try done.
  - by exists rc.
  - repeat match goal with E : negb (_ || _) = false |- _ => apply negb_false_iff in E; rewrite !orb_true_iff, !Z.eqb_eq in E end. tauto.
  - unfold not_positive in *. decided. done.
  - decided. done.
  - decided. change (1 <= t_quote_asset (q_terms (xsell m)) <= XREQ_BLOCKCHAIN_MAX). split; assumption.
  - decided. assumption.
  - decided. assumption.
Qed.

(** What the foreign blockchain says of a payment that it confirms: it is deep enough, for half
    as many blocks when the claim is in a block; it is of the amount that the claim says, or, when
    it is more and the match is not paid by the claim, has the same 32-bit code; its time is
    that of the match or later; and it has no memo. *)
Record payment_confirmed (now : Z) (in_block : bool) (xpay : Xpay) (result : ForeignQueryResult) : Prop := {
  pc_seen : QueryPayment p (pay_foreign_blockchain xpay) (pay_foreign_block_id xpay) (pay_foreign_address xpay) (pay_foreign_txid xpay) = Ret (0, result);
  pc_depth : pay_foreign_confirmations_required xpay / (if in_block then 2 else 1) <= fq_confirmations result;
  pc_amount : dlt (fq_amount result) (foreign_amount xpay) = false;
  pc_excess : dlt (foreign_amount xpay) (fq_amount result) = true -> dlt (foreign_amount xpay) (pay_match_left_to_pay xpay) = true ->
    exists code amount, WireEncode (fq_amount result) (-1) true = Ret code /\ WireDecode code 0 true = Ret amount /\ dlt (foreign_amount xpay) amount = false;
  pc_past : i64 (pay_match_timestamp xpay - fq_blocktime result) <= FOREIGN_TX_PAST_ALLOWANCE;
  pc_future : i64 (fq_blocktime result - now) <= FOREIGN_TX_FUTURE_ALLOWANCE;
  pc_memo : fq_memo result = []
}.

(** The query got no answer, and the level of verification lets that pass. *)
Definition payment_unanswered (in_block : bool) (xpay : Xpay) : Prop :=
  (exists rc result, rc < 0
    /\ QueryPayment p (pay_foreign_blockchain xpay) (pay_foreign_block_id xpay) (pay_foreign_address xpay) (pay_foreign_txid xpay) = Ret (rc, result))
  /\ IgnoreError p (pay_foreign_blockchain xpay) in_block = Ret true.

Definition payment_accepted (now : Z) (in_block : bool) (xpay : Xpay) : Prop :=
  1 <= pay_foreign_blockchain xpay <= XREQ_BLOCKCHAIN_MAX
  /\ ((exists result, payment_confirmed now in_block xpay result) \/ payment_unanswered in_block xpay).

(** Where errors are not ignored, the payment was seen. *)
Lemma payment_accepted_strict now in_block xpay : payment_accepted now in_block xpay ->
  IgnoreError p (pay_foreign_blockchain xpay) in_block = Ret false -> exists result, payment_confirmed now in_block xpay result.
Proof. intros [_ [Hc|[_ Hi]]] Hf; [done | congruence]. Qed.

Lemma excess_ok xpay amount : passes (if dlt (foreign_amount xpay) amount && dlt (foreign_amount xpay) (pay_match_left_to_pay xpay) then
       encoded ← do (WireEncode amount (-1) true);
       decoded ← do (WireDecode encoded 0 true);
       foreign_failed (dlt (foreign_amount xpay) decoded)
     else mret tt) (fun _ => dlt (foreign_amount xpay) amount = true -> dlt (foreign_amount xpay) (pay_match_left_to_pay xpay) = true ->
    exists code a, WireEncode amount (-1) true = Ret code /\ WireDecode code 0 true = Ret a /\ dlt (foreign_amount xpay) a = false).
Proof.
  destruct (_ && _) eqn:Eb.
  - apply passes_bind, passes_lift. intros code Ec. apply passes_bind, passes_lift. intros a Ea. apply passes_reject. intros Hd _ _. by exists code, a.
  - apply passes_ret. intros H1' H2'. by rewrite H1', H2' in Eb.
Qed.

Lemma ValidateForeign_ok now in_block xpay :
  passes (ValidateForeign p now in_block xpay) (fun _ => payment_accepted now in_block xpay).
Proof.
  unfold ValidateForeign. cbv zeta. checks. apply passes_bind, passes_lift. intros [rc result] Eq.
  checks. destruct (Z.eqb_spec rc 0) as [->|Erc]; cbn [negb].
  - checks. apply passes_bind. eapply passes_weaken; [apply excess_ok|]. intros [] Hexcess. checks. apply passes_assert. intros Hmemo.
    decided. split; [done|]. left. exists result. by split.
  - apply passes_bind, passes_lift. intros ignore Ei. apply passes_reject. intros ?. decided.
    split; [done|]. right. split; [exists rc, result; split; [lia | done] | rewrite Ei; by f_equal].
Qed.

(** *** Requests *)

(** Nobody else uses the address, it is not blocked and its blockchain accepts it. *)
Definition address_ok (now : Z) (in_block : bool) (chain : Z) (addr : list Z) : Prop :=
  addr = []
  \/ (forall n g, t_matching (matches db) !! n = Some g -> ~ holds_address now chain addr g)
     /\ ~ ((chain, addr) ∈ blocked db)
     /\ (in_block = false -> transact_enabled p = true -> ~ ((chain, addr) ∈ pending db))
     /\ exists rc, QueryAddress p chain addr = Ret rc /\ (rc = 0 \/ rc < 0 /\ IgnoreError p chain in_block = Ret true).

Lemma unique_select now chain addr rc : 
  XmatchingreqUniqueForeignAddressSelect (matches db) (f_matching f) now chain addr = Ret rc -> 0 <= rc -> rc <> 0 ->
  forall n g, t_matching (matches db) !! n = Some g -> ~ holds_address now chain addr g.
Proof.
  unfold XmatchingreqUniqueForeignAddressSelect. destruct (negb _); [|done]. destruct (f_matching f); [intros [= <-]; lia|].
  destruct (filter _ _) as [|row rest] eqn:E; [|intros [= <-]; done]. intros _ _ _ n g Hg Hh.
  assert (Hin : (n, g) ∈ filter (fun row => holds_address now chain addr (snd row)) (map_to_list (t_matching (matches db)))).
  { apply list_elem_of_filter. split; [done|]. by apply elem_of_map_to_list. }
  rewrite E in Hin. by apply elem_of_nil in Hin.
Qed.

Lemma check_address_ok now in_block chain addr : passes (check_address p db f now in_block chain addr) (fun _ => address_ok now in_block chain addr).
Proof.
  unfold check_address. case_bool_decide as Ha; [apply passes_ret; by left|]. cbv zeta.
  set (rc0 := if _ && _ then _ else 1). apply passes_bind.
  apply (passes_weaken _ (fun rc => (rc0 <= 0 /\ rc = rc0)
    \/ (0 < rc0 /\ XmatchingreqUniqueForeignAddressSelect (matches db) (f_matching f) now chain addr = Ret rc))).
  { destruct (Z.ltb_spec 0 rc0); [apply passes_lift; by right|apply passes_ret; left; lia]. }
  intros rc Hrc. checks. apply passes_bind, passes_lift. intros rb Eb. checks. apply passes_bind, passes_lift. intros rq Eq. checks. decided.
  unfold XcxBlockedForeignAddressSelect in Eb. rewrite (bool_decide_eq_false_2 _ Ha) in Eb. cbn [negb] in Eb. injection Eb as Eb.
  assert (Hok : (rq = 0 \/ rq < 0 /\ IgnoreError p chain in_block = Ret true) -> address_ok now in_block chain addr).
  { intros Hq. right. destruct Hrc as [[? ?]|[Hpos Hsel]]; [lia|]. split_and!.
    - apply (unique_select _ _ _ rc); done.
    - destruct (f_blocked f); [lia|]. by case_bool_decide; [lia|].
    - intros -> Ht. unfold rc0 in Hpos. unfold CheckTransientDuplicateForeignAddresses, XreqsSelectUniqueForeignAddress in Hpos.
      rewrite Ht in Hpos. cbn [negb andb BlockchainRequiresUniqueForeignAddress] in Hpos. destruct (f_pending f); [lia|].
      intros Hin. rewrite bool_decide_eq_true_2 in Hpos by done. lia.
    - by exists rq. }
  destruct (Z.eqb_spec rq 0) as [E0|E0]; cbn [negb]; [apply passes_ret, Hok; by left|].
  apply passes_bind, passes_lift. intros ignore Ei. apply passes_reject. intros ?. decided. apply Hok. right. split; [lia|]. by rewrite Ei; f_equal.
Qed.

Record request_ok (now : Z) (in_block : bool) (tx : TxPay) (t : Terms) (donation tx_size total_nout : Z) : Prop := {
  rq_destination : destination t <> 0;
  rq_amounts : min_amount t <= max_amount t /\ CheckXreqAmount (min_amount t) = false /\ CheckXreqAmount (max_amount t) = false;
  rq_rates : 0 < d_m (net_rate_required t) /\ 0 <= d_m (wait_discount t) /\ dlt (mkD 1 0) (wait_discount t) = false
    /\ 0 <= d_m (quote_costs t) /\ 0 <= d_m (base_costs t);
  rq_assets : base_asset t = 0 /\ XREQ_BLOCKCHAIN_BTC <= t_quote_asset t <= XREQ_BLOCKCHAIN_BCH /\ foreign_asset t = [];
  rq_address : address_ok now in_block (t_quote_asset t) (t_foreign_address t);
  rq_donation : xreq_min_donation P p t tx tx_size total_nout <= donation \/ TX_DONATION_MASK <= donation_fp tx;
  rq_times : t_expire_time t <= u64 (now + XREQ_MAX_EXPIRE_TIME)
    /\ u64 (now + XREQ_SIMPLE_HOLD_TIME + XREQ_MIN_POSTHOLD_TIME) < t_expire_time t;
  rq_terms : pledge t = (if (t_type t =? CC_TYPE_XCX_SIMPLE_BUY) || (t_type t =? CC_TYPE_XCX_SIMPLE_SELL) || (t_type t =? CC_TYPE_XCX_MINING_TRADE)
                         then XREQ_SIMPLE_PLEDGE else 0)
    /\ consideration_required t = 0 /\ consideration_offered t = 0 /\ t_hold_time t = XREQ_SIMPLE_HOLD_TIME
    /\ min_wait_time t = XREQ_SIMPLE_WAIT_TIME /\ accept_time_required t = 0 /\ accept_time_offered t = 0
    /\ t_payment_time t = DefaultPaymentTime (IsTestnet (blockchain p)) /\ confirmations t = DefaultConfirmations (IsTestnet (blockchain p))
    /\ flags t = mkFlags false true false false false (has_signing_key (flags t));
  rq_work : t_type t = CC_TYPE_XCX_NAKED_BUY -> CheckPow siphash (xtx_data tx) (xcx_naked_buy_work_difficulty p) = Ret 0
}.

Lemma check_xreq_terms_ok t : passes (check_xreq_terms p t) (fun _ =>
  pledge t = (if (t_type t =? CC_TYPE_XCX_SIMPLE_BUY) || (t_type t =? CC_TYPE_XCX_SIMPLE_SELL) || (t_type t =? CC_TYPE_XCX_MINING_TRADE)
                         then XREQ_SIMPLE_PLEDGE else 0)
    /\ consideration_required t = 0 /\ consideration_offered t = 0 /\ t_hold_time t = XREQ_SIMPLE_HOLD_TIME
    /\ min_wait_time t = XREQ_SIMPLE_WAIT_TIME /\ accept_time_required t = 0 /\ accept_time_offered t = 0
    /\ t_payment_time t = DefaultPaymentTime (IsTestnet (blockchain p)) /\ confirmations t = DefaultConfirmations (IsTestnet (blockchain p))
    /\ flags t = mkFlags false true false false false (has_signing_key (flags t))).
Proof.
  unfold check_xreq_terms. destruct (_ && _ && _); [apply passes_return|]. checks. apply passes_bind.
  eapply (passes_weaken _ (fun _ => pledge t = _)).
  { match goal with |- context [if ?b then invalid _ else _] => instantiate (1 := if b then XREQ_SIMPLE_PLEDGE else 0); destruct b end;
      apply passes_reject; intros ?; by decided. }
  intros [] Hp. checks. apply passes_reject. intros ?. decided. split_and!; try assumption.
  destruct (flags t) as [f1 f2 f3 f4 f5 f6]. cbn in *. by subst.
Qed.

Lemma ValidateXreq_ok now in_block tx t donation tx_size total_nout :
  passes (ValidateXreq siphash P p db f now in_block tx t donation tx_size total_nout)
    (fun tx' => request_ok now in_block tx t donation tx_size total_nout /\ tx' = tx{{amount_carry_out := xreq_carry_out P t}}).
Proof.
  unfold ValidateXreq. cbv zeta. checks. apply passes_bind. eapply passes_weaken; [apply check_xreq_terms_ok|]. intros [] Hterms.
  checks. apply passes_bind. eapply passes_weaken; [apply check_address_ok|]. intros [] Haddr. checks.
  apply passes_bind. change (xtx_data (tx{{amount_carry_out := _}})) with (xtx_data tx).
  apply (passes_weaken _ (fun rc => t_type t = CC_TYPE_XCX_NAKED_BUY -> CheckPow siphash (xtx_data tx) (xcx_naked_buy_work_difficulty p) = Ret rc)).
  { destruct (Z.eqb_spec (t_type t) CC_TYPE_XCX_NAKED_BUY); [by apply passes_lift|by apply passes_ret]. }
  intros rc Hpow. checks. apply passes_ret. split; [|done].
  unfold not_positive, negative in *.
  match goal with E : _ && (donation_fp tx <? _) = false |- _ => apply andb_false_iff in E; rewrite !Z.ltb_ge in E end.
  decided. split; try assumption; try tauto; try done.
  - split; [done|]. destruct Hterms as (_ & _ & _ & <- & _). done.
  - intros Ht. by rewrite (Hpow Ht); f_equal.
Qed.

(** *** The transaction *)

(** What is accepted of a transaction of each type; [now] is the time that deadlines are
    checked against. *)
Definition accepted_by_type (now : Z) (in_block : bool) (tx : TxPay) (tx_size total_nout : Z) (xtx : option Xtx) : Prop :=
  let donation := tx_amount_decode P (donation_fp tx) in
  if TypeIsXpay (tag_type tx) then exists xpay m, xtx = Some (XPay xpay) /\ claim_ok now xpay m
  else if TypeIsXreq (tag_type tx) then
    exists t, xtx = Some (XReq t) /\ request_ok now in_block tx t donation tx_size total_nout /\ amount_carry_out tx = xreq_carry_out P t
  else if tag_type tx =? CC_TYPE_MINT then donation = 0
  else tag_type tx = CC_TYPE_TXPAY
       /\ (txpay_min_donation P p tx tx_size total_nout <= donation \/ TX_DONATION_MASK <= donation_fp tx).

(** The fields that the checks by type may change: the amount that must be carried out, and
    whether restricted addresses are allowed. *)
Definition carries (tx tx' : TxPay) : Prop :=
  exists carry allow, tx' = tx{{amount_carry_out := carry; allow_restricted_addresses := allow}}.

Lemma carries_refl tx : carries tx tx.
Proof. exists (amount_carry_out tx), (allow_restricted_addresses tx). by destruct tx. Qed.

Lemma by_type_ok now in_block tx xtx tx_size total_nout :
  passes (validate_by_type siphash P p db f now in_block tx xtx tx_size total_nout)
    (fun r => carries tx r.1.1 /\ accepted_by_type now in_block r.1.1 tx_size total_nout r.1.2
      /\ (TypeIsXpay (tag_type tx) = false -> r.2 = false)
      /\ (forall xpay, r.1.2 = Some (XPay xpay) -> TypeIsXpay (tag_type tx) = true ->
            exists m, claim_ok now xpay m /\ r.2 = (status m =? XMATCH_STATUS_PAID))).
Proof.
  unfold validate_by_type, accepted_by_type. cbv zeta. destruct (TypeIsXpay (tag_type tx)) eqn:Ep.
  { destruct xtx as [[| |]|]; try apply passes_throw. apply passes_bind. eapply passes_weaken; [apply ValidateXpay_ok|].
    intros [paid xpay] (_ & m & Hm & Epaid). apply passes_ret. cbn [fst snd] in *. rewrite Ep.
    split; [apply carries_refl|]. split; [by exists xpay, m|]. split; [done|]. intros x [= <-] _. by exists m. }
  destruct (TypeIsXreq (tag_type tx)) eqn:Er.
  { destruct xtx as [[t| |]|]; try apply passes_throw. apply passes_bind. eapply passes_weaken; [apply ValidateXreq_ok|].
    intros tx' [Hq ->]. apply passes_ret. cbn [fst snd].
    change (tag_type (tx{{amount_carry_out := _}})) with (tag_type tx). rewrite Ep, Er.
    split; [exists (xreq_carry_out P t), (allow_restricted_addresses tx); by destruct tx|]. split; [|done].
    exists t. split; [done|]. split; [|done]. by destruct Hq. }
  destruct (Z.eqb_spec (tag_type tx) CC_TYPE_MINT) as [Em|Em].
  { checks. apply passes_ret. cbn [fst snd]. rewrite Ep, Er, Em. decided. split; [apply carries_refl|done]. }
  destruct (Z.eqb_spec (tag_type tx) CC_TYPE_TXPAY) as [Et|Et]; [|apply passes_return].
  checks. apply passes_ret. cbn [fst snd].
  match goal with E : _ && (donation_fp tx <? _) = false |- _ => apply andb_false_iff in E; rewrite !Z.ltb_ge in E end.
  destruct (_ <? _); (split; [|split; [|done]]).
  - exists (amount_carry_out tx), false. by destruct tx.
  - change (tag_type (tx{{allow_restricted_addresses := _}})) with (tag_type tx). rewrite Ep, Er. rewrite (proj2 (Z.eqb_neq _ _) Em). done.
  - apply carries_refl.
  - rewrite Ep, Er, (proj2 (Z.eqb_neq _ _) Em). done.
Qed.

(** The root of the level that the transaction names is in the table, and was not replaced
    too long ago. *)
Record root_ok (now : Z) (tx : TxPay) : Prop := {
  ro_row : exists r, roots db !! param_level tx = Some r /\ tx_merkle_root tx = rt_root r;
  ro_age : TypeHasBareMsg (tag_type tx) = false ->
    forall l r, roots db !! l = Some r -> u64 (param_level tx + 1) <= l ->
      (forall l' r', roots db !! l' = Some r' -> u64 (param_level tx + 1) <= l' -> l <= l') ->
      i64 (now - rt_timestamp r) <= max_param_age p;
  ro_values : outvalmin tx = pp_outvalmin (proofs p) /\ outvalmax tx = pp_outvalmax (proofs p);
  ro_inputs : Forall (fun x => if tag_type tx =? CC_TYPE_MINT then invalmax x = TX_CC_MINT_EXPONENT
                               else merkle_root x = tx_merkle_root tx /\ invalmax x = pp_invalmax (proofs p))
                (take (Z.to_nat (nin tx)) (inputs tx))
}.

Lemma select_level t fault level ge rc time root : CommitRootsSelectLevel t fault level ge = (rc, time, root) ->
  (rc = 0 -> exists l r, t !! l = Some r /\ level <= l /\ (ge = false -> l = level) /\ time = rt_timestamp r /\ root = rt_root r
     /\ forall l' r', t !! l' = Some r' -> level <= l' -> l <= l')
  /\ (0 < rc -> ge = true -> forall l r, t !! l = Some r -> ~ level <= l).
Proof.
  unfold CommitRootsSelectLevel. destruct fault; [intros [= <- <- <-]; split; lia|].
  destruct (select_rows _ _ t) as [|[l r] rest] eqn:E.
  { intros [= <- <- <-]. split; [lia|]. intros _ _ l r Hr. exact (select_rows_nil _ _ _ E l r Hr). }
  destruct (select_rows_first _ _ _ _ _ _ E) as (Hr & Hl & Hmin). cbn [fst] in Hl.
  destruct (negb (l =? level) && negb ge) eqn:Eb; [intros [= <- <- <-]; split; [lia|intros _ ->; by rewrite andb_false_r in Eb]|].
  intros [= <- <- <-]. split; [|lia]. intros _. exists l, r. split_and!; try done.
  - intros ->. rewrite andb_true_r in Eb. by decided.
  - intros l' r' Hr' Hl'. destruct (Hmin l' r' Hr' Hl') as [Hlt|[_ Hle]]; [cbn in Hlt; lia|exact Hle].
Qed.

(** Nothing else than what follows from the root changes. *)
Definition same_root_input (x y : TxIn) : Prop :=
  S_serialnum y = S_serialnum x /\ S_hashkey y = S_hashkey x /\ no_serialnum y = no_serialnum x /\ pathnum y = pathnum x.

Lemma set_root_ok now tx : shaped tx -> passes (set_root p db f now tx) (fun tx' => root_ok now tx'
  /\ (forall mint, Forall (input_ok mint) (take (Z.to_nat (nin tx)) (inputs tx)) -> Forall (input_ok mint) (take (Z.to_nat (nin tx)) (inputs tx')))
  /\ Forall2 same_input (take (Z.to_nat (nin tx)) (inputs tx)) (take (Z.to_nat (nin tx)) (inputs tx'))
  /\ drop (Z.to_nat (nin tx)) (inputs tx') = drop (Z.to_nat (nin tx)) (inputs tx)
  /\ length (inputs tx') = length (inputs tx)
  /\ exists root time ins, tx' = tx{{tx_merkle_root := root; param_time := time; outvalmin := pp_outvalmin (proofs p); outvalmax := pp_outvalmax (proofs p); inputs := ins}}).
Proof.
  intros (_ & _ & Hi & _). unfold set_root. destruct (CommitRootsSelectLevel _ _ (u64 (param_level tx + 1)) true) as [[rc1 t1] r1] eqn:E1.
  checks. cbv zeta. checks. destruct (CommitRootsSelectLevel _ _ (param_level tx) false) as [[rc2 t2] root] eqn:E2.
  checks. decided. apply passes_ret.
  destruct (select_level _ _ _ _ _ _ _ E1) as [Hsome1 Hnone1]. destruct (select_level _ _ _ _ _ _ _ E2) as [Hsome2 _].
  destruct Hsome2 as (l2 & row2 & Hrow2 & _ & Hl2 & _ & Hroot & _); [done|]. specialize (Hl2 eq_refl). subst l2.
  unfold set_root_inputs. cbv zeta.
  set (tx1 := tx{{tx_merkle_root := root; param_time := _; outvalmin := _; outvalmax := _}}).
  change (nin tx1) with (nin tx). change (inputs tx1) with (inputs tx). change (tag_type tx1) with (tag_type tx).
  match goal with |- context [map ?g (take _ _)] => set (setf := g) end. set (new := map setf _).
  assert (Hset : forall x, same_input x (setf x)) by (intros x; unfold setf, same_input; cbv beta; destruct (tag_type tx =? CC_TYPE_MINT); split_and!; reflexivity).
  assert (Hnew : Forall2 same_input (take (Z.to_nat (nin tx)) (inputs tx)) new).
  { unfold new. generalize (take (Z.to_nat (nin tx)) (inputs tx)). intros l. induction l; constructor; auto. }
  destruct (take_replaced _ _ _ _ Hi Hnew) as (F1 & F2 & F3).
  set (ins := replace_first _ _ _) in *.
  change (inputs (tx1{{inputs := ins}})) with ins. rewrite F1, F2, F3.
  split_and!; try done.
  - split.
    + exists row2. done.
    + intros Hbare l r Hr Hl Hmin. change (tag_type (tx1{{inputs := ins}})) with (tag_type tx) in *.
      change (param_level (tx1{{inputs := ins}})) with (param_level tx) in *.
      match goal with E : (_ <? _) && negb (TypeHasBareMsg _) = false |- _ => rewrite Hbare, andb_true_r, Z.ltb_ge in E end.
      destruct (Z.eqb_spec rc1 0) as [Erc|Erc]; cbn [negb] in *.
      * destruct (Hsome1 Erc) as (l1 & row1 & Hrow1 & Hl1 & _ & -> & _ & Hmin1).
        assert (l1 = l) as -> by (apply Z.le_antisymm; eauto). rewrite Hrow1 in Hr. injection Hr as <-. done.
      * destruct (Hnone1 ltac:(lia) eq_refl l r Hr Hl).
    + done.
    + change (nin (tx1{{inputs := ins}})) with (nin tx). change (inputs (tx1{{inputs := ins}})) with ins. rewrite F1.
      change (tag_type (tx1{{inputs := ins}})) with (tag_type tx). change (tx_merkle_root (tx1{{inputs := ins}})) with root.
      unfold new. apply Forall_map, Forall_forall. intros x _. unfold setf, compose. cbv beta. destruct (tag_type tx =? CC_TYPE_MINT); [reflexivity|split; reflexivity].
  - intros mint Hall. unfold new. apply Forall_map. eapply Forall_impl; [exact Hall|]. intros x [I1 I2 I3 I4].
    unfold setf, compose. cbv beta. destruct (tag_type tx =? CC_TYPE_MINT); by split.
  - eexists root, _, ins. unfold tx1. reflexivity.
Qed.

(** *** Serial numbers *)

(** Not in the table, or there with the hash key of the input. *)
Definition unspent (x : TxIn) : Prop := spent db !! le_bytes 32 (S_serialnum x) = None.
Definition spent_own (x : TxIn) : Prop :=
  exists hashkey commitnum, spent db !! le_bytes 32 (S_serialnum x) = Some (hashkey, commitnum)
    /\ (hashkey = [] \/ le_val hashkey = S_hashkey x).

Lemma serial_select fault s rc hashkey num : SerialnumSelect (spent db) fault s 32 = (rc, hashkey, num) -> 0 <= rc ->
  (rc = 0 -> spent db !! s = Some (hashkey, num)) /\ (rc <> 0 -> spent db !! s = None).
Proof.
  unfold SerialnumSelect. destruct fault; [intros [= <- <- <-]; lia|]. destruct (spent db !! s) as [[hk n]|] eqn:E.
  - destruct (_ <? _); intros [= <- <- <-]; [lia|done].
  - by intros [= <- <- <-].
Qed.

Lemma check_serials_ok i seen ins one_spent one_not num :
  passes (check_serials db f i seen ins one_spent one_not num) (fun r =>
    NoDup (map S_serialnum ins) /\ Forall (fun x => ~ In (S_serialnum x) seen) ins
    /\ (r = false -> one_spent = false /\ Forall unspent ins)
    /\ (r = true -> (one_spent = true \/ ins <> []) /\ Forall spent_own ins /\ (ins <> [] -> one_not = false))).
Proof.
  revert i seen one_spent one_not num. induction ins as [|x ins IH]; intros i seen s n num; cbn [check_serials].
  { apply passes_ret. cbn [map]. split_and!; [apply NoDup_nil_2|constructor|done|]. intros ->. split_and!; [by left|constructor|done]. }
  checks. destruct (SerialnumSelect _ _ _ _) as [[rc hk] commitnum] eqn:E. checks. decided.
  destruct (serial_select _ _ _ _ _ E) as [Hfound Hnone]; [assumption|].
  assert (Hseen : ~ In (S_serialnum x) seen).
  { intros Hin. enough (existsb (Z.eqb (S_serialnum x)) seen = true) by congruence. apply existsb_exists. exists (S_serialnum x). by rewrite Z.eqb_refl. }
  destruct (Z.eqb_spec rc 0) as [Erc|Erc]; cbn [negb].
  - checks. eapply passes_weaken; [apply IH|]. intros r (Hnd & Hnot & Hf & Ht). cbn [map].
    rewrite Forall_forall in Hnot.
    split_and!.
    + constructor; [|done]. intros Hin. apply list_elem_of_fmap in Hin as (y & Ey & Hy). apply (Hnot y Hy). left. done.
    + constructor; [done|]. rewrite Forall_forall. intros y Hy Hin. apply (Hnot y Hy). by right.
    + intros Hr. by destruct (Hf Hr).
    + intros Hr. destruct (Ht Hr) as (_ & Hall & _). split_and!; [by right| |done].
      constructor; [|done]. exists hk, commitnum. split; [auto|].
      match goal with E : negb _ && negb _ = false |- _ => apply andb_false_iff in E as [E|E] end; decided; auto.
  - checks. eapply passes_weaken; [apply IH|]. intros r (Hnd & Hnot & Hf & Ht). cbn [map].
    rewrite Forall_forall in Hnot.
    split_and!.
    + constructor; [|done]. intros Hin. apply list_elem_of_fmap in Hin as (y & Ey & Hy). apply (Hnot y Hy). left. done.
    + constructor; [done|]. rewrite Forall_forall. intros y Hy Hin. apply (Hnot y Hy). by right.
    + intros Hr. destruct (Hf Hr) as [Hs Hall]. split; [done|]. constructor; [|done]. unfold unspent. auto.
    + intros Hr. destruct (Ht Hr) as ([?|Hne] & Hall & Hn); [congruence|]. by specialize (Hn Hne).
Qed.

(** The transaction with its pseudo serial number, when it needs one. *)
Definition serial_view (mem : list Z) (xtx : option Xtx) (txp tx : TxPay) : Prop :=
  exists v, CheckCreatePseudoSerialnum (txs_view txp) (option_map xtx_view xtx) mem false = Ret v /\ tx = put_view txp v.

Definition live (tx : TxPay) : list TxIn := take (Z.to_nat (nin tx)) (inputs tx).

Lemma check_spent_ok now in_block mem txp xtx already_paid :
  passes (check_spent p db f now in_block mem txp xtx already_paid) (fun r =>
    if tag_type txp =? CC_TYPE_MINT then r = (0, txp)
    else serial_view mem xtx txp r.2 /\ NoDup (map S_serialnum (live r.2))
      /\ (r.1 = 0 /\ Forall unspent (live r.2) /\ already_paid = false
          /\ (forall xpay, TypeIsXpay (tag_type txp) = true -> xtx = Some (XPay xpay) -> payment_accepted now in_block xpay)
          \/ r.1 = 1 /\ live r.2 <> [] /\ Forall spent_own (live r.2))).
Proof.
  unfold check_spent. destruct (tag_type txp =? CC_TYPE_MINT); [by apply passes_ret|].
  apply passes_bind, passes_lift. intros v Ev. cbv zeta. set (tx := put_view txp v). fold (live tx).
  assert (Hview : serial_view mem xtx txp tx) by by exists v.
  apply passes_bind. eapply passes_weaken; [apply check_serials_ok|]. intros one_spent (Hnd & _ & Hf & Ht).
  destruct one_spent.
  - apply passes_ret. cbn [fst snd]. split_and!; [done|done|]. right. destruct (Ht eq_refl) as ([?|?] & ? & _); [done|done].
  - destruct (Hf eq_refl) as [_ Hun]. checks. apply passes_bind.
    apply (passes_weaken _ (fun _ => forall xpay, TypeIsXpay (tag_type txp) = true -> xtx = Some (XPay xpay) -> payment_accepted now in_block xpay)).
    { change (tag_type tx) with (tag_type txp). destruct (TypeIsXpay (tag_type txp)); [|by apply passes_ret].
      destruct xtx as [[| |]|]; try apply passes_throw. eapply passes_weaken; [apply ValidateForeign_ok|]. intros [] Hs x _ [= <-]. done. }
    intros [] Hpay. apply passes_ret. cbn [fst snd]. split_and!; [done|done|]. left. done.
Qed.

(** The proof verifies for the transaction with the root, unless it has none. *)
Definition proof_ok (tx : TxPay) : Prop :=
  TypeHasBareMsg (tag_type tx) = false ->
  VerifyProof tx = false /\ (override_commitment_iv__ tx = false -> M_commitment_iv tx = wrap TX_COMMIT_IV_BITS (tx_merkle_root tx)).

Lemma check_proof_ok tx : passes (check_proof VerifyProof tx) (fun tx' =>
  proof_ok tx' /\ exists iv, tx' = tx{{M_commitment_iv := iv}}).
Proof.
  unfold check_proof, proof_ok. destruct (TypeHasBareMsg (tag_type tx)) eqn:Eb.
  { apply passes_ret. rewrite Eb. split; [done|]. exists (M_commitment_iv tx). by destruct tx. }
  cbv zeta. checks. apply passes_ret. unfold tx_set_commit_iv in *.
  destruct (override_commitment_iv__ tx) eqn:Eo.
  - rewrite Eo. split; [done|]. exists (M_commitment_iv tx). by destruct tx.
  - split; [done|]. by exists (wrap TX_COMMIT_IV_BITS (tx_merkle_root tx)).
Qed.

(** What every result that is not an error says of the transaction [txp] whose proof was
    checked, and of its exchange message. *)
Record validated (now : Z) (in_block : bool) (mem : list Z) (txp : TxPay) (xtx : option Xtx) : Prop := {
  va_wire : exists tx0, tx_from_wire P mem (ObjSize (message_obj mem)) = Ret (inr tx0) /\ same_payment tx0 txp;
  va_shape : 0 <= nin txp /\ length (inputs txp) = 8%nat;
  va_fields : fields_ok txp;
  va_root : root_ok now txp;
  va_proof : proof_ok txp;
  va_type : accepted_by_type now in_block txp (u32 (CC_MSG_HEADER_SIZE + BodySize (message_obj mem))) (nout txp) xtx
}.

Lemma same_payment_trans tx0 tx1 tx2 : same_payment tx0 tx1 -> same_payment tx1 tx2 -> same_payment tx0 tx2.
Proof.
  intros [A1 A2 [A3 A3'] A4 [A5 A5'] [A6 A6'] A7 A8 A9] [B1 B2 [B3 B3'] B4 [B5 B5'] [B6 B6'] B7 B8 B9].
  rewrite A6 in B7. rewrite A6' in B8, B9.
  split; try (split; congruence); try congruence.
  - clear -A7 B7. revert A7 B7. generalize (take (Z.to_nat (nout tx0)) (outputs tx2)). intros l3 H1 H2. revert l3 H2.
    induction H1 as [|x y l l' (E1 & E2 & E3 & E4 & E5) _ IH]; intros l3 H2; inversion H2 as [|? z ? l3' (F1 & F2 & F3 & F4 & F5) ?]; subst; constructor;
      [unfold same_output; split_and!; congruence|auto].
  - clear -A8 B8. revert A8 B8. generalize (take (Z.to_nat (nin tx0)) (inputs tx2)). intros l3 H1 H2. revert l3 H2.
    induction H1 as [|x y l l' (E1 & E2 & E3 & E4) _ IH]; intros l3 H2; inversion H2 as [|? z ? l3' (F1 & F2 & F3 & F4) ?]; subst; constructor;
      [unfold same_input; split_and!; congruence|auto].
Qed.

Lemma steps_ok now in_block mem :
  bytes_ok mem ->
  passes (validate_steps siphash VerifyProof P old_tables p db f now in_block mem) (fun r =>
    exists txp xtx, validated now in_block mem txp xtx
      /\ if tag_type txp =? CC_TYPE_MINT then r = (0, txp)
         else serial_view mem xtx txp r.2 /\ NoDup (map S_serialnum (live r.2))
           /\ (r.1 = 0 /\ Forall unspent (live r.2)
               /\ (forall xpay, TypeIsXpay (tag_type txp) = true -> xtx = Some (XPay xpay) ->
                     payment_accepted now in_block xpay /\ exists m, claim_ok now xpay m /\ status m <> XMATCH_STATUS_PAID)
               \/ r.1 = 1 /\ live r.2 <> [] /\ Forall spent_own (live r.2))).
Proof.
  intros Hbytes. unfold validate_steps. cbv zeta. apply passes_bind, passes_lift. intros [?|tx0] Ew; [apply passes_return|].
  pose proof (tx_from_wire_shaped P mem _ Hbytes tx0 Ew) as Hshape.
  apply passes_bind. eapply passes_weaken; [by apply check_fields_ok|]. intros [tx1 total] (Hfields & Hsame1 & Hshape1 & Htotal). cbn [fst snd] in *.
  subst total.
  apply passes_bind. eapply passes_weaken; [apply passes_any|]. intros xtx0 _.
  apply passes_bind. eapply passes_weaken; [apply by_type_ok|]. intros [[tx2' xtx] paid] ((carry & allow & E2) & Hacc & Hnopay & Hpaid). cbn [fst snd] in *. subst tx2'.
  set (tx2 := tx1{{amount_carry_out := carry; allow_restricted_addresses := allow}}) in *.
  assert (Hshape2 : shaped tx2) by exact Hshape1.
  apply passes_bind. eapply passes_weaken; [apply set_root_ok; exact Hshape2|].
  intros tx3 (Hroot & Hin3 & Hsame3 & Hdrop3 & Hlen3 & root & time & ins & E3).
  apply passes_bind. eapply passes_weaken; [apply check_proof_ok|]. intros txp [Hproof [iv Ep]].
  eapply passes_weaken; [apply check_spent_ok|]. intros [rc tx] Hspent. cbn [fst snd] in *.
  exists txp, xtx.
  assert (Htag : tag_type txp = tag_type tx1) by (rewrite Ep, E3; reflexivity). rewrite Htag in Hspent |- *.
  assert (Hinp : inputs txp = inputs tx3) by by rewrite Ep.
  split; [split|].
  - exists tx0. split; [done|]. apply (same_payment_trans _ tx1); [done|].
    split; rewrite ?Hinp; try (rewrite Ep, E3; try split; reflexivity); try assumption.
    rewrite Ep, E3. apply Forall2_refl_of, same_output_refl.
  - rewrite Hinp, Hlen3. destruct Hshape2 as (_ & Hn & _ & Hl). by rewrite Ep, E3.
  - destruct Hfields as [F1 F2 F3 F4 F5]. split.
    + by rewrite Htag.
    + by rewrite Ep, E3.
    + by rewrite Ep, E3.
    + rewrite Ep, E3. exact F4.
    + rewrite Htag, Hinp. replace (nin txp) with (nin tx1) by (rewrite Ep, E3; reflexivity). by apply Hin3.
  - rewrite Ep. destruct Hroot. by split.
  - done.
  - assert (Hn : nout tx0 = nout txp) by (destruct Hsame1 as [_ _ _ _ _ [<- _] _ _ _]; rewrite Ep, E3; reflexivity). rewrite <- Hn.
    revert Hacc. unfold accepted_by_type. cbv zeta. rewrite Htag. change (tag_type tx2) with (tag_type tx1).
    replace (donation_fp txp) with (donation_fp tx2) by (rewrite Ep, E3; reflexivity).
    destruct (TypeIsXpay (tag_type tx1)); [done|]. destruct (TypeIsXreq (tag_type tx1)).
    { intros (t & Ht & [Q1 Q2 Q3 Q4 Q5 Q6 Q7 Q8 Q9] & Hc). exists t. split; [done|]. split; [|by rewrite Ep, E3].
      split; try assumption; by rewrite Ep, E3. }
    destruct (tag_type tx1 =? CC_TYPE_MINT); [done|]. by rewrite Ep, E3.
  - destruct (tag_type tx1 =? CC_TYPE_MINT); [done|]. destruct Hspent as (Hview & Hnd & [(-> & Hun & Hp & Hpay)|Hone]); split_and!; try done; [left|by right].
    split_and!; [done|done|]. intros xpay Ht Hx. split; [by apply Hpay|].
    destruct (Hpaid xpay Hx Ht) as (m & Hm & Hst). exists m. split; [done|]. intros E. rewrite Hp in Hst. by rewrite E in Hst.
Qed.

(** The time that deadlines are checked against. *)
Definition blocktime (prior_blocktime : Z) : Z := if prior_blocktime =? 0 then last_indelible_timestamp p else prior_blocktime.

Lemma TxValidate_steps prior in_block mem rc tx : test_mal p = false ->
  TxValidate siphash VerifyProof P old_tables p db f prior in_block mem = Ret (rc, Some tx) <->
  validate_steps siphash VerifyProof P old_tables p db f (blocktime prior) in_block mem tt = Ret (inr ((rc, tx), tt)).
Proof.
  intros Hmal. unfold TxValidate. rewrite Hmal. cbv zeta. fold (blocktime prior).
  destruct (validate_steps _ _ _ _ _ _ _ _ _ _ _) as [[?|[[? ?] []]]|?]; split; try done; by intros [= -> ->].
Qed.


(** *** Requests to sell that were spent already *)

Definition address_serial (addr : list Z) : list Z := blake2b TX_SERIALNUM_BYTES [] addr.

(** The pseudo serial number of a request to sell is among the serial numbers that are checked. *)
Lemma sell_serial_checked mem t txp tx : 
  serial_view mem (Some (XReq t)) txp tx -> TypeIsXreq (tag_type txp) = true -> TypeIsSeller (tag_type txp) = true ->
  0 <= nin txp -> length (inputs txp) = 8%nat ->
  exists x, x ∈ live tx /\ S_serialnum x = le_val (address_serial (t_foreign_address t)).
Proof.
  intros (v & Ev & ->) Hreq Hsell Hn Hlen. unfold CheckCreatePseudoSerialnum in Ev.
  change (Txs.tag_type (txs_view txp)) with (tag_type txp) in Ev. change (Txs.nin (txs_view txp)) with (nin txp) in Ev.
  assert (Hx : TypeIsCrosschain (tag_type txp) = true).
  { revert Hreq. unfold TypeIsXreq, TypeIsCrosschain, CC_TYPE_XCX_NAKED_BUY, CC_TYPE_XCX_REQ_SELL, CC_TYPE_XCX_MINING_TRADE, CC_TYPE_XCX_MINING_SELL. lia. }
  assert (Hm : (tag_type txp =? CC_TYPE_MINT) = false).
  { revert Hreq. unfold TypeIsXreq, CC_TYPE_MINT, CC_TYPE_XCX_NAKED_BUY, CC_TYPE_XCX_REQ_SELL, CC_TYPE_XCX_MINING_TRADE, CC_TYPE_XCX_MINING_SELL. lia. }
  cbv zeta in Ev. rewrite Hreq, Hsell, Hx, Hm in Ev. cbn [negb andb orb] in Ev.
  destruct (Z.ltb_spec (nin txp) TX_MAXIN) as [Hmax|]; [|done].
  destruct (negb (ObjType (message_obj mem) =? 0)); [|done]. cbn [option_map xtx_view Xreq_Cast deref_ptr outcome_bind xr_foreign_address] in Ev.
  destruct (negb _); [|done].
  unfold TX_MAXIN in Hmax. unfold u16 in Ev. rewrite wrap_small in Ev by (unfold in_word; lia).
  remember (Txs.mkTxIn false (blake2b _ _ _) _) as pseudo eqn:Eps.
  injection Ev as <-.
  set (i := Z.to_nat (nin txp)). assert (Hi : (i < length (inputs txp))%nat) by lia.
  set (g := fun (x : TxIn) (y : Txs.TxIn) => x{{no_serialnum := Txs.no_serialnum y; S_serialnum := le_val (Txs.S_serialnum y);
                                        S_hashkey := le_val (Txs.S_hashkey y)}}).
  set (l := <[i := pseudo]> (Txs.inputs (txs_view txp))).
  assert (Hl : live (put_view txp (set_input (txs_view txp) (nin txp + 1) i pseudo)) = take (Z.to_nat (nin txp + 1)) (zip_with g (inputs txp) l)) by done.
  destruct (lookup_lt_is_Some_2 (inputs txp) i Hi) as [x Hxi].
  exists (g x pseudo). split; [|by rewrite Eps].
  rewrite Hl. apply (list_elem_of_lookup_2 _ i). rewrite lookup_take_lt by lia.
  rewrite lookup_zip_with, Hxi. unfold l. rewrite list_lookup_insert_eq by (cbn; rewrite length_map; lia). done.
Qed.

(** A request to sell that is submitted again, its inputs spent by itself, is not
    recognised: 1 is never returned for one, because the serial number made of its foreign
    address is checked but never recorded. *)
Theorem sell_never_resubmitted prior in_block mem tx txp :
  bytes_ok mem -> test_mal p = false ->
  (forall addr, length (address_serial addr) = 32%nat /\ bytes_ok (address_serial addr) /\ spent db !! address_serial addr = None) ->
  tx_from_wire P mem (ObjSize (message_obj mem)) = Ret (inr txp) -> TypeIsXreq (tag_type txp) = true -> TypeIsSeller (tag_type txp) = true ->
  TxValidate siphash VerifyProof P old_tables p db f prior in_block mem <> Ret (1, Some tx).
Proof.
  intros Hb Hmal Hhash Hw Hreq Hsell E. apply TxValidate_steps in E; [|done].
  destruct (steps_ok (blocktime prior) in_block mem Hb tt _ _ E) as (txq & xtx & [(tx0 & Hw' & Hsame) Hshape _ _ _ Htype] & Hr).
  rewrite Hw in Hw'. injection Hw' as <-. destruct Hsame as [Etag _ _ _ _ _ _ _ _]. rewrite <- Etag in Hreq, Hsell.
  assert (Ht : exists t, xtx = Some (XReq t)).
  { unfold accepted_by_type in Htype. cbv zeta in Htype. rewrite Hreq in Htype.
    assert (TypeIsXpay (tag_type txq) = false) as Ep.
    { revert Hreq. unfold TypeIsXreq, TypeIsXpay, CC_TYPE_XCX_NAKED_BUY, CC_TYPE_XCX_REQ_SELL, CC_TYPE_XCX_MINING_TRADE, CC_TYPE_XCX_MINING_SELL, CC_TYPE_XCX_PAYMENT. lia. }
    rewrite Ep in Htype. destruct Htype as (t & ? & _). by exists t. }
  destruct Ht as [t ->]. cbn [fst snd] in Hr.
  assert (Hm : (tag_type txq =? CC_TYPE_MINT) = false).
  { revert Hreq. unfold TypeIsXreq, CC_TYPE_MINT, CC_TYPE_XCX_NAKED_BUY, CC_TYPE_XCX_REQ_SELL, CC_TYPE_XCX_MINING_TRADE, CC_TYPE_XCX_MINING_SELL. lia. }
  rewrite Hm in Hr. destruct Hr as (Hview & _ & [[? _]|(_ & _ & Hown)]); [lia|].
  destruct (sell_serial_checked mem t txq tx Hview Hreq Hsell) as (x & Hx & Es); [apply Hshape|apply Hshape|].
  rewrite Forall_forall in Hown. destruct (Hown x Hx) as (hk & num & Hrow & _).
  destruct (Hhash (t_foreign_address t)) as (Hlen & Hok & Hnone).
  rewrite Es in Hrow. unfold le_val, le_bytes in Hrow. rewrite <- Hlen, digits_of_val in Hrow by (done || lia). congruence.
Qed.

(** *** In a block *)

(** What passes in [m] passes in [m']. *)
Definition relaxes {A} (m m' : step A) : Prop := forall s a s', m s = Ret (inr (a, s')) -> m' s = Ret (inr (a, s')).

Lemma relaxes_refl {A} (m : step A) : relaxes m m.
Proof. by intros s a s'. Qed.

Lemma relaxes_bind {A B} (m m' : step A) (k k' : A -> step B) Q :
  relaxes m m' -> passes m Q -> (forall a, Q a -> relaxes (k a) (k' a)) -> relaxes (m ≫= k) (m' ≫= k').
Proof.
  intros Hm Hq Hk s b s'. unfold mbind, wired_bind. destruct (m s) as [[?|[a s1]]|?] eqn:E; try done.
  rewrite (Hm s a s1 E). apply Hk, (Hq s a s1 E).
Qed.

Lemma relaxes_then {A B} (m : step A) (k k' : A -> step B) : (forall a, relaxes (k a) (k' a)) -> relaxes (m ≫= k) (m ≫= k').
Proof. intros Hk. eapply relaxes_bind; [apply relaxes_refl|apply passes_any|auto]. Qed.

Lemma relaxes_reject b b' rc : (b = false -> b' = false) -> relaxes (reject b rc) (reject b' rc).
Proof. intros Hb s [] s'. unfold reject. destruct b; [done|]. by rewrite (Hb eq_refl). Qed.

(** An error of a query that is ignored for a message is ignored in a block. *)
Lemma ignore_relaxes chain rc :
  relaxes (ignore ← do (IgnoreError p chain false); reject (negb ignore) rc) (ignore ← do (IgnoreError p chain true); reject (negb ignore) rc).
Proof.
  unfold IgnoreError, GetVerifyLevel. destruct (chain <=? XREQ_BLOCKCHAIN_MAX); [|by intros s a s'].
  cbn [outcome_bind]. destruct (Strict_Blocks <=? _); [apply relaxes_refl|]. destruct (_ =? Strict_Relay); [|apply relaxes_refl].
  by intros [] a s'.
Qed.

Lemma address_relaxes now chain addr : relaxes (check_address p db f now false chain addr) (check_address p db f now true chain addr).
Proof.
  unfold check_address. case_bool_decide; [apply relaxes_refl|]. cbv zeta. cbn [negb andb].
  assert (Hany : forall m : step Z, relaxes
    (m ≫= fun rc => reject (rc <? 0) TX_RESULT_INTERNAL_ERROR;; reject (rc =? 0) TX_RESULT_ADDRESS_IN_USE;;
       rc ← do (XcxBlockedForeignAddressSelect (blocked db) (f_blocked f) chain addr);
       reject (rc <? 0) TX_RESULT_INTERNAL_ERROR;; invalid (rc =? 0);;
       rc ← do (QueryAddress p chain addr);
       invalid (0 <? rc);;
       if negb (rc =? 0) then ignore ← do (IgnoreError p chain false); reject (negb ignore) TX_RESULT_FOREIGN_ERROR else mret tt)
    (m ≫= fun rc => reject (rc <? 0) TX_RESULT_INTERNAL_ERROR;; reject (rc =? 0) TX_RESULT_ADDRESS_IN_USE;;
       rc ← do (XcxBlockedForeignAddressSelect (blocked db) (f_blocked f) chain addr);
       reject (rc <? 0) TX_RESULT_INTERNAL_ERROR;; invalid (rc =? 0);;
       rc ← do (QueryAddress p chain addr);
       invalid (0 <? rc);;
       if negb (rc =? 0) then ignore ← do (IgnoreError p chain true); reject (negb ignore) TX_RESULT_FOREIGN_ERROR else mret tt)).
  { intros m. apply relaxes_then. intros rc. apply relaxes_then. intros []. apply relaxes_then. intros []. apply relaxes_then. intros rb.
    apply relaxes_then. intros []. apply relaxes_then. intros []. apply relaxes_then. intros rq. apply relaxes_then. intros [].
    destruct (negb (rq =? 0)); [apply ignore_relaxes|apply relaxes_refl]. }
  destruct (CheckTransientDuplicateForeignAddresses p chain); cbn [andb]; [|apply Hany].
  unfold XreqsSelectUniqueForeignAddress. destruct (f_pending f); [by intros s a s'|]. case_bool_decide; [by intros s a s'|]. apply Hany.
Qed.

Lemma ValidateXreq_relaxes now tx t donation tx_size total_nout :
  relaxes (ValidateXreq siphash P p db f now false tx t donation tx_size total_nout)
    (ValidateXreq siphash P p db f now true tx t donation tx_size total_nout).
Proof.
  unfold ValidateXreq. cbv zeta. do 13 (apply relaxes_then; intros []).
  eapply relaxes_bind; [apply address_relaxes|apply passes_any|]. intros [] _. apply relaxes_refl.
Qed.

Lemma by_type_relaxes now tx xtx tx_size total_nout :
  relaxes (validate_by_type siphash P p db f now false tx xtx tx_size total_nout)
    (validate_by_type siphash P p db f now true tx xtx tx_size total_nout).
Proof.
  unfold validate_by_type. cbv zeta. destruct (TypeIsXpay _); [apply relaxes_refl|]. destruct (TypeIsXreq _); [|apply relaxes_refl].
  destruct xtx as [[t| |]|]; try apply relaxes_refl.
  eapply relaxes_bind; [apply ValidateXreq_relaxes|apply passes_any|]. intros tx' _. apply relaxes_refl.
Qed.

Lemma ValidateForeign_relaxes now xpay : 0 < pay_foreign_confirmations_required xpay ->
  relaxes (ValidateForeign p now false xpay) (ValidateForeign p now true xpay).
Proof.
  intros Hc. unfold ValidateForeign. cbv zeta. apply relaxes_then. intros []. apply relaxes_then. intros [rc result].
  apply relaxes_then. intros []. destruct (negb (rc =? 0)); [apply ignore_relaxes|].
  eapply relaxes_bind; [apply relaxes_reject|apply passes_any|intros [] _; apply relaxes_refl].
  rewrite !Z.ltb_ge, Z.div_1_r. intros Hle. etransitivity; [|exact Hle]. apply Z.div_le_upper_bound; lia.
Qed.

Lemma check_spent_relaxes now mem tx xtx already_paid :
  (forall xpay, xtx = Some (XPay xpay) -> TypeIsXpay (tag_type tx) = true -> 0 < pay_foreign_confirmations_required xpay) ->
  relaxes (check_spent p db f now false mem tx xtx already_paid) (check_spent p db f now true mem tx xtx already_paid).
Proof.
  intros Hc. unfold check_spent. destruct (_ =? _); [apply relaxes_refl|]. apply relaxes_then. intros v. cbv zeta.
  change (tag_type (put_view tx v)) with (tag_type tx).
  apply relaxes_then. intros one_spent. destruct one_spent; [apply relaxes_refl|]. apply relaxes_then. intros [].
  eapply relaxes_bind; [|apply passes_any|intros [] _; apply relaxes_refl].
  destruct (TypeIsXpay (tag_type tx)); [|apply relaxes_refl]. destruct xtx as [[| |]|]; try apply relaxes_refl.
  apply ValidateForeign_relaxes. auto.
Qed.

Lemma tag_kept_root now tx : passes (set_root p db f now tx) (fun tx' => tag_type tx' = tag_type tx).
Proof.
  unfold set_root. destruct (CommitRootsSelectLevel _ _ _ true) as [[rc1 t1] r1]. checks. cbv zeta. checks.
  destruct (CommitRootsSelectLevel _ _ _ false) as [[rc2 t2] root]. checks. by apply passes_ret.
Qed.

(** C28. What a node accepts from a peer, or finds to be spent already, it accepts in a block
    at the same time, with the same result. *)
Theorem TxValidate_in_block prior mem rc tx :
  TxValidate siphash VerifyProof P old_tables p db f prior false mem = Ret (rc, Some tx) ->
  TxValidate siphash VerifyProof P old_tables p db f prior true mem = Ret (rc, Some tx).
Proof.
  destruct (test_mal p) eqn:Hmal; [unfold TxValidate; by rewrite Hmal|].
  rewrite !TxValidate_steps by done. generalize (blocktime prior). intros now.
  enough (Hr : relaxes (validate_steps siphash VerifyProof P old_tables p db f now false mem)
    (validate_steps siphash VerifyProof P old_tables p db f now true mem)) by apply Hr.
  unfold validate_steps. cbv zeta. apply relaxes_then. intros [?|tx0]; [apply relaxes_refl|].
  apply relaxes_then. intros [tx1 total]. apply relaxes_then. intros xtx0.
  eapply relaxes_bind; [apply by_type_relaxes|apply by_type_ok|]. intros [[tx2 xtx] paid] ((carry & allow & E2) & _ & _ & Hpaid). cbn [fst snd] in *.
  assert (Htag : tag_type tx2 = tag_type tx1) by by rewrite E2.
  eapply relaxes_bind; [apply relaxes_refl|apply (tag_kept_root now tx2)|]. intros tx3 Htag3.
  eapply relaxes_bind; [apply relaxes_refl|apply check_proof_ok|]. intros txp [_ [iv Ep]]. apply check_spent_relaxes.
  intros xpay Hx Ht. assert (Htp : tag_type txp = tag_type tx1) by (rewrite Ep; change (tag_type tx3 = tag_type tx1); congruence).
  rewrite Htp in Ht. destruct (Hpaid xpay Hx Ht) as (m & [] & _). assumption.
Qed.

End sound.

(** ** Examples *)

#[local] Instance demo_libm : Libm := exact_log2.
#[local] Instance demo_amt : AmtFloat := {| asDouble _ _ := zero; amount_from_full _ _ := (0, 0) |}.
#[local] Instance demo_server : ForeignServer :=
  {| btc_QueryAddress _ _ := Ret 0; btc_QueryPayment _ _ _ _ := Ret (-1, no_result) |}.
#[local] Instance demo_hash : Hashes := {| blake2b n _ _ := replicate (Z.to_nat n) 9; blake2s n _ _ := replicate (Z.to_nat n) 9 |}.

Definition demo_prime : Z := 1000003.
Definition demo_params : params :=
  mkParams false 7 1 600 0 true (fun _ => If_Possible) (TX_TIME_OFFSET + 900) (mkProofParams 0 0 0 0 0 0 0 50 50).
Definition demo_db : node_db :=
  mkNodeDb {[ 0 := mkRootRow (TX_TIME_OFFSET + 300) 1 11 ]} ∅ ∅ ∅ (mkMatchDb ∅ ∅ ∅).
Definition no_faults : faults := mkFaults false false false false false false (fun _ => false).
(** A payment of one output and one input, and a request to sell. *)
Definition demo_object : list Z := le_bytes 4 457 ++ le_bytes 4 CC_TAG_TX ++ replicate 449 0.
Definition demo_sell : list Z := le_bytes 4 500 ++ le_bytes 4 CC_TAG_XCX_SIMPLE_SELL ++ replicate 492 0.

#[local] Abbreviation demo_validate := (TxValidate (fun _ _ => 0) (fun _ => false) demo_prime false demo_params demo_db no_faults).

Lemma bytes_ok_of mem : forallb (fun b => (0 <=? b) && (b <? 2 ^ 8)) mem = true -> bytes_ok mem.
Proof. intros E. apply Forall_forall. intros b Hb. rewrite forallb_forall in E. specialize (E b ltac:(by apply list_elem_of_In)). unfold in_word. lia. Qed.


Lemma sell_never_resubmitted_witness : exists txp, TypeIsSeller (tag_type txp) = true
  /\ ~ exists tx, demo_validate 0 false demo_sell = Ret (1, Some tx).
Proof.
  assert (E : exists txp, tx_from_wire demo_prime demo_sell 500 = Ret (inr txp)
    /\ TypeIsXreq (tag_type txp) = true /\ TypeIsSeller (tag_type txp) = true)
    by (eexists; split_and!; vm_compute; reflexivity).
  destruct E as (txp & E & Hreq & Hsell). exists txp. split; [exact Hsell|]. intros [tx Htx]. revert Htx.
  apply (sell_never_resubmitted (fun _ _ => 0) (fun _ => false) demo_prime false demo_params demo_db no_faults 0 false demo_sell tx txp).
  - apply bytes_ok_of. vm_compute. reflexivity.
  - reflexivity.
  - intros addr. split_and!; [reflexivity|apply bytes_ok_of; vm_compute; reflexivity|apply lookup_empty].
  - exact E.
  - exact Hreq.
  - exact Hsell.
Defined.

Lemma TxValidate_in_block_witness : exists tx, demo_validate 0 true demo_object = Ret (0, Some tx).
Proof.
  assert (E : exists tx, demo_validate 0 false demo_object = Ret (0, Some tx)) by (eexists; vm_compute; reflexivity).
  destruct E as [tx E]. exists tx.
  apply (TxValidate_in_block (fun _ _ => 0) (fun _ => false) demo_prime false demo_params demo_db no_faults 0 demo_object 0 tx).
  exact E.
Defined.
