(* ===== verification/ForeignBtc.v ===== *)
(** * Queries of Bitcoin nodes (src/source/ccnode/src/foreign-query-btc.cpp, foreign-rpc.cpp)

    The text of a query, its submission, the reading of the reply, and the retries of
    [ForeignQueryBtc], which implement the interface [ForeignServer] that validation uses
    (ProcessTx.v).  The JSON library, the decimal numbers of boost, and what a connection
    receives are interfaces. *)
From S2P Require Import Prelude Encode AlphaCode Objects Txs UniFloat WireFloat TxWire Xmatch XtxWire ProcessTx.
From Stdlib Require Import Strings.String Strings.Ascii.
From stdpp Require Import gmap.

Local Open Scope Z_scope.
Local Open Scope cc_scope.

(** ** Text *)

(** The bytes of a text, in which single quotes stand for double quotes. *)
Definition text (s : string) : list Z :=
  map (fun c => let z := Z.of_nat (nat_of_ascii c) in if z =? 39 then 34 else z) (list_ascii_of_string s).

Fixpoint decimal_digits (fuel : nat) (n : Z) (acc : list Z) : list Z :=
  match fuel with
  | O => acc
  | S f => let acc := (48 + n mod 10) :: acc in if n <? 10 then acc else decimal_digits f (n / 10) acc
  end.
(** [to_string] of an unsigned integer. *)
Definition to_string (n : Z) : list Z := decimal_digits (S (Z.to_nat (Z.log2 n))) n [].

Definition CRLF : list Z := [13; 10].

(** ** Libraries *)

(** [Json::Value]: [removeMember] gives the member and what is left. *)
Class JsonLib (V : Type) := {
  json_parse : list Z -> option V;
  removeMember : V -> list Z -> outcome (option (V * V));
  isNull : V -> bool;
  isBool : V -> bool;
  asBool : V -> outcome bool;
  isString : V -> bool;
  asString : V -> outcome (list Z);
  isIntegral : V -> bool;
  isUint : V -> bool;
  isNumeric : V -> bool;
  asInt : V -> outcome Z;
  asUInt : V -> outcome Z;
  asUInt64 : V -> outcome Z;
  isArray : V -> bool;
  elements : V -> list V;
  getOffsetStart : V -> Z;
  getOffsetLimit : V -> Z
}.

(** The double nearest to the decimal number of a text ([amtfloat_t], 50 digits); nothing
    when the text is not a number. *)
Class DecFloat := amtfloat : list Z -> option double.

(** What [ForeignConnection] has read when a query completes: the buffer, the number of
    bytes, and where the content begins and its length. *)
Record reply := mkReply { m_pread : list Z; m_nred : Z; m_content_start : Z; m_content_length : Z }.

(** One attempt: shutting down, no connection, no reply, or a reply. *)
Inductive attempt := Shutdown | NoConnection | NoReply | Replied (r : reply).

(** The port and the authorization of the server of each blockchain, and its answers to
    each attempt to post a request. *)
Class Rpc := {
  rpc_port : Z -> Z;
  rpc_auth : Z -> list Z;
  rpc_post : Z -> list Z -> nat -> attempt
}.

Section queries.
Context {V : Type} `{JsonLib V} `{DecFloat} `{Rpc}.

(** ** Reading replies

    A reader ends with a code, or with its result. *)

Abbreviation reader := (wired unit).
Definition fails {A} : reader A := wreturn (-1).
Definition fail_if (b : bool) : reader unit := if b then fails else mret tt.
Definition call {A} (m : outcome A) : reader A := lift m.

(** [root.removeMember(key, &value)]: the member and what is left. *)
Definition remove (root : V) (key : list Z) : reader (V * V) :=
  r ← call (removeMember root key);
  match r with Some vr => mret vr | None => fails end.

Definition ParseBlockHash (root : V) : reader (list Z) :=
  vr ← remove root (text "result");
  fail_if (negb (isString vr.1));;
  call (asString vr.1).

(** [string::find(':')], and what is after it. *)
Definition after_colon (s : list Z) : list Z :=
  match list_find (fun c => c = 58) s with Some (pos, _) => drop (S pos) s | None => s end.

(** The script of the address. *)
Definition ParseAddress (root : V) (addr : list Z) : reader (list Z) :=
  vr ← remove root (text "result");
  let root := vr.1 in
  fail_if (isNull root);;
  vr ← remove root (text "isvalid");
  let '(value, root) := vr in
  fail_if (negb (isBool value));;
  valid ← call (asBool value);
  (if negb valid then wreturn 1 else mret tt);;
  vr ← remove root (text "address");
  let '(value, root) := vr in
  key ← call (asString value);
  fail_if (negb (bool_decide (after_colon key = addr)));;
  vr ← remove root (text "scriptPubKey");
  call (asString vr.1).

(** [parse_float_value]: the text of the value, without its quotes. *)
Definition value_text (json : list Z) (v : V) : list Z :=
  let start := getOffsetStart v in
  let limit := getOffsetLimit v in
  let start := if nth (Z.to_nat start) json 0 =? 34 then start + 1 else start in
  let limit := if (start <? limit) && (nth (Z.to_nat (limit - 1)) json 0 =? 34) then limit - 1 else limit in
  take (Z.to_nat (limit - start)) (drop (Z.to_nat start) json).

Definition SATOSHI_PER_BITCOIN : double := mkD (10 ^ 8) 0.

(** What the outputs of a transaction pay to a script. *)
Fixpoint add_outputs (json script : list Z) (outs : list V) (amount : double) : reader double :=
  match outs with
  | [] => mret amount
  | out :: outs =>
      vr ← remove out (text "scriptPubKey");
      let '(value, out) := vr in
      vr ← remove value (text "hex");
      s ← call (asString vr.1);
      if negb (bool_decide (s = script)) then add_outputs json script outs amount
      else
        vr ← remove out (text "value");
        let value := vr.1 in
        fail_if (negb (isNumeric value));;
        match amtfloat (value_text json value) with
        | None => fails
        | Some f =>
            a ← call (UniFloat_of f 0);
            a ← call (Multiply a SATOSHI_PER_BITCOIN 0);
            a ← call (Round a 0);
            amount ← call (UniFloat.Add amount a 0 false);
            add_outputs json script outs amount
        end
  end.

Definition ParseTx (json : list Z) (root : V) (block txid script : list Z) : reader ForeignQueryResult :=
  vr ← remove root (text "result");
  let root := vr.1 in
  fail_if (isNull root);;
  vr ← remove root (text "blockhash");
  let '(value, root) := vr in
  s ← call (asString value);
  fail_if (negb (bool_decide (s = block)));;
  vr ← remove root (text "txid");
  let '(value, root) := vr in
  s ← call (asString value);
  fail_if (negb (bool_decide (s = txid)));;
  vr ← remove root (text "confirmations");
  let '(value, root) := vr in
  fail_if (negb (isIntegral value));;
  bad ← ((if negb (isUint value) then mret true else (n ← call (asInt value); mret (n <=? 0))) : reader bool);
  fail_if bad;;
  confirmations ← call (asUInt value);
  vr ← remove root (text "blocktime");
  let '(value, root) := vr in
  fail_if (negb (isIntegral value) || negb (isUint value));;
  blocktime ← call (asUInt64 value);
  vr ← remove root (text "vout");
  let root := vr.1 in
  fail_if (negb (isArray root));;
  amount ← add_outputs json script (elements root) UniFloat.zero;
  amount ← call (Divide amount SATOSHI_PER_BITCOIN 0);
  mret (mkForeignQueryResult amount blocktime confirmations []).

(** ** Submitting a query *)

(** The request for a query. *)
Definition http_request (auth query : list Z) : list Z :=
  text "POST / HTTP/1.1" ++ CRLF ++ text "Authorization: Basic " ++ auth ++ CRLF
  ++ text "Content-Length: " ++ to_string (Z.of_nat (length query)) ++ CRLF ++ CRLF ++ query.

Definition is_space (c : Z) : bool := (c =? 32) || (c =? 13) || (c =? 10) || (c =? 0).

(** The loop that moves [content_end] over trailing white space. *)
Fixpoint trim_end (fuel : nat) (buf : list Z) (content_end : Z) : Z :=
  match fuel with
  | O => content_end
  | S f => if (content_end =? 0) || negb (is_space (nth (Z.to_nat (content_end - 1)) buf 0)) then content_end
           else trim_end f buf (content_end - 1)
  end.

(** [ForeignRpc::SubmitQuery] of one attempt: a positive code when the reply is not an
    object or an array of objects, a negative one when there is none that can be read. *)
Definition SubmitQuery (post : attempt) : outcome (Z + V * list Z) :=
  match post with
  | Replied r =>
      let buf := <[Z.to_nat (m_nred r) := 0]> (m_pread r) in
      let at_ i := nth (Z.to_nat i) buf 0 in
      let content := drop (Z.to_nat (m_content_start r)) buf in
      if (m_nred r <? 1) || (m_nred r <=? m_content_start r) || (m_content_length r <=? 0)
         || (m_nred r <? u32 (m_content_start r + m_content_length r)) then Ret (inl (-1))
      else if negb ((at_ (m_content_start r) =? 123)
                    || (at_ (m_content_start r) =? 91) && (at_ (m_content_start r + 1) =? 123)) then Ret (inl 1)
      else
        let content_end := u32 (m_content_start r + m_content_length r) in
        let content_end := trim_end (Z.to_nat content_end) buf content_end in
        if (content_end <? 2)
           || negb ((at_ (content_end - 1) =? 125) || (at_ (content_end - 2) =? 125) && (at_ (content_end - 1) =? 93)) then Ret (inl (-1))
        else if content_end <? m_content_start r then Throw BadAccess
        else
          match json_parse (take (Z.to_nat (content_end - m_content_start r)) content) with
          | None => Ret (inl (-1))
          | Some root => Ret (inr (root, content))
          end
  | _ => Ret (inl (-1))
  end.

(** ** Queries *)

Definition tx_query_retries : nat := 4.

(** The loop of a query: [read] reads the reply, with a code that is negative when the query
    is to be tried again; every code that it gives then is -1, as the loop starts with. *)
Fixpoint query_loop {A} (port : Z) (request : list Z) (read : V -> list Z -> reader A) (n i : nat) (result_code : Z)
  : outcome (Z + A) :=
  match n with
  | O => Ret (inl result_code)
  | S n =>
      match rpc_post port request i with
      | Shutdown => Ret (inl result_code)
      | NoConnection => Ret (inl (-1))
      | post =>
          match SubmitQuery post with
          | Throw e => Throw e
          | Ret (inl _) => query_loop port request read n (S i) result_code
          | Ret (inr (root, json)) =>
              match read root json tt with
              | Throw e => Throw e
              | Ret (inr (a, _)) => Ret (inr a)
              | Ret (inl rc) => if rc <? 0 then query_loop port request read n (S i) rc else Ret (inl rc)
              end
          end
      end
  end.

Definition run_query {A} (blockchain : Z) (query : list Z) (read : V -> list Z -> reader A) : outcome (Z + A) :=
  if XREQ_BLOCKCHAIN_MAX <? blockchain then Ret (inl (-1))
  else if rpc_port blockchain =? 0 then Ret (inl (-1))
  else query_loop (rpc_port blockchain) (http_request (rpc_auth blockchain) query) read (S tx_query_retries) 0 (-1).

Definition height_query : list Z := text "{'method':'getblockcount','params':[]}".
Definition address_query (addr : list Z) : list Z := text "{'method':'validateaddress','params':['" ++ addr ++ text "']}".
Definition block_query (block addr : list Z) : list Z :=
  text "[{'method':'getblockhash','params':[" ++ block ++ text "]},"
  ++ text "{'method':'validateaddress','params':['" ++ addr ++ text "']}]".
Definition payment_query (txid block : list Z) : list Z :=
  text "{'method':'getrawtransaction','params':['" ++ txid ++ text "',true,'" ++ block ++ text "']}".

Definition ParseBlockHeight (root : V) : reader Z :=
  vr ← remove root (text "result");
  fail_if (negb (isIntegral vr.1) || negb (isUint vr.1));;
  call (asUInt64 vr.1).

Definition QueryBlockHeight (blockchain : Z) : outcome (Z + Z) :=
  run_query blockchain height_query (fun root _ => ParseBlockHeight root).

(** [ForeignQueryBtc::QueryAddress]; the script is not used. *)
Definition QueryAddress (blockchain : Z) (addr : list Z) : outcome Z :=
  let! r := run_query blockchain (address_query addr) (fun root _ => ParseAddress root addr) in
  Ret (match r with inl rc => rc | inr _ => 0 end).

Definition ParseBlock (root : V) (addr : list Z) : reader (list Z * list Z) :=
  fail_if (negb (isArray root));;
  match elements root with
  | [first; second] =>
      block_hash ← ParseBlockHash first;
      script ← ParseAddress second addr;
      mret (block_hash, script)
  | _ => fails
  end.

(** The hash of a block and the script of an address. *)
Definition QueryBlock (blockchain : Z) (block addr : list Z) : outcome (Z + list Z * list Z) :=
  run_query blockchain (block_query block addr) (fun root _ => ParseBlock root addr).

Definition QueryPayment (blockchain : Z) (block txid script : list Z) : outcome (Z + ForeignQueryResult) :=
  run_query blockchain (payment_query txid block) (fun root json => ParseTx json root block txid script).

(** The queries as validation uses them. *)
#[export] Instance ForeignQueryBtc : ForeignServer := {|
  btc_QueryAddress := QueryAddress;
  btc_QueryPayment blockchain block addr txid :=
    let! r := QueryBlock blockchain block addr in
    match r with
    | inl rc => Ret (rc, no_result)
    | inr (block_hash, script) =>
        let! r := QueryPayment blockchain block_hash txid script in
        Ret (match r with inl rc => (rc, no_result) | inr result => (0, result) end)
    end
|}.
End queries.

(** ** Amounts

    The double [v] has the integer value [n]; [near e v f] says that [v] is [f] up to
    [2 ^ -e] of it. *)
Definition is_int (v : double) (n : Z) : Prop :=
  is_double v /\ forall k, k <= 0 -> k <= d_e v -> at_exp k v = n * 2 ^ (- k).

Definition near (e : Z) (v f : double) : Prop :=
  forall k, k <= d_e v -> k <= d_e f -> Z.abs (at_exp k v - at_exp k f) * 2 ^ e <= at_exp k f.

(** [f] is the decimal [n / 10^8], to within an ulp. *)
Definition coin (f : double) (n : Z) : Prop :=
  n = 0 /\ d_m f = 0
  \/ 0 < n /\ is_double f /\ 0 < d_m f
     /\ forall k, k <= 0 -> k <= d_e f -> Z.abs (10 ^ 8 * at_exp k f - n * 2 ^ (- k)) * 2 ^ 52 <= n * 2 ^ (- k).

Lemma at_exp_pos k v : 0 < d_m v -> k <= d_e v -> 0 < at_exp k v.
Proof. intros Hm Hk. unfold at_exp. pose proof (pow2_pos (d_e v - k) ltac:(lia)). nia. Qed.

Lemma is_int_from k v n : is_double v -> k <= 0 -> k <= d_e v -> at_exp k v = n * 2 ^ (- k) -> is_int v n.
Proof.
  intros Hd Hk0 Hk E. split; [done|]. intros j Hj0 Hj.
  destruct (Z.le_ge_cases j k) as [Hle|Hle].
  - rewrite (at_exp_shift k j) by lia. rewrite E, <- Z.mul_assoc, <- Z.pow_add_r by lia. do 2 f_equal. lia.
  - rewrite (at_exp_shift j k) in E by lia. apply (Z.mul_reg_r _ _ (2 ^ (j - k))); [pose proof (pow2_pos (j - k)); lia|].
    rewrite E, <- Z.mul_assoc, <- Z.pow_add_r by lia. do 2 f_equal. lia.
Qed.

Lemma pow_split a b c : 0 <= b -> 0 <= c -> a = b + c -> 2 ^ a = 2 ^ b * 2 ^ c.
Proof. intros Hb Hc ->. by apply Z.pow_add_r. Qed.

(** The conversion of a double with at most 52 bits is exact. *)
Lemma UniFloat_of_exact v : 0 < d_m v -> -900 <= d_e v <= 900 -> bits (d_m v) <= 52 ->
  UniFloat_of v 0 = Ret (mkD (full 52 v) (scale v - 52)).
Proof.
  intros Hm He Hb. assert (Ea : Z.abs (d_m v) = d_m v) by lia.
  pose proof (bits_bound (d_m v) Hm) as [Hbb Hb0].
  unfold UniFloat_of. change (Decompose v 0 0 0) with (Decompose v 52 0 0).
  rewrite Decompose_bits by (rewrite ?Ea; lia). cbn [outcome_bind].
  pose proof (full_bounds 52 v ltac:(lia) ltac:(rewrite Ea; lia)) as Hf.
  assert (Hfb : bits (full 52 v) <= 53) by (pose proof (bits_le (full 52 v) 52); change (2 ^ (52 - 1)) with (2 ^ 51) in Hf; lia).
  rewrite Recompose_exact; [by rewrite Z.sgn_pos, Z.mul_1_l by lia| |done| |].
  - pose proof (pow2_pos (52 - 1)). lia.
  - unfold scale in *. rewrite Ea. lia.
  - unfold scale in *. rewrite Ea. lia.
Qed.

Lemma full_at nbits v k : 0 < d_m v -> bits (d_m v) <= nbits -> k <= scale v - nbits ->
  full nbits v * 2 ^ (scale v - nbits - k) = at_exp k v.
Proof.
  intros Hm Hb Hk. assert (Ea : Z.abs (d_m v) = d_m v) by lia.
  rewrite (at_full k nbits) by (rewrite ?Ea; lia). rewrite Z.sgn_pos by lia. lia.
Qed.

(** The conversion of any double. *)
Lemma UniFloat_of_near f : is_double f -> 0 < d_m f -> -900 <= d_e f <= 900 ->
  exists w, UniFloat_of f 0 = Ret w /\ is_double w /\ 0 < d_m w /\ near 51 w f /\ d_e f - 52 <= d_e w <= d_e f + 2.
Proof.
  intros Hd Hm He. assert (Ea : Z.abs (d_m f) = d_m f) by lia. pose proof (double_bits f Hd ltac:(lia)) as Hb. rewrite Ea in Hb.
  pose proof (bits_bound (d_m f) Hm) as [Hbb _].
  destruct (Z.le_gt_cases (bits (d_m f)) 52) as [Hle|Hgt].
  { rewrite UniFloat_of_exact by lia. eexists. split; [done|].
    pose proof (full_bounds 52 f ltac:(lia) ltac:(rewrite Ea; lia)) as Hf. pose proof (pow2_pos (52 - 1)).
    assert (2 ^ 52 < 2 ^ 53) by done. unfold is_double, near, scale. cbn [d_m d_e]. rewrite Ea. split_and!; try lia.
    intros k Hk1 Hk2. unfold at_exp at 1. cbn [d_m d_e]. pose proof (full_at 52 f k Hm Hle ltac:(unfold scale; rewrite Ea; lia)) as E.
    unfold scale in E. rewrite Ea in E. rewrite E, Z.sub_diag. pose proof (at_exp_pos k f Hm Hk2). lia. }
  assert (E53 : bits (d_m f) = 53) by lia. rewrite E53 in Hbb. change (2 ^ (53 - 1)) with (2 ^ 52) in Hbb.
  unfold UniFloat_of, Decompose. rewrite (proj2 (Z.eqb_neq (d_m f) 0)) by lia. cbv zeta. rewrite Ea, E53.
  change (if 0 =? 0 then UNIFLOAT_COMPUTATION_BITS else 0) with 52. change (52 <? 64) with true. cbv iota.
  rewrite (proj2 (Z.ltb_lt 0 (d_m f))) by lia. change (53 - 52) with 1. replace (d_e f + 53 - 52) with (d_e f + 1) by lia.
  cbn [decompose_loop]. unfold shift_round. change (1 <=? 0) with false. change (1 + 1 <=? 0) with false.
  change (0 <? 0) with false. cbv iota. change (2 ^ (1 - 1)) with 1. change (2 ^ 1) with 2. change (2 ^ (1 + 1 - 1)) with 2. change (2 ^ (1 + 1)) with 4.
  rewrite Z.mul_0_r, !Z.add_0_r.
  assert (P52 : 2 ^ 52 = 4503599627370496) by done. assert (P53 : 2 ^ 53 = 9007199254740992) by done.
  pose proof (Z.div_mod (d_m f + 1) 2 ltac:(lia)) as D. pose proof (Z.mod_pos_bound (d_m f + 1) 2 ltac:(lia)) as R.
  set (q := (d_m f + 1) / 2) in *.
  rewrite !(u64_small q) by lia.
  destruct (Z.ltb_spec q (2 ^ 52)) as [Hq|Hq].
  - cbn [outcome_bind fst snd]. rewrite i16_small by lia.
    rewrite Recompose_exact; [|lia| |pose proof (bits_le q 52); lia|lia]; [|pose proof (bits_le q 52); lia].
    eexists. split; [done|]. unfold is_double, near. cbn [d_m d_e]. rewrite Z.mul_1_l. split_and!; try lia.
    intros k Hk1 Hk2. unfold at_exp. cbn [d_m d_e].
    replace (d_e f + 1 - k) with (d_e f - k + 1) by lia. rewrite Z.pow_add_r by lia. change (2 ^ 1) with 2.
    pose proof (pow2_pos (d_e f - k) ltac:(lia)) as Hp. change (2 ^ 51) with 2251799813685248.
    replace (q * (2 ^ (d_e f - k) * 2) - d_m f * 2 ^ (d_e f - k)) with ((q * 2 - d_m f) * 2 ^ (d_e f - k)) by ring.
    rewrite Z.abs_mul, (Z.abs_eq (2 ^ _)) by lia. assert (Z.abs (q * 2 - d_m f) <= 1) by lia. nia.
  - assert (Em : d_m f = 2 ^ 53 - 1) by lia. rewrite Em. change ((2 ^ 53 - 1 + 2) / 4) with (2 ^ 51).
    rewrite !(u64_small (2 ^ 51)) by done. change (2 ^ 51 <? 2 ^ 52) with true. cbv iota. cbn [outcome_bind fst snd].
    rewrite (i16_small (d_e f + 1)) by lia. rewrite i16_small by lia. change (1 * 2 ^ 51) with (2 ^ 51).
    rewrite Recompose_exact; [|done|done|change (bits (2 ^ 51)) with 52; lia|lia].
    eexists. split; [done|]. unfold is_double, near. cbn [d_m d_e]. change (1 * 2 ^ 51) with (2 ^ 51). split_and!; try (lia || done).
    intros k Hk1 Hk2. unfold at_exp. cbn [d_m d_e]. rewrite Em.
    replace (d_e f + 1 + 1 - k) with (d_e f - k + 2) by lia. rewrite Z.pow_add_r by lia. change (2 ^ 2) with 4.
    pose proof (pow2_pos (d_e f - k) ltac:(lia)) as Hp.
    replace (2 ^ 51 * (2 ^ (d_e f - k) * 4) - (2 ^ 53 - 1) * 2 ^ (d_e f - k)) with (1 * 2 ^ (d_e f - k)) by ring.
    rewrite Z.mul_1_l, Z.abs_eq by lia. assert (2 ^ 51 <= 2 ^ 53 - 1) by done. nia.
Qed.

Lemma rounded_near exact v : rounded 0 exact v -> 0 < d_m exact -> 0 < d_m v
  /\ forall k, k <= d_e v -> k <= d_e exact -> Z.abs (at_exp k v - at_exp k exact) * 2 ^ 50 < at_exp k exact.
Proof.
  intros (Hs & Hlt & _) Hm. rewrite (Z.sgn_pos (d_m exact)) in Hs by done. split; [by apply Z.sgn_pos_iff|].
  intros k Hk1 Hk2. rewrite (dlt_at (k - 50)) in Hlt by (cbn; unfold common; cbn; lia). apply Z.ltb_lt in Hlt.
  assert (E1 : at_exp (k - 50) (mkD (Z.abs (d_m exact)) (d_e exact - 50)) = at_exp k exact).
  { unfold at_exp. cbn [d_m d_e]. rewrite Z.abs_eq by lia. do 2 f_equal. lia. }
  assert (Hk : k <= d_e (dabs (dsub v exact))) by (cbn; unfold common; cbn; lia).
  rewrite E1, (at_exp_shift k) in Hlt by lia. replace (k - (k - 50)) with 50 in Hlt by lia.
  assert (E2 : at_exp k (dabs (dsub v exact)) = Z.abs (at_exp k v - at_exp k exact)).
  { transitivity (Z.abs (at_exp k (dsub v exact))).
    - unfold at_exp, dabs. cbn [d_m d_e]. rewrite Z.abs_mul. f_equal. symmetry. apply Z.abs_eq. apply Z.pow_nonneg. lia.
    - f_equal. unfold dsub. rewrite at_dadd by (unfold neg; cbn; lia). unfold neg, at_exp. cbn [d_m d_e]. lia. }
  by rewrite E2 in Hlt.
Qed.

Lemma at_dmul k j a b : k <= d_e a -> j <= d_e b -> at_exp (k + j) (dmul a b) = at_exp k a * at_exp j b.
Proof.
  intros Hk Hj. unfold at_exp, dmul. cbn [d_m d_e].
  replace (d_e a + d_e b - (k + j)) with (d_e a - k + (d_e b - j)) by lia. rewrite Z.pow_add_r by lia. ring.
Qed.

Lemma satoshi_double : is_double SATOSHI_PER_BITCOIN.
Proof. by split; vm_compute. Qed.

(** Rounding a value that is within half of [n]. *)
Lemma Round_int v n : 0 < n < 2 ^ 50 -> 0 < d_m v ->
  (forall k, k <= 0 -> k <= d_e v -> 2 * Z.abs (at_exp k v - n * 2 ^ (- k)) < 2 ^ (- k)) ->
  exists w, Round v 0 = Ret w /\ is_int w n /\ 0 < d_m w.
Proof.
  intros Hn Hm Hv.
  assert (Hint : forall u, 0 < d_m u -> 0 <= d_e u -> d_m u * 2 ^ d_e u = n -> exists w, UniFloat_of u 0 = Ret w /\ is_int w n /\ 0 < d_m w).
  { intros u Hu Heu E. pose proof (pow2_pos (d_e u) Heu) as Hp. assert (Hub : bits (d_m u) <= 50) by (apply bits_le; nia).
    assert (Heu' : d_e u <= 50).
    { destruct (Z.le_gt_cases (d_e u) 50); [done|]. assert (2 ^ 50 <= 2 ^ d_e u) by (apply Z.pow_le_mono_r; lia). nia. }
    pose proof (bits_bound (d_m u) Hu) as [[Hbb _] Hb0].
    assert (Hsc : bits (d_m u) - 1 + d_e u < 50).
    { apply (Z.pow_lt_mono_r_iff 2); [lia|lia|]. rewrite Z.pow_add_r by lia. nia. }
    rewrite UniFloat_of_exact by lia. eexists. split; [done|].
    pose proof (full_bounds 52 u ltac:(lia) ltac:(rewrite Z.abs_eq; lia)) as Hf. pose proof (pow2_pos (52 - 1)).
    assert (Esc : scale u = d_e u + bits (d_m u)) by (unfold scale; rewrite Z.abs_eq; lia).
    split; [|cbn [d_m]; lia]. apply (is_int_from (scale u - 52)).
    - unfold is_double. cbn [d_m d_e]. assert (2 ^ 52 < 2 ^ 53) by done. lia.
    - lia.
    - done.
    - unfold at_exp at 1. cbn [d_m d_e]. rewrite (full_at 52 u (scale u - 52)) by lia. unfold at_exp.
      rewrite <- E, <- Z.mul_assoc, <- Z.pow_add_r by lia. f_equal; f_equal; lia. }
  unfold Round. cbv zeta. destruct (Z.leb_spec (- d_e v) 0) as [Hs|Hs].
  - apply Hint; [done|lia|]. specialize (Hv 0 ltac:(lia) ltac:(lia)). unfold at_exp in Hv. rewrite Z.sub_0_r in Hv. change (2 ^ (- 0)) with 1 in Hv. lia.
  - change (0 <? 0) with false. cbv iota. apply Hint; cbn [d_m d_e].
    + rewrite Z.sgn_pos, Z.abs_eq, Z.mul_1_l by lia. unfold shift_round. rewrite (proj2 (Z.leb_gt _ 0)) by lia.
      change (0 <? 0) with false. cbv iota. specialize (Hv (d_e v) ltac:(lia) ltac:(lia)). unfold at_exp in Hv. rewrite Z.sub_diag, Z.mul_1_r in Hv.
      set (s := - d_e v) in *. rewrite (pow_split s 1 (s - 1)) in * by lia. pose proof (pow2_pos (s - 1)). change (2 ^ 1) with 2 in *.
      apply Z.div_str_pos. nia.
    + lia.
    + rewrite Z.mul_1_r, Z.sgn_pos, Z.abs_eq, Z.mul_1_l by lia. unfold shift_round. rewrite (proj2 (Z.leb_gt _ 0)) by lia.
      change (0 <? 0) with false. cbv iota. specialize (Hv (d_e v) ltac:(lia) ltac:(lia)). unfold at_exp in Hv. rewrite Z.sub_diag, Z.mul_1_r in Hv.
      set (s := - d_e v) in *. rewrite (pow_split s 1 (s - 1)) in * by lia. pose proof (pow2_pos (s - 1)). change (2 ^ 1) with 2 in *.
      symmetry. apply (Z.div_unique_pos _ _ _ (d_m v + 2 ^ (s - 1) - 2 * 2 ^ (s - 1) * n)); lia.
Qed.

(** An amount in the smallest unit is found exactly, up to three million coins. *)
Lemma coin_units f n : coin f n -> 0 <= n <= 3 * 10 ^ 14 -> -900 <= d_e f <= 900 ->
  exists w, (let! a := UniFloat_of f 0 in let! a := Multiply a SATOSHI_PER_BITCOIN 0 in Round a 0) = Ret w
    /\ is_int w n /\ 0 <= d_m w /\ (n = 0 -> w = mkD 0 0) /\ (0 < n -> 0 < d_m w).
Proof.
  intros [[-> Hz]|(Hn & Hd & Hm & Hf)] Hmax He.
  { exists (mkD 0 0). split; [unfold UniFloat_of, Decompose; by rewrite Hz|].
    split; [split; [by split; vm_compute|intros k _ _; unfold at_exp; cbn [d_m]; lia]|by split_and!]. }
  destruct (UniFloat_of_near f Hd Hm He) as (u & -> & Hdu & Hmu & Hu & Heu). cbn [outcome_bind].
  pose proof (double_bits u Hdu ltac:(lia)) as Hbu.
  destruct (Multiply_rounds u SATOSHI_PER_BITCOIN 0 Hdu satoshi_double) as (v & -> & Hv); [lia|done| |].
  { change (scale SATOSHI_PER_BITCOIN) with 27. unfold scale. lia. }
  cbn [outcome_bind].
  destruct (rounded_near _ _ Hv) as [Hmv Hnear]; [cbn [dmul d_m SATOSHI_PER_BITCOIN]; lia|].
  assert (Hkey : forall k, k <= 0 -> k <= d_e v -> k <= d_e u -> k <= d_e f -> 2 * Z.abs (at_exp k v - n * 2 ^ (- k)) < 2 ^ (- k)).
  { intros k Hk0 Hkv Hku Hkf. specialize (Hf k Hk0 Hkf). specialize (Hu k Hku Hkf).
    specialize (Hnear k Hkv ltac:(cbn [dmul d_e SATOSHI_PER_BITCOIN]; lia)).
    assert (E : at_exp k (dmul u SATOSHI_PER_BITCOIN) = 10 ^ 8 * at_exp k u).
    { pose proof (at_dmul k 0 u SATOSHI_PER_BITCOIN Hku ltac:(done)) as E. rewrite Z.add_0_r in E. rewrite E. 
      change (at_exp 0 SATOSHI_PER_BITCOIN) with (10 ^ 8). ring. }
    rewrite E in Hnear. pose proof (pow2_pos (- k) ltac:(lia)) as Hp. set (p := 2 ^ (- k)) in *.
    set (U := at_exp k u) in *. set (F := at_exp k f) in *. set (W := at_exp k v) in *.
    change (10 ^ 8) with 100000000 in *. change (3 * 10 ^ 14) with 300000000000000 in *.
    change (2 ^ 52) with 4503599627370496 in *. change (2 ^ 51) with 2251799813685248 in *. change (2 ^ 50) with 1125899906842624 in *.
    assert (n * p <= 300000000000000 * p) by nia. assert (0 < n * p) by nia. set (N := n * p) in *. lia. }
  destruct (Round_int v n) as (w & Hr & Hi & Hw); [lia|done| |exists w; split_and!; try done; lia].
  intros k Hk0 Hkv. set (j := Z.min k (Z.min (d_e u) (d_e f))). specialize (Hkey j ltac:(lia) ltac:(lia) ltac:(lia) ltac:(lia)).
  rewrite (at_exp_shift k j v) in Hkey by lia. rewrite (pow_split (- j) (- k) (k - j)) in Hkey by lia.
  pose proof (pow2_pos (k - j) ltac:(lia)) as Hp.
  replace (at_exp k v * 2 ^ (k - j) - n * (2 ^ (- k) * 2 ^ (k - j))) with ((at_exp k v - n * 2 ^ (- k)) * 2 ^ (k - j)) in Hkey by ring.
  rewrite Z.abs_mul, (Z.abs_eq (2 ^ (k - j))) in Hkey by lia. nia.
Qed.

Lemma is_int_zero v n : is_int v n -> (n = 0 <-> d_m v = 0) /\ (0 < n <-> 0 < d_m v).
Proof.
  intros [_ Hv]. set (k := Z.min 0 (d_e v)). specialize (Hv k ltac:(lia) ltac:(lia)).
  pose proof (pow2_pos (- k) ltac:(lia)). pose proof (pow2_pos (d_e v - k) ltac:(lia)). unfold at_exp in Hv. nia.
Qed.

(** The mantissa of an integer on 62 bits. *)
Lemma is_int_full v n : is_int v n -> 0 < n < 2 ^ 50 ->
  0 < d_m v /\ 1 <= scale v <= 50 /\ n < 2 ^ scale v /\ full 62 v = n * 2 ^ (62 - scale v) /\ bits (d_m v) <= 53.
Proof.
  intros Hi Hn. destruct (is_int_zero v n Hi) as [_ Hp]. assert (Hm : 0 < d_m v) by (apply Hp; lia). destruct Hi as [Hd Hv].
  pose proof (double_bits v Hd ltac:(lia)) as Hb. rewrite Z.abs_eq in Hb by lia.
  assert (Esc : scale v = d_e v + bits (d_m v)) by (unfold scale; rewrite Z.abs_eq; lia).
  pose proof (bits_bound (d_m v) Hm) as [[Hlo Hhi] _].
  set (k := Z.min (- 100) (d_e v)). assert (Ek := Hv k ltac:(lia) ltac:(lia)). unfold at_exp in Ek.
  pose proof (pow2_pos (d_e v - k) ltac:(lia)) as Hpk.
  assert (H1 : 2 ^ (scale v - 1 - k) <= n * 2 ^ (- k) < 2 ^ (scale v - k)).
  { rewrite <- Ek. rewrite (pow_split (scale v - 1 - k) (bits (d_m v) - 1) (d_e v - k)), (pow_split (scale v - k) (bits (d_m v)) (d_e v - k)) by lia. nia. }
  assert (Hs : 1 <= scale v <= 50).
  { split.
    - destruct (Z.le_gt_cases 1 (scale v)); [done|]. assert (2 ^ (scale v - k) <= 2 ^ (- k)) by (apply Z.pow_le_mono_r; lia). nia.
    - assert (scale v - 1 - k < 50 - k); [|lia]. apply (Z.pow_lt_mono_r_iff 2); [lia|lia|].
      rewrite (pow_split (50 - k) 50 (- k)) by lia. pose proof (pow2_pos (- k) ltac:(lia)). nia. }
  split_and!; try lia.
  - rewrite (pow_split (scale v - k) (scale v) (- k)) in H1 by lia. pose proof (pow2_pos (- k) ltac:(lia)). nia.
  - pose proof (full_at 62 v (scale v - 62) Hm ltac:(lia) ltac:(lia)) as E. rewrite Z.sub_diag, Z.mul_1_r in E. rewrite E, Hv by lia.
    f_equal. f_equal. lia.
Qed.

Lemma Normalize_int N S x : 0 < N < 2 ^ 50 -> 1 <= S <= 50 -> N < 2 ^ (S + 1) ->
  exists v, (let! t := Normalize (N * 2 ^ (62 - S)) (mkT x (S - 62) 1) 0 in Ret (Recompose t)) = Ret v /\ is_int v N.
Proof.
  intros HN HS Hlt. pose proof (pow2_pos (62 - S) ltac:(lia)) as Hp.
  assert (Hy : N * 2 ^ (62 - S) < 2 ^ 63) by (rewrite (pow_split 63 (S + 1) (62 - S)) by lia; nia).
  destruct (Normalize_spec (N * 2 ^ (62 - S)) (mkT x (S - 62) 1) 0) as (q & s & -> & Hsh & Hq & Hs & _ & Hlow);
    [assert (2 ^ 63 < 2 ^ 128) by done; nia|cbn [UniFloat.exp]; lia|].
  cbn [outcome_bind UniFloat.exp UniFloat.sign].
  assert (Hs2 : s <= 11).
  { destruct Hlow as [->|Hlow]; [lia|]. assert (51 + s < 63); [|lia]. apply (Z.pow_lt_mono_r_iff 2); lia. }
  assert (Eq : q = N * 2 ^ (62 - S - s)).
  { destruct Hsh as [H1 H2 _ _]. rewrite (pow_split (62 - S) (62 - S - s) s) in H1, H2 by lia. rewrite Z.mul_assoc in H1, H2.
    pose proof (pow2_pos s Hs). nia. }
  pose proof (pow2_pos (62 - S - s) ltac:(lia)) as Hps. assert (Hq0 : 0 < q) by nia.
  pose proof (bits_lt q 52 ltac:(lia) ltac:(lia)).
  rewrite Recompose_exact by lia. eexists. split; [done|]. apply (is_int_from (S - 62 + s)).
  - unfold is_double. cbn [d_m d_e]. assert (2 ^ 52 < 2 ^ 53) by done. lia.
  - lia.
  - done.
  - unfold at_exp. cbn [d_m d_e]. rewrite Z.sub_diag, Z.mul_1_r, Z.mul_1_l, Eq. f_equal. f_equal. lia.
Qed.

Lemma Recompose_int v n : is_int v n -> 0 < n < 2 ^ 50 ->
  is_int (Recompose (mkT (full 62 v) (scale v - 62) (Z.sgn (d_m v)))) n.
Proof.
  intros Hi Hn. destruct (is_int_full v n Hi Hn) as (Hm & Hs & _ & _ & Hb). destruct Hi as [Hd Hv].
  rewrite Recompose_full by (done || lia). rewrite Z.sgn_pos, Z.mul_1_l by done.
  pose proof (full_range 53 v Hd ltac:(lia) ltac:(lia)) as Hf. pose proof (pow2_pos (53 - 1)).
  apply (is_int_from (scale v - 53)).
  - unfold is_double. cbn [d_m d_e]. lia.
  - lia.
  - done.
  - unfold at_exp. cbn [d_m d_e]. rewrite Z.sub_diag, Z.mul_1_r.
    pose proof (full_at 53 v (scale v - 53) Hm Hb ltac:(lia)) as E. rewrite Z.sub_diag, Z.mul_1_r in E. rewrite E, Hv; [done|lia|].
    unfold scale. rewrite Z.abs_eq by lia. lia.
Qed.

Lemma Shift_exact x d : 0 <= d -> 0 <= x -> x * 2 ^ d < 2 ^ 63 -> Shift (x * 2 ^ d) d 0 = Ret x.
Proof.
  intros Hd Hx Hlt. pose proof (pow2_pos d Hd).
  destruct (Shift_spec (x * 2 ^ d) d 0) as (q & -> & _ & _ & E); [nia|done|rewrite Z.div_mul by lia; nia|].
  rewrite E by (apply Z.mod_mul; lia). by rewrite Z.div_mul by lia.
Qed.

Lemma Add_int a b m n : is_int a m -> is_int b n -> 0 <= m -> 0 <= n -> m + n < 2 ^ 50 ->
  exists v, UniFloat.Add a b 0 false = Ret v /\ is_int v (m + n).
Proof.
  intros Ha Hb Hm Hn Hsum. unfold UniFloat.Add. change (8 * 8 - 2) with 62.
  destruct (is_int_zero a m Ha) as [Hza _], (is_int_zero b n Hb) as [Hzb _].
  destruct (Z.eq_dec m 0) as [->|Hm0], (Z.eq_dec n 0) as [->|Hn0].
  - rewrite !Decompose_zero by tauto. eexists. split; [done|]. split; [by split; vm_compute|]. intros k _ _. done.
  - destruct (is_int_full b n Hb ltac:(lia)) as (Hmb & _).
    rewrite (Decompose_zero a) by tauto. rewrite (Decompose_full b) by (try apply Hb; lia).
    cbn [outcome_bind mant UniFloat.exp UniFloat.sign]. pose proof (full_range 62 b (proj1 Hb) ltac:(lia) ltac:(lia)) as Hf. pose proof (pow2_pos (62 - 1)).
    rewrite (proj2 (Z.eqb_neq (full 62 b) 0)) by lia. change (0 =? 0) with true. cbn [orb outcome_bind]. change (62 <=? 0) with false.
    cbn [orb outcome_bind]. eexists. split; [done|]. apply Recompose_int; [done|lia].
  - destruct (is_int_full a m Ha ltac:(lia)) as (Hma & _).
    rewrite (Decompose_zero b) by tauto. rewrite (Decompose_full a) by (try apply Ha; lia).
    cbn [outcome_bind mant UniFloat.exp UniFloat.sign]. change (0 =? 0) with true. cbn [orb outcome_bind].
    eexists. split; [done|]. rewrite Z.add_0_r. apply Recompose_int; [done|lia].
  - destruct (is_int_full a m Ha ltac:(lia)) as (Hma & Hsa & Hla & Efa & _), (is_int_full b n Hb ltac:(lia)) as (Hmb & Hsb & Hlb & Efb & _).
    rewrite (Decompose_full a) by (try apply Ha; lia). rewrite (Decompose_full b) by (try apply Hb; lia).
    cbn [outcome_bind mant UniFloat.exp UniFloat.sign].
    pose proof (full_range 62 a (proj1 Ha) ltac:(lia) ltac:(lia)) as Hfa. pose proof (full_range 62 b (proj1 Hb) ltac:(lia) ltac:(lia)) as Hfb.
    change (62 - 1) with 61 in *. assert (E62 : 2 ^ 62 = 2 * 2 ^ 61) by done. assert (E63 : 2 ^ 63 = 4 * 2 ^ 61) by done. pose proof (pow2_pos 61).
    rewrite (proj2 (Z.eqb_neq (full 62 a) 0)), (proj2 (Z.eqb_neq (full 62 b) 0)) by lia. cbn [orb].
    rewrite !(Z.sgn_pos (d_m _)) by done.
    replace (scale a - 62 - (scale b - 62)) with (scale a - scale b) by lia.
    rewrite (proj2 (Z.leb_gt 62 (scale a - scale b))), (proj2 (Z.leb_gt 62 (- (scale a - scale b)))) by lia.
    set (S := Z.max (scale a) (scale b)).
    assert (Hcore : forall vm xm x e, vm = m * 2 ^ (62 - S) -> xm = n * 2 ^ (62 - S) -> e = S - 62 -> 
      exists v, (let! v := Normalize (Z.abs (i64 (i64 (1 * i64 vm) + i64 (1 * i64 xm)))) (mkT x e (Z.sgn (i64 (i64 (1 * i64 vm) + i64 (1 * i64 xm))))) 0
                 in Ret (Recompose v)) = Ret v /\ is_int v (m + n)).
    { intros vm xm x e -> -> ->. pose proof (pow2_pos (62 - S) ltac:(lia)) as Hp.
      assert (Hmx : forall u t, t < 2 ^ scale u -> scale u <= S -> 0 < t -> 0 < t * 2 ^ (62 - S) < 2 ^ 62).
      { intros u t Ht Hu H0. rewrite (pow_split 62 S (62 - S)) by lia. assert (2 ^ scale u <= 2 ^ S) by (apply Z.pow_le_mono_r; lia). nia. }
      pose proof (Hmx a m Hla ltac:(lia) ltac:(lia)). pose proof (Hmx b n Hlb ltac:(lia) ltac:(lia)).
      rewrite !(i64_small (m * _)), !(i64_small (n * _)), !Z.mul_1_l, !(i64_small (m * _)), !(i64_small (n * _)) by lia.
      rewrite <- Z.mul_add_distr_r. rewrite i64_small by nia. rewrite Z.abs_eq, Z.sgn_pos by nia.
      apply Normalize_int; [lia|lia|]. rewrite Z.pow_add_r by lia.
      assert (2 ^ scale a <= 2 ^ S) by (apply Z.pow_le_mono_r; lia). assert (2 ^ scale b <= 2 ^ S) by (apply Z.pow_le_mono_r; lia). lia. }
    destruct (Z.ltb_spec 0 (scale a - scale b)) as [H3|H3].
    + rewrite Efb. rewrite (pow_split (62 - scale b) (62 - S) (scale a - scale b)), Z.mul_assoc by lia.
      rewrite Shift_exact; [|lia|pose proof (pow2_pos (62 - S)); nia|].
      2:{ rewrite <- Z.mul_assoc, <- Z.pow_add_r by lia. replace (62 - S + (scale a - scale b)) with (62 - scale b) by lia. lia. }
      cbn [outcome_bind]. rewrite (proj2 (Z.ltb_ge _ 0)) by lia. cbn [outcome_bind]. cbv zeta. apply Hcore; [rewrite Efa; do 2 f_equal; lia|done|lia].
    + cbn [outcome_bind]. destruct (Z.ltb_spec (scale a - scale b) 0) as [H4|H4].
      * rewrite Efa. rewrite (pow_split (62 - scale a) (62 - S) (- (scale a - scale b))), Z.mul_assoc by lia.
        rewrite Shift_exact; [|lia|pose proof (pow2_pos (62 - S)); nia|].
        2:{ rewrite <- Z.mul_assoc, <- Z.pow_add_r by lia. replace (62 - S + - (scale a - scale b)) with (62 - scale a) by lia. lia. }
        cbn [outcome_bind]. cbv zeta. apply Hcore; [done|rewrite Efb; do 2 f_equal; lia|lia].
      * cbn [outcome_bind]. cbv zeta. apply Hcore; [rewrite Efa; do 2 f_equal; lia|rewrite Efb; do 2 f_equal; lia|lia].
Qed.

(** The exponent of a coin amount that is not too large. *)
Lemma coin_exponent f n : coin f n -> 0 <= n <= 3 * 10 ^ 14 -> n = 0 \/ -900 <= d_e f <= 900.
Proof.
  intros [[-> _]|(Hn & [Hd _] & Hm & Hf)] Hmax; [by left|right].
  set (k := Z.min (- 200) (d_e f)). specialize (Hf k ltac:(lia) ltac:(lia)). unfold at_exp in Hf.
  change (3 * 10 ^ 14) with 300000000000000 in *. change (10 ^ 8) with 100000000 in *. change (2 ^ 52) with 4503599627370496 in *.
  pose proof (pow2_pos (- k) ltac:(lia)) as Hp. rewrite Z.abs_eq in Hd by lia. change (2 ^ 53) with 9007199254740992 in Hd.
  assert (HN : 0 < n * 2 ^ (- k) <= 300000000000000 * 2 ^ (- k)) by nia. split.
  - destruct (Z.le_gt_cases (-100) (d_e f)); [lia|exfalso].
    assert (E : 2 ^ (d_e f - k) <= 2 ^ (- 100 - k)) by (apply Z.pow_le_mono_r; lia).
    rewrite (pow_split (- k) 100 (- 100 - k)) in * by lia. change (2 ^ 100) with 1267650600228229401496703205376 in *.
    pose proof (pow2_pos (- 100 - k) ltac:(lia)). pose proof (pow2_pos (d_e f - k) ltac:(lia)). nia.
  - destruct (Z.le_gt_cases (d_e f) 100); [lia|exfalso].
    assert (E : 2 ^ (100 - k) <= 2 ^ (d_e f - k)) by (apply Z.pow_le_mono_r; lia).
    rewrite (pow_split (100 - k) 100 (- k)) in * by lia. change (2 ^ 100) with 1267650600228229401496703205376 in *. nia.
Qed.

(** ** What a query finds *)

(** [member]: of an object, by its key; removing a member keeps the others. *)
Class JsonSpec (V : Type) `{JsonLib V} := {
  member : V -> list Z -> option V;
  removeMember_spec root key v rest : removeMember root key = Ret (Some (v, rest)) ->
    member root key = Some v /\ forall k, k <> key -> member rest k = member root k
}.

Section found.
Context {V : Type} `{JsonSpec V} `{DecFloat} `{Rpc}.

Definition string_member (root : V) (key s : list Z) : Prop := exists v, member root key = Some v /\ asString v = Ret s.

Lemma read_bind {A B} (m : wired unit A) (k : A -> wired unit B) b :
  (m ≫= k) tt = Ret (inr (b, tt)) -> exists a, m tt = Ret (inr (a, tt)) /\ k a tt = Ret (inr (b, tt)).
Proof. unfold mbind, wired_bind. destruct (m tt) as [[?|[a []]]|?]; try done. by exists a. Qed.

Lemma call_inv {A} (m : outcome A) a : call m tt = Ret (inr (a, tt)) -> m = Ret a.
Proof. unfold call, lift. destruct m; [by intros [= ->]|done]. Qed.

Lemma fail_if_inv b u : fail_if b tt = Ret (inr (u, tt)) -> b = false.
Proof. by destruct b. Qed.

Lemma remove_inv root key v rest : remove root key tt = Ret (inr ((v, rest), tt)) ->
  member root key = Some v /\ forall k, k <> key -> member rest k = member root k.
Proof.
  unfold remove. intros (r & E & Hr)%read_bind. apply call_inv in E. destruct r as [[v' rest']|]; [|done].
  injection Hr as <- <-. by apply removeMember_spec.
Qed.

(** A member that another key was removed before. *)
Ltac through :=
  repeat match goal with
  | K : forall k, k <> _ -> member ?rest k = _, E : context [member ?rest _] |- _ => rewrite K in E by (by vm_compute)
  end.

(** The hash of a block in the first reply, and the script of an address in the second. *)
Definition address_reply (root : V) (addr script : list Z) : Prop :=
  exists t, member root (text "result") = Some t
    /\ (exists v, member t (text "isvalid") = Some v /\ asBool v = Ret true)
    /\ (exists s, string_member t (text "address") s /\ after_colon s = addr)
    /\ string_member t (text "scriptPubKey") script.

Definition block_reply (root : V) (addr block_hash script : list Z) : Prop :=
  exists first second, elements root = [first; second]
    /\ string_member first (text "result") block_hash /\ address_reply second addr script.

Lemma ParseAddress_inv root addr script : ParseAddress root addr tt = Ret (inr (script, tt)) -> address_reply root addr script.
Proof.
  unfold ParseAddress. intros ([t r0] & [E1 _]%remove_inv & H1')%read_bind. cbn [fst snd] in *.
  apply read_bind in H1' as ([] & _ & H1'). apply read_bind in H1' as ([v r1] & [E2 K2]%remove_inv & H1').
  apply read_bind in H1' as ([] & _ & H1'). apply read_bind in H1' as (b & Eb%call_inv & H1').
  destruct b; cbn [negb] in H1'; [|done]. apply read_bind in H1' as ([] & _ & H1').
  apply read_bind in H1' as ([a r2] & [E3 K3]%remove_inv & H1'). apply read_bind in H1' as (s & Es%call_inv & H1').
  apply read_bind in H1' as ([] & Ea%fail_if_inv & H1'). apply negb_false_iff, bool_decide_eq_true in Ea.
  apply read_bind in H1' as ([c r3] & [E4 _]%remove_inv & H1'). apply call_inv in H1'. cbn [fst] in H1'.
  through. exists t. split_and!; [done|eauto| |].
  - exists s. split; [|done]. by exists a.
  - by exists c.
Qed.

Lemma ParseBlock_inv root addr h script : ParseBlock root addr tt = Ret (inr ((h, script), tt)) -> block_reply root addr h script.
Proof.
  unfold ParseBlock. intros ([] & _ & H1')%read_bind. destruct (elements root) as [|first [|second [|]]] eqn:E; try done.
  apply read_bind in H1' as (h' & Hh & H1'). apply read_bind in H1' as (s' & Hs%ParseAddress_inv & [= <- <-]).
  exists first, second. split_and!; try done. unfold ParseBlockHash in Hh.
  apply read_bind in Hh as ([t r0] & [E1 _]%remove_inv & Hh). apply read_bind in Hh as ([] & _ & Hh%call_inv). by exists t.
Qed.

(** The amounts of the outputs that pay to a script. *)
Inductive pays (json script : list Z) : list V -> list double -> Prop :=
| pays_nil : pays json script [] []
| pays_other out outs fs spk s : member out (text "scriptPubKey") = Some spk -> string_member spk (text "hex") s -> s <> script ->
    pays json script outs fs -> pays json script (out :: outs) fs
| pays_script out outs fs spk v f : member out (text "scriptPubKey") = Some spk -> string_member spk (text "hex") script ->
    member out (text "value") = Some v -> amtfloat (value_text json v) = Some f ->
    pays json script outs fs -> pays json script (out :: outs) (f :: fs).

Definition total (l : list Z) : Z := foldr Z.add 0 l.

(** The sum is exact as long as it is at most three million coins. *)
Lemma add_outputs_inv json script outs : forall amount sum, add_outputs json script outs amount tt = Ret (inr (sum, tt)) ->
  exists fs, pays json script outs fs
    /\ forall m ns, is_int amount m -> 0 <= m -> Forall2 coin fs ns -> Forall (Z.le 0) ns -> m + total ns <= 3 * 10 ^ 14 ->
         is_int sum (m + total ns).
Proof.
  induction outs as [|out outs IH]; intros amount sum E; cbn [add_outputs] in E.
  { injection E as <-. exists []. split; [constructor|]. intros m ns Hm _ Hc _ _. inversion Hc. by rewrite Z.add_0_r. }
  apply read_bind in E as ([spk out'] & [E1 K1]%remove_inv & E). cbn [fst snd] in E.
  apply read_bind in E as ([hx spk'] & [E2 _]%remove_inv & E). cbn [fst snd] in E. apply read_bind in E as (s & Es%call_inv & E).
  case_bool_decide as Hs; cbn [negb] in E.
  - subst s. apply read_bind in E as ([v out''] & [E3 _]%remove_inv & E). cbn [fst snd] in E. apply read_bind in E as ([] & _ & E).
    destruct (amtfloat (value_text json v)) as [f|] eqn:Ef; [|done].
    apply read_bind in E as (a1 & A1%call_inv & E). apply read_bind in E as (a2 & A2%call_inv & E). apply read_bind in E as (a3 & A3%call_inv & E).
    apply read_bind in E as (amount' & A4%call_inv & E). destruct (IH _ _ E) as (fs & Hp & Hsum).
    through. exists (f :: fs). split; [by eapply pays_script; [|exists hx| | |]|].
    intros m ns Hm Hm0 Hc Hn Hmax. inversion Hc as [|? n ? ns' Hf Hc']; subst. inversion Hn as [|? ? Hn0 Hn']; subst. cbn [total foldr] in *.
    fold (total ns') in *. assert (Ht : 0 <= total ns') by (clear -Hn'; induction Hn' as [|? ? ? ? IH]; cbn [total foldr]; [done|]; fold (total l); lia).
    assert (Hcoin : exists w, (let! a := UniFloat_of f 0 in let! a := Multiply a SATOSHI_PER_BITCOIN 0 in Round a 0) = Ret w /\ is_int w n).
    { destruct (coin_exponent f n Hf ltac:(lia)) as [->|He].
      - exists (mkD 0 0). destruct Hf as [[_ Hz]|[? _]]; [|lia]. split; [unfold UniFloat_of, Decompose; by rewrite Hz|].
        split; [by split; vm_compute|intros k _ _; unfold at_exp; cbn [d_m]; lia].
      - destruct (coin_units f n Hf ltac:(lia) He) as (w & Ew & Hw & _). by exists w. }
    destruct Hcoin as (w & Ew & Hw). rewrite A1 in Ew. cbn [outcome_bind] in Ew. rewrite A2 in Ew. cbn [outcome_bind] in Ew.
    rewrite A3 in Ew. injection Ew as <-.
    destruct (Add_int amount a3 m n Hm Hw Hm0 Hn0 ltac:(lia)) as (v' & Ev & Hv). rewrite A4 in Ev. injection Ev as <-.
    specialize (Hsum (m + n) ns' Hv ltac:(lia) Hc' Hn' ltac:(lia)). by rewrite Z.add_assoc.
  - destruct (IH _ _ E) as (fs & Hp & Hsum). exists fs. split; [|done]. eapply pays_other; [done|by exists hx|done|done].
Qed.

(** The transaction of a reply: its block, its identifier, its confirmations and time, and
    what it pays to the script. *)
Record payment_reply (json : list Z) (root : V) (block_hash txid script : list Z) (result : ForeignQueryResult) : Prop := {
  pr_tx : exists t, member root (text "result") = Some t
    /\ string_member t (text "blockhash") block_hash /\ string_member t (text "txid") txid
    /\ (exists c n, member t (text "confirmations") = Some c /\ asInt c = Ret n /\ 0 < n /\ asUInt c = Ret (fq_confirmations result))
    /\ (exists b, member t (text "blocktime") = Some b /\ asUInt64 b = Ret (fq_blocktime result))
    /\ exists outs fs, member t (text "vout") = Some outs /\ pays json script (elements outs) fs
       /\ forall ns, Forall2 coin fs ns -> Forall (Z.le 0) ns -> total ns <= 3 * 10 ^ 14 ->
            exists units, is_int units (total ns) /\ Divide units SATOSHI_PER_BITCOIN 0 = Ret (fq_amount result)
}.

Lemma ParseTx_inv json root block txid script result :
  ParseTx json root block txid script tt = Ret (inr (result, tt)) -> payment_reply json root block txid script result.
Proof.
  unfold ParseTx. intros ([t r0] & [E1 _]%remove_inv & E)%read_bind. cbn [fst snd] in E.
  apply read_bind in E as ([] & _ & E).
  apply read_bind in E as ([bh r1] & [E2 K2]%remove_inv & E). apply read_bind in E as (s1 & Es1%call_inv & E).
  apply read_bind in E as ([] & B1%fail_if_inv & E). apply negb_false_iff, bool_decide_eq_true in B1. subst s1.
  apply read_bind in E as ([ti r2] & [E3 K3]%remove_inv & E). apply read_bind in E as (s2 & Es2%call_inv & E).
  apply read_bind in E as ([] & B2%fail_if_inv & E). apply negb_false_iff, bool_decide_eq_true in B2. subst s2.
  apply read_bind in E as ([c r3] & [E4 K4]%remove_inv & E). apply read_bind in E as ([] & _ & E).
  apply read_bind in E as (bad & Ebad & E). apply read_bind in E as ([] & Bbad%fail_if_inv & E).
  apply read_bind in E as (conf & Econf%call_inv & E).
  apply read_bind in E as ([bt r4] & [E5 K5]%remove_inv & E). apply read_bind in E as ([] & _ & E).
  apply read_bind in E as (time & Etime%call_inv & E).
  apply read_bind in E as ([vo r5] & [E6 K6]%remove_inv & E). cbn [fst snd] in E. apply read_bind in E as ([] & _ & E).
  apply read_bind in E as (units & Eu & E). apply read_bind in E as (amount & Ea%call_inv & [= <-]).
  destruct (add_outputs_inv _ _ _ _ _ Eu) as (fs & Hp & Hsum).
  through. split. exists t. split_and!; [done|by exists bh|by exists ti| |by exists bt|].
  - destruct (negb (isUint c)); [by injection Ebad as <-|]. apply read_bind in Ebad as (n & En%call_inv & [= Eb]).
    exists c, n. split_and!; try done. apply Z.leb_gt. by rewrite Eb.
  - exists vo, fs. split_and!; try done. intros ns Hc Hn Hmax. exists units. split; [|done].
    rewrite <- (Z.add_0_l (total ns)). apply Hsum; try done.
Qed.

(** A reply was received to the request of a query. *)
Definition answered (blockchain : Z) (query : list Z) (root : V) (json : list Z) : Prop :=
  exists i, SubmitQuery (rpc_post (rpc_port blockchain) (http_request (rpc_auth blockchain) query) i) = Ret (inr (root, json)).

Lemma query_loop_inv {A} port request (read : V -> list Z -> wired unit A) n : forall i rc a,
  query_loop port request read n i rc = Ret (inr a) ->
  exists j root json, SubmitQuery (rpc_post port request j) = Ret (inr (root, json)) /\ read root json tt = Ret (inr (a, tt)).
Proof.
  induction n as [|n IH]; intros i rc a E; cbn [query_loop] in E; [done|].
  destruct (rpc_post port request i) as [| | |r] eqn:Ep; [done|done|by apply IH in E|].
  destruct (SubmitQuery (Replied r)) as [[?|[root json]]|?] eqn:Es; [by apply IH in E| |done].
  destruct (read root json tt) as [[rc'|[a' []]]|?] eqn:Er; [|injection E as <-|done].
  - destruct (rc' <? 0); [by apply IH in E|done].
  - exists i, root, json. by rewrite Ep.
Qed.

Lemma run_query_inv {A} blockchain query (read : V -> list Z -> wired unit A) a :
  run_query blockchain query read = Ret (inr a) -> exists root json, answered blockchain query root json /\ read root json tt = Ret (inr (a, tt)).
Proof.
  unfold run_query. destruct (_ <? _); [done|]. destruct (_ =? 0); [done|].
  intros (j & root & json & Ej & Er)%query_loop_inv. exists root, json. split; [by exists j|done].
Qed.

(** A query that fails has a code. *)
Definition coded {A} (m : wired unit A) : Prop := m tt <> Ret (inl 0).

Lemma coded_bind {A B} (m : wired unit A) (k : A -> wired unit B) : coded m -> (forall a, coded (k a)) -> coded (m ≫= k).
Proof. unfold coded, mbind, wired_bind. intros Hm Hk E. destruct (m tt) as [[?|[a []]]|?]; [congruence|by apply (Hk a)|done]. Qed.

Lemma coded_call {A} (m : outcome A) : coded (call m).
Proof. unfold coded, call, lift. by destruct m. Qed.

Lemma coded_remove root key : coded (remove root key).
Proof. apply coded_bind; [apply coded_call|]. by intros [?|]. Qed.

Lemma coded_fail_if b : coded (fail_if b).
Proof. by destruct b. Qed.

Ltac coded := repeat first
  [ done | apply coded_call | apply coded_remove | apply coded_fail_if
  | apply coded_bind; [|intros ?] | match goal with |- coded (let '_ := ?p in _) => destruct p end
  | match goal with |- coded (if ?b then _ else _) => destruct b end ].

Lemma coded_address root addr : coded (ParseAddress root addr).
Proof. unfold ParseAddress. coded. Qed.

Lemma coded_block root addr : coded (ParseBlock root addr).
Proof.
  unfold ParseBlock. apply coded_bind; [coded|]. intros []. destruct (elements root) as [|? [|? [|]]]; try done.
  apply coded_bind; [unfold ParseBlockHash; coded|]. intros h. apply coded_bind; [apply coded_address|by intros s].
Qed.

Lemma coded_outputs json script outs : forall amount, coded (add_outputs json script outs amount).
Proof.
  induction outs as [|out outs IH]; intros amount; cbn [add_outputs]; coded.
Qed.

Lemma coded_tx json root block txid script : coded (ParseTx json root block txid script).
Proof. unfold ParseTx. coded. apply coded_outputs. Qed.

Lemma query_loop_coded {A} port request (read : V -> list Z -> wired unit A) n : (forall root json, coded (read root json)) ->
  forall i rc, rc <> 0 -> query_loop port request read n i rc <> Ret (inl 0).
Proof.
  intros Hr. induction n as [|n IH]; intros i rc Hrc E; cbn [query_loop] in E; [congruence|].
  destruct (rpc_post port request i) as [| | |r] eqn:Ep; [congruence|congruence|by apply IH in E|].
  destruct (SubmitQuery (Replied r)) as [[?|[root json]]|?] eqn:Es; [by apply IH in E| |done].
  pose proof (Hr root json) as Hc. unfold coded in Hc.
  destruct (read root json tt) as [[rc'|[a' []]]|?] eqn:Er; [|done|done].
  destruct (Z.ltb_spec rc' 0); [apply IH in E; [done|lia]|congruence].
Qed.

Lemma run_query_coded {A} blockchain query (read : V -> list Z -> wired unit A) :
  (forall root json, coded (read root json)) -> run_query blockchain query read <> Ret (inl 0).
Proof.
  intros Hr. unfold run_query. destruct (_ <? _); [done|]. destruct (_ =? 0); [done|]. by apply query_loop_coded.
Qed.

(** C7. A payment that is found is in a transaction that the server gave for the identifier,
    in the block of the height that was asked for; its amount is that of the outputs to the
    script of the address, exact to the unit before it is divided up to three million coins. *)
Theorem payment_found blockchain block addr txid result :
  btc_QueryPayment blockchain block addr txid = Ret (0, result) ->
  exists root json block_hash script root' json',
    answered blockchain (block_query block addr) root json /\ block_reply root addr block_hash script
    /\ answered blockchain (payment_query txid block_hash) root' json' /\ payment_reply json' root' block_hash txid script result.
Proof.
  cbn [btc_QueryPayment ForeignQueryBtc]. unfold QueryBlock, QueryPayment. intros E.
  destruct (run_query blockchain (block_query block addr) _) as [[rc|[h script]]|?] eqn:E1; cbn [outcome_bind] in E; [| |done].
  - injection E as -> _. exfalso. revert E1. apply run_query_coded. intros. apply coded_block.
  - destruct (run_query blockchain (payment_query txid h) _) as [[rc|res]|?] eqn:E2; cbn [outcome_bind] in E; [| |done].
    + injection E as -> _. exfalso. revert E2. apply run_query_coded. intros. apply coded_tx.
    + injection E as <-. apply run_query_inv in E1 as (root & json & Ha & Hb%ParseBlock_inv). apply run_query_inv in E2 as (root' & json' & Ha' & Hp%ParseTx_inv).
      by exists root, json, h, script, root', json'.
Qed.
End found.

(** ** Commands in a claim *)

(** A call of the server, and several at once. *)
Definition json_call (method params : list Z) : list Z := text "{'method':'" ++ method ++ text "','params':[" ++ params ++ text "]}".
Definition json_batch (calls : list (list Z)) : list Z :=
  text "[" ++ match calls with [] => [] | c :: cs => foldl (fun s c => s ++ text "," ++ c) c cs end ++ text "]".
Definition quoted (s : list Z) : list Z := text "'" ++ s ++ text "'".

(** A block identifier that ends the list of parameters and begins another call. *)
Definition injected (method params : list Z) : list Z := text "0]},{'method':'" ++ method ++ text "','params':[" ++ params.

(** The data of a claim whose strings are not compressed (the last alphabet of
    [cc_alpha_encode_best]). *)
Definition raw (s : list Z) : list Z := 169 :: s.
Definition claim_data (xmatchnum amount : Z) (txid block : list Z) : list Z :=
  le_bytes 8 xmatchnum ++ le_bytes 4 amount ++ [Z.of_nat (length txid)] ++ raw txid ++ raw block.

Lemma raw_decodes old s out0 : s <> [] -> Z.of_nat (length s) <= 9000 ->
  cc_alpha_decode_best old (raw s) out0 (-1) = Ret (Some s).
Proof.
  intros Hne Hlen. unfold cc_alpha_decode_best, raw. change (Z.shiftr 169 4) with 10. change (10 =? 9) with false. cbn [andb].
  change (10 <? 10) with false. cbv iota zeta. change (nth (Z.to_nat 10) best_decode_table []) with base256sym.
  change (Z.land 169 15 - LENGTH_DIFF_OFFSET) with 0.
  assert (E : i32 (i32 (cc_table_expected_strlen base256sym (Z.of_nat (length s))) - 0) = Z.of_nat (length s)).
  { unfold cc_table_expected_strlen. change (Z.shiftl (tbl base256sym 1) 8 + tbl base256sym 2) with 0.
    change (Z.shiftl 1 16) with 65536. change (0 =? 0) with true. cbv iota.
    unfold u32 at 1. rewrite wrap_small by (unfold in_word; lia). rewrite Z.div_mul by lia.
    unfold i32. rewrite Z.sub_0_r, (sint_id 32 (Z.of_nat (length s))) by lia. apply sint_id; lia. }
  rewrite E, (proj2 (Z.ltb_ge _ 0)), Nat2Z.id by lia.
  destruct (entry_base256 0 s Hne Hlen) as (_ & _ & Hd). unfold decodes in Hd.
  assert (Hd' : cc_alpha_decode base256sym s (length s) out0 true = Ret s) by exact Hd. by rewrite Hd'.
Qed.

Lemma bytes_at_mid data pre mid post : data = pre ++ mid ++ post ->
  bytes_at data (Z.of_nat (length mid)) (Z.of_nat (length pre)) = mid.
Proof.
  intros ->. unfold bytes_at. rewrite !length_app, (proj2 (Z.leb_le _ _)) by lia.
  rewrite !Nat2Z.id, drop_app_length, take_app_length. done.
Qed.

Lemma get_mid data pre mid post datasize : data = pre ++ mid ++ post -> Z.of_nat (length data) < 2 ^ 31 -> Z.of_nat (length mid) <= datasize ->
  TxWire.copy_from_buf data (Z.of_nat (length data)) datasize (Z.of_nat (length mid)) (Z.of_nat (length pre))
  = Ret (inr (le_val mid, Z.of_nat (length pre) + Z.of_nat (length mid))).
Proof.
  intros E Hlen Hd. rewrite get_at by (rewrite E, !length_app in Hlen; lia).
  rewrite (proj2 (Z.leb_le _ _)) by (rewrite E, !length_app; lia).
  pose proof (bytes_at_mid data pre mid post E) as Hm. unfold bytes_at in Hm.
  rewrite (proj2 (Z.leb_le _ _)) in Hm by (rewrite E, !length_app; lia). by rewrite Hm.
Qed.

Section claim.
Context (P : Z) (testnet old : bool) (n c : Z) (v : double) (txid block : list Z).
Hypothesis Hn : 0 <= n < 2 ^ 64.
Hypothesis Hc : 0 <= c < 2 ^ 32.
Hypothesis Hv : WireDecode c 0 true = Ret v.
Hypothesis Htxid : bytes_ok txid /\ txid <> [] /\ Z.of_nat (length txid) <= 255.
Hypothesis Hblock : bytes_ok block /\ block <> [] /\ Z.of_nat (length block) <= 287.

#[local] Abbreviation data := (claim_data n c txid block).

Definition claim : Xpay := mkXpay CC_TYPE_XCX_PAYMENT n v c block txid 0 0 0 0 [] UniFloat.zero.

Lemma claim_read : FromWire_caught P testnet old (XPay (empty_pay CC_TYPE_XCX_PAYMENT)) data = Ret (Some (XPay claim)).
Proof.
  destruct Htxid as (Hbt & Hnt & Hlt), Hblock as (Hbb & Hnb & Hlb).
  assert (Hraw : forall s, bytes_ok s -> bytes_ok (raw s)) by (intros s Hs; constructor; [unfold in_word; lia|done]).
  assert (Hlen : Z.of_nat (length data) = 15 + Z.of_nat (length txid) + Z.of_nat (length block)).
  { unfold claim_data, raw. rewrite !length_app. cbn [length]. rewrite !length_le_bytes. lia. }
  assert (Hok : bytes_ok data).
  { unfold claim_data, bytes_ok, digits_ok. rewrite !Forall_app. split_and!; try apply le_bytes_ok; try (by apply Hraw).
    apply Forall_singleton. unfold in_word. lia. }
  set (D := data) in *. assert (ED : D = data) by done.
  assert (Eread : Xpay_DataFromWire old D (Z.of_nat (length D)) (empty_pay CC_TYPE_XCX_PAYMENT) 0 = Ret (inr (claim, Z.of_nat (length D)))).
  { unfold Xpay_DataFromWire. unfold mbind at 1, wired_bind at 1. change (wassert _ 0) with (@Ret (Z + unit * Z) (inr (tt, 0))). cbv beta iota.
    pose proof (get_mid D [] (le_bytes 8 n) (drop 8 D) 8) as G1. rewrite length_le_bytes in G1. cbn [length] in G1.
    change (Z.of_nat 0) with 0 in G1. change (Z.of_nat 8) with 8 in G1. unfold mbind at 1, wired_bind at 1.
    rewrite G1; [|done|lia|done]. rewrite le_val_bytes_small by (unfold in_word; lia). change (0 + 8) with 8.
    pose proof (get_mid D (le_bytes 8 n) (le_bytes 4 c) (drop 12 D) 8) as G2. rewrite !length_le_bytes in G2.
    change (Z.of_nat 4) with UNIFLOAT_WIRE_BYTES in G2. change (Z.of_nat 8) with 8 in G2. unfold mbind at 1, wired_bind at 1.
    rewrite G2; [|done|lia|done]. rewrite le_val_bytes_small by (unfold in_word; lia). change (8 + UNIFLOAT_WIRE_BYTES) with 12. cbv zeta.
    unfold mbind at 1, wired_bind at 1. unfold lift at 1. rewrite Hv.
    pose proof (get_mid D (le_bytes 8 n ++ le_bytes 4 c) [Z.of_nat (length txid)] (raw txid ++ raw block) 8) as G3.
    rewrite length_app, !length_le_bytes in G3. cbn [length] in G3. change (Z.of_nat (8 + 4)) with 12 in G3. change (Z.of_nat 1) with 1 in G3.
    unfold mbind at 1, wired_bind at 1. rewrite G3; [|by rewrite ED; unfold claim_data; rewrite <- !app_assoc|lia|lia].
    assert (E1 : le_val [Z.of_nat (length txid)] = Z.of_nat (length txid)) by (unfold le_val; cbn [digits_val]; lia).
    rewrite E1, u64_small by lia. change (12 + 1) with 13.
    pose proof (bytes_at_mid D (le_bytes 8 n ++ le_bytes 4 c ++ [Z.of_nat (length txid)]) (raw txid) (raw block)) as B1.
    rewrite !length_app, !length_le_bytes in B1. cbn [length raw] in B1. change (Z.of_nat (8 + (4 + 1))) with 13 in B1.
    replace (Z.of_nat (S (length txid))) with (Z.of_nat (length txid) + 1) in B1 by lia.
    destruct (string_at old D Hok (Z.of_nat (length txid) + 1) 13 []) as (r & Hr & Hs); [unfold strbuf_size; lia|lia|lia|].
    rewrite B1 in Hr by (rewrite ED; unfold claim_data; by rewrite <- !app_assoc).
    rewrite raw_decodes in Hr by (done || lia). injection Hr as <-.
    unfold mbind at 1, wired_bind at 1. change (pay_foreign_txid _) with (@nil Z). rewrite Hs.
    unfold mbind at 1, wired_bind at 1. cbn [get_pos]. cbv zeta.
    replace (Z.of_nat (length D) - (13 + (Z.of_nat (length txid) + 1))) with (Z.of_nat (length block) + 1) by lia. rewrite u32_small by lia.
    pose proof (bytes_at_mid D (le_bytes 8 n ++ le_bytes 4 c ++ [Z.of_nat (length txid)] ++ raw txid) (raw block) []) as B2.
    rewrite !length_app, !length_le_bytes in B2. cbn [length raw] in B2.
    replace (Z.of_nat (8 + (4 + (1 + S (length txid))))) with (13 + (Z.of_nat (length txid) + 1)) in B2 by lia.
    replace (Z.of_nat (S (length block))) with (Z.of_nat (length block) + 1) in B2 by lia.
    destruct (copy_at D (Z.of_nat (length block) + 1) (13 + (Z.of_nat (length txid) + 1))) as (rest & Hc2 & Hl2); [unfold strbuf_size; lia|lia|lia|].
    unfold mbind at 1, wired_bind at 1. rewrite Hc2. unfold mbind at 1, wired_bind at 1. unfold get_pos at 1. cbv beta iota.
    rewrite (proj2 (Z.ltb_ge _ _)) by lia. rewrite take_app_length' by done.
    rewrite B2 by (rewrite ED; unfold claim_data; by rewrite <- !app_assoc, app_nil_r).
    unfold mbind, wired_bind, lift. rewrite raw_decodes by (done || lia).
    unfold mret, wired_ret. do 4 f_equal. lia. }
  unfold FromWire_caught, FromWire. change (0 =? 1) with false. cbv iota.
  unfold mbind at 1, wired_bind at 1. cbn [mret wired_ret]. change (negb (0 =? 0)) with false. cbv iota.
  unfold mbind at 1, wired_bind at 1. cbn [mret wired_ret].
  unfold mbind at 1, wired_bind at 1. unfold DataFromWire. unfold mbind at 1, wired_bind at 1. rewrite Eread.
  cbn [mret wired_ret]. unfold mbind, wired_bind. cbn [get_pos]. by rewrite Z.ltb_irrefl.
Qed.
End claim.

Lemma text_ok s : bytes_ok (text s).
Proof.
  unfold text. apply Forall_map. apply Forall_forall. intros c _. pose proof (nat_ascii_bounded c). cbv beta zeta.
  destruct (_ =? 39); unfold in_word; lia.
Qed.

Lemma length_injected method params : Z.of_nat (length (injected method params)) = 27 + Z.of_nat (length method) + Z.of_nat (length params).
Proof. unfold injected. rewrite !length_app. change (length (text "0]},{'method':'")) with 15%nat. change (length (text "','params':[")) with 12%nat. lia. Qed.

(** C36. The strings of a claim go into a query as they are, and a claim can have any bytes
    in them: whoever claims a payment can have the server run any method with any
    parameters, as a third call of the query for the block. *)
Theorem claim_runs_any_call P testnet old n c v txid method params addr :
  0 <= n < 2 ^ 64 -> 0 <= c < 2 ^ 32 -> WireDecode c 0 true = Ret v ->
  bytes_ok txid -> txid <> [] -> Z.of_nat (length txid) <= 255 ->
  bytes_ok method -> bytes_ok params -> Z.of_nat (length method) + Z.of_nat (length params) <= 260 ->
  exists xpay, FromWire_caught P testnet old (XPay (empty_pay CC_TYPE_XCX_PAYMENT)) (claim_data n c txid (injected method params)) = Ret (Some (XPay xpay))
    /\ pay_xmatchnum xpay = n /\ foreign_amount xpay = v /\ pay_foreign_txid xpay = txid
    /\ block_query (pay_foreign_block_id xpay) addr
       = json_batch [json_call (text "getblockhash") (text "0"); json_call method params; json_call (text "validateaddress") (quoted addr)].
Proof.
  intros Hn Hc Hv Hbt Hnt Hlt Hbm Hbp Hlen. exists (claim n c v txid (injected method params)). split_and!; [|done..|].
  - apply claim_read; try done. split_and!; [|by intros E; apply (f_equal length) in E; unfold injected in E|rewrite length_injected; lia].
    unfold injected, bytes_ok, digits_ok. rewrite !Forall_app. split_and!; done || apply text_ok.
  - change (pay_foreign_block_id _) with (injected method params). unfold block_query, injected, json_batch, json_call, quoted. cbn [foldl].
    repeat match goal with |- context [text ?s] => let z := eval vm_compute in (text s) in change (text s) with z end.
    rewrite <- !app_assoc. cbn [app]. by rewrite <- ?app_assoc.
Qed.

Lemma claim_runs_any_call_witness :
  exists xpay, FromWire_caught 1000003 true false (XPay (empty_pay CC_TYPE_XCX_PAYMENT)) (claim_data 7 (2 ^ 31) (text "a") (injected (text "stop") [])) = Ret (Some (XPay xpay))
    /\ block_query (pay_foreign_block_id xpay) (text "q")
       = text "[{'method':'getblockhash','params':[0]},{'method':'stop','params':[]},{'method':'validateaddress','params':['q']}]".
Proof.
  destruct (claim_runs_any_call 1000003 true false 7 (2 ^ 31) (mkD (2 ^ 51) (- 51)) (text "a") (text "stop") [] (text "q")) as (xpay & H1 & _ & _ & _ & H2);
    [lia|lia|reflexivity|apply text_ok|discriminate|vm_compute; discriminate|apply text_ok|constructor|vm_compute; discriminate|].
  exists xpay. split; [exact H1|]. rewrite H2. vm_compute. reflexivity.
Defined.

(** ** Examples *)

(** Values with the places of numbers in the text. *)
Inductive json :=
| JBool (b : bool)
| JNum (z : Z) (start limit : Z)
| JStr (s : list Z)
| JArr (l : list json)
| JObj (l : list (list Z * json)).

Definition obj_member (root : json) (key : list Z) : option json :=
  match root with JObj l => option_map snd (list_find (fun kv => kv.1 = key) l ≫= fun p => Some p.2) | _ => None end.
Definition obj_remove (root : json) (key : list Z) : outcome (option (json * json)) :=
  Ret (match root with
       | JObj l => option_map (fun v => (v, JObj (filter (fun kv => kv.1 <> key) l))) (obj_member root key)
       | _ => None
       end).

Definition demo_reply1 : list Z := text "[{'result':'ab'},{'result':{'isvalid':true,'address':'q','scriptPubKey':'51'}}]".
Definition demo_reply2 : list Z :=
  text "{'result':{'blockhash':'ab','txid':'t','confirmations':2,'blocktime':9,'vout':[{'value':0.5,'scriptPubKey':{'hex':'51'}}]}}".
Definition demo_tree1 : json :=
  JArr [JObj [(text "result", JStr (text "ab"))];
        JObj [(text "result", JObj [(text "isvalid", JBool true); (text "address", JStr (text "q")); (text "scriptPubKey", JStr (text "51"))])]].
Definition demo_tree2 : json :=
  JObj [(text "result",
    JObj [(text "blockhash", JStr (text "ab")); (text "txid", JStr (text "t")); (text "confirmations", JNum 2 0 0); (text "blocktime", JNum 9 0 0);
          (text "vout", JArr [JObj [(text "value", JNum 0 88 91); (text "scriptPubKey", JObj [(text "hex", JStr (text "51"))])]])])].

#[local] Instance demo_json : JsonLib json := {|
  json_parse t := if bool_decide (t = demo_reply1) then Some demo_tree1 else if bool_decide (t = demo_reply2) then Some demo_tree2 else None;
  removeMember := obj_remove;
  isNull _ := false;
  isBool v := match v with JBool _ => true | _ => false end;
  asBool v := match v with JBool b => Ret b | _ => Throw (RuntimeError 0) end;
  isString v := match v with JStr _ => true | _ => false end;
  asString v := match v with JStr s => Ret s | _ => Throw (RuntimeError 0) end;
  isIntegral v := match v with JNum _ _ _ => true | _ => false end;
  isUint v := match v with JNum z _ _ => (0 <=? z) && (z <? 2 ^ 32) | _ => false end;
  isNumeric v := match v with JNum _ _ _ => true | _ => false end;
  asInt v := match v with JNum z _ _ => if (- 2 ^ 31 <=? z) && (z <? 2 ^ 31) then Ret z else Throw (RuntimeError 0) | _ => Throw (RuntimeError 0) end;
  asUInt v := match v with JNum z _ _ => if (0 <=? z) && (z <? 2 ^ 32) then Ret z else Throw (RuntimeError 0) | _ => Throw (RuntimeError 0) end;
  asUInt64 v := match v with JNum z _ _ => if (0 <=? z) && (z <? 2 ^ 64) then Ret z else Throw (RuntimeError 0) | _ => Throw (RuntimeError 0) end;
  isArray v := match v with JArr _ => true | _ => false end;
  elements v := match v with JArr l => l | _ => [] end;
  getOffsetStart v := match v with JNum _ a _ => a | _ => 0 end;
  getOffsetLimit v := match v with JNum _ _ b => b | _ => 0 end
|}.

#[local] Instance demo_json_spec : JsonSpec json.
Proof.
  refine {| member := obj_member |}.
  intros [| | | |l] key v rest E; try discriminate E. unfold removeMember, demo_json, obj_remove in E.
  destruct (obj_member (JObj l) key) as [v'|] eqn:Ev; [|discriminate E]. injection E as <- <-. split; [done|]. intros k Hk.
  unfold obj_member. f_equal. clear -Hk. induction l as [|kv l IH]; [done|].
  rewrite filter_cons. destruct (decide (kv.1 <> key)) as [Hn|Hn].
  - cbn [list_find]. destruct (decide (kv.1 = k)); [done|].
    destruct (list_find _ (filter _ l)) as [[? ?]|], (list_find _ l) as [[? ?]|]; cbn in *; try done; by injection IH as ->.
  - rewrite IH. cbn [list_find]. destruct (decide (kv.1 = k)) as [E|]; [exfalso; apply Hn; intros E'; congruence|].
    by destruct (list_find _ l) as [[? ?]|].
Defined.

#[local] Instance demo_float : DecFloat := fun t => if bool_decide (t = text "0.5") then Some (mkD 1 (- 1)) else None.
Definition demo_http (content : list Z) : reply := mkReply (text "HTTP" ++ content ++ [0]) (4 + Z.of_nat (length content)) 4 (Z.of_nat (length content)).
#[local] Instance demo_rpc : Rpc := {|
  rpc_port _ := 8332;
  rpc_auth _ := [];
  rpc_post _ request i :=
    if bool_decide (i = 0%nat) then NoReply
    else if bool_decide (request = http_request [] (block_query (text "5") (text "q"))) then Replied (demo_http demo_reply1)
    else Replied (demo_http demo_reply2)
|}.

(** Half a coin to the address [q], found on the second attempt. *)
Lemma payment_found_witness :
  exists result block_hash script json' root',
    btc_QueryPayment 1 (text "5") (text "q") (text "t") = Ret (0, result)
    /\ answered 1 (payment_query (text "t") block_hash) root' json'
    /\ payment_reply json' root' block_hash (text "t") script result.
Proof.
  set (result := mkForeignQueryResult (mkD (2 ^ 51) (- 52)) 9 2 []).
  assert (E : btc_QueryPayment 1 (text "5") (text "q") (text "t") = Ret (0, result)) by (vm_compute; reflexivity).
  destruct (payment_found 1 (text "5") (text "q") (text "t") result E) as (root & j & h & script & root' & j' & _ & _ & Ha & Hp).
  exists result, h, script, j', root'. exact (conj E (conj Ha Hp)).
Defined.
