(* ===== verification/Mining.v ===== *)
(** * Exchange mining (exchange_mining.cpp, exchange_mining.hpp)

    What the network mines for buyers of Creda: how much can currently be mined, how much
    a match is given when it is made, and what is finally mined when it is paid.  Amounts
    are integers (values of [bigint_t]), rates and mineable amounts are portable floats.
    Saving to the database, printing and the simulations of the self test are left out. *)
From S2P Require Import Prelude Objects Txs UniFloat TxAmount Xmatch.

Local Open Scope Z_scope.
Local Open Scope cc_scope.

(** ** Constants

    Literals of type double, as the nearest double. *)

Definition MINED_ASSET : Z := 0.
Definition MINING_MIN_CUTOFF_FACTOR : double := mkD 3602879701896397 (-56).
Definition MINING_MAX_CUTOFF_FACTOR : double := mkD 1 1.
Definition MINING_MULTIPLIER_INC_THRESHOLD : double := mkD 1 (-1).
Definition MINING_MULTIPLIER_INC_AMOUNT : double := mkD 5764607523034235 (-58).
Definition MINING_MULTIPLIER_MAX : double := one.
Definition MINING_MULTIPLIER_DEC_THRESHOLD : double := mkD 1 (-1).
Definition MINING_MULTIPLIER_DEC_MULTIPLIER : double := mkD 2206763817411543 (-51).
Definition MINING_MULTIPLIER_MIN : double := mkD 5764607523034235 (-59).
Definition MINING_MIN_CUTOFF_AMOUNT : double := one.
Definition MINING_AMOUNT_MIN_MAX : double := one.
Definition XCX_MATCHING_SECS_PER_EPOCH : Z := 20.

(** ** State *)

Record ExchangeMatchStats := mkStats {
  avg_amount : double;
  avg_amount_weight : double;
  avg_match_rate_required : double;
  avg_match_rate_required_weight : double;
  avg_match_rate : double;
  avg_match_rate_weight : double
}.

(** The members that only [Init] sets. *)
Record MiningConsts := mkConsts {
  mining_remaining_fraction_per_interval : double;
  mining_min_amount_per_interval : double;
  mining_max_currently_mineable_intervals : double;
  mining_short_decay_factor : double;
  mining_long_decay_factor : double;
  mining_max_fraction_per_match : double;
  mining_min_fraction_per_match : double;
  mining_update_time_increment : Z
}.

Record ExchangeMiningParams := mkParams {
  consts : MiningConsts;
  total_mined : Z;
  total_remaining_to_mine : Z;
  mining_stats : ExchangeMatchStats;
  last_nominal_mineable_amount_increase : double;
  currently_mineable_amount : double;
  max_currently_mineable_amount : double;
  mining_amount_multiplier : double;
  mining_period : Z
}.

(** [updates] is [saved_data_update_counter]. *)
Record ExchangeMining := mkMining {
  saved : ExchangeMiningParams;
  updates : Z;
  mining_start_time : Z
}.

Definition with_saved (g : ExchangeMining) (s : ExchangeMiningParams) : ExchangeMining :=
  mkMining s (updates g) (mining_start_time g).
Definition count_update (g : ExchangeMining) : ExchangeMining :=
  mkMining (saved g) (u32 (updates g + 1)) (mining_start_time g).
Definition with_stats (s : ExchangeMiningParams) (st : ExchangeMatchStats) : ExchangeMiningParams :=
  mkParams (consts s) (total_mined s) (total_remaining_to_mine s) st (last_nominal_mineable_amount_increase s)
    (currently_mineable_amount s) (max_currently_mineable_amount s) (mining_amount_multiplier s) (mining_period s).
Definition with_mineable (s : ExchangeMiningParams) (v : double) : ExchangeMiningParams :=
  mkParams (consts s) (total_mined s) (total_remaining_to_mine s) (mining_stats s) (last_nominal_mineable_amount_increase s)
    v (max_currently_mineable_amount s) (mining_amount_multiplier s) (mining_period s).
Definition with_multiplier (s : ExchangeMiningParams) (v : double) : ExchangeMiningParams :=
  mkParams (consts s) (total_mined s) (total_remaining_to_mine s) (mining_stats s) (last_nominal_mineable_amount_increase s)
    (currently_mineable_amount s) (max_currently_mineable_amount s) v (mining_period s).
Definition with_totals (s : ExchangeMiningParams) (mined remaining : Z) : ExchangeMiningParams :=
  mkParams (consts s) mined remaining (mining_stats s) (last_nominal_mineable_amount_increase s)
    (currently_mineable_amount s) (max_currently_mineable_amount s) (mining_amount_multiplier s) (mining_period s).
Definition with_mining_amount (m : Xmatch) (v : double) : Xmatch :=
  mkXmatch (m_type m) (status m) (m_xmatchnum m) (next_deadline m) (m_match_timestamp m) (accept_timestamp m)
    (final_timestamp m) (base_amount m) (rate m) (amount_paid m) v (have_xreqs m) (accept_time m) (match_pledge m)
    (xbuy m) (xsell m).

(** ** Operations *)

(** [a <= 0] and the like on a portable float. *)
Definition not_positive (v : double) : bool := d_m v <=? 0.

Definition is_zero (v : double) : bool := d_m v =? 0.

Definition dgt (a b : double) : bool := dlt b a.

(** The start time on a boundary of matching epochs. *)
Definition epoch_start (t : Z) : Z :=
  u64 (u64 (t + (XCX_MATCHING_SECS_PER_EPOCH - 1)) / XCX_MATCHING_SECS_PER_EPOCH * XCX_MATCHING_SECS_PER_EPOCH).

(** [total_to_mine], 0.2 * 200000 * 50000, in units of 10^-27. *)
Definition TOTAL_TO_MINE : Z := 2000000000 * 10 ^ 27.

Definition Mining_Init (testnet : bool) : outcome ExchangeMining :=
  let v x := UniFloat_of x 0 in
  let start := epoch_start (if testnet then 1718193600 else 1718467200) in
  let! short := v (mkD 2200368705940677 (-51)) in
  let! long := v (mkD 560786305940833 (-49)) in
  let! mult := v MINING_MULTIPLIER_MAX in
  let! maxf := v MINING_MIN_CUTOFF_FACTOR in
  let! minf := v MINING_MULTIPLIER_MIN in
  let! frac := v (mkD 8303633079208173 (-72)) in
  let! mina := v (mkD 100 0) in
  let! secs := v (mkD 3600 0) in
  let! incr := v (mkD 240 0) in
  let! intervals := Divide secs incr 1 in
  let! avg := v (mkD 500 0) in
  let! rate := v (mkD 7378697629483821 (-65)) in
  let! w := v (mkD 100 0) in
  let! rw := Multiply w avg 0 in
  Ret (mkMining
    (mkParams (mkConsts frac mina intervals short long maxf minf 240) 0 TOTAL_TO_MINE
       (mkStats avg w rate rw rate zero) zero zero zero mult 0)
    0 start).

(** The new average and weight. *)
Definition UpdateWeightedAverage (avg weight amt new_weight : double) : outcome (double * double) :=
  let! a := Multiply avg weight 0 in
  let! a := Add a amt 0 false in
  let! w := Add weight new_weight 0 false in
  let! a := Divide a w 0 in
  Ret (a, w).

(** Mining is for buyers of Creda with Bitcoin Cash. *)
Definition mining_buyer (m : Xmatch) : bool :=
  let t := q_terms (xbuy m) in
  ((t_type t =? CC_TYPE_XCX_SIMPLE_BUY) || (t_type t =? CC_TYPE_XCX_MINING_BUY))
  && (t_quote_asset t =? XREQ_BLOCKCHAIN_BCH) && (base_asset t =? 0).

(** One period: the weights decay, more becomes mineable up to the maximum, and the
    multiplier goes up while more than half of the maximum is mineable. *)
Definition advance_period `{AmtFloat} (s : ExchangeMiningParams) : outcome ExchangeMiningParams :=
  let c := consts s in
  let st := mining_stats s in
  let! w1 := Multiply (avg_amount_weight st) (mining_long_decay_factor c) 0 in
  let! w2 := Multiply (avg_match_rate_required_weight st) (mining_short_decay_factor c) 0 in
  let! w3 := Multiply (avg_match_rate_weight st) (mining_long_decay_factor c) 0 in
  let st := mkStats (avg_amount st) w1 (avg_match_rate_required st) w2 (avg_match_rate st) w3 in
  let! remaining := asUniFloat MINED_ASSET (total_remaining_to_mine s) in
  let! inc := Multiply remaining (mining_remaining_fraction_per_interval c) 0 in
  let inc := if dlt inc (mining_min_amount_per_interval c) then mining_min_amount_per_interval c else inc in
  let! max := Multiply inc (mining_max_currently_mineable_intervals c) 0 in
  let! cur := Add (currently_mineable_amount s) inc 0 false in
  let cur := if dgt cur max then max else cur in
  let! frac := Divide cur max 0 in
  let! mult :=
    if dgt frac MINING_MULTIPLIER_INC_THRESHOLD then
      let! amt := UniFloat_of MINING_MULTIPLIER_INC_AMOUNT 0 in
      let! v := Add (mining_amount_multiplier s) amt 0 false in
      if dgt v MINING_MULTIPLIER_MAX then UniFloat_of MINING_MULTIPLIER_MAX 0 else Ret v
    else Ret (mining_amount_multiplier s) in
  Ret (mkParams c (total_mined s) (total_remaining_to_mine s) st inc cur max mult (u64 (mining_period s + 1))).

Fixpoint period_loop `{AmtFloat} (fuel : nat) (period : Z) (s : ExchangeMiningParams) : outcome ExchangeMiningParams :=
  if period <=? mining_period s then Ret s
  else match fuel with
       | O => Throw FuelOut
       | S f => let! s := advance_period s in period_loop f period s
       end.

(** The result says that there is no mining yet. *)
Definition UpdateMiningTime `{AmtFloat} (g : ExchangeMining) (timestamp : Z) : outcome (bool * ExchangeMining) :=
  if (timestamp <? mining_start_time g) || (mining_start_time g =? 0) then Ret (true, g)
  else
    let period := u64 ((timestamp - mining_start_time g) / mining_update_time_increment (consts (saved g)) + 1) in
    let g := if period =? mining_period (saved g) then g else count_update g in
    ccassert! mining_period (saved g) <=? period in
    let! s := period_loop (Z.to_nat (period - mining_period (saved g))) period (saved g) in
    Ret (false, with_saved g s).

(** Nothing: not mineable.  Otherwise the amount of the match and the rate that the buyer
    requires of it. *)
Definition UpdateMiningStats `{AmtFloat} (s : ExchangeMiningParams) (m : Xmatch)
  : outcome (ExchangeMiningParams * option (double * double)) :=
  let! base := asUniFloat (base_asset (q_terms (xsell m))) (base_amount m) in
  if not_positive base then Ret (s, None)
  else
    let st := mining_stats s in
    let! w1 := UniFloat_of one 0 in
    let! aw := UpdateWeightedAverage (avg_amount st) (avg_amount_weight st) base w1 in
    let st := mkStats (fst aw) (snd aw) (avg_match_rate_required st) (avg_match_rate_required_weight st) (avg_match_rate st) (avg_match_rate_weight st) in
    let s := with_stats s st in
    let! minf := UniFloat_of MINING_MIN_CUTOFF_FACTOR 0 in
    let! low := Multiply (avg_amount st) minf 0 in
    let! maxf := UniFloat_of MINING_MAX_CUTOFF_FACTOR 0 in
    let! high := Multiply (avg_amount st) maxf 0 in
    if dlt base low then Ret (s, None)
    else if dgt base high then Ret (s, None)
    else if not_positive (net_rate_required (q_terms (xbuy m))) then Ret (s, None)
    else
      let! r := MatchRateRequired (q_terms (xbuy m)) base 0 in
      let! two := UniFloat_of (mkD 2 0) 0 in
      let! r := if t_type (q_terms (xbuy m)) =? CC_TYPE_XCX_MINING_BUY then Multiply r two 0 else Ret r in
      if not_positive r then Ret (s, None)
      else
        let! weighted := Multiply base r 0 in
        let! rw := UpdateWeightedAverage (avg_match_rate_required st) (avg_match_rate_required_weight st) weighted base in
        Ret (with_stats s (mkStats (avg_amount st) (avg_amount_weight st) (fst rw) (snd rw) (avg_match_rate st) (avg_match_rate_weight st)),
             Some (base, r)).

Definition ComputeMiningAmount (s : ExchangeMiningParams) (base_amount buyer_match_rate_required : double)
  : outcome (double * ExchangeMiningParams) :=
  let c := consts s in
  let cur := currently_mineable_amount s in
  if not_positive cur then Ret (zero, s)
  else if dle buyer_match_rate_required (avg_match_rate_required (mining_stats s)) then Ret (zero, s)
  else
    let! frac := Divide cur (max_currently_mineable_amount s) 0 in
    let! amount := Multiply base_amount (mining_amount_multiplier s) 0 in
    let! max_amount := Multiply cur (mining_max_fraction_per_match c) 0 in
    let! min_max := Multiply (max_currently_mineable_amount s) (mining_min_fraction_per_match c) 0 in
    let! unit := UniFloat_of MINING_AMOUNT_MIN_MAX 0 in
    let min_max := if dlt min_max MINING_AMOUNT_MIN_MAX then unit else min_max in
    let max_amount := if dlt max_amount min_max then min_max else max_amount in
    let amount := if dgt amount max_amount then max_amount else amount in
    let amount := if dgt amount cur then cur else amount in
    if dlt amount MINING_MIN_CUTOFF_AMOUNT then Ret (zero, s)
    else
      let! mult :=
        if dlt frac MINING_MULTIPLIER_DEC_THRESHOLD then
          let! d := UniFloat_of MINING_MULTIPLIER_DEC_MULTIPLIER 0 in
          let! v := Multiply (mining_amount_multiplier s) d 0 in
          if dlt v MINING_MULTIPLIER_MIN then UniFloat_of MINING_MULTIPLIER_MIN 0 else Ret v
        else Ret (mining_amount_multiplier s) in
      Ret (amount, with_multiplier s mult).

Section ops.
(** The prime of the field of amounts. *)
Variable P : Z.
Context `{AmtFloat}.

(** The amount that a new match may mine is set aside. *)
Definition SetMiningAmount (g : ExchangeMining) (m : Xmatch) : outcome (ExchangeMining * Xmatch) :=
  if total_remaining_to_mine (saved g) =? 0 then Ret (g, m)
  else if negb (mining_buyer m) then Ret (g, m)
  else
    ccassert! have_matching (xbuy m) in
    ccassert! negb (destination (q_terms (xbuy m)) =? 0) in
    let! r := UpdateMiningTime g (m_match_timestamp m) in
    let g := snd r in
    if fst r then Ret (g, m)
    else
      let g := count_update g in
      let! r := UpdateMiningStats (saved g) m in
      let g := with_saved g (fst r) in
      match snd r with
      | None => Ret (g, m)
      | Some (base, rate) =>
          let! r := ComputeMiningAmount (saved g) base rate in
          let g := with_saved g (snd r) in
          let m := with_mining_amount m (fst r) in
          ccassert! fst (amount_from_full MINED_ASSET (mining_amount m)) =? 0 in
          ccassert! dle (mining_amount m) (currently_mineable_amount (saved g)) in
          let! cur := Add (currently_mineable_amount (saved g)) (neg (mining_amount m)) 0 false in
          Ret (with_saved g (with_mineable (saved g) cur), m)
      end.

(** What is mined for a match that is paid, no more than what remains. *)
Definition GetAdjustedMiningAmount (g : ExchangeMining) (m : Xmatch) : outcome Z :=
  if is_zero (mining_amount m) then Ret 0
  else
    ccassert! status m =? XMATCH_STATUS_PAID in
    let '(rc, amount) := amount_from_full MINED_ASSET (mining_amount m) in
    ccassert! rc =? 0 in
    Ret (if total_remaining_to_mine (saved g) <? amount then total_remaining_to_mine (saved g) else amount).

Definition FinalizeMiningAmount (g : ExchangeMining) (m : Xmatch) (adj_mining_amount : Z) : outcome (ExchangeMining * Xmatch) :=
  if is_zero (mining_amount m) then Ret (g, m)
  else
    ccassert! status m =? XMATCH_STATUS_PAID in
    let! v := asUniFloat MINED_ASSET adj_mining_amount in
    let m := with_mining_amount m v in
    let g := count_update g in
    let s := saved g in
    ccassert! adj_mining_amount <=? total_remaining_to_mine s in
    let s := with_totals s (fadd P (total_mined s) adj_mining_amount) (fsub P (total_remaining_to_mine s) adj_mining_amount) in
    let s := if total_remaining_to_mine s =? 0 then with_mineable s zero else s in
    Ret (with_saved g s, m).

(** The average rate of what buyers got. *)
Definition UpdateMatchStats (g : ExchangeMining) (m : Xmatch) (buyer_amount : Z) : outcome ExchangeMining :=
  if negb (mining_buyer m) then Ret g
  else if buyer_amount =? 0 then Ret g
  else
    let s := saved g in
    let st := mining_stats s in
    let! base := asUniFloat (base_asset (q_terms (xbuy m))) buyer_amount in
    let! rate := Divide (amount_paid m) base 0 in
    let! weighted := Multiply base rate 0 in
    let! rw := UpdateWeightedAverage (avg_match_rate st) (avg_match_rate_weight st) weighted base in
    Ret (with_saved g (with_stats s (mkStats (avg_amount st) (avg_amount_weight st) (avg_match_rate_required st)
      (avg_match_rate_required_weight st) (fst rw) (snd rw)))).
End ops.

(** ** Promises of the conversions *)

(** A portable float that is finite and not negative. *)
Definition nonneg (v : double) : Prop := finite v /\ 0 <= d_m v.

Class AmtFloatSpec `{AmtFloat} : Prop := {
  asDouble_nonneg asset amount : 0 <= amount -> nonneg (asDouble asset amount);
  amount_from_full_nonneg asset v : nonneg v -> 0 <= snd (amount_from_full asset v)
}.

Lemma UniFloat_of_nn v r : nonneg v -> exists w, UniFloat_of v r = Ret w /\ nonneg w.
Proof. intros [Hf Hp]. destruct (UniFloat_of_returns v r Hf) as (w & E & F). exists w. split; [exact E|]. split; [exact F | exact (UniFloat_of_nonneg _ _ _ E Hp)]. Qed.

Lemma Multiply_nn a b r : nonneg a -> nonneg b -> exists v, Multiply a b r = Ret v /\ nonneg v.
Proof.
  intros [Fa Pa] [Fb Pb]. destruct (Multiply_returns a b r Fa Fb) as (v & E & F). exists v. split; [exact E|]. split; [exact F | exact (Multiply_nonneg _ _ _ _ E Pa Pb)].
Qed.

Lemma Divide_nn a b r : nonneg a -> nonneg b -> exists v, Divide a b r = Ret v /\ nonneg v.
Proof.
  intros [Fa Pa] [Fb Pb]. destruct (Divide_returns a b r Fa Fb) as (v & E & F). exists v. split; [exact E|]. split; [exact F | exact (Divide_nonneg _ _ _ _ E Pa Pb)].
Qed.

Lemma Add_nn a b r : nonneg a -> nonneg b -> exists v, Add a b r false = Ret v /\ nonneg v.
Proof.
  intros [Fa Pa] [Fb Pb]. destruct (Add_returns a b r false Fa Fb) as (v & E & F). exists v. split; [exact E|].
  split; [exact F | exact (Add_nonneg _ _ _ _ E Fa Fb Pa Pb)].
Qed.

Lemma nonneg_const m e : 0 <= m <= 2 ^ 53 -> -1074 <= e <= 1024 -> nonneg (mkD m e).
Proof. intros Hm He. split; [split; cbn [d_m d_e]; lia | cbn [d_m]; lia]. Qed.

(** One floating point operation of a definition, on values that are not negative. *)
Ltac nn_side := first [eassumption | apply nonneg_const; lia].
Ltac nn_use H :=
  let v := fresh "v" in let E := fresh "E" in let N := fresh "N" in
  destruct H as (v & E & N); rewrite E; clear E; cbn [outcome_bind].
Ltac nn_step :=
  match goal with
  | |- context [Multiply ?a ?b ?r] => nn_use (Multiply_nn a b r ltac:(nn_side) ltac:(nn_side))
  | |- context [Divide ?a ?b ?r] => nn_use (Divide_nn a b r ltac:(nn_side) ltac:(nn_side))
  | |- context [Add ?a ?b ?r false] => nn_use (Add_nn a b r ltac:(nn_side) ltac:(nn_side))
  | |- context [UniFloat_of ?a ?r] => nn_use (UniFloat_of_nn a r ltac:(nn_side))
  end.

(** ** The parameters of mining stay consistent *)

Definition stats_values (st : ExchangeMatchStats) : list double :=
  [avg_amount st; avg_amount_weight st; avg_match_rate_required st; avg_match_rate_required_weight st; avg_match_rate st; avg_match_rate_weight st].
Definition consts_values (c : MiningConsts) : list double :=
  [mining_remaining_fraction_per_interval c; mining_min_amount_per_interval c; mining_max_currently_mineable_intervals c;
   mining_short_decay_factor c; mining_long_decay_factor c; mining_max_fraction_per_match c; mining_min_fraction_per_match c].
Definition param_values (s : ExchangeMiningParams) : list double :=
  [last_nominal_mineable_amount_increase s; currently_mineable_amount s; max_currently_mineable_amount s; mining_amount_multiplier s].

Record mining_ok (s : ExchangeMiningParams) : Prop := {
  mo_stats : Forall nonneg (stats_values (mining_stats s));
  mo_consts : Forall nonneg (consts_values (consts s));
  mo_values : Forall nonneg (param_values s);
  mo_mined : 0 <= total_mined s;
  mo_remaining : 0 <= total_remaining_to_mine s;
  mo_total : total_mined s + total_remaining_to_mine s = TOTAL_TO_MINE;
  mo_period : 0 < mining_update_time_increment (consts s)
}.

(** What changes neither the totals nor the constants. *)
Definition same_totals (s s' : ExchangeMiningParams) : Prop :=
  consts s' = consts s /\ total_mined s' = total_mined s /\ total_remaining_to_mine s' = total_remaining_to_mine s.

Lemma Forall_list {A} (P : A -> Prop) l : Forall P l <-> foldr (fun a acc => P a /\ acc) True l.
Proof. induction l as [|a l IH]; cbn; [split; constructor | rewrite Forall_cons, IH; reflexivity]. Qed.

Ltac open_values :=
  repeat match goal with
  | H : Forall nonneg ?l |- _ =>
      match l with stats_values _ => idtac | consts_values _ => idtac | param_values _ => idtac end;
      apply Forall_list in H; cbn [stats_values consts_values param_values foldr] in H; destruct_and! H
  end.
Ltac values := apply Forall_list; cbn; split_and!; first [assumption | exact I].

Lemma Mining_Init_ok testnet : exists g, Mining_Init testnet = Ret g /\ mining_ok (saved g).
Proof.
  destruct testnet; (eexists; split; [vm_compute; reflexivity|]); (split; [apply Forall_list | apply Forall_list | apply Forall_list | | | |]);
    cbn [saved mining_stats consts total_mined total_remaining_to_mine stats_values consts_values param_values foldr mining_update_time_increment
      avg_amount avg_amount_weight avg_match_rate_required avg_match_rate_required_weight avg_match_rate avg_match_rate_weight
      mining_remaining_fraction_per_interval mining_min_amount_per_interval mining_max_currently_mineable_intervals
      mining_short_decay_factor mining_long_decay_factor mining_max_fraction_per_match mining_min_fraction_per_match
      last_nominal_mineable_amount_increase currently_mineable_amount max_currently_mineable_amount mining_amount_multiplier];
    repeat split; vm_compute; first [reflexivity | discriminate].
Qed.

Section reserve.
Context `{AF : AmtFloat} {AS : AmtFloatSpec}.

Lemma asUniFloat_nn asset amount : 0 <= amount -> exists v, asUniFloat asset amount = Ret v /\ nonneg v.
Proof. intros Ha. unfold asUniFloat. apply UniFloat_of_nn, asDouble_nonneg, Ha. Qed.

Lemma UpdateWeightedAverage_nn avg weight amt w : nonneg avg -> nonneg weight -> nonneg amt -> nonneg w ->
  exists r, UpdateWeightedAverage avg weight amt w = Ret r /\ nonneg (fst r) /\ nonneg (snd r).
Proof.
  intros Ha Hw Hm Hn. unfold UpdateWeightedAverage. do 4 nn_step. eexists. split; [reflexivity|]. split; assumption.
Qed.

Lemma raise_multiplier_nn mult (more : bool) : nonneg mult ->
  exists w, (if more then
      let! amt := UniFloat_of MINING_MULTIPLIER_INC_AMOUNT 0 in
      let! v := Add mult amt 0 false in
      if dgt v MINING_MULTIPLIER_MAX then UniFloat_of MINING_MULTIPLIER_MAX 0 else Ret v
    else Ret mult) = Ret w /\ nonneg w.
Proof.
  intros Hm. destruct more; [|eauto]. unfold MINING_MULTIPLIER_INC_AMOUNT, MINING_MULTIPLIER_MAX, one. do 2 nn_step.
  destruct (dgt _ _); [nn_step; eauto | eauto].
Qed.

Lemma advance_period_ok s : mining_ok s -> exists s', advance_period s = Ret s' /\ mining_ok s' /\ same_totals s s'
  /\ mining_period s' = u64 (mining_period s + 1).
Proof.
  intros [Hst Hc Hv Hm Hr Ht Hp]. assert (Hc' : id (Forall nonneg (consts_values (consts s)))) by exact Hc. open_values. unfold advance_period. cbv zeta.
  do 3 nn_step. destruct (asUniFloat_nn MINED_ASSET (total_remaining_to_mine s) Hr) as (rem & -> & Nrem). cbn [outcome_bind].
  nn_step. match goal with |- context [dlt ?x (mining_min_amount_per_interval _)] => set (inc := if dlt x _ then _ else x) end.
  assert (Ninc : nonneg inc) by (unfold inc; destruct (dlt _ _); assumption). do 2 nn_step.
  match goal with |- context [dgt ?x ?m] => set (cur := if dgt x m then m else x) end.
  assert (Ncur : nonneg cur) by (unfold cur; destruct (dgt _ _); assumption). nn_step.
  match goal with |- context [dgt ?x MINING_MULTIPLIER_INC_THRESHOLD] =>
    destruct (raise_multiplier_nn (mining_amount_multiplier s) (dgt x MINING_MULTIPLIER_INC_THRESHOLD) ltac:(assumption)) as (mult & -> & Nmult) end.
  cbn [outcome_bind]. eexists. split; [reflexivity|]. split; [|repeat split].
  split; cbn [consts mining_stats total_mined total_remaining_to_mine]; first [assumption | exact Hc' | values].
Qed.

Lemma period_loop_ok period fuel : forall s, mining_ok s -> 0 <= mining_period s <= period -> period < 2 ^ 64 ->
  period - mining_period s <= Z.of_nat fuel ->
  exists s', period_loop fuel period s = Ret s' /\ mining_ok s' /\ same_totals s s' /\ mining_period s' = period.
Proof.
  induction fuel as [|f IH]; intros s Hs Hm Hp Hf; cbn [period_loop]; (destruct (Z.leb_spec period (mining_period s)) as [Hle|Hlt];
    [exists s; split; [reflexivity|]; split; [exact Hs|]; split; [repeat split | lia]|]); [lia|].
  destruct (advance_period_ok s Hs) as (s1 & -> & Hs1 & (C1 & C2 & C3) & Hper). cbn [outcome_bind]. rewrite u64_small in Hper by lia.
  destruct (IH s1 Hs1 ltac:(lia) Hp ltac:(lia)) as (s2 & -> & Hs2 & (D1 & D2 & D3) & Hper2).
  exists s2. split; [reflexivity|]. split; [exact Hs2|]. split; [|exact Hper2]. repeat split; congruence.
Qed.

(** The mining clock: the period of a time, counted from 1 at the start. *)
Definition period_at (g : ExchangeMining) (timestamp : Z) : Z :=
  (timestamp - mining_start_time g) / mining_update_time_increment (consts (saved g)) + 1.

(** The time of a match is not before that of the last one. *)
Definition clock_ok (g : ExchangeMining) (timestamp : Z) : Prop :=
  0 <= mining_start_time g /\ 0 <= timestamp < 2 ^ 64 - 1 /\ 0 <= mining_period (saved g)
  /\ (mining_start_time g <= timestamp -> mining_start_time g <> 0 -> mining_period (saved g) <= period_at g timestamp).

Lemma UpdateMiningTime_ok g t : mining_ok (saved g) -> clock_ok g t ->
  exists stop g', UpdateMiningTime g t = Ret (stop, g') /\ mining_ok (saved g') /\ same_totals (saved g) (saved g')
    /\ mining_start_time g' = mining_start_time g /\ (stop = true -> g' = g) /\ (stop = false -> mining_period (saved g') = period_at g t /\ 0 <= period_at g t).
Proof.
  intros Hs (Hst & Ht & Hm & Hper). unfold UpdateMiningTime.
  destruct ((t <? mining_start_time g) || (mining_start_time g =? 0)) eqn:Estop.
  { exists true, g. split; [reflexivity|]. split; [exact Hs|]. split; [repeat split|]. split; [reflexivity|]. split; [reflexivity | discriminate]. }
  apply orb_false_iff in Estop as [E1%Z.ltb_ge E2%Z.eqb_neq]. specialize (Hper E1 E2). fold (period_at g t). pose proof (mo_period _ Hs) as Hinc.
  assert (Hpos : 0 <= period_at g t < 2 ^ 64).
  { unfold period_at. pose proof (Z.div_pos (t - mining_start_time g) _ ltac:(lia) Hinc).
    pose proof (Z.div_le_upper_bound (t - mining_start_time g) (mining_update_time_increment (consts (saved g))) (t - mining_start_time g) Hinc ltac:(nia)). lia. }
  rewrite u64_small by lia. set (g1 := if _ =? _ then g else count_update g).
  assert (Hg1 : saved g1 = saved g /\ mining_start_time g1 = mining_start_time g) by (unfold g1; destruct (period_at g t =? mining_period (saved g)); split; reflexivity).
  destruct Hg1 as [-> Hg1]. rewrite (proj2 (Z.leb_le _ _)) by exact Hper.
  destruct (period_loop_ok (period_at g t) (Z.to_nat (period_at g t - mining_period (saved g))) (saved g) Hs ltac:(lia) ltac:(lia) ltac:(lia)) as (s' & -> & Hs' & Hsame & Hper').
  cbn [outcome_bind]. exists false, (with_saved g1 s'). split; [reflexivity|]. split; [exact Hs'|]. split; [exact Hsame|]. split; [exact Hg1|].
  split; [discriminate | intros _; split; [exact Hper' | lia]].
Qed.

(** What a match must have to be considered for mining. *)
Definition terms_ok (t : Terms) : Prop := finite (base_costs t) /\ finite (quote_costs t) /\ finite (net_rate_required t).

Lemma neg_finite v : finite v -> finite (neg v).
Proof. intros [Hm He]. split; cbn [neg d_m d_e]; lia. Qed.

Lemma ApplySign_finite s v : finite v -> finite (ApplySign s v).
Proof. intros Hv. unfold ApplySign. destruct (0 <? s); [exact Hv|]. destruct (s <? 0); [apply neg_finite, Hv | split; cbn; lia]. Qed.

Lemma MatchRateRequired_returns t b r : terms_ok t -> finite b -> exists v, MatchRateRequired t b r = Ret v /\ finite v.
Proof.
  intros (H1 & H2 & H3) Hb. unfold MatchRateRequired. destruct (d_m b =? 0).
  { unfold signed_max. apply UniFloat_of_returns. assert (RateSign (TypeIsBuyer (t_type t)) = -1 \/ RateSign (TypeIsBuyer (t_type t)) = 1) as [->| ->] by (unfold RateSign; destruct (TypeIsBuyer _); auto);
      (split; cbn [d_m d_e DBL_MAX]; lia). }
  destruct (Add_returns b _ r false Hb (ApplySign_finite (RateSign (TypeIsBuyer (t_type t))) _ H1)) as (v1 & -> & F1). cbn [outcome_bind].
  destruct (Multiply_returns v1 _ 0 F1 H3) as (v2 & -> & F2). cbn [outcome_bind].
  destruct (Add_returns v2 _ r false F2 (ApplySign_finite (RateSign (TypeIsBuyer (t_type t))) _ H2)) as (v3 & -> & F3). cbn [outcome_bind].
  destruct (Divide_returns v3 b r F3 Hb) as (v4 & -> & F4). cbn [outcome_bind]. eexists. split; [reflexivity|]. destruct (_ || _); assumption.
Qed.

(** The statistics change, the rest of the parameters does not. *)
Definition only_stats (s s' : ExchangeMiningParams) : Prop := exists st, s' = with_stats s st.

Lemma with_stats_ok s st : mining_ok s -> Forall nonneg (stats_values st) -> mining_ok (with_stats s st).
Proof. intros [H1 H2 H3 H4 H5 H6 H7] Hst. split; assumption. Qed.

Lemma positive_nonneg v : finite v -> not_positive v = false -> nonneg v.
Proof. intros Hf Hp. apply Z.leb_gt in Hp. split; [exact Hf | lia]. Qed.

Lemma UpdateMiningStats_ok s m : mining_ok s -> 0 <= base_amount m -> terms_ok (q_terms (xbuy m)) ->
  exists s' r, UpdateMiningStats s m = Ret (s', r) /\ mining_ok s' /\ only_stats s s'
    /\ match r with Some (base, rate) => nonneg base /\ nonneg rate | None => True end.
Proof.
  intros Hs Hb Ht. unfold UpdateMiningStats. destruct (asUniFloat_nn (base_asset (q_terms (xsell m))) _ Hb) as (base & -> & Nb). cbn [outcome_bind].
  assert (Hid : only_stats s s) by (exists (mining_stats s); destruct s; reflexivity).
  destruct (not_positive base); [exists s, None; split_and!; first [reflexivity | assumption | exact I]|].
  pose proof Hs as Hs0. destruct Hs0 as [Hst _ _ _ _ _ _]. open_values. unfold one. nn_step.
  destruct (UpdateWeightedAverage_nn (avg_amount (mining_stats s)) (avg_amount_weight (mining_stats s)) base v) as (aw & -> & Na & Nw); try assumption. cbn [outcome_bind].
  cbv zeta. cbn [with_stats mining_stats avg_amount avg_amount_weight avg_match_rate_required avg_match_rate_required_weight avg_match_rate avg_match_rate_weight].
  set (s1 := with_stats s _). assert (Hs1 : mining_ok s1) by (apply with_stats_ok; [exact Hs | values]).
  assert (Hid1 : only_stats s s1) by (eexists; reflexivity).
  unfold MINING_MIN_CUTOFF_FACTOR, MINING_MAX_CUTOFF_FACTOR. do 4 nn_step.
  destruct (dlt base _); [exists s1, None; split_and!; first [reflexivity | assumption | exact I]|]. destruct (dgt base _); [exists s1, None; split_and!; first [reflexivity | assumption | exact I]|].
  destruct (not_positive (net_rate_required _)); [exists s1, None; split_and!; first [reflexivity | assumption | exact I]|].
  destruct (MatchRateRequired_returns _ base 0 Ht (proj1 Nb)) as (r & -> & Fr). cbn [outcome_bind]. nn_step.
  assert (exists r', (if t_type (q_terms (xbuy m)) =? CC_TYPE_XCX_MINING_BUY then Multiply r v4 0 else Ret r) = Ret r' /\ finite r') as (r' & -> & Fr').
  { destruct (_ =? _); [apply Multiply_returns; [exact Fr | apply N4] | eauto]. }
  cbn [outcome_bind]. destruct (not_positive r') eqn:Er; [exists s1, None; split_and!; first [reflexivity | assumption | exact I]|].
  pose proof (positive_nonneg r' Fr' Er) as Nr. nn_step.
  destruct (UpdateWeightedAverage_nn (avg_match_rate_required (mining_stats s)) (avg_match_rate_required_weight (mining_stats s)) v5 base) as (rw & -> & Nr1 & Nr2); try assumption.
  cbn [outcome_bind]. eexists _, _. split; [reflexivity|]. split; [apply with_stats_ok; [exact Hs1 | values]|].
  split; [eexists; reflexivity | split; assumption].
Qed.

Lemma dle_dlt a b : dle a b = negb (dlt b a).
Proof. unfold dle, dlt, common. rewrite (Z.min_comm (d_e b)). rewrite Z.ltb_antisym, negb_involutive. reflexivity. Qed.

Lemma dle_refl a : dle a a = true.
Proof. apply Z.leb_refl. Qed.

Lemma cap_dle a c : dle (if dgt a c then c else a) c = true.
Proof. destruct (dgt a c) eqn:E; [apply dle_refl|]. rewrite dle_dlt. unfold dgt in E. rewrite E. reflexivity. Qed.

(** What a match is given: nothing, or from one unit up to what can be mined now. *)
Definition reserve (s : ExchangeMiningParams) (amount : double) : Prop :=
  amount = zero \/ dle MINING_MIN_CUTOFF_AMOUNT amount = true /\ dle amount (currently_mineable_amount s) = true.

Lemma with_multiplier_ok s v : mining_ok s -> nonneg v -> mining_ok (with_multiplier s v).
Proof. intros [H1 H2 H3 H4 H5 H6 H7] Hv. open_values. split; try assumption; try values; exact H2. Qed.

Lemma ComputeMiningAmount_ok s base rate : mining_ok s -> nonneg base -> nonneg rate ->
  exists amount s', ComputeMiningAmount s base rate = Ret (amount, s') /\ mining_ok s' /\ (exists v, s' = with_multiplier s v)
    /\ nonneg amount /\ reserve s amount.
Proof.
  intros Hs Nb Nr. assert (Nz : nonneg zero) by (apply nonneg_const; lia).
  assert (Hid : exists v, s = with_multiplier s v) by (exists (mining_amount_multiplier s); destruct s; reflexivity).
  unfold ComputeMiningAmount. destruct (not_positive _); [exists zero, s; split_and!; [reflexivity | exact Hs | exact Hid | exact Nz | left; reflexivity]|].
  destruct (dle rate _); [exists zero, s; split_and!; [reflexivity | exact Hs | exact Hid | exact Nz | left; reflexivity]|].
  pose proof Hs as Hs0. destruct Hs0 as [Hst Hc Hv _ _ _ _]. open_values. do 4 nn_step. unfold MINING_AMOUNT_MIN_MAX, one. nn_step. cbv zeta.
  match goal with |- context [dlt ?a MINING_MIN_CUTOFF_AMOUNT] => set (amount := a) end.
  assert (Na : nonneg amount) by (unfold amount; repeat (match goal with |- nonneg (if ?c then _ else _) => destruct c end); assumption).
  assert (Hle : dle amount (currently_mineable_amount s) = true) by apply cap_dle.
  destruct (dlt amount MINING_MIN_CUTOFF_AMOUNT) eqn:Ec; [exists zero, s; split_and!; [reflexivity | exact Hs | exact Hid | exact Nz | left; reflexivity]|].
  assert (Hres : reserve s amount) by (right; rewrite dle_dlt, Ec; split; [reflexivity | exact Hle]).
  unfold MINING_MULTIPLIER_DEC_MULTIPLIER, MINING_MULTIPLIER_MIN.
  assert (Hend : forall mult, nonneg mult -> exists amount0 s', Ret (amount, with_multiplier s mult) = Ret (amount0, s') /\ mining_ok s' /\ (exists v, s' = with_multiplier s v) /\ nonneg amount0 /\ reserve s amount0).
  { intros mult Nm. exists amount, (with_multiplier s mult). split; [reflexivity|]. split; [apply with_multiplier_ok; assumption|]. eauto. }
  match goal with |- context [dlt ?x MINING_MULTIPLIER_DEC_THRESHOLD] => destruct (dlt x MINING_MULTIPLIER_DEC_THRESHOLD) end; [|cbn [outcome_bind]; apply Hend; assumption].
  do 3 nn_step. match goal with |- context [if dlt ?x ?y then _ else _] => destruct (dlt x y) end; cbn [outcome_bind]; apply Hend; assumption.
Qed.

Definition mining_inv (g : ExchangeMining) : Prop :=
  mining_ok (saved g) /\ 0 <= mining_start_time g /\ 0 <= mining_period (saved g).

(** A match of which an amount can be mined. *)
Record minable (m : Xmatch) : Prop := {
  mn_base : 0 <= base_amount m;
  mn_terms : terms_ok (q_terms (xbuy m));
  mn_time : 0 <= m_match_timestamp m < 2 ^ 64 - 1
}.

(** What setting the amount does: what can be mined at the time of the match is reduced by
    the amount of the match. *)
Record amount_set (g : ExchangeMining) (m : Xmatch) (g' : ExchangeMining) (m' : Xmatch) : Prop := {
  as_inv : mining_inv g';
  as_totals : same_totals (saved g) (saved g');
  as_start : mining_start_time g' = mining_start_time g;
  as_match : m' = m \/ exists s amount, m' = with_mining_amount m amount /\ nonneg amount /\ mining_ok s /\ reserve s amount
    /\ Add (currently_mineable_amount s) (neg amount) 0 false = Ret (currently_mineable_amount (saved g'))
}.

Lemma same_totals_trans s1 s2 s3 : same_totals s1 s2 -> same_totals s2 s3 -> same_totals s1 s3.
Proof. intros (A1 & A2 & A3) (B1 & B2 & B3). repeat split; congruence. Qed.

Lemma with_mineable_ok s v : mining_ok s -> nonneg v -> mining_ok (with_mineable s v).
Proof. intros [H1 H2 H3 H4 H5 H6 H7] Hv. open_values. split; try assumption; try values; exact H2. Qed.

Lemma SetMiningAmount_cases g m : mining_inv g -> minable m ->
  (mining_buyer m = true -> have_matching (xbuy m) = true /\ destination (q_terms (xbuy m)) <> 0) ->
  clock_ok g (m_match_timestamp m) ->
  (SetMiningAmount g m = Throw AssertFail /\ exists amount, nonneg amount /\ fst (amount_from_full MINED_ASSET amount) <> 0)
  \/ exists g' m', SetMiningAmount g m = Ret (g', m') /\ amount_set g m g' m'.
Proof.
  intros (Hs & Hstart & Hper) [Hb Ht Htime] Hreq Hclock. unfold SetMiningAmount.
  assert (Hsame : amount_set g m g m) by (split; [split_and!; assumption | repeat split | reflexivity | left; reflexivity]).
  destruct (_ =? 0); [right; exists g, m; split; [reflexivity | exact Hsame]|].
  destruct (mining_buyer m); cbn [negb]; [|right; exists g, m; split; [reflexivity | exact Hsame]].
  destruct (Hreq eq_refl) as [-> Hd]. rewrite (proj2 (Z.eqb_neq _ 0)) by exact Hd. cbn [negb].
  destruct (UpdateMiningTime_ok g _ Hs Hclock) as (stop & g1 & -> & Hs1 & Htot1 & Hst1 & Hstop & Hp1). cbn [outcome_bind fst snd].
  destruct stop; [right; exists g1, m; rewrite (Hstop eq_refl); split; [reflexivity | exact Hsame]|]. destruct (Hp1 eq_refl) as [Hp1a Hp1b].
  destruct (UpdateMiningStats_ok (saved (count_update g1)) m Hs1 Hb Ht) as (s2 & r & -> & Hs2 & [st Hst2] & Hr). cbn [outcome_bind fst snd].
  assert (Htot2 : same_totals (saved g) s2) by (eapply same_totals_trans; [exact Htot1 | rewrite Hst2; repeat split]).
  assert (Hp2 : 0 <= mining_period s2) by (rewrite Hst2; cbn [with_stats mining_period count_update saved]; lia).
  destruct r as [[base rate]|].
  2:{ right. eexists _, _. split; [reflexivity|]. split; cbn [with_saved saved mining_start_time count_update]; [split_and!; [exact Hs2 | cbn; lia | exact Hp2] | exact Htot2 | exact Hst1 | left; reflexivity]. }
  destruct Hr as [Nb Nr]. cbn [with_saved saved]. destruct (ComputeMiningAmount_ok s2 base rate Hs2 Nb Nr) as (amount & s3 & -> & Hs3 & [v Hv] & Na & Hres).
  cbn [outcome_bind fst snd with_mining_amount mining_amount].
  destruct (Z.eqb_spec (fst (amount_from_full MINED_ASSET amount)) 0) as [Hrc|Hrc]; [right|left; split; [reflexivity | eauto]].
  assert (Hcur : currently_mineable_amount s3 = currently_mineable_amount s2) by (rewrite Hv; reflexivity).
  assert (Hle : dle amount (currently_mineable_amount s3) = true).
  { rewrite Hcur. destruct Hres as [-> | [_ Hle]]; [|exact Hle]. pose proof Hs2 as Hs2'. destruct Hs2' as [_ _ Hvals _ _ _ _]. open_values.
    rewrite dle_dlt. apply negb_true_iff. apply Z.ltb_ge. unfold at_exp. cbn [zero d_m d_e].
    match goal with N : nonneg (currently_mineable_amount s2) |- _ => destruct N as [_ N] end. rewrite Z.mul_0_l. apply Z.mul_nonneg_nonneg; [assumption | apply Z.pow_nonneg; lia]. }
  rewrite Hle. pose proof Hs3 as Hs3'. destruct Hs3' as [_ _ Hvals _ _ _ _]. open_values.
  match goal with N : nonneg (currently_mineable_amount s3) |- _ => destruct (Add_sub_nonneg (currently_mineable_amount s3) amount 0 (proj1 N) (proj1 Na) (proj2 Na) Hle) as (c & Hc & Fc & Pc) end.
  rewrite Hc. cbn [outcome_bind]. eexists _, _. split; [reflexivity|]. split; cbn [with_saved saved mining_start_time count_update].
  - split_and!; [apply with_mineable_ok; [exact Hs3 | split; assumption] | cbn; lia | rewrite Hv; exact Hp2].
  - eapply same_totals_trans; [exact Htot2 | rewrite Hv; repeat split].
  - exact Hst1.
  - right. exists s3, amount. split; [reflexivity|]. split; [exact Na|]. split; [exact Hs3|]. split; [|exact Hc].
    destruct Hres as [->|[Hone _]]; [left; reflexivity | right; split; [exact Hone | exact Hle]].
Qed.

Lemma UpdateMiningTime_clock g t r : mining_inv g -> 0 <= t < 2 ^ 64 - 1 -> UpdateMiningTime g t = Ret r -> clock_ok g t.
Proof.
  intros (Hs & Hstart & Hper) Ht. unfold UpdateMiningTime. pose proof (mo_period _ Hs) as Hinc.
  destruct ((t <? mining_start_time g) || (mining_start_time g =? 0)) eqn:E.
  - intros _. unfold clock_ok. apply orb_true_iff in E as [E%Z.ltb_lt|E%Z.eqb_eq]; lia.
  - cbv zeta. apply orb_false_iff in E as [E%Z.ltb_ge _]. fold (period_at g t).
    assert (Hsm : 0 <= period_at g t < 2 ^ 64).
    { unfold period_at. pose proof (Z.div_pos (t - mining_start_time g) _ ltac:(lia) Hinc).
      pose proof (Z.div_le_upper_bound (t - mining_start_time g) (mining_update_time_increment (consts (saved g))) (t - mining_start_time g) Hinc ltac:(nia)). lia. }
    rewrite u64_small by exact Hsm. destruct (mining_period _ <=? _) eqn:El; [|discriminate]. intros _. unfold clock_ok.
    destruct (period_at g t =? mining_period (saved g)); apply Z.leb_le in El; cbn [count_update saved] in El; lia.
Qed.

Lemma SetMiningAmount_Ret g m g' m' : mining_inv g -> minable m -> SetMiningAmount g m = Ret (g', m') -> amount_set g m g' m'.
Proof.
  intros Hg Hm Hr.
  assert (Hsame : amount_set g m g m) by (split; [exact Hg | repeat split | reflexivity | left; reflexivity]).
  assert (Hc : (g', m') = (g, m) \/ mining_buyer m = true /\ have_matching (xbuy m) = true /\ destination (q_terms (xbuy m)) <> 0 /\ clock_ok g (m_match_timestamp m)).
  { revert Hr. unfold SetMiningAmount. destruct (_ =? 0); [intros [= <- <-]; left; reflexivity|].
    destruct (mining_buyer m); cbn [negb]; [|intros [= <- <-]; left; reflexivity]. destruct (have_matching _); [|discriminate].
    destruct (Z.eqb_spec (destination (q_terms (xbuy m))) 0); [discriminate|]. cbn [negb]. intros (r & Hr & _)%outcome_bind_Ret. right.
    split_and!; try reflexivity; [assumption|]. eapply UpdateMiningTime_clock; [exact Hg | apply Hm | exact Hr]. }
  destruct Hc as [[= -> ->]|(_ & H1' & H2' & Hclock)]; [exact Hsame|].
  destruct (SetMiningAmount_cases g m Hg Hm ltac:(intros _; split; assumption) Hclock) as [[E _]|(g2 & m2 & E & Has)]; rewrite E in Hr; [discriminate|].
  injection Hr as <- <-. exact Has.
Qed.

(** When a match is made, what the network may mine for it is set aside: nothing, or at
    least one unit and at most what can be mined now, and what can be mined stays zero or
    positive; the totals do not change.  If the match is of a request with a destination
    and time does not go back, no assertion fails but the one that the amount has an
    integer form. *)
Theorem SetMiningAmount_reserves g m :
  mining_inv g -> minable m -> (mining_buyer m = true -> have_matching (xbuy m) = true /\ destination (q_terms (xbuy m)) <> 0) ->
  clock_ok g (m_match_timestamp m) ->
  (SetMiningAmount g m = Throw AssertFail /\ exists amount, nonneg amount /\ fst (amount_from_full MINED_ASSET amount) <> 0)
  \/ exists g' m', SetMiningAmount g m = Ret (g', m') /\ amount_set g m g' m'.
Proof. apply SetMiningAmount_cases. Qed.

(** ** What was mined and what remains *)

Variable P : Z.
Hypothesis prime_large : TOTAL_TO_MINE < P.

Lemma GetAdjusted_bounds g m a : mining_inv g -> nonneg (mining_amount m) -> GetAdjustedMiningAmount g m = Ret a -> 0 <= a <= total_remaining_to_mine (saved g).
Proof.
  intros (Hs & _) Hm. pose proof (mo_remaining _ Hs) as Hr. unfold GetAdjustedMiningAmount. destruct (is_zero _); [intros [= <-]; lia|].
  destruct (_ =? _); [|discriminate]. pose proof (amount_from_full_nonneg MINED_ASSET _ Hm) as Ha. destruct (amount_from_full _ _) as [rc amount]. cbn [snd] in Ha.
  destruct (rc =? 0); [|discriminate]. intros [= <-]. destruct (Z.ltb_spec (total_remaining_to_mine (saved g)) amount); lia.
Qed.

(** The totals move by the amount. *)
Lemma Finalize_moves g m adj g' m' : mining_inv g -> 0 <= adj -> FinalizeMiningAmount P g m adj = Ret (g', m') ->
  mining_inv g' /\ if is_zero (mining_amount m) then g' = g /\ m' = m
    else total_mined (saved g') = total_mined (saved g) + adj /\ total_remaining_to_mine (saved g') = total_remaining_to_mine (saved g) - adj.
Proof.
  intros Hg Ha. unfold FinalizeMiningAmount. destruct (is_zero _); [intros [= <- <-]; split; [exact Hg | split; reflexivity]|].
  destruct (_ =? _); [|discriminate]. intros (v & Hv & Hr)%outcome_bind_Ret. revert Hr. cbv zeta. destruct (Z.leb_spec adj (total_remaining_to_mine (saved (count_update g)))) as [Hle|]; [|discriminate].
  destruct Hg as (Hs & H1' & H2'). cbn [count_update saved] in *. pose proof Hs as [Hst Hcs Hvl Hmd Hrm Htt Hpr]. unfold fadd, fsub.
  rewrite !Z.mod_small by lia. set (s1 := with_totals (saved g) _ _).
  assert (Hs1 : mining_ok s1) by (unfold s1; split; cbn [with_totals total_mined total_remaining_to_mine consts mining_stats]; try assumption; lia).
  set (s2 := if total_remaining_to_mine s1 =? 0 then _ else s1). assert (nonneg zero) by (apply nonneg_const; lia).
  assert (Hs2 : mining_ok s2 /\ mining_period s2 = mining_period (saved g) /\ total_mined s2 = total_mined s1 /\ total_remaining_to_mine s2 = total_remaining_to_mine s1)
    by (unfold s2; destruct (total_remaining_to_mine s1 =? 0); (split; [|repeat split]); [apply with_mineable_ok|]; assumption).
  destruct Hs2 as (Hok & Ep & Em & Er). intros [= <- <-]. split; [split_and!; [exact Hok | exact H1' | cbn [with_saved saved]; lia]|].
  cbn [with_saved saved]. rewrite Em, Er. split; reflexivity.
Qed.

Lemma UpdateMatchStats_ok g m amount : mining_inv g -> nonneg (amount_paid m) -> 0 <= amount ->
  exists g', UpdateMatchStats g m amount = Ret g' /\ mining_inv g' /\ only_stats (saved g) (saved g').
Proof.
  intros Hg Hp Ha. pose proof Hg as (Hs & Hg1 & Hg2). unfold UpdateMatchStats.
  assert (Hid : exists g', Ret g = Ret g' /\ mining_inv g' /\ only_stats (saved g) (saved g')).
  { exists g. split; [reflexivity|]. split; [exact Hg|]. exists (mining_stats (saved g)). destruct (saved g); reflexivity. }
  destruct (mining_buyer m); cbn [negb]; [|exact Hid]. destruct (amount =? 0); [exact Hid|].
  destruct (asUniFloat_nn (base_asset (q_terms (xbuy m))) amount Ha) as (base & -> & Nb). cbn [outcome_bind]. cbv zeta.
  pose proof Hs as [Hst _ _ _ _ _ _]. open_values. do 2 nn_step.
  destruct (UpdateWeightedAverage_nn (avg_match_rate (mining_stats (saved g))) (avg_match_rate_weight (mining_stats (saved g))) v0 base) as (rw & -> & Nr & Nw); try assumption.
  cbn [outcome_bind]. eexists. split; [reflexivity|]. cbn [with_saved saved mining_start_time]. split; [|eexists; reflexivity].
  split_and!; [apply with_stats_ok; [exact Hs | values] | exact Hg1 | exact Hg2].
Qed.

(** What happens to the mining parameters. *)
Inductive mining_step : ExchangeMining -> ExchangeMining -> Prop :=
| step_set g m g' m' : minable m -> SetMiningAmount g m = Ret (g', m') -> mining_step g g'
| step_stats g m amount g' : nonneg (amount_paid m) -> 0 <= amount -> UpdateMatchStats g m amount = Ret g' -> mining_step g g'
| step_final g m amount g' m' : 0 <= amount -> FinalizeMiningAmount P g m amount = Ret (g', m') -> mining_step g g'.

Inductive mining_reachable (testnet : bool) : ExchangeMining -> Prop :=
| reach_init g : Mining_Init testnet = Ret g -> mining_reachable testnet g
| reach_step g g' : mining_reachable testnet g -> mining_step g g' -> mining_reachable testnet g'.

Lemma Mining_Init_inv testnet g : Mining_Init testnet = Ret g -> mining_inv g.
Proof.
  intros E. destruct (Mining_Init_ok testnet) as (g0 & E0 & Hok). rewrite E0 in E. injection E as <-. split; [exact Hok|].
  destruct testnet; revert E0; (intros E0; assert (E1 := E0); vm_compute in E1; injection E1 as <-; split; vm_compute; discriminate).
Qed.

Lemma reachable_inv testnet g : mining_reachable testnet g -> mining_inv g.
Proof.
  induction 1 as [g E|g g' _ IH Hstep]; [exact (Mining_Init_inv testnet g E)|]. destruct Hstep as [g m g' m' Hm E|g m amount g' Hp Ha E|g m amount g' m' Ha E].
  - exact (as_inv _ _ _ _ (SetMiningAmount_Ret g m g' m' IH Hm E)).
  - destruct (UpdateMatchStats_ok g m amount IH Hp Ha) as (g2 & E2 & Hi & _). rewrite E2 in E. injection E as <-. exact Hi.
  - exact (proj1 (Finalize_moves g m amount g' m' IH Ha E)).
Qed.

(** C21. Whatever matches are made and settled, the amount mined and the amount that remains
    to be mined are not negative and add up to the two billion there are to mine, and
    the amount that can currently be mined is not negative. *)
Theorem mining_conserved testnet g : mining_reachable testnet g ->
  0 <= total_mined (saved g) /\ 0 <= total_remaining_to_mine (saved g)
  /\ total_mined (saved g) + total_remaining_to_mine (saved g) = TOTAL_TO_MINE
  /\ 0 <= d_m (currently_mineable_amount (saved g)).
Proof.
  intros Hr. destruct (reachable_inv testnet g Hr) as ([_ _ Hv Hm Hrem Ht _] & _). open_values. split_and!; try assumption.
  match goal with N : nonneg (currently_mineable_amount _) |- _ => apply N end.
Qed.
End reserve.

(** ** An example *)

(** Whole units, and up to 2^52 of them. *)
#[export] Instance whole_units : AmtFloat := {|
  asDouble asset amount := mkD (Z.min (Z.max 0 (amount / 10 ^ 27)) (2 ^ 52)) 0;
  amount_from_full asset v := (0, if d_e v <? 0 then Z.max 0 (d_m v * 10 ^ 27 / 2 ^ (- d_e v)) else Z.max 0 (d_m v * 10 ^ 27 * 2 ^ d_e v))
|}.

#[export] Instance whole_units_spec : AmtFloatSpec.
Proof.
  split.
  - intros asset amount _. split; [split; cbn; lia | cbn; lia].
  - intros asset v _. cbn. destruct (_ <? 0); lia.
Qed.

Definition demo_buyer_terms : Terms :=
  mkTerms CC_TYPE_XCX_MINING_BUY [1] 1718470000 0 XREQ_BLOCKCHAIN_BCH [] [] 77 [] 100 5000 (mkD (2 ^ 51) (-60)) zero zero zero 0 0 50 60 60 60 0 0 300 12
    (mkFlags true true false false true false).
Definition demo_buyer : Xmatchreq :=
  mkXmatchreq demo_buyer_terms 7 1718470300 XMATCH_REQ_DISPOSITION_OPEN_PART 0 4000 true.
Definition demo_mining_match (status : Z) (paid mining : double) : Xmatch :=
  mkXmatch CC_TYPE_XCX_MINING_BUY status 5 1718470900 1718470000 1718470000 0 (400 * 10 ^ 27) (mkD (2 ^ 51) (-60)) paid mining true 0 50
    demo_buyer demo_buyer.

Definition demo_mining (testnet : bool) : ExchangeMining :=
  match Mining_Init testnet with Ret g => g | Throw _ => mkMining (mkParams (mkConsts zero zero zero zero zero zero zero 0) 0 0 (mkStats zero zero zero zero zero zero) zero zero zero zero 0) 0 0 end.

Lemma demo_mining_init : Mining_Init true = Ret (demo_mining true).
Proof. vm_compute. reflexivity. Qed.

Lemma demo_minable status paid mining : minable (demo_mining_match status paid mining).
Proof.
  split; [vm_compute; discriminate | | split; [vm_compute; discriminate | reflexivity]].
  assert (N : finite zero) by (split; cbn; lia). split_and!; [exact N | exact N |]. split; cbn; lia.
Qed.

(** A match of 400 may mine 400. *)
Lemma SetMiningAmount_reserves_witness :
  exists g' m', SetMiningAmount (demo_mining true) (demo_mining_match XMATCH_STATUS_ACCEPTED zero zero) = Ret (g', m')
    /\ amount_set (demo_mining true) (demo_mining_match XMATCH_STATUS_ACCEPTED zero zero) g' m'.
Proof.
  destruct (SetMiningAmount_reserves (demo_mining true) (demo_mining_match XMATCH_STATUS_ACCEPTED zero zero)) as [(_ & v & _ & Hbad)|H].
  - exact (Mining_Init_inv true _ demo_mining_init).
  - apply demo_minable.
  - intros _. split; [reflexivity | discriminate].
  - split; [vm_compute; discriminate|]. split; [split; [discriminate | reflexivity]|]. split; [vm_compute; discriminate|]. intros _ _. vm_compute. discriminate.
  - destruct Hbad. reflexivity.
  - exact H.
Defined.

(** Five units mined for a match. *)
Definition demo_final : ExchangeMining :=
  match FinalizeMiningAmount (2 ^ 254 - 127) (demo_mining true) (demo_mining_match XMATCH_STATUS_PAID one one) (5 * 10 ^ 27) with
  | Ret (g, _) => g
  | Throw _ => demo_mining true
  end.

Lemma mining_conserved_witness :
  total_mined (saved demo_final) = 5 * 10 ^ 27
  /\ total_mined (saved demo_final) + total_remaining_to_mine (saved demo_final) = TOTAL_TO_MINE.
Proof.
  split; [vm_compute; reflexivity|].
  destruct (mining_conserved (2 ^ 254 - 127) ltac:(vm_compute; reflexivity) true demo_final) as (_ & _ & H & _); [|exact H].
  eapply reach_step; [apply reach_init, demo_mining_init|].
  eapply (step_final _ _ (demo_mining_match XMATCH_STATUS_PAID one one) (5 * 10 ^ 27)); [discriminate|]. vm_compute. reflexivity.
Defined.
