(* ===== verification/Settle.v ===== *)
(** * Settlement of matches (blockchain.cpp)

    What an indelible block does to matches: a payment of the buyer is added to the match
    and settles it when nothing is left to pay, a match past its deadline is settled with
    what was paid, and the amounts of the settlement become new outputs.  The state is the
    tables of matches, the mining parameters, the commitments and the tables that the
    commitments and the outputs are written to. *)
From stdpp Require Import gmap.
From S2P Require Import Prelude Rows Bigint Block ZkHash Merkle Objects Txs UniFloat TxAmount Xmatch MatchTables Mining.

Local Open Scope Z_scope.
Local Open Scope cc_scope.

Definition TX_CC_MINT_EXPONENT : Z := 22.
Definition TX_COMMIT_IV_BITS : Z := 128.

(** The table of outputs; a failure to insert is ignored by the code. *)
Class TxOutputDb (D : Type) := {
  TxOutputInsert : D -> bigint -> Z -> Z -> Z -> Z -> Z -> D;
  g_shutdown : D -> bool
}.

(** [compute_commitment] and [compute_address] of transaction.cpp. *)
Class OutputHashes := {
  compute_commitment : bigint -> Z -> Z -> Z -> Z -> Z -> bigint;
  compute_address : Z -> Z -> Z -> bigint
}.

(** Parameters of the blockchain: of proofs, of the node, the level of the last indelible
    block and the prime of the field of amounts. *)
Class ChainParams := {
  field_prime : Z;
  outvalmin : Z;
  outvalmax : Z;
  donation_per_xcx_pay : Z;
  default_domain : Z;
  blockchain_id : Z;
  last_indelible_level : Z
}.

Record world (D : Type) := mkWorld {
  w_db : D;
  w_commitments : commitments;
  w_matches : match_db;
  w_mining : ExchangeMining
}.
Arguments mkWorld {D} _ _ _ _.
Arguments w_db {D} _.
Arguments w_commitments {D} _.
Arguments w_matches {D} _.
Arguments w_mining {D} _.

Section ops.
Context {D : Type} `{CommitDb D} `{TxOutputDb D} `{OutputHashes} `{ChainParams} `{AmtFloat}.

Definition with_mining (w : world D) (g : ExchangeMining) : world D :=
  mkWorld (w_db w) (w_commitments w) (w_matches w) g.
Definition with_matches (w : world D) (db : match_db) : world D :=
  mkWorld (w_db w) (w_commitments w) db (w_mining w).

(** ** Outputs *)

(** What an output is made of. *)
Record output := mkOutput {
  o_asset : Z; o_amount_fp : Z; o_dest : Z; o_domain : Z; o_paynum : Z;
  o_index : bool; o_no_encrypt : bool
}.

(** One output: its commitment becomes a leaf, and it is listed under its address.  The
    result is an error. *)
Definition create_output (w : world D) (o : output) : bool * world D :=
  let level := last_indelible_level in
  let '(rc, root) := CommitRootsSelectLevel (w_db w) level in
  if negb (rc =? 0) then (true, w)
  else
    let iv := bigint_mask (cr_root root) TX_COMMIT_IV_BITS in
    let commitment := compute_commitment iv (o_dest o) (o_paynum o) (o_domain o) (o_asset o) (o_amount_fp o) in
    let '(commitnum, c) := GetNextCommitnum (w_commitments w) true in
    let '(rc, db) := AddCommitment (w_db w) commitnum commitment in
    if rc then (true, mkWorld db c (w_matches w) (w_mining w))
    else
      let db :=
        if o_index o then
          TxOutputInsert db (compute_address (o_dest o) blockchain_id (o_paynum o))
            (Z.lor (Z.shiftl (o_domain o) 1) (if o_no_encrypt o then 1 else 0)) (o_asset o) (o_amount_fp o) level commitnum
        else db in
      (false, mkWorld db c (w_matches w) (w_mining w)).

(** Outputs until nothing that an output can hold is left; what is left is returned. *)
Fixpoint output_loop (fuel : nat) (w : world D) (total : Z) (asset dest domain paynum outvalmin outvalmax : Z)
    (bindex no_encrypt one_output : bool) : outcome (bool * Z * world D) :=
  if (total =? 0) || g_shutdown (w_db w) then Ret (false, total, w)
  else
    match fuel with
    | O => Throw FuelOut
    | S f =>
        let amount_fp := tx_amount_encode field_prime total false outvalmin outvalmax 3 in
        let amount := tx_amount_decode field_prime amount_fp in
        if amount =? 0 then Ret (false, total, w)
        else
          let '(rc, w) := create_output w (mkOutput asset amount_fp dest domain paynum bindex no_encrypt) in
          if rc then Ret (true, total, w)
          else
            ccassert! amount <=? total in
            let total := fsub field_prime total amount in
            if one_output then Ret (false, total, w)
            else output_loop f w total asset dest domain paynum outvalmin outvalmax bindex no_encrypt one_output
    end.

(** While the total is more than an output can hold, a turn takes the largest amount off it;
    then a turn leaves less than 2^-31 of it. *)
Definition output_fuel (total out_max : Z) : nat := (Z.to_nat (total / ((2 ^ 35 - 1) * 10 ^ Z.min 31 out_max)) + 8)%nat.

Definition out_min (asset : Z) (is_mint : bool) : Z :=
  if is_mint then TX_CC_MINT_EXPONENT else if asset =? 0 then outvalmin else 0.
Definition out_max (asset : Z) (is_mint : bool) : Z :=
  if is_mint then TX_CC_MINT_EXPONENT else if asset =? 0 then outvalmax else UINT32_MAX.

(** An error, what is left of the total, and the new state. *)
Definition CreateTxOutputs (w : world D) (asset total dest domain : Z) (bindex no_encrypt : bool) (paynum : Z)
    (one_output is_mint : bool) : outcome (bool * Z * world D) :=
  ccassert! negb (dest =? 0) in
  output_loop (output_fuel total (out_max asset is_mint)) w total asset dest domain paynum
    (out_min asset is_mint) (out_max asset is_mint) bindex no_encrypt one_output.

(** ** Settling *)

(** The amount of the match, the buyer's part of it and the seller's. *)
Definition ComputeMatchSplit (m : Xmatch) : outcome (Z * Z * Z) :=
  let match_amount := base_amount m in
  if status m =? XMATCH_STATUS_PAID then Ret (match_amount, match_amount, 0)
  else if not_positive (amount_paid m) then Ret (match_amount, 0, match_amount)
  else
    let t := q_terms (xsell m) in
    let! base := asUniFloat (base_asset t) (base_amount m) in
    let! net := Add (amount_paid m) (neg (quote_costs t)) 0 false in
    let! temp := Add base (base_costs t) 0 false in
    let! net := Multiply net temp 0 in
    let! temp := Multiply base (rate m) 0 in
    let! temp := Add temp (neg (quote_costs t)) 0 false in
    let! net := Divide net temp 0 in
    let! net := Add net (neg (base_costs t)) 0 false in
    let net := if not_positive net then zero else net in
    let '(_, buyer) := amount_from_full (base_asset (q_terms (xbuy m))) net in
    let buyer := if match_amount <? buyer then match_amount else buyer in
    Ret (match_amount, buyer, fsub field_prime match_amount buyer).

Definition percent (amount pledge : Z) : Z := fmul field_prime amount pledge / 100.

(** The pledge that the match holds: to the seller when nothing was paid, back to the buyer
    with what is mined when all was paid, and divided like the amount otherwise. *)
Definition settle_pledge (w : world D) (m : Xmatch) (match_amount buyer seller : Z) : outcome (Z * Z * Z * Z) :=
  if match_pledge m =? 0 then Ret (0, 0, buyer, seller)
  else
    let pledge_amount := percent match_amount (match_pledge m) in
    if is_zero (amount_paid m) then Ret (pledge_amount, 0, buyer, fadd field_prime seller pledge_amount)
    else if status m =? XMATCH_STATUS_PAID then
      let! adj := GetAdjustedMiningAmount (w_mining w) m in
      Ret (pledge_amount, adj, fadd field_prime (fadd field_prime buyer pledge_amount) adj, seller)
    else
      let split := fadd field_prime (fmul field_prime seller (match_pledge m)) 99 / 100 in
      let split := if pledge_amount <? split then pledge_amount else split in
      Ret (pledge_amount, 0, fsub field_prime (fadd field_prime buyer pledge_amount) split, fadd field_prime seller split).

(** What the buyer pledged beyond the pledge of the match goes back. *)
Definition revert_pledge (m : Xmatch) (match_amount pledge_amount buyer : Z) : outcome Z :=
  if match_pledge m <? pledge (q_terms (xbuy m)) then
    let buyer_pledge := percent match_amount (pledge (q_terms (xbuy m))) in
    ccassert! pledge_amount <=? buyer_pledge in
    let extra := fsub field_prime buyer_pledge pledge_amount in
    Ret (if extra =? 0 then buyer else fadd field_prime buyer extra)
  else Ret buyer.

(** An error, the donation, the match and the new state; [fault] are failures of the tables
    of matches. *)
Definition SettleMatch (w : world D) (fault : nat -> bool) (m : Xmatch) (donation : Z)
  : outcome (bool * Z * Xmatch * world D) :=
  let! r := ComputeMatchSplit m in
  let '(match_amount, buyer, seller) := r in
  let! g := UpdateMatchStats (w_mining w) m buyer in
  let w := with_mining w g in
  let! r := settle_pledge w m match_amount buyer seller in
  let '(pledge_amount, adj, buyer, seller) := r in
  let! buyer := revert_pledge m match_amount pledge_amount buyer in
  let donation := if status m =? XMATCH_STATUS_PAID then donation_per_xcx_pay else donation in
  let '(donation, buyer) := if buyer <=? donation then (buyer, 0) else (donation, fsub field_prime buyer donation) in
  ccassert! have_matching (xbuy m) in
  ccassert! have_matching (xsell m) in
  let tb := q_terms (xbuy m) in
  let ts := q_terms (xsell m) in
  let! r := CreateTxOutputs w (base_asset tb) buyer (destination tb) default_domain true true 0 true false in
  let '(rc, buyer, w) := r in
  if rc then Ret (true, donation, m, w)
  else
    let seller := fadd field_prime seller buyer in
    let! r := CreateTxOutputs w (base_asset ts) seller (destination ts) default_domain true true 0 true false in
    let '(rc, seller, w) := r in
    if rc then Ret (true, donation, m, w)
    else
      let adj := if adj <? seller then 0 else fsub field_prime adj seller in
      let! r := if status m =? XMATCH_STATUS_PAID then FinalizeMiningAmount field_prime (w_mining w) m adj else Ret (w_mining w, m) in
      let '(g, m) := r in
      let w := with_mining w g in
      let! r := XmatchInsert field_prime (w_matches w) fault m in
      let '(rc, db) := r in
      Ret (negb (rc =? 0), donation, m, with_matches w db).

(** ** Payments and deadlines *)

Definition with_payment (m : Xmatch) (v : double) : Xmatch :=
  mkXmatch (m_type m) (status m) (m_xmatchnum m) (next_deadline m) (m_match_timestamp m) (accept_timestamp m)
    (final_timestamp m) (base_amount m) (rate m) v (mining_amount m) (have_xreqs m) (accept_time m) (match_pledge m)
    (xbuy m) (xsell m).
Definition with_status (m : Xmatch) (st deadline final : Z) : Xmatch :=
  mkXmatch (m_type m) st (m_xmatchnum m) deadline (m_match_timestamp m) (accept_timestamp m)
    final (base_amount m) (rate m) (amount_paid m) (mining_amount m) (have_xreqs m) (accept_time m) (match_pledge m)
    (xbuy m) (xsell m).

(** The number of the match and the amount are the fields of the payment that count.
    [faults i] are the failures of the [i]th access to the tables of matches. *)
Definition ProcessXpayment (w : world D) (faults : nat -> nat -> bool) (blocktime xmatchnum : Z) (foreign_amount : double)
    (donation : Z) : outcome (bool * Z * world D) :=
  if not_positive foreign_amount then Ret (true, donation, w)
  else
    let! r := XmatchSelect field_prime (w_matches w) (faults 0%nat 0%nat) xmatchnum false true true in
    match r with
    | (0, Some m) =>
        if negb ((status m =? XMATCH_STATUS_ACCEPTED) || (status m =? XMATCH_STATUS_PART_PAID_OPEN)) then Ret (false, donation, w)
        else
          let! paid := Add (amount_paid m) foreign_amount 0 false in
          let m := with_payment m paid in
          let! due := AmountLeft m in
          if negb (not_positive due) then
            let m := with_status m XMATCH_STATUS_PART_PAID_OPEN (next_deadline m) (final_timestamp m) in
            let! r := XmatchInsert field_prime (w_matches w) (faults 1%nat) m in
            Ret (negb (fst r =? 0), donation, with_matches w (snd r))
          else
            let m := with_status m XMATCH_STATUS_PAID 0 blocktime in
            let! r := SettleMatch w (faults 1%nat) m donation in
            let '(rc, donation, _, w) := r in
            Ret (rc, donation, w)
    | _ => Ret (true, donation, w)
    end.

(** One turn of the loop: the match that expires, settled; nothing when none is left. *)
Definition expire_one (w : world D) (faults : nat -> nat -> bool) (blocktime : Z) : outcome (option (bool * world D)) :=
  let! r := XmatchSelectNextDeadline field_prime (w_matches w) (faults 0%nat 0%nat) blocktime true true in
  match r with
  | (0, Some m) =>
      ccassert! (status m =? XMATCH_STATUS_ACCEPTED) || (status m =? XMATCH_STATUS_PART_PAID_OPEN) in
      let st := if status m =? XMATCH_STATUS_ACCEPTED then XMATCH_STATUS_UNPAID_EXPIRED else XMATCH_STATUS_PART_PAID_EXPIRED in
      let! r := SettleMatch w (faults 1%nat) (with_status m st 0 blocktime) 0 in
      let '(rc, donation, _, w) := r in
      if rc then Ret (Some (true, w))
      else ccassert! donation =? 0 in Ret (Some (false, w))
  | (rc, _) => if 0 <? rc then Ret None else Ret (Some (true, w))
  end.

Fixpoint expire_loop (fuel : nat) (w : world D) (faults : nat -> nat -> nat -> bool) (blocktime : Z) : outcome (bool * world D) :=
  if g_shutdown (w_db w) then Ret (false, w)
  else
    match fuel with
    | O => Throw FuelOut
    | S f =>
        let! r := expire_one w (faults fuel) blocktime in
        match r with
        | None => Ret (false, w)
        | Some (true, w) => Ret (true, w)
        | Some (false, w) => expire_loop f w faults blocktime
        end
    end.

(** A turn closes one match, so the number of matches is enough. *)
Definition ExpireMatches (w : world D) (faults : nat -> nat -> nat -> bool) (blocktime : Z) : outcome (bool * world D) :=
  expire_loop (S (size (t_matches (w_matches w)))) w faults blocktime.

Definition PruneMatchingReqs (w : world D) (fault : bool) (blocktime : Z) : world D :=
  with_matches w (snd (XmatchingreqPrune (w_matches w) fault blocktime)).
End ops.

(** ** Outputs: nothing is created that was not in the total *)

Section outputs.
Context {D : Type} `{CommitDb D} `{TxOutputDb D} `{OutputHashes} `{ChainParams}.
Hypothesis prime_large : 2 ^ 253 < field_prime.

(** Outputs made one after the other, without an error. *)
Inductive made : world D -> list output -> world D -> Prop :=
| made_nil w : made w [] w
| made_cons w o w1 os w2 : create_output w o = (false, w1) -> made w1 os w2 -> made w (o :: os) w2.

Definition value_of (o : output) : Z := tx_amount_decode field_prime (o_amount_fp o).
Definition value_sum (os : list output) : Z := foldr (fun o acc => value_of o + acc) 0 os.

(** The exponents that bound an amount, as the encoder limits them. *)
Definition low_exp (mn : Z) : Z := Z.min 31 mn.
Definition high_exp (mn mx : Z) : Z := Z.max (Z.min 31 mn) (Z.min 31 mx).

Definition next_value (total mn mx : Z) : Z := tx_amount_decode field_prime (tx_amount_encode field_prime total false mn mx 3).

Lemma next_value_bounds total mn mx : 0 < total < 2 ^ 253 -> 0 <= mn -> 0 <= mx ->
  let d := next_value total mn mx in
  0 <= d <= total /\ (d = 0 <-> total < 10 ^ low_exp mn)
  /\ (total <= cap (high_exp mn mx) -> total - d < 10 ^ low_exp mn \/ (total - d) * 2 ^ 31 < total)
  /\ (cap (high_exp mn mx) < total -> (2 ^ 35 - 1) * 10 ^ Z.min 31 mx <= d).
Proof.
  intros Ht Hmn Hmx. cbv zeta. unfold next_value. rewrite encode_clamp by assumption. fold (high_exp mn mx); fold (low_exp mn).
  assert (Hl : 0 <= low_exp mn <= high_exp mn mx /\ Z.min 31 mx <= high_exp mn mx <= 31) by (unfold low_exp, high_exp; lia).
  destruct Hl as (Hl1 & Hl2 & Hl3).
  destruct (encode_down_bounds field_prime prime_large total (low_exp mn) (high_exp mn mx) ltac:(lia) Hl1 Hl3) as (A & B & C).
  split; [exact A|]. split; [exact B|]. split.
  - intros Hc. destruct (C Hc) as [C1|C1]; [left; exact C1|right]. assert (E35 : 2 ^ 35 = 16 * 2 ^ 31) by reflexivity. cbv zeta in C1. rewrite E35 in C1. lia.
  - intros Hc. rewrite (encode_down_max _ prime_large) by lia. pose proof (Z.pow_le_mono_r 10 (Z.min 31 mx) (high_exp mn mx) ltac:(lia) Hl2).
    pose proof (pow10_pos (Z.min 31 mx) ltac:(lia)). apply Z.mul_le_mono_nonneg; [discriminate | destruct (0 <? high_exp mn mx); lia | lia | lia].
Qed.

(** [n] turns are enough for an amount. *)
Inductive turns (mn mx : Z) : nat -> Z -> Prop :=
| turns_none n : turns mn mx n 0
| turns_small n total : 0 < total < 10 ^ low_exp mn -> turns mn mx (S n) total
| turns_more n total : turns mn mx n (total - next_value total mn mx) -> turns mn mx (S n) total.

Lemma turns_mono mn mx n total : turns mn mx n total -> turns mn mx (S n) total.
Proof. induction 1; [constructor | apply turns_small; assumption | apply turns_more; assumption]. Qed.

Lemma turns_tail mn mx n total : 0 <= mn -> 0 <= mx -> 0 <= total < 2 ^ 253 ->
  total <= cap (high_exp mn mx) -> total < 2 ^ (31 * Z.of_nat n) -> turns mn mx (S n) total.
Proof.
  intros Hmn Hmx. revert total. induction n as [|n IH]; intros total Ht Hc Hn.
  - change (2 ^ (31 * Z.of_nat 0)) with 1 in Hn. replace total with 0 by lia. constructor.
  - destruct (Z.eq_dec total 0) as [->|Hne]; [constructor|].
    destruct (next_value_bounds total mn mx ltac:(lia) Hmn Hmx) as (A & _ & B & _). apply turns_more.
    destruct (B Hc) as [Hs|Hs].
    + destruct (Z.eq_dec (total - next_value total mn mx) 0) as [->|]; [constructor | apply turns_small; lia].
    + apply IH; [lia | lia |]. replace (31 * Z.of_nat (S n)) with (31 + 31 * Z.of_nat n) in Hn by lia.
      rewrite Z.pow_add_r in Hn by lia. lia.
Qed.

Lemma cap_31 e : 0 <= e <= 31 -> cap e < 2 ^ 155.
Proof.
  intros He. pose proof (cap_mono e 31 ltac:(lia)). assert (cap 31 < 2 ^ 155) by (vm_compute; reflexivity). lia.
Qed.

Lemma cap_nonneg e : 0 <= e -> 0 <= cap e.
Proof. intros He. unfold cap. pose proof (pow10_pos e He). destruct (0 <? e); lia. Qed.

Lemma turns_enough mn mx n total : 0 <= mn -> 0 <= mx -> 0 <= total < 2 ^ 253 ->
  total / ((2 ^ 35 - 1) * 10 ^ Z.min 31 mx) <= Z.of_nat n -> turns mn mx (n + 6) total.
Proof.
  intros Hmn Hmx. pose proof (pow10_pos (Z.min 31 mx) ltac:(lia)) as Hp. set (step := (2 ^ 35 - 1) * 10 ^ Z.min 31 mx).
  assert (Hstep : 0 < step) by (unfold step; lia). revert total. induction n as [|n IH]; intros total Ht Hn.
  all: destruct (Z.le_gt_cases total (cap (high_exp mn mx))) as [Hc|Hc].
  - apply turns_tail; try assumption. pose proof (cap_31 (high_exp mn mx) ltac:(unfold high_exp; lia)). change (31 * Z.of_nat 5) with 155. lia.
  - exfalso. pose proof (cap_nonneg (high_exp mn mx) ltac:(unfold high_exp; lia)).
    destruct (next_value_bounds total mn mx ltac:(lia) Hmn Hmx) as (A & _ & _ & B). specialize (B Hc). fold step in B.
    assert (1 <= total / step) by (apply Z.div_le_lower_bound; lia). lia.
  - replace (S n + 6)%nat with (S (S (n + 5))) by lia. apply turns_mono. destruct (Z.eq_dec total 0) as [->|]; [constructor|].
    destruct (next_value_bounds total mn mx ltac:(lia) Hmn Hmx) as (A & _ & B & _).
    apply turns_more. destruct (Z.eq_dec (total - next_value total mn mx) 0) as [->|Hne]; [constructor|].
    replace (n + 5)%nat with (S (n + 4)) by lia. destruct (B Hc) as [Hs|Hs]; [apply turns_small; lia|]. apply turns_tail; try assumption; [lia | lia |].
    pose proof (cap_31 (high_exp mn mx) ltac:(unfold high_exp; lia)). assert (2 ^ 155 = 2 ^ 31 * 2 ^ 124) as E by reflexivity.
    assert (2 ^ 124 <= 2 ^ (31 * Z.of_nat (n + 4))) by (apply Z.pow_le_mono_r; lia). lia.
  - pose proof (cap_nonneg (high_exp mn mx) ltac:(unfold high_exp; lia)).
    destruct (next_value_bounds total mn mx ltac:(lia) Hmn Hmx) as (A & _ & _ & B). specialize (B Hc). fold step in B.
    change (S n + 6)%nat with (S (n + 6)). apply turns_more, IH; [lia|].
    transitivity ((total - step) / step); [apply Z.div_le_mono; lia|]. replace (total - step) with (total + (-1) * step) by lia. rewrite Z.div_add by lia. lia.
Qed.

Definition sent_to (asset dest domain paynum : Z) (o : output) : Prop :=
  o_asset o = asset /\ o_dest o = dest /\ o_domain o = domain /\ o_paynum o = paynum.

(** What making outputs of a total has as its result: the outputs that were made and the
    rest are the total; without an error and a shutdown the rest is below the least
    output, unless only one was to be made; an amount that an output can hold is then lost
    up to 2^-31 of it. *)
Record outputs_result (w : world D) (asset total dest domain paynum mn mx : Z) (one_output : bool)
    (rc : bool) (rest : Z) (w' : world D) (outs : list output) : Prop := {
  or_sum : value_sum outs + rest = total;
  or_rest : 0 <= rest;
  or_positive : Forall (fun o => 0 < value_of o) outs;
  or_sent : Forall (sent_to asset dest domain paynum) outs;
  or_made : exists w1, made w outs w1 /\ if rc then exists o, create_output w1 o = (true, w') else w' = w1;
  or_one : one_output = true -> (length outs <= 1)%nat;
  or_done : rc = false -> g_shutdown (w_db w') = false -> rest < 10 ^ low_exp mn \/ one_output = true /\ length outs = 1%nat;
  or_close : rc = false -> g_shutdown (w_db w') = false -> total <= cap (high_exp mn mx) -> rest < 10 ^ low_exp mn \/ rest * 2 ^ 31 < total
}.

Lemma output_loop_result asset dest domain paynum mn mx bindex noenc one n : 0 <= mn -> 0 <= mx -> forall w total,
  0 <= total < 2 ^ 253 -> turns mn mx n total ->
  exists rc rest w' outs, output_loop n w total asset dest domain paynum mn mx bindex noenc one = Ret (rc, rest, w')
    /\ outputs_result w asset total dest domain paynum mn mx one rc rest w' outs.
Proof.
  intros Hmn Hmx. pose proof (pow10_pos (low_exp mn) ltac:(unfold low_exp; lia)) as Hp.
  assert (Hnone : forall w total rc w', 0 <= total -> (rc = false -> w' = w) -> (rc = true -> exists o, create_output w o = (true, w')) ->
    (rc = false -> g_shutdown (w_db w') = false -> total < 10 ^ low_exp mn) -> outputs_result w asset total dest domain paynum mn mx one rc total w' []).
  { intros w total rc w' Hpos Hf He Hd. split; cbn; [lia | exact Hpos | constructor | constructor | | lia | intros Hrc Hg; left; auto | intros Hrc Hg _; left; auto].
    exists w. split; [constructor | destruct rc; auto]. }
  induction n as [|n IH]; intros w total Ht Hturns; cbn [output_loop].
  all: destruct (Z.eqb_spec total 0) as [Hz|Hnz]; cbn [orb];
    [exists false, total, w, []; split; [reflexivity|]; apply Hnone; [lia | reflexivity | discriminate | lia]|].
  all: destruct (g_shutdown (w_db w)) eqn:Eg;
    [exists false, total, w, []; split; [reflexivity|]; apply Hnone; [lia | reflexivity | discriminate | congruence]|].
  { inversion Hturns; subst; lia. }
  destruct (next_value_bounds total mn mx ltac:(lia) Hmn Hmx) as (Hd & Hd0 & Hclose & _). fold (next_value total mn mx). set (d := next_value total mn mx) in *.
  destruct (Z.eqb_spec d 0) as [Hdz|Hdn].
  { exists false, total, w, []. split; [reflexivity|]. apply Hnone; [lia | reflexivity | discriminate | intros _ _; apply Hd0, Hdz]. }
  set (o := mkOutput _ _ _ _ _ _ _). destruct (create_output w o) as [rc w1] eqn:Eo.
  assert (Hsent : sent_to asset dest domain paynum o) by (repeat split).
  destruct rc.
  { exists true, total, w1, []. split; [reflexivity|]. apply Hnone; [lia | discriminate | intros _; exists o; exact Eo | discriminate]. }
  rewrite (proj2 (Z.leb_le d total)) by lia. unfold fsub. rewrite Z.mod_small by lia.
  assert (Hval : value_of o = d) by reflexivity.
  destruct one.
  - exists false, (total - d), w1, [o]. split; [reflexivity|]. split; cbn.
    + rewrite Hval. lia.
    + lia.
    + constructor; [lia | constructor].
    + constructor; [exact Hsent | constructor].
    + exists w1. split; [econstructor; [exact Eo | constructor] | reflexivity].
    + lia.
    + intros _ _. right. split; reflexivity.
    + intros _ _. exact Hclose.
  - assert (Htt : turns mn mx n (total - d)) by (inversion Hturns; subst; [lia | exfalso; apply Hdn, Hd0; lia | assumption]).
    destruct (IH w1 (total - d) ltac:(lia) Htt) as (rc & rest & w' & outs & -> & [R1 R2 R3 R4 (w2 & R5 & R5') R6 R7 _]).
    assert (Hlow : rc = false -> g_shutdown (w_db w') = false -> rest < 10 ^ low_exp mn) by (intros Hrc Hg; destruct (R7 Hrc Hg) as [R|[R _]]; [exact R | discriminate]).
    exists rc, rest, w', (o :: outs). split; [reflexivity|]. split; cbn.
    + change (value_of o + value_sum outs + rest = total). rewrite Hval. lia.
    + exact R2.
    + constructor; [lia | exact R3].
    + constructor; [exact Hsent | exact R4].
    + exists w2. split; [econstructor; [exact Eo | exact R5] | exact R5'].
    + discriminate.
    + intros Hrc Hg. left. exact (Hlow Hrc Hg).
    + intros Hrc Hg _. left. exact (Hlow Hrc Hg).
Qed.

Lemma out_exps_nonneg asset is_mint : 0 <= outvalmin -> 0 <= outvalmax -> 0 <= out_min asset is_mint /\ 0 <= out_max asset is_mint.
Proof. intros Hn Hx. unfold out_min, out_max. change UINT32_MAX with 4294967295. change TX_CC_MINT_EXPONENT with 22. destruct is_mint, (asset =? 0); lia. Qed.

Lemma CreateTxOutputs_result w asset total dest domain bindex noenc paynum one is_mint :
  0 <= outvalmin -> 0 <= outvalmax -> 0 <= total < 2 ^ 253 -> dest <> 0 ->
  exists rc rest w' outs, CreateTxOutputs w asset total dest domain bindex noenc paynum one is_mint = Ret (rc, rest, w')
    /\ outputs_result w asset total dest domain paynum (out_min asset is_mint) (out_max asset is_mint) one rc rest w' outs.
Proof.
  intros Hn Hx Ht Hd. destruct (out_exps_nonneg asset is_mint Hn Hx) as [Hmin Hmax]. unfold CreateTxOutputs.
  rewrite (proj2 (Z.eqb_neq dest 0)) by exact Hd. cbn [negb]. apply output_loop_result; try assumption.
  assert (Hp : 1 <= 10 ^ Z.min 31 (out_max asset is_mint)) by (apply pow10_pos; lia). unfold output_fuel.
  set (k := Z.to_nat _). replace (k + 8)%nat with (S (S (k + 6))) by lia.
  apply turns_mono, turns_mono, turns_enough; try assumption. unfold k. rewrite Z2Nat.id; [lia|]. apply Z.div_pos; lia.
Qed.

(** Making outputs changes neither the matches nor the mining. *)
Lemma create_output_frame w o rc w' : create_output w o = (rc, w') -> w_matches w' = w_matches w /\ w_mining w' = w_mining w.
Proof.
  unfold create_output. destruct (CommitRootsSelectLevel _ _) as [rc1 root]. destruct (negb (rc1 =? 0)); [intros [= <- <-]; split; reflexivity|].
  destruct (GetNextCommitnum _ _) as [num c]. destruct (AddCommitment _ _ _) as [rc2 db]. destruct rc2; intros [= <- <-]; split; reflexivity.
Qed.

Lemma made_frame w os w' : made w os w' -> w_matches w' = w_matches w /\ w_mining w' = w_mining w.
Proof.
  induction 1 as [|w o w1 os w2 Ho _ [IH1 IH2]]; [split; reflexivity|]. destruct (create_output_frame _ _ _ _ Ho) as [F1 F2].
  rewrite IH1, IH2. split; assumption.
Qed.

Lemma result_frame w asset total dest domain paynum mn mx one rc rest w' outs :
  outputs_result w asset total dest domain paynum mn mx one rc rest w' outs -> w_matches w' = w_matches w /\ w_mining w' = w_mining w.
Proof.
  intros [_ _ _ _ (w1 & Hm & Hw) _ _ _]. destruct (made_frame _ _ _ Hm) as [F1 F2]. destruct rc; [|subst; split; assumption].
  destruct Hw as [o Ho]. destruct (create_output_frame _ _ _ _ Ho) as [-> ->]. split; assumption.
Qed.

(** C22. Outputs are made of a total without a loss or a gain, whatever fails and even when
    the node shuts down: what the outputs hold and the rest that is returned add up to
    the total; the loop ends, and when all goes well the rest is less than the least
    amount that an output can hold, unless a single output was asked for. *)
Theorem CreateTxOutputs_conserves w asset total dest domain bindex noenc paynum one is_mint :
  0 <= outvalmin -> 0 <= outvalmax -> 0 <= total < 2 ^ 253 -> dest <> 0 ->
  exists rc rest w' outs, CreateTxOutputs w asset total dest domain bindex noenc paynum one is_mint = Ret (rc, rest, w')
    /\ outputs_result w asset total dest domain paynum (out_min asset is_mint) (out_max asset is_mint) one rc rest w' outs
    /\ w_matches w' = w_matches w /\ w_mining w' = w_mining w.
Proof.
  intros Hn Hx Ht Hd. destruct (CreateTxOutputs_result w asset total dest domain bindex noenc paynum one is_mint Hn Hx Ht Hd) as (rc & rest & w' & outs & E & R).
  exists rc, rest, w', outs. split; [exact E|]. split; [exact R | exact (result_frame _ _ _ _ _ _ _ _ _ _ _ _ _ R)].
Qed.
End outputs.
