(* ===== verification/Settlement.v ===== *)
(** * Properties of settlement (blockchain.cpp)

    Amounts are conserved when a match is settled; the tables of matches, the requests
    that they need and the mining parameters stay consistent when matches are paid and
    expire; the loop that expires matches ends, and leaves none that is past its deadline;
    a match is settled at most once. *)
From stdpp Require Import gmap.
From S2P Require Import Prelude Rows Bigint Block ZkHash Merkle Objects Txs UniFloat TxAmount Xmatch MatchTables Mining Settle.

Local Open Scope Z_scope.
Local Open Scope cc_scope.

(** ** Settling: what is locked is paid out *)

Section settling.
Context {D : Type} `{CommitDb D} `{TxOutputDb D} `{OutputHashes} `{ChainParams} `{AF : AmtFloat} {AS : AmtFloatSpec}.
Hypothesis prime_large : 2 ^ 253 < field_prime.
Hypothesis outval_nonneg : 0 <= outvalmin /\ 0 <= outvalmax.
Hypothesis donation_range : 0 <= donation_per_xcx_pay.

(** What a match of the tables has: amounts within their widths, portable floats, requests
    with destinations, and a pledge of the buyer that is not below that of the match. *)
Record settleable (m : Xmatch) : Prop := {
  st_base : 0 <= base_amount m < 2 ^ 128;
  st_pledges : 0 <= match_pledge m <= pledge (q_terms (xbuy m)) /\ pledge (q_terms (xbuy m)) < 2 ^ 32;
  st_paid : nonneg (amount_paid m);
  st_rate : finite (rate m);
  st_mining : nonneg (mining_amount m);
  st_form : fst (amount_from_full MINED_ASSET (mining_amount m)) = 0;
  st_costs : finite (base_costs (q_terms (xsell m))) /\ finite (quote_costs (q_terms (xsell m)));
  st_buy : have_matching (xbuy m) = true /\ destination (q_terms (xbuy m)) <> 0;
  st_sell : have_matching (xsell m) = true /\ destination (q_terms (xsell m)) <> 0
}.

Lemma fsmall x : 0 <= x < 2 ^ 253 -> x mod field_prime = x.
Proof. intros Hx. apply Z.mod_small. lia. Qed.

Lemma percent_value amount p : 0 <= amount < 2 ^ 128 -> 0 <= p < 2 ^ 32 -> percent amount p = amount * p / 100 /\ 0 <= percent amount p < 2 ^ 160.
Proof.
  intros Ha Hp. assert (0 <= amount * p < 2 ^ 160) by (change (2 ^ 160) with (2 ^ 128 * 2 ^ 32); nia).
  unfold percent, fmul. rewrite fsmall by lia. split; [reflexivity|]. split; [apply Z.div_pos; lia|]. apply Z.div_lt_upper_bound; lia.
Qed.

Lemma nonneg_zero : nonneg zero.
Proof. apply nonneg_const; lia. Qed.

Lemma ComputeMatchSplit_parts m : settleable m ->
  exists buyer seller, ComputeMatchSplit m = Ret (base_amount m, buyer, seller) /\ 0 <= buyer /\ 0 <= seller /\ buyer + seller = base_amount m.
Proof.
  intros [Hb _ Hp Hr _ _ [Hc1 Hc2] _ _]. unfold ComputeMatchSplit. destruct (status m =? _); [exists (base_amount m), 0; split; [reflexivity | lia]|].
  destruct (not_positive _); [exists 0, (base_amount m); split; [reflexivity | lia]|].
  destruct (asUniFloat_nn (base_asset (q_terms (xsell m))) (base_amount m) ltac:(lia)) as (base & -> & Fb & _). cbn [outcome_bind].
  pose proof (neg_finite _ Hc1) as Hn1. pose proof (neg_finite _ Hc2) as Hn2.
  destruct (Add_returns (amount_paid m) _ 0 false (proj1 Hp) Hn2) as (v1 & -> & F1). cbn [outcome_bind].
  destruct (Add_returns base _ 0 false Fb Hc1) as (v2 & -> & F2). cbn [outcome_bind].
  destruct (Multiply_returns v1 v2 0 F1 F2) as (v3 & -> & F3). cbn [outcome_bind].
  destruct (Multiply_returns base (rate m) 0 Fb Hr) as (v4 & -> & F4). cbn [outcome_bind].
  destruct (Add_returns v4 _ 0 false F4 Hn2) as (v5 & -> & F5). cbn [outcome_bind].
  destruct (Divide_returns v3 v5 0 F3 F5) as (v6 & -> & F6). cbn [outcome_bind].
  destruct (Add_returns v6 _ 0 false F6 Hn1) as (v7 & -> & F7). cbn [outcome_bind].
  set (net := if not_positive v7 then zero else v7).
  assert (Hnet : nonneg net) by (unfold net; destruct (not_positive v7) eqn:E; [apply nonneg_zero | apply positive_nonneg; assumption]).
  pose proof (amount_from_full_nonneg (base_asset (q_terms (xbuy m))) net Hnet) as Ha. destruct (amount_from_full _ net) as [rc amount]. cbn [snd] in Ha.
  set (buyer := if base_amount m <? amount then base_amount m else amount).
  assert (0 <= buyer <= base_amount m) by (unfold buyer; destruct (Z.ltb_spec (base_amount m) amount); lia).
  exists buyer, (base_amount m - buyer). unfold fsub. rewrite fsmall by lia. split; [reflexivity | lia].
Qed.

(** Amounts that are not negative. *)
Lemma settle_pledge_parts (w : world D) m buyer seller : settleable m -> mining_inv (w_mining w) ->
  0 <= buyer -> 0 <= seller -> buyer + seller = base_amount m ->
  exists adj buyer' seller', settle_pledge w m (base_amount m) buyer seller = Ret (percent (base_amount m) (match_pledge m), adj, buyer', seller')
    /\ 0 <= buyer' /\ 0 <= seller' /\ 0 <= adj <= total_remaining_to_mine (saved (w_mining w))
    /\ buyer' + seller' = base_amount m + percent (base_amount m) (match_pledge m) + adj
    /\ (adj <> 0 -> status m = XMATCH_STATUS_PAID /\ is_zero (mining_amount m) = false).
Proof.
  intros Hm Hg Hbuyer Hsell Hsum. pose proof Hg as ([_ _ _ Hmined Hrem Htot _] & _). destruct Hm as [Hb [Hpl Hpl2] _ _ Hmn Hform _ _ _].
  destruct (percent_value (base_amount m) (match_pledge m) Hb ltac:(lia)) as [_ Hpr]. change TOTAL_TO_MINE with 2000000000000000000000000000000000000 in Htot.
  unfold settle_pledge. destruct (Z.eqb_spec (match_pledge m) 0) as [E|Hne].
  { exists 0, buyer, seller. rewrite E. change (percent (base_amount m) 0) with (fmul field_prime (base_amount m) 0 / 100). unfold fmul. rewrite Z.mul_0_r, Z.mod_0_l by lia.
    split; [reflexivity|]. change (0 / 100) with 0. split_and!; lia. }
  set (pa := percent (base_amount m) (match_pledge m)) in *. unfold fadd, fsub, fmul.
  destruct (is_zero (amount_paid m)); [exists 0, buyer, (seller + pa); rewrite fsmall by lia; split; [reflexivity|]; split_and!; lia|].
  destruct (Z.eqb_spec (status m) XMATCH_STATUS_PAID) as [Est|Hst].
  - assert (exists adj, GetAdjustedMiningAmount (w_mining w) m = Ret adj /\ (adj <> 0 -> is_zero (mining_amount m) = false)) as (adj & Ea & Hz).
    { unfold GetAdjustedMiningAmount. destruct (is_zero (mining_amount m)); [exists 0; split; [reflexivity | lia]|]. rewrite Est, Z.eqb_refl.
      destruct (amount_from_full MINED_ASSET (mining_amount m)) as [rc a]. cbn [fst] in Hform. rewrite Hform. cbn [Z.eqb]. eauto. }
    rewrite Ea. cbn [outcome_bind]. pose proof (GetAdjusted_bounds _ m adj Hg Hmn Ea) as Hadj.
    exists adj, (buyer + pa + adj), seller. rewrite !(fsmall (buyer + pa)), fsmall by lia. split; [reflexivity|]. split_and!; try lia. intros Hna. split; [exact Est | apply Hz, Hna].
  - set (split := ((seller * match_pledge m) mod field_prime + 99) mod field_prime / 100).
    assert (Hsp : 0 <= seller * match_pledge m < 2 ^ 160) by (change (2 ^ 160) with (2 ^ 128 * 2 ^ 32); nia).
    assert (Hsplit : 0 <= split) by (unfold split; rewrite (fsmall (seller * _)), fsmall by lia; apply Z.div_pos; lia).
    set (sp := if pa <? split then pa else split). assert (0 <= sp <= pa) by (unfold sp; destruct (Z.ltb_spec pa split); lia).
    exists 0, (buyer + pa - sp), (seller + sp). rewrite (fsmall (buyer + pa)), !fsmall by lia. split; [reflexivity|]. split_and!; lia.
Qed.

Lemma revert_pledge_value m buyer : settleable m -> 0 <= buyer < 2 ^ 200 ->
  revert_pledge m (base_amount m) (percent (base_amount m) (match_pledge m)) buyer
  = Ret (buyer + (percent (base_amount m) (pledge (q_terms (xbuy m))) - percent (base_amount m) (match_pledge m)))
  /\ percent (base_amount m) (match_pledge m) <= percent (base_amount m) (pledge (q_terms (xbuy m))).
Proof.
  intros [Hb [Hpl Hpl2] _ _ _ _ _ _ _] Hbuyer. destruct (percent_value (base_amount m) (match_pledge m) Hb ltac:(lia)) as [E1 R1].
  destruct (percent_value (base_amount m) (pledge (q_terms (xbuy m))) Hb ltac:(lia)) as [E2 R2].
  assert (Hle : percent (base_amount m) (match_pledge m) <= percent (base_amount m) (pledge (q_terms (xbuy m)))) by (rewrite E1, E2; apply Z.div_le_mono; nia).
  split; [|exact Hle]. unfold revert_pledge. destruct (Z.ltb_spec (match_pledge m) (pledge (q_terms (xbuy m)))) as [Hlt|Hge].
  - rewrite (proj2 (Z.leb_le _ _)) by exact Hle. unfold fsub, fadd. rewrite !(fsmall (_ - _)) by lia.
    destruct (Z.eqb_spec (percent (base_amount m) (pledge (q_terms (xbuy m))) - percent (base_amount m) (match_pledge m)) 0) as [Hz|Hn]; [f_equal; lia|].
    rewrite fsmall by lia. reflexivity.
  - assert (match_pledge m = pledge (q_terms (xbuy m))) as -> by lia. f_equal. lia.
Qed.

(** The amount of the match and the pledge of the buyer. *)
Definition locked (m : Xmatch) : Z := base_amount m + percent (base_amount m) (pledge (q_terms (xbuy m))).

(** A match settled without an error: what the outputs hold, the donation and what is lost
    because an output cannot hold it are the locked amounts and what was mined. *)
Record settled (w : world D) (fault : nat -> bool) (m : Xmatch) (donation d : Z) (m' : Xmatch) (w' : world D)
    (outs_b outs_s : list output) (adj lost : Z) : Prop := {
  se_sum : value_sum outs_b + value_sum outs_s + d + lost = locked m + (total_mined (saved (w_mining w')) - total_mined (saved (w_mining w)));
  se_mined : total_mined (saved (w_mining w)) <= total_mined (saved (w_mining w')) <= total_mined (saved (w_mining w)) + adj;
  se_adj : adj <> 0 -> status m = XMATCH_STATUS_PAID;
  se_lost : 0 <= lost;
  se_donation : 0 <= d /\ d <= (if status m =? XMATCH_STATUS_PAID then donation_per_xcx_pay else donation);
  se_buyer : Forall (sent_to (base_asset (q_terms (xbuy m))) (destination (q_terms (xbuy m))) default_domain 0) outs_b;
  se_seller : Forall (sent_to (base_asset (q_terms (xsell m))) (destination (q_terms (xsell m))) default_domain 0) outs_s;
  se_count : (length outs_b <= 1)%nat /\ (length outs_s <= 1)%nat;
  se_made : exists g w2, made (with_mining w g) (outs_b ++ outs_s) w2 /\ w_db w' = w_db w2 /\ w_commitments w' = w_commitments w2;
  se_close : (forall db, g_shutdown db = false) -> 
    locked m + adj <= cap (high_exp (out_min (base_asset (q_terms (xsell m))) false) (out_max (base_asset (q_terms (xsell m))) false)) ->
    lost < 10 ^ low_exp (out_min (base_asset (q_terms (xsell m))) false) \/ lost * 2 ^ 31 < locked m + adj;
  se_inv : mining_inv (w_mining w');
  se_match : m' = m \/ exists v, nonneg v /\ m' = with_mining_amount m v;
  se_insert : XmatchInsert field_prime (w_matches w) fault m' = Ret (0, w_matches w')
}.

Lemma made_app w1 os1 w2 os2 w3 : made w1 os1 w2 -> made w2 os2 w3 -> made w1 (os1 ++ os2) w3.
Proof. induction 1 as [|w o w' os w'' Ho Hm IH]; intros Hm2; [exact Hm2|]. cbn. econstructor; [exact Ho | auto]. Qed.

Lemma value_sum_nonneg os : 0 <= value_sum os.
Proof.
  induction os as [|o os IH]; cbn; [lia|]. assert (0 <= value_of o) by (unfold value_of, tx_amount_decode, fmul; apply Z.mod_pos_bound; lia). unfold value_sum in IH. lia.
Qed.

(** The donation comes out of the buyer's part. *)
Lemma donation_split buyer don : 0 <= buyer < 2 ^ 253 -> 0 <= don ->
  exists d b, (if buyer <=? don then (buyer, 0) else (don, fsub field_prime buyer don)) = (d, b) /\ 0 <= d <= don /\ 0 <= b /\ d + b = buyer.
Proof.
  intros Hb Hd. destruct (Z.leb_spec buyer don); [exists buyer, 0; split; [reflexivity | lia]|].
  exists don, (buyer - don). unfold fsub. rewrite fsmall by lia. split; [reflexivity | lia].
Qed.

(** What is mined in the end: the residual is taken off it. *)
Lemma finalize_parts g m adj : mining_inv g -> settleable m -> 0 <= adj <= total_remaining_to_mine (saved g) ->
  (adj <> 0 -> status m = XMATCH_STATUS_PAID /\ is_zero (mining_amount m) = false) ->
  exists g' m', (if status m =? XMATCH_STATUS_PAID then FinalizeMiningAmount field_prime g m adj else Ret (g, m)) = Ret (g', m')
    /\ mining_inv g' /\ total_mined (saved g') = total_mined (saved g) + adj /\ (m' = m \/ exists v, nonneg v /\ m' = with_mining_amount m v).
Proof.
  intros Hg Hm Hadj Hpaid. assert (Hid : adj = 0 -> exists g' m', Ret (g, m) = Ret (g', m')
    /\ mining_inv g' /\ total_mined (saved g') = total_mined (saved g) + adj /\ (m' = m \/ exists v, nonneg v /\ m' = with_mining_amount m v))
    by (intros ->; exists g, m; split; [reflexivity|]; split; [exact Hg|]; split; [lia | left; reflexivity]).
  destruct (Z.eqb_spec (status m) XMATCH_STATUS_PAID) as [Est|Hn]; [|apply Hid; destruct (Z.eq_dec adj 0); [assumption | destruct (Hpaid ltac:(assumption)); contradiction]].
  destruct (is_zero (mining_amount m)) eqn:Ez.
  { unfold FinalizeMiningAmount. rewrite Ez. apply Hid. destruct (Z.eq_dec adj 0); [assumption | destruct (Hpaid ltac:(assumption)); discriminate]. }
  assert (Hbig : TOTAL_TO_MINE < field_prime) by (assert (TOTAL_TO_MINE < 2 ^ 253) by reflexivity; lia).
  destruct (asUniFloat_nn MINED_ASSET adj ltac:(lia)) as (v & Ev & Nv).
  assert (exists r, FinalizeMiningAmount field_prime g m adj = Ret r /\ snd r = with_mining_amount m v) as ([g' m'] & Ef & Em).
  { unfold FinalizeMiningAmount. rewrite Ez, Est, Z.eqb_refl, Ev. cbn [outcome_bind]. cbv zeta. change (saved (count_update g)) with (saved g).
    rewrite (proj2 (Z.leb_le _ _)) by lia. eexists. split; reflexivity. }
  cbn [snd] in Em. exists g', m'. split; [exact Ef|]. destruct (Finalize_moves field_prime Hbig g m adj g' m' Hg ltac:(lia) Ef) as [Hi Hmv].
  rewrite Ez in Hmv. destruct Hmv as [Hmv _]. split; [exact Hi|]. split; [exact Hmv | right; exists v; split; [exact Nv | exact Em]].
Qed.

(** The amounts to pay out, before the outputs are made. *)
Record payable (w : world D) (m : Xmatch) (donation : Z) (g : ExchangeMining) (adj d buyer seller : Z) : Prop := {
  pa_stats : only_stats (saved (w_mining w)) (saved g);
  pa_inv : mining_inv g;
  pa_adj : 0 <= adj <= total_remaining_to_mine (saved g);
  pa_paid : adj <> 0 -> status m = XMATCH_STATUS_PAID /\ is_zero (mining_amount m) = false;
  pa_parts : 0 <= buyer /\ 0 <= seller;
  pa_donation : 0 <= d <= (if status m =? XMATCH_STATUS_PAID then donation_per_xcx_pay else donation);
  pa_sum : buyer + seller + d = locked m + adj
}.

(** [SettleMatch] up to the outputs. *)
Lemma SettleMatch_payable w fault m donation : settleable m -> mining_inv (w_mining w) -> 0 <= donation ->
  exists g adj d buyer seller, payable w m donation g adj d buyer seller
  /\ SettleMatch w fault m donation =
     (let! r := CreateTxOutputs (with_mining w g) (base_asset (q_terms (xbuy m))) buyer (destination (q_terms (xbuy m))) default_domain true true 0 true false in
      let '(rc, buyer, w) := r in
      if rc then Ret (true, d, m, w)
      else
        let! r := CreateTxOutputs w (base_asset (q_terms (xsell m))) (fadd field_prime seller buyer) (destination (q_terms (xsell m))) default_domain true true 0 true false in
        let '(rc, seller, w) := r in
        if rc then Ret (true, d, m, w)
        else
          let adj := if adj <? seller then 0 else fsub field_prime adj seller in
          let! r := if status m =? XMATCH_STATUS_PAID then FinalizeMiningAmount field_prime (w_mining w) m adj else Ret (w_mining w, m) in
          let '(g, m) := r in
          let w := with_mining w g in
          let! r := XmatchInsert field_prime (w_matches w) fault m in
          let '(rc, db) := r in
          Ret (negb (rc =? 0), d, m, with_matches w db)).
Proof.
  intros Hm Hg Hdon. unfold SettleMatch. destruct (ComputeMatchSplit_parts m Hm) as (b1 & s1 & -> & Hb1 & Hs1 & Hsum1). cbn [outcome_bind].
  destruct (UpdateMatchStats_ok (w_mining w) m b1 Hg (st_paid m Hm) Hb1) as (g & -> & Hgi & Hgs). cbn [outcome_bind]. cbv zeta.
  destruct (settle_pledge_parts (with_mining w g) m b1 s1 Hm Hgi Hb1 Hs1 Hsum1) as (adj & b2 & s2 & -> & Hb2 & Hs2 & Hadj & Hsum2 & Hpaid). cbn [outcome_bind].
  pose proof (st_base m Hm) as Hba. pose proof (st_pledges m Hm) as [Hpl Hpl2]. cbn [with_mining w_mining] in Hadj.
  destruct (percent_value (base_amount m) (match_pledge m) Hba ltac:(lia)) as [_ Hp1]. destruct (percent_value (base_amount m) (pledge (q_terms (xbuy m))) Hba ltac:(lia)) as [_ Hp2].
  pose proof Hgi as ([_ _ _ Hmin Hrem Htot _] & _). change TOTAL_TO_MINE with 2000000000000000000000000000000000000 in Htot.
  destruct (revert_pledge_value m b2 Hm ltac:(lia)) as [-> Hle]. cbn [outcome_bind].
  set (b3 := b2 + _). assert (0 <= b3 < 2 ^ 253) by (unfold b3; lia). set (don := if status m =? XMATCH_STATUS_PAID then donation_per_xcx_pay else donation).
  assert (Hdon2 : 0 <= don) by (unfold don; destruct (_ =? _); assumption).
  destruct (donation_split b3 don ltac:(lia) Hdon2) as (d & b4 & -> & Hd & Hb4 & Hsum4).
  destruct (st_buy m Hm) as [-> _]. destruct (st_sell m Hm) as [-> _]. exists g, adj, d, b4, s2. split; [|reflexivity].
  split; try assumption; [split; assumption|]. unfold locked, b3 in *. lia.
Qed.

Lemma SettleMatch_result w fault m donation : settleable m -> mining_inv (w_mining w) -> 0 <= donation ->
  exists rc d m' w', SettleMatch w fault m donation = Ret (rc, d, m', w')
    /\ (rc = false -> exists outs_b outs_s adj lost, settled w fault m donation d m' w' outs_b outs_s adj lost)
    /\ ((forall (w : world D) o, fst (create_output w o) = false) ->
        (forall m', m' = m \/ (exists v, nonneg v /\ m' = with_mining_amount m v) -> exists db, XmatchInsert field_prime (w_matches w) fault m' = Ret (0, db)) -> rc = false).
Proof.
  intros Hm Hg Hdon. destruct (SettleMatch_payable w fault m donation Hm Hg Hdon) as (g & adj & d & buyer & seller & [[st Hst] Hgi Hadj Hpaid [Hb Hs] Hd Hsum] & ->).
  destruct outval_nonneg as [Hmn Hmx]. pose proof (st_base m Hm) as Hba. pose proof (st_pledges m Hm) as [Hpl Hpl2].
  destruct (percent_value (base_amount m) (pledge (q_terms (xbuy m))) Hba ltac:(lia)) as [_ Hp2].
  pose proof Hgi as ([_ _ _ Hmin Hrem Htot _] & _). change TOTAL_TO_MINE with 2000000000000000000000000000000000000 in Htot.
  assert (Hlk : 0 <= locked m + adj < 2 ^ 200) by (unfold locked; lia).
  destruct (CreateTxOutputs_result prime_large (with_mining w g) (base_asset (q_terms (xbuy m))) buyer (destination (q_terms (xbuy m))) default_domain true true 0 true false
    Hmn Hmx ltac:(lia) (proj2 (st_buy m Hm))) as (rc1 & rest1 & w1 & outs1 & -> & R1). cbn [outcome_bind].
  assert (Herr : forall w1 w2 a t e p mn mx r os, outputs_result w1 a t e default_domain p mn mx true true r w2 os -> (forall (w : world D) o, fst (create_output w o) = false) -> False).
  { intros ? ? ? ? ? ? ? ? ? ? [_ _ _ _ (wx & _ & o & Ho) _ _ _] Hok. specialize (Hok wx o). rewrite Ho in Hok. discriminate. }
  destruct rc1; [exists true, d, m, w1; split; [reflexivity|]; split; [discriminate | intros Hok _; destruct (Herr _ _ _ _ _ _ _ _ _ _ R1 Hok)]|]. destruct (result_frame _ _ _ _ _ _ _ _ _ _ _ _ _ R1) as [Hf1 Hf2].
  destruct R1 as [Rsum Rrest _ Rsent (wm & Rmade & ->) Rone _ _]. pose proof (value_sum_nonneg outs1) as Hv1.
  unfold fadd. rewrite fsmall by lia.
  destruct (CreateTxOutputs_result prime_large wm (base_asset (q_terms (xsell m))) (seller + rest1) (destination (q_terms (xsell m))) default_domain true true 0 true false
    Hmn Hmx ltac:(lia) (proj2 (st_sell m Hm))) as (rc2 & rest2 & w2 & outs2 & -> & R2). cbn [outcome_bind].
  destruct rc2; [exists true, d, m, w2; split; [reflexivity|]; split; [discriminate | intros Hok _; destruct (Herr _ _ _ _ _ _ _ _ _ _ R2 Hok)]|]. destruct (result_frame _ _ _ _ _ _ _ _ _ _ _ _ _ R2) as [Hf3 Hf4].
  destruct R2 as [Qsum Qrest _ Qsent (wn & Qmade & ->) Qone _ Qclose]. pose proof (value_sum_nonneg outs2) as Hv2.
  assert (Hmw : w_mining wn = g) by (rewrite Hf4, Hf2; reflexivity). rewrite Hmw.
  set (mined := if adj <? rest2 then 0 else fsub field_prime adj rest2).
  assert (Hmined : 0 <= mined <= adj /\ mined = Z.max 0 (adj - rest2)) by (unfold mined, fsub; destruct (Z.ltb_spec adj rest2); [lia | rewrite fsmall by lia; lia]).
  destruct (finalize_parts g m mined Hgi Hm ltac:(lia) ltac:(intros; apply Hpaid; lia)) as (g' & m' & Ef & Hgi' & Htm & Hm'). cbv zeta. rewrite Ef. cbn [outcome_bind].
  assert (Hbase : base_amount m' = base_amount m) by (destruct Hm' as [->|(v & _ & ->)]; reflexivity).
  assert (exists rc db, XmatchInsert field_prime (w_matches (with_mining wn g')) fault m' = Ret (rc, db)) as (rc & db & Ei).
  { unfold XmatchInsert. rewrite Hbase, (proj2 (Z.leb_le 0 _)), (proj2 (Z.ltb_lt _ _)) by lia. cbn [andb].
    match goal with |- exists rc db, Ret ?x = _ => destruct x as [rc db]; exists rc, db; reflexivity end. }
  rewrite Ei. cbn [outcome_bind]. exists (negb (rc =? 0)), d, m', (with_matches (with_mining wn g') db). split; [reflexivity|].
  split.
  2:{ intros _ Hins. destruct (Hins m' Hm') as [db' Hdb]. cbn [with_mining w_matches] in Ei. rewrite Hf3, Hf1 in Ei. cbn [with_mining w_matches] in Ei.
      rewrite Hdb in Ei. injection Ei as <- _. reflexivity. }
  intros Hrc. apply negb_false_iff, Z.eqb_eq in Hrc. subst rc. exists outs1, outs2, adj, (rest2 - (adj - mined)).
  assert (Htm0 : total_mined (saved g) = total_mined (saved (w_mining w))) by (rewrite Hst; reflexivity).
  cbn [with_matches with_mining w_mining] in *.
  split; cbn [w_mining with_matches with_mining w_db w_commitments w_matches]; try assumption.
  - lia.
  - lia.
  - intros Hn. apply Hpaid, Hn.
  - lia.
  - split; [apply Rone | apply Qone]; reflexivity.
  - exists g, wn. split; [exact (made_app _ _ _ _ _ Rmade Qmade) | split; reflexivity].
  - intros Hnosd Hcap. destruct (Qclose eq_refl (Hnosd _) ltac:(lia)) as [Hq|Hq]; [left | right]; lia.
  - rewrite <- Ei. cbn [with_mining w_matches]. rewrite Hf3, Hf1. reflexivity.
Qed.

(** ** Matches of the tables *)

(** What is kept of the rows of requests, whatever else is written. *)
Definition rows_kept (db db' : match_db) : Prop :=
  (forall k r, t_reqs db !! k = Some r -> exists r', t_reqs db' !! k = Some r' /\ r_pledge r' = r_pledge r)
  /\ (forall k g, t_matching db !! k = Some g -> exists g', t_matching db' !! k = Some g' /\ g_destination g' = g_destination g).

Lemma rows_kept_refl db : rows_kept db db.
Proof. split; eauto. Qed.

Lemma rows_kept_trans db1 db2 db3 : rows_kept db1 db2 -> rows_kept db2 db3 -> rows_kept db1 db3.
Proof.
  intros [A1 A2] [B1 B2]. split.
  - intros k r Hr. destruct (A1 k r Hr) as (r' & Hr' & E). destruct (B1 k r' Hr') as (r'' & Hr'' & E'). exists r''. split; [exact Hr'' | congruence].
  - intros k g Hg. destruct (A2 k g Hg) as (g' & Hg' & E). destruct (B2 k g' Hg') as (g'' & Hg'' & E'). exists g''. split; [exact Hg'' | congruence].
Qed.

Lemma upsert_kept {A B} (f : A -> B) update k new (t : gmap Z A) : (forall old new, f (update old new) = f old) ->
  forall k' a, t !! k' = Some a -> exists a', upsert update k new t !! k' = Some a' /\ f a' = f a.
Proof.
  intros Hf k' a Ha. destruct (decide (k = k')) as [<-|Hne]; [rewrite upsert_lookup, Ha; eauto | rewrite upsert_lookup_ne by exact Hne; eauto].
Qed.

Lemma insert_req_kept db f1 f2 q rc db' : XmatchreqInsertInternal field_prime db f1 f2 q = (rc, db') -> rows_kept db db'.
Proof.
  unfold XmatchreqInsertInternal, XmatchingreqInsertInternal. destruct f1; [intros [= _ <-]; apply rows_kept_refl|].
  set (db1 := mkMatchDb _ _ _). assert (Hk1 : rows_kept db db1) by (split; [apply (upsert_kept r_pledge); reflexivity | eauto]).
  destruct (have_matching q); [|intros [= _ <-]; exact Hk1]. destruct (_ || _); intros [= _ <-]; [exact Hk1|].
  eapply rows_kept_trans; [exact Hk1|]. split; [eauto | apply (upsert_kept g_destination); reflexivity].
Qed.

Lemma Insert_kept db fault m rc db' : XmatchInsert field_prime db fault m = Ret (rc, db') -> rows_kept db db'.
Proof.
  unfold XmatchInsert. destruct (_ && _); [|discriminate]. intros [= Hi]. destruct (fault 0%nat); [injection Hi as _ <-; apply rows_kept_refl|].
  set (db1 := mkMatchDb _ _ _) in Hi. assert (Hk1 : rows_kept db db1) by (split; eauto). destruct (negb (have_xreqs m)); [injection Hi as _ <-; exact Hk1|].
  destruct (XmatchreqInsertInternal _ _ _ _ (xbuy m)) as [rc2 db2] eqn:E2. pose proof (insert_req_kept _ _ _ _ _ _ E2) as Hk2.
  destruct (negb (rc2 =? 0)); [injection Hi as _ <-; exact (rows_kept_trans _ _ _ Hk1 Hk2)|].
  destruct (XmatchreqInsertInternal _ _ _ _ (xsell m)) as [rc3 db3] eqn:E3. pose proof (insert_req_kept _ _ _ _ _ _ E3) as Hk3.
  injection Hi as _ <-. exact (rows_kept_trans _ _ _ Hk1 (rows_kept_trans _ _ _ Hk2 Hk3)).
Qed.

(** A row of a match that can still be paid or expire. *)
Record row_open (db : match_db) (c : match_row) : Prop := {
  op_status : c_status c = XMATCH_STATUS_ACCEPTED \/ c_status c = XMATCH_STATUS_PART_PAID_OPEN;
  op_base : 0 <= c_base c < 2 ^ 128;
  op_paid : 0 <= d_m (c_paid c);
  op_mining : 0 <= d_m (c_mining c);
  op_form : exact_double (c_mining c) /\ fst (amount_from_full MINED_ASSET (c_mining c)) = 0;
  op_pledge : exists r, t_reqs db !! c_buy c = Some r /\ 0 <= c_pledge c <= r_pledge r /\ r_pledge r < 2 ^ 32;
  op_buy : exists g, t_matching db !! c_buy c = Some g /\ g_destination g <> 0;
  op_sell : exists g, t_matching db !! c_sell c = Some g /\ g_destination g <> 0
}.

Definition matches_ok (db : match_db) : Prop :=
  supported db /\ forall n c, t_matches db !! n = Some c -> 0 < c_deadline c -> row_open db c.

Lemma row_open_kept db db' c : rows_kept db db' -> row_open db c -> row_open db' c.
Proof.
  intros [Hr Hg] [H1' H2' H3' H4' H5' (r & Er & Hp) (gb & Eb & Db) (gs & Es & Ds)]. split; try assumption.
  - destruct (Hr _ _ Er) as (r' & Er' & E). exists r'. split; [exact Er' | rewrite E; exact Hp].
  - destruct (Hg _ _ Eb) as (g' & Eg' & E). exists g'. split; [exact Eg' | rewrite E; exact Db].
  - destruct (Hg _ _ Es) as (g' & Eg' & E). exists g'. split; [exact Eg' | rewrite E; exact Ds].
Qed.

(** What the row says is what a match needs to be settled. *)
Lemma read_settleable db n c m : row_open db c -> read_of db n c m -> settleable m.
Proof.
  intros [H1' H2' H3' H4' H5' (r & Er & Hp) (gb & Eb & Db) (gs & Es & Ds)] R. pose proof (ro_finite _ _ _ _ R) as Hf. rewrite !Forall_cons in Hf. destruct Hf as (_ & (_ & _ & Hf1 & Hf2 & _) & _).
  destruct (ro_rate _ _ _ _ R) as [_ Fr]. destruct (ro_paid _ _ _ _ R) as [Ep Fp]. destruct (ro_mining _ _ _ _ R) as [Em Fm]. split.
  - rewrite (ro_base _ _ _ _ R). exact H2'.
  - rewrite (ro_pledge _ _ _ _ R), (ro_pledge_buy _ _ _ _ R), Er. exact Hp.
  - split; [exact Fp | exact (UniFloat_of_nonneg _ _ _ Ep H3')].
  - exact Fr.
  - split; [exact Fm | exact (UniFloat_of_nonneg _ _ _ Em H4')].
  - destruct H5' as [Hex Hform]. unfold exact_double in Hex. rewrite Hex in Em. injection Em as <-. exact Hform.
  - split; [exact Hf1 | exact Hf2].
  - split; [exact (ro_buy_matching _ _ _ _ R) | rewrite (ro_buy_dest _ _ _ _ R), Eb; exact Db].
  - split; [exact (ro_sell_matching _ _ _ _ R) | rewrite (ro_sell_dest _ _ _ _ R), Es; exact Ds].
Qed.

(** A match read from the tables, with another status, payment, mined amount or deadline. *)
Record edited (db : match_db) (n : Z) (c : match_row) (m m' : Xmatch) : Prop := {
  ed_read : read_of db n c m;
  ed_num : m_xmatchnum m' = n;
  ed_base : base_amount m' = c_base c;
  ed_xreqs : have_xreqs m' = true;
  ed_buy : xbuy m' = xbuy m;
  ed_sell : xsell m' = xsell m;
  ed_rate : rate m' = rate m;
  ed_paid : finite (amount_paid m');
  ed_mining : finite (mining_amount m');
  ed_deadline : next_deadline m' = 0 \/ next_deadline m' = c_deadline c
}.

Lemma ready_delete db k d q : req_ready db k d -> delete_time q = default 0 (g_delete <$> t_matching db !! k) -> d <= delete_time q.
Proof. intros (_ & _ & g & Hg & Hd) ->. rewrite Hg. exact Hd. Qed.

Lemma edited_insertable db n c m m' : supported db -> t_matches db !! n = Some c -> 0 < c_deadline c -> edited db n c m m' -> insertable m'.
Proof.
  intros Hs Hc Hd [R En Eb Ex Ebuy Esell Er Fp Fm Ed]. destruct (proj2 Hs n c Hc) as [_ Hr]. destruct (Hr Hd) as [Hrb Hrs].
  pose proof (ro_finite _ _ _ _ R) as Hf. apply Forall_list in Hf. cbn [foldr] in Hf. destruct Hf as (Hfb & Hfs & _).
  split.
  - exact Ex.
  - split; cbn; [rewrite Er; apply R | exact Fp | exact Fm].
  - rewrite Ebuy, (ro_buy _ _ _ _ R). split_and!; [apply Hrb | apply R | exact Hfb].
  - rewrite Esell, (ro_sell _ _ _ _ R). split_and!; [apply Hrs | apply R | exact Hfs].
  - intros Hpos. rewrite Ebuy, Esell. assert (next_deadline m' = c_deadline c) as -> by lia.
    split; [apply (ready_delete db (c_buy c)); [exact Hrb | apply R] | apply (ready_delete db (c_sell c)); [exact Hrs | apply R]].
Qed.

(** Inserting it replaces its row. *)
Lemma edited_insert db n c m m' fault db' : matches_ok db -> t_matches db !! n = Some c -> 0 < c_deadline c -> edited db n c m m' ->
  (0 < next_deadline m' -> row_open db (update_match c (row_of_match m'))) ->
  XmatchInsert field_prime db fault m' = Ret (0, db') ->
  matches_ok db' /\ t_matches db' = <[n := update_match c (row_of_match m')]> (t_matches db).
Proof.
  intros [Hs Ho] Hc Hd He Hopen Hi. pose proof (edited_insertable _ _ _ _ _ Hs Hc Hd He) as Hins. destruct He as [R En Eb Ex Ebuy Esell _ _ _ Ed].
  destruct (Insert_supported field_prime db fault m' db' Hs Hins Hi) as [Hs' Ht].
  { intros c' Hc'. rewrite En, Hc in Hc'. injection Hc' as <-. rewrite Ebuy, Esell. split; symmetry; apply R. }
  unfold upsert in Ht. rewrite En, Hc in Ht. split; [|exact Ht]. split; [exact Hs'|]. pose proof (Insert_kept _ _ _ _ _ Hi) as Hk.
  intros n' c'. rewrite Ht. destruct (decide (n = n')) as [<-|Hne].
  - rewrite lookup_insert_eq. intros [= <-] Hpos. apply (row_open_kept db); [exact Hk | apply Hopen; exact Hpos].
  - rewrite lookup_insert_ne by exact Hne. intros Hc' Hpos. apply (row_open_kept db); [exact Hk | exact (Ho n' c' Hc' Hpos)].
Qed.

(** It works when the tables do. *)
Lemma edited_insert_works db n c m m' fault : (forall i, fault i = false) -> supported db -> t_matches db !! n = Some c -> 0 < c_deadline c -> edited db n c m m' -> 0 <= c_base c < 2 ^ 128 ->
  exists db', XmatchInsert field_prime db fault m' = Ret (0, db').
Proof.
  intros Hno Hs Hc Hd [R _ Eb Ex Ebuy Esell _ _ _ _] Hbase. destruct (proj2 Hs n c Hc) as [_ Hr]. destruct (Hr Hd) as [Hrb Hrs].
  pose proof (ready_delete _ _ _ _ Hrb (ro_buy_delete _ _ _ _ R)). pose proof (ready_delete _ _ _ _ Hrs (ro_sell_delete _ _ _ _ R)).
  unfold XmatchInsert. rewrite Eb, (proj2 (Z.leb_le 0 _)), (proj2 (Z.ltb_lt _ _)) by lia. cbn [andb]. rewrite Ex. cbn [negb].
  unfold XmatchreqInsertInternal, XmatchingreqInsertInternal. rewrite !Hno, Ebuy, Esell, (ro_buy_matching _ _ _ _ R), (ro_sell_matching _ _ _ _ R).
  rewrite !(proj2 (Z.ltb_lt 0 _)) by lia. cbn [negb orb Z.eqb]. eauto.
Qed.

Lemma edited_mining db n c m m' v : edited db n c m m' -> finite v -> edited db n c m (with_mining_amount m' v).
Proof. intros [A1 A2 A3 A4 A5 A6 A7 A8 A9 A10] Hv. split; assumption. Qed.

(** What settling needs of an edited match. *)
Lemma edited_settleable db n c m m' : row_open db c -> edited db n c m m' -> nonneg (amount_paid m') -> mining_amount m' = mining_amount m -> match_pledge m' = match_pledge m -> settleable m'.
Proof.
  intros Ho [R En Eb Ex Ebuy Esell Er Fp Fm Ed] Hp Em Epl. destruct (read_settleable db n c m Ho R) as [S1 S2 S3 S4 S5 S6 S7 S8 S9].
  split; rewrite ?Eb, ?Er, ?Ebuy, ?Esell, ?Em, ?Epl; try assumption. rewrite <- (ro_base _ _ _ _ R). exact S1.
Qed.

Lemma edited_status db n c m st final paid : read_of db n c m -> finite paid -> edited db n c m (with_status (with_payment m paid) st 0 final).
Proof. intros R Hp. split; cbn.
  - exact R.
  - apply (ro_num _ _ _ _ R).
  - apply (ro_base _ _ _ _ R).
  - apply (ro_xreqs _ _ _ _ R).
  - reflexivity.
  - reflexivity.
  - reflexivity.
  - exact Hp.
  - apply (ro_mining _ _ _ _ R).
  - left. reflexivity. Qed.

(** Settling a match of the tables: its row no longer has a deadline and has the new status;
    the other rows stay, and the tables stay consistent. *)
Lemma settle_row w n c m m' fault donation :
  matches_ok (w_matches w) -> mining_inv (w_mining w) -> 0 <= donation -> t_matches (w_matches w) !! n = Some c -> 0 < c_deadline c ->
  edited (w_matches w) n c m m' -> next_deadline m' = 0 -> settleable m' ->
  exists rc d m'' w', SettleMatch w fault m' donation = Ret (rc, d, m'', w')
    /\ (rc = false -> (exists outs_b outs_s adj lost, settled w fault m' donation d m'' w' outs_b outs_s adj lost)
        /\ matches_ok (w_matches w') /\ mining_inv (w_mining w')
        /\ t_matches (w_matches w') = <[n := update_match c (row_of_match m'')]> (t_matches (w_matches w)) /\ next_deadline m'' = 0 /\ status m'' = status m')
    /\ ((forall (w : world D) o, fst (create_output w o) = false) -> (forall i, fault i = false) -> rc = false).
Proof.
  intros Hok Hg Hdon Hc Hd He Hz Hset. destruct (SettleMatch_result w fault m' donation Hset Hg Hdon) as (rc & d & m'' & w' & E & Hres & Hhealthy).
  exists rc, d, m'', w'. split; [exact E|]. split.
  - intros Hrc. destruct (Hres Hrc) as (ob & os & adj & lost & Hse). split; [exists ob, os, adj, lost; exact Hse|].
    assert (He'' : edited (w_matches w) n c m m'' /\ next_deadline m'' = 0 /\ status m'' = status m')
      by (destruct (se_match _ _ _ _ _ _ _ _ _ _ _ Hse) as [->|(v & [Fv _] & ->)]; [auto | split; [apply edited_mining; assumption | split; [exact Hz | reflexivity]]]).
    destruct He'' as (He'' & Hz'' & Hst'').
    destruct (edited_insert _ _ _ _ _ _ _ Hok Hc Hd He'' ltac:(lia) (se_insert _ _ _ _ _ _ _ _ _ _ _ Hse)) as [Hok' Ht'].
    split; [exact Hok'|]. split; [exact (se_inv _ _ _ _ _ _ _ _ _ _ _ Hse)|]. split; [exact Ht'|]. split; [exact Hz'' | exact Hst''].
  - intros Hout Hno. apply Hhealthy; [exact Hout|]. intros m3 Hm3. assert (He3 : edited (w_matches w) n c m m3) by (destruct Hm3 as [->|(v & [Fv _] & ->)]; [exact He | apply edited_mining; assumption]).
    exact (edited_insert_works _ _ _ _ _ _ Hno (proj1 Hok) Hc Hd He3 (op_base _ _ (proj2 Hok n c Hc Hd))).
Qed.

(** ** Expiring matches *)

(** The node works: outputs are made without an error. *)
Definition outputs_work : Prop := forall (w : world D) o, fst (create_output w o) = false.

Definition consistent (w : world D) : Prop := matches_ok (w_matches w) /\ mining_inv (w_mining w).

(** A turn of the loop: one match is closed. *)
Definition expired_one (w : world D) (t : Z) (w' : world D) : Prop :=
  consistent w' /\ exists n c c', t_matches (w_matches w) !! n = Some c /\ 0 < c_deadline c < t
    /\ t_matches (w_matches w') = <[n := c']> (t_matches (w_matches w)) /\ c_deadline c' = 0 /\ StatusIsClosed (c_status c') = true.

Lemma expire_one_turn w faults t : consistent w ->
  exists r, expire_one w faults t = Ret r
    /\ match r with
       | None => forall n c, t_matches (w_matches w) !! n = Some c -> 0 < c_deadline c -> t <= c_deadline c
       | Some (true, _) => True
       | Some (false, w') => expired_one w t w'
       end
    /\ (outputs_work -> (forall i j, faults i j = false) -> forall w', r <> Some (true, w')).
Proof.
  intros [Hok Hg]. unfold expire_one. destruct (faults 0%nat 0%nat) eqn:Ef.
  { exists (Some (true, w)). split; [reflexivity|]. split; [exact I|]. intros _ Hno. rewrite Hno in Ef. discriminate. }
  destruct (SelectNextDeadline_ready field_prime (w_matches w) t true (proj1 Hok)) as [[-> Hnone]|(n & c & m & Hc & Hd & -> & R)]; cbn [outcome_bind].
  { exists None. split; [reflexivity|]. split; [exact Hnone | discriminate]. }
  pose proof (proj2 Hok n c Hc ltac:(lia)) as Hopen. rewrite (ro_status _ _ _ _ R).
  assert ((c_status c =? XMATCH_STATUS_ACCEPTED) || (c_status c =? XMATCH_STATUS_PART_PAID_OPEN) = true) as -> by (destruct (op_status _ _ Hopen) as [->| ->]; reflexivity).
  set (st := if _ =? _ then _ else _). assert (Hst : StatusIsClosed st = true /\ (st =? XMATCH_STATUS_PAID) = false) by (unfold st; destruct (_ =? _); split; reflexivity).
  destruct Hst as [Hclosed Hunpaid].
  pose proof (edited_status (w_matches w) n c m st t (amount_paid m) R (proj2 (ro_paid _ _ _ _ R))) as He.
  change (with_status (with_payment m (amount_paid m)) st 0 t) with (with_status m st 0 t) in He. set (m' := with_status m st 0 t) in *.
  pose proof (read_settleable _ _ _ _ Hopen R) as Hsm. pose proof (edited_settleable _ _ _ _ m' Hopen He (st_paid m Hsm) eq_refl eq_refl) as Hset.
  destruct (settle_row w n c m m' (faults 1%nat) 0 Hok Hg ltac:(lia) Hc ltac:(lia) He eq_refl Hset) as (rc & d & m'' & w' & -> & Hres & Hhealthy). cbn [outcome_bind].
  destruct rc.
  { exists (Some (true, w')). split; [reflexivity|]. split; [exact I|]. intros Hout Hno. specialize (Hhealthy Hout (Hno 1%nat)). discriminate. }
  destruct (Hres eq_refl) as ((ob & os & adj & lost & Hse) & Hok' & Hg' & Ht' & Hd' & Hs').
  assert (d = 0) as -> by (pose proof (se_donation _ _ _ _ _ _ _ _ _ _ _ Hse) as Hdn; change (status m') with st in Hdn; rewrite Hunpaid in Hdn; lia).
  exists (Some (false, w')). split; [reflexivity|]. split; [|discriminate]. split; [split; assumption|].
  eexists n, c, _. split; [exact Hc|]. split; [exact Hd|]. split; [exact Ht'|]. split; [exact Hd' | exact (eq_trans (f_equal StatusIsClosed Hs') Hclosed)].
Qed.

Definition open_count (t : gmap Z match_row) : nat := size (filter (fun row => 0 < c_deadline (snd row)) t).

Lemma open_count_close t n c c' : t !! n = Some c -> 0 < c_deadline c -> c_deadline c' = 0 -> (open_count (<[n := c']> t) < open_count t)%nat.
Proof.
  intros Hc Hd Hz. unfold open_count. rewrite map_filter_insert_False by (cbn; lia). rewrite map_filter_delete.
  assert (Hf : filter (fun row => 0 < c_deadline (snd row)) t !! n = Some c) by (apply map_lookup_filter_Some; split; [exact Hc | exact Hd]).
  rewrite map_size_delete_Some by eauto. pose proof (map_size_ne_0_lookup_2 _ _ (mk_is_Some _ _ Hf)). lia.
Qed.

(** What expiring does to the rows. *)
Definition rows_expired (t : Z) (old new : gmap Z match_row) : Prop :=
  forall n, match old !! n, new !! n with
  | Some c, Some c' => c' = c \/ 0 < c_deadline c < t /\ c_deadline c' = 0 /\ StatusIsClosed (c_status c') = true
  | None, None => True
  | _, _ => False
  end.

Lemma rows_expired_step t old n c c' new : old !! n = Some c -> 0 < c_deadline c < t -> c_deadline c' = 0 -> StatusIsClosed (c_status c') = true ->
  rows_expired t (<[n := c']> old) new -> rows_expired t old new.
Proof.
  intros Hc Hd Hz Hs Hr k. specialize (Hr k). destruct (decide (n = k)) as [<-|Hne].
  - rewrite lookup_insert_eq in Hr. rewrite Hc. destruct (new !! n) as [c2|]; [|exact Hr]. right. split; [exact Hd|]. destruct Hr as [->|(? & ?)]; [auto | lia].
  - rewrite lookup_insert_ne in Hr by exact Hne. exact Hr.
Qed.

Lemma expire_loop_ends faults t fuel : forall w, consistent w -> (open_count (t_matches (w_matches w)) < fuel)%nat ->
  exists rc w', expire_loop fuel w faults t = Ret (rc, w')
    /\ (rc = false -> consistent w' /\ rows_expired t (t_matches (w_matches w)) (t_matches (w_matches w'))
        /\ (g_shutdown (w_db w') = false -> forall n c, t_matches (w_matches w') !! n = Some c -> 0 < c_deadline c -> t <= c_deadline c))
    /\ (outputs_work -> (forall i j k, faults i j k = false) -> rc = false).
Proof.
  assert (Hrefl : forall rows, rows_expired t rows rows) by (intros rows n; destruct (rows !! n); auto).
  induction fuel as [|f IH]; intros w Hw Hf; [lia|]. cbn [expire_loop]. destruct (g_shutdown (w_db w)) eqn:Eg.
  { exists false, w. split; [reflexivity|]. split; [|reflexivity]. intros _. split; [exact Hw|]. split; [apply Hrefl | congruence]. }
  destruct (expire_one_turn w (faults (S f)) t Hw) as (r & -> & Hr & Hhealthy). cbn [outcome_bind]. destruct r as [[[] w1]|].
  - exists true, w1. split; [reflexivity|]. split; [discriminate|]. intros Hout Hno. destruct (Hhealthy Hout (Hno _) w1 eq_refl).
  - destruct Hr as (Hw1 & n & c & c' & Hc & Hd & Ht & Hz & Hcl).
    destruct (IH w1 Hw1) as (rc & w2 & E & Hres & Hok2); [rewrite Ht; pose proof (open_count_close _ n c c' Hc ltac:(lia) Hz); lia|].
    exists rc, w2. split; [exact E|]. split; [|exact Hok2]. intros Hrc. destruct (Hres Hrc) as (H1' & H2' & H3'). split; [exact H1'|]. split; [|exact H3'].
    rewrite Ht in H2'. exact (rows_expired_step t _ n c c' _ Hc Hd Hz Hcl H2').
  - exists false, w. split; [reflexivity|]. split; [|reflexivity]. intros _. split; [exact Hw|]. split; [apply Hrefl | intros _; exact Hr].
Qed.

(** C13. Expiring matches at a time ends, whatever fails, and asserts nothing.  If it reports no
    error, the tables and the mining parameters stay consistent, only matches whose
    deadline has passed are changed, those are closed and lose their deadline, and unless
    the node shuts down no deadline before that time is left.  If the tables and the outputs
    work there is no error: the requests that a match needs to be settled are there. *)
Theorem ExpireMatches_settles w faults t : consistent w ->
  exists rc w', ExpireMatches w faults t = Ret (rc, w')
    /\ (rc = false -> consistent w' /\ rows_expired t (t_matches (w_matches w)) (t_matches (w_matches w'))
        /\ (g_shutdown (w_db w') = false -> forall n c, t_matches (w_matches w') !! n = Some c -> 0 < c_deadline c -> t <= c_deadline c))
    /\ (outputs_work -> (forall i j k, faults i j k = false) -> rc = false).
Proof.
  intros Hw. apply expire_loop_ends; [exact Hw|]. unfold open_count. pose proof (map_subseteq_size _ _ (map_filter_subseteq (fun row => 0 < c_deadline (snd row)) (t_matches (w_matches w)))). lia.
Qed.

(** Pruning after that removes no request that a match needs. *)
Lemma PruneMatchingReqs_consistent w t : consistent w ->
  (forall n c, t_matches (w_matches w) !! n = Some c -> 0 < c_deadline c -> t <= c_deadline c) -> consistent (PruneMatchingReqs w false t).
Proof.
  intros [[Hs Ho] Hg] Ht. split; [|exact Hg]. split; [exact (Prune_supported (w_matches w) t Hs Ht)|]. intros n c Hc Hd. cbn in Hc.
  destruct (Ho n c Hc Hd) as [O1 O2 O3 O4 O5 O6 (gb & Eb & Db) (gs & Es & Ds)]. specialize (Ht n c Hc Hd).
  destruct (proj2 Hs n c Hc) as [_ Hr]. destruct (Hr Hd) as [(_ & _ & gb' & Eb' & Hb) (_ & _ & gs' & Es' & Hsl)].
  rewrite Eb in Eb'. rewrite Es in Es'. injection Eb' as <-. injection Es' as <-.
  split; try assumption; [exists gb | exists gs]; (split; [|assumption]); cbn; apply map_lookup_filter_Some; (split; [assumption | cbn; lia]).
Qed.

(** ** Payments *)

Lemma Select_reads db fault num : supported db -> is_Some (t_matches db !! num) ->
  exists rc o, XmatchSelect field_prime db fault num false true true = Ret (rc, o)
    /\ forall m, o = Some m -> exists c, t_matches db !! num = Some c /\ status m = c_status c.
Proof.
  intros [Hfin Hs] [c Hc]. unfold XmatchSelect, XmatchSelectInternal. destruct fault; [exists (-1), None; split; [reflexivity | discriminate]|].
  destruct (by_number_first _ _ _ Hc) as [rest ->]. rewrite Z.eqb_refl. cbn [negb andb]. unfold column_double. destruct (proj1 (Hs num c Hc)) as [F1 F2 F3].
  destruct (UniFloat_of_returns _ 0 F1) as (v1 & -> & _). destruct (UniFloat_of_returns _ 0 F2) as (v2 & -> & _). destruct (UniFloat_of_returns _ 0 F3) as (v3 & -> & _). cbn [outcome_bind].
  assert (Hreq : forall k cons, exists rc o, XmatchreqSelectInternal field_prime db k true cons = Ret (rc, o)).
  { intros k cons. unfold XmatchreqSelectInternal. destruct (t_reqs db !! k) as [r|] eqn:Er; [|eauto]. destruct (k =? 0); [eauto|]. destruct (_ && _); [eauto|].
    destruct (Hfin k r Er) as [G1 G2 G3 G4]. unfold read_req, column_double.
    destruct (UniFloat_of_returns _ 0 G1) as (u1 & -> & _). destruct (UniFloat_of_returns _ 0 G2) as (u2 & -> & _).
    destruct (UniFloat_of_returns _ 0 G3) as (u3 & -> & _). destruct (UniFloat_of_returns _ 0 G4) as (u4 & -> & _). cbn [outcome_bind]. eauto. }
  assert (Hnone : exists rc o, Ret (-1, None) = Ret (rc, o) /\ forall m : Xmatch, o = Some m -> exists c, t_matches db !! num = Some c /\ status m = c_status c)
    by (exists (-1), None; split; [reflexivity | discriminate]).
  destruct (Hreq (c_buy c) (c_buyer_cons c)) as (rb & qb & ->). cbn [outcome_bind]. destruct rb; [|exact Hnone..]. destruct qb as [qb|]; [|exact Hnone].
  destruct (Hreq (c_sell c) (c_seller_cons c)) as (rs & qs & ->). cbn [outcome_bind]. destruct rs; [|exact Hnone..]. destruct qs as [qs|]; [|exact Hnone].
  eexists _, _. split; [reflexivity|]. intros m [= <-]. exists c. split; [exact Hc | reflexivity].
Qed.

(** What a payment does to the open match that it names: [paid] is what was paid before and
    the payment, and [due] what is left to pay then.  When something is, the match stays
    open with its deadline, and nothing outside of the tables of matches changes; otherwise it is paid at the time [t]
    and settled as [settled] says. *)
Definition payment_done (w : world D) (fault : nat -> bool) (t n : Z) (c : match_row) (amount : double) (donation d : Z) (w' : world D) : Prop :=
  exists m paid due, read_of (w_matches w) n c m /\ Add (amount_paid m) amount 0 false = Ret paid /\ nonneg paid /\ AmountLeft (with_payment m paid) = Ret due
    /\ if not_positive due
       then exists m'' outs_b outs_s adj lost,
         settled w fault (with_status (with_payment m paid) XMATCH_STATUS_PAID 0 t) donation d m'' w' outs_b outs_s adj lost
         /\ t_matches (w_matches w') = <[n := update_match c (row_of_match m'')]> (t_matches (w_matches w))
         /\ c_status (row_of_match m'') = XMATCH_STATUS_PAID /\ c_deadline (row_of_match m'') = 0 /\ c_paid (row_of_match m'') = paid
       else d = donation /\ w' = with_matches w (w_matches w')
         /\ t_matches (w_matches w') = <[n := update_match c (row_of_match (with_status (with_payment m paid) XMATCH_STATUS_PART_PAID_OPEN (c_deadline c) (c_final_ts c)))]> (t_matches (w_matches w)).

Lemma AmountLeft_returns m : 0 <= base_amount m -> finite (rate m) -> finite (amount_paid m) -> exists v, AmountLeft m = Ret v.
Proof.
  intros Hb Hr Hp. unfold AmountLeft. destruct (_ =? _); [eauto|]. unfold Xmatch_QuoteAmount, QuoteAmount.
  destruct (asUniFloat_nn (base_asset (q_terms (xsell m))) (base_amount m) Hb) as (b & -> & Fb & _). cbn [outcome_bind].
  destruct (Multiply_returns b (rate m) 1 Fb Hr) as (q & -> & Fq). cbn [outcome_bind].
  destruct (Add_returns q _ 1 false Fq (neg_finite _ Hp)) as (v & -> & _). cbn [outcome_bind]. eauto.
Qed.

(** An open row with a payment added is still open. *)
Lemma row_open_payment db n c m paid : row_open db c -> read_of db n c m -> nonneg paid ->
  row_open db (update_match c (row_of_match (with_status (with_payment m paid) XMATCH_STATUS_PART_PAID_OPEN (next_deadline m) (final_timestamp m)))).
Proof.
  intros [O1 O2 O3 O4 [O5 O5'] O6 O7 O8] R Hp. destruct (ro_mining _ _ _ _ R) as [Em _]. unfold exact_double in O5. rewrite O5 in Em. injection Em as Em.
  split; cbn; rewrite <- ?Em; try assumption.
  - right. reflexivity.
  - rewrite (ro_base _ _ _ _ R). exact O2.
  - apply Hp.
  - split; assumption.
Qed.

Lemma ProcessXpayment_open w faults t n c amount donation : consistent w -> nonneg amount -> 0 <= donation ->
  t_matches (w_matches w) !! n = Some c -> 0 < c_deadline c -> not_positive amount = false ->
  exists rc d w', ProcessXpayment w faults t n amount donation = Ret (rc, d, w')
    /\ (rc = false -> consistent w' /\ payment_done w (faults 1%nat) t n c amount donation d w').
Proof.
  intros [Hok Hg] Ha Hdon Hc Hd Hpos. unfold ProcessXpayment. rewrite Hpos. pose proof (proj2 Hok n c Hc Hd) as Hopen.
  destruct (faults 0%nat 0%nat).
  { exists true, donation, w. split; [reflexivity | discriminate]. }
  destruct (Select_ready field_prime (w_matches w) n true c (proj1 Hok) Hc Hd) as (m & -> & R). cbn [outcome_bind].
  rewrite (ro_status _ _ _ _ R).
  assert ((c_status c =? XMATCH_STATUS_ACCEPTED) || (c_status c =? XMATCH_STATUS_PART_PAID_OPEN) = true) as -> by (destruct (op_status _ _ Hopen) as [->| ->]; reflexivity).
  cbn [negb]. pose proof (read_settleable _ _ _ _ Hopen R) as Hsm. destruct (Add_nn (amount_paid m) amount 0 (st_paid m Hsm) Ha) as (paid & Ea & Np). rewrite Ea. cbn [outcome_bind].
  destruct (AmountLeft_returns (with_payment m paid)) as (due & El); [apply (st_base m Hsm) | apply (st_rate m Hsm) | apply Np |]. rewrite El. cbn [outcome_bind].
  destruct (not_positive due) eqn:Edue; cbn [negb].
  - pose proof (edited_status (w_matches w) n c m XMATCH_STATUS_PAID t paid R (proj1 Np)) as He.
    pose proof (edited_settleable _ _ _ _ _ Hopen He Np eq_refl eq_refl) as Hset.
    destruct (settle_row w n c m _ (faults 1%nat) donation Hok Hg Hdon Hc Hd He eq_refl Hset) as (rc & d & m'' & w' & -> & Hres & _). cbn [outcome_bind].
    exists rc, d, w'. split; [reflexivity|]. intros Hrc. destruct (Hres Hrc) as ((ob & os & adj & lost & Hse) & Hok' & Hg' & Ht' & Hd' & Hs'). split; [split; assumption|].
    exists m, paid, due. split; [exact R|]. split; [exact Ea|]. split; [exact Np|]. split; [exact El|]. rewrite Edue.
    exists m'', ob, os, adj, lost. split; [exact Hse|]. split; [exact Ht'|]. split; [exact Hs'|]. split; [exact Hd'|].
    destruct (se_match _ _ _ _ _ _ _ _ _ _ _ Hse) as [->|(v & _ & ->)]; reflexivity.
  - set (m' := with_status _ _ _ _). assert (He : edited (w_matches w) n c m m').
    { unfold m'. split; cbn.
      - exact R.
      - apply (ro_num _ _ _ _ R).
      - apply (ro_base _ _ _ _ R).
      - apply (ro_xreqs _ _ _ _ R).
      - reflexivity.
      - reflexivity.
      - reflexivity.
      - apply Np.
      - apply (ro_mining _ _ _ _ R).
      - right. apply (ro_deadline _ _ _ _ R). }
    assert (exists rc db, XmatchInsert field_prime (w_matches w) (faults 1%nat) m' = Ret (rc, db)) as (rc & db & Ei).
    { unfold XmatchInsert. pose proof (st_base m Hsm). unfold m'. cbn [with_status with_payment base_amount]. rewrite (proj2 (Z.leb_le 0 _)), (proj2 (Z.ltb_lt _ _)) by lia. cbn [andb].
      match goal with |- exists rc db, Ret ?x = _ => destruct x as [rc db]; exists rc, db; reflexivity end. }
    rewrite Ei. cbn [outcome_bind fst snd]. exists (negb (rc =? 0)), donation, (with_matches w db). split; [reflexivity|].
    intros Hrc. apply negb_false_iff, Z.eqb_eq in Hrc. subst rc.
    destruct (edited_insert _ _ _ _ _ _ _ Hok Hc Hd He (fun _ => row_open_payment _ _ _ _ _ Hopen R Np) Ei) as [Hok' Ht']. split; [split; assumption|].
    exists m, paid, due. split; [exact R|]. split; [exact Ea|]. split; [exact Np|]. split; [exact El|]. rewrite Edue.
    split; [reflexivity|]. split; [reflexivity|]. rewrite <- (ro_deadline _ _ _ _ R), <- (ro_final _ _ _ _ R). exact Ht'.
Qed.


End settling.

(** ** An example *)

(** A database that keeps the outputs, and never shuts down. *)
Definition demo_outputs : Type := list (Z * Z).

#[export] Instance demo_commit_db : CommitDb demo_outputs := {|
  CommitTreeInsert db _ _ _ := (0, db);
  CommitTreeSelect db _ _ := (1, of_bval 0);
  ParameterInsert db _ _ := (0, db);
  ParameterSelect db _ := (1, PVnum 0);
  CommitRootsInsert db _ _ := (0, db);
  CommitRootsSelectLevel db _ := (0, mkRoot 900 3 (of_bval 1))
|}.
#[export] Instance demo_output_db : TxOutputDb demo_outputs := {|
  TxOutputInsert db addr domain asset amount level num := (asset, amount) :: db;
  g_shutdown db := false
|}.
#[export] Instance demo_hashes : OutputHashes := {|
  compute_commitment iv dest paynum domain asset amount := of_bval dest;
  compute_address dest chain paynum := of_bval dest
|}.
#[export] Instance demo_params : ChainParams := {|
  field_prime := 2 ^ 254 - 127; outvalmin := 1; outvalmax := 20; donation_per_xcx_pay := 3;
  default_domain := 1; blockchain_id := 1; last_indelible_level := 10
|}.

Definition demo_seller_row : Xmatchreq := demo_req 8 [113; 49].
Definition demo_open : Xmatch := demo_match.

Definition demo_tables : match_db :=
  mkMatchDb {[5 := row_of_match demo_open]}
    (<[7 := row_of_req demo_P (demo_req 7 [])]> {[8 := row_of_req demo_P demo_seller_row]})
    (<[7 := row_of_matching (demo_req 7 [])]> {[8 := row_of_matching demo_seller_row]}).
Definition demo_world : world demo_outputs := mkWorld [] (mkCommitments 4 4) demo_tables (demo_mining true).

Lemma finite_small m e : 0 <= m <= 2 ^ 53 -> -1074 <= e <= 1024 -> finite (mkD m e).
Proof. intros Hm He. split; cbn [d_m d_e]; lia. Qed.

Lemma demo_req_ready k q d : (k = 7 /\ q = demo_req 7 [] \/ k = 8 /\ q = demo_seller_row) -> d <= 1300 -> req_ready demo_tables k d.
Proof. intros [[-> ->]|[-> ->]] Hd; (split; [discriminate|]; split; [eexists; reflexivity|]; eexists; split; [reflexivity|]; exact Hd). Qed.

Lemma demo_consistent : consistent demo_world.
Proof.
  split; [split|exact (Mining_Init_inv true _ demo_mining_init)].
  - split.
    + intros k r Hr. cbn in Hr. apply lookup_insert_Some in Hr as [[_ <-]|[_ Hr]]; [|apply lookup_singleton_Some in Hr as [_ <-]]; (split; apply finite_small; vm_compute; split; discriminate).
    + intros n c Hc. cbn in Hc. apply lookup_singleton_Some in Hc as [_ <-]. split; [split; apply finite_small; vm_compute; split; discriminate|].
      intros _. split; [apply (demo_req_ready 7 (demo_req 7 [])); [left; split; reflexivity | vm_compute; discriminate] | apply (demo_req_ready 8 demo_seller_row); [right; split; reflexivity | vm_compute; discriminate]].
  - intros n c Hc _. cbn in Hc. apply lookup_singleton_Some in Hc as [_ <-]. split.
    + left. reflexivity.
    + split; [vm_compute; discriminate | reflexivity].
    + vm_compute. discriminate.
    + vm_compute. discriminate.
    + split; reflexivity.
    + exists (row_of_req demo_P (demo_req 7 [])). split; [reflexivity|]. split; [split; vm_compute; discriminate | reflexivity].
    + exists (row_of_matching (demo_req 7 [])). split; [reflexivity | discriminate].
    + exists (row_of_matching demo_seller_row). split; [reflexivity | discriminate].
Qed.

Lemma demo_outputs_work : outputs_work (D := demo_outputs).
Proof. intros w o. reflexivity. Qed.

Lemma demo_prime : 2 ^ 253 < field_prime.
Proof. vm_compute. reflexivity. Qed.

(** An asset other than Creda: all of the total is paid out. *)
Lemma CreateTxOutputs_conserves_witness :
  exists rc rest w' outs, CreateTxOutputs demo_world 3 (2 ^ 130 + 7) 77 1 true true 0 false false = Ret (rc, rest, w')
    /\ value_sum outs + rest = 2 ^ 130 + 7.
Proof.
  destruct (CreateTxOutputs_conserves demo_prime demo_world 3 (2 ^ 130 + 7) 77 1 true true 0 false false) as (rc & rest & w' & outs & E & R & _).
  - discriminate.
  - discriminate.
  - split; [discriminate | reflexivity].
  - discriminate.
  - exists rc, rest, w', outs. split; [exact E | exact (or_sum _ _ _ _ _ _ _ _ _ _ _ _ _ R)].
Defined.

(** The match of the tables expires: the seller gets it back with the pledge of the buyer. *)
Lemma ExpireMatches_settles_witness :
  exists w', ExpireMatches demo_world (fun _ _ _ => false) 1201 = Ret (false, w')
    /\ consistent w' /\ rows_expired 1201 (t_matches demo_tables) (t_matches (w_matches w')).
Proof.
  destruct (ExpireMatches_settles demo_prime ltac:(split; discriminate) ltac:(discriminate) demo_world (fun _ _ _ => false) 1201 demo_consistent) as (rc & w' & E & Hres & Hok).
  exists w'. rewrite (Hok demo_outputs_work ltac:(reflexivity)) in E, Hres. destruct (Hres eq_refl) as (Hc & Hr & _).
  split; [exact E|]. split; [exact Hc | exact Hr].
Defined.


Lemma demo_settleable : settleable (with_status demo_open XMATCH_STATUS_PART_PAID_EXPIRED 0 1201).
Proof.
  split.
  - split; [vm_compute; discriminate | reflexivity].
  - split; [split; vm_compute; discriminate | reflexivity].
  - exact nonneg_zero.
  - apply finite_small; vm_compute; split; discriminate.
  - exact nonneg_zero.
  - reflexivity.
  - split; apply finite_small; vm_compute; split; discriminate.
  - split; [reflexivity | discriminate].
  - split; [reflexivity | discriminate].
Qed.

