(* ===== verification/XreqTable.v ===== *)
(** * The table of exchange requests (src/source/ccnode/src/dbconn-xreqs.cpp)

    Requests that wait for a match, in a table of the memory database numbered by sequence
    numbers.  Each statement of the file is a condition and an order on the rows, or a
    change of the rows; the cursors with which the matching engine visits pairs of
    currencies, buyers and sellers are records of the values that a statement binds.  Where
    a statement leaves the order of rows open, the row with the least sequence number comes
    first.  Only the columns of the node are kept: those for witnesses ([...W]) are used when
    [for_witness] is set, which the engine asserts not to be.  Numbers and times are
    below 2^63, where SQL's signed integers agree with the unsigned ones of the code; a
    portable float that is stored is read back as the same number.  [fails n] says that
    the [n]th statement that is executed fails. *)
From stdpp Require Import gmap sorting.
From coqutil Require Import Datatypes.RecordSetters.
Import DoubleBraceUpdate.
From S2P Require Import Prelude Rows Objects Txs UniFloat Xmatch.

Local Open Scope Z_scope.
Local Open Scope cc_scope.

Definition XREQ_RECALC_NOT : Z := 0.
Definition XREQ_RECALC_NEXT : Z := 1.
Definition INT64_MIN : Z := - 2 ^ 63.

(** ** Data *)

(** A request as the engine has it.  An amount of 0 is null in the table. *)
Record Request := mkRequest {
  x_terms : Terms;
  x_seqnum : Z;
  linked_seqnum : Z;
  x_xreqnum : Z;
  x_blocktime : Z;
  x_open_amount : Z;
  open_rate_required : double;
  pending_match_epoch : Z;
  pending_match_order : Z;
  pending_match_amount : Z;
  pending_match_rate : double;
  pending_match_hold_time : Z;
  matching_amount : Z;
  matching_rate_required : double;
  recalc_time : Z;
  recalc : bool;
  last_matched : Z;
  x_best_amount : Z;
  x_best_rate : double;
  best_net_rate : double;
  x_best_other_seqnum : Z;
  best_other_xreqnum : Z;
  best_other_matching_amount : Z;
  best_other_net_rate : double;
  changed : bool
}.

(** What a match is made of. *)
Definition xreq_of (x : Request) : Xreq :=
  mkXreq (x_terms x) (x_xreqnum x) (x_seqnum x) (x_best_other_seqnum x) (x_open_amount x) (x_best_amount x) (x_best_rate x).

Definition x_type (x : Request) : Z := t_type (x_terms x).
Definition IsBuyer (x : Request) : bool := TypeIsBuyer (x_type x).
Definition IsSeller (x : Request) : bool := TypeIsSeller (x_type x).
Definition signed_open_rate (x : Request) : double := SignedRate (IsBuyer x) (open_rate_required x).

(** The table, the two counts of requests with and without a number, the numbers of
    statements executed and of passes of the engine, and whether the fatal error is set. *)
Record Xdb := mkXdb {
  rows : gmap Z Request;
  xreq_count_pending : Z;
  xreq_count_persistent : Z;
  clock : nat;
  passnum : Z;
  fatal : bool
}.

Definition with_rows (db : Xdb) (t : gmap Z Request) : Xdb := db{{rows := t}}.
Definition tick (db : Xdb) : Xdb := db{{clock := S (clock db)}}.

(** ** Orders *)

Definition dcompare (a b : double) : comparison := at_exp (common a b) a ?= at_exp (common a b) b.

Fixpoint lcompare (a b : list Z) : comparison :=
  match a, b with
  | [], [] => Eq
  | [], _ :: _ => Lt
  | _ :: _, [] => Gt
  | x :: a, y :: b => match x ?= y with Eq => lcompare a b | c => c end
  end.

Definition and_then (c d : comparison) : comparison := match c with Eq => d | _ => c end.

(** "order by BaseAsset, QuoteAsset, ForeignAsset, IsBuyer, OpenRateRequired, Xreqnum, Seqnum" *)
Definition index_compare (x y : Z * Request) : comparison :=
  let t := x_terms (snd x) in
  let u := x_terms (snd y) in
  and_then (base_asset t ?= base_asset u)
  (and_then (t_quote_asset t ?= t_quote_asset u)
  (and_then (lcompare (foreign_asset t) (foreign_asset u))
  (and_then (Z.b2z (IsBuyer (snd x)) ?= Z.b2z (IsBuyer (snd y)))
  (and_then (dcompare (signed_open_rate (snd x)) (signed_open_rate (snd y)))
  (and_then (x_xreqnum (snd x) ?= x_xreqnum (snd y)) (fst x ?= fst y)))))).

(** "order by ExpireTime, Xreqnum" *)
Definition expire_compare (x y : Z * Request) : comparison :=
  and_then (t_expire_time (x_terms (snd x)) ?= t_expire_time (x_terms (snd y)))
  (and_then (x_xreqnum (snd x) ?= x_xreqnum (snd y)) (fst x ?= fst y)).

(** "order by Xreqnum" and "order by X.Xreqnum, X.Seqnum" *)
Definition xreqnum_compare (x y : Z * Request) : comparison :=
  and_then (x_xreqnum (snd x) ?= x_xreqnum (snd y)) (fst x ?= fst y).

(** "order by Seqnum" *)
Definition seqnum_compare (x y : Z * Request) : comparison := fst x ?= fst y.

(** "order by X.PendingMatchOrder" *)
Definition pending_compare (x y : Z * Request) : comparison :=
  and_then (pending_match_order (snd x) ?= pending_match_order (snd y)) (fst x ?= fst y).

Definition le_by {A} (c : A -> A -> comparison) (x y : A) : Prop := c x y <> Gt.

#[export] Instance le_by_dec {A} (c : A -> A -> comparison) : RelDecision (le_by c).
Proof. intros x y. unfold le_by. destruct (c x y); [left|left|right]; congruence. Defined.

(** The rows that satisfy a condition, in the order of the statement. *)
Definition select_by (c : Z * Request -> Z * Request -> comparison) (p : Request -> bool) (t : gmap Z Request) : list (Z * Request) :=
  select_rows (le_by c) (fun row => p (snd row) = true) t.

(** ** Statements *)

(** 0, 1 and -1 of the functions that select. *)
Inductive found (A : Type) := Found (a : A) | NotFound | Failed.
Arguments Found {A} a.
Arguments NotFound {A}.
Arguments Failed {A}.

Section statements.
Variable fails : nat -> bool.

(** A row whose sequence number is 0 is an error. *)
Definition XreqsSelect (db : Xdb) (sel : list (Z * Request)) : found Request * Xdb :=
  (if fails (clock db) then Failed
   else match sel with
        | [] => NotFound
        | (_, x) :: _ => if x_seqnum x =? 0 then Failed else Found x
        end, tick db).

Definition XreqsSelectSeqnum (db : Xdb) (seqnum : Z) (or_greater : bool) : found Request * Xdb :=
  match XreqsSelect db (select_by seqnum_compare (fun x => seqnum <=? x_seqnum x) (rows db)) with
  | (Found x, db) => (if negb (x_seqnum x =? seqnum) && negb or_greater then NotFound else Found x, db)
  | r => r
  end.

Definition XreqsSelectObjId (db : Xdb) (oid : list Z) : found Request * Xdb :=
  XreqsSelect db (select_by seqnum_compare (fun x => bool_decide (objid (x_terms x) = oid)) (rows db)).

Definition XreqsSelectExpire (db : Xdb) (time : Z) : found Request * Xdb :=
  XreqsSelect db (select_by expire_compare (fun x => t_expire_time (x_terms x) <=? time) (rows db)).

Definition XreqsSelectXreqnum (db : Xdb) (num type : Z) : found Request * Xdb :=
  XreqsSelect db (select_by xreqnum_compare (fun x => (num <=? x_xreqnum x) && ((type =? 0) || (x_type x =? type))) (rows db)).

Definition fits_128 (amount : Z) : bool := (0 <=? amount) && (amount <? 2 ^ 128).

(** A row with the sequence number is a violated constraint, and so is a request that expires at 0. *)
Definition XreqsInsertWithLock (db : Xdb) (x : Request) : outcome (Z * Xdb) :=
  ccassert! fits_128 (min_amount (x_terms x)) && fits_128 (x_open_amount x) && fits_128 (matching_amount x) in
  let r := tick db in
  if fails (clock db) then Ret (-1, r)
  else if bool_decide (is_Some (rows db !! x_seqnum x)) || (t_expire_time (x_terms x) <=? 0) then Ret (1, r)
  else
    let r := with_rows r (<[x_seqnum x := x{{changed := false}}]> (rows db)) in
    Ret (0, if x_xreqnum x =? 0 then r{{xreq_count_pending := u32 (xreq_count_pending db + 1)}}
            else r{{xreq_count_persistent := u32 (xreq_count_persistent db + 1)}}).

Definition XreqsDelete (db : Xdb) (x : Request) : outcome (Z * Xdb) :=
  let r := tick db in
  if fails (clock db) then Ret (-1, r)
  else
    let found := bool_decide (is_Some (rows db !! x_seqnum x)) in
    let r := with_rows r (delete (x_seqnum x) (rows db)) in
    if found && negb (x_xreqnum x =? 0) then
      ccassert! negb (xreq_count_persistent db =? 0) in
      Ret (0, r{{xreq_count_persistent := u32 (xreq_count_persistent db - 1)}})
    else if found then
      ccassert! negb (xreq_count_pending db =? 0) in
      Ret (0, r{{xreq_count_pending := u32 (xreq_count_pending db - 1)}})
    else Ret (0, r).

(** The request replaces one with its identifier that has no number, and may take its
    place; [fresh] is what [NextNum] gives.  The new request is returned, as the caller's is
    changed. *)
Definition XreqsInsert (db : Xdb) (x : Request) (fresh : Z) : outcome (Z * Request * Xdb) :=
  let insert db (x : Request) :=
    let x := if x_seqnum x =? 0 then x{{x_seqnum := fresh}} else x in
    let! r := XreqsInsertWithLock db x in
    Ret (fst r, x, snd r) in
  match XreqsSelectObjId db (objid (x_terms x)) with
  | (Failed, db) => Ret (-1, x, db)
  | (Found y, db) =>
      if x_xreqnum y =? 0 then
        let x := if x_seqnum x =? 0 then x{{x_seqnum := x_seqnum y}} else x in
        let! r := XreqsDelete db y in
        if fst r <? 0 then Ret (fst r, x, snd r) else insert (snd r) x
      else insert db x
  | (NotFound, db) => insert db x
  end.

(** The columns that the statement sets; the terms, the number, the time and [Recalc] stay. *)
Definition update_row (old new : Request) : Request :=
  new{{x_terms := x_terms old; x_xreqnum := x_xreqnum old; x_blocktime := x_blocktime old;
       recalc := recalc old; changed := false}}.

Definition XreqsUpdate (db : Xdb) (x : Request) : outcome (Z * Xdb) :=
  ccassert! fits_128 (x_open_amount x) && fits_128 (matching_amount x) in
  let r := tick db in
  if fails (clock db) then Ret (-1, r)
  else Ret (0, with_rows r (alter (fun old => update_row old x) (x_seqnum x) (rows db))).

Definition XreqsClearOldPendingMatches (db : Xdb) (match_epoch max_xreqnum : Z) : Z * Xdb :=
  let r := tick db in
  if fails (clock db) then (-1, r)
  else (0, with_rows r ((fun x =>
    if dlt zero (pending_match_rate x) && negb (pending_match_epoch x =? match_epoch) && (x_xreqnum x <=? max_xreqnum)
    then x{{pending_match_rate := zero}} else x) <$> rows db)).

(** *** Rounds and passes *)

(** "set Recalc = ..." *)
Definition set_recalc (first_pass : bool) (last_matched_num block_time : Z) (t : gmap Z Request) (x : Request) : bool :=
  (first_pass && (XREQ_RECALC_NEXT <=? recalc_time x) && (recalc_time x <=? block_time))
  || (last_matched x =? last_matched_num)
  || (negb (x_best_amount x =? 0)
      && match t !! x_best_other_seqnum x with Some y => last_matched y =? last_matched_num | None => true end).

Definition extreme (positive : bool) : double := if positive then DBL_MAX else neg DBL_MAX.

Definition init_matching (first_pass : bool) (x : Request) : Request :=
  let y :=
    if first_pass then
      x{{recalc_time := if recalc x then XREQ_RECALC_NOT else recalc_time x;
         matching_amount := x_open_amount x;
         matching_rate_required := open_rate_required x}}
    else x in
  if recalc x then
    y{{x_best_amount := 0; best_other_matching_amount := 0;
       x_best_rate := extreme (IsBuyer x); best_net_rate := extreme (IsBuyer x);
       best_other_net_rate := extreme (negb (IsBuyer x))}}
  else y.

Definition up_to (max_xreqnum : Z) (f : Request -> Request) (x : Request) : Request :=
  if x_xreqnum x <=? max_xreqnum then f x else x.

Definition MatchingInit (db : Xdb) (block_time : Z) (first_pass : bool) (last_matched_num max_xreqnum : Z) : Z * Xdb :=
  let r := tick db in
  if fails (clock db) then (-1, r)
  else
    let t := up_to max_xreqnum (fun x => x{{recalc := set_recalc first_pass last_matched_num block_time (rows db) x}}) <$> rows db in
    let r := with_rows r t in
    if fails (clock r) then (-1, tick r)
    else (0, with_rows (tick r) (up_to max_xreqnum (init_matching first_pass) <$> t)).

(** *** Cursors *)

(** A pair of currencies, and the largest number that takes part. *)
Record Pair := mkPair {
  k_base : Z;
  k_quote : Z;
  k_foreign : list Z;
  k_xreqnum : Z;
  k_max_xreqnum : Z
}.

Definition SearchInitPairBase (max_xreqnum : Z) : Pair := mkPair INT64_MIN 0 [] 1 max_xreqnum.
Definition SearchInitPairQuote (base max_xreqnum : Z) : Pair := mkPair base INT64_MIN [] 1 max_xreqnum.
Definition SearchAdvancePairBase (m : Request) (k : Pair) : Pair := k{{k_base := base_asset (x_terms m) + 1}}.
Definition SearchAdvancePairQuote (m : Request) (k : Pair) : Pair :=
  k{{k_quote := t_quote_asset (x_terms m); k_foreign := foreign_asset (x_terms m)}}.

Definition in_numbers (k : Pair) (x : Request) : bool := (k_xreqnum k <=? x_xreqnum x) && (x_xreqnum x <=? k_max_xreqnum k).

Definition base_after (k : Pair) (x : Request) : bool :=
  negb (x_open_amount x =? 0) && (k_base k <? base_asset (x_terms x)) && in_numbers k x.

Definition quote_after (k : Pair) (x : Request) : bool :=
  let t := x_terms x in
  negb (x_open_amount x =? 0) && (base_asset t =? k_base k) && (k_quote k <=? t_quote_asset t)
  && ((k_quote k <? t_quote_asset t) || match lcompare (foreign_asset t) (k_foreign k) with Gt => true | _ => false end)
  && in_numbers k x.

Definition XreqsSelectPairBase (db : Xdb) (k : Pair) : found Request * Xdb :=
  XreqsSelect db (select_by index_compare (base_after k) (rows db)).
Definition XreqsSelectPairQuote (db : Xdb) (k : Pair) : found Request * Xdb :=
  XreqsSelect db (select_by index_compare (quote_after k) (rows db)).

(** Where a scan of the requests of a pair stands: after the request with this signed rate,
    number and sequence number. *)
Record Cursor := mkCursor {
  c_pair : Pair;
  c_rate : double;
  c_xreqnum : Z;
  c_seqnum : Z
}.

Definition start_cursor (p : Pair) : Cursor := mkCursor p (neg DBL_MAX) 1 INT64_MIN.

Definition MatchingInitMajor (pair : Request) (max_xreqnum : Z) : Cursor :=
  let t := x_terms pair in
  start_cursor (mkPair (base_asset t) (t_quote_asset t) (foreign_asset t) 1 max_xreqnum).

(** [MatchingAdvanceMajor] and [MatchingAdvanceMinor]. *)
Definition MatchingAdvance (m : Request) (c : Cursor) : Cursor :=
  c{{c_rate := signed_open_rate m; c_xreqnum := x_xreqnum m; c_seqnum := x_seqnum m}}.

(** "(OpenRateRequired, Xreqnum, Seqnum) > (?5, ?6, ?7)" *)
Definition after_cursor (c : Cursor) (x : Request) : bool :=
  match and_then (dcompare (signed_open_rate x) (c_rate c))
        (and_then (x_xreqnum x ?= c_xreqnum c) (x_seqnum x ?= c_seqnum c)) with Gt => true | _ => false end.

Definition of_pair (k : Pair) (x : Request) : bool :=
  let t := x_terms x in
  (base_asset t =? k_base k) && (t_quote_asset t =? k_quote k) && bool_decide (foreign_asset t = k_foreign k)
  && (x_xreqnum x <=? k_max_xreqnum k).

(** What the statement for the buyers of a pair asks. *)
Definition is_major (k : Pair) (x : Request) : bool :=
  IsBuyer x && negb (x_open_amount x =? 0) && of_pair k x && negb (x_xreqnum x =? 0)
  && negb (matching_amount x =? 0) && dle zero (matching_rate_required x).

(** The assertions on the selected request that do not restate the statement. *)
Definition selected_ok (c : Cursor) (x : Request) : bool :=
  (dlt (c_rate c) (signed_open_rate x) || deq (signed_open_rate x) (c_rate c) && (c_xreqnum c <? x_xreqnum x))
  && negb (matching_amount x =? 0) && (matching_amount x <=? x_open_amount x)
  && dle zero (open_rate_required x) && dle zero (matching_rate_required x).

Definition checked (c : Cursor) (r : found Request * Xdb) : outcome (found Request * Xdb) :=
  match fst r with
  | Found x => ccassert! selected_ok c x in Ret r
  | _ => Ret r
  end.

Definition MatchingSelectMajor (db : Xdb) (c : Cursor) : outcome (found Request * Xdb) :=
  checked c (XreqsSelect db (select_by index_compare (fun x => is_major (c_pair c) x && after_cursor c x) (rows db))).

(** The types of requests that a request can match: from, up to; 0 when there is no limit. *)
Definition MatchingInitTypeRange (type : Z) (for_query : bool) : Z * Z :=
  if (type =? CC_TYPE_XCX_SIMPLE_BUY) || (type =? CC_TYPE_XCX_MINING_BUY) then
    (CC_TYPE_XCX_SIMPLE_SELL, if for_query then CC_TYPE_XCX_MINING_SELL else CC_TYPE_XCX_SIMPLE_SELL)
  else if (type =? CC_TYPE_XCX_NAKED_SELL) || (type =? CC_TYPE_XCX_REQ_SELL) then (CC_TYPE_XCX_NAKED_BUY, CC_TYPE_XCX_REQ_BUY)
  else if type =? CC_TYPE_XCX_NAKED_BUY then (CC_TYPE_XCX_NAKED_SELL, CC_TYPE_XCX_REQ_SELL)
  else (0, 0).

(** [MatchingInitMinor] copies what it needs of the buyer as it is then. *)
Definition MatchingInitMinor (major : Request) (max_xreqnum : Z) : Cursor := MatchingInitMajor major max_xreqnum.

(** What the statement for the sellers of a pair asks, for the buyer [m]. *)
Definition is_minor (m : Request) (k : Pair) (x : Request) : bool :=
  let t := x_terms x in
  let b := x_terms m in
  let '(lo, hi) := MatchingInitTypeRange (x_type m) false in
  negb (IsBuyer x) && negb (x_open_amount x =? 0) && of_pair k x
  && (lo <=? x_type x) && ((x_type x <=? hi) || (hi =? 0))
  && (consideration_required t <=? consideration_offered b) && (consideration_required b <=? consideration_offered t)
  && (pledge t <=? pledge b)
  && (accept_time_required t <=? accept_time_offered b) && (accept_time_required b <=? accept_time_offered t)
  && (t_payment_time t <=? t_payment_time b) && (confirmations t <=? confirmations b)
  && (min_amount t <=? matching_amount m) && negb (x_xreqnum x =? 0)
  && negb (matching_amount x =? 0) && (min_amount b <=? matching_amount x)
  && dle (matching_rate_required x) (matching_rate_required m)
  && (recalc m || recalc x).

Definition MatchingSelectMinor (db : Xdb) (m : Request) (c : Cursor) : outcome (found Request * Xdb) :=
  ccassert! fits_128 (matching_amount m) && fits_128 (min_amount (x_terms m)) in
  let r := XreqsSelect db (select_by index_compare (fun x => is_minor m (c_pair c) x && after_cursor c x) (rows db)) in
  match fst r with
  | Found x => ccassert! IsSeller x in checked c r
  | _ => Ret r
  end.

(** *** Matches *)

(** The buyer whose best seller has it as best buyer, from a number on. *)
Definition is_mutual (t : gmap Z Request) (num : Z) (x : Request) : bool :=
  IsBuyer x && (num <=? x_xreqnum x) && negb (x_best_amount x =? 0)
  && match t !! x_best_other_seqnum x with Some y => x_best_other_seqnum y =? x_seqnum x | None => false end.

(** The first row of a join, and the row that it is joined with. *)
Definition select_join (db : Xdb) (sel : list (Z * Request)) : found (Request * Request) * Xdb :=
  (if fails (clock db) then Failed
   else match sel with
        | [] => NotFound
        | (_, x) :: _ =>
            match rows db !! x_best_other_seqnum x with
            | Some y => if (x_seqnum x =? 0) || (x_seqnum y =? 0) then Failed else Found (x, y)
            | None => NotFound
            end
        end, tick db).

(** [num] is the number from which [MatchingAdvanceScan] goes on. *)
Definition MatchingSelectMatch (db : Xdb) (num : Z) : found (Request * Request) * Xdb :=
  select_join db (select_by xreqnum_compare (is_mutual (rows db) num) (rows db)).

Definition is_pending (t : gmap Z Request) (x : Request) : bool :=
  (0 <? pending_match_order x) && bool_decide (is_Some (t !! x_best_other_seqnum x)).

(** The seller of the next match, then the buyer. *)
Definition MatchingSelectNextPendingMatch (db : Xdb) : found (Request * Request) * Xdb :=
  select_join db (select_by pending_compare (is_pending (rows db)) (rows db)).
End statements.

(** ** Laws of the orders *)

Create HintDb linear.

(** A comparison that is a linear preorder. *)
Record linear {A} (c : A -> A -> comparison) : Prop := {
  linear_sym x y : c y x = CompOpp (c x y);
  linear_trans x y z : c x y <> Gt -> c y z <> Gt -> c x z <> Gt
}.

Section linear.
Context {A : Type}.
Implicit Types c d : A -> A -> comparison.

Lemma linear_eq c x y z : linear c -> c x y = Eq -> c x z = c y z.
Proof.
  intros [sym trans] E.
  assert (Hyx : c y x = Eq) by (rewrite sym, E; reflexivity).
  assert (Hlt : c x z <> Gt <-> c y z <> Gt) by (split; apply trans; congruence).
  assert (Hgt : c z x <> Gt <-> c z y <> Gt) by (split; intros Hz; eapply trans; [exact Hz|congruence|exact Hz|congruence]).
  rewrite (sym x z), (sym y z) in Hgt. destruct (c x z), (c y z); cbn in Hgt; try reflexivity; exfalso; intuition congruence.
Qed.

Lemma linear_and_then c d : linear c -> linear d -> linear (fun x y => and_then (c x y) (d x y)).
Proof.
  intros Hc Hd. split.
  - intros x y. rewrite (linear_sym c Hc x y), (linear_sym d Hd x y). by destruct (c x y).
  - intros x y z. unfold and_then. destruct (c x y) eqn:Exy; [|destruct (c y z) eqn:Eyz|congruence].
    + rewrite (linear_eq c x y z Hc Exy). destruct (c y z); [apply (linear_trans d Hd)| |]; congruence.
    + intros _ _. assert (c x z = Lt) as ->; [|congruence].
      assert (c z x = Gt); [|by rewrite (linear_sym c Hc z x), H].
      assert (c z y = Eq) as Ezy by (rewrite (linear_sym c Hc y z), Eyz; reflexivity).
      rewrite (linear_eq c z y x Hc Ezy), (linear_sym c Hc x y), Exy. reflexivity.
    + intros _ _. pose proof (linear_trans c Hc x y z ltac:(congruence) ltac:(congruence)).
      destruct (c x z) eqn:Exz; try congruence.
      assert (c y z = Gt); [|congruence].
      assert (c z x = Eq) as Ezx by (rewrite (linear_sym c Hc x z), Exz; reflexivity).
      rewrite (linear_sym c Hc z y), (linear_eq c z x y Hc Ezx), Exy. reflexivity.
    + congruence.
Qed.

Lemma linear_on {B} (c : B -> B -> comparison) (f : A -> B) : linear c -> linear (fun x y => c (f x) (f y)).
Proof. intros [sym trans]. split; intros; [apply sym | eapply trans; eassumption]. Qed.

Lemma linear_flip c : linear c -> linear (fun x y => c y x).
Proof. intros [sym trans]. split; intros; [apply sym | eapply trans; eassumption]. Qed.

#[export] Instance le_by_total c : linear c -> Total (le_by c).
Proof. intros [sym _] x y. unfold le_by. rewrite (sym x y). destruct (c x y); cbn; [left|left|right]; congruence. Qed.
#[export] Instance le_by_trans c : linear c -> Transitive (le_by c).
Proof. intros [_ trans] x y z. apply trans. Qed.
End linear.

Lemma linear_Z : linear Z.compare.
Proof.
  split; [apply Z.compare_antisym|]. intros x y z. rewrite !Z.compare_ngt_iff. lia.
Qed.

Lemma dcompare_at k a b : k <= d_e a -> k <= d_e b -> dcompare a b = (at_exp k a ?= at_exp k b).
Proof.
  intros Ha Hb. unfold dcompare. assert (k <= common a b) by (unfold common; lia).
  rewrite (at_exp_shift (common a b) k a), (at_exp_shift (common a b) k b) by (unfold common in *; lia).
  pose proof (pow2_pos (common a b - k) ltac:(lia)). apply Zmult_compare_compat_r. lia.
Qed.

Lemma linear_double : linear dcompare.
Proof.
  split.
  - intros x y. set (k := Z.min (d_e x) (d_e y)). rewrite !(dcompare_at k) by lia. apply Z.compare_antisym.
  - intros x y z. set (k := Z.min (d_e x) (Z.min (d_e y) (d_e z))). rewrite !(dcompare_at k) by lia. apply linear_Z.
Qed.

Lemma linear_list : linear lcompare.
Proof.
  split.
  - intros x. induction x as [|a x IH]; intros [|b y]; cbn; try done. rewrite (Z.compare_antisym b a). destruct (b ?= a); cbn; auto.
  - intros x. induction x as [|a x IH]; intros [|b y] [|c z]; cbn; try congruence.
    destruct (Z.compare_spec a b), (Z.compare_spec b c); subst; try congruence.
    + rewrite Z.compare_refl. apply IH.
    + intros _ _. rewrite (proj2 (Z.compare_lt_iff b c)) by lia. congruence.
    + intros _ _. rewrite (proj2 (Z.compare_lt_iff a c)) by lia. congruence.
    + intros _ _. rewrite (proj2 (Z.compare_lt_iff a c)) by lia. congruence.
Qed.

Lemma dlt_compare a b : dlt a b = match dcompare a b with Lt => true | _ => false end.
Proof. unfold dlt, dcompare, Z.ltb. by destruct (_ ?= _). Qed.
Lemma deq_compare a b : deq a b = match dcompare a b with Eq => true | _ => false end.
Proof. unfold deq, dcompare. rewrite Z.eqb_compare. by destruct (_ ?= _). Qed.
Lemma dle_compare a b : dle a b = match dcompare a b with Gt => false | _ => true end.
Proof. unfold dle, dcompare, Z.leb. by destruct (_ ?= _). Qed.

Lemma linear_key {B} (c : B -> B -> comparison) (f : Request -> B) : linear c -> linear (fun x y : Z * Request => c (f (snd x)) (f (snd y))).
Proof. intros. by apply (linear_on c (fun x => f (snd x))). Qed.

Lemma linear_fst : linear (fun x y : Z * Request => fst x ?= fst y).
Proof. apply (linear_on Z.compare fst), linear_Z. Qed.

#[export] Hint Resolve linear_Z linear_double linear_list linear_fst : linear.

Lemma linear_index : linear index_compare.
Proof.
  unfold index_compare. cbv zeta.
  apply linear_and_then; [apply (linear_key Z.compare (fun x => base_asset (x_terms x))); auto with linear|].
  apply linear_and_then; [apply (linear_key Z.compare (fun x => t_quote_asset (x_terms x))); auto with linear|].
  apply linear_and_then; [apply (linear_key lcompare (fun x => foreign_asset (x_terms x))); auto with linear|].
  apply linear_and_then; [apply (linear_key Z.compare (fun x => Z.b2z (IsBuyer x))); auto with linear|].
  apply linear_and_then; [apply (linear_key dcompare signed_open_rate); auto with linear|].
  apply linear_and_then; [apply (linear_key Z.compare x_xreqnum); auto with linear|]. auto with linear.
Qed.

Lemma linear_expire : linear expire_compare.
Proof.
  apply linear_and_then; [apply (linear_key Z.compare (fun x => t_expire_time (x_terms x))); auto with linear|].
  apply linear_and_then; [apply (linear_key Z.compare x_xreqnum); auto with linear|]. auto with linear.
Qed.

Lemma linear_xreqnum : linear xreqnum_compare.
Proof. apply linear_and_then; [apply (linear_key Z.compare x_xreqnum); auto with linear|]. auto with linear. Qed.

Lemma linear_pending : linear pending_compare.
Proof. apply linear_and_then; [apply (linear_key Z.compare pending_match_order); auto with linear|]. auto with linear. Qed.
#[export] Hint Resolve linear_index linear_expire linear_xreqnum linear_pending : linear.

(** ** What a statement selects *)

Lemma select_by_first c p t n x rest : linear c -> select_by c p t = (n, x) :: rest ->
  t !! n = Some x /\ p x = true /\ forall m y, t !! m = Some y -> p y = true -> le_by c (n, x) (m, y).
Proof.
  intros Hc Hs. pose proof (le_by_total c Hc). pose proof (le_by_trans c Hc).
  apply (select_rows_first (le_by c) (fun row => p (snd row) = true)) in Hs. exact Hs.
Qed.

Lemma select_by_none c p t : linear c -> select_by c p t = [] -> forall n x, t !! n = Some x -> p x = false.
Proof.
  intros Hc Hs n x Hx. pose proof (le_by_total c Hc). pose proof (le_by_trans c Hc).
  pose proof (select_rows_nil (le_by c) (fun row => p (snd row) = true) t Hs n x Hx) as Hn. cbn in Hn. by destruct (p x).
Qed.
