(* ===== verification/Matching.v ===== *)
(** * The matching engine (src/source/ccnode/src/process-xreq.cpp)

    Requests of buyers and sellers are compared pair by pair; each remembers its best
    partner, and two that are each other's best are matched.  The rounds of matching run
    in a thread of their own on the table of XreqTable.v; between rounds the thread of the
    blockchain makes the matches permanent (Xmatch.v, Settle.v), closes requests that
    expired, and prunes those that are too many.  [shutdown n] is [g_shutdown] when [n]
    statements have been executed; a statement that fails throws [Db_Exception] in the
    engine and is returned as an error by the rest.  What the engine tells the witness
    about the time of its next work is left out. *)
From stdpp Require Import gmap.
From coqutil Require Import Datatypes.RecordSetters.
Import DoubleBraceUpdate.
From S2P Require Import Prelude Rows Objects Txs UniFloat TxAmount Merkle Xmatch MatchTables Mining Settle XreqTable.

Local Open Scope Z_scope.
Local Open Scope cc_scope.

Definition XREQ_MAX_PERSISTENT_COUNT : Z := 1200.
Definition XREQ_MIN_NON_PERSISTENT_COUNT : Z := 20000.
Definition XCX_MATCHING_SECS_PER_EPOCH : Z := 20.
Definition XREQ_WAIT_DISCOUNT_INTERVAL : Z := XCX_MATCHING_SECS_PER_EPOCH.
Definition Db_Exception : exn := RuntimeError 1.

(** ** Comparing two candidates *)

(** Whether the candidate [other] is better for [self] than the best so far. *)
Definition CompareRates (self : Request) (self_net_rate : double) (other : Request) (other_net_rate : double) (amount : Z) : bool :=
  if x_best_amount self =? 0 then true
  else if negb (deq self_net_rate (best_net_rate self)) then xorb (IsBuyer self) (dlt (best_net_rate self) self_net_rate)
  else if negb (deq other_net_rate (best_other_net_rate self)) then xorb (IsBuyer self) (dlt other_net_rate (best_other_net_rate self))
  else if negb (amount =? x_best_amount self) then x_best_amount self <? amount
  else if negb (matching_amount other =? best_other_matching_amount self) then best_other_matching_amount self <? matching_amount other
  else if negb (x_xreqnum other =? best_other_xreqnum self) then
    (best_other_xreqnum self =? 0) || negb (x_xreqnum other =? 0) && (x_xreqnum other <? best_other_xreqnum self)
  else x_seqnum other <? x_best_other_seqnum self.

(** *** Hold times *)

Definition ComputeElapsed (xreq_time block_time : Z) : Z :=
  if block_time <=? xreq_time then 0 else block_time - xreq_time.
Definition ComputeHold (elapsed required : Z) : Z :=
  if required <=? elapsed then 0 else required - elapsed.

Definition ComputeNetHold (xreq other : Request) (block_time : Z) : Z :=
  let elapsed := ComputeElapsed (x_blocktime xreq) block_time in
  Z.max (ComputeHold elapsed (t_hold_time (x_terms xreq))) (ComputeHold elapsed (hold_time_required (x_terms other))).

Definition ComputeMatchHold (buyer seller : Request) (block_time : Z) : Z :=
  Z.max (ComputeNetHold buyer seller block_time) (ComputeNetHold seller buyer block_time).

(** The rate after the discount for waiting, and the request with its new time of recalculation. *)
Definition ComputeDiscount (x : Request) (rate : double) (hold block_time : Z) : outcome (Request * double) :=
  let t := x_terms x in
  if (hold <=? min_wait_time t) || is_zero rate || is_zero (wait_discount t) then Ret (x, rate)
  else
    let hold := u64 (hold - (min_wait_time t - 1)) in
    let! factor := Add one (neg (wait_discount t)) 0 false in
    let! factor := Power factor (i32 (1 + hold / XREQ_WAIT_DISCOUNT_INTERVAL)) in
    let! new_rate := if IsBuyer x then Divide rate factor 0 else Multiply rate factor 0 in
    if deq new_rate rate then Ret (x, rate)
    else
      let time := u64 (block_time + XREQ_WAIT_DISCOUNT_INTERVAL - hold mod XREQ_WAIT_DISCOUNT_INTERVAL) in
      ccassert! XREQ_RECALC_NEXT <=? i64 time in
      Ret (if (recalc_time x =? XREQ_RECALC_NOT) || (time <? recalc_time x)
           then x{{recalc_time := time; changed := true}} else x, new_rate).

(** [self] remembers the candidate. *)
Definition SetMatch (amount : Z) (rate : double) (hold : bool) (self : Request) (self_net_rate : double)
    (other : Request) (other_net_rate : double) : Request :=
  let self := self{{x_best_amount := amount; x_best_rate := rate; best_net_rate := self_net_rate;
    x_best_other_seqnum := x_seqnum other; best_other_xreqnum := x_xreqnum other;
    best_other_matching_amount := matching_amount other; best_other_net_rate := other_net_rate}} in
  let self := if hold then self{{recalc_time := XREQ_RECALC_NEXT}} else self in
  self{{changed := true}}.

(** What a candidate is, for both sides: the amount and rate of the match, the net rates of
    buyer and seller, and the hold time. *)
Record candidate := mkCandidate {
  cd_amount : Z;
  cd_rate : double;
  cd_buyer_net : double;
  cd_seller_net : double;
  cd_hold : Z
}.

(** [SetMatch] reports a match that was not to be recalculated as fatal. *)
Definition recalc_error (witness : bool) (buyer seller : Request) : bool :=
  negb witness && negb (recalc buyer) && negb (recalc seller).

Section engine.
Context `{AmtFloat}.
Variables fails shutdown : nat -> bool.
Variable IsWitness : bool.

Definition BaseAmountAsUniFloat (x : Request) (amount : Z) : outcome double := asUniFloat (base_asset (x_terms x)) amount.
Definition RateRequired (x : Request) (amount : Z) : outcome double :=
  let! base := BaseAmountAsUniFloat x amount in MatchRateRequired (x_terms x) base 0.
Definition NetRateOf (x : Request) (amount : Z) (rate : double) : outcome double :=
  let! base := BaseAmountAsUniFloat x amount in NetRate (x_terms x) base rate 0.

(** The first half of [CheckMatch]: nothing when the two do not match. *)
Definition MatchTerms (buyer seller : Request) (block_time : Z) : outcome (option candidate) :=
  if ((x_type buyer =? CC_TYPE_XCX_SIMPLE_BUY) || (x_type buyer =? CC_TYPE_XCX_MINING_BUY))
     && negb (x_type seller =? CC_TYPE_XCX_SIMPLE_SELL) && negb (x_type seller =? CC_TYPE_XCX_MINING_SELL) then Ret None
  else
    ccassert! recalc buyer || recalc seller in
    ccassert! IsBuyer buyer && IsSeller seller in
    ccassert! negb (matching_amount seller =? 0) && (matching_amount seller <=? x_open_amount seller) in
    let! base := BaseAmountAsUniFloat seller (matching_amount seller) in
    ccassert! negb (is_zero base) in
    ccassert! negb (matching_amount buyer =? 0) && (matching_amount buyer <=? x_open_amount buyer) in
    let! base := BaseAmountAsUniFloat buyer (matching_amount buyer) in
    ccassert! dle (base_costs (x_terms buyer)) base in
    ccassert! dle (matching_rate_required seller) (matching_rate_required buyer) in
    let less := matching_amount seller <? matching_amount buyer in
    let amount := if less then matching_amount seller else matching_amount buyer in
    let! base := BaseAmountAsUniFloat buyer amount in
    if less && dle base (base_costs (x_terms buyer)) then Ret None
    else
      let! buyer_rate_req := if amount <? matching_amount buyer then RateRequired buyer amount else Ret (matching_rate_required buyer) in
      if (amount <? matching_amount buyer) && dlt buyer_rate_req (matching_rate_required seller) then Ret None
      else
        let! seller_rate_req := if amount <? matching_amount seller then RateRequired seller amount else Ret (matching_rate_required seller) in
        if (amount <? matching_amount seller) && dlt buyer_rate_req seller_rate_req then Ret None
        else
          ccassert! dle seller_rate_req buyer_rate_req in
          let! match_rate := Average buyer_rate_req seller_rate_req 0 in
          let! buyer_net := NetRateOf buyer amount match_rate in
          let! seller_net := NetRateOf seller amount match_rate in
          ccassert! negb (amount =? 0) && dle zero match_rate && dle zero buyer_net && dle zero seller_net in
          let hold := ComputeMatchHold buyer seller block_time in
          if (t_expire_time (x_terms buyer) <=? u64 (block_time + hold)) || (t_expire_time (x_terms seller) <=? u64 (block_time + hold)) then Ret None
          else Ret (Some (mkCandidate amount match_rate buyer_net seller_net hold)).

(** The net rates after the discounts, when the match is on hold. *)
Definition Discounts (buyer seller : Request) (c : candidate) (block_time : Z) : outcome (Request * Request * double * double) :=
  if cd_hold c =? 0 then Ret (buyer, seller, cd_buyer_net c, cd_seller_net c)
  else
    let! b := ComputeDiscount buyer (cd_buyer_net c) (cd_hold c) block_time in
    let! s := ComputeDiscount seller (cd_seller_net c) (cd_hold c) block_time in
    Ret (fst b, fst s, snd b, snd s).

(** Whether [self] takes the candidate. *)
Definition Consider (amount : Z) (rate : double) (hold : bool) (self : Request) (self_net : double) (other : Request) (other_net : double) : bool * Request :=
  if CompareRates self self_net other other_net amount then (true, SetMatch amount rate hold self self_net other other_net)
  else (false, self).

Definition write_changed (db : Xdb) (x : Request) : outcome (Request * Xdb) :=
  if changed x then
    let x := x{{changed := false}} in
    let! r := XreqsUpdate fails db x in
    if fst r =? 0 then Ret (x, snd r) else Throw Db_Exception
  else Ret (x, db).

Definition CheckMatch (db : Xdb) (buyer seller : Request) (block_time : Z) : outcome (bool * Request * Request * Xdb) :=
  let! c := MatchTerms buyer seller block_time in
  match c with
  | None => Ret (false, buyer, seller, db)
  | Some c =>
      let! d := Discounts buyer seller c block_time in
      let '(buyer, seller, buyer_net, seller_net) := d in
      let hold := negb (cd_hold c =? 0) in
      let '(b_set, buyer) := Consider (cd_amount c) (cd_rate c) hold buyer buyer_net seller seller_net in
      let '(s_set, seller) := Consider (cd_amount c) (cd_rate c) hold seller seller_net buyer buyer_net in
      let db := db{{fatal := fatal db || (b_set || s_set) && recalc_error IsWitness buyer seller}} in
      let! r := write_changed db buyer in
      let '(buyer, db) := r in
      let! r := write_changed db seller in
      let '(seller, db) := r in
      Ret (b_set || s_set, buyer, seller, db)
  end.

(** ** Matching *)

(** [xreq] gives the amount to the match; a seller's request, which has a foreign address, is
    matched once. *)
Definition UpdateMutualMatch (db : Xdb) (xreq other : Request) (match_amount : Z) (match_rate : double)
    (pass block_time hold : Z) : outcome Xdb :=
  ccassert! negb (x_xreqnum xreq =? 0) in
  ccassert! (x_best_other_seqnum xreq =? x_seqnum other) && (best_other_xreqnum xreq =? x_xreqnum other)
    && deq (best_other_net_rate xreq) (best_net_rate other) in
  ccassert! (x_best_amount xreq =? x_best_amount other) && deq (x_best_rate xreq) (x_best_rate other) in
  ccassert! negb (match_amount =? 0) && (match_amount <=? matching_amount xreq) && (matching_amount xreq <=? x_open_amount xreq)
    && (x_open_amount xreq <=? max_amount (x_terms xreq)) in
  ccassert! negb (x_best_amount xreq =? 0) && dle zero (x_best_rate xreq) && dle zero (best_net_rate xreq) in
  ccassert! dle zero (open_rate_required xreq) && dle zero (matching_rate_required xreq) && dlt zero match_rate in
  let left := if bool_decide (t_foreign_address (x_terms xreq) = []) then matching_amount xreq - match_amount else 0 in
  let! rate := RateRequired xreq left in
  let xreq := xreq{{matching_amount := left; matching_rate_required := rate}} in
  let epoch := block_time / XCX_MATCHING_SECS_PER_EPOCH in
  let xreq :=
    if pending_match_epoch xreq =? epoch then xreq
    else xreq{{pending_match_epoch := epoch; pending_match_amount := match_amount;
               pending_match_rate := match_rate; pending_match_hold_time := u16 hold}} in
  let! r := XreqsUpdate fails db xreq{{last_matched := pass}} in
  if fst r =? 0 then Ret (snd r) else Throw Db_Exception.

(** The assertions of [FindMutualMatches] on a buyer and a seller that match each other. *)
Definition mutual_ok (major minor : Request) : bool :=
  let b := x_terms major in
  let s := x_terms minor in
  IsBuyer major && dle (matching_rate_required major) (net_rate_required b) && negb (x_best_amount major =? 0)
  && dle (x_best_rate major) (matching_rate_required major)
  && IsSeller minor && dle (net_rate_required s) (matching_rate_required minor) && negb (matching_amount minor =? 0)
  && dle (matching_rate_required minor) (x_best_rate minor)
  && (x_best_amount major =? x_best_amount minor) && deq (x_best_rate major) (x_best_rate minor)
  && (best_other_matching_amount major =? matching_amount minor) && (best_other_matching_amount minor =? matching_amount major)
  && (base_asset s =? base_asset b) && (t_quote_asset s =? t_quote_asset b) && bool_decide (foreign_asset s = foreign_asset b)
  && (consideration_required s <=? consideration_required b) && (consideration_offered b <=? consideration_offered s)
  && (pledge s <=? pledge b) && (accept_time_required s <=? accept_time_required b)
  && (accept_time_offered b <=? accept_time_offered s) && (t_payment_time s <=? t_payment_time b)
  && (confirmations s <=? confirmations b).

(** Those for a match that is not on hold. *)
Definition immediate_ok (major minor : Request) (block_time : Z) : outcome bool :=
  let! le := CheckLE (x_best_rate major) (best_net_rate major) in
  let! ge := CheckGE (x_best_rate minor) (best_net_rate minor) in
  Ret (dle (best_net_rate major) (net_rate_required (x_terms major)) && le
       && dle (net_rate_required (x_terms minor)) (best_net_rate minor) && ge
       && (pending_match_order minor =? 0)
       && negb (pending_match_epoch minor =? block_time / XCX_MATCHING_SECS_PER_EPOCH)).

(** One match: the next index for the order in which matches become permanent, and the table. *)
Definition MatchPair (db : Xdb) (major minor : Request) (pass next_match_index block_time : Z) : outcome (Z * Xdb) :=
  let hold := ComputeMatchHold major minor block_time in
  ccassert! mutual_ok major minor in
  let! ok := if hold =? 0 then immediate_ok major minor block_time else Ret true in
  ccassert! ok in
  let '(minor, next_match_index) :=
    if hold =? 0 then (minor{{pending_match_order := next_match_index}}, u64 (next_match_index + 1)) else (minor, next_match_index) in
  let amount := x_best_amount major in
  let rate := x_best_rate major in
  let! db := UpdateMutualMatch db major minor amount rate pass block_time hold in
  let! db := UpdateMutualMatch db minor major amount rate pass block_time hold in
  Ret (next_match_index, db).

(** The scan goes on from the number [num]. *)
Fixpoint mutual_loop (fuel : nat) (db : Xdb) (num pass next_match_index block_time : Z) (have : bool) : outcome (bool * Z * Xdb) :=
  if shutdown (clock db) then Ret (have, next_match_index, db)
  else
    match fuel with
    | O => Throw FuelOut
    | S f =>
        match MatchingSelectMatch fails db num with
        | (Failed, _) => Throw Db_Exception
        | (NotFound, db) => Ret (have, next_match_index, db)
        | (Found (major, minor), db) =>
            let! r := MatchPair db major minor pass next_match_index block_time in
            mutual_loop f (snd r) (x_xreqnum major + 1) pass (fst r) block_time true
        end
    end.

Definition FindMutualMatches (db : Xdb) (next_match_index block_time : Z) : outcome (bool * Z * Xdb) :=
  mutual_loop (S (size (rows db))) db 1 (passnum db) next_match_index block_time false.

(** A round of [AddMiningMatches]: the buyer, and what its linked seller asks for before the
    two are matched. *)
Definition linked_ok (major minor : Request) (block_time max_xreqnum : Z) : bool :=
  (x_xreqnum minor <=? max_xreqnum) && (block_time <? t_expire_time (x_terms minor)) && negb (matching_amount minor =? 0)
  && (linked_seqnum minor =? x_seqnum major).

Definition mining_pair_ok (major minor : Request) : bool :=
  let b := x_terms major in
  let s := x_terms minor in
  (x_seqnum minor =? linked_seqnum major) && (x_type minor =? CC_TYPE_XCX_MINING_SELL) && (min_amount s =? max_amount s)
  && (max_amount b =? max_amount s) && deq (net_rate_required b) (net_rate_required s).

Definition MatchMiningPair (db : Xdb) (major minor : Request) (next_match_index block_time : Z) : outcome (Z * Xdb) :=
  ccassert! mining_pair_ok major minor in
  let hold := ComputeMatchHold major minor block_time in
  if negb (hold =? 0) then Ret (next_match_index, db)
  else
    let! r := CheckMatch db major{{recalc := true; x_best_amount := 0}} minor{{x_best_amount := 0}} block_time in
    let '(have_match, major, minor, db) := r in
    ccassert! have_match in
    ccassert! (pending_match_order minor =? 0) && negb (pending_match_epoch minor =? block_time / XCX_MATCHING_SECS_PER_EPOCH) in
    let minor := minor{{pending_match_order := next_match_index}} in
    let amount := x_best_amount major in
    let rate := x_best_rate major in
    let! db := UpdateMutualMatch db major minor amount rate 0 block_time hold in
    let! db := UpdateMutualMatch db minor major amount rate 0 block_time hold in
    Ret (u64 (next_match_index + 1), db).

Fixpoint mining_loop (fuel : nat) (db : Xdb) (next_xreqnum next_match_index block_time max_xreqnum : Z) : outcome Xdb :=
  if shutdown (clock db) || (max_xreqnum <? next_xreqnum) then Ret db
  else
    match fuel with
    | O => Throw FuelOut
    | S f =>
        match XreqsSelectXreqnum fails db next_xreqnum CC_TYPE_XCX_MINING_BUY with
        | (Failed, _) => Throw Db_Exception
        | (NotFound, db) => Ret db
        | (Found major, db) =>
            let continue db := mining_loop f db (x_xreqnum major + 1) next_match_index block_time max_xreqnum in
            if max_xreqnum <? x_xreqnum major then Ret db
            else if (t_expire_time (x_terms major) <=? block_time) || (matching_amount major =? 0) || (linked_seqnum major =? 0) then continue db
            else
              ccassert! (x_type major =? CC_TYPE_XCX_MINING_BUY) && (min_amount (x_terms major) =? max_amount (x_terms major)) in
              match XreqsSelectSeqnum fails db (linked_seqnum major) false with
              | (Failed, _) => Throw Db_Exception
              | (NotFound, db) =>
                  let! r := XreqsUpdate fails db major{{linked_seqnum := 0}} in
                  continue (snd r)
              | (Found minor, db) =>
                  if linked_ok major minor block_time max_xreqnum then
                    let! r := MatchMiningPair db major minor next_match_index block_time in
                    mining_loop f (snd r) (x_xreqnum major + 1) (fst r) block_time max_xreqnum
                  else continue db
              end
        end
    end.

Definition AddMiningMatches (db : Xdb) (next_match_index block_time max_xreqnum : Z) : outcome Xdb :=
  mining_loop (S (size (rows db))) db 1 next_match_index block_time max_xreqnum.

(** *** The scan of a pass *)

(** The sellers for the buyer [m] as the statement knows it, and [major] as it is; [count] is
    [inner_count]. *)
Fixpoint minor_loop (fuel : nat) (db : Xdb) (m major : Request) (c : Cursor) (block_time count : Z) (set : bool) : outcome (bool * Z * Xdb) :=
  if shutdown (clock db) then Ret (set, count, db)
  else
    match fuel with
    | O => Throw FuelOut
    | S f =>
        let! r := MatchingSelectMinor fails db m c in
        match r with
        | (Failed, _) => Throw Db_Exception
        | (NotFound, db) => Ret (set, count, db)
        | (Found minor, db) =>
            let! r := CheckMatch db major minor block_time in
            let '(b, major, minor, db) := r in
            minor_loop f db m major (MatchingAdvance minor c) block_time (u32 (count + 1)) (set || b)
        end
    end.

Fixpoint major_loop (fuel : nat) (db : Xdb) (c : Cursor) (block_time count : Z) (set : bool) : outcome (bool * Z * Xdb) :=
  if shutdown (clock db) then Ret (set, count, db)
  else
    match fuel with
    | O => Throw FuelOut
    | S f =>
        let! r := MatchingSelectMajor fails db c in
        match r with
        | (Failed, _) => Throw Db_Exception
        | (NotFound, db) => Ret (set, count, db)
        | (Found major, db) =>
            let! r := minor_loop (S (size (rows db))) db major major (MatchingInitMinor major (k_max_xreqnum (c_pair c))) block_time count set in
            let '(set, count, db) := r in
            major_loop f db (MatchingAdvance major c) block_time count set
        end
    end.

Fixpoint quote_loop (fuel : nat) (db : Xdb) (k : Pair) (block_time count : Z) (set : bool) : outcome (bool * Z * Xdb) :=
  if shutdown (clock db) then Ret (set, count, db)
  else
    match fuel with
    | O => Throw FuelOut
    | S f =>
        match XreqsSelectPairQuote fails db k with
        | (Failed, _) => Throw Db_Exception
        | (NotFound, db) => Ret (set, count, db)
        | (Found p, db) =>
            let! r := major_loop (S (size (rows db))) db (MatchingInitMajor p (k_max_xreqnum k)) block_time count set in
            let '(set, count, db) := r in
            quote_loop f db (SearchAdvancePairQuote p k) block_time count set
        end
    end.

Fixpoint base_loop (fuel : nat) (db : Xdb) (k : Pair) (block_time count : Z) (set : bool) : outcome (bool * Z * Xdb) :=
  if shutdown (clock db) then Ret (set, count, db)
  else
    match fuel with
    | O => Throw FuelOut
    | S f =>
        match XreqsSelectPairBase fails db k with
        | (Failed, _) => Throw Db_Exception
        | (NotFound, db) => Ret (set, count, db)
        | (Found base, db) =>
            let! r := quote_loop (S (size (rows db))) db (SearchInitPairQuote (base_asset (x_terms base)) (k_max_xreqnum k)) block_time count set in
            let '(set, count, db) := r in
            base_loop f db (SearchAdvancePairBase base k) block_time count set
        end
    end.

(** A pass: whether it found matches, the next index, [inner_count] and the table. *)
Definition MatchPass (db : Xdb) (block_time max_xreqnum : Z) (first_pass : bool) (next_match_index count : Z) : outcome (bool * Z * Z * Xdb) :=
  let prior_passnum := passnum db in
  let db := db{{passnum := u64 (passnum db + 1)}} in
  let '(rc, db) := MatchingInit fails db block_time first_pass prior_passnum max_xreqnum in
  if negb (rc =? 0) then Throw Db_Exception
  else
    let! r := base_loop (S (size (rows db))) db (SearchInitPairBase max_xreqnum) block_time count false in
    let '(changed_best, count, db) := r in
    if changed_best then
      let! r := FindMutualMatches db next_match_index block_time in
      let '(have, next, db) := r in
      Ret (have, next, count, db)
    else Ret (false, next_match_index, count, db).

Fixpoint pass_loop (fuel : nat) (db : Xdb) (block_time max_xreqnum : Z) (first_pass have_matches : bool) (next_match_index count : Z) : outcome (Z * Xdb) :=
  if shutdown (clock db) || negb have_matches || (1000000 <=? count) then Ret (next_match_index, db)
  else
    match fuel with
    | O => Throw FuelOut
    | S f =>
        let! r := MatchPass db block_time max_xreqnum first_pass next_match_index count in
        let '(have, next, count, db) := r in
        pass_loop f db block_time max_xreqnum false have next count
    end.

(** A pass that finds matches has looked at a pair, so a million passes are enough. *)
Definition MatchReqs (db : Xdb) (block_time max_xreqnum : Z) : outcome Xdb :=
  let! r := pass_loop (Z.to_nat 1000001) db block_time max_xreqnum true true 1 0 in
  let '(next, db) := r in
  let! db := AddMiningMatches db next block_time max_xreqnum in
  Ret (snd (XreqsClearOldPendingMatches fails db (block_time / XCX_MATCHING_SECS_PER_EPOCH) max_xreqnum)).
End engine.

(** ** The average of two rates lies between them *)

(** A positive rate on 52 bits, as the operations on portable floats make them. *)
Definition rate52 (v : double) : Prop := 0 < d_m v <= 2 ^ 52 /\ -1000 <= scale v <= 970.

Lemma rate52_double v : rate52 v -> is_double v /\ d_m v <> 0 /\ Z.sgn (d_m v) = 1.
Proof.
  intros [Hm Hs]. split; [|split; [lia | apply Z.sgn_pos; lia]]. assert (2 ^ 52 < 2 ^ 53) by reflexivity. split; [rewrite Z.abs_eq; lia|].
  unfold scale in Hs. rewrite Z.abs_eq in Hs by lia. pose proof (bits_bound (d_m v) ltac:(lia)).
  pose proof (bits_lt (d_m v) 52 ltac:(lia) ltac:(lia)). lia.
Qed.

(** The mantissa on 62 bits ends in ten zeros. *)
Lemma rate52_full v : rate52 v -> 2 ^ 61 <= full 62 v < 2 ^ 62 /\ exists c, full 62 v = c * 2 ^ 10.
Proof.
  intros Hv. destruct (rate52_double v Hv) as (Hd & Hn & _). split; [apply (full_range 62 v Hd Hn); lia|].
  destruct Hv as [Hm _]. unfold full. rewrite Z.abs_eq by lia. destruct (Z.eq_dec (d_m v) (2 ^ 52)) as [->|Hne].
  - exists (2 ^ 51). reflexivity.
  - pose proof (bits_le (d_m v) 52 ltac:(lia) ltac:(lia)). exists (d_m v * 2 ^ (52 - bits (d_m v))).
    rewrite <- Z.mul_assoc, <- Z.pow_add_r by lia. do 2 f_equal. lia.
Qed.

(** Rounding to a multiple does not pass another multiple. *)
Lemma shifted_ge m s r q c : shifted m s r q -> 0 <= s -> c * 2 ^ s <= m -> c <= q.
Proof. intros [H1 _ _ _] Hs Hc. pose proof (pow2_pos s Hs). nia. Qed.
Lemma shifted_le m s r q c : shifted m s r q -> 0 <= s -> m <= c * 2 ^ s -> q <= c.
Proof. intros [_ H2 _ _] Hs Hc. pose proof (pow2_pos s Hs). nia. Qed.

Record average_parts (A B d q Q s : Z) : Prop := {
  ap_shift : shifted B d 0 q;
  ap_round : shifted (A + q) s 0 Q;
  ap_fits : A + q < 2 ^ (52 + s);
  ap_low : s = 0 \/ 2 ^ (51 + s) <= A + q
}.

(** On integers: [Q * 2 ^ s] is what [A + B / 2 ^ d] is rounded to. *)
Lemma average_bounds A B d q Q s : average_parts A B d q Q s -> 2 ^ 61 <= A < 2 ^ 62 -> 2 ^ 61 <= B < 2 ^ 62 -> 0 <= d -> 0 <= s ->
  (exists c, A = c * 2 ^ 10) -> (exists c, B = c * 2 ^ 10) -> B <= A * 2 ^ d ->
  0 <= q <= A /\ 10 <= s <= 11 /\ Q * 2 ^ s <= 2 * A /\ 2 * B <= Q * 2 ^ s * 2 ^ d.
Proof.
  intros [Hq HQ Hlt Hlow] HA HB Hd Hs [a EA] [b EB] Hle.
  assert (Hq0 : 0 <= q) by (apply (shifted_ge B d 0 q 0 Hq Hd); lia).
  assert (HqA : q <= A) by (apply (shifted_le B d 0 q A Hq Hd); lia).
  assert (Hs10 : 10 <= s).
  { destruct (Z.le_gt_cases 10 s) as [|Hc]; [assumption|]. assert (2 ^ (52 + s) <= 2 ^ 61) by (apply Z.pow_le_mono_r; lia). lia. }
  assert (Hs11 : s <= 11).
  { destruct Hlow as [->|Hlow]; [lia|]. destruct (Z.le_gt_cases s 11) as [|Hc]; [assumption|].
    assert (2 ^ 63 <= 2 ^ (51 + s)) by (apply Z.pow_le_mono_r; lia). change (2 ^ 63) with (2 * 2 ^ 62) in *. lia. }
  split; [lia|]. split; [lia|]. destruct (Z.eq_dec s 10) as [->|Hne]; [|assert (s = 11) as -> by lia; clear Hne].
  - assert (H2A : Q <= 2 * a) by (apply (shifted_le _ 10 0 _ _ HQ); lia).
    split; [lia|]. destruct (Z.eq_dec d 0) as [->|Hd0]; [|destruct (Z.eq_dec d 1) as [->|Hd1]].
    + assert (q = B) as -> by (destruct Hq as [H1 H2 _ _]; rewrite Z.pow_0_r in *; lia).
      rewrite Z.pow_0_r, Z.mul_1_r. rewrite Z.pow_0_r, Z.mul_1_r in Hle. assert (2 * b <= Q) by (apply (shifted_ge _ 10 0 _ _ HQ); lia). lia.
    + assert (2 * q = B) by (destruct Hq as [H1 H2 _ _]; change (2 ^ 1) with 2 in *; change (2 ^ 10) with (2 * 512) in EB; lia).
      assert (b <= Q) by (apply (shifted_ge _ 10 0 _ _ HQ); lia). change (2 ^ 1) with 2. lia.
    + assert (a <= Q) by (apply (shifted_ge _ 10 0 _ _ HQ); lia).
      assert (2 ^ 2 <= 2 ^ d) by (apply Z.pow_le_mono_r; lia). change (2 ^ 2) with 4 in *.
      change (2 ^ 62) with (2 * 2 ^ 61) in HB. nia.
  - assert (H2A : Q <= a) by (apply (shifted_le _ 11 0 _ _ HQ); [lia|]; change (2 ^ 11) with (2 * 2 ^ 10); lia).
    split; [change (2 ^ 11) with (2 * 2 ^ 10); lia|].
    destruct Hlow as [|Hlow]; [lia|]. change (2 ^ (51 + 11)) with (2 ^ 51 * 2 ^ 11) in Hlow.
    pose proof (shifted_ge _ 11 0 _ _ HQ ltac:(lia) Hlow) as HQlow.
    destruct (Z.eq_dec d 0) as [->|Hd0].
    + assert (q = B) as -> by (destruct Hq as [H1 H2 _ _]; rewrite Z.pow_0_r in *; lia).
      rewrite Z.pow_0_r, Z.mul_1_r. rewrite Z.pow_0_r, Z.mul_1_r in Hle.
      assert (b <= Q) by (apply (shifted_ge _ 11 0 _ _ HQ); [lia|]; change (2 ^ 11) with (2 * 2 ^ 10); lia).
      change (2 ^ 11) with (2 * 2 ^ 10). lia.
    + assert (2 ^ 1 <= 2 ^ d) by (apply Z.pow_le_mono_r; lia). change (2 ^ 1) with 2 in *.
      assert (2 ^ 62 = 2 ^ 51 * 2 ^ 11) by reflexivity. nia.
Qed.

Lemma scale_le a b : rate52 a -> rate52 b -> dle b a = true -> scale b <= scale a.
Proof.
  intros Ha Hb Hle. destruct (rate52_double a Ha) as (Hda & Hna & Hga), (rate52_double b Hb) as (Hdb & Hnb & Hgb).
  destruct (rate52_full a Ha) as [HA _], (rate52_full b Hb) as [HB _].
  destruct (Z.le_gt_cases (scale b) (scale a)) as [|Hc]; [assumption|exfalso].
  pose proof (double_bits a Hda Hna). pose proof (double_bits b Hdb Hnb).
  set (k := scale a - 62). rewrite (dle_at k) in Hle by (unfold k, scale in *; lia). apply Z.leb_le in Hle.
  rewrite (at_full k 62 a), (at_full k 62 b), Hga, Hgb in Hle by (assumption || (unfold k; lia)).
  replace (scale a - 62 - k) with 0 in Hle by (unfold k; lia).
  assert (2 ^ 1 <= 2 ^ (scale b - 62 - k)) by (apply Z.pow_le_mono_r; unfold k; lia).
  change (2 ^ 1) with 2 in *. change (2 ^ 62) with (2 * 2 ^ 61) in *. nia.
Qed.

(** Order on the mantissas. *)
Lemma full_le a b : rate52 a -> rate52 b -> dle b a = true -> full 62 b <= full 62 a * 2 ^ (scale a - scale b).
Proof.
  intros Ha Hb Hle. pose proof (scale_le a b Ha Hb Hle) as Hs.
  destruct (rate52_double a Ha) as (Hda & Hna & Hga), (rate52_double b Hb) as (Hdb & Hnb & Hgb).
  pose proof (double_bits a Hda Hna). pose proof (double_bits b Hdb Hnb).
  set (k := scale b - 62). rewrite (dle_at k) in Hle by (unfold k, scale in *; lia). apply Z.leb_le in Hle.
  rewrite (at_full k 62 a), (at_full k 62 b), Hga, Hgb in Hle by (assumption || (unfold k; lia)).
  replace (scale b - 62 - k) with 0 in Hle by (unfold k; lia). replace (scale a - 62 - k) with (scale a - scale b) in Hle by (unfold k; lia). lia.
Qed.

(** What a value [M * 2 ^ e] is to two rates. *)
Lemma between_at a b M e : rate52 a -> rate52 b -> scale b <= scale a -> scale b - 63 <= e ->
  M * 2 ^ (e - (scale b - 63)) <= full 62 a * 2 ^ (scale a - scale b + 1) -> full 62 b * 2 <= M * 2 ^ (e - (scale b - 63)) ->
  dle b (mkD (1 * M) e) = true /\ dle (mkD (1 * M) e) a = true.
Proof.
  intros Ha Hb Hs He Hhi Hlo.
  destruct (rate52_double a Ha) as (Hda & Hna & Hga), (rate52_double b Hb) as (Hdb & Hnb & Hgb).
  pose proof (double_bits a Hda Hna). pose proof (double_bits b Hdb Hnb). set (k := scale b - 63) in *.
  split; rewrite (dle_at k) by (cbn [d_e]; unfold k, scale in *; lia); apply Z.leb_le;
    rewrite ?(at_full k 62 a), ?(at_full k 62 b), ?Hga, ?Hgb by (assumption || (unfold k; lia));
    unfold at_exp; cbn [d_m d_e].
  - replace (scale b - 62 - k) with 1 by (unfold k; lia). change (2 ^ 1) with 2. lia.
  - replace (scale a - 62 - k) with (scale a - scale b + 1) by (unfold k; lia). lia.
Qed.

Lemma Average_between a b : rate52 a -> rate52 b -> dle b a = true ->
  exists v, Average a b 0 = Ret v /\ dle b v = true /\ dle v a = true.
Proof.
  intros Ha Hb Hle. pose proof (scale_le a b Ha Hb Hle) as Hs. pose proof (full_le a b Ha Hb Hle) as Hfull.
  destruct (rate52_double a Ha) as (Hda & Hna & Hga), (rate52_double b Hb) as (Hdb & Hnb & Hgb).
  destruct (rate52_full a Ha) as [HA HA10], (rate52_full b Hb) as [HB HB10].
  assert (Hra : -1000 <= scale a <= 970) by apply Ha. assert (Hrb : -1000 <= scale b <= 970) by apply Hb.
  unfold Average, Add. change (8 * 8 - 2) with 62. rewrite (Decompose_full a), (Decompose_full b) by (assumption || lia).
  cbn [outcome_bind mant exp sign]. rewrite Hga, Hgb.
  assert (E62 : 2 ^ 62 = 2 * 2 ^ 61) by reflexivity. assert (E63 : 2 ^ 63 = 4 * 2 ^ 61) by reflexivity.
  rewrite (proj2 (Z.eqb_neq (full 62 a) 0)), (proj2 (Z.eqb_neq (full 62 b) 0)) by lia. cbn [orb].
  replace (scale a - 62 - (scale b - 62)) with (scale a - scale b) by lia. set (d := scale a - scale b) in *.
  destruct (Z.leb_spec 62 d) as [H1|H1].
  - (* the smaller rate is lost *)
    cbn [outcome_bind mant exp sign]. rewrite i16_small by lia.
    set (a' := mkD (d_m a) (d_e a - 1)).
    assert (Ea : scale a - 62 - 1 = scale a' - 62 /\ full 62 a = full 62 a' /\ full 53 a = full 53 a') by (unfold a', scale, full; cbn; split_and!; (reflexivity || lia)).
    assert (Hda' : is_double a') by (unfold a', is_double, scale in *; cbn; pose proof (double_bits a Hda Hna); destruct Hda; lia).
    destruct Ea as (E1 & E2 & E3). rewrite E1, E2, <- Hga. change (d_m a) with (d_m a').
    rewrite Recompose_full by (assumption || (unfold a', scale in *; cbn in *; lia)). change (d_m a') with (d_m a). rewrite Hga, <- E3.
    eexists. split; [reflexivity|]. assert (E9 : full 62 a = full 53 a * 2 ^ 9) by (change 62 with (9 + 53); apply full_split; [lia|]; pose proof (double_bits a Hda Hna); lia).
    apply between_at; try assumption; [lia|..].
    + replace (scale a' - 53 - (scale b - 63)) with (9 + d) by lia. rewrite Z.pow_add_r by lia. rewrite Z.mul_assoc, <- E9.
      apply Z.mul_le_mono_nonneg_l; [lia|]. apply Z.pow_le_mono_r; lia.
    + replace (scale a' - 53 - (scale b - 63)) with (9 + d) by lia. rewrite Z.pow_add_r by lia. rewrite Z.mul_assoc, <- E9.
      assert (2 ^ 62 <= 2 ^ d) by (apply Z.pow_le_mono_r; lia). nia.
  - destruct (Z.leb_spec 62 (- d)); [lia|]. rewrite (proj2 (Z.ltb_ge d 0)) by lia.
    assert (Hshift : exists q, (if 0 <? d then Shift (full 62 b) d 0 else Ret (full 62 b)) = Ret q /\ shifted (full 62 b) d 0 q).
    { destruct (Z.ltb_spec 0 d).
      - destruct (Shift_spec (full 62 b) d 0) as (q & Hq & Hsh & _); [lia|lia| |eauto].
        pose proof (pow2_pos d ltac:(lia)). apply Z.div_lt_upper_bound; nia.
      - exists (full 62 b). assert (d = 0) as -> by lia. split; [reflexivity|]. split; rewrite ?Z.pow_0_r; lia. }
    destruct Hshift as (q & -> & Hq). cbn [outcome_bind]. cbv zeta.
    assert (Hq0 : 0 <= q) by (apply (shifted_ge _ d 0 q 0 Hq); lia).
    assert (HqA : q <= full 62 a) by (apply (shifted_le _ d 0 q _ Hq); lia).
    rewrite (i64_small (full 62 a)), (i64_small q) by lia. rewrite !Z.mul_1_l.
    rewrite (i64_small (full 62 a)), (i64_small q), (i64_small (full 62 a + q)) by lia.
    rewrite Z.abs_eq, Z.sgn_pos by lia.
    destruct (Normalize_spec (full 62 a + q) (mkT (full 62 a) (scale a - 62) 1) 0) as (Q & s & -> & HQ & HQr & Hs0 & Hlt & Hlow);
      [assert (2 ^ 63 < 2 ^ 128) by reflexivity; lia | cbn [exp]; lia |].
    cbn [outcome_bind exp sign mant].
    destruct (average_bounds (full 62 a) (full 62 b) d q Q s) as (_ & Hs2 & Hup & Hdown); try assumption; try lia; [by split|].
    rewrite i16_small by lia. assert (HQ0 : 0 < Q) by (pose proof (pow2_pos s Hs0); pose proof (pow2_pos d ltac:(lia)); nia).
    pose proof (bits_lt Q 52 ltac:(lia) ltac:(lia)). pose proof (bits_bound Q HQ0).
    rewrite Recompose_exact by lia. eexists. split; [reflexivity|].
    replace (scale a - 62 + s - 1) with (scale b - 63 + (d + s)) by lia. apply between_at; try assumption; [lia|..];
      replace (scale b - 63 + (d + s) - (scale b - 63)) with (s + d) by lia; rewrite Z.pow_add_r by lia; rewrite Z.mul_assoc; [|lia].
    assert (E2 : 2 ^ (scale a - scale b + 1) = 2 ^ d * 2) by (fold d; rewrite Z.pow_add_r by lia; reflexivity).
    rewrite E2. replace (full 62 a * (2 ^ d * 2)) with (2 * full 62 a * 2 ^ d) by ring.
    pose proof (pow2_pos d ltac:(lia)). apply Z.mul_le_mono_nonneg_r; lia.
Qed.

(** ** The best candidate does not depend on the order *)

(** What [CheckMatch] offers to one of the two sides. *)
Record offer := mkOffer {
  of_other : Request;
  of_amount : Z;
  of_rate : double;
  of_hold : bool;
  of_net : double;
  of_other_net : double
}.

Definition consider (self : Request) (o : offer) : Request :=
  snd (Consider (of_amount o) (of_rate o) (of_hold o) self (of_net o) (of_other o) (of_other_net o)).
Definition consider_all (self : Request) (os : list offer) : Request := fold_left consider os self.

(** What a request remembers of its best candidate. *)
Definition best_of (x : Request) : Z * double * double * Z * Z * Z * double :=
  (x_best_amount x, x_best_rate x, best_net_rate x, x_best_other_seqnum x, best_other_xreqnum x,
   best_other_matching_amount x, best_other_net_rate x).
Definition best_offer (o : offer) : Z * double * double * Z * Z * Z * double :=
  (of_amount o, of_rate o, of_net o, x_seqnum (of_other o), x_xreqnum (of_other o), matching_amount (of_other o), of_other_net o).

Section better.
Variable buyer : bool.

(** By which a candidate is judged: net rates, amounts, number and sequence number. *)
#[local] Abbreviation score := (double * double * Z * Z * Z * Z)%type.

Definition offer_score (o : offer) : score :=
  (of_net o, of_other_net o, of_amount o, matching_amount (of_other o), x_xreqnum (of_other o), x_seqnum (of_other o)).
Definition best_score (x : Request) : score :=
  (best_net_rate x, best_other_net_rate x, x_best_amount x, best_other_matching_amount x, best_other_xreqnum x, x_best_other_seqnum x).

(** Requests without a number come last. *)
Definition number_rank (n : Z) : Z := if n =? 0 then 2 ^ 64 else n.

Definition towards (up : bool) (a b : double) : comparison := if up then dcompare a b else dcompare b a.

(** [Gt]: the first is better. *)
Definition better (s t : score) : comparison :=
  let '(n, on, a, m, x, q) := s in
  let '(n', on', a', m', x', q') := t in
  and_then (towards (negb buyer) n n') (and_then (towards buyer on on')
  (and_then (a ?= a') (and_then (m ?= m') (and_then (number_rank x' ?= number_rank x) (q' ?= q))))).

Lemma linear_towards up : linear (towards up).
Proof. destruct up; [apply linear_double | apply (linear_flip dcompare), linear_double]. Qed.

Lemma linear_better : linear better.
Proof.
  assert (E : forall s t : score, better s t =
    and_then (towards (negb buyer) s.1.1.1.1.1 t.1.1.1.1.1) (and_then (towards buyer s.1.1.1.1.2 t.1.1.1.1.2)
    (and_then (s.1.1.1.2 ?= t.1.1.1.2) (and_then (s.1.1.2 ?= t.1.1.2)
    (and_then (number_rank t.1.2 ?= number_rank s.1.2) (t.2 ?= s.2))))))
    by (intros [[[[[? ?] ?] ?] ?] ?] [[[[[? ?] ?] ?] ?] ?]; reflexivity).
  assert (H : linear (fun s t : score => and_then (towards (negb buyer) s.1.1.1.1.1 t.1.1.1.1.1) (and_then (towards buyer s.1.1.1.1.2 t.1.1.1.1.2)
    (and_then (s.1.1.1.2 ?= t.1.1.1.2) (and_then (s.1.1.2 ?= t.1.1.2)
    (and_then (number_rank t.1.2 ?= number_rank s.1.2) (t.2 ?= s.2))))))).
  { apply linear_and_then; [apply (linear_on (towards _) (fun s : score => s.1.1.1.1.1)), linear_towards|].
    apply linear_and_then; [apply (linear_on (towards _) (fun s : score => s.1.1.1.1.2)), linear_towards|].
    apply linear_and_then; [apply (linear_on Z.compare (fun s : score => s.1.1.1.2)); auto with linear|].
    apply linear_and_then; [apply (linear_on Z.compare (fun s : score => s.1.1.2)); auto with linear|].
    apply linear_and_then; [apply (linear_flip (fun s t : score => number_rank s.1.2 ?= number_rank t.1.2)), (linear_on Z.compare (fun s : score => number_rank s.1.2)); auto with linear|].
    apply (linear_flip (fun s t : score => s.2 ?= t.2)), (linear_on Z.compare (fun s : score => s.2)); auto with linear. }
  destruct H as [sym trans]. split; intros; rewrite !E in *; [apply sym | eapply trans; eassumption].
Qed.

Lemma better_eq s t : better s t = Eq -> s.2 = t.2.
Proof.
  destruct s as [[[[[? ?] ?] ?] ?] q], t as [[[[[? ?] ?] ?] ?] q']. unfold better, and_then.
  repeat match goal with |- context [match ?c with Eq => _ | _ => _ end] => destruct c; try discriminate end.
  intros E. apply Z.compare_eq in E. by cbn.
Qed.
End better.

Lemma towards_tie up a b : deq a b = true <-> towards up a b = Eq.
Proof.
  rewrite deq_compare. unfold towards. destruct up; [by destruct (dcompare a b)|].
  rewrite (linear_sym _ linear_double a b). by destruct (dcompare a b).
Qed.

Lemma towards_xor up a b : deq a b = false -> xorb (negb up) (dlt b a) = match towards up a b with Gt => true | _ => false end.
Proof.
  rewrite deq_compare, dlt_compare, (linear_sym _ linear_double a b). unfold towards. rewrite (linear_sym _ linear_double a b).
  destruct up, (dcompare a b); cbn; congruence.
Qed.

Definition number_ok (n : Z) : Prop := 0 <= n < 2 ^ 64.

Lemma rank_compare n m : number_ok n -> number_ok m -> n <> m ->
  (m =? 0) || negb (n =? 0) && (n <? m) = match number_rank m ?= number_rank n with Gt => true | _ => false end.
Proof.
  unfold number_ok, number_rank. intros. destruct (Z.eqb_spec m 0), (Z.eqb_spec n 0); try lia; cbn [orb negb andb].
  - by rewrite (proj2 (Z.compare_gt_iff _ _)) by lia.
  - by rewrite (proj2 (Z.compare_lt_iff _ _)) by lia.
  - unfold Z.ltb. rewrite (Z.compare_antisym m n). by destruct (m ?= n).
Qed.

Lemma CompareRates_better x o : x_best_amount x <> 0 ->
  number_ok (x_xreqnum (of_other o)) -> number_ok (best_other_xreqnum x) ->
  CompareRates x (of_net o) (of_other o) (of_other_net o) (of_amount o)
  = match better (IsBuyer x) (offer_score o) (best_score x) with Gt => true | _ => false end.
Proof.
  intros Ha Hn Hm. unfold CompareRates, better, offer_score, best_score, and_then.
  rewrite (proj2 (Z.eqb_neq _ _) Ha). cbv iota.
  destruct (deq (of_net o) (best_net_rate x)) eqn:E1; cbn [negb].
  2: { destruct (towards (negb (IsBuyer x)) (of_net o) (best_net_rate x)) eqn:E; [by apply towards_tie in E; congruence|..];
       rewrite <- (negb_involutive (IsBuyer x)) at 1; rewrite towards_xor, E by exact E1; reflexivity. }
  rewrite (proj1 (towards_tie (negb (IsBuyer x)) _ _) E1).
  destruct (deq (of_other_net o) (best_other_net_rate x)) eqn:E2; cbn [negb].
  2: { assert (E2' : deq (best_other_net_rate x) (of_other_net o) = false).
       { revert E2. rewrite !deq_compare, (linear_sym _ linear_double (of_other_net o)). by destruct (dcompare _ _). }
       destruct (towards (IsBuyer x) (of_other_net o) (best_other_net_rate x)) eqn:E; [by apply towards_tie in E; congruence|..];
       rewrite <- (negb_involutive (IsBuyer x)) at 1; rewrite towards_xor by exact E2';
       revert E; unfold towards; destruct (IsBuyer x); cbn [negb]; intros ->; reflexivity. }
  rewrite (proj1 (towards_tie (IsBuyer x) _ _) E2).
  destruct (Z.eqb_spec (of_amount o) (x_best_amount x)) as [->|E3]; cbn [negb].
  2: { unfold Z.ltb. rewrite (Z.compare_antisym (of_amount o)). destruct (Z.compare_spec (of_amount o) (x_best_amount x)); [congruence|..]; reflexivity. }
  rewrite Z.compare_refl.
  destruct (Z.eqb_spec (matching_amount (of_other o)) (best_other_matching_amount x)) as [->|E4]; cbn [negb].
  2: { unfold Z.ltb. rewrite (Z.compare_antisym (matching_amount (of_other o))).
       destruct (Z.compare_spec (matching_amount (of_other o)) (best_other_matching_amount x)); [congruence|..]; reflexivity. }
  rewrite Z.compare_refl.
  destruct (Z.eqb_spec (x_xreqnum (of_other o)) (best_other_xreqnum x)) as [->|E5]; cbn [negb].
  2: { rewrite rank_compare by assumption.
       destruct (Z.compare_spec (number_rank (best_other_xreqnum x)) (number_rank (x_xreqnum (of_other o)))) as [E|E|E]; try reflexivity.
       exfalso. unfold number_rank, number_ok in *. destruct (Z.eqb_spec (best_other_xreqnum x) 0), (Z.eqb_spec (x_xreqnum (of_other o)) 0); lia. }
  rewrite Z.compare_refl. unfold Z.ltb. rewrite (Z.compare_antisym (x_best_other_seqnum x)). by destruct (_ ?= _).
Qed.

Record offers_ok (os : list offer) : Prop := {
  offers_amounts : Forall (fun o => of_amount o <> 0) os;
  offers_numbers : Forall (fun o => number_ok (x_xreqnum (of_other o))) os;
  offers_distinct : NoDup ((fun o => x_seqnum (of_other o)) <$> os)
}.

(** After [os], [x] remembers the best of them. *)
Definition remembers (buyer : bool) (os : list offer) (x : Request) : Prop :=
  IsBuyer x = buyer
  /\ match os with
     | [] => x_best_amount x = 0
     | _ => exists o, o ∈ os /\ best_of x = best_offer o
            /\ forall o', o' ∈ os -> better buyer (offer_score o') (offer_score o) <> Gt
     end.

Lemma best_score_of x o : best_of x = best_offer o -> best_score x = offer_score o.
Proof. unfold best_of, best_offer, best_score, offer_score. intros [= -> ? -> -> -> -> ->]. reflexivity. Qed.

Lemma SetMatch_best amount rate hold x net other onet :
  best_of (SetMatch amount rate hold x net other onet) = (amount, rate, net, x_seqnum other, x_xreqnum other, matching_amount other, onet)
  /\ IsBuyer (SetMatch amount rate hold x net other onet) = IsBuyer x.
Proof. unfold SetMatch. by destruct hold. Qed.

Lemma consider_remembers buyer os x o : remembers buyer os x ->
  Forall (fun o => of_amount o <> 0) (o :: os) -> Forall (fun o => number_ok (x_xreqnum (of_other o))) (o :: os) ->
  remembers buyer (o :: os) (consider x o).
Proof.
  intros (Hb & Hr) Ha Hn. apply Forall_cons in Ha as [Ha Has], Hn as [Hn Hns]. unfold consider, Consider.
  pose proof (linear_better buyer) as Hlin.
  assert (Href : forall s, better buyer s s <> Gt) by (intros s Hs; pose proof (linear_sym _ Hlin s s) as E; rewrite Hs in E; discriminate).
  destruct os as [|o0 os'].
  - unfold CompareRates. rewrite Hr. change (0 =? 0) with true. cbv iota. cbn [snd].
    destruct (SetMatch_best (of_amount o) (of_rate o) (of_hold o) x (of_net o) (of_other o) (of_other_net o)) as [E1 E2].
    split; [congruence|]. exists o. split; [apply list_elem_of_here|]. split; [exact E1|].
    intros o' [->|[]%elem_of_nil]%elem_of_cons. apply Href.
  - destruct Hr as (b & Hin & Hbest & Hmax). rewrite CompareRates_better.
    2: { assert (x_best_amount x = of_amount b) as -> by (unfold best_of, best_offer in Hbest; congruence). rewrite Forall_forall in Has. by apply Has. }
    2: { exact Hn. }
    2: { assert (best_other_xreqnum x = x_xreqnum (of_other b)) as -> by (unfold best_of, best_offer in Hbest; congruence). rewrite Forall_forall in Hns. by apply Hns. }
    rewrite (best_score_of _ _ Hbest), Hb. destruct (better buyer (offer_score o) (offer_score b)) eqn:E; cbn [snd].
    1, 2: split; [exact Hb|]; exists b; split; [by apply list_elem_of_further|]; split; [exact Hbest|];
      intros o' [->|Hin']%elem_of_cons; [congruence | by apply Hmax].
    destruct (SetMatch_best (of_amount o) (of_rate o) (of_hold o) x (of_net o) (of_other o) (of_other_net o)) as [E1 E2].
    split; [congruence|]. exists o. split; [apply list_elem_of_here|]. split; [exact E1|].
    intros o' [->|Hin']%elem_of_cons; [apply Href|].
    apply (linear_trans _ Hlin _ (offer_score b)); [by apply Hmax|]. rewrite (linear_sym _ Hlin (offer_score o)), E. discriminate.
Qed.

Lemma remembers_perm buyer os os' x : os ≡ₚ os' -> remembers buyer os x -> remembers buyer os' x.
Proof.
  intros Hp (Hb & Hr). split; [exact Hb|]. destruct os as [|o os].
  - apply Permutation_nil in Hp. by subst.
  - destruct os' as [|o' os']; [by apply Permutation_sym, Permutation_nil in Hp|].
    destruct Hr as (b & Hin & Hbest & Hmax). exists b. split; [by rewrite <- Hp|]. split; [exact Hbest|].
    intros c Hc. apply Hmax. by rewrite Hp.
Qed.

Lemma consider_all_remembers buyer os : forall seen x, remembers buyer seen x ->
  Forall (fun o => of_amount o <> 0) (os ++ seen) -> Forall (fun o => number_ok (x_xreqnum (of_other o))) (os ++ seen) ->
  remembers buyer (os ++ seen) (consider_all x os).
Proof.
  induction os as [|o os IH]; intros seen x Hr Ha Hn; [exact Hr|]. cbn [app] in *.
  assert (Hperm : os ++ o :: seen ≡ₚ o :: os ++ seen) by (symmetry; apply Permutation_middle).
  apply (remembers_perm _ (os ++ o :: seen)); [exact Hperm|]. unfold consider_all. cbn [fold_left].
  apply IH; [|by rewrite Hperm|by rewrite Hperm].
  apply consider_remembers; [exact Hr| |]; apply Forall_cons in Ha as [? Ha], Hn as [? Hn];
    apply Forall_app in Ha as [? ?], Hn as [? ?]; by constructor.
Qed.

(** C9. In whatever order a request meets its candidates, it remembers the same one: the one
    that no other beats by the net rates, amounts, number and sequence number that
    [CompareRates] looks at.  So all nodes, whose tables differ in the order of rows, find the same matches. *)
Theorem best_match_order_independent self os os' :
  x_best_amount self = 0 -> offers_ok os -> os ≡ₚ os' ->
  best_of (consider_all self os) = best_of (consider_all self os')
  /\ (os <> [] -> exists o, o ∈ os /\ best_of (consider_all self os) = best_offer o
       /\ forall o', o' ∈ os -> o' <> o -> better (IsBuyer self) (offer_score o) (offer_score o') = Gt).
Proof.
  intros H0 [Ha Hn Hd] Hp.
  assert (H1 : remembers (IsBuyer self) os (consider_all self os)).
  { rewrite <- (app_nil_r os) at 1. apply consider_all_remembers; [done|by rewrite app_nil_r|by rewrite app_nil_r]. }
  assert (H2 : remembers (IsBuyer self) os (consider_all self os')).
  { apply (remembers_perm _ os'); [by symmetry|]. rewrite <- (app_nil_r os') at 1.
    apply consider_all_remembers; [done|by rewrite app_nil_r, <- Hp|by rewrite app_nil_r, <- Hp]. }
  pose proof (linear_better (IsBuyer self)) as Hlin.
  assert (Huniq : forall o o', o ∈ os -> o' ∈ os -> better (IsBuyer self) (offer_score o) (offer_score o') = Eq -> o = o').
  { intros o o' Hi Hi' He. apply better_eq in He. cbn in He.
    apply list_elem_of_lookup in Hi as [i Hi], Hi' as [j Hj].
    assert (i = j) as <-; [|congruence]. apply (NoDup_lookup _ i j (x_seqnum (of_other o)) Hd); rewrite list_lookup_fmap; [rewrite Hi|rewrite Hj]; cbn; congruence. }
  destruct os as [|o0 os0].
  - apply Permutation_nil in Hp. subst. split; [done|congruence].
  - destruct H1 as (_ & b & Hb & Eb & Mb), H2 as (_ & c & Hc & Ec & Mc). split.
    + assert (b = c) as <-; [|congruence]. apply Huniq; [done|done|].
      pose proof (Mb c Hc) as Hcb. pose proof (Mc b Hb) as Hbc. rewrite (linear_sym _ Hlin (offer_score b)) in Hcb. by destruct (better _ _ _).
    + intros _. exists b. split; [done|]. split; [exact Eb|]. intros o' Ho' Hne.
      pose proof (Mb o' Ho') as Hle. rewrite (linear_sym _ Hlin (offer_score o')).
      destruct (better (IsBuyer self) (offer_score o') (offer_score b)) eqn:E; [by apply Huniq in E|reflexivity|congruence].
Qed.

(** ** What a match agrees on *)

(** Step through a computation that returned. *)
Ltac returned H :=
  lazymatch type of H with
  | outcome_bind _ _ = Ret _ => let v := fresh "v" in let E := fresh "E" in apply outcome_bind_Ret in H as (v & E & H)
  | (if ?c then _ else Throw _) = Ret _ => let E := fresh "A" in destruct c eqn:E; [|discriminate H]
  | (if ?c then Ret None else _) = Ret (Some _) => let E := fresh "C" in destruct c eqn:E; [discriminate H|]
  end.

Section agreement.
Context `{AmtFloat}.
Variables fails : nat -> bool.
Variable IsWitness : bool.

(** The rate that a request asks of an amount, as the comparison has it. *)
Definition rate_for (x : Request) (amount : Z) : outcome double :=
  if amount <? matching_amount x then RateRequired x amount else Ret (matching_rate_required x).

(** The amount is all that one of the two has left, the rate is the average of what the two
    ask for, and neither expires while the match is on hold. *)
Record agreed (buyer seller : Request) (block_time : Z) (c : candidate) : Prop := {
  ag_sides : IsBuyer buyer = true /\ IsSeller seller = true;
  ag_amount : cd_amount c = Z.min (matching_amount buyer) (matching_amount seller) /\ cd_amount c <> 0;
  ag_rate : exists rb rs, rate_for buyer (cd_amount c) = Ret rb /\ rate_for seller (cd_amount c) = Ret rs
    /\ dle rs rb = true /\ Average rb rs 0 = Ret (cd_rate c)
    /\ (rate52 rb -> rate52 rs -> dle rs (cd_rate c) = true /\ dle (cd_rate c) rb = true);
  ag_hold : cd_hold c = ComputeMatchHold buyer seller block_time;
  ag_expire : u64 (block_time + cd_hold c) < t_expire_time (x_terms buyer) /\ u64 (block_time + cd_hold c) < t_expire_time (x_terms seller);
  ag_mining : x_type buyer = CC_TYPE_XCX_SIMPLE_BUY \/ x_type buyer = CC_TYPE_XCX_MINING_BUY ->
    x_type seller = CC_TYPE_XCX_SIMPLE_SELL \/ x_type seller = CC_TYPE_XCX_MINING_SELL
}.

Lemma MatchTerms_agreed buyer seller t c : MatchTerms buyer seller t = Ret (Some c) -> agreed buyer seller t c.
Proof.
  intros E. unfold MatchTerms in E. cbv zeta in E.
  set (amount := if matching_amount seller <? matching_amount buyer then matching_amount seller else matching_amount buyer) in *.
  assert (Ea : amount = Z.min (matching_amount buyer) (matching_amount seller))
    by (unfold amount; destruct (Z.ltb_spec (matching_amount seller) (matching_amount buyer)); lia).
  repeat returned E. injection E as <-. cbn [cd_amount cd_rate cd_hold].
  repeat match goal with Hb : (_ && _) = true |- _ => apply andb_true_iff in Hb as [? ?] end.
  match goal with Ha : Average ?rb ?rs 0 = Ret _, Hrb : _ = Ret ?rb, Hrs : _ = Ret ?rs, Hl : dle ?rs ?rb = true |- _ =>
    rename Ha into Havg, Hrb into Erb, Hrs into Ers, Hl into Hle end.
  match goal with Hx : orb (Z.leb _ _) _ = false |- _ => apply orb_false_iff in Hx as [X1 X2]; apply Z.leb_gt in X1, X2 end.
  split; cbn [cd_amount cd_rate cd_hold].
  - by split.
  - split; [exact Ea|]. by apply Z.eqb_neq, negb_true_iff.
  - eexists _, _. split; [exact Erb|]. split; [exact Ers|]. split; [exact Hle|]. split; [exact Havg|].
    intros Hb Hs. destruct (Average_between _ _ Hb Hs Hle) as (w & Ew & ? & ?). rewrite Ew in Havg. by injection Havg as ->.
  - reflexivity.
  - split; assumption.
  - intros Hb. match goal with Hc : (_ && negb _ && negb _) = false |- _ => rename Hc into Hty end.
    destruct (Z.eqb_spec (x_type seller) CC_TYPE_XCX_SIMPLE_SELL) as [|Y3]; [by left|].
    destruct (Z.eqb_spec (x_type seller) CC_TYPE_XCX_MINING_SELL) as [|Y4]; [by right|]. exfalso. revert Hty. cbn [negb].
    rewrite !andb_true_r. destruct Hb as [-> | ->]; [rewrite Z.eqb_refl | rewrite Z.eqb_refl, orb_true_r]; discriminate.
Qed.

(** What comparing a request with others never changes. *)
Definition same_request (x y : Request) : Prop :=
  x_terms y = x_terms x /\ x_seqnum y = x_seqnum x /\ x_xreqnum y = x_xreqnum x /\ x_open_amount y = x_open_amount x
  /\ matching_amount y = matching_amount x /\ open_rate_required y = open_rate_required x
  /\ matching_rate_required y = matching_rate_required x /\ recalc y = recalc x.

Lemma same_request_refl x : same_request x x.
Proof. by unfold same_request. Qed.
Lemma same_request_trans x y z : same_request x y -> same_request y z -> same_request x z.
Proof. unfold same_request. intuition congruence. Qed.

Lemma ComputeDiscount_same x r hold t x' r' : ComputeDiscount x r hold t = Ret (x', r') -> same_request x x' /\ best_of x' = best_of x.
Proof.
  unfold ComputeDiscount. intros E. destruct (_ || _ || _); [injection E as <- <-; split; [apply same_request_refl|reflexivity]|].
  cbv zeta in E. do 3 returned E. destruct (deq _ _); [injection E as <- <-; split; [apply same_request_refl|reflexivity]|].
  returned E. injection E as <- <-. destruct (_ || _); (split; [by unfold same_request|reflexivity]).
Qed.

Lemma Consider_cases amount rate hold x net other onet b x' : Consider amount rate hold x net other onet = (b, x') ->
  same_request x x' /\ best_of x' = (if b then (amount, rate, net, x_seqnum other, x_xreqnum other, matching_amount other, onet) else best_of x).
Proof.
  unfold Consider. destruct (CompareRates _ _ _ _ _); intros [= <- <-]; [|split; [apply same_request_refl|reflexivity]].
  split; [unfold SetMatch; by destruct hold | apply SetMatch_best].
Qed.

Lemma write_changed_same db x x' db' : write_changed fails db x = Ret (x', db') -> same_request x x' /\ best_of x' = best_of x
  /\ forall n, n <> x_seqnum x -> rows db' !! n = rows db !! n.
Proof.
  unfold write_changed. intros E. destruct (changed x); [|injection E as <- <-; split_and!; [apply same_request_refl|reflexivity|done]].
  cbv zeta in E. returned E. destruct v as [rc r]. cbn [fst snd] in E. returned E. injection E as <- <-. split; [by unfold same_request|]. split; [reflexivity|].
  intros n Hn. unfold XreqsUpdate in E0. cbv zeta in E0. returned E0. destruct (fails _); injection E0 as <- <-; [by cbn in A|].
  refine (lookup_alter_ne _ _ _ _ _). by apply not_eq_sym.
Qed.

(** What a request has besides its best candidate, its time of recalculation and the mark. *)
Definition other_columns (x : Request) : Request :=
  x{{x_best_amount := 0; x_best_rate := zero; best_net_rate := zero; x_best_other_seqnum := 0; best_other_xreqnum := 0;
     best_other_matching_amount := 0; best_other_net_rate := zero; recalc_time := 0; changed := false}}.

(** The request and its net rate after the discount, if the match has to be on hold. *)
Definition discounted (t : Z) (c : candidate) (x : Request) (own : double) (x1 : Request) (net : double) : Prop :=
  if cd_hold c =? 0 then x1 = x /\ net = own else ComputeDiscount x own (cd_hold c) t = Ret (x1, net).

(** One side of a comparison: [x1] is [x] after the discount, [better] says whether it takes the
    other as its best, and [x'] is what is left in memory and in the table. *)
Record compared (c : candidate) (x x1 other : Request) (net onet : double) (better : bool) (x' : Request) (db db' : Xdb) : Prop := {
  cm_better : better = CompareRates x net other onet (cd_amount c);
  cm_best : best_of x' = if better then (cd_amount c, cd_rate c, net, x_seqnum other, x_xreqnum other, matching_amount other, onet) else best_of x;
  cm_recalc : recalc_time x' = if better && negb (cd_hold c =? 0) then XREQ_RECALC_NEXT else recalc_time x1;
  cm_others : other_columns x' = other_columns x;
  cm_row : x_seqnum x <> x_seqnum other -> rows db' !! x_seqnum x =
    if changed x1 || better then (fun old => update_row old x') <$> rows db !! x_seqnum x else rows db !! x_seqnum x
}.

Lemma discounted_columns t c x own x1 net : discounted t c x own x1 net -> other_columns x1 = other_columns x /\ best_of x1 = best_of x.
Proof.
  unfold discounted. destruct (_ =? 0); [by intros [-> _]|]. unfold ComputeDiscount. intros E.
  destruct (_ || _ || _); [by injection E as <- _|]. cbv zeta in E. do 3 returned E. destruct (deq _ _); [by injection E as <- _|].
  returned E. injection E as <- _. destruct (_ || _); split; reflexivity.
Qed.

Lemma write_changed_rows db x x' db' : write_changed fails db x = Ret (x', db') ->
  best_of x' = best_of x /\ recalc_time x' = recalc_time x /\ other_columns x' = other_columns x /\ x_seqnum x' = x_seqnum x
  /\ rows db' = if changed x then alter (fun old => update_row old x') (x_seqnum x) (rows db) else rows db.
Proof.
  unfold write_changed. intros E. destruct (changed x); [|by injection E as <- <-].
  cbv zeta in E. returned E. destruct v as [rc r]. cbn [fst snd] in E. returned E. injection E as <- <-. split_and!; try reflexivity.
  unfold XreqsUpdate in E0. cbv zeta in E0. returned E0. destruct (fails _); injection E0 as <- <-; [by cbn in A|]. reflexivity.
Qed.

Lemma written_row (b : bool) f k (t : gmap Z Request) : (if b then alter f k t else t) !! k = if b then f <$> t !! k else t !! k.
Proof. destruct b; [apply lookup_alter_eq | reflexivity]. Qed.
Lemma written_other (b : bool) f i k (t : gmap Z Request) : i <> k -> (if b then alter f i t else t) !! k = t !! k.
Proof. intros Hn. destruct b; [by apply lookup_alter_ne | reflexivity]. Qed.

(** [other'] is the other side as it is when this side considers it. *)
Lemma Consider_compared t c x own x1 net other' onet better x2 db x' db' : discounted t c x own x1 net ->
  Consider (cd_amount c) (cd_rate c) (negb (cd_hold c =? 0)) x1 net other' onet = (better, x2) -> write_changed fails db x2 = Ret (x', db') ->
  forall other, x_seqnum other' = x_seqnum other -> x_xreqnum other' = x_xreqnum other -> matching_amount other' = matching_amount other ->
  better = CompareRates x net other onet (cd_amount c)
  /\ best_of x' = (if better then (cd_amount c, cd_rate c, net, x_seqnum other, x_xreqnum other, matching_amount other, onet) else best_of x)
  /\ recalc_time x' = (if better && negb (cd_hold c =? 0) then XREQ_RECALC_NEXT else recalc_time x1)
  /\ other_columns x' = other_columns x
  /\ rows db' = if changed x1 || better then alter (fun old => update_row old x') (x_seqnum x) (rows db) else rows db.
Proof.
  intros Hd Ec Ew other Hs Hn Ha. destruct (discounted_columns _ _ _ _ _ _ Hd) as [Ho Hb]. destruct (write_changed_rows _ _ _ _ Ew) as (Wb & Wr & Wo & Ws & Wd).
  assert (Hseq : x_seqnum x1 = x_seqnum x) by exact (f_equal x_seqnum Ho).
  assert (Hc : CompareRates x1 net other' onet (cd_amount c) = CompareRates x net other onet (cd_amount c)).
  { unfold CompareRates. assert (IsBuyer x1 = IsBuyer x) as -> by exact (f_equal IsBuyer Ho). unfold best_of in Hb. injection Hb as -> _ -> -> -> -> ->. by rewrite Hs, Hn, Ha. }
  unfold Consider in Ec. rewrite Hc in Ec. destruct (CompareRates x _ _ _ _); injection Ec as <- <-.
  - split; [reflexivity|]. rewrite orb_true_r. split; [rewrite <- Hs, <- Hn, <- Ha; refine (eq_trans Wb _); apply SetMatch_best|]. unfold SetMatch in *. cbn [andb].
    destruct (negb _); (split; [exact Wr|]; split; [rewrite <- Ho; exact Wo|]; rewrite <- Hseq; exact Wd).
  - split; [reflexivity|]. rewrite orb_false_r. split; [by rewrite <- Hb|]. split; [exact Wr|]. split; [by rewrite <- Ho|]. by rewrite <- Hseq.
Qed.

End agreement.

(** ** Witnesses *)

(** Amounts are in units of 10^-27; the conversion rounds to nearest. *)
Definition nearest_quotient (n d : Z) : double :=
  let s := bits n - bits d - 60 in
  let n := n * 2 ^ Z.max 0 (- s) in
  let d := d * 2 ^ Z.max 0 s in
  let q := if n mod d =? 0 then n / d else Z.lor (n / d) 1 in
  let k := bits q - 53 in
  mkD (shift_even q k) (s + k).
Definition amounts27 : AmtFloat := {|
  asDouble _ amount := if amount <=? 0 then zero else nearest_quotient amount (10 ^ 27);
  amount_from_full _ v := (0, Z.shiftl (d_m v * 10 ^ 27) (d_e v)) |}.
#[local] Existing Instance amounts27.

Definition plain_flags : Flags := mkFlags false true false false false false.
Definition demo_terms (type : Z) (oid addr : list Z) (amount : Z) (rate costs : double) : Terms :=
  mkTerms type oid 5000 0 1 [] addr 77 [] (10 ^ 27) amount rate zero zero costs 0 0 50 60 60 60 0 0 43200 12 plain_flags.
Definition works (n : nat) : bool := false.

Definition demo_request (t : Terms) (num : Z) (amount : Z) (rate : double) : Request :=
  mkRequest t (100 + num) 0 num 1000 amount rate 0 0 0 zero 0 amount rate 0 true 0 0 zero zero 0 0 0 zero false.
(** A buyer of 3 for at most 1/4, a seller of 2 for at least 1/8. *)
Definition demo_buy : Request :=
  demo_request (demo_terms CC_TYPE_XCX_SIMPLE_BUY [1] [] (3 * 10 ^ 27) (mkD (2 ^ 20) (-22)) zero) 1 (3 * 10 ^ 27) (mkD (2 ^ 51) (-53)).
Definition demo_sell : Request :=
  demo_request (demo_terms CC_TYPE_XCX_SIMPLE_SELL [2] [113] (2 * 10 ^ 27) (mkD (2 ^ 20) (-23)) zero) 2 (2 * 10 ^ 27) (mkD (2 ^ 51) (-54)).
Definition demo_xdb : Xdb := mkXdb {[101 := demo_buy; 102 := demo_sell]} 0 2 0 1 false.


Definition demo_offer (num : Z) (net : double) : offer :=
  mkOffer (demo_request (x_terms demo_sell) num (10 ^ 27) net) (10 ^ 27) net false net net.

Lemma best_match_order_independent_witness :
  best_of (consider_all demo_buy [demo_offer 2 (mkD 3 0); demo_offer 3 (mkD 1 0); demo_offer 4 (mkD 2 (-1))])
  = best_of (consider_all demo_buy [demo_offer 4 (mkD 2 (-1)); demo_offer 2 (mkD 3 0); demo_offer 3 (mkD 1 0)]).
Proof.
  apply (best_match_order_independent demo_buy).
  - reflexivity.
  - split.
    + repeat constructor; discriminate.
    + repeat constructor; discriminate.
    + apply (bool_decide_unpack _). vm_compute. exact I.
  - etransitivity; [apply perm_skip, perm_swap|apply perm_swap].
Defined.
