(* ===== verification/XreqFlow.v ===== *)
(** * Exchange requests over time (src/source/ccnode/src/process-xreq.cpp, blockchain.cpp)

    Requests enter the table of XreqTable.v when they are valid and when they are in a block;
    between two rounds of the engine of Matching.v their matches become permanent and
    requests that expired or are too many are closed, with what they hold paid back. *)
From Stdlib Require Import Sorting.Sorted.
From stdpp Require Import gmap sorting.
From coqutil Require Import Datatypes.RecordSetters.
Import DoubleBraceUpdate.
From S2P Require Import Prelude Rows Bigint Block ZkHash Objects Txs UniFloat WireFloat TxAmount TxWire Merkle Xmatch XtxWire MatchTables ProcessTx Mining Settle Settlement XreqTable Matching.

Local Open Scope Z_scope.
Local Open Scope cc_scope.

(** ** Requests come and go *)

Definition ConvertTradeObjIdToSellObjId (oid : list Z) : list Z :=
  match oid with [] => [] | b :: rest => Z.lxor b 1 :: rest end.

Definition with_type (t : Terms) (type : Z) (oid addr : list Z) : Terms :=
  t{{t_type := type; objid := oid; t_foreign_address := addr}}.

Definition ConvertTradeToBuy (x : Request) : outcome Request :=
  ccassert! x_type x =? CC_TYPE_XCX_MINING_TRADE in
  Ret x{{x_terms := with_type (x_terms x) CC_TYPE_XCX_MINING_BUY (objid (x_terms x)) [] }}.

Definition ConvertTradeToSell (x : Request) : outcome Request :=
  ccassert! x_type x =? CC_TYPE_XCX_MINING_TRADE in
  Ret x{{x_terms := with_type (x_terms x) CC_TYPE_XCX_MINING_SELL (ConvertTradeObjIdToSellObjId (objid (x_terms x))) (t_foreign_address (x_terms x));
         x_seqnum := 0; x_xreqnum := 0}}.

(** A request with terms and nothing else, as parsing leaves it. *)
Definition new_request (t : Terms) : Request :=
  mkRequest t 0 0 0 0 0 zero 0 0 0 zero 0 0 zero 0 false 0 0 zero zero 0 0 0 zero false.

(** The state of the node that the exchange uses: what Settle.v has, the table of requests,
    and the next numbers of requests and matches. *)
Record node (D : Type) := mkNode {
  n_world : world D;
  n_xdb : Xdb;
  next_xreqnum : Z;
  next_xmatchnum : Z
}.
Arguments mkNode {D} _ _ _ _.
Arguments n_world {D} _.
Arguments n_xdb {D} _.
Arguments next_xreqnum {D} _.
Arguments next_xmatchnum {D} _.

Section requests.
Context `{AmtFloat}.
Variable fails : nat -> bool.

(** The new request, and the result. *)
Definition AddRequest (db : Xdb) (x : Request) (fresh : Z) : outcome (Z * Request * Xdb) :=
  let open := max_amount (x_terms x) in
  let! rate := RateRequired x open in
  XreqsInsert fails db x{{x_open_amount := open; open_rate_required := rate; recalc_time := XREQ_RECALC_NEXT}} fresh.

(** A request that is valid but not in a block yet, [parsed] from the transaction; a trade is
    a buyer's and a seller's.  [fresh] are the numbers that [NextNum] gives. *)
Definition AddPendingRequest (db : Xdb) (parsed : option Terms) (seqnum : Z) (oid : list Z) (fresh : nat -> Z) : outcome (Z * Xdb) :=
  match parsed with
  | None => Ret (-1, db)
  | Some t =>
      let x := (new_request t{{objid := oid}}){{x_seqnum := seqnum}} in
      if negb (x_type x =? CC_TYPE_XCX_MINING_TRADE) then
        let! r := AddRequest db x (fresh 0%nat) in
        Ret (fst (fst r), snd r)
      else
        let! buy := ConvertTradeToBuy x in
        let! sell := ConvertTradeToSell x in
        let sell := sell{{x_seqnum := fresh 0%nat}} in
        let! r := AddRequest db buy{{linked_seqnum := x_seqnum sell}} (fresh 1%nat) in
        let '(rc, buy, db) := r in
        if negb (rc =? 0) then Ret (rc, db)
        else
          let! r := AddRequest db sell{{linked_seqnum := x_seqnum buy}} (fresh 2%nat) in
          Ret (fst (fst r), snd r)
  end.
End requests.

Section node.
Context {D : Type} `{CommitDb D} `{TxOutputDb D} `{OutputHashes} `{ChainParams} `{AmtFloat}.
Variables fails shutdown : nat -> bool.

Definition with_xdb (n : node D) (db : Xdb) : node D := n{{n_xdb := db}}.
Definition with_world (n : node D) (w : world D) : node D := n{{n_world := w}}.

(** [BlockChain::AddOneXreq] of blockchain.cpp: a request of an indelible block, in the table of
    requests and in those of matches.  True is an error; the request comes back. *)
Definition AddOneXreq (n : node D) (fault fault2 : bool) (x : Request) (fresh : Z) : outcome (bool * Request * node D) :=
  let! r := AddRequest fails (n_xdb n) x fresh in
  let '(rc, x, db) := r in
  let n := with_xdb n db in
  if negb (rc =? 0) then Ret (true, x, n)
  else
    let! q := Xmatchreq_Init (xreq_of x) (xreq_of x) in
    let '(rc, m) := XmatchreqInsert field_prime (w_matches (n_world n)) fault fault2 q in
    Ret (negb (rc =? 0), x, with_world n (with_matches (n_world n) m)).

Definition take_xreqnum (n : node D) : Z * node D := (next_xreqnum n, n{{next_xreqnum := u64 (next_xreqnum n + 1)}}).

(** [BlockChain::AddXreq]; [oid] is the identifier of the message. *)
Definition AddXreq (n : node D) (faults : nat -> bool) (blocktime : Z) (t : Terms) (oid : list Z) (fresh : nat -> Z) : outcome (bool * node D) :=
  let '(num, n) := take_xreqnum n in
  let x := (new_request t{{objid := oid}}){{x_xreqnum := num; x_blocktime := blocktime}} in
  if negb (x_type x =? CC_TYPE_XCX_MINING_TRADE) then
    let! r := AddOneXreq n (faults 0%nat) (faults 1%nat) x (fresh 0%nat) in
    Ret (fst (fst r), snd r)
  else
    let! buy := ConvertTradeToBuy x in
    let! sell := ConvertTradeToSell x in
    let '(num, n) := take_xreqnum n in
    let sell := sell{{x_seqnum := fresh 0%nat; x_xreqnum := num}} in
    let! r := AddOneXreq n (faults 0%nat) (faults 1%nat) buy{{linked_seqnum := x_seqnum sell}} (fresh 1%nat) in
    let '(rc, buy, n) := r in
    if rc then Ret (true, n)
    else
      let! r := AddOneXreq n (faults 2%nat) (faults 3%nat) sell{{linked_seqnum := x_seqnum buy}} (fresh 2%nat) in
      Ret (fst (fst r), snd r).

(** *** Matches become permanent *)

Definition UpdateOpenAmount (x : Request) (match_amount : Z) : outcome Request :=
  ccassert! match_amount <=? x_open_amount x in
  let open := fsub field_prime (x_open_amount x) match_amount in
  let! rate := RateRequired x open in
  Ret x{{x_open_amount := open; open_rate_required := rate; recalc_time := XREQ_RECALC_NEXT}}.

Definition SaveXreq (db : Xdb) (x : Request) : outcome (Z * Xdb) :=
  if x_open_amount x =? 0 then XreqsDelete fails db x else XreqsUpdate fails db x.

Definition with_xmatchnum (m : Xmatch) (num : Z) : Xmatch :=
  mkXmatch (m_type m) (status m) num (next_deadline m) (m_match_timestamp m) (accept_timestamp m) (final_timestamp m)
    (base_amount m) (rate m) (amount_paid m) (mining_amount m) (have_xreqs m) (accept_time m) (match_pledge m) (xbuy m) (xsell m).

(** The seller's request in a match, with nothing left open. *)
Definition close_sell (m : Xmatch) : Xmatch :=
  let q := xsell m in
  mkXmatch (m_type m) (status m) (m_xmatchnum m) (next_deadline m) (m_match_timestamp m) (accept_timestamp m) (final_timestamp m)
    (base_amount m) (rate m) (amount_paid m) (mining_amount m) (have_xreqs m) (accept_time m) (match_pledge m) (xbuy m)
    (mkXmatchreq (q_terms q) (q_xreqnum q) (delete_time q) (disposition q) (match_consideration q) 0 (have_matching q)).

(** The match that a pending match becomes, and the buyer and the seller with what is left. *)
Definition FormMatch (major minor : Request) (block_time : Z) : outcome (Xmatch * Request * Request) :=
  ccassert! IsBuyer major && IsSeller minor in
  ccassert! (x_seqnum major =? x_best_other_seqnum minor) && (x_xreqnum major =? best_other_xreqnum minor) in
  ccassert! negb (pending_match_order minor =? 0) && (pending_match_hold_time minor =? 0) in
  let amount := pending_match_amount minor in
  let rate := pending_match_rate minor in
  ccassert! negb (amount =? 0) && dlt zero rate in
  let! major := UpdateOpenAmount major amount in
  let! minor := UpdateOpenAmount minor{{pending_match_order := 0}} amount in
  let major := major{{x_best_other_seqnum := x_seqnum minor; x_best_amount := amount; x_best_rate := rate}} in
  let minor := minor{{x_best_amount := amount; x_best_rate := rate}} in
  let! m := Xmatch_Init block_time (xreq_of major) (xreq_of minor) in
  Ret (m, major, minor).

(** What a seller's request holds beyond its one match goes back. *)
Definition CloseSell (w : world D) (m : Xmatch) (minor : Request) : outcome (bool * Xmatch * Request * world D) :=
  let q := xsell m in
  if disposition q =? XMATCH_REQ_DISPOSITION_MATCHED_PART then
    let! r := CreateTxOutputs w (base_asset (q_terms q)) (q_open_amount q) (destination (q_terms q)) default_domain true true 0 false false in
    let '(rc, _, w) := r in
    if rc then Ret (true, m, minor, w)
    else ccassert! IsSeller minor in Ret (false, close_sell m, minor{{x_open_amount := 0}}, w)
  else Ret (false, m, minor, w).

(** One pending match; [fault] are the failures of the tables of matches. *)
Definition MakeMatch (n : node D) (fault : nat -> bool) (block_time : Z) (major minor : Request) : outcome (Z * node D) :=
  let! f := FormMatch major minor block_time in
  let '(m, major, minor) := f in
  let m := with_xmatchnum m (next_xmatchnum n) in
  let n := n{{next_xmatchnum := u64 (next_xmatchnum n + 1)}} in
  let! r := CloseSell (n_world n) m minor in
  let '(rc, m, minor, w) := r in
  if rc then Ret (1, with_world n w)
  else
    let! g := SetMiningAmount (w_mining w) m in
    let m := snd g in
    let w := with_mining w (fst g) in
    let! r := XmatchInsert field_prime (w_matches w) fault m in
    let n := with_world n (with_matches w (snd r)) in
    if negb (fst r =? 0) then Ret (fst r, n)
    else
      let! r := SaveXreq (n_xdb n) major in
      let n := with_xdb n (snd r) in
      if negb (fst r =? 0) then Ret (fst r, n)
      else
        let! r := SaveXreq (n_xdb n) minor in
        Ret (fst r, with_xdb n (snd r)).

Fixpoint persist_loop (fuel : nat) (n : node D) (faults : nat -> nat -> bool) (block_time : Z) : outcome (Z * node D) :=
  if shutdown (clock (n_xdb n)) then Ret (0, n)
  else
    match fuel with
    | O => Throw FuelOut
    | S f =>
        match MatchingSelectNextPendingMatch fails (n_xdb n) with
        | (Failed, db) => Ret (-1, with_xdb n db)
        | (NotFound, db) => Ret (0, with_xdb n db)
        | (Found (minor, major), db) =>
            let! r := MakeMatch (with_xdb n db) (faults fuel) block_time major minor in
            if fst r =? 0 then persist_loop f (snd r) faults block_time else Ret r
        end
    end.

(** Every turn takes one request from those that are pending. *)
Definition MakeMatchesPersistent (n : node D) (faults : nat -> nat -> bool) (block_time : Z) : outcome (Z * node D) :=
  persist_loop (S (size (rows (n_xdb n)))) n faults block_time.

(** *** Requests expire *)

(** What is returned for the open amount: all to a seller, the pledge to a buyer. *)
Definition expire_amount (x : Request) : Z :=
  if IsBuyer x then percent (x_open_amount x) (pledge (x_terms x)) else x_open_amount x.

Definition ExpireXreq (n : node D) (fault : bool) (x : Request) : outcome (Z * node D) :=
  let! r := XreqsDelete fails (n_xdb n) x in
  let n := with_xdb n (snd r) in
  if negb (fst r =? 0) then Ret (fst r, n)
  else if negb (x_xreqnum x =? 0) && negb (x_open_amount x =? 0) then
    let disposition := if x_open_amount x <? max_amount (x_terms x) then XMATCH_REQ_DISPOSITION_EXPIRED_REM else XMATCH_REQ_DISPOSITION_EXPIRED_ALL in
    let '(rc, m) := XmatchreqUpdate (w_matches (n_world n)) fault (x_xreqnum x) disposition in
    let n := with_world n (with_matches (n_world n) m) in
    if negb (rc =? 0) then Ret (rc, n)
    else if negb (TypeHasBareMsg (x_type x)) then
      let! r := CreateTxOutputs (n_world n) (base_asset (x_terms x)) (expire_amount x) (destination (x_terms x)) default_domain true true 0 false false in
      let '(rc, _, w) := r in
      Ret (if rc then 1 else 0, with_world n w)
    else Ret (0, n)
  else Ret (0, n).

Fixpoint expire_xreqs_loop (fuel : nat) (n : node D) (faults : nat -> bool) (block_time : Z) : outcome (Z * node D) :=
  if shutdown (clock (n_xdb n)) then Ret (0, n)
  else
    match fuel with
    | O => Throw FuelOut
    | S f =>
        match XreqsSelectExpire fails (n_xdb n) block_time with
        | (Failed, db) => Ret (-1, with_xdb n db)
        | (NotFound, db) => Ret (0, with_xdb n db)
        | (Found x, db) =>
            ccassert! t_expire_time (x_terms x) <=? block_time in
            let! r := ExpireXreq (with_xdb n db) (faults f) x in
            if fst r =? 0 then expire_xreqs_loop f (snd r) faults block_time else Ret r
        end
    end.

(** Every turn deletes a request. *)
Definition ExpireXreqs (n : node D) (faults : nat -> bool) (block_time : Z) : outcome (Z * node D) :=
  expire_xreqs_loop (S (size (rows (n_xdb n)))) n faults block_time.

(** *** Requests are pruned *)

(** How a turn of the loop ends. *)
Inductive turn := Continue (next : Z) | Break | Return (rc : Z).

(** A turn closes a request and then the one that it is linked with. *)
Definition close_linked (n : node D) (faults : bool * bool) (next : Z) (x : Request) : outcome (turn * node D) :=
  let! r := ExpireXreq n (fst faults) x in
  let n := snd r in
  if negb (fst r =? 0) then Ret (Return (fst r), n)
  else if linked_seqnum x =? 0 then Ret (Continue next, n)
  else
    match XreqsSelectSeqnum fails (n_xdb n) (linked_seqnum x) false with
    | (Failed, db) => Ret (Return (-1), with_xdb n db)
    | (NotFound, db) => Ret (Continue next, with_xdb n db)
    | (Found y, db) =>
        let! r := ExpireXreq (with_xdb n db) (snd faults) y in
        Ret (if fst r =? 0 then Continue next else Return (fst r), snd r)
    end.

(** A turn of pass 0 ([first]) or 1: the request from [next] on, or the first that is not in a
    block, is closed, and so is the one that it is linked with. *)
Definition PruneTurn (n : node D) (faults : bool * bool) (first : bool) (next new_xreqnum : Z) : outcome (turn * node D) :=
  let persistent := xreq_count_persistent (n_xdb n) in
  let pending := xreq_count_pending (n_xdb n) in
  let bpersistent := XREQ_MAX_PERSISTENT_COUNT <? persistent in
  if negb bpersistent && (u32 (persistent + pending) <=? XREQ_MAX_PERSISTENT_COUNT + XREQ_MIN_NON_PERSISTENT_COUNT) then Ret (Break, n)
  else
    match XreqsSelectXreqnum fails (n_xdb n) (if bpersistent then next else 0) 0 with
    | (Failed, db) => Ret (Return (-1), with_xdb n db)
    | (NotFound, db) => Ret (if first then Break else Return 1, with_xdb n db)
    | (Found x, db) =>
        let n := with_xdb n db in
        ccassert! eqb bpersistent (negb (x_xreqnum x =? 0)) in
        let next := u64 (x_xreqnum x + 1) in
        if first && bpersistent && (new_xreqnum <=? x_xreqnum x) then Ret (Break, n)
        else if first && bpersistent && (x_open_amount x =? max_amount (x_terms x)) && negb (is_zero (pending_match_rate x)) then Ret (Continue next, n)
        else close_linked n faults next x
    end.

Fixpoint prune_loop (fuel : nat) (n : node D) (faults : nat -> bool * bool) (first : bool) (next new_xreqnum : Z) : outcome (Z * node D) :=
  if shutdown (clock (n_xdb n)) then Ret (0, n)
  else
    match fuel with
    | O => Throw FuelOut
    | S f =>
        let! r := PruneTurn n (faults f) first next new_xreqnum in
        match r with
        | (Continue next, n) => prune_loop f n faults first next new_xreqnum
        | (Break, n) => Ret (0, n)
        | (Return rc, n) => Ret (rc, n)
        end
    end.

(** A turn closes a request or moves past one; a pass never moves back over a number. *)
Definition PruneXreqs (n : node D) (faults : bool -> nat -> bool * bool) (new_xreqnum : Z) : outcome (Z * node D) :=
  let! r := prune_loop (2 * size (rows (n_xdb n)) + 1) n (faults true) true 1 new_xreqnum in
  let '(rc, n) := r in
  if negb (rc =? 0) then Ret (rc, n)
  else prune_loop (2 * size (rows (n_xdb n)) + 1) n (faults false) false 1 new_xreqnum.
End node.

(** ** The table stays sound *)

(** The counts are exact, a row is kept under its number, and what it holds can be paid back. *)
Definition persistent_row (row : Z * Request) : Prop := x_xreqnum (snd row) <> 0.
Definition pending_row (row : Z * Request) : Prop := x_xreqnum (snd row) = 0.

#[export] Instance persistent_dec row : Decision (persistent_row row).
Proof. unfold persistent_row. apply _. Defined.
#[export] Instance pending_dec row : Decision (pending_row row).
Proof. unfold pending_row. apply _. Defined.

Record request_ok (k : Z) (x : Request) : Prop := {
  ro_key : x_seqnum x = k;
  ro_pos : 0 < k;
  ro_num : 0 <= x_xreqnum x < 2 ^ 64 - 1;
  ro_open : 0 <= x_open_amount x < 2 ^ 128;
  ro_pledge : 0 <= pledge (x_terms x) <= 100;
  ro_dest : TypeHasBareMsg (x_type x) = false -> destination (x_terms x) <> 0
}.

Record table_ok (db : Xdb) : Prop := {
  to_rows : map_Forall request_ok (rows db);
  to_persistent : xreq_count_persistent db = count persistent_row (rows db);
  to_pending : xreq_count_pending db = count pending_row (rows db);
  to_size : Z.of_nat (size (rows db)) < 2 ^ 32
}.

Lemma counts_size (t : gmap Z Request) : count persistent_row t + count pending_row t = Z.of_nat (size t).
Proof.
  induction t as [|k x t Hn IH] using map_ind; [reflexivity|].
  rewrite !count_insert_new, map_size_insert_None by exact Hn. unfold Rows.one.
  destruct (decide (persistent_row (k, x))) as [Hp|Hp], (decide (pending_row (k, x))) as [Hq|Hq]; unfold persistent_row, pending_row in Hp, Hq; cbn in Hp, Hq; lia.
Qed.

Lemma tick_ok db : table_ok db -> table_ok (tick db).
Proof. intros []. by split. Qed.

Lemma table_ok_rows db k x : table_ok db -> rows db !! k = Some x -> request_ok k x.
Proof. intros [Hr _ _ _] Hx. exact (Hr k x Hx). Qed.

Lemma select_ticks fails db sel r db' : XreqsSelect fails db sel = (r, db') -> db' = tick db.
Proof. unfold XreqsSelect. by intros [= _ <-]. Qed.

(** A statement that selects fails, finds the first of the rows, or finds none. *)
Lemma XreqsSelect_cases fails db c p : linear c -> table_ok db ->
  match fst (XreqsSelect fails db (select_by c p (rows db))) with
  | Found x => rows db !! x_seqnum x = Some x /\ p x = true /\ request_ok (x_seqnum x) x
      /\ forall m y, rows db !! m = Some y -> p y = true -> le_by c (x_seqnum x, x) (m, y)
  | NotFound => forall m y, rows db !! m = Some y -> p y = false
  | Failed => fails (clock db) = true
  end.
Proof.
  intros Hc Hok. unfold XreqsSelect. cbn [fst]. destruct (fails (clock db)) eqn:Ef; [reflexivity|].
  destruct (select_by c p (rows db)) as [|[n x] rest] eqn:Es; [exact (select_by_none c p _ Hc Es)|].
  destruct (select_by_first c p _ n x rest Hc Es) as (Hx & Hp & Hfirst).
  pose proof (table_ok_rows db n x Hok Hx) as Hr. pose proof (ro_key _ _ Hr) as Hk. pose proof (ro_pos _ _ Hr).
  destruct (Z.eqb_spec (x_seqnum x) 0); [lia|]. rewrite Hk. auto.
Qed.

(** A row that was selected is deleted; the counts cannot be 0 there. *)
Lemma XreqsDelete_cases fails db x : table_ok db -> rows db !! x_seqnum x = Some x ->
  exists rc db', XreqsDelete fails db x = Ret (rc, db') /\ table_ok db' /\ clock db' = S (clock db)
    /\ (rc = -1 /\ fails (clock db) = true /\ rows db' = rows db \/ rc = 0 /\ rows db' = delete (x_seqnum x) (rows db)).
Proof.
  intros Hok Hx. pose proof Hok as [Hrows Hper Hpen Hsize]. unfold XreqsDelete. destruct (fails (clock db)) eqn:Ef.
  { exists (-1), (tick db). split; [reflexivity|]. split; [by apply tick_ok|]. split; [reflexivity | by left]. }
  rewrite Hx. rewrite bool_decide_eq_true_2 by (by eexists). cbn [andb].
  pose proof (counts_size (rows db)) as Hsum. pose proof (count_nonneg persistent_row (rows db)). pose proof (count_nonneg pending_row (rows db)).
  assert (Hdel : map_Forall request_ok (delete (x_seqnum x) (rows db))) by (by apply map_Forall_delete).
  assert (Hsz : Z.of_nat (size (delete (x_seqnum x) (rows db))) < 2 ^ 32).
  { rewrite map_size_delete, Hx. lia. }
  destruct (Z.eqb_spec (x_xreqnum x) 0) as [Hz|Hz]; cbn [negb].
  - pose proof (count_pos pending_row _ _ _ Hx Hz). rewrite (proj2 (Z.eqb_neq (xreq_count_pending db) 0)) by lia. cbn [negb].
    eexists 0, _. split; [reflexivity|]. split; [|split; [reflexivity | by right]].
    split; [exact Hdel | | | exact Hsz].
    + change (xreq_count_persistent db = count persistent_row (delete (x_seqnum x) (rows db))).
      rewrite Hper, (count_delete _ _ _ _ Hx). unfold Rows.one. rewrite decide_False by (intros Hp; by apply Hp). lia.
    + change (u32 (xreq_count_pending db - 1) = count pending_row (delete (x_seqnum x) (rows db))).
      rewrite Hpen, (count_delete _ _ _ _ Hx). unfold Rows.one. rewrite decide_True by exact Hz. apply (wrap_small 32). unfold in_word. lia.
  - pose proof (count_pos persistent_row _ _ _ Hx Hz). rewrite (proj2 (Z.eqb_neq (xreq_count_persistent db) 0)) by lia. cbn [negb].
    eexists 0, _. split; [reflexivity|]. split; [|split; [reflexivity | by right]].
    split; [exact Hdel | | | exact Hsz].
    + change (u32 (xreq_count_persistent db - 1) = count persistent_row (delete (x_seqnum x) (rows db))).
      rewrite Hper, (count_delete _ _ _ _ Hx). unfold Rows.one. rewrite decide_True by exact Hz. apply (wrap_small 32). unfold in_word. lia.
    + change (xreq_count_pending db = count pending_row (delete (x_seqnum x) (rows db))).
      rewrite Hpen, (count_delete _ _ _ _ Hx). unfold Rows.one. rewrite decide_False by exact Hz. lia.
Qed.

(** ** Expired requests are paid back *)

Section expire.
Context {D : Type} `{CommitDb D} `{TxOutputDb D} `{OutputHashes} `{ChainParams} `{AmtFloat}.
Variables fails shutdown : nat -> bool.
Hypothesis prime_large : 2 ^ 253 < field_prime.
Hypothesis min_exp : 0 <= outvalmin.
Hypothesis max_exp : 0 <= outvalmax.

(** Whether closing a request changes the tables of matches, and whether it makes outputs. *)
Definition on_chain (x : Request) : bool := negb (x_xreqnum x =? 0) && negb (x_open_amount x =? 0).
Definition refundable (x : Request) : bool := on_chain x && negb (TypeHasBareMsg (x_type x)).

Definition expired_disposition (x : Request) : Z :=
  if x_open_amount x <? max_amount (x_terms x) then XMATCH_REQ_DISPOSITION_EXPIRED_REM else XMATCH_REQ_DISPOSITION_EXPIRED_ALL.

Definition disposed (w : world D) (x : Request) : world D :=
  if on_chain x then with_matches w (snd (XmatchreqUpdate (w_matches w) false (x_xreqnum x) (expired_disposition x))) else w.

(** What a request holds: a seller's what is open of it, a buyer's the pledge on that. *)
Definition amount_held (x : Request) : Z :=
  if IsBuyer x then x_open_amount x * pledge (x_terms x) / 100 else x_open_amount x.

(** The outputs of the base asset that pay back what a request holds, to its destination, but
    for a rest that no output can hold; the rest is 0 where the exponents allow it. *)
Definition paid_back (w : world D) (x : Request) (w' : world D) : Prop :=
  if refundable x then
    exists rest outs, outputs_result w (base_asset (x_terms x)) (amount_held x) (destination (x_terms x)) default_domain 0
      (out_min (base_asset (x_terms x)) false) (out_max (base_asset (x_terms x)) false) false false rest w' outs
  else w' = w.

Inductive all_paid_back : world D -> list Request -> world D -> Prop :=
| back_nil w : all_paid_back w [] w
| back_cons w x w1 xs w2 : paid_back (disposed w x) x w1 -> all_paid_back w1 xs w2 -> all_paid_back w (x :: xs) w2.

Lemma expire_amount_held k x : request_ok k x -> expire_amount x = amount_held x /\ 0 <= amount_held x < 2 ^ 253.
Proof.
  intros [_ _ _ Ho Hp _]. unfold expire_amount, amount_held. destruct (IsBuyer x); [|lia].
  destruct (percent_value prime_large (x_open_amount x) (pledge (x_terms x)) Ho ltac:(lia)) as [Hv Hr]. lia.
Qed.

(** One request is closed: its row goes, and what it holds is paid back, or something failed. *)
Lemma ExpireXreq_cases (n : node D) fault x : table_ok (n_xdb n) -> rows (n_xdb n) !! x_seqnum x = Some x ->
  exists rc n', ExpireXreq fails n fault x = Ret (rc, n') /\ table_ok (n_xdb n')
    /\ (rows (n_xdb n') = rows (n_xdb n) /\ rc <> 0 \/ rows (n_xdb n') = delete (x_seqnum x) (rows (n_xdb n)))
    /\ (rc = 0 -> paid_back (disposed (n_world n) x) x (n_world n')).
Proof.
  intros Hok Hx. pose proof (table_ok_rows _ _ _ Hok Hx) as Hr.
  destruct (XreqsDelete_cases fails (n_xdb n) x Hok Hx) as (rc & db' & E & Hok' & _ & Hc). unfold ExpireXreq. rewrite E. cbn [outcome_bind fst snd].
  destruct Hc as [(-> & _ & Hrows)|[-> Hrows]].
  { exists (-1), (with_xdb n db'). split; [reflexivity|]. split; [exact Hok'|]. split; [by left | discriminate]. }
  cbn [Z.eqb negb]. change (n_world (with_xdb n db')) with (n_world n). fold (expired_disposition x) (on_chain x).
  unfold paid_back, disposed, refundable. destruct (on_chain x); cbn [andb].
  2: { exists 0, (with_xdb n db'). split; [reflexivity|]. split; [exact Hok'|]. split; [by right | reflexivity]. }
  unfold XmatchreqUpdate. destruct fault; cbn [Z.eqb negb].
  { exists (-1). eexists. split; [reflexivity|]. split; [exact Hok'|]. split; [by right | discriminate]. }
  set (num0 := x_xreqnum x =? 0).
  assert (Em : exists m, (if num0 then (0, w_matches (n_world n)) else (0, mkMatchDb (t_matches (w_matches (n_world n)))
    (alter (fun r => set_disposition r (expired_disposition x)) (x_xreqnum x) (t_reqs (w_matches (n_world n)))) (t_matching (w_matches (n_world n))))) = (0, m)) by (destruct num0; by eexists).
  destruct Em as [m ->]. cbn [snd Z.eqb negb].
  destruct (TypeHasBareMsg (x_type x)) eqn:Eb; cbn [negb].
  { eexists 0, _. split; [reflexivity|]. split; [exact Hok'|]. split; [by right | reflexivity]. }
  change (n_world (with_world (with_xdb n db') (with_matches (n_world n) m))) with (with_matches (n_world n) m).
  destruct (expire_amount_held _ x Hr) as [-> Hheld].
  destruct (CreateTxOutputs_result prime_large (with_matches (n_world n) m) (base_asset (x_terms x)) (amount_held x) (destination (x_terms x)) default_domain true true 0 false false
    min_exp max_exp Hheld (ro_dest _ _ Hr Eb)) as (rc & rest & w' & outs & -> & Hres). cbn [outcome_bind].
  eexists _, _. split; [reflexivity|]. split; [exact Hok'|]. split; [by right|]. destruct rc; [discriminate|]. intros _. by exists rest, outs.
Qed.

Definition expired (time : Z) (x : Request) : bool := t_expire_time (x_terms x) <=? time.

(** The rows that expired, in the order of the index, and those that stay. *)
Definition unexpired (time : Z) (t : gmap Z Request) : gmap Z Request := filter (fun row => expired time (snd row) = false) t.

Lemma unexpired_delete time t k x : t !! k = Some x -> expired time x = true -> unexpired time (delete k t) = unexpired time t.
Proof.
  intros Hx He. unfold unexpired. apply map_eq. intros j. rewrite !map_lookup_filter. destruct (decide (j = k)) as [->|Hn].
  - rewrite lookup_delete_eq, Hx. cbn. rewrite option_guard_False; [reflexivity | by rewrite He].
  - by rewrite lookup_delete_ne.
Qed.

Definition by_expiry (x y : Request) : Prop := le_by expire_compare (x_seqnum x, x) (x_seqnum y, y).

(** What the loop does: it closes the requests [xs], those that expire first first. *)
Record expires (time : Z) (n : node D) (xs : list Request) (rc : Z) (n' : node D) : Prop := {
  ex_ok : table_ok (n_xdb n');
  ex_kept : unexpired time (rows (n_xdb n')) = unexpired time (rows (n_xdb n));
  ex_fewer : rows (n_xdb n') ⊆ rows (n_xdb n);
  ex_rows : Forall (fun x => rows (n_xdb n) !! x_seqnum x = Some x /\ expired time x = true) xs;
  ex_distinct : NoDup (map x_seqnum xs);
  ex_order : StronglySorted by_expiry xs;
  ex_paid : rc = 0 -> all_paid_back (n_world n) xs (n_world n');
  ex_all : rc = 0 -> shutdown (clock (n_xdb n')) = false ->
    rows (n_xdb n') = unexpired time (rows (n_xdb n)) /\ forall k x, rows (n_xdb n) !! k = Some x -> expired time x = true -> In x xs
}.

Lemma expires_none time (n : node D) rc n' : table_ok (n_xdb n') ->
  rows (n_xdb n') = rows (n_xdb n) \/ (exists x, rc <> 0 /\ rows (n_xdb n) !! x_seqnum x = Some x /\ expired time x = true /\ rows (n_xdb n') = delete (x_seqnum x) (rows (n_xdb n))) ->
  (rc = 0 -> n_world n' = n_world n) ->
  (rc = 0 -> shutdown (clock (n_xdb n')) = false -> forall k x, rows (n_xdb n) !! k = Some x -> expired time x = false) -> expires time n [] rc n'.
Proof.
  intros Hok Hr Hw Hn. split.
  - exact Hok.
  - destruct Hr as [->|(x & _ & Hx & He & ->)]; [reflexivity | by apply unexpired_delete with x].
  - destruct Hr as [->|(x & _ & _ & _ & ->)]; [reflexivity | apply delete_subseteq].
  - constructor.
  - constructor.
  - constructor.
  - intros Hrc. rewrite (Hw Hrc). constructor.
  - intros Hrc Hs. split.
    + destruct Hr as [->|(x & Hc & _)]; [|contradiction]. symmetry. apply map_filter_id. intros k x Hx. cbn. eauto.
    + intros k x Hx He. rewrite (Hn Hrc Hs k x Hx) in He. discriminate.
Qed.

Lemma expires_cons time (n n1 : node D) x xs rc n' : rows (n_xdb n) !! x_seqnum x = Some x -> expired time x = true ->
  (forall k y, rows (n_xdb n) !! k = Some y -> expired time y = true -> le_by expire_compare (x_seqnum x, x) (k, y)) ->
  table_ok (n_xdb n) -> rows (n_xdb n1) = delete (x_seqnum x) (rows (n_xdb n)) -> paid_back (disposed (n_world n) x) x (n_world n1) ->
  expires time n1 xs rc n' -> expires time n (x :: xs) rc n'.
Proof.
  intros Hx He Hfirst Hok Hr Hp [E1 E2 E3 E4 E5 E6 E7 E8].
  assert (Hsub : forall y, rows (n_xdb n1) !! x_seqnum y = Some y -> rows (n_xdb n) !! x_seqnum y = Some y /\ x_seqnum y <> x_seqnum x).
  { intros y Hy. rewrite Hr in Hy. apply lookup_delete_Some in Hy. destruct Hy as [Hne Hy]. split; [exact Hy | congruence]. }
  assert (Hin : Forall (fun y => rows (n_xdb n) !! x_seqnum y = Some y /\ expired time y = true /\ x_seqnum y <> x_seqnum x) xs).
  { eapply Forall_impl; [exact E4|]. cbn. intros y [Hy1 Hy2]. destruct (Hsub y Hy1). auto. }
  split.
  - exact E1.
  - rewrite E2, Hr. by apply unexpired_delete with x.
  - etransitivity; [exact E3|]. rewrite Hr. apply delete_subseteq.
  - constructor; [auto|]. eapply Forall_impl; [exact Hin|]. cbn. naive_solver.
  - cbn. constructor; [|exact E5]. intros Hi. apply list_elem_of_fmap in Hi. destruct Hi as (y & Hy & Hi).
    rewrite Forall_forall in Hin. destruct (Hin y Hi) as (_ & _ & Hne). congruence.
  - constructor; [exact E6|]. eapply Forall_impl; [exact Hin|]. cbn. intros y (Hy1 & Hy2 & _). exact (Hfirst _ _ Hy1 Hy2).
  - intros Hrc. econstructor; [exact Hp | exact (E7 Hrc)].
  - intros Hrc Hs. destruct (E8 Hrc Hs) as [Ea Eb]. split.
    + rewrite Ea, Hr. by apply unexpired_delete with x.
    + intros k y Hy Hey. destruct (decide (k = x_seqnum x)) as [->|Hn]; [left; congruence|]. right. apply (Eb k y); [|exact Hey].
      rewrite Hr, lookup_delete_ne; [exact Hy | congruence].
Qed.

Lemma expire_xreqs_loop_ends faults time fuel : forall n : node D, table_ok (n_xdb n) -> (size (rows (n_xdb n)) < fuel)%nat ->
  exists rc n' xs, expire_xreqs_loop fails shutdown fuel n faults time = Ret (rc, n') /\ expires time n xs rc n'.
Proof.
  induction fuel as [|fuel IH]; intros n Hok Hf; [lia|]. cbn [expire_xreqs_loop].
  destruct (shutdown (clock (n_xdb n))) eqn:Es.
  { exists 0, n, []. split; [reflexivity|]. apply expires_none; auto. intros _ Hs. congruence. }
  pose proof (XreqsSelect_cases fails (n_xdb n) expire_compare (expired time) linear_expire Hok) as Hsel.
  unfold XreqsSelectExpire. fold (expired time). destruct (XreqsSelect _ _ _) as [r db'] eqn:Er. pose proof (select_ticks _ _ _ _ _ Er) as ->. cbn [fst] in Hsel.
  destruct r as [x| |].
  - destruct Hsel as (Hx & He & Hrx & Hfirst). change (t_expire_time (x_terms x) <=? time) with (expired time x). rewrite He.
    destruct (ExpireXreq_cases (with_xdb n (tick (n_xdb n))) (faults fuel) x (tick_ok _ Hok) Hx) as (rc & n1 & -> & Hok1 & Hr1 & Hp1).
    cbn [outcome_bind fst snd]. destruct (Z.eqb_spec rc 0) as [Hrc|Hrc].
    + destruct Hr1 as [[_ Hr1]|Hr1]; [lia|]. change (rows (n_xdb (with_xdb n (tick (n_xdb n))))) with (rows (n_xdb n)) in Hr1.
      destruct (IH n1 Hok1) as (rc2 & n2 & xs & E & Hex).
      { rewrite Hr1, map_size_delete, Hx. pose proof (map_size_ne_0_lookup_2 (rows (n_xdb n)) _ (mk_is_Some _ _ Hx)). lia. }
      exists rc2, n2, (x :: xs). split; [exact E|]. apply (expires_cons time n n1); auto.
    + exists rc, n1, []. split; [reflexivity|]. apply expires_none; [exact Hok1 | | contradiction | contradiction].
      destruct Hr1 as [[Hr1 _]|Hr1]; [left; exact Hr1 | right; exists x; auto].
  - exists 0, (with_xdb n (tick (n_xdb n))), []. split; [reflexivity|]. apply expires_none; [by apply tick_ok | by left | reflexivity | auto].
  - exists (-1), (with_xdb n (tick (n_xdb n))), []. split; [reflexivity|]. apply expires_none; [by apply tick_ok | by left | discriminate | discriminate].
Qed.

(** C8. Closing the requests that expired ends and never trips an assertion: whatever fails, rows
    that have not expired stay, and without an error and a shutdown exactly those that
    expired go, first those that expire first, and each is paid back to its destination,
    once, what it holds: a seller its open amount, a buyer the pledge on it. *)
Theorem ExpireXreqs_pays_back (n : node D) faults time : table_ok (n_xdb n) ->
  exists rc n' xs, ExpireXreqs fails shutdown n faults time = Ret (rc, n') /\ expires time n xs rc n'.
Proof. intros Hok. apply expire_xreqs_loop_ends; [exact Hok | lia]. Qed.

(** ** Pruning *)

(** The requests [xs] are closed one after the other. *)
Inductive closes : node D -> list Request -> node D -> Prop :=
| closes_nil n n' : rows (n_xdb n') = rows (n_xdb n) -> n_world n' = n_world n -> closes n [] n'
| closes_cons n x n1 xs n2 : rows (n_xdb n) !! x_seqnum x = Some x -> rows (n_xdb n1) = delete (x_seqnum x) (rows (n_xdb n)) ->
    paid_back (disposed (n_world n) x) x (n_world n1) -> closes n1 xs n2 -> closes n (x :: xs) n2.

Lemma closes_from (n1 n2 : node D) xs n' : rows (n_xdb n1) = rows (n_xdb n2) -> n_world n1 = n_world n2 -> closes n1 xs n' -> closes n2 xs n'.
Proof.
  intros Hr Hw Hc. inversion Hc; subst; [apply closes_nil; congruence|]. eapply closes_cons; [| | |eassumption]; congruence.
Qed.

Lemma closes_app (n1 n2 n3 : node D) xs ys : closes n1 xs n2 -> closes n2 ys n3 -> closes n1 (xs ++ ys) n3.
Proof.
  induction 1 as [n n' Hr Hw|n x n1 xs n2 Hx Hr Hp _ IH]; intros Hc; cbn; [by apply (closes_from n') | eapply closes_cons; eauto].
Qed.

Lemma count_le {P Q : Z * Request -> Prop} `{forall row, Decision (P row), forall row, Decision (Q row)} (t1 t2 : gmap Z Request) :
  (forall k x, t1 !! k = Some x -> P (k, x) -> t2 !! k = Some x /\ Q (k, x)) -> count P t1 <= count Q t2.
Proof.
  intros Hpq. unfold count. apply inj_le, map_subseteq_size, map_filter_strong_subseteq_ext. intros k x [Hp Hx]. destruct (Hpq k x Hx Hp). auto.
Qed.

Lemma count_lt {P Q : Z * Request -> Prop} `{forall row, Decision (P row), forall row, Decision (Q row)} (t1 t2 : gmap Z Request) k x :
  (forall k x, t1 !! k = Some x -> P (k, x) -> t2 !! k = Some x /\ Q (k, x)) -> t2 !! k = Some x -> Q (k, x) -> ~ P (k, x) -> count P t1 < count Q t2.
Proof.
  intros Hpq Hx Hq Hp. unfold count. apply inj_lt, map_subset_size. split.
  - apply map_filter_strong_subseteq_ext. intros j y [Hpy Hy]. destruct (Hpq j y Hy Hpy). auto.
  - intros Hs. destruct (proj1 (map_filter_strong_subseteq_ext _ _ _ _) Hs k x (conj Hq Hx)) as [Hc _]. contradiction.
Qed.

(** The rows from a number on. *)
Definition from_num (next : Z) (row : Z * Request) : Prop := next <= x_xreqnum (snd row).
#[local] Instance from_num_dec next row : Decision (from_num next row).
Proof. unfold from_num. apply _. Defined.

Definition too_many (db : Xdb) : bool := XREQ_MAX_PERSISTENT_COUNT <? xreq_count_persistent db.

Definition within_limits (db : Xdb) : Prop :=
  xreq_count_persistent db <= XREQ_MAX_PERSISTENT_COUNT
  /\ xreq_count_persistent db + xreq_count_pending db <= XREQ_MAX_PERSISTENT_COUNT + XREQ_MIN_NON_PERSISTENT_COUNT.

(** A turn closes a request or, while there are too many with a number, moves on to one with a higher number. *)
Definition work_left (db : Xdb) (next : Z) : Z :=
  Z.of_nat (size (rows db)) + if too_many db then count (from_num next) (rows db) else 0.

Record turn_result (first : bool) (next : Z) (n : node D) (r : turn) (n' : node D) : Prop := {
  tr_ok : table_ok (n_xdb n');
  tr_fewer : rows (n_xdb n') ⊆ rows (n_xdb n);
  tr_closes : (forall rc, r <> Return rc) -> exists xs, closes n xs n';
  tr_turn : match r with
            | Continue next' => 1 <= next' /\ work_left (n_xdb n') next' < work_left (n_xdb n) next
            | Break => first = false -> within_limits (n_xdb n')
            | Return rc => rc <> 0
            end
}.

Lemma too_many_fewer db db' : table_ok db -> table_ok db' -> rows db' ⊆ rows db -> too_many db' = true -> too_many db = true.
Proof.
  intros [_ Hp _ _] [_ Hp' _ _] Hs. unfold too_many. rewrite !Z.ltb_lt, Hp, Hp'. intros Hm.
  assert (count persistent_row (rows db') <= count persistent_row (rows db)); [|lia].
  apply count_le. intros k x Hx Hq. split; [|exact Hq]. by eapply lookup_weaken.
Qed.

Lemma work_left_fewer db db' next next' : table_ok db -> table_ok db' -> rows db' ⊆ rows db -> (size (rows db') < size (rows db))%nat ->
  (too_many db = true -> next <= next') -> work_left db' next' < work_left db next.
Proof.
  intros Hok Hok' Hs Hsize Hn. unfold work_left. pose proof (too_many_fewer db db' Hok Hok' Hs) as Ht. pose proof (count_nonneg (from_num next) (rows db)).
  destruct (too_many db'); [|destruct (too_many db); lia]. rewrite (Ht eq_refl) in *. specialize (Hn eq_refl).
  assert (count (from_num next') (rows db') <= count (from_num next) (rows db)); [|lia].
  apply count_le. intros k x Hx Hq. split; [by eapply lookup_weaken|]. unfold from_num in *. lia.
Qed.

Lemma work_left_next db db' k x next : too_many db = true -> too_many db' = true -> rows db' = rows db -> rows db !! k = Some x -> next <= x_xreqnum x ->
  work_left db' (x_xreqnum x + 1) < work_left db next.
Proof.
  intros Ht Ht' Hr Hx Hn. unfold work_left. rewrite Ht, Ht', Hr.
  assert (count (from_num (x_xreqnum x + 1)) (rows db) < count (from_num next) (rows db)); [|lia].
  eapply count_lt; [| exact Hx | unfold from_num; cbn; lia | unfold from_num; cbn; lia].
  intros j y Hy Hq. split; [exact Hy|]. unfold from_num in *. cbn in *. lia.
Qed.

Lemma sum_small db : table_ok db -> u32 (xreq_count_persistent db + xreq_count_pending db) = xreq_count_persistent db + xreq_count_pending db.
Proof.
  intros [_ Hp Hq Hs]. apply (wrap_small 32). unfold in_word. pose proof (counts_size (rows db)). lia.
Qed.

(** A row without a number exists when there are too many rows but not too many with a number. *)
Lemma some_pending db : table_ok db -> too_many db = false ->
  (u32 (xreq_count_persistent db + xreq_count_pending db) <=? XREQ_MAX_PERSISTENT_COUNT + XREQ_MIN_NON_PERSISTENT_COUNT) = false ->
  exists k x, rows db !! k = Some x /\ x_xreqnum x = 0.
Proof.
  intros Hok Hm Hs. rewrite (sum_small _ Hok) in Hs. destruct Hok as [_ Hp Hq _]. unfold too_many in Hm. apply Z.ltb_ge in Hm. apply Z.leb_gt in Hs.
  destruct (decide (count pending_row (rows db) = 0)) as [Hz|Hnz].
  - exfalso. unfold XREQ_MIN_NON_PERSISTENT_COUNT in Hs. lia.
  - destruct (decide (map_Forall (fun _ x => x_xreqnum x <> 0) (rows db))) as [Ha|Ha].
    + exfalso. apply Hnz, count_none. intros k x Hx. exact (Ha k x Hx).
    + apply map_not_Forall in Ha; [|apply _]. destruct Ha as (k & x & Hx & Hz). exists k, x. split; [exact Hx | lia].
Qed.

Lemma xreqnum_first k x m y : le_by xreqnum_compare (k, x) (m, y) -> x_xreqnum x <= x_xreqnum y.
Proof. unfold le_by, xreqnum_compare, and_then. cbn. destruct (Z.compare_spec (x_xreqnum x) (x_xreqnum y)); [lia | lia | done]. Qed.

Lemma SelectSeqnum_cases db num : table_ok db ->
  exists r, XreqsSelectSeqnum fails db num false = (r, tick db) /\ match r with Found y => rows db !! x_seqnum y = Some y /\ x_seqnum y = num | _ => True end.
Proof.
  intros Hok. pose proof (XreqsSelect_cases fails db seqnum_compare (fun x => num <=? x_seqnum x) linear_fst Hok) as Hsel.
  unfold XreqsSelectSeqnum. destruct (XreqsSelect _ _ _) as [r db'] eqn:Er. pose proof (select_ticks _ _ _ _ _ Er) as ->. cbn [fst] in Hsel.
  destruct r as [y| |]; [|exists NotFound; auto|exists Failed; auto]. destruct Hsel as (Hy & _). destruct (Z.eqb_spec (x_seqnum y) num) as [He|Hn]; [exists (Found y) | exists NotFound]; auto.
Qed.

Lemma ExpireXreq_closes (n : node D) fault x : table_ok (n_xdb n) -> rows (n_xdb n) !! x_seqnum x = Some x ->
  exists rc n', ExpireXreq fails n fault x = Ret (rc, n') /\ table_ok (n_xdb n') /\ rows (n_xdb n') ⊆ rows (n_xdb n)
    /\ (rc = 0 -> closes n [x] n' /\ (size (rows (n_xdb n')) < size (rows (n_xdb n)))%nat).
Proof.
  intros Hok Hx. destruct (ExpireXreq_cases n fault x Hok Hx) as (rc & n' & E & Hok' & Hr & Hp). exists rc, n'. split; [exact E|]. split; [exact Hok'|]. split.
  - destruct Hr as [[-> _]| ->]; [done | apply delete_subseteq].
  - intros Hrc. destruct Hr as [[_ Hr]|Hr]; [contradiction|]. split.
    + eapply closes_cons; [exact Hx | exact Hr | exact (Hp Hrc) | by apply closes_nil].
    + rewrite Hr, map_size_delete, Hx. pose proof (map_size_ne_0_lookup_2 (rows (n_xdb n)) _ (mk_is_Some _ _ Hx)). lia.
Qed.

Lemma close_linked_result first (n : node D) faults x next : table_ok (n_xdb n) -> rows (n_xdb n) !! x_seqnum x = Some x ->
  1 <= x_xreqnum x + 1 -> (too_many (n_xdb n) = true -> next <= x_xreqnum x + 1) ->
  exists r n', close_linked fails n faults (x_xreqnum x + 1) x = Ret (r, n') /\ turn_result first next n r n'.
Proof.
  intros Hok Hx Hpos Hnext. unfold close_linked. destruct (ExpireXreq_closes n (fst faults) x Hok Hx) as (rc & n1 & -> & Hok1 & Hs1 & Hc1). cbn [outcome_bind fst snd].
  destruct (Z.eqb_spec rc 0) as [Hrc|Hrc]; cbn [negb].
  2: { exists (Return rc), n1. split; [reflexivity|]. split; [exact Hok1 | exact Hs1 | intros Hr; by destruct (Hr rc) | exact Hrc]. }
  destruct (Hc1 Hrc) as [Hcl Hsz]. assert (Hw : work_left (n_xdb n1) (x_xreqnum x + 1) < work_left (n_xdb n) next) by (by apply work_left_fewer).
  assert (Hdone : forall db, db = n_xdb n1 \/ db = tick (n_xdb n1) -> turn_result first next n (Continue (x_xreqnum x + 1)) (with_xdb n1 db)).
  { intros db Hdb. assert (rows db = rows (n_xdb n1) /\ table_ok db /\ work_left db (x_xreqnum x + 1) = work_left (n_xdb n1) (x_xreqnum x + 1)) as (Er & Eo & Ew).
    { destruct Hdb as [->| ->]; [auto|]. split; [reflexivity|]. split; [by apply tick_ok | reflexivity]. }
    split; [exact Eo | change (rows db ⊆ rows (n_xdb n)); rewrite Er; exact Hs1 | | split; [exact Hpos | change (n_xdb (with_xdb n1 db)) with db; lia]].
    intros _. exists ([x] ++ []). eapply closes_app; [exact Hcl|]. by apply closes_nil. }
  destruct (linked_seqnum x =? 0).
  { exists (Continue (x_xreqnum x + 1)), n1. split; [reflexivity|]. pose proof (Hdone _ (or_introl eq_refl)) as Hd. by destruct n1. }
  destruct (SelectSeqnum_cases (n_xdb n1) (linked_seqnum x) Hok1) as (r & -> & Hr). destruct r as [y| |].
  - destruct Hr as [Hy _].
    destruct (ExpireXreq_closes (with_xdb n1 (tick (n_xdb n1))) (snd faults) y (tick_ok _ Hok1) Hy) as (rc2 & n2 & -> & Hok2 & Hs2 & Hc2). cbn [outcome_bind fst snd].
    eexists _, n2. split; [reflexivity|]. destruct (Z.eqb_spec rc2 0) as [Hrc2|Hrc2].
    + destruct (Hc2 Hrc2) as [Hcl2 Hsz2]. split; [exact Hok2 | by transitivity (rows (n_xdb n1)) | | split; [exact Hpos|]].
      * intros _. exists ([x] ++ [y]). eapply closes_app; [exact Hcl|]. by eapply closes_from; [| |exact Hcl2].
      * etransitivity; [|exact Hw]. apply work_left_fewer; [exact Hok1 | exact Hok2 | exact Hs2 | exact Hsz2 | reflexivity].
    + split; [exact Hok2 | by transitivity (rows (n_xdb n1)) | intros Hr; by destruct (Hr rc2) | exact Hrc2].
  - eexists _, _. split; [reflexivity|]. apply Hdone. by right.
  - eexists _, _. split; [reflexivity|]. split; [by apply tick_ok | exact Hs1 | intros Hr2; by destruct (Hr2 (-1)) | done].
Qed.

Lemma PruneTurn_result (n : node D) faults first next new : table_ok (n_xdb n) -> 1 <= next ->
  exists r n', PruneTurn fails n faults first next new = Ret (r, n') /\ turn_result first next n r n'.
Proof.
  intros Hok Hnext. unfold PruneTurn. fold (too_many (n_xdb n)).
  assert (Hsame : forall r n', table_ok (n_xdb n') -> rows (n_xdb n') = rows (n_xdb n) -> n_world n' = n_world n ->
    match r with Continue next' => 1 <= next' /\ work_left (n_xdb n') next' < work_left (n_xdb n) next | Break => first = false -> within_limits (n_xdb n') | Return rc => rc <> 0 end ->
    turn_result first next n r n').
  { intros r n' Ho Hr Hw Ht. split; [exact Ho | by rewrite Hr | intros _; exists []; by apply closes_nil | exact Ht]. }
  destruct (negb (too_many (n_xdb n)) && _) eqn:El.
  { exists Break, n. split; [reflexivity|]. apply Hsame; auto. intros _. rewrite (sum_small _ Hok) in El. apply andb_prop in El. destruct El as [E1 E2].
    apply negb_true_iff, Z.ltb_ge in E1. apply Z.leb_le in E2. split; [exact E1 | exact E2]. }
  pose proof (XreqsSelect_cases fails (n_xdb n) xreqnum_compare (fun x => ((if too_many (n_xdb n) then next else 0) <=? x_xreqnum x) && ((0 =? 0) || (x_type x =? 0))) linear_xreqnum Hok) as Hsel.
  unfold XreqsSelectXreqnum. destruct (XreqsSelect _ _ _) as [r db'] eqn:Er. pose proof (select_ticks _ _ _ _ _ Er) as ->. cbn [fst] in Hsel.
  pose proof (tick_ok _ Hok) as Hok'. destruct r as [x| |].
  2: { eexists _, _. split; [reflexivity|]. apply Hsame; auto. by destruct first. }
  2: { eexists _, _. split; [reflexivity|]. by apply Hsame. }
  destruct Hsel as (Hx & Hp & Hrx & Hfirst). pose proof (ro_num _ _ Hrx) as Hnum.
  assert (Hnum' : eqb (too_many (n_xdb n)) (negb (x_xreqnum x =? 0)) = true /\ (too_many (n_xdb n) = true -> next <= x_xreqnum x)).
  { destruct (too_many (n_xdb n)) eqn:Et; cbn in Hp.
    - destruct (Z.eqb_spec (x_xreqnum x) 0); [lia|]. split; [reflexivity | lia].
    - cbn [negb andb] in El. destruct (some_pending _ Hok Et El) as (k & y & Hy & Hy0). pose proof (Hfirst k y Hy ltac:(by rewrite Hy0)) as Hle.
      apply xreqnum_first in Hle. destruct (Z.eqb_spec (x_xreqnum x) 0); [|lia]. split; [reflexivity | discriminate]. }
  destruct Hnum' as [-> Hge]. rewrite u64_small by lia.
  destruct (first && too_many (n_xdb n) && (new <=? x_xreqnum x)) eqn:Eb.
  { eexists _, _. split; [reflexivity|]. apply Hsame; auto. intros ->. discriminate. }
  destruct (first && too_many (n_xdb n) && _ && _) eqn:Ec.
  { eexists _, _. split; [reflexivity|]. apply Hsame; auto. split; [lia|]. destruct (too_many (n_xdb n)) eqn:Et; [|by rewrite andb_false_r in Ec].
    eapply work_left_next; [exact Et | exact Et | reflexivity | exact Hx | auto]. }
  change (exists r n', close_linked fails (with_xdb n (tick (n_xdb n))) faults (x_xreqnum x + 1) x = Ret (r, n') /\ turn_result first next n r n').
  destruct (close_linked_result first (with_xdb n (tick (n_xdb n))) faults x next Hok' Hx ltac:(lia)) as (r & n' & E & [T1 T2 T3 T4]).
  { intros Ht. pose proof (Hge Ht). lia. }
  exists r, n'. split; [exact E|]. split; [exact T1 | exact T2 | | exact T4].
  intros Hr. destruct (T3 Hr) as [xs Hxs]. exists xs. by eapply closes_from; [| |exact Hxs].
Qed.

Lemma prune_loop_ends first new faults fuel : forall (n : node D) next, table_ok (n_xdb n) -> 1 <= next -> work_left (n_xdb n) next < Z.of_nat fuel ->
  exists rc n', prune_loop fails shutdown fuel n faults first next new = Ret (rc, n') /\ table_ok (n_xdb n') /\ rows (n_xdb n') ⊆ rows (n_xdb n)
    /\ (rc = 0 -> (exists xs, closes n xs n') /\ (first = false -> shutdown (clock (n_xdb n')) = false -> within_limits (n_xdb n'))).
Proof.
  induction fuel as [|fuel IH]; intros n next Hok Hn Hf; [unfold work_left in Hf; pose proof (count_nonneg (from_num next) (rows (n_xdb n))); destruct (too_many _); lia|].
  cbn [prune_loop]. destruct (shutdown (clock (n_xdb n))) eqn:Es.
  { exists 0, n. split; [reflexivity|]. split; [exact Hok|]. split; [done|]. intros _. split; [exists []; by apply closes_nil | congruence]. }
  destruct (PruneTurn_result n (faults fuel) first next new Hok Hn) as (r & n1 & -> & [T1 T2 T3 T4]). cbn [outcome_bind]. destruct r as [next'| |rc].
  - destruct T4 as [Hn' Hw]. destruct (IH n1 next' T1 Hn' ltac:(lia)) as (rc & n2 & E & Hok2 & Hs2 & Hr2). exists rc, n2. split; [exact E|]. split; [exact Hok2|]. split.
    + by transitivity (rows (n_xdb n1)).
    + intros Hrc. destruct (Hr2 Hrc) as [[ys Hy] Hl]. destruct (T3 ltac:(discriminate)) as [xs Hx]. split; [|exact Hl]. exists (xs ++ ys). by apply (closes_app n n1).
  - exists 0, n1. split; [reflexivity|]. split; [exact T1|]. split; [exact T2|]. intros _. split; [apply T3; discriminate | auto].
  - exists rc, n1. split; [reflexivity|]. split; [exact T1|]. split; [exact T2|]. intros Hrc. contradiction.
Qed.

Lemma PruneXreqs_ends (n : node D) faults new : table_ok (n_xdb n) ->
  exists rc n', PruneXreqs fails shutdown n faults new = Ret (rc, n') /\ table_ok (n_xdb n') /\ rows (n_xdb n') ⊆ rows (n_xdb n)
    /\ (rc = 0 -> (exists xs, closes n xs n') /\ (shutdown (clock (n_xdb n')) = false -> within_limits (n_xdb n'))).
Proof.
  intros Hok. unfold PruneXreqs.
  assert (Hw : forall (n : node D), work_left (n_xdb n) 1 <= 2 * Z.of_nat (size (rows (n_xdb n)))).
  { intros m. unfold work_left. assert (count (from_num 1) (rows (n_xdb m)) <= Z.of_nat (size (rows (n_xdb m)))); [|destruct (too_many _); lia].
    unfold count. apply inj_le, map_subseteq_size, map_filter_subseteq. }
  destruct (prune_loop_ends true new (faults true) (2 * size (rows (n_xdb n)) + 1) n 1 Hok ltac:(lia)) as (rc & n1 & -> & Hok1 & Hs1 & Hr1).
  { specialize (Hw n). lia. }
  cbn [outcome_bind]. destruct (Z.eqb_spec rc 0) as [Hrc|Hrc]; cbn [negb].
  2: { exists rc, n1. split; [reflexivity|]. split; [exact Hok1|]. split; [exact Hs1|]. contradiction. }
  destruct (prune_loop_ends false new (faults false) (2 * size (rows (n_xdb n1)) + 1) n1 1 Hok1 ltac:(lia)) as (rc2 & n2 & -> & Hok2 & Hs2 & Hr2).
  { specialize (Hw n1). lia. }
  exists rc2, n2. split; [reflexivity|]. split; [exact Hok2|]. split; [by transitivity (rows (n_xdb n1))|].
  intros Hrc2. destruct (Hr1 Hrc) as [[xs Hx] _]. destruct (Hr2 Hrc2) as [[ys Hy] Hl]. split; [exists (xs ++ ys); by apply (closes_app n n1) | auto].
Qed.

(** C19. Pruning ends and never trips an assertion, whatever fails.  Without an error and a
    shutdown the requests that are left number at most 1200 in blocks and 21200 in all, and
    those that went were closed one by one, each paid back what it held; no other row
    changes. *)
Theorem PruneXreqs_limits (n : node D) faults new : table_ok (n_xdb n) ->
  exists rc n', PruneXreqs fails shutdown n faults new = Ret (rc, n') /\ table_ok (n_xdb n') /\ rows (n_xdb n') ⊆ rows (n_xdb n)
    /\ (rc = 0 -> (exists xs, closes n xs n') /\ (shutdown (clock (n_xdb n')) = false -> within_limits (n_xdb n'))).
Proof. exact (PruneXreqs_ends n faults new). Qed.
End expire.

(** ** Listing requests *)

Section listing.
Context `{AmtFloat}.
Variable fails : nat -> bool.

(** The row that a listed request becomes. *)
Definition listed_row (x : Request) : Request := x{{changed := false}}.

Lemma InsertWithLock_cases db x rc db' : table_ok db -> request_ok (x_seqnum x) x -> Z.of_nat (size (rows db)) + 1 < 2 ^ 32 ->
  XreqsInsertWithLock fails db x = Ret (rc, db') ->
  table_ok db' /\ (rc <> 0 /\ rows db' = rows db \/ rc = 0 /\ rows db !! x_seqnum x = None /\ rows db' = <[x_seqnum x := listed_row x]> (rows db)).
Proof.
  intros Hok Hx Hn. unfold XreqsInsertWithLock. destruct (_ && _ && _); [|discriminate]. destruct (fails (clock db)).
  { intros [= <- <-]. split; [by apply tick_ok | left; done]. }
  destruct (bool_decide_reflect (is_Some (rows db !! x_seqnum x))) as [Hs|Hs]; cbn [orb].
  { intros [= <- <-]. split; [by apply tick_ok | left; done]. }
  destruct (t_expire_time (x_terms x) <=? 0).
  { intros [= <- <-]. split; [by apply tick_ok | left; done]. }
  apply eq_None_not_Some in Hs. intros [= <- E].
  assert (Hr : rows db' = <[x_seqnum x := listed_row x]> (rows db)) by (subst db'; destruct (x_xreqnum x =? 0); reflexivity).
  split; [|right; auto]. destruct Hok as [Hrows Hp Hq Hs']. pose proof (counts_size (rows db)) as Hsum.
  pose proof (count_nonneg persistent_row (rows db)). pose proof (count_nonneg pending_row (rows db)).
  split; rewrite ?Hr.
  - apply map_Forall_insert_2; [|exact Hrows]. by destruct Hx; split.
  - rewrite count_insert_new by exact Hs. unfold Rows.one. change (persistent_row (x_seqnum x, listed_row x)) with (x_xreqnum x <> 0) in *. subst db'.
    destruct (Z.eqb_spec (x_xreqnum x) 0) as [Hz|Hz]; destruct (decide _) as [Hd|Hd]; try contradiction.
    + exact Hp.
    + change (u32 (xreq_count_persistent db + 1) = 1 + count persistent_row (rows db)). rewrite Hp. rewrite Z.add_comm. apply (wrap_small 32). unfold in_word. lia.
  - rewrite count_insert_new by exact Hs. unfold Rows.one. change (pending_row (x_seqnum x, listed_row x)) with (x_xreqnum x = 0) in *. subst db'.
    destruct (Z.eqb_spec (x_xreqnum x) 0) as [Hz|Hz]; destruct (decide _) as [Hd|Hd]; try contradiction.
    + change (u32 (xreq_count_pending db + 1) = 1 + count pending_row (rows db)). rewrite Hq. rewrite Z.add_comm. apply (wrap_small 32). unfold in_word. lia.
    + exact Hq.
  - rewrite map_size_insert_None by exact Hs. lia.
Qed.

(** The row that a new request replaces: the first with its identifier, when that has no number. *)
Definition first_with (t : gmap Z Request) (oid : list Z) (y : Request) : Prop :=
  t !! x_seqnum y = Some y /\ objid (x_terms y) = oid /\ forall k z, t !! k = Some z -> objid (x_terms z) = oid -> x_seqnum y <= k.

(** The table without the row that is replaced, and the key that the new row then has if it has none. *)
Definition makes_room (t : gmap Z Request) (oid : list Z) (fresh : Z) (t' : gmap Z Request) (key : Z) : Prop :=
  (t' = t /\ key = fresh /\ forall y, first_with t oid y -> x_xreqnum y <> 0)
  \/ exists y, first_with t oid y /\ x_xreqnum y = 0 /\ t' = delete (x_seqnum y) t /\ key = x_seqnum y.

(** What can be listed: a request with terms that can be paid back. *)
Record listable (x : Request) : Prop := {
  li_num : 0 <= x_xreqnum x < 2 ^ 64 - 1;
  li_seq : 0 <= x_seqnum x;
  li_max : 0 <= max_amount (x_terms x) < 2 ^ 128;
  li_pledge : 0 <= pledge (x_terms x) <= 100;
  li_dest : TypeHasBareMsg (x_type x) = false -> destination (x_terms x) <> 0
}.

Lemma listable_ok x k : listable x -> 0 < k -> x_open_amount x = max_amount (x_terms x) -> x_seqnum x = k -> request_ok k x.
Proof. intros [L1 L2 L3 L4 L5] Hk Ho Hs. split; [exact Hs | exact Hk | exact L1 | rewrite Ho; exact L3 | exact L4 | exact L5]. Qed.

Definition keyed (x : Request) (key : Z) : Request := x{{x_seqnum := if x_seqnum x =? 0 then key else x_seqnum x}}.

Lemma keyed_eq x key : (if x_seqnum x =? 0 then x{{x_seqnum := key}} else x) = keyed x key.
Proof. unfold keyed. destruct (x_seqnum x =? 0); [reflexivity | by destruct x]. Qed.

Lemma keyed_ok x key : listable x -> 0 < key -> x_open_amount x = max_amount (x_terms x) -> request_ok (x_seqnum (keyed x key)) (keyed x key).
Proof.
  intros Hl Hk Ho. pose proof (li_seq _ Hl). apply listable_ok; [|  | exact Ho | reflexivity].
  - destruct Hl. split; try assumption. change (0 <= (if x_seqnum x =? 0 then key else x_seqnum x)). destruct (x_seqnum x =? 0); lia.
  - change (0 < (if x_seqnum x =? 0 then key else x_seqnum x)). destruct (Z.eqb_spec (x_seqnum x) 0); lia.
Qed.

Lemma keyed_twice x key fresh : 0 < key -> (if x_seqnum (keyed x key) =? 0 then (keyed x key){{x_seqnum := fresh}} else keyed x key) = keyed x key.
Proof.
  intros Hk. destruct (Z.eqb_spec (x_seqnum (keyed x key)) 0) as [Hz|Hz]; [|reflexivity]. exfalso. revert Hz.
  change ((if x_seqnum x =? 0 then key else x_seqnum x) = 0 -> False). destruct (Z.eqb_spec (x_seqnum x) 0); lia.
Qed.

Lemma insert_keyed db x key rc x' db' : table_ok db -> listable x -> 0 < key -> Z.of_nat (size (rows db)) + 1 < 2 ^ 32 ->
  x_open_amount x = max_amount (x_terms x) ->
  (let! r := XreqsInsertWithLock fails db (keyed x key) in Ret (fst r, keyed x key, snd r)) = Ret (rc, x', db') ->
  table_ok db' /\ (rc = 0 -> x' = keyed x key /\ rows db !! x_seqnum x' = None /\ rows db' = <[x_seqnum x' := listed_row x']> (rows db))
    /\ (rc <> 0 -> rows db' = rows db).
Proof.
  intros Hok Hl Hk Hn Ho. destruct (XreqsInsertWithLock fails db (keyed x key)) as [[rc1 db1]|e] eqn:E; [|discriminate]. intros [= <- <- <-].
  destruct (InsertWithLock_cases db (keyed x key) rc1 db1 Hok (keyed_ok x key Hl Hk Ho) Hn E) as (Hok' & [[Hrc Hr]|(Hrc & Hnone & Hr)]).
  - split; [exact Hok'|]. split; [contradiction | auto].
  - split; [exact Hok'|]. split; [auto | contradiction].
Qed.

Lemma insert_room db x fresh rc x' db' : table_ok db -> listable x -> 0 < fresh -> Z.of_nat (size (rows db)) + 1 < 2 ^ 32 ->
  x_open_amount x = max_amount (x_terms x) -> XreqsInsert fails db x fresh = Ret (rc, x', db') ->
  table_ok db' /\ (rc = -1 /\ rows db' = rows db \/ exists room key, makes_room (rows db) (objid (x_terms x)) fresh room key
    /\ (rc = 0 -> x' = keyed x key /\ room !! x_seqnum x' = None /\ rows db' = <[x_seqnum x' := listed_row x']> room)
    /\ (rc <> 0 -> rows db' = room)).
Proof.
  intros Hok Hl Hf Hn Ho. unfold XreqsInsert, XreqsSelectObjId.
  pose proof (XreqsSelect_cases fails db seqnum_compare (fun y => bool_decide (objid (x_terms y) = objid (x_terms x))) linear_fst Hok) as Hsel.
  destruct (XreqsSelect _ _ _) as [r db1] eqn:Er. pose proof (select_ticks _ _ _ _ _ Er) as ->. cbn [fst] in Hsel. pose proof (tick_ok _ Hok) as Hok1.
  rewrite keyed_eq.
  assert (Hnew : (forall y, first_with (rows db) (objid (x_terms x)) y -> x_xreqnum y <> 0) ->
    (let! r := XreqsInsertWithLock fails (tick db) (keyed x fresh) in Ret (fst r, keyed x fresh, snd r)) = Ret (rc, x', db') ->
    table_ok db' /\ (rc = -1 /\ rows db' = rows db \/ exists room key, makes_room (rows db) (objid (x_terms x)) fresh room key
    /\ (rc = 0 -> x' = keyed x key /\ room !! x_seqnum x' = None /\ rows db' = <[x_seqnum x' := listed_row x']> room) /\ (rc <> 0 -> rows db' = room))).
  { intros Hno E. destruct (insert_keyed (tick db) x fresh rc x' db' Hok1 Hl Hf Hn Ho E) as (Hok' & Hz & Hnz). split; [exact Hok'|]. right.
    exists (rows db), fresh. split; [by left | auto]. }
  destruct r as [y| |].
  - destruct Hsel as (Hy & Hoy & Hry & Hfirst). apply bool_decide_eq_true in Hoy.
    assert (Hfw : first_with (rows db) (objid (x_terms x)) y).
    { split; [exact Hy|]. split; [exact Hoy|]. intros k z Hz Hoz. pose proof (Hfirst k z Hz ltac:(by apply bool_decide_eq_true)) as Hle.
      unfold le_by, seqnum_compare in Hle. cbn in Hle. by apply Z.compare_le_iff in Hle. }
    destruct (Z.eqb_spec (x_xreqnum y) 0) as [Hz|Hz].
    + rewrite keyed_eq. destruct (XreqsDelete_cases fails (tick db) y Hok1 Hy) as (rc1 & db1 & E1 & Hok2 & _ & Hc). rewrite E1. cbn [outcome_bind fst snd].
      destruct Hc as [(-> & _ & Hr)|[-> Hr]]; cbn [Z.ltb Z.compare].
      { intros [= <- <- <-]. split; [exact Hok2 | left; split; [reflexivity | exact Hr]]. }
      change (0 <? 0) with false. cbv iota. rewrite keyed_twice by exact (ro_pos _ _ Hry). intros E.
      change (rows (tick db)) with (rows db) in Hr.
      destruct (insert_keyed db1 x (x_seqnum y) rc x' db' Hok2 Hl (ro_pos _ _ Hry)) as (Hok' & Hi & Hni); [| exact Ho | exact E|].
      { rewrite Hr, map_size_delete, Hy. lia. }
      split; [exact Hok'|]. right. exists (rows db1), (x_seqnum y). rewrite Hr in *. split; [right; exists y; auto | auto].
    + apply Hnew. intros z Hz'. destruct Hz' as (Hz1 & Hz2 & Hz3), Hfw as (_ & _ & Hf3).
      pose proof (Hf3 _ _ Hz1 Hz2). pose proof (Hz3 _ _ Hy Hoy). assert (x_seqnum z = x_seqnum y) as Heq by lia. rewrite Heq in Hz1. congruence.
  - apply Hnew. intros z (Hz1 & Hz2 & _). pose proof (Hsel _ _ Hz1) as Hf1. apply bool_decide_eq_false in Hf1. contradiction.
  - intros [= <- <- <-]. split; [exact Hok1 | by left].
Qed.

(** C35. Listing a request keeps the two counts of the table those of its rows.  Without an error
    the request is a new row, all of it open at the rate that it requires for all; the
    row that had its identifier goes if that was not in a block, and gives its number
    to a request that has none.  With an error the table has no new row. *)
Theorem AddRequest_lists db x fresh rc x' db' : table_ok db -> listable x -> 0 < fresh -> Z.of_nat (size (rows db)) + 1 < 2 ^ 32 ->
  AddRequest fails db x fresh = Ret (rc, x', db') ->
  table_ok db' /\ (rc = -1 /\ rows db' = rows db
    \/ exists room key rate, makes_room (rows db) (objid (x_terms x)) fresh room key /\ RateRequired x (max_amount (x_terms x)) = Ret rate
      /\ (rc = 0 -> x' = keyed x{{x_open_amount := max_amount (x_terms x); open_rate_required := rate; recalc_time := XREQ_RECALC_NEXT}} key
            /\ room !! x_seqnum x' = None /\ rows db' = <[x_seqnum x' := listed_row x']> room)
      /\ (rc <> 0 -> rows db' = room)).
Proof.
  intros Hok Hl Hf Hn. unfold AddRequest. destruct (RateRequired x (max_amount (x_terms x))) as [rate|e] eqn:Er; [|discriminate]. cbn [outcome_bind]. intros E.
  destruct (insert_room db x{{x_open_amount := max_amount (x_terms x); open_rate_required := rate; recalc_time := XREQ_RECALC_NEXT}} fresh rc x' db' Hok) as (Hok' & Hr);
    [by destruct Hl; split | exact Hf | exact Hn | reflexivity | exact E|].
  split; [exact Hok'|]. destruct Hr as [Hr|(room & key & Hm & H1 & H2)]; [by left|]. right. exists room, key, rate. auto.
Qed.
End listing.

(** ** Two valid requests that stop the engine *)

#[local] Existing Instance amounts27.

(** The codes of the two rates and of the seller's costs in the messages. *)
Definition buy_rate_code : Z := 1010 * 2 ^ 21 + (2 * 1330358 - 2 ^ 21).
Definition sell_rate_code : Z := 1010 * 2 ^ 21 + (2 * 1330357 - 2 ^ 21).
Definition sell_costs_code : Z := 990 * 2 ^ 21 + (2 * 1180920 - 2 ^ 21).

(** The modulus of the field (src/source/cclib/src/HashBases.h). *)
Definition hash_modulus : Z := 21888242871839275222246405745257275088548364400416034343698204186575808495617.

(** The exchange messages: time, destination, amounts, rate, discount, currency, costs, waiting
    time, flags and asset; and the seller's address, bc1q and then only q. *)
Definition message (most rate costs : Z) (address : list Z) : list Z :=
  le_bytes 4 5000 ++ le_bytes 32 77 ++ le_bytes 5 27 ++ le_bytes 5 most ++ le_bytes 4 rate ++ le_bytes 4 0 ++ le_bytes 2 1
  ++ le_bytes 4 costs ++ [60; 16; 0] ++ address.
Definition address_bytes : list Z :=
  [58; 8; 176; 247; 189; 239; 123; 222; 247; 189; 239; 123; 222; 247; 189; 239; 123; 222; 247; 189; 239; 123; 222; 247; 189; 239; 123; 225].
Definition buy_message : list Z := message 589953232881 buy_rate_code 0 [].
Definition sell_message : list Z := message 360388183697 sell_rate_code sell_costs_code (27 :: address_bytes).
Definition seller_address : list Z := [98; 99; 49; 113] ++ replicate 38 113.

(** What they say, with any destination and address. *)
Definition message_terms (type dest : Z) (addr : list Z) (most : Z) (rate costs : double) : Terms :=
  mkTerms type [] (TX_TIME_OFFSET + 5000) 0 1 [] addr dest [] (10 ^ 27) most rate zero zero costs 0 0 50 60 60 60 0 0 43200 12 plain_flags.
Definition buy_terms (dest : Z) : Terms := message_terms CC_TYPE_XCX_SIMPLE_BUY dest [] (18436038528 * 10 ^ 17) (wire_double buy_rate_code) zero.
Definition sell_terms (dest : Z) (addr : list Z) : Terms :=
  message_terms CC_TYPE_XCX_SIMPLE_SELL dest addr (11262130741 * 10 ^ 17) (wire_double sell_rate_code) (wire_double sell_costs_code).
Definition empty_xdb : Xdb := mkXdb ∅ 0 0 0 1 false.

Definition list_request (db : Xdb) (t : Terms) (oid : list Z) (num time : Z) : outcome Xdb :=
  let! r := AddRequest works db (new_request t{{objid := oid}}){{x_xreqnum := num; x_blocktime := time}} (100 + num) in
  if fst (fst r) =? 0 then Ret (snd r) else Throw AssertFail.
Definition list_both (buy sell : Terms) (oid1 oid2 : list Z) : outcome Xdb :=
  let! db := list_request empty_xdb buy oid1 1 (TX_TIME_OFFSET + 1000) in list_request db sell oid2 2 (TX_TIME_OFFSET + 1000).

Lemma empty_ok : table_ok empty_xdb.
Proof. split; [apply map_Forall_empty | reflexivity | reflexivity | reflexivity]. Qed.

Definition demo_new (num : Z) : Request := (new_request (x_terms demo_sell)){{x_xreqnum := num; x_blocktime := 1000}}.

Lemma demo_listable num : 0 <= num < 100 -> listable (demo_new num).
Proof.
  intros Hn. split; [change (0 <= num < 2 ^ 64 - 1); lia | discriminate | split; [discriminate | reflexivity] | split; discriminate | discriminate].
Qed.

(** A request that is valid and then in a block: it keeps the number of the first row. *)
Definition listed_once : outcome (Z * Request * Xdb) := AddRequest works empty_xdb (demo_new 0) 101.
Lemma AddRequest_lists_witness : exists x1 db1 x2 db2,
  listed_once = Ret (0, x1, db1) /\ AddRequest works db1 (demo_new 2) 102 = Ret (0, x2, db2) /\ table_ok db2
  /\ x_seqnum x2 = 101 /\ size (rows db2) = 1%nat /\ xreq_count_persistent db2 = 1.
Proof.
  assert (E : exists x1 db1 x2 db2, listed_once = Ret (0, x1, db1) /\ AddRequest works db1 (demo_new 2) 102 = Ret (0, x2, db2)
    /\ Z.of_nat (size (rows db1)) + 1 < 2 ^ 32 /\ x_seqnum x2 = 101 /\ size (rows db2) = 1%nat /\ xreq_count_persistent db2 = 1).
  { eexists _, _, _, _. split; [vm_compute; reflexivity|]. split; [vm_compute; reflexivity|]. repeat split; reflexivity. }
  destruct E as (x1 & db1 & x2 & db2 & E1 & E2 & Hs & Hrest). exists x1, db1, x2, db2. split; [exact E1|]. split; [exact E2|]. split; [|exact Hrest].
  destruct (AddRequest_lists works empty_xdb (demo_new 0) 101 0 x1 db1 empty_ok (demo_listable 0 ltac:(lia)) ltac:(lia) ltac:(reflexivity) E1) as [Hok1 _].
  exact (proj1 (AddRequest_lists works db1 (demo_new 2) 102 0 x2 db2 Hok1 (demo_listable 2 ltac:(lia)) ltac:(lia) Hs E2)).
Defined.

(** The two requests of the demonstration of Matching.v, on the node of Settlement.v. *)
Definition demo_node (t : gmap Z Request) : node demo_outputs := mkNode demo_world (mkXdb t 0 (Z.of_nat (size t)) 0 1 false) 9 9.
Definition demo_rows : gmap Z Request := {[101 := demo_buy{{x_seqnum := 101}}; 102 := demo_sell{{x_seqnum := 102}}]}.

Lemma demo_node_ok : table_ok (n_xdb (demo_node demo_rows)).
Proof.
  split; [|vm_compute; reflexivity|vm_compute; reflexivity|vm_compute; reflexivity].
  intros k x Hx. unfold demo_rows in Hx. cbn [n_xdb demo_node rows] in Hx.
  apply lookup_insert_Some in Hx as [[<- <-]|[_ Hx]]; [|apply lookup_singleton_Some in Hx as [<- <-]];
    (split; [reflexivity | reflexivity | split; [discriminate | reflexivity] | split; [discriminate | reflexivity] | split; discriminate | discriminate]).
Qed.

Definition works_at (_ : nat) : bool := false.

(** Both expire: the buyer gets the pledge of half of 3 back, the seller its 2. *)
Lemma ExpireXreqs_pays_back_witness : exists n' xs, ExpireXreqs works works (demo_node demo_rows) works_at 6000 = Ret (0, n')
  /\ all_paid_back demo_world xs (n_world n') /\ rows (n_xdb n') = ∅ /\ forall k x, demo_rows !! k = Some x -> In x xs.
Proof.
  destruct (ExpireXreqs_pays_back works works demo_prime ltac:(discriminate) ltac:(discriminate) (demo_node demo_rows) works_at 6000 demo_node_ok) as (rc & n' & xs & E & Hex).
  assert (E0 : (let! r := ExpireXreqs works works (demo_node demo_rows) works_at 6000 in Ret (fst r)) = Ret 0) by (vm_compute; reflexivity).
  rewrite E in E0. cbn in E0. injection E0 as ->. exists n', xs. split; [exact E|]. destruct Hex as [_ _ _ X4 X5 _ X7 X8].
  destruct (X8 eq_refl eq_refl) as [Hr Hin]. split; [exact (X7 eq_refl)|]. split.
  - rewrite Hr. vm_compute. reflexivity.
  - intros k x Hx. apply (Hin k x Hx). unfold demo_rows in Hx.
    apply lookup_insert_Some in Hx as [[_ <-]|[_ Hx]]; [|apply lookup_singleton_Some in Hx as [_ <-]]; reflexivity.
Defined.

(** 1201 sellers in blocks: one too many. *)
Definition crowd_row (k : Z) : Request := demo_sell{{x_seqnum := k; x_xreqnum := k}}.
Definition crowd : gmap Z Request := list_to_map ((fun i => (Z.of_nat i + 1, crowd_row (Z.of_nat i + 1))) <$> seq 0 1201).

Lemma crowd_ok : table_ok (mkXdb crowd 0 1201 0 1 false).
Proof.
  split; [|vm_compute; reflexivity|vm_compute; reflexivity|vm_compute; reflexivity].
  intros k x Hx. apply elem_of_list_to_map_2, list_elem_of_fmap in Hx. destruct Hx as (i & [= -> ->] & Hi). apply elem_of_seq in Hi.
  split; [reflexivity | lia | change (0 <= Z.of_nat i + 1 < 2 ^ 64 - 1); lia | split; [discriminate | reflexivity] | split; discriminate | discriminate].
Qed.

Lemma PruneXreqs_limits_witness :
  exists n', PruneXreqs works works (mkNode demo_world (mkXdb crowd 0 1201 0 1 false) 2000 9) (fun _ _ => (false, false)) 1500 = Ret (0, n')
    /\ within_limits (n_xdb n') /\ xreq_count_persistent (n_xdb n') = 1200 /\ rows (n_xdb n') !! 1 = None.
Proof.
  destruct (PruneXreqs_limits works works demo_prime ltac:(discriminate) ltac:(discriminate) (mkNode demo_world (mkXdb crowd 0 1201 0 1 false) 2000 9)
    (fun _ _ => (false, false)) 1500 crowd_ok) as (rc & n' & E & _ & _ & Hl).
  assert (E0 : (let! r := PruneXreqs works works (mkNode demo_world (mkXdb crowd 0 1201 0 1 false) 2000 9) (fun _ _ => (false, false)) 1500 in
    Ret (fst r, xreq_count_persistent (n_xdb (snd r)), match rows (n_xdb (snd r)) !! 1 with None => true | Some _ => false end)) = Ret (0, 1200, true)) by (vm_compute; reflexivity).
  rewrite E in E0. cbn [outcome_bind fst snd] in E0. injection E0 as Hrc Hc Hn. subst rc. exists n'. split; [exact E|].
  split; [exact (proj2 (Hl eq_refl) eq_refl)|]. split; [exact Hc | by destruct (rows (n_xdb n') !! 1)].
Defined.

(** Validation accepts the terms of a request, where [time] is the time of the block before, when
    its address is free and the donation is enough. *)
Definition accepted (t : Terms) (time : Z) : Prop :=
  forall (server : ForeignServer) siphash P p db f in_block tx donation tx_size total_nout,
    IsTestnet (blockchain p) = false -> nin tx < TX_MAXIN -> xreq_min_donation P p t tx tx_size total_nout <= donation ->
    check_address p db f time in_block (t_quote_asset t) (t_foreign_address t) tt = Ret (inr (tt, tt)) ->
    ValidateXreq siphash P p db f time in_block tx t donation tx_size total_nout tt = Ret (inr (tx{{amount_carry_out := xreq_carry_out P t}}, tt)).

Lemma step_pass {A} (b : bool) rc (k : step A) : b = false -> (reject b rc;; k) tt = k tt.
Proof. by intros ->. Qed.
Lemma step_then {A} (m : step unit) (k : step A) : m tt = Ret (inr (tt, tt)) -> (m;; k) tt = k tt.
Proof. intros E. cbv [mbind wired_bind]. by rewrite E. Qed.

Lemma terms_accepted type dest addr most rate costs : type = CC_TYPE_XCX_SIMPLE_BUY \/ type = CC_TYPE_XCX_SIMPLE_SELL -> dest <> 0 ->
  10 ^ 27 <= most < 2 ^ 128 -> 0 < d_m rate -> 0 <= d_m costs -> accepted (message_terms type dest addr most rate costs) (TX_TIME_OFFSET + 980).
Proof.
  intros Hty Hd Hm Hr Hc Hserver siphash P p db f in_block tx donation tx_size total_nout Hp Hnin Hdon Haddr. unfold ValidateXreq, invalid, unsupported.
  cbn [t_foreign_address message_terms destination] in *.
  rewrite step_pass by (rewrite (proj2 (Z.leb_gt _ _) Hnin); apply andb_false_r).
  rewrite step_pass by (by apply Z.eqb_neq).
  rewrite step_pass by reflexivity. rewrite step_pass by (apply orb_false_iff; split; [apply Z.eqb_neq | apply Z.leb_gt]; cbn [max_amount message_terms]; lia).
  rewrite step_pass by (apply Z.ltb_ge; cbn [max_amount min_amount message_terms]; lia).
  rewrite step_pass by (apply Z.leb_gt; cbn [net_rate_required message_terms]; lia).
  rewrite step_pass by reflexivity.
  rewrite step_pass by (apply Z.ltb_ge; cbn [quote_costs message_terms]; lia).
  do 3 rewrite step_pass by reflexivity.
  rewrite step_then by (unfold check_xreq_terms; rewrite Hp; by destruct Hty as [-> | ->]).
  rewrite step_pass by reflexivity. rewrite step_then by exact Haddr.
  rewrite step_pass by (rewrite (proj2 (Z.ltb_ge _ _) Hdon); reflexivity).
  do 2 rewrite step_pass by reflexivity.
  by destruct Hty as [-> | ->].
Qed.

Lemma select_other oid k (x : Request) : objid (x_terms x) <> oid ->
  select_by seqnum_compare (fun x => bool_decide (objid (x_terms x) = oid)) {[k := x]} = [].
Proof.
  intros Hn. unfold select_by, select_rows. rewrite map_to_list_singleton, filter_cons_False; [reflexivity|]. cbn [snd]. by rewrite bool_decide_eq_true.
Qed.

(** The row of a request, with the rate that it requires for all of its amount. *)
Definition both_row (t : Terms) (oid : list Z) (num : Z) (rate : double) : Request :=
  (new_request t{{objid := oid}}){{x_seqnum := 100 + num; x_xreqnum := num; x_blocktime := TX_TIME_OFFSET + 1000;
     x_open_amount := max_amount t; open_rate_required := rate; recalc_time := XREQ_RECALC_NEXT}}.
Definition both_rows (oid1 oid2 : list Z) (dest1 dest2 : Z) (addr : list Z) : gmap Z Request :=
  <[102 := both_row (sell_terms dest2 addr) oid2 2 (mkD 2856922050985983 (-65))]>
  {[101 := both_row (buy_terms dest1) oid1 1 (mkD 2856922050985983 (-65))]}.

Lemma first_listed oid dest : list_request empty_xdb (buy_terms dest) oid 1 (TX_TIME_OFFSET + 1000)
  = Ret (mkXdb {[101 := both_row (buy_terms dest) oid 1 (mkD 2856922050985983 (-65))]} 0 1 2 1 false).
Proof. vm_compute. reflexivity. Qed.

Lemma second_listed oid1 oid2 dest1 dest2 addr : oid1 <> oid2 ->
  list_request (mkXdb {[101 := both_row (buy_terms dest1) oid1 1 (mkD 2856922050985983 (-65))]} 0 1 2 1 false) (sell_terms dest2 addr) oid2 2 (TX_TIME_OFFSET + 1000)
  = Ret (mkXdb (both_rows oid1 oid2 dest1 dest2 addr) 0 2 4 1 false).
Proof.
  intros Hn. unfold list_request, AddRequest.
  assert (E : XreqsSelectObjId works (mkXdb {[101 := both_row (buy_terms dest1) oid1 1 (mkD 2856922050985983 (-65))]} 0 1 2 1 false) oid2
    = (NotFound, mkXdb {[101 := both_row (buy_terms dest1) oid1 1 (mkD 2856922050985983 (-65))]} 0 1 3 1 false)).
  { unfold XreqsSelectObjId. cbn [rows]. rewrite select_other by exact Hn. reflexivity. }
  match goal with |- context [RateRequired ?x ?a] => let v := eval vm_compute in (RateRequired x a) in assert (Hr : RateRequired x a = v) by (vm_compute; reflexivity) end.
  rewrite Hr. cbn [outcome_bind].
  unfold XreqsInsert. cbn [x_terms objid new_request]. match goal with |- context [XreqsSelectObjId works ?d ?o] => change (XreqsSelectObjId works d o) with (XreqsSelectObjId works d oid2) end.
  rewrite E. vm_compute. reflexivity.
Qed.

Lemma both_halt oid1 oid2 dest1 dest2 c addr : MatchReqs works works false (mkXdb (both_rows oid1 oid2 dest1 dest2 (c :: addr)) 0 2 4 1 false) (TX_TIME_OFFSET + 1200) 2 = Throw AssertFail.
Proof. vm_compute. reflexivity. Qed.

(** C37. The engine can stop on two requests that validation accepts.  Their terms are those of
    two exchange messages, with any destinations and any address of the seller that is
    valid; listed in an empty table and matched in a block, they make [MatchReqs] fail the
    assertion that a best rate is not above the rate that the buyer requires.  The buyer's
    rate for the whole amount is rounded to one unit below its rate for the part that
    the seller has, and so is the average of the two sides' rates. *)
Theorem rounding_halts_matching oid1 oid2 dest1 dest2 addr old_tables : oid1 <> oid2 -> dest1 <> 0 -> dest2 <> 0 ->
  CheckForeignAddress (sell_terms dest2 addr) = false ->
  FromWire_caught hash_modulus false old_tables (XReq (empty_terms CC_TYPE_XCX_SIMPLE_BUY)) buy_message = Ret (Some (XReq (buy_terms 77)))
  /\ FromWire_caught hash_modulus false old_tables (XReq (empty_terms CC_TYPE_XCX_SIMPLE_SELL)) sell_message = Ret (Some (XReq (sell_terms 77 seller_address)))
  /\ accepted (buy_terms dest1) (TX_TIME_OFFSET + 980) /\ accepted (sell_terms dest2 addr) (TX_TIME_OFFSET + 980)
  /\ exists db, list_both (buy_terms dest1) (sell_terms dest2 addr) oid1 oid2 = Ret db /\ size (rows db) = 2%nat
    /\ MatchReqs works works false db (TX_TIME_OFFSET + 1200) 2 = Throw AssertFail.
Proof.
  intros Hn H1 H2 Ha. split; [destruct old_tables; vm_compute; reflexivity|]. split; [destruct old_tables; vm_compute; reflexivity|].
  split; [apply terms_accepted; [by left | exact H1 | split; [vm_compute; discriminate | vm_compute; reflexivity] | vm_compute; reflexivity | vm_compute; discriminate]|].
  split; [apply terms_accepted; [by right | exact H2 | split; [vm_compute; discriminate | vm_compute; reflexivity] | vm_compute; reflexivity | vm_compute; discriminate]|].
  destruct addr as [|c addr]; [discriminate|]. exists (mkXdb (both_rows oid1 oid2 dest1 dest2 (c :: addr)) 0 2 4 1 false).
  split; [unfold list_both; rewrite first_listed; cbn [outcome_bind]; by apply second_listed|]. split; [reflexivity | apply both_halt].
Qed.

Lemma rounding_halts_matching_witness : exists db, list_both (buy_terms 77) (sell_terms 77 seller_address) [1] [2] = Ret db
  /\ MatchReqs works works false db (TX_TIME_OFFSET + 1200) 2 = Throw AssertFail.
Proof.
  destruct (rounding_halts_matching [1] [2] 77 77 seller_address false ltac:(discriminate) ltac:(discriminate) ltac:(discriminate) ltac:(vm_compute; reflexivity))
    as (_ & _ & _ & _ & db & E & _ & Hdb). exists db. split; [exact E | exact Hdb].
Defined.
