(* ===== verification/Rounds.v ===== *)
(** * Rounds of the exchange (src/source/ccnode/src/process-xreq.cpp)

    What a round of the engine of Matching.v leaves as it was, and what becomes of the
    matches that it found when they are made permanent. *)
From stdpp Require Import gmap.
From coqutil Require Import Datatypes.RecordSetters.
Import DoubleBraceUpdate.
From S2P Require Import Prelude Rows Bigint Block ZkHash Objects Txs UniFloat TxAmount Merkle Xmatch MatchTables Mining Settle Settlement XreqTable Matching XreqFlow.

Local Open Scope Z_scope.
Local Open Scope cc_scope.

(** ** What a round leaves as it was *)

(** A request but for what the engine computes: its terms, the rate that it requires for what
    is open of it, its two numbers and its open amount. *)
Definition identity (x : Request) : Terms * double * Z * Z * Z := (x_terms x, open_rate_required x, x_seqnum x, x_xreqnum x, x_open_amount x).

(** The rows with their times, without the columns of the engine. *)
Definition row_ids (db : Xdb) : gmap Z (Terms * double * Z * Z * Z * Z) := (fun x => (identity x, x_blocktime x)) <$> rows db.

(** With the two counts. *)
Definition ids (db : Xdb) : gmap Z (Terms * double * Z * Z * Z * Z) * Z * Z := (row_ids db, xreq_count_pending db, xreq_count_persistent db).

Lemma ids_rows db db' : ids db' = ids db -> row_ids db' = row_ids db.
Proof. unfold ids. congruence. Qed.

Lemma ids_with_rows db t : (fun x => (identity x, x_blocktime x)) <$> t = row_ids db -> ids (with_rows (tick db) t) = ids db.
Proof. intros Ht. unfold ids. rewrite <- Ht. reflexivity. Qed.

(** A request in memory that still is as its row. *)
Definition current (db : Xdb) (x : Request) : Prop := fst <$> (row_ids db !! x_seqnum x) = Some (identity x).

Definition keys_ok (db : Xdb) : Prop := forall k x, rows db !! k = Some x -> x_seqnum x = k.

Lemma table_keys db : table_ok db -> keys_ok db.
Proof. intros Hok k x Hx. exact (ro_key _ _ (table_ok_rows _ _ _ Hok Hx)). Qed.

Lemma keys_same db db' : ids db' = ids db -> keys_ok db -> keys_ok db'.
Proof.
  intros Hi%ids_rows Hk k x Hx. assert (E : row_ids db' !! k = Some (identity x, x_blocktime x)) by (unfold row_ids; by rewrite lookup_fmap, Hx).
  rewrite Hi in E. unfold row_ids in E. rewrite lookup_fmap in E. destruct (rows db !! k) as [y|] eqn:Ey; [|discriminate].
  cbn in E. injection E as _ _ E _ _ _. rewrite <- E. exact (Hk k y Ey).
Qed.

Lemma current_same db db' x : ids db' = ids db -> current db x -> current db' x.
Proof. unfold current. by intros ->%ids_rows. Qed.

Lemma current_eq db x y : identity y = identity x -> current db x -> current db y.
Proof. unfold current. intros Hi. assert (x_seqnum y = x_seqnum x) as -> by (unfold identity in Hi; congruence). by rewrite Hi. Qed.

Lemma current_row db k x : keys_ok db -> rows db !! k = Some x -> current db x.
Proof. intros Hk Hx. unfold current, row_ids. by rewrite lookup_fmap, (Hk k x Hx), Hx. Qed.

Lemma same_identity x y : same_request x y -> identity y = identity x.
Proof. unfold same_request, identity. intuition congruence. Qed.

Lemma update_ids fails db x rc db' : current db x -> XreqsUpdate fails db x = Ret (rc, db') -> ids db' = ids db.
Proof.
  intros Hc. unfold XreqsUpdate. destruct (_ && _); [|discriminate]. destruct (fails (clock db)); intros [= <- <-]; [reflexivity|].
  apply ids_with_rows. unfold row_ids. apply map_eq. intros k. rewrite !lookup_fmap.
  destruct (decide (k = x_seqnum x)) as [->|Hn]; [|refine (f_equal _ (lookup_alter_ne _ _ _ _ _)); by apply not_eq_sym].
  rewrite lookup_alter_eq. unfold current, row_ids in Hc. rewrite lookup_fmap in Hc. destruct (rows db !! x_seqnum x) as [y|]; [|reflexivity].
  cbn in Hc. injection Hc as H1 H2 H3 H4 H5.
  change (Some (x_terms y, open_rate_required x, x_seqnum x, x_xreqnum y, x_open_amount x, x_blocktime y)
    = Some (x_terms y, open_rate_required y, x_seqnum y, x_xreqnum y, x_open_amount y, x_blocktime y)). congruence.
Qed.

Section rounds.
Context `{AmtFloat}.
Variables fails shutdown : nat -> bool.
Variable IsWitness : bool.

Lemma write_changed_ids db x x' db' : current db x -> write_changed fails db x = Ret (x', db') -> ids db' = ids db /\ identity x' = identity x.
Proof.
  intros Hc E. destruct (write_changed_same _ _ _ _ _ E) as (Hs & _ & _). split; [|exact (same_identity _ _ Hs)].
  unfold write_changed in E. destruct (changed x); [|by injection E as _ <-]. cbv zeta in E. returned E. destruct v as [rc r]. cbn [fst snd] in E.
  destruct (rc =? 0); [|discriminate]. injection E as _ <-. eapply update_ids; [|exact E0]. exact Hc.
Qed.

Lemma CheckMatch_ids db buyer seller t b buyer' seller' db' : current db buyer -> current db seller ->
  CheckMatch fails IsWitness db buyer seller t = Ret (b, buyer', seller', db') ->
  ids db' = ids db /\ identity buyer' = identity buyer /\ identity seller' = identity seller.
Proof.
  intros Hcb Hcs E. unfold CheckMatch in E. returned E. destruct v as [c|]; [|injection E as _ <- <- <-; done].
  returned E. destruct v as [[[b1 s1] bn] sn].
  assert (Hd : same_request buyer b1 /\ same_request seller s1).
  { unfold Discounts in E1. destruct (_ =? 0); [injection E1 as <- <- <- <-; split; apply same_request_refl|].
    do 2 returned E1. injection E1 as <- <- <- <-. destruct v, v0. cbn [fst]. split; eapply ComputeDiscount_same; eassumption. }
  destruct Hd as [Hb Hs]. cbv zeta in E.
  destruct (Consider _ _ _ b1 _ _ _) as [bs b2] eqn:Eb. destruct (Consider _ _ _ s1 _ _ _) as [ss s2] eqn:Es.
  apply Consider_cases in Eb as [Hb1 _], Es as [Hs1 _].
  pose proof (same_identity _ _ (same_request_trans _ _ _ Hb Hb1)) as Ib. pose proof (same_identity _ _ (same_request_trans _ _ _ Hs Hs1)) as Is.
  returned E. destruct v as [b3 db1]. returned E. destruct v as [s3 db2]. injection E as _ <- <- <-.
  apply write_changed_ids in E2 as [W1 W2]; [|exact (current_eq db buyer b2 Ib Hcb)]. change (ids db1 = ids db) in W1.
  apply write_changed_ids in E3 as [W3 W4]; [|exact (current_same db db1 s2 W1 (current_eq _ _ _ Is Hcs))].
  split; [congruence | split; congruence].
Qed.

Lemma UpdateMutualMatch_ids db x other amount rate pass t hold db' : current db x ->
  UpdateMutualMatch fails db x other amount rate pass t hold = Ret db' -> ids db' = ids db.
Proof.
  intros Hc E. unfold UpdateMutualMatch in E. cbv zeta in E. repeat returned E. destruct v0 as [rc r]. cbn [fst snd] in *. injection E as <-.
  eapply update_ids; [|eassumption]. refine (current_eq db x _ _ Hc). destruct (pending_match_epoch _ =? _); reflexivity.
Qed.

Lemma select_current db c p x db' : keys_ok db -> linear c -> XreqsSelect fails db (select_by c p (rows db)) = (Found x, db') -> ids db' = ids db /\ current db' x.
Proof.
  intros Hk Hc. unfold XreqsSelect. destruct (fails (clock db)); [discriminate|]. destruct (select_by c p (rows db)) as [|[n y] rest] eqn:Es; [discriminate|].
  destruct (x_seqnum y =? 0); [discriminate|]. intros [= -> <-]. split; [reflexivity|].
  destruct (select_by_first c p _ n x rest Hc Es) as [Hx _]. exact (current_row db n x Hk Hx).
Qed.

Lemma select_ids db sel r db' : XreqsSelect fails db sel = (r, db') -> ids db' = ids db.
Proof. intros E. by rewrite (select_ticks _ _ _ _ _ E). Qed.

Lemma join_current db c p x y db' : keys_ok db -> linear c -> select_join fails db (select_by c p (rows db)) = (Found (x, y), db') ->
  ids db' = ids db /\ current db' x /\ current db' y.
Proof.
  intros Hk Hc. unfold select_join. destruct (fails (clock db)); [discriminate|]. destruct (select_by c p (rows db)) as [|[n z] rest] eqn:Es; [discriminate|].
  destruct (rows db !! x_best_other_seqnum z) as [w|] eqn:Ew; [|discriminate]. destruct (_ || _); [discriminate|]. intros [= -> -> <-]. split; [reflexivity|].
  destruct (select_by_first c p _ n x rest Hc Es) as [Hx _]. split; [exact (current_row db n x Hk Hx) | exact (current_row db _ y Hk Ew)].
Qed.

Lemma join_ids db sel r db' : select_join fails db sel = (r, db') -> ids db' = ids db.
Proof. unfold select_join. by intros [= _ <-]. Qed.

Lemma checked_found c r x db' : checked c r = Ret (Found x, db') -> r = (Found x, db').
Proof. unfold checked. destruct r as [[y| |] db]; cbn [fst]; intros E; [returned E; congruence | discriminate | discriminate]. Qed.

Lemma checked_ids c r v db' : checked c r = Ret (v, db') -> snd r = db'.
Proof. unfold checked. destruct r as [[y| |] db]; cbn [fst snd]; intros E; [returned E|..]; congruence. Qed.

Lemma major_current db c x db' : keys_ok db -> MatchingSelectMajor fails db c = Ret (Found x, db') -> ids db' = ids db /\ current db' x.
Proof. intros Hk E. apply checked_found in E. eapply select_current; [exact Hk | exact linear_index | exact E]. Qed.

Lemma major_ids db c r db' : MatchingSelectMajor fails db c = Ret (r, db') -> ids db' = ids db.
Proof. intros E. apply checked_ids in E. subst db'. reflexivity. Qed.

Lemma minor_current db m c x db' : keys_ok db -> MatchingSelectMinor fails db m c = Ret (Found x, db') -> ids db' = ids db /\ current db' x.
Proof.
  intros Hk E. unfold MatchingSelectMinor in E. returned E. cbv zeta in E. destruct (XreqsSelect _ _ _) as [r db1] eqn:Er. cbn [fst] in E.
  destruct r as [y| |]; [|discriminate|discriminate]. returned E. apply checked_found in E. injection E as -> ->.
  eapply select_current; [exact Hk | exact linear_index | exact Er].
Qed.

Lemma minor_ids db m c r db' : MatchingSelectMinor fails db m c = Ret (r, db') -> ids db' = ids db.
Proof.
  intros E. unfold MatchingSelectMinor in E. returned E. cbv zeta in E. destruct (XreqsSelect _ _ _) as [v db1] eqn:Er. apply select_ids in Er. cbn [fst] in E.
  destruct v as [y| |]; [returned E; apply checked_ids in E; cbn in E; congruence | congruence | congruence].
Qed.

Lemma minor_loop_ids fuel : forall db m major c t count set r n db', keys_ok db -> current db major ->
  minor_loop fails shutdown IsWitness fuel db m major c t count set = Ret (r, n, db') -> ids db' = ids db.
Proof.
  induction fuel as [|fuel IH]; intros db m major c t count set r n db' Hk Hc E; cbn [minor_loop] in E;
    (destruct (shutdown (clock db)); [by injection E as _ _ <-|]); [discriminate|].
  returned E. destruct v as [v db1]. destruct v as [x| |]; [|injection E as _ _ <-; exact (minor_ids _ _ _ _ _ E0) | discriminate].
  destruct (minor_current _ _ _ _ _ Hk E0) as [I1 C1]. returned E. destruct v as [[[b major'] minor'] db2].
  destruct (CheckMatch_ids _ _ _ _ _ _ _ _ (current_same _ _ _ I1 Hc) C1 E1) as (I2 & I3 & _).
  assert (I : ids db2 = ids db) by congruence. rewrite <- I. apply IH in E; [exact E | exact (keys_same _ _ I Hk) | exact (current_same _ _ _ I (current_eq _ _ _ I3 Hc))].
Qed.

Lemma major_loop_ids fuel : forall db c t count set r n db', keys_ok db ->
  major_loop fails shutdown IsWitness fuel db c t count set = Ret (r, n, db') -> ids db' = ids db.
Proof.
  induction fuel as [|fuel IH]; intros db c t count set r n db' Hk E; cbn [major_loop] in E;
    (destruct (shutdown (clock db)); [by injection E as _ _ <-|]); [discriminate|].
  returned E. destruct v as [v db1]. destruct v as [x| |]; [|injection E as _ _ <-; exact (major_ids _ _ _ _ E0) | discriminate].
  destruct (major_current _ _ _ _ Hk E0) as [I1 C1]. returned E. destruct v as [[b k] db2].
  apply minor_loop_ids in E1; [|exact (keys_same _ _ I1 Hk) | exact C1].
  assert (I : ids db2 = ids db) by congruence. rewrite <- I. apply IH in E; [exact E | exact (keys_same _ _ I Hk)].
Qed.

Lemma quote_loop_ids fuel : forall db k t count set r n db', keys_ok db ->
  quote_loop fails shutdown IsWitness fuel db k t count set = Ret (r, n, db') -> ids db' = ids db.
Proof.
  induction fuel as [|fuel IH]; intros db k t count set r n db' Hk E; cbn [quote_loop] in E;
    (destruct (shutdown (clock db)); [by injection E as _ _ <-|]); [discriminate|].
  destruct (XreqsSelectPairQuote fails db k) as [v db1] eqn:Es. apply select_ids in Es. destruct v as [x| |]; [|injection E as _ _ <-; exact Es | discriminate].
  returned E. destruct v as [[b j] db2]. apply major_loop_ids in E0; [|exact (keys_same _ _ Es Hk)].
  assert (I : ids db2 = ids db) by congruence. rewrite <- I. apply IH in E; [exact E | exact (keys_same _ _ I Hk)].
Qed.

Lemma base_loop_ids fuel : forall db k t count set r n db', keys_ok db ->
  base_loop fails shutdown IsWitness fuel db k t count set = Ret (r, n, db') -> ids db' = ids db.
Proof.
  induction fuel as [|fuel IH]; intros db k t count set r n db' Hk E; cbn [base_loop] in E;
    (destruct (shutdown (clock db)); [by injection E as _ _ <-|]); [discriminate|].
  destruct (XreqsSelectPairBase fails db k) as [v db1] eqn:Es. apply select_ids in Es. destruct v as [x| |]; [|injection E as _ _ <-; exact Es | discriminate].
  returned E. destruct v as [[b j] db2]. apply quote_loop_ids in E0; [|exact (keys_same _ _ Es Hk)].
  assert (I : ids db2 = ids db) by congruence. rewrite <- I. apply IH in E; [exact E | exact (keys_same _ _ I Hk)].
Qed.

Lemma MatchPair_ids db major minor pass next t n db' : current db major -> current db minor ->
  MatchPair fails db major minor pass next t = Ret (n, db') -> ids db' = ids db.
Proof.
  intros Hm Hn E. unfold MatchPair in E. cbv zeta in E. returned E. returned E. returned E.
  set (p := if ComputeMatchHold major minor t =? 0 then (minor{{pending_match_order := next}}, u64 (next + 1)) else (minor, next)) in *.
  assert (Hn' : current db (fst p)) by (refine (current_eq db minor _ _ Hn); unfold p; by destruct (_ =? _)).
  destruct p as [minor' next']. cbn [fst] in Hn'. returned E. returned E. injection E as _ <-.
  apply UpdateMutualMatch_ids in E1; [|exact Hm]. apply UpdateMutualMatch_ids in E2; [congruence | exact (current_same _ _ _ E1 Hn')].
Qed.

Lemma mutual_loop_ids fuel : forall db num pass next t have r n db', keys_ok db ->
  mutual_loop fails shutdown fuel db num pass next t have = Ret (r, n, db') -> ids db' = ids db.
Proof.
  induction fuel as [|fuel IH]; intros db num pass next t have r n db' Hk E; cbn [mutual_loop] in E;
    (destruct (shutdown (clock db)); [by injection E as _ _ <-|]); [discriminate|].
  destruct (MatchingSelectMatch fails db num) as [v db1] eqn:Es. destruct v as [[x y]| |]; [|injection E as _ _ <-; exact (join_ids _ _ _ _ Es) | discriminate].
  apply (join_current _ _ _ _ _ _ Hk linear_xreqnum) in Es as (I1 & Cx & Cy). returned E. destruct v as [next' db2]. cbn [fst snd] in E.
  apply MatchPair_ids in E0; [|exact Cx | exact Cy].
  assert (I : ids db2 = ids db) by congruence. rewrite <- I. apply IH in E; [exact E | exact (keys_same _ _ I Hk)].
Qed.

Lemma MatchMiningPair_ids db major minor next t n db' : current db major -> current db minor ->
  MatchMiningPair fails IsWitness db major minor next t = Ret (n, db') -> ids db' = ids db.
Proof.
  intros Hm Hn E. unfold MatchMiningPair in E. returned E. cbv zeta in E. destruct (negb _); [by injection E as _ <-|].
  returned E. destruct v as [[[b major'] minor'] db1].
  apply CheckMatch_ids in E0 as (I1 & I2 & I3); [|exact Hm | exact Hn]. returned E. returned E. returned E. returned E. injection E as _ <-.
  apply UpdateMutualMatch_ids in E0; [|exact (current_same db _ _ I1 (current_eq db major _ I2 Hm))].
  apply UpdateMutualMatch_ids in E1; [congruence|]. assert (I : ids v = ids db) by congruence. exact (current_same db _ _ I (current_eq db minor _ I3 Hn)).
Qed.

Lemma mining_loop_ids fuel : forall db num next t max db', keys_ok db ->
  mining_loop fails shutdown IsWitness fuel db num next t max = Ret db' -> ids db' = ids db.
Proof.
  induction fuel as [|fuel IH]; intros db num next t max db' Hk E; cbn [mining_loop] in E;
    (destruct (_ || _); [by injection E as <-|]); [discriminate|].
  destruct (XreqsSelectXreqnum fails db num CC_TYPE_XCX_MINING_BUY) as [v db1] eqn:Es. pose proof (select_ids _ _ _ _ Es) as I1.
  destruct v as [x| |]; [|injection E as <-; exact I1 | discriminate]. apply (select_current _ _ _ _ _ Hk linear_xreqnum) in Es as [_ Cx].
  assert (Hgo : forall db2 num next, ids db2 = ids db -> mining_loop fails shutdown IsWitness fuel db2 num next t max = Ret db' -> ids db' = ids db).
  { intros db2 num' next' I E2. rewrite <- I. apply IH in E2; [exact E2 | exact (keys_same _ _ I Hk)]. }
  cbv zeta in E. destruct (max <? x_xreqnum x); [injection E as <-; exact I1|]. destruct (_ || _ || _); [exact (Hgo _ _ _ I1 E)|]. returned E.
  assert (Hk1 : keys_ok db1) by exact (keys_same _ _ I1 Hk).
  destruct (XreqsSelectSeqnum fails db1 (linked_seqnum x) false) as [v db2] eqn:El. unfold XreqsSelectSeqnum in El.
  destruct (XreqsSelect fails db1 _) as [w db3] eqn:Er. pose proof (select_ids _ _ _ _ Er) as I2.
  destruct w as [y| |]; [|injection El as <- <-; returned E; destruct v as [rc db4]; cbn [snd] in E | injection El as <- <-; discriminate].
  - apply (select_current _ _ _ _ _ Hk1 linear_fst) in Er as [_ Cy]. destruct (negb _ && _); injection El as <- <-.
    + returned E. destruct v as [rc db4]. cbn [snd] in E. apply update_ids in E0; [|exact (current_same _ _ _ I2 Cx)]. exact (Hgo _ _ _ (eq_trans E0 (eq_trans I2 I1)) E).
    + destruct (linked_ok _ _ _ _); [|exact (Hgo _ _ _ (eq_trans I2 I1) E)]. returned E. destruct v as [next' db4]. cbn [fst snd] in E.
      apply MatchMiningPair_ids in E0; [|exact (current_same _ _ _ I2 Cx) | exact Cy]. exact (Hgo _ _ _ (eq_trans E0 (eq_trans I2 I1)) E).
  - apply update_ids in E0; [|exact (current_same _ _ _ I2 Cx)]. exact (Hgo _ _ _ (eq_trans E0 (eq_trans I2 I1)) E).
Qed.

Lemma up_to_ids max (f : Request -> Request) (t : gmap Z Request) : (forall x, identity (f x) = identity x /\ x_blocktime (f x) = x_blocktime x) ->
  (fun x => (identity x, x_blocktime x)) <$> (up_to max f <$> t) = (fun x => (identity x, x_blocktime x)) <$> t.
Proof.
  intros Hf. apply map_eq. intros k. rewrite !lookup_fmap. destruct (t !! k) as [x|]; [|reflexivity]. cbn. unfold up_to.
  destruct (_ <=? _); [|reflexivity]. destruct (Hf x) as [-> ->]. reflexivity.
Qed.

Lemma MatchingInit_ids db t first last max rc db' : MatchingInit fails db t first last max = (rc, db') -> ids db' = ids db.
Proof.
  unfold MatchingInit. destruct (fails (clock db)); [by intros [= _ <-]|]. cbv zeta.
  set (t1 := up_to max _ <$> rows db). assert (I1 : (fun x => (identity x, x_blocktime x)) <$> t1 = row_ids db) by (apply up_to_ids; by split).
  destruct (fails _); intros [= _ <-]; [exact (ids_with_rows db t1 I1)|].
  refine (ids_with_rows db _ _). rewrite <- I1. apply up_to_ids.
  intros x. unfold init_matching. destruct first, (recalc x); by split.
Qed.

Lemma MatchPass_ids db t max first next count have next' count' db' : keys_ok db ->
  MatchPass fails shutdown IsWitness db t max first next count = Ret (have, next', count', db') -> ids db' = ids db.
Proof.
  intros Hk E. unfold MatchPass in E. cbv zeta in E. destruct (MatchingInit _ _ _ _ _ _) as [rc db1] eqn:Ei. apply MatchingInit_ids in Ei.
  change (ids db1 = ids db) in Ei. destruct (negb _); [discriminate|]. returned E. destruct v as [[b c] db2].
  apply base_loop_ids in E0; [|exact (keys_same _ _ Ei Hk)]. assert (I : ids db2 = ids db) by congruence.
  destruct b; [|by injection E as _ _ _ <-]. returned E. destruct v as [[h n] db3]. injection E as _ _ _ <-.
  apply mutual_loop_ids in E1; [congruence | exact (keys_same _ _ I Hk)].
Qed.

Lemma pass_loop_ids fuel : forall db t max first have next count n db', keys_ok db ->
  pass_loop fails shutdown IsWitness fuel db t max first have next count = Ret (n, db') -> ids db' = ids db.
Proof.
  induction fuel as [|fuel IH]; intros db t max first have next count n db' Hk E; cbn [pass_loop] in E;
    (destruct (_ || _ || _); [by injection E as _ <-|]); [discriminate|].
  returned E. destruct v as [[[h n'] c] db1]. apply MatchPass_ids in E0; [|exact Hk].
  rewrite <- E0. apply IH in E; [exact E | exact (keys_same _ _ E0 Hk)].
Qed.

Lemma MatchReqs_ids db t max db' : keys_ok db -> MatchReqs fails shutdown IsWitness db t max = Ret db' -> ids db' = ids db.
Proof.
  intros Hk E. unfold MatchReqs in E. returned E. destruct v as [next db1]. apply pass_loop_ids in E0; [|exact Hk].
  returned E. apply mining_loop_ids in E1; [|exact (keys_same _ _ E0 Hk)]. injection E as <-. rewrite <- E0, <- E1.
  unfold XreqsClearOldPendingMatches. destruct (fails _); [reflexivity|]. cbn [snd]. apply ids_with_rows. apply map_eq. intros k. unfold row_ids. rewrite !lookup_fmap. destruct (rows v !! k) as [x|]; [|reflexivity]. cbn. by destruct (_ && _).
Qed.
End rounds.

Lemma count_fmap {B} (f : Request -> B) (P : Z * Request -> Prop) (Q : Z * B -> Prop) `{forall row, Decision (P row), forall row, Decision (Q row)} (t : gmap Z Request) :
  (forall k x, P (k, x) <-> Q (k, f x)) -> count P t = count Q (f <$> t).
Proof.
  intros Hpq. induction t as [|k x t Hn IH] using map_ind; [rewrite fmap_empty; reflexivity|].
  rewrite fmap_insert, !count_insert_new, IH; [|by rewrite lookup_fmap, Hn | exact Hn].
  unfold Rows.one. specialize (Hpq k x). repeat destruct (decide _); tauto || lia.
Qed.

Lemma count_ids db (P : Z * Request -> Prop) `{forall row, Decision (P row)} (Q : Z -> Prop) `{forall n, Decision (Q n)} :
  (forall k x, P (k, x) <-> Q (x_xreqnum x)) -> count P (rows db) = count (fun row => Q row.2.1.1.2) (row_ids db).
Proof. intros Hpq. apply count_fmap. intros k x. exact (Hpq k x). Qed.

(** The soundness of a table is a matter of its requests, not of the columns of the engine. *)
Lemma table_ok_same db db' : ids db' = ids db -> table_ok db -> table_ok db'.
Proof.
  intros Hi [T1 T2 T3 T4]. pose proof (ids_rows _ _ Hi) as Hr. unfold ids in Hi. injection Hi as _ Hpen Hper. split.
  - intros k x Hx. assert (E : row_ids db' !! k = Some (identity x, x_blocktime x)) by (unfold row_ids; by rewrite lookup_fmap, Hx).
    rewrite Hr in E. unfold row_ids in E. rewrite lookup_fmap in E. destruct (rows db !! k) as [y|] eqn:Ey; [|discriminate].
    cbn in E. injection E as E1 _ E2 E3 E4 _. destruct (T1 k y Ey) as [R1 R2 R3 R4 R5 R6].
    split; [congruence | exact R2 | rewrite <- E3; exact R3 | rewrite <- E4; exact R4 | rewrite <- E1; exact R5 | unfold x_type in *; rewrite <- E1; exact R6].
  - rewrite Hper, T2, (count_ids db _ (fun n => n <> 0)), (count_ids db' _ (fun n => n <> 0)), Hr by (intros; reflexivity). reflexivity.
  - rewrite Hpen, T3, (count_ids db _ (fun n => n = 0)), (count_ids db' _ (fun n => n = 0)), Hr by (intros; reflexivity). reflexivity.
  - assert (Hs : size (row_ids db') = size (row_ids db)) by (by rewrite Hr). unfold row_ids in Hs. rewrite !map_size_fmap in Hs. by rewrite Hs.
Qed.

(** The table stays sound. *)
Lemma XreqsUpdate_ok fails db x rc db' : table_ok db -> XreqsUpdate fails db x = Ret (rc, db') -> table_ok db'.
Proof.
  intros Hok. unfold XreqsUpdate. destruct (_ && _) eqn:Ef; [|discriminate]. apply andb_prop in Ef as [Ef _]. destruct (fails (clock db)); intros [= _ <-]; [by apply tick_ok|].
  assert (Hnums : x_xreqnum <$> alter (fun old => update_row old x) (x_seqnum x) (rows db) = x_xreqnum <$> rows db).
  { apply map_eq. intros k. rewrite !lookup_fmap. destruct (decide (k = x_seqnum x)) as [->|Hn].
    - rewrite lookup_alter_eq. destruct (rows db !! x_seqnum x); reflexivity.
    - refine (f_equal _ (lookup_alter_ne _ _ _ _ _)). by apply not_eq_sym. }
  destruct Hok as [T1 T2 T3 T4]. set (t := alter _ _ _) in *.
  assert (Hc : forall (P : Z * Request -> Prop) `{forall row, Decision (P row)} (Q : Z -> Prop) `{forall n, Decision (Q n)},
    (forall k y, P (k, y) <-> Q (x_xreqnum y)) -> count P t = count P (rows db)).
  { intros P ? Q ? Hpq. rewrite (count_fmap x_xreqnum P (fun row => Q row.2) t Hpq), (count_fmap x_xreqnum P (fun row => Q row.2) (rows db) Hpq). by rewrite Hnums. }
  split.
  - change (map_Forall request_ok t). intros k y Hy. unfold t in Hy. destruct (decide (k = x_seqnum x)) as [->|Hn].
    + rewrite lookup_alter_eq in Hy. destruct (rows db !! x_seqnum x) as [z|] eqn:Ez; [|discriminate]. injection Hy as <-. destruct (T1 _ z Ez) as [R1 R2 R3 R4 R5 R6].
      split; [reflexivity | exact R2 | exact R3 | unfold fits_128 in Ef; change (0 <= x_open_amount x < 2 ^ 128); lia | exact R5 | exact R6].
    + apply (T1 k). rewrite <- Hy. symmetry. refine (lookup_alter_ne _ _ _ _ _). by apply not_eq_sym.
  - change (xreq_count_persistent db = count persistent_row t). rewrite (Hc persistent_row _ (fun n => n <> 0) _) by (intros; reflexivity). exact T2.
  - change (xreq_count_pending db = count pending_row t). rewrite (Hc pending_row _ (fun n => n = 0) _) by (intros; reflexivity). exact T3.
  - change (Z.of_nat (size t) < 2 ^ 32). rewrite <- (map_size_fmap x_xreqnum t), Hnums, map_size_fmap. exact T4.
Qed.

(** The number of the row that a request in memory has, if there is one, is that of the request. *)
Definition numbered (db : Xdb) (x : Request) : Prop := forall y, rows db !! x_seqnum x = Some y -> x_xreqnum y = x_xreqnum x.

Lemma XreqsDelete_ok fails db x rc db' : table_ok db -> numbered db x -> XreqsDelete fails db x = Ret (rc, db') -> table_ok db'.
Proof.
  intros Hok Hn E. destruct (rows db !! x_seqnum x) as [y|] eqn:Hy.
  - pose proof (ro_key _ _ (table_ok_rows _ _ _ Hok Hy)) as Hk. specialize (Hn y Hy).
    assert (E2 : XreqsDelete fails db y = Ret (rc, db')) by (unfold XreqsDelete in *; rewrite Hk, Hn; exact E).
    rewrite <- Hk in Hy. destruct (XreqsDelete_cases fails db y Hok Hy) as (rc2 & db2 & E3 & Hok2 & _). congruence.
  - unfold XreqsDelete in E. destruct (fails (clock db)); [injection E as _ <-; by apply tick_ok|]. rewrite Hy in E. cbn in E. rewrite delete_id in E by exact Hy.
    injection E as _ <-. apply (table_ok_same db); [reflexivity | exact Hok].
Qed.

Lemma SaveXreq_ok fails db x rc db' : table_ok db -> numbered db x -> SaveXreq fails db x = Ret (rc, db') -> table_ok db'.
Proof. intros Hok Hn. unfold SaveXreq. destruct (_ =? 0); [by apply XreqsDelete_ok | by apply XreqsUpdate_ok]. Qed.

Lemma SaveXreq_others fails db x rc db' k : k <> x_seqnum x -> SaveXreq fails db x = Ret (rc, db') -> rows db' !! k = rows db !! k.
Proof.
  intros Hk. unfold SaveXreq. destruct (_ =? 0).
  - unfold XreqsDelete. destruct (fails (clock db)); [by intros [= _ <-]|]. cbv zeta. intros E.
    assert (Hd : delete (x_seqnum x) (rows db) !! k = rows db !! k) by (apply lookup_delete_ne; congruence).
    destruct (_ && _); [returned E; injection E as _ <-; exact Hd|]. destruct (bool_decide _); [returned E|]; injection E as _ <-; exact Hd.
  - unfold XreqsUpdate. destruct (_ && _); [|discriminate]. destruct (fails (clock db)); [by intros [= _ <-]|]. intros [= _ <-].
    refine (lookup_alter_ne _ _ _ _ _). by apply not_eq_sym.
Qed.

Lemma SaveXreq_numbered fails db x rc db' y : numbered db x -> numbered db y -> SaveXreq fails db x = Ret (rc, db') -> numbered db' y.
Proof.
  intros Hx Hy E z Hz. destruct (decide (x_seqnum y = x_seqnum x)) as [Heq|Hne].
  - rewrite Heq in Hz. unfold SaveXreq in E. unfold numbered in Hy. rewrite Heq in Hy. destruct (x_open_amount x =? 0).
    + unfold XreqsDelete in E. destruct (fails (clock db)); [injection E as _ <-; auto|]. cbv zeta in E.
      assert (Hd : delete (x_seqnum x) (rows db) !! x_seqnum x = Some z -> x_xreqnum z = x_xreqnum y) by (by rewrite lookup_delete_eq).
      apply Hd. rewrite <- Hz. clear Hd Hz. destruct (_ && _); [returned E; by injection E as _ <-|].
      destruct (bool_decide _); [returned E|]; by injection E as _ <-.
    + unfold XreqsUpdate in E. destruct (_ && _); [|discriminate]. destruct (fails (clock db)); [injection E as _ <-; auto|]. injection E as _ <-.
      change (alter (fun old => update_row old x) (x_seqnum x) (rows db) !! x_seqnum x = Some z) in Hz. rewrite lookup_alter_eq in Hz.
      destruct (rows db !! x_seqnum x) as [w|] eqn:Ew; [|discriminate]. injection Hz as <-. exact (Hy w eq_refl).
  - rewrite (SaveXreq_others _ _ _ _ _ _ Hne E) in Hz. exact (Hy z Hz).
Qed.

Lemma current_numbered db x : current db x -> numbered db x.
Proof.
  unfold current, row_ids. rewrite lookup_fmap. intros Hc y Hy. rewrite Hy in Hc. cbn in Hc. injection Hc as _ _ _ H _. exact H.
Qed.

(** ** Matches become permanent *)

Section permanent.
Context {D : Type} `{CommitDb D} `{TxOutputDb D} `{OutputHashes} `{ChainParams} `{AmtFloat}.
Variables fails shutdown : nat -> bool.
Hypothesis prime_large : 2 ^ 253 < field_prime.
Hypothesis min_exp : 0 <= outvalmin.
Hypothesis max_exp : 0 <= outvalmax.

(** What a row of the table holds: what would be paid back for it. *)
Definition holds (db : Xdb) (k : Z) : Z := match rows db !! k with Some x => expire_amount x | None => 0 end.

Lemma SaveXreq_rows db x db' : SaveXreq fails db x = Ret (0, db') ->
  rows db' = if x_open_amount x =? 0 then delete (x_seqnum x) (rows db) else alter (fun old => update_row old x) (x_seqnum x) (rows db).
Proof.
  unfold SaveXreq. destruct (x_open_amount x =? 0).
  - unfold XreqsDelete. destruct (fails (clock db)); [discriminate|]. cbv zeta. destruct (_ && _); [intros E; returned E; by injection E as <-|].
    destruct (bool_decide _); [intros E; returned E|intros E]; by injection E as <-.
  - unfold XreqsUpdate. destruct (_ && _); [|discriminate]. destruct (fails (clock db)); [discriminate|]. by intros [= <-].
Qed.

(** Saving a request changes its own row only; what the row then holds is what the request does. *)
Lemma SaveXreq_holds db x old db' k : rows db !! x_seqnum x = Some old -> x_terms x = x_terms old -> SaveXreq fails db x = Ret (0, db') ->
  holds db' k = if decide (k = x_seqnum x) then (if x_open_amount x =? 0 then 0 else expire_amount x) else holds db k.
Proof.
  intros Hold Ht E. apply SaveXreq_rows in E. unfold holds. rewrite E. destruct (decide (k = x_seqnum x)) as [->|Hn].
  - destruct (x_open_amount x =? 0); [by rewrite lookup_delete_eq|]. rewrite lookup_alter_eq, Hold. cbn.
    unfold expire_amount, IsBuyer, x_type. change (x_terms (update_row old x)) with (x_terms old). rewrite <- Ht. reflexivity.
  - assert (rows db' !! k = rows db !! k) as Hk.
    { rewrite E. destruct (x_open_amount x =? 0); [apply lookup_delete_ne; congruence | refine (lookup_alter_ne _ _ _ _ _); congruence]. }
    rewrite <- E, Hk. reflexivity.
Qed.

Lemma UpdateOpenAmount_value x amount x' : 0 <= amount -> 0 <= x_open_amount x < 2 ^ 128 -> UpdateOpenAmount x amount = Ret x' ->
  amount <= x_open_amount x /\ x_open_amount x' = x_open_amount x - amount /\ x_terms x' = x_terms x /\ x_seqnum x' = x_seqnum x /\ x_xreqnum x' = x_xreqnum x.
Proof.
  intros Ha Ho E. unfold UpdateOpenAmount in E. returned E. apply Z.leb_le in A. cbv zeta in E. returned E. injection E as <-.
  split; [exact A|]. split; [|auto]. change (fsub field_prime (x_open_amount x) amount = x_open_amount x - amount). unfold fsub. apply Z.mod_small. lia.
Qed.

(** What a pledge loses when the amount is divided. *)
Lemma percent_split a b p : 0 <= a -> 0 <= b -> a + b < 2 ^ 128 -> 0 <= p <= 100 ->
  0 <= percent (a + b) p - (percent a p + percent b p) <= 1.
Proof.
  intros Ha Hb Hab Hp. destruct (percent_value prime_large a p ltac:(lia) ltac:(lia)) as [-> _], (percent_value prime_large b p ltac:(lia) ltac:(lia)) as [-> _],
    (percent_value prime_large (a + b) p ltac:(lia) ltac:(lia)) as [-> _]. rewrite Z.mul_add_distr_r.
  pose proof (Z.div_mod (a * p) 100 ltac:(lia)). pose proof (Z.div_mod (b * p) 100 ltac:(lia)). pose proof (Z.div_mod (a * p + b * p) 100 ltac:(lia)).
  pose proof (Z.mod_pos_bound (a * p) 100 ltac:(lia)). pose proof (Z.mod_pos_bound (b * p) 100 ltac:(lia)). pose proof (Z.mod_pos_bound (a * p + b * p) 100 ltac:(lia)). lia.
Qed.

Lemma Xmatchreq_Init_parts x o q : Xmatchreq_Init x o = Ret q -> q_terms q = terms x /\ q_open_amount q = open_amount x /\ q_xreqnum q = xreqnum x.
Proof. unfold Xmatchreq_Init. cbv zeta. intros E. repeat returned E. by injection E as <-. Qed.

Lemma Xmatch_Init_parts t b s m : Xmatch_Init t b s = Ret m ->
  base_amount m = best_amount b /\ q_terms (xbuy m) = terms b /\ q_terms (xsell m) = terms s /\ q_open_amount (xsell m) = open_amount s
  /\ q_xreqnum (xbuy m) = xreqnum b /\ q_xreqnum (xsell m) = xreqnum s /\ m_match_timestamp m = t.
Proof.
  unfold Xmatch_Init. cbv zeta. intros E. returned E. returned E. returned E. repeat returned E. injection E as <-.
  apply Xmatchreq_Init_parts in E0 as (B1 & B2 & B3), E1 as (S1 & S2 & S3).
  destruct (delete_time v <? _), (delete_time v0 <? _); cbn; auto 8.
Qed.

(** What forming a match does to the two requests. *)
Record formed (major minor : Request) (t : Z) (m : Xmatch) (major' minor' : Request) : Prop := {
  fm_sides : IsBuyer major = true /\ IsSeller minor = true;
  fm_amount : base_amount m = pending_match_amount minor /\ 0 < base_amount m;
  fm_major : base_amount m <= x_open_amount major /\ x_open_amount major' = x_open_amount major - base_amount m;
  fm_minor : base_amount m <= x_open_amount minor /\ x_open_amount minor' = x_open_amount minor - base_amount m;
  fm_terms : x_terms major' = x_terms major /\ x_terms minor' = x_terms minor;
  fm_nums : x_seqnum major' = x_seqnum major /\ x_seqnum minor' = x_seqnum minor /\ x_xreqnum major' = x_xreqnum major /\ x_xreqnum minor' = x_xreqnum minor;
  fm_match : q_terms (xbuy m) = x_terms major /\ q_terms (xsell m) = x_terms minor /\ q_open_amount (xsell m) = x_open_amount minor';
  fm_named : q_xreqnum (xbuy m) = x_xreqnum major /\ q_xreqnum (xsell m) = x_xreqnum minor;
  fm_time : m_match_timestamp m = t
}.

Lemma FormMatch_formed major minor t m major' minor' : 0 <= pending_match_amount minor ->
  0 <= x_open_amount major < 2 ^ 128 -> 0 <= x_open_amount minor < 2 ^ 128 ->
  FormMatch major minor t = Ret (m, major', minor') -> formed major minor t m major' minor'.
Proof.
  intros Hp Hmaj Hmin E. unfold FormMatch in E. cbv zeta in E. do 6 returned E.
  apply UpdateOpenAmount_value in E0 as (U1 & U2 & U3 & U4 & U5); [|exact Hp | exact Hmaj].
  apply UpdateOpenAmount_value in E1 as (V1 & V2 & V3 & V4 & V5); [|exact Hp | exact Hmin].
  returned E. injection E as <- <- <-. apply Xmatch_Init_parts in E0 as (M1 & M2 & M3 & M4 & M5 & M6 & M7).
  change (best_amount _) with (pending_match_amount minor) in M1. apply andb_prop in A2 as [A2 _]. apply negb_true_iff, Z.eqb_neq in A2.
  apply andb_prop in A as [A A']. change (x_open_amount (minor{{pending_match_order := 0}})) with (x_open_amount minor) in V1, V2.
  split; rewrite ?M1.
  - split; assumption.
  - split; [reflexivity | lia].
  - split; [exact U1 | exact U2].
  - split; [exact V1 | exact V2].
  - split; [exact U3 | exact V3].
  - split; [exact U4|]. split; [exact V4|]. split; [exact U5 | exact V5].
  - split; [exact (eq_trans M2 U3)|]. split; [exact (eq_trans M3 V3) | exact M4].
  - split; [exact (eq_trans M5 U5) | exact (eq_trans M6 V5)].
  - exact M7.
Qed.

(** What the seller gets back at once: outputs of what is left of its request, when that
    closes, but for [kept], which no output can hold. *)
Definition paid_now (w : world D) (x : Request) (total : Z) (w' : world D) (outs : list output) (kept : Z) : Prop :=
  total = 0 /\ w' = w /\ outs = [] /\ kept = 0
  \/ outputs_result w (base_asset (x_terms x)) total (destination (x_terms x)) default_domain 0
       (out_min (base_asset (x_terms x)) false) (out_max (base_asset (x_terms x)) false) false false kept w' outs.

(** What is kept is less than the least amount of an output, unless the node shuts down. *)
Lemma paid_now_parts (w : world D) x total w' outs kept : paid_now w x total w' outs kept ->
  value_sum outs + kept = total /\ w_matches w' = w_matches w /\ w_mining w' = w_mining w /\ made w outs w'
  /\ Forall (sent_to (base_asset (x_terms x)) (destination (x_terms x)) default_domain 0) outs
  /\ 0 <= kept /\ (g_shutdown (w_db w') = false -> kept < 10 ^ low_exp (out_min (base_asset (x_terms x)) false)).
Proof.
  intros [(-> & -> & -> & ->)|Hres].
  - split; [reflexivity|]. split; [reflexivity|]. split; [reflexivity|]. split; [constructor|]. split; [constructor|]. split; [lia|]. intros _. apply Z.pow_pos_nonneg; [lia|]. unfold low_exp, out_min. destruct (_ =? 0); lia.
  - destruct (result_frame _ _ _ _ _ _ _ _ _ _ _ _ _ Hres) as [F1 F2]. destruct Hres as [R1 R2 _ R4 (w1 & R5 & ->) _ R7 _].
    split; [exact R1|]. split; [exact F1|]. split; [exact F2|]. split; [exact R5|]. split; [exact R4|]. split; [exact R2|].
    intros Hs. destruct (R7 eq_refl Hs) as [Hk|[? _]]; [exact Hk | discriminate].
Qed.

Lemma CreateTxOutputs_dest w asset total dest domain a b c d e r : CreateTxOutputs w asset total dest domain a b c d e = Ret r -> dest <> 0.
Proof. unfold CreateTxOutputs. intros E ->. discriminate. Qed.

Lemma CloseSell_result w m minor m' minor' w' : 0 <= q_open_amount (xsell m) < 2 ^ 253 -> q_terms (xsell m) = x_terms minor ->
  q_open_amount (xsell m) = x_open_amount minor -> CloseSell w m minor = Ret (false, m', minor', w') ->
  base_amount m' = base_amount m /\ xbuy m' = xbuy m /\ m_xmatchnum m' = m_xmatchnum m /\ x_terms minor' = x_terms minor /\ x_seqnum minor' = x_seqnum minor
  /\ (q_terms (xsell m') = q_terms (xsell m) /\ q_xreqnum (xsell m') = q_xreqnum (xsell m) /\ m_match_timestamp m' = m_match_timestamp m)
  /\ exists total outs kept, paid_now w minor total w' outs kept /\ x_open_amount minor' + total = x_open_amount minor
       /\ (x_open_amount minor' = 0 \/ x_open_amount minor' = x_open_amount minor).
Proof.
  intros Hq Ht Ho E. unfold CloseSell in E. cbv zeta in E. destruct (_ =? _).
  2: { injection E as <- <- <-. repeat (split; [reflexivity|]). split; [repeat split|]. exists 0, [], 0. split; [by left|]. split; [lia | by right]. }
  returned E. destruct v as [[rc rest] w1]. destruct rc; [discriminate|]. returned E. injection E as <- <- <-.
  pose proof (CreateTxOutputs_dest _ _ _ _ _ _ _ _ _ _ _ E0) as Hd.
  destruct (CreateTxOutputs_result prime_large w (base_asset (q_terms (xsell m))) (q_open_amount (xsell m)) (destination (q_terms (xsell m))) default_domain true true 0 false false
    min_exp max_exp Hq Hd) as (rc & rest' & w2 & outs & E1 & Hres). rewrite E0 in E1. injection E1 as <- <- <-.
  repeat (split; [reflexivity|]). split; [repeat split|]. exists (q_open_amount (xsell m)), outs, rest.
  split; [right; rewrite <- Ht; exact Hres|].
  split; [change (0 + q_open_amount (xsell m) = x_open_amount minor); lia | by left].
Qed.

Lemma SetMiningAmount_match g m g' m' : SetMiningAmount g m = Ret (g', m') -> base_amount m' = base_amount m /\ xbuy m' = xbuy m /\ m_xmatchnum m' = m_xmatchnum m /\ xsell m' = xsell m /\ m_match_timestamp m' = m_match_timestamp m.
Proof.
  unfold SetMiningAmount. destruct (_ =? 0); [by intros [= _ <-]|]. destruct (negb _); [by intros [= _ <-]|]. intros E. returned E. returned E. returned E.
  destruct (fst v); [by injection E as _ <-|]. cbv zeta in E. returned E. destruct (snd v0) as [[base r]|]; [|by injection E as _ <-].
  returned E. returned E. returned E. returned E. by injection E as _ <-.
Qed.

(** What a match that became permanent at the time [t] did: [m] is in the tables of matches with the two
    requests, [outs] were paid to the seller, [kept] no output could hold, and rounding took
    [lost] from the pledge. *)
Record made_permanent (t : Z) (n n' : node D) (major minor : Request) (m : Xmatch) (outs : list output) (kept lost : Z) : Prop := {
  mp_inserted : exists fault, XmatchInsert field_prime (w_matches (n_world n)) fault m = Ret (0, w_matches (n_world n'));
  mp_sides : q_terms (xbuy m) = x_terms major /\ q_xreqnum (xbuy m) = x_xreqnum major /\ q_terms (xsell m) = x_terms minor /\ q_xreqnum (xsell m) = x_xreqnum minor;
  mp_number : m_xmatchnum m = next_xmatchnum n /\ next_xmatchnum n' = u64 (next_xmatchnum n + 1);
  mp_time : m_match_timestamp m = t;
  mp_amount : base_amount m = pending_match_amount minor /\ 0 < base_amount m;
  mp_balance : holds (n_xdb n) (x_seqnum major) + holds (n_xdb n) (x_seqnum minor)
    = locked m + value_sum outs + holds (n_xdb n') (x_seqnum major) + holds (n_xdb n') (x_seqnum minor) + kept + lost;
  mp_paid : Forall (sent_to (base_asset (x_terms minor)) (destination (x_terms minor)) default_domain 0) outs
    /\ exists w, made (n_world n) outs w /\ w_db (n_world n') = w_db w /\ w_commitments (n_world n') = w_commitments w;
  mp_kept : 0 <= kept /\ (g_shutdown (w_db (n_world n')) = false -> kept < 10 ^ low_exp (out_min (base_asset (x_terms minor)) false));
  mp_lost : 0 <= lost <= 1;
  mp_others : forall k, k <> x_seqnum major -> k <> x_seqnum minor -> rows (n_xdb n') !! k = rows (n_xdb n) !! k
}.

Lemma seller_not_buyer x : IsSeller x = true -> x_type x <> CC_TYPE_XCX_MINING_TRADE -> IsBuyer x = false.
Proof.
  unfold IsSeller, IsBuyer, TypeIsSeller, TypeIsBuyer. intros Hs Ht. apply not_true_iff_false. intros Hb. revert Hs Hb.
  unfold CC_TYPE_XCX_NAKED_BUY, CC_TYPE_XCX_NAKED_SELL, CC_TYPE_XCX_SIMPLE_BUY, CC_TYPE_XCX_SIMPLE_SELL, CC_TYPE_XCX_MINING_BUY, CC_TYPE_XCX_MINING_SELL,
    CC_TYPE_XCX_REQ_BUY, CC_TYPE_XCX_REQ_SELL, CC_TYPE_XCX_MINING_TRADE in *. lia.
Qed.

(** Saving the two requests of a match, one after the other. *)
Lemma save_both db major minor major' minor' db1 db2 :
  rows db !! x_seqnum major = Some major -> rows db !! x_seqnum minor = Some minor -> x_seqnum major <> x_seqnum minor ->
  x_terms major' = x_terms major -> x_seqnum major' = x_seqnum major -> x_terms minor' = x_terms minor -> x_seqnum minor' = x_seqnum minor ->
  SaveXreq fails db major' = Ret (0, db1) -> SaveXreq fails db1 minor' = Ret (0, db2) ->
  holds db2 (x_seqnum major) = (if x_open_amount major' =? 0 then 0 else expire_amount major')
  /\ holds db2 (x_seqnum minor) = (if x_open_amount minor' =? 0 then 0 else expire_amount minor')
  /\ forall k, k <> x_seqnum major -> k <> x_seqnum minor -> rows db2 !! k = rows db !! k.
Proof.
  intros Hmaj Hmin Hne T1 S1 T2 S2 E1 E2. rewrite <- S1 in Hmaj.
  assert (Hmin1 : rows db1 !! x_seqnum minor' = Some minor).
  { rewrite (SaveXreq_rows _ _ _ E1), S2, S1. destruct (x_open_amount major' =? 0); [rewrite lookup_delete_ne by congruence; exact Hmin|].
    refine (eq_trans (lookup_alter_ne _ _ _ _ _) Hmin). congruence. }
  assert (K1 : forall k, holds db1 k = if decide (k = x_seqnum major') then (if x_open_amount major' =? 0 then 0 else expire_amount major') else holds db k)
    by (intros k; exact (SaveXreq_holds db major' major db1 k Hmaj T1 E1)).
  assert (K2 : forall k, holds db2 k = if decide (k = x_seqnum minor') then (if x_open_amount minor' =? 0 then 0 else expire_amount minor') else holds db1 k)
    by (intros k; exact (SaveXreq_holds db1 minor' minor db2 k Hmin1 T2 E2)).
  split; [|split].
  - rewrite K2, decide_False by congruence. rewrite K1. by rewrite decide_True.
  - rewrite K2. by rewrite decide_True.
  - intros k Hk1 Hk2. rewrite <- S1 in Hk1. rewrite <- S2 in Hk2. rewrite (SaveXreq_others fails _ _ _ _ k Hk2 E2). exact (SaveXreq_others fails _ _ _ _ k Hk1 E1).
Qed.

Lemma expire_amount_zero (x : Request) : x_open_amount x = 0 -> expire_amount x = 0.
Proof. intros Hz. unfold expire_amount, percent, fmul. rewrite Hz. destruct (IsBuyer x); reflexivity. Qed.

Lemma expire_or_zero (x : Request) : (if x_open_amount x =? 0 then 0 else expire_amount x) = expire_amount x.
Proof. destruct (Z.eqb_spec (x_open_amount x) 0) as [Hz|]; [by rewrite expire_amount_zero | reflexivity]. Qed.

Lemma expire_amount_terms (x y : Request) : x_terms y = x_terms x ->
  expire_amount y = if IsBuyer x then percent (x_open_amount y) (pledge (x_terms x)) else x_open_amount y.
Proof. intros Ht. unfold expire_amount, IsBuyer, x_type. by rewrite Ht. Qed.

(** The amount of a match is asserted to be in range when it is inserted. *)
Lemma FormMatch_amount major minor t m major' minor' : FormMatch major minor t = Ret (m, major', minor') -> base_amount m = pending_match_amount minor.
Proof.
  intros E. unfold FormMatch in E. cbv zeta in E. do 6 returned E. returned E. injection E as <- _ _. by apply Xmatch_Init_parts in E2 as [-> _].
Qed.

Lemma CloseSell_amount (w : world D) m minor rc m' minor' w' : CloseSell w m minor = Ret (rc, m', minor', w') -> base_amount m' = base_amount m.
Proof.
  unfold CloseSell. cbv zeta. intros E. destruct (_ =? _); [|by injection E as _ <- _ _]. returned E. destruct v as [[b r] w1].
  destruct b; [by injection E as _ <- _ _|]. returned E. by injection E as _ <- _ _.
Qed.

Lemma MakeMatch_amount (n : node D) fault t major minor n' : MakeMatch fails n fault t major minor = Ret (0, n') -> 0 <= pending_match_amount minor.
Proof.
  intros E. unfold MakeMatch in E. returned E. destruct v as [[m0 major'] minor']. apply FormMatch_amount in E0 as <-. cbv zeta in E. returned E.
  destruct v as [[[rc m1] minor2] w]. apply CloseSell_amount in E0. destruct rc; [discriminate|]. returned E. destruct v as [g m2].
  apply SetMiningAmount_match in E1 as (G1 & _). cbn [fst snd] in E. returned E. unfold XmatchInsert in E1.
  destruct (Z.leb_spec 0 (base_amount m2)) as [Hp|]; [|discriminate]. change (base_amount (with_xmatchnum m0 (next_xmatchnum n))) with (base_amount m0) in E0. lia.
Qed.

(** What [MakeMatch] does without an error. *)
Lemma MakeMatch_permanent (n : node D) fault t major minor n' : table_ok (n_xdb n) ->
  rows (n_xdb n) !! x_seqnum major = Some major -> rows (n_xdb n) !! x_seqnum minor = Some minor -> x_type minor <> CC_TYPE_XCX_MINING_TRADE ->
  MakeMatch fails n fault t major minor = Ret (0, n') -> exists m outs kept lost, made_permanent t n n' major minor m outs kept lost.
Proof.
  intros Hok Hmaj Hmin Htrade E. pose proof (MakeMatch_amount _ _ _ _ _ _ E) as Hp. pose proof (table_ok_rows _ _ _ Hok Hmaj) as Rmaj. pose proof (table_ok_rows _ _ _ Hok Hmin) as Rmin.
  unfold MakeMatch in E. returned E. destruct v as [[m0 major'] minor'].
  destruct (FormMatch_formed _ _ _ _ _ _ Hp (ro_open _ _ Rmaj) (ro_open _ _ Rmin) E0) as [[Fb Fs] [Fa Fa'] [Fm Fm'] [Fn Fn'] [Ft Ft'] (Fq & Fq' & _ & _) (Fx & Fx' & Fo) [Fk Fk'] Fd].
  cbv zeta in E. returned E. destruct v as [[[rc m1] minor2] w]. destruct rc; [discriminate|]. cbn [fst snd] in E.
  change (n_world (n{{next_xmatchnum := u64 (next_xmatchnum n + 1)}})) with (n_world n) in E1.
  pose proof (ro_open _ _ Rmin) as Ho.
  destruct (CloseSell_result (n_world n) (with_xmatchnum m0 (next_xmatchnum n)) minor' m1 minor2 w) as (C1 & C2 & C5 & C3 & C4 & C6 & total & outs & kept & Hpaid & Hsum & Hopen);
    [change (0 <= q_open_amount (xsell m0) < 2 ^ 253); lia | exact (eq_trans Fx' (eq_sym Ft')) | exact Fo | exact E1|].
  assert (Hpaid' : paid_now (n_world n) minor total w outs kept) by (unfold paid_now in *; rewrite Ft' in Hpaid; exact Hpaid).
  destruct (paid_now_parts _ _ _ _ _ _ Hpaid') as (P1 & P2 & P3 & P4 & P5 & P6 & P7).
  returned E. destruct v as [g m2]. cbn [fst snd] in E. apply SetMiningAmount_match in E2 as (G1 & G2 & G3 & G4 & G5).
  returned E. destruct v as [rc db1]. cbn [fst snd] in E. destruct (Z.eqb_spec rc 0) as [->|]; [|by injection E].
  cbn [negb] in E. returned E. destruct v as [rc xdb1]. cbn [fst snd] in E. destruct (Z.eqb_spec rc 0) as [->|]; [|by injection E].
  cbn [negb] in E. returned E. destruct v as [rc xdb2]. cbn [fst snd] in E. injection E as -> <-.
  assert (Hsb : IsBuyer minor = false) by exact (seller_not_buyer _ Fs Htrade).
  assert (Hne : x_seqnum major <> x_seqnum minor) by (intros Heq; rewrite Heq, Hmin in Hmaj; injection Hmaj as ->; congruence).
  assert (Hmt : x_terms minor2 = x_terms minor) by exact (eq_trans C3 Ft').
  assert (Hms : x_seqnum minor2 = x_seqnum minor) by exact (eq_trans C4 Fq').
  destruct (save_both (n_xdb n) major minor major' minor2 xdb1 xdb2 Hmaj Hmin Hne Ft Fq Hmt Hms E3 E4) as (B1 & B2 & B3).
  rewrite !expire_or_zero in B1, B2. rewrite (expire_amount_terms major major' Ft), Fb in B1. rewrite (expire_amount_terms minor minor2 Hmt), Hsb in B2.
  pose proof (ro_open _ _ Rmaj) as Hom.
  pose proof (percent_split (base_amount m0) (x_open_amount major') (pledge (x_terms major)) ltac:(lia) ltac:(lia) ltac:(lia) (ro_pledge _ _ Rmaj)) as Hlost.
  replace (base_amount m0 + x_open_amount major') with (x_open_amount major) in Hlost by lia.
  assert (Hba : base_amount m2 = base_amount m0) by exact (eq_trans G1 C1). assert (Hxb : xbuy m2 = xbuy m0) by exact (eq_trans G2 C2).
  exists m2, outs, kept, (percent (x_open_amount major) (pledge (x_terms major)) - (percent (base_amount m0) (pledge (x_terms major)) + percent (x_open_amount major') (pledge (x_terms major)))).
  split.
  - exists fault. rewrite <- P2. exact E2.
  - rewrite Hxb, G4. destruct C6 as (C6 & C7 & _). rewrite C6, C7. split; [exact Fx|]. split; [exact Fk|]. split; [exact Fx' | exact Fk'].
  - split; [rewrite G3, C5; reflexivity | reflexivity].
  - exact (eq_trans G5 (eq_trans (proj2 (proj2 C6)) Fd)).
  - rewrite Hba. split; [exact Fa | exact Fa'].
  - change (n_xdb (with_xdb _ xdb2)) with xdb2. rewrite B1, B2. unfold locked. rewrite Hba, Hxb, Fx.
    unfold holds. rewrite Hmaj, Hmin, (expire_amount_terms major major eq_refl), (expire_amount_terms minor minor eq_refl), Fb, Hsb. lia.
  - split; [exact P5|]. exists w. split; [exact P4 | split; reflexivity].
  - split; [exact P6 | exact P7].
  - exact Hlost.
  - exact B3.
Qed.

(** C3. A match that becomes permanent takes nothing and makes nothing: what the two requests
    held is what the match locks, what the outputs hold that pay the seller back at once, and
    what the two hold afterwards, but for at most one unit that the rounding of the
    pledge loses and for what no output can hold, less than the least amount of an output
    unless the node shuts down meanwhile.  The match has the next number and is in the
    tables with the two requests and the time of the block; the row of every other request
    stays as it is. *)
Theorem MakeMatch_conserves (n : node D) fault t major minor n' : table_ok (n_xdb n) ->
  rows (n_xdb n) !! x_seqnum major = Some major -> rows (n_xdb n) !! x_seqnum minor = Some minor -> x_type minor <> CC_TYPE_XCX_MINING_TRADE ->
  MakeMatch fails n fault t major minor = Ret (0, n') -> exists m outs kept lost, made_permanent t n n' major minor m outs kept lost.
Proof. apply MakeMatch_permanent. Qed.

(** *** The loop *)

Lemma FormMatch_numbers major minor t m major' minor' : FormMatch major minor t = Ret (m, major', minor') ->
  x_seqnum major' = x_seqnum major /\ x_xreqnum major' = x_xreqnum major /\ x_seqnum minor' = x_seqnum minor /\ x_xreqnum minor' = x_xreqnum minor.
Proof.
  intros E. unfold FormMatch in E. cbv zeta in E. do 6 returned E. returned E. injection E as <- <- <-.
  unfold UpdateOpenAmount in E0, E1. returned E0. returned E1. cbv zeta in E0, E1. returned E0. returned E1. injection E0 as <-. injection E1 as <-. auto.
Qed.

Lemma CloseSell_numbers w m minor rc m' minor' w' : CloseSell w m minor = Ret (rc, m', minor', w') -> x_seqnum minor' = x_seqnum minor /\ x_xreqnum minor' = x_xreqnum minor.
Proof.
  unfold CloseSell. cbv zeta. intros E. destruct (_ =? _); [|injection E as _ _ <- _; auto]. returned E. destruct v as [[b r] w1].
  destruct b; [injection E as _ _ <- _; auto|]. returned E. injection E as _ _ <- _. auto.
Qed.

Lemma MakeMatch_ok (n : node D) fault t major minor rc n' : table_ok (n_xdb n) -> current (n_xdb n) major -> current (n_xdb n) minor ->
  MakeMatch fails n fault t major minor = Ret (rc, n') -> table_ok (n_xdb n').
Proof.
  intros Hok Hmaj%current_numbered Hmin%current_numbered E. unfold MakeMatch in E. returned E. destruct v as [[m0 major'] minor'].
  apply FormMatch_numbers in E0 as (F1 & F2 & F3 & F4). cbv zeta in E. returned E. destruct v as [[[b m1] minor2] w].
  apply CloseSell_numbers in E0 as [C1 C2]. destruct b; [injection E as _ <-; exact Hok|].
  returned E. returned E. destruct v0 as [rc1 db1]. cbn [fst snd] in E. destruct (negb _); [injection E as _ <-; exact Hok|].
  returned E. destruct v0 as [rc2 xdb1]. cbn [fst snd] in E.
  assert (Nmaj : numbered (n_xdb n) major') by (unfold numbered in *; rewrite F1, F2; exact Hmaj).
  assert (Nmin : numbered (n_xdb n) minor2) by (unfold numbered in *; rewrite C1, C2, F3, F4; exact Hmin).
  pose proof (SaveXreq_ok _ _ _ _ _ Hok Nmaj E2) as Hok1. destruct (negb _); [injection E as _ <-; exact Hok1|].
  returned E. destruct v0 as [rc3 xdb2]. injection E as _ <-.
  exact (SaveXreq_ok _ _ _ _ _ Hok1 (SaveXreq_numbered _ _ _ _ _ _ Nmaj Nmin E2) E3).
Qed.

Lemma persist_loop_ok faults t fuel : forall (n : node D) rc n', table_ok (n_xdb n) -> persist_loop fails shutdown fuel n faults t = Ret (rc, n') -> table_ok (n_xdb n').
Proof.
  induction fuel as [|fuel IH]; intros n rc n' Hok E; cbn [persist_loop] in E; (destruct (shutdown _); [by injection E as _ <-|]); [discriminate|].
  destruct (MatchingSelectNextPendingMatch fails (n_xdb n)) as [v db] eqn:Es. pose proof (join_ids _ _ _ _ _ Es) as Hi.
  destruct v as [[minor major]| |]; [|injection E as _ <-; exact (table_ok_same _ _ Hi Hok)|injection E as _ <-; exact (table_ok_same _ _ Hi Hok)].
  apply (join_current fails _ _ _ _ _ _ (table_keys _ Hok) linear_pending) in Es as (_ & Cmin & Cmaj). returned E. destruct v as [rc1 n1]. cbn [fst snd] in E.
  apply MakeMatch_ok in E0; [|exact (table_ok_same _ _ Hi Hok) | exact Cmaj | exact Cmin].
  destruct (rc1 =? 0); [exact (IH _ _ _ E0 E) | injection E as _ <-; exact E0].
Qed.
(** A table without a trade: one is listed as its two requests. *)
Definition no_trades (db : Xdb) : Prop := forall k x, rows db !! k = Some x -> x_type x <> CC_TYPE_XCX_MINING_TRADE.

(** Pending matches become permanent at the time [t], [ms] one after the other: each time that
    of the request with the least order, until none is pending. *)
Inductive persisted (t : Z) : node D -> list Xmatch -> node D -> Prop :=
| persisted_none n n' : rows (n_xdb n') = rows (n_xdb n) -> n_world n' = n_world n -> next_xmatchnum n' = next_xmatchnum n ->
    (forall k x, rows (n_xdb n) !! k = Some x -> is_pending (rows (n_xdb n)) x = false) -> persisted t n [] n'
| persisted_one n major minor m outs kept lost n1 ms n2 :
    rows (n_xdb n) !! x_seqnum minor = Some minor -> is_pending (rows (n_xdb n)) minor = true ->
    rows (n_xdb n) !! x_seqnum major = Some major -> x_seqnum major = x_best_other_seqnum minor ->
    (forall k x, rows (n_xdb n) !! k = Some x -> is_pending (rows (n_xdb n)) x = true -> pending_match_order minor <= pending_match_order x) ->
    made_permanent t n n1 major minor m outs kept lost -> persisted t n1 ms n2 -> persisted t n (m :: ms) n2.

Lemma persisted_end t n ms n' : persisted t n ms n' -> forall k x, rows (n_xdb n') !! k = Some x -> is_pending (rows (n_xdb n')) x = false.
Proof. induction 1 as [n n' Hr _ _ Hp|]; [|assumption]. intros k x. rewrite Hr. apply Hp. Qed.

Lemma next_pending_cases db v db' : table_ok db -> MatchingSelectNextPendingMatch fails db = (v, db') -> db' = tick db /\
  match v with
  | Found (minor, major) => rows db !! x_seqnum minor = Some minor /\ is_pending (rows db) minor = true
      /\ rows db !! x_seqnum major = Some major /\ x_seqnum major = x_best_other_seqnum minor
      /\ forall k x, rows db !! k = Some x -> is_pending (rows db) x = true -> pending_match_order minor <= pending_match_order x
  | NotFound => forall k x, rows db !! k = Some x -> is_pending (rows db) x = false
  | Failed => True
  end.
Proof.
  intros Hok. unfold MatchingSelectNextPendingMatch, select_join. intros [= <- <-]. split; [reflexivity|]. destruct (fails (clock db)); [exact I|].
  destruct (select_by _ _ _) as [|[n x] rest] eqn:Es.
  - intros k x Hx. pose proof (select_rows_nil _ _ _ Es k x Hx) as Hn. by apply not_true_iff_false.
  - destruct (select_by_first _ _ _ _ _ _ linear_pending Es) as (Hx & Hp & Hfirst). pose proof (table_keys _ Hok _ _ Hx) as Hk.
    destruct (rows db !! x_best_other_seqnum x) as [y|] eqn:Ey; [|unfold is_pending in Hp; rewrite Ey in Hp; apply andb_prop in Hp as [_ Hp]; by apply bool_decide_eq_true in Hp as [? ?]].
    pose proof (table_keys _ Hok _ _ Ey) as Hky. destruct (_ || _); [exact I|]. rewrite Hk, Hky. split_and!; [exact Hx | exact Hp | exact Ey | reflexivity|].
    intros k z Hz Hpz. specialize (Hfirst k z Hz Hpz). unfold le_by, pending_compare, and_then in Hfirst. cbn in Hfirst.
    destruct (Z.compare_spec (pending_match_order x) (pending_match_order z)); lia || congruence.
Qed.

Lemma SaveXreq_terms db x rc db' : SaveXreq fails db x = Ret (rc, db') -> forall k y, rows db' !! k = Some y -> exists z, rows db !! k = Some z /\ x_terms y = x_terms z.
Proof.
  intros E k y Hy. destruct (decide (k = x_seqnum x)) as [->|Hk]; [|rewrite (SaveXreq_others _ _ _ _ _ _ Hk E) in Hy; by exists y].
  unfold SaveXreq in E. destruct (x_open_amount x =? 0).
  - unfold XreqsDelete in E. destruct (fails (clock db)); [injection E as _ <-; by exists y|]. cbv zeta in E. exfalso.
    assert (Hd : delete (x_seqnum x) (rows db) !! x_seqnum x = None) by apply lookup_delete_eq.
    assert (Hr : rows db' = delete (x_seqnum x) (rows db)) by (destruct (_ && _); [returned E; by injection E as _ <-|]; destruct (bool_decide _); [returned E|]; by injection E as _ <-).
    congruence.
  - unfold XreqsUpdate in E. destruct (_ && _); [|discriminate]. destruct (fails (clock db)); injection E as _ <-; [by exists y|].
    change (alter (fun old => update_row old x) (x_seqnum x) (rows db) !! x_seqnum x = Some y) in Hy. rewrite lookup_alter_eq in Hy.
    destruct (rows db !! x_seqnum x) as [z|]; [|discriminate]. injection Hy as <-. by exists z.
Qed.

Lemma MakeMatch_no_trades (n : node D) fault t major minor n' : no_trades (n_xdb n) -> MakeMatch fails n fault t major minor = Ret (0, n') -> no_trades (n_xdb n').
Proof.
  intros Hn E k y Hy. unfold MakeMatch in E. returned E. destruct v as [[m0 major'] minor']. cbv zeta in E. returned E. destruct v as [[[[] m1] minor2] w]; [discriminate|].
  returned E. returned E. destruct v0 as [rc1 db1]. cbn [fst snd] in E. destruct (negb _) eqn:Ez; [injection E as Hz; rewrite Hz in Ez; discriminate|].
  returned E. destruct v0 as [rc2 xdb1]. cbn [fst snd] in E. clear Ez. destruct (negb _) eqn:Ez; [injection E as Hz; rewrite Hz in Ez; discriminate|].
  returned E. destruct v0 as [rc3 xdb2]. injection E as _ <-. destruct (SaveXreq_terms _ _ _ _ E5 k y Hy) as (z & Hz & T1). destruct (SaveXreq_terms _ _ _ _ E4 k z Hz) as (u & Hu & T2).
  unfold x_type. rewrite T1, T2. exact (Hn k u Hu).
Qed.

Lemma persist_loop_persisted faults t fuel : (forall k, shutdown k = false) -> forall (n : node D) n', table_ok (n_xdb n) -> no_trades (n_xdb n) ->
  persist_loop fails shutdown fuel n faults t = Ret (0, n') -> exists ms, persisted t n ms n'.
Proof.
  intros Hs. induction fuel as [|fuel IH]; intros n n' Hok Hnt E; cbn [persist_loop] in E; rewrite Hs in E; [discriminate|].
  destruct (MatchingSelectNextPendingMatch fails (n_xdb n)) as [v db] eqn:Es. destruct (next_pending_cases _ _ _ Hok Es) as [-> Hv].
  destruct v as [[minor major]| |]; [|injection E as <-; exists []; by apply persisted_none | discriminate].
  destruct Hv as (V1 & V2 & V3 & V4 & V5). returned E. destruct v as [rc1 n1]. cbn [fst snd] in E. destruct (Z.eqb_spec rc1 0) as [->|]; [|congruence].
  pose proof (tick_ok _ Hok : table_ok (n_xdb (with_xdb n (tick (n_xdb n))))) as Hok1.
  destruct (MakeMatch_permanent _ _ _ _ _ _ Hok1 V3 V1 (Hnt _ _ V1) E0) as (m & outs & kept & lost & [P1 P2 P3 P4 P5 P6 P7 P8 P9 P10]).
  destruct (IH n1 n') as [ms Hms]; [|exact (MakeMatch_no_trades (with_xdb n (tick (n_xdb n))) _ _ _ _ _ Hnt E0) | exact E|].
  - exact (MakeMatch_ok (with_xdb n (tick (n_xdb n))) _ _ _ _ _ _ Hok1 (current_row _ _ _ (table_keys _ Hok1) V3) (current_row _ _ _ (table_keys _ Hok1) V1) E0).
  - exists (m :: ms). refine (persisted_one t n major minor m outs kept lost n1 ms n' V1 V2 V3 V4 V5 _ Hms). split; assumption.
Qed.

End permanent.

(** ** Soundness can be checked *)

#[export] Instance request_ok_dec k x : Decision (request_ok k x).
Proof.
  destruct (decide (x_seqnum x = k /\ 0 < k /\ 0 <= x_xreqnum x < 2 ^ 64 - 1 /\ 0 <= x_open_amount x < 2 ^ 128 /\ 0 <= pledge (x_terms x) <= 100
    /\ (TypeHasBareMsg (x_type x) = false -> destination (x_terms x) <> 0))) as [Hd|Hd].
  - left. destruct Hd as (H1 & H2 & H3 & H4 & H5 & H6). by split.
  - right. intros [H1 H2 H3 H4 H5 H6]. by apply Hd.
Defined.

#[export] Instance table_ok_dec db : Decision (table_ok db).
Proof.
  destruct (decide (map_Forall request_ok (rows db) /\ xreq_count_persistent db = count persistent_row (rows db)
    /\ xreq_count_pending db = count pending_row (rows db) /\ Z.of_nat (size (rows db)) < 2 ^ 32)) as [Hd|Hd].
  - left. destruct Hd as (H1 & H2 & H3 & H4). by split.
  - right. intros [H1 H2 H3 H4]. by apply Hd.
Defined.

(** ** Witnesses *)

#[local] Existing Instance amounts27.

(** The buyer and the seller of Matching.v, listed and matched at the time 2000. *)
Definition demo_listed : outcome Xdb :=
  let! db := list_request empty_xdb (x_terms demo_buy) [1] 1 1000 in list_request db (x_terms demo_sell) [2] 2 1000.
Definition demo_matched : outcome Xdb := let! db := demo_listed in MatchReqs works works false db 2000 2.

Definition demo_pending : option (node demo_outputs * Request * Request) :=
  match demo_matched with
  | Ret db =>
      match MatchingSelectNextPendingMatch works db with
      | (Found (minor, major), db) => Some (mkNode demo_world db 9 9, major, minor)
      | _ => None
      end
  | _ => None
  end.
Definition demo_made : option (Z * node demo_outputs) :=
  match demo_pending with
  | Some (n, major, minor) => match MakeMatch works n works 2000 major minor with Ret r => Some r | _ => None end
  | None => None
  end.

(** The seller gets rid of its 2, and the buyer of 3 has 1 left. *)
Lemma MakeMatch_conserves_witness : exists n major minor n' m outs kept lost, demo_pending = Some (n, major, minor)
  /\ MakeMatch works n works 2000 major minor = Ret (0, n') /\ made_permanent 2000 n n' major minor m outs kept lost
  /\ holds (n_xdb n) 101 = 15 * 10 ^ 26 /\ holds (n_xdb n') 101 = 5 * 10 ^ 26 /\ holds (n_xdb n') 102 = 0.
Proof.
  assert (E : exists n major minor n', demo_pending = Some (n, major, minor) /\ MakeMatch works n works 2000 major minor = Ret (0, n')
    /\ table_ok (n_xdb n) /\ rows (n_xdb n) !! x_seqnum major = Some major /\ rows (n_xdb n) !! x_seqnum minor = Some minor
    /\ x_type minor <> CC_TYPE_XCX_MINING_TRADE
    /\ holds (n_xdb n) 101 = 15 * 10 ^ 26 /\ holds (n_xdb n') 101 = 5 * 10 ^ 26 /\ holds (n_xdb n') 102 = 0).
  { eexists _, _, _, _. split; [vm_compute; reflexivity|]. split; [vm_compute; reflexivity|]. split; [apply (bool_decide_unpack _); vm_compute; exact I|].
    split; [reflexivity|]. split; [reflexivity|]. split; [discriminate|]. split; [vm_compute; reflexivity|]. split; vm_compute; reflexivity. }
  destruct E as (n & major & minor & n' & E1 & E2 & Hok & Hmaj & Hmin & Ht & Hrest).
  destruct (MakeMatch_conserves works demo_prime ltac:(discriminate) ltac:(discriminate) n works 2000 major minor n' Hok Hmaj Hmin Ht E2) as (m & outs & kept & lost & Hm).
  exists n, major, minor, n', m, outs, kept, lost. split; [exact E1|]. split; [exact E2|]. split; [exact Hm | exact Hrest].
Defined.
