(* ===== verification/RoundEnd.v ===== *)
(** * Rounds of the engine end (src/source/ccnode/src/process-xreq.cpp)

    The loops of Matching.v have fuel; here it is shown to be enough.  Every loop moves a cursor
    over the rows in the order of an index, which a round does not change (Rounds.v), and the
    passes are grown by the pairs that they look at. *)
From stdpp Require Import gmap.
From coqutil Require Import Datatypes.RecordSetters.
Import DoubleBraceUpdate.
From S2P Require Import Prelude Rows Bigint Block ZkHash Objects Txs UniFloat WireFloat TxAmount Merkle Xmatch XtxWire MatchTables ProcessTx Mining Settle Settlement XreqTable Matching XreqFlow Rounds.

Local Open Scope Z_scope.
Local Open Scope cc_scope.

(** ** Computations that do not run out of fuel *)

Definition ends {A} (m : outcome A) : Prop := m <> Throw FuelOut.

Create HintDb ends discriminated.
#[export] Hint Constants Opaque : ends.

Lemma ends_Ret {A} (a : A) : ends (Ret a).
Proof. discriminate. Qed.

Lemma ends_bind {A B} (m : outcome A) (f : A -> outcome B) : ends m -> (forall a, m = Ret a -> ends (f a)) -> ends (outcome_bind m f).
Proof. intros Hm Hf. destruct m as [a|x]; cbn [outcome_bind]; [by apply Hf | intros [= ->]; by apply Hm]. Qed.

Lemma ends_if {A} (b : bool) (m n : outcome A) : (b = true -> ends m) -> (b = false -> ends n) -> ends (if b then m else n).
Proof. destruct b; auto. Qed.

(** Goes through a computation. *)
Ltac ends_step :=
  lazymatch goal with
  | |- ends (Ret _) => apply ends_Ret
  | |- ends (Throw _) => discriminate
  | |- ends (outcome_bind _ _) => apply ends_bind; [|intros ? ?]
  | |- ends (if _ then _ else _) => apply ends_if; intros ?
  | |- ends (let _ := _ in _) => cbv zeta
  | |- ends (match ?p with _ => _ end) => destruct p
  end.
Ltac ends_auto := repeat (ends_step || solve [eauto 3 with ends]).

(** *** Floating point *)

Lemma ends_Decompose v nbits rounding : nbits = 0 \/ 2 <= nbits -> ends (Decompose v nbits rounding 0).
Proof.
  intros Hb. unfold Decompose. destruct (Z.eqb_spec (d_m v) 0) as [|Hn]; [ends_auto|].
  set (n := if nbits =? 0 then _ else _). assert (Hn2 : 2 <= n) by (unfold n; destruct (Z.eqb_spec nbits 0); [done | lia]).
  cbv zeta. destruct (Z.ltb_spec n 64) as [H64|]; [|done]. set (M := Z.abs (d_m v)). assert (HM : 0 < M) by lia. pose proof (bits_bound M HM) as [Hbb Hb0].
  apply ends_bind; [|intros; apply ends_Ret].
  assert (Hlim : 0 < 2 ^ n <= 2 ^ 63) by (split; [apply pow2_pos; lia | apply Z.pow_le_mono_r; lia]).
  assert (2 ^ n = 2 * 2 ^ (n - 1)) by (rewrite <- Z.pow_succ_r by lia; f_equal; lia).
  pose proof (shift_round_le rounding M (bits M - n + 1) (n - 1) ltac:(replace (n - 1 + (bits M - n + 1)) with (bits M) by lia; lia) ltac:(lia) ltac:(lia)) as H1.
  cbn [decompose_loop]. destruct (_ <? _); [ends_auto|]. rewrite ?Z.mul_0_r, ?Z.add_0_r, !(u64_small (shift_round rounding M (bits M - n + 1))) by (rewrite ?u64_small; lia).
  rewrite (proj2 (Z.ltb_lt _ _)) by lia. ends_auto.
Qed.

Lemma ends_Shift m s rounding : ends (Shift m s rounding).
Proof. unfold Shift. ends_auto. Qed.

Lemma ends_Normalize m x rounding : 0 <= m < 2 ^ 128 -> ends (Normalize m x rounding).
Proof.
  intros Hm. unfold Normalize. apply ends_bind; [|intros; apply ends_bind; [apply ends_Shift | intros; apply ends_Ret]].
  destruct (find_shift_spec 128 m 0) as (s & -> & _); [lia | lia | | by left | apply ends_Ret].
  assert (2 ^ 128 <= 2 ^ (52 + 0 + Z.of_nat 128)) by (apply Z.pow_le_mono_r; lia). lia.
Qed.

Lemma u128_range x : 0 <= u128 x < 2 ^ 128.
Proof. apply (wrap_range 128). lia. Qed.

Lemma abs_i64_range x : 0 <= Z.abs (i64 x) < 2 ^ 128.
Proof. pose proof (sint_range 64 x ltac:(lia)) as H. change (sint 64 x) with (i64 x) in H. lia. Qed.

#[export] Hint Resolve ends_Shift : ends.
#[export] Hint Extern 1 (ends (Decompose _ _ _ _)) => (apply ends_Decompose; lia) : ends.

Lemma ends_Add a b rounding average : ends (Add a b rounding average).
Proof.
  unfold Add. ends_auto. apply ends_Normalize, abs_i64_range.
Qed.

Lemma ends_Multiply a b rounding : ends (Multiply a b rounding).
Proof. unfold Multiply. ends_auto. apply ends_Normalize, u128_range. Qed.

Lemma ends_UniFloat_of v rounding : ends (UniFloat_of v rounding).
Proof. unfold UniFloat_of. ends_auto. Qed.
#[export] Hint Resolve ends_Add ends_Multiply ends_UniFloat_of : ends.

Lemma Decompose_mant v nbits rounding x : Decompose v nbits rounding 0 = Ret x -> 0 <= mant x.
Proof. intros E. apply Decompose_sign in E. lia. Qed.

Lemma ends_Divide a b rounding : ends (Divide a b rounding).
Proof.
  unfold Divide. cbv zeta. apply ends_bind; [solve [eauto with ends]|]. intros v Ev. apply ends_bind; [apply ends_Decompose; lia|]. intros x Ex.
  destruct (Z.eqb_spec (mant x) 0) as [|Hx]; [apply ends_UniFloat_of|]. apply Decompose_mant in Ex. apply ends_bind; [|intros; apply ends_Ret].
  apply ends_Normalize. set (y := if rounding =? 0 then _ else _).
  assert (Hy : 0 <= y < 2 ^ 128) by (unfold y; destruct (rounding =? 0); [|destruct (0 <? rounding)]; apply u128_range).
  split; [apply Z.div_pos; lia | apply Z.div_lt_upper_bound; nia].
Qed.
#[export] Hint Resolve ends_Divide : ends.

Lemma ends_power_loop fuel : forall v fac b, 0 <= b < 2 ^ Z.of_nat fuel -> (0 < fuel)%nat -> ends (power_loop fuel v fac b).
Proof.
  induction fuel as [|f IH]; intros v fac b Hb Hpos; [lia|]. cbn [power_loop]. apply ends_bind; [ends_auto|]. intros w _. cbv zeta.
  rewrite Z.shiftr_div_pow2 by lia. change (2 ^ 1) with 2. destruct (Z.eqb_spec (b / 2) 0) as [|Hne]; [ends_auto|].
  apply ends_bind; [ends_auto|]. intros fac' _. rewrite Nat2Z.inj_succ, Z.pow_succ_r in Hb by lia.
  assert (0 <= b / 2 < 2 ^ Z.of_nat f) by (split; [apply Z.div_pos; lia | apply Z.div_lt_upper_bound; lia]).
  apply IH; [assumption|]. destruct f; [|lia]. change (2 ^ Z.of_nat 0) with 1 in *. lia.
Qed.

Lemma ends_Power a b : b < 2 ^ 32 -> ends (Power a b).
Proof.
  intros Hb. unfold Power. destruct (Z.ltb_spec b 0); [ends_auto|]. destruct (_ =? 0); [ends_auto|].
  apply ends_power_loop; [|lia]. change (Z.of_nat 32) with 32. lia.
Qed.

(** *** Rates *)

Lemma ends_NetRate t base rate rounding : ends (NetRate t base rate rounding).
Proof. unfold NetRate, signed_max. ends_auto. Qed.

Lemma ends_MatchRateRequired t base rounding : ends (MatchRateRequired t base rounding).
Proof. unfold MatchRateRequired, signed_max. ends_auto. Qed.
#[export] Hint Resolve ends_NetRate ends_MatchRateRequired : ends.

Lemma ends_ComputeDiscount x rate hold t : ends (ComputeDiscount x rate hold t).
Proof.
  unfold ComputeDiscount. ends_auto. apply ends_Power. unfold i32.
  match goal with |- sint 32 ?n < _ => pose proof (sint_range 32 n ltac:(lia)) end. lia.
Qed.
#[export] Hint Resolve ends_ComputeDiscount : ends.

(** *** Comparing and matching *)

Lemma ends_asUniFloat `{AmtFloat} asset amount : ends (asUniFloat asset amount).
Proof. unfold asUniFloat. ends_auto. Qed.
#[export] Hint Resolve ends_asUniFloat : ends.

Lemma ends_CheckLE a b : ends (CheckLE a b).
Proof. unfold CheckLE. ends_auto. Qed.
Lemma ends_CheckGE a b : ends (CheckGE a b).
Proof. apply ends_CheckLE. Qed.
Lemma ends_Average a b : ends (Average a b 0).
Proof. apply ends_Add. Qed.
#[export] Hint Resolve ends_CheckLE ends_CheckGE ends_Average : ends.

Lemma ends_update fails db x : ends (XreqsUpdate fails db x).
Proof. unfold XreqsUpdate. ends_auto. Qed.
Lemma ends_checked c r : ends (checked c r).
Proof. unfold checked. ends_auto. Qed.
#[export] Hint Resolve ends_update ends_checked : ends.

Lemma ends_major fails db c : ends (MatchingSelectMajor fails db c).
Proof. unfold MatchingSelectMajor. ends_auto. Qed.
Lemma ends_minor fails db m c : ends (MatchingSelectMinor fails db m c).
Proof. unfold MatchingSelectMinor. ends_auto. Qed.

Section matches.
Context `{AmtFloat}.
Variable fails : nat -> bool.
Variable IsWitness : bool.

Lemma ends_RateRequired x amount : ends (RateRequired x amount).
Proof. unfold RateRequired, BaseAmountAsUniFloat. ends_auto. Qed.
Lemma ends_NetRateOf x amount rate : ends (NetRateOf x amount rate).
Proof. unfold NetRateOf, BaseAmountAsUniFloat. ends_auto. Qed.
#[local] Hint Resolve ends_RateRequired ends_NetRateOf : ends.

Lemma ends_MatchTerms buyer seller t : ends (MatchTerms buyer seller t).
Proof. unfold MatchTerms, BaseAmountAsUniFloat. ends_auto. Qed.

Lemma ends_CheckMatch db buyer seller t : ends (CheckMatch fails IsWitness db buyer seller t).
Proof.
  unfold CheckMatch. apply ends_bind; [apply ends_MatchTerms|]. intros [c|] _; [|apply ends_Ret].
  apply ends_bind; [unfold Discounts; ends_auto|]. intros [[[b s] bn] sn] _. cbv zeta.
  destruct (Consider _ _ _ b _ _ _), (Consider _ _ _ s _ _ _). unfold write_changed. ends_auto.
Qed.

Lemma ends_UpdateMutualMatch db x other amount rate pass t hold : ends (UpdateMutualMatch fails db x other amount rate pass t hold).
Proof. unfold UpdateMutualMatch. ends_auto. Qed.
#[local] Hint Resolve ends_CheckMatch ends_UpdateMutualMatch : ends.

Lemma ends_MatchPair db major minor pass next t : ends (MatchPair fails db major minor pass next t).
Proof. unfold MatchPair, immediate_ok. ends_auto. Qed.

Lemma ends_MatchMiningPair db major minor next t : ends (MatchMiningPair fails IsWitness db major minor next t).
Proof. unfold MatchMiningPair. ends_auto. Qed.
End matches.

(** ** The rows that are left *)

(** How many rows satisfy a condition on what a round does not change. *)
Definition rows_left (p : Request -> bool) (db : Xdb) : nat := size (filter (fun row => p row.2 = true) (rows db)).
Definition fixed (p : Request -> bool) : Prop := forall x y, identity x = identity y -> p x = p y.

Lemma left_dom p db : rows_left p db = size (dom (filter (fun row : Z * Request => p row.2 = true) (rows db))).
Proof. symmetry. apply size_dom. Qed.

Lemma elem_left p db k : k ∈ dom (filter (fun row : Z * Request => p row.2 = true) (rows db)) <-> exists x, rows db !! k = Some x /\ p x = true.
Proof.
  rewrite elem_of_dom. unfold is_Some. setoid_rewrite map_lookup_filter_Some. reflexivity.
Qed.

Lemma left_same p db db' : fixed p -> ids db' = ids db -> rows_left p db' = rows_left p db.
Proof.
  intros Hp Hi%ids_rows. rewrite !left_dom. f_equal. apply set_eq. intros k. rewrite !elem_left. unfold row_ids in Hi.
  assert (Hk : (fun x => (identity x, x_blocktime x)) <$> rows db' !! k = (fun x => (identity x, x_blocktime x)) <$> rows db !! k)
    by (rewrite <- !lookup_fmap; by rewrite Hi).
  destruct (rows db' !! k) as [x|], (rows db !! k) as [y|]; try discriminate; [|split; intros (? & ? & _); discriminate].
  cbn in Hk. assert (E : identity x = identity y) by congruence. apply Hp in E.
  split; intros (z & [= <-] & Hz); eexists; (split; [reflexivity | congruence]).
Qed.

Lemma left_le p q db : (forall x, p x = true -> q x = true) -> (rows_left p db <= rows_left q db)%nat.
Proof. intros Hpq. rewrite !left_dom. apply subseteq_size. intros k. rewrite !elem_left. intros (x & Hx & Hp). exists x. auto. Qed.

Lemma left_size p db : (rows_left p db <= size (rows db))%nat.
Proof. apply map_size_filter. Qed.

Lemma left_split p q r db : (forall x, p x = true -> r x = true) -> (forall x, q x = true -> r x = true) -> (forall x, p x = true -> q x = true -> False) ->
  (rows_left p db + rows_left q db <= rows_left r db)%nat.
Proof.
  intros Hp Hq Hd. rewrite !left_dom, <- size_union.
  - apply subseteq_size. intros k. rewrite elem_of_union, !elem_left. intros [(x & Hx & Hpx)|(x & Hx & Hqx)]; exists x; auto.
  - intros k. rewrite !elem_left. intros (x & Hx & Hpx) (y & Hy & Hqy). assert (x = y) as <- by congruence. eauto.
Qed.

Lemma left_lt p q db k x : (forall x, p x = true -> q x = true) -> rows db !! k = Some x -> q x = true -> p x = false -> (rows_left p db < rows_left q db)%nat.
Proof.
  intros Hpq Hx Hq Hp. rewrite !left_dom. apply subset_size. split; [intros j; rewrite !elem_left; intros (y & Hy & Hpy); exists y; auto|].
  intros Hs. specialize (Hs k). rewrite !elem_left in Hs. destruct Hs as (y & Hy & Hpy); [by exists x|]. congruence.
Qed.

Lemma selected fails db c p x db' : linear c -> XreqsSelect fails db (select_by c p (rows db)) = (Found x, db') ->
  rows db' = rows db /\ exists k, rows db !! k = Some x /\ p x = true.
Proof.
  intros Hc. unfold XreqsSelect. destruct (fails (clock db)); [discriminate|]. destruct (select_by c p (rows db)) as [|[n y] rest] eqn:Es; [discriminate|].
  destruct (x_seqnum y =? 0); [discriminate|]. intros [= -> <-]. split; [reflexivity|]. exists n. destruct (select_by_first c p _ n x rest Hc Es) as (H1 & H2 & _). auto.
Qed.

Lemma joined fails db c p x y db' : linear c -> select_join fails db (select_by c p (rows db)) = (Found (x, y), db') ->
  exists k, rows db !! k = Some x /\ p x = true.
Proof.
  intros Hc. unfold select_join. destruct (fails (clock db)); [discriminate|]. destruct (select_by c p (rows db)) as [|[n z] rest] eqn:Es; [discriminate|].
  destruct (rows db !! x_best_other_seqnum z); [|discriminate]. destruct (_ || _); [discriminate|]. intros [= -> _ _].
  exists n. destruct (select_by_first c p _ n x rest Hc Es) as (H1 & H2 & _). auto.
Qed.

(** *** The cursors *)

Definition numbered_row (x : Request) : bool := negb (x_xreqnum x =? 0).
Definition with_number (p : Request -> bool) (x : Request) : bool := numbered_row x && p x.
Definition number_left (num : Z) (x : Request) : bool := num <=? x_xreqnum x.
Definition base_left (k : Pair) (x : Request) : bool := k_base k <? base_asset (x_terms x).
Definition quote_left (k : Pair) (x : Request) : bool :=
  let t := x_terms x in
  (base_asset t =? k_base k) && (k_quote k <=? t_quote_asset t)
  && ((k_quote k <? t_quote_asset t) || match lcompare (foreign_asset t) (k_foreign k) with Gt => true | _ => false end).
Definition pair_left (c : Cursor) (x : Request) : bool := of_pair (c_pair c) x && after_cursor c x.

Lemma identity_terms x y : identity x = identity y ->
  x_terms x = x_terms y /\ open_rate_required x = open_rate_required y /\ x_seqnum x = x_seqnum y /\ x_xreqnum x = x_xreqnum y.
Proof. unfold identity. intros [= -> -> -> -> _]. auto. Qed.

(** Conditions on what a round leaves. *)
Ltac fix_step :=
  let x := fresh "x" in let y := fresh "y" in let E := fresh "E" in
  intros x y E; destruct (identity_terms x y E) as (E1 & E2 & E3 & E4);
  unfold with_number, numbered_row, number_left, base_left, quote_left, pair_left, of_pair, after_cursor, signed_open_rate, IsBuyer, x_type;
  rewrite ?E1, ?E2, ?E3, ?E4; reflexivity.

Lemma fixed_number num : fixed (number_left num). Proof. fix_step. Qed.
Lemma fixed_base k : fixed (base_left k). Proof. fix_step. Qed.
Lemma fixed_quote k : fixed (quote_left k). Proof. fix_step. Qed.
Lemma fixed_after c : fixed (after_cursor c). Proof. fix_step. Qed.
Lemma fixed_pair c : fixed (pair_left c). Proof. fix_step. Qed.
Lemma fixed_numbered : fixed numbered_row. Proof. fix_step. Qed.
Lemma fixed_with p : fixed p -> fixed (with_number p).
Proof. intros Hp x y E. unfold with_number. by rewrite (Hp x y E), (fixed_numbered x y E). Qed.
#[export] Hint Resolve fixed_number fixed_base fixed_quote fixed_after fixed_pair fixed_numbered fixed_with : ends.

(** Where a cursor stands: after a request that was after it. *)
Definition place_compare (a b : double * Z * Z) : comparison :=
  and_then (dcompare a.1.1 b.1.1) (and_then (a.1.2 ?= b.1.2) (a.2 ?= b.2)).

Lemma linear_place : linear place_compare.
Proof.
  apply linear_and_then; [apply (linear_on dcompare (fun p : double * Z * Z => p.1.1)); auto with linear|].
  apply linear_and_then; [apply (linear_on Z.compare (fun p : double * Z * Z => p.1.2)); auto with linear|].
  apply (linear_on Z.compare (fun p : double * Z * Z => p.2)). auto with linear.
Qed.

Lemma linear_diag {A} (c : A -> A -> comparison) x : linear c -> c x x = Eq.
Proof. intros [Hs _]. specialize (Hs x x). by destruct (c x x). Qed.

Lemma linear_gt {A} (c : A -> A -> comparison) x y z : linear c -> c x y = Gt -> c y z = Gt -> c x z = Gt.
Proof.
  intros [Hs Ht] Hxy Hyz. destruct (c x z) eqn:Hxz; [exfalso|exfalso|reflexivity];
    (apply (Ht y x z); [rewrite Hs, Hxy; discriminate | congruence | exact Hyz]).
Qed.

Definition place (x : Request) : double * Z * Z := (signed_open_rate x, x_xreqnum x, x_seqnum x).

Lemma after_place c x : after_cursor c x = true <-> place_compare (place x) (c_rate c, c_xreqnum c, c_seqnum c) = Gt.
Proof. unfold after_cursor, place_compare, place. cbn [fst snd]. destruct (and_then _ _); intuition congruence. Qed.

Lemma pair_advance c m x : pair_left c m = true -> with_number (pair_left (MatchingAdvance m c)) x = true -> with_number (pair_left c) x = true.
Proof.
  unfold with_number, pair_left. intros [_ Hm]%andb_true_iff [Hn [Hp Hx]%andb_true_iff]%andb_true_iff. rewrite Hn. cbn [andb]. apply andb_true_iff. split; [exact Hp|].
  apply after_place in Hm, Hx. apply after_place. exact (linear_gt _ _ (place m) _ linear_place Hx Hm).
Qed.

Lemma pair_advanced c m : with_number (pair_left (MatchingAdvance m c)) m = false.
Proof.
  apply not_true_iff_false. unfold with_number, pair_left. intros [_ [_ Hm]%andb_true_iff]%andb_true_iff. apply after_place in Hm.
  assert (E : place_compare (place m) (place m) = Eq) by (apply linear_diag, linear_place). change (place_compare (place m) (place m) = Gt) in Hm. congruence.
Qed.

Lemma quote_left_advance k p x : quote_left (SearchAdvancePairQuote p k) x =
  let t := x_terms x in let u := x_terms p in
  (base_asset t =? k_base k) && (t_quote_asset u <=? t_quote_asset t)
  && ((t_quote_asset u <? t_quote_asset t) || match lcompare (foreign_asset t) (foreign_asset u) with Gt => true | _ => false end).
Proof. reflexivity. Qed.

Lemma quote_advance k p x : quote_left k p = true -> quote_left (SearchAdvancePairQuote p k) x = true -> quote_left k x = true.
Proof.
  rewrite quote_left_advance. unfold quote_left. cbv zeta. rewrite !andb_true_iff, !orb_true_iff, !Z.eqb_eq, !Z.leb_le, !Z.ltb_lt.
  intros [[Bp Lp] Gp] [[Bx Lx] Gx]. split; [split; [assumption | lia]|].
  destruct (Z.ltb_spec (k_quote k) (t_quote_asset (x_terms x))) as [|Hge]; [by left | right].
  destruct Gp as [Gp|Gp]; [lia|]. destruct Gx as [Gx|Gx]; [lia|].
  destruct (lcompare (foreign_asset (x_terms p)) (k_foreign k)) eqn:E1; [discriminate..|].
  destruct (lcompare (foreign_asset (x_terms x)) (foreign_asset (x_terms p))) eqn:E2; [discriminate..|].
  by rewrite (linear_gt _ _ _ _ linear_list E2 E1).
Qed.

Lemma quote_advanced k p x : quote_left (SearchAdvancePairQuote p k) x = true ->
  t_quote_asset (x_terms x) = t_quote_asset (x_terms p) -> foreign_asset (x_terms x) = foreign_asset (x_terms p) -> False.
Proof.
  rewrite quote_left_advance. cbv zeta. intros [_ Hx]%andb_true_iff Eq Ef.
  rewrite Eq, Ef, Z.ltb_irrefl, (linear_diag _ _ linear_list) in Hx. discriminate.
Qed.

Lemma select_left fails db c p x db' q : linear c -> (forall x, p x = true -> q x = true) ->
  XreqsSelect fails db (select_by c p (rows db)) = (Found x, db') -> ids db' = ids db /\ rows db' = rows db /\ exists k, rows db !! k = Some x /\ q x = true.
Proof.
  intros Hc Hpq E. pose proof (select_ids _ _ _ _ _ E) as Hi. apply (selected _ _ _ _ _ _ Hc) in E as (Hr & k & Hk & Hp). eauto 6.
Qed.

Lemma major_left fails db c x db' : MatchingSelectMajor fails db c = Ret (Found x, db') -> exists k, rows db !! k = Some x /\ with_number (pair_left c) x = true.
Proof.
  intros E%checked_found. apply (select_left _ _ _ _ _ _ (with_number (pair_left c)) linear_index) in E as (_ & _ & Hk); [exact Hk|].
  intros y. unfold is_major, with_number, pair_left, numbered_row. rewrite !andb_true_iff. tauto.
Qed.

Lemma minor_left fails db m c x db' : MatchingSelectMinor fails db m c = Ret (Found x, db') -> exists k, rows db !! k = Some x /\ with_number (pair_left c) x = true.
Proof.
  intros E. unfold MatchingSelectMinor in E. returned E. cbv zeta in E. destruct (XreqsSelect _ _ _) as [r db1] eqn:Er. cbn [fst] in E.
  destruct r as [y| |]; [|discriminate|discriminate]. returned E. apply checked_found in E. injection E as -> ->.
  apply (select_left _ _ _ _ _ _ (with_number (pair_left c)) linear_index) in Er as (_ & _ & Hk); [exact Hk|].
  intros y. unfold is_minor, with_number, pair_left, numbered_row. cbv zeta. destruct (MatchingInitTypeRange _ _). rewrite !andb_true_iff. tauto.
Qed.

(** *** The loops end *)

Section rounds.
Context `{AmtFloat}.
Variables fails shutdown : nat -> bool.
Variable IsWitness : bool.

(** What is left after a buyer or a seller that was looked at. *)
Lemma minor_turn db m major c t x db1 b major' minor' db2 : keys_ok db -> current db major ->
  MatchingSelectMinor fails db m c = Ret (Found x, db1) -> CheckMatch fails IsWitness db1 major x t = Ret (b, major', minor', db2) ->
  ids db2 = ids db /\ current db2 major' /\ (rows_left (with_number (pair_left (MatchingAdvance minor' c))) db2 < rows_left (with_number (pair_left c)) db)%nat.
Proof.
  intros Hk Hc E E1. destruct (minor_left _ _ _ _ _ _ E) as (k & Hx & Hp). destruct (minor_current _ _ _ _ _ _ Hk E) as [I1 C1].
  destruct (CheckMatch_ids _ _ _ _ _ _ _ _ _ _ (current_same _ _ _ I1 Hc) C1 E1) as (I2 & I3 & I4). assert (I : ids db2 = ids db) by congruence.
  split; [exact I|]. split; [exact (current_same _ _ _ I (current_eq _ _ _ I3 Hc))|].
  assert (Ep : MatchingAdvance minor' c = MatchingAdvance x c)
    by (unfold MatchingAdvance; destruct (identity_terms _ _ I4) as (T1 & T2 & T3 & T4); unfold signed_open_rate, IsBuyer, x_type; by rewrite T1, T2, T3, T4).
  rewrite Ep, (left_same _ _ _ (fixed_with _ (fixed_pair _)) I).
  apply (left_lt _ _ _ k x); [|exact Hx | exact Hp | apply pair_advanced]. intros y. apply pair_advance. by apply andb_true_iff in Hp as [_ Hp].
Qed.

Lemma minor_loop_ends fuel : forall db m major c t count set, keys_ok db -> current db major ->
  (rows_left (with_number (pair_left c)) db < fuel)%nat -> ends (minor_loop fails shutdown IsWitness fuel db m major c t count set).
Proof.
  induction fuel as [|fuel IH]; intros db m major c t count set Hk Hc Hf; [lia|]. cbn [minor_loop]. destruct (shutdown (clock db)); [apply ends_Ret|].
  apply ends_bind; [apply ends_minor|]. intros [[x| |] db1] E; [|apply ends_Ret | discriminate].
  apply ends_bind; [apply ends_CheckMatch|]. intros [[[b major'] minor'] db2] E1. destruct (minor_turn _ _ _ _ _ _ _ _ _ _ _ Hk Hc E E1) as (I & C & Hl).
  apply IH; [exact (keys_same _ _ I Hk) | exact C | lia].
Qed.

(** A count that grew by at most [bound], and grew when something was found. *)
Definition grown (bound count count' : Z) (set set' : bool) : Prop := count <= count' <= count + bound /\ (set' = true -> set = true \/ count < count').

Lemma grown_refl bound count set : 0 <= bound -> grown bound count count set set.
Proof. unfold grown. intros Hb. split; [lia | auto]. Qed.

Lemma grown_trans b1 b2 b c c1 c2 s s1 s2 : grown b1 c c1 s s1 -> grown b2 c1 c2 s1 s2 -> b1 + b2 <= b -> grown b c c2 s s2.
Proof. unfold grown. intros [H1 S1] [H2 S2] Hb. split; [lia|]. intros E. destruct (S2 E) as [E1|]; [destruct (S1 E1); [auto | right; lia] | right; lia]. Qed.

(** How many rows satisfy a condition, of those with a number. *)
Definition numbered_left (p : Request -> bool) (db : Xdb) : Z := Z.of_nat (rows_left (with_number p) db).
Definition numbered_all (db : Xdb) : Z := Z.of_nat (rows_left numbered_row db).

Lemma numbered_left_all p db : 0 <= numbered_left p db <= numbered_all db.
Proof.
  unfold numbered_left, numbered_all. pose proof (left_le (with_number p) numbered_row db) as Hl. enough ((rows_left (with_number p) db <= rows_left numbered_row db)%nat) by lia.
  apply Hl. intros x. unfold with_number. by intros [? _]%andb_true_iff.
Qed.

Lemma numbered_all_same db db' : ids db' = ids db -> numbered_all db' = numbered_all db.
Proof. intros Hi. unfold numbered_all. by rewrite (left_same _ _ _ fixed_numbered Hi). Qed.

Lemma numbered_left_same p db db' : fixed p -> ids db' = ids db -> numbered_left p db' = numbered_left p db.
Proof. intros Hp Hi. unfold numbered_left. by rewrite (left_same _ _ _ (fixed_with _ Hp) Hi). Qed.

Lemma u32_next count : 0 <= count -> count + 1 < 2 ^ 32 -> u32 (count + 1) = count + 1.
Proof. intros. apply (wrap_small 32). unfold in_word. lia. Qed.

Lemma minor_loop_counts fuel : forall db m major c t count set set' count' db', keys_ok db -> current db major ->
  0 <= count -> count + numbered_left (pair_left c) db < 2 ^ 32 ->
  minor_loop fails shutdown IsWitness fuel db m major c t count set = Ret (set', count', db') -> grown (numbered_left (pair_left c) db) count count' set set'.
Proof.
  induction fuel as [|fuel IH]; intros db m major c t count set set' count' db' Hk Hc H0 Hb E; cbn [minor_loop] in E;
    pose proof (proj1 (numbered_left_all (pair_left c) db)) as Hp;
    (destruct (shutdown (clock db)); [injection E as <- <- _; by apply grown_refl|]); [discriminate|].
  returned E. destruct v as [v db1]. destruct v as [x| |]; [|injection E as <- <- _; by apply grown_refl | discriminate].
  returned E. destruct v as [[[b major'] minor'] db2]. destruct (minor_turn _ _ _ _ _ _ _ _ _ _ _ Hk Hc E0 E1) as (I & C & Hl).
  assert (Hl' : numbered_left (pair_left (MatchingAdvance minor' c)) db2 < numbered_left (pair_left c) db) by (unfold numbered_left; lia).
  pose proof (proj1 (numbered_left_all (pair_left (MatchingAdvance minor' c)) db2)) as Hp'. assert (Hu : u32 (count + 1) = count + 1) by (apply u32_next; lia). rewrite Hu in E.
  apply IH in E; [|exact (keys_same _ _ I Hk) | exact C | lia | lia].
  refine (grown_trans 1 _ _ _ (count + 1) _ _ _ _ _ E _); [|lia]. unfold grown. split; [lia|]. intros _. right. lia.
Qed.

(** The loop over the sellers, from the start. *)
Lemma minors_end db major c t count set : keys_ok db -> current db major ->
  ends (minor_loop fails shutdown IsWitness (S (size (rows db))) db major major c t count set).
Proof.
  intros Hk Hc. apply minor_loop_ends; [exact Hk | exact Hc|]. pose proof (left_size (with_number (pair_left c)) db). lia.
Qed.

Lemma major_turn db c x db1 c1 t count set r n db2 : keys_ok db -> MatchingSelectMajor fails db c = Ret (Found x, db1) ->
  minor_loop fails shutdown IsWitness (S (size (rows db1))) db1 x x c1 t count set = Ret (r, n, db2) ->
  ids db1 = ids db /\ current db1 x /\ ids db2 = ids db
  /\ (rows_left (with_number (pair_left (MatchingAdvance x c))) db2 < rows_left (with_number (pair_left c)) db)%nat.
Proof.
  intros Hk E E1. destruct (major_left _ _ _ _ _ E) as (k & Hx & Hp). destruct (major_current _ _ _ _ _ Hk E) as [I1 C1].
  apply minor_loop_ids in E1; [|exact (keys_same _ _ I1 Hk) | exact C1]. assert (I : ids db2 = ids db) by congruence.
  do 3 (split; [done|]). rewrite (left_same _ _ _ (fixed_with _ (fixed_pair _)) I).
  apply (left_lt _ _ _ k x); [|exact Hx | exact Hp | apply pair_advanced]. intros y. apply pair_advance. by apply andb_true_iff in Hp as [_ Hp].
Qed.

Lemma major_loop_ends fuel : forall db c t count set, keys_ok db ->
  (rows_left (with_number (pair_left c)) db < fuel)%nat -> ends (major_loop fails shutdown IsWitness fuel db c t count set).
Proof.
  induction fuel as [|fuel IH]; intros db c t count set Hk Hf; [lia|]. cbn [major_loop]. destruct (shutdown (clock db)); [apply ends_Ret|].
  apply ends_bind; [apply ends_major|]. intros [[x| |] db1] E; [|apply ends_Ret | discriminate]. destruct (major_current _ _ _ _ _ Hk E) as [I1 C1].
  apply ends_bind; [exact (minors_end _ _ _ _ _ _ (keys_same _ _ I1 Hk) C1)|]. intros [[r n] db2] E1. destruct (major_turn _ _ _ _ _ _ _ _ _ _ _ Hk E E1) as (_ & _ & I & Hl).
  apply IH; [exact (keys_same _ _ I Hk) | lia].
Qed.

Lemma major_loop_counts fuel : forall db c t count set set' count' db', keys_ok db ->
  0 <= count -> count + numbered_left (pair_left c) db * numbered_all db < 2 ^ 32 ->
  major_loop fails shutdown IsWitness fuel db c t count set = Ret (set', count', db') ->
  grown (numbered_left (pair_left c) db * numbered_all db) count count' set set'.
Proof.
  induction fuel as [|fuel IH]; intros db c t count set set' count' db' Hk H0 Hb E; cbn [major_loop] in E;
    pose proof (numbered_left_all (pair_left c) db) as Hp; assert (Hm : 0 <= numbered_left (pair_left c) db * numbered_all db) by nia;
    (destruct (shutdown (clock db)); [injection E as <- <- _; by apply grown_refl|]); [discriminate|].
  returned E. destruct v as [v db1]. destruct v as [x| |]; [|injection E as <- <- _; by apply grown_refl | discriminate].
  returned E. destruct v as [[s1 n1] db2]. destruct (major_turn _ _ _ _ _ _ _ _ _ _ _ Hk E0 E1) as (I1 & C1 & I & Hl).
  assert (Hl' : numbered_left (pair_left (MatchingAdvance x c)) db2 + 1 <= numbered_left (pair_left c) db) by (unfold numbered_left; lia).
  pose proof (numbered_left_all (pair_left (MatchingAdvance x c)) db2) as Hp'. rewrite (numbered_all_same _ _ I) in Hp'.
  set (M := MatchingInitMinor x (k_max_xreqnum (c_pair c))) in *.
  pose proof (numbered_left_all (pair_left M) db1) as Hq. rewrite (numbered_all_same _ _ I1) in Hq.
  apply minor_loop_counts in E1 as Hc1; [|exact (keys_same _ _ I1 Hk) | exact C1 | exact H0 | nia].
  pose proof (proj1 Hc1) as Hn1. apply IH in E; [|exact (keys_same _ _ I Hk) | lia | rewrite (numbered_all_same _ _ I); nia].
  rewrite (numbered_all_same _ _ I) in E. refine (grown_trans _ _ _ _ _ _ _ _ _ Hc1 E _). nia.
Qed.

Lemma majors_end db c t count set : keys_ok db -> ends (major_loop fails shutdown IsWitness (S (size (rows db))) db c t count set).
Proof. intros Hk. apply major_loop_ends; [exact Hk|]. pose proof (left_size (with_number (pair_left c)) db). lia. Qed.

(** The requests of a pair of currencies are not among those after the pair. *)
Lemma quote_split k p max db : quote_left k p = true ->
  numbered_left (pair_left (MatchingInitMajor p max)) db + numbered_left (quote_left (SearchAdvancePairQuote p k)) db <= numbered_left (quote_left k) db.
Proof.
  intros Hp. unfold numbered_left.
  assert (Hpair : forall x, pair_left (MatchingInitMajor p max) x = true -> base_asset (x_terms x) = base_asset (x_terms p)
    /\ t_quote_asset (x_terms x) = t_quote_asset (x_terms p) /\ foreign_asset (x_terms x) = foreign_asset (x_terms p)).
  { intros x. unfold pair_left, of_pair. cbn [MatchingInitMajor start_cursor c_pair k_base k_quote k_foreign].
    rewrite !andb_true_iff, !Z.eqb_eq, bool_decide_eq_true. tauto. }
  pose proof (left_split (with_number (pair_left (MatchingInitMajor p max))) (with_number (quote_left (SearchAdvancePairQuote p k))) (with_number (quote_left k)) db) as Hs.
  enough (forall A B C : nat, (A + B <= C)%nat -> Z.of_nat A + Z.of_nat B <= Z.of_nat C) as Hz; [apply Hz, Hs | lia]; unfold with_number; intros x.
  - intros [Hn Hx]%andb_true_iff. rewrite Hn. cbn [andb]. destruct (Hpair x Hx) as (Eb & Eq & Ef). revert Hp. unfold quote_left. cbv zeta. by rewrite Eb, Eq, Ef.
  - intros [Hn Hx]%andb_true_iff. rewrite Hn. exact (quote_advance k p x Hp Hx).
  - intros [_ Hx]%andb_true_iff [_ Hy]%andb_true_iff. destruct (Hpair x Hx) as (Eb & Eq & Ef). exact (quote_advanced k p x Hy Eq Ef).
Qed.

Lemma quote_select db k x db1 : XreqsSelectPairQuote fails db k = (Found x, db1) -> ids db1 = ids db /\ quote_left k x = true
  /\ (rows_left (quote_left (SearchAdvancePairQuote x k)) db < rows_left (quote_left k) db)%nat.
Proof.
  intros E. apply (select_left _ _ _ _ _ _ (quote_left k) linear_index) in E as (I & _ & j & Hx & Hq).
  - split; [exact I|]. split; [exact Hq|]. apply (left_lt _ _ _ j x); [intros y; by apply quote_advance | exact Hx | exact Hq|].
    apply not_true_iff_false. intros Hy. exact (quote_advanced k x x Hy eq_refl eq_refl).
  - intros y. unfold quote_after, quote_left. cbv zeta. rewrite !andb_true_iff. tauto.
Qed.

Lemma quote_loop_ends fuel : forall db k t count set, keys_ok db ->
  (rows_left (quote_left k) db < fuel)%nat -> ends (quote_loop fails shutdown IsWitness fuel db k t count set).
Proof.
  induction fuel as [|fuel IH]; intros db k t count set Hk Hf; [lia|]. cbn [quote_loop]. destruct (shutdown (clock db)); [apply ends_Ret|].
  destruct (XreqsSelectPairQuote fails db k) as [[x| |] db1] eqn:E; [|apply ends_Ret | discriminate]. destruct (quote_select _ _ _ _ E) as (I1 & _ & Hl).
  pose proof (keys_same _ _ I1 Hk) as Hk1. apply ends_bind; [exact (majors_end _ _ _ _ _ Hk1)|]. intros [[r n] db2] E1. apply major_loop_ids in E1; [|exact Hk1].
  apply IH; [exact (keys_same _ _ E1 Hk1)|]. rewrite (left_same _ _ _ (fixed_quote _) E1), (left_same _ _ _ (fixed_quote _) I1). lia.
Qed.

Lemma quote_loop_counts fuel : forall db k t count set set' count' db', keys_ok db ->
  0 <= count -> count + numbered_left (quote_left k) db * numbered_all db < 2 ^ 32 ->
  quote_loop fails shutdown IsWitness fuel db k t count set = Ret (set', count', db') ->
  grown (numbered_left (quote_left k) db * numbered_all db) count count' set set'.
Proof.
  induction fuel as [|fuel IH]; intros db k t count set set' count' db' Hk H0 Hb E; cbn [quote_loop] in E;
    pose proof (numbered_left_all (quote_left k) db) as Hp; assert (Hm : 0 <= numbered_left (quote_left k) db * numbered_all db) by nia;
    (destruct (shutdown (clock db)); [injection E as <- <- _; by apply grown_refl|]); [discriminate|].
  destruct (XreqsSelectPairQuote fails db k) as [[x| |] db1] eqn:Es; [|injection E as <- <- _; by apply grown_refl | discriminate].
  destruct (quote_select _ _ _ _ Es) as (I1 & Hq & _). pose proof (keys_same _ _ I1 Hk) as Hk1. returned E. destruct v as [[s1 n1] db2].
  assert (I : ids db2 = ids db) by (rewrite <- I1; exact (major_loop_ids _ _ _ _ _ _ _ _ _ _ _ _ Hk1 E0)).
  pose proof (quote_split k x (k_max_xreqnum k) db Hq) as Hsplit.
  set (N1 := numbered_left (pair_left (MatchingInitMajor x (k_max_xreqnum k))) db) in *. set (N2 := numbered_left (quote_left (SearchAdvancePairQuote x k)) db) in *.
  assert (E1 : numbered_left (pair_left (MatchingInitMajor x (k_max_xreqnum k))) db1 = N1) by exact (numbered_left_same _ _ _ (fixed_pair _) I1).
  assert (E2 : numbered_left (quote_left (SearchAdvancePairQuote x k)) db2 = N2) by exact (numbered_left_same _ _ _ (fixed_quote _) I).
  assert (0 <= N1 /\ 0 <= N2) by (split; apply numbered_left_all).
  apply major_loop_counts in E0; [|exact Hk1 | exact H0 | rewrite E1, (numbered_all_same _ _ I1); nia]. rewrite E1, (numbered_all_same _ _ I1) in E0.
  pose proof (proj1 E0) as Hn1. apply IH in E; [|exact (keys_same _ _ I Hk) | lia | rewrite E2, (numbered_all_same _ _ I); nia].
  rewrite E2, (numbered_all_same _ _ I) in E. refine (grown_trans _ _ _ _ _ _ _ _ _ E0 E _). nia.
Qed.

Lemma quotes_end db k t count set : keys_ok db -> ends (quote_loop fails shutdown IsWitness (S (size (rows db))) db k t count set).
Proof. intros Hk. apply quote_loop_ends; [exact Hk|]. pose proof (left_size (quote_left k) db). lia. Qed.

(** The pairs with a base currency are not among those with a later one. *)
Lemma base_split k p max db : base_left k p = true ->
  numbered_left (quote_left (SearchInitPairQuote (base_asset (x_terms p)) max)) db + numbered_left (base_left (SearchAdvancePairBase p k)) db
  <= numbered_left (base_left k) db.
Proof.
  intros Hp. unfold numbered_left. apply Z.ltb_lt in Hp.
  assert (Hq : forall x, quote_left (SearchInitPairQuote (base_asset (x_terms p)) max) x = true -> base_asset (x_terms x) = base_asset (x_terms p)).
  { intros x. unfold quote_left. cbn [SearchInitPairQuote k_base k_quote k_foreign]. rewrite !andb_true_iff, Z.eqb_eq. tauto. }
  assert (Ha : forall x, base_left (SearchAdvancePairBase p k) x = true -> base_asset (x_terms p) + 1 < base_asset (x_terms x)) by (intros x; apply Z.ltb_lt).
  pose proof (left_split (with_number (quote_left (SearchInitPairQuote (base_asset (x_terms p)) max))) (with_number (base_left (SearchAdvancePairBase p k))) (with_number (base_left k)) db) as Hs.
  enough (forall A B C : nat, (A + B <= C)%nat -> Z.of_nat A + Z.of_nat B <= Z.of_nat C) as Hz; [apply Hz, Hs | lia]; unfold with_number; intros x.
  - intros [Hn Hx]%andb_true_iff. rewrite Hn. cbn [andb]. apply Z.ltb_lt. rewrite (Hq x Hx). exact Hp.
  - intros [Hn Hx]%andb_true_iff. rewrite Hn. cbn [andb]. apply Z.ltb_lt. apply Ha in Hx. lia.
  - intros [_ Hx]%andb_true_iff [_ Hy]%andb_true_iff. apply Hq in Hx. apply Ha in Hy. lia.
Qed.

Lemma base_select db k x db1 : XreqsSelectPairBase fails db k = (Found x, db1) -> ids db1 = ids db /\ base_left k x = true
  /\ (rows_left (base_left (SearchAdvancePairBase x k)) db < rows_left (base_left k) db)%nat.
Proof.
  intros E. apply (select_left _ _ _ _ _ _ (base_left k) linear_index) in E as (I & _ & j & Hx & Hq).
  - split; [exact I|]. split; [exact Hq|]. apply Z.ltb_lt in Hq as Hlt. apply (left_lt _ _ _ j x); [|exact Hx | exact Hq|].
    + intros y Hy. change (base_asset (x_terms x) + 1 <? base_asset (x_terms y) = true) in Hy. apply Z.ltb_lt in Hy. apply Z.ltb_lt. lia.
    + change (base_asset (x_terms x) + 1 <? base_asset (x_terms x) = false). apply Z.ltb_ge. lia.
  - intros y. unfold base_after, base_left. rewrite !andb_true_iff. tauto.
Qed.

Lemma base_loop_ends fuel : forall db k t count set, keys_ok db ->
  (rows_left (base_left k) db < fuel)%nat -> ends (base_loop fails shutdown IsWitness fuel db k t count set).
Proof.
  induction fuel as [|fuel IH]; intros db k t count set Hk Hf; [lia|]. cbn [base_loop]. destruct (shutdown (clock db)); [apply ends_Ret|].
  destruct (XreqsSelectPairBase fails db k) as [[x| |] db1] eqn:E; [|apply ends_Ret | discriminate]. destruct (base_select _ _ _ _ E) as (I1 & _ & Hl).
  pose proof (keys_same _ _ I1 Hk) as Hk1. apply ends_bind; [exact (quotes_end _ _ _ _ _ Hk1)|]. intros [[r n] db2] E1. apply quote_loop_ids in E1; [|exact Hk1].
  apply IH; [exact (keys_same _ _ E1 Hk1)|]. rewrite (left_same _ _ _ (fixed_base _) E1), (left_same _ _ _ (fixed_base _) I1). lia.
Qed.

Lemma base_loop_counts fuel : forall db k t count set set' count' db', keys_ok db ->
  0 <= count -> count + numbered_left (base_left k) db * numbered_all db < 2 ^ 32 ->
  base_loop fails shutdown IsWitness fuel db k t count set = Ret (set', count', db') ->
  grown (numbered_left (base_left k) db * numbered_all db) count count' set set'.
Proof.
  induction fuel as [|fuel IH]; intros db k t count set set' count' db' Hk H0 Hb E; cbn [base_loop] in E;
    pose proof (numbered_left_all (base_left k) db) as Hp; assert (Hm : 0 <= numbered_left (base_left k) db * numbered_all db) by nia;
    (destruct (shutdown (clock db)); [injection E as <- <- _; by apply grown_refl|]); [discriminate|].
  destruct (XreqsSelectPairBase fails db k) as [[x| |] db1] eqn:Es; [|injection E as <- <- _; by apply grown_refl | discriminate].
  destruct (base_select _ _ _ _ Es) as (I1 & Hq & _). pose proof (keys_same _ _ I1 Hk) as Hk1. returned E. destruct v as [[s1 n1] db2].
  assert (I : ids db2 = ids db) by (rewrite <- I1; exact (quote_loop_ids _ _ _ _ _ _ _ _ _ _ _ _ Hk1 E0)).
  pose proof (base_split k x (k_max_xreqnum k) db Hq) as Hsplit.
  set (Q := SearchInitPairQuote (base_asset (x_terms x)) (k_max_xreqnum k)) in *. set (N1 := numbered_left (quote_left Q) db) in *.
  set (N2 := numbered_left (base_left (SearchAdvancePairBase x k)) db) in *.
  assert (E1 : numbered_left (quote_left Q) db1 = N1) by exact (numbered_left_same _ _ _ (fixed_quote _) I1).
  assert (E2 : numbered_left (base_left (SearchAdvancePairBase x k)) db2 = N2) by exact (numbered_left_same _ _ _ (fixed_base _) I).
  assert (0 <= N1 /\ 0 <= N2) by (split; apply numbered_left_all).
  apply quote_loop_counts in E0; [|exact Hk1 | exact H0 | rewrite E1, (numbered_all_same _ _ I1); nia]. rewrite E1, (numbered_all_same _ _ I1) in E0.
  pose proof (proj1 E0) as Hn1. apply IH in E; [|exact (keys_same _ _ I Hk) | lia | rewrite E2, (numbered_all_same _ _ I); nia].
  rewrite E2, (numbered_all_same _ _ I) in E. refine (grown_trans _ _ _ _ _ _ _ _ _ E0 E _). nia.
Qed.

(** *** Matches *)

Lemma number_next db k x num : rows db !! k = Some x -> number_left num x = true -> (rows_left (number_left (x_xreqnum x + 1)) db < rows_left (number_left num) db)%nat.
Proof.
  intros Hx Hn. apply Z.leb_le in Hn as Hle. apply (left_lt _ _ _ k x); [|exact Hx | exact Hn|].
  - intros y Hy%Z.leb_le. apply Z.leb_le. lia.
  - apply Z.leb_gt. lia.
Qed.

Lemma mutual_loop_ends fuel : forall db num pass next t have, keys_ok db -> (rows_left (number_left num) db < fuel)%nat ->
  ends (mutual_loop fails shutdown fuel db num pass next t have).
Proof.
  induction fuel as [|fuel IH]; intros db num pass next t have Hk Hf; [lia|]. cbn [mutual_loop]. destruct (shutdown (clock db)); [apply ends_Ret|].
  destruct (MatchingSelectMatch fails db num) as [[[x y]| |] db1] eqn:Es; [|apply ends_Ret | discriminate].
  destruct (joined _ _ _ _ _ _ _ linear_xreqnum Es) as (k & Hx & Hp). apply (join_current _ _ _ _ _ _ _ Hk linear_xreqnum) in Es as (I1 & Cx & Cy).
  apply ends_bind; [apply ends_MatchPair|]. intros [n db2] E. apply MatchPair_ids in E; [|exact Cx | exact Cy]. cbn [fst snd].
  assert (I : ids db2 = ids db) by congruence. apply IH; [exact (keys_same _ _ I Hk)|]. rewrite (left_same _ _ _ (fixed_number _) I).
  enough (number_left num x = true) as Hn; [pose proof (number_next _ _ _ _ Hx Hn); lia|]. revert Hp. unfold is_mutual, number_left. rewrite !andb_true_iff. tauto.
Qed.

Lemma mining_loop_ends fuel : forall db num next t max, keys_ok db -> (rows_left (number_left num) db < fuel)%nat ->
  ends (mining_loop fails shutdown IsWitness fuel db num next t max).
Proof.
  induction fuel as [|fuel IH]; intros db num next t max Hk Hf; [lia|]. cbn [mining_loop]. destruct (_ || _); [apply ends_Ret|].
  destruct (XreqsSelectXreqnum fails db num CC_TYPE_XCX_MINING_BUY) as [[x| |] db1] eqn:Es; [|apply ends_Ret | discriminate].
  pose proof (select_ids _ _ _ _ _ Es) as I1. destruct (select_current _ _ _ _ _ _ Hk linear_xreqnum Es) as [_ Cx].
  apply (select_left _ _ _ _ _ _ (number_left num) linear_xreqnum) in Es as (_ & _ & k & Hx & Hn); [|intros y [Hy _]%andb_true_iff; exact Hy].
  pose proof (number_next _ _ _ _ Hx Hn) as Hl.
  assert (Hgo : forall db2 next, ids db2 = ids db -> ends (mining_loop fails shutdown IsWitness fuel db2 (x_xreqnum x + 1) next t max))
    by (intros db2 next' I; apply IH; [exact (keys_same _ _ I Hk) | rewrite (left_same _ _ _ (fixed_number _) I); lia]).
  cbv zeta. apply ends_if; intros _; [apply ends_Ret|]. apply ends_if; intros _; [exact (Hgo _ _ I1)|]. apply ends_if; intros _; [|discriminate].
  pose proof (keys_same _ _ I1 Hk) as Hk1. unfold XreqsSelectSeqnum. destruct (XreqsSelect fails db1 _) as [w db2] eqn:Er. pose proof (select_ids _ _ _ _ _ Er) as I2.
  assert (I : ids db2 = ids db) by congruence.
  assert (Hmiss : ends (let! r := XreqsUpdate fails db2 x{{linked_seqnum := 0}} in mining_loop fails shutdown IsWitness fuel r.2 (x_xreqnum x + 1) next t max)).
  { apply ends_bind; [apply ends_update|]. intros [rc db3] E. apply update_ids in E; [|exact (current_same _ _ _ I2 Cx)]. apply Hgo. cbn [snd]. congruence. }
  destruct w as [y| |]; [|exact Hmiss | discriminate]. apply (select_current _ _ _ _ _ _ Hk1 linear_fst) in Er as [_ Cy].
  destruct (negb _ && _); [exact Hmiss|]. apply ends_if; intros _; [|exact (Hgo _ _ I)].
  apply ends_bind; [apply ends_MatchMiningPair|]. intros [n db3] E. cbn [fst snd]. apply Hgo.
  apply MatchMiningPair_ids in E; [congruence | exact (current_same _ _ _ I2 Cx) | exact Cy].
Qed.

(** *** The passes *)

Lemma MatchPass_ends db t max first next count : keys_ok db -> ends (MatchPass fails shutdown IsWitness db t max first next count).
Proof.
  intros Hk. unfold MatchPass. cbv zeta. destruct (MatchingInit _ _ _ _ _ _) as [rc db1] eqn:Ei. apply MatchingInit_ids in Ei.
  change (ids db1 = ids db) in Ei. pose proof (keys_same _ _ Ei Hk) as Hk1. apply ends_if; intros _; [discriminate|].
  apply ends_bind; [apply base_loop_ends; [exact Hk1|]; pose proof (left_size (base_left (SearchInitPairBase max)) db1); lia|].
  intros [[b c] db2] E. apply base_loop_ids in E; [|exact Hk1]. apply ends_if; intros _; [|apply ends_Ret].
  apply ends_bind; [|intros [[h n] db3] _; apply ends_Ret]. apply mutual_loop_ends; [exact (keys_same _ _ E Hk1)|]. pose proof (left_size (number_left 1) db2). lia.
Qed.

(** A pass that finds matches has looked at a pair. *)
Lemma MatchPass_counts db t max first next count have next' count' db' : keys_ok db ->
  0 <= count -> count + numbered_all db * numbered_all db < 2 ^ 32 ->
  MatchPass fails shutdown IsWitness db t max first next count = Ret (have, next', count', db') ->
  grown (numbered_all db * numbered_all db) count count' false have.
Proof.
  intros Hk H0 Hb E. unfold MatchPass in E. cbv zeta in E. destruct (MatchingInit _ _ _ _ _ _) as [rc db1] eqn:Ei. apply MatchingInit_ids in Ei.
  change (ids db1 = ids db) in Ei. destruct (negb _); [discriminate|]. returned E. destruct v as [[b c] db2].
  pose proof (numbered_left_all (base_left (SearchInitPairBase max)) db1) as Hp. pose proof (numbered_all_same _ _ Ei) as Hn.
  apply base_loop_counts in E0 as [Hc Hs]; [|exact (keys_same _ _ Ei Hk) | exact H0 | nia].
  assert (Hc' : count <= c <= count + numbered_all db * numbered_all db) by nia.
  destruct b; [|injection E as <- _ <- _; by split]. returned E. destruct v as [[h n] db3]. injection E as <- _ <- _. split; [exact Hc'|]. intros _. exact (Hs eq_refl).
Qed.

Lemma pass_loop_ends fuel : forall db t max first have next count, keys_ok db -> 0 <= count ->
  1000000 + numbered_all db * numbered_all db < 2 ^ 32 -> 1000000 < Z.of_nat fuel + count -> ends (pass_loop fails shutdown IsWitness fuel db t max first have next count).
Proof.
  induction fuel as [|fuel IH]; intros db t max first have next count Hk H0 Hm Hf; cbn [pass_loop].
  - rewrite (proj2 (Z.leb_le 1000000 count)) by lia. rewrite orb_true_r. apply ends_Ret.
  - destruct (shutdown (clock db) || negb have); cbn [orb]; [apply ends_Ret|]. destruct (Z.leb_spec 1000000 count); [apply ends_Ret|].
    apply ends_bind; [exact (MatchPass_ends _ _ _ _ _ _ Hk)|]. intros [[[h n] c] db1] E.
    pose proof (MatchPass_counts _ _ _ _ _ _ _ _ _ _ Hk H0 ltac:(lia) E) as [Hc Hs]. apply MatchPass_ids in E; [|exact Hk].
    destruct h; [destruct (Hs eq_refl) as [|Hs']; [discriminate|]|].
    + apply IH; [exact (keys_same _ _ E Hk) | lia | by rewrite (numbered_all_same _ _ E) | lia].
    + destruct fuel; cbn [pass_loop negb]; rewrite orb_true_r; apply ends_Ret.
Qed.

Lemma MatchReqs_ends db t max : keys_ok db -> numbered_all db <= 65000 -> ends (MatchReqs fails shutdown IsWitness db t max).
Proof.
  intros Hk Hn. assert (H0 : 0 <= numbered_all db) by (unfold numbered_all; lia). unfold MatchReqs. apply ends_bind.
  - apply pass_loop_ends; [exact Hk | lia | nia | lia].
  - intros [next db1] E. apply pass_loop_ids in E; [|exact Hk]. apply ends_bind; [|intros; apply ends_Ret].
    apply mining_loop_ends; [exact (keys_same _ _ E Hk)|]. pose proof (left_size (number_left 1) db1). lia.
Qed.

Lemma numbered_persistent db : table_ok db -> numbered_all db = xreq_count_persistent db.
Proof.
  intros [_ -> _ _]. unfold numbered_all, rows_left, count. do 2 f_equal. apply map_filter_ext. intros k x _.
  unfold persistent_row, numbered_row. cbn. rewrite negb_true_iff, Z.eqb_neq. reflexivity.
Qed.

(** C23. A round of the engine ends, whatever is in the table, whatever fails and whenever the node
    is shut down: its loops stop within their fuel, as long as no more than 65000 requests
    have a number, of which [PruneXreqs] leaves 1200.  And a round only computes: when it
    returns, every request is still there, with its terms, its numbers, its time, what is
    open of it and what it requires for that; none is added, and the table is sound. *)
Theorem MatchReqs_ends_and_keeps db t max : table_ok db -> xreq_count_persistent db <= 65000 ->
  MatchReqs fails shutdown IsWitness db t max <> Throw FuelOut
  /\ forall db', MatchReqs fails shutdown IsWitness db t max = Ret db' -> ids db' = ids db /\ table_ok db'.
Proof.
  intros Hok Hn. pose proof (table_keys _ Hok) as Hk. split.
  - apply MatchReqs_ends; [exact Hk|]. by rewrite numbered_persistent.
  - intros db' E. apply MatchReqs_ids in E; [|exact Hk]. split; [exact E | exact (table_ok_same _ _ E Hok)].
Qed.
End rounds.

(** ** Witness *)

#[local] Existing Instance amounts27.

Lemma MatchReqs_ends_and_keeps_witness : exists db db', demo_listed = Ret db /\ xreq_count_persistent db = 2
  /\ MatchReqs works works false db 2000 2 = Ret db' /\ ids db' = ids db /\ (pending_match_order <$> rows db' !! 102) = Some 1.
Proof.
  assert (E : exists db db', demo_listed = Ret db /\ xreq_count_persistent db = 2 /\ MatchReqs works works false db 2000 2 = Ret db'
    /\ table_ok db /\ (pending_match_order <$> rows db' !! 102) = Some 1).
  { eexists _, _. split; [vm_compute; reflexivity|]. split; [reflexivity|]. split; [vm_compute; reflexivity|].
    split; [apply (bool_decide_unpack _); vm_compute; exact I | reflexivity]. }
  destruct E as (db & db' & E1 & E2 & E3 & Hok & Hp). exists db, db'. split; [exact E1|]. split; [exact E2|]. split; [exact E3|]. split; [|exact Hp].
  assert (Hn : xreq_count_persistent db <= 65000) by (rewrite E2; lia).
  destruct (MatchReqs_ends_and_keeps works works false db 2000 2 Hok Hn) as [_ Hkeep]. exact (proj1 (Hkeep db' E3)).
Defined.
