(* ===== verification/Exchange.v ===== *)
(** * The exchange over blocks and restarts (src/source/ccnode/src/exchange.cpp, process-xreq.cpp, dbconn-persistent.cpp)

    The next numbers of requests and matches are saved with the level of a block, so that a
    node that starts again goes on with them; the time of the block of a request is found in
    the saved numbers by bisection.  A restarted node lists the open requests of the tables of
    matches again.  Once in an epoch the matches of the last round become permanent and
    the engine is started on the next. *)
From stdpp Require Import gmap.
From coqutil Require Import Datatypes.RecordSetters.
Import DoubleBraceUpdate.
From S2P Require Import Prelude Rows Bigint Block ZkHash Objects Txs UniFloat TxAmount Merkle Xmatch MatchTables Mining Settle Settlement XreqTable Matching XreqFlow Rounds.

Local Open Scope Z_scope.
Local Open Scope cc_scope.

(** ** The numbers *)

(** A row of [Exchange_Nums] without its level. *)
Record nums_row := mkNums {
  nr_timestamp : Z;
  nr_xreqnum : Z;
  nr_xmatchnum : Z
}.

Abbreviation nums_table := (gmap Z nums_row).

(** A level that is in the table already is a violated constraint. *)
Definition XcxNumsInsert (t : nums_table) (fault : bool) (level timestamp xreqnum xmatchnum : Z) : Z * nums_table :=
  if fault || bool_decide (is_Some (t !! level)) then (-1, t)
  else (0, <[level := mkNums timestamp xreqnum xmatchnum]> t).

(** "where Level <= ?1 order by Level desc limit 1" *)
Definition later_first (x y : Z * nums_row) : Prop := fst y <= fst x.
#[export] Instance later_first_dec : RelDecision later_first.
Proof. intros x y. unfold later_first. apply _. Defined.
#[export] Instance later_first_trans : Transitive later_first.
Proof. intros x y z. unfold later_first. lia. Qed.
#[export] Instance later_first_total : Total later_first.
Proof. intros x y. unfold later_first. lia. Qed.

(** The result, the level and the row; zeros when there is none. *)
Definition XcxNumsSelect (t : nums_table) (fault : bool) (max_level : Z) : Z * Z * nums_row :=
  if fault then (-1, 0, mkNums 0 0 0)
  else match select_rows later_first (fun row => fst row <= max_level) t with
       | [] => (1, 0, mkNums 0 0 0)
       | (level, r) :: _ => (0, level, r)
       end.

(** [Exchange]: the next numbers, and whether they are saved; and the table. *)
Record Exchange := mkExchange {
  m_next_xreqnum : Z;
  m_next_xmatchnum : Z;
  m_saved : bool;
  e_nums : nums_table
}.

Definition INT64_MAX : Z := 2 ^ 63 - 1.
Definition UINT64_MAX : Z := 2 ^ 64 - 1.

(** A failure is fatal: there is no state. *)
Definition Init (t : nums_table) (saved fault : bool) : option Exchange :=
  let '(rc, _, r) := XcxNumsSelect t fault INT64_MAX in
  if rc <? 0 then None
  else Some (mkExchange (if nr_xreqnum r =? 0 then 1 else nr_xreqnum r) (if nr_xmatchnum r =? 0 then 1 else nr_xmatchnum r) saved t).

Definition GetNextXreqnum (e : Exchange) (increment : bool) : Z * Exchange :=
  if negb increment then (m_next_xreqnum e, e)
  else (m_next_xreqnum e, mkExchange (u64 (m_next_xreqnum e + 1)) (m_next_xmatchnum e) false (e_nums e)).

Definition GetNextXmatchnum (e : Exchange) (increment : bool) : Z * Exchange :=
  if negb increment then (m_next_xmatchnum e, e)
  else (m_next_xmatchnum e, mkExchange (m_next_xreqnum e) (u64 (m_next_xmatchnum e + 1)) false (e_nums e)).

Definition SaveNextNums (e : Exchange) (fault : bool) (level timestamp : Z) : outcome (Z * Exchange) :=
  if m_saved e then Ret (0, e)
  else
    let e := mkExchange (m_next_xreqnum e) (m_next_xmatchnum e) true (e_nums e) in
    ccassert! negb (m_next_xreqnum e =? 0) in
    let '(rc, t) := XcxNumsInsert (e_nums e) fault level timestamp (m_next_xreqnum e) (m_next_xmatchnum e) in
    Ret (rc, mkExchange (m_next_xreqnum e) (m_next_xmatchnum e) true t).

(** *** The time of the block of a request *)

(** [shutdown k], [fault k]: what the [k]th turn finds.  The result is whether the fatal
    error is set, and the time. *)
Fixpoint blocktime_loop (fuel k : nat) (t : nums_table) (fault shutdown : nat -> bool) (xreqnum : Z)
    (lower_level lower_next upper_level upper_next blocktime : Z) (fatal : bool) : outcome (bool * Z) :=
  match fuel with
  | O => Throw FuelOut
  | S fuel =>
      if shutdown k then Ret (fatal, 0)
      else
        let search_level := (lower_level + upper_level) / 2 in
        ccassert! (lower_level <=? search_level) && (search_level <? upper_level) in
        ccassert! (lower_next <=? xreqnum) && (xreqnum <? upper_next) in
        if search_level =? lower_level then ccassert! negb (blocktime =? 0) in Ret (fatal, blocktime)
        else
          let '(rc, level, r) := XcxNumsSelect t (fault k) search_level in
          let fatal := fatal || (rc <? 0) in
          let next := if rc =? 0 then nr_xreqnum r else 0 in
          let '(lower_level, lower_next, upper_level, upper_next, blocktime) :=
            if next <=? xreqnum then (search_level, next, upper_level, upper_next, blocktime)
            else (lower_level, lower_next, level, next, nr_timestamp r) in
          if upper_level <=? lower_level then ccassert! negb (blocktime =? 0) in Ret (fatal, blocktime)
          else blocktime_loop fuel (S k) t fault shutdown xreqnum lower_level lower_next upper_level upper_next blocktime fatal
  end.

(** Every turn halves the levels that are left: 63 are enough for those below [INT64_MAX]. *)
Definition GetXreqBlockTime (t : nums_table) (fault shutdown : nat -> bool) (xreqnum : Z) : outcome (bool * Z) :=
  blocktime_loop 64 0 t fault shutdown xreqnum 0 0 INT64_MAX UINT64_MAX 0 false.

(** ** The numbers in the table grow with the level *)

Record nums_ok (t : nums_table) : Prop := {
  no_levels : forall l r, t !! l = Some r -> 0 < l < INT64_MAX;
  no_rows : forall l r, t !! l = Some r -> 0 < nr_xreqnum r < UINT64_MAX /\ 0 < nr_xmatchnum r < UINT64_MAX /\ nr_timestamp r <> 0;
  no_grow : forall l1 l2 r1 r2, t !! l1 = Some r1 -> t !! l2 = Some r2 -> l1 <= l2 -> nr_xreqnum r1 <= nr_xreqnum r2 /\ nr_xmatchnum r1 <= nr_xmatchnum r2
}.

(** What a select finds: the row of the greatest level up to the one asked for. *)
Lemma XcxNumsSelect_cases t max : let '(rc, level, r) := XcxNumsSelect t false max in
  rc = 0 /\ t !! level = Some r /\ level <= max /\ (forall l q, t !! l = Some q -> l <= max -> l <= level)
  \/ rc = 1 /\ r = mkNums 0 0 0 /\ forall l q, t !! l = Some q -> max < l.
Proof.
  unfold XcxNumsSelect. destruct (select_rows _ _ _) as [|[level r] rest] eqn:Es.
  - right. split; [reflexivity|]. split; [reflexivity|]. intros l q Hq. pose proof (select_rows_nil later_first _ t Es l q Hq) as Hn. cbn in Hn. lia.
  - left. destruct (select_rows_first later_first _ t level r rest Es) as (Hr & Hl & Hf). split; [reflexivity|]. split; [exact Hr|]. split; [exact Hl|].
    intros l q Hq Hle. exact (Hf l q Hq Hle).
Qed.

(** The block of a request: the first whose saved number is above it. *)
Definition block_of (t : nums_table) (xreqnum level : Z) (r : nums_row) : Prop :=
  t !! level = Some r /\ xreqnum < nr_xreqnum r /\ forall l q, t !! l = Some q -> xreqnum < nr_xreqnum q -> level <= l.

(** What the bounds of the search are. *)
Record search_ok (t : nums_table) (xreqnum lower lower_next upper upper_next blocktime : Z) : Prop := {
  so_range : 0 <= lower < upper;
  so_lower : forall l q, t !! l = Some q -> l <= lower -> nr_xreqnum q <= xreqnum;
  so_next : lower_next <= xreqnum < upper_next;
  so_upper : upper = INT64_MAX /\ blocktime = 0 \/ exists r, t !! upper = Some r /\ xreqnum < nr_xreqnum r /\ blocktime = nr_timestamp r
}.

Lemma blocktime_loop_finds t shutdown xreqnum level row fuel : nums_ok t -> 0 <= xreqnum -> block_of t xreqnum level row ->
  forall k lower lower_next upper upper_next blocktime, (forall k, shutdown k = false) ->
  search_ok t xreqnum lower lower_next upper upper_next blocktime -> upper - lower <= 2 ^ Z.of_nat fuel ->
  blocktime_loop (S fuel) k t (fun _ => false) shutdown xreqnum lower lower_next upper upper_next blocktime false = Ret (false, nr_timestamp row).
Proof.
  intros Hok Hx (Hrow & Hnum & Hleast).
  assert (Hdone : forall lower lower_next upper upper_next blocktime, search_ok t xreqnum lower lower_next upper upper_next blocktime -> upper <= lower + 1 ->
    blocktime = nr_timestamp row /\ (blocktime =? 0) = false).
  { intros lower ln upper un bt [S1 S2 S3 S4] Hw. destruct S4 as [[-> _]|(r & Hr & Hrn & ->)].
    - exfalso. pose proof (no_levels _ Hok _ _ Hrow). assert (level <= lower) by lia. pose proof (S2 _ _ Hrow H0). lia.
    - assert (level = upper) as -> by (pose proof (Hleast _ _ Hr Hrn); assert (~ level <= lower) by (intros Hl; pose proof (S2 _ _ Hrow Hl); lia); lia).
      rewrite Hrow in Hr. injection Hr as <-. split; [reflexivity|]. apply Z.eqb_neq. apply (no_rows _ Hok _ _ Hrow). }
  induction fuel as [|fuel IH]; intros k lower ln upper un bt Hs Hso Hw.
  all: cbn [blocktime_loop]; rewrite Hs; pose proof (so_range _ _ _ _ _ _ _ Hso) as Hr; pose proof (so_next _ _ _ _ _ _ _ Hso) as Hn.
  all: assert (Hsearch : lower <= (lower + upper) / 2 < upper) by (split; [apply Z.div_le_lower_bound; lia | apply Z.div_lt_upper_bound; lia]).
  all: rewrite (proj2 (Z.leb_le _ _) (proj1 Hsearch)), (proj2 (Z.ltb_lt _ _) (proj2 Hsearch)), (proj2 (Z.leb_le _ _) (proj1 Hn)), (proj2 (Z.ltb_lt _ _) (proj2 Hn)); cbn [andb].
  all: destruct (Z.eqb_spec ((lower + upper) / 2) lower) as [He|He].
  1, 3: destruct (Hdone _ _ _ _ _ Hso) as [-> Hz]; [|by rewrite Hz].
  all: pose proof (Z.div_mod (lower + upper) 2 ltac:(lia)); pose proof (Z.mod_pos_bound (lower + upper) 2 ltac:(lia)).
  1, 2: lia.
  { change (2 ^ Z.of_nat 0) with 1 in Hw. lia. }
  assert (Hpow : 2 ^ Z.of_nat (S fuel) = 2 * 2 ^ Z.of_nat fuel) by (rewrite Nat2Z.inj_succ, Z.pow_succ_r; lia).
  pose proof (XcxNumsSelect_cases t ((lower + upper) / 2)) as Hsel. set (search := (lower + upper) / 2) in *.
  destruct (XcxNumsSelect t false search) as [[rc lev] r]. destruct Hso as [S1 S2 S3 S4].
  assert (Hup : forall next, next <= xreqnum -> (forall l q, t !! l = Some q -> l <= search -> nr_xreqnum q <= xreqnum) -> search_ok t xreqnum search next upper un bt).
  { intros next Hnx Hl. split; [lia | exact Hl | lia | exact S4]. }
  destruct Hsel as [(-> & Hlev & Hle & Hmax)|(-> & -> & Hnone)]; cbn [Z.eqb Z.ltb Z.compare orb].
  - change (0 <? 0) with false. destruct (Z.leb_spec (nr_xreqnum r) xreqnum) as [Hx1|Hx1].
    + rewrite (proj2 (Z.leb_gt _ _)) by lia. apply IH; [exact Hs | | lia]. apply Hup; [lia|].
      intros l q Hq Hl. pose proof (no_grow _ Hok l lev q r Hq Hlev (Hmax l q Hq Hl)). lia.
    + assert (lower < lev) by (assert (~ lev <= lower) by (intros Hc; pose proof (S2 _ _ Hlev Hc); lia); lia).
      rewrite (proj2 (Z.leb_gt _ _)) by lia. apply IH; [exact Hs | | lia]. split; [lia | exact S2 | lia | right; exists r; auto].
  - change (1 =? 0) with false. change (1 <? 0) with false. rewrite (proj2 (Z.leb_le 0 xreqnum)) by lia. rewrite (proj2 (Z.leb_gt _ _)) by lia.
    apply IH; [exact Hs | | lia]. apply Hup; [lia|]. intros l q Hq Hl. pose proof (Hnone l q Hq). lia.
Qed.

(** C27. The bisection finds the time of the block that a request is in, the first whose saved
    number is above that of the request, in at most 64 turns, and no assertion fails. *)
Theorem GetXreqBlockTime_block t shutdown xreqnum level row : nums_ok t -> 0 <= xreqnum < UINT64_MAX -> (forall k, shutdown k = false) ->
  block_of t xreqnum level row -> GetXreqBlockTime t (fun _ => false) shutdown xreqnum = Ret (false, nr_timestamp row).
Proof.
  intros Hok Hx Hs Hb. apply (blocktime_loop_finds t shutdown xreqnum level row 63 Hok ltac:(lia) Hb 0 0 0 INT64_MAX UINT64_MAX 0 Hs); [|vm_compute; discriminate].
  split; [unfold INT64_MAX; lia | | lia | by left].
  intros l q Hq Hl. pose proof (no_levels _ Hok _ _ Hq). lia.
Qed.

(** *** Blocks *)

(** What happens to the numbers, with those that requests and matches have, the last first:
    [given] in the tables as they are, [saved] in the tables as they were when the numbers
    were saved last.  A request or a match takes the next number.  A block saves them: they are
    written in the transaction of the database that writes its rows.  A node that starts
    again finds the tables of that transaction: what was given later is not in them. *)
Inductive nums_run : Exchange -> list Z * list Z -> list Z * list Z -> Prop :=
| run_first : nums_run (mkExchange 1 1 true ∅) ([], []) ([], [])
| run_xreq e given saved num e' : nums_run e given saved -> m_next_xreqnum e + 1 < UINT64_MAX ->
    GetNextXreqnum e true = (num, e') -> nums_run e' (num :: fst given, snd given) saved
| run_xmatch e given saved num e' : nums_run e given saved -> m_next_xmatchnum e + 1 < UINT64_MAX ->
    GetNextXmatchnum e true = (num, e') -> nums_run e' (fst given, num :: snd given) saved
| run_save e given saved fault level timestamp e' : nums_run e given saved ->
    (forall l r, e_nums e !! l = Some r -> l < level) -> 0 < level < INT64_MAX -> timestamp <> 0 ->
    SaveNextNums e fault level timestamp = Ret (0, e') -> nums_run e' given given
| run_restart e given saved e' : nums_run e given saved -> Init (e_nums e) true false = Some e' -> nums_run e' saved saved.

(** The saved numbers are those of the last level, and those before it are not above. *)
Record exchange_ok (e : Exchange) : Prop := {
  eo_table : nums_ok (e_nums e);
  eo_range : 0 < m_next_xreqnum e < UINT64_MAX /\ 0 < m_next_xmatchnum e < UINT64_MAX;
  eo_below : forall l r, e_nums e !! l = Some r -> nr_xreqnum r <= m_next_xreqnum e /\ nr_xmatchnum r <= m_next_xmatchnum e;
  eo_saved : m_saved e = true -> Init (e_nums e) true false = Some e
}.

Lemma Init_last t level row saved : nums_ok t -> t !! level = Some row -> (forall l r, t !! l = Some r -> l <= level) ->
  Init t saved false = Some (mkExchange (nr_xreqnum row) (nr_xmatchnum row) saved t).
Proof.
  intros Hok Hrow Hlast. unfold Init. pose proof (XcxNumsSelect_cases t INT64_MAX) as Hsel. destruct (XcxNumsSelect t false INT64_MAX) as [[rc lev] r].
  pose proof (no_levels _ Hok _ _ Hrow). pose proof (no_rows _ Hok _ _ Hrow) as (H1 & H2 & _).
  destruct Hsel as [(-> & Hlev & Hle & Hmax)|(_ & _ & Hnone)]; [|pose proof (Hnone _ _ Hrow); lia].
  assert (lev = level) as -> by (pose proof (Hmax _ _ Hrow ltac:(lia)); pose proof (Hlast _ _ Hlev); lia). rewrite Hrow in Hlev. injection Hlev as <-.
  change (0 <? 0) with false. rewrite (proj2 (Z.eqb_neq _ _)) by lia. rewrite (proj2 (Z.eqb_neq (nr_xmatchnum row) _)) by lia. reflexivity.
Qed.

Lemma take_xreqnum_ok e num e' : exchange_ok e -> m_next_xreqnum e + 1 < UINT64_MAX -> GetNextXreqnum e true = (num, e') ->
  exchange_ok e' /\ num = m_next_xreqnum e /\ m_next_xreqnum e' = m_next_xreqnum e + 1 /\ m_next_xmatchnum e' = m_next_xmatchnum e /\ e_nums e' = e_nums e.
Proof.
  intros [E1 [E2 E2'] E3 E4] Hm [= <- <-]. rewrite u64_small by (unfold UINT64_MAX in *; lia). split; [|auto]. split; cbn; [exact E1 | lia | | discriminate].
  intros l r Hr. pose proof (E3 l r Hr). lia.
Qed.

Lemma take_xmatchnum_ok e num e' : exchange_ok e -> m_next_xmatchnum e + 1 < UINT64_MAX -> GetNextXmatchnum e true = (num, e') ->
  exchange_ok e' /\ num = m_next_xmatchnum e /\ m_next_xmatchnum e' = m_next_xmatchnum e + 1 /\ m_next_xreqnum e' = m_next_xreqnum e /\ e_nums e' = e_nums e.
Proof.
  intros [E1 [E2 E2'] E3 E4] Hm [= <- <-]. rewrite u64_small by (unfold UINT64_MAX in *; lia). split; [|auto]. split; cbn; [exact E1 | lia | | discriminate].
  intros l r Hr. pose proof (E3 l r Hr). lia.
Qed.

Lemma save_nums_ok e fault level ts e' : exchange_ok e -> (forall l r, e_nums e !! l = Some r -> l < level) -> 0 < level < INT64_MAX -> ts <> 0 ->
  SaveNextNums e fault level ts = Ret (0, e') -> exchange_ok e' /\ m_next_xreqnum e' = m_next_xreqnum e /\ m_next_xmatchnum e' = m_next_xmatchnum e /\ m_saved e' = true.
Proof.
  intros [E1 [E2 E2'] E3 E4] Hlast Hlevel Hts Hsave.
  revert Hsave. unfold SaveNextNums. destruct (m_saved e) eqn:Es; [intros [= <-]; split; [split|]; auto|]. cbn [m_next_xreqnum].
  rewrite (proj2 (Z.eqb_neq _ _)) by lia. cbn [negb]. unfold XcxNumsInsert. cbn [e_nums m_next_xmatchnum]. destruct (fault || _) eqn:Ef; [discriminate|].
  intros [= <-]. split; [|auto]. apply orb_false_iff in Ef as [_ Ef]. apply bool_decide_eq_false, eq_None_not_Some in Ef.
  set (row := mkNums ts (m_next_xreqnum e) (m_next_xmatchnum e)).
  assert (Hok : nums_ok (<[level := row]> (e_nums e))).
  { split.
    - intros l r Hr. apply lookup_insert_Some in Hr as [[<- _]|[_ Hr]]; [exact Hlevel | exact (no_levels _ E1 _ _ Hr)].
    - intros l r Hr. apply lookup_insert_Some in Hr as [[<- <-]|[_ Hr]]; [cbn; auto | exact (no_rows _ E1 _ _ Hr)].
    - intros l1 l2 r1 r2 Hr1 Hr2 Hl. apply lookup_insert_Some in Hr1 as [[<- <-]|[_ Hr1]]; apply lookup_insert_Some in Hr2 as [[<- <-]|[_ Hr2]].
      + lia.
      + pose proof (Hlast _ _ Hr2). lia.
      + exact (E3 _ _ Hr1).
      + exact (no_grow _ E1 _ _ _ _ Hr1 Hr2 Hl). }
  split; cbn; [exact Hok | lia | |].
  - intros l r Hr. apply lookup_insert_Some in Hr as [[<- <-]|[_ Hr]]; [cbn; lia | exact (E3 _ _ Hr)].
  - intros _. rewrite (Init_last _ level row true Hok); [reflexivity | apply lookup_insert_eq|].
    intros l r Hr. apply lookup_insert_Some in Hr as [[<- _]|[_ Hr]]; [lia|]. pose proof (Hlast _ _ Hr). lia.
Qed.

Lemma empty_nums_ok : nums_ok ∅.
Proof.
  split; [intros l r Hr | intros l r Hr | intros l1 l2 r1 r2 Hr]; by rewrite lookup_empty in Hr.
Qed.

(** The numbers that were given are those below the next ones. *)
Definition consecutive (e : Exchange) (given : list Z * list Z) : Prop :=
  fst given = reverse (seqZ 1 (m_next_xreqnum e - 1)) /\ snd given = reverse (seqZ 1 (m_next_xmatchnum e - 1)).

Lemma seqZ_next n : 0 < n -> n :: reverse (seqZ 1 (n - 1)) = reverse (seqZ 1 (n + 1 - 1)).
Proof.
  intros Hn. replace (n + 1 - 1) with (n - 1 + 1) by lia. rewrite seqZ_app by lia. replace (1 + (n - 1)) with n by lia. cbn. by rewrite reverse_app.
Qed.

Lemma nums_run_ok e given saved : nums_run e given saved -> exchange_ok e /\ consecutive e given
  /\ (m_saved e = true -> saved = given) /\ exists e0, Init (e_nums e) true false = Some e0 /\ exchange_ok e0 /\ consecutive e0 saved.
Proof.
  induction 1 as [|e g s num e' _ (I1 & [I2 I2'] & _ & I4) Hm Hn|e g s num e' _ (I1 & [I2 I2'] & _ & I4) Hm Hn|e g s fault level ts e' _ (I1 & I2 & _) Hl Hlev Hts Hs|e g s e' _ (_ & _ & _ & e0 & I3 & I4 & I5) Hi].
  - assert (Hok : exchange_ok (mkExchange 1 1 true ∅)).
    { split; [exact empty_nums_ok | cbn; unfold UINT64_MAX; lia | intros l r Hl; cbn [e_nums] in Hl; by rewrite lookup_empty in Hl | reflexivity]. }
    split; [exact Hok|]. split; [by split|]. split; [done|]. exists (mkExchange 1 1 true ∅). split; [reflexivity|]. split; [exact Hok | by split].
  - assert (Hsv : m_saved e' = false) by (injection Hn as _ <-; reflexivity). destruct (take_xreqnum_ok _ _ _ I1 Hm Hn) as (H1 & -> & H3 & H4 & H5).
    split; [exact H1|]. split; [split; cbn [fst snd]; [rewrite I2, H3; apply seqZ_next; exact (proj1 (proj1 (eo_range _ I1))) | by rewrite I2', H4]|].
    split; [congruence | by rewrite H5].
  - assert (Hsv : m_saved e' = false) by (injection Hn as _ <-; reflexivity). destruct (take_xmatchnum_ok _ _ _ I1 Hm Hn) as (H1 & -> & H3 & H4 & H5).
    split; [exact H1|]. split; [split; cbn [fst snd]; [by rewrite I2, H4 | rewrite I2', H3; apply seqZ_next; exact (proj1 (proj2 (eo_range _ I1)))]|].
    split; [congruence | by rewrite H5].
  - destruct (save_nums_ok _ _ _ _ _ I1 Hl Hlev Hts Hs) as (H1 & H2 & H3 & H4). assert (Hc : consecutive e' g) by (unfold consecutive in *; by rewrite H2, H3).
    split; [exact H1|]. split; [exact Hc|]. split; [done|]. exists e'. split; [exact (eo_saved _ H1 H4)|]. split; [exact H1 | exact Hc].
  - rewrite I3 in Hi. injection Hi as <-. split; [exact I4|]. split; [exact I5|]. split; [done|]. exists e0.
    assert (Hsv : m_saved e0 = true) by (revert I3; unfold Init; destruct (XcxNumsSelect _ _ _) as [[rc l] r]; destruct (_ <? _); [discriminate|]; by intros [= <-]).
    split; [exact (eo_saved _ I4 Hsv)|]. split; [exact I4 | exact I5].
Qed.

(** C29. No number is given to two requests or to two matches, over restarts too: whenever blocks
    save the numbers and whenever the node starts again, the requests in the tables have
    the numbers from 1 to the one before the next, each once, and so have the matches.  When
    the numbers are saved, a node that starts again goes on with exactly those that come next;
    and the numbers in the table never go down with the level and never exceed the next ones. *)
Theorem numbers_survive_restart e given saved : nums_run e given saved ->
  (NoDup (fst given) /\ forall n, n ∈ fst given <-> 0 < n < m_next_xreqnum e)
  /\ (NoDup (snd given) /\ forall n, n ∈ snd given <-> 0 < n < m_next_xmatchnum e)
  /\ exchange_ok e /\ (m_saved e = true -> saved = given /\ Init (e_nums e) true false = Some e).
Proof.
  intros (Hok & [-> ->] & Hs & _)%nums_run_ok.
  assert (Hseq : forall k, NoDup (reverse (seqZ 1 k)) /\ forall n, n ∈ reverse (seqZ 1 k) <-> 0 < n < k + 1).
  { intros k. split; [rewrite reverse_Permutation; apply NoDup_seqZ|]. intros n. rewrite reverse_Permutation, elem_of_seqZ. lia. }
  destruct (Hseq (m_next_xreqnum e - 1)) as [N1 M1], (Hseq (m_next_xmatchnum e - 1)) as [N2 M2]. rewrite !Z.sub_add in M1, M2.
  split; [by split|]. split; [by split|]. split; [exact Hok|]. intros Hsv. split; [exact (Hs Hsv) | exact (eo_saved _ Hok Hsv)].
Qed.

(** Two requests in the block of level 7 and one in that of level 9. *)
Definition demo_exchange : Exchange := mkExchange 4 1 true {[7 := mkNums 1000 3 1; 9 := mkNums 1020 4 1]}.

(** A third request of the first block and a match are lost when the node stops before they are saved. *)
Lemma demo_exchange_run : nums_run demo_exchange ([3; 2; 1], []) ([3; 2; 1], []).
Proof.
  assert (R1 : nums_run (mkExchange 3 1 true {[7 := mkNums 1000 3 1]}) ([2; 1], []) ([2; 1], [])).
  { refine (run_save (mkExchange 3 1 false ∅) ([2; 1], []) ([], []) false 7 1000 _ _ _ _ _ _);
      [|intros l r Hr; cbn in Hr; by rewrite lookup_empty in Hr | split; reflexivity | discriminate | reflexivity].
    refine (run_xreq (mkExchange 2 1 false ∅) ([1], []) ([], []) 2 _ _ _ _); [|reflexivity | reflexivity].
    refine (run_xreq (mkExchange 1 1 true ∅) ([], []) ([], []) 1 _ run_first _ _); reflexivity. }
  assert (R2 : nums_run (mkExchange 3 1 true {[7 := mkNums 1000 3 1]}) ([2; 1], []) ([2; 1], [])).
  { refine (run_restart (mkExchange 4 2 false {[7 := mkNums 1000 3 1]}) ([3; 2; 1], [1]) _ _ _ _); [|reflexivity].
    refine (run_xmatch (mkExchange 4 1 false {[7 := mkNums 1000 3 1]}) ([3; 2; 1], []) _ 1 _ _ _ _); [|reflexivity | reflexivity].
    refine (run_xreq _ ([2; 1], []) _ 3 _ R1 _ _); reflexivity. }
  refine (run_save (mkExchange 4 1 false {[7 := mkNums 1000 3 1]}) ([3; 2; 1], []) _ false 9 1020 _ _ _ _ _ _); [| |split; reflexivity | discriminate | reflexivity].
  - refine (run_xreq _ ([2; 1], []) _ 3 _ R2 _ _); reflexivity.
  - intros l r Hr. cbn in Hr. apply lookup_singleton_Some in Hr as [<- _]. reflexivity.
Qed.

Lemma numbers_survive_restart_witness : NoDup [3; 2; 1] /\ Init (e_nums demo_exchange) true false = Some demo_exchange.
Proof.
  destruct (numbers_survive_restart demo_exchange _ _ demo_exchange_run) as ([Hn _] & _ & _ & Hs). split; [exact Hn | exact (proj2 (Hs eq_refl))].
Defined.

Lemma GetXreqBlockTime_block_witness : GetXreqBlockTime (e_nums demo_exchange) (fun _ => false) works 3 = Ret (false, 1020).
Proof.
  apply (GetXreqBlockTime_block (e_nums demo_exchange) works 3 9 (mkNums 1020 4 1)).
  - split.
    + intros l r Hr. cbn in Hr. apply lookup_insert_Some in Hr as [[<- _]|[_ Hr]]; [split; reflexivity|]. apply lookup_singleton_Some in Hr as [<- _]. split; reflexivity.
    + intros l r Hr. cbn in Hr. apply lookup_insert_Some in Hr as [[_ <-]|[_ Hr]]; [|apply lookup_singleton_Some in Hr as [_ <-]]; (split; [split; reflexivity|split; [split; reflexivity | discriminate]]).
    + intros l1 l2 r1 r2 Hr1 Hr2 Hl. cbn in Hr1, Hr2. apply lookup_insert_Some in Hr1 as [[<- <-]|[_ Hr1]]; [|apply lookup_singleton_Some in Hr1 as [<- <-]];
      (apply lookup_insert_Some in Hr2 as [[<- <-]|[_ Hr2]]; [|apply lookup_singleton_Some in Hr2 as [<- <-]]); cbn; lia.
  - split; [discriminate | reflexivity].
  - reflexivity.
  - split; [reflexivity|]. split; [reflexivity|]. intros l q Hq Hn. cbn in Hq. apply lookup_insert_Some in Hq as [[<- <-]|[_ Hq]]; [cbn in Hn; lia|].
    apply lookup_singleton_Some in Hq as [<- _]. lia.
Defined.

(** ** A node that starts again *)

Section restore.
Context `{ChainParams} `{AmtFloat}.

(** The request of a row of the tables of matches. *)
Definition restored (q : Xmatchreq) (blocktime seqnum link : Z) : outcome Request :=
  let x := (new_request (q_terms q)){{x_blocktime := blocktime; x_xreqnum := q_xreqnum q; x_open_amount := q_open_amount q}} in
  let! rate := RateRequired x (x_open_amount x) in
  Ret x{{open_rate_required := rate; recalc_time := XREQ_RECALC_NEXT; x_seqnum := seqnum; linked_seqnum := link}}.

(** The link of a request of a pair, and the number that the seller of the pair is expected to have. *)
Definition restored_link (q : Xmatchreq) (seqnum expected : Z) : Z * Z :=
  let type := t_type (q_terms q) in
  let link := if (type =? CC_TYPE_XCX_MINING_SELL) && (q_xreqnum q =? expected) then seqnum - 1 else 0 in
  if type =? CC_TYPE_XCX_MINING_BUY then (seqnum + 1, u64 (q_xreqnum q + 1)) else (link, expected).

(** What may fail in the [k]th turn: its select, those of the bisection, and whether the node
    shuts down before it or in the bisection. *)
Record restore_env := mkRestoreEnv {
  re_select : nat -> bool;
  re_nums : nat -> nat -> bool;
  re_shutdown : nat -> bool;
  re_nums_shutdown : nat -> nat -> bool;
  re_xreqs : nat -> bool
}.

(** [seqnum] is what [NextNum] gives next.  The result is whether the fatal error is set, and the table. *)
Fixpoint restore_loop (fuel k : nat) (env : restore_env) (m : match_db) (nums : nums_table) (next_num : Z)
    (db : Xdb) (seqnum next_xreqnum expected : Z) : outcome (bool * Xdb) :=
  if re_shutdown env k then Ret (false, db)
  else
    match fuel with
    | O => Throw FuelOut
    | S f =>
        let! r := XmatchreqSelectMatching field_prime m (re_select env k) next_xreqnum true in
        match r with
        | (rc, None) => Ret (rc <? 0, db)
        | (_, Some q) =>
            ccassert! q_xreqnum q <? next_num in
            let next_xreqnum := u64 (q_xreqnum q + 1) in
            ccassert! have_matching q in
            if IsClosed q || (q_open_amount q =? 0) then restore_loop f (S k) env m nums next_num db seqnum next_xreqnum expected
            else
              let! b := GetXreqBlockTime nums (re_nums env k) (re_nums_shutdown env k) (q_xreqnum q) in
              let '(link, expected) := restored_link q seqnum expected in
              let! x := restored q (snd b) seqnum link in
              let! r := XreqsInsert (re_xreqs env) db x 0 in
              let '(rc, _, db) := r in
              if negb (rc =? 0) || fst b then Ret (true, db)
              else restore_loop f (S k) env m nums next_num db (seqnum + 1) next_xreqnum expected
        end
    end.

(** Every turn reads a row with a higher number. *)
Definition Restore (env : restore_env) (m : match_db) (nums : nums_table) (next_num : Z) (db : Xdb) (seqnum : Z) : outcome (bool * Xdb) :=
  restore_loop (S (size (t_matching m))) 0 env m nums next_num db seqnum 0 0.
End restore.

(** ** Once in an epoch *)

Definition MATCHING_STATE_IDLE : Z := 0.
Definition MATCHING_STATE_START : Z := 1.

(** [ProcessXreqs], with the node and the parameter that keeps the largest number of the round. *)
Record rounds (D : Type) := mkRounds {
  r_node : node D;
  m_matching_state : Z;
  m_last_matching_epoch : Z;
  m_matching_block_time : Z;
  m_matching_max_xreqnum : Z;
  m_last_matched_block_time : Z;
  r_param : Z
}.
Arguments mkRounds {D} _ _ _ _ _ _ _.
Arguments r_node {D} _.
Arguments m_matching_state {D} _.
Arguments m_last_matching_epoch {D} _.
Arguments m_matching_block_time {D} _.
Arguments m_matching_max_xreqnum {D} _.
Arguments m_last_matched_block_time {D} _.
Arguments r_param {D} _.

Section rounds.
Context {D : Type} `{CommitDb D} `{TxOutputDb D} `{OutputHashes} `{ChainParams} `{AmtFloat}.
Variables fails shutdown : nat -> bool.
Variable IsWitness : bool.

(** [ProcessXreqs::Init]; [param] is the parameter, 0 when there is none. *)
Definition ProcessXreqs_Init (n : node D) (fault : bool) (block_time param : Z) : Z * rounds D :=
  let epoch := block_time / XCX_MATCHING_SECS_PER_EPOCH in
  let r := mkRounds n MATCHING_STATE_IDLE epoch (epoch * XCX_MATCHING_SECS_PER_EPOCH) 0 0 param in
  if fault then (-1, r)
  else (0, r{{m_matching_max_xreqnum := param; m_matching_state := MATCHING_STATE_START}}).

(** A round of [MatchingThread]. *)
Definition MatchingThread_turn (r : rounds D) : outcome (rounds D) :=
  if negb (m_matching_state r =? MATCHING_STATE_START) then Ret r
  else
    let! db := MatchReqs fails shutdown IsWitness (n_xdb (r_node r)) (m_matching_block_time r) (m_matching_max_xreqnum r) in
    Ret r{{r_node := with_xdb (r_node r) db; m_matching_state := MATCHING_STATE_IDLE}}.

(** What the main thread does when the round is done, and what may fail in it. *)
Record sync_faults := mkSyncFaults {
  sf_make : nat -> nat -> bool;
  sf_expire : nat -> bool;
  sf_prune : bool -> nat -> bool * bool;
  sf_param : bool
}.

(** The steps of [SynchronizeMatching] from the end of a round to the start of the next. *)
Definition next_round (r : rounds D) (f : sync_faults) (epoch new_xreqnum : Z) : outcome (Z * rounds D) :=
  let! p := MakeMatchesPersistent fails shutdown (r_node r) (sf_make f) (m_matching_block_time r) in
  let '(rc, n) := p in
  let r := r{{r_node := n}} in
  if negb (rc =? 0) then Ret (rc, r)
  else
    let! g := UpdateMiningTime (w_mining (n_world n)) (m_matching_block_time r) in
    let n := with_world n (with_mining (n_world n) (snd g)) in
    let time := epoch * XCX_MATCHING_SECS_PER_EPOCH in
    let r := r{{r_node := n; m_last_matched_block_time := m_matching_block_time r; m_matching_block_time := time}} in
    let! p := ExpireXreqs fails shutdown n (sf_expire f) time in
    let '(rc, n) := p in
    let r := r{{r_node := n}} in
    if negb (rc =? 0) then Ret (rc, r)
    else
      let! p := PruneXreqs fails shutdown n (sf_prune f) new_xreqnum in
      let '(rc, n) := p in
      let r := r{{r_node := n}} in
      if negb (rc =? 0) then Ret (rc, r)
      else
        ccassert! negb (next_xreqnum n =? 0) in
        let r := r{{m_matching_max_xreqnum := next_xreqnum n - 1}} in
        if sf_param f then Ret (-1, r)
        else Ret (0, r{{r_param := m_matching_max_xreqnum r; m_matching_state := MATCHING_STATE_START}}).

(** The wait for the end of the round is the round itself; requests that are listed meanwhile
    have higher numbers than it looks at. *)
Definition SynchronizeMatching (r : rounds D) (f : sync_faults) (block_time new_xreqnum : Z) : outcome (Z * rounds D) :=
  if m_matching_state r <? 0 then Ret (0, r)
  else
    let epoch := block_time / XCX_MATCHING_SECS_PER_EPOCH in
    if epoch =? m_last_matching_epoch r then ccassert! negb (next_xreqnum (r_node r) =? 0) in Ret (0, r)
    else
      let! r := MatchingThread_turn r{{m_last_matching_epoch := epoch}} in
      next_round r f epoch new_xreqnum.
End rounds.

(** *** What a round ends with *)

Section sync.
Context {D : Type} `{CommitDb D} `{TxOutputDb D} `{OutputHashes} `{ChainParams} `{AmtFloat}.
Variables fails shutdown : nat -> bool.
Variable IsWitness : bool.
Hypothesis prime_large : 2 ^ 253 < field_prime.
Hypothesis min_exp : 0 <= outvalmin.
Hypothesis max_exp : 0 <= outvalmax.

Definition table (r : rounds D) : Xdb := n_xdb (r_node r).

(** The round is done: the engine ran on the table, if it was to, and changed nothing else. *)
Definition round_done (r : rounds D) (n : node D) : Prop :=
  n_world n = n_world (r_node r) /\ next_xmatchnum n = next_xmatchnum (r_node r)
  /\ if m_matching_state r =? MATCHING_STATE_START
     then MatchReqs fails shutdown IsWitness (table r) (m_matching_block_time r) (m_matching_max_xreqnum r) = Ret (n_xdb n)
     else n_xdb n = table r.

(** Nothing was done to the table of matches and the number of the next. *)
Definition same_matches (n n' : node D) : Prop :=
  t_matches (w_matches (n_world n')) = t_matches (w_matches (n_world n)) /\ next_xmatchnum n' = next_xmatchnum n.

(** How the next round starts, at the time of its epoch, when the matches that the round
    before found are permanent. *)
Record started (r : rounds D) (epoch : Z) (r' : rounds D) : Prop := {
  rs_state : m_matching_state r' = MATCHING_STATE_START;
  rs_epoch : m_last_matching_epoch r' = epoch /\ m_matching_block_time r' = epoch * XCX_MATCHING_SECS_PER_EPOCH;
  rs_last : m_last_matched_block_time r' = m_matching_block_time r;
  rs_numbers : m_matching_max_xreqnum r' = next_xreqnum (r_node r') - 1 /\ r_param r' = m_matching_max_xreqnum r';
  rs_matches : (forall k, shutdown k = false) -> no_trades (table r) ->
    (exists n ms n1, round_done r n /\ persisted (m_matching_block_time r) n ms n1 /\ same_matches n1 (r_node r'))
    /\ forall k x, rows (table r') !! k = Some x -> is_pending (rows (table r')) x = false;
  rs_limits : (forall k, shutdown k = false) -> within_limits (table r')
    /\ forall k x, rows (table r') !! k = Some x -> m_matching_block_time r' < t_expire_time (x_terms x)
}.

Lemma same_matches_trans n1 n2 n3 : same_matches n1 n2 -> same_matches n2 n3 -> same_matches n1 n3.
Proof. intros [A1 A2] [B1 B2]. split; congruence. Qed.

Lemma same_matches_refl n : same_matches n n.
Proof. by split. Qed.

(** Outputs, and requests that expire or are pruned, do nothing to matches. *)
Lemma output_loop_frame fuel : forall (w : world D) total a dest dom pn mn mx b ne one rc rest w',
  output_loop fuel w total a dest dom pn mn mx b ne one = Ret (rc, rest, w') -> w_matches w' = w_matches w.
Proof.
  induction fuel as [|fuel IH]; intros w total a dest dom pn mn mx b ne one rc rest w' E; cbn [output_loop] in E; (destruct (_ || _); [by injection E as _ _ <-|]); [discriminate|].
  cbv zeta in E. destruct (_ =? 0); [by injection E as _ _ <-|]. destruct (create_output w _) as [r1 w1] eqn:Ec. apply create_output_frame in Ec as [F _].
  destruct r1; [by injection E as _ _ <-|]. returned E. destruct one; [by injection E as _ _ <-|]. apply IH in E. congruence.
Qed.

Lemma ExpireXreq_matches (n : node D) fault x rc n' : ExpireXreq fails n fault x = Ret (rc, n') -> same_matches n n'.
Proof.
  intros E. unfold ExpireXreq in E. returned E. cbv zeta in E. destruct (negb _); [by injection E as _ <-|]. destruct (_ && _); [|by injection E as _ <-].
  destruct (XmatchreqUpdate _ _ _ _) as [rc1 m] eqn:Em.
  assert (Hm : t_matches m = t_matches (w_matches (n_world n))).
  { unfold XmatchreqUpdate in Em. destruct fault; [injection Em as _ <-; reflexivity|]. destruct (x_xreqnum x =? 0); injection Em as _ <-; reflexivity. }
  destruct (negb _); [by injection E as _ <-|]. destruct (negb _); [|by injection E as _ <-]. returned E. destruct v0 as [[b rest] w']. injection E as _ <-.
  unfold CreateTxOutputs in E1. returned E1. apply output_loop_frame in E1. split; [|reflexivity]. change (t_matches (w_matches w') = t_matches (w_matches (n_world n))).
  rewrite E1. exact Hm.
Qed.

Lemma expire_xreqs_loop_matches faults t fuel : forall (n : node D) rc n', expire_xreqs_loop fails shutdown fuel n faults t = Ret (rc, n') -> same_matches n n'.
Proof.
  induction fuel as [|fuel IH]; intros n rc n' E; cbn [expire_xreqs_loop] in E; (destruct (shutdown _); [by injection E as _ <-|]); [discriminate|].
  destruct (XreqsSelectExpire _ _ _) as [v0 db]. destruct v0 as [x| |]; [|by injection E as _ <-..]. returned E. returned E. destruct v as [rc1 n1]. cbn [fst snd] in E.
  apply ExpireXreq_matches in E0. destruct (rc1 =? 0); [|by injection E as _ <-]. exact (same_matches_trans _ _ _ E0 (IH _ _ _ E)).
Qed.

Lemma close_linked_matches (n : node D) faults next x v n' : close_linked fails n faults next x = Ret (v, n') -> same_matches n n'.
Proof.
  intros E. unfold close_linked in E. returned E. destruct v0 as [rc1 n1]. cbn [fst snd] in E. apply ExpireXreq_matches in E0.
  destruct (negb _); [by injection E as _ <-|]. destruct (_ =? 0); [by injection E as _ <-|].
  destruct (XreqsSelectSeqnum _ _ _ _) as [[y| |] db]; [|by injection E as _ <-..]. returned E. destruct v0 as [rc2 n2]. injection E as _ <-.
  exact (same_matches_trans _ _ _ E0 (ExpireXreq_matches _ _ _ _ _ E1)).
Qed.

Lemma prune_loop_matches faults first new fuel : forall (n : node D) next rc n', prune_loop fails shutdown fuel n faults first next new = Ret (rc, n') -> same_matches n n'.
Proof.
  induction fuel as [|fuel IH]; intros n next rc n' E; cbn [prune_loop] in E; (destruct (shutdown _); [by injection E as _ <-|]); [discriminate|].
  returned E. destruct v as [v n1].
  assert (Hf : same_matches n n1).
  { clear E IH. unfold PruneTurn in E0. cbv zeta in E0. destruct (_ && _); [by injection E0 as _ <-|]. destruct (XreqsSelectXreqnum _ _ _ _) as [[x| |] db]; [|by injection E0 as _ <-..].
    returned E0. destruct (_ && _ && _); [by injection E0 as _ <-|]. destruct (_ && _ && _); [by injection E0 as _ <-|]. exact (close_linked_matches (with_xdb n db) _ _ _ _ _ E0). }
  destruct v; [exact (same_matches_trans _ _ _ Hf (IH _ _ _ _ E)) | by injection E as _ <- ..].
Qed.

Lemma PruneXreqs_matches (n : node D) faults new rc n' : PruneXreqs fails shutdown n faults new = Ret (rc, n') -> same_matches n n'.
Proof.
  intros E. unfold PruneXreqs in E. returned E. destruct v as [rc1 n1]. apply prune_loop_matches in E0. destruct (negb _); [by injection E as _ <-|].
  apply prune_loop_matches in E. exact (same_matches_trans _ _ _ E0 E).
Qed.

Lemma no_trades_same db db' : ids db' = ids db -> no_trades db -> no_trades db'.
Proof.
  intros Hi%ids_rows Hn k x Hx. assert (E : row_ids db' !! k = Some (identity x, x_blocktime x)) by (unfold row_ids; by rewrite lookup_fmap, Hx).
  rewrite Hi in E. unfold row_ids in E. rewrite lookup_fmap in E. destruct (rows db !! k) as [y|] eqn:Ey; [|discriminate].
  cbn in E. injection E as E _ _ _ _ _. unfold x_type. rewrite <- E. exact (Hn k y Ey).
Qed.

(** A request of a part of the table is pending there only if it is in the whole. *)
Lemma not_pending_subset (t t' : gmap Z Request) : t' ⊆ t -> (forall k x, t !! k = Some x -> is_pending t x = false) -> forall k x, t' !! k = Some x -> is_pending t' x = false.
Proof.
  intros Hsub Hp k x Hx. specialize (Hp k x (lookup_weaken _ _ _ _ Hx Hsub)). unfold is_pending in *. apply andb_false_iff in Hp as [->|Hp]; [reflexivity|].
  apply andb_false_iff. right. apply bool_decide_eq_false in Hp. apply bool_decide_eq_false. intros [y Hy]. apply Hp. exists y. exact (lookup_weaken _ _ _ _ Hy Hsub).
Qed.

Lemma MatchingThread_turn_ok (r r' : rounds D) : table_ok (table r) -> MatchingThread_turn fails shutdown IsWitness r = Ret r' ->
  table_ok (table r') /\ m_matching_block_time r' = m_matching_block_time r /\ m_last_matching_epoch r' = m_last_matching_epoch r
  /\ round_done r (r_node r') /\ (no_trades (table r) -> no_trades (table r')).
Proof.
  intros Hok E. unfold MatchingThread_turn in E. unfold round_done. destruct (m_matching_state r =? MATCHING_STATE_START); cbn [negb] in E; [|injection E as <-; auto 7].
  returned E. injection E as <-. pose proof (MatchReqs_ids _ _ _ _ _ _ _ (table_keys _ Hok) E0) as Hi.
  split; [exact (table_ok_same _ _ Hi Hok)|]. split; [reflexivity|]. split; [reflexivity|]. split; [split; [reflexivity|]; split; [reflexivity | exact E0] | exact (no_trades_same _ _ Hi)].
Qed.

Lemma next_round_ok (r : rounds D) f epoch new rc r' : table_ok (table r) -> m_last_matching_epoch r = epoch ->
  next_round fails shutdown r f epoch new = Ret (rc, r') -> table_ok (table r')
  /\ (rc = 0 -> (m_matching_state r' = MATCHING_STATE_START /\ m_last_matching_epoch r' = epoch /\ m_matching_block_time r' = epoch * XCX_MATCHING_SECS_PER_EPOCH
        /\ m_last_matched_block_time r' = m_matching_block_time r /\ m_matching_max_xreqnum r' = next_xreqnum (r_node r') - 1 /\ r_param r' = m_matching_max_xreqnum r')
      /\ ((forall k, shutdown k = false) -> no_trades (table r) ->
          (exists ms n1, persisted (m_matching_block_time r) (r_node r) ms n1 /\ same_matches n1 (r_node r'))
          /\ forall k x, rows (table r') !! k = Some x -> is_pending (rows (table r')) x = false)
      /\ ((forall k, shutdown k = false) -> within_limits (table r')
          /\ forall k x, rows (table r') !! k = Some x -> m_matching_block_time r' < t_expire_time (x_terms x))).
Proof.
  intros Hok Hepoch E. unfold next_round in E. returned E. destruct v as [rc1 n1]. pose proof E0 as Emake. apply (persist_loop_ok fails shutdown) in E0 as Hok1; [|exact Hok].
  destruct (Z.eqb_spec rc1 0) as [Hz|Hz]; cbn [negb] in E; [|injection E as <- <-; split; [exact Hok1 | contradiction]].
  cbv zeta in E. returned E. set (time := epoch * XCX_MATCHING_SECS_PER_EPOCH) in *. set (n2 := with_world n1 _) in *.
  destruct (expire_xreqs_loop_ends fails shutdown prime_large min_exp max_exp (sf_expire f) time (S (size (rows (n_xdb n2)))) n2 Hok1 ltac:(lia)) as (rc2 & n3 & xs & E2 & Hex).
  unfold ExpireXreqs in E. rewrite E2 in E. cbn [outcome_bind] in E. pose proof (ex_ok _ _ _ _ _ _ Hex) as Hok3.
  destruct (Z.eqb_spec rc2 0) as [Hz2|Hz2]; cbn [negb] in E; [|injection E as <- <-; split; [exact Hok3 | contradiction]].
  destruct (PruneXreqs_ends fails shutdown prime_large min_exp max_exp n3 (sf_prune f) new Hok3) as (rc3 & n4 & E3 & Hok4 & Hsub & Hlim).
  rewrite E3 in E. cbn [outcome_bind] in E.
  destruct (Z.eqb_spec rc3 0) as [Hz3|Hz3]; cbn [negb] in E; [|injection E as <- <-; split; [exact Hok4 | contradiction]].
  returned E. destruct (sf_param f); [injection E as <- <-; split; [exact Hok4 | discriminate]|]. injection E as <- <-. split; [exact Hok4|]. intros _.
  subst rc1. split; [split_and!; try reflexivity; exact Hepoch|]. split.
  - intros Hs Hnt. destruct (persist_loop_persisted fails shutdown prime_large min_exp max_exp _ _ _ Hs _ _ Hok Hnt Emake) as [ms Hms]. split.
    + exists ms, n1. split; [exact Hms|]. apply (same_matches_trans _ n2); [by split|]. exact (same_matches_trans _ _ _ (expire_xreqs_loop_matches _ _ _ _ _ _ E2) (PruneXreqs_matches _ _ _ _ _ E3)).
    + apply (not_pending_subset (rows (n_xdb n1))); [|exact (persisted_end _ _ _ _ Hms)]. etrans; [exact Hsub|].
      destruct (ex_all _ _ _ _ _ _ Hex Hz2 (Hs _)) as [Hr _]. rewrite Hr. apply map_filter_subseteq.
  - intros Hs. split; [exact (proj2 (Hlim Hz3) (Hs _))|]. change (forall k x, rows (n_xdb n4) !! k = Some x -> time < t_expire_time (x_terms x)).
    intros k x Hx. pose proof (lookup_weaken _ _ _ _ Hx Hsub) as Hx3. destruct (ex_all _ _ _ _ _ _ Hex Hz2 (Hs _)) as [Hr _]. rewrite Hr in Hx3.
    apply map_lookup_filter_Some in Hx3 as [_ Hx3]. unfold expired in Hx3. cbn in Hx3. lia.
Qed.

(** C11. Blocks of one epoch start one round.  The first block of an epoch ends the round before:
    every match that the engine found becomes permanent, at the time of that round, in the
    order that the engine gave them, with the numbers that come next, and none is left
    pending.  Then the next round starts at the time of the epoch, when no request is left that
    has expired and the table is within its limits, with all requests that are in blocks.
    Other blocks change nothing.  The table stays sound throughout. *)
Theorem SynchronizeMatching_epoch (r : rounds D) f t new rc r' : table_ok (table r) -> 0 <= m_matching_state r ->
  SynchronizeMatching fails shutdown IsWitness r f t new = Ret (rc, r') ->
  table_ok (table r')
  /\ (t / XCX_MATCHING_SECS_PER_EPOCH = m_last_matching_epoch r -> rc = 0 /\ r' = r)
  /\ (t / XCX_MATCHING_SECS_PER_EPOCH <> m_last_matching_epoch r -> rc = 0 -> started r (t / XCX_MATCHING_SECS_PER_EPOCH) r').
Proof.
  intros Hok Hs E. unfold SynchronizeMatching in E. rewrite (proj2 (Z.ltb_ge _ _)) in E by exact Hs. cbv zeta in E.
  destruct (Z.eqb_spec (t / XCX_MATCHING_SECS_PER_EPOCH) (m_last_matching_epoch r)) as [He|He].
  - returned E. injection E as <- <-. split; [exact Hok|]. split; [auto | contradiction].
  - returned E. apply MatchingThread_turn_ok in E0 as (Hok1 & Ht & Hl & Hdone & Hnt); [|exact Hok].
    destruct (next_round_ok _ _ _ _ _ _ Hok1 Hl E) as [Hok2 Hst]. split; [exact Hok2|]. split; [contradiction|]. intros _ Hrc.
    destruct (Hst Hrc) as ((S1 & S2 & S3 & S4 & S5 & S6) & S7 & S8). split; [exact S1 | split; [exact S2 | exact S3] | rewrite S4; exact Ht | split; [exact S5 | exact S6] | | exact S8].
    intros Hs2 Hn. destruct (S7 Hs2 (Hnt Hn)) as [(ms & n1 & Hp & Hm) Hnone]. split; [|exact Hnone]. exists (r_node v), ms, n1.
    split; [exact Hdone|]. split; [rewrite Ht in Hp; exact Hp | exact Hm].
Qed.
End sync.

(** *** What a restart lists *)

Section listed_again.
Context `{ChainParams} `{AmtFloat}.
Variables (env : restore_env) (m : match_db) (nums : nums_table) (next_num : Z).
Hypothesis next_small : next_num < 2 ^ 64.
Hypothesis numbers_unsigned : forall k, is_Some (t_matching m !! k) -> 0 <= k.

(** A request of the tables that is open. *)
Record open_request (k : Z) (q : Xmatchreq) : Prop := {
  or_row : is_Some (t_matching m !! k);
  or_read : XmatchreqSelectInternal field_prime m k true 0 = Ret (0, Some q);
  or_open : IsClosed q = false /\ q_open_amount q <> 0
}.

(** A row of the table that stands for it, with the time of its block. *)
Record listed_as (k : Z) (q : Xmatchreq) (x : Request) : Prop := {
  la_number : x_xreqnum x = k;
  la_request : x_terms x = q_terms q /\ x_open_amount x = q_open_amount q;
  la_rate : RateRequired x (x_open_amount x) = Ret (open_rate_required x);
  la_time : exists j, GetXreqBlockTime nums (re_nums env j) (re_nums_shutdown env j) k = Ret (false, x_blocktime x)
}.

(** The requests below [next] are done. *)
Record restored_to (next seqnum : Z) (db : Xdb) : Prop := {
  rt_rows : forall s x, rows db !! s = Some x -> x_seqnum x = s /\ 0 < s < seqnum /\ x_xreqnum x < next /\ exists q, open_request (x_xreqnum x) q /\ listed_as (x_xreqnum x) q x;
  rt_all : forall k q, k < next -> open_request k q -> exists s x, rows db !! s = Some x /\ listed_as k q x;
  rt_once : forall s1 s2 x1 x2, rows db !! s1 = Some x1 -> rows db !! s2 = Some x2 -> x_xreqnum x1 = x_xreqnum x2 -> s1 = s2
}.

Lemma SelectInternal_number k q c : XmatchreqSelectInternal field_prime m k true c = Ret (0, Some q) -> q_xreqnum q = k /\ k <> 0.
Proof.
  unfold XmatchreqSelectInternal. destruct (t_reqs m !! k) as [r|]; [|discriminate]. destruct (Z.eqb_spec k 0) as [|Hn]; [discriminate|]. cbv zeta.
  destruct (_ && _); [discriminate|]. intros E. returned E. injection E as <-. split; [|exact Hn]. unfold read_req in E0. cbv zeta in E0. do 4 returned E0. by injection E0 as <-.
Qed.

Lemma open_request_number k q : open_request k q -> k <> 0 /\ is_Some (t_reqs m !! k).
Proof.
  intros [_ Hr _]. split; [exact (proj2 (SelectInternal_number _ _ _ Hr))|]. unfold XmatchreqSelectInternal in Hr. destruct (t_reqs m !! k); [by eexists | discriminate].
Qed.

(** A select gives the first request from a number on, or there is none. *)
Lemma SelectMatching_cases fault n r : XmatchreqSelectMatching field_prime m fault n true = Ret r ->
  match r with
  | (rc, Some q) => rc = 0 /\ n <= q_xreqnum q /\ q_xreqnum q <> 0 /\ is_Some (t_matching m !! q_xreqnum q)
      /\ XmatchreqSelectInternal field_prime m (q_xreqnum q) true 0 = Ret (0, Some q) /\ forall k p, n <= k -> open_request k p -> q_xreqnum q <= k
  | (rc, None) => rc < 0 \/ rc = 1 /\ forall k p, n <= k -> ~ open_request k p
  end.
Proof.
  unfold XmatchreqSelectMatching. destruct fault; [intros [= <-]; left; reflexivity|].
  destruct (select_rows _ _ _) as [|[k g] rest] eqn:Es.
  { intros [= <-]. right. split; [reflexivity|]. intros k p Hk Hp. destruct (or_row _ _ Hp) as [g Hg].
    pose proof (select_rows_nil _ _ _ Es k g Hg) as Hn. apply Hn. split; [exact Hk | exact (proj2 (open_request_number _ _ Hp))]. }
  destruct (select_rows_first _ _ _ k g rest Es) as (Hg & (Hk & _) & Hfirst). intros E. returned E.
  destruct v as [[|z|z] [q|]]; try (injection E as <-; left; reflexivity).
  rewrite andb_false_r in E. injection E as <-. destruct (SelectInternal_number _ _ _ E0) as [Hq Hnz].
  rewrite Hq. split; [reflexivity|]. split; [exact Hk|]. split; [exact Hnz|]. split; [by eexists|]. split; [exact E0|].
  intros j p Hj Hp. destruct (or_row _ _ Hp) as [g' Hg']. pose proof (Hfirst j g' Hg' (conj Hj (proj2 (open_request_number _ _ Hp)))) as Hle.
  unfold rank_le in Hle. cbn in Hle. lia.
Qed.

Lemma insert_new fails db x rc x' db' : x_seqnum x <> 0 -> (forall s y, rows db !! s = Some y -> x_xreqnum y <> 0) ->
  XreqsInsert fails db x 0 = Ret (rc, x', db') -> rc = 0 -> rows db !! x_seqnum x = None /\ rows db' = <[x_seqnum x := listed_row x]> (rows db).
Proof.
  intros Hs Hn E Hrc. unfold XreqsInsert in E. rewrite (proj2 (Z.eqb_neq _ _) Hs) in E.
  destruct (XreqsSelectObjId fails db (objid (x_terms x))) as [r db1] eqn:Er. unfold XreqsSelectObjId in Er. pose proof (select_ticks _ _ _ _ _ Er) as ->.
  assert (Hins : (let! r := XreqsInsertWithLock fails (tick db) x in Ret (fst r, x, snd r)) = Ret (rc, x', db') ->
    rows db !! x_seqnum x = None /\ rows db' = <[x_seqnum x := listed_row x]> (rows db)).
  { clear E. intros E. returned E. destruct v as [rc1 db1]. injection E as -> _ <-. cbn [fst snd] in *. subst rc. unfold XreqsInsertWithLock in E0. returned E0.
    destruct (fails _); [discriminate|]. destruct (bool_decide_reflect (is_Some (rows (tick db) !! x_seqnum x))) as [|Hns]; [discriminate|]. cbn [orb] in E0.
    destruct (_ <=? 0); [discriminate|]. apply eq_None_not_Some in Hns. split; [exact Hns|]. injection E0 as <-. destruct (x_xreqnum x =? 0); reflexivity. }
  destruct r as [y| |]; [|exact (Hins E)|injection E as <- _ _; discriminate].
  assert (Hy : x_xreqnum y <> 0).
  { unfold XreqsSelect in Er. destruct (fails (clock db)); [discriminate|]. destruct (select_by _ _ _) as [|[k z] rest] eqn:Esel; [discriminate|].
    destruct (x_seqnum z =? 0); [discriminate|]. injection Er as ->. destruct (select_by_first _ _ _ k y rest linear_fst Esel) as [Hy _]. exact (Hn k y Hy). }
  rewrite (proj2 (Z.eqb_neq _ _) Hy) in E. exact (Hins E).
Qed.

Lemma restored_row q blocktime seqnum link x : restored q blocktime seqnum link = Ret x ->
  x_seqnum x = seqnum /\ x_xreqnum x = q_xreqnum q /\ x_terms x = q_terms q /\ x_open_amount x = q_open_amount q /\ x_blocktime x = blocktime
  /\ RateRequired x (x_open_amount x) = Ret (open_rate_required x).
Proof. unfold restored. cbv zeta. intros E. returned E. injection E as <-. split_and!; try reflexivity. exact E0. Qed.

(** A turn that lists the request [q] as the row [x]. *)
Record turn_lists (next seqnum expected : Z) (db : Xdb) (q : Xmatchreq) (x : Request) (expected' : Z) (db' : Xdb) : Prop := {
  tl_seqnum : 0 < seqnum;
  tl_number : next <= q_xreqnum q < next_num;
  tl_open : open_request (q_xreqnum q) q;
  tl_first : forall k p, next <= k -> open_request k p -> q_xreqnum q <= k;
  tl_row : restored q (x_blocktime x) seqnum (linked_seqnum x) = Ret x;
  tl_link : restored_link q seqnum expected = (linked_seqnum x, expected');
  tl_time : exists j, GetXreqBlockTime nums (re_nums env j) (re_nums_shutdown env j) (q_xreqnum q) = Ret (false, x_blocktime x);
  tl_new : rows db !! seqnum = None;
  tl_rows : rows db' = <[seqnum := listed_row x]> (rows db)
}.

Lemma restored_insert next seqnum expected db q x expected' db' : restored_to next seqnum db -> turn_lists next seqnum expected db q x expected' db' ->
  restored_to (q_xreqnum q + 1) (seqnum + 1) db'.
Proof.
  intros [I1 I2 I3] [Hs [Hle _] Hq Hfirst Hx _ Ht Hnone Hr]. destruct (restored_row _ _ _ _ _ Hx) as (X1 & X2 & X3 & X4 & X5 & X6).
  assert (Hl : listed_as (q_xreqnum q) q (listed_row x)) by (split; [exact X2 | split; [exact X3 | exact X4] | exact X6 | exact Ht]).
  split.
  - intros s y Hy. rewrite Hr in Hy. apply lookup_insert_Some in Hy as [[<- <-]|[Hn Hy]].
    + split; [exact X1|]. split; [lia|]. change (x_xreqnum (listed_row x)) with (x_xreqnum x). rewrite X2. split; [lia|]. exists q. split; [exact Hq | exact Hl].
    + destruct (I1 s y Hy) as (Y1 & Y2 & Y3 & Y4). split; [exact Y1|]. split; [lia|]. split; [lia | exact Y4].
  - intros k p Hk Hp. destruct (Z_lt_ge_dec k next) as [Hlt|Hge].
    + destruct (I2 k p Hlt Hp) as (s & y & Hy & Hly). exists s, y. split; [|exact Hly]. rewrite Hr, lookup_insert_ne; [exact Hy | congruence].
    + assert (k = q_xreqnum q) as -> by (pose proof (Hfirst k p ltac:(lia) Hp); lia).
      assert (p = q) as -> by (pose proof (or_read _ _ Hp) as R1; pose proof (or_read _ _ Hq) as R2; congruence).
      exists seqnum, (listed_row x). split; [by rewrite Hr, lookup_insert_eq | exact Hl].
  - intros s1 s2 x1 x2 H1' H2'. rewrite Hr in H1', H2'.
    apply lookup_insert_Some in H1' as [[<- <-]|[Hn1 H1']]; apply lookup_insert_Some in H2' as [[<- <-]|[Hn2 H2']]; try reflexivity.
    + change (x_xreqnum (listed_row x)) with (x_xreqnum x). rewrite X2. intros Heq. destruct (I1 _ _ H2') as (_ & _ & Hlt & _). lia.
    + change (x_xreqnum (listed_row x)) with (x_xreqnum x). rewrite X2. intros Heq. destruct (I1 _ _ H1') as (_ & _ & Hlt & _). lia.
    + exact (I3 _ _ _ _ H1' H2').
Qed.

Lemma restored_skip next seqnum db n : restored_to next seqnum db -> next <= n -> (forall k p, next <= k -> open_request k p -> n < k) -> restored_to (n + 1) seqnum db.
Proof.
  intros [I1 I2 I3] Hle Hno. split; [| |exact I3].
  - intros s x Hx. destruct (I1 s x Hx) as (Y1 & Y2 & Y3 & Y4). split; [exact Y1|]. split; [exact Y2|]. split; [lia | exact Y4].
  - intros k q Hk Hq. destruct (Z_lt_ge_dec k next) as [Hlt|Hge]; [exact (I2 k q Hlt Hq)|]. pose proof (Hno k q ltac:(lia) Hq). lia.
Qed.

(** What holds of the table before the loop and after every turn holds at the end, when no open
    request is left. *)
Lemma restore_loop_inv (I : Z -> Z -> Z -> Xdb -> Prop) :
  (forall next seqnum expected db, I next seqnum expected db -> restored_to next seqnum db) ->
  (forall next seqnum expected db n, I next seqnum expected db -> next <= n ->
     (forall k p, next <= k -> open_request k p -> n < k) -> I (n + 1) seqnum expected db) ->
  (forall next seqnum expected db q x expected' db', I next seqnum expected db ->
     turn_lists next seqnum expected db q x expected' db' -> I (q_xreqnum q + 1) (seqnum + 1) expected' db') ->
  (forall k, re_shutdown env k = false) -> forall fuel k db seqnum next expected db', I next seqnum expected db -> 0 < seqnum -> 0 <= next ->
  restore_loop fuel k env m nums next_num db seqnum next expected = Ret (false, db') ->
  exists next' seqnum' expected', I next' seqnum' expected' db' /\ forall k p, next' <= k -> ~ open_request k p.
Proof.
  intros Hrest Hskip Hlist Hsh. induction fuel as [|fuel IH]; intros k db seqnum next expected db' Hinv Hs Hn E; cbn [restore_loop] in E; rewrite Hsh in E; [discriminate|].
  returned E. apply SelectMatching_cases in E0. destruct v as [rc [q|]].
  2: { injection E as Hrc <-. destruct E0 as [Hc|[_ Hno]]; [lia|]. exists next, seqnum, expected. auto. }
  destruct E0 as (-> & Hle & Hnz & Hrow & Hread & Hfirst). returned E. apply Z.ltb_lt in A. cbv zeta in E. returned E. rewrite u64_small in E by lia.
  destruct (IsClosed q || (q_open_amount q =? 0)) eqn:Ec.
  - apply IH in E; [exact E | | exact Hs | lia]. apply (Hskip next); [exact Hinv | lia|].
    intros j p Hj Hp. pose proof (Hfirst j p Hj Hp). destruct (decide (j = q_xreqnum q)) as [->|]; [|lia]. exfalso.
    pose proof (or_read _ _ Hp) as R1. assert (p = q) as -> by congruence. destruct (or_open _ _ Hp) as [Ho1 Ho]. rewrite Ho1 in Ec. cbn in Ec. apply Z.eqb_eq in Ec. contradiction.
  - apply orb_false_iff in Ec as [Ec Eo]. apply Z.eqb_neq in Eo. assert (Hq : open_request (q_xreqnum q) q) by (split; auto).
    returned E. destruct v as [fatal blocktime]. destruct (restored_link q seqnum expected) as [link expected'] eqn:El. returned E. rename v into x. cbn [fst snd] in *.
    returned E. destruct v as [[rc x'] db1]. destruct (restored_row _ _ _ _ _ E1) as (X1 & X2 & X3 & X4 & X5 & X6).
    destruct (Z.eqb_spec rc 0) as [Hrc|Hrc]; [|discriminate]. destruct fatal; [discriminate|]. cbn [negb orb] in E.
    destruct (insert_new (re_xreqs env) db x rc x' db1) as [Hnone Hr]; [lia | | exact E2 | exact Hrc|].
    { intros s y Hy. destruct (rt_rows _ _ _ (Hrest _ _ _ _ Hinv) s y Hy) as (_ & _ & _ & p & Hp & _). exact (proj1 (open_request_number _ _ Hp)). }
    rewrite X1 in Hnone, Hr. apply IH in E; [exact E | | lia | lia].
    assert (Xl : linked_seqnum x = link) by (revert E1; unfold restored; cbv zeta; intros E1; returned E1; by injection E1 as <-).
    refine (Hlist next seqnum expected db q x expected' db1 Hinv _).
    split; [exact Hs | lia | exact Hq | exact Hfirst | rewrite X5, Xl; exact E1 | rewrite Xl; exact El | exists k; rewrite X5; exact E0 | exact Hnone | exact Hr].
Qed.

Lemma restored_nothing seqnum : restored_to 0 seqnum (mkXdb ∅ 0 0 0 1 false).
Proof.
  split.
  - intros s x Hx. cbn in Hx. by rewrite lookup_empty in Hx.
  - intros k q Hk Hq. exfalso. pose proof (numbers_unsigned k (or_row _ _ Hq)). lia.
  - intros s1 s2 x1 x2 Hx. cbn in Hx. by rewrite lookup_empty in Hx.
Qed.

(** C24. A node that starts again lists exactly the requests of the tables that are open: each
    is a row of its own with its terms, what is open of it and the rate that it requires
    for that, and the time that the numbers give for its block; there is no other row. *)
Theorem Restore_lists_open seqnum db' : (forall k, re_shutdown env k = false) -> 0 < seqnum ->
  Restore env m nums next_num (mkXdb ∅ 0 0 0 1 false) seqnum = Ret (false, db') ->
  (forall k q, open_request k q -> exists s x, rows db' !! s = Some x /\ listed_as k q x)
  /\ (forall s x, rows db' !! s = Some x -> exists q, open_request (x_xreqnum x) q /\ listed_as (x_xreqnum x) q x)
  /\ forall s1 s2 x1 x2, rows db' !! s1 = Some x1 -> rows db' !! s2 = Some x2 -> x_xreqnum x1 = x_xreqnum x2 -> s1 = s2.
Proof.
  intros Hsh Hs E. apply (restore_loop_inv (fun next seqnum _ db => restored_to next seqnum db)) in E;
    [|auto | intros; by apply (restored_skip next) | intros; by eapply restored_insert | exact Hsh | apply restored_nothing | exact Hs | lia].
  destruct E as (next & seq & expected & [I1 I2 I3] & Hno). split; [|split; [|exact I3]].
  - intros k q Hq. destruct (Z_lt_ge_dec k next) as [Hlt|Hge]; [exact (I2 k q Hlt Hq)|]. exfalso. exact (Hno k q ltac:(lia) Hq).
  - intros s x Hx. destruct (I1 s x Hx) as (_ & _ & _ & H'). exact H'.
Qed.
(** *** What a restart links *)

(** The row [y] is of the first open request after that of [x]. *)
Definition follows (x y : Request) : Prop :=
  x_xreqnum x < x_xreqnum y /\ forall k p, open_request k p -> x_xreqnum x < k -> x_xreqnum y <= k.

(** The link of the row at [s + 1], when a miner's buyer with the number [k] is at [s]. *)
Definition link_after (s k : Z) (y : Request) : Z :=
  if x_type y =? CC_TYPE_XCX_MINING_BUY then s + 2
  else if (x_type y =? CC_TYPE_XCX_MINING_SELL) && (x_xreqnum y =? k + 1) then s else 0.

(** Rows are one after the other from [start] in the order of the numbers of their requests. *)
Record chained (start next seqnum expected : Z) (db : Xdb) : Prop := {
  ch_lists : restored_to next seqnum db;
  ch_range : start <= seqnum;
  ch_rows : forall s, is_Some (rows db !! s) <-> start <= s < seqnum;
  ch_buyer : forall s x, rows db !! s = Some x -> x_type x = CC_TYPE_XCX_MINING_BUY -> linked_seqnum x = s + 1;
  ch_next : forall s x y, rows db !! s = Some x -> rows db !! (s + 1) = Some y ->
    follows x y /\ (x_type x = CC_TYPE_XCX_MINING_BUY -> linked_seqnum y = link_after s (x_xreqnum x) y);
  ch_last : forall x, rows db !! (seqnum - 1) = Some x -> (forall k p, open_request k p -> x_xreqnum x < k -> next <= k)
    /\ (x_type x = CC_TYPE_XCX_MINING_BUY -> expected = x_xreqnum x + 1)
}.

Lemma chained_skip start next seqnum expected db n : chained start next seqnum expected db -> next <= n ->
  (forall k p, next <= k -> open_request k p -> n < k) -> chained start (n + 1) seqnum expected db.
Proof.
  intros [C1 C2 C3 C4 C5 C6] Hle Hno. split; [by apply (restored_skip next) | exact C2 | exact C3 | exact C4 | exact C5|].
  intros x Hx. destruct (C6 x Hx) as [L1 L2]. split; [|exact L2]. intros k p Hp Hk. pose proof (Hno k p (L1 k p Hp Hk) Hp). lia.
Qed.

(** The link of a row that is listed, by its type. *)
Lemma turn_link next seqnum expected db q x expected' db' : turn_lists next seqnum expected db q x expected' db' ->
  x_xreqnum x = q_xreqnum q
  /\ (x_type x = CC_TYPE_XCX_MINING_BUY -> linked_seqnum x = seqnum + 1 /\ expected' = x_xreqnum x + 1)
  /\ (forall k, expected = k + 1 -> linked_seqnum x = link_after (seqnum - 1) k x).
Proof.
  intros Ht. destruct (restored_row _ _ _ _ _ (tl_row _ _ _ _ _ _ _ _ Ht)) as (_ & Xn & Xt & _). split; [exact Xn|].
  assert (Hk : 0 <= q_xreqnum q < next_num) by (split; [apply numbers_unsigned, (or_row _ _ (tl_open _ _ _ _ _ _ _ _ Ht)) | exact (proj2 (tl_number _ _ _ _ _ _ _ _ Ht))]).
  pose proof (tl_link _ _ _ _ _ _ _ _ Ht) as Hl. unfold restored_link in Hl. cbv zeta in Hl. assert (Hty : t_type (q_terms q) = x_type x) by (unfold x_type; by rewrite Xt). rewrite Hty in Hl.
  rewrite u64_small in Hl by lia. split.
  - intros Hb. rewrite Hb, Z.eqb_refl in Hl. injection Hl as <- <-. by rewrite Xn.
  - intros k ->. unfold link_after. rewrite Xn. destruct (x_type x =? CC_TYPE_XCX_MINING_BUY); injection Hl as <- _; [lia|].
    destruct (_ && _); reflexivity.
Qed.

Lemma chained_insert start next seqnum expected db q x expected' db' : chained start next seqnum expected db ->
  turn_lists next seqnum expected db q x expected' db' -> chained start (q_xreqnum q + 1) (seqnum + 1) expected' db'.
Proof.
  intros [C1 C2 C3 C4 C5 C6] Ht. pose proof (restored_insert _ _ _ _ _ _ _ _ C1 Ht) as C1'. destruct (turn_link _ _ _ _ _ _ _ _ Ht) as (Xn & Xb & Xl).
  destruct Ht as [Hs [Hle _] Hq Hfirst _ _ _ Hnone Hr]. split; [exact C1' | lia | | | |].
  - intros s. rewrite Hr. destruct (decide (s = seqnum)) as [->|Hn].
    + rewrite lookup_insert_eq. split; [lia | by eexists].
    + rewrite lookup_insert_ne by congruence. rewrite C3. lia.
  - intros s y Hy. rewrite Hr in Hy. apply lookup_insert_Some in Hy as [[<- <-]|[_ Hy]]; [intros Hb; exact (proj1 (Xb Hb)) | exact (C4 s y Hy)].
  - intros s y z Hy Hz. rewrite Hr in Hy, Hz. apply lookup_insert_Some in Hy as [[Es <-]|[_ Hy]].
    { exfalso. rewrite lookup_insert_ne in Hz by lia. assert (Hin : is_Some (rows db !! (s + 1))) by (by eexists). apply C3 in Hin. lia. }
    apply lookup_insert_Some in Hz as [[Es <-]|[_ Hz]]; [|exact (C5 s y z Hy Hz)].
    assert (s = seqnum - 1) as -> by lia. destruct (C6 y Hy) as [L1 L2]. destruct (rt_rows _ _ _ C1 _ _ Hy) as (_ & _ & Hlt & _). split.
    + split; [change (x_xreqnum y < x_xreqnum x); lia|]. intros k p Hp Hk. change (x_xreqnum x <= k). rewrite Xn. exact (Hfirst k p (L1 k p Hp Hk) Hp).
    + intros Hb. exact (Xl (x_xreqnum y) (L2 Hb)).
  - intros y Hy. rewrite Hr in Hy. replace (seqnum + 1 - 1) with seqnum in Hy by lia. rewrite lookup_insert_eq in Hy. injection Hy as <-.
    change (x_xreqnum (listed_row x)) with (x_xreqnum x). split; [intros; lia | intros Hb; exact (proj2 (Xb Hb))].
Qed.

(** C38. A restarted node links every open buyer of a miner's pair to the row after its own.  That
    is the row of the next open request, whatever its number: it is the seller of the pair,
    linked back to the buyer, only if it is a miner's seller with the number after the
    buyer's.  If the seller is not open any more it is a stranger's, which is linked to
    the next row if it is a miner's buyer and to none otherwise; or there is no such row yet,
    when no open request comes after the buyer. *)
Theorem restart_links_stranger seqnum db' k q : (forall k, re_shutdown env k = false) -> 0 < seqnum ->
  Restore env m nums next_num (mkXdb ∅ 0 0 0 1 false) seqnum = Ret (false, db') ->
  open_request k q -> t_type (q_terms q) = CC_TYPE_XCX_MINING_BUY ->
  exists s x, rows db' !! s = Some x /\ listed_as k q x /\ linked_seqnum x = s + 1
    /\ ((forall j p, open_request j p -> j <= k) -> rows db' !! linked_seqnum x = None)
    /\ forall j p, open_request j p -> k < j -> (forall i r, open_request i r -> k < i -> j <= i) ->
         exists y, rows db' !! linked_seqnum x = Some y /\ listed_as j p y /\ linked_seqnum y = link_after s k y.
Proof.
  intros Hsh Hs E Hq Hb. apply (restore_loop_inv (chained seqnum)) in E;
    [|by intros ???? [] | intros; by apply (chained_skip seqnum next) | intros; by eapply chained_insert | exact Hsh | | exact Hs | lia].
  2: { split; [apply restored_nothing | lia | | | |]; cbn; [|intros ??|intros ???|intros ?]; rewrite ?lookup_empty; try discriminate.
    intros s. rewrite lookup_empty, is_Some_alt. lia. }
  destruct E as (next & seq & expected & [[I1 I2 _] C2 C3 C4 C5 C6] & Hno).
  assert (Hall : forall j p, open_request j p -> exists s x, rows db' !! s = Some x /\ listed_as j p x).
  { intros j p Hp. destruct (Z_lt_ge_dec j next) as [Hlt|Hge]; [exact (I2 j p Hlt Hp)|]. exfalso. exact (Hno j p ltac:(lia) Hp). }
  destruct (Hall k q Hq) as (s & x & Hx & Lx). exists s, x. assert (Hbx : x_type x = CC_TYPE_XCX_MINING_BUY) by (unfold x_type; rewrite (proj1 (la_request _ _ _ Lx)); exact Hb).
  pose proof (la_number _ _ _ Lx) as Hk. rewrite (C4 s x Hx Hbx). split; [exact Hx|]. split; [exact Lx|]. split; [reflexivity|]. split.
  - intros Hlast. destruct (rows db' !! (s + 1)) as [y|] eqn:Ey; [|reflexivity]. exfalso. destruct (proj1 (C5 s x y Hx Ey)) as [Hlt _].
    destruct (I1 _ _ Ey) as (_ & _ & _ & p & Hp & _). pose proof (Hlast _ _ Hp). lia.
  - intros j p Hp Hkj Hmin. destruct (rows db' !! (s + 1)) as [y|] eqn:Ey.
    + destruct (C5 s x y Hx Ey) as [[Hlt Hfst] Hl]. destruct (I1 _ _ Ey) as (_ & _ & _ & r & Hr & Lr).
      assert (j = x_xreqnum y) as -> by (pose proof (Hfst j p Hp ltac:(lia)); pose proof (Hmin _ _ Hr ltac:(lia)); lia).
      assert (p = r) as -> by (pose proof (or_read _ _ Hp); pose proof (or_read _ _ Hr); congruence).
      exists y. split; [reflexivity|]. split; [exact Lr|]. rewrite <- Hk. exact (Hl Hbx).
    + exfalso. assert (Hin : is_Some (rows db' !! s)) by (by eexists). apply C3 in Hin. assert (Hn : ~ is_Some (rows db' !! (s + 1))) by (rewrite Ey; apply is_Some_None).
      rewrite C3 in Hn. assert (s = seq - 1) as -> by lia. pose proof (proj1 (C6 x Hx) j p Hp ltac:(lia)). exact (Hno j p ltac:(lia) Hp).
Qed.
End listed_again.

(** ** Witnesses *)

#[local] Existing Instance amounts27.

Definition demo_rounds : outcome (rounds demo_outputs) :=
  let! db := demo_listed in Ret (mkRounds (mkNode demo_world db 3 9) MATCHING_STATE_START 99 1980 2 1960 2).
Definition no_faults : sync_faults := mkSyncFaults (fun _ _ => false) (fun _ => false) (fun _ _ => (false, false)) false.

Lemma no_trades_decided db : bool_decide (map_Forall (fun _ x => x_type x <> CC_TYPE_XCX_MINING_TRADE) (rows db)) = true -> no_trades db.
Proof. intros H%bool_decide_eq_true. exact H. Qed.

Lemma SynchronizeMatching_epoch_witness : exists r r', demo_rounds = Ret r /\ SynchronizeMatching works works false r no_faults 2000 3 = Ret (0, r')
  /\ started works works false r 100 r' /\ no_trades (table r) /\ size (rows (table r)) = 2%nat /\ size (rows (table r')) = 1%nat.
Proof.
  assert (E : exists r r', demo_rounds = Ret r /\ SynchronizeMatching works works false r no_faults 2000 3 = Ret (0, r') /\ table_ok (table r)
    /\ 0 <= m_matching_state r /\ 2000 / XCX_MATCHING_SECS_PER_EPOCH <> m_last_matching_epoch r
    /\ no_trades (table r) /\ size (rows (table r)) = 2%nat /\ size (rows (table r')) = 1%nat).
  { eexists _, _. split; [vm_compute; reflexivity|]. split; [vm_compute; reflexivity|]. split; [apply (bool_decide_unpack _); vm_compute; exact I|].
    split; [discriminate|]. split; [discriminate|].
    split; [apply no_trades_decided; vm_compute; reflexivity|]. split; reflexivity. }
  destruct E as (r & r' & E1 & E2 & Hok & Hs & He & Hsize). exists r, r'. split; [exact E1|]. split; [exact E2|]. split; [|exact Hsize].
  destruct (SynchronizeMatching_epoch works works false demo_prime ltac:(discriminate) ltac:(discriminate) r no_faults 2000 3 0 r' Hok Hs E2) as (_ & _ & H).
  exact (H He eq_refl).
Defined.

(** *** A restart *)

(** A miner's buyer 1 of a pair, a closed seller 2, and another seller 3. *)
Definition pair_terms (type : Z) (oid addr : list Z) : Terms := demo_terms type oid addr (2 * 10 ^ 27) (mkD (2 ^ 20) (-22)) zero.
Definition saved_req (t : Terms) (num open disposition : Z) : Xmatchreq := mkXmatchreq t num 50000 disposition 0 open true.
Definition pair_buy : Xmatchreq := saved_req (pair_terms CC_TYPE_XCX_MINING_BUY [4] []) 1 (2 * 10 ^ 27) XMATCH_REQ_DISPOSITION_OPEN_ALL.
Definition pair_sell : Xmatchreq := saved_req (pair_terms CC_TYPE_XCX_MINING_SELL [5] [113]) 2 0 XMATCH_REQ_DISPOSITION_MATCHED_ALL.
Definition other_sell : Xmatchreq := saved_req (pair_terms CC_TYPE_XCX_SIMPLE_SELL [6] [114]) 3 (2 * 10 ^ 27) XMATCH_REQ_DISPOSITION_OPEN_ALL.

Definition saved_tables : match_db :=
  let put q db := snd (XmatchreqInsert field_prime db false false q) in
  put other_sell (put pair_sell (put pair_buy (mkMatchDb ∅ ∅ ∅))).
Definition no_env : restore_env := mkRestoreEnv works (fun _ => works) works (fun _ => works) works.
Definition restarted : outcome (bool * Xdb) := Restore no_env saved_tables (e_nums demo_exchange) 4 empty_xdb 1.

Lemma saved_unsigned k : is_Some (t_matching saved_tables !! k) -> 0 <= k.
Proof.
  assert (Hk : map_Forall (fun k _ => 0 <= k) (t_matching saved_tables)) by (apply (bool_decide_unpack _); vm_compute; exact I).
  intros [g Hg]. exact (Hk k g Hg).
Qed.

(** The two that are open are listed again. *)
Lemma Restore_lists_open_witness : exists db, restarted = Ret (false, db)
  /\ (exists s x, rows db !! s = Some x /\ x_xreqnum x = 3 /\ x_blocktime x = 1020) /\ size (rows db) = 2%nat.
Proof.
  assert (E : exists db, restarted = Ret (false, db) /\ size (rows db) = 2%nat) by (eexists; split; [vm_compute; reflexivity | reflexivity]).
  destruct E as (db & E & Hs). exists db. split; [exact E|]. split; [|exact Hs].
  destruct (Restore_lists_open no_env saved_tables (e_nums demo_exchange) 4 ltac:(reflexivity)) with (seqnum := 1) (db' := db) as (Hall & _ & _).
  - exact saved_unsigned.
  - reflexivity.
  - reflexivity.
  - exact E.
  - assert (Hq : exists q, open_request saved_tables 3 q).
    { eexists. split; [by eexists | vm_compute; reflexivity | split; [reflexivity | discriminate]]. }
    destruct Hq as [q Hq]. destruct (Hall 3 q Hq) as (s & x & Hx & [L1 _ _ [j Hj]]). exists s, x. split; [exact Hx|]. split; [exact L1|].
    assert (Ht : GetXreqBlockTime (e_nums demo_exchange) works works 3 = Ret (false, 1020)) by (vm_compute; reflexivity).
    change (GetXreqBlockTime (e_nums demo_exchange) works works 3 = Ret (false, x_blocktime x)) in Hj. congruence.
Defined.

(** The buyer 1 is open and its seller 2 is not: the link is to the seller 3 of somebody else,
    which is linked to none. *)
Lemma restart_links_stranger_witness : exists db s x y, restarted = Ret (false, db) /\ rows db !! s = Some x /\ x_xreqnum x = 1
  /\ rows db !! linked_seqnum x = Some y /\ x_xreqnum y = 3 /\ linked_seqnum y = 0.
Proof.
  assert (E : exists db, restarted = Ret (false, db)) by (eexists; vm_compute; reflexivity). destruct E as [db E].
  assert (H1 : exists q, open_request saved_tables 1 q /\ t_type (q_terms q) = CC_TYPE_XCX_MINING_BUY).
  { eexists. split; [split; [by eexists | vm_compute; reflexivity | split; [reflexivity | discriminate]] | reflexivity]. }
  assert (H3 : exists q, open_request saved_tables 3 q /\ t_type (q_terms q) = CC_TYPE_XCX_SIMPLE_SELL).
  { eexists. split; [split; [by eexists | vm_compute; reflexivity | split; [reflexivity | discriminate]] | reflexivity]. }
  destruct H1 as (q & Hq & Hb), H3 as (p & Hp & Ht).
  destruct (restart_links_stranger no_env saved_tables (e_nums demo_exchange) 4 ltac:(reflexivity) saved_unsigned 1 db 1 q ltac:(reflexivity) ltac:(reflexivity) E Hq Hb)
    as (s & x & Hx & Lx & _ & _ & Hnext).
  destruct (Hnext 3 p Hp ltac:(reflexivity)) as (y & Hy & Ly & Hl).
  { intros i r Hr Hi. destruct (decide (i = 2)) as [->|]; [|lia]. exfalso. destruct Hr as [_ Hread [_ Hopen]].
    vm_compute in Hread. injection Hread as <-. by apply Hopen. }
  exists db, s, x, y. split; [exact E|]. split; [exact Hx|]. split; [exact (la_number _ _ _ _ _ Lx)|]. split; [exact Hy|]. split; [exact (la_number _ _ _ _ _ Ly)|].
  rewrite Hl. unfold link_after, x_type. rewrite (proj1 (la_request _ _ _ _ _ Ly)), Ht. reflexivity.
Defined.

(** When pruning closes that buyer, it closes the stranger's seller too; with the link that the
    buyer had before the restart, to a number that is gone, the seller stays. *)
Lemma stranger_closed : exists db x y, restarted = Ret (false, db) /\ rows db !! 1 = Some x /\ rows db !! 2 = Some y
  /\ (exists n', close_linked works (mkNode demo_world db 4 9) (false, false) 2 x = Ret (Continue 2, n') /\ rows (n_xdb n') = ∅)
  /\ (exists n', close_linked works (mkNode demo_world db 4 9) (false, false) 2 x{{linked_seqnum := 99}} = Ret (Continue 2, n') /\ rows (n_xdb n') = {[2 := y]}).
Proof.
  eexists _, _, _. split; [vm_compute; reflexivity|]. split; [reflexivity|]. split; [reflexivity|].
  split; (eexists; split; [vm_compute; reflexivity | reflexivity]).
Qed.
