(* ===== verification/Indexing.v ===== *)
(** * Indexing of an indelible block (src/source/ccnode/src/blockchain.cpp)

    [BlockChain::IndexTxs] takes the transactions of a block that has become permanent one
    after the other: its serial numbers are recorded as spent, its outputs become leaves of
    the commitment tree, a request is listed, a payment settles its match, and its donation is
    added to that of the block.  Each step is that of the file that models it. *)
From stdpp Require Import gmap.
From coqutil Require Import Datatypes.RecordSetters.
Import DoubleBraceUpdate.
From S2P Require Import Prelude Rows Bigint Block ZkHash Objects Txs UniFloat WireFloat ValidObjs TxAmount TxWire Merkle Xmatch MatchTables XtxWire ProcessTx Mining Settle Settlement XreqTable Matching XreqFlow.

Local Open Scope Z_scope.
Local Open Scope cc_scope.

(** The tables of spent serial numbers and of valid objects, and [total_donations] of the
    block, with the node. *)
Record index_state (D : Type) := mkIndexState {
  ix_node : node D;
  ix_serials : gmap (list Z) (list Z * Z);
  ix_valid : valid_objs;
  ix_donations : Z
}.
Arguments mkIndexState {D} _ _ _ _.
Arguments ix_node {D} _.
Arguments ix_serials {D} _.
Arguments ix_valid {D} _.
Arguments ix_donations {D} _.

(** What may fail while a transaction is indexed, and the numbers that [NextNum] gives. *)
Record tx_faults := mkTxFaults {
  xf_get : bool;
  xf_delete : bool;
  xf_match : bool;
  xf_add : nat -> bool;
  xf_serial : nat -> bool;
  xf_pay : nat -> nat -> bool;
  xf_fresh : nat -> Z
}.

(** [SerialnumInsert]: a serial number that is in the table is a violated constraint. *)
Definition SerialnumInsert (t : gmap (list Z) (list Z * Z)) (fault : bool) (serialnum hashkey : list Z) (tx_commitnum : Z)
    : Z * gmap (list Z) (list Z * Z) :=
  if fault || bool_decide (is_Some (t !! serialnum)) then (-1, t)
  else (0, <[serialnum := (hashkey, tx_commitnum)]> t).

(** The key and the value of a serial number in the table. *)
Definition serial_key (x : TxIn) : list Z := le_bytes 32 (S_serialnum x).
Definition serial_hashkey (x : TxIn) : list Z := le_bytes 16 (S_hashkey x).

(** The loop over the inputs: an error, whether there is a serial number, and the table. *)
Fixpoint index_serials (i : nat) (t : gmap (list Z) (list Z * Z)) (fault : nat -> bool) (ins : list TxIn) (tx_commitnum : Z) (have : bool)
    : bool * bool * gmap (list Z) (list Z * Z) :=
  match ins with
  | [] => (false, have, t)
  | x :: ins =>
      if no_serialnum x then index_serials (S i) t fault ins tx_commitnum have
      else
        let '(rc, t) := SerialnumInsert t (fault i) (serial_key x) (serial_hashkey x) tx_commitnum in
        if negb (rc =? 0) then (true, true, t) else index_serials (S i) t fault ins tx_commitnum true
  end.

Section index.
Context {D : Type} `{CommitDb D} `{TxOutputDb D} `{OutputHashes} `{ChainParams} `{AmtFloat} `{Libm} `{Hashes}.
Variables fails shutdown : nat -> bool.
(** [IsWitness()], whether the old tables of the text codec are in use, and what the buffers
    of valid objects hold. *)
Variables IsWitness old_tables : bool.
Variable store : positive -> ValidObjs.stored.

Definition with_node (s : index_state D) (n : node D) : index_state D := s{{ix_node := n}}.

(** A witness forgets the object, which would only be put into another block. *)
Definition forget_valid (t : valid_objs) (f : tx_faults) (mem : list Z) : outcome valid_objs :=
  if negb IsWitness then Ret t
  else
    let! oid := ComputeMessageObjId blake2b mem in
    match ValidObjsGetObj store t (xf_get f) oid false with
    | (0, Some bufp) => Ret (snd (ValidObjsDeleteObj store t (xf_delete f) bufp))
    | _ => Ret t
    end.

(** [ExtractXtx] with a database: a claim gets the fields of its match. *)
Definition ExtractXtx_db (m : match_db) (fault : bool) (tx : TxPay) : outcome (option Xtx) :=
  if negb (TypeIsXtx (tag_type tx)) then Ret None
  else
    match New (tag_type tx) with
    | None => Throw BadAccess
    | Some xtx =>
        let! r := FromWire_caught field_prime (IsTestnet blockchain_id) old_tables xtx (xtx_data tx) in
        if negb (TypeIsXpay (tag_type tx)) then Ret r
        else
          match r with
          | None => Ret None
          | Some (XPay q) =>
              let! s := XmatchSelect field_prime m fault (pay_xmatchnum q) false false false in
              match s with
              | (0, Some x) => let! q := SetMatchFieldsinXpay x q in Ret (Some (XPay q))
              | _ => Ret None
              end
          | Some _ => Throw BadAccess
          end
    end.

(** An output becomes a leaf and is listed under its address; true is an error.  Mint
    transactions have no outputs of their own here, since [Implement_CCMint] is 0. *)
Definition IndexTxOutputs (w : world D) (param_level : Z) (o : TxOut) : bool * world D :=
  let '(commitnum, c) := GetNextCommitnum (w_commitments w) true in
  let '(rc, db) := AddCommitment (w_db w) commitnum (of_bval (M_commitment o)) in
  if rc then (true, mkWorld db c (w_matches w) (w_mining w))
  else
    let domain := if out_M_domain o =? 0 then Settle.default_domain else out_M_domain o in
    let no_encrypt := (asset_mask o =? 0) && (amount_mask o =? 0) in
    let domain := Z.lor (u32 (Z.shiftl domain 1)) (if no_encrypt then 1 else 0) in
    let db := if no_address o then db
              else TxOutputInsert db (of_bval (M_address o)) domain (M_asset_enc o) (M_amount_enc o) param_level commitnum in
    (false, mkWorld db c (w_matches w) (w_mining w)).

Fixpoint index_outputs (w : world D) (param_level : Z) (outs : list TxOut) : bool * world D :=
  match outs with
  | [] => (false, w)
  | o :: outs => let '(rc, w) := IndexTxOutputs w param_level o in if rc then (true, w) else index_outputs w param_level outs
  end.

(** How a transaction, or the block, ends: done, an error, or an error that is fatal. *)
Inductive index_end := Indexed | Abandoned | Fatal.

(** The transaction with the root of its level, its message, and its pseudo serial number. *)
Definition index_read (s : index_state D) (f : tx_faults) (mem : list Z) : outcome (index_end * TxPay * option Xtx) :=
  let w := n_world (ix_node s) in
  let! r := tx_from_wire field_prime mem (le_val (take 4 mem)) in
  match r with
  | inl _ => Ret (Fatal, tx_init, None)
  | inr tx =>
      let '(rc, root) := Merkle.CommitRootsSelectLevel (w_db w) (param_level tx) in
      if negb (rc =? 0) then Ret (Fatal, tx, None)
      else
        let tx := tx_set_commit_iv tx{{tx_merkle_root := bval (cr_root root)}} in
        let! xtx := ExtractXtx_db (w_matches w) (xf_match f) tx in
        match xtx with
        | None => if TypeIsXtx (tag_type tx) then Ret (Abandoned, tx, None)
                  else let! v := CheckCreatePseudoSerialnum (txs_view tx) None mem true in Ret (Indexed, put_view tx v, None)
        | Some x => let! v := CheckCreatePseudoSerialnum (txs_view tx) (Some (xtx_view x)) mem true in Ret (Indexed, put_view tx v, Some x)
        end
  end.

(** A request is listed, with the identifier of its message. *)
Definition index_request (n : node D) (f : tx_faults) (blocktime : Z) (tx : TxPay) (xtx : option Xtx) (mem : list Z) : outcome (bool * node D) :=
  if negb (TypeIsXreq (tag_type tx)) then Ret (false, n)
  else
    match xtx with
    | Some (XReq t) =>
        let! oid := ComputeMessageObjId blake2b mem in
        AddXreq fails n (xf_add f) blocktime t oid (xf_fresh f)
    | _ => Throw BadAccess
    end.

(** A claim settles its match, and what else is not a mint gives its donation. *)
Definition index_donation (w : world D) (f : tx_faults) (blocktime : Z) (tx : TxPay) (xtx : option Xtx) : outcome (bool * Z * world D) :=
  if TypeIsXpay (tag_type tx) then
    match xtx with
    | Some (XPay q) => ProcessXpayment w (xf_pay f) blocktime (pay_xmatchnum q) (foreign_amount q) 0
    | _ => Throw BadAccess
    end
  else Ret (false, if tag_type tx =? CC_TYPE_MINT then 0 else tx_amount_decode field_prime (donation_fp tx), w).

(** One transaction; [mem] is the data of the block from it on. *)
Definition IndexTx (s : index_state D) (f : tx_faults) (blocktime : Z) (mem : list Z) : outcome (index_end * index_state D) :=
  ccassert! 4 <=? Z.of_nat (length mem) in
  let! valid := forget_valid (ix_valid s) f mem in
  let s := s{{ix_valid := valid}} in
  let! r := index_read s f mem in
  match r with
  | (Indexed, tx, xtx) =>
      let! r := index_request (ix_node s) f blocktime tx xtx mem in
      let s := with_node s (snd r) in
      if (fst r : bool) then Ret (Fatal, s)
      else
        let w := n_world (ix_node s) in
        let tx_commitnum := fst (GetNextCommitnum (w_commitments w) false) in
        let '(rc, have, t) := index_serials 0 (ix_serials s) (xf_serial f) (take (Z.to_nat (nin tx)) (inputs tx)) tx_commitnum false in
        let s := s{{ix_serials := t}} in
        if (rc : bool) then Ret (Fatal, s)
        else
          ccassert! have in
          let '(rc, w) := index_outputs w (param_level tx) (take (Z.to_nat (nout tx)) (outputs tx)) in
          let s := with_node s (with_world (ix_node s) w) in
          if (rc : bool) then Ret (Fatal, s)
          else
            let! r := index_donation w f blocktime tx xtx in
            let '(rc, donation, w) := r in
            let s := with_node s (with_world (ix_node s) w) in
            if (rc : bool) then Ret (Fatal, s)
            else Ret (Indexed, s{{ix_donations := fadd field_prime (ix_donations s) donation}})
  | (e, _, _) => Ret (e, s)
  end.

(** [stop k]: the node shuts down before the [k]th transaction. *)
Fixpoint index_loop (fuel k : nat) (s : index_state D) (faults : nat -> tx_faults) (stop : nat -> bool) (blocktime : Z) (mem : list Z)
    : outcome (index_end * index_state D) :=
  if bool_decide (mem = []) || stop k then Ret (Indexed, s)
  else
    match fuel with
    | O => Throw FuelOut
    | S fuel =>
        let! r := IndexTx s (faults k) blocktime mem in
        match r with
        | (Indexed, s) => index_loop fuel (S k) s faults stop blocktime (drop (Z.to_nat (le_val (take 4 mem))) mem)
        | r => Ret r
        end
    end.

(** [data] are the transactions of the block.  Every turn that goes on moves past one. *)
Definition IndexTxs (s : index_state D) (faults : nat -> tx_faults) (stop : nat -> bool) (blocktime : Z) (data : list Z) : outcome (index_end * index_state D) :=
  index_loop (length data) 0 s faults stop blocktime data.
End index.

(** ** What an indexed block leaves behind *)

(** A transaction as it was indexed: its message, and the number of its first commitment. *)
Record indexed_tx := mkIndexedTx {
  i_tx : TxPay;
  i_xtx : option Xtx;
  i_commitnum : Z
}.

#[local] Abbreviation serial_row := (list Z * (list Z * Z))%type.

(** The rows of the spent serial numbers of inputs. *)
Definition spent_rows (ins : list TxIn) (commitnum : Z) : list serial_row :=
  (fun x => (serial_key x, (serial_hashkey x, commitnum))) <$> filter (fun x => no_serialnum x = false) ins.

Definition spends (i : indexed_tx) : list serial_row := spent_rows (take (Z.to_nat (nin (i_tx i))) (inputs (i_tx i))) (i_commitnum i).

(** How many requests the message lists: a trade is two. *)
Definition requests (i : indexed_tx) : Z :=
  if negb (TypeIsXreq (tag_type (i_tx i))) then 0
  else match i_xtx i with Some (XReq t) => if t_type t =? CC_TYPE_XCX_MINING_TRADE then 2 else 1 | _ => 0 end.

(** The rows go into the table: they are new to it and distinct. *)
Record rows_added (t : gmap (list Z) (list Z * Z)) (rows : list serial_row) (t' : gmap (list Z) (list Z * Z)) : Prop := {
  ra_distinct : NoDup rows.*1;
  ra_fresh k : k ∈ rows.*1 -> t !! k = None;
  ra_table : t' = list_to_map rows ∪ t
}.

Lemma rows_added_nil t : rows_added t [] t.
Proof. split; [apply NoDup_nil_2 | intros k Hk; by apply elem_of_nil in Hk | symmetry; apply (map_empty_union t)]. Qed.

Lemma rows_added_app t r1 t1 r2 t2 : rows_added t r1 t1 -> rows_added t1 r2 t2 -> rows_added t (r1 ++ r2) t2.
Proof.
  intros [D1 F1 ->] [D2 F2 ->].
  assert (Hnone : forall k, k ∈ r2.*1 -> list_to_map (M := gmap (list Z) (list Z * Z)) r1 !! k = None /\ t !! k = None)
    by (intros k Hk; by apply lookup_union_None, F2).
  split.
  - rewrite fmap_app. apply NoDup_app. split_and!; [done | | done].
    intros k H1 H2. by apply (not_elem_of_list_to_map (M := gmap (list Z)) r1 k) in H1; [|apply Hnone].
  - intros k. rewrite fmap_app, elem_of_app. intros [Hk|Hk]; [by apply F1 | by apply Hnone].
  - rewrite list_to_map_app, !(assoc_L (∪)). f_equal. apply map_union_comm, map_disjoint_list_to_map_l, Forall_forall.
    intros x Hx. apply Hnone. by apply list_elem_of_fmap_2.
Qed.

Lemma rows_added_one t k v : t !! k = None -> rows_added t [(k, v)] (<[k := v]> t).
Proof.
  intros Hk. split; [apply NoDup_singleton | intros k'; cbn; intros ->%list_elem_of_singleton; done|].
  cbn. by rewrite insert_empty, <- insert_union_singleton_l.
Qed.

Lemma index_serials_rows ins i t fault c have have' t' : index_serials i t fault ins c have = (false, have', t') ->
  rows_added t (spent_rows ins c) t' /\ have' = have || negb (bool_decide (spent_rows ins c = [])).
Proof.
  revert i t have. induction ins as [|x ins IH]; intros i t have; cbn [index_serials].
  - intros [= <- <-]. split; [apply rows_added_nil | by rewrite orb_false_r].
  - unfold spent_rows. rewrite filter_cons. destruct (no_serialnum x) eqn:Ex.
    + rewrite decide_False by done. apply IH.
    + rewrite decide_True by done. unfold SerialnumInsert. destruct (fault i || _) eqn:Ef; [done|].
      apply orb_false_iff in Ef as [_ Hk%bool_decide_eq_false]. apply eq_None_not_Some in Hk. cbn [Z.eqb negb].
      intros (Hrows & ->)%IH. split; [|by rewrite orb_true_r].
      exact (rows_added_app _ [_] _ _ _ (rows_added_one _ _ _ Hk) Hrows).
Qed.

Section indexed.
Context {D : Type} `{CommitDb D} `{TxOutputDb D} `{OutputHashes} `{ChainParams} `{AmtFloat} `{Libm} `{Hashes}.
Variables fails : nat -> bool.
Variables IsWitness old_tables : bool.
Variable store : positive -> ValidObjs.stored.

(** The transaction [i] is what the message at the start of [mem] says, with the root of its
    level and its pseudo serial number. *)
Definition pseudo_of (mem : list Z) (tx : TxPay) (i : indexed_tx) : Prop :=
  exists root v, CheckCreatePseudoSerialnum (txs_view tx) (xtx_view <$> i_xtx i) mem true = Ret v
    /\ i_tx i = put_view (tx_set_commit_iv tx{{tx_merkle_root := root}}) v.

(** The transactions of the data of a block, one after the other. *)
Inductive reads : list Z -> list indexed_tx -> Prop :=
| reads_nil : reads [] []
| reads_tx mem tx i txs : mem <> [] -> tx_from_wire field_prime mem (le_val (take 4 mem)) = Ret (inr tx) -> pseudo_of mem tx i ->
    reads (drop (Z.to_nat (le_val (take 4 mem))) mem) txs -> reads mem (i :: txs).

Lemma txs_view_root (tx : TxPay) root : txs_view (tx_set_commit_iv tx{{tx_merkle_root := root}}) = txs_view tx.
Proof. unfold tx_set_commit_iv. by destruct (override_commitment_iv__ _). Qed.

Lemma index_read_ok (s : index_state D) f mem tx xtx : index_read old_tables s f mem = Ret (Indexed, tx, xtx) ->
  exists tx0, tx_from_wire field_prime mem (le_val (take 4 mem)) = Ret (inr tx0) /\ forall c, pseudo_of mem tx0 (mkIndexedTx tx xtx c).
Proof.
  unfold index_read. intros E. returned E. destruct v as [?|tx0]; [done|]. exists tx0. split; [done|]. intros c.
  destruct (Merkle.CommitRootsSelectLevel _ _) as [rc root]. destruct (rc =? 0); cbn [negb] in E; [|done].
  returned E. exists (bval (cr_root root)). destruct v as [x|].
  - returned E. injection E as <- <-. exists v. by rewrite txs_view_root in E2.
  - destruct (TypeIsXtx _); [done|]. returned E. injection E as <- <-. exists v. by rewrite txs_view_root in E2.
Qed.

Lemma AddOneXreq_nums (n : node D) f1 f2 x fr rc x' n' : AddOneXreq fails n f1 f2 x fr = Ret (rc, x', n') ->
  next_xreqnum n' = next_xreqnum n /\ w_commitments (n_world n') = w_commitments (n_world n).
Proof.
  unfold AddOneXreq. intros E. returned E. destruct v as [[rc0 x0] db]. destruct (rc0 =? 0); cbn [negb] in E; [|by injection E as <- <- <-].
  returned E. destruct (XmatchreqInsert _ _ _ _ _) as [rc1 m]. by injection E as <- <- <-.
Qed.

Lemma u64_succ a : u64 (u64 a + 1) = u64 (a + 1).
Proof. unfold u64, wrap. by rewrite Zplus_mod_idemp_l. Qed.

Lemma AddXreq_nums (n : node D) f t terms oid fr n' : AddXreq fails n f t terms oid fr = Ret (false, n') ->
  next_xreqnum n' = u64 (next_xreqnum n + (if t_type terms =? CC_TYPE_XCX_MINING_TRADE then 2 else 1))
  /\ w_commitments (n_world n') = w_commitments (n_world n).
Proof.
  unfold AddXreq, take_xreqnum. set (x := (new_request _){{x_xreqnum := _; x_blocktime := _}}).
  assert (x_type x = t_type terms) as -> by done. destruct (_ =? CC_TYPE_XCX_MINING_TRADE); cbn [negb]; intros E.
  - returned E. returned E. cbn zeta in E. returned E. destruct v1 as [[rc buy] n1]. destruct (AddOneXreq_nums _ _ _ _ _ _ _ _ E2) as [N1 C1].
    destruct rc; [done|]. returned E. destruct v1 as [[rc s] n2]. injection E as -> <-. destruct (AddOneXreq_nums _ _ _ _ _ _ _ _ E3) as [N2 C2].
    rewrite N2, N1, C2, C1. cbn -[u64]. cbv [constant]. rewrite u64_succ. split; [f_equal; lia | done].
  - returned E. destruct v as [[rc s] n2]. injection E as -> <-. by destruct (AddOneXreq_nums _ _ _ _ _ _ _ _ E0) as [-> ->].
Qed.

Lemma index_request_nums (n : node D) f t tx xtx mem c n' : 0 <= next_xreqnum n < 2 ^ 64 -> index_request fails n f t tx xtx mem = Ret (false, n') ->
  next_xreqnum n' = u64 (next_xreqnum n + requests (mkIndexedTx tx xtx c)) /\ w_commitments (n_world n') = w_commitments (n_world n).
Proof.
  intros Hn. unfold index_request, requests. cbn [i_tx i_xtx]. destruct (TypeIsXreq _); cbn [negb].
  - destruct xtx as [[terms| |]|]; try done. intros E. returned E. by eapply AddXreq_nums.
  - intros [= <-]. by rewrite Z.add_0_r, u64_small.
Qed.

(** What indexing a transaction does, with the number of its first commitment. *)
Record tx_indexed (s : index_state D) (mem : list Z) (i : indexed_tx) (s' : index_state D) : Prop := {
  tx_read : exists tx, tx_from_wire field_prime mem (le_val (take 4 mem)) = Ret (inr tx) /\ pseudo_of mem tx i;
  tx_number : i_commitnum i = m_next_commitnum (w_commitments (n_world (ix_node s)));
  tx_some : spends i <> [];
  tx_rows : rows_added (ix_serials s) (spends i) (ix_serials s');
  tx_requests : next_xreqnum (ix_node s') = u64 (next_xreqnum (ix_node s) + requests i)
}.

Lemma IndexTx_indexed (s : index_state D) f t mem s' : 0 <= next_xreqnum (ix_node s) < 2 ^ 64 ->
  IndexTx fails IsWitness old_tables store s f t mem = Ret (Indexed, s') -> exists i, tx_indexed s mem i s'.
Proof.
  intros Hn. unfold IndexTx. intros E. returned E. returned E. returned E. destruct v0 as [[e tx] xtx]. destruct e; [|done|done].
  destruct (index_read_ok _ _ _ _ _ E1) as (tx0 & Etx & Hps). cbn [ix_node] in E.
  returned E. destruct v0 as [rc n1]. cbn [fst snd] in E. destruct rc; [done|].
  set (c := m_next_commitnum (w_commitments (n_world (ix_node s)))).
  destruct (index_request_nums _ _ _ _ _ _ c _ Hn E2) as [Hnums Hcom].
  change (ix_node (with_node _ n1)) with n1 in E. change (fst (GetNextCommitnum ?x false)) with (m_next_commitnum x) in E. rewrite Hcom in E. fold c in E.
  destruct (index_serials _ _ _ _ _ _) as [[rc have] rows] eqn:Es. destruct rc; [done|].
  destruct (index_serials_rows _ _ _ _ _ _ _ _ Es) as [Hrows Hhave]. returned E. cbn [orb] in Hhave.
  destruct (index_outputs _ _ _) as [rc w]. destruct rc; [done|]. returned E. destruct v0 as [[rc d] w']. destruct rc; [done|].
  injection E as <-. exists (mkIndexedTx tx xtx c). split.
  - by exists tx0.
  - done.
  - unfold spends. cbn [i_tx i_commitnum]. intros Hnil. by rewrite Hnil in Hhave.
  - exact Hrows.
  - exact Hnums.
Qed.

(** A message has a header, so reading one moves on. *)
Lemma tx_from_wire_size P buf binsize tx : tx_from_wire P buf binsize = Ret (inr tx) -> 8 <= binsize.
Proof.
  intros E. destruct (Z.le_gt_cases 8 binsize) as [|Hs]; [done|]. exfalso. revert E.
  unfold tx_from_wire, tx_add_from_wire. unfold mbind at 1, wired_bind at 1. destruct (copy_from_buf buf binsize 4 4 0) as [[?|[w p]]|] eqn:E1; [done| |done].
  assert (p = 4) as ->.
  { revert E1. unfold copy_from_buf, mbind, wired_bind, copy_from_bufl. cbv zeta. change (u32 (0 + 4)) with 4.
    destruct (4 <=? binsize); [destruct (_ || _); [done|]|]; by intros [= _ <-]. }
  unfold mbind at 1, wired_bind at 1. unfold wcheck at 1. destruct (binsize <? w); [done|]. cbn [mret wired_ret].
  unfold mbind at 1, wired_bind at 1.
  assert (copy_from_buf buf binsize 4 4 4 = Ret (inr (0, 8))) as ->.
  { unfold copy_from_buf, mbind, wired_bind, copy_from_bufl. cbv zeta. change (u32 (4 + 4)) with 8.
    rewrite (proj2 (Z.leb_gt 8 binsize)) by lia. reflexivity. }
  cbv zeta. done.
Qed.

Lemma index_loop_end fuel k (s : index_state D) faults stop t mem :
  (length mem <= fuel)%nat -> index_loop fails IsWitness old_tables store fuel k s faults stop t mem = Throw FuelOut ->
  exists s' k' mem', IndexTx fails IsWitness old_tables store s' (faults k') t mem' = Throw FuelOut.
Proof.
  revert k s mem. induction fuel as [|fuel IH]; intros k s mem Hf E.
  - destruct mem; [done | cbn in Hf; lia].
  - cbn [index_loop] in E. destruct (_ || _) eqn:Eb; [done|]. apply orb_false_iff in Eb as [Hm%bool_decide_eq_false _].
    destruct (IndexTx _ _ _ _ s (faults k) t mem) as [[e s1]|x] eqn:E1; cbn [outcome_bind] in E.
    + destruct e; [|done|done]. apply (IH (S k) s1 _) in E; [done|].
      assert (8 <= le_val (take 4 mem)).
      { revert E1. unfold IndexTx, index_read. intros E1. returned E1. returned E1. returned E1. returned E2.
        destruct v1 as [?|tx]; [injection E2 as <-; done|]. by eapply tx_from_wire_size. }
      rewrite length_drop. destruct mem; [done|]. cbn in *. lia.
    + exists s, k, mem. by rewrite E1, E.
Qed.

Lemma index_serials_grows ins i t fault c have : t ⊆ snd (index_serials i t fault ins c have).
Proof.
  revert i t have. induction ins as [|x ins IH]; intros i t have; [done|]. cbn [index_serials].
  destruct (no_serialnum x); [apply IH|]. unfold SerialnumInsert. destruct (fault i || _) eqn:Ef; [done|].
  apply orb_false_iff in Ef as [_ Hk%bool_decide_eq_false%eq_None_not_Some]. cbn [Z.eqb negb].
  etrans; [exact (insert_subseteq t _ (serial_hashkey x, c) Hk) | apply IH].
Qed.

Lemma IndexTx_grows (s : index_state D) f t mem e s' :
  IndexTx fails IsWitness old_tables store s f t mem = Ret (e, s') -> ix_serials s ⊆ ix_serials s'.
Proof.
  unfold IndexTx. intros E. returned E. returned E. returned E. destruct v0 as [[[] tx] xtx]; [|by injection E as _ <-..].
  returned E. destruct v0 as [[] n1]; cbn [fst snd] in E; [by injection E as _ <-|].
  pose proof (index_serials_grows (take (Z.to_nat (nin tx)) (inputs tx)) 0 (ix_serials s) (xf_serial f)
    (fst (GetNextCommitnum (w_commitments (n_world n1)) false)) false) as Hg.
  change (ix_node (with_node _ n1)) with n1 in E. change (ix_serials (with_node s{{ix_valid := v}} n1)) with (ix_serials s) in E.
  destruct (index_serials _ _ _ _ _ _) as [[rc have] rows]. cbn [snd] in Hg. destruct rc; [by injection E as _ <-|].
  returned E. destruct (index_outputs _ _ _) as [[] w]; [by injection E as _ <-|]. returned E.
  destruct v0 as [[[] d] w']; by injection E as _ <-.
Qed.

Lemma index_loop_grows fuel k (s : index_state D) faults stop t mem e s' :
  index_loop fails IsWitness old_tables store fuel k s faults stop t mem = Ret (e, s') -> ix_serials s ⊆ ix_serials s'.
Proof.
  revert k s mem. induction fuel as [|fuel IH]; intros k s mem E; cbn [index_loop] in E; destruct (_ || _); try done; try (by injection E as _ <-).
  returned E. destruct v as [[] s1]; [etrans; [by eapply IndexTx_grows | by eapply IH] | by injection E as _ <-; eapply IndexTx_grows..].
Qed.


(** The transactions at the start of the data of a block, one after the other, and the data from
    the next one on. *)
Inductive reads_to : list Z -> list indexed_tx -> list Z -> Prop :=
| reads_here mem : reads_to mem [] mem
| reads_one mem tx i txs mem' : mem <> [] -> tx_from_wire field_prime mem (le_val (take 4 mem)) = Ret (inr tx) -> pseudo_of mem tx i ->
    reads_to (drop (Z.to_nat (le_val (take 4 mem))) mem) txs mem' -> reads_to mem (i :: txs) mem'.

(** A message of a transaction with a root of its level that cannot be read, or the match of
    whose claim cannot. *)
Definition unreadable (s : index_state D) (f : tx_faults) (mem : list Z) : Prop :=
  exists tx root, tx_from_wire field_prime mem (le_val (take 4 mem)) = Ret (inr tx) /\ TypeIsXtx (tag_type tx) = true
    /\ Merkle.CommitRootsSelectLevel (w_db (n_world (ix_node s))) (param_level tx) = (0, root)
    /\ ExtractXtx_db old_tables (w_matches (n_world (ix_node s))) (xf_match f) (tx_set_commit_iv tx{{tx_merkle_root := bval (cr_root root)}}) = Ret None.

(** A transaction that is given up has recorded nothing. *)
Lemma IndexTx_abandoned (s : index_state D) f t mem s' :
  IndexTx fails IsWitness old_tables store s f t mem = Ret (Abandoned, s') ->
  unreadable s' f mem /\ mem <> [] /\ ix_serials s' = ix_serials s /\ ix_node s' = ix_node s.
Proof.
  unfold unreadable, IndexTx. intros E. returned E. returned E. returned E. destruct v0 as [[e tx] xtx]. destruct e.
  - returned E. destruct v0 as [[] n1]; cbn [fst snd] in E; [done|]. destruct (index_serials _ _ _ _ _ _) as [[[] have] rows]; [done|].
    returned E. destruct (index_outputs _ _ _) as [[] w]; [done|]. returned E. by destruct v0 as [[[] d] w'].
  - injection E as <-. split; [|split; [intros ->; discriminate | by split]]. revert E1. unfold index_read. intros E1. returned E1. destruct v0 as [?|tx0]; [done|].
    destruct (Merkle.CommitRootsSelectLevel _ _) as [rc root] eqn:Er. destruct (Z.eqb_spec rc 0) as [->|]; cbn [negb] in E1; [|done].
    returned E1. exists tx0, root. split; [done|].
    assert (Htag : tag_type (tx_set_commit_iv tx0{{tx_merkle_root := bval (cr_root root)}}) = tag_type tx0).
    { unfold tx_set_commit_iv. by destruct (override_commitment_iv__ _). }
    destruct v0 as [x|]; [by returned E1|]. rewrite Htag in E1. destruct (TypeIsXtx _); [done | by returned E1].
  - done.
Qed.

End indexed.

(** ** Examples *)

#[local] Existing Instance amounts27.
#[local] Existing Instance exact_log2.
#[local] Existing Instance Txs.demo_hashes.

(** A payment that spends nothing of its own, and a claim for the match 5 of [demo_world]. *)
Definition demo_pay : list Z := le_bytes 4 457 ++ le_bytes 4 CC_TAG_TX ++ replicate 449 0.
Definition demo_claim : list Z :=
  let data := le_bytes 8 5 ++ le_bytes 4 (2 ^ 31) ++ [1; 169; 97; 169; 98] in
  let body := replicate (Z.to_nat TX_POW_SIZE) 0 ++ data in
  le_bytes 4 (8 + Z.of_nat (length body)) ++ le_bytes 4 CC_TAG_XCX_PAYMENT ++ body.
Definition demo_block_data : list Z := demo_pay ++ demo_claim.

Definition demo_index : index_state demo_outputs := mkIndexState (demo_node ∅) ∅ vo_start 0.
Definition no_tx_faults : tx_faults := mkTxFaults false false false (fun _ => false) (fun _ => false) (fun _ _ => false) (fun k => Z.of_nat k + 1).
Definition demo_store (_ : positive) : ValidObjs.stored := demo_mem 1.
(** The second transaction finds no match when the database fails. *)
Definition match_fault (k : nat) : tx_faults := if bool_decide (k = 1%nat) then mkTxFaults false false true (fun _ => false) (fun _ => false) (fun _ _ => false) (fun _ => 1) else no_tx_faults.
#[local] Abbreviation demo_indexed faults := (IndexTxs works false false demo_store demo_index faults works 1000 demo_block_data).


